(* ===== verification/_CoqProject ===== *)
-Q . S2P
Prelude.v
GoStrings.v
GoTime.v
Canonical.v
Sha256.v
Ranking.v
Eligibility.v
Domain.v
Evidence.v
Lifecycle.v
Maintenance.v
Kahn.v
ToolContract.v
Synthesis.v
SynthesisSound.v
Budget.v
Interfaces.v
RetrievalQuery.v
Trace.v
Sanitize.v
Archive.v
RetrievalDocument.v
Projection.v
ProjectionSound.v
RetrievalChannels.v
RetrievalRun.v
RetrievalRunSound.v
PublicationStore.v
PublicationSound.v
Search.v
RetrievalRunStore.v
RetrievalService.v
RetrievalServiceSound.v
Compatibility.v
Planner.v
PlannerSound.v
Parallel.v
Experiment.v
Selection.v
Issuer.v
Credit.v
Ledger.v
Intake.v
Pipeline.v
PipelineSound.v
Outbox.v
Jev.v
JevLedger.v
JevService.v
