(* ===== verification/Prelude.v ===== *)
(** * Verification of memJev

    memJev is a service, written in Go, that turns verified runs of agents into
    versioned procedures and recalls a fitting procedure for a later task.  This
    library models the packages that decide (all under internal/) and proves
    what makes their decisions correct.

    ** The program and its parts

    A run enters as a protobuf message.  The ingest service (ingest) checks the
    principal and the consent of the tenant, bounds and redacts the text, builds
    the canonical trace (evidence, canonical), archives it encrypted (archive)
    and records it with an idempotency key in a ledger of receipts (store); the
    outcome service (outcome) records later reports on the trace, and on the
    selected plan that it ran, in the same ledger.  Five durable stages then
    work on an accepted trace (workflow): its tools resolve to contracts
    (toolcontract), the trace becomes a causal graph, and from the graph and the
    verified outcome (evidence) a procedure is synthesized (synthesis) and
    projected to content-addressed families, versions, steps and a retrieval
    document (projection), which a store publishes under a growing epoch with a
    chain of hashes.  The lifecycle of a version moves by its record of outcomes
    (lifecycle) and every move publishes a revised document in the same store.
    Versions take part in experiments (experiment).  At recall the service
    (retrieval) normalizes the query, takes a snapshot of configuration and
    epoch, collects candidates from channels that run concurrently, passes them
    through the eligibility gate (eligibility), ranks them (ranking), possibly
    has them judged semantically (jev), and stores the whole decision as a run
    that later requests replay.  Selected versions are composed into a plan along
    the resources they provide and require (composition), which the planning
    service issues (planning).  A committed selection (selection) binds the plan
    to the query, and later outcomes are credited to it (credit).  Background
    jobs run from a leased queue (maintenance).  Every manifest, decision and
    record is a value with a content address: the SHA-256 of its canonical JSON
    (canonical).

    ** Files

    - [Prelude]: errors, the result monad, machine integers, [sort.Slice],
      shared list lemmas.  [GoStrings], [GoTime]: what the program uses of the
      Go packages strings, regexp, sort and time.
    - [Canonical] (canonical/marshal.go): JSON encoding, [MarshalAndHash];
      [Sha256]: the digest.  [Domain] (domain/): traces, steps, outcomes.
    - [Ranking] (ranking/), [Eligibility] (eligibility/), [Evidence]
      (evidence/), [Lifecycle] (lifecycle/): one decision function each, with
      its manifest.
    - [Maintenance] (maintenance/, store/memory/maintenance.go): the queue as a
      state with one atomic step per locked operation, and the runner.
    - [Kahn]: the topological loop shared by planner and causal graphs.
    - [ToolContract] (toolcontract/), [Synthesis], [SynthesisSound]
      (synthesis/, workflow/processor.go).
    - [Trace] (contracts/, canonical/normalize.go and verify.go,
      evidence/canonical.go, domain/trace.go): from the message to the canonical
      trace and its content address.  [Sanitize] (ingest/sanitize.go, limits.go):
      control characters, limits, redaction.  [Archive] (archive/): names,
      envelopes and the stored bytes.
    - [Ledger] (store/ingest.go, store/outcome.go, store/memory/ingest.go): the
      state that both services share.  [Intake] (ingest/service.go,
      outcome/service.go, policy/, security/principal.go): the services.
    - [Pipeline] (workflow/processor.go, synthesis.go, activities.go, client.go,
      store/surreal/workflow.go): every stage as an effect program over the
      store of artifacts, the activities with their retries, and the interleaving
      of workers.  [PipelineSound]: its theorems.
    - [Projection], [ProjectionSound] (projection/), [PublicationStore],
      [PublicationSound] (store/memory/projection.go and lifecycle.go, which
      share one state).
    - [RetrievalQuery], [RetrievalDocument], [RetrievalChannels],
      [RetrievalRun], [RetrievalRunSound], [RetrievalRunStore]
      (store/memory/retrieval_run.go over the projection store),
      [RetrievalService], [RetrievalServiceSound] (retrieval/).
    - [Budget], [Interfaces], [Compatibility], [Planner], [PlannerSound],
      [Parallel] (composition/, with interfaces from domain/ and retrieval/):
      compatibility graphs, the beam search, parallel schedules.  The work
      budget and the polls of the context are the monad [work] of [Budget].
    - [Experiment] (experiment/, store/memory/experiment.go), [Selection]
      (selection/, store/memory/selection.go), [Issuer] (planning/), [Credit]
      (credit/).
    - [Jev], [JevLedger], [JevService] (jev/): quantization, admission, rubrics,
      the ledger of judgments, the circuit breaker, and the service around them.

    A Go struct is a record with the fields' names under a short prefix; a
    method that changes its receiver takes and returns the state; an error is a
    value of [result], and where a caller can tell errors apart they are
    different constructors of [goerr] (messages and wrapping are dropped).  A
    64-bit integer is a [Z] with its wrap-around written out where the code can
    reach it.  A map is a [gmap]; where the code iterates over a map, the result
    is sorted before it is used, and the model sorts [map_to_list].  [sort.Slice]
    is a stable insertion sort: theorems that depend on the order of equal
    elements either show that there are none or say so.  A mutex-protected
    operation is one step; contexts and clocks are arguments.  Goroutines that
    answer on a channel are a sequence of events, and the theorems hold for every
    sequence.  A service calls its repositories through a record of operations on
    an abstract world ([Dependencies]) or through an inductive type of effects
    ([Pipeline.effect]), so that its theorems hold for every implementation and
    for every interference of other callers between two calls.

    ** What the theorems show

    - Decisions are exactly their specifications: [Rank_exact],
      [Evaluate_eligible_iff], [Evaluate_verified_iff],
      [Evaluate_promotion_iff], [WilsonLowerBoundPPM_spec], [Assign_exact],
      [Credit_exact], [Admit_exact], [decimalMicros_exact], [Resolve_exact],
      [CollectCandidates_exact], [Sanitize_exact].
    - Constructions are exact: [Build_exact], [Synthesize_exact],
      [BuildCompatibilityGraph_exact], [provides_exact],
      [topologicalOrder_correct]; plans and schedules are sound:
      [PlanProcedures_sound], [PlanProcedures_valid],
      [DeriveParallelSchedule_correct].  What evidence builds is what its
      verifier accepts: [Build_verifies], [Canonicalize_verifies],
      [archive_roundtrip].
    - Components fit together: [pipeline_exact] (processor and synthesizer),
      [derived_schedule_matches] (planner, schedules, selections),
      [Build_publishable] (synthesizer, projection, store), [snapshot_savable]
      (snapshots, publications, runs), [Retrieve_is_replay] and
      [Retrieve_selects_eligible] (service, gate, ranking, stored runs),
      [traces_archived] (ingest, archive, ledger), [credit_authentic] (outcomes,
      selections, ledger), [complete_plan_certified] and
      [issued_plan_answers_run] (planning, composition, runs),
      [answers_from_ledger] (judgment service and ledger), [published_verified]
      (all stages: what is published was computed from a verified outcome).
    - Decisions do not depend on the order of their inputs: [Rank_permutation],
      [Evaluate_permutation], [Canonicalize_order], [RunOnce_interleaving],
      [BuildQuery_order], [BuildRun_order], [CollectCandidates_order],
      [Build_order].
    - Values are well formed: [ValidateRun_typed], [resourceIdentity_confined];
      what is built validates and decodes ([BuildRun_decodes],
      [PlanProcedures_valid]); text leaves the sanitizer without control
      characters ([stripControls_clean]).
    - State over any history: the queue ([superseded_lease_rejected],
      [live_lease_exclusive], [finished_job_final]), the registry
      ([Register_final]), experiments ([Reserve_exposure_bounded],
      [Reserve_stable]), selections ([Commit_at_most_once], and
      [repository_refines_log], a refinement of a log of records), the ledger of
      traces and outcomes ([ledger_integrity], [credit_once], [receipt_final],
      [Ingest_exactly_once]), judgments ([Commit_linked]), the breaker
      ([breaker_never_stuck], [service_breaker_live], [capacity_bounded]), the
      lifecycle ([lifecycle_reachability]), the publication stores
      ([store_refines_log], a refinement of an append-only log for every order in
      which maps are ranged over, [snapshot_repeatable], [epoch_hash_binds],
      [Publish_once], [stale_decision_refused]), stored runs
      ([saved_run_returned]), the artifacts of the stages, for every
      interleaving of workers ([artifacts_computed], [workflow_resumes]).
    - Limits: scores never overflow, planning never exceeds its budget
      ([PlanProcedures_within_budget]).
    - Behaviour that the code does not intend is proved on concrete inputs:
      [PlanProcedures_self_satisfied], [Credit_order_dependent],
      [NewManifest_untrimmed_duplicate], [Evaluate_long_trigger],
      [ValidateManifest_reordered], [exact_distribution_rejected],
      [two_probes_in_flight], [features_not_validated], [Synthesize_drops_proof],
      [stranded_head_is_final], [champion_removed_by_other_version],
      [failed_publication_reported_duplicate], [respelled_config_refuses_runs],
      [padded_region_kept], [resourceIdentity_drive], [blank_task_unpublishable].

    ** Parameters

    Code outside the repository is an interface: [JCS] (gowebpki/jcs) with
    [JCSLaws], [NFC] (x/text/unicode/norm) with [NFCLaws], [Semver] with
    [SemverLaws] (x/mod/semver), [Registry] (any tool registry), [RawCanonical]
    (the transform of raw JSON bytes), [RunDecoder] (encoding/json reading a
    stored run), [RawMessage] and [PayloadDecoder] with [PayloadLaws]
    (encoding/json reading an artifact), [Protobuf] with [ProtobufLaws] (the
    generated message code), [ArtifactTable] with [ArtifactTableLaws] (one table
    of the database), the redactor and the detector of credentials, the rate
    limiter.  [Digest] is an interface with the instance [sha256_digest].
    Witnesses use concrete instances; most use [checksum_digest], which is cheap
    to compute.

    ** Bounds and fuel

    Loops that are not structural run on fuel that is proved to be enough: the
    topological loop needs a turn per node and gets one per node and edge
    ([order_loop_spec]); the worklist of [Synthesize] pushes each node at most
    once and gets the number of nodes ([drain_reaches]); the Wilson bisection
    halves an interval of a million and gets twenty turns
    ([WilsonLowerBoundPPM_spec]); binary search gets the length of its slice;
    the beam search is bounded by the depth of its manifest.

    ** Not modelled

    The HTTP and RPC layer, configuration, metrics and process start are input
    and output.  The SurrealDB stores are queries to an external database: what
    is modelled of them is the protocol of stage artifacts, over a table with
    laws.  Embeddings are vectors of an external model and are indexed by the
    database.  Query envelopes are AES-GCM and run identifiers random bytes. *)

From Stdlib Require Import ZArith String Ascii List Bool Lia.
From stdpp Require Import base gmap strings list sorting.

Open Scope Z_scope.

(** ** Errors and results

    Go functions return [(value, error)]; the sentinel errors of the modelled
    packages are the constructors of [goerr]. *)
Inductive goerr :=
| ErrMarshal
| ErrCanonicalize
| CtxCanceled
| CtxDeadlineExceeded
| ErrRankingInvalidManifest
| ErrInvalidCandidate
| ErrInvalidPolicy
| ErrInvalidEvidence
| ErrInvalidEvidencePolicy
| ErrInvalidLifecycle
| ErrInvalidExperiment
| ErrExperimentConflict
| ErrExperimentNotFound
| ErrInvalidCompatibilityInput
| ErrCompositionConflict
| ErrInvalidPlannerManifest
| ErrInvalidPlanRequest
| ErrInvalidParallelRequest
| ErrPlanCycle
| ErrPlanLimit
| ErrWorkLimit
| ErrInvalidDocument
| ErrInvalidProjection
| ErrProjectionConflict
| ErrProjectionNotFound
| ErrLifecycleConflict
| ErrChampionConflict
| ErrLifecycleNotFound
| ErrInvalidSelection
| ErrSelectionIdempotencyConflict
| ErrRetrievalRunConflict
| ErrSelectionNotFound
| ErrSelectionExpired
| ErrInvalidCredit
| ErrInvalidJob
| ErrJobConflict
| ErrJobNotFound
| ErrStaleLease
| ErrInvalidProbability
| ErrInvalidAdmission
| ErrInvalidJudgment
| ErrInvalidRubric
| ErrJudgmentNotFound
| ErrInvalidQuery
| ErrInvalidChannels
| ErrInvalidRun
| ErrRunNotFound
| ErrServingConfigUnavailable
| ErrRetrievalSnapshotMismatch
| ErrServiceUnavailable
| ErrRecallDenied
| ErrIdempotencyConflict
| ErrPlanUnavailable
| ErrPlanNotFound
| ErrInvalidToolManifest
| ErrVersionConflict
| ErrAliasConflict
| ErrInvalidToolQuery
| ErrInvalidBuildRequest
| ErrMissingResource
| ErrUnknownDependency
| ErrCausalCycle
| ErrInvalidSynthesisRequest
| ErrInvalidStartRequest
| ErrCircuitOpen
| ErrNotFound
| ErrViolation
| ErrProtoRules
| ErrUnnormalized
| ErrInvalidCanonicalBatch
| ErrInvalidCommit
| ErrKeyReused
| ErrInjectedFailure
| ErrTraceConflict
| ErrInvalidOutcomeCommit
| ErrOutcomeTraceNotFound
| ErrOutcomeSelectionNotFound
| ErrOutcomeSupersessionInvalid
| ErrOutcomeCreditClaimed
| ErrInvalidCommand
| ErrPermissionDenied
| ErrMisconfigured
| ErrSensitiveEvidence
| ErrConsentDenied
| ErrForbiddenField
| ErrValueTooLarge
| ErrTraceTooLarge
| ErrInvalidTrace
| ErrInvalidArchiveRequest
| ErrHashMismatch
| ErrArchiveNotFound
| ErrTooLarge
| ErrStageArtifactNotFound
| ErrStageArtifactConflict
| ErrDatabase
| ErrInvalidLeaseRequest
| ErrOutboxJobNotFound
| ErrInvalidErasure
| ErrErasureConflict
| ErrArchiveIncomplete
| ErrInvalidDerivedSnapshot
| ErrProjectionMismatch
| ErrInvalidRebuild
| ErrUnsupportedSchema
| ErrIdentityMismatch
| ErrInvalidPayload
| ErrStage (code : string) (retryable : bool).

#[export] Instance goerr_eq_dec : EqDecision goerr.
Proof. solve_decision. Defined.

Inductive result (A : Type) :=
| Ok (a : A)
| Err (e : goerr).
Arguments Ok {A} a.
Arguments Err {A} e.

Definition bind {A B} (m : result A) (k : A -> result B) : result B :=
  match m with
  | Ok a => k a
  | Err e => Err e
  end.

Lemma Ok_inj {A} (a b : A) : Ok a = Ok b -> a = b.
Proof. by injection 1. Qed.

Lemma bind_Ok {A B} (m : result A) (k : A -> result B) b : bind m k = Ok b -> exists a, m = Ok a /\ k a = Ok b.
Proof. destruct m as [a|e]; [|done]. by exists a. Qed.

(** Goes through the binds and guards of [H : f ... = Ok v]. *)
Ltac inv_Ok H :=
  lazymatch type of H with
  | bind _ _ = Ok _ => apply bind_Ok in H as (? & ? & H); inv_Ok H
  | (if ?b then Err _ else _) = Ok _ => let E := fresh "E" in destruct b eqn:E; [discriminate H|]; inv_Ok H
  | (let (_, _) := ?p in _) = Ok _ => destruct p; inv_Ok H
  | _ => idtac
  end.

Declare Scope go_scope.
Delimit Scope go_scope with go.

Notation "'let*' x := m 'in' k" := (bind m (fun x => k))
  (at level 10, x pattern, m at level 100, k at level 200) : go_scope.
Notation "'reject' b 'with' e ; k" := (if b then Err e else k)
  (at level 10, b at level 100, e at level 100, k at level 200) : go_scope.

Definition is_ok {A} (r : result A) : bool :=
  match r with Ok _ => true | Err _ => false end.

(** [err != nil] on a function returning only an error. *)
Definition failed {A} (r : result A) : bool := negb (is_ok r).

Create Rewrite HintDb goboolsimpl.

(** ** Machine integers

    A Go integer of width [w] is a [Z] in the range of that width; arithmetic
    that can leave the range is wrapped explicitly. *)
Definition MaxInt64 : Z := 9223372036854775807.
Definition MinInt64 : Z := -9223372036854775808.
Definition MaxInt32 : Z := 2147483647.
Definition MinInt32 : Z := -2147483648.
Definition MaxUint32 : Z := 4294967295.
Definition MaxUint64 : Z := 18446744073709551615.

Definition in_i64 (z : Z) : Prop := MinInt64 <= z <= MaxInt64.
Definition in_i32 (z : Z) : Prop := MinInt32 <= z <= MaxInt32.
Definition in_u32 (z : Z) : Prop := 0 <= z <= MaxUint32.
Definition in_u64 (z : Z) : Prop := 0 <= z <= MaxUint64.

Definition wrap_u32 (z : Z) : Z := z mod 4294967296.
Definition wrap_u64 (z : Z) : Z := z mod 18446744073709551616.
Definition wrap_i64 (z : Z) : Z :=
  (z + 9223372036854775808) mod 18446744073709551616 - 9223372036854775808.

Ltac unfold_widths :=
  unfold in_i64, in_i32, in_u32, in_u64, MaxInt64, MinInt64, MaxInt32, MinInt32,
    MaxUint32, MaxUint64 in *.

Definition wrap_i32 (z : Z) : Z := (z + 2147483648) mod 4294967296 - 2147483648.

Lemma wrap_i32_id z : in_i32 z -> wrap_i32 z = z.
Proof. unfold_widths. unfold wrap_i32. intros Hz. rewrite Z.mod_small; lia. Qed.

Lemma wrap_i64_id z : in_i64 z -> wrap_i64 z = z.
Proof. unfold_widths. unfold wrap_i64. intros H. rewrite Z.mod_small; lia. Qed.

Lemma wrap_i64_range z : in_i64 (wrap_i64 z).
Proof.
  unfold_widths. unfold wrap_i64.
  pose proof (Z.mod_pos_bound (z + 9223372036854775808) 18446744073709551616). lia.
Qed.

Lemma wrap_i64_cong z : exists k, wrap_i64 z = z + k * 18446744073709551616.
Proof.
  unfold wrap_i64. exists (- ((z + 9223372036854775808) / 18446744073709551616)).
  pose proof (Z.div_mod (z + 9223372036854775808) 18446744073709551616). lia.
Qed.

Lemma wrap_u64_id z : in_u64 z -> wrap_u64 z = z.
Proof. unfold_widths. unfold wrap_u64. intros H. rewrite Z.mod_small; lia. Qed.

Lemma wrap_u32_id z : in_u32 z -> wrap_u32 z = z.
Proof. unfold_widths. unfold wrap_u32. intros H. rewrite Z.mod_small; lia. Qed.

(** ** Three-way comparisons

    The orders of the program are lexicographic combinations of byte-wise
    string order, integer order and boolean flags.  [LawfulCmp] states that a
    three-way comparison is a total preorder; [cmp_ltb] is the [less] it induces. *)
Class LawfulCmp {A} (cmp : A -> A -> comparison) : Prop := {
  cmp_opp : forall x y, cmp y x = CompOpp (cmp x y);
  cmp_le_trans : forall x y z, cmp x y <> Gt -> cmp y z <> Gt -> cmp x z <> Gt
}.

Definition cmp_ltb {A} (cmp : A -> A -> comparison) (x y : A) : bool :=
  match cmp x y with Lt => true | _ => false end.

Definition cmp_on {A K} (f : A -> K) (cmp : K -> K -> comparison) (x y : A) : comparison :=
  cmp (f x) (f y).

Definition cmp_rev {A} (cmp : A -> A -> comparison) (x y : A) : comparison := cmp y x.

Definition cmp_lex {A} (c1 c2 : A -> A -> comparison) (x y : A) : comparison :=
  match c1 x y with Eq => c2 x y | c => c end.

#[export] Typeclasses Opaque cmp_on cmp_rev cmp_lex.

(** [true] first, as in "[if l.flag != r.flag { return l.flag }]". *)
Definition cmp_flag (x y : bool) : comparison :=
  match x, y with
  | true, false => Lt
  | false, true => Gt
  | _, _ => Eq
  end.

#[export] Instance cmp_Z_lawful : LawfulCmp Z.compare.
Proof.
  split.
  - intros. apply Z.compare_antisym.
  - intros x y z H1 H2. rewrite Z.compare_le_iff in *. lia.
Qed.

#[export] Instance cmp_nat_lawful : LawfulCmp Nat.compare.
Proof.
  split.
  - intros. apply Nat.compare_antisym.
  - intros x y z H1 H2. rewrite Nat.compare_le_iff in *. lia.
Qed.

#[export] Instance cmp_flag_lawful : LawfulCmp cmp_flag.
Proof. split; [intros [] [] | intros [] [] []]; simpl; congruence. Qed.

#[export] Instance cmp_on_lawful {A K} (f : A -> K) cmp : LawfulCmp cmp -> LawfulCmp (cmp_on f cmp).
Proof. intros [Ho Ht]. split; unfold cmp_on; [auto | eauto]. Qed.

#[export] Instance cmp_rev_lawful {A} (cmp : A -> A -> comparison) : LawfulCmp cmp -> LawfulCmp (cmp_rev cmp).
Proof. intros [Ho Ht]. split; unfold cmp_rev; [auto | eauto]. Qed.

Lemma cmp_refl `{LawfulCmp A cmp} x : cmp x x = Eq.
Proof. pose proof (cmp_opp x x) as Hx. destruct (cmp x x); simpl in *; congruence. Qed.

Lemma cmp_lt_le_trans `{LawfulCmp A cmp} x y z : cmp x y = Lt -> cmp y z <> Gt -> cmp x z = Lt.
Proof.
  intros H1 H2. destruct (cmp x z) eqn:E; [|done|].
  - exfalso. assert (Hzx : cmp z x <> Gt) by (rewrite (cmp_opp x z), E; done).
    pose proof (cmp_le_trans y z x H2 Hzx) as Hyx. rewrite (cmp_opp x y), H1 in Hyx. done.
  - exfalso. eapply (cmp_le_trans x y z); [rewrite H1; done | done | done].
Qed.

Lemma cmp_le_lt_trans `{LawfulCmp A cmp} x y z : cmp x y <> Gt -> cmp y z = Lt -> cmp x z = Lt.
Proof.
  intros H1 H2. destruct (cmp x z) eqn:E; [|done|].
  - exfalso. assert (Hzx : cmp z x <> Gt) by (rewrite (cmp_opp x z), E; done).
    pose proof (cmp_le_trans z x y Hzx H1) as Hzy. rewrite (cmp_opp y z), H2 in Hzy. done.
  - exfalso. eapply (cmp_le_trans x y z); [done | rewrite H2; done | done].
Qed.

#[export] Instance cmp_lex_lawful {A} (c1 c2 : A -> A -> comparison) :
  LawfulCmp c1 -> LawfulCmp c2 -> LawfulCmp (cmp_lex c1 c2).
Proof.
  intros L1 L2. split; unfold cmp_lex.
  - intros x y. rewrite (cmp_opp (cmp := c1) x y). destruct (c1 x y); simpl; [apply cmp_opp | done | done].
  - intros x y z H1 H2.
    destruct (c1 x y) eqn:E1; [| |done]; destruct (c1 y z) eqn:E2; try done.
    + assert (c1 x z <> Gt) by (eapply cmp_le_trans; [rewrite E1 | rewrite E2]; done).
      destruct (c1 x z) eqn:E3; [|done|done]. eapply cmp_le_trans; eauto.
    + rewrite (cmp_le_lt_trans x y z); [done | rewrite E1; done | done].
    + rewrite (cmp_lt_le_trans x y z); [done | done | rewrite E2; done].
    + rewrite (cmp_lt_le_trans x y z); [done | done | rewrite E2; done].
Qed.

(** Go compares strings byte-wise; so does [String.compare]. *)
Lemma ascii_compare_N a b : Ascii.compare a b = N.compare (N_of_ascii a) (N_of_ascii b).
Proof. reflexivity. Qed.

Lemma N_of_ascii_inj a b : N_of_ascii a = N_of_ascii b -> a = b.
Proof. intros H. rewrite <- (ascii_N_embedding a), <- (ascii_N_embedding b). by rewrite H. Qed.

Lemma string_compare_le_trans (x y z : string) :
  String.compare x y <> Gt -> String.compare y z <> Gt -> String.compare x z <> Gt.
Proof.
  revert y z. induction x as [|a x IH]; intros [|b y] [|c z]; simpl; try done.
  rewrite !ascii_compare_N.
  destruct (N.compare_spec (N_of_ascii a) (N_of_ascii b)) as [E1|E1|E1]; [| |done];
  destruct (N.compare_spec (N_of_ascii b) (N_of_ascii c)) as [E2|E2|E2]; try done; intros H1 H2;
  destruct (N.compare_spec (N_of_ascii a) (N_of_ascii c)) as [E3|E3|E3]; try done; try lia.
  by eapply IH.
Qed.

#[export] Instance cmp_string_lawful : LawfulCmp String.compare.
Proof. split; [intros; apply String.compare_antisym | apply string_compare_le_trans]. Qed.

Definition str_ltb (x y : string) : bool := cmp_ltb String.compare x y.
Definition str_leb (x y : string) : bool := negb (str_ltb y x).

Lemma str_ltb_irrefl x : str_ltb x x = false.
Proof. unfold str_ltb, cmp_ltb. by rewrite cmp_refl. Qed.

Lemma str_total x y : str_ltb x y = false -> str_ltb y x = false -> x = y.
Proof.
  unfold str_ltb, cmp_ltb. rewrite (cmp_opp x y). destruct (String.compare x y) eqn:E; try done.
  intros _ _. by apply String.compare_eq_iff.
Qed.

(** ** Sorting

    [sort_slice less l] stands for [sort.Slice]: an insertion sort.  Wherever
    [less] separates distinct elements, every sorting algorithm returns the same
    list ([sort_slice_unique]), so the choice of algorithm is not observable. *)
Fixpoint insert_slot {A} (less : A -> A -> bool) (x : A) (l : list A) : list A :=
  match l with
  | [] => [x]
  | y :: l' => if less y x then y :: insert_slot less x l' else x :: y :: l'
  end.

Definition sort_slice {A} (less : A -> A -> bool) (l : list A) : list A :=
  foldr (insert_slot less) [] l.

Definition sort_strings (l : list string) : list string := sort_slice str_ltb l.

Lemma insert_slot_perm {A} (less : A -> A -> bool) x l : insert_slot less x l ≡ₚ x :: l.
Proof.
  induction l as [|y l IH]; simpl; [done|]. destruct (less y x); [|done].
  rewrite IH. apply Permutation_swap.
Qed.

Lemma sort_slice_perm {A} (less : A -> A -> bool) l : sort_slice less l ≡ₚ l.
Proof.
  induction l as [|x l IH]; simpl; [done|]. rewrite insert_slot_perm. by rewrite IH.
Qed.

Lemma sort_slice_length {A} (less : A -> A -> bool) l : length (sort_slice less l) = length l.
Proof. apply Permutation_length, sort_slice_perm. Qed.

Lemma sort_slice_elem {A} (less : A -> A -> bool) l x : x ∈ sort_slice less l <-> x ∈ l.
Proof. by rewrite sort_slice_perm. Qed.

Section sort_sorted.
Context {A : Type} (cmp : A -> A -> comparison) `{LC : !LawfulCmp cmp}.

Definition cmp_le (x y : A) : Prop := cmp x y <> Gt.

#[local] Instance cmp_le_transitive : Transitive cmp_le.
Proof using LC. intros x y z. apply cmp_le_trans. Qed.

Lemma insert_slot_sorted x l :
  StronglySorted cmp_le l -> StronglySorted cmp_le (insert_slot (cmp_ltb cmp) x l).
Proof using LC.
  induction l as [|y l IH]; intros Hs; simpl.
  { repeat constructor. }
  inversion Hs as [|? ? Hl Hy]; subst. unfold cmp_ltb at 1. destruct (cmp y x) eqn:E.
  - constructor; [done|]. constructor.
    + unfold cmp_le. rewrite (cmp_opp y x), E. done.
    + eapply List.Forall_impl; [|exact Hy]. intros z Hz. eapply cmp_le_trans; [|exact Hz].
      rewrite (cmp_opp y x), E. done.
  - constructor; [by apply IH|]. rewrite insert_slot_perm. constructor; [|done].
    unfold cmp_le. by rewrite E.
  - constructor; [done|]. constructor.
    + unfold cmp_le. rewrite (cmp_opp y x), E. done.
    + eapply List.Forall_impl; [|exact Hy]. intros z Hz. eapply cmp_le_trans; [|exact Hz].
      rewrite (cmp_opp y x), E. done.
Qed.

Lemma sort_slice_sorted l : StronglySorted cmp_le (sort_slice (cmp_ltb cmp) l).
Proof using LC.
  induction l as [|x l IH]; simpl; [constructor|]. by apply insert_slot_sorted.
Qed.

(** The sorted permutation is unique when [cmp] separates the elements. *)
Lemma sort_slice_unique l l' :
  (forall x y, x ∈ l -> y ∈ l -> cmp x y = Eq -> x = y) ->
  StronglySorted cmp_le l' -> l' ≡ₚ l -> sort_slice (cmp_ltb cmp) l = l'.
Proof using LC.
  intros Hsep Hs Hp. eapply (StronglySorted_unique_strong cmp_le).
  - intros x y Hx Hy H1 H2. rewrite sort_slice_elem in Hx. rewrite Hp in Hy.
    apply Hsep; [done..|]. unfold cmp_le in *. rewrite (cmp_opp x y) in H2.
    destruct (cmp x y); simpl in *; done.
  - apply sort_slice_sorted.
  - done.
  - by rewrite sort_slice_perm, Hp.
Qed.

Lemma sort_slice_perm_eq l l' :
  (forall x y, x ∈ l -> y ∈ l -> cmp x y = Eq -> x = y) -> l ≡ₚ l' ->
  sort_slice (cmp_ltb cmp) l = sort_slice (cmp_ltb cmp) l'.
Proof using LC.
  intros Hsep Hp. apply sort_slice_unique; [done|apply sort_slice_sorted|].
  by rewrite sort_slice_perm, Hp.
Qed.

Lemma sort_slice_id l : StronglySorted cmp_le l -> sort_slice (cmp_ltb cmp) l = l.
Proof using LC.
  induction l as [|x l IH]; intros Hs; simpl; [done|].
  inversion Hs as [|? ? Hl Hx]; subst. rewrite IH by done.
  destruct l as [|y l]; simpl; [done|]. inversion Hx as [|? ? Hxy]; subst.
  unfold cmp_ltb. rewrite (cmp_opp x y). unfold cmp_le in Hxy.
  destruct (cmp x y); simpl; try done.
Qed.
End sort_sorted.

Lemma sort_strings_sorted l : StronglySorted (cmp_le String.compare) (sort_strings l).
Proof. apply (sort_slice_sorted String.compare). Qed.

Lemma sort_strings_perm_eq l l' : l ≡ₚ l' -> sort_strings l = sort_strings l'.
Proof.
  intros Hp. apply (sort_slice_perm_eq String.compare); [|done].
  intros x y _ _. apply String.compare_eq_iff.
Qed.

Lemma sort_strings_elem l x : x ∈ sort_strings l <-> x ∈ l.
Proof. apply sort_slice_elem. Qed.

Lemma sort_strings_length l : length (sort_strings l) = length l.
Proof. apply sort_slice_length. Qed.

Lemma NoDup_sort_strings l : NoDup (sort_strings l) <-> NoDup l.
Proof. unfold sort_strings. by rewrite sort_slice_perm. Qed.

(** A slice sorted on a projection has a sorted projection. *)
Lemma StronglySorted_on {A K} (f : A -> K) (cmp : K -> K -> comparison) l :
  StronglySorted (cmp_le (cmp_on f cmp)) l -> StronglySorted (cmp_le cmp) (List.map f l).
Proof.
  induction 1 as [|x l Hl IH Hf]; simpl; constructor; [done|].
  rewrite List.Forall_map. done.
Qed.

Lemma StronglySorted_weaken {A} (R S : A -> A -> Prop) l :
  (forall x y, R x y -> S x y) -> StronglySorted R l -> StronglySorted S l.
Proof. intros Hi. induction 1; constructor; [done|]. eapply List.Forall_impl; [|done]. auto. Qed.

Lemma StronglySorted_nth_lt {A} (R : A -> A -> Prop) l i j x y :
  StronglySorted R l -> (i < j)%nat -> l !! i = Some x -> l !! j = Some y -> R x y.
Proof.
  intros Hs. revert i j. induction Hs as [|z l Hl IH Hf]; intros i j Hij Hx Hy; [done|].
  destruct j as [|j]; [lia|]. destruct i as [|i]; simpl in *; [|by eapply (IH i j); [lia|..]].
  injection Hx as ->. rewrite List.Forall_forall in Hf. apply Hf, list_elem_of_In. by eapply list_elem_of_lookup_2.
Qed.

(** ** List lemmas *)
Lemma forallb_perm {A} (f : A -> bool) l l' : l ≡ₚ l' -> forallb f l = forallb f l'.
Proof. induction 1; simpl; try congruence. destruct (f x), (f y); done. Qed.

Lemma sort_slice_ext {A} (f g : A -> A -> bool) l :
  (forall x y, f x y = g x y) -> sort_slice f l = sort_slice g l.
Proof.
  intros Hfg. assert (Hi : forall x l, insert_slot f x l = insert_slot g x l).
  { intros x l'. induction l' as [|y l' IH]; simpl; [done|]. by rewrite Hfg, IH. }
  induction l as [|x l IH]; simpl; [done|]. by rewrite IH, Hi.
Qed.

Lemma insert_slot_ext_on {A} (f g : A -> A -> bool) x l :
  (forall y, y ∈ l -> f y x = g y x) -> insert_slot f x l = insert_slot g x l.
Proof.
  induction l as [|y l IH]; intros Hfg; simpl; [done|]. rewrite (Hfg y) by left. destruct (g y x); [|done].
  f_equal. apply IH. intros z Hz. apply Hfg. by right.
Qed.

(** Only the comparisons of elements of the slice matter. *)
Lemma sort_slice_ext_on {A} (f g : A -> A -> bool) l :
  (forall x y, x ∈ l -> y ∈ l -> f x y = g x y) -> sort_slice f l = sort_slice g l.
Proof.
  induction l as [|x l IH]; intros Hfg; simpl; [done|].
  rewrite IH by (intros y z Hy Hz; apply Hfg; by right). apply insert_slot_ext_on.
  intros y Hy%sort_slice_elem. apply Hfg; [by right|by left].
Qed.

Lemma map_id_on {A} (f : A -> A) l : (forall x, x ∈ l -> f x = x) -> List.map f l = l.
Proof.
  induction l as [|x l IH]; intros Hf; simpl; [done|]. rewrite (Hf x) by left.
  f_equal. apply IH. intros. apply Hf. by right.
Qed.

(** [len] of a slice. *)
Definition count {A} (l : list A) : Z := Z.of_nat (length l).

(** ** Sums *)
Definition zsum {A} (f : A -> Z) (l : list A) : Z := foldr (fun x acc => f x + acc) 0 l.

Lemma zsum_app {A} (f : A -> Z) l l' : zsum f (l ++ l') = zsum f l + zsum f l'.
Proof. induction l as [|x l IH]; simpl; [done|]. rewrite IH. lia. Qed.

Lemma zsum_perm {A} (f : A -> Z) l l' : l ≡ₚ l' -> zsum f l = zsum f l'.
Proof. induction 1; simpl; lia. Qed.

Lemma zsum_map {A B} (g : A -> B) (f : B -> Z) l : zsum f (List.map g l) = zsum (fun x => f (g x)) l.
Proof. induction l as [|x l IH]; simpl; [done|]. by rewrite IH. Qed.

Lemma zsum_ext {A} (f g : A -> Z) l : (forall x, x ∈ l -> f x = g x) -> zsum f l = zsum g l.
Proof.
  induction l as [|x l IH]; intros H; simpl; [done|]. rewrite IH, (H x); [done|left|].
  intros y Hy. apply H. by right.
Qed.

Lemma zsum_nonneg {A} (f : A -> Z) l : (forall x, x ∈ l -> 0 <= f x) -> 0 <= zsum f l.
Proof.
  induction l as [|x l IH]; intros H; simpl; [lia|].
  pose proof (H x ltac:(left)). assert (0 <= zsum f l) by (apply IH; intros; apply H; by right). lia.
Qed.

Lemma foldl_zsum {A} (f : A -> Z) l acc : foldl (fun acc x => acc + f x) acc l = acc + zsum f l.
Proof. revert acc. induction l as [|x l IH]; intros acc; simpl; [lia|]. rewrite IH. lia. Qed.

(** Items with distinct keys, each dominated by an entry of the same key, sum
    to at most the sum of the entries. *)
Lemma zsum_keyed_le {A B K} (ka : A -> K) (kb : B -> K) (f : A -> Z) (g : B -> Z) items entries :
  NoDup (List.map ka items) ->
  (forall b, b ∈ entries -> 0 <= g b) ->
  (forall a, a ∈ items -> exists b, b ∈ entries /\ kb b = ka a /\ f a <= g b) ->
  zsum f items <= zsum g entries.
Proof.
  revert entries. induction items as [|a items IH]; intros entries Hn Hg Hf; simpl.
  { by apply zsum_nonneg. }
  inversion Hn as [|? ? Ha Hn']; subst. destruct (Hf a ltac:(left)) as (b & Hb & Hk & Hle).
  apply list_elem_of_split in Hb as (l1 & l2 & ->).
  assert (Hp : l1 ++ b :: l2 ≡ₚ b :: l1 ++ l2) by (symmetry; apply Permutation_middle).
  rewrite (zsum_perm g _ _ Hp). simpl.
  assert (zsum f items <= zsum g (l1 ++ l2)); [|lia].
  apply IH; [done | intros b' Hb'; apply Hg; rewrite Hp; by right |].
  intros a' Ha'. destruct (Hf a' ltac:(by right)) as (b' & Hb' & Hk' & Hle').
  exists b'. split; [|done]. rewrite Hp in Hb'. apply elem_of_cons in Hb' as [->|]; [|done].
  exfalso. apply Ha. rewrite <- Hk, Hk'. apply list_elem_of_In, in_map, list_elem_of_In. done.
Qed.

(** ** Sorted lists with the same elements *)
Lemma NoDup_map_filter {A B} (g : A -> B) (f : A -> bool) l : NoDup (List.map g l) -> NoDup (List.map g (List.filter f l)).
Proof.
  induction l as [|x l IH]; simpl; [done|]. intros [Hx Hn]%NoDup_cons. destruct (f x); simpl; [|auto].
  apply NoDup_cons. split; [|auto]. intros (y & Hy & Hin)%list_elem_of_In%in_map_iff. apply Hx. rewrite <- Hy.
  apply list_elem_of_In, in_map. by apply filter_In in Hin as [? _].
Qed.

Lemma sort_strings_same_elem l l' :
  NoDup l -> NoDup l' -> (forall x, x ∈ l <-> x ∈ l') -> sort_strings l = sort_strings l'.
Proof. intros Hl Hl' Heq. apply sort_strings_perm_eq. by apply NoDup_Permutation. Qed.

(** [NoDup] through a map that is injective on the list. *)
Lemma NoDup_map_on {A B} (f : A -> B) l :
  (forall x y, x ∈ l -> y ∈ l -> f x = f y -> x = y) -> NoDup l -> NoDup (List.map f l).
Proof.
  induction l as [|x l IH]; intros Hinj Hn; simpl; [constructor|].
  inversion Hn as [|? ? Hx Hl]; subst. constructor.
  - intros (y & Hy & Hin)%list_elem_of_In%in_map_iff. apply list_elem_of_In in Hin.
    rewrite (Hinj y x) in Hin; [done|by right|by left|done].
  - apply IH; [|done]. intros y z Hy Hz. apply Hinj; by right.
Qed.

(** The position of an element of a duplicate-free list is unique. *)
Lemma NoDup_split_unique {A} (b a b' a' : list A) x :
  NoDup (b ++ x :: a) -> b ++ x :: a = b' ++ x :: a' -> b = b' /\ a = a'.
Proof.
  revert b'. induction b as [|y b IH]; intros [|y' b'] Hn Heq; simpl in *; simplify_eq; [done|..].
  - exfalso. inversion Hn as [|? ? Hx _]; subst. apply Hx, elem_of_app. right. by left.
  - exfalso. inversion Hn as [|? ? Hx _]; subst. apply Hx, elem_of_app. right. by left.
  - inversion Hn; subst. by destruct (IH b') as [-> ->].
Qed.

Lemma elem_of_List_filter {A} (f : A -> bool) l x : x ∈ List.filter f l <-> f x = true /\ x ∈ l.
Proof. rewrite !list_elem_of_In, filter_In. tauto. Qed.

Lemma NoDup_List_filter {A} (f : A -> bool) l : NoDup l -> NoDup (List.filter f l).
Proof. rewrite <- (map_id l) at 1. rewrite <- (map_id (List.filter f l)). apply (NoDup_map_filter id). Qed.

Lemma omap_ext_on {A B} (f g : A -> option B) (l : list A) : (forall x, x ∈ l -> f x = g x) -> omap f l = omap g l.
Proof.
  induction l as [|x l IH]; intros Hl; [done|]. cbn [omap list_omap]. rewrite (Hl x) by constructor.
  destruct (g x); [f_equal|]; apply IH; intros y Hy; apply Hl; by constructor.
Qed.
