(* ===== verification/GoStrings.v ===== *)
(** * Go strings

    The parts of the packages [strings], [regexp] and [sort] that the program
    uses, on byte strings: [strings.TrimSpace] (with every Unicode space, in its
    UTF-8 encoding), substring tests, the two regular expressions of the
    program, and strictly increasing string slices. *)

From Stdlib Require Import ZArith String Ascii List Bool Lia.
From stdpp Require Import base gmap strings list sorting.
From S2P Require Import Prelude.

Open Scope Z_scope.

Definition byte_of (a : ascii) : Z := Z.of_N (N_of_ascii a).

Definition str_len (s : string) : Z := Z.of_nat (String.length s).

(** ** [strings.TrimSpace]

    [unicode.IsSpace] holds of U+0009..U+000D, U+0020, U+0085, U+00A0, U+1680,
    U+2000..U+200A, U+2028, U+2029, U+202F, U+205F and U+3000. *)
Definition space1 (a : ascii) : bool :=
  let a := byte_of a in (a =? 32) || ((9 <=? a) && (a <=? 13)).

Definition space2 (a b : ascii) : bool :=
  let a := byte_of a in let b := byte_of b in
  (a =? 194) && ((b =? 133) || (b =? 160)).

Definition space3 (a b c : ascii) : bool :=
  let a := byte_of a in let b := byte_of b in let c := byte_of c in
  ((a =? 225) && (b =? 154) && (c =? 128)) ||
  ((a =? 226) && (b =? 128) &&
    (((128 <=? c) && (c <=? 138)) || (c =? 168) || (c =? 169) || (c =? 175))) ||
  ((a =? 226) && (b =? 129) && (c =? 159)) ||
  ((a =? 227) && (b =? 128) && (c =? 128)).

Fixpoint trim_left (l : list ascii) : list ascii :=
  match l with
  | [] => []
  | a :: l1 =>
      if space1 a then trim_left l1
      else match l1 with
           | [] => l
           | b :: l2 =>
               if space2 a b then trim_left l2
               else match l2 with
                    | [] => l
                    | c :: l3 => if space3 a b c then trim_left l3 else l
                    end
           end
  end.

(** The same on a reversed string: the encodings are read backwards. *)
Fixpoint trim_left_rev (l : list ascii) : list ascii :=
  match l with
  | [] => []
  | a :: l1 =>
      if space1 a then trim_left_rev l1
      else match l1 with
           | [] => l
           | b :: l2 =>
               if space2 b a then trim_left_rev l2
               else match l2 with
                    | [] => l
                    | c :: l3 => if space3 c b a then trim_left_rev l3 else l
                    end
           end
  end.

Definition trim_right (l : list ascii) : list ascii := rev (trim_left_rev (rev l)).

Definition TrimSpace (s : string) : string :=
  string_of_list_ascii (trim_right (trim_left (list_ascii_of_string s))).

(** ** Substrings and patterns *)

(** [strings.ContainsRune(s, r)] for an ASCII rune [r]. *)
Definition contains_byte (b : Z) (s : string) : bool :=
  existsb (fun a => byte_of a =? b) (list_ascii_of_string s).

Definition has_nul (s : string) : bool := contains_byte 0 s.

Definition is_lower_hex (a : ascii) : bool :=
  let a := byte_of a in ((48 <=? a) && (a <=? 57)) || ((97 <=? a) && (a <=? 102)).

(** [^[0-9a-f]{64}$] *)
Definition sha256Pattern (s : string) : bool :=
  (str_len s =? 64) && forallb is_lower_hex (list_ascii_of_string s).

Definition is_alnum (a : ascii) : bool :=
  let a := byte_of a in
  ((48 <=? a) && (a <=? 57)) || ((65 <=? a) && (a <=? 90)) || ((97 <=? a) && (a <=? 122)).

(** One of [A-Za-z0-9._:-]. *)
Definition is_token_byte (a : ascii) : bool :=
  let b := byte_of a in
  is_alnum a || (b =? 46) || (b =? 95) || (b =? 58) || (b =? 45).

(** [^[A-Za-z0-9][A-Za-z0-9._:-]{0,255}$] *)
Definition tokenPattern (s : string) : bool :=
  match s with
  | EmptyString => false
  | String a rest => is_alnum a && (str_len rest <=? 255) && forallb is_token_byte (list_ascii_of_string rest)
  end.

Definition nul : string := String Ascii.zero EmptyString.

(** [strings.Join(parts, sep)] *)
Definition join (sep : string) (parts : list string) : string := String.concat sep parts.

(** The byte suffix [s[n:]]. *)
Fixpoint str_drop (n : nat) (s : string) : string :=
  match n, s with
  | O, _ => s
  | S n, String _ s => str_drop n s
  | S _, EmptyString => EmptyString
  end.

(** The byte prefix [s[:n]]. *)
Fixpoint str_take (n : nat) (s : string) : string :=
  match n, s with
  | O, _ => EmptyString
  | S n, String a s => String a (str_take n s)
  | S _, EmptyString => EmptyString
  end.

(** [strings.HasPrefix(s, prefix)] and [strings.TrimPrefix(s, prefix)] *)
Definition HasPrefix (s prefix : string) : bool := String.eqb (str_take (String.length prefix) s) prefix.
Definition TrimPrefix (s prefix : string) : string := if HasPrefix s prefix then str_drop (String.length prefix) s else s.

(** Every element non-empty and strictly larger than its predecessor: the loop
    over adjacent values that the program repeats in its validators. *)
Fixpoint strict_from (prev : string) (l : list string) : bool :=
  match l with
  | [] => true
  | x :: l => negb (String.eqb x "") && str_ltb prev x && strict_from x l
  end.

Definition strictSorted (l : list string) : bool :=
  match l with
  | [] => true
  | x :: l => negb (String.eqb x "") && strict_from x l
  end.

(** Adjacent equal elements of a slice. *)
Fixpoint adjacent_dup {A} (eqb : A -> A -> bool) (l : list A) : bool :=
  match l with
  | x :: ((y :: _) as l') => eqb x y || adjacent_dup eqb l'
  | _ => false
  end.

(** ** Lemmas *)

Lemma string_list_ascii s : string_of_list_ascii (list_ascii_of_string s) = s.
Proof. apply string_of_list_ascii_of_string. Qed.

Lemma list_ascii_string l : list_ascii_of_string (string_of_list_ascii l) = l.
Proof. apply list_ascii_of_string_of_list_ascii. Qed.

Definition starts_space (l : list ascii) : bool :=
  match l with
  | a :: b :: c :: _ => space1 a || space2 a b || space3 a b c
  | [a; b] => space1 a || space2 a b
  | [a] => space1 a
  | [] => false
  end.

Lemma list_ascii_ind3 (P : list ascii -> Prop) :
  P [] ->
  (forall a l, P l -> (forall b l', l = b :: l' -> P l') ->
     (forall b c l', l = b :: c :: l' -> P l') -> P (a :: l)) ->
  forall l, P l.
Proof.
  intros H0 Hs l. enough (P l /\ (forall b l', l = b :: l' -> P l') /\
    (forall b c l', l = b :: c :: l' -> P l')) by tauto.
  induction l as [|a l (IH & IH1 & IH2)].
  - split; [done|]. split; intros; discriminate.
  - split; [by apply Hs|]. split; intros; simplify_eq; auto.
    by eapply IH1.
Qed.

Lemma trim_left_no_space l : starts_space (trim_left l) = false.
Proof.
  induction l as [|a l IH IH1 IH2] using list_ascii_ind3; [done|]. simpl.
  destruct (space1 a) eqn:E1; [done|].
  destruct l as [|b l]; [simpl; by rewrite E1|].
  destruct (space2 a b) eqn:E2; [by eapply IH1|].
  destruct l as [|c l]; [simpl; by rewrite E1, E2|].
  destruct (space3 a b c) eqn:E3; [by eapply IH2|]. simpl. by rewrite E1, E2, E3.
Qed.

Lemma trim_left_id l : starts_space l = false -> trim_left l = l.
Proof.
  destruct l as [|a [|b [|c l]]]; simpl; [done|..].
  - intros ->. done.
  - intros [-> ->]%orb_false_iff. done.
  - intros [[-> ->]%orb_false_iff ->]%orb_false_iff. done.
Qed.

Lemma starts_space_prefix l l' : starts_space (l ++ l') = false -> starts_space l = false.
Proof.
  destruct l as [|a [|b [|c l]]]; simpl; [done|..|done];
  destruct l' as [|d [|e l']]; simpl; try done;
  rewrite ?orb_false_iff; tauto.
Qed.

Definition starts_space_rev (l : list ascii) : bool :=
  match l with
  | a :: b :: c :: _ => space1 a || space2 b a || space3 c b a
  | [a; b] => space1 a || space2 b a
  | [a] => space1 a
  | [] => false
  end.

Lemma trim_left_rev_no_space l : starts_space_rev (trim_left_rev l) = false.
Proof.
  induction l as [|a l IH IH1 IH2] using list_ascii_ind3; [done|]. simpl.
  destruct (space1 a) eqn:E1; [done|].
  destruct l as [|b l]; [simpl; by rewrite E1|].
  destruct (space2 b a) eqn:E2; [by eapply IH1|].
  destruct l as [|c l]; [simpl; by rewrite E1, E2|].
  destruct (space3 c b a) eqn:E3; [by eapply IH2|]. simpl. by rewrite E1, E2, E3.
Qed.

Lemma trim_left_rev_id l : starts_space_rev l = false -> trim_left_rev l = l.
Proof.
  destruct l as [|a [|b [|c l]]]; simpl; [done|..].
  - intros ->. done.
  - intros [-> ->]%orb_false_iff. done.
  - intros [[-> ->]%orb_false_iff ->]%orb_false_iff. done.
Qed.

Lemma trim_left_rev_suffix l : exists p, l = p ++ trim_left_rev l.
Proof.
  induction l as [|a l IH IH1 IH2] using list_ascii_ind3; [by exists []|]. simpl.
  destruct (space1 a) eqn:E1.
  { destruct IH as [p Hp]. exists (a :: p). simpl. by rewrite <- Hp. }
  destruct l as [|b l]; [by exists []|].
  destruct (space2 b a) eqn:E2.
  { destruct (IH1 b l eq_refl) as [p Hp]. exists (a :: b :: p). simpl. by rewrite <- Hp. }
  destruct l as [|c l]; [by exists []|].
  destruct (space3 c b a) eqn:E3; [|by exists []].
  destruct (IH2 b c l eq_refl) as [p Hp]. exists (a :: b :: c :: p). simpl. by rewrite <- Hp.
Qed.

(** Trimming twice is trimming once. *)
Lemma TrimSpace_idem s : TrimSpace (TrimSpace s) = TrimSpace s.
Proof.
  unfold TrimSpace. rewrite list_ascii_string. f_equal.
  set (l := trim_left (list_ascii_of_string s)).
  assert (Hl : starts_space l = false) by apply trim_left_no_space.
  assert (Hr : starts_space (trim_right l) = false).
  { destruct (trim_left_rev_suffix (rev l)) as [p Hp]. unfold trim_right.
    apply (starts_space_prefix _ (rev p)). rewrite <- rev_app_distr, <- Hp, rev_involutive. done. }
  rewrite trim_left_id by done. unfold trim_right at 1. unfold trim_right at 1.
  rewrite rev_involutive, trim_left_rev_id; [done|]. apply trim_left_rev_no_space.
Qed.

Lemma str_eqb_refl s : String.eqb s s = true.
Proof. by apply String.eqb_eq. Qed.

Lemma str_eqb_false s t : String.eqb s t = false <-> s <> t.
Proof. apply String.eqb_neq. Qed.

Lemma str_len_app s t : str_len (s ++ t) = str_len s + str_len t.
Proof.
  unfold str_len. rewrite <- Nat2Z.inj_add. f_equal.
  induction s as [|a s IH]; simpl; [done|]. by rewrite IH.
Qed.

Lemma str_take_app p s : str_take (String.length p) (p ++ s) = p.
Proof. induction p as [|a p IH]; simpl; [done|]. by rewrite IH. Qed.

Lemma str_drop_app p s : str_drop (String.length p) (p ++ s) = s.
Proof. induction p as [|a p IH]; simpl; [by destruct s|]. by rewrite IH. Qed.

Lemma str_app_assoc s t u : (s ++ (t ++ u) = (s ++ t) ++ u)%string.
Proof. induction s as [|a s IH]; [done|]. change (String a (s ++ (t ++ u)) = String a ((s ++ t) ++ u))%string. by rewrite IH. Qed.

(** A strictly increasing slice is sorted, free of duplicates and of "". *)
Definition str_lt (x y : string) : Prop := str_ltb x y = true.

#[export] Instance str_lt_trans : Transitive str_lt.
Proof.
  intros x y z. unfold str_lt, str_ltb, cmp_ltb.
  destruct (String.compare x y) eqn:E1; try done. destruct (String.compare y z) eqn:E2; try done.
  rewrite (cmp_lt_le_trans x y z); [done|done|by rewrite E2].
Qed.

Lemma str_lt_irrefl x : ~ str_lt x x.
Proof. unfold str_lt. by rewrite str_ltb_irrefl. Qed.

Lemma strict_from_spec x l :
  strict_from x l = true <-> StronglySorted str_lt (x :: l) /\ "" ∉ l.
Proof.
  revert x. induction l as [|y l IH]; intros x; simpl.
  { split; [|done]. split; [by repeat constructor | by apply not_elem_of_nil]. }
  rewrite !andb_true_iff, IH, negb_true_iff, str_eqb_false, not_elem_of_cons. split.
  - intros [[Hy Hxy] [Hs Hn]]. split; [|split; [congruence|done]]. constructor; [done|].
    constructor; [done|]. inversion Hs as [|? ? Hl Hf]; subst.
    eapply List.Forall_impl; [|exact Hf]. intros z Hz. by transitivity y.
  - intros [Hs [Hy Hn]]. inversion Hs as [|? ? Hl Hf]; subst. inversion Hf; subst. split; [|done].
    split; [congruence|done].
Qed.

Lemma strictSorted_spec l :
  strictSorted l = true <-> StronglySorted str_lt l /\ "" ∉ l.
Proof.
  destruct l as [|x l]; simpl.
  { split; [|done]. split; [constructor | by apply not_elem_of_nil]. }
  rewrite andb_true_iff, strict_from_spec, negb_true_iff, str_eqb_false, not_elem_of_cons.
  split; [intros (?&?&?) | intros (?&?&?)]; repeat split; try done; congruence.
Qed.

Lemma StronglySorted_str_lt_NoDup l : StronglySorted str_lt l -> NoDup l.
Proof.
  induction 1 as [|x l Hl IH Hf]; constructor; [|done].
  intros Hx. rewrite Forall_forall in Hf. apply list_elem_of_In in Hx.
  by apply (str_lt_irrefl x), Hf, list_elem_of_In.
Qed.

Lemma str_le_cases x y : cmp_le String.compare x y <-> x = y \/ str_lt x y.
Proof.
  unfold cmp_le, str_lt, str_ltb, cmp_ltb. destruct (String.compare x y) eqn:E; split; try done.
  - intros _. left. by apply String.compare_eq_iff.
  - by right.
  - intros [->|]; [|done]. by rewrite cmp_refl in E.
Qed.

Lemma sorted_NoDup_strict l :
  StronglySorted (cmp_le String.compare) l -> NoDup l -> StronglySorted str_lt l.
Proof.
  induction 1 as [|x l Hl IH Hf]; intros Hn; constructor; inversion Hn as [|? ? Hx Hn']; subst; [auto|].
  rewrite Forall_forall in *. intros y Hy. destruct (proj1 (str_le_cases x y) (Hf y Hy)) as [->|]; done.
Qed.

(** Sorting a duplicate-free list of non-empty strings gives a strict slice. *)
Lemma sort_strings_strict l : NoDup l -> "" ∉ l -> strictSorted (sort_strings l) = true.
Proof.
  intros Hn He. apply strictSorted_spec. split.
  - apply sorted_NoDup_strict; [apply sort_strings_sorted | by apply NoDup_sort_strings].
  - by rewrite sort_strings_elem.
Qed.

Lemma adjacent_dup_sorted l :
  StronglySorted (cmp_le String.compare) l -> adjacent_dup String.eqb l = false <-> NoDup l.
Proof.
  induction 1 as [|x l Hl IH Hf]; [split; [constructor|done]|].
  destruct l as [|y l]; [split; [intros _; apply NoDup_singleton|done]|].
  change (adjacent_dup String.eqb (x :: y :: l)) with (String.eqb x y || adjacent_dup String.eqb (y :: l)).
  rewrite orb_false_iff, IH, (NoDup_cons x (y :: l)), str_eqb_false. split; cycle 1.
  { intros [Hx Hn]. split; [intros ->; apply Hx; by left | done]. }
  intros [Hxy Hn]. split; [|done]. intros [->|Hx]%elem_of_cons; [done|].
  inversion Hl as [|? ? _ Hyl]; subst. rewrite Forall_forall in Hyl.
  inversion Hf as [|? ? Hxy' _]; subst. apply str_le_cases in Hxy' as [->|Hlt]; [done|].
  destruct (proj1 (str_le_cases y x) (Hyl x Hx)) as [->|Hgt]; [done|].
  by apply (str_lt_irrefl x); transitivity y.
Qed.

#[export] Hint Rewrite andb_true_iff orb_true_iff andb_false_iff orb_false_iff negb_true_iff negb_false_iff
  String.eqb_eq String.eqb_neq Z.eqb_eq Z.eqb_neq Z.leb_le Z.ltb_lt Z.leb_gt Z.ltb_ge : goboolsimpl.

Lemma existsb_eqb_elem n l : existsb (String.eqb n) l = true <-> n ∈ l.
Proof.
  rewrite existsb_exists, list_elem_of_In. split.
  - intros (x & Hx & ->%String.eqb_eq). done.
  - intros Hn. exists n. by rewrite str_eqb_refl.
Qed.

(** ** Maps filled by a loop *)
Definition find_key {A} (k : A -> string) (n : string) (l : list A) : option A :=
  List.find (fun x => String.eqb (k x) n) l.

Lemma find_key_some {A} (k : A -> string) n l x : find_key k n l = Some x -> x ∈ l /\ k x = n.
Proof.
  intros Hf. apply find_some in Hf as [Hin Hk]. by rewrite list_elem_of_In, <- String.eqb_eq.
Qed.

Lemma find_key_none {A} (k : A -> string) n l : find_key k n l = None <-> n ∉ List.map k l.
Proof.
  unfold find_key. induction l as [|x l IH]; simpl; [split; [intros _; apply not_elem_of_nil|done]|].
  rewrite not_elem_of_cons. destruct (String.eqb_spec (k x) n) as [->|Hne].
  - split; [done|]. by intros [? _].
  - rewrite IH. split; [by intros; split; [congruence|]|by intros [_ ?]].
Qed.

Lemma find_key_unique {A} (k : A -> string) l x :
  NoDup (List.map k l) -> x ∈ l -> find_key k (k x) l = Some x.
Proof.
  unfold find_key. induction l as [|y l IH]; simpl; intros Hn Hx; [by apply not_elem_of_nil in Hx|].
  inversion Hn as [|? ? Hy Hn']; subst. apply elem_of_cons in Hx as [->|Hx].
  - by rewrite str_eqb_refl.
  - destruct (String.eqb_spec (k y) (k x)) as [E|]; [|by apply IH].
    exfalso. apply Hy. rewrite E. apply list_elem_of_In, in_map, list_elem_of_In. done.
Qed.

Lemma find_key_perm {A} (k : A -> string) n l l' :
  NoDup (List.map k l) -> l ≡ₚ l' -> find_key k n l = find_key k n l'.
Proof.
  intros Hn Hp. assert (Hn' : NoDup (List.map k l')) by (by rewrite <- (Permutation_map k Hp)).
  destruct (find_key k n l) as [x|] eqn:E.
  - apply find_key_some in E as [Hx <-]. symmetry. apply find_key_unique; [done|]. by rewrite <- Hp.
  - symmetry. apply find_key_none. rewrite <- (Permutation_map k Hp). by apply find_key_none.
Qed.

Lemma foldl_insert_lookup {A V} (k : A -> string) (v : A -> V) l (m : gmap string V) n :
  NoDup (List.map k l) ->
  foldl (fun m x => <[k x := v x]> m) m l !! n =
  match find_key k n l with Some x => Some (v x) | None => m !! n end.
Proof.
  revert m. induction l as [|x l IH]; intros m Hn; simpl; [done|].
  inversion Hn as [|? ? Hx Hn']; subst. rewrite IH by done.
  change (find_key k n (x :: l)) with (if String.eqb (k x) n then Some x else find_key k n l).
  destruct (String.eqb_spec (k x) n) as [<-|Hne].
  - rewrite (proj2 (find_key_none k (k x) l) Hx). by rewrite lookup_insert_eq.
  - destruct (find_key k n l); [done|]. by rewrite lookup_insert_ne.
Qed.

(** Adjacent duplicates survive a map. *)
Lemma adjacent_dup_map {A} (eqb : A -> A -> bool) (f : A -> A) l :
  (forall x y, eqb x y = true -> eqb (f x) (f y) = true) ->
  adjacent_dup eqb (List.map f l) = false -> adjacent_dup eqb l = false.
Proof.
  intros Hf. induction l as [|x [|y l] IH]; simpl; [done|done|].
  rewrite !orb_false_iff. intros [H1 H2]. split; [|by apply IH].
  destruct (eqb x y) eqn:E; [|done]. by rewrite (Hf _ _ E) in H1.
Qed.

(** ** Loops that reject a repeated key

    [fresh_ids seen ids] says that a loop over [ids] which starts with the set
    [seen] meets no key twice. *)
Definition fresh_ids (seen : gset string) (ids : list string) : bool :=
  bool_decide (NoDup ids /\ Forall (fun x => x ∉ seen) ids).

Lemma fresh_ids_cons seen x ids :
  fresh_ids seen (x :: ids) = negb (bool_decide (x ∈ seen)) && fresh_ids ({[x]} ∪ seen) ids.
Proof.
  apply eq_true_iff_eq. unfold fresh_ids.
  rewrite andb_true_iff, negb_true_iff, bool_decide_eq_false, !bool_decide_eq_true, NoDup_cons, !Forall_forall.
  setoid_rewrite elem_of_cons. setoid_rewrite not_elem_of_union. setoid_rewrite not_elem_of_singleton.
  split.
  - intros [[Hx Hn] Hall]. split; [apply Hall; by left|]. split; [done|]. intros y Hy. split; [congruence|].
    apply Hall. by right.
  - intros [Hx [Hn Hall]]. split; [split; [|done]|].
    + intros Hin. by destruct (Hall x Hin).
    + intros y [->|Hy]; [done|]. by apply Hall.
Qed.

Lemma fresh_ids_nil seen : fresh_ids seen [] = true.
Proof. apply bool_decide_eq_true. by repeat constructor. Qed.

Lemma fresh_ids_empty ids : fresh_ids ∅ ids = bool_decide (NoDup ids).
Proof.
  apply bool_decide_ext. rewrite Forall_forall. split; [by intros [? _]|]. intros Hn. split; [done|].
  intros x _. apply not_elem_of_empty.
Qed.

Lemma NoDup_bool_perm {A} `{EqDecision A} (l l' : list A) : l ≡ₚ l' -> bool_decide (NoDup l) = bool_decide (NoDup l').
Proof. intros Hp. apply bool_decide_ext. by rewrite Hp. Qed.

(** ** Tokens *)
Lemma list_ascii_app s t : list_ascii_of_string (s ++ t) = (list_ascii_of_string s ++ list_ascii_of_string t)%list.
Proof. induction s as [|a s IH]; simpl; [done|]. by rewrite IH. Qed.

Definition token_bytes (s : string) : bool := forallb is_token_byte (list_ascii_of_string s).

Lemma alnum_token a : is_alnum a = true -> is_token_byte a = true.
Proof. unfold is_token_byte. by intros ->. Qed.

Lemma tokenPattern_bytes s : tokenPattern s = true -> token_bytes s = true /\ 1 <= str_len s <= 256.
Proof.
  destruct s as [|a s]; simpl; [done|]. rewrite !andb_true_iff, Z.leb_le. intros [[Ha Hl] Hs].
  unfold token_bytes, str_len in *. simpl. rewrite (alnum_token _ Ha), Hs. split; [done|]. simpl in *. lia.
Qed.

Lemma tokenPattern_nonempty s : tokenPattern s = true -> s <> EmptyString.
Proof. by destruct s. Qed.

Lemma tokenPattern_app p t :
  tokenPattern p = true -> token_bytes t = true -> tokenPattern (p ++ t) = (str_len p + str_len t <=? 256).
Proof.
  intros Hp Ht. destruct p as [|a p]; [done|]. simpl in *. rewrite !andb_true_iff in Hp. destruct Hp as [[-> _] Hp].
  rewrite str_len_app, list_ascii_app, forallb_app, Hp. unfold token_bytes in Ht. rewrite Ht. simpl.
  rewrite andb_true_r. apply eq_true_iff_eq. rewrite !Z.leb_le.
  change (str_len (String a p)) with (Z.of_nat (S (String.length p))). unfold str_len. lia.
Qed.

Lemma sha256Pattern_bytes h : sha256Pattern h = true -> token_bytes h = true /\ str_len h = 64.
Proof.
  unfold sha256Pattern. rewrite andb_true_iff, Z.eqb_eq. intros [Hl Hh]. split; [|done]. unfold token_bytes.
  rewrite forallb_forall in *. intros a Ha. specialize (Hh a Ha). apply alnum_token. revert Hh.
  unfold is_lower_hex, is_alnum. rewrite !orb_true_iff, !andb_true_iff, !Z.leb_le. lia.
Qed.

Definition ascii_bytes (s : string) : bool := forallb (fun a => byte_of a <? 128) (list_ascii_of_string s).

Lemma token_byte_range a : is_token_byte a = true -> 32 < byte_of a < 128.
Proof. unfold is_token_byte, is_alnum. rewrite !orb_true_iff, !andb_true_iff, !Z.leb_le, !Z.eqb_eq. lia. Qed.

Lemma token_bytes_ascii s : token_bytes s = true -> ascii_bytes s = true.
Proof.
  unfold token_bytes, ascii_bytes. rewrite !forallb_forall. intros Hs a Ha. apply Z.ltb_lt. by apply token_byte_range, Hs.
Qed.

Lemma Zeqb_far x y : x < y -> (x =? y) = false.
Proof. intros. apply Z.eqb_neq. lia. Qed.

Lemma token_byte_starts a l : is_token_byte a = true -> starts_space (a :: l) = false /\ starts_space_rev (a :: l) = false.
Proof.
  intros Ha%token_byte_range.
  assert (H1 : space1 a = false) by (unfold space1; apply orb_false_iff; split; [lia|]; apply andb_false_iff; lia).
  assert (H2 : forall b, space2 a b = false /\ space2 b a = false).
  { intros b. unfold space2. cbv zeta. rewrite !(Zeqb_far (byte_of a)) by lia. by rewrite andb_false_r. }
  assert (H3 : forall b c, space3 a b c = false /\ space3 c b a = false).
  { intros b c. unfold space3. cbv zeta. rewrite !(Zeqb_far (byte_of a)) by lia.
    replace (128 <=? byte_of a) with false by (symmetry; apply Z.leb_gt; lia). by rewrite !andb_false_r. }
  destruct l as [|b [|c l]]; cbn [starts_space starts_space_rev]; rewrite H1; [done|..]; destruct (H2 b) as [-> ->]; [done|].
  by destruct (H3 b c) as [-> ->].
Qed.

Lemma TrimSpace_token s : token_bytes s = true -> TrimSpace s = s.
Proof.
  unfold token_bytes, TrimSpace. rewrite forallb_forall. intros Hs. rewrite <- (string_list_ascii s) at 2. f_equal.
  set (l := list_ascii_of_string s) in *. assert (Hl : trim_left l = l).
  { destruct l as [|a l]; [done|]. apply trim_left_id, token_byte_starts, Hs. by left. }
  rewrite Hl. unfold trim_right. destruct (rev l) as [|a r] eqn:Er; [by rewrite <- (rev_involutive l), Er|].
  rewrite trim_left_rev_id; [by rewrite <- Er, rev_involutive|]. apply token_byte_starts, Hs. apply in_rev. rewrite Er. by left.
Qed.

(** The validators' loop over codes: each a token, each larger than the one before. *)
Fixpoint tokens_from (prev : option string) (l : list string) : bool :=
  match l with
  | [] => true
  | code :: l =>
      tokenPattern code && (match prev with Some p => str_ltb p code | None => true end) &&
      tokens_from (Some code) l
  end.

Lemma tokens_from_some p l : tokens_from (Some p) l = forallb tokenPattern l && strict_from p l.
Proof.
  revert p. induction l as [|x l IH]; intros p; simpl; [done|]. rewrite IH.
  destruct (tokenPattern x) eqn:Et; simpl; [|done]. apply tokenPattern_nonempty, String.eqb_neq in Et. rewrite Et. simpl.
  destruct (str_ltb p x), (forallb tokenPattern l); done.
Qed.

Lemma tokens_from_none l : tokens_from None l = forallb tokenPattern l && strictSorted l.
Proof.
  destruct l as [|x l]; simpl; [done|]. rewrite tokens_from_some.
  destruct (tokenPattern x) eqn:Et; simpl; [|done]. apply tokenPattern_nonempty, String.eqb_neq in Et. by rewrite Et.
Qed.

Lemma sort_strings_idem l : sort_strings (sort_strings l) = sort_strings l.
Proof. apply (sort_slice_id String.compare), sort_strings_sorted. Qed.

Lemma str_sorted_le l : StronglySorted str_lt l -> StronglySorted (cmp_le String.compare) l.
Proof.
  induction 1 as [|x l Hl IH Hf]; constructor; [done|]. eapply List.Forall_impl; [|exact Hf].
  intros y Hy. apply str_le_cases. by right.
Qed.

(** ** Keys joined with a NUL byte *)
Lemma has_nul_app s t : has_nul (s ++ t) = has_nul s || has_nul t.
Proof. unfold has_nul, contains_byte. by rewrite list_ascii_app, existsb_app. Qed.

Lemma nul_suffix s w : has_nul (s ++ String Ascii.zero w) = true.
Proof. rewrite has_nul_app. change (has_nul (String Ascii.zero w)) with true. apply orb_true_r. Qed.

Lemma last_part_inj s t w w' :
  has_nul w = false -> has_nul w' = false -> (s ++ nul ++ w)%string = (t ++ nul ++ w')%string -> s = t /\ w = w'.
Proof.
  intros Hw Hw'. revert t. induction s as [|a s IH]; intros [|b t] Heq.
  - change (String Ascii.zero w = String Ascii.zero w') in Heq. split; congruence.
  - change (String Ascii.zero w = String b (t ++ String Ascii.zero w')) in Heq. injection Heq as _ ->. by rewrite nul_suffix in Hw.
  - change (String a (s ++ String Ascii.zero w) = String Ascii.zero w') in Heq.
    injection Heq as _ <-. by rewrite nul_suffix in Hw'.
  - change (String a (s ++ nul ++ w) = String b (t ++ nul ++ w')) in Heq. injection Heq as -> Heq. apply IH in Heq as [-> ->]. done.
Qed.

Lemma has_nul_cons a s : has_nul (String a s) = (byte_of a =? 0) || has_nul s.
Proof. done. Qed.

Lemma nul_join_inj a b a' b' :
  has_nul a = false -> has_nul a' = false -> (a ++ nul ++ b)%string = (a' ++ nul ++ b')%string -> a = a' /\ b = b'.
Proof.
  revert a'. induction a as [|x a IH]; intros [|y a'] Ha Ha' He; simpl in He.
  - by simplify_eq.
  - injection He as <- _. by rewrite has_nul_cons in Ha'.
  - injection He as -> _. by rewrite has_nul_cons in Ha.
  - injection He as <- He. rewrite has_nul_cons in Ha, Ha'. apply orb_false_iff in Ha as [_ Ha], Ha' as [_ Ha'].
    by destruct (IH a' Ha Ha' He) as [-> ->].
Qed.

(** ** [HasPrefix] and [TrimPrefix] *)
Lemma HasPrefix_app p s : HasPrefix (p ++ s) p = true.
Proof.
  unfold HasPrefix. assert (Ht : str_take (String.length p) (p ++ s) = p).
  { induction p as [|a p IH]; [by destruct s|]. change (String a (str_take (String.length p) (p ++ s)) = String a p). by rewrite IH. }
  rewrite Ht. apply str_eqb_refl.
Qed.

Lemma str_take_drop n s : (str_take n s ++ str_drop n s)%string = s.
Proof.
  revert s. induction n as [|n IH]; intros [|a s]; [done..|].
  change (String a (str_take n s ++ str_drop n s) = String a s). by rewrite IH.
Qed.

Lemma TrimPrefix_app s p : HasPrefix s p = true -> (p ++ TrimPrefix s p)%string = s.
Proof.
  intros Hp. unfold TrimPrefix. rewrite Hp. apply String.eqb_eq in Hp. rewrite <- Hp at 1. apply str_take_drop.
Qed.
