(* ===== verification/GoTime.v ===== *)
(** * [time.Time]

    An instant is counted in nanoseconds from Go's zero time (1 January of year
    1, UTC) and carries the offset of its location in seconds.  [Equal],
    [Before] and [After] compare instants only; the offset shows only in the
    printed form. *)

From Stdlib Require Import ZArith String Ascii List Bool Lia.
From stdpp Require Import base gmap strings list.
From S2P Require Import Prelude GoStrings.

Open Scope Z_scope.

Record gotime := mk_time { t_ns : Z; t_off : Z }.

#[export] Instance gotime_eq_dec : EqDecision gotime.
Proof. solve_decision. Defined.

Definition Second : Z := 1000000000.
Definition Minute : Z := 60000000000.
Definition Hour : Z := 3600000000000.

Definition zero_time : gotime := mk_time 0 0.
Definition IsZero (t : gotime) : bool := t_ns t =? 0.
Definition UTC (t : gotime) : gotime := mk_time (t_ns t) 0.
Definition time_Equal (t u : gotime) : bool := t_ns t =? t_ns u.
(** [t.Unix()], in whole seconds; the zero time is 62135596800 seconds before 1970. *)
Definition Unix (t : gotime) : Z := t_ns t / Second - 62135596800.
Definition Before (t u : gotime) : bool := t_ns t <? t_ns u.
Definition After (t u : gotime) : bool := t_ns u <? t_ns t.
Definition time_Add (t : gotime) (d : Z) : gotime := mk_time (t_ns t + d) (t_off t).

(** [t.Truncate(d)]: rounds down to a multiple of [d] since the zero time. *)
Definition Truncate (t : gotime) (d : Z) : gotime :=
  if d <=? 0 then t else mk_time (t_ns t - t_ns t mod d) (t_off t).

(** [t.Sub(u)], saturating at the bounds of [Duration]. *)
Definition time_Sub (t u : gotime) : Z := Z.max MinInt64 (Z.min MaxInt64 (t_ns t - t_ns u)).

(** [time.Duration(n) * time.Second] *)
Definition seconds (n : Z) : Z := wrap_i64 (n * Second).

(** ** Formatting as RFC 3339 with nanoseconds *)
Definition digit (z : Z) : ascii := ascii_of_nat (Z.to_nat (48 + z mod 10)).

Fixpoint digits (n : nat) (z : Z) : string :=
  match n with
  | O => EmptyString
  | S n => digits n (z / 10) ++ String (digit z) EmptyString
  end.

(** Year, month and day of a day count from 1 January of year 1. *)
Definition civil (days : Z) : Z * Z * Z :=
  let z := days + 306 in
  let era := z / 146097 in
  let doe := z mod 146097 in
  let yoe := (doe - doe / 1460 + doe / 36524 - doe / 146096) / 365 in
  let doy := doe - (365 * yoe + yoe / 4 - yoe / 100) in
  let mp := (5 * doy + 2) / 153 in
  let d := doy - (153 * mp + 2) / 5 + 1 in
  let m := if mp <? 10 then mp + 3 else mp - 9 in
  let y := yoe + era * 400 in
  (if m <=? 2 then y + 1 else y, m, d).

(** Nine fractional digits with the trailing zeros removed. *)
Fixpoint trim_fraction (n : nat) (frac : Z) : string :=
  match n with
  | O => EmptyString
  | S n' => if frac mod 10 =? 0 then trim_fraction n' (frac / 10) else digits n frac
  end.

Definition fraction (ns : Z) : string :=
  if ns =? 0 then EmptyString else "." ++ trim_fraction 9 ns.

Definition zone (off : Z) : string :=
  if off =? 0 then "Z"
  else let a := Z.abs off in
       (if off <? 0 then "-" else "+") ++ digits 2 (a / 3600) ++ ":" ++ digits 2 (a / 60 mod 60).

Definition format_rfc3339nano (t : gotime) : string :=
  let local := t_ns t + t_off t * Second in
  let secs := local / Second in
  let '(y, m, d) := civil (secs / 86400) in
  let sod := secs mod 86400 in
  digits 4 y ++ "-" ++ digits 2 m ++ "-" ++ digits 2 d ++ "T" ++
  digits 2 (sod / 3600) ++ ":" ++ digits 2 (sod / 60 mod 60) ++ ":" ++ digits 2 (sod mod 60) ++
  fraction (local mod Second) ++ zone (t_off t).

Definition local_year (t : gotime) : Z :=
  let '(y, _, _) := civil ((t_ns t + t_off t * Second) / Second / 86400) in y.

(** [MarshalJSON] refuses years outside [0, 9999] and zone offsets of a day or more. *)
Definition time_json_ok (t : gotime) : bool :=
  (0 <=? local_year t) && (local_year t <=? 9999) && (Z.abs (t_off t) <? 86400).

(** [t.String()] of a time in UTC. *)
Definition utc_string (t : gotime) : string :=
  let secs := t_ns t / Second in
  let '(y, m, d) := civil (secs / 86400) in
  let sod := secs mod 86400 in
  digits 4 y ++ "-" ++ digits 2 m ++ "-" ++ digits 2 d ++ " " ++
  digits 2 (sod / 3600) ++ ":" ++ digits 2 (sod / 60 mod 60) ++ ":" ++ digits 2 (sod mod 60) ++
  fraction (t_ns t mod Second) ++ " +0000 UTC".

Example format_epoch :
  format_rfc3339nano (mk_time (62135596800 * Second) 0) = "1970-01-01T00:00:00Z".
Proof. vm_compute. reflexivity. Qed.

Example format_fraction :
  format_rfc3339nano (mk_time (63900000000 * Second + 120000000) 19800) = "2025-11-29T13:30:00.12+05:30".
Proof. vm_compute. reflexivity. Qed.

(** ** [time.Parse(time.RFC3339Nano, value)]

    The layout's elements in order.  As in the library, the hour may have one
    digit, the fraction may follow a comma or a period and have any number of
    digits, and zone offsets up to 24:60 are accepted. *)
Definition digit_value (a : ascii) : option Z :=
  let b := byte_of a in if (48 <=? b) && (b <=? 57) then Some (b - 48) else None.

Definition getnum (fixed : bool) (l : list ascii) : option (Z * list ascii) :=
  match l with
  | [] => None
  | a :: rest =>
      match digit_value a with
      | None => None
      | Some x =>
          match rest with
          | b :: rest' =>
              match digit_value b with
              | Some y => Some (x * 10 + y, rest')
              | None => if fixed then None else Some (x, rest)
              end
          | [] => if fixed then None else Some (x, rest)
          end
      end
  end.

Definition skip_char (c : ascii) (l : list ascii) : option (list ascii) :=
  match l with
  | a :: rest => if Ascii.eqb a c then Some rest else None
  | [] => None
  end.

Definition parse_year (l : list ascii) : option (Z * list ascii) :=
  match getnum true l with
  | Some (hi, l) => match getnum true l with Some (lo, l) => Some (hi * 100 + lo, l) | None => None end
  | None => None
  end.

Fixpoint span_digits (l : list ascii) : list Z * list ascii :=
  match l with
  | [] => ([], [])
  | a :: rest =>
      match digit_value a with
      | Some x => let '(ds, rest) := span_digits rest in (x :: ds, rest)
      | None => ([], l)
      end
  end.

(** The first nine digits count; missing ones are zeros. *)
Fixpoint nanoseconds (places : nat) (ds : list Z) : Z :=
  match places, ds with
  | S places, d :: ds => d * 10 ^ Z.of_nat places + nanoseconds places ds
  | _, _ => 0
  end.

Definition parse_fraction (l : list ascii) : Z * list ascii :=
  match l with
  | sep :: rest =>
      if (byte_of sep =? 46) || (byte_of sep =? 44) then
        match span_digits rest with
        | ([], _) => (0, l)
        | (ds, rest) => (nanoseconds 9 ds, rest)
        end
      else (0, l)
  | [] => (0, l)
  end.

(** [Z], or a sign, two digits, a colon and two digits: the offset in seconds. *)
Definition parse_zone (l : list ascii) : option (Z * list ascii) :=
  match l with
  | sign :: rest =>
      if byte_of sign =? 90 then Some (0, rest)
      else
        match getnum true rest with
        | Some (hr, colon :: rest) =>
            if negb (byte_of colon =? 58) then None
            else
              match getnum true rest with
              | Some (mm, rest) =>
                  if (24 <? hr) || (60 <? mm) then None
                  else if byte_of sign =? 43 then Some ((hr * 60 + mm) * 60, rest)
                  else if byte_of sign =? 45 then Some (- ((hr * 60 + mm) * 60), rest)
                  else None
              | None => None
              end
        | _ => None
        end
  | [] => None
  end.

Definition is_leap (y : Z) : bool := (y mod 4 =? 0) && (negb (y mod 100 =? 0) || (y mod 400 =? 0)).

Definition daysIn (m y : Z) : Z :=
  if m =? 2 then (if is_leap y then 29 else 28)
  else if (m =? 4) || (m =? 6) || (m =? 9) || (m =? 11) then 30 else 31.

(** Days from 1 January of year 1 to the first day of the year and of the month. *)
Definition days_before_year (y : Z) : Z := 365 * (y - 1) + (y - 1) / 4 - (y - 1) / 100 + (y - 1) / 400.
Definition days_before_month (m y : Z) : Z :=
  foldl (fun acc k => acc + daysIn (Z.of_nat k) y) 0 (seq 1 (Z.to_nat (m - 1))).

Definition Date (y m d hour minute sec nsec : Z) : Z :=
  (((days_before_year y + days_before_month m y + (d - 1)) * 24 + hour) * 3600 + minute * 60 + sec) * Second + nsec.

Definition obind {A B} (m : option A) (k : A -> option B) : option B := match m with Some a => k a | None => None end.

Definition parse_rfc3339nano (value : string) : option gotime :=
  obind (parse_year (list_ascii_of_string value)) (fun '(y, l) =>
  obind (skip_char "-" l) (fun l => obind (getnum true l) (fun '(m, l) =>
  if (m <=? 0) || (12 <? m) then None else
  obind (skip_char "-" l) (fun l => obind (getnum true l) (fun '(d, l) =>
  obind (skip_char "T" l) (fun l => obind (getnum false l) (fun '(hour, l) =>
  if 24 <=? hour then None else
  obind (skip_char ":" l) (fun l => obind (getnum true l) (fun '(minute, l) =>
  if 60 <=? minute then None else
  obind (skip_char ":" l) (fun l => obind (getnum true l) (fun '(sec, l) =>
  if 60 <=? sec then None else
  let '(nsec, l) := parse_fraction l in
  obind (parse_zone l) (fun '(off, l) =>
  match l with
  | _ :: _ => None
  | [] =>
      if (d <? 1) || (daysIn m y <? d) then None
      else Some (mk_time (Date y m d hour minute sec nsec - off * Second) off)
  end)))))))))))).

Example parse_format_fraction :
  parse_rfc3339nano "2025-11-29T13:30:00.12+05:30" = Some (mk_time (63900000000 * Second + 120000000) 19800).
Proof. vm_compute. reflexivity. Qed.

Example parse_epoch_and_leap :
  parse_rfc3339nano "1970-01-01T00:00:00Z" = Some (mk_time (62135596800 * Second) 0) /\
  option_map (fun t => (format_rfc3339nano t, t_off t)) (parse_rfc3339nano "2024-02-29T7:05:09,5-08:00") =
    Some ("2024-02-29T07:05:09.5-08:00"%string, -28800) /\
  parse_rfc3339nano "2023-02-29T00:00:00Z" = None.
Proof. vm_compute. repeat split. Qed.

(** The program's test that a time is in UTC, [t.Equal(t.UTC())], never fails. *)
Lemma Equal_UTC t : time_Equal t (UTC t) = true.
Proof. unfold time_Equal, UTC. simpl. apply Z.eqb_refl. Qed.

Lemma seconds_id n : 0 <= n <= 9223372036 -> seconds n = n * Second.
Proof. intros H. unfold seconds. apply wrap_i64_id. unfold_widths. unfold Second. lia. Qed.

(** ** Fixed-width decimals *)
Lemma digit_no_nul z : byte_of (digit z) =? 0 = false.
Proof.
  unfold digit. pose proof (Z.mod_pos_bound z 10 eq_refl) as Hd. set (d := z mod 10) in *. clearbody d.
  assert (d = 0 \/ d = 1 \/ d = 2 \/ d = 3 \/ d = 4 \/ d = 5 \/ d = 6 \/ d = 7 \/ d = 8 \/ d = 9) as Hc by lia.
  repeat (destruct Hc as [->|Hc]; [reflexivity|]). by subst.
Qed.

Lemma digits_no_nul n z : has_nul (digits n z) = false.
Proof.
  revert z. induction n as [|n IH]; intros z; [done|]. cbn [digits]. rewrite has_nul_app, IH.
  unfold has_nul, contains_byte. cbn [list_ascii_of_string existsb orb]. by rewrite digit_no_nul.
Qed.

Lemma digit_inj a b : digit a = digit b -> a mod 10 = b mod 10.
Proof.
  unfold digit. intros Hd. apply (f_equal nat_of_ascii) in Hd. pose proof (Z.mod_pos_bound a 10 eq_refl). pose proof (Z.mod_pos_bound b 10 eq_refl).
  rewrite !nat_ascii_embedding in Hd by lia. lia.
Qed.

Lemma string_snoc_inj s t a b : (s ++ String a "")%string = (t ++ String b "")%string -> s = t /\ a = b.
Proof.
  revert t. induction s as [|x s IH]; intros [|y t] Heq.
  - by injection Heq.
  - exfalso. injection Heq as _ Heq. by destruct t.
  - exfalso. injection Heq as _ Heq. by destruct s.
  - change (String x (s ++ String a "") = String y (t ++ String b "")) in Heq. injection Heq as -> Heq. by destruct (IH t Heq) as [-> ->].
Qed.

Lemma digits_inj n a b : 0 <= a < 10 ^ Z.of_nat n -> 0 <= b < 10 ^ Z.of_nat n -> digits n a = digits n b -> a = b.
Proof.
  revert a b. induction n as [|n IH]; intros a b Ha Hb Heq; [simpl in *; lia|].
  rewrite Nat2Z.inj_succ, Z.pow_succ_r in Ha, Hb by lia. apply string_snoc_inj in Heq as [Heq Hd%digit_inj].
  apply IH in Heq; [|split; [apply Z.div_pos|apply Z.div_lt_upper_bound]; lia..].
  rewrite (Z.div_mod a 10), (Z.div_mod b 10) by lia. by rewrite Heq, Hd.
Qed.
