(* ===== verification/Canonical.v ===== *)
(** * Canonical encoding and content addresses (internal/canonical)

    [MarshalAndHash] is [encoding/json] on the value, then the JCS transform of
    github.com/gowebpki/jcs, then the hexadecimal SHA-256 of the canonical
    bytes.  The JCS transform is code outside the repository and is the
    parameter [jcs_transform] of the interface [JCS].  SHA-256 is reached
    through the interface [Digest], which promises 64 lower-case hexadecimal
    digits; the file [Sha256] defines it. *)

From Stdlib Require Import ZArith String Ascii List Bool Lia DecimalString.
From stdpp Require Import base gmap strings list.
From S2P Require Import Prelude GoStrings GoTime.

Open Scope Z_scope.
Set Warnings "-register-all".

(** [norm.NFC.String] of golang.org/x/text. *)
Class NFC := nfc_string : string -> string.

Class JCS := jcs_transform : string -> option string.

(** The canonical bytes of [canonical.MarshalAndHashRaw], which decodes one
    JSON value and encodes it again. *)
Class RawCanonical := raw_canonical : string -> option string.

(** What the documentation of the two packages promises and some theorems use:
    ASCII text is in normalization form C, and a JSON text is not empty. *)
Class NFCLaws `{NFC} := nfc_ascii : forall s, ascii_bytes s = true -> nfc_string s = s.
Class JCSLaws `{JCS} := jcs_nonempty : forall raw canonical, jcs_transform raw = Some canonical -> canonical <> EmptyString.

Class Digest := {
  sum256_hex : string -> string;
  sum256_hex_pattern : forall s, sha256Pattern (sum256_hex s) = true
}.

(** ** JSON values as [encoding/json] writes them

    [JRaw] is the text of a [json.RawMessage], compacted. *)
Inductive json :=
| JNull
| JBool (b : bool)
| JNum (z : Z)
| JStr (s : string)
| JTime (t : gotime)
| JArr (l : list json)
| JObj (l : list (string * json))
| JRaw (text : string).

Definition dquote : string := String (ascii_of_nat 34) EmptyString.
Definition backslash : string := String (ascii_of_nat 92) EmptyString.
Definition char (z : Z) : string := String (ascii_of_nat (Z.to_nat z)) EmptyString.

Definition hex_digit (z : Z) : ascii :=
  let d := z mod 16 in
  ascii_of_nat (Z.to_nat (if d <? 10 then 48 + d else 87 + d)).

Definition num_string (z : Z) : string := NilZero.string_of_int (Z.to_int z).

Definition escape_ascii (a : ascii) : string :=
  let b := byte_of a in
  if (b =? 34) || (b =? 92) then backslash ++ String a EmptyString
  else if b =? 8 then backslash ++ "b"
  else if b =? 12 then backslash ++ "f"
  else if b =? 10 then backslash ++ "n"
  else if b =? 13 then backslash ++ "r"
  else if b =? 9 then backslash ++ "t"
  else if (b <? 32) || (b =? 60) || (b =? 62) || (b =? 38)
  then backslash ++ "u00" ++ String (hex_digit (b / 16)) (String (hex_digit b) EmptyString)
  else String a EmptyString.

Definition cont (a : ascii) : bool := (128 <=? byte_of a) && (byte_of a <=? 191).
Definition between (lo hi : Z) (a : ascii) : bool := (lo <=? byte_of a) && (byte_of a <=? hi).

Definition utf8_2 (a b : ascii) : bool := between 194 223 a && cont b.
Definition utf8_3 (a b c : ascii) : bool :=
  ((byte_of a =? 224) && between 160 191 b && cont c) ||
  ((between 225 236 a || between 238 239 a) && cont b && cont c) ||
  ((byte_of a =? 237) && between 128 159 b && cont c).
Definition utf8_4 (a b c d : ascii) : bool :=
  ((byte_of a =? 240) && between 144 191 b && cont c && cont d) ||
  (between 241 243 a && cont b && cont c && cont d) ||
  ((byte_of a =? 244) && between 128 143 b && cont c && cont d).

Definition bad_rune : string := backslash ++ "ufffd".

(** U+2028 and U+2029 are escaped, other three-byte runes are copied. *)
Definition emit3 (a b c : ascii) : string :=
  if (byte_of a =? 226) && (byte_of b =? 128) && (byte_of c =? 168) then backslash ++ "u2028"
  else if (byte_of a =? 226) && (byte_of b =? 128) && (byte_of c =? 169) then backslash ++ "u2029"
  else String a (String b (String c EmptyString)).

Fixpoint escape (l : list ascii) : string :=
  match l with
  | [] => EmptyString
  | a :: l1 =>
      if byte_of a <? 128 then escape_ascii a ++ escape l1
      else match l1 with
           | [] => bad_rune
           | b :: l2 =>
               if utf8_2 a b then String a (String b (escape l2))
               else match l2 with
                    | [] => bad_rune ++ escape l1
                    | c :: l3 =>
                        if utf8_3 a b c then emit3 a b c ++ escape l3
                        else match l3 with
                             | [] => bad_rune ++ escape l1
                             | d :: l4 =>
                                 if utf8_4 a b c d
                                 then String a (String b (String c (String d (escape l4))))
                                 else bad_rune ++ escape l1
                             end
                    end
           end
  end.

Definition quote (s : string) : string := dquote ++ escape (list_ascii_of_string s) ++ dquote.

Definition sequence_opt {A} (l : list (option A)) : option (list A) :=
  foldr (fun x acc => match x, acc with Some x, Some l => Some (x :: l) | _, _ => None end) (Some []) l.

(** [json.Marshal]: fails only on a time that has no RFC 3339 form. *)
Fixpoint marshal (j : json) : option string :=
  match j with
  | JNull => Some "null"
  | JBool true => Some "true"
  | JBool false => Some "false"
  | JNum z => Some (num_string z)
  | JStr s => Some (quote s)
  | JTime t => if time_json_ok t then Some (quote (format_rfc3339nano t)) else None
  | JArr l =>
      match sequence_opt (List.map marshal l) with
      | Some parts => Some ("[" ++ join "," parts ++ "]")%string
      | None => None
      end
  | JObj l =>
      match sequence_opt (List.map (fun '(k, v) =>
              match marshal v with Some s => Some (quote k ++ ":" ++ s)%string | None => None end) l) with
      | Some parts => Some ("{" ++ join "," parts ++ "}")%string
      | None => None
      end
  | JRaw text => Some text
  end.

(** Struct fields; [omitempty] drops the empty value of the field's type. *)
Definition fld (k : string) (v : json) : list (string * json) := [(k, v)].
Definition fstr (k : string) (s : string) := fld k (JStr s).
Definition fstr_omit (k : string) (s : string) := if String.eqb s "" then [] else fld k (JStr s).
Definition fnum (k : string) (z : Z) := fld k (JNum z).
Definition fbool (k : string) (b : bool) := fld k (JBool b).
Definition ftime (k : string) (t : gotime) := fld k (JTime t).
Definition jstrs (l : list string) : json := JArr (List.map JStr l).
Definition fstrs (k : string) (l : list string) := fld k (jstrs l).
Definition farr (k : string) (l : list json) := fld k (JArr l).
Definition farr_omit (k : string) (l : list json) := match l with [] => [] | _ => fld k (JArr l) end.
Definition fstrs_omit (k : string) (l : list string) := farr_omit k (List.map JStr l).

(** ** Byte slices: [encoding/json] writes them in base 64 *)
Definition base64_digit (z : Z) : ascii :=
  ascii_of_nat (Z.to_nat (
    if z <? 26 then 65 + z
    else if z <? 52 then 71 + z
    else if z <? 62 then z - 4
    else if z =? 62 then 43 else 47)).

Fixpoint base64 (l : list ascii) : string :=
  match l with
  | [] => EmptyString
  | [a] =>
      let x := byte_of a in
      String (base64_digit (x / 4)) (String (base64_digit (x mod 4 * 16)) "==")
  | [a; b] =>
      let x := byte_of a in let y := byte_of b in
      String (base64_digit (x / 4)) (String (base64_digit (x mod 4 * 16 + y / 16))
        (String (base64_digit (y mod 16 * 4)) "="))
  | a :: b :: c :: l =>
      let x := byte_of a in let y := byte_of b in let z := byte_of c in
      String (base64_digit (x / 4)) (String (base64_digit (x mod 4 * 16 + y / 16))
        (String (base64_digit (y mod 16 * 4 + z / 64)) (String (base64_digit (z mod 64)) (base64 l))))
  end.

Definition fbytes (k : string) (s : string) := fld k (JStr (base64 (list_ascii_of_string s))).

Example base64_padding : base64 (list_ascii_of_string "any carnal pleas") = "YW55IGNhcm5hbCBwbGVhcw==".
Proof. vm_compute. reflexivity. Qed.

Section marshal_hash.
Context `{JCS} `{Digest}.

(** [canonical.MarshalAndHash]: the canonical bytes and their digest. *)
Definition MarshalAndHash (value : json) : result (string * string) :=
  match marshal value with
  | None => Err ErrMarshal
  | Some raw =>
      match jcs_transform raw with
      | None => Err ErrCanonicalize
      | Some canonical => Ok (canonical, sum256_hex canonical)
      end
  end.

(** [deriveID]: an identifier is its prefix and the digest of the value. *)
Definition deriveID (prefix : string) (value : json) : result string :=
  match MarshalAndHash value with
  | Ok (_, hash) => Ok (prefix ++ "_" ++ hash)%string
  | Err e => Err e
  end.

Lemma MarshalAndHash_digest j c h : MarshalAndHash j = Ok (c, h) -> h = sum256_hex c.
Proof.
  unfold MarshalAndHash. destruct (marshal j); [|done]. destruct (jcs_transform s); [|done].
  intros. by simplify_eq.
Qed.

Lemma MarshalAndHash_pattern j c h : MarshalAndHash j = Ok (c, h) -> sha256Pattern h = true.
Proof. intros Hm. rewrite (MarshalAndHash_digest _ _ _ Hm). apply sum256_hex_pattern. Qed.

(** The digest is a function of the canonical bytes: equal bytes, equal hash. *)
Lemma MarshalAndHash_fun j j' c h h' :
  MarshalAndHash j = Ok (c, h) -> MarshalAndHash j' = Ok (c, h') -> h = h'.
Proof. intros H1 H2. by rewrite (MarshalAndHash_digest _ _ _ H1), (MarshalAndHash_digest _ _ _ H2). Qed.

End marshal_hash.

(** ** Small instances of the interfaces, for evaluating definitions on concrete inputs *)
Definition copy_nfc : NFC := fun s => s.
Definition copy_jcs : JCS := fun raw => Some raw.
Definition copy_raw : RawCanonical := fun raw => Some raw.

Fixpoint hex_digits (n : nat) (z : Z) : list ascii :=
  match n with
  | O => []
  | S n => hex_digit (z mod 16) :: hex_digits n (z / 16)
  end.

Definition checksum (s : string) : Z :=
  let '(a, b) := foldl (fun '(a, b) c => let a := a + byte_of c in (a, b + a)) (7, 0) (list_ascii_of_string s) in b * 1048576 + a.

Definition checksum_hex (s : string) : string := string_of_list_ascii (hex_digits 64 (checksum s)).

Lemma hex_digit_is_lower z : is_lower_hex (hex_digit z) = true.
Proof.
  unfold hex_digit. pose proof (Z.mod_pos_bound z 16 eq_refl) as Hd.
  set (d := z mod 16) in *. clearbody d.
  assert (d = 0 \/ d = 1 \/ d = 2 \/ d = 3 \/ d = 4 \/ d = 5 \/ d = 6 \/ d = 7 \/ d = 8 \/ d = 9 \/
    d = 10 \/ d = 11 \/ d = 12 \/ d = 13 \/ d = 14 \/ d = 15) as Hcases by lia.
  repeat (destruct Hcases as [->|Hcases]; [reflexivity|]). by subst.
Qed.

Lemma string_of_list_ascii_length l : String.length (string_of_list_ascii l) = length l.
Proof. induction l as [|a l IH]; simpl; [done|]. by rewrite IH. Qed.

Lemma checksum_hex_pattern s : sha256Pattern (checksum_hex s) = true.
Proof.
  unfold sha256Pattern, checksum_hex, str_len. rewrite list_ascii_string, string_of_list_ascii_length.
  assert (Hl : forall n z, length (hex_digits n z) = n /\ forallb is_lower_hex (hex_digits n z) = true).
  { induction n as [|n IH]; intros z; simpl; [done|]. destruct (IH (z / 16)) as [-> ->].
    by rewrite hex_digit_is_lower. }
  destruct (Hl 64%nat (checksum s)) as [-> ->]. done.
Qed.

Definition checksum_digest : Digest :=
  {| sum256_hex := checksum_hex; sum256_hex_pattern := checksum_hex_pattern |}.

(** ** Reading texts back from JSON *)

(** Characters that [encoding/json] copies. *)
Definition plain (a : ascii) : bool :=
  let b := byte_of a in (32 <=? b) && (b <? 128) && negb (b =? 34) && negb (b =? 92) && negb (b =? 60) && negb (b =? 62) && negb (b =? 38).

Lemma escape_cons a l :
  plain a = true /\ escape (a :: l) = String a (escape l) \/
  exists c rest, escape (a :: l) = String c rest /\ plain c = false /\ byte_of c <> 34.
Proof.
  cbn [escape]. assert (Hslash : forall t, exists c rest, (backslash ++ t)%string = String c rest /\ plain c = false /\ byte_of c <> 34) by (intros t; by eexists _, t).
  destruct (Z.ltb_spec (byte_of a) 128) as [Ha|Ha].
  - unfold escape_ascii. destruct (_ || _) eqn:E1; [right; apply Hslash|]. repeat (match goal with |- context[if ?b then _ else _] => destruct b eqn:?; [right; apply Hslash|] end).
    left. split; [|done]. unfold plain. repeat match goal with Hx : _ || _ = false |- _ => apply orb_false_elim in Hx as [? ?] end.
    repeat match goal with Hx : ?b = false |- context[?b] => rewrite Hx end. rewrite !andb_true_r. apply andb_true_intro. split; [|by apply Z.ltb_lt]. apply Z.leb_le, Z.ltb_ge. done.
  - assert (Hhigh : forall t, exists c rest, String a t = String c rest /\ plain c = false /\ byte_of c <> 34).
    { intros t. exists a, t. split; [done|]. split; [|lia]. unfold plain. assert (E : (byte_of a <? 128) = false) by (by apply Z.ltb_ge). by rewrite E, andb_false_r. }
    right. destruct l as [|b l]; [apply Hslash|]. destruct (utf8_2 a b); [apply Hhigh|]. destruct l as [|c l]; [apply Hslash|].
    destruct (utf8_3 a b c). { unfold emit3. destruct (_ && _); [apply Hslash|]. destruct (_ && _); [apply Hslash|apply Hhigh]. }
    destruct l as [|d l]; [apply Hslash|]. destruct (utf8_4 a b c d); [apply Hhigh|apply Hslash].
Qed.

Lemma escape_plain l t r r' : forallb plain t = true -> (escape l ++ dquote ++ r)%string = (string_of_list_ascii t ++ dquote ++ r')%string -> l = t /\ r = r'.
Proof.
  revert l. induction t as [|c t IH]; intros l Ht.
  - destruct l as [|a l]; [cbn; intros He; by injection He|]. destruct (escape_cons a l) as [[Hp ->]|(c & rest & -> & _ & Hq)]; cbn; intros He; injection He as He _; by subst.
  - cbn in Ht. apply andb_prop in Ht as [Hc Ht]. destruct l as [|a l]; [cbn; intros He; injection He as He _; by subst c|].
    destruct (escape_cons a l) as [[Hp ->]|(c' & rest & -> & Hp & Hq)]; cbn; intros He; injection He as He Hr; subst; [|by rewrite Hp in Hc]. by destruct (IH l Ht Hr) as [-> ->].
Qed.

Lemma escape_copies l : forallb plain l = true -> escape l = string_of_list_ascii l.
Proof.
  induction l as [|a l IH]; [done|]. cbn [forallb]. intros [Ha Hl]%andb_prop. cbn [escape string_of_list_ascii]. rewrite <- (IH Hl). unfold plain in Ha.
  rewrite !andb_true_iff, !negb_true_iff, Z.leb_le, Z.ltb_lt, !Z.eqb_neq in Ha. assert (Hb : (byte_of a <? 128) = true) by (apply Z.ltb_lt; tauto). rewrite Hb. unfold escape_ascii.
  repeat match goal with |- context[byte_of a =? ?k] => let E := fresh in assert (E : (byte_of a =? k) = false) by (apply Z.eqb_neq; destruct_and!; lia || done); rewrite E end.
  assert (E : (byte_of a <? 32) = false) by (apply Z.ltb_ge; tauto). by rewrite E.
Qed.

Lemma quote_plain s t r r' : forallb plain (list_ascii_of_string t) = true -> (quote s ++ r)%string = (quote t ++ r')%string -> s = t /\ r = r'.
Proof.
  intros Ht He. unfold quote in He. rewrite (escape_copies _ Ht), <- !str_app_assoc in He. injection He as He. apply escape_plain in He as [Hl ->]; [|done]. split; [|done].
  rewrite <- (string_of_list_ascii_of_string s), Hl. apply string_of_list_ascii_of_string.
Qed.

(** The start of an object. *)
Lemma marshal_first k v l text : marshal (JObj ((k, v) :: l)) = Some text -> exists inner rest, marshal v = Some inner /\ text = ("{" ++ quote k ++ ":" ++ inner ++ rest)%string.
Proof.
  cbn [marshal List.map sequence_opt foldr]. destruct (marshal v) as [inner|]; [|done]. fold (@sequence_opt string). destruct (foldr _ _ _) as [parts|]; [|done]. intros [= <-].
  destruct parts as [|part parts]; [exists inner, "}"%string|exists inner, ("," ++ join "," (part :: parts) ++ "}")%string]; split; try done;
    unfold join; cbn [String.concat]; by rewrite ?str_app_assoc.
Qed.

Lemma marshal_second k s k' s' l text : marshal (JObj ((k, JStr s) :: (k', JStr s') :: l)) = Some text ->
  exists rest, text = ("{" ++ quote k ++ ":" ++ quote s ++ "," ++ quote k' ++ ":" ++ quote s' ++ rest)%string.
Proof.
  cbn [marshal List.map sequence_opt foldr]. destruct (foldr _ _ _) as [parts|]; [|done]. intros [= <-].
  destruct parts as [|part parts]; [exists "}"%string|exists ("," ++ join "," (part :: parts) ++ "}")%string]; unfold join; cbn [String.concat]; by rewrite ?str_app_assoc.
Qed.

Lemma marshal_third k s k' s' k'' s'' l text : marshal (JObj ((k, JStr s) :: (k', JStr s') :: (k'', JStr s'') :: l)) = Some text ->
  exists rest, text = ("{" ++ quote k ++ ":" ++ quote s ++ "," ++ quote k' ++ ":" ++ quote s' ++ "," ++ quote k'' ++ ":" ++ quote s'' ++ rest)%string.
Proof.
  cbn [marshal List.map sequence_opt foldr]. destruct (foldr _ _ _) as [parts|]; [|done]. intros [= <-].
  destruct parts as [|part parts]; [exists "}"%string|exists ("," ++ join "," (part :: parts) ++ "}")%string]; unfold join; cbn [String.concat]; by rewrite ?str_app_assoc.
Qed.
