(* ===== verification/Sha256.v ===== *)
(** * SHA-256 and hexadecimal encoding

    [crypto/sha256.Sum256] followed by [encoding/hex.EncodeToString], the
    digest of [canonical.MarshalAndHash], on 32-bit words kept as [Z].  The file
    ends with the instance of the interface [Digest]. *)

From Stdlib Require Import ZArith String Ascii List Bool Lia.
From stdpp Require Import base strings list.
From S2P Require Import Prelude GoStrings GoTime Canonical.

Open Scope Z_scope.

Definition add32 (x y : Z) : Z := wrap_u32 (x + y).
Definition rotr (n x : Z) : Z := Z.lor (Z.shiftr x n) (wrap_u32 (Z.shiftl x (32 - n))).
Definition not32 (x : Z) : Z := MaxUint32 - x.

Definition ch (x y z : Z) : Z := Z.lxor (Z.land x y) (Z.land (not32 x) z).
Definition maj (x y z : Z) : Z := Z.lxor (Z.lxor (Z.land x y) (Z.land x z)) (Z.land y z).
Definition bsig0 (x : Z) : Z := Z.lxor (Z.lxor (rotr 2 x) (rotr 13 x)) (rotr 22 x).
Definition bsig1 (x : Z) : Z := Z.lxor (Z.lxor (rotr 6 x) (rotr 11 x)) (rotr 25 x).
Definition ssig0 (x : Z) : Z := Z.lxor (Z.lxor (rotr 7 x) (rotr 18 x)) (Z.shiftr x 3).
Definition ssig1 (x : Z) : Z := Z.lxor (Z.lxor (rotr 17 x) (rotr 19 x)) (Z.shiftr x 10).

(** The constants of the standard are the first 32 fractional bits of the cube
    roots of the first 64 primes, and of the square roots of the first 8; they
    are computed from that description. *)
Definition is_prime (n : Z) : bool :=
  (1 <? n) && forallb (fun d => negb (n mod Z.of_nat d =? 0)) (seq 2 (Z.to_nat (Z.sqrt n) - 1)).

Definition primes_below (n : nat) : list Z := List.filter is_prime (List.map Z.of_nat (seq 0 n)).

(** The largest [r] between [lo] and [hi] with [r^3 <= n], by bisection. *)
Fixpoint cube_root (fuel : nat) (lo hi n : Z) : Z :=
  match fuel with
  | O => lo
  | S fuel =>
      let mid := (lo + hi + 1) / 2 in
      if mid * mid * mid <=? n then cube_root fuel mid hi n else cube_root fuel lo (mid - 1) n
  end.

Definition cube_root_bits (p : Z) : Z := wrap_u32 (cube_root 40 0 (2 ^ 40) (p * 2 ^ 96)).
Definition square_root_bits (p : Z) : Z := wrap_u32 (Z.sqrt (p * 2 ^ 64)).

Definition round_constants : list Z :=
  Eval vm_compute in List.map cube_root_bits (primes_below 312).

Record hash_state := mk_hash {
  h_a : Z; h_b : Z; h_c : Z; h_d : Z; h_e : Z; h_f : Z; h_g : Z; h_h : Z
}.

Definition initial_state : hash_state :=
  Eval vm_compute in
  match List.map square_root_bits (primes_below 20) with
  | [a; b; c; d; e; f; g; h] => mk_hash a b c d e f g h
  | _ => mk_hash 0 0 0 0 0 0 0 0
  end.

Definition be_word (a b c d : Z) : Z := ((a * 256 + b) * 256 + c) * 256 + d.

Fixpoint words (l : list Z) : list Z :=
  match l with
  | a :: b :: c :: d :: l => be_word a b c d :: words l
  | _ => []
  end.

(** The message schedule; [w] holds the last sixteen words, oldest first. *)
Fixpoint schedule (n : nat) (w : list Z) : list Z :=
  match n with
  | O => []
  | S n =>
      match w with
      | w0 :: rest =>
          let w1 := nth 0 rest 0 in let w9 := nth 8 rest 0 in let w14 := nth 13 rest 0 in
          let next := add32 (add32 (add32 (ssig1 w14) w9) (ssig0 w1)) w0 in
          w0 :: schedule n (rest ++ [next])
      | [] => []
      end
  end.

Definition compress_round (s : hash_state) (kw : Z * Z) : hash_state :=
  let '(k, w) := kw in
  let t1 := add32 (add32 (add32 (add32 (h_h s) (bsig1 (h_e s))) (ch (h_e s) (h_f s) (h_g s))) k) w in
  let t2 := add32 (bsig0 (h_a s)) (maj (h_a s) (h_b s) (h_c s)) in
  mk_hash (add32 t1 t2) (h_a s) (h_b s) (h_c s) (add32 (h_d s) t1) (h_e s) (h_f s) (h_g s).

Definition compress (s : hash_state) (block : list Z) : hash_state :=
  let r := foldl compress_round s (combine round_constants (schedule 64 (words block))) in
  mk_hash (add32 (h_a s) (h_a r)) (add32 (h_b s) (h_b r)) (add32 (h_c s) (h_c r)) (add32 (h_d s) (h_d r))
          (add32 (h_e s) (h_e r)) (add32 (h_f s) (h_f r)) (add32 (h_g s) (h_g r)) (add32 (h_h s) (h_h r)).

Fixpoint be_bytes (n : nat) (z : Z) : list Z :=
  match n with
  | O => []
  | S n => be_bytes n (z / 256) ++ [z mod 256]
  end.

(** 0x80, zeros up to 56 modulo 64, then the bit length in eight bytes. *)
Definition pad (l : list Z) : list Z :=
  let n := Z.of_nat (length l) in
  l ++ [0x80] ++ repeat 0 (Z.to_nat ((55 - n) mod 64)) ++ be_bytes 8 (8 * n).

Fixpoint blocks (fuel : nat) (s : hash_state) (l : list Z) : hash_state :=
  match fuel, l with
  | S fuel, _ :: _ => blocks fuel (compress s (firstn 64 l)) (skipn 64 l)
  | _, _ => s
  end.

Definition Sum256 (l : list Z) : list Z :=
  let p := pad l in
  let s := blocks (length p) initial_state p in
  flat_map (be_bytes 4) [h_a s; h_b s; h_c s; h_d s; h_e s; h_f s; h_g s; h_h s].

Definition EncodeToString (l : list Z) : string :=
  string_of_list_ascii (flat_map (fun b => [hex_digit (b / 16); hex_digit b]) l).

Definition sha256_hex (s : string) : string :=
  EncodeToString (Sum256 (List.map byte_of (list_ascii_of_string s))).

(** ** The digest is 64 lower-case hexadecimal digits *)

Lemma be_bytes_length n z : length (be_bytes n z) = n.
Proof. revert z. induction n as [|n IH]; intros z; simpl; [done|]. rewrite length_app, IH. simpl. lia. Qed.

Lemma Sum256_length l : length (Sum256 l) = 32%nat.
Proof. unfold Sum256. cbn [flat_map]. rewrite !length_app, !be_bytes_length. reflexivity. Qed.

Lemma hex_flat_length l : length (flat_map (fun b => [hex_digit (b / 16); hex_digit b]) l) = (2 * length l)%nat.
Proof. induction l as [|b l IH]; simpl; [done|]. rewrite IH. lia. Qed.

Lemma hex_flat_lower l :
  forallb is_lower_hex (flat_map (fun b => [hex_digit (b / 16); hex_digit b]) l) = true.
Proof. induction l as [|b l IH]; [done|]. cbn [flat_map app forallb]. rewrite !hex_digit_is_lower. exact IH. Qed.

Lemma sha256_hex_pattern s : sha256Pattern (sha256_hex s) = true.
Proof.
  unfold sha256Pattern, sha256_hex, EncodeToString, str_len.
  rewrite list_ascii_string, string_of_list_ascii_length, hex_flat_length, Sum256_length, hex_flat_lower. reflexivity.
Qed.

#[export] Instance sha256_digest : Digest :=
  {| sum256_hex := sha256_hex; sum256_hex_pattern := sha256_hex_pattern |}.

Example round_constants_count : length round_constants = 64%nat.
Proof. reflexivity. Qed.

Example sha256_abc :
  sha256_hex "abc" = "ba7816bf8f01cfea414140de5dae2223b00361a396177a9cb410ff61f20015ad".
Proof. vm_compute. reflexivity. Qed.
