(* ===== verification/Ranking.v ===== *)
(** * The deterministic ranker (internal/ranking)

    [manifest.go]: the ranker manifest, its validation and the static bound on
    scores.  [fusion.go]: reciprocal-rank fusion with integer features, and the
    total order of the results.  The theorems show that an accepted manifest
    makes every 64-bit score exact, that [Rank] returns the specified order for
    every order of its input, and which manifests [Rank] accepts again. *)

From Stdlib Require Import ZArith String Ascii List Bool Lia.
From stdpp Require Import base gmap strings list.
From S2P Require Import Prelude GoStrings GoTime Canonical.

Open Scope Z_scope.
Open Scope go_scope.

Definition rrfScale : Z := 1000000.

Record ChannelWeight := mk_ChannelWeight { cw_Channel : string; cw_WeightMicros : Z }.

Record FeatureSpec := mk_FeatureSpec {
  fs_Name : string; fs_Minimum : Z; fs_Maximum : Z; fs_Missing : Z; fs_Coefficient : Z
}.

Record ManifestSpec := mk_ManifestSpec {
  ms_Version : string;
  ms_RRFK : Z;
  ms_RRFCoefficient : Z;
  ms_MaxCandidates : Z;
  ms_Intercept : Z;
  ms_Channels : list ChannelWeight;
  ms_Features : list FeatureSpec
}.

Record Manifest := mk_Manifest { m_Spec : ManifestSpec; m_ID : string; m_CanonicalJSON : string }.

Definition channel_json (c : ChannelWeight) : json :=
  JObj (fstr "channel" (cw_Channel c) ++ fnum "weight_micros" (cw_WeightMicros c)).

Definition feature_json (f : FeatureSpec) : json :=
  JObj (fstr "name" (fs_Name f) ++ fnum "minimum" (fs_Minimum f) ++ fnum "maximum" (fs_Maximum f) ++
        fnum "missing" (fs_Missing f) ++ fnum "coefficient" (fs_Coefficient f)).

Definition spec_json (s : ManifestSpec) : json :=
  JObj (fstr "version" (ms_Version s) ++ fnum "rrf_k" (ms_RRFK s) ++
        fnum "rrf_coefficient" (ms_RRFCoefficient s) ++ fnum "max_candidates" (ms_MaxCandidates s) ++
        fnum "intercept" (ms_Intercept s) ++ farr "channels" (List.map channel_json (ms_Channels s)) ++
        farr_omit "features" (List.map feature_json (ms_Features s))).

(** [abs32]: an [int32] widened before it is negated. *)
Definition abs32 (value : Z) : Z := if value <? 0 then - value else value.
Definition max64 (left right : Z) : Z := if right <? left then left else right.

(** [scoreBoundFits], in [math/big] integers. *)
Definition scoreBoundFits (spec : ManifestSpec) : bool :=
  let bound := Z.abs (ms_Intercept spec) in
  let rrfBound := foldl (fun acc channel =>
        acc + (cw_WeightMicros channel * rrfScale) / (ms_RRFK spec + 1)) 0 (ms_Channels spec) in
  let bound := bound + rrfBound * abs32 (ms_RRFCoefficient spec) in
  let bound := foldl (fun acc feature =>
        acc + max64 (abs32 (fs_Minimum feature)) (abs32 (fs_Maximum feature)) * abs32 (fs_Coefficient feature))
        bound (ms_Features spec) in
  bound <=? MaxInt64.

Definition channel_less (l r : ChannelWeight) : bool := str_ltb (cw_Channel l) (cw_Channel r).
Definition feature_less (l r : FeatureSpec) : bool := str_ltb (fs_Name l) (fs_Name r).

Definition trim_channel (c : ChannelWeight) : ChannelWeight :=
  mk_ChannelWeight (TrimSpace (cw_Channel c)) (cw_WeightMicros c).

Definition trim_feature (f : FeatureSpec) : FeatureSpec :=
  mk_FeatureSpec (TrimSpace (fs_Name f)) (fs_Minimum f) (fs_Maximum f) (fs_Missing f) (fs_Coefficient f).

(** The loop over the sorted channels; [prev] is the already trimmed name at [index-1]. *)
Fixpoint checkChannels (prev : option string) (l : list ChannelWeight) : result (list ChannelWeight) :=
  match l with
  | [] => Ok []
  | c :: l =>
      let c := trim_channel c in
      reject String.eqb (cw_Channel c) "" || (cw_WeightMicros c <=? 0) with ErrRankingInvalidManifest;
      reject match prev with Some p => String.eqb p (cw_Channel c) | None => false end
        with ErrRankingInvalidManifest;
      let* rest := checkChannels (Some (cw_Channel c)) l in
      Ok (c :: rest)
  end.

Fixpoint checkFeatures (prev : option string) (l : list FeatureSpec) : result (list FeatureSpec) :=
  match l with
  | [] => Ok []
  | f :: l =>
      let f := trim_feature f in
      reject String.eqb (fs_Name f) "" || (fs_Maximum f <? fs_Minimum f) ||
             (fs_Missing f <? fs_Minimum f) || (fs_Maximum f <? fs_Missing f) with ErrRankingInvalidManifest;
      reject match prev with Some p => String.eqb p (fs_Name f) | None => false end
        with ErrRankingInvalidManifest;
      let* rest := checkFeatures (Some (fs_Name f)) l in
      Ok (f :: rest)
  end.

Definition is_nil {A} (l : list A) : bool := match l with [] => true | _ => false end.

(** The first guard of [NewManifest], on the trimmed version. *)
Definition head_invalid (version : string) (s : ManifestSpec) : bool :=
  String.eqb version "" || (ms_RRFK s =? 0) || (1000000 <? ms_RRFK s) ||
  (ms_MaxCandidates s =? 0) || (10000 <? ms_MaxCandidates s) || (ms_RRFCoefficient s =? 0) ||
  is_nil (ms_Channels s).

Record ChannelRank := mk_ChannelRank { cr_Channel : string; cr_Rank : Z }.
Record FeatureValue := mk_FeatureValue { fv_Name : string; fv_Value : Z }.

Record Candidate := mk_Candidate {
  c_VersionID : string;
  c_ChannelRanks : list ChannelRank;
  c_Features : list FeatureValue;
  c_VerificationStrength : Z;
  c_ObservedEndToEnd : bool
}.

Record Result := mk_Result {
  r_VersionID : string;
  r_Rank : Z;
  r_RRFScore : Z;
  r_FinalScore : Z;
  r_VerificationStrength : Z;
  r_ObservedEndToEnd : bool;
  r_MissingFeatures : gset string
}.

Definition checkedAdd (left right : Z) : option Z :=
  if ((0 <? right) && (MaxInt64 - right <? left)) || ((right <? 0) && (left <? MinInt64 - right))
  then None
  else Some (wrap_i64 (left + right)).

Definition checkedMul (left right : Z) : option Z :=
  if (left =? 0) || (right =? 0) then Some 0
  else if ((left =? -1) && (right =? MinInt64)) || ((right =? -1) && (left =? MinInt64)) then None
  else
    let result := wrap_i64 (left * right) in
    if negb (wrap_i64 (Z.quot result right) =? left) then None else Some result.

Definition channelWeightMap (l : list ChannelWeight) : gmap string Z :=
  foldl (fun m item => <[cw_Channel item := cw_WeightMicros item]> m) ∅ l.

Definition featureSpecMap (l : list FeatureSpec) : gmap string FeatureSpec :=
  foldl (fun m item => <[fs_Name item := item]> m) ∅ l.

(** The loop over the candidate's channel ranks. *)
Fixpoint rrfLoop (s : ManifestSpec) (weights : gmap string Z) (seen : gset string) (rrfScore : Z)
    (l : list ChannelRank) : result Z :=
  match l with
  | [] => Ok rrfScore
  | cr :: l =>
      match weights !! cr_Channel cr with
      | None => Err ErrInvalidCandidate
      | Some weight =>
          reject (cr_Rank cr =? 0) || (ms_MaxCandidates s <? cr_Rank cr) with ErrInvalidCandidate;
          reject bool_decide (cr_Channel cr ∈ seen) with ErrInvalidCandidate;
          match checkedMul weight rrfScale with
          | None => Err ErrRankingInvalidManifest
          | Some product =>
              let contribution := Z.quot product (wrap_i64 (ms_RRFK s + cr_Rank cr)) in
              match checkedAdd rrfScore contribution with
              | None => Err ErrRankingInvalidManifest
              | Some rrfScore => rrfLoop s weights ({[cr_Channel cr]} ∪ seen) rrfScore l
              end
          end
      end
  end.

(** The loop over the candidate's feature values. *)
Fixpoint providedLoop (specs : gmap string FeatureSpec) (provided : gmap string Z)
    (l : list FeatureValue) : result (gmap string Z) :=
  match l with
  | [] => Ok provided
  | f :: l =>
      match specs !! fv_Name f with
      | None => Err ErrInvalidCandidate
      | Some spec =>
          reject (fv_Value f <? fs_Minimum spec) || (fs_Maximum spec <? fv_Value f) with ErrInvalidCandidate;
          match provided !! fv_Name f with
          | Some _ => Err ErrInvalidCandidate
          | None => providedLoop specs (<[fv_Name f := fv_Value f]> provided) l
          end
      end
  end.

(** The loop over the manifest's features. *)
Fixpoint featureLoop (provided : gmap string Z) (finalScore : Z) (missing : gset string)
    (l : list FeatureSpec) : result (Z * gset string) :=
  match l with
  | [] => Ok (finalScore, missing)
  | spec :: l =>
      let '(value, missing) :=
        match provided !! fs_Name spec with
        | Some value => (value, missing)
        | None => (fs_Missing spec, {[fs_Name spec]} ∪ missing)
        end in
      match checkedMul value (fs_Coefficient spec) with
      | None => Err ErrRankingInvalidManifest
      | Some term =>
          match checkedAdd finalScore term with
          | None => Err ErrRankingInvalidManifest
          | Some finalScore => featureLoop provided finalScore missing l
          end
      end
  end.

Definition scoreCandidate (s : ManifestSpec) (candidate : Candidate) (weights : gmap string Z)
    (specs : gmap string FeatureSpec) : result Result :=
  let* rrfScore := rrfLoop s weights ∅ 0 (c_ChannelRanks candidate) in
  let* provided := providedLoop specs ∅ (c_Features candidate) in
  match checkedMul rrfScore (ms_RRFCoefficient s) with
  | None => Err ErrRankingInvalidManifest
  | Some rrfTerm =>
      match checkedAdd (ms_Intercept s) rrfTerm with
      | None => Err ErrRankingInvalidManifest
      | Some finalScore =>
          let* (finalScore, missing) := featureLoop provided finalScore ∅ (ms_Features s) in
          Ok (mk_Result (c_VersionID candidate) 0 rrfScore finalScore
                (c_VerificationStrength candidate) (c_ObservedEndToEnd candidate) missing)
      end
  end.

(** The order of the results. *)
Definition result_less (l r : Result) : bool :=
  if negb (r_FinalScore l =? r_FinalScore r) then r_FinalScore r <? r_FinalScore l
  else if negb (r_VerificationStrength l =? r_VerificationStrength r)
  then r_VerificationStrength r <? r_VerificationStrength l
  else if negb (Bool.eqb (r_ObservedEndToEnd l) (r_ObservedEndToEnd r)) then r_ObservedEndToEnd l
  else str_ltb (r_VersionID l) (r_VersionID r).

Fixpoint scoreAll (s : ManifestSpec) (weights : gmap string Z) (specs : gmap string FeatureSpec)
    (seen : gset string) (l : list Candidate) : result (list Result) :=
  match l with
  | [] => Ok []
  | c :: l =>
      reject String.eqb (TrimSpace (c_VersionID c)) "" with ErrInvalidCandidate;
      reject bool_decide (c_VersionID c ∈ seen) with ErrInvalidCandidate;
      let* r := scoreCandidate s c weights specs in
      let* rest := scoreAll s weights specs ({[c_VersionID c]} ∪ seen) l in
      Ok (r :: rest)
  end.

Definition set_rank (n : Z) (r : Result) : Result :=
  mk_Result (r_VersionID r) n (r_RRFScore r) (r_FinalScore r) (r_VerificationStrength r)
    (r_ObservedEndToEnd r) (r_MissingFeatures r).

(** [results[index].Rank = uint32(index + 1)] *)
Definition assignRanks (l : list Result) : list Result :=
  imap (fun index r => set_rank (wrap_u32 (Z.of_nat index + 1)) r) l.

Section ranker.
Context `{JCS} `{Digest}.

Definition NewManifest (source : ManifestSpec) : result Manifest :=
  let version := TrimSpace (ms_Version source) in
  reject head_invalid version source with ErrRankingInvalidManifest;
  let* channels := checkChannels None (sort_slice channel_less (ms_Channels source)) in
  let* features := checkFeatures None (sort_slice feature_less (ms_Features source)) in
  let spec := mk_ManifestSpec version (ms_RRFK source) (ms_RRFCoefficient source)
    (ms_MaxCandidates source) (ms_Intercept source) channels features in
  reject negb (scoreBoundFits spec) with ErrRankingInvalidManifest;
  let* (canonicalJSON, hash) := MarshalAndHash (spec_json spec) in
  Ok (mk_Manifest spec ("rnk_" ++ hash)%string canonicalJSON).

Definition manifest_accepted (manifest : Manifest) : bool :=
  match NewManifest (m_Spec manifest) with
  | Err _ => false
  | Ok validated =>
      String.eqb (m_ID manifest) (m_ID validated) &&
      String.eqb (m_CanonicalJSON manifest) (m_CanonicalJSON validated)
  end.

Definition Rank (manifest : Manifest) (candidates : list Candidate) : result (list Result) :=
  reject negb (manifest_accepted manifest) with ErrRankingInvalidManifest;
  let s := m_Spec manifest in
  let* results := scoreAll s (channelWeightMap (ms_Channels s)) (featureSpecMap (ms_Features s)) ∅ candidates in
  Ok (assignRanks (sort_slice result_less results)).

End ranker.

(** ** Checked arithmetic *)

Lemma wrap_i64_out z : ~ in_i64 z -> Z.abs (wrap_i64 z - z) >= 18446744073709551616.
Proof.
  intros Hz. destruct (wrap_i64_cong z) as [k Hk]. rewrite Hk.
  destruct (Z.eq_dec k 0) as [->|Hk0]; [|lia].
  exfalso. apply Hz. rewrite Z.mul_0_l, Z.add_0_r in Hk. rewrite <- Hk. apply wrap_i64_range.
Qed.

Lemma checkedAdd_spec a b : in_i64 a -> in_i64 b -> in_i64 (a + b) -> checkedAdd a b = Some (a + b).
Proof.
  intros Ha Hb Hs. unfold checkedAdd. rewrite wrap_i64_id by done. unfold_widths.
  destruct (Z.ltb_spec 0 b), (Z.ltb_spec b 0), (Z.ltb_spec (9223372036854775807 - b) a),
    (Z.ltb_spec a (-9223372036854775808 - b)); simpl; try done; lia.
Qed.

Lemma checkedMul_none a b :
  in_i64 a -> in_i64 b -> ~ in_i64 (a * b) -> checkedMul a b = None.
Proof.
  intros Ha Hb Hn. unfold checkedMul.
  destruct (Z.eqb_spec a 0) as [->|Ha0]; [exfalso; apply Hn; unfold_widths; lia|].
  destruct (Z.eqb_spec b 0) as [->|Hb0]; [exfalso; apply Hn; unfold_widths; lia|]. simpl.
  destruct (((a =? -1) && (b =? MinInt64)) || ((b =? -1) && (a =? MinInt64))) eqn:Eg; [done|].
  set (r := wrap_i64 (a * b)). destruct (wrap_i64 (Z.quot r b) =? a) eqn:Eq; [|done].
  exfalso. apply Z.eqb_eq in Eq. pose proof (wrap_i64_out _ Hn) as Hout. fold r in Hout.
  assert (Hr : in_i64 r) by apply wrap_i64_range.
  pose proof (Z.quot_rem' r b) as Hqr. pose proof (Z.rem_bound_abs r b Hb0) as Hrem.
  assert (Hq : in_i64 (Z.quot r b) \/ b = -1).
  { destruct (Z.eq_dec b (-1)); [by right|left]. unfold_widths.
    assert (Z.abs (Z.quot r b) <= Z.abs r / 1); [|rewrite Z.div_1_r in *].
    { rewrite <- Z.quot_abs by done. rewrite Z.quot_div_nonneg by lia.
      apply Z.div_le_compat_l; lia. }
    destruct (Z.eq_dec b 1) as [->|]; [rewrite Z.quot_1_r; lia|].
    assert (Z.abs (Z.quot r b) <= Z.abs r / 2); [|pose proof (Z.div_le_upper_bound (Z.abs r) 2 4611686018427387904); lia].
    rewrite <- Z.quot_abs by done. rewrite Z.quot_div_nonneg by lia. apply Z.div_le_compat_l; lia. }
  destruct Hq as [Hq| ->].
  - rewrite wrap_i64_id in Eq by done. rewrite Eq in Hqr.
    replace (b * a) with (a * b) in Hqr by lia. unfold_widths. lia.
  - apply Hn. rewrite orb_false_iff, andb_false_iff, andb_false_iff, !Z.eqb_neq in Eg. unfold_widths. lia.
Qed.

Lemma checkedMul_some a b :
  in_i64 a -> in_i64 b -> in_i64 (a * b) -> checkedMul a b = Some (a * b).
Proof.
  intros Ha Hb Hs. unfold checkedMul.
  destruct (Z.eqb_spec a 0) as [->|Ha0]; [done|].
  destruct (Z.eqb_spec b 0) as [->|Hb0]; [by rewrite Z.mul_0_r|]. simpl.
  destruct (((a =? -1) && (b =? MinInt64)) || ((b =? -1) && (a =? MinInt64))) eqn:Eg.
  { exfalso. autorewrite with goboolsimpl in Eg. unfold_widths. lia. }
  rewrite (wrap_i64_id (a * b)) by done. rewrite Z.quot_mul by done.
  rewrite wrap_i64_id by done. by rewrite Z.eqb_refl.
Qed.

(** ** What acceptance of a manifest gives *)

(** The fields are machine integers of the widths the structs declare. *)
Record spec_widths (s : ManifestSpec) : Prop := {
  sw_k : in_u32 (ms_RRFK s);
  sw_coef : in_i32 (ms_RRFCoefficient s);
  sw_max : in_u32 (ms_MaxCandidates s);
  sw_intercept : in_i64 (ms_Intercept s);
  sw_channels : forall c, c ∈ ms_Channels s -> in_i32 (cw_WeightMicros c);
  sw_features : forall f, f ∈ ms_Features s ->
    in_i32 (fs_Minimum f) /\ in_i32 (fs_Maximum f) /\ in_i32 (fs_Missing f) /\ in_i32 (fs_Coefficient f)
}.

Definition channel_bound (s : ManifestSpec) (c : ChannelWeight) : Z :=
  (cw_WeightMicros c * rrfScale) / (ms_RRFK s + 1).

Definition feature_bound (f : FeatureSpec) : Z :=
  Z.max (Z.abs (fs_Minimum f)) (Z.abs (fs_Maximum f)) * Z.abs (fs_Coefficient f).

Record accepted_spec (s : ManifestSpec) : Prop := {
  as_k : 1 <= ms_RRFK s <= 1000000;
  as_max : 1 <= ms_MaxCandidates s <= 10000;
  as_coef : ms_RRFCoefficient s <> 0;
  as_channel_names : NoDup (List.map cw_Channel (ms_Channels s));
  as_weights : forall c, c ∈ ms_Channels s -> 0 < cw_WeightMicros c;
  as_feature_names : NoDup (List.map fs_Name (ms_Features s));
  as_features : forall f, f ∈ ms_Features s -> fs_Minimum f <= fs_Missing f <= fs_Maximum f;
  as_fits : Z.abs (ms_Intercept s) + zsum (channel_bound s) (ms_Channels s) * Z.abs (ms_RRFCoefficient s) +
            zsum feature_bound (ms_Features s) <= MaxInt64
}.

Lemma scoreBoundFits_zsum s :
  scoreBoundFits s = true <->
  Z.abs (ms_Intercept s) + zsum (channel_bound s) (ms_Channels s) * Z.abs (ms_RRFCoefficient s) +
  zsum feature_bound (ms_Features s) <= MaxInt64.
Proof.
  assert (Habs : forall z, abs32 z = Z.abs z) by (intros z; unfold abs32; destruct (Z.ltb_spec z 0); lia).
  assert (Hf : zsum (fun f => max64 (abs32 (fs_Minimum f)) (abs32 (fs_Maximum f)) * abs32 (fs_Coefficient f))
    (ms_Features s) = zsum feature_bound (ms_Features s)).
  { apply zsum_ext. intros f _. unfold feature_bound, max64. rewrite !Habs.
    destruct (Z.ltb_spec (Z.abs (fs_Maximum f)) (Z.abs (fs_Minimum f))); f_equal; lia. }
  unfold scoreBoundFits. rewrite Z.leb_le, !foldl_zsum, Hf, Habs, Z.add_0_l. done.
Qed.

Lemma checkChannels_ok prev l l' :
  checkChannels prev l = Ok l' ->
  l' = List.map trim_channel l /\
  (forall c, c ∈ l -> TrimSpace (cw_Channel c) <> "" /\ 0 < cw_WeightMicros c) /\
  adjacent_dup String.eqb (option_list prev ++ List.map TrimSpace (List.map cw_Channel l)) = false.
Proof.
  revert prev l'. induction l as [|c l IH]; intros prev l'; simpl.
  { intros [= <-]. split; [done|]. split; [by intros ? ?%not_elem_of_nil|]. by destruct prev. }
  destruct (String.eqb (TrimSpace (cw_Channel c)) "" || (cw_WeightMicros c <=? 0)) eqn:E1; [done|].
  destruct (match prev with Some p => String.eqb p (TrimSpace (cw_Channel c)) | None => false end) eqn:E2; [done|].
  destruct (checkChannels (Some (TrimSpace (cw_Channel c))) l) as [rest|] eqn:E3; simpl; [|done].
  intros [= <-]. apply IH in E3 as (-> & Hall & Hadj). split; [done|].
  autorewrite with goboolsimpl in E1. split.
  - intros c' [->|Hc]%elem_of_cons; [split; [tauto|lia]|by apply Hall].
  - destruct prev as [p|]; [|exact Hadj]. simpl in *. by rewrite E2.
Qed.

Lemma checkFeatures_ok prev l l' :
  checkFeatures prev l = Ok l' ->
  l' = List.map trim_feature l /\
  (forall f, f ∈ l -> TrimSpace (fs_Name f) <> "" /\ fs_Minimum f <= fs_Missing f <= fs_Maximum f) /\
  adjacent_dup String.eqb (option_list prev ++ List.map TrimSpace (List.map fs_Name l)) = false.
Proof.
  revert prev l'. induction l as [|f l IH]; intros prev l'; simpl.
  { intros [= <-]. split; [done|]. split; [by intros ? ?%not_elem_of_nil|]. by destruct prev. }
  destruct (String.eqb (TrimSpace (fs_Name f)) "" || _ || _ || _) eqn:E1; [done|].
  destruct (match prev with Some p => String.eqb p (TrimSpace (fs_Name f)) | None => false end) eqn:E2; [done|].
  destruct (checkFeatures (Some (TrimSpace (fs_Name f))) l) as [rest|] eqn:E3; simpl; [|done].
  intros [= <-]. apply IH in E3 as (-> & Hall & Hadj). split; [done|].
  autorewrite with goboolsimpl in E1. split.
  - intros f' [->|Hf]%elem_of_cons; [split; [tauto|lia]|by apply Hall].
  - destruct prev as [p|]; [|exact Hadj]. simpl in *. by rewrite E2.
Qed.

(** Equal names are adjacent after the sort, so the duplicate test on the
    trimmed names excludes duplicates among the names as given. *)
Lemma sorted_names_NoDup {A} (k : A -> string) l :
  adjacent_dup String.eqb (List.map TrimSpace (List.map k (sort_slice (cmp_ltb (cmp_on k String.compare)) l))) = false ->
  NoDup (List.map k l).
Proof.
  intros Hadj. apply adjacent_dup_map in Hadj.
  - apply adjacent_dup_sorted in Hadj.
    + by rewrite <- (Permutation_map k (sort_slice_perm (cmp_ltb (cmp_on k String.compare)) l)).
    + apply StronglySorted_on. apply (sort_slice_sorted (cmp_on k String.compare)).
  - intros x y. rewrite !String.eqb_eq. by intros ->.
Qed.

Section accepted.
Context `{JCS} `{Digest}.

Lemma NewManifest_inv source m :
  NewManifest source = Ok m ->
  head_invalid (TrimSpace (ms_Version source)) source = false /\
  checkChannels None (sort_slice channel_less (ms_Channels source)) = Ok (ms_Channels (m_Spec m)) /\
  checkFeatures None (sort_slice feature_less (ms_Features source)) = Ok (ms_Features (m_Spec m)) /\
  m_Spec m = mk_ManifestSpec (TrimSpace (ms_Version source)) (ms_RRFK source) (ms_RRFCoefficient source)
    (ms_MaxCandidates source) (ms_Intercept source) (ms_Channels (m_Spec m)) (ms_Features (m_Spec m)) /\
  scoreBoundFits (m_Spec m) = true /\
  exists hash, MarshalAndHash (spec_json (m_Spec m)) = Ok (m_CanonicalJSON m, hash) /\
               m_ID m = ("rnk_" ++ hash)%string.
Proof.
  unfold NewManifest. destruct (head_invalid _ source) eqn:E1; [done|].
  destruct (checkChannels _ _) as [cs|] eqn:E2; [|done]. simpl.
  destruct (checkFeatures _ _) as [fs|] eqn:E3; [|done]. simpl.
  destruct (scoreBoundFits _) eqn:E4; [|done]. simpl.
  destruct (MarshalAndHash _) as [[cj hash]|] eqn:E5; [|done]. simpl. intros [= <-]. simpl.
  repeat split; try done. by exists hash.
Qed.

Lemma NewManifest_accepted s m : spec_widths s -> NewManifest s = Ok m -> accepted_spec s.
Proof.
  intros Hw Hm. apply NewManifest_inv in Hm as (Hhead & Hc & Hf & Hspec & Hfit & _).
  apply checkChannels_ok in Hc as (Ecs & Hcs & Hcadj). apply checkFeatures_ok in Hf as (Efs & Hfs & Hfadj).
  unfold head_invalid in Hhead. autorewrite with goboolsimpl in Hhead. destruct Hw as [Hk _ Hmax _ _ _].
  unfold_widths. apply scoreBoundFits_zsum in Hfit. rewrite Hspec in Hfit. simpl in Hfit.
  rewrite Ecs, Efs, !zsum_map in Hfit. split; try lia.
  - exact (sorted_names_NoDup cw_Channel _ Hcadj).
  - intros c Hc. apply Hcs. by rewrite sort_slice_elem.
  - exact (sorted_names_NoDup fs_Name _ Hfadj).
  - intros f Hf. apply Hfs. by rewrite sort_slice_elem.
  - rewrite <- (zsum_perm _ _ _ (sort_slice_perm channel_less (ms_Channels s))),
      <- (zsum_perm _ _ _ (sort_slice_perm feature_less (ms_Features s))). exact Hfit.
Qed.

Lemma manifest_accepted_spec m :
  spec_widths (m_Spec m) -> manifest_accepted m = true -> accepted_spec (m_Spec m).
Proof.
  unfold manifest_accepted. intros Hw. destruct (NewManifest (m_Spec m)) as [v|] eqn:E; [|done].
  intros _. by eapply NewManifest_accepted.
Qed.

End accepted.

(** ** The reference score

    The same score in unbounded integers, and the candidates that have one. *)
Definition weight_of (s : ManifestSpec) (channel : string) : Z :=
  match find_key cw_Channel channel (ms_Channels s) with Some c => cw_WeightMicros c | None => 0 end.

Definition contribution (s : ManifestSpec) (cr : ChannelRank) : Z :=
  (weight_of s (cr_Channel cr) * rrfScale) / (ms_RRFK s + cr_Rank cr).

Definition rrf_of (s : ManifestSpec) (l : list ChannelRank) : Z := zsum (contribution s) l.

Definition feature_value (l : list FeatureValue) (f : FeatureSpec) : Z :=
  match find_key fv_Name (fs_Name f) l with Some v => fv_Value v | None => fs_Missing f end.

Definition final_of (s : ManifestSpec) (c : Candidate) : Z :=
  ms_Intercept s + rrf_of s (c_ChannelRanks c) * ms_RRFCoefficient s +
  zsum (fun f => feature_value (c_Features c) f * fs_Coefficient f) (ms_Features s).

Definition missing_of (s : ManifestSpec) (c : Candidate) : gset string :=
  list_to_set (List.filter (fun n => negb (existsb (String.eqb n) (List.map fv_Name (c_Features c))))
                 (List.map fs_Name (ms_Features s))).

Definition channel_rank_ok (s : ManifestSpec) (cr : ChannelRank) : bool :=
  existsb (String.eqb (cr_Channel cr)) (List.map cw_Channel (ms_Channels s)) &&
  (1 <=? cr_Rank cr) && (cr_Rank cr <=? ms_MaxCandidates s).

Definition channel_ranks_ok (s : ManifestSpec) (l : list ChannelRank) : bool :=
  forallb (channel_rank_ok s) l && bool_decide (NoDup (List.map cr_Channel l)).

Definition feature_value_ok (s : ManifestSpec) (v : FeatureValue) : bool :=
  match find_key fs_Name (fv_Name v) (ms_Features s) with
  | Some f => (fs_Minimum f <=? fv_Value v) && (fv_Value v <=? fs_Maximum f)
  | None => false
  end.

Definition feature_values_ok (s : ManifestSpec) (l : list FeatureValue) : bool :=
  forallb (feature_value_ok s) l && bool_decide (NoDup (List.map fv_Name l)).

Definition candidate_ok (s : ManifestSpec) (c : Candidate) : bool :=
  channel_ranks_ok s (c_ChannelRanks c) && feature_values_ok s (c_Features c).

Definition result_of (s : ManifestSpec) (c : Candidate) : Result :=
  mk_Result (c_VersionID c) 0 (rrf_of s (c_ChannelRanks c)) (final_of s c)
    (c_VerificationStrength c) (c_ObservedEndToEnd c) (missing_of s c).

(** Ranks are [uint32], feature values [int32]. *)
Definition candidate_widths (c : Candidate) : Prop :=
  forall cr, cr ∈ c_ChannelRanks c -> in_u32 (cr_Rank cr).

Section exactness.
Context (s : ManifestSpec) (Hw : spec_widths s) (Ha : accepted_spec s).

Lemma weight_lookup n :
  channelWeightMap (ms_Channels s) !! n =
  if existsb (String.eqb n) (List.map cw_Channel (ms_Channels s)) then Some (weight_of s n) else None.
Proof using Ha.
  unfold channelWeightMap, weight_of. rewrite foldl_insert_lookup by apply (as_channel_names s Ha).
  destruct (existsb _ _) eqn:E.
  - apply existsb_eqb_elem in E. destruct (find_key _ n _) eqn:Ef; [done|].
    by apply find_key_none in Ef.
  - destruct (find_key cw_Channel n (ms_Channels s)) as [c|] eqn:Ef; [|done].
    apply find_key_some in Ef as [Hc <-].
    rewrite (proj2 (existsb_eqb_elem _ _)) in E; [done|].
    apply list_elem_of_In, in_map, list_elem_of_In. done.
Qed.

Lemma channel_rank_ok_entry cr :
  channel_rank_ok s cr = true ->
  1 <= cr_Rank cr <= ms_MaxCandidates s /\
  exists c, c ∈ ms_Channels s /\ cw_Channel c = cr_Channel cr /\ weight_of s (cr_Channel cr) = cw_WeightMicros c /\
    0 <= contribution s cr <= channel_bound s c.
Proof using Hw Ha.
  unfold channel_rank_ok. autorewrite with goboolsimpl. rewrite existsb_eqb_elem.
  intros ((Hc & Hr1) & Hr2). split; [lia|].
  apply list_elem_of_In, in_map_iff in Hc as (c & Hn & Hc%list_elem_of_In). exists c. split; [done|]. split; [done|].
  assert (Hwt : weight_of s (cr_Channel cr) = cw_WeightMicros c).
  { unfold weight_of. rewrite <- Hn. rewrite find_key_unique; [done|apply (as_channel_names s Ha)|done]. }
  split; [done|]. unfold contribution, channel_bound. rewrite Hwt.
  pose proof (as_weights s Ha c Hc). pose proof (as_k s Ha). unfold rrfScale. split.
  - apply Z.div_pos; lia.
  - apply Z.div_le_compat_l; lia.
Qed.

(** The fused rank score of valid channel ranks is within the static bound. *)
Lemma rrf_of_bound l :
  channel_ranks_ok s l = true -> 0 <= rrf_of s l <= zsum (channel_bound s) (ms_Channels s).
Proof using Hw Ha.
  unfold channel_ranks_ok. rewrite andb_true_iff, forallb_forall, bool_decide_eq_true. intros [Hok Hn]. split.
  - apply zsum_nonneg. intros cr Hcr%list_elem_of_In. by apply Hok, channel_rank_ok_entry in Hcr as (_ & ? & _ & _ & _ & ? & _).
  - unfold rrf_of. eapply (zsum_keyed_le cr_Channel cw_Channel); [done| |].
    + intros c Hc. unfold channel_bound. pose proof (as_weights s Ha c Hc). pose proof (as_k s Ha).
      unfold rrfScale. apply Z.div_pos; lia.
    + intros cr Hcr%list_elem_of_In. apply Hok, channel_rank_ok_entry in Hcr as (_ & c & ? & ? & _ & _ & ?). eauto.
Qed.

Lemma channel_sum_fits : 0 <= zsum (channel_bound s) (ms_Channels s) <= MaxInt64.
Proof using Hw Ha.
  pose proof (as_fits s Ha) as Hf. pose proof (as_coef s Ha) as Hc.
  assert (0 <= zsum (channel_bound s) (ms_Channels s)).
  { apply zsum_nonneg. intros c Hin. unfold channel_bound. pose proof (as_weights s Ha c Hin). pose proof (as_k s Ha).
    unfold rrfScale. apply Z.div_pos; lia. }
  assert (0 <= zsum feature_bound (ms_Features s)).
  { apply zsum_nonneg. intros f _. unfold feature_bound. nia. }
  nia.
Qed.

Lemma channel_ranks_ok_app l l' : channel_ranks_ok s (l ++ l') = true -> channel_ranks_ok s l = true.
Proof using.
  unfold channel_ranks_ok. rewrite !andb_true_iff, forallb_app, andb_true_iff, !bool_decide_eq_true.
  intros [[H1 _] H2]. split; [done|]. rewrite map_app in H2. by apply NoDup_app in H2 as [? _].
Qed.

Lemma rrfLoop_spec pre rest :
  (forall cr, cr ∈ rest -> in_u32 (cr_Rank cr)) ->
  channel_ranks_ok s pre = true ->
  rrfLoop s (channelWeightMap (ms_Channels s)) (list_to_set (List.map cr_Channel pre)) (rrf_of s pre) rest =
  if channel_ranks_ok s (pre ++ rest) then Ok (rrf_of s (pre ++ rest)) else Err ErrInvalidCandidate.
Proof using Hw Ha.
  revert pre. induction rest as [|cr rest IH]; intros pre Hr Hpre.
  { cbn [rrfLoop]. by rewrite app_nil_r, Hpre. }
  replace (pre ++ cr :: rest) with ((pre ++ [cr]) ++ rest) by (by rewrite <- app_assoc).
  cbn [rrfLoop]. rewrite weight_lookup.
  destruct (channel_ranks_ok s (pre ++ [cr])) eqn:Ecr.
  - assert (Hentry : channel_rank_ok s cr = true /\ cr_Channel cr ∉ List.map cr_Channel pre).
    { unfold channel_ranks_ok in Ecr. rewrite forallb_app, map_app in Ecr. simpl in Ecr.
      rewrite !andb_true_iff, bool_decide_eq_true, NoDup_app in Ecr.
      destruct Ecr as ((_ & ? & _) & _ & Hd & _). split; [done|]. intros Hin. apply (Hd _ Hin). left. }
    destruct Hentry as [Hok Hnew]. pose proof Hok as Hok'.
    apply channel_rank_ok_entry in Hok' as (Hrank & c & Hc & _ & Hwt & Hcontr).
    unfold channel_rank_ok in Hok. rewrite !andb_true_iff in Hok. destruct Hok as [[-> _] _].
    rewrite (proj2 (orb_false_iff _ _)) by (rewrite Z.eqb_neq, Z.ltb_ge; lia).
    rewrite bool_decide_false by (by rewrite elem_of_list_to_set).
    pose proof (sw_channels s Hw c Hc). pose proof (as_weights s Ha c Hc).
    pose proof (as_k s Ha). pose proof (as_max s Ha).
    rewrite checkedMul_some by (rewrite ?Hwt; unfold rrfScale; unfold_widths; lia).
    rewrite wrap_i64_id by (unfold_widths; lia).
    rewrite Z.quot_div_nonneg by (rewrite ?Hwt; unfold rrfScale; lia). fold (contribution s cr).
    pose proof (rrf_of_bound _ Ecr) as Hb. unfold rrf_of in Hb. rewrite zsum_app in Hb. simpl in Hb.
    pose proof (rrf_of_bound _ Hpre) as Hbp. fold (rrf_of s pre) in Hb. pose proof channel_sum_fits as Hfit.
    rewrite checkedAdd_spec by (unfold_widths; lia).
    replace (rrf_of s pre + contribution s cr) with (rrf_of s (pre ++ [cr]))
      by (unfold rrf_of; rewrite zsum_app; simpl; lia).
    rewrite <- IH; [|intros cr' Hcr'; apply Hr; by right|done]. f_equal.
    rewrite map_app, list_to_set_app_L. simpl. by rewrite union_empty_r_L, union_comm_L.
  - destruct (channel_ranks_ok s ((pre ++ [cr]) ++ rest)) eqn:Eall.
    { by rewrite (channel_ranks_ok_app _ _ Eall) in Ecr. }
    destruct (existsb _ _) eqn:Ee; [|done].
    destruct ((cr_Rank cr =? 0) || (ms_MaxCandidates s <? cr_Rank cr)) eqn:Er; [done|].
    destruct (bool_decide (cr_Channel cr ∈ _)) eqn:Es; [done|]. exfalso.
    assert (channel_ranks_ok s (pre ++ [cr]) = true); [|congruence].
    unfold channel_ranks_ok in *. rewrite andb_true_iff, bool_decide_eq_true in Hpre. destruct Hpre as [Hp1 Hp2].
    rewrite forallb_app, Hp1, map_app. simpl. unfold channel_rank_ok. rewrite Ee.
    apply bool_decide_eq_false in Es. rewrite elem_of_list_to_set in Es.
    autorewrite with goboolsimpl in Er. pose proof (Hr cr ltac:(left)). unfold_widths.
    rewrite !(proj2 (Z.leb_le _ _)) by lia. simpl. apply bool_decide_eq_true, NoDup_app.
    split; [done|]. split; [|apply NoDup_singleton]. intros x Hx ->%list_elem_of_singleton. done.
Qed.

Lemma spec_lookup n : featureSpecMap (ms_Features s) !! n = find_key fs_Name n (ms_Features s).
Proof using Ha.
  unfold featureSpecMap. rewrite foldl_insert_lookup by apply (as_feature_names s Ha).
  by destruct (find_key _ _ _).
Qed.

Definition provided_map (l : list FeatureValue) : gmap string Z :=
  foldl (fun m f => <[fv_Name f := fv_Value f]> m) ∅ l.

Lemma feature_values_ok_snoc pre v :
  feature_values_ok s (pre ++ [v]) =
  feature_values_ok s pre && feature_value_ok s v && negb (existsb (String.eqb (fv_Name v)) (List.map fv_Name pre)).
Proof using.
  apply eq_true_iff_eq. unfold feature_values_ok.
  rewrite forallb_app, map_app, !andb_true_iff, !bool_decide_eq_true, NoDup_app, negb_true_iff,
    <- not_true_iff_false, existsb_eqb_elem. simpl. rewrite andb_true_r. split.
  - intros ((? & ?) & ? & Hd & _). repeat split; try done. intros Hin. apply (Hd _ Hin). left.
  - intros (((? & ?) & ?) & Hd). repeat split; try done; [|apply NoDup_singleton].
    intros x Hx ->%list_elem_of_singleton. done.
Qed.

Lemma feature_values_ok_app l l' : feature_values_ok s (l ++ l') = true -> feature_values_ok s l = true.
Proof using.
  unfold feature_values_ok. rewrite !andb_true_iff, forallb_app, andb_true_iff, !bool_decide_eq_true.
  intros [[H1 _] H2]. split; [done|]. rewrite map_app in H2. by apply NoDup_app in H2 as [? _].
Qed.

Lemma providedLoop_spec pre rest :
  feature_values_ok s pre = true ->
  providedLoop (featureSpecMap (ms_Features s)) (provided_map pre) rest =
  if feature_values_ok s (pre ++ rest) then Ok (provided_map (pre ++ rest)) else Err ErrInvalidCandidate.
Proof using Ha.
  revert pre. induction rest as [|v rest IH]; intros pre Hpre.
  { cbn [providedLoop]. by rewrite app_nil_r, Hpre. }
  replace (pre ++ v :: rest) with ((pre ++ [v]) ++ rest) by (by rewrite <- app_assoc).
  assert (Hnext : <[fv_Name v := fv_Value v]> (provided_map pre) = provided_map (pre ++ [v])).
  { unfold provided_map. by rewrite foldl_app. }
  assert (Hlook : provided_map pre !! fv_Name v = None <->
    existsb (String.eqb (fv_Name v)) (List.map fv_Name pre) = false).
  { unfold feature_values_ok in Hpre. rewrite andb_true_iff, bool_decide_eq_true in Hpre.
    unfold provided_map. rewrite foldl_insert_lookup by tauto.
    rewrite <- not_true_iff_false, existsb_eqb_elem, <- find_key_none.
    destruct (find_key _ _ _); [done|]. by rewrite lookup_empty. }
  pose proof (feature_values_ok_snoc pre v) as Hsnoc. rewrite Hpre in Hsnoc. simpl in Hsnoc.
  destruct (feature_values_ok s (pre ++ [v])) eqn:Ev.
  - symmetry in Hsnoc. rewrite andb_true_iff, negb_true_iff in Hsnoc. destruct Hsnoc as [Hok Hnew].
    cbn [providedLoop]. rewrite spec_lookup. unfold feature_value_ok in Hok.
    destruct (find_key fs_Name (fv_Name v) (ms_Features s)) as [f|]; [|done].
    rewrite (proj2 (orb_false_iff _ _)) by (autorewrite with goboolsimpl in *; lia).
    rewrite (proj2 Hlook Hnew), Hnext. by apply IH.
  - destruct (feature_values_ok s ((pre ++ [v]) ++ rest)) eqn:Eall.
    { by rewrite (feature_values_ok_app _ _ Eall) in Ev. }
    cbn [providedLoop]. rewrite spec_lookup. unfold feature_value_ok in Hsnoc.
    destruct (find_key fs_Name (fv_Name v) (ms_Features s)) as [f|]; [|done].
    destruct ((fv_Value v <? fs_Minimum f) || (fs_Maximum f <? fv_Value v)) eqn:Er; [done|].
    destruct (provided_map pre !! fv_Name v) eqn:El; [done|]. exfalso.
    rewrite (proj1 Hlook eq_refl) in Hsnoc.
    autorewrite with goboolsimpl in Er. rewrite !(proj2 (Z.leb_le _ _)) in Hsnoc by lia. done.
Qed.

(** Provided values stay within the bounds of their feature. *)
Lemma feature_value_bounds l f :
  feature_values_ok s l = true -> f ∈ ms_Features s ->
  provided_map l !! fs_Name f = option_map fv_Value (find_key fv_Name (fs_Name f) l) /\
  fs_Minimum f <= feature_value l f <= fs_Maximum f.
Proof using Ha.
  unfold feature_values_ok. rewrite andb_true_iff, forallb_forall, bool_decide_eq_true.
  intros [Hok Hn] Hf. split.
  - unfold provided_map. rewrite foldl_insert_lookup by done. by destruct (find_key _ _ _).
  - unfold feature_value. destruct (find_key fv_Name (fs_Name f) l) as [v|] eqn:E.
    + apply find_key_some in E as [Hv Hname]. apply list_elem_of_In, Hok in Hv. unfold feature_value_ok in Hv.
      rewrite Hname, find_key_unique in Hv by (done || apply (as_feature_names s Ha)).
      autorewrite with goboolsimpl in Hv. lia.
    + by apply (as_features s Ha).
Qed.

Definition missing_names (l : list FeatureValue) (fs : list FeatureSpec) : gset string :=
  list_to_set (List.filter (fun n => negb (existsb (String.eqb n) (List.map fv_Name l))) (List.map fs_Name fs)).

Lemma featureLoop_spec l fs acc missing :
  feature_values_ok s l = true -> (forall f, f ∈ fs -> f ∈ ms_Features s) ->
  Z.abs acc + zsum feature_bound fs <= MaxInt64 ->
  featureLoop (provided_map l) acc missing fs =
  Ok (acc + zsum (fun f => feature_value l f * fs_Coefficient f) fs, missing_names l fs ∪ missing).
Proof using Hw Ha.
  intros Hok. revert acc missing. induction fs as [|f fs IH]; intros acc missing Hsub Hb.
  { simpl. unfold missing_names. simpl. by rewrite union_empty_l_L, Z.add_0_r. }
  assert (Hf : f ∈ ms_Features s) by (apply Hsub; left).
  destruct (feature_value_bounds l f Hok Hf) as [Hl Hv].
  destruct (sw_features s Hw f Hf) as (Hmin & Hmax & Hmiss & Hcoef).
  assert (Hterm : Z.abs (feature_value l f * fs_Coefficient f) <= feature_bound f).
  { unfold feature_bound. rewrite Z.abs_mul. apply Z.mul_le_mono_nonneg_r; lia. }
  assert (Hrest : 0 <= zsum feature_bound fs) by (apply zsum_nonneg; intros; unfold feature_bound; nia).
  cbn [zsum foldr] in Hb. fold (zsum feature_bound fs) in Hb.
  assert (Hstep : match provided_map l !! fs_Name f with
    | Some value => (value, missing) | None => (fs_Missing f, {[fs_Name f]} ∪ missing) end =
    (feature_value l f, missing_names l [f] ∪ missing)).
  { rewrite Hl. unfold feature_value, missing_names. simpl.
    destruct (find_key fv_Name (fs_Name f) l) eqn:Ef; simpl.
    - apply find_key_some in Ef as [Hin <-].
      rewrite (proj2 (existsb_eqb_elem _ _)) by (apply list_elem_of_In, in_map, list_elem_of_In; done).
      simpl. by rewrite union_empty_l_L.
    - apply find_key_none in Ef. destruct (existsb _ _) eqn:Ee; [by apply existsb_eqb_elem in Ee|].
      simpl. by rewrite union_empty_r_L. }
  cbn [featureLoop]. rewrite Hstep.
  rewrite checkedMul_some by (unfold_widths; lia). rewrite checkedAdd_spec by (unfold_widths; lia).
  rewrite IH; [|intros; apply Hsub; by right | lia]. f_equal. f_equal.
  - simpl. fold (zsum (fun f => feature_value l f * fs_Coefficient f) fs). lia.
  - unfold missing_names. simpl. destruct (negb _); simpl; set_solver.
Qed.

Lemma scoreCandidate_spec c :
  candidate_widths c ->
  scoreCandidate s c (channelWeightMap (ms_Channels s)) (featureSpecMap (ms_Features s)) =
  if candidate_ok s c then Ok (result_of s c) else Err ErrInvalidCandidate.
Proof using Hw Ha.
  intros Hc. unfold scoreCandidate, candidate_ok, result_of.
  pose proof (rrfLoop_spec [] (c_ChannelRanks c) Hc eq_refl) as Hr. simpl in Hr. rewrite Hr.
  destruct (channel_ranks_ok s (c_ChannelRanks c)) eqn:Ec; [|done]. simpl.
  pose proof (providedLoop_spec [] (c_Features c) eq_refl) as Hp.
  unfold provided_map in Hp at 1. simpl in Hp.
  rewrite Hp.
  destruct (feature_values_ok s (c_Features c)) eqn:Ef; [|done]. simpl.
  pose proof (rrf_of_bound _ Ec) as Hb. pose proof channel_sum_fits as Hs. pose proof (as_fits s Ha) as Hfit.
  assert (Hnn : 0 <= zsum feature_bound (ms_Features s)) by (apply zsum_nonneg; intros; unfold feature_bound; nia).
  assert (Hterm : Z.abs (rrf_of s (c_ChannelRanks c) * ms_RRFCoefficient s) <=
    zsum (channel_bound s) (ms_Channels s) * Z.abs (ms_RRFCoefficient s)).
  { rewrite Z.abs_mul. apply Z.mul_le_mono_nonneg_r; lia. }
  pose proof (sw_intercept s Hw). pose proof (sw_coef s Hw).
  rewrite checkedMul_some by (unfold_widths; lia). rewrite checkedAdd_spec by (unfold_widths; lia).
  rewrite featureLoop_spec by (done || lia). simpl. rewrite union_empty_r_L. done.
Qed.

End exactness.

(** ** The order of the results *)
Definition result_cmp : Result -> Result -> comparison :=
  cmp_lex (cmp_rev (cmp_on r_FinalScore Z.compare))
    (cmp_lex (cmp_rev (cmp_on r_VerificationStrength Z.compare))
      (cmp_lex (cmp_on r_ObservedEndToEnd cmp_flag) (cmp_on r_VersionID String.compare))).

Lemma result_less_cmp l r : result_less l r = cmp_ltb result_cmp l r.
Proof.
  unfold result_less, cmp_ltb, result_cmp, cmp_lex, cmp_rev, cmp_on, str_ltb, cmp_ltb.
  destruct (Z.compare_spec (r_FinalScore r) (r_FinalScore l)) as [E|E|E].
  - rewrite E, Z.eqb_refl. simpl.
    destruct (Z.compare_spec (r_VerificationStrength r) (r_VerificationStrength l)) as [E'|E'|E'].
    + rewrite E', Z.eqb_refl. simpl. by destruct (r_ObservedEndToEnd l), (r_ObservedEndToEnd r).
    + destruct (Z.eqb_spec (r_VerificationStrength l) (r_VerificationStrength r)), (Z.ltb_spec (r_VerificationStrength r) (r_VerificationStrength l)); try lia; done.
    + destruct (Z.eqb_spec (r_VerificationStrength l) (r_VerificationStrength r)), (Z.ltb_spec (r_VerificationStrength r) (r_VerificationStrength l)); try lia; done.
  - destruct (Z.eqb_spec (r_FinalScore l) (r_FinalScore r)), (Z.ltb_spec (r_FinalScore r) (r_FinalScore l)); try lia; done.
  - destruct (Z.eqb_spec (r_FinalScore l) (r_FinalScore r)), (Z.ltb_spec (r_FinalScore r) (r_FinalScore l)); try lia; done.
Qed.

Lemma result_cmp_eq l r : result_cmp l r = Eq -> r_VersionID l = r_VersionID r.
Proof.
  unfold result_cmp, cmp_lex, cmp_rev, cmp_on.
  destruct (Z.compare _ _); try done. destruct (Z.compare _ _); try done.
  destruct (cmp_flag _ _); try done. apply String.compare_eq_iff.
Qed.

Definition order_results (l : list Result) : list Result := sort_slice (cmp_ltb result_cmp) l.

Lemma order_results_less l : sort_slice result_less l = order_results l.
Proof. apply sort_slice_ext, result_less_cmp. Qed.

(** Every candidate is valid and no version is blank or repeated. *)
Definition candidates_ok (s : ManifestSpec) (l : list Candidate) : bool :=
  forallb (fun c => negb (String.eqb (TrimSpace (c_VersionID c)) "") && candidate_ok s c) l &&
  bool_decide (NoDup (List.map c_VersionID l)).

Lemma scoreAll_spec s seen l :
  spec_widths s -> accepted_spec s -> (forall c, c ∈ l -> candidate_widths c) ->
  scoreAll s (channelWeightMap (ms_Channels s)) (featureSpecMap (ms_Features s)) seen l =
  if forallb (fun c => negb (String.eqb (TrimSpace (c_VersionID c)) "") && candidate_ok s c) l &&
     fresh_ids seen (List.map c_VersionID l)
  then Ok (List.map (result_of s) l) else Err ErrInvalidCandidate.
Proof.
  intros Hw Ha. revert seen. induction l as [|c l IH]; intros seen Hc.
  { cbn [List.map forallb]. by rewrite fresh_ids_nil. }
  cbn [scoreAll forallb List.map]. rewrite fresh_ids_cons.
  destruct (String.eqb (TrimSpace (c_VersionID c)) "") eqn:E1; [done|]. simpl.
  destruct (bool_decide (c_VersionID c ∈ seen)) eqn:E2; [by rewrite andb_false_r|]. simpl.
  rewrite (scoreCandidate_spec s Hw Ha) by (apply Hc; left).
  destruct (candidate_ok s c) eqn:E3; [|done]. simpl.
  rewrite IH by (intros; apply Hc; by right). by destruct (_ && _).
Qed.

Lemma candidates_ok_NoDup s l : candidates_ok s l = true -> NoDup (List.map c_VersionID l).
Proof. unfold candidates_ok. rewrite andb_true_iff, bool_decide_eq_true. by intros [_ ?]. Qed.

Lemma candidates_ok_perm s l l' : l ≡ₚ l' -> candidates_ok s l = candidates_ok s l'.
Proof.
  intros Hp. unfold candidates_ok. rewrite (forallb_perm _ _ _ Hp). f_equal.
  apply bool_decide_ext. by rewrite (Permutation_map c_VersionID Hp).
Qed.

(** Distinct versions make the order of the results strict. *)
Lemma results_separated s l x y :
  NoDup (List.map c_VersionID l) ->
  x ∈ List.map (result_of s) l -> y ∈ List.map (result_of s) l -> result_cmp x y = Eq -> x = y.
Proof.
  intros Hn Hx Hy Heq. apply result_cmp_eq in Heq.
  apply list_elem_of_In, in_map_iff in Hx as (cx & <- & Hx%list_elem_of_In).
  apply list_elem_of_In, in_map_iff in Hy as (cy & <- & Hy%list_elem_of_In).
  simpl in Heq. assert (Some cx = Some cy) as [= ->]; [|done].
  rewrite <- (find_key_unique c_VersionID l cx), <- (find_key_unique c_VersionID l cy) by done. by rewrite Heq.
Qed.

Lemma assignRanks_lookup l i r :
  assignRanks l !! i = Some r <-> exists r0, l !! i = Some r0 /\ r = set_rank (wrap_u32 (Z.of_nat i + 1)) r0.
Proof.
  unfold assignRanks. rewrite list_lookup_imap_Some. split; intros (r0 & H1 & H2); exists r0; split; congruence.
Qed.

Lemma assignRanks_ids l : List.map r_VersionID (assignRanks l) = List.map r_VersionID l.
Proof.
  enough (Hg : forall f, (forall i r, r_VersionID (f i r) = r_VersionID r) ->
    List.map r_VersionID (imap f l) = List.map r_VersionID l) by (by apply Hg).
  induction l as [|r l IH]; intros f Hf; simpl; [done|]. rewrite Hf, IH; [done|]. intros i. apply Hf.
Qed.

Section rank_theorems.
Context `{JCS} `{Digest}.

Lemma Rank_cases m candidates :
  spec_widths (m_Spec m) -> (forall c, c ∈ candidates -> candidate_widths c) ->
  Rank m candidates =
  if manifest_accepted m then
    if candidates_ok (m_Spec m) candidates
    then Ok (assignRanks (order_results (List.map (result_of (m_Spec m)) candidates)))
    else Err ErrInvalidCandidate
  else Err ErrRankingInvalidManifest.
Proof.
  intros Hw Hc. unfold Rank. destruct (manifest_accepted m) eqn:Hacc; [|done]. simpl.
  rewrite scoreAll_spec by (done || by apply manifest_accepted_spec).
  rewrite fresh_ids_empty. fold (candidates_ok (m_Spec m) candidates).
  destruct (candidates_ok _ _); [|done]. simpl. by rewrite order_results_less.
Qed.

(** C1: For a manifest that [Rank] accepts, ranking never fails by overflow:
    [Rank] returns the candidates in the specified total order, each with its
    exact score computed in unbounded integers, or rejects an invalid candidate. *)
Theorem Rank_exact (m : Manifest) (candidates : list Candidate) :
  spec_widths (m_Spec m) -> manifest_accepted m = true ->
  (forall c, c ∈ candidates -> candidate_widths c) ->
  Rank m candidates =
  if candidates_ok (m_Spec m) candidates
  then Ok (assignRanks (order_results (List.map (result_of (m_Spec m)) candidates)))
  else Err ErrInvalidCandidate.
Proof. intros Hw Hacc Hc. by rewrite Rank_cases, Hacc. Qed.

(** The ranking, errors included, does not depend on the order in which
    the candidates arrive. *)
Theorem Rank_permutation (m : Manifest) (candidates candidates' : list Candidate) :
  spec_widths (m_Spec m) -> (forall c, c ∈ candidates -> candidate_widths c) ->
  candidates ≡ₚ candidates' -> Rank m candidates = Rank m candidates'.
Proof.
  intros Hw Hc Hp. rewrite !Rank_cases; [|done|by intros c; rewrite <- Hp; apply Hc|done|done].
  rewrite (candidates_ok_perm _ _ _ Hp). destruct (manifest_accepted m); [|done].
  destruct (candidates_ok _ candidates') eqn:Eok; [|done]. do 2 f_equal.
  apply (sort_slice_perm_eq result_cmp); [|by apply Permutation_map].
  intros x y. apply results_separated. rewrite <- (candidates_ok_perm _ _ _ Hp) in Eok.
  by eapply candidates_ok_NoDup.
Qed.

(** The results are the candidates' versions, ranked 1, 2, ..., n, and each
    comes before every later one in the order (score descending, verification
    strength descending, observed first, version ascending). *)
Theorem Rank_sorted (m : Manifest) (candidates : list Candidate) (results : list Result) :
  spec_widths (m_Spec m) -> (forall c, c ∈ candidates -> candidate_widths c) ->
  Z.of_nat (length candidates) <= MaxUint32 ->
  Rank m candidates = Ok results ->
  List.map r_VersionID results ≡ₚ List.map c_VersionID candidates /\
  (forall i r, results !! i = Some r -> r_Rank r = Z.of_nat i + 1) /\
  (forall i j x y, (i < j)%nat -> results !! i = Some x -> results !! j = Some y -> result_less x y = true).
Proof.
  intros Hw Hc Hlen HR. rewrite Rank_cases in HR by done. destruct (manifest_accepted m); [|done].
  destruct (candidates_ok _ _) eqn:Eok; [|done]. injection HR as <-.
  set (rs := List.map (result_of (m_Spec m)) candidates).
  assert (Hlr : length (order_results rs) = length candidates).
  { unfold order_results. by rewrite sort_slice_length; subst rs; rewrite length_map. }
  split; [|split].
  - rewrite assignRanks_ids. unfold order_results.
    rewrite (Permutation_map _ (sort_slice_perm _ rs)). subst rs. by rewrite map_map.
  - intros i r Hi. apply assignRanks_lookup in Hi as (r0 & Hi & ->). simpl. apply wrap_u32_id.
    apply lookup_lt_Some in Hi. unfold_widths. lia.
  - intros i j x y Hij Hx Hy. apply assignRanks_lookup in Hx as (x0 & Hx & ->). apply assignRanks_lookup in Hy as (y0 & Hy & ->).
    pose proof (sort_slice_sorted result_cmp rs) as Hs. fold (order_results rs) in Hs.
    assert (Hle : cmp_le result_cmp x0 y0) by (eapply StronglySorted_nth_lt; eauto).
    change (result_less x0 y0 = true). rewrite result_less_cmp. unfold cmp_ltb, cmp_le in *.
    destruct (result_cmp x0 y0) eqn:E; [|done|done]. exfalso.
    apply result_cmp_eq in E.
    assert (Hn : NoDup (List.map r_VersionID (order_results rs))).
    { unfold order_results. rewrite (Permutation_map _ (sort_slice_perm _ rs)). subst rs. rewrite map_map.
      by eapply candidates_ok_NoDup. }
    rewrite NoDup_alt in Hn. assert (i = j); [|lia].
    apply (Hn i j (r_VersionID x0)).
    + by apply (list_lookup_fmap_Some_2 r_VersionID).
    + rewrite E. by apply (list_lookup_fmap_Some_2 r_VersionID).
Qed.

Lemma trim_channel_id c : TrimSpace (cw_Channel c) = cw_Channel c -> trim_channel c = c.
Proof. destruct c. unfold trim_channel. simpl. by intros ->. Qed.

Lemma trim_feature_id f : TrimSpace (fs_Name f) = fs_Name f -> trim_feature f = f.
Proof. destruct f. unfold trim_feature. simpl. by intros ->. Qed.

(** A manifest built from names without surrounding white space is a fixed
    point of [NewManifest], so [Rank] accepts it. *)
Theorem NewManifest_stable (source : ManifestSpec) (m : Manifest) :
  (forall c, c ∈ ms_Channels source -> TrimSpace (cw_Channel c) = cw_Channel c) ->
  (forall f, f ∈ ms_Features source -> TrimSpace (fs_Name f) = fs_Name f) ->
  NewManifest source = Ok m ->
  NewManifest (m_Spec m) = Ok m /\ manifest_accepted m = true.
Proof.
  intros Hc Hf Hm. enough (Hn : NewManifest (m_Spec m) = Ok m).
  { split; [done|]. unfold manifest_accepted. by rewrite Hn, !str_eqb_refl. }
  destruct (NewManifest_inv source m Hm) as (Hh & Hcs & Hfs & Hs & Hfit & hash & Hj & Hid).
  destruct (checkChannels_ok _ _ _ Hcs) as (Ecs & _ & _). destruct (checkFeatures_ok _ _ _ Hfs) as (Efs & _ & _).
  rewrite map_id_on in Ecs by (intros c Hin; apply trim_channel_id, Hc; by rewrite sort_slice_elem in Hin).
  rewrite map_id_on in Efs by (intros f Hin; apply trim_feature_id, Hf; by rewrite sort_slice_elem in Hin).
  assert (Sc : sort_slice channel_less (ms_Channels (m_Spec m)) = ms_Channels (m_Spec m)).
  { rewrite Ecs. apply (sort_slice_id (cmp_on cw_Channel String.compare)). apply sort_slice_sorted, _. }
  assert (Sf : sort_slice feature_less (ms_Features (m_Spec m)) = ms_Features (m_Spec m)).
  { rewrite Efs. apply (sort_slice_id (cmp_on fs_Name String.compare)). apply sort_slice_sorted, _. }
  rewrite <- Ecs in Hcs. rewrite <- Efs in Hfs. unfold NewManifest. rewrite Sc, Sf, Hcs, Hfs.
  assert (Ev : TrimSpace (ms_Version (m_Spec m)) = ms_Version (m_Spec m)) by (rewrite Hs; apply TrimSpace_idem).
  assert (Hh' : head_invalid (ms_Version (m_Spec m)) (m_Spec m) = false).
  { rewrite Hs. unfold head_invalid in *. simpl. rewrite Ecs.
    pose proof (sort_slice_length channel_less (ms_Channels source)).
    destruct (sort_slice channel_less (ms_Channels source)), (ms_Channels source); done. }
  rewrite Ev, Hh'. simpl.
  assert (Es : mk_ManifestSpec (ms_Version (m_Spec m)) (ms_RRFK (m_Spec m)) (ms_RRFCoefficient (m_Spec m))
    (ms_MaxCandidates (m_Spec m)) (ms_Intercept (m_Spec m)) (ms_Channels (m_Spec m)) (ms_Features (m_Spec m)) = m_Spec m)
    by (by destruct (m_Spec m)).
  rewrite Es, Hfit, Hj. simpl. rewrite <- Hid. by destruct m.
Qed.

(** Two channels that differ only in white space, with a third between them. *)
Definition spaced_spec : ManifestSpec :=
  mk_ManifestSpec "v1" 60 1 100 0 [mk_ChannelWeight "a" 5; mk_ChannelWeight " a" 7; mk_ChannelWeight "0" 9] [].

(** Names are sorted before they are trimmed, so [NewManifest] misses the
    duplicate channel of [spaced_spec] and seals it; [Rank] then rejects the
    sealed manifest on every input. *)
Theorem NewManifest_untrimmed_duplicate (m : Manifest) (candidates : list Candidate) :
  NewManifest spaced_spec = Ok m ->
  List.map cw_Channel (ms_Channels (m_Spec m)) = ["a"; "0"; "a"]%string /\
  Rank m candidates = Err ErrRankingInvalidManifest.
Proof.
  intros Hm. destruct (NewManifest_inv _ _ Hm) as (_ & Hc & Hf & Hs & _).
  destruct m as [spec i cj]. simpl in Hc, Hf, Hs |- *. rewrite Hs. clear Hs Hm.
  set (cs := ms_Channels spec) in *. set (fs := ms_Features spec) in *. clearbody cs fs.
  vm_compute in Hc. injection Hc as <-. vm_compute in Hf. injection Hf as <-. split; [done|].
  unfold Rank, manifest_accepted, NewManifest. reflexivity.
Qed.

End rank_theorems.

(** ** Witnesses *)
Section rank_witnesses.
#[local] Existing Instance copy_jcs.
#[local] Existing Instance checksum_digest.

Definition sample_spec : ManifestSpec :=
  mk_ManifestSpec "v1" 60 2 100 (-5)
    [mk_ChannelWeight "lexical" 1000000; mk_ChannelWeight "dense" 500000]
    [mk_FeatureSpec "age" (-10) 10 0 (-3)].

Definition sample_manifest : Manifest :=
  match NewManifest sample_spec with Ok m => m | Err _ => mk_Manifest sample_spec "" "" end.

Definition sample_candidates : list Candidate :=
  [mk_Candidate "p1" [mk_ChannelRank "dense" 1] [] 1 false;
   mk_Candidate "p2" [mk_ChannelRank "lexical" 2; mk_ChannelRank "dense" 2] [mk_FeatureValue "age" 4] 0 true].

Lemma sample_widths : spec_widths (m_Spec sample_manifest).
Proof.
  replace (m_Spec sample_manifest) with
    (mk_ManifestSpec "v1" 60 2 100 (-5) [mk_ChannelWeight "dense" 500000; mk_ChannelWeight "lexical" 1000000]
       [mk_FeatureSpec "age" (-10) 10 0 (-3)]) by (vm_compute; reflexivity).
  split; simpl; unfold_widths; try lia.
  - intros c Hc.
    repeat (apply elem_of_cons in Hc as [->|Hc]; [simpl; lia|]). by apply not_elem_of_nil in Hc.
  - intros f Hf.
    repeat (apply elem_of_cons in Hf as [->|Hf]; [simpl; lia|]). by apply not_elem_of_nil in Hf.
Defined.

Lemma sample_candidate_widths c : c ∈ sample_candidates -> candidate_widths c.
Proof.
  intros Hc cr Hcr. unfold_widths.
  repeat (apply elem_of_cons in Hc as [->|Hc]; [simpl in Hcr;
    repeat (apply elem_of_cons in Hcr as [->|Hcr]; [simpl; lia|]); by apply not_elem_of_nil in Hcr|]).
  by apply not_elem_of_nil in Hc.
Defined.

Lemma sample_accepted : manifest_accepted sample_manifest = true.
Proof. vm_compute. reflexivity. Defined.

Definition sample_results : list Result :=
  match Rank sample_manifest sample_candidates with Ok rs => rs | Err _ => [] end.

Lemma sample_ranked : Rank sample_manifest sample_candidates = Ok sample_results.
Proof. vm_compute. reflexivity. Defined.

Lemma Rank_exact_witness :
  Ok sample_results =
  Ok (assignRanks (order_results (List.map (result_of (m_Spec sample_manifest)) sample_candidates))) /\
  List.map r_VersionID sample_results = ["p2"; "p1"]%string.
Proof.
  split.
  - rewrite <- sample_ranked.
    rewrite (Rank_exact sample_manifest sample_candidates sample_widths sample_accepted sample_candidate_widths).
    vm_compute. reflexivity.
  - vm_compute. reflexivity.
Defined.

Lemma Rank_permutation_witness :
  Rank sample_manifest sample_candidates = Rank sample_manifest (rev sample_candidates).
Proof.
  apply (Rank_permutation sample_manifest _ _ sample_widths sample_candidate_widths). apply Permutation_rev.
Defined.

Lemma Rank_sorted_witness : List.map r_VersionID sample_results ≡ₚ List.map c_VersionID sample_candidates.
Proof.
  apply (Rank_sorted sample_manifest sample_candidates _ sample_widths sample_candidate_widths).
  - vm_compute. discriminate.
  - apply sample_ranked.
Defined.

Lemma NewManifest_stable_witness : manifest_accepted sample_manifest = true.
Proof.
  apply (NewManifest_stable sample_spec sample_manifest); [| |vm_compute; reflexivity].
  - intros c Hc. repeat (apply elem_of_cons in Hc as [->|Hc]; [reflexivity|]). by apply not_elem_of_nil in Hc.
  - intros f Hf. repeat (apply elem_of_cons in Hf as [->|Hf]; [reflexivity|]). by apply not_elem_of_nil in Hf.
Defined.

Definition spaced_manifest : Manifest :=
  match NewManifest spaced_spec with Ok m => m | Err _ => sample_manifest end.

Lemma NewManifest_untrimmed_duplicate_witness :
  NewManifest spaced_spec = Ok spaced_manifest /\ Rank spaced_manifest [] = Err ErrRankingInvalidManifest.
Proof.
  split; [vm_compute; reflexivity|].
  apply (NewManifest_untrimmed_duplicate spaced_manifest []). vm_compute. reflexivity.
Defined.

End rank_witnesses.
