(* ===== verification/Eligibility.v ===== *)
(** * Eligibility of a procedure for recall (internal/eligibility)

    [policy.go]: the policy, its normalization and content address.  [engine.go]:
    [Evaluate], the gate every retrieved procedure passes.  The theorems give
    the exact condition under which a candidate is eligible, show that it fails
    closed on ambiguous context, and that the decision does not depend on the
    order of the context's lists. *)

From Stdlib Require Import ZArith String Ascii List Bool Lia.
From stdpp Require Import base gmap strings list.
From S2P Require Import Prelude GoStrings GoTime Canonical.

Open Scope Z_scope.
Open Scope go_scope.

Definition LifecycleCandidate : string := "candidate".
Definition LifecycleTrial : string := "trial".
Definition LifecycleActive : string := "active".
Definition LifecycleStale : string := "stale".
Definition LifecycleSuperseded : string := "superseded".
Definition LifecycleQuarantined : string := "quarantined".
Definition LifecycleRetired : string := "retired".

(** [Risk] is a [uint8] with four named values. *)
Definition RiskLow : Z := 1.
Definition RiskMedium : Z := 2.
Definition RiskHigh : Z := 3.
Definition RiskCritical : Z := 4.

Definition validRisk (value : Z) : bool := (RiskLow <=? value) && (value <=? RiskCritical).

Definition riskName (value : Z) : string :=
  if value =? RiskLow then "low"
  else if value =? RiskMedium then "medium"
  else if value =? RiskHigh then "high"
  else if value =? RiskCritical then "critical"
  else "".

Record PolicySpec := mk_PolicySpec {
  ps_Version : string;
  ps_AllowedLifecycle : list string;
  ps_AllowAdvisoryCandidates : bool;
  ps_MaximumRisk : Z;
  ps_MaximumValidationAgeSeconds : Z;
  ps_CompatibleValidationPolicies : list string;
  ps_AllowedResidencyRegions : list string
}.

Record Policy := mk_Policy { pol_Spec : PolicySpec; pol_ID : string; pol_CanonicalJSON : string }.

Definition policy_json (s : PolicySpec) : json :=
  JObj (fstr "version" (ps_Version s) ++ fstrs "allowed_lifecycle" (ps_AllowedLifecycle s) ++
        fbool "allow_advisory_candidates" (ps_AllowAdvisoryCandidates s) ++
        fnum "maximum_risk" (ps_MaximumRisk s) ++
        fnum "maximum_validation_age_seconds" (ps_MaximumValidationAgeSeconds s) ++
        fstrs "compatible_validation_policies" (ps_CompatibleValidationPolicies s) ++
        fstrs "allowed_residency_regions" (ps_AllowedResidencyRegions s)).

Record Tool := mk_Tool { tool_Name : string; tool_ContractVersionID : string }.
Record Harness := mk_Harness { har_Name : string; har_Version : string }.
Record Fact := mk_Fact { fact_Name : string; fact_Value : string }.
Record Resource := mk_Resource {
  res_Type : string; res_Namespace : string; res_IdentityHash : string; res_SchemaVersion : string
}.

Record Context := mk_Context {
  cx_TenantID : string;
  cx_AsOfUnix : Z;
  cx_RecallAllowed : bool;
  cx_Tools : list Tool;
  cx_Harness : Harness;
  cx_Environment : list Fact;
  cx_Resources : list Resource;
  cx_ForbiddenEffects : list string;
  cx_MaximumRisk : Z;
  cx_AllowedResidencyRegions : list string
}.

Record Candidate := mk_Candidate {
  ca_VersionID : string;
  ca_OwnerTenantID : string;
  ca_SharedTenantIDs : list string;
  ca_Lifecycle : string;
  ca_SupersededBy : string;
  ca_RequiredTools : list Tool;
  ca_RequiredHarness : Harness;
  ca_RequiredEnvironment : list Fact;
  ca_RequiredResources : list Resource;
  ca_Effects : list string;
  ca_Risk : Z;
  ca_ValidatedAtUnix : Z;
  ca_ValidationPolicyVersion : string;
  ca_RecallAllowed : bool;
  ca_ResidencyRegion : string
}.

Record Rejection := mk_Rejection {
  rj_Code : string; rj_SubjectID : string; rj_Field : string; rj_Expected : string; rj_Observed : string
}.

Record Decision := mk_Decision {
  d_Eligible : bool; d_AdvisoryOnly : bool; d_PolicyID : string; d_Rejections : list Rejection
}.

Definition contains (source : list string) (target : string) : bool := existsb (String.eqb target) source.

Definition toolMap (source : list Tool) : gmap string string :=
  foldl (fun result tool =>
    match result !! tool_Name tool with
    | Some prior =>
        if negb (String.eqb prior (tool_ContractVersionID tool))
        then <[tool_Name tool := ""%string]> result
        else <[tool_Name tool := tool_ContractVersionID tool]> result
    | None => <[tool_Name tool := tool_ContractVersionID tool]> result
    end) ∅ source.

Definition factMap (source : list Fact) : gmap string string :=
  foldl (fun result fact =>
    match result !! fact_Name fact with
    | Some prior =>
        if negb (String.eqb prior (fact_Value fact))
        then <[fact_Name fact := ""%string]> result
        else <[fact_Name fact := fact_Value fact]> result
    | None => <[fact_Name fact := fact_Value fact]> result
    end) ∅ source.

Definition resourceKey (r : Resource) : string :=
  join nul [res_Type r; res_Namespace r; res_IdentityHash r].

Definition with_schema (v : string) (r : Resource) : Resource :=
  mk_Resource (res_Type r) (res_Namespace r) (res_IdentityHash r) v.

Definition resourceMap (source : list Resource) : gmap string Resource :=
  foldl (fun result resource =>
    let key := resourceKey resource in
    let resource := match result !! key with
      | Some prior =>
          if negb (String.eqb (res_SchemaVersion prior) (res_SchemaVersion resource))
          then with_schema "" resource else resource
      | None => resource
      end in
    <[key := resource]> result) ∅ source.

Definition stringSet (source : list string) : gset string :=
  foldl (fun result value => {[value]} ∪ result) ∅ source.

(** The key the rejections are sorted by. *)
Definition rejection_key (r : Rejection) : string :=
  join nul [rj_Code r; rj_SubjectID r; rj_Field r; rj_Expected r; rj_Observed r].

Definition rejection_less (l r : Rejection) : bool := str_ltb (rejection_key l) (rejection_key r).

Section engine.
Context `{NFC} `{JCS} `{Digest}.

Definition token (value : string) : string := nfc_string (TrimSpace value).

Definition lifecycle_allowable (value : string) : bool :=
  String.eqb value LifecycleCandidate || String.eqb value LifecycleTrial || String.eqb value LifecycleActive.

(** [normalizeLifecycles]; the keys of [seen] are sorted, so the map's order is not observable. *)
Fixpoint seenLifecycles (seen : gset string) (source : list string) : result (gset string) :=
  match source with
  | [] => Ok seen
  | value :: source =>
      reject negb (lifecycle_allowable value) with ErrInvalidPolicy;
      seenLifecycles ({[value]} ∪ seen) source
  end.

Definition normalizeLifecycles (source : list string) : result (list string) :=
  let* seen := seenLifecycles ∅ source in
  Ok (sort_strings (elements seen)).

Fixpoint seenStrings (seen : gset string) (source : list string) : result (gset string) :=
  match source with
  | [] => Ok seen
  | raw :: source =>
      let value := token raw in
      reject String.eqb value "" with ErrInvalidPolicy;
      seenStrings ({[value]} ∪ seen) source
  end.

Definition normalizeStrings (source : list string) : result (list string) :=
  let* seen := seenStrings ∅ source in
  Ok (sort_strings (elements seen)).

Definition empty_list {A} (l : list A) : bool := match l with [] => true | _ => false end.

Definition NewPolicy (source : PolicySpec) : result Policy :=
  let* lifecycles := normalizeLifecycles (ps_AllowedLifecycle source) in
  let* policies := normalizeStrings (ps_CompatibleValidationPolicies source) in
  let* regions := normalizeStrings (ps_AllowedResidencyRegions source) in
  let spec := mk_PolicySpec (token (ps_Version source)) lifecycles (ps_AllowAdvisoryCandidates source)
    (ps_MaximumRisk source) (ps_MaximumValidationAgeSeconds source) policies regions in
  reject String.eqb (ps_Version spec) "" || negb (validRisk (ps_MaximumRisk spec)) ||
         (ps_MaximumValidationAgeSeconds spec <=? 0) || empty_list (ps_AllowedLifecycle spec) ||
         empty_list (ps_CompatibleValidationPolicies spec) || empty_list (ps_AllowedResidencyRegions spec)
    with ErrInvalidPolicy;
  let* (canonicalJSON, hash) := MarshalAndHash (policy_json spec) in
  Ok (mk_Policy spec ("egp_" ++ hash)%string canonicalJSON).

(** The calls of [reject], in the order of the code; [when b r] is "[if b { reject(r) }]". *)
Definition when (b : bool) (r : Rejection) : list Rejection := if b then [r] else [].

Definition gate_context (x : Context) : list Rejection :=
  when (String.eqb (cx_TenantID x) "" || (cx_AsOfUnix x <=? 0) || negb (validRisk (cx_MaximumRisk x)))
    (mk_Rejection "context_invalid" "request" "server_context" "complete" "invalid").

Definition gate_candidate (c : Candidate) : list Rejection :=
  when (String.eqb (ca_VersionID c) "" || String.eqb (ca_OwnerTenantID c) "" || String.eqb (ca_Lifecycle c) "" ||
        negb (validRisk (ca_Risk c)) || String.eqb (ca_ResidencyRegion c) "")
    (mk_Rejection "candidate_invalid" "candidate" "metadata" "complete" "invalid").

Definition gate_tenant (x : Context) (c : Candidate) : list Rejection :=
  if negb (String.eqb (ca_OwnerTenantID c) (cx_TenantID x)) then
    if empty_list (ca_SharedTenantIDs c)
    then [mk_Rejection "tenant_scope_denied" (ca_VersionID c) "tenant_scope" "owner_or_explicit_share" "different_owner"]
    else when (negb (contains (ca_SharedTenantIDs c) (cx_TenantID x)))
           (mk_Rejection "sharing_scope_denied" (ca_VersionID c) "sharing_scope" "tenant_grant" "grant_absent")
  else [].

Definition allowedLifecycle (p : PolicySpec) (c : Candidate) : bool :=
  let allowed := contains (ps_AllowedLifecycle p) (ca_Lifecycle c) in
  if String.eqb (ca_Lifecycle c) LifecycleCandidate then allowed || ps_AllowAdvisoryCandidates p else allowed.

Definition gate_lifecycle (p : PolicySpec) (c : Candidate) : list Rejection :=
  when (negb (allowedLifecycle p c))
    (mk_Rejection "lifecycle_ineligible" (ca_VersionID c) "lifecycle" "active_or_trial" (ca_Lifecycle c)) ++
  when (negb (String.eqb (ca_SupersededBy c) "") || String.eqb (ca_Lifecycle c) LifecycleSuperseded)
    (mk_Rejection "superseded" (ca_VersionID c) "supersession" "current" "superseded").

Definition gate_tools (x : Context) (c : Candidate) : list Rejection :=
  let availableTools := toolMap (cx_Tools x) in
  flat_map (fun required =>
    match availableTools !! tool_Name required with
    | None => [mk_Rejection "tool_unavailable" (tool_Name required) "tool" "available" "missing"]
    | Some version =>
        when (negb (String.eqb version (tool_ContractVersionID required)))
          (mk_Rejection "tool_contract_incompatible" (tool_Name required) "contract_version" "compatible" "incompatible")
    end) (ca_RequiredTools c).

Definition gate_resources (x : Context) (c : Candidate) : list Rejection :=
  let availableResources := resourceMap (cx_Resources x) in
  flat_map (fun required =>
    let subject := join ":" [res_Type required; res_Namespace required] in
    match availableResources !! resourceKey required with
    | None => [mk_Rejection "resource_precondition_missing" subject "resource" "present" "missing"]
    | Some available =>
        when (negb (String.eqb (res_SchemaVersion required) "") &&
              negb (String.eqb (res_SchemaVersion available) (res_SchemaVersion required)))
          (mk_Rejection "resource_schema_incompatible" subject "schema_version" "compatible" "incompatible")
    end) (ca_RequiredResources c).

Definition gate_effects (x : Context) (c : Candidate) : list Rejection :=
  let forbidden := stringSet (cx_ForbiddenEffects x) in
  flat_map (fun effect => when (bool_decide (effect ∈ forbidden))
    (mk_Rejection "forbidden_effect" effect "effect" "allowed" "forbidden")) (ca_Effects c).

Definition effectiveRisk (p : PolicySpec) (x : Context) : Z :=
  if negb (validRisk (cx_MaximumRisk x)) || (ps_MaximumRisk p <? cx_MaximumRisk x)
  then ps_MaximumRisk p else cx_MaximumRisk x.

Definition gate_risk (p : PolicySpec) (x : Context) (c : Candidate) : list Rejection :=
  when (negb (validRisk (ca_Risk c)) || (effectiveRisk p x <? ca_Risk c))
    (mk_Rejection "risk_budget_exceeded" (ca_VersionID c) "risk" (riskName (effectiveRisk p x)) (riskName (ca_Risk c))).

Definition gate_environment (x : Context) (c : Candidate) : list Rejection :=
  let environment := factMap (cx_Environment x) in
  flat_map (fun required =>
    when (match environment !! fact_Name required with
          | None => true
          | Some value => negb (String.eqb value (fact_Value required))
          end)
      (mk_Rejection "environment_incompatible" (fact_Name required) "environment" "compatible" "missing_or_different"))
    (ca_RequiredEnvironment c).

Definition gate_harness (x : Context) (c : Candidate) : list Rejection :=
  let required := ca_RequiredHarness c in
  when (negb (String.eqb (har_Name required) "") &&
        (negb (String.eqb (har_Name required) (har_Name (cx_Harness x))) ||
         (negb (String.eqb (har_Version required) "") &&
          negb (String.eqb (har_Version required) (har_Version (cx_Harness x))))))
    (mk_Rejection "harness_incompatible" (har_Name required) "harness" "compatible" "missing_or_different").

Definition gate_validation (p : PolicySpec) (x : Context) (c : Candidate) : list Rejection :=
  (if ca_ValidatedAtUnix c <=? 0
   then [mk_Rejection "validation_missing" (ca_VersionID c) "validation" "present" "missing"]
   else when ((cx_AsOfUnix x <=? 0) || (cx_AsOfUnix x <? ca_ValidatedAtUnix c) ||
              (ps_MaximumValidationAgeSeconds p <? wrap_i64 (cx_AsOfUnix x - ca_ValidatedAtUnix c)))
          (mk_Rejection "validation_stale" (ca_VersionID c) "validation_age" "within_policy" "stale_or_future")) ++
  when (negb (contains (ps_CompatibleValidationPolicies p) (ca_ValidationPolicyVersion c)))
    (mk_Rejection "policy_incompatible" (ca_VersionID c) "validation_policy" "compatible" "incompatible").

Definition gate_consent (p : PolicySpec) (x : Context) (c : Candidate) : list Rejection :=
  when (negb (cx_RecallAllowed x) || negb (ca_RecallAllowed c))
    (mk_Rejection "consent_denied" (ca_VersionID c) "recall_consent" "allowed" "denied") ++
  when (negb (contains (ps_AllowedResidencyRegions p) (ca_ResidencyRegion c)) ||
        negb (contains (cx_AllowedResidencyRegions x) (ca_ResidencyRegion c)))
    (mk_Rejection "residency_denied" (ca_VersionID c) "residency" "allowed_region" "denied_or_unknown").

Definition rejections (p : PolicySpec) (x : Context) (c : Candidate) : list Rejection :=
  gate_context x ++ gate_candidate c ++ gate_tenant x c ++ gate_lifecycle p c ++ gate_tools x c ++
  gate_resources x c ++ gate_effects x c ++ gate_risk p x c ++ gate_environment x c ++ gate_harness x c ++
  gate_validation p x c ++ gate_consent p x c.

Definition Evaluate (policySpec : PolicySpec) (context : Context) (candidate : Candidate) : Decision :=
  match NewPolicy policySpec with
  | Err _ => mk_Decision false false "" [mk_Rejection "policy_invalid" "" "policy" "valid" "invalid"]
  | Ok policy =>
      let p := pol_Spec policy in
      let advisory := if String.eqb (ca_Lifecycle candidate) LifecycleCandidate
                      then allowedLifecycle p candidate else false in
      let rejected := sort_slice rejection_less (rejections p context candidate) in
      let eligible := empty_list rejected in
      mk_Decision eligible (if eligible then advisory else false) (pol_ID policy) rejected
  end.

End engine.

(** ** Ambiguous context values

    The value a map built by [toolMap], [factMap] or [resourceMap] holds for a
    key: the common value of all entries with that key, "" when they differ. *)
Definition consensus (vs : list string) : option string :=
  match vs with
  | [] => None
  | v :: rest => Some (if forallb (String.eqb v) rest then v else ""%string)
  end.

Definition values_at {A} (k v : A -> string) (n : string) (l : list A) : list string :=
  List.map v (List.filter (fun x => String.eqb (k x) n) l).

Lemma consensus_snoc vs v :
  consensus (vs ++ [v]) =
  Some (match consensus vs with
        | Some prior => if String.eqb prior v then v else ""%string
        | None => v
        end).
Proof.
  destruct vs as [|w vs]; simpl; [done|]. rewrite forallb_app. simpl. rewrite andb_true_r. f_equal.
  destruct (forallb (String.eqb w) vs); simpl.
  - destruct (String.eqb_spec w v); by subst.
  - by destruct v.
Qed.

Lemma consensus_elem v vs :
  v ∈ vs -> consensus vs = Some (if forallb (String.eqb v) vs then v else ""%string).
Proof.
  destruct vs as [|w vs]; intros Hv; [by apply not_elem_of_nil in Hv|]. simpl. f_equal.
  destruct (String.eqb_spec v w) as [->|Hne]; [done|]. simpl.
  apply elem_of_cons in Hv as [->|Hv]; [done|].
  destruct (forallb (String.eqb w) vs) eqn:E; [|done]. rewrite forallb_forall in E.
  apply list_elem_of_In, E, String.eqb_eq in Hv. congruence.
Qed.

Lemma consensus_perm vs vs' : vs ≡ₚ vs' -> consensus vs = consensus vs'.
Proof.
  intros Hp. destruct vs as [|v vs].
  { apply Permutation_nil in Hp. by subst. }
  rewrite !(consensus_elem v); [by rewrite (forallb_perm _ _ _ Hp)| |left].
  rewrite <- Hp. left.
Qed.

Lemma consensus_some vs v : v <> ""%string -> consensus vs = Some v <-> vs <> [] /\ (forall w, w ∈ vs -> w = v).
Proof.
  intros Hv. destruct vs as [|w vs]; simpl; [split; [done|by intros [? _]]|]. split.
  - destruct (forallb (String.eqb w) vs) eqn:E; [|congruence]. intros [= ->]. split; [done|].
    rewrite forallb_forall in E. intros w [->|Hw%list_elem_of_In]%elem_of_cons; [done|].
    by apply E, String.eqb_eq in Hw.
  - intros [_ Hall]. rewrite (proj2 (forallb_forall _ _)).
    + f_equal. apply Hall. left.
    + intros x Hx. apply String.eqb_eq. rewrite (Hall x), (Hall w); [done|left|right; by apply list_elem_of_In].
Qed.

Lemma values_at_perm {A} (k v : A -> string) n l l' : l ≡ₚ l' -> values_at k v n l ≡ₚ values_at k v n l'.
Proof.
  intros Hp. unfold values_at. apply Permutation_map.
  induction Hp; simpl; repeat case_match; eauto using Permutation.
Qed.

Lemma values_at_snoc {A} (k v : A -> string) n l x :
  values_at k v n (l ++ [x]) = values_at k v n l ++ (if String.eqb (k x) n then [v x] else []).
Proof. unfold values_at. rewrite List.filter_app, map_app. simpl. by destruct (String.eqb (k x) n). Qed.

Lemma consensus_map_lookup {A} (k v : A -> string) l n :
  foldl (fun (m : gmap string string) x =>
    match m !! k x with
    | Some prior => if negb (String.eqb prior (v x)) then <[k x := ""%string]> m else <[k x := v x]> m
    | None => <[k x := v x]> m
    end) ∅ l !! n = consensus (values_at k v n l).
Proof.
  induction l as [|x l IH] using rev_ind; [done|]. rewrite foldl_app, values_at_snoc. cbn [foldl].
  destruct (String.eqb_spec (k x) n) as [<-|Hne].
  - rewrite consensus_snoc, <- IH. set (m := foldl _ _ _). destruct (m !! k x) as [prior|]; [|by rewrite lookup_insert_eq].
    destruct (String.eqb prior (v x)); simpl; by rewrite lookup_insert_eq.
  - rewrite app_nil_r, <- IH. set (m := foldl _ _ _).
    destruct (m !! k x) as [prior|]; [destruct (negb _)|]; by rewrite lookup_insert_ne.
Qed.

Lemma toolMap_lookup l n : toolMap l !! n = consensus (values_at tool_Name tool_ContractVersionID n l).
Proof. apply consensus_map_lookup. Qed.

Lemma factMap_lookup l n : factMap l !! n = consensus (values_at fact_Name fact_Value n l).
Proof. apply consensus_map_lookup. Qed.

Lemma resourceMap_lookup l n :
  option_map res_SchemaVersion (resourceMap l !! n) = consensus (values_at resourceKey res_SchemaVersion n l).
Proof.
  unfold resourceMap. induction l as [|x l IH] using rev_ind; [done|].
  rewrite foldl_app, values_at_snoc. cbn [foldl].
  destruct (String.eqb_spec (resourceKey x) n) as [<-|Hne].
  - rewrite consensus_snoc, <- IH. set (m := foldl _ _ _). rewrite lookup_insert_eq.
    destruct (m !! resourceKey x) as [prior|]; simpl; [|done]. by destruct (String.eqb _ _).
  - rewrite app_nil_r, <- IH. set (m := foldl _ _ _). by rewrite lookup_insert_ne.
Qed.

Lemma stringSet_elem l n : n ∈ stringSet l <-> n ∈ l.
Proof.
  unfold stringSet. induction l as [|x l IH] using rev_ind; [set_solver|].
  rewrite foldl_app. cbn [foldl]. rewrite elem_of_union, IH, elem_of_app, elem_of_singleton, list_elem_of_singleton. tauto.
Qed.

Lemma contains_elem l n : contains l n = true <-> n ∈ l.
Proof. apply existsb_eqb_elem. Qed.

Lemma resourceMap_perm_lookup l l' n :
  l ≡ₚ l' -> option_map res_SchemaVersion (resourceMap l !! n) = option_map res_SchemaVersion (resourceMap l' !! n).
Proof. intros Hp. by rewrite !resourceMap_lookup, (consensus_perm _ _ (values_at_perm _ _ _ _ _ Hp)). Qed.

(** ** The eligibility condition *)

(** Every available value of a required key agrees with the required one. *)
Definition agrees (vs : list string) (required : string) : Prop := consensus vs = Some required.

Section eligibility.
Context `{NFC} `{JCS} `{Digest}.

Lemma seenLifecycles_ok seen src s :
  seenLifecycles seen src = Ok s ->
  (forall x, x ∈ s <-> x ∈ seen \/ x ∈ src) /\ (forall x, x ∈ src -> lifecycle_allowable x = true).
Proof.
  revert seen. induction src as [|v src IH]; intros seen; simpl.
  { intros [= ->]. split; [set_solver|by intros ? ?%not_elem_of_nil]. }
  destruct (lifecycle_allowable v) eqn:E; [|done]. simpl. intros [Hs Ha]%IH. split.
  - intros x. rewrite Hs, elem_of_union, elem_of_singleton, elem_of_cons. tauto.
  - intros x [->|Hx]%elem_of_cons; [done|by apply Ha].
Qed.

Lemma seenStrings_ok seen src s :
  seenStrings seen src = Ok s ->
  (forall x, x ∈ s <-> x ∈ seen \/ x ∈ List.map token src) /\ (forall x, x ∈ List.map token src -> x <> ""%string).
Proof.
  revert seen. induction src as [|v src IH]; intros seen; simpl.
  { intros [= ->]. split; [set_solver|by intros ? ?%not_elem_of_nil]. }
  destruct (String.eqb_spec (token v) "") as [|E]; [done|]. intros [Hs Ha]%IH. split.
  - intros x. rewrite Hs, elem_of_union, elem_of_singleton, elem_of_cons. tauto.
  - intros x [->|Hx]%elem_of_cons; [done|by apply Ha].
Qed.

Lemma normalizeStrings_elem src l x : normalizeStrings src = Ok l -> x ∈ l <-> x ∈ List.map token src.
Proof.
  unfold normalizeStrings. destruct (seenStrings ∅ src) as [s|] eqn:E; [|done]. simpl. intros [= <-].
  apply seenStrings_ok in E as [Hs _]. rewrite sort_strings_elem, elem_of_elements, Hs. set_solver.
Qed.

Lemma normalizeLifecycles_elem src l x : normalizeLifecycles src = Ok l -> x ∈ l <-> x ∈ src.
Proof.
  unfold normalizeLifecycles. destruct (seenLifecycles ∅ src) as [s|] eqn:E; [|done]. simpl. intros [= <-].
  apply seenLifecycles_ok in E as [Hs _]. rewrite sort_strings_elem, elem_of_elements, Hs. set_solver.
Qed.

Lemma NewPolicy_inv source policy :
  NewPolicy source = Ok policy ->
  let p := pol_Spec policy in
  (forall x, x ∈ ps_AllowedLifecycle p <-> x ∈ ps_AllowedLifecycle source) /\
  (forall x, x ∈ ps_CompatibleValidationPolicies p <-> x ∈ List.map token (ps_CompatibleValidationPolicies source)) /\
  (forall x, x ∈ ps_AllowedResidencyRegions p <-> x ∈ List.map token (ps_AllowedResidencyRegions source)) /\
  ps_MaximumRisk p = ps_MaximumRisk source /\ validRisk (ps_MaximumRisk source) = true /\
  ps_MaximumValidationAgeSeconds p = ps_MaximumValidationAgeSeconds source /\
  0 < ps_MaximumValidationAgeSeconds source /\
  ps_AllowAdvisoryCandidates p = ps_AllowAdvisoryCandidates source /\
  (forall x, x ∈ ps_AllowedLifecycle source -> lifecycle_allowable x = true).
Proof.
  unfold NewPolicy. destruct (normalizeLifecycles _) as [ls|] eqn:E1; [|done]. simpl.
  destruct (normalizeStrings (ps_CompatibleValidationPolicies source)) as [ps|] eqn:E2; [|done]. simpl.
  destruct (normalizeStrings (ps_AllowedResidencyRegions source)) as [rs|] eqn:E3; [|done]. simpl.
  destruct (_ || _) eqn:E4; [done|]. destruct (MarshalAndHash _) as [[cj h]|]; [|done]. simpl. intros [= <-]. simpl.
  autorewrite with goboolsimpl in E4.
  split; [intros x; by apply normalizeLifecycles_elem|].
  split; [intros x; by apply normalizeStrings_elem|].
  split; [intros x; by apply normalizeStrings_elem|].
  do 5 (split; [tauto || lia|]).
  unfold normalizeLifecycles in E1. destruct (seenLifecycles ∅ _) eqn:E; [|done]. by eapply seenLifecycles_ok.
Qed.

(** What [Evaluate] promises, over the policy as given by the caller. *)
Record eligible_spec (p : PolicySpec) (x : Context) (c : Candidate) : Prop := {
  el_context : cx_TenantID x <> ""%string /\ 0 < cx_AsOfUnix x /\ 1 <= cx_MaximumRisk x <= 4;
  el_candidate : ca_VersionID c <> ""%string /\ ca_OwnerTenantID c <> ""%string /\ ca_ResidencyRegion c <> ""%string;
  el_tenant : ca_OwnerTenantID c = cx_TenantID x \/ cx_TenantID x ∈ ca_SharedTenantIDs c;
  el_lifecycle : ca_Lifecycle c ∈ ps_AllowedLifecycle p \/
    (ca_Lifecycle c = LifecycleCandidate /\ ps_AllowAdvisoryCandidates p = true);
  el_current : ca_SupersededBy c = ""%string;
  el_tools : forall t, t ∈ ca_RequiredTools c ->
    agrees (values_at tool_Name tool_ContractVersionID (tool_Name t) (cx_Tools x)) (tool_ContractVersionID t);
  el_resources : forall r, r ∈ ca_RequiredResources c ->
    (exists a, a ∈ cx_Resources x /\ resourceKey a = resourceKey r) /\
    (res_SchemaVersion r <> ""%string ->
     agrees (values_at resourceKey res_SchemaVersion (resourceKey r) (cx_Resources x)) (res_SchemaVersion r));
  el_effects : forall e, e ∈ ca_Effects c -> e ∉ cx_ForbiddenEffects x;
  el_risk : 1 <= ca_Risk c <= Z.min (ps_MaximumRisk p) (cx_MaximumRisk x);
  el_environment : forall f, f ∈ ca_RequiredEnvironment c ->
    agrees (values_at fact_Name fact_Value (fact_Name f) (cx_Environment x)) (fact_Value f);
  el_harness : har_Name (ca_RequiredHarness c) <> ""%string ->
    har_Name (ca_RequiredHarness c) = har_Name (cx_Harness x) /\
    (har_Version (ca_RequiredHarness c) = ""%string \/
     har_Version (ca_RequiredHarness c) = har_Version (cx_Harness x));
  el_fresh : 0 < ca_ValidatedAtUnix c <= cx_AsOfUnix x /\
    cx_AsOfUnix x - ca_ValidatedAtUnix c <= ps_MaximumValidationAgeSeconds p;
  el_validation_policy : ca_ValidationPolicyVersion c ∈ List.map token (ps_CompatibleValidationPolicies p);
  el_consent : cx_RecallAllowed x = true /\ ca_RecallAllowed c = true;
  el_residency : ca_ResidencyRegion c ∈ List.map token (ps_AllowedResidencyRegions p) /\
    ca_ResidencyRegion c ∈ cx_AllowedResidencyRegions x
}.

Lemma when_nil b r : when b r = [] <-> b = false.
Proof. by destruct b. Qed.

Lemma flat_map_nil {A B} (f : A -> list B) l : flat_map f l = [] <-> (forall x, x ∈ l -> f x = []).
Proof.
  induction l as [|x l IH]; simpl; [split; [by intros _ ? ?%not_elem_of_nil|done]|].
  rewrite app_nil, IH. split.
  - intros [Hx Hl] y [->|Hy]%elem_of_cons; [done|by apply Hl].
  - intros Hall. split; [apply Hall; left|intros y Hy; apply Hall; by right].
Qed.

Lemma forall_elem_iff {A} (P Q : A -> Prop) (l : list A) :
  (forall x, x ∈ l -> P x <-> Q x) -> (forall x, x ∈ l -> P x) <-> (forall x, x ∈ l -> Q x).
Proof. intros HPQ. split; intros Hall x Hx; apply (HPQ x Hx); auto. Qed.

Lemma contains_false l n : contains l n = false <-> n ∉ l.
Proof. by rewrite <- contains_elem, not_true_iff_false. Qed.

Lemma values_at_elem {A} (k v : A -> string) n l w : w ∈ values_at k v n l <-> exists x, x ∈ l /\ k x = n /\ v x = w.
Proof.
  unfold values_at. rewrite list_elem_of_In, in_map_iff. split.
  - intros (x & <- & [Hx Hk%String.eqb_eq]%filter_In). exists x. by rewrite list_elem_of_In.
  - intros (x & Hx & Hk & <-). exists x. split; [done|]. apply filter_In. by rewrite Hk, str_eqb_refl, <- list_elem_of_In.
Qed.

Lemma gate_tools_nil x c :
  gate_tools x c = [] <-> (forall t, t ∈ ca_RequiredTools c ->
    agrees (values_at tool_Name tool_ContractVersionID (tool_Name t) (cx_Tools x)) (tool_ContractVersionID t)).
Proof.
  unfold gate_tools. rewrite flat_map_nil. apply forall_elem_iff. intros t _.
  rewrite toolMap_lookup. unfold agrees. destruct (consensus _) as [v|]; [|done].
  rewrite when_nil, negb_false_iff, String.eqb_eq. split; [by intros ->|by intros [= ->]].
Qed.
Lemma gate_environment_nil x c :
  gate_environment x c = [] <-> (forall f, f ∈ ca_RequiredEnvironment c ->
    agrees (values_at fact_Name fact_Value (fact_Name f) (cx_Environment x)) (fact_Value f)).
Proof.
  unfold gate_environment. rewrite flat_map_nil. apply forall_elem_iff. intros f _.
  rewrite factMap_lookup, when_nil. unfold agrees. destruct (consensus _) as [v|]; [|done].
  rewrite negb_false_iff, String.eqb_eq. split; [by intros ->|by intros [= ->]].
Qed.

Lemma consensus_none vs : consensus vs = None <-> vs = [].
Proof. by destruct vs. Qed.

Lemma gate_resources_nil x c :
  gate_resources x c = [] <-> (forall r, r ∈ ca_RequiredResources c ->
    (exists a, a ∈ cx_Resources x /\ resourceKey a = resourceKey r) /\
    (res_SchemaVersion r <> ""%string ->
     agrees (values_at resourceKey res_SchemaVersion (resourceKey r) (cx_Resources x)) (res_SchemaVersion r))).
Proof.
  unfold gate_resources. rewrite flat_map_nil. apply forall_elem_iff. intros r _.
  pose proof (resourceMap_lookup (cx_Resources x) (resourceKey r)) as Hl. unfold agrees. rewrite <- Hl.
  destruct (resourceMap (cx_Resources x) !! resourceKey r) as [a|] eqn:E; simpl in *.
  - rewrite when_nil, andb_false_iff, !negb_false_iff, !String.eqb_eq.
    assert (Hex : exists a, a ∈ cx_Resources x /\ resourceKey a = resourceKey r).
    { destruct (values_at resourceKey res_SchemaVersion (resourceKey r) (cx_Resources x)) as [|w l] eqn:Ev; [done|].
      assert (Hw : w ∈ values_at resourceKey res_SchemaVersion (resourceKey r) (cx_Resources x)) by (rewrite Ev; left).
      apply values_at_elem in Hw as (y & ? & ? & _). by exists y. }
    split.
    + intros Hcase. split; [done|]. intros Hne. destruct Hcase; congruence.
    + intros [_ Hs]. destruct (decide (res_SchemaVersion r = ""%string)); [by left|right]. by injection (Hs ltac:(done)).
  - split; [done|]. intros [(a & Ha & Hk) _]. symmetry in Hl. rewrite consensus_none in Hl.
    assert (Hin : res_SchemaVersion a ∈ values_at resourceKey res_SchemaVersion (resourceKey r) (cx_Resources x))
      by (apply values_at_elem; by exists a).
    rewrite Hl in Hin. by apply not_elem_of_nil in Hin.
Qed.

Lemma gate_effects_nil x c :
  gate_effects x c = [] <-> (forall e, e ∈ ca_Effects c -> e ∉ cx_ForbiddenEffects x).
Proof.
  unfold gate_effects. rewrite flat_map_nil. apply forall_elem_iff. intros e _.
  by rewrite when_nil, bool_decide_eq_false, stringSet_elem.
Qed.

Lemma gate_tenant_nil x c :
  gate_tenant x c = [] <-> ca_OwnerTenantID c = cx_TenantID x \/ cx_TenantID x ∈ ca_SharedTenantIDs c.
Proof.
  unfold gate_tenant. destruct (String.eqb_spec (ca_OwnerTenantID c) (cx_TenantID x)) as [|Hne]; simpl; [tauto|].
  destruct (ca_SharedTenantIDs c) as [|t l]; cbn [empty_list].
  - split; [done|]. intros [?|Hin]; [done|by apply not_elem_of_nil in Hin].
  - rewrite when_nil, negb_false_iff, contains_elem. tauto.
Qed.

Lemma gate_context_nil x :
  gate_context x = [] <-> cx_TenantID x <> ""%string /\ 0 < cx_AsOfUnix x /\ 1 <= cx_MaximumRisk x <= 4.
Proof.
  unfold gate_context, validRisk, RiskLow, RiskCritical. rewrite when_nil. autorewrite with goboolsimpl.
  intuition lia.
Qed.

Lemma gate_candidate_nil c :
  gate_candidate c = [] <-> ca_VersionID c <> ""%string /\ ca_OwnerTenantID c <> ""%string /\
    ca_Lifecycle c <> ""%string /\ 1 <= ca_Risk c <= 4 /\ ca_ResidencyRegion c <> ""%string.
Proof.
  unfold gate_candidate, validRisk, RiskLow, RiskCritical. rewrite when_nil. autorewrite with goboolsimpl.
  intuition lia.
Qed.

Lemma gate_lifecycle_nil p c :
  gate_lifecycle p c = [] <->
  (ca_Lifecycle c ∈ ps_AllowedLifecycle p \/
    (ca_Lifecycle c = LifecycleCandidate /\ ps_AllowAdvisoryCandidates p = true)) /\
  ca_SupersededBy c = ""%string /\ ca_Lifecycle c <> LifecycleSuperseded.
Proof.
  unfold gate_lifecycle, allowedLifecycle. rewrite app_nil, !when_nil, orb_false_iff, !negb_false_iff,
    String.eqb_eq, String.eqb_neq.
  destruct (String.eqb_spec (ca_Lifecycle c) LifecycleCandidate); rewrite ?orb_true_iff, contains_elem; tauto.
Qed.

Lemma gate_risk_nil p x c :
  1 <= cx_MaximumRisk x <= 4 -> 1 <= ps_MaximumRisk p <= 4 ->
  gate_risk p x c = [] <-> 1 <= ca_Risk c <= Z.min (ps_MaximumRisk p) (cx_MaximumRisk x).
Proof.
  intros Hx Hp. unfold gate_risk, effectiveRisk, validRisk, RiskLow, RiskCritical. rewrite when_nil.
  destruct (_ || (ps_MaximumRisk p <? _)) eqn:E; autorewrite with goboolsimpl in *; lia.
Qed.

Lemma gate_harness_nil x c :
  gate_harness x c = [] <-> (har_Name (ca_RequiredHarness c) <> ""%string ->
    har_Name (ca_RequiredHarness c) = har_Name (cx_Harness x) /\
    (har_Version (ca_RequiredHarness c) = ""%string \/
     har_Version (ca_RequiredHarness c) = har_Version (cx_Harness x))).
Proof.
  unfold gate_harness. rewrite when_nil. autorewrite with goboolsimpl.
  destruct (decide (har_Name (ca_RequiredHarness c) = ""%string)); tauto.
Qed.

Lemma gate_validation_nil p x c :
  in_i64 (cx_AsOfUnix x) -> in_i64 (ca_ValidatedAtUnix c) ->
  gate_validation p x c = [] <->
  (0 < ca_ValidatedAtUnix c <= cx_AsOfUnix x /\
   cx_AsOfUnix x - ca_ValidatedAtUnix c <= ps_MaximumValidationAgeSeconds p) /\
  ca_ValidationPolicyVersion c ∈ ps_CompatibleValidationPolicies p.
Proof.
  intros Hx Hc. unfold gate_validation. rewrite app_nil, when_nil, negb_false_iff, contains_elem.
  apply and_iff_compat_r. destruct (Z.leb_spec (ca_ValidatedAtUnix c) 0); [split; [done|lia]|].
  rewrite when_nil. autorewrite with goboolsimpl.
  destruct (Z.leb_spec (cx_AsOfUnix x) 0), (Z.ltb_spec (cx_AsOfUnix x) (ca_ValidatedAtUnix c)); try lia.
  rewrite wrap_i64_id by (unfold_widths; lia). lia.
Qed.

Lemma gate_consent_nil p x c :
  gate_consent p x c = [] <->
  (cx_RecallAllowed x = true /\ ca_RecallAllowed c = true) /\
  (ca_ResidencyRegion c ∈ ps_AllowedResidencyRegions p /\ ca_ResidencyRegion c ∈ cx_AllowedResidencyRegions x).
Proof.
  unfold gate_consent. rewrite app_nil, !when_nil, !orb_false_iff, !negb_false_iff, !contains_elem. done.
Qed.

Lemma lifecycle_allowable_spec l :
  lifecycle_allowable l = true -> l <> ""%string /\ l <> LifecycleSuperseded.
Proof.
  unfold lifecycle_allowable. rewrite !orb_true_iff, !String.eqb_eq. intros [[->| ->]| ->]; done.
Qed.

Lemma rejections_nil p source x c :
  NewPolicy source = Ok p -> in_i64 (cx_AsOfUnix x) -> in_i64 (ca_ValidatedAtUnix c) ->
  rejections (pol_Spec p) x c = [] <-> eligible_spec source x c.
Proof.
  intros Hp Hx Hc. apply NewPolicy_inv in Hp as (Hl & Hv & Hr & Hrisk & Hrv & Hage & Hpos & Hadv & Hallow).
  unfold validRisk, RiskLow, RiskCritical in Hrv. autorewrite with goboolsimpl in Hrv.
  unfold rejections. rewrite !app_nil, gate_tools_nil, gate_resources_nil, gate_effects_nil, gate_environment_nil,
    gate_tenant_nil, gate_context_nil, gate_candidate_nil, gate_lifecycle_nil, gate_harness_nil, gate_consent_nil,
    (gate_validation_nil _ x c Hx Hc), Hl, Hv, Hr, Hage, Hadv.
  split.
  - intros (G1 & G2 & G3 & G4 & G5 & G6 & G7 & G8 & G9 & G10 & G11 & G12).
    rewrite gate_risk_nil, Hrisk in G8 by lia. split; tauto.
  - intros []. rewrite gate_risk_nil by lia. rewrite Hrisk.
    assert (Hlc : ca_Lifecycle c <> ""%string /\ ca_Lifecycle c <> LifecycleSuperseded).
    { destruct el_lifecycle0 as [Hin|[-> _]]; [|done]. by apply lifecycle_allowable_spec, Hallow. }
    assert (1 <= ca_Risk c <= 4) by lia. tauto.
Qed.

Lemma Evaluate_eligible source x c :
  d_Eligible (Evaluate source x c) = true <->
  exists p, NewPolicy source = Ok p /\ rejections (pol_Spec p) x c = [].
Proof.
  unfold Evaluate. destruct (NewPolicy source) as [p|]; simpl; [|split; [done|by intros (? & ? & _)]].
  set (rs := rejections (pol_Spec p) x c).
  pose proof (sort_slice_length rejection_less rs) as Hlen. destruct (sort_slice rejection_less rs), rs eqn:E; try done.
  - split; [|done]. intros _. by exists p.
  - split; [done|]. intros (p' & [= <-] & Hr). subst rs. congruence.
Qed.

(** C2: A candidate is eligible exactly when the policy is valid and every gate
    of [eligible_spec] holds: tenant or explicit grant, lifecycle, supersession,
    tools, resources, effects, risk, environment, harness, validation age and
    policy, consent and residency. *)
Theorem Evaluate_eligible_iff (source : PolicySpec) (x : Context) (c : Candidate) :
  in_i64 (cx_AsOfUnix x) -> in_i64 (ca_ValidatedAtUnix c) ->
  d_Eligible (Evaluate source x c) = true <-> is_ok (NewPolicy source) = true /\ eligible_spec source x c.
Proof.
  intros Hx Hc. rewrite Evaluate_eligible. split.
  - intros (p & Hp & Hr). rewrite Hp. split; [done|]. by eapply rejections_nil.
  - intros [Hok Hs]. destruct (NewPolicy source) as [p|] eqn:Hp; [|done]. exists p. split; [done|].
    by eapply rejections_nil.
Qed.

(** Fail closed: when the context offers a required tool, environment fact
    or resource with two different values, a candidate that requires a
    non-empty value is not eligible, whatever the two values are. *)
Theorem Evaluate_ambiguous_context (source : PolicySpec) (x : Context) (c : Candidate) (v1 v2 : string) :
  v1 <> v2 ->
  (exists t, t ∈ ca_RequiredTools c /\ tool_ContractVersionID t <> ""%string /\
     mk_Tool (tool_Name t) v1 ∈ cx_Tools x /\ mk_Tool (tool_Name t) v2 ∈ cx_Tools x) \/
  (exists f, f ∈ ca_RequiredEnvironment c /\ fact_Value f <> ""%string /\
     mk_Fact (fact_Name f) v1 ∈ cx_Environment x /\ mk_Fact (fact_Name f) v2 ∈ cx_Environment x) \/
  (exists r, r ∈ ca_RequiredResources c /\ res_SchemaVersion r <> ""%string /\
     with_schema v1 r ∈ cx_Resources x /\ with_schema v2 r ∈ cx_Resources x) ->
  d_Eligible (Evaluate source x c) = false.
Proof.
  intros Hne Hamb. apply not_true_iff_false. rewrite Evaluate_eligible. intros (p & _ & Hr).
  unfold rejections in Hr. rewrite !app_nil, gate_tools_nil, gate_environment_nil, gate_resources_nil in Hr.
  destruct Hr as (_ & _ & _ & _ & Ht & Hres & _ & _ & He & _).
  destruct Hamb as [(t & Hin & Hv & H1' & H2')|[(f & Hin & Hv & H1' & H2')|(r & Hin & Hv & H1' & H2')]].
  - specialize (Ht t Hin). apply consensus_some in Ht as [_ Hall]; [|done]. apply Hne.
    rewrite (Hall v1), (Hall v2); [done| |]; apply values_at_elem; eexists; (split; [exact H1'|done]) || (split; [exact H2'|done]).
  - specialize (He f Hin). apply consensus_some in He as [_ Hall]; [|done]. apply Hne.
    rewrite (Hall v1), (Hall v2); [done| |]; apply values_at_elem; eexists; (split; [exact H1'|done]) || (split; [exact H2'|done]).
  - destruct (Hres r Hin) as [_ Ha]. specialize (Ha Hv). apply consensus_some in Ha as [_ Hall]; [|done]. apply Hne.
    rewrite (Hall v1), (Hall v2); [done| |]; apply values_at_elem; eexists; (split; [exact H1'|done]) || (split; [exact H2'|done]).
Qed.

(** The lists of a context, in any order. *)
Definition context_perm (x y : Context) : Prop :=
  cx_TenantID x = cx_TenantID y /\ cx_AsOfUnix x = cx_AsOfUnix y /\ cx_RecallAllowed x = cx_RecallAllowed y /\
  cx_Tools x ≡ₚ cx_Tools y /\ cx_Harness x = cx_Harness y /\ cx_Environment x ≡ₚ cx_Environment y /\
  cx_Resources x ≡ₚ cx_Resources y /\ cx_ForbiddenEffects x ≡ₚ cx_ForbiddenEffects y /\
  cx_MaximumRisk x = cx_MaximumRisk y /\ cx_AllowedResidencyRegions x ≡ₚ cx_AllowedResidencyRegions y.

#[export] Instance context_perm_equiv : Equivalence context_perm.
Proof.
  split; [intros x|intros x y|intros x y z]; unfold context_perm.
  - done.
  - by intros (-> & -> & -> & -> & -> & -> & -> & -> & -> & ->).
  - intros (-> & -> & -> & -> & -> & -> & -> & -> & -> & ->). done.
Qed.

Lemma flat_map_ext_fun {A B} (f g : A -> list B) l : (forall x, f x = g x) -> flat_map f l = flat_map g l.
Proof. intros Hfg. induction l as [|x l IH]; simpl; [done|]. by rewrite Hfg, IH. Qed.

Lemma contains_perm l l' n : l ≡ₚ l' -> contains l n = contains l' n.
Proof. intros Hp. apply eq_true_iff_eq. by rewrite !contains_elem, Hp. Qed.

#[export] Instance rejections_proper p : Proper (context_perm ==> eq ==> eq) (rejections p).
Proof.
  intros x y (Etid & Eas & Erec & Pt & Ehar & Pe & Pr & Pf & Erisk & Preg) c ? <-.
  assert (Et : gate_tools x c = gate_tools y c).
  { apply flat_map_ext_fun. intros t. by rewrite !toolMap_lookup, (consensus_perm _ _ (values_at_perm _ _ _ _ _ Pt)). }
  assert (Er : gate_resources x c = gate_resources y c).
  { apply flat_map_ext_fun. intros r. pose proof (resourceMap_perm_lookup _ _ (resourceKey r) Pr) as Hl.
    destruct (resourceMap (cx_Resources x) !! _), (resourceMap (cx_Resources y) !! _); simpl in Hl; try done.
    by injection Hl as ->. }
  assert (Ef : gate_effects x c = gate_effects y c).
  { apply flat_map_ext_fun. intros e. f_equal. apply bool_decide_ext. by rewrite !stringSet_elem, Pf. }
  assert (Ee : gate_environment x c = gate_environment y c).
  { apply flat_map_ext_fun. intros f. by rewrite !factMap_lookup, (consensus_perm _ _ (values_at_perm _ _ _ _ _ Pe)). }
  unfold rejections. rewrite Et, Er, Ef, Ee.
  unfold gate_context, gate_tenant, gate_risk, effectiveRisk, gate_harness, gate_validation, gate_consent.
  by rewrite Etid, Eas, Erec, Ehar, Erisk, (contains_perm _ _ _ Preg).
Qed.

(** The whole decision, rejections included, is independent of the order
    of the tools, facts, resources, forbidden effects and regions of the context. *)
Theorem Evaluate_context_order (source : PolicySpec) (x y : Context) (c : Candidate) :
  context_perm x y -> Evaluate source x c = Evaluate source y c.
Proof. intros Hxy. unfold Evaluate. destruct (NewPolicy source); [|done]. by rewrite Hxy. Qed.

(** An eligible candidate is marked advisory exactly when its lifecycle is
    still "candidate", and an ineligible one is never advisory and carries at
    least one rejection. *)
Theorem Evaluate_advisory (source : PolicySpec) (x : Context) (c : Candidate) :
  let d := Evaluate source x c in
  (d_Eligible d = true -> d_AdvisoryOnly d = String.eqb (ca_Lifecycle c) LifecycleCandidate /\ d_Rejections d = []) /\
  (d_Eligible d = false -> d_AdvisoryOnly d = false /\ d_Rejections d <> []).
Proof.
  unfold Evaluate. destruct (NewPolicy source) as [p|]; simpl; [|done].
  destruct (sort_slice rejection_less (rejections (pol_Spec p) x c)) as [|r l] eqn:E; simpl; [|done].
  split; [|done]. intros _. split; [|done]. destruct (String.eqb_spec (ca_Lifecycle c) LifecycleCandidate) as [El|]; [|done].
  assert (Hr : rejections (pol_Spec p) x c = []).
  { pose proof (sort_slice_length rejection_less (rejections (pol_Spec p) x c)) as Hl. rewrite E in Hl.
    by destruct (rejections (pol_Spec p) x c). }
  unfold rejections in Hr. rewrite !app_nil in Hr. destruct Hr as (_ & _ & _ & Hlc & _).
  apply app_nil in Hlc as [Hlc _]. by rewrite when_nil, negb_false_iff in Hlc.
Qed.

End eligibility.

(** ** Witnesses *)
Section eligibility_witnesses.
#[local] Existing Instance copy_nfc.
#[local] Existing Instance copy_jcs.
#[local] Existing Instance checksum_digest.

Definition sample_policy : PolicySpec :=
  mk_PolicySpec "v1" ["active"; "trial"]%string true RiskHigh 100 ["vp1"]%string ["eu"]%string.

Definition sample_context : Context :=
  mk_Context "t1" 1000 true [mk_Tool "git" "c1"] (mk_Harness "h" "1") [mk_Fact "os" "linux"]
    [mk_Resource "repo" "ns" "id" "s1"] ["delete"]%string RiskMedium ["eu"]%string.

Definition sample_candidate : Candidate :=
  mk_Candidate "v9" "t1" [] "candidate" "" [mk_Tool "git" "c1"] (mk_Harness "" "") [mk_Fact "os" "linux"]
    [mk_Resource "repo" "ns" "id" "s1"] ["write"]%string RiskLow 950 "vp1" true "eu".

Lemma Evaluate_eligible_iff_witness : eligible_spec sample_policy sample_context sample_candidate.
Proof.
  apply (Evaluate_eligible_iff sample_policy sample_context sample_candidate).
  - vm_compute. split; discriminate.
  - vm_compute. split; discriminate.
  - vm_compute. reflexivity.
Defined.

Definition ambiguous_context : Context :=
  mk_Context "t1" 1000 true [mk_Tool "git" "c1"; mk_Tool "git" "c2"; mk_Tool "git" "c1"] (mk_Harness "h" "1")
    [mk_Fact "os" "linux"] [mk_Resource "repo" "ns" "id" "s1"] ["delete"]%string RiskMedium ["eu"]%string.

Lemma Evaluate_ambiguous_context_witness :
  d_Eligible (Evaluate sample_policy ambiguous_context sample_candidate) = false.
Proof.
  apply (Evaluate_ambiguous_context _ _ _ "c1" "c2"); [discriminate|].
  left. exists (mk_Tool "git" "c1"). repeat split; try discriminate.
  - left.
  - left.
  - right. left.
Defined.

Lemma Evaluate_context_order_witness :
  Evaluate sample_policy ambiguous_context sample_candidate =
  Evaluate sample_policy (mk_Context "t1" 1000 true [mk_Tool "git" "c2"; mk_Tool "git" "c1"; mk_Tool "git" "c1"]
    (mk_Harness "h" "1") [mk_Fact "os" "linux"] [mk_Resource "repo" "ns" "id" "s1"] ["delete"]%string RiskMedium
    ["eu"]%string) sample_candidate.
Proof.
  apply (Evaluate_context_order sample_policy). repeat (split; [done|]). split; [|done]. apply perm_swap.
Defined.

Lemma Evaluate_advisory_witness :
  d_AdvisoryOnly (Evaluate sample_policy sample_context sample_candidate) = true.
Proof.
  destruct (Evaluate_advisory sample_policy sample_context sample_candidate) as [Ha _].
  rewrite (proj1 (Ha ltac:(vm_compute; reflexivity))). reflexivity.
Defined.

End eligibility_witnesses.
