(* ===== verification/Domain.v ===== *)
(** * Domain types (internal/domain)

    Canonical traces, procedure steps, negative paths and outcomes, with the
    JSON encodings that are hashed, and the string enumerations of evidence
    classes, verdicts and outcome states. *)

From Stdlib Require Import ZArith String Ascii List Bool Lia.
From stdpp Require Import base gmap strings list.
From S2P Require Import Prelude GoStrings GoTime Canonical.

Open Scope Z_scope.

Definition EvidenceClassIndependentVerifier : string := "independent_verifier".
Definition EvidenceClassGoalPredicate : string := "goal_predicate".
Definition EvidenceClassHarnessAssertion : string := "harness_assertion".
Definition EvidenceClassToolPostcondition : string := "tool_postcondition".
Definition EvidenceClassExitStatusOrSelfReport : string := "exit_status_or_self_report".

Definition EvidenceVerdictSatisfied : string := "satisfied".
Definition EvidenceVerdictFailed : string := "failed".
Definition EvidenceVerdictUnknown : string := "unknown".

Definition OutcomeStateVerifiedSuccess : string := "verified_success".
Definition OutcomeStateProvisionalSuccess : string := "provisional_success".
Definition OutcomeStateInconclusive : string := "inconclusive".
Definition OutcomeStateVerifiedFailure : string := "verified_failure".

Record CanonicalField := mk_CanonicalField { cf_Name : string; cf_Value : string }.

Definition field_json (f : CanonicalField) : json :=
  JObj (fstr "name" (cf_Name f) ++ fstr "value" (cf_Value f)).

(** ** Canonical traces (trace.go) *)
Record CanonicalResult := mk_CanonicalResult { cr_State : string; cr_ExitCode : option Z; cr_Evidence : list CanonicalField }.

Record CanonicalEvent := mk_CanonicalEvent {
  cn_ID : string;
  cn_Position : Z;
  cn_ClientEventID : string;
  cn_OccurredAt : string;
  cn_Kind : string;
  cn_ToolName : string;
  cn_ToolVersion : string;
  cn_Fields : list CanonicalField;
  cn_Result : option CanonicalResult
}.

Record CanonicalTrace := mk_CanonicalTrace {
  tr_ID : string;
  tr_ClientTraceID : string;
  tr_Harness : string;
  tr_HarnessVersion : string;
  tr_Task : string;
  tr_Environment : list CanonicalField
}.

Record CanonicalBatch := mk_CanonicalBatch {
  cb_SchemaVersion : string;
  cb_TenantID : string;
  cb_Trace : CanonicalTrace;
  cb_Events : list CanonicalEvent;
  cb_Hash : string;
  cb_CanonicalJSON : string
}.

(** ** Procedures (procedure.go, negative_path.go) *)
Record ProcedureResource := mk_ProcedureResource {
  rs_ID : string;
  rs_Name : string;
  rs_Type : string;
  rs_Namespace : string;
  rs_IdentityHash : string;
  rs_SchemaVersion : string
}.

#[export] Instance ProcedureResource_eq_dec : EqDecision ProcedureResource.
Proof. solve_decision. Defined.

Definition resource_json (r : ProcedureResource) : json :=
  JObj (fstr "id" (rs_ID r) ++ fstr "name" (rs_Name r) ++ fstr "type" (rs_Type r) ++ fstr "namespace" (rs_Namespace r) ++
        fstr "identity_hash" (rs_IdentityHash r) ++ fstr_omit "schema_version" (rs_SchemaVersion r)).

Record ProcedurePredicate := mk_ProcedurePredicate { pp_ID : string; pp_ResourceName : string }.

#[export] Instance ProcedurePredicate_eq_dec : EqDecision ProcedurePredicate.
Proof. solve_decision. Defined.

Definition predicate_json (p : ProcedurePredicate) : json :=
  JObj (fstr "id" (pp_ID p) ++ fstr_omit "resource_name" (pp_ResourceName p)).

Record ProcedureStep := mk_ProcedureStep {
  sp_EventID : string;
  sp_Ordinal : Z;
  sp_OriginalPosition : Z;
  sp_ToolName : string;
  sp_ToolVersion : string;
  sp_ToolContractVersionID : string;
  sp_UncertainNecessity : bool;
  sp_CompensationBoundary : bool;
  sp_SideEffect : string;
  sp_Risk : string;
  sp_Effects : list string;
  sp_Preconditions : list ProcedurePredicate;
  sp_SuccessPredicates : list string;
  sp_VerificationMethods : list string;
  sp_Reads : list ProcedureResource;
  sp_Writes : list ProcedureResource
}.

Definition step_json (s : ProcedureStep) : json :=
  JObj (fstr "event_id" (sp_EventID s) ++ fnum "ordinal" (sp_Ordinal s) ++ fnum "original_position" (sp_OriginalPosition s) ++
        fstr "tool_name" (sp_ToolName s) ++ fstr_omit "tool_version" (sp_ToolVersion s) ++
        fstr "tool_contract_version_id" (sp_ToolContractVersionID s) ++ fbool "uncertain_necessity" (sp_UncertainNecessity s) ++
        fbool "compensation_boundary" (sp_CompensationBoundary s) ++ fstr "side_effect" (sp_SideEffect s) ++
        fstr "risk" (sp_Risk s) ++ fstrs_omit "effects" (sp_Effects s) ++
        farr_omit "preconditions" (List.map predicate_json (sp_Preconditions s)) ++
        fstrs_omit "success_predicates" (sp_SuccessPredicates s) ++
        fstrs_omit "verification_methods" (sp_VerificationMethods s) ++
        farr_omit "reads" (List.map resource_json (sp_Reads s)) ++ farr_omit "writes" (List.map resource_json (sp_Writes s))).

Record CompatibilityScope := mk_CompatibilityScope { sc_EnvironmentHash : string; sc_ToolHash : string; sc_ResourceHash : string }.

Definition scope_Valid (s : CompatibilityScope) : bool :=
  negb (String.eqb (sc_EnvironmentHash s) "") && negb (String.eqb (sc_ToolHash s) "") && negb (String.eqb (sc_ResourceHash s) "").

Definition scope_json (s : CompatibilityScope) : json :=
  JObj (fstr "environment_hash" (sc_EnvironmentHash s) ++ fstr "tool_hash" (sc_ToolHash s) ++ fstr "resource_hash" (sc_ResourceHash s)).

Record NegativePath := mk_NegativePath {
  np_ID : string;
  np_FailurePredicateID : string;
  np_EventIDs : list string;
  np_Scope : CompatibilityScope
}.

Definition negative_path_json (p : NegativePath) : json :=
  JObj (fstr "id" (np_ID p) ++ fstr "failure_predicate_id" (np_FailurePredicateID p) ++ fstrs "event_ids" (np_EventIDs p) ++
        fld "scope" (scope_json (np_Scope p))).

(** ** Outcomes (outcome.go) *)
Record OutcomeEvidence := mk_OutcomeEvidence {
  oe_ID : string;
  oe_ClientEvidenceID : string;
  oe_Class : string;
  oe_Verdict : string;
  oe_PredicateID : string;
  oe_VerifierID : string;
  oe_VerifierVersion : string;
  oe_ObservedAt : string;
  oe_Fields : list CanonicalField
}.

Definition evidence_json (e : OutcomeEvidence) : json :=
  JObj (fstr "id" (oe_ID e) ++ fstr "client_evidence_id" (oe_ClientEvidenceID e) ++ fstr "class" (oe_Class e) ++
        fstr "verdict" (oe_Verdict e) ++ fstr "predicate_id" (oe_PredicateID e) ++
        fstr "verifier_id" (oe_VerifierID e) ++ fstr_omit "verifier_version" (oe_VerifierVersion e) ++
        fstr "observed_at" (oe_ObservedAt e) ++ farr_omit "fields" (List.map field_json (oe_Fields e))).

Record CanonicalOutcome := mk_CanonicalOutcome {
  co_SchemaVersion : string;
  co_ID : string;
  co_TenantID : string;
  co_TraceID : string;
  co_ExecutionID : string;
  co_SelectionID : string;
  co_InjectionID : string;
  co_TaskExecutionID : string;
  co_SupersedesOutcomeID : string;
  co_CorrectionReason : string;
  co_Evidence : list OutcomeEvidence;
  co_Hash : string;
  co_CanonicalJSON : string
}.

Definition outcome_json (o : CanonicalOutcome) : json :=
  JObj (fstr "schema_version" (co_SchemaVersion o) ++ fstr "id" (co_ID o) ++ fstr "tenant_id" (co_TenantID o) ++
        fstr "trace_id" (co_TraceID o) ++ fstr_omit "execution_id" (co_ExecutionID o) ++
        fstr_omit "selection_id" (co_SelectionID o) ++ fstr_omit "injection_id" (co_InjectionID o) ++
        fstr_omit "task_execution_id" (co_TaskExecutionID o) ++
        fstr_omit "supersedes_outcome_id" (co_SupersedesOutcomeID o) ++
        fstr_omit "correction_reason" (co_CorrectionReason o) ++
        farr "evidence" (List.map evidence_json (co_Evidence o))).
