(* ===== verification/Evidence.v ===== *)
(** * Evaluation of outcome evidence (internal/evidence)

    [evaluator.go]: from the evidence recorded for a task to its outcome state.
    [canonical.go]: [VerifyCanonical], the check a store runs before it accepts
    an outcome.  The theorems characterize the verified states by the strongest
    evidence of each predicate, and show that the result does not depend on the
    order of the evidence. *)

From Stdlib Require Import ZArith String Ascii List Bool Lia.
From stdpp Require Import base gmap strings list sorting.
From S2P Require Import Prelude GoStrings GoTime Canonical Domain.

Open Scope Z_scope.
Open Scope go_scope.

Record Policy := mk_Policy {
  pol_Version : string;
  pol_RequiredPredicates : list string;
  pol_SuccessClassCeiling : string;
  pol_FailureClassCeiling : string;
  pol_StrongConflictCeiling : string
}.

Record Result := mk_Result {
  er_State : string;
  er_PromotionEligible : bool;
  er_PolicyVersion : string;
  er_StrongestSatisfied : string;
  er_StrongestFailed : string;
  er_ConflictPredicates : list string;
  er_MissingPredicates : list string;
  er_Reasons : list string
}.

(** 1 is the strongest class, 0 an unknown one. *)
Definition classRank (value : string) : Z :=
  if String.eqb value EvidenceClassIndependentVerifier then 1
  else if String.eqb value EvidenceClassGoalPredicate then 2
  else if String.eqb value EvidenceClassHarnessAssertion then 3
  else if String.eqb value EvidenceClassToolPostcondition then 4
  else if String.eqb value EvidenceClassExitStatusOrSelfReport then 5
  else 0.

Definition validVerdict (value : string) : bool :=
  String.eqb value EvidenceVerdictSatisfied || String.eqb value EvidenceVerdictFailed ||
  String.eqb value EvidenceVerdictUnknown.

Fixpoint strongestRanksFrom (satisfied failed : Z) (facts : list OutcomeEvidence) : Z * Z :=
  match facts with
  | [] => (satisfied, failed)
  | fact :: facts =>
      let rank := classRank (oe_Class fact) in
      if String.eqb (oe_Verdict fact) EvidenceVerdictSatisfied
      then strongestRanksFrom (if (satisfied =? 0) || (rank <? satisfied) then rank else satisfied) failed facts
      else if String.eqb (oe_Verdict fact) EvidenceVerdictFailed
      then strongestRanksFrom satisfied (if (failed =? 0) || (rank <? failed) then rank else failed) facts
      else strongestRanksFrom satisfied failed facts
  end.

Definition strongestRanks (facts : list OutcomeEvidence) : Z * Z := strongestRanksFrom 0 0 facts.

Fixpoint strongestFrom (verdict : string) (best : Z) (class : string) (facts : list OutcomeEvidence) : string :=
  match facts with
  | [] => class
  | fact :: facts =>
      if String.eqb (oe_Verdict fact) verdict && ((best =? 0) || (classRank (oe_Class fact) <? best))
      then strongestFrom verdict (classRank (oe_Class fact)) (oe_Class fact) facts
      else strongestFrom verdict best class facts
  end.

Definition strongest (facts : list OutcomeEvidence) (verdict : string) : string := strongestFrom verdict 0 "" facts.

Fixpoint distinctPredicates (seen : gset string) (values : list string) : list string :=
  match values with
  | [] => []
  | value :: values =>
      let value := TrimSpace value in
      if String.eqb value "" then distinctPredicates seen values
      else if bool_decide (value ∈ seen) then distinctPredicates seen values
      else value :: distinctPredicates ({[value]} ∪ seen) values
  end.

Definition canonicalPredicates (values : list string) : list string := sort_strings (distinctPredicates ∅ values).

Definition no_values {A} (l : list A) : bool := match l with [] => true | _ => false end.

Definition validatePolicy (policy : Policy) : bool :=
  negb (String.eqb (TrimSpace (pol_Version policy)) "" ||
        no_values (canonicalPredicates (pol_RequiredPredicates policy)) ||
        (classRank (pol_SuccessClassCeiling policy) =? 0) || (classRank (pol_FailureClassCeiling policy) =? 0) ||
        (classRank (pol_StrongConflictCeiling policy) =? 0)).

(** The first loop of [Evaluate]: validation, and the facts not superseded. *)
Fixpoint activeFacts (seen superseded : gset string) (facts : list OutcomeEvidence) : result (list OutcomeEvidence) :=
  match facts with
  | [] => Ok []
  | fact :: facts =>
      reject String.eqb (oe_ID fact) "" || String.eqb (oe_PredicateID fact) "" ||
             (classRank (oe_Class fact) =? 0) || negb (validVerdict (oe_Verdict fact)) with ErrInvalidEvidence;
      reject bool_decide (oe_ID fact ∈ seen) with ErrInvalidEvidence;
      let* active := activeFacts ({[oe_ID fact]} ∪ seen) superseded facts in
      Ok (if bool_decide (oe_ID fact ∈ superseded) then active else fact :: active)
  end.

Definition groupByPredicate (active : list OutcomeEvidence) : gmap string (list OutcomeEvidence) :=
  foldl (fun m fact => <[oe_PredicateID fact := default [] (m !! oe_PredicateID fact) ++ [fact]]> m) ∅ active.

Definition conflicting (policy : Policy) (grouped : list OutcomeEvidence) : bool :=
  let '(satisfied, failed) := strongestRanks grouped in
  negb (satisfied =? 0) && (satisfied =? failed) && (satisfied <=? classRank (pol_StrongConflictCeiling policy)).

(** The range over the map [byPredicate]; its order is erased by the sort. *)
Definition conflictPredicates (policy : Policy) (byPredicate : gmap string (list OutcomeEvidence)) : list string :=
  sort_strings (List.map fst (List.filter (fun '(_, grouped) => conflicting policy grouped) (map_to_list byPredicate))).

Record flags := mk_flags { allVerified : bool; anySatisfied : bool; verifiedFailure : bool; missing : list string }.

(** The body of the loop over the required predicates. *)
Definition requiredStep (policy : Policy) (byPredicate : gmap string (list OutcomeEvidence)) (acc : flags)
    (predicate : string) : flags :=
  let '(satisfied, failed) := strongestRanks (default [] (byPredicate !! predicate)) in
  let anySat := anySatisfied acc || negb (satisfied =? 0) in
  let failure := verifiedFailure acc ||
    (negb (failed =? 0) && ((satisfied =? 0) || (failed <? satisfied)) &&
     (failed <=? classRank (pol_FailureClassCeiling policy))) in
  if (satisfied =? 0) || (negb (failed =? 0) && (failed <=? satisfied)) ||
     (classRank (pol_SuccessClassCeiling policy) <? satisfied)
  then mk_flags false anySat failure
         (if (satisfied =? 0) && (failed =? 0) then missing acc ++ [predicate] else missing acc)
  else mk_flags (allVerified acc) anySat failure (missing acc).

Definition Evaluate (policy : Policy) (facts : list OutcomeEvidence) (superseded : gset string) : result Result :=
  reject negb (validatePolicy policy) with ErrInvalidEvidencePolicy;
  let* active := activeFacts ∅ superseded facts in
  let sat := strongest active EvidenceVerdictSatisfied in
  let fail := strongest active EvidenceVerdictFailed in
  let byPredicate := groupByPredicate active in
  let conflicts := conflictPredicates policy byPredicate in
  let finish state promote missing reasons :=
    mk_Result state promote (pol_Version policy) sat fail conflicts missing reasons in
  if negb (no_values conflicts)
  then Ok (finish OutcomeStateInconclusive false [] ["conflicting strong evidence"%string])
  else
    let f := foldl (requiredStep policy byPredicate) (mk_flags true false false [])
               (canonicalPredicates (pol_RequiredPredicates policy)) in
    if verifiedFailure f
    then Ok (finish OutcomeStateVerifiedFailure false (missing f)
               ["required predicate failed with qualifying evidence"%string])
    else if allVerified f
    then Ok (finish OutcomeStateVerifiedSuccess true (missing f) [])
    else if anySatisfied f || negb (String.eqb sat "")
    then Ok (finish OutcomeStateProvisionalSuccess false (missing f) ["goal proof is incomplete"%string])
    else Ok (finish OutcomeStateInconclusive false (missing f)
               ["evidence is missing or below verification threshold"%string]).

(** ** Strongest evidence *)

Definition verdict_rank (v : string) (f : OutcomeEvidence) : option Z :=
  if String.eqb (oe_Verdict f) v then Some (classRank (oe_Class f)) else None.

(** [k] is the strongest rank among the facts with verdict [v]; 0 when there is none. *)
Definition is_best (v : string) (l : list OutcomeEvidence) (k : Z) : Prop :=
  (k = 0 /\ forall f, f ∈ l -> oe_Verdict f <> v) \/
  (0 < k /\ (exists f, f ∈ l /\ oe_Verdict f = v /\ classRank (oe_Class f) = k) /\
   forall f, f ∈ l -> oe_Verdict f = v -> k <= classRank (oe_Class f)).

Definition ranked (l : list OutcomeEvidence) : Prop := forall f, f ∈ l -> 0 < classRank (oe_Class f).

Lemma classRank_range c : 0 <= classRank c <= 5.
Proof. unfold classRank. repeat case_match; lia. Qed.

Lemma classRank_inj c d : classRank c = classRank d -> 0 < classRank c -> c = d.
Proof.
  unfold classRank. intros E Hp.
  repeat match type of E with context [String.eqb ?a ?b] => destruct (String.eqb_spec a b) end; subst; try lia; done.
Qed.

Lemma is_best_unique v l k k' : ranked l -> is_best v l k -> is_best v l k' -> k = k'.
Proof.
  intros Hr [[-> H0]|(Hk & (f & Hf & Hv & Hc) & Hmin)] [[-> H0']|(Hk' & (f' & Hf' & Hv' & Hc') & Hmin')]; try done.
  - by destruct (H0 f' Hf').
  - by destruct (H0' f Hf).
  - specialize (Hmin f' Hf' Hv'). specialize (Hmin' f Hf Hv). lia.
Qed.

Lemma is_best_perm v l l' k : l ≡ₚ l' -> is_best v l k -> is_best v l' k.
Proof. intros Hp. unfold is_best. setoid_rewrite Hp. done. Qed.

(** One more fact. *)
Lemma is_best_snoc v l k f :
  0 < classRank (oe_Class f) -> is_best v l k ->
  is_best v (l ++ [f])
    (if String.eqb (oe_Verdict f) v
     then if (k =? 0) || (classRank (oe_Class f) <? k) then classRank (oe_Class f) else k
     else k).
Proof.
  intros Hf Hb. destruct (String.eqb_spec (oe_Verdict f) v) as [Ev|Ev].
  - right. destruct Hb as [[-> H0]|(Hk & (g & Hg & Hv & Hc) & Hmin)].
    + simpl. split; [done|]. split; [exists f; split; [apply elem_of_app; right; by apply list_elem_of_singleton|done]|].
      intros x [Hx|<-%list_elem_of_singleton]%elem_of_app Hvx; [|lia]. by destruct (H0 x Hx).
    + destruct (Z.eqb_spec k 0); [lia|]. simpl. destruct (Z.ltb_spec (classRank (oe_Class f)) k).
      * split; [done|]. split; [exists f; split; [apply elem_of_app; right; by apply list_elem_of_singleton|done]|].
        intros x [Hx|<-%list_elem_of_singleton]%elem_of_app Hvx; [|lia]. specialize (Hmin x Hx Hvx). lia.
      * split; [done|]. split; [exists g; split; [apply elem_of_app; by left|done]|].
        intros x [Hx|<-%list_elem_of_singleton]%elem_of_app Hvx; [by apply Hmin|lia].
  - destruct Hb as [[-> H0]|(Hk & (g & Hg & Hv & Hc) & Hmin)]; [left|right].
    + split; [done|]. intros x [Hx|<-%list_elem_of_singleton]%elem_of_app; [by apply H0|done].
    + split; [done|]. split; [exists g; split; [apply elem_of_app; by left|done]|].
      intros x [Hx|<-%list_elem_of_singleton]%elem_of_app Hvx; [by apply Hmin|done].
Qed.

Lemma strongestRanksFrom_best pre l s f s' f' :
  ranked l -> is_best EvidenceVerdictSatisfied pre s -> is_best EvidenceVerdictFailed pre f ->
  strongestRanksFrom s f l = (s', f') ->
  is_best EvidenceVerdictSatisfied (pre ++ l) s' /\ is_best EvidenceVerdictFailed (pre ++ l) f'.
Proof.
  revert pre s f. induction l as [|x l IH]; intros pre s f Hr Hs Hf; simpl.
  { intros [= <- <-]. by rewrite app_nil_r. }
  assert (Hx : 0 < classRank (oe_Class x)) by (apply Hr; left).
  assert (Hl : ranked l) by (intros y Hy; apply Hr; by right).
  pose proof (is_best_snoc _ _ _ x Hx Hs) as Hs'. pose proof (is_best_snoc _ _ _ x Hx Hf) as Hf'.
  replace (pre ++ x :: l) with ((pre ++ [x]) ++ l) by (by rewrite <- app_assoc).
  destruct (String.eqb_spec (oe_Verdict x) EvidenceVerdictSatisfied) as [Es|Es].
  - rewrite Es in Hf'. by apply (IH (pre ++ [x]) _ _ Hl Hs' Hf').
  - destruct (String.eqb (oe_Verdict x) EvidenceVerdictFailed); by apply (IH (pre ++ [x]) _ _ Hl Hs' Hf').
Qed.

Lemma is_best_nil v : is_best v [] 0.
Proof. left. split; [done|]. by intros ? ?%not_elem_of_nil. Qed.

Lemma strongestRanks_best l s f :
  ranked l -> strongestRanks l = (s, f) ->
  is_best EvidenceVerdictSatisfied l s /\ is_best EvidenceVerdictFailed l f.
Proof. intros Hr. by apply (strongestRanksFrom_best []); [|apply is_best_nil|apply is_best_nil]. Qed.

Lemma ranked_perm l l' : l ≡ₚ l' -> ranked l -> ranked l'.
Proof. intros Hp Hr f. rewrite <- Hp. apply Hr. Qed.

Lemma strongestRanks_perm l l' : l ≡ₚ l' -> ranked l -> strongestRanks l = strongestRanks l'.
Proof.
  intros Hp Hr. destruct (strongestRanks l) as [s f] eqn:E, (strongestRanks l') as [s' f'] eqn:E'.
  apply strongestRanks_best in E as [Hs Hf]; [|done].
  apply strongestRanks_best in E' as [Hs' Hf']; [|by eapply ranked_perm].
  f_equal; (eapply is_best_unique; [by eapply ranked_perm| |eassumption]; by eapply is_best_perm).
Qed.

Lemma strongestFrom_best v pre l best class :
  ranked l -> is_best v pre best -> classRank class = best -> (best = 0 -> class = ""%string) ->
  let c := strongestFrom v best class l in
  is_best v (pre ++ l) (classRank c) /\ (classRank c = 0 -> c = ""%string).
Proof.
  revert pre best class. induction l as [|x l IH]; intros pre best class Hr Hb Hc H0; simpl.
  { rewrite app_nil_r, Hc. done. }
  assert (Hx : 0 < classRank (oe_Class x)) by (apply Hr; left).
  assert (Hl : ranked l) by (intros y Hy; apply Hr; by right).
  pose proof (is_best_snoc _ _ _ x Hx Hb) as Hb'.
  replace (pre ++ x :: l) with ((pre ++ [x]) ++ l) by (by rewrite <- app_assoc).
  destruct (String.eqb (oe_Verdict x) v); simpl.
  - destruct ((best =? 0) || (classRank (oe_Class x) <? best)); apply IH; try done. lia.
  - by apply IH.
Qed.

Lemma strongest_perm v l l' : l ≡ₚ l' -> ranked l -> strongest l v = strongest l' v.
Proof.
  intros Hp Hr. unfold strongest.
  destruct (strongestFrom_best v [] l 0 "" Hr (is_best_nil v) eq_refl (fun _ => eq_refl)) as [H1 H10].
  destruct (strongestFrom_best v [] l' 0 "" (ranked_perm _ _ Hp Hr) (is_best_nil v) eq_refl (fun _ => eq_refl)) as [H2 H20].
  simpl in *. set (c := strongestFrom v 0 "" l) in *. set (c' := strongestFrom v 0 "" l') in *.
  assert (E : classRank c = classRank c').
  { eapply is_best_unique; [by eapply ranked_perm| |exact H2]. by eapply is_best_perm. }
  pose proof (classRank_range c). destruct (Z.eq_dec (classRank c) 0) as [E0|].
  - rewrite H10, H20 by congruence. done.
  - apply classRank_inj; [done|lia].
Qed.

(** ** Active facts and their grouping *)

Definition fact_ok (f : OutcomeEvidence) : bool :=
  negb (String.eqb (oe_ID f) "") && negb (String.eqb (oe_PredicateID f) "") &&
  negb (classRank (oe_Class f) =? 0) && validVerdict (oe_Verdict f).

Definition facts_ok (l : list OutcomeEvidence) : bool :=
  forallb fact_ok l && bool_decide (NoDup (List.map oe_ID l)).

Definition active_of (superseded : gset string) (l : list OutcomeEvidence) : list OutcomeEvidence :=
  List.filter (fun f => negb (bool_decide (oe_ID f ∈ superseded))) l.

Lemma fact_ok_guard f :
  String.eqb (oe_ID f) "" || String.eqb (oe_PredicateID f) "" || (classRank (oe_Class f) =? 0) ||
  negb (validVerdict (oe_Verdict f)) = negb (fact_ok f).
Proof. unfold fact_ok. by rewrite !negb_andb, !negb_involutive. Qed.

Lemma activeFacts_spec seen superseded l :
  activeFacts seen superseded l =
  if forallb fact_ok l && fresh_ids seen (List.map oe_ID l)
  then Ok (active_of superseded l) else Err ErrInvalidEvidence.
Proof.
  revert seen. induction l as [|f l IH]; intros seen.
  { cbn [List.map forallb]. by rewrite fresh_ids_nil. }
  cbn [activeFacts forallb List.map]. rewrite fresh_ids_cons, fact_ok_guard.
  destruct (fact_ok f); simpl; [|done]. destruct (bool_decide (oe_ID f ∈ seen)); simpl; [by rewrite andb_false_r|].
  rewrite IH. destruct (_ && _); [|done]. simpl. by destruct (bool_decide _).
Qed.

Definition facts_of (p : string) (l : list OutcomeEvidence) : list OutcomeEvidence :=
  List.filter (fun f => String.eqb (oe_PredicateID f) p) l.

Lemma groupByPredicate_default active p : default [] (groupByPredicate active !! p) = facts_of p active.
Proof.
  unfold groupByPredicate, facts_of. induction active as [|f l IH] using rev_ind; [done|].
  rewrite foldl_app, List.filter_app. cbn [foldl List.filter]. rewrite <- IH. set (m := foldl _ _ _).
  destruct (String.eqb_spec (oe_PredicateID f) p) as [<-|Hne].
  - by rewrite lookup_insert_eq.
  - by rewrite lookup_insert_ne, app_nil_r.
Qed.

Lemma conflict_keys_elem policy active p :
  p ∈ List.map fst (List.filter (fun '(_, grouped) => conflicting policy grouped) (map_to_list (groupByPredicate active)))
  <-> conflicting policy (facts_of p active) = true.
Proof.
  rewrite <- groupByPredicate_default, list_elem_of_In, in_map_iff. split.
  - intros ([q g] & <- & [Hin Hc]%filter_In). apply list_elem_of_In, elem_of_map_to_list in Hin. simpl. by rewrite Hin.
  - intros Hc. destruct (groupByPredicate active !! p) as [g|] eqn:E; [|done]. exists (p, g). split; [done|].
    apply filter_In. split; [|done]. by apply list_elem_of_In, elem_of_map_to_list.
Qed.

Lemma conflictPredicates_elem policy active p :
  p ∈ conflictPredicates policy (groupByPredicate active) <-> conflicting policy (facts_of p active) = true.
Proof. unfold conflictPredicates. by rewrite sort_strings_elem, conflict_keys_elem. Qed.

Lemma distinctPredicates_elem seen l p :
  p ∈ distinctPredicates seen l <-> p ∈ List.map TrimSpace l /\ p <> ""%string /\ p ∉ seen.
Proof.
  revert seen. induction l as [|v l IH]; intros seen; simpl.
  { split; [by intros ?%not_elem_of_nil|by intros [?%not_elem_of_nil _]]. }
  rewrite elem_of_cons. destruct (String.eqb_spec (TrimSpace v) "") as [E|E].
  { rewrite IH, E. naive_solver. }
  case_bool_decide as Hs; [rewrite IH; naive_solver|].
  rewrite elem_of_cons, IH, elem_of_union, elem_of_singleton.
  destruct (decide (p = TrimSpace v)); naive_solver.
Qed.

Lemma canonicalPredicates_elem l p :
  p ∈ canonicalPredicates l <-> p ∈ List.map TrimSpace l /\ p <> ""%string.
Proof. unfold canonicalPredicates. rewrite sort_strings_elem, distinctPredicates_elem. set_solver. Qed.

(** ** The specification *)

Definition with_verdict (active : list OutcomeEvidence) (p v : string) (f : OutcomeEvidence) : Prop :=
  f ∈ active /\ oe_PredicateID f = p /\ oe_Verdict f = v.

(** A satisfied fact within the success ceiling, stronger than every failed one. *)
Definition proves (policy : Policy) (active : list OutcomeEvidence) (p : string) : Prop :=
  exists s, with_verdict active p EvidenceVerdictSatisfied s /\
    classRank (oe_Class s) <= classRank (pol_SuccessClassCeiling policy) /\
    forall f, with_verdict active p EvidenceVerdictFailed f -> classRank (oe_Class s) < classRank (oe_Class f).

(** A failed fact within the failure ceiling, stronger than every satisfied one. *)
Definition refutes (policy : Policy) (active : list OutcomeEvidence) (p : string) : Prop :=
  exists f, with_verdict active p EvidenceVerdictFailed f /\
    classRank (oe_Class f) <= classRank (pol_FailureClassCeiling policy) /\
    forall s, with_verdict active p EvidenceVerdictSatisfied s -> classRank (oe_Class f) < classRank (oe_Class s).

(** The strongest satisfied and the strongest failed fact tie within the conflict ceiling. *)
Definition disputed (policy : Policy) (active : list OutcomeEvidence) (p : string) : Prop :=
  exists s f, with_verdict active p EvidenceVerdictSatisfied s /\ with_verdict active p EvidenceVerdictFailed f /\
    classRank (oe_Class s) = classRank (oe_Class f) /\
    classRank (oe_Class s) <= classRank (pol_StrongConflictCeiling policy) /\
    (forall g, with_verdict active p EvidenceVerdictSatisfied g -> classRank (oe_Class s) <= classRank (oe_Class g)) /\
    (forall g, with_verdict active p EvidenceVerdictFailed g -> classRank (oe_Class f) <= classRank (oe_Class g)).

Lemma facts_of_elem p l f : f ∈ facts_of p l <-> f ∈ l /\ oe_PredicateID f = p.
Proof. unfold facts_of. by rewrite !list_elem_of_In, filter_In, String.eqb_eq. Qed.

(** The two ranks the code compares, and what their comparisons mean. *)
Lemma predicate_ranks active p s f :
  ranked active -> strongestRanks (facts_of p active) = (s, f) ->
  ((s = 0 /\ forall g, ~ with_verdict active p EvidenceVerdictSatisfied g) \/
   (0 < s /\ (exists g, with_verdict active p EvidenceVerdictSatisfied g /\ classRank (oe_Class g) = s) /\
    forall g, with_verdict active p EvidenceVerdictSatisfied g -> s <= classRank (oe_Class g))) /\
  ((f = 0 /\ forall g, ~ with_verdict active p EvidenceVerdictFailed g) \/
   (0 < f /\ (exists g, with_verdict active p EvidenceVerdictFailed g /\ classRank (oe_Class g) = f) /\
    forall g, with_verdict active p EvidenceVerdictFailed g -> f <= classRank (oe_Class g))).
Proof.
  intros Hr Hs. assert (Hrp : ranked (facts_of p active)) by (intros g [Hg _]%facts_of_elem; by apply Hr).
  apply strongestRanks_best in Hs as [Hs Hf]; [|done]. unfold is_best in Hs, Hf.
  setoid_rewrite facts_of_elem in Hs. setoid_rewrite facts_of_elem in Hf.
  unfold with_verdict. split; [clear Hf|clear Hs]; naive_solver.
Qed.

Ltac ranks_of active p :=
  destruct (strongestRanks (facts_of p active)) as [s f] eqn:Eranks;
  match goal with Hr : ranked active |- _ =>
    destruct (predicate_ranks active p s f Hr Eranks) as [Hsat Hfail] end.

Lemma conflicting_iff policy active p :
  ranked active -> conflicting policy (facts_of p active) = true <-> disputed policy active p.
Proof.
  intros Hr. unfold conflicting, disputed. ranks_of active p. autorewrite with goboolsimpl. split.
  - intros [[Hs0 ->] Hle]. destruct Hsat as [[? _]|(_ & (g & Hg & <-) & Hmin)]; [done|].
    destruct Hfail as [[? _]|(_ & (h & Hh & Heq) & Hminf)]; [done|]. exists g, h. split_and!; try done. intros x Hx. rewrite Heq. by apply Hminf.
  - intros (g & h & Hg & Hh & Heq & Hle & Hmin & Hminf).
    destruct Hsat as [[_ Hn]|(Hs & (g' & Hg' & <-) & Hmin')]; [by destruct (Hn g)|].
    destruct Hfail as [[_ Hn]|(Hf & (h' & Hh' & <-) & Hminf')]; [by destruct (Hn h)|].
    specialize (Hmin _ Hg'). specialize (Hminf _ Hh'). specialize (Hmin' _ Hg). specialize (Hminf' _ Hh). lia.
Qed.

(** The tests of the loop body on one predicate. *)
Definition step_verified (policy : Policy) (grouped : list OutcomeEvidence) : bool :=
  let '(satisfied, failed) := strongestRanks grouped in
  negb ((satisfied =? 0) || (negb (failed =? 0) && (failed <=? satisfied)) ||
        (classRank (pol_SuccessClassCeiling policy) <? satisfied)).

Definition step_failure (policy : Policy) (grouped : list OutcomeEvidence) : bool :=
  let '(satisfied, failed) := strongestRanks grouped in
  negb (failed =? 0) && ((satisfied =? 0) || (failed <? satisfied)) &&
  (failed <=? classRank (pol_FailureClassCeiling policy)).

Lemma step_verified_iff policy active p :
  ranked active -> step_verified policy (facts_of p active) = true <-> proves policy active p.
Proof.
  intros Hr. unfold step_verified, proves. ranks_of active p. autorewrite with goboolsimpl. split.
  - intros [[Hs0 Hf0] Hle]. destruct Hsat as [[? _]|(_ & (g & Hg & <-) & Hmin)]; [done|].
    exists g. split; [done|]. split; [lia|]. intros h Hh.
    destruct Hfail as [[_ Hn]|(? & _ & Hminf)]; [by destruct (Hn h)|]. specialize (Hminf h Hh). lia.
  - intros (g & Hg & Hle & Hlt). destruct Hsat as [[_ Hn]|(Hs & _ & Hmin)]; [by destruct (Hn g)|].
    specialize (Hmin g Hg). destruct Hfail as [[-> _]|(Hf & (h & Hh & <-) & _)]; [lia|]. specialize (Hlt h Hh). lia.
Qed.

Lemma step_failure_iff policy active p :
  ranked active -> step_failure policy (facts_of p active) = true <-> refutes policy active p.
Proof.
  intros Hr. unfold step_failure, refutes. ranks_of active p. autorewrite with goboolsimpl. split.
  - intros [[Hf0 Hs0] Hle]. destruct Hfail as [[? _]|(_ & (g & Hg & <-) & Hmin)]; [done|].
    exists g. split; [done|]. split; [lia|]. intros h Hh.
    destruct Hsat as [[_ Hn]|(? & _ & Hmins)]; [by destruct (Hn h)|]. specialize (Hmins h Hh). lia.
  - intros (g & Hg & Hle & Hlt). destruct Hfail as [[_ Hn]|(Hf & _ & Hmin)]; [by destruct (Hn g)|].
    specialize (Hmin g Hg). destruct Hsat as [[-> _]|(Hs & (h & Hh & <-) & _)]; [lia|]. specialize (Hlt h Hh). lia.
Qed.

Lemma required_fold policy m ps acc :
  let f := foldl (requiredStep policy m) acc ps in
  let grouped p := default [] (m !! p) in
  allVerified f = allVerified acc && forallb (fun p => step_verified policy (grouped p)) ps /\
  verifiedFailure f = verifiedFailure acc || existsb (fun p => step_failure policy (grouped p)) ps.
Proof.
  simpl. revert acc. induction ps as [|p ps IH]; intros acc; simpl; [by rewrite andb_true_r, orb_false_r|].
  destruct (IH (requiredStep policy m acc p)) as [-> ->].
  unfold requiredStep, step_verified, step_failure.
  destruct (strongestRanks (default [] (m !! p))) as [s f].
  destruct (_ || (classRank (pol_SuccessClassCeiling policy) <? s)); simpl; split;
    rewrite ?andb_assoc, ?orb_assoc, ?andb_false_r, ?andb_true_r; done.
Qed.

Lemma requiredStep_ext policy m m' acc p :
  strongestRanks (default [] (m !! p)) = strongestRanks (default [] (m' !! p)) ->
  requiredStep policy m acc p = requiredStep policy m' acc p.
Proof. intros E. unfold requiredStep. by rewrite E. Qed.

Lemma facts_of_perm p l l' : l ≡ₚ l' -> facts_of p l ≡ₚ facts_of p l'.
Proof. intros Hp. unfold facts_of. induction Hp; simpl; repeat case_match; eauto using Permutation. Qed.

Lemma active_of_perm superseded l l' : l ≡ₚ l' -> active_of superseded l ≡ₚ active_of superseded l'.
Proof. intros Hp. unfold active_of. induction Hp; simpl; repeat case_match; eauto using Permutation. Qed.

Lemma conflictPredicates_NoDup policy (m : gmap string (list OutcomeEvidence)) :
  NoDup (List.map fst (List.filter (fun '(_, grouped) => conflicting policy grouped) (map_to_list m))).
Proof. apply NoDup_map_filter. exact (NoDup_fst_map_to_list m). Qed.

Lemma facts_ok_ranked l superseded : facts_ok l = true -> ranked (active_of superseded l).
Proof.
  unfold facts_ok. rewrite andb_true_iff, forallb_forall. intros [Hall _] f Hf.
  apply list_elem_of_In, filter_In in Hf as [Hf _]. specialize (Hall f Hf). unfold fact_ok in Hall.
  autorewrite with goboolsimpl in Hall. pose proof (classRank_range (oe_Class f)). lia.
Qed.

(** [Evaluate] after its checks, as a function of the active facts. *)
Definition evaluate_active (policy : Policy) (active : list OutcomeEvidence) : Result :=
  let sat := strongest active EvidenceVerdictSatisfied in
  let byPredicate := groupByPredicate active in
  let conflicts := conflictPredicates policy byPredicate in
  let finish state promote missing reasons :=
    mk_Result state promote (pol_Version policy) sat (strongest active EvidenceVerdictFailed) conflicts missing reasons in
  let f := foldl (requiredStep policy byPredicate) (mk_flags true false false [])
             (canonicalPredicates (pol_RequiredPredicates policy)) in
  if negb (no_values conflicts)
  then finish OutcomeStateInconclusive false [] ["conflicting strong evidence"%string]
  else if verifiedFailure f
  then finish OutcomeStateVerifiedFailure false (missing f) ["required predicate failed with qualifying evidence"%string]
  else if allVerified f then finish OutcomeStateVerifiedSuccess true (missing f) []
  else if anySatisfied f || negb (String.eqb sat "")
  then finish OutcomeStateProvisionalSuccess false (missing f) ["goal proof is incomplete"%string]
  else finish OutcomeStateInconclusive false (missing f) ["evidence is missing or below verification threshold"%string].

Lemma Evaluate_cases policy facts superseded :
  Evaluate policy facts superseded =
  if validatePolicy policy then
    if facts_ok facts then Ok (evaluate_active policy (active_of superseded facts)) else Err ErrInvalidEvidence
  else Err ErrInvalidEvidencePolicy.
Proof.
  unfold Evaluate. destruct (validatePolicy policy); simpl; [|done].
  rewrite activeFacts_spec, fresh_ids_empty. fold (facts_ok facts). destruct (facts_ok facts); simpl; [|done].
  unfold evaluate_active. by repeat case_match.
Qed.

Lemma evaluate_active_perm policy active active' :
  ranked active -> active ≡ₚ active' -> evaluate_active policy active = evaluate_active policy active'.
Proof.
  intros Hr Hp. unfold evaluate_active.
  assert (Hranks : forall p, strongestRanks (default [] (groupByPredicate active !! p)) =
                             strongestRanks (default [] (groupByPredicate active' !! p))).
  { intros p. rewrite !groupByPredicate_default. apply strongestRanks_perm; [by apply facts_of_perm|].
    intros f [Hf _]%facts_of_elem. by apply Hr. }
  rewrite !(strongest_perm _ _ _ Hp Hr).
  assert (Hc : conflictPredicates policy (groupByPredicate active) = conflictPredicates policy (groupByPredicate active')).
  { apply sort_strings_same_elem; [apply conflictPredicates_NoDup..|]. intros p.
    rewrite !conflict_keys_elem. unfold conflicting. rewrite <- !groupByPredicate_default. by rewrite Hranks. }
  assert (Hf : forall ps acc, foldl (requiredStep policy (groupByPredicate active)) acc ps =
                              foldl (requiredStep policy (groupByPredicate active')) acc ps).
  { induction ps as [|p ps IH]; intros acc; simpl; [done|]. by rewrite (requiredStep_ext _ _ _ _ _ (Hranks p)), IH. }
  by rewrite Hc, Hf.
Qed.

Lemma no_conflicts policy active :
  ranked active ->
  no_values (conflictPredicates policy (groupByPredicate active)) = true <-> forall p, ~ disputed policy active p.
Proof.
  intros Hr. setoid_rewrite <- (conflicting_iff policy active _ Hr). setoid_rewrite <- conflictPredicates_elem.
  destruct (conflictPredicates policy (groupByPredicate active)) as [|q l]; simpl.
  - split; [intros _ p; apply not_elem_of_nil|done].
  - split; [done|]. intros Hn. destruct (Hn q). left.
Qed.

Lemma flags_iff policy active :
  ranked active ->
  let f := foldl (requiredStep policy (groupByPredicate active)) (mk_flags true false false [])
             (canonicalPredicates (pol_RequiredPredicates policy)) in
  (allVerified f = true <-> forall p, p ∈ canonicalPredicates (pol_RequiredPredicates policy) -> proves policy active p) /\
  (verifiedFailure f = true <-> exists p, p ∈ canonicalPredicates (pol_RequiredPredicates policy) /\ refutes policy active p).
Proof.
  intros Hr. simpl.
  destruct (required_fold policy (groupByPredicate active) (canonicalPredicates (pol_RequiredPredicates policy))
    (mk_flags true false false [])) as [-> ->]. simpl. rewrite forallb_forall, existsb_exists.
  setoid_rewrite groupByPredicate_default. setoid_rewrite (step_verified_iff policy active _ Hr).
  setoid_rewrite (step_failure_iff policy active _ Hr). setoid_rewrite <- list_elem_of_In. done.
Qed.

Lemma proves_not_refutes policy active p : proves policy active p -> ~ refutes policy active p.
Proof. intros (s & Hs & _ & Hlt) (f & Hf & _ & Hlt'). specialize (Hlt f Hf). specialize (Hlt' s Hs). lia. Qed.

Lemma evaluate_active_success policy active :
  ranked active ->
  er_State (evaluate_active policy active) = OutcomeStateVerifiedSuccess <->
  (forall p, ~ disputed policy active p) /\
  (forall p, p ∈ canonicalPredicates (pol_RequiredPredicates policy) -> proves policy active p).
Proof.
  intros Hr. destruct (flags_iff policy active Hr) as [Hv Hf]. rewrite <- (no_conflicts _ _ Hr).
  unfold evaluate_active. destruct (no_values _) eqn:Ec; simpl; [|split; [done|by intros [? _]]].
  destruct (verifiedFailure _) eqn:Ef; simpl.
  { split; [done|]. intros [_ Hall]. destruct (proj1 Hf eq_refl) as (p & Hp & Href).
    by destruct (proves_not_refutes policy active p (Hall p Hp)). }
  destruct (allVerified _) eqn:Ev; simpl; [split; [|done]; intros _; split; [done|by apply Hv]|].
  assert (Hn : ~ forall p, p ∈ canonicalPredicates (pol_RequiredPredicates policy) -> proves policy active p)
    by (rewrite <- Hv; done).
  destruct (_ || _); simpl; (split; [done|by intros [_ ?]]).
Qed.

Lemma evaluate_active_failure policy active :
  ranked active ->
  er_State (evaluate_active policy active) = OutcomeStateVerifiedFailure <->
  (forall p, ~ disputed policy active p) /\
  (exists p, p ∈ canonicalPredicates (pol_RequiredPredicates policy) /\ refutes policy active p).
Proof.
  intros Hr. destruct (flags_iff policy active Hr) as [Hv Hf]. rewrite <- (no_conflicts _ _ Hr), <- Hf.
  unfold evaluate_active. destruct (no_values _) eqn:Ec; simpl; [|split; [done|by intros [? _]]].
  destruct (verifiedFailure _) eqn:Ef; simpl; [done|].
  destruct (allVerified _); simpl; [split; [done|by intros [_ ?]]|].
  destruct (_ || _); simpl; (split; [done|by intros [_ ?]]).
Qed.

(** C3: An outcome is a verified success exactly when no predicate is disputed
    by equally strong evidence and every required predicate is proved by
    qualifying evidence stronger than all its failures; it is a verified failure
    exactly when no predicate is disputed and some required predicate is refuted;
    only a verified success is eligible for promotion. *)
Theorem Evaluate_verified_iff (policy : Policy) (facts : list OutcomeEvidence) (superseded : gset string) (r : Result) :
  Evaluate policy facts superseded = Ok r ->
  let active := active_of superseded facts in
  let required p := p ∈ List.map TrimSpace (pol_RequiredPredicates policy) /\ p <> ""%string in
  (er_State r = OutcomeStateVerifiedSuccess <->
   (forall p, ~ disputed policy active p) /\ (forall p, required p -> proves policy active p)) /\
  (er_State r = OutcomeStateVerifiedFailure <->
   (forall p, ~ disputed policy active p) /\ (exists p, required p /\ refutes policy active p)) /\
  (er_PromotionEligible r = true <-> er_State r = OutcomeStateVerifiedSuccess).
Proof.
  rewrite Evaluate_cases. destruct (validatePolicy policy); [|done]. destruct (facts_ok facts) eqn:Hok; [|done].
  intros [= <-]. simpl. pose proof (facts_ok_ranked _ superseded Hok) as Hr.
  assert (Hp : er_PromotionEligible (evaluate_active policy (active_of superseded facts)) = true <->
    er_State (evaluate_active policy (active_of superseded facts)) = OutcomeStateVerifiedSuccess)
    by (unfold evaluate_active; repeat case_match; done).
  split; [|split]; [| |exact Hp]; rewrite ?evaluate_active_success, ?evaluate_active_failure by done;
    by setoid_rewrite canonicalPredicates_elem.
Qed.

(** The evaluation, errors included, does not depend on the order of the evidence. *)
Theorem Evaluate_permutation (policy : Policy) (facts facts' : list OutcomeEvidence) (superseded : gset string) :
  facts ≡ₚ facts' -> Evaluate policy facts superseded = Evaluate policy facts' superseded.
Proof.
  intros Hp. rewrite !Evaluate_cases. destruct (validatePolicy policy); [|done].
  assert (Hf : facts_ok facts = facts_ok facts').
  { unfold facts_ok. rewrite (forallb_perm _ _ _ Hp). f_equal. apply NoDup_bool_perm. by apply Permutation_map. }
  rewrite <- Hf. destruct (facts_ok facts) eqn:Hok; [|done]. f_equal.
  apply evaluate_active_perm; [by apply facts_ok_ranked|by apply active_of_perm].
Qed.

(** A fact too weak for the success ceiling and for the conflict ceiling. *)
Definition below_ceilings (policy : Policy) (f : OutcomeEvidence) : Prop :=
  classRank (pol_SuccessClassCeiling policy) < classRank (oe_Class f) /\
  classRank (pol_StrongConflictCeiling policy) < classRank (oe_Class f).

Lemma with_verdict_snoc active p v w f :
  with_verdict (active ++ [w]) p v f <-> with_verdict active p v f \/ (f = w /\ oe_PredicateID w = p /\ oe_Verdict w = v).
Proof. unfold with_verdict. rewrite elem_of_app, list_elem_of_singleton. naive_solver. Qed.

Lemma proves_weak policy active w p :
  below_ceilings policy w -> proves policy (active ++ [w]) p -> proves policy active p.
Proof.
  intros Hw (s & [Hs|(-> & _)]%with_verdict_snoc & Hle & Hlt); [|unfold below_ceilings in Hw; lia].
  exists s. split; [done|]. split; [done|]. intros f Hf. apply Hlt, with_verdict_snoc. by left.
Qed.

Lemma disputed_weak policy active w p :
  below_ceilings policy w -> disputed policy active p -> disputed policy (active ++ [w]) p.
Proof.
  intros [_ Hw] (s & f & Hs & Hf & Heq & Hle & Hmin & Hminf).
  exists s, f. rewrite !with_verdict_snoc. split; [by left|]. split; [by left|]. split_and!; try done.
  - intros g [Hg|(-> & _)]%with_verdict_snoc; [by apply Hmin|lia].
  - intros g [Hg|(-> & _)]%with_verdict_snoc; [by apply Hminf|lia].
Qed.

Lemma facts_ok_app l l' : facts_ok (l ++ l') = true -> facts_ok l = true.
Proof.
  unfold facts_ok. rewrite !andb_true_iff, forallb_app, andb_true_iff, !bool_decide_eq_true.
  intros [[H1 _] H2]. split; [done|]. rewrite map_app in H2. by apply NoDup_app in H2 as [? _].
Qed.

(** Weak evidence never creates a verified success: when a fact is below
    the success and the conflict ceilings, an outcome that is a verified success
    with it is one without it. *)
Theorem Evaluate_weak_evidence (policy : Policy) (facts : list OutcomeEvidence) (w : OutcomeEvidence)
    (superseded : gset string) (r : Result) :
  below_ceilings policy w ->
  Evaluate policy (facts ++ [w]) superseded = Ok r -> er_State r = OutcomeStateVerifiedSuccess ->
  exists r', Evaluate policy facts superseded = Ok r' /\ er_State r' = OutcomeStateVerifiedSuccess.
Proof.
  intros Hw. rewrite !Evaluate_cases. destruct (validatePolicy policy); [|done].
  destruct (facts_ok (facts ++ [w])) eqn:Hok; [|done]. intros [= <-].
  pose proof (facts_ok_ranked _ superseded Hok) as Hr. pose proof (facts_ok_app _ _ Hok) as Hok'.
  pose proof (facts_ok_ranked _ superseded Hok') as Hr'. rewrite Hok'.
  rewrite (evaluate_active_success _ _ Hr). intros [Hd Hp]. eexists. split; [done|].
  rewrite (evaluate_active_success _ _ Hr'). unfold active_of in *. rewrite List.filter_app in Hd, Hp. simpl in Hd, Hp.
  destruct (negb (bool_decide (oe_ID w ∈ superseded))); [|by rewrite app_nil_r in Hd, Hp]. split.
  - intros p Hdis. by apply (Hd p), disputed_weak.
  - intros p Hin. by eapply proves_weak, Hp.
Qed.

(** ** Canonical outcomes *)
Section canonical_outcome.
Context `{JCS} `{Digest}.

Definition outcomeSchemaVersion : string := "outcome.v1".

Definition evidenceIdentity_json (tenantID traceID : string) (e : OutcomeEvidence) : json :=
  JObj (fstr "tenant_id" tenantID ++ fstr "trace_id" traceID ++ fld "evidence" (evidence_json e)).

Definition without_id (e : OutcomeEvidence) : OutcomeEvidence :=
  mk_OutcomeEvidence "" (oe_ClientEvidenceID e) (oe_Class e) (oe_Verdict e) (oe_PredicateID e) (oe_VerifierID e)
    (oe_VerifierVersion e) (oe_ObservedAt e) (oe_Fields e).

Definition outcomeIdentity_json (o : CanonicalOutcome) (facts : list OutcomeEvidence) : json :=
  JObj (fstr "tenant_id" (co_TenantID o) ++ fstr "trace_id" (co_TraceID o) ++
        fstr_omit "execution_id" (co_ExecutionID o) ++ fstr_omit "selection_id" (co_SelectionID o) ++
        fstr_omit "injection_id" (co_InjectionID o) ++ fstr_omit "task_execution_id" (co_TaskExecutionID o) ++
        fstr_omit "supersedes_outcome_id" (co_SupersedesOutcomeID o) ++
        fstr_omit "correction_reason" (co_CorrectionReason o) ++ farr "evidence" (List.map evidence_json facts)).

(** The hash of a value, when it can be encoded. *)
Definition hash_is (prefix id : string) (value : json) : bool :=
  match MarshalAndHash value with
  | Ok (_, hash) => String.eqb id (prefix ++ hash)
  | Err _ => false
  end.

Definition fact_id_ok (o : CanonicalOutcome) (source : OutcomeEvidence) : bool :=
  hash_is "oe_" (oe_ID source) (evidenceIdentity_json (co_TenantID o) (co_TraceID o) (without_id source)).

Definition evidence_id_less (l r : OutcomeEvidence) : bool := str_ltb (oe_ID l) (oe_ID r).

(** [VerifyCanonical]: [true] when it returns no error. *)
Definition VerifyCanonical (o : CanonicalOutcome) : bool :=
  if negb (String.eqb (co_SchemaVersion o) outcomeSchemaVersion) || String.eqb (co_TenantID o) "" ||
     String.eqb (co_TraceID o) "" || no_values (co_Evidence o) then false
  else if negb (forallb (fact_id_ok o) (co_Evidence o)) then false
  else
    let facts := sort_slice evidence_id_less (co_Evidence o) in
    if negb (bool_decide (List.map oe_ID facts = List.map oe_ID (co_Evidence o))) then false
    else if negb (hash_is "out_" (co_ID o) (outcomeIdentity_json o facts)) then false
    else match MarshalAndHash (outcome_json o) with
         | Ok (encoded, hash) => String.eqb hash (co_Hash o) && String.eqb encoded (co_CanonicalJSON o)
         | Err _ => false
         end.

Lemma hash_is_spec prefix id v :
  hash_is prefix id v = true -> exists c, MarshalAndHash v = Ok (c, sum256_hex c) /\ id = (prefix ++ sum256_hex c)%string.
Proof.
  unfold hash_is. destruct (MarshalAndHash v) as [[c h]|] eqn:E; [|done]. intros ->%String.eqb_eq.
  pose proof (MarshalAndHash_digest _ _ _ E) as ->. by exists c.
Qed.

(** A verified outcome has its evidence in ascending order of identifier,
    its hash is the digest of its canonical bytes, and its identifiers are
    digests of the outcome and of each fact within its tenant and trace. *)
Theorem VerifyCanonical_sound (o : CanonicalOutcome) :
  VerifyCanonical o = true ->
  StronglySorted (cmp_le String.compare) (List.map oe_ID (co_Evidence o)) /\
  co_Hash o = sum256_hex (co_CanonicalJSON o) /\
  (exists c, MarshalAndHash (outcomeIdentity_json o (sort_slice evidence_id_less (co_Evidence o))) = Ok (c, sum256_hex c) /\
             co_ID o = ("out_" ++ sum256_hex c)%string) /\
  (forall e, e ∈ co_Evidence o -> exists c,
     MarshalAndHash (evidenceIdentity_json (co_TenantID o) (co_TraceID o) (without_id e)) = Ok (c, sum256_hex c) /\
     oe_ID e = ("oe_" ++ sum256_hex c)%string).
Proof.
  unfold VerifyCanonical. destruct (_ || no_values _); [done|].
  destruct (forallb _ _) eqn:Ef; simpl; [|done]. case_bool_decide as Eids; simpl; [|done].
  destruct (hash_is "out_" _ _) eqn:Eid; simpl; [|done].
  destruct (MarshalAndHash (outcome_json o)) as [[enc h]|] eqn:Em; [|done].
  rewrite andb_true_iff, !String.eqb_eq. intros [<- <-]. split.
  { rewrite <- Eids. apply StronglySorted_on. apply (sort_slice_sorted (cmp_on oe_ID String.compare)). }
  split; [by eapply MarshalAndHash_digest|]. split; [by apply hash_is_spec|].
  intros e He. apply hash_is_spec. rewrite forallb_forall in Ef. by apply Ef, list_elem_of_In.
Qed.

End canonical_outcome.

(** ** Witnesses *)
Section evidence_witnesses.
#[local] Existing Instance copy_jcs.
#[local] Existing Instance checksum_digest.

Definition sample_policy : Policy :=
  mk_Policy "p1" ["goal "; "build"]%string EvidenceClassHarnessAssertion EvidenceClassHarnessAssertion
    EvidenceClassGoalPredicate.

Definition sample_fact (id class verdict predicate : string) : OutcomeEvidence :=
  mk_OutcomeEvidence id id class verdict predicate "v" "" "t" [].

Definition sample_facts : list OutcomeEvidence :=
  [sample_fact "e1" EvidenceClassIndependentVerifier EvidenceVerdictSatisfied "goal";
   sample_fact "e2" EvidenceClassGoalPredicate EvidenceVerdictFailed "goal";
   sample_fact "e3" EvidenceClassHarnessAssertion EvidenceVerdictSatisfied "build"].

Definition self_report : OutcomeEvidence :=
  sample_fact "e4" EvidenceClassExitStatusOrSelfReport EvidenceVerdictSatisfied "build".

Definition sample_outcome_of (facts : list OutcomeEvidence) : Result :=
  match Evaluate sample_policy facts ∅ with Ok r => r | Err _ => mk_Result "" false "" "" "" [] [] [] end.

Lemma Evaluate_verified_iff_witness :
  er_State (sample_outcome_of sample_facts) = OutcomeStateVerifiedSuccess /\
  proves sample_policy sample_facts "goal".
Proof.
  split; [vm_compute; reflexivity|].
  destruct (Evaluate_verified_iff sample_policy sample_facts ∅ (sample_outcome_of sample_facts)) as ([Hs _] & _).
  - vm_compute. reflexivity.
  - apply Hs; [vm_compute; reflexivity|]. split; [|discriminate]. left.
Defined.

Lemma Evaluate_permutation_witness :
  Evaluate sample_policy sample_facts ∅ = Evaluate sample_policy (rev sample_facts) ∅.
Proof. apply Evaluate_permutation. apply Permutation_rev. Defined.

Lemma Evaluate_weak_evidence_witness :
  exists r, Evaluate sample_policy sample_facts ∅ = Ok r /\ er_State r = OutcomeStateVerifiedSuccess.
Proof.
  apply (Evaluate_weak_evidence sample_policy sample_facts self_report ∅ (sample_outcome_of (sample_facts ++ [self_report]))).
  - vm_compute. done.
  - vm_compute. reflexivity.
  - vm_compute. reflexivity.
Defined.

(** An outcome sealed with the identifiers that the code derives. *)
Definition seal_fact (tenant trace : string) (e : OutcomeEvidence) : OutcomeEvidence :=
  match MarshalAndHash (evidenceIdentity_json tenant trace (without_id e)) with
  | Ok (_, h) => mk_OutcomeEvidence ("oe_" ++ h) (oe_ClientEvidenceID e) (oe_Class e) (oe_Verdict e)
                   (oe_PredicateID e) (oe_VerifierID e) (oe_VerifierVersion e) (oe_ObservedAt e) (oe_Fields e)
  | Err _ => e
  end.

Definition bare_outcome (id hash encoded : string) : CanonicalOutcome :=
  mk_CanonicalOutcome "outcome.v1" id "t" "r" "" "" "" "" "" ""
    [seal_fact "t" "r" (sample_fact "" EvidenceClassGoalPredicate EvidenceVerdictSatisfied "g")] hash encoded.

Definition sample_outcome : CanonicalOutcome :=
  let o := bare_outcome "" "" "" in
  match MarshalAndHash (outcomeIdentity_json o (co_Evidence o)) with
  | Ok (_, h) =>
      let o := bare_outcome ("out_" ++ h) "" "" in
      match MarshalAndHash (outcome_json o) with
      | Ok (enc, h') => bare_outcome ("out_" ++ h) h' enc
      | Err _ => o
      end
  | Err _ => o
  end.

Lemma VerifyCanonical_sound_witness : co_Hash sample_outcome = sum256_hex (co_CanonicalJSON sample_outcome).
Proof.
  apply (VerifyCanonical_sound sample_outcome). vm_compute. reflexivity.
Defined.

End evidence_witnesses.
