(* ===== verification/Lifecycle.v ===== *)
(** * Procedure lifecycle (internal/lifecycle)

    [manifest.go]: the lifecycle policy and its content address.  [evaluate.go]:
    the decision that moves a procedure version between candidate, trial,
    active, retired and quarantined, and the integer Wilson lower bound it
    compares with the policy's thresholds. *)

From Stdlib Require Import ZArith String Ascii List Bool Lia.
From stdpp Require Import base gmap strings list sorting.
From S2P Require Import Prelude GoStrings GoTime Canonical.

Open Scope Z_scope.
Open Scope go_scope.

Definition PartsPerMillion : Z := 1000000.

Inductive State := Candidate | Trial | Active | Retired | Quarantined.

#[export] Instance State_eq_dec : EqDecision State.
Proof. solve_decision. Defined.

Definition state_string (s : State) : string :=
  match s with
  | Candidate => "candidate"
  | Trial => "trial"
  | Active => "active"
  | Retired => "retired"
  | Quarantined => "quarantined"
  end.

(** The struct fields hold strings; [validState] accepts those that name a state. *)
Definition parse_state (s : string) : option State :=
  if String.eqb s "candidate" then Some Candidate
  else if String.eqb s "trial" then Some Trial
  else if String.eqb s "active" then Some Active
  else if String.eqb s "retired" then Some Retired
  else if String.eqb s "quarantined" then Some Quarantined
  else None.

Definition validState (value : string) : bool :=
  match parse_state value with Some _ => true | None => false end.

Record PolicySpec := mk_PolicySpec {
  lp_Version : string;
  lp_WilsonZSquaredPPM : Z;
  lp_TrialMinimumCausalSamples : Z;
  lp_TrialMinimumWilsonLowerBoundPPM : Z;
  lp_ActiveMinimumCausalSamples : Z;
  lp_ActiveMinimumWilsonLowerBoundPPM : Z;
  lp_TrialUnsafeOutcomeCeiling : Z;
  lp_ActiveUnsafeOutcomeCeiling : Z;
  lp_ImmediateQuarantineUnsafeCount : Z;
  lp_EvidenceFreshnessSeconds : Z;
  lp_MinimumTrialSeconds : Z
}.

Record PolicyManifest := mk_PolicyManifest {
  lm_SchemaVersion : string;
  lm_Spec : PolicySpec;
  lm_ID : string;
  lm_ContentHash : string;
  lm_CanonicalJSON : string
}.

Definition policy_fields (s : PolicySpec) : list (string * json) :=
  fstr "version" (lp_Version s) ++ fnum "wilson_z_squared_ppm" (lp_WilsonZSquaredPPM s) ++
  fnum "trial_minimum_causal_samples" (lp_TrialMinimumCausalSamples s) ++
  fnum "trial_minimum_wilson_lower_bound_ppm" (lp_TrialMinimumWilsonLowerBoundPPM s) ++
  fnum "active_minimum_causal_samples" (lp_ActiveMinimumCausalSamples s) ++
  fnum "active_minimum_wilson_lower_bound_ppm" (lp_ActiveMinimumWilsonLowerBoundPPM s) ++
  fnum "trial_unsafe_outcome_ceiling" (lp_TrialUnsafeOutcomeCeiling s) ++
  fnum "active_unsafe_outcome_ceiling" (lp_ActiveUnsafeOutcomeCeiling s) ++
  fnum "immediate_quarantine_unsafe_count" (lp_ImmediateQuarantineUnsafeCount s) ++
  fnum "evidence_freshness_seconds" (lp_EvidenceFreshnessSeconds s) ++
  fnum "minimum_trial_seconds" (lp_MinimumTrialSeconds s).

Definition manifest_json (schema : string) (s : PolicySpec) : json :=
  JObj (fstr "schema_version" schema ++ policy_fields s).

Definition maximumPolicyWindowSeconds : Z := 10 * 366 * 24 * 60 * 60.

Definition validPolicy (s : PolicySpec) : bool :=
  tokenPattern (lp_Version s) &&
  (0 <? lp_WilsonZSquaredPPM s) && (lp_WilsonZSquaredPPM s <=? 25 * PartsPerMillion) &&
  (0 <? lp_TrialMinimumCausalSamples s) && (lp_TrialMinimumCausalSamples s <=? lp_ActiveMinimumCausalSamples s) &&
  (lp_TrialMinimumWilsonLowerBoundPPM s <=? PartsPerMillion) &&
  (lp_ActiveMinimumWilsonLowerBoundPPM s <=? PartsPerMillion) &&
  (lp_TrialMinimumWilsonLowerBoundPPM s <=? lp_ActiveMinimumWilsonLowerBoundPPM s) &&
  (0 <? lp_ImmediateQuarantineUnsafeCount s) &&
  (lp_TrialUnsafeOutcomeCeiling s <? lp_ImmediateQuarantineUnsafeCount s) &&
  (lp_ActiveUnsafeOutcomeCeiling s <? lp_ImmediateQuarantineUnsafeCount s) &&
  (0 <? lp_EvidenceFreshnessSeconds s) && (lp_EvidenceFreshnessSeconds s <=? maximumPolicyWindowSeconds) &&
  (0 <? lp_MinimumTrialSeconds s) && (lp_MinimumTrialSeconds s <=? maximumPolicyWindowSeconds).

Record Evidence := mk_Evidence {
  ev_CausalSuccessCount : Z;
  ev_CausalFailureCount : Z;
  ev_AssociatedSuccessCount : Z;
  ev_AssociatedFailureCount : Z;
  ev_UnsafeOutcomeCount : Z;
  ev_LatestCausalAt : gotime;
  ev_TrialStartedAt : gotime;
  ev_QuarantineTriggers : list string
}.

Record EvaluationRequest := mk_EvaluationRequest {
  rq_TenantID : string;
  rq_ProcedureID : string;
  rq_ProcedureVersionID : string;
  rq_PriorState : string;
  rq_Manifest : PolicyManifest;
  rq_Evidence : Evidence;
  rq_EvidenceCutoffAt : gotime;
  rq_EvaluatedAt : gotime
}.

Record Decision := mk_Decision {
  dc_SchemaVersion : string;
  dc_ID : string;
  dc_TenantID : string;
  dc_ProcedureID : string;
  dc_ProcedureVersionID : string;
  dc_PolicyManifestID : string;
  dc_PriorState : string;
  dc_NextState : string;
  dc_CausalSuccessCount : Z;
  dc_CausalFailureCount : Z;
  dc_AssociatedSuccessCount : Z;
  dc_AssociatedFailureCount : Z;
  dc_UnsafeOutcomeCount : Z;
  dc_WilsonLowerBoundPPM : Z;
  dc_ReasonCodes : list string;
  dc_EvidenceCutoffAt : gotime;
  dc_EvaluatedAt : gotime;
  dc_ContentHash : string;
  dc_CanonicalJSON : string
}.

Definition decision_json (d : Decision) : json :=
  JObj (fstr "schema_version" (dc_SchemaVersion d) ++ fstr "lifecycle_decision_id" (dc_ID d) ++
        fstr "tenant_id" (dc_TenantID d) ++ fstr "procedure_id" (dc_ProcedureID d) ++
        fstr "procedure_version_id" (dc_ProcedureVersionID d) ++
        fstr "lifecycle_policy_manifest_id" (dc_PolicyManifestID d) ++
        fstr "prior_state" (dc_PriorState d) ++ fstr "next_state" (dc_NextState d) ++
        fnum "causal_success_count" (dc_CausalSuccessCount d) ++
        fnum "causal_failure_count" (dc_CausalFailureCount d) ++
        fnum "associated_success_count" (dc_AssociatedSuccessCount d) ++
        fnum "associated_failure_count" (dc_AssociatedFailureCount d) ++
        fnum "unsafe_outcome_count" (dc_UnsafeOutcomeCount d) ++
        fnum "wilson_lower_bound_ppm" (dc_WilsonLowerBoundPPM d) ++
        fstrs "reason_codes" (dc_ReasonCodes d) ++ ftime "evidence_cutoff_at" (dc_EvidenceCutoffAt d) ++
        ftime "evaluated_at" (dc_EvaluatedAt d) ++ fstr_omit "content_hash" (dc_ContentHash d)).

Definition ReasonCandidatePromoted : string := "candidate_promoted_to_trial".
Definition ReasonTrialPromoted : string := "trial_promoted_to_active".
Definition ReasonInsufficientSamples : string := "insufficient_causal_samples".
Definition ReasonWilsonBelowThreshold : string := "wilson_lower_bound_below_threshold".
Definition ReasonTrialDurationIncomplete : string := "minimum_trial_duration_incomplete".
Definition ReasonEvidenceStale : string := "causal_evidence_stale".
Definition ReasonUnsafeCeilingExceeded : string := "unsafe_outcome_ceiling_exceeded".
Definition ReasonImmediateQuarantine : string := "immediate_quarantine_triggered".
Definition ReasonActiveRollback : string := "active_version_rolled_back".
Definition ReasonTerminalState : string := "terminal_state_unchanged".
Definition ReasonStateMaintained : string := "state_maintained".

(** [atOrBelowWilsonLower]: the comparison in [math/big] integers. *)
Definition atOrBelowWilsonLower (m s n z : Z) : bool :=
  let q := PartsPerMillion in
  let nqPlusZ := n * q + z in
  let leftCenter := 2 * (m * nqPlusZ) in
  let rightCenter := q * (2 * (s * q) + z) in
  if rightCenter <? leftCenter then false
  else
    let term1 := n * (nqPlusZ * (m * m)) in
    let twoSQPlusZ := 2 * (s * q) + z in
    let term2 := n * (twoSQPlusZ * (m * q)) in
    let term3 := (s * s) * (q * (q * q)) in
    0 <=? term1 - term2 + term3.

(** The loop "[for lo < hi]"; [fuel] bounds its iterations. *)
Fixpoint searchLoop (fuel : nat) (pred : Z -> bool) (lo hi : Z) : option Z :=
  if lo <? hi then
    match fuel with
    | O => None
    | S fuel =>
        let mid := lo + (hi - lo + 1) / 2 in
        if pred mid then searchLoop fuel pred mid hi else searchLoop fuel pred lo (mid - 1)
    end
  else Some lo.

(** Twenty halvings exhaust the million values. *)
Definition wilson_fuel : nat := 20.

Definition WilsonLowerBoundPPM (successes samples zSquaredPPM : Z) : Z :=
  if (samples =? 0) || (samples <? successes) || (zSquaredPPM =? 0) then 0
  else default 0 (searchLoop wilson_fuel (fun m => atOrBelowWilsonLower m successes samples zSquaredPPM) 0 PartsPerMillion).

Definition reason_if (b : bool) (r : string) : list string := if b then [r] else [].

Definition thresholdReasons (samples minimum bound threshold : Z) : list string :=
  reason_if (samples <? minimum) ReasonInsufficientSamples ++
  reason_if (bound <? threshold) ReasonWilsonBelowThreshold.

Definition no_reasons (l : list string) : bool := match l with [] => true | _ => false end.

(** "[t.Add(-time.Duration(n)*time.Second)]" *)
Definition seconds_before (t : gotime) (n : Z) : gotime := time_Add t (wrap_i64 (wrap_i64 (- wrap_i64 n) * Second)).

Definition transition (r : EvaluationRequest) (prior : State) (samples bound : Z) : State * list string :=
  let e := rq_Evidence r in
  let p := lm_Spec (rq_Manifest r) in
  if bool_decide (prior = Retired) || bool_decide (prior = Quarantined) then (prior, [ReasonTerminalState])
  else if negb (no_reasons (ev_QuarantineTriggers e)) ||
          (lp_ImmediateQuarantineUnsafeCount p <=? ev_UnsafeOutcomeCount e)
  then (Quarantined, ReasonImmediateQuarantine ::
          List.map (fun trigger => ("quarantine_trigger:" ++ trigger)%string) (ev_QuarantineTriggers e))
  else
    let fresh := negb (IsZero (ev_LatestCausalAt e)) &&
      negb (Before (ev_LatestCausalAt e) (seconds_before (rq_EvidenceCutoffAt r) (lp_EvidenceFreshnessSeconds p))) in
    if bool_decide (prior = Active) then
      if negb fresh || (samples <? lp_ActiveMinimumCausalSamples p) ||
         (bound <? lp_ActiveMinimumWilsonLowerBoundPPM p) ||
         (lp_ActiveUnsafeOutcomeCeiling p <? ev_UnsafeOutcomeCount e)
      then (Retired, [ReasonActiveRollback] ++ reason_if (negb fresh) ReasonEvidenceStale ++
              reason_if (samples <? lp_ActiveMinimumCausalSamples p) ReasonInsufficientSamples ++
              reason_if (bound <? lp_ActiveMinimumWilsonLowerBoundPPM p) ReasonWilsonBelowThreshold ++
              reason_if (lp_ActiveUnsafeOutcomeCeiling p <? ev_UnsafeOutcomeCount e) ReasonUnsafeCeilingExceeded)
      else (Active, [ReasonStateMaintained])
    else if negb fresh then (prior, [ReasonEvidenceStale])
    else if bool_decide (prior = Candidate) then
      let reasons := thresholdReasons samples (lp_TrialMinimumCausalSamples p) bound (lp_TrialMinimumWilsonLowerBoundPPM p) ++
        reason_if (lp_TrialUnsafeOutcomeCeiling p <? ev_UnsafeOutcomeCount e) ReasonUnsafeCeilingExceeded in
      if negb (no_reasons reasons) then (Candidate, reasons) else (Trial, [ReasonCandidatePromoted])
    else
      let reasons := thresholdReasons samples (lp_ActiveMinimumCausalSamples p) bound (lp_ActiveMinimumWilsonLowerBoundPPM p) in
      if lp_ActiveUnsafeOutcomeCeiling p <? ev_UnsafeOutcomeCount e
      then (Candidate, [ReasonUnsafeCeilingExceeded])
      else
        let reasons := reasons ++
          reason_if (IsZero (ev_TrialStartedAt e) ||
                     After (ev_TrialStartedAt e) (seconds_before (rq_EvidenceCutoffAt r) (lp_MinimumTrialSeconds p)))
            ReasonTrialDurationIncomplete in
        if negb (no_reasons reasons) then (Trial, reasons) else (Active, [ReasonTrialPromoted]).

Definition validEvidence (value : Evidence) (cutoff : gotime) : bool :=
  negb (negb (IsZero (ev_LatestCausalAt value)) &&
        (negb (time_Equal (ev_LatestCausalAt value) (UTC (ev_LatestCausalAt value))) ||
         After (ev_LatestCausalAt value) cutoff)) &&
  negb (negb (IsZero (ev_TrialStartedAt value)) &&
        (negb (time_Equal (ev_TrialStartedAt value) (UTC (ev_TrialStartedAt value))) ||
         After (ev_TrialStartedAt value) cutoff)) &&
  tokens_from None (ev_QuarantineTriggers value).

Definition with_seal (d : Decision) (id hash encoded : string) (reasons : list string) : Decision :=
  mk_Decision (dc_SchemaVersion d) id (dc_TenantID d) (dc_ProcedureID d) (dc_ProcedureVersionID d)
    (dc_PolicyManifestID d) (dc_PriorState d) (dc_NextState d) (dc_CausalSuccessCount d) (dc_CausalFailureCount d)
    (dc_AssociatedSuccessCount d) (dc_AssociatedFailureCount d) (dc_UnsafeOutcomeCount d)
    (dc_WilsonLowerBoundPPM d) reasons (dc_EvidenceCutoffAt d) (dc_EvaluatedAt d) hash encoded.

Section evaluate.
Context `{JCS} `{Digest}.

Definition NewPolicyManifest (spec : PolicySpec) : result PolicyManifest :=
  let schema := "lifecycle-policy-manifest.v1"%string in
  reject negb (validPolicy spec) with ErrInvalidLifecycle;
  let* (encoded, hash) := MarshalAndHash (manifest_json schema spec) in
  Ok (mk_PolicyManifest schema spec ("lcman_" ++ hash)%string hash encoded).

Definition ValidatePolicyManifest (m : PolicyManifest) : bool :=
  match NewPolicyManifest (lm_Spec m) with
  | Err _ => false
  | Ok rebuilt =>
      String.eqb (lm_SchemaVersion m) (lm_SchemaVersion rebuilt) && String.eqb (lm_ID m) (lm_ID rebuilt) &&
      String.eqb (lm_ContentHash m) (lm_ContentHash rebuilt) &&
      String.eqb (lm_CanonicalJSON m) (lm_CanonicalJSON rebuilt)
  end.

Definition sealDecision (value : Decision) : result Decision :=
  let value := with_seal value "" "" "" (sort_strings (dc_ReasonCodes value)) in
  let* (encoded, hash) := MarshalAndHash (decision_json value) in
  Ok (with_seal value ("lcd_" ++ hash)%string hash encoded (dc_ReasonCodes value)).

(** The first guard of [Evaluate], but for [validState], which [Evaluate] reads with [parse_state]. *)
Definition request_invalid (r : EvaluationRequest) : bool :=
  negb (ValidatePolicyManifest (rq_Manifest r)) || String.eqb (rq_TenantID r) "" ||
  negb (tokenPattern (rq_ProcedureID r)) || negb (tokenPattern (rq_ProcedureVersionID r)) ||
  IsZero (rq_EvidenceCutoffAt r) || IsZero (rq_EvaluatedAt r) ||
  negb (time_Equal (rq_EvidenceCutoffAt r) (UTC (rq_EvidenceCutoffAt r))) ||
  negb (time_Equal (rq_EvaluatedAt r) (UTC (rq_EvaluatedAt r))) ||
  After (rq_EvidenceCutoffAt r) (rq_EvaluatedAt r) ||
  negb (validEvidence (rq_Evidence r) (rq_EvidenceCutoffAt r)).

Definition samples_of (r : EvaluationRequest) : Z :=
  wrap_u64 (ev_CausalSuccessCount (rq_Evidence r) + ev_CausalFailureCount (rq_Evidence r)).

Definition bound_of (r : EvaluationRequest) : Z :=
  WilsonLowerBoundPPM (ev_CausalSuccessCount (rq_Evidence r)) (samples_of r)
    (lp_WilsonZSquaredPPM (lm_Spec (rq_Manifest r))).

Definition Evaluate (r : EvaluationRequest) : result Decision :=
  reject request_invalid r with ErrInvalidLifecycle;
  match parse_state (rq_PriorState r) with
  | None => Err ErrInvalidLifecycle
  | Some prior =>
  let e := rq_Evidence r in
  let samples := samples_of r in
  reject samples <? ev_CausalSuccessCount e with ErrInvalidLifecycle;
  let bound := bound_of r in
  let '(next, reasons) := transition r prior samples bound in
  sealDecision (mk_Decision "lifecycle-decision.v1" "" (rq_TenantID r) (rq_ProcedureID r) (rq_ProcedureVersionID r)
    (lm_ID (rq_Manifest r)) (rq_PriorState r) (state_string next) (ev_CausalSuccessCount e) (ev_CausalFailureCount e)
    (ev_AssociatedSuccessCount e) (ev_AssociatedFailureCount e) (ev_UnsafeOutcomeCount e) bound reasons
    (rq_EvidenceCutoffAt r) (rq_EvaluatedAt r) "" "")
  end.

Definition decision_invalid (d : Decision) : bool :=
  negb (String.eqb (dc_SchemaVersion d) "lifecycle-decision.v1") ||
  negb (String.eqb (dc_ID d) ("lcd_" ++ dc_ContentHash d)) || negb (sha256Pattern (dc_ContentHash d)) ||
  String.eqb (dc_TenantID d) "" || negb (tokenPattern (dc_ProcedureID d)) ||
  negb (tokenPattern (dc_ProcedureVersionID d)) || negb (tokenPattern (dc_PolicyManifestID d)) ||
  negb (validState (dc_PriorState d)) || negb (validState (dc_NextState d)) ||
  (PartsPerMillion <? dc_WilsonLowerBoundPPM d) || IsZero (dc_EvidenceCutoffAt d) || IsZero (dc_EvaluatedAt d) ||
  negb (time_Equal (dc_EvidenceCutoffAt d) (UTC (dc_EvidenceCutoffAt d))) ||
  negb (time_Equal (dc_EvaluatedAt d) (UTC (dc_EvaluatedAt d))) ||
  After (dc_EvidenceCutoffAt d) (dc_EvaluatedAt d) || no_reasons (dc_ReasonCodes d) ||
  (32 <? Z.of_nat (length (dc_ReasonCodes d))).

Definition ValidateDecision (d : Decision) : result unit :=
  reject decision_invalid d with ErrInvalidLifecycle;
  reject negb (tokens_from None (dc_ReasonCodes d)) with ErrInvalidLifecycle;
  match sealDecision (with_seal d "" "" "" (dc_ReasonCodes d)) with
  | Err _ => Err ErrInvalidLifecycle
  | Ok rebuilt =>
      reject negb (String.eqb (dc_ID rebuilt) (dc_ID d)) ||
             negb (String.eqb (dc_CanonicalJSON rebuilt) (dc_CanonicalJSON d)) with ErrInvalidLifecycle;
      Ok tt
  end.

End evaluate.

(** ** The integer Wilson bound *)

(** The bisection finds the last value of a predicate that holds on an initial segment. *)
Lemma searchLoop_spec pred fuel lo hi :
  (forall m m', lo <= m <= m' -> m' <= hi -> pred m' = true -> pred m = true) ->
  pred lo = true -> lo <= hi -> hi - lo < 2 ^ Z.of_nat fuel ->
  exists r, searchLoop fuel pred lo hi = Some r /\ lo <= r <= hi /\ pred r = true /\
            (forall m, r < m <= hi -> pred m = false).
Proof.
  revert lo hi. induction fuel as [|fuel IH]; intros lo hi Hmono Hlo Hle Hfuel.
  { simpl in *. assert (hi = lo) as -> by lia. rewrite Z.ltb_irrefl. exists lo. split; [done|]. split; [lia|].
    split; [done|]. intros m ?. lia. }
  cbn [searchLoop]. destruct (Z.ltb_spec lo hi); cycle 1.
  { exists lo. split; [done|]. split; [lia|]. split; [done|]. intros m ?. lia. }
  rewrite Nat2Z.inj_succ, Z.pow_succ_r in Hfuel by lia.
  set (mid := lo + (hi - lo + 1) / 2).
  assert (Hmid : lo < mid <= hi /\ hi - mid < 2 ^ Z.of_nat fuel /\ mid - 1 - lo < 2 ^ Z.of_nat fuel).
  { subst mid. pose proof (Z.div_mod (hi - lo + 1) 2). pose proof (Z.mod_pos_bound (hi - lo + 1) 2). lia. }
  destruct (pred mid) eqn:Ep.
  - destruct (IH mid hi) as (r & Hr & Hrange & Hpr & Hmax); try lia; [|done|].
    { intros m m' Hm Hm'. apply Hmono; lia. }
    exists r. split; [done|]. split; [lia|]. done.
  - destruct (IH lo (mid - 1)) as (r & Hr & Hrange & Hpr & Hmax); try lia; [|done|].
    { intros m m' Hm Hm'. apply Hmono; lia. }
    exists r. split; [done|]. split; [lia|]. split; [done|]. intros m Hm.
    destruct (Z_le_gt_dec m (mid - 1)); [by apply Hmax; lia|].
    destruct (pred m) eqn:Em; [|done]. rewrite <- Ep. symmetry. apply (Hmono mid m); [lia|lia|done].
Qed.

(** [m] parts per million lie at or below the smaller root of
    [(n+z)x^2 - (2s+z)x + s^2/n], with [z] the squared quantile: with
    [A x^2 - B x + C] that polynomial scaled to integers, [m] is left of the
    vertex and [(B - 2 A m)^2] is at least the discriminant. *)
Definition below_smaller_root (A B C m : Z) : Prop := 2 * A * m <= B /\ B * B - 4 * A * C <= (B - 2 * A * m) * (B - 2 * A * m).

Definition wilson_A (s n z : Z) : Z := n * (n * PartsPerMillion + z).
Definition wilson_B (s n z : Z) : Z := n * ((2 * (s * PartsPerMillion) + z) * PartsPerMillion).
Definition wilson_C (s n z : Z) : Z := s * s * (PartsPerMillion * (PartsPerMillion * PartsPerMillion)).

Lemma atOrBelow_root m s n z :
  0 < n -> 0 <= z ->
  atOrBelowWilsonLower m s n z = true <-> below_smaller_root (wilson_A s n z) (wilson_B s n z) (wilson_C s n z) m.
Proof.
  intros Hn Hz. unfold atOrBelowWilsonLower, below_smaller_root.
  set (q := PartsPerMillion). set (a := n * q + z). set (b := 2 * (s * q) + z).
  assert (Ha : 0 < a) by (unfold a, q, PartsPerMillion; lia).
  unfold wilson_A, wilson_B, wilson_C. fold q a b.
  destruct (Z.ltb_spec (q * b) (2 * (m * a))).
  - split; [done|]. intros [Hc _]. nia.
  - rewrite Z.leb_le. split.
    + intros Hd. split; [nia|].
      replace ((n * (b * q) - 2 * (n * a) * m) * (n * (b * q) - 2 * (n * a) * m)) with
        (n * (b * q) * (n * (b * q)) - 4 * (n * a) * (s * s * (q * (q * q))) +
         4 * (n * a) * (n * (a * (m * m)) - n * (b * (m * q)) + s * s * (q * (q * q)))) by ring.
      assert (0 <= 4 * (n * a) * (n * (a * (m * m)) - n * (b * (m * q)) + s * s * (q * (q * q)))); [|lia].
      apply Z.mul_nonneg_nonneg; [nia|lia].
    + intros [_ Hd].
      replace ((n * (b * q) - 2 * (n * a) * m) * (n * (b * q) - 2 * (n * a) * m)) with
        (n * (b * q) * (n * (b * q)) - 4 * (n * a) * (s * s * (q * (q * q))) +
         4 * (n * a) * (n * (a * (m * m)) - n * (b * (m * q)) + s * s * (q * (q * q)))) in Hd by ring.
      assert (Hp : 0 <= 4 * (n * a) * (n * (a * (m * m)) - n * (b * (m * q)) + s * s * (q * (q * q)))) by lia.
      apply Z.mul_nonneg_cancel_l in Hp; [lia|nia].
Qed.

Lemma below_smaller_root_mono A B C m m' :
  0 < A -> m <= m' -> below_smaller_root A B C m' -> below_smaller_root A B C m.
Proof.
  unfold below_smaller_root. intros HA Hm [H1 H2].
  assert (Hu : 0 <= B - 2 * A * m' <= B - 2 * A * m) by nia. split; [lia|].
  etransitivity; [exact H2|]. apply Z.mul_le_mono_nonneg; lia.
Qed.

(** C6: The returned value is in [0, 1000000] and is the largest whole number
    of parts per million at or below the smaller root of the Wilson quadratic;
    twenty iterations always suffice. *)
Theorem WilsonLowerBoundPPM_spec (s n z : Z) :
  0 <= s <= n -> 0 < n -> 0 < z ->
  let r := WilsonLowerBoundPPM s n z in
  0 <= r <= PartsPerMillion /\
  searchLoop wilson_fuel (fun m => atOrBelowWilsonLower m s n z) 0 PartsPerMillion = Some r /\
  (forall m, 0 <= m <= PartsPerMillion ->
     m <= r <-> below_smaller_root (wilson_A s n z) (wilson_B s n z) (wilson_C s n z) m).
Proof.
  intros Hs Hn Hz. cbv zeta. unfold WilsonLowerBoundPPM.
  destruct (Z.eqb_spec n 0), (Z.ltb_spec n s), (Z.eqb_spec z 0); try lia. cbn [orb].
  assert (HA : 0 < wilson_A s n z) by (unfold wilson_A, PartsPerMillion; nia).
  assert (Hmono : forall m m', m <= m' -> atOrBelowWilsonLower m' s n z = true -> atOrBelowWilsonLower m s n z = true).
  { intros m m' Hm. rewrite !atOrBelow_root by lia. by apply below_smaller_root_mono. }
  destruct (searchLoop_spec (fun m => atOrBelowWilsonLower m s n z) wilson_fuel 0 PartsPerMillion)
    as (r & -> & Hr & Hpr & Hmax).
  - intros m m' Hm _. apply Hmono. lia.
  - rewrite atOrBelow_root by lia. unfold below_smaller_root, wilson_A, wilson_B, wilson_C.
    unfold PartsPerMillion in *. rewrite !Z.mul_0_r, Z.sub_0_r. split; nia.
  - unfold PartsPerMillion. lia.
  - unfold PartsPerMillion, wilson_fuel. simpl. lia.
  - simpl. split; [done|]. split; [done|]. intros m Hm. rewrite <- atOrBelow_root by lia. split.
    + intros Hmr. by apply (Hmono m r).
    + intros Hp. destruct (Z_le_gt_dec m r); [done|]. rewrite Hmax in Hp by lia. done.
Qed.

(** ** The state machine *)

Inductive lifecycle_step : State -> State -> Prop :=
| step_stay s : lifecycle_step s s
| step_to_trial : lifecycle_step Candidate Trial
| step_to_active : lifecycle_step Trial Active
| step_to_candidate : lifecycle_step Trial Candidate
| step_rollback : lifecycle_step Active Retired
| step_quarantine s : s <> Retired -> lifecycle_step s Quarantined.

Create HintDb lifecycle.
#[export] Hint Constructors lifecycle_step : lifecycle.

Lemma parse_state_string s : parse_state (state_string s) = Some s.
Proof. by destruct s. Qed.

Lemma state_string_parse t s : parse_state t = Some s -> t = state_string s.
Proof.
  unfold parse_state. intros Hp.
  repeat match type of Hp with context [String.eqb ?a ?b] => destruct (String.eqb_spec a b) end; simplify_eq; done.
Qed.

Lemma state_string_inj s t : state_string s = state_string t -> s = t.
Proof. destruct s, t; done. Qed.

Lemma transition_step r prior samples bound :
  lifecycle_step prior (fst (transition r prior samples bound)).
Proof. unfold transition. destruct prior; simpl; repeat case_match; simpl; auto with lifecycle; constructor; done. Qed.

Section decisions.
Context `{JCS} `{Digest}.

(** What a returned decision contains. *)
Definition unsealed (r : EvaluationRequest) (prior : State) : Decision :=
  let e := rq_Evidence r in
  let '(next, reasons) := transition r prior (samples_of r) (bound_of r) in
  mk_Decision "lifecycle-decision.v1" "" (rq_TenantID r) (rq_ProcedureID r) (rq_ProcedureVersionID r)
    (lm_ID (rq_Manifest r)) (rq_PriorState r) (state_string next) (ev_CausalSuccessCount e) (ev_CausalFailureCount e)
    (ev_AssociatedSuccessCount e) (ev_AssociatedFailureCount e) (ev_UnsafeOutcomeCount e) (bound_of r) reasons
    (rq_EvidenceCutoffAt r) (rq_EvaluatedAt r) "" "".

Lemma Evaluate_inv r d :
  Evaluate r = Ok d ->
  exists prior, request_invalid r = false /\ rq_PriorState r = state_string prior /\
    ev_CausalSuccessCount (rq_Evidence r) <= samples_of r /\ sealDecision (unsealed r prior) = Ok d.
Proof.
  unfold Evaluate, unsealed. destruct (request_invalid r) eqn:E1; [done|].
  destruct (parse_state (rq_PriorState r)) as [prior|] eqn:E2; [|done].
  destruct (Z.ltb_spec (samples_of r) (ev_CausalSuccessCount (rq_Evidence r))); [done|].
  intros Hs. exists prior. split; [done|]. split; [by apply state_string_parse|]. split; [lia|].
  by destruct (transition r prior (samples_of r) (bound_of r)).
Qed.

Lemma sealDecision_inv v d :
  sealDecision v = Ok d ->
  exists encoded, MarshalAndHash (decision_json (with_seal v "" "" "" (sort_strings (dc_ReasonCodes v)))) =
      Ok (encoded, sum256_hex encoded) /\
    d = with_seal v ("lcd_" ++ sum256_hex encoded)%string (sum256_hex encoded) encoded (sort_strings (dc_ReasonCodes v)).
Proof.
  unfold sealDecision. destruct (MarshalAndHash _) as [[enc h]|] eqn:E; [|done]. simpl. intros [= <-].
  pose proof (MarshalAndHash_digest _ _ _ E) as ->. by exists enc.
Qed.

Lemma Evaluate_next r d prior :
  rq_PriorState r = state_string prior -> Evaluate r = Ok d ->
  dc_NextState d = state_string (fst (transition r prior (samples_of r) (bound_of r))) /\
  dc_ReasonCodes d = sort_strings (snd (transition r prior (samples_of r) (bound_of r))).
Proof.
  intros Hp Hd. apply Evaluate_inv in Hd as (prior' & _ & Hp' & _ & Hs).
  rewrite Hp in Hp'. apply state_string_inj in Hp' as <-.
  apply sealDecision_inv in Hs as (enc & _ & ->). simpl. unfold unsealed.
  by destruct (transition r prior (samples_of r) (bound_of r)).
Qed.

(** A decision taken on [prior] that yields [next]. *)
Definition decided (prior next : State) : Prop :=
  exists r d, Evaluate r = Ok d /\ rq_PriorState r = state_string prior /\ dc_NextState d = state_string next.

Lemma decided_step prior next : decided prior next -> lifecycle_step prior next.
Proof.
  intros (r & d & Hd & Hp & Hn). destruct (Evaluate_next r d prior Hp Hd) as [Hn' _].
  rewrite Hn in Hn'. apply state_string_inj in Hn' as ->. apply transition_step.
Qed.

(** Along any sequence of decisions, retired and quarantined versions keep
    their state, and a candidate that is never in trial never becomes active or
    retired. *)
Theorem lifecycle_reachability :
  (forall s, rtc decided Retired s -> s = Retired) /\
  (forall s, rtc decided Quarantined s -> s = Quarantined) /\
  (forall s, rtc (fun x y => decided x y /\ y <> Trial) Candidate s -> s = Candidate \/ s = Quarantined).
Proof.
  assert (Habs : forall t s, t = Retired \/ t = Quarantined -> rtc decided t s -> s = t).
  { intros t s Ht Hrtc. induction Hrtc as [|x y z Hxy _ IH]; [done|].
    assert (y = x) as ->; [|by apply IH]. apply decided_step in Hxy. destruct Ht as [-> | ->]; by inversion Hxy. }
  split; [intros s; apply Habs; by left|]. split; [intros s; apply Habs; by right|].
  assert (Hinv : forall t s, rtc (fun x y => decided x y /\ y <> Trial) t s ->
    t = Candidate \/ t = Quarantined -> s = Candidate \/ s = Quarantined).
  { intros t s Hrtc. induction Hrtc as [|x y z [Hxy Hy] _ IH]; [done|].
    intros Hx. apply IH. apply decided_step in Hxy. destruct Hx as [-> | ->]; inversion Hxy; subst; naive_solver. }
  intros s Hrtc. apply (Hinv Candidate); [done|by left].
Qed.

(** The thresholds a promotion needs, on the causal evidence only. *)
Record meets (r : EvaluationRequest) (minimum threshold ceiling : Z) : Prop := {
  mt_samples : minimum <= samples_of r;
  mt_bound : threshold <= bound_of r;
  mt_unsafe : ev_UnsafeOutcomeCount (rq_Evidence r) <= ceiling;
  mt_quarantine : ev_QuarantineTriggers (rq_Evidence r) = [] /\
    ev_UnsafeOutcomeCount (rq_Evidence r) < lp_ImmediateQuarantineUnsafeCount (lm_Spec (rq_Manifest r));
  mt_fresh : t_ns (ev_LatestCausalAt (rq_Evidence r)) <> 0 /\
    t_ns (rq_EvidenceCutoffAt r) - lp_EvidenceFreshnessSeconds (lm_Spec (rq_Manifest r)) * Second <=
    t_ns (ev_LatestCausalAt (rq_Evidence r))
}.

Lemma seconds_before_ns t n :
  0 < n <= maximumPolicyWindowSeconds -> t_ns (seconds_before t n) = t_ns t - n * Second.
Proof.
  intros Hn. unfold seconds_before, maximumPolicyWindowSeconds in *. simpl.
  rewrite (wrap_i64_id n), (wrap_i64_id (- n)), wrap_i64_id by (unfold_widths; unfold Second; lia). lia.
Qed.

Lemma request_policy r :
  request_invalid r = false -> validPolicy (lm_Spec (rq_Manifest r)) = true.
Proof.
  unfold request_invalid. rewrite !orb_false_iff, negb_false_iff. intros (((((((((Hv & _) & _) & _) & _) & _) & _) & _) & _) & _).
  unfold ValidatePolicyManifest, NewPolicyManifest in Hv. by destruct (validPolicy (lm_Spec (rq_Manifest r))).
Qed.

Lemma no_reasons_app l l' : no_reasons (l ++ l') = no_reasons l && no_reasons l'.
Proof. by destruct l. Qed.

Lemma no_reasons_if b s : no_reasons (reason_if b s) = negb b.
Proof. by destruct b. Qed.

Lemma no_reasons_nil l : no_reasons l = true <-> l = [].
Proof. by destruct l. Qed.

(** The freshness test, in nanoseconds. *)
Lemma fresh_iff r :
  request_invalid r = false ->
  negb (IsZero (ev_LatestCausalAt (rq_Evidence r))) &&
  negb (Before (ev_LatestCausalAt (rq_Evidence r))
    (seconds_before (rq_EvidenceCutoffAt r) (lp_EvidenceFreshnessSeconds (lm_Spec (rq_Manifest r))))) = true <->
  t_ns (ev_LatestCausalAt (rq_Evidence r)) <> 0 /\
  t_ns (rq_EvidenceCutoffAt r) - lp_EvidenceFreshnessSeconds (lm_Spec (rq_Manifest r)) * Second <=
  t_ns (ev_LatestCausalAt (rq_Evidence r)).
Proof.
  intros Hv. apply request_policy in Hv. unfold validPolicy in Hv. autorewrite with goboolsimpl in Hv.
  unfold IsZero, Before. rewrite seconds_before_ns by lia. autorewrite with goboolsimpl. done.
Qed.

Lemma meets_iff r minimum threshold ceiling :
  request_invalid r = false ->
  meets r minimum threshold ceiling <->
  no_reasons (ev_QuarantineTriggers (rq_Evidence r)) &&
  negb (lp_ImmediateQuarantineUnsafeCount (lm_Spec (rq_Manifest r)) <=? ev_UnsafeOutcomeCount (rq_Evidence r)) &&
  (negb (IsZero (ev_LatestCausalAt (rq_Evidence r))) &&
   negb (Before (ev_LatestCausalAt (rq_Evidence r))
    (seconds_before (rq_EvidenceCutoffAt r) (lp_EvidenceFreshnessSeconds (lm_Spec (rq_Manifest r)))))) &&
  negb (samples_of r <? minimum) && negb (bound_of r <? threshold) &&
  negb (ceiling <? ev_UnsafeOutcomeCount (rq_Evidence r)) = true.
Proof.
  intros Hv. pose proof (fresh_iff r Hv) as Hf.
  destruct (negb (IsZero _) && negb (Before _ _)); autorewrite with goboolsimpl in *; rewrite no_reasons_nil; split.
  - intros []. tauto.
  - intros (((((? & ?) & ?) & ?) & ?) & ?). split; tauto.
  - intros []. tauto.
  - intros (((((? & ?) & ?) & ?) & ?) & ?). done.
Qed.

(** Case analysis on the tests of [transition], closing each branch as soon as it is decided. *)
Ltac decide_branch := simpl; try (split; (discriminate || reflexivity)); try (split; intros; (discriminate || reflexivity)).

Ltac split_tests :=
  match goal with
  | |- context [no_reasons (ev_QuarantineTriggers ?e)] => destruct (no_reasons (ev_QuarantineTriggers e))
  | |- context [?a <=? ?b] => destruct (a <=? b)
  | |- context [IsZero (ev_LatestCausalAt ?e)] => destruct (IsZero (ev_LatestCausalAt e))
  | |- context [Before ?t ?u] => destruct (Before t u)
  | |- context [?a <? ?b] => destruct (a <? b)
  | |- context [IsZero ?t] => destruct (IsZero t)
  | |- context [After ?t ?u] => destruct (After t u)
  end; decide_branch.

(** A candidate is promoted to trial, a trial to active, and an active
    version kept, exactly when there is no quarantine trigger and the causal
    samples, their Wilson bound, the unsafe count and the freshness meet the
    policy, and for a trial its minimum duration has passed. *)
Theorem Evaluate_promotion_iff (r : EvaluationRequest) (d : Decision) :
  Evaluate r = Ok d ->
  let p := lm_Spec (rq_Manifest r) in
  let active := meets r (lp_ActiveMinimumCausalSamples p) (lp_ActiveMinimumWilsonLowerBoundPPM p)
                  (lp_ActiveUnsafeOutcomeCeiling p) in
  let started := t_ns (ev_TrialStartedAt (rq_Evidence r)) in
  (rq_PriorState r = "candidate"%string ->
   dc_NextState d = "trial"%string <->
   meets r (lp_TrialMinimumCausalSamples p) (lp_TrialMinimumWilsonLowerBoundPPM p) (lp_TrialUnsafeOutcomeCeiling p)) /\
  (rq_PriorState r = "trial"%string ->
   dc_NextState d = "active"%string <->
   active /\ started <> 0 /\ started <= t_ns (rq_EvidenceCutoffAt r) - lp_MinimumTrialSeconds p * Second) /\
  (rq_PriorState r = "active"%string -> dc_NextState d = "active"%string <-> active).
Proof.
  intros Hd. destruct (Evaluate_inv r d Hd) as (_ & Hv & _).
  assert (Hnext : forall prior, rq_PriorState r = state_string prior ->
    dc_NextState d = state_string (fst (transition r prior (samples_of r) (bound_of r)))).
  { intros prior Hp. by apply (Evaluate_next r d prior Hp). }
  assert (Hdur : IsZero (ev_TrialStartedAt (rq_Evidence r)) ||
    After (ev_TrialStartedAt (rq_Evidence r))
      (seconds_before (rq_EvidenceCutoffAt r) (lp_MinimumTrialSeconds (lm_Spec (rq_Manifest r)))) = false <->
    t_ns (ev_TrialStartedAt (rq_Evidence r)) <> 0 /\
    t_ns (ev_TrialStartedAt (rq_Evidence r)) <=
    t_ns (rq_EvidenceCutoffAt r) - lp_MinimumTrialSeconds (lm_Spec (rq_Manifest r)) * Second).
  { pose proof (request_policy r Hv) as Hp. unfold validPolicy in Hp. autorewrite with goboolsimpl in Hp.
    unfold IsZero, After. rewrite seconds_before_ns by lia. autorewrite with goboolsimpl. done. }
  cbv zeta. rewrite <- Hdur, <- negb_true_iff, !(meets_iff r _ _ _ Hv), <- andb_true_iff. clear Hdur.
  split; [|split]; intros Hprior.
  - rewrite (Hnext Candidate Hprior). unfold transition, thresholdReasons.
    rewrite !no_reasons_app, !no_reasons_if. repeat split_tests.
  - rewrite (Hnext Trial Hprior). unfold transition, thresholdReasons.
    rewrite !no_reasons_app, !no_reasons_if. repeat split_tests.
  - rewrite (Hnext Active Hprior). unfold transition. repeat split_tests.
Qed.

(** The request with other counts of merely associated outcomes. *)
Definition with_associated (r : EvaluationRequest) (successes failures : Z) : EvaluationRequest :=
  let e := rq_Evidence r in
  mk_EvaluationRequest (rq_TenantID r) (rq_ProcedureID r) (rq_ProcedureVersionID r) (rq_PriorState r) (rq_Manifest r)
    (mk_Evidence (ev_CausalSuccessCount e) (ev_CausalFailureCount e) successes failures (ev_UnsafeOutcomeCount e)
       (ev_LatestCausalAt e) (ev_TrialStartedAt e) (ev_QuarantineTriggers e))
    (rq_EvidenceCutoffAt r) (rq_EvaluatedAt r).

(** Associated outcomes never influence a decision: with other associated
    counts the evaluation has the same next state, reasons and bound. *)
Theorem Evaluate_ignores_associated (r : EvaluationRequest) (successes failures : Z) (d d' : Decision) :
  Evaluate r = Ok d -> Evaluate (with_associated r successes failures) = Ok d' ->
  dc_NextState d' = dc_NextState d /\ dc_ReasonCodes d' = dc_ReasonCodes d /\
  dc_WilsonLowerBoundPPM d' = dc_WilsonLowerBoundPPM d.
Proof.
  intros Hd Hd'. destruct (Evaluate_inv r d Hd) as (prior & _ & Hp & _ & Hs).
  destruct (Evaluate_inv _ d' Hd') as (prior' & _ & Hp' & _ & Hs').
  change (rq_PriorState (with_associated r successes failures)) with (rq_PriorState r) in Hp'.
  assert (prior' = prior) as -> by (apply state_string_inj; congruence).
  apply sealDecision_inv in Hs as (enc & _ & ->). apply sealDecision_inv in Hs' as (enc' & _ & ->).
  unfold unsealed.
  change (transition (with_associated r successes failures) prior (samples_of (with_associated r successes failures))
    (bound_of (with_associated r successes failures))) with (transition r prior (samples_of r) (bound_of r)).
  by destruct (transition r prior (samples_of r) (bound_of r)).
Qed.

Lemma searchLoop_range fuel pred lo hi r : lo <= hi -> searchLoop fuel pred lo hi = Some r -> lo <= r <= hi.
Proof.
  revert lo hi. induction fuel as [|fuel IH]; intros lo hi Hle; simpl; destruct (Z.ltb_spec lo hi); try done;
    try (intros [= <-]; lia).
  pose proof (Z.div_mod (hi - lo + 1) 2). pose proof (Z.mod_pos_bound (hi - lo + 1) 2).
  destruct (pred _); intros Hr; apply IH in Hr; lia.
Qed.

Lemma bound_of_range r : 0 <= bound_of r <= PartsPerMillion.
Proof.
  unfold bound_of, WilsonLowerBoundPPM. destruct (_ || _); [unfold PartsPerMillion; lia|].
  destruct (searchLoop _ _ _ _) eqn:E; simpl; [|unfold PartsPerMillion; lia].
  apply searchLoop_range in E; [done|unfold PartsPerMillion; lia].
Qed.

Definition trigger_reason (t : string) : string := ("quarantine_trigger:" ++ t)%string.

Lemma trigger_reason_inj t u : trigger_reason t = trigger_reason u -> t = u.
Proof. intros Ht. injection Ht as Ht. done. Qed.

Ltac constant_reasons :=
  by (split; [apply (bool_decide_eq_true_1 (NoDup _)); vm_compute; reflexivity|]; split; [done|]; left; split; [simpl; lia|reflexivity]).

(** The reasons of a transition are distinct, and tokens but for long triggers. *)
Lemma transition_reasons r prior samples bound :
  NoDup (ev_QuarantineTriggers (rq_Evidence r)) ->
  let reasons := snd (transition r prior samples bound) in
  NoDup reasons /\ reasons <> [] /\
  (length reasons <= 5 /\ forallb tokenPattern reasons = true \/
   reasons = ReasonImmediateQuarantine :: List.map trigger_reason (ev_QuarantineTriggers (rq_Evidence r)))%nat.
Proof.
  intros Hn. unfold transition, thresholdReasons.
  assert (Hq : NoDup (ReasonImmediateQuarantine :: List.map trigger_reason (ev_QuarantineTriggers (rq_Evidence r)))).
  { apply NoDup_cons. split.
    - intros (t & Ht & _)%list_elem_of_In%in_map_iff. discriminate Ht.
    - apply NoDup_fmap_2; [|done]. exact trigger_reason_inj. }
  set (quarantine := _ || (lp_ImmediateQuarantineUnsafeCount _ <=? _)). clearbody quarantine.
  destruct prior, quarantine; simpl; try (split; [exact Hq|]; split; [done|by right]);
    try (split; [apply NoDup_singleton|]; split; [done|]; left; split; [lia|reflexivity]).
  all: set (fresh := negb (IsZero _) && _); clearbody fresh.
  2: set (duration := _ || After _ _); clearbody duration; destruct duration.
  all: destruct fresh; repeat match goal with |- context [?a <? ?b] => destruct (a <? b) end; simpl; constant_reasons.
Qed.

Lemma request_facts r :
  request_invalid r = false ->
  rq_TenantID r <> ""%string /\ tokenPattern (rq_ProcedureID r) = true /\ tokenPattern (rq_ProcedureVersionID r) = true /\
  tokenPattern (lm_ID (rq_Manifest r)) = true /\ IsZero (rq_EvidenceCutoffAt r) = false /\ IsZero (rq_EvaluatedAt r) = false /\
  After (rq_EvidenceCutoffAt r) (rq_EvaluatedAt r) = false /\
  forallb tokenPattern (ev_QuarantineTriggers (rq_Evidence r)) = true /\ NoDup (ev_QuarantineTriggers (rq_Evidence r)).
Proof.
  unfold request_invalid, validEvidence. rewrite tokens_from_none. autorewrite with goboolsimpl.
  intros (((((((((Hm & ?) & ?) & ?) & ?) & ?) & _) & _) & ?) & (_ & Ht & Hs)).
  assert (Hid : tokenPattern (lm_ID (rq_Manifest r)) = true).
  { unfold ValidatePolicyManifest, NewPolicyManifest in Hm. destruct (validPolicy _); [|done]. simpl in Hm.
    destruct (MarshalAndHash _) as [[enc h]|] eqn:E; [|done]. simpl in Hm. autorewrite with goboolsimpl in Hm.
    destruct Hm as [[[_ ->] _] _]. destruct (sha256Pattern_bytes h (MarshalAndHash_pattern _ _ _ E)) as [Hb Hl].
    change ("lcman_" ++ h)%string with (append "lcman_" h). rewrite tokenPattern_app, Hl by done. reflexivity. }
  apply strictSorted_spec in Hs as [Hs _]. apply StronglySorted_str_lt_NoDup in Hs. tauto.
Qed.

Lemma decision_resealed v d : sealDecision v = Ok d -> sealDecision (with_seal d "" "" "" (dc_ReasonCodes d)) = Ok d.
Proof.
  intros Hs. apply sealDecision_inv in Hs as (enc & Hm & ->). unfold sealDecision. simpl.
  rewrite sort_strings_idem. destruct v. unfold with_seal in *. simpl in *. by rewrite Hm.
Qed.

Ltac decision_fields :=
  cbn [with_seal fst dc_SchemaVersion dc_ID dc_TenantID dc_ProcedureID dc_ProcedureVersionID dc_PolicyManifestID dc_PriorState
    dc_NextState dc_WilsonLowerBoundPPM dc_ReasonCodes dc_EvidenceCutoffAt dc_EvaluatedAt dc_ContentHash dc_CanonicalJSON].

(** A returned decision is valid unless its reason codes are not. *)
Lemma decision_valid_iff r d :
  Evaluate r = Ok d ->
  ValidateDecision d = Ok tt <->
  Z.of_nat (length (dc_ReasonCodes d)) <= 32 /\ forallb tokenPattern (dc_ReasonCodes d) = true.
Proof.
  intros Hd. destruct (Evaluate_inv r d Hd) as (prior & Hv & Hp & _ & Hs).
  destruct (request_facts r Hv) as (Ht & Hpi & Hpv & Hmi & Hc & He & Ha & _ & Hnd).
  destruct (transition_reasons r prior (samples_of r) (bound_of r) Hnd) as (Hrn & Hne & Hcase).
  pose proof (decision_resealed _ _ Hs) as Hre. destruct (Evaluate_next r d prior Hp Hd) as [Hnext Hreas].
  unfold ValidateDecision. rewrite Hre, !str_eqb_refl, tokens_from_none. simpl.
  assert (Hsort : strictSorted (dc_ReasonCodes d) = true).
  { rewrite Hreas. apply sort_strings_strict; [done|]. intros Hin. destruct Hcase as [[_ Htok]|Heq].
    - rewrite forallb_forall in Htok. by apply list_elem_of_In, Htok in Hin.
    - rewrite Heq in Hin. apply elem_of_cons in Hin as [?|(t & Ht' & _)%list_elem_of_In%in_map_iff]; done. }
  assert (Hlen : no_reasons (dc_ReasonCodes d) = false).
  { rewrite Hreas. destruct (snd (transition r prior (samples_of r) (bound_of r))) as [|x l] eqn:E; [done|].
    pose proof (sort_strings_length (x :: l)) as Hl. by destruct (sort_strings (x :: l)). }
  assert (Hinv : decision_invalid d = (32 <? Z.of_nat (length (dc_ReasonCodes d)))).
  { unfold decision_invalid. rewrite Hlen, !Equal_UTC, Hnext.
    apply sealDecision_inv in Hs as (enc & _ & ->). unfold unsealed.
    destruct (transition r prior (samples_of r) (bound_of r)) as [next reasons]. decision_fields.
    rewrite (sum256_hex_pattern enc), Hpi, Hpv, Hmi, Hc, He, Ha, Hp.
    unfold validState. rewrite !parse_state_string.
    pose proof (bound_of_range r). rewrite (proj2 (Z.ltb_ge _ _)) by lia.
    apply String.eqb_neq in Ht. rewrite Ht, !str_eqb_refl. reflexivity. }
  rewrite Hinv, Hsort, andb_true_r.
  destruct (Z.ltb_spec 32 (Z.of_nat (length (dc_ReasonCodes d)))); [split; [done|intros [? _]; lia]|].
  destruct (forallb tokenPattern (dc_ReasonCodes d)); simpl; [split; [intros _; split; [lia|done]|done]|].
  split; [done|by intros [_ ?]].
Qed.

Lemma trigger_reason_token t :
  tokenPattern t = true -> tokenPattern (trigger_reason t) = (str_len t <=? 237).
Proof.
  intros Ht. destruct (tokenPattern_bytes t Ht) as [Hb _].
  unfold trigger_reason. rewrite tokenPattern_app by done. apply eq_true_iff_eq. rewrite !Z.leb_le.
  change (str_len "quarantine_trigger:") with 19. lia.
Qed.

Lemma forallb_trigger_reasons l :
  forallb tokenPattern l = true ->
  forallb tokenPattern (List.map trigger_reason l) = forallb (fun t => str_len t <=? 237) l.
Proof.
  induction l as [|t l IH]; [done|]. cbn [forallb List.map]. rewrite andb_true_iff. intros [Ht Hl].
  by rewrite (trigger_reason_token t Ht), IH.
Qed.

Lemma forallb_sort_strings f l : forallb f (sort_strings l) = forallb f l.
Proof. apply forallb_perm. apply (sort_slice_perm str_ltb). Qed.

(** A decision returned by [Evaluate] passes [ValidateDecision], provided
    there are at most 31 quarantine triggers of at most 237 bytes. *)
Theorem Evaluate_validates (r : EvaluationRequest) (d : Decision) :
  Evaluate r = Ok d ->
  (length (ev_QuarantineTriggers (rq_Evidence r)) <= 31)%nat ->
  (forall t, t ∈ ev_QuarantineTriggers (rq_Evidence r) -> str_len t <= 237) ->
  ValidateDecision d = Ok tt.
Proof.
  intros Hd Hlen Hshort. apply (decision_valid_iff r d Hd).
  destruct (Evaluate_inv r d Hd) as (prior & Hv & Hp & _). destruct (request_facts r Hv) as (_ & _ & _ & _ & _ & _ & _ & Htok & Hnd).
  destruct (Evaluate_next r d prior Hp Hd) as [_ ->]. rewrite sort_strings_length, forallb_sort_strings.
  destruct (transition_reasons r prior (samples_of r) (bound_of r) Hnd) as (_ & _ & [[Hl Ht]| ->]); [split; [lia|done]|].
  cbn [length forallb]. rewrite length_map, (forallb_trigger_reasons _ Htok). split; [lia|].
  change (tokenPattern ReasonImmediateQuarantine) with true. simpl.
  apply forallb_forall. intros t Hin. apply Z.leb_le, Hshort. by apply list_elem_of_In.
Qed.

(** The prefix that [transition] puts before a trigger is not accounted
    for: a trigger of more than 237 bytes, valid as evidence, gives a
    quarantine decision that [Evaluate] seals and [ValidateDecision] rejects. *)
Theorem Evaluate_long_trigger (r : EvaluationRequest) (d : Decision) (t : string) :
  Evaluate r = Ok d -> rq_PriorState r <> "retired"%string -> rq_PriorState r <> "quarantined"%string ->
  t ∈ ev_QuarantineTriggers (rq_Evidence r) -> 237 < str_len t ->
  dc_NextState d = "quarantined"%string /\ ValidateDecision d <> Ok tt.
Proof.
  intros Hd Hnr Hnq Hin Hlong. rewrite (decision_valid_iff r d Hd).
  destruct (Evaluate_inv r d Hd) as (prior & Hv & Hp & _). destruct (request_facts r Hv) as (_ & _ & _ & _ & _ & _ & _ & Htok & _).
  destruct (Evaluate_next r d prior Hp Hd) as [-> ->]. rewrite forallb_sort_strings.
  assert (Ht : transition r prior (samples_of r) (bound_of r) =
    (Quarantined, ReasonImmediateQuarantine :: List.map trigger_reason (ev_QuarantineTriggers (rq_Evidence r)))).
  { unfold transition. destruct (ev_QuarantineTriggers (rq_Evidence r)) as [|x l]; [by apply not_elem_of_nil in Hin|].
    by destruct prior. }
  rewrite Ht. split; [done|]. cbn [snd forallb]. rewrite (forallb_trigger_reasons _ Htok), andb_true_iff, forallb_forall.
  intros [_ [_ Hall]]. apply list_elem_of_In, Hall, Z.leb_le in Hin. lia.
Qed.

End decisions.

(** ** Witnesses *)
Section lifecycle_witnesses.
#[local] Existing Instance copy_jcs.
#[local] Existing Instance checksum_digest.

Definition sample_spec : PolicySpec := mk_PolicySpec "v1" 3841459 3 100000 5 400000 0 0 1 1000 100.

Definition sample_manifest : PolicyManifest :=
  match NewPolicyManifest sample_spec with Ok m => m | Err _ => mk_PolicyManifest "" sample_spec "" "" "" end.

Definition at_second (n : Z) : gotime := mk_time (n * Second) 0.

Definition sample_request (prior : string) (triggers : list string) : EvaluationRequest :=
  mk_EvaluationRequest "t" "p1" "v1" prior sample_manifest
    (mk_Evidence 9 1 0 0 0 (at_second 63800000000) (at_second 63799990000) triggers)
    (at_second 63800000100) (at_second 63800000200).

Definition empty_decision : Decision :=
  mk_Decision "" "" "" "" "" "" "" "" 0 0 0 0 0 0 [] zero_time zero_time "" "".

Definition sample_decision (prior : string) (triggers : list string) : Decision :=
  match Evaluate (sample_request prior triggers) with Ok d => d | Err _ => empty_decision end.

Lemma WilsonLowerBoundPPM_spec_witness : 0 <= WilsonLowerBoundPPM 9 10 3841459 <= PartsPerMillion.
Proof.
  destruct (WilsonLowerBoundPPM_spec 9 10 3841459 ltac:(lia) ltac:(lia) ltac:(lia)) as [Hr _]. exact Hr.
Defined.

Lemma Evaluate_promotion_iff_witness :
  meets (sample_request "trial" []) 5 400000 0.
Proof.
  destruct (Evaluate_promotion_iff (sample_request "trial" []) (sample_decision "trial" []))
    as (_ & Ht & _); [vm_compute; reflexivity|].
  destruct (proj1 (Ht eq_refl)) as [Hm _]; [vm_compute; reflexivity|]. exact Hm.
Defined.

Lemma Evaluate_ignores_associated_witness :
  dc_NextState (sample_decision "trial" []) = "active"%string /\
  dc_NextState (match Evaluate (with_associated (sample_request "trial" []) 7 1000) with Ok d => d | Err _ => empty_decision end)
  = dc_NextState (sample_decision "trial" []).
Proof.
  split; [vm_compute; reflexivity|].
  apply (Evaluate_ignores_associated (sample_request "trial" []) 7 1000); vm_compute; reflexivity.
Defined.

Lemma Evaluate_validates_witness : ValidateDecision (sample_decision "active" ["leak"]%string) = Ok tt.
Proof.
  apply (Evaluate_validates (sample_request "active" ["leak"]%string)).
  - vm_compute. reflexivity.
  - vm_compute. lia.
  - intros t Ht. apply list_elem_of_singleton in Ht as ->. vm_compute. discriminate.
Defined.

Definition long_trigger : string := string_of_list_ascii (List.repeat "a"%char 238).

Lemma Evaluate_long_trigger_witness :
  ValidateDecision (sample_decision "active" [long_trigger]) <> Ok tt.
Proof.
  apply (Evaluate_long_trigger (sample_request "active" [long_trigger]) _ long_trigger).
  - vm_compute. reflexivity.
  - discriminate.
  - discriminate.
  - left.
  - vm_compute. reflexivity.
Defined.

End lifecycle_witnesses.
