(* ===== verification/Maintenance.v ===== *)
(** * The maintenance queue (internal/maintenance, internal/store/memory)

    [model.go]: job specifications and their validation.
    [store/memory/maintenance.go]: the leased job queue.  [runner.go]: the
    worker that claims a batch, runs the handlers concurrently and reports each
    outcome.  Every operation of the queue runs under its mutex and is one atomic
    step of the model; the clock value it reads is an argument.  The theorems
    are the queue's safety: fencing tokens only grow, a superseded lease cannot
    finish a job, finished jobs stay finished, enqueueing is idempotent, and the
    outcome of a batch does not depend on how its goroutines interleave. *)

From Stdlib Require Import ZArith String Ascii List Bool Lia.
From stdpp Require Import base gmap strings list sorting.
From S2P Require Import Prelude GoStrings GoTime Canonical.

Open Scope Z_scope.
Open Scope go_scope.

Definition CompatibilityProjection : string := "compatibility_projection".
Definition LifecycleEvaluation : string := "lifecycle_evaluation".
Definition ExposureAggregation : string := "exposure_aggregation".
Definition TransientExpiry : string := "transient_expiry".
Definition LifecycleRollback : string := "lifecycle_rollback".
Definition ProjectionRebuild : string := "projection_rebuild".

Definition validKind (value : string) : bool :=
  String.eqb value CompatibilityProjection || String.eqb value LifecycleEvaluation ||
  String.eqb value ExposureAggregation || String.eqb value TransientExpiry ||
  String.eqb value LifecycleRollback || String.eqb value ProjectionRebuild.

Inductive State := Pending | Leased | Completed | DeadLetter.

#[export] Instance JobState_eq_dec : EqDecision State.
Proof. solve_decision. Defined.

Record Spec := mk_Spec {
  sp_SchemaVersion : string;
  sp_ID : string;
  sp_TenantID : string;
  sp_Kind : string;
  sp_IdempotencyKeyHash : string;
  sp_CanonicalPayload : string;
  sp_CreatedAt : gotime;
  sp_ContentHash : string;
  sp_CanonicalJSON : string
}.

#[export] Instance Spec_eq_dec : EqDecision Spec.
Proof. solve_decision. Defined.

Definition spec_json (v : Spec) : json :=
  JObj (fstr "schema_version" (sp_SchemaVersion v) ++ fstr "maintenance_job_id" (sp_ID v) ++
        fstr "tenant_id" (sp_TenantID v) ++ fstr "job_kind" (sp_Kind v) ++
        fstr "idempotency_key_hash" (sp_IdempotencyKeyHash v) ++ fbytes "canonical_payload" (sp_CanonicalPayload v) ++
        ftime "created_at" (sp_CreatedAt v) ++ fstr_omit "content_hash" (sp_ContentHash v)).

Record Lease := mk_Lease {
  ls_Spec : Spec;
  ls_AttemptCount : Z;
  ls_FencingToken : Z;
  ls_LeaseOwner : string;
  ls_LeaseExpiresAt : gotime
}.

Record ClaimRequest := mk_ClaimRequest {
  cl_WorkerID : string;
  cl_Kinds : list string;
  cl_Limit : Z;
  cl_LeaseDuration : Z
}.

Record FinishRequest := mk_FinishRequest {
  fr_TenantID : string;
  fr_JobID : string;
  fr_WorkerID : string;
  fr_FencingToken : Z
}.

Record FailRequest := mk_FailRequest {
  fl_Finish : FinishRequest;
  fl_ErrorCode : string;
  fl_RetryAt : gotime;
  fl_DeadLetter : bool
}.

Record maintenanceRow := mk_row {
  row_spec : Spec;
  row_state : State;
  row_attempt : Z;
  row_fencing : Z;
  row_owner : string;
  row_leaseExpires : gotime;
  row_available : gotime;
  row_errorCode : string
}.

Record MaintenanceRepository := mk_repo {
  jobs : gmap string maintenanceRow;
  idempotency : gmap string string
}.

Definition newMaintenanceRepository : MaintenanceRepository := mk_repo ∅ ∅.

Record QueueStats := mk_QueueStats { qs_Kind : string; qs_Pending : Z; qs_OldestPendingAge : Z }.

Fixpoint kindsLoop (seen : gset string) (values : list string) : bool :=
  match values with
  | [] => true
  | value :: values =>
      validKind value && negb (bool_decide (value ∈ seen)) && kindsLoop ({[value]} ∪ seen) values
  end.

(** [ValidateKinds]: [true] when it returns no error. *)
Definition ValidateKinds (values : list string) : bool :=
  match values with [] => false | _ => kindsLoop ∅ values end.

(** [ctx.Err()] on entry. *)
Definition ctxErr := option goerr.

Definition job_key (spec : Spec) : string :=
  (sp_TenantID spec ++ nul ++ sp_Kind spec ++ nul ++ sp_IdempotencyKeyHash spec)%string.

Definition claimable (allowed : gset string) (now : gotime) (row : maintenanceRow) : bool :=
  bool_decide (sp_Kind (row_spec row) ∈ allowed) &&
  ((bool_decide (row_state row = Pending) && negb (After (row_available row) now)) ||
   (bool_decide (row_state row = Leased) && negb (After (row_leaseExpires row) now))).

(** The order of the claimed identifiers: available first, then by identifier. *)
Definition claim_less (r : MaintenanceRepository) (i j : string) : bool :=
  match jobs r !! i, jobs r !! j with
  | Some ri, Some rj =>
      if negb (time_Equal (row_available ri) (row_available rj))
      then Before (row_available ri) (row_available rj)
      else str_ltb i j
  | _, _ => false
  end.

Definition claim_ids (r : MaintenanceRepository) (allowed : gset string) (now : gotime) : list string :=
  sort_slice (claim_less r)
    (List.map fst (List.filter (fun '(_, row) => claimable allowed now row) (map_to_list (jobs r)))).

Definition leased_row (worker : string) (expires : gotime) (row : maintenanceRow) : maintenanceRow :=
  mk_row (row_spec row) Leased (wrap_u32 (row_attempt row + 1)) (wrap_u64 (row_fencing row + 1)) worker expires
    (row_available row) (row_errorCode row).

Definition lease_of (row : maintenanceRow) : Lease :=
  mk_Lease (row_spec row) (row_attempt row) (row_fencing row) (row_owner row) (row_leaseExpires row).

(** The loop that leases the selected rows. *)
Fixpoint lease_ids (worker : string) (expires : gotime) (r : MaintenanceRepository) (ids : list string)
    : list Lease * MaintenanceRepository :=
  match ids with
  | [] => ([], r)
  | id :: ids =>
      match jobs r !! id with
      | None => lease_ids worker expires r ids
      | Some row =>
          let row := leased_row worker expires row in
          let '(rest, r) := lease_ids worker expires (mk_repo (<[id := row]> (jobs r)) (idempotency r)) ids in
          (lease_of row :: rest, r)
      end
  end.

Definition claim_invalid (request : ClaimRequest) : bool :=
  String.eqb (cl_WorkerID request) "" || (cl_Limit request <? 1) || (100 <? cl_Limit request) ||
  (cl_LeaseDuration request <? Second) || negb (ValidateKinds (cl_Kinds request)).

Definition Claim (r : MaintenanceRepository) (ctx : ctxErr) (now : gotime) (request : ClaimRequest)
    : result (list Lease) * MaintenanceRepository :=
  match ctx with
  | Some e => (Err e, r)
  | None =>
      if claim_invalid request then (Err ErrInvalidJob, r)
      else
        let allowed := list_to_set (cl_Kinds request) in
        let now := UTC now in
        let ids := firstn (Z.to_nat (cl_Limit request)) (claim_ids r allowed now) in
        let '(leases, r) := lease_ids (cl_WorkerID request) (time_Add now (cl_LeaseDuration request)) r ids in
        (Ok leases, r)
  end.

Definition validMaintenanceLease (row : maintenanceRow) (request : FinishRequest) (now : gotime) : bool :=
  negb (String.eqb (fr_WorkerID request) "") && (0 <? fr_FencingToken request) &&
  bool_decide (row_state row = Leased) && String.eqb (row_owner row) (fr_WorkerID request) &&
  (row_fencing row =? fr_FencingToken request) && After (row_leaseExpires row) now.

(** The common prefix of [Complete] and [Fail]: find the row and check the lease. *)
Definition held_row (r : MaintenanceRepository) (now : gotime) (request : FinishRequest) : result maintenanceRow :=
  match jobs r !! fr_JobID request with
  | None => Err ErrJobNotFound
  | Some row =>
      reject negb (String.eqb (sp_TenantID (row_spec row)) (fr_TenantID request)) with ErrJobNotFound;
      reject negb (validMaintenanceLease row request (UTC now)) with ErrStaleLease;
      Ok row
  end.

Definition put_row (r : MaintenanceRepository) (id : string) (row : maintenanceRow) : MaintenanceRepository :=
  mk_repo (<[id := row]> (jobs r)) (idempotency r).

Definition completed_row (row : maintenanceRow) : maintenanceRow :=
  mk_row (row_spec row) Completed (row_attempt row) (row_fencing row) "" zero_time (row_available row) (row_errorCode row).

Definition Complete (r : MaintenanceRepository) (ctx : ctxErr) (now : gotime) (request : FinishRequest)
    : result unit * MaintenanceRepository :=
  match ctx with
  | Some e => (Err e, r)
  | None =>
      match held_row r now request with
      | Err e => (Err e, r)
      | Ok row => (Ok tt, put_row r (fr_JobID request) (completed_row row))
      end
  end.

Definition failed_row (request : FailRequest) (row : maintenanceRow) : maintenanceRow :=
  if fl_DeadLetter request
  then mk_row (row_spec row) DeadLetter (row_attempt row) (row_fencing row) "" zero_time (row_available row)
         (fl_ErrorCode request)
  else mk_row (row_spec row) Pending (row_attempt row) (row_fencing row) "" zero_time (fl_RetryAt request)
         (fl_ErrorCode request).

Definition Fail (r : MaintenanceRepository) (ctx : ctxErr) (now : gotime) (request : FailRequest)
    : result unit * MaintenanceRepository :=
  match ctx with
  | Some e => (Err e, r)
  | None =>
      if String.eqb (fl_ErrorCode request) "" || IsZero (fl_RetryAt request) ||
         negb (time_Equal (fl_RetryAt request) (UTC (fl_RetryAt request)))
      then (Err ErrInvalidJob, r)
      else
        match held_row r now (fl_Finish request) with
        | Err e => (Err e, r)
        | Ok row => (Ok tt, put_row r (fr_JobID (fl_Finish request)) (failed_row request row))
        end
  end.

(** One row's contribution to the statistics of its kind. *)
Definition stats_step (now : gotime) (byKind : gmap string QueueStats) (row : maintenanceRow) : gmap string QueueStats :=
  if negb (bool_decide (row_state row = Pending)) &&
     (negb (bool_decide (row_state row = Leased)) || After (row_leaseExpires row) now)
  then byKind
  else
    let kind := sp_Kind (row_spec row) in
    let value := default (mk_QueueStats "" 0 0) (byKind !! kind) in
    let age := Z.max 0 (time_Sub now (row_available row)) in
    <[kind := mk_QueueStats kind (wrap_i64 (qs_Pending value + 1))
                (if qs_OldestPendingAge value <? age then age else qs_OldestPendingAge value)]> byKind.

Definition Stats (r : MaintenanceRepository) (ctx : ctxErr) (now : gotime) : result (list QueueStats) :=
  match ctx with
  | Some e => Err e
  | None =>
      let byKind := foldl (stats_step (UTC now)) ∅ (List.map snd (map_to_list (jobs r))) in
      Ok (sort_slice (cmp_ltb (cmp_on qs_Kind String.compare)) (List.map snd (map_to_list byKind)))
  end.

Section queue.
Context `{RawCanonical} `{JCS} `{Digest}.

Definition job_invalid (tenantID kind idempotencyKeyHash payload : string) (createdAt : gotime) : bool :=
  match raw_canonical payload with
  | None => true
  | Some normalized => negb (String.eqb normalized payload)
  end || String.eqb tenantID "" || negb (validKind kind) || negb (sha256Pattern idempotencyKeyHash) ||
  (str_len payload =? 0) || (Z.shiftl 16 20 <? str_len payload) || IsZero createdAt ||
  negb (time_Equal createdAt (UTC createdAt)).

Definition NewSpec (tenantID kind idempotencyKeyHash payload : string) (createdAt : gotime) : result Spec :=
  reject job_invalid tenantID kind idempotencyKeyHash payload createdAt with ErrInvalidJob;
  let value := mk_Spec "maintenance-job.v1" "" tenantID kind idempotencyKeyHash payload createdAt "" "" in
  let* (encoded, hash) := MarshalAndHash (spec_json value) in
  Ok (mk_Spec "maintenance-job.v1" ("mjob_" ++ hash)%string tenantID kind idempotencyKeyHash payload createdAt hash encoded).

Definition ValidateSpec (value : Spec) : bool :=
  match NewSpec (sp_TenantID value) (sp_Kind value) (sp_IdempotencyKeyHash value) (sp_CanonicalPayload value)
          (sp_CreatedAt value) with
  | Err _ => false
  | Ok rebuilt =>
      String.eqb (sp_ID rebuilt) (sp_ID value) && String.eqb (sp_ContentHash rebuilt) (sp_ContentHash value) &&
      String.eqb (sp_CanonicalJSON rebuilt) (sp_CanonicalJSON value)
  end.

Definition pending_row (spec : Spec) : maintenanceRow :=
  mk_row spec Pending 0 0 "" zero_time (sp_CreatedAt spec) "".

Definition Enqueue (r : MaintenanceRepository) (ctx : ctxErr) (spec : Spec) : result unit * MaintenanceRepository :=
  match ctx with
  | Some e => (Err e, r)
  | None =>
      if negb (ValidateSpec spec) then (Err ErrInvalidJob, r)
      else
        match idempotency r !! job_key spec with
        | Some id =>
            if negb (String.eqb (default "" (option_map (fun row => sp_ContentHash (row_spec row)) (jobs r !! id)))
                       (sp_ContentHash spec))
            then (Err ErrJobConflict, r) else (Ok tt, r)
        | None =>
            (Ok tt, mk_repo (<[sp_ID spec := pending_row spec]> (jobs r)) (<[job_key spec := sp_ID spec]> (idempotency r)))
        end
  end.

End queue.

(** ** The runner *)
Record RunnerConfig := mk_RunnerConfig {
  rc_WorkerID : string;
  rc_BatchSize : Z;
  rc_LeaseDuration : Z;
  rc_PollInterval : Z;
  rc_MaximumBackoff : Z;
  rc_MaximumAttempts : Z
}.

(** The configuration test of [NewRunner]. *)
Definition config_invalid (c : RunnerConfig) : bool :=
  String.eqb (rc_WorkerID c) "" || (rc_BatchSize c <? 1) || (100 <? rc_BatchSize c) ||
  (rc_LeaseDuration c <? Second) || (rc_PollInterval c <=? 0) || (rc_MaximumBackoff c <? Second) ||
  (rc_MaximumAttempts c =? 0).

(** "[min(time.Second<<min(lease.AttemptCount-1, 20), r.config.MaximumBackoff)]" *)
Definition backoff (c : RunnerConfig) (attempt : Z) : Z :=
  Z.min (wrap_i64 (Z.shiftl Second (Z.min (wrap_u32 (attempt - 1)) 20))) (rc_MaximumBackoff c).

Definition finish_of (lease : Lease) : FinishRequest :=
  mk_FinishRequest (sp_TenantID (ls_Spec lease)) (sp_ID (ls_Spec lease)) (ls_LeaseOwner lease) (ls_FencingToken lease).

(** What one goroutine observes: the handler's result, the clock when it asks
    for a retry, the clock of the queue and the context at that call. *)
Record observation := mk_observation {
  ob_handled : bool;
  ob_retryNow : gotime;
  ob_queueNow : gotime;
  ob_ctx : ctxErr
}.

Definition fail_of (c : RunnerConfig) (lease : Lease) (retryNow : gotime) : FailRequest :=
  let dead := rc_MaximumAttempts c <=? ls_AttemptCount lease in
  let delay := if dead then 0 else backoff c (ls_AttemptCount lease) in
  mk_FailRequest (finish_of lease) "handler_failed" (time_Add (UTC retryNow) delay) dead.

Definition processLease (c : RunnerConfig) (r : MaintenanceRepository) (lease : Lease) (o : observation)
    : result bool * MaintenanceRepository :=
  if ob_handled o then
    match Complete r (ob_ctx o) (ob_queueNow o) (finish_of lease) with
    | (Ok _, r) => (Ok true, r)
    | (Err e, r) => (Err e, r)
    end
  else
    match Fail r (ob_ctx o) (ob_queueNow o) (fail_of c lease (ob_retryNow o)) with
    | (Ok _, r) => (Ok false, r)
    | (Err e, r) => (Err e, r)
    end.

(** The goroutines of a batch in the order in which their calls reach the queue:
    the number of completed leases, the errors, and the queue. *)
Fixpoint processBatch (c : RunnerConfig) (r : MaintenanceRepository) (batch : list (Lease * observation))
    : Z * list goerr * MaintenanceRepository :=
  match batch with
  | [] => (0, [], r)
  | (lease, o) :: batch =>
      let '(out, r) := processLease c r lease o in
      let '(completed, failures, r) := processBatch c r batch in
      match out with
      | Ok true => (completed + 1, failures, r)
      | Ok false => (completed, failures, r)
      | Err e => (completed, e :: failures, r)
      end
  end.

(** [RunOnce] for the handlers of [kinds]; [schedule] pairs each lease with what
    its goroutine observes, in the order in which the goroutines reach the queue. *)
Definition RunOnce (c : RunnerConfig) (kinds : list string) (r : MaintenanceRepository) (ctx : ctxErr) (now : gotime)
    (schedule : list Lease -> list (Lease * observation)) : result (Z * list goerr) * MaintenanceRepository :=
  match Claim r ctx now (mk_ClaimRequest (rc_WorkerID c) (sort_strings kinds) (rc_BatchSize c) (rc_LeaseDuration c)) with
  | (Err e, r) => (Err e, r)
  | (Ok leases, r) =>
      let '(completed, failures, r) := processBatch c r (schedule leases) in
      (Ok (completed, failures), r)
  end.

(** ** Steps of the queue *)
Inductive op :=
| OpEnqueue (ctx : ctxErr) (spec : Spec)
| OpClaim (ctx : ctxErr) (now : gotime) (request : ClaimRequest)
| OpComplete (ctx : ctxErr) (now : gotime) (request : FinishRequest)
| OpFail (ctx : ctxErr) (now : gotime) (request : FailRequest).

Section safety.
Context `{RawCanonical} `{JCS} `{Digest}.

Definition apply_op (r : MaintenanceRepository) (o : op) : MaintenanceRepository :=
  match o with
  | OpEnqueue ctx spec => snd (Enqueue r ctx spec)
  | OpClaim ctx now request => snd (Claim r ctx now request)
  | OpComplete ctx now request => snd (Complete r ctx now request)
  | OpFail ctx now request => snd (Fail r ctx now request)
  end.

(** The leases an operation hands out. *)
Definition op_leases (r : MaintenanceRepository) (o : op) : list Lease :=
  match o with
  | OpClaim ctx now request => match fst (Claim r ctx now request) with Ok leases => leases | Err _ => [] end
  | _ => []
  end.

Fixpoint run (r : MaintenanceRepository) (ops : list op) : MaintenanceRepository :=
  match ops with
  | [] => r
  | o :: ops => run (apply_op r o) ops
  end.

(** Every job is stored under its own identifier and is the one its idempotency
    key names. *)
Definition queue_ok (r : MaintenanceRepository) : Prop :=
  (forall id row, jobs r !! id = Some row ->
    sp_ID (row_spec row) = id /\ idempotency r !! job_key (row_spec row) = Some id) /\
  (forall key id, idempotency r !! key = Some id ->
    exists row, jobs r !! id = Some row /\ job_key (row_spec row) = key).

(** No enqueued specification has the identifier, a SHA-256 digest, of a stored
    job with another idempotency key. *)
Definition no_collision (r : MaintenanceRepository) (o : op) : Prop :=
  match o with
  | OpEnqueue _ spec => forall row, jobs r !! sp_ID spec = Some row -> job_key (row_spec row) = job_key spec
  | _ => True
  end.

Fixpoint collision_free (r : MaintenanceRepository) (ops : list op) : Prop :=
  match ops with
  | [] => True
  | o :: ops => no_collision r o /\ collision_free (apply_op r o) ops
  end.

(** The fencing counters can grow by [n] without wrapping. *)
Definition headroom (n : Z) (r : MaintenanceRepository) : Prop :=
  forall id row, jobs r !! id = Some row -> 0 <= row_fencing row /\ row_fencing row + n <= MaxUint64.

(** How one row may change: same job, fencing not smaller, finished rows fixed. *)
Definition row_advances (before after : maintenanceRow) : Prop :=
  row_spec after = row_spec before /\
  row_fencing before <= row_fencing after <= row_fencing before + 1 /\
  (row_state before = Completed \/ row_state before = DeadLetter -> after = before).

Lemma row_advances_refl row : row_advances row row.
Proof. split; [done|]. split; [lia|done]. Qed.

(** [lease_ids] leases exactly the listed rows. *)
Lemma lease_ids_spec worker expires r ids leases r' :
  NoDup ids -> lease_ids worker expires r ids = (leases, r') ->
  idempotency r' = idempotency r /\
  (forall id, jobs r' !! id =
     match jobs r !! id with
     | Some row => Some (if bool_decide (id ∈ ids) then leased_row worker expires row else row)
     | None => None
     end) /\
  (forall l, l ∈ leases <-> exists id row, id ∈ ids /\ jobs r !! id = Some row /\ l = lease_of (leased_row worker expires row)).
Proof.
  revert r leases r'. induction ids as [|i ids IH]; intros r leases r' Hn; simpl.
  { intros [= <- <-]. split; [done|]. split.
    - intros id. by destruct (jobs r !! id).
    - intros l. split; [by intros ?%not_elem_of_nil|]. intros (id & row & Hin & _). by apply not_elem_of_nil in Hin. }
  inversion Hn as [|? ? Hi Hn']; subst. destruct (jobs r !! i) as [row|] eqn:Ei.
  - destruct (lease_ids _ _ _ ids) as [rest r1] eqn:El. intros [= <- <-].
    apply IH in El as (Hid & Hjobs & Hl); [|done]. simpl in *. split; [done|]. split.
    + intros id. rewrite Hjobs. destruct (decide (id = i)) as [->|Hne].
      * rewrite lookup_insert_eq, Ei. rewrite bool_decide_false by done. rewrite bool_decide_true by left. done.
      * rewrite lookup_insert_ne by done. destruct (jobs r !! id); [|done]. do 2 f_equal.
        erewrite bool_decide_ext; [reflexivity|]. rewrite elem_of_cons. naive_solver.
    + intros l. rewrite elem_of_cons, Hl. split.
      * intros [->|(id & row' & Hin & Hj & ->)]; [exists i, row; split; [left|done]|].
        rewrite lookup_insert_ne in Hj by congruence. exists id, row'. split; [by right|done].
      * intros (id & row' & Hin & Hj & ->). apply elem_of_cons in Hin as [->|Hin]; [left; congruence|right].
        exists id, row'. split; [done|]. split; [|done]. rewrite lookup_insert_ne; [done|congruence].
  - intros El. apply IH in El as (Hid & Hjobs & Hl); [|done]. split; [done|]. split.
    + intros id. rewrite Hjobs. destruct (jobs r !! id) eqn:E; [|done]. do 2 f_equal.
      erewrite bool_decide_ext; [reflexivity|]. rewrite elem_of_cons. naive_solver.
    + intros l. rewrite Hl. split; intros (id & row' & Hin & Hj & ->); exists id, row'; split; try done; [by right|].
      apply elem_of_cons in Hin as [->|]; [congruence|done].
Qed.

Lemma claim_ids_spec r allowed now :
  NoDup (claim_ids r allowed now) /\
  (forall id, id ∈ claim_ids r allowed now <-> exists row, jobs r !! id = Some row /\ claimable allowed now row = true).
Proof.
  unfold claim_ids. split.
  - rewrite sort_slice_perm. apply NoDup_map_filter. exact (NoDup_fst_map_to_list (jobs r)).
  - intros id. rewrite sort_slice_elem, list_elem_of_In, in_map_iff. split.
    + intros ([i row] & <- & [Hin Hc]%filter_In). exists row. split; [|done]. by apply elem_of_map_to_list, list_elem_of_In.
    + intros (row & Hj & Hc). exists (id, row). split; [done|]. apply filter_In. split; [|done].
      by apply list_elem_of_In, elem_of_map_to_list.
Qed.

Lemma Claim_inv r ctx now request leases r' :
  Claim r ctx now request = (Ok leases, r') ->
  exists ids, NoDup ids /\
    (forall id, id ∈ ids -> exists row, jobs r !! id = Some row /\
       claimable (list_to_set (cl_Kinds request)) (UTC now) row = true) /\
    lease_ids (cl_WorkerID request) (time_Add (UTC now) (cl_LeaseDuration request)) r ids = (leases, r').
Proof.
  unfold Claim. destruct ctx; [done|]. destruct (claim_invalid request); [done|].
  destruct (claim_ids_spec r (list_to_set (cl_Kinds request)) (UTC now)) as [Hn Hids].
  set (ids := firstn (Z.to_nat (cl_Limit request)) (claim_ids r (list_to_set (cl_Kinds request)) (UTC now))).
  destruct (lease_ids _ _ r ids) as [ls r1] eqn:El. intros [= <- <-]. exists ids.
  assert (Hsub : forall id, id ∈ ids -> id ∈ claim_ids r (list_to_set (cl_Kinds request)) (UTC now)).
  { intros id Hin. eapply elem_of_sublist; [exact Hin|]. apply sublist_take. }
  split; [|split; [|done]].
  - eapply sublist_NoDup; [exact Hn|]. apply sublist_take.
  - intros id Hin. by apply Hids, Hsub.
Qed.

(** A finishing call replaces the row it found, or nothing. *)
Lemma held_row_inv r now request row :
  held_row r now request = Ok row ->
  jobs r !! fr_JobID request = Some row /\ sp_TenantID (row_spec row) = fr_TenantID request /\
  validMaintenanceLease row request (UTC now) = true.
Proof.
  unfold held_row. destruct (jobs r !! fr_JobID request) as [x|]; [|done].
  destruct (String.eqb_spec (sp_TenantID (row_spec x)) (fr_TenantID request)); simpl; [|done].
  destruct (validMaintenanceLease x request (UTC now)) eqn:E; simpl; [|done]. intros [= <-]. done.
Qed.

Lemma valid_lease_leased row request now : validMaintenanceLease row request now = true -> row_state row = Leased.
Proof. unfold validMaintenanceLease. rewrite !andb_true_iff, bool_decide_eq_true. naive_solver. Qed.

(** The effect of an operation: existing rows advance, and only an [Enqueue]
    with a new idempotency key adds one. *)
Definition op_effect (r : MaintenanceRepository) (o : op) (r' : MaintenanceRepository) : Prop :=
  (forall id row, jobs r !! id = Some row -> exists row', jobs r' !! id = Some row' /\ row_advances row row') /\
  (((forall id, is_Some (jobs r' !! id) -> is_Some (jobs r !! id)) /\ idempotency r' = idempotency r) \/
   (exists ctx spec, o = OpEnqueue ctx spec /\ idempotency r !! job_key spec = None /\
      r' = mk_repo (<[sp_ID spec := pending_row spec]> (jobs r)) (<[job_key spec := sp_ID spec]> (idempotency r)))).

Lemma effect_same r o : op_effect r o r.
Proof.
  split; [|by left]. intros id row Hj. exists row. split; [done|]. apply row_advances_refl.
Qed.

Lemma effect_put r o id0 row0 new : jobs r !! id0 = Some row0 -> row_advances row0 new -> op_effect r o (put_row r id0 new).
Proof.
  intros Hj0 Hadv. split.
  - intros id row Hj. simpl. destruct (decide (id = id0)) as [->|].
    + rewrite lookup_insert_eq. exists new. split; [done|]. congruence.
    + rewrite lookup_insert_ne by done. exists row. split; [done|]. apply row_advances_refl.
  - left. split; [|done]. intros id. simpl. destruct (decide (id = id0)) as [->|]; [by rewrite Hj0|].
    by rewrite lookup_insert_ne.
Qed.

Lemma Enqueue_effect r ctx spec :
  queue_ok r -> no_collision r (OpEnqueue ctx spec) -> op_effect r (OpEnqueue ctx spec) (snd (Enqueue r ctx spec)).
Proof.
  intros Hok Hcol. unfold Enqueue. destruct ctx; [apply effect_same|].
  destruct (ValidateSpec spec); simpl; [|apply effect_same].
  destruct (idempotency r !! job_key spec) as [id|] eqn:Eid; simpl; [destruct (negb _); apply effect_same|].
  assert (Hfresh : jobs r !! sp_ID spec = None).
  { destruct (jobs r !! sp_ID spec) as [row|] eqn:Ej; [|done]. exfalso.
    specialize (Hcol row Ej). destruct (proj1 Hok _ _ Ej) as [_ Hk]. rewrite Hcol, Eid in Hk. done. }
  split; [|right; by exists None, spec].
  intros id row Hj. exists row. simpl. rewrite lookup_insert_ne by congruence. split; [done|]. apply row_advances_refl.
Qed.

Lemma Claim_err r ctx now request e r' : Claim r ctx now request = (Err e, r') -> r' = r.
Proof.
  unfold Claim. destruct ctx; [by intros [= _ <-]|].
  destruct (claim_invalid request); [by intros [= _ <-]|]. destruct (lease_ids _ _ _ _). done.
Qed.

Lemma Claim_effect r ctx now request :
  headroom 1 r -> op_effect r (OpClaim ctx now request) (snd (Claim r ctx now request)).
Proof.
  intros Hhead. destruct (Claim r ctx now request) as [[leases|e] r'] eqn:Ec; simpl.
  - apply Claim_inv in Ec as (ids & Hn & Hids & Hl). apply lease_ids_spec in Hl as (Hidem & Hjobs & _); [|done].
    split; [|left; split; [|done]].
    + intros id row Hj. rewrite Hjobs, Hj. eexists. split; [done|].
      case_bool_decide as Hin; [|apply row_advances_refl]. destruct (Hids id Hin) as (row' & Hj' & Hc).
      rewrite Hj in Hj'. injection Hj' as <-. destruct (Hhead id row Hj). split; [done|]. simpl.
      rewrite wrap_u64_id by (unfold_widths; lia). split; [lia|].
      unfold claimable in Hc. intros [Hs|Hs]; rewrite Hs in Hc; by rewrite andb_false_r in Hc.
    + intros id. rewrite Hjobs. by destruct (jobs r !! id).
  - apply Claim_err in Ec as ->. apply effect_same.
Qed.

Lemma Complete_effect r ctx now request : op_effect r (OpComplete ctx now request) (snd (Complete r ctx now request)).
Proof.
  unfold Complete. destruct ctx; [apply effect_same|].
  destruct (held_row r now request) as [row|e] eqn:Eh; [|apply effect_same].
  apply held_row_inv in Eh as (Hj & _ & Hv). apply valid_lease_leased in Hv. apply (effect_put _ _ _ row); [done|].
  split; [done|]. split; [simpl; lia|]. rewrite Hv. naive_solver.
Qed.

Lemma Fail_effect r ctx now request : op_effect r (OpFail ctx now request) (snd (Fail r ctx now request)).
Proof.
  unfold Fail. destruct ctx; [apply effect_same|]. destruct (_ || _); [apply effect_same|].
  destruct (held_row r now (fl_Finish request)) as [row|e] eqn:Eh; [|apply effect_same].
  apply held_row_inv in Eh as (Hj & _ & Hv). apply valid_lease_leased in Hv. apply (effect_put _ _ _ row); [done|].
  unfold failed_row. destruct (fl_DeadLetter request); (split; [done|]; split; [simpl; lia|]; rewrite Hv; naive_solver).
Qed.

Lemma apply_op_effect r o : queue_ok r -> no_collision r o -> headroom 1 r -> op_effect r o (apply_op r o).
Proof.
  intros Hok Hcol Hhead.
  destruct o; [by apply Enqueue_effect|by apply Claim_effect|apply Complete_effect|apply Fail_effect].
Qed.

(** The invariant and the head room survive a step. *)
Lemma apply_op_ok r o : queue_ok r -> no_collision r o -> headroom 1 r -> queue_ok (apply_op r o).
Proof.
  intros Hok Hcol Hhead. destruct (apply_op_effect r o Hok Hcol Hhead) as [Hadv Hnew].
  destruct Hok as [Hok1 Hok2]. destruct Hnew as [[Hold Hidem]|(ctx & spec & _ & Hnone & Hr)].
  - split.
    + intros id row' Hj'. destruct (Hold id) as [row Hj]; [by rewrite Hj'|].
      destruct (Hadv id row Hj) as (row'' & Hj'' & Hspec & _). rewrite Hj' in Hj''. injection Hj'' as <-.
      rewrite Hspec, Hidem. by apply Hok1.
    + intros key id Hk. rewrite Hidem in Hk. destruct (Hok2 key id Hk) as (row & Hj & Hkey).
      destruct (Hadv id row Hj) as (row' & Hj' & Hspec & _). exists row'. by rewrite Hspec.
  - rewrite Hr in Hadv |- *. split; simpl.
    + intros id row Hj. destruct (decide (id = sp_ID spec)) as [->|].
      * rewrite lookup_insert_eq in Hj. injection Hj as <-. simpl. by rewrite lookup_insert_eq.
      * rewrite lookup_insert_ne in Hj by done. destruct (Hok1 id row Hj) as [Hid Hk]. split; [done|].
        rewrite lookup_insert_ne; [done|]. congruence.
    + intros key id Hk. destruct (decide (key = job_key spec)) as [->|].
      * rewrite lookup_insert_eq in Hk. injection Hk as <-. exists (pending_row spec). by rewrite lookup_insert_eq.
      * rewrite lookup_insert_ne in Hk by done. destruct (Hok2 key id Hk) as (row & Hj & Hkey).
        destruct (Hadv id row Hj) as (row' & Hj' & Hspec & _). exists row'. simpl in Hj'. by rewrite Hspec.
Qed.

Lemma apply_op_headroom r o n :
  queue_ok r -> no_collision r o -> 1 <= n <= MaxUint64 -> headroom n r -> headroom (n - 1) (apply_op r o).
Proof.
  intros Hok Hcol Hn Hhead.
  assert (Hhead1 : headroom 1 r) by (intros id row Hj; destruct (Hhead id row Hj); lia).
  destruct (apply_op_effect r o Hok Hcol Hhead1) as [Hadv Hnew]. intros id row' Hj'.
  destruct (jobs r !! id) as [row|] eqn:Hj.
  - destruct (Hadv id row Hj) as (row'' & Hj'' & _ & Hf & _). rewrite Hj' in Hj''. injection Hj'' as <-.
    destruct (Hhead id row Hj). lia.
  - destruct Hnew as [[Hold _]|(ctx & spec & _ & _ & Hr)].
    + destruct (Hold id) as [row Hr]; [by rewrite Hj'|]. congruence.
    + rewrite Hr in Hj'. simpl in Hj'. destruct (decide (id = sp_ID spec)) as [->|].
      * rewrite lookup_insert_eq in Hj'. injection Hj' as <-. simpl. lia.
      * rewrite lookup_insert_ne in Hj' by done. congruence.
Qed.

(** Facts about a whole run. *)
Record run_from (r : MaintenanceRepository) (ops : list op) : Prop := {
  rf_ok : queue_ok r;
  rf_free : collision_free r ops;
  rf_head : headroom (Z.of_nat (length ops)) r;
  rf_len : Z.of_nat (length ops) <= MaxUint64
}.

Lemma run_from_cons r o ops : run_from r (o :: ops) -> run_from (apply_op r o) ops /\ op_effect r o (apply_op r o).
Proof.
  intros [Hok [Hcol Hfree] Hhead Hlen]. cbn [length] in *.
  assert (Hhead1 : headroom 1 r) by (intros id row Hj; destruct (Hhead id row Hj); lia).
  split; [|by apply apply_op_effect]. split.
  - by apply apply_op_ok.
  - done.
  - replace (Z.of_nat (length ops)) with (Z.of_nat (S (length ops)) - 1) by lia. apply apply_op_headroom; try done. lia.
  - lia.
Qed.

Lemma run_app r ops ops' : run r (ops ++ ops') = run (run r ops) ops'.
Proof. revert r. induction ops as [|o ops IH]; intros r; simpl; [done|]. by rewrite IH. Qed.

Lemma run_from_app r ops ops' : run_from r (ops ++ ops') -> run_from (run r ops) ops'.
Proof.
  revert r. induction ops as [|o ops IH]; intros r; simpl; [done|]. intros [Hr _]%run_from_cons. by apply IH.
Qed.

Lemma run_rows r ops id row :
  run_from r ops -> jobs r !! id = Some row ->
  exists row', jobs (run r ops) !! id = Some row' /\ row_spec row' = row_spec row /\
    row_fencing row <= row_fencing row' /\
    (row_state row = Completed \/ row_state row = DeadLetter -> row' = row).
Proof.
  revert r row. induction ops as [|o ops IH]; intros r row Hr Hj; simpl.
  { exists row. split; [done|]. split; [done|]. split; [lia|done]. }
  apply run_from_cons in Hr as [Hr [Hadv _]]. destruct (Hadv id row Hj) as (row1 & Hj1 & Hspec & Hf & Hterm).
  destruct (IH _ row1 Hr Hj1) as (row' & Hj' & Hspec' & Hf' & Hterm'). exists row'.
  split; [done|]. split; [congruence|]. split; [lia|]. intros Ht. specialize (Hterm Ht). subst row1. by apply Hterm'.
Qed.

Lemma run_from_prefix r ops ops' : run_from r (ops ++ ops') -> run_from r ops.
Proof.
  intros [Hok Hfree Hhead Hlen]. rewrite length_app in *. split; try done.
  - clear -Hfree. revert r Hfree. induction ops as [|o ops IH]; intros r; simpl; [done|]. intros [? ?]. split; [done|]. by apply IH.
  - intros id row Hj. destruct (Hhead id row Hj). lia.
  - lia.
Qed.

(** The leases of a step: each is the new row of its job, which was claimable. *)
Lemma op_leases_row r o l :
  queue_ok r -> headroom 1 r -> l ∈ op_leases r o ->
  exists ctx now request row, o = OpClaim ctx now request /\
    jobs r !! sp_ID (ls_Spec l) = Some row /\ ls_Spec l = row_spec row /\
    claimable (list_to_set (cl_Kinds request)) (UTC now) row = true /\
    ls_FencingToken l = row_fencing row + 1 /\
    exists row', jobs (apply_op r o) !! sp_ID (ls_Spec l) = Some row' /\ l = lease_of row'.
Proof.
  intros Hok Hhead. destruct o as [|ctx now request| |]; simpl; try by intros ?%not_elem_of_nil.
  destruct (Claim r ctx now request) as [[leases|e] r'] eqn:Ec; simpl; [|by intros ?%not_elem_of_nil].
  apply Claim_inv in Ec as (ids & Hn & Hids & Hl). apply lease_ids_spec in Hl as (_ & Hjobs & Hleases); [|done].
  intros (id & row & Hin & Hj & ->)%Hleases. exists ctx, now, request, row.
  destruct (proj1 Hok id row Hj) as [Hid _]. simpl. rewrite Hid.
  destruct (Hids id Hin) as (row' & Hj' & Hc). rewrite Hj in Hj'. injection Hj' as <-.
  split; [done|]. split; [done|]. split; [done|]. split; [done|].
  destruct (Hhead id row Hj). split; [by rewrite wrap_u64_id by (unfold_widths; lia)|].
  eexists. rewrite Hjobs, Hj, bool_decide_true by done. split; reflexivity.
Qed.

Lemma held_row_stale r now f row :
  jobs r !! fr_JobID f = Some row -> sp_TenantID (row_spec row) = fr_TenantID f ->
  row_fencing row <> fr_FencingToken f -> held_row r now f = Err ErrStaleLease.
Proof.
  intros Hj Ht Hf. unfold held_row. rewrite Hj, Ht, str_eqb_refl. simpl.
  destruct (validMaintenanceLease row f (UTC now)) eqn:E; [|done]. exfalso.
  unfold validMaintenanceLease in E. autorewrite with goboolsimpl in E. tauto.
Qed.

(** C7: Fencing: once a job has been claimed again, the lease of an earlier
    claim can neither complete nor fail it, at any later time and after any
    further operations of the queue. *)
Theorem superseded_lease_rejected (r : MaintenanceRepository) (o1 o2 : op) (mid more : list op) (l1 l2 : Lease) :
  run_from r (o1 :: mid ++ o2 :: more) ->
  l1 ∈ op_leases r o1 -> l2 ∈ op_leases (run r (o1 :: mid)) o2 ->
  sp_ID (ls_Spec l1) = sp_ID (ls_Spec l2) ->
  let last := run r (o1 :: mid ++ o2 :: more) in
  forall now f, fl_Finish f = finish_of l1 ->
    Complete last None now (finish_of l1) = (Err ErrStaleLease, last) /\
    (exists e, Fail last None now f = (Err e, last)).
Proof.
  intros Hrun Hl1 Hl2 Hid last now f Hf.
  assert (Hhead1 : headroom 1 r).
  { intros id row Hj. destruct Hrun as [_ _ Hh _]. destruct (Hh id row Hj). cbn [length] in *. lia. }
  destruct (op_leases_row r o1 l1 (rf_ok _ _ Hrun) Hhead1 Hl1) as (_ & _ & _ & row1 & _ & _ & _ & _ & _ & row1' & Hj1 & El1).
  pose proof Hrun as Hrun1. apply run_from_cons in Hrun1 as [Hrun1 _].
  pose proof (run_from_prefix _ mid _ Hrun1) as Hmid.
  destruct (run_rows _ mid _ row1' Hmid Hj1) as (row2 & Hj2 & Hs2 & Hf2 & _).
  pose proof (run_from_app _ mid _ Hrun1) as Hrun2.
  assert (Hhead2 : headroom 1 (run (apply_op r o1) mid)).
  { intros id row Hj. destruct Hrun2 as [_ _ Hh _]. destruct (Hh id row Hj). cbn [length] in *. lia. }
  destruct (op_leases_row _ o2 l2 (rf_ok _ _ Hrun2) Hhead2 Hl2) as (_ & _ & _ & row3 & _ & Hj3 & _ & _ & Htok & row3' & Hj3' & El2).
  rewrite <- Hid in Hj3, Hj3'. rewrite Hj2 in Hj3. injection Hj3 as <-.
  apply run_from_cons in Hrun2 as [Hrun3 [Hadv3 _]].
  destruct (Hadv3 _ row2 Hj2) as (row3'' & Hj3'' & Hs3 & _). rewrite Hj3' in Hj3''. injection Hj3'' as <-.
  destruct (run_rows _ more _ row3' Hrun3 Hj3') as (row4 & Hj4 & Hs4 & Hf4 & _).
  assert (Hlast : jobs last !! fr_JobID (finish_of l1) = Some row4).
  { subst last. simpl. rewrite run_app. simpl. done. }
  assert (Hstale : held_row last now (finish_of l1) = Err ErrStaleLease).
  { apply (held_row_stale _ _ _ row4 Hlast).
    - simpl. rewrite Hs4, Hs3, Hs2, El1. done.
    - simpl. rewrite El1, El2 in *. simpl in *. lia. }
  split.
  - unfold Complete. by rewrite Hstale.
  - unfold Fail. destruct (_ || _); [by eexists|]. rewrite Hf, Hstale. by eexists.
Qed.

(** Mutual exclusion: while the holder of a lease could still finish its
    job, no claim made at that time takes the job. *)
Theorem live_lease_exclusive (r : MaintenanceRepository) (now : gotime) (f : FinishRequest) (row : maintenanceRow)
    (ctx : ctxErr) (request : ClaimRequest) (l : Lease) :
  queue_ok r -> headroom 1 r -> held_row r now f = Ok row ->
  l ∈ op_leases r (OpClaim ctx now request) ->
  sp_ID (ls_Spec l) <> fr_JobID f /\
  jobs (apply_op r (OpClaim ctx now request)) !! fr_JobID f = Some row.
Proof.
  intros Hok Hhead Hheld Hl. apply held_row_inv in Hheld as (Hj & _ & Hv).
  assert (Hnc : forall allowed, claimable allowed (UTC now) row = false).
  { intros allowed. unfold validMaintenanceLease in Hv. unfold claimable. autorewrite with goboolsimpl in Hv.
    rewrite bool_decide_eq_true in Hv. destruct Hv as [[[[_ Hs] _] _] ->]. rewrite Hs. by rewrite !andb_false_r. }
  simpl in Hl. simpl. destruct (Claim r ctx now request) as [[leases|e] r'] eqn:Ec; simpl in *; [|by apply not_elem_of_nil in Hl].
  apply Claim_inv in Ec as (ids & Hn & Hids & Hls). apply lease_ids_spec in Hls as (_ & Hjobs & Hleases); [|done].
  assert (Hnot : fr_JobID f ∉ ids).
  { intros Hin. destruct (Hids _ Hin) as (row' & Hj' & Hc). rewrite Hj in Hj'. injection Hj' as <-. by rewrite Hnc in Hc. }
  split.
  - apply Hleases in Hl as (id & row' & Hin & Hj' & ->). destruct (proj1 Hok id row' Hj') as [Hid _]. simpl.
    rewrite Hid. congruence.
  - by rewrite Hjobs, Hj, bool_decide_false.
Qed.

(** Finished jobs stay finished: a completed or dead-lettered job keeps its
    row through every later operation and is never leased again. *)
Theorem finished_job_final (r : MaintenanceRepository) (ops : list op) (o : op) (id : string) (row : maintenanceRow) (l : Lease) :
  run_from r (ops ++ [o]) -> jobs r !! id = Some row -> row_state row = Completed \/ row_state row = DeadLetter ->
  jobs (run r ops) !! id = Some row /\ (l ∈ op_leases (run r ops) o -> sp_ID (ls_Spec l) <> id).
Proof.
  intros Hrun Hj Hst. destruct (run_rows r ops id row (run_from_prefix _ _ _ Hrun) Hj) as (row' & Hj' & _ & _ & Hterm).
  rewrite (Hterm Hst) in Hj'. split; [done|]. intros Hl Hid.
  pose proof (run_from_app _ _ _ Hrun) as [Hok _ Hhead _].
  destruct (op_leases_row _ o l Hok Hhead Hl) as (? & ? & request & row2 & _ & Hj2 & _ & Hc & _).
  rewrite Hid, Hj' in Hj2. injection Hj2 as <-. unfold claimable in Hc.
  destruct Hst as [Hs|Hs]; rewrite Hs in Hc; by rewrite andb_false_r in Hc.
Qed.

Lemma run_idempotency r ops key id :
  run_from r ops -> idempotency r !! key = Some id -> idempotency (run r ops) !! key = Some id.
Proof.
  revert r. induction ops as [|o ops IH]; intros r Hr Hk; simpl; [done|].
  apply run_from_cons in Hr as [Hr [_ Hnew]]. apply IH; [done|].
  destruct Hnew as [[_ ->]|(ctx & spec & _ & Hnone & ->)]; [done|]. simpl. rewrite lookup_insert_ne; [done|]. congruence.
Qed.

(** Enqueueing is idempotent: after a job was accepted, enqueueing the same
    specification again, after any further operations, succeeds and changes
    nothing, and a valid specification with the same tenant, kind and key but
    other content is refused without effect. *)
Theorem Enqueue_idempotent (r : MaintenanceRepository) (spec other : Spec) (ops : list op) :
  run_from r (OpEnqueue None spec :: ops) ->
  fst (Enqueue r None spec) = Ok tt ->
  let last := run r (OpEnqueue None spec :: ops) in
  Enqueue last None spec = (Ok tt, last) /\
  (ValidateSpec other = true -> job_key other = job_key spec -> sp_ContentHash other <> sp_ContentHash spec ->
   Enqueue last None other = (Err ErrJobConflict, last)).
Proof.
  intros Hrun Hok last. pose proof (rf_ok _ _ Hrun) as [_ Hkeys]. apply run_from_cons in Hrun as [Hrun _].
  assert (Hv : ValidateSpec spec = true).
  { unfold Enqueue in Hok. by destruct (ValidateSpec spec). }
  assert (Hstored : exists row, jobs last !! default "" (idempotency last !! job_key spec) = Some row /\
    is_Some (idempotency last !! job_key spec) /\ sp_ContentHash (row_spec row) = sp_ContentHash spec).
  { assert (Hnow : exists id row, idempotency (apply_op r (OpEnqueue None spec)) !! job_key spec = Some id /\
      jobs (apply_op r (OpEnqueue None spec)) !! id = Some row /\ sp_ContentHash (row_spec row) = sp_ContentHash spec).
    { simpl. unfold Enqueue in *. rewrite Hv in *. simpl in *.
      destruct (idempotency r !! job_key spec) as [id|] eqn:Ek; simpl.
      - destruct (jobs r !! id) as [row|] eqn:Ej; simpl in *.
        + exists id, row. destruct (String.eqb_spec (sp_ContentHash (row_spec row)) (sp_ContentHash spec)); simpl in *; [|done].
          done.
        + destruct (Hkeys _ _ Ek) as (row & Hj & _). congruence.
      - exists (sp_ID spec), (pending_row spec). by rewrite !lookup_insert_eq. }
    destruct Hnow as (id & row & Hk & Hj & Hc).
    destruct (run_rows _ ops id row Hrun Hj) as (row' & Hj' & Hs & _). exists row'.
    change last with (run (apply_op r (OpEnqueue None spec)) ops). rewrite (run_idempotency _ ops _ id Hrun Hk). simpl.
    split; [done|]. split; [done|]. congruence. }
  destruct Hstored as (row & Hj & [id Hid] & Hc). rewrite Hid in Hj. simpl in Hj. split.
  - unfold Enqueue. rewrite Hv, Hid, Hj. simpl. by rewrite Hc, str_eqb_refl.
  - intros Hvo Hk Hne. unfold Enqueue. rewrite Hvo, Hk, Hid, Hj. simpl.
    destruct (String.eqb_spec (sp_ContentHash (row_spec row)) (sp_ContentHash other)); [congruence|done].
Qed.

(** ** Batches *)

(** What a goroutine does to its own job, from the row it finds there. *)
Definition lease_outcome (c : RunnerConfig) (row : option maintenanceRow) (lease : Lease) (o : observation)
    : result bool * option maintenanceRow :=
  let '(out, r) := processLease c (mk_repo (match row with Some x => {[sp_ID (ls_Spec lease) := x]} | None => ∅ end) ∅) lease o in
  (out, jobs r !! sp_ID (ls_Spec lease)).

Lemma held_row_local r r' now f :
  jobs r !! fr_JobID f = jobs r' !! fr_JobID f -> held_row r now f = held_row r' now f.
Proof. intros E. unfold held_row. by rewrite E. Qed.

(** A goroutine reads and writes the row of its own job only. *)
Lemma processLease_local c r lease o :
  let id := sp_ID (ls_Spec lease) in
  let '(out, new) := lease_outcome c (jobs r !! id) lease o in
  processLease c r lease o =
  (out, mk_repo (match new with Some row => <[id := row]> (jobs r) | None => jobs r end) (idempotency r)).
Proof.
  simpl. unfold lease_outcome, processLease. set (small := mk_repo _ ∅).
  assert (Hl : jobs small !! sp_ID (ls_Spec lease) = jobs r !! sp_ID (ls_Spec lease)).
  { unfold small. simpl. destruct (jobs r !! _); [by rewrite lookup_singleton_eq|done]. }
  clearbody small.
  assert (Hsame : mk_repo (match jobs r !! sp_ID (ls_Spec lease) with
    Some row => <[sp_ID (ls_Spec lease) := row]> (jobs r) | None => jobs r end) (idempotency r) = r).
  { destruct r as [js ks]. simpl. destruct (js !! _) eqn:E; [|done]. by rewrite insert_id. }
  destruct (ob_handled o).
  - unfold Complete. destruct (ob_ctx o); simpl; [by rewrite Hl, Hsame|].
    rewrite (held_row_local small r) by exact Hl. destruct (held_row r _ _) as [row|e]; simpl.
    + by rewrite lookup_insert_eq.
    + by rewrite Hl, Hsame.
  - unfold Fail. destruct (ob_ctx o); simpl; [by rewrite Hl, Hsame|].
    destruct (_ || negb _); simpl; [by rewrite Hl, Hsame|].
    rewrite (held_row_local small r) by exact Hl. destruct (held_row r _ _) as [row|e]; simpl.
    + by rewrite lookup_insert_eq.
    + by rewrite Hl, Hsame.
Qed.

Definition outcome_count (out : result bool) : Z := match out with Ok true => 1 | _ => 0 end.
Definition outcome_errors (out : result bool) : list goerr := match out with Err e => [e] | _ => [] end.

(** A batch of distinct jobs, job by job. *)
Lemma processBatch_spec c r batch :
  NoDup (List.map (fun b => sp_ID (ls_Spec (fst b))) batch) ->
  let outcome b := lease_outcome c (jobs r !! sp_ID (ls_Spec (fst b))) (fst b) (snd b) in
  let '(completed, failures, r') := processBatch c r batch in
  completed = zsum (fun b => outcome_count (fst (outcome b))) batch /\
  failures = flat_map (fun b => outcome_errors (fst (outcome b))) batch /\
  idempotency r' = idempotency r /\
  forall id, jobs r' !! id =
    match List.find (fun b => String.eqb (sp_ID (ls_Spec (fst b))) id) batch with
    | Some b => match snd (outcome b) with Some row => Some row | None => jobs r !! id end
    | None => jobs r !! id
    end.
Proof.
  revert r. induction batch as [|[l o] batch IH]; intros r Hn; simpl; [done|].
  inversion Hn as [|? ? Hl Hn']; subst. pose proof (processLease_local c r l o) as Hp. simpl in Hp.
  destruct (lease_outcome c (jobs r !! sp_ID (ls_Spec l)) l o) as [out new] eqn:Eo. rewrite Hp.
  set (r1 := mk_repo _ (idempotency r)). specialize (IH r1 Hn'). simpl in IH.
  assert (Hother : forall id, id <> sp_ID (ls_Spec l) -> jobs r1 !! id = jobs r !! id).
  { intros id Hne. subst r1. simpl. destruct new; [by rewrite lookup_insert_ne|done]. }
  assert (Hkeep : forall b, b ∈ batch -> jobs r1 !! sp_ID (ls_Spec (fst b)) = jobs r !! sp_ID (ls_Spec (fst b))).
  { intros b Hb. apply Hother. intros E. apply Hl. simpl. rewrite <- E.
    apply list_elem_of_In, (in_map (fun b => sp_ID (ls_Spec (fst b)))), list_elem_of_In. done. }
  destruct (processBatch c r1 batch) as [[completed failures] r2]. destruct IH as (Hc & Hf & Hi & Hj).
  assert (Hc' : completed = zsum (fun b => outcome_count (fst (lease_outcome c (jobs r !! sp_ID (ls_Spec (fst b))) (fst b) (snd b)))) batch).
  { rewrite Hc. apply zsum_ext. intros b Hb. by rewrite Hkeep. }
  assert (Hf' : failures = flat_map (fun b => outcome_errors (fst (lease_outcome c (jobs r !! sp_ID (ls_Spec (fst b))) (fst b) (snd b)))) batch).
  { rewrite Hf. clear -Hkeep. induction batch as [|b batch IH]; simpl; [done|]. rewrite Hkeep by left.
    f_equal. apply IH. intros b' Hb'. apply Hkeep. by right. }
  assert (Hj' : forall id, jobs r2 !! id =
    if String.eqb (sp_ID (ls_Spec l)) id then match new with Some row => Some row | None => jobs r !! id end
    else match List.find (fun b => String.eqb (sp_ID (ls_Spec (fst b))) id) batch with
         | Some b => match snd (lease_outcome c (jobs r !! sp_ID (ls_Spec (fst b))) (fst b) (snd b)) with
                     | Some row => Some row | None => jobs r !! id end
         | None => jobs r !! id end).
  { intros id. rewrite Hj. destruct (String.eqb_spec (sp_ID (ls_Spec l)) id) as [<-|Hne].
    - destruct (List.find _ batch) as [b|] eqn:E.
      + apply find_some in E as [Hin Heq%String.eqb_eq]. exfalso. apply Hl. simpl. rewrite <- Heq.
        by apply list_elem_of_In, (in_map (fun b => sp_ID (ls_Spec (fst b)))).
      + subst r1. simpl. destruct new; [by rewrite lookup_insert_eq|done].
    - rewrite Hother by congruence. destruct (List.find _ batch) as [b|] eqn:E; [|done].
      apply find_some in E as [Hin%list_elem_of_In _]. by rewrite Hkeep. }
  destruct out as [[|]|e]; simpl; (split; [lia|]); (split; [by rewrite Hf'|]); (split; [done|]);
    intros id; rewrite Hj'; destruct (String.eqb (sp_ID (ls_Spec l)) id); simpl; rewrite ?Eo; done.
Qed.

Lemma processBatch_perm c r batch batch' :
  NoDup (List.map (fun b => sp_ID (ls_Spec (fst b))) batch) -> batch ≡ₚ batch' ->
  let '(n, failures, q) := processBatch c r batch in
  let '(n', failures', q') := processBatch c r batch' in
  n = n' /\ failures ≡ₚ failures' /\ q = q'.
Proof.
  intros Hn Hp. pose proof (processBatch_spec c r batch Hn) as Hb.
  assert (Hn' : NoDup (List.map (fun b => sp_ID (ls_Spec (fst b))) batch')) by (by rewrite <- (Permutation_map _ Hp)).
  pose proof (processBatch_spec c r batch' Hn') as Hb'. simpl in Hb, Hb'.
  destruct (processBatch c r batch) as [[n fs] q], (processBatch c r batch') as [[n' fs'] q'].
  destruct Hb as (-> & -> & Hi & Hj), Hb' as (-> & -> & Hi' & Hj'). split; [by apply zsum_perm|]. split.
  - clear -Hp. induction Hp; simpl; [done|by rewrite IHHp|rewrite !app_assoc, (Permutation_app_comm (outcome_errors _)); done|by etransitivity].
  - destruct q as [js ks], q' as [js' ks']. simpl in *. f_equal; [|congruence]. apply map_eq. intros id. rewrite Hj, Hj'.
    change (List.find (fun b => String.eqb (sp_ID (ls_Spec (fst b))) id)) with
      (find_key (fun b : Lease * observation => sp_ID (ls_Spec (fst b))) id).
    by rewrite (find_key_perm _ id _ _ Hn Hp).
Qed.

Lemma lease_ids_distinct worker expires r ids leases r' :
  (forall id row, jobs r !! id = Some row -> sp_ID (row_spec row) = id) ->
  NoDup ids -> lease_ids worker expires r ids = (leases, r') -> NoDup (List.map (fun l => sp_ID (ls_Spec l)) leases).
Proof.
  revert r leases. induction ids as [|i ids IH]; intros r leases Hok Hn; simpl.
  { intros [= <- _]. constructor. }
  inversion Hn as [|? ? Hi Hn']; subst. destruct (jobs r !! i) as [row|] eqn:Ei; [|by apply IH].
  set (r1 := mk_repo _ _). assert (Hok1 : forall id row, jobs r1 !! id = Some row -> sp_ID (row_spec row) = id).
  { intros id x. subst r1. simpl. destruct (decide (id = i)) as [->|].
    - rewrite lookup_insert_eq. intros [= <-]. simpl. by apply Hok.
    - rewrite lookup_insert_ne by done. apply Hok. }
  destruct (lease_ids worker expires r1 ids) as [rest r2] eqn:El. intros [= <- <-]. simpl.
  rewrite (Hok i row Ei). apply NoDup_cons. split; [|by eapply IH].
  apply lease_ids_spec in El as (_ & _ & Hl); [|done].
  intros (l & Hid & (id & x & Hin & Hj & ->)%list_elem_of_In%Hl)%list_elem_of_In%in_map_iff. simpl in Hid.
  rewrite (Hok1 _ _ Hj) in Hid. congruence.
Qed.

(** C8: The outcome of a batch does not depend on how its goroutines
    interleave: for any two schedules of the same observations, [RunOnce] leaves
    the same queue, counts the same completions and reports the same errors up
    to their order. *)
Theorem RunOnce_interleaving (c : RunnerConfig) (kinds : list string) (r : MaintenanceRepository) (ctx : ctxErr)
    (now : gotime) (schedule schedule' : list Lease -> list (Lease * observation)) :
  queue_ok r ->
  (forall leases, List.map fst (schedule leases) ≡ₚ leases) ->
  (forall leases, schedule leases ≡ₚ schedule' leases) ->
  snd (RunOnce c kinds r ctx now schedule) = snd (RunOnce c kinds r ctx now schedule') /\
  match fst (RunOnce c kinds r ctx now schedule), fst (RunOnce c kinds r ctx now schedule') with
  | Ok (n, failures), Ok (n', failures') => n = n' /\ failures ≡ₚ failures'
  | Err e, Err e' => e = e'
  | _, _ => False
  end.
Proof.
  intros [Hok _] Hs Hs'. unfold RunOnce.
  destruct (Claim r ctx now _) as [[leases|e] r1] eqn:Ec; [|done].
  apply Claim_inv in Ec as (ids & Hn & _ & Hl).
  assert (Hd : NoDup (List.map (fun b => sp_ID (ls_Spec (fst b))) (schedule leases))).
  { rewrite <- (map_map fst (fun l => sp_ID (ls_Spec l))), (Permutation_map _ (Hs leases)).
    eapply lease_ids_distinct; [|exact Hn|exact Hl]. intros id row Hj. by apply Hok. }
  pose proof (processBatch_perm c r1 _ _ Hd (Hs' leases)) as Hp.
  destruct (processBatch c r1 (schedule leases)) as [[n fs] q], (processBatch c r1 (schedule' leases)) as [[n' fs'] q'].
  destruct Hp as (-> & Hf & ->). done.
Qed.

End safety.

(** Retries: a failed attempt below the limit is retried after a delay of
    at least one second and at most the configured maximum, the delay never
    shrinks as attempts grow, it is [2^(attempt-1)] seconds until the maximum or
    [2^20] seconds cut it off, and the job is dead-lettered exactly at the limit. *)
Theorem retry_policy (c : RunnerConfig) (lease : Lease) (now : gotime) :
  config_invalid c = false -> 1 <= ls_AttemptCount lease <= MaxUint32 -> in_i64 (rc_MaximumBackoff c) ->
  let request := fail_of c lease now in
  (fl_DeadLetter request = true <-> rc_MaximumAttempts c <= ls_AttemptCount lease) /\
  (fl_DeadLetter request = false ->
   t_ns (fl_RetryAt request) = t_ns now + Z.min (2 ^ Z.min (ls_AttemptCount lease - 1) 20 * Second) (rc_MaximumBackoff c)) /\
  Second <= backoff c (ls_AttemptCount lease) <= rc_MaximumBackoff c /\
  (forall later, ls_AttemptCount lease <= later <= MaxUint32 ->
     backoff c (ls_AttemptCount lease) <= backoff c later).
Proof.
  intros Hc Ha Hm. unfold config_invalid in Hc. autorewrite with goboolsimpl in Hc.
  assert (Hb : forall n, 1 <= n <= MaxUint32 -> backoff c n = Z.min (2 ^ Z.min (n - 1) 20 * Second) (rc_MaximumBackoff c)).
  { intros n Hn. unfold backoff. rewrite wrap_u32_id by (unfold_widths; lia).
    rewrite Z.shiftl_mul_pow2 by lia. rewrite wrap_i64_id; [f_equal; lia|].
    assert (2 ^ Z.min (n - 1) 20 <= 2 ^ 20) by (apply Z.pow_le_mono_r; lia).
    assert (0 < 2 ^ Z.min (n - 1) 20) by (apply Z.pow_pos_nonneg; lia). unfold_widths. unfold Second. lia. }
  assert (Hmono : forall n m, 1 <= n <= m -> 2 ^ Z.min (n - 1) 20 <= 2 ^ Z.min (m - 1) 20)
    by (intros; apply Z.pow_le_mono_r; lia).
  cbv zeta. unfold fail_of. simpl. rewrite Hb by lia. split; [by rewrite Z.leb_le|]. split.
  - intros ->. done.
  - specialize (Hmono 1 (ls_AttemptCount lease)) as H1. simpl in H1. unfold Second in *. split; [lia|].
    intros later Hl. rewrite Hb by lia. specialize (Hmono (ls_AttemptCount lease) later). lia.
Qed.

(** ** Witnesses *)
Section queue_witnesses.
#[local] Existing Instance copy_jcs.
#[local] Existing Instance checksum_digest.

#[local] Existing Instance copy_raw.

Definition key_of (a : ascii) : string := string_of_list_ascii (List.repeat a 64).
Definition at_second (n : Z) : gotime := mk_time (n * Second) 0.

Definition sample_spec (payload : string) : Spec :=
  match NewSpec "t" LifecycleEvaluation (key_of "a") payload (at_second 63800000000) with
  | Ok s => s
  | Err _ => mk_Spec "" "" "" "" "" "" zero_time "" ""
  end.

Definition sample_claim (worker : string) (seconds : Z) : op :=
  OpClaim None (at_second seconds) (mk_ClaimRequest worker [LifecycleEvaluation] 10 (5 * Second)).

Definition sample_ops : list op :=
  [OpEnqueue None (sample_spec "{}"); sample_claim "w1" 63800000000; sample_claim "w2" 63800000005].

Lemma sample_run : run_from newMaintenanceRepository sample_ops.
Proof.
  split.
  - split; intros k v Hk; unfold newMaintenanceRepository in Hk; cbn [jobs idempotency] in Hk; by rewrite lookup_empty in Hk.
  - split; [|done]. intros row Hr. unfold newMaintenanceRepository in Hr; cbn [jobs] in Hr. by rewrite lookup_empty in Hr.
  - intros id row Hr. unfold newMaintenanceRepository in Hr; cbn [jobs] in Hr. by rewrite lookup_empty in Hr.
  - vm_compute. discriminate.
Qed.

Definition sample_queue : MaintenanceRepository := run newMaintenanceRepository (firstn 1 sample_ops).

Lemma sample_queue_run : run_from sample_queue (skipn 1 sample_ops).
Proof. apply (run_from_cons _ _ _ sample_run). Qed.

Definition empty_lease : Lease := mk_Lease (sample_spec "") 0 0 "" zero_time.

Definition first_lease : Lease := hd empty_lease (op_leases sample_queue (sample_claim "w1" 63800000000)).
Definition second_lease : Lease :=
  hd empty_lease (op_leases (run newMaintenanceRepository (firstn 2 sample_ops)) (sample_claim "w2" 63800000005)).

Lemma superseded_lease_rejected_witness :
  fst (Complete (run newMaintenanceRepository sample_ops) None (at_second 63800000006) (finish_of first_lease)) = Err ErrStaleLease.
Proof.
  destruct (superseded_lease_rejected sample_queue (sample_claim "w1" 63800000000) (sample_claim "w2" 63800000005) [] []
    first_lease second_lease sample_queue_run) with (now := at_second 63800000006)
    (f := mk_FailRequest (finish_of first_lease) "x" (at_second 1) false) as [Hc _].
  - vm_compute. left.
  - vm_compute. left.
  - vm_compute. reflexivity.
  - reflexivity.
  - change (run sample_queue (sample_claim "w1" 63800000000 :: [] ++ [sample_claim "w2" 63800000005])) with
      (run newMaintenanceRepository sample_ops) in Hc. by rewrite Hc.
Defined.

Definition two_jobs : MaintenanceRepository :=
  run newMaintenanceRepository [OpEnqueue None (sample_spec "{}"); sample_claim "w1" 63800000000;
    OpEnqueue None (match NewSpec "t" LifecycleEvaluation (key_of "b") "[]" (at_second 63800000000) with
                    | Ok s => s | Err _ => sample_spec "" end)].

Lemma small_queue_ok (r : MaintenanceRepository) :
  forallb (fun '(id, row) => String.eqb (sp_ID (row_spec row)) id &&
     bool_decide (idempotency r !! job_key (row_spec row) = Some id) && (0 <=? row_fencing row) &&
     (row_fencing row <=? 100)) (map_to_list (jobs r)) &&
  forallb (fun '(key, id) => match jobs r !! id with
     | Some row => String.eqb (job_key (row_spec row)) key | None => false end) (map_to_list (idempotency r)) = true ->
  queue_ok r /\ headroom 1 r.
Proof.
  rewrite andb_true_iff, !forallb_forall. intros [Hj Hk].
  assert (Hrow : forall id row, jobs r !! id = Some row ->
    sp_ID (row_spec row) = id /\ idempotency r !! job_key (row_spec row) = Some id /\ 0 <= row_fencing row <= 100).
  { intros id row Hr. apply elem_of_map_to_list, list_elem_of_In in Hr. specialize (Hj _ Hr). simpl in Hj.
    rewrite !andb_true_iff, bool_decide_eq_true, String.eqb_eq, !Z.leb_le in Hj. tauto. }
  split; [split|].
  - intros id row Hr. destruct (Hrow id row Hr) as (? & ? & _). done.
  - intros key id Hr. apply elem_of_map_to_list, list_elem_of_In in Hr. specialize (Hk _ Hr). simpl in Hk.
    destruct (jobs r !! id) as [row|]; [|done]. exists row. by apply String.eqb_eq in Hk.
  - intros id row Hr. destruct (Hrow id row Hr) as (_ & _ & ?). unfold_widths. lia.
Qed.

Definition other_lease : Lease := hd empty_lease (op_leases two_jobs (sample_claim "w2" 63800000001)).

Lemma live_lease_exclusive_witness : sp_ID (ls_Spec other_lease) <> sp_ID (ls_Spec first_lease).
Proof.
  destruct (small_queue_ok two_jobs) as [Hok Hhead]; [vm_compute; reflexivity|].
  apply (live_lease_exclusive two_jobs (at_second 63800000001) (finish_of first_lease)
    (default (pending_row (sample_spec "")) (jobs two_jobs !! sp_ID (sample_spec "{}"))) None
    (mk_ClaimRequest "w2" [LifecycleEvaluation] 10 (5 * Second)) other_lease Hok Hhead).
  - vm_compute. reflexivity.
  - vm_compute. left.
Defined.

Definition completed_queue : MaintenanceRepository :=
  snd (Complete (run newMaintenanceRepository (firstn 2 sample_ops)) None (at_second 63800000001) (finish_of first_lease)).

Lemma finished_job_final_witness :
  jobs (run completed_queue [sample_claim "w2" 63800000009]) !! sp_ID (sample_spec "{}") =
  jobs completed_queue !! sp_ID (sample_spec "{}").
Proof.
  destruct (small_queue_ok completed_queue) as [Hok Hhead]; [vm_compute; reflexivity|].
  set (row := default (pending_row (sample_spec "")) (jobs completed_queue !! sp_ID (sample_spec "{}"))).
  destruct (finished_job_final completed_queue [sample_claim "w2" 63800000009] (sample_claim "w3" 63800000019)
    (sp_ID (sample_spec "{}")) row empty_lease) as [Hj _].
  - split; [done|done| |vm_compute; discriminate].
    intros id x Hx. cbn [length app]. destruct (small_queue_ok completed_queue) as [_ Hh]; [vm_compute; reflexivity|].
    assert (Hf : row_fencing x <= 100); [|destruct (Hh id x Hx); unfold_widths; lia].
    enough (Hall : forallb (fun '(_, y) => row_fencing y <=? 100) (map_to_list (jobs completed_queue)) = true).
    { rewrite forallb_forall in Hall. apply elem_of_map_to_list, list_elem_of_In, Hall, Z.leb_le in Hx. done. }
    vm_compute. reflexivity.
  - vm_compute. reflexivity.
  - left. vm_compute. reflexivity.
  - rewrite Hj. vm_compute. reflexivity.
Defined.

Lemma Enqueue_idempotent_witness :
  Enqueue sample_queue None (sample_spec "{}") = (Ok tt, sample_queue) /\
  Enqueue sample_queue None (sample_spec "[1]") = (Err ErrJobConflict, sample_queue).
Proof.
  assert (Hrun : run_from newMaintenanceRepository [OpEnqueue None (sample_spec "{}")]).
  { apply (run_from_prefix _ [OpEnqueue None (sample_spec "{}")] (skipn 1 sample_ops)). exact sample_run. }
  destruct (Enqueue_idempotent newMaintenanceRepository (sample_spec "{}") (sample_spec "[1]") [] Hrun) as [Hs Ho].
  - vm_compute. reflexivity.
  - split; [exact Hs|]. apply Ho.
    + vm_compute. reflexivity.
    + vm_compute. reflexivity.
    + vm_compute. discriminate.
Defined.

Definition sample_config : RunnerConfig := mk_RunnerConfig "w" 10 (5 * Second) Second (30 * Second) 3.

Definition observe (l : Lease) : Lease * observation :=
  (l, mk_observation (String.eqb (sp_CanonicalPayload (ls_Spec l)) "{}") (at_second 63800000021) (at_second 63800000021) None).

Lemma RunOnce_interleaving_witness :
  snd (RunOnce sample_config [LifecycleEvaluation] two_jobs None (at_second 63800000020) (List.map observe)) =
  snd (RunOnce sample_config [LifecycleEvaluation] two_jobs None (at_second 63800000020) (fun l => rev (List.map observe l))).
Proof.
  destruct (small_queue_ok two_jobs) as [Hok _]; [vm_compute; reflexivity|].
  destruct (RunOnce_interleaving sample_config [LifecycleEvaluation] two_jobs None (at_second 63800000020)
    (List.map observe) (fun l => rev (List.map observe l)) Hok) as [Hq _].
  - intros leases. rewrite map_map. cbn [observe fst]. by rewrite map_id.
  - intros leases. apply Permutation_rev.
  - exact Hq.
Defined.

Lemma retry_policy_witness : Second <= backoff sample_config 4 <= 30 * Second.
Proof.
  destruct (retry_policy sample_config (mk_Lease (sample_spec "{}") 4 1 "w" zero_time) zero_time) as (_ & _ & Hb & _).
  - vm_compute. reflexivity.
  - vm_compute. split; discriminate.
  - vm_compute. split; discriminate.
  - exact Hb.
Defined.

End queue_witnesses.
