(* ===== verification/Kahn.v ===== *)
(** * Kahn's algorithm

    The loop that the planner's [topologicalOrder] (composition/planner.go) and
    the causal graph's [hasCycle] (synthesis/builder.go) share: in-degrees and
    successors in Go maps, a slice of ready nodes, and one turn per node.  The
    two differ in the edge type and in how a released node enters the ready
    slice ([arrange]: kept sorted, or appended).

    [order_loop_spec] is the invariant at the end of the loop, [kahn_forward]
    and [kahn_complete] say what it means for the order, and [kahn_cycle] that
    nodes are left over only because of a cycle. *)

From Stdlib Require Import ZArith String Ascii List Bool Lia.
From stdpp Require Import base gmap strings list sorting relations.
From S2P Require Import Prelude GoStrings.

Open Scope Z_scope.

Definition degree (indegree : gmap string Z) (node : string) : Z :=
  match indegree !! node with Some d => d | None => 0 end.

Definition successors (adjacency : gmap string (list string)) (node : string) : list string :=
  match adjacency !! node with Some l => l | None => [] end.

(** ** The loops *)
Section loops.
Context {T : Type} (src tgt : T -> string) (arrange : list string -> list string).

Definition initial_indegree (nodes : gset string) (edges : list T) : gmap string Z :=
  foldl (fun m e => <[tgt e := degree m (tgt e) + 1]> m) (gset_to_gmap 0 nodes) edges.

Definition build_adjacency (edges : list T) : gmap string (list string) :=
  foldl (fun m e => <[src e := successors m (src e) ++ [tgt e]]> m) ∅ edges.

(** The loop on [adjacency[node]]. *)
Definition release (acc : list string * gmap string Z) (target : string) : list string * gmap string Z :=
  let (ready, indegree) := acc in
  let d := degree indegree target - 1 in
  let indegree := <[target := d]> indegree in
  (if d =? 0 then arrange (ready ++ [target]) else ready, indegree).

(** The loop [for len(ready) > 0]. *)
Fixpoint order_loop (fuel : nat) (adjacency : gmap string (list string)) (ready : list string)
    (indegree : gmap string Z) (ordered : list string) : list string :=
  match fuel, ready with
  | S fuel, node :: ready =>
      let (ready, indegree) := foldl release (ready, indegree) (successors adjacency node) in
      order_loop fuel adjacency ready indegree (ordered ++ [node])
  | _, _ => ordered
  end.
End loops.

(** ** Walking backwards in a finite set *)
Section backward.
Context (R : relation string).

Lemma sorted_loop l : StronglySorted (tc R) l -> NoDup l \/ exists v, tc R v v.
Proof.
  induction 1 as [|x l Hs IH Hf]; [left; constructor|]. destruct IH as [Hn|]; [|by right].
  destruct (decide (x ∈ l)) as [Hx|Hx]; [right|left; by constructor]. exists x.
  rewrite List.Forall_forall in Hf. by apply Hf, list_elem_of_In.
Qed.

Lemma backward_chain (X : gset string) n :
  X <> ∅ -> (forall v, v ∈ X -> exists u, u ∈ X /\ R u v) ->
  exists h l, StronglySorted (tc R) (h :: l) /\ length l = n /\ forall v, v ∈ h :: l -> v ∈ X.
Proof.
  intros Hne Hpred. induction n as [|n (h & l & Hs & Hl & Hin)].
  - apply set_choose_L in Hne as [v Hv]. exists v, []. split; [repeat constructor|]. split; [done|].
    by intros u ->%list_elem_of_singleton.
  - destruct (Hpred h (Hin h (list_elem_of_here _ _))) as (u & Hu & Hr). exists u, (h :: l). split; [|split].
    + constructor; [done|]. inversion Hs as [|? ? _ Hf]; subst. constructor; [by apply tc_once|].
      eapply List.Forall_impl; [|exact Hf]. intros x Hx. by apply (tc_l _ _ h).
    + simpl. by rewrite Hl.
    + intros v [->|Hv]%elem_of_cons; [done|by apply Hin].
Qed.

Lemma backward_cycle (X : gset string) :
  X <> ∅ -> (forall v, v ∈ X -> exists u, u ∈ X /\ R u v) -> exists v, tc R v v.
Proof.
  intros Hne Hpred. destruct (backward_chain X (size X) Hne Hpred) as (h & l & Hs & Hl & Hin).
  destruct (sorted_loop _ Hs) as [Hn|]; [|done]. exfalso.
  assert (Hle : (size (list_to_set (h :: l) : gset string) <= size X)%nat).
  { apply subseteq_size. intros v Hv%elem_of_list_to_set. by apply Hin. }
  rewrite size_list_to_set in Hle by done. simpl in Hle. lia.
Qed.
End backward.

(** ** The invariant *)
Section topological.
Context {T : Type} (src tgt : T -> string) (arrange : list string -> list string).
Hypothesis arrange_perm : forall l, arrange l ≡ₚ l.
Context (nodes : gset string) (edges : list T).
Hypothesis closed : forall e, e ∈ edges -> src e ∈ nodes /\ tgt e ∈ nodes.

(** The edges into [v] from sources not yet [placed]. *)
Definition open_edges (placed : list string) (v : string) : list T :=
  List.filter (fun e => String.eqb (tgt e) v && negb (existsb (String.eqb (src e)) placed)) edges.

Definition indeg (placed : list string) (v : string) : Z := count (open_edges placed v).

(** Each edge runs forward in [l]. *)
Definition forward (l : list string) : Prop :=
  forall e, e ∈ edges -> exists before between after,
    l = before ++ src e :: between ++ tgt e :: after.

Lemma degree_insert m k d v : degree (<[k := d]> m) v = if decide (k = v) then d else degree m v.
Proof.
  unfold degree. destruct (decide (k = v)) as [->|Hne]; [by rewrite lookup_insert_eq|by rewrite lookup_insert_ne].
Qed.

Lemma successors_spec v :
  successors (build_adjacency src tgt edges) v =
  List.map tgt (List.filter (fun e => String.eqb (src e) v) edges).
Proof.
  clear closed. unfold build_adjacency. induction edges as [|e l IH] using rev_ind; simpl; [unfold successors; by rewrite lookup_empty|].
  rewrite foldl_app, List.filter_app, List.map_app. simpl. unfold successors at 1.
  destruct (String.eqb_spec (src e) v) as [->|Hne]; simpl.
  - by rewrite lookup_insert_eq, IH.
  - rewrite lookup_insert_ne by done. rewrite app_nil_r. apply IH.
Qed.

Lemma initial_degree v : degree (initial_indegree tgt nodes edges) v = indeg [] v.
Proof using.
  clear closed. unfold initial_indegree, indeg, open_edges. induction edges as [|e l IH] using rev_ind; simpl.
  { unfold degree. destruct (gset_to_gmap 0 nodes !! v) eqn:E; [|done]. by apply lookup_gset_to_gmap_Some in E as [_ <-]. }
  rewrite foldl_app, List.filter_app. simpl. rewrite degree_insert. unfold count in *. rewrite length_app.
  destruct (decide (tgt e = v)) as [->|Hne].
  - rewrite IH, str_eqb_refl. simpl. lia.
  - rewrite IH, (proj2 (str_eqb_false _ _) Hne). simpl. lia.
Qed.

Lemma initial_dom v : is_Some (initial_indegree tgt nodes edges !! v) <-> v ∈ nodes.
Proof using closed.
  unfold initial_indegree. revert closed. induction edges as [|e l IH] using rev_ind; intros Hc; simpl.
  { rewrite lookup_gset_to_gmap. unfold is_Some. split.
    - intros [x Hx]. destruct (decide (v ∈ nodes)); [done|]. by rewrite option_guard_False in Hx.
    - intros Hv. exists 0. by rewrite option_guard_True. }
  rewrite foldl_app. simpl.
  assert (IH' := IH (fun e' He' => Hc e' (proj2 (elem_of_app _ _ _) (or_introl He')))).
  destruct (decide (tgt e = v)) as [<-|Hne].
  - rewrite lookup_insert_eq. split; [|by eexists]. intros _. apply Hc, elem_of_app. right. by left.
  - by rewrite lookup_insert_ne.
Qed.

(** The invariant of the outer loop. *)
Record kahn (placed ready : list string) (m : gmap string Z) : Prop := {
  kn_nodup : NoDup (placed ++ ready);
  kn_degree : forall v, degree m v = indeg placed v;
  kn_free : forall v, v ∈ placed ++ ready <-> v ∈ nodes /\ indeg placed v = 0;
  kn_prefix : forall e, e ∈ edges -> tgt e ∈ placed ->
    exists before between after, placed = before ++ src e :: between ++ tgt e :: after
}.

Lemma indeg_zero placed v :
  indeg placed v = 0 <-> forall e, e ∈ edges -> tgt e = v -> src e ∈ placed.
Proof.
  clear closed. unfold indeg, count, open_edges. split.
  - intros Hz e He Hv. destruct (existsb (String.eqb (src e)) placed) eqn:Ex; [by apply existsb_eqb_elem|].
    assert (Hin : In e (List.filter (fun e => String.eqb (tgt e) v &&
      negb (existsb (String.eqb (src e)) placed)) edges)).
    { apply filter_In. split; [by apply list_elem_of_In|]. by rewrite Hv, str_eqb_refl, Ex. }
    destruct (List.filter _ edges); [done|simpl in Hz; lia].
  - intros Hall. destruct (List.filter _ edges) as [|e l] eqn:Ef; [done|]. exfalso.
    assert (Hin : In e (e :: l)) by (by left). rewrite <- Ef in Hin.
    apply filter_In in Hin as [He%list_elem_of_In [Ht Hs]%andb_true_iff].
    apply String.eqb_eq in Ht. apply negb_true_iff in Hs.
    rewrite (proj2 (existsb_eqb_elem _ _) (Hall e He Ht)) in Hs. done.
Qed.

Lemma initial_kahn ready :
  NoDup ready -> (forall v, v ∈ ready <-> v ∈ nodes /\ degree (initial_indegree tgt nodes edges) v = 0) ->
  kahn [] ready (initial_indegree tgt nodes edges).
Proof using.
  intros Hn Hel. constructor; simpl; [done|apply initial_degree| |intros e _ Hin; by apply not_elem_of_nil in Hin].
  intros v. by rewrite Hel, initial_degree.
Qed.

(** Occurrences of [v]. *)
Definition occ (v : string) (l : list string) : Z := count (List.filter (String.eqb v) l).

Lemma indeg_place placed node v :
  node ∉ placed -> indeg placed v = indeg (placed ++ [node]) v + occ v (successors (build_adjacency src tgt edges) node).
Proof.
  clear closed. intros Hnode. rewrite successors_spec. unfold indeg, occ, open_edges, count.
  induction edges as [|e l IH]; simpl; [done|]. rewrite existsb_app. simpl. rewrite orb_false_r.
  destruct (String.eqb_spec (src e) node) as [->|Hne]; simpl.
  - replace (existsb (String.eqb node) placed) with false.
    + rewrite orb_true_r, andb_false_r, andb_true_r. rewrite (String.eqb_sym v).
      destruct (String.eqb (tgt e) v); simpl; lia.
    + symmetry. apply not_true_is_false. by rewrite existsb_eqb_elem.
  - rewrite orb_false_r. destruct (String.eqb (tgt e) v && _); simpl; lia.
Qed.

(** The invariant of the inner loop: [pending] successors of the placed node
    still to be released. *)
Record releasing (placed : list string) (pending ready : list string) (m : gmap string Z) : Prop := {
  rl_nodup : NoDup (placed ++ ready);
  rl_degree : forall v, degree m v = indeg placed v + occ v pending;
  rl_free : forall v, v ∈ placed ++ ready <-> v ∈ nodes /\ indeg placed v + occ v pending = 0
}.

Lemma occ_nonneg v l : 0 <= occ v l.
Proof. unfold occ, count. lia. Qed.

Lemma indeg_nonneg placed v : 0 <= indeg placed v.
Proof. unfold indeg, count. lia. Qed.

Lemma release_step placed pending ready m t :
  t ∈ nodes -> releasing placed (t :: pending) ready m ->
  releasing placed pending (fst (release arrange (ready, m) t)) (snd (release arrange (ready, m) t)).
Proof.
  clear closed. intros Hnode [Hn Hd Hf]. unfold release.
  assert (Hocc : forall v, occ v (t :: pending) = (if decide (v = t) then 1 else 0) + occ v pending).
  { intros v. unfold occ, count. simpl. destruct (String.eqb_spec v t), (decide (v = t)); simpl; (lia || done). }
  assert (Ht : degree m t - 1 = indeg placed t + occ t pending).
  { rewrite Hd, Hocc, decide_True by done. lia. }
  pose proof (occ_nonneg t pending) as Hop. pose proof (indeg_nonneg placed t) as Hip.
  assert (Hnot : t ∉ placed ++ ready).
  { rewrite Hf, Hocc, decide_True by done. intros [_ ?]. lia. }
  assert (Hdeg : forall v, degree (<[t := degree m t - 1]> m) v = indeg placed v + occ v pending).
  { intros v. rewrite degree_insert. destruct (decide (t = v)) as [<-|Hne]; [done|].
    rewrite Hd, Hocc, decide_False by congruence. lia. }
  assert (Hother : forall v, v <> t -> v ∈ placed ++ ready <-> v ∈ nodes /\ indeg placed v + occ v pending = 0).
  { intros v Hv. by rewrite Hf, Hocc, decide_False. }
  destruct (Z.eqb_spec (degree m t - 1) 0) as [Hz|Hz]; cbn [fst snd]; constructor; try exact Hdeg.
  - rewrite arrange_perm, app_assoc, NoDup_app.
    split; [done|]. split; [|apply NoDup_singleton]. by intros x Hx ->%list_elem_of_singleton.
  - intros v. rewrite arrange_perm, app_assoc, elem_of_app, list_elem_of_singleton.
    destruct (decide (v = t)) as [->|Hne]; [|rewrite Hother by done; tauto]. split; [|by right].
    intros _. split; [done|lia].
  - done.
  - intros v. destruct (decide (v = t)) as [->|Hne]; [|by apply Hother]. split; [done|]. intros [_ ?]. lia.
Qed.

Lemma release_all placed pending ready m :
  (forall t, t ∈ pending -> t ∈ nodes) -> releasing placed pending ready m ->
  releasing placed [] (fst (foldl (release arrange) (ready, m) pending)) (snd (foldl (release arrange) (ready, m) pending)).
Proof.
  clear closed. revert ready m. induction pending as [|t pending IH]; intros ready m Ht Hr; cbn [foldl]; [done|].
  assert (Hs := release_step _ _ _ _ _ (Ht t (list_elem_of_here _ _)) Hr).
  revert Hs. destruct (release arrange (ready, m) t) as [ready' m']. intros Hs. apply IH; [|done]. intros u Hu. apply Ht. by right.
Qed.

Lemma occ_nil v : occ v [] = 0.
Proof. done. Qed.

Lemma kahn_step placed node ready m :
  kahn placed (node :: ready) m ->
  kahn (placed ++ [node]) (fst (foldl (release arrange) (ready, m) (successors (build_adjacency src tgt edges) node)))
    (snd (foldl (release arrange) (ready, m) (successors (build_adjacency src tgt edges) node))).
Proof using arrange_perm closed.
  intros [Hn Hd Hf Hp]. set (pending := successors (build_adjacency src tgt edges) node).
  assert (Hnode : node ∉ placed).
  { intros Hin. apply NoDup_app in Hn as (_ & Hdis & _). apply (Hdis node Hin). by left. }
  assert (Hpend : forall t, t ∈ pending -> t ∈ nodes).
  { intros t Ht. unfold pending in Ht. rewrite successors_spec in Ht.
    apply list_elem_of_In, in_map_iff in Ht as (e & <- & [He _]%filter_In). by apply closed, list_elem_of_In. }
  assert (Hr : releasing (placed ++ [node]) pending ready m).
  { constructor.
    - by rewrite <- app_assoc.
    - intros v. rewrite Hd. by apply indeg_place.
    - intros v. rewrite <- app_assoc. simpl. rewrite Hf, (indeg_place placed node v Hnode). done. }
  destruct (release_all _ _ _ _ Hpend Hr) as [Hn' Hd' Hf']. constructor; [done| | |].
  - intros v. rewrite Hd', occ_nil. lia.
  - intros v. rewrite Hf', occ_nil. rewrite Z.add_0_r. done.
  - intros e He [Ht|Ht%list_elem_of_singleton]%elem_of_app.
    + destruct (Hp e He Ht) as (b & c & a & ->). exists b, c, (a ++ [node]). by rewrite <- !app_assoc, <- app_comm_cons, <- app_assoc.
    + assert (Hz : indeg placed node = 0) by (apply Hf, elem_of_app; right; by left).
      apply (proj1 (indeg_zero placed node) Hz e He) in Ht as Hs.
      apply list_elem_of_split in Hs as (b & c & ->). exists b, c, []. by rewrite Ht, <- app_assoc.
Qed.

(** Enough fuel: the loop ends with no node ready. *)
Lemma order_loop_spec fuel placed ready m :
  kahn placed ready m -> (size nodes <= fuel + length placed)%nat ->
  exists m', kahn (order_loop arrange fuel (build_adjacency src tgt edges) ready m placed) [] m'.
Proof using arrange_perm closed.
  revert placed ready m. induction fuel as [|fuel IH]; intros placed ready m Hk Hfuel.
  - destruct ready as [|node ready]; [by exists m|]. exfalso.
    assert (Hsub : NoDup (placed ++ node :: ready)) by apply (kn_nodup _ _ _ Hk).
    assert (Hle : (length (placed ++ node :: ready) <= size nodes)%nat).
    { rewrite <- (size_list_to_set (C := gset string)) by done. apply subseteq_size. intros v Hv.
      apply elem_of_list_to_set in Hv. by apply (kn_free _ _ _ Hk) in Hv as [? _]. }
    rewrite length_app in Hle. simpl in *. lia.
  - destruct ready as [|node ready]; [by exists m|]. cbn [order_loop].
    pose proof (kahn_step _ _ _ _ Hk) as Hk'. destruct (foldl (release arrange) _ _) as [ready' m'].
    apply (IH _ ready' m'); [done|].
    rewrite length_app. simpl. lia.
Qed.

Lemma initial_size : size (initial_indegree tgt nodes edges) = size nodes.
Proof using closed.
  rewrite <- size_dom. f_equal. apply set_eq. intros v. rewrite elem_of_dom. apply initial_dom.
Qed.

Lemma order_done placed m :
  kahn placed [] m -> length placed = size nodes -> forall v, v ∈ placed <-> v ∈ nodes.
Proof.
  intros [Hn _ Hf _] Hl v. rewrite app_nil_r in *. split; [by intros [? _]%Hf|].
  assert (Heq : (list_to_set placed : gset string) = nodes).
  { apply set_subseteq_size_eq; [|by rewrite size_list_to_set, Hl].
    intros u Hu%elem_of_list_to_set. by apply Hf in Hu as [? _]. }
  intros Hv. rewrite <- Heq in Hv. by apply elem_of_list_to_set in Hv.
Qed.

(** When nodes are left over, each has an incoming edge from another one left
    over, and no order of the nodes runs every edge forward. *)
Lemma order_stuck placed m l :
  kahn placed [] m -> l ≡ₚ elements nodes -> forward l -> forall v, v ∈ nodes -> v ∈ placed.
Proof using closed.
  intros Hk Hl Hfw. assert (Hnd : NoDup l) by (rewrite Hl; apply NoDup_elements).
  assert (Hall : forall pre post, l = pre ++ post -> forall v, v ∈ pre -> v ∈ placed).
  { induction pre as [|x pre IH] using rev_ind; intros post Heq v Hv; [by apply not_elem_of_nil in Hv|].
    rewrite <- app_assoc in Heq. simpl in Heq. specialize (IH _ Heq).
    apply elem_of_app in Hv as [Hv| ->%list_elem_of_singleton]; [by apply IH|].
    rewrite <- (app_nil_r placed). apply (kn_free _ _ _ Hk). split.
    { apply elem_of_elements. rewrite <- Hl, Heq. apply elem_of_app. right. by left. }
    apply indeg_zero. intros e He Ht. apply IH. destruct (Hfw e He) as (b & c & a & Hsplit). rewrite Ht in Hsplit.
    rewrite Heq in Hsplit. replace (b ++ src e :: c ++ x :: a) with ((b ++ src e :: c) ++ x :: a)
      in Hsplit by (by rewrite <- app_assoc).
    rewrite Heq in Hnd. destruct (NoDup_split_unique _ _ _ _ _ Hnd Hsplit) as [-> _]. apply elem_of_app. right. by left. }
  intros v Hv. apply (Hall l [] (eq_sym (app_nil_r l))). by rewrite Hl, elem_of_elements.
Qed.

Lemma kahn_forward placed m :
  kahn placed [] m -> length placed = size nodes -> placed ≡ₚ elements nodes /\ forward placed.
Proof using closed.
  intros Hk Hl. pose proof (order_done _ _ Hk Hl) as Hel. split.
  - apply NoDup_Permutation; [|apply NoDup_elements|].
    + pose proof (kn_nodup _ _ _ Hk) as Hn. by rewrite app_nil_r in Hn.
    + intros v. by rewrite Hel, elem_of_elements.
  - intros e He. apply (kn_prefix _ _ _ Hk e He), Hel. by apply closed.
Qed.

Lemma kahn_full placed m : kahn placed [] m -> (forall v, v ∈ nodes -> v ∈ placed) -> length placed = size nodes.
Proof using.
  intros Hk Hall. rewrite <- (size_list_to_set (C := gset string)).
  - f_equal. apply set_eq. intros v. rewrite elem_of_list_to_set. split; [|by apply Hall].
    intros Hv. apply (kn_free _ _ _ Hk v). by rewrite app_nil_r.
  - pose proof (kn_nodup _ _ _ Hk) as Hn. by rewrite app_nil_r in Hn.
Qed.

Lemma kahn_complete placed m l :
  kahn placed [] m -> l ≡ₚ elements nodes -> forward l -> length placed = size nodes.
Proof using closed. intros Hk Hl Hf. apply (kahn_full _ _ Hk). by eapply order_stuck. Qed.

(** ** Cycles *)
Definition edge_rel (u v : string) : Prop := exists e, e ∈ edges /\ src e = u /\ tgt e = v.

Lemma forward_acyclic l : NoDup l -> forward l -> forall v, ~ tc edge_rel v v.
Proof.
  clear closed. intros Hn Hf. assert (Hpos : forall u v, tc edge_rel u v -> exists i j, (i < j)%nat /\ l !! i = Some u /\ l !! j = Some v).
  { assert (Hone : forall u v, edge_rel u v -> exists i j, (i < j)%nat /\ l !! i = Some u /\ l !! j = Some v).
    { intros u v (e & He & <- & <-). destruct (Hf e He) as (b & c & a & ->). exists (length b), (length b + S (length c))%nat.
      split; [lia|]. split; [by apply list_lookup_middle|]. rewrite lookup_app_r by lia.
      replace (length b + S (length c) - length b)%nat with (S (length c)) by lia. simpl. by apply list_lookup_middle. }
    induction 1 as [u v Huv|u w v Huw _ (k & j & Hkj & Hk & Hj)]; [by apply Hone|].
    destruct (Hone _ _ Huw) as (i & k' & Hik & Hi & Hk'). exists i, j. split; [|done].
    rewrite (NoDup_lookup _ _ _ _ Hn Hk Hk') in Hkj. lia. }
  intros v Hv. destruct (Hpos v v Hv) as (i & j & Hij & Hi & Hj). rewrite (NoDup_lookup _ _ _ _ Hn Hi Hj) in Hij. lia.
Qed.

(** Nodes are left over only when there is a cycle. *)
Lemma kahn_cycle placed m : kahn placed [] m -> length placed <> size nodes -> exists v, tc edge_rel v v.
Proof using closed.
  clear arrange_perm arrange. intros Hk Hne. set (rest := nodes ∖ list_to_set placed : gset string).
  assert (Hrest : forall v, v ∈ rest <-> v ∈ nodes /\ v ∉ placed) by (intros v; unfold rest; set_solver).
  apply (backward_cycle edge_rel rest).
  - intros Hempty. apply Hne, (kahn_full _ _ Hk). intros v Hv. destruct (decide (v ∈ placed)); [done|].
    assert (v ∈ rest) by (by apply Hrest). set_solver.
  - intros v [Hv Hp]%Hrest. destruct (open_edges placed v) as [|e l] eqn:Ho.
    { exfalso. apply Hp. rewrite <- (app_nil_r placed). apply (kn_free _ _ _ Hk). split; [done|]. unfold indeg. by rewrite Ho. }
    assert (Hin : In e (open_edges placed v)) by (rewrite Ho; by left).
    apply filter_In in Hin as [He%list_elem_of_In [Ht%String.eqb_eq Hs%negb_true_iff]%andb_true_iff].
    exists (src e). split; [|by exists e]. apply Hrest. split; [by apply closed|].
    intros Hin%existsb_eqb_elem. congruence.
Qed.

Lemma kahn_iff placed m : kahn placed [] m -> length placed = size nodes <-> forall v, ~ tc edge_rel v v.
Proof using closed.
  intros Hk. split.
  - intros Hl. destruct (kahn_forward _ _ Hk Hl) as [Hp Hf]. apply (forward_acyclic placed); [|done].
    rewrite Hp. apply NoDup_elements.
  - intros Hac. destruct (decide (length placed = size nodes)) as [|Hne]; [done|].
    destruct (kahn_cycle _ _ Hk Hne) as (v & Hv). by destruct (Hac v).
Qed.
End topological.
