(* ===== verification/ToolContract.v ===== *)
(** * Tool contracts (internal/toolcontract)

    A manifest declares what a tool reads, writes and guarantees.
    [Canonicalize] normalizes and content-addresses it; the in-memory registry
    keeps one immutable manifest per tool and version and resolves the name and
    version of a trace event, by an exact version, by a declared compatibility
    range of the highest version, or as an opaque tool.

    [golang.org/x/mod/semver] is outside the repository: the interface [Semver]
    has its three functions and [SemverLaws] what its documentation promises.

    [Canonicalize_order] shows that the content address does not depend on the
    order of declarations, [Register_final] that a registered contract and its
    names are never changed, [Resolve_exact] which contract is resolved. *)

From Stdlib Require Import ZArith String Ascii List Bool Lia.
From stdpp Require Import base gmap strings list sorting.
From S2P Require Import Prelude GoStrings GoTime Canonical Domain.

Open Scope Z_scope.
Open Scope go_scope.

(** ** contract.go *)
Definition SanitizerToken : string := "token".
Definition SanitizerText : string := "text".
Definition SanitizerRelativePath : string := "relative_path".
Definition SanitizerRedactSecrets : string := "redact_secrets".
Definition SanitizerInteger : string := "integer".
Definition SanitizerDrop : string := "drop".

Definition SideEffectNone : string := "none".
Definition SideEffectRead : string := "read".
Definition SideEffectWrite : string := "write".
Definition SideEffectExternal : string := "external".
Definition SideEffectIrreversible : string := "irreversible".

Definition RiskLow : string := "low".
Definition RiskMedium : string := "medium".
Definition RiskHigh : string := "high".
Definition RiskCritical : string := "critical".

Definition IdempotencyGuaranteed : string := "guaranteed".
Definition IdempotencyConditional : string := "conditional".
Definition IdempotencyNone : string := "none".

Definition RetryNever : string := "never".
Definition RetryOnDeclaredTransient : string := "declared_transient_only".

Record FieldSpec := mk_FieldSpec { fs_Name : string; fs_Type : string; fs_Required : bool; fs_Sanitizer : string }.

Record ResourceSpec := mk_ResourceSpec {
  rp_Name : string; rp_Type : string; rp_Namespace : string; rp_Field : string; rp_SchemaVersion : string
}.

Record EffectSpec := mk_EffectSpec { ef_Name : string; ef_Risk : string }.
Record IdempotencySpec := mk_IdempotencySpec { id_Mode : string; id_KeyField : string }.
Record RetrySpec := mk_RetrySpec { rt_Mode : string; rt_MaximumAttempts : Z }.

Record PredicateSpec := mk_PredicateSpec {
  pd_ID : string; pd_Resource : string; pd_Field : string; pd_Operator : string; pd_Value : string
}.

Record CompensationSpec := mk_CompensationSpec { cs_ToolID : string; cs_PredicateID : string }.
Record VerificationMethod := mk_VerificationMethod { vm_ID : string; vm_EvidenceClass : string }.
Record CompatibilityRange := mk_CompatibilityRange { cg_MinimumInclusive : string; cg_MaximumExclusive : string }.

Record Manifest := mk_Manifest {
  mf_ID : string;
  mf_SchemaVersion : string;
  mf_ToolID : string;
  mf_Version : string;
  mf_Aliases : list string;
  mf_Inputs : list FieldSpec;
  mf_Outputs : list FieldSpec;
  mf_Reads : list ResourceSpec;
  mf_Writes : list ResourceSpec;
  mf_Effects : list EffectSpec;
  mf_SideEffect : string;
  mf_Risk : string;
  mf_Idempotency : IdempotencySpec;
  mf_Retry : RetrySpec;
  mf_Preconditions : list PredicateSpec;
  mf_SuccessPredicates : list PredicateSpec;
  mf_Compensation : option CompensationSpec;
  mf_VerificationMethods : list VerificationMethod;
  mf_Compatibility : list CompatibilityRange;
  mf_ContentHash : string
}.

Record Query := mk_Query { qy_Name : string; qy_Version : string }.
Record Resolution := mk_Resolution { rl_Manifest : Manifest; rl_Opaque : bool; rl_AutoPromotable : bool }.

Definition field_spec_json (f : FieldSpec) : json :=
  JObj (fstr "name" (fs_Name f) ++ fstr "type" (fs_Type f) ++ fbool "required" (fs_Required f) ++ fstr "sanitizer" (fs_Sanitizer f)).

Definition resource_spec_json (r : ResourceSpec) : json :=
  JObj (fstr "name" (rp_Name r) ++ fstr "type" (rp_Type r) ++ fstr "namespace" (rp_Namespace r) ++ fstr "field" (rp_Field r) ++
        fstr_omit "schema_version" (rp_SchemaVersion r)).

Definition effect_json (e : EffectSpec) : json := JObj (fstr "name" (ef_Name e) ++ fstr "risk" (ef_Risk e)).

Definition predicate_spec_json (p : PredicateSpec) : json :=
  JObj (fstr "id" (pd_ID p) ++ fstr_omit "resource" (pd_Resource p) ++ fstr_omit "field" (pd_Field p) ++
        fstr_omit "operator" (pd_Operator p) ++ fstr_omit "value" (pd_Value p)).

Definition method_json (m : VerificationMethod) : json :=
  JObj (fstr "id" (vm_ID m) ++ fstr "evidence_class" (vm_EvidenceClass m)).

Definition range_json (r : CompatibilityRange) : json :=
  JObj (fstr "minimum_inclusive" (cg_MinimumInclusive r) ++ fstr "maximum_exclusive" (cg_MaximumExclusive r)).

Definition compensation_json (c : option CompensationSpec) : list (string * json) :=
  match c with
  | None => []
  | Some c => fld "compensation" (JObj (fstr "tool_id" (cs_ToolID c) ++ fstr "predicate_id" (cs_PredicateID c)))
  end.

Definition contract_json (m : Manifest) : json :=
  JObj (fstr_omit "id" (mf_ID m) ++ fstr "schema_version" (mf_SchemaVersion m) ++ fstr "tool_id" (mf_ToolID m) ++
        fstr "version" (mf_Version m) ++ fstrs_omit "aliases" (mf_Aliases m) ++
        farr_omit "inputs" (List.map field_spec_json (mf_Inputs m)) ++
        farr_omit "outputs" (List.map field_spec_json (mf_Outputs m)) ++
        farr_omit "reads" (List.map resource_spec_json (mf_Reads m)) ++
        farr_omit "writes" (List.map resource_spec_json (mf_Writes m)) ++
        farr_omit "effects" (List.map effect_json (mf_Effects m)) ++ fstr "side_effect" (mf_SideEffect m) ++
        fstr "risk" (mf_Risk m) ++
        fld "idempotency" (JObj (fstr "mode" (id_Mode (mf_Idempotency m)) ++ fstr_omit "key_field" (id_KeyField (mf_Idempotency m)))) ++
        fld "retry" (JObj (fstr "mode" (rt_Mode (mf_Retry m)) ++ fnum "maximum_attempts" (rt_MaximumAttempts (mf_Retry m)))) ++
        farr_omit "preconditions" (List.map predicate_spec_json (mf_Preconditions m)) ++
        farr_omit "success_predicates" (List.map predicate_spec_json (mf_SuccessPredicates m)) ++
        compensation_json (mf_Compensation m) ++
        farr_omit "verification_methods" (List.map method_json (mf_VerificationMethods m)) ++
        farr_omit "compatibility" (List.map range_json (mf_Compatibility m))).

(** ** The semver package *)
Class Semver := {
  semver_IsValid : string -> bool;
  semver_Canonical : string -> string;
  semver_Compare : string -> string -> comparison
}.

(** Precedence is a total preorder, and two valid versions of equal precedence
    have the same canonical form. *)
Class SemverLaws `{Semver} : Prop := {
  semver_lawful :: LawfulCmp semver_Compare;
  semver_canonical_valid : forall v, semver_IsValid v = true -> semver_IsValid (semver_Canonical v) = true;
  semver_canonical_idem : forall v, semver_IsValid v = true -> semver_Canonical (semver_Canonical v) = semver_Canonical v;
  semver_canonical_prefix : forall v, semver_IsValid v = true -> HasPrefix (semver_Canonical v) "v" = true;
  semver_canonical_clean : forall v, semver_IsValid v = true -> has_nul (semver_Canonical v) = false;
  semver_equal : forall v w, semver_IsValid v = true -> semver_IsValid w = true -> semver_Compare v w = Eq ->
    semver_Canonical v = semver_Canonical w
}.

(** ** canonical.go *)
Definition validSanitizer (value : string) : bool :=
  String.eqb value SanitizerToken || String.eqb value SanitizerText || String.eqb value SanitizerRelativePath ||
  String.eqb value SanitizerRedactSecrets || String.eqb value SanitizerInteger || String.eqb value SanitizerDrop.

Definition validSideEffect (value : string) : bool :=
  String.eqb value SideEffectNone || String.eqb value SideEffectRead || String.eqb value SideEffectWrite ||
  String.eqb value SideEffectExternal || String.eqb value SideEffectIrreversible.

Definition validRisk (value : string) : bool :=
  String.eqb value RiskLow || String.eqb value RiskMedium || String.eqb value RiskHigh || String.eqb value RiskCritical.

Definition validRetry (value : RetrySpec) : bool :=
  (String.eqb (rt_Mode value) RetryNever && (rt_MaximumAttempts value =? 1)) ||
  (String.eqb (rt_Mode value) RetryOnDeclaredTransient && (0 <? rt_MaximumAttempts value) && (rt_MaximumAttempts value <=? 20)).

(** The loop the [canonical...] functions share: normalize an entry, check it,
    and refuse a key seen before. *)
Fixpoint canonical_entries {A} (norm : A -> A) (ok : A -> bool) (key : A -> string) (seen : gset string) (source : list A)
    : result (list A) :=
  match source with
  | [] => Ok []
  | x :: source =>
      let y := norm x in
      reject negb (ok y) with ErrInvalidToolManifest;
      reject bool_decide (key y ∈ seen) with ErrInvalidToolManifest;
      let* rest := canonical_entries norm ok key ({[key y]} ∪ seen) source in
      Ok (y :: rest)
  end.

(** "[sort.Slice(result, func(i, j int) bool { return key(i) < key(j) })]" *)
Definition sort_by_key {A} (key : A -> string) : list A -> list A := sort_slice (cmp_ltb (cmp_on key String.compare)).

Definition resource_key (r : ResourceSpec) : string := (rp_Namespace r ++ nul ++ rp_Name r)%string.

Definition validClasses : list string :=
  ["independent_verifier"; "goal_predicate"; "harness_assertion"; "tool_postcondition"; "exit_status_or_self_report"].

Definition field_names (fields : list FieldSpec) : gset string := list_to_set (List.map fs_Name fields).
Definition resource_names (resources : list ResourceSpec) : gset string := list_to_set (List.map rp_Name resources).

Section canonical.
Context `{NFC} `{JCS} `{Digest} `{Semver}.

Definition token (value : string) : string := nfc_string (TrimSpace value).

Definition canonicalVersion (value : string) : string :=
  let value := TrimSpace value in
  let withPrefix := if HasPrefix value "v" then value else ("v" ++ value)%string in
  if negb (semver_IsValid withPrefix) then "" else TrimPrefix (semver_Canonical withPrefix) "v".

Definition semver_less (x y : string) : bool := cmp_ltb semver_Compare ("v" ++ x)%string ("v" ++ y)%string.

Definition validIdempotency (value : IdempotencySpec) (fields : gset string) : bool :=
  if negb (String.eqb (id_Mode value) IdempotencyGuaranteed) && negb (String.eqb (id_Mode value) IdempotencyConditional) &&
     negb (String.eqb (id_Mode value) IdempotencyNone)
  then false
  else if String.eqb (id_Mode value) IdempotencyConditional then bool_decide (token (id_KeyField value) ∈ fields)
  else String.eqb (token (id_KeyField value)) "".

Definition trim_field (f : FieldSpec) : FieldSpec :=
  mk_FieldSpec (token (fs_Name f)) (token (fs_Type f)) (fs_Required f) (token (fs_Sanitizer f)).

Definition field_ok (f : FieldSpec) : bool :=
  negb (String.eqb (fs_Name f) "") && negb (String.eqb (fs_Type f) "") && validSanitizer (fs_Sanitizer f).

Definition canonicalFields (source : list FieldSpec) : result (list FieldSpec) :=
  let* result := canonical_entries trim_field field_ok fs_Name ∅ source in
  Ok (sort_by_key fs_Name result).

Definition trim_resource (r : ResourceSpec) : ResourceSpec :=
  mk_ResourceSpec (token (rp_Name r)) (token (rp_Type r)) (token (rp_Namespace r)) (token (rp_Field r)) (token (rp_SchemaVersion r)).

Definition resource_ok (fields : gset string) (r : ResourceSpec) : bool :=
  negb (String.eqb (rp_Name r) "") && negb (String.eqb (rp_Type r) "") && negb (String.eqb (rp_Namespace r) "") &&
  negb (String.eqb (rp_Field r) "") && bool_decide (rp_Field r ∈ fields).

Definition canonicalResources (fields : gset string) (source : list ResourceSpec) : result (list ResourceSpec) :=
  let* result := canonical_entries trim_resource (resource_ok fields) resource_key ∅ source in
  Ok (sort_by_key resource_key result).

Definition trim_effect (e : EffectSpec) : EffectSpec := mk_EffectSpec (token (ef_Name e)) (token (ef_Risk e)).

Definition effect_ok (e : EffectSpec) : bool := negb (String.eqb (ef_Name e) "") && validRisk (ef_Risk e).

Definition canonicalEffects (source : list EffectSpec) : result (list EffectSpec) :=
  let* result := canonical_entries trim_effect effect_ok ef_Name ∅ source in
  Ok (sort_by_key ef_Name result).

Definition trim_predicate (p : PredicateSpec) : PredicateSpec :=
  mk_PredicateSpec (token (pd_ID p)) (token (pd_Resource p)) (token (pd_Field p)) (token (pd_Operator p)) (nfc_string (pd_Value p)).

Definition predicate_ok (fields resources : gset string) (p : PredicateSpec) : bool :=
  negb (String.eqb (pd_ID p) "" || (String.eqb (pd_Resource p) "" && String.eqb (pd_Field p) "")) &&
  (String.eqb (pd_Resource p) "" || bool_decide (pd_Resource p ∈ resources)) &&
  (String.eqb (pd_Field p) "" || bool_decide (pd_Field p ∈ fields)).

Definition canonicalPredicates (fields resources : gset string) (source : list PredicateSpec) : result (list PredicateSpec) :=
  let* result := canonical_entries trim_predicate (predicate_ok fields resources) pd_ID ∅ source in
  Ok (sort_by_key pd_ID result).

Definition trim_method (m : VerificationMethod) : VerificationMethod :=
  mk_VerificationMethod (token (vm_ID m)) (token (vm_EvidenceClass m)).

Definition method_ok (m : VerificationMethod) : bool :=
  negb (String.eqb (vm_ID m) "") && existsb (String.eqb (vm_EvidenceClass m)) validClasses.

Definition canonicalVerifiers (source : list VerificationMethod) : result (list VerificationMethod) :=
  let* result := canonical_entries trim_method method_ok vm_ID ∅ source in
  Ok (sort_by_key vm_ID result).

Definition trim_range (r : CompatibilityRange) : CompatibilityRange :=
  mk_CompatibilityRange (canonicalVersion (cg_MinimumInclusive r)) (canonicalVersion (cg_MaximumExclusive r)).

Definition range_ok (r : CompatibilityRange) : bool :=
  negb (String.eqb (cg_MinimumInclusive r) "") && negb (String.eqb (cg_MaximumExclusive r) "") &&
  semver_less (cg_MinimumInclusive r) (cg_MaximumExclusive r).

Definition range_less (l r : CompatibilityRange) : bool :=
  if String.eqb (cg_MinimumInclusive l) (cg_MinimumInclusive r)
  then semver_less (cg_MaximumExclusive l) (cg_MaximumExclusive r)
  else semver_less (cg_MinimumInclusive l) (cg_MinimumInclusive r).

Definition canonicalRanges (source : list CompatibilityRange) : result (list CompatibilityRange) :=
  let result := List.map trim_range source in
  reject negb (forallb range_ok result) with ErrInvalidToolManifest;
  Ok (sort_slice range_less result).

Definition canonicalStrings (source : list string) (forbidden : string) : result (list string) :=
  let* result := canonical_entries token (fun value => negb (String.eqb value "")) (fun value => value) {[forbidden]} source in
  Ok (sort_strings result).

Definition canonicalCompensation (source : option CompensationSpec) : result (option CompensationSpec) :=
  match source with
  | None => Ok None
  | Some c =>
      let c := mk_CompensationSpec (token (cs_ToolID c)) (token (cs_PredicateID c)) in
      reject String.eqb (cs_ToolID c) "" || String.eqb (cs_PredicateID c) "" with ErrInvalidToolManifest;
      Ok (Some c)
  end.

(** The manifest with its fields normalized and no identity yet. *)
Definition normalize_manifest (source : Manifest) : result Manifest :=
  let schema := token (mf_SchemaVersion source) in
  let toolID := token (mf_ToolID source) in
  let version := canonicalVersion (mf_Version source) in
  reject String.eqb schema "" || String.eqb toolID "" || String.eqb version "" with ErrInvalidToolManifest;
  let* aliases := canonicalStrings (mf_Aliases source) toolID in
  let* inputs := canonicalFields (mf_Inputs source) in
  let* outputs := canonicalFields (mf_Outputs source) in
  let fields := field_names (inputs ++ outputs) in
  let* reads := canonicalResources fields (mf_Reads source) in
  let* writes := canonicalResources fields (mf_Writes source) in
  let* effects := canonicalEffects (mf_Effects source) in
  let resources := resource_names (reads ++ writes) in
  let* preconditions := canonicalPredicates fields resources (mf_Preconditions source) in
  let* successes := canonicalPredicates fields resources (mf_SuccessPredicates source) in
  let* methods := canonicalVerifiers (mf_VerificationMethods source) in
  let* ranges := canonicalRanges (mf_Compatibility source) in
  reject negb (validSideEffect (mf_SideEffect source)) || negb (validRisk (mf_Risk source)) ||
         negb (validIdempotency (mf_Idempotency source) fields) || negb (validRetry (mf_Retry source)) with ErrInvalidToolManifest;
  let* compensation := canonicalCompensation (mf_Compensation source) in
  Ok (mk_Manifest "" schema toolID version aliases inputs outputs reads writes effects (mf_SideEffect source) (mf_Risk source)
        (mf_Idempotency source) (mf_Retry source) preconditions successes compensation methods ranges "").

(** The manifest with its identifier and content hash. *)
Definition identified (m : Manifest) (id hash : string) : Manifest :=
  mk_Manifest id (mf_SchemaVersion m) (mf_ToolID m) (mf_Version m) (mf_Aliases m) (mf_Inputs m) (mf_Outputs m) (mf_Reads m)
    (mf_Writes m) (mf_Effects m) (mf_SideEffect m) (mf_Risk m) (mf_Idempotency m) (mf_Retry m) (mf_Preconditions m)
    (mf_SuccessPredicates m) (mf_Compensation m) (mf_VerificationMethods m) (mf_Compatibility m) hash.

Definition Canonicalize (source : Manifest) : result Manifest :=
  let* manifest := normalize_manifest source in
  let* (_, hash) := MarshalAndHash (contract_json manifest) in
  Ok (identified manifest ("tcv_" ++ hash)%string hash).
End canonical.

(** ** registry.go *)
Record MemoryRegistry := mk_registry {
  byKey : gmap string Manifest;
  names : gmap string string;
  versions : gmap string (list string)
}.

Definition NewMemoryRegistry : MemoryRegistry := mk_registry ∅ ∅ ∅.

Definition contractKey (toolID version : string) : string := (toolID ++ nul ++ version)%string.

Definition contract_names (m : Manifest) : list string := mf_ToolID m :: mf_Aliases m.

Definition versions_of (r : MemoryRegistry) (toolID : string) : list string := default [] (versions r !! toolID).

Section registry.
Context `{NFC} `{JCS} `{Digest} `{Semver}.

Definition name_taken (r : MemoryRegistry) (toolID name : string) : bool :=
  match names r !! name with Some owner => negb (String.eqb owner toolID) | None => false end.

Definition insert_contract (r : MemoryRegistry) (m : Manifest) : MemoryRegistry :=
  mk_registry (<[contractKey (mf_ToolID m) (mf_Version m) := m]> (byKey r))
    (foldl (fun acc name => <[name := mf_ToolID m]> acc) (names r) (contract_names m))
    (<[mf_ToolID m := sort_slice (fun x y => semver_less y x) (versions_of r (mf_ToolID m) ++ [mf_Version m])]> (versions r)).

Definition Register (r : MemoryRegistry) (ctx : option goerr) (manifest : Manifest) : result unit * MemoryRegistry :=
  match ctx with
  | Some e => (Err e, r)
  | None =>
      match Canonicalize manifest with
      | Err e => (Err e, r)
      | Ok m =>
          if negb (String.eqb (mf_ID manifest) "") &&
             (negb (String.eqb (mf_ID manifest) (mf_ID m)) || negb (String.eqb (mf_ContentHash manifest) (mf_ContentHash m)))
          then (Err ErrInvalidToolManifest, r)
          else
            match byKey r !! contractKey (mf_ToolID m) (mf_Version m) with
            | Some existing => (if String.eqb (mf_ID existing) (mf_ID m) then Ok tt else Err ErrVersionConflict, r)
            | None =>
                if existsb (name_taken r (mf_ToolID m)) (contract_names m) then (Err ErrAliasConflict, r)
                else (Ok tt, insert_contract r m)
            end
      end
  end.

Definition supports (manifest : Manifest) (version : string) : bool :=
  existsb (fun item => negb (semver_less version (cg_MinimumInclusive item)) && semver_less version (cg_MaximumExclusive item))
    (mf_Compatibility manifest).

Definition opaqueResolution (name version : string) : result Resolution :=
  let manifest := mk_Manifest "" "tool-contract.opaque.v1" name version [] [] [] [] [] [] SideEffectIrreversible RiskCritical
    (mk_IdempotencySpec IdempotencyNone "") (mk_RetrySpec RetryNever 1) [] [] None [] [] "" in
  let* (_, hash) := MarshalAndHash (contract_json manifest) in
  Ok (mk_Resolution (identified manifest ("opaque_" ++ hash)%string hash) true false).

(** The loop over the registered versions, highest first. *)
Fixpoint first_supporting (r : MemoryRegistry) (toolID version : string) (registered : list string) : option Manifest :=
  match registered with
  | [] => None
  | v :: registered =>
      match byKey r !! contractKey toolID v with
      | Some m => if supports m version then Some m else first_supporting r toolID version registered
      | None => first_supporting r toolID version registered
      end
  end.

Definition find_contract (r : MemoryRegistry) (name version : string) : option Manifest :=
  match names r !! name with
  | None => None
  | Some toolID =>
      if String.eqb version "" then None
      else match byKey r !! contractKey toolID version with
           | Some m => Some m
           | None => first_supporting r toolID version (versions_of r toolID)
           end
  end.

Definition Resolve (r : MemoryRegistry) (ctx : option goerr) (query : Query) : result Resolution :=
  match ctx with
  | Some e => Err e
  | None =>
      let name := token (qy_Name query) in
      let version := canonicalVersion (qy_Version query) in
      reject String.eqb name "" with ErrInvalidToolQuery;
      match find_contract r name version with
      | Some m => Ok (mk_Resolution m false true)
      | None => opaqueResolution name (token (qy_Version query))
      end
  end.

Definition register_all (r : MemoryRegistry) (history : list (option goerr * Manifest)) : MemoryRegistry :=
  foldl (fun r call => snd (Register r (fst call) (snd call))) r history.
End registry.

(** ** The order of declarations *)
Lemma canonical_entries_spec {A} (norm : A -> A) ok key seen (l : list A) :
  canonical_entries norm ok key seen l =
  if forallb ok (List.map norm l) && fresh_ids seen (List.map key (List.map norm l)) then Ok (List.map norm l)
  else Err ErrInvalidToolManifest.
Proof.
  revert seen. induction l as [|x l IH]; intros seen; cbn [canonical_entries List.map forallb]; [by rewrite fresh_ids_nil|].
  rewrite fresh_ids_cons, IH. destruct (ok (norm x)); cbn [negb andb]; [|done].
  destruct (bool_decide (key (norm x) ∈ seen)); cbn [negb andb]; [by rewrite andb_false_r|].
  by destruct (forallb ok _ && fresh_ids _ _).
Qed.

Lemma canonical_entries_inv {A} (norm : A -> A) ok key seen (l l' : list A) :
  canonical_entries norm ok key seen l = Ok l' ->
  l' = List.map norm l /\ (forall y, y ∈ l' -> ok y = true) /\ NoDup (List.map key l').
Proof.
  rewrite canonical_entries_spec. case_match eqn:E; [|done]. intros [= <-]. apply andb_true_iff in E as [Ho Hf].
  split; [done|]. split; [|by apply bool_decide_eq_true in Hf as [? _]].
  intros y Hy%list_elem_of_In. by eapply forallb_forall in Ho.
Qed.

Lemma fresh_ids_perm seen l l' : l ≡ₚ l' -> fresh_ids seen l = fresh_ids seen l'.
Proof. intros Hp. apply bool_decide_ext. by rewrite Hp. Qed.

Lemma NoDup_key_inj {A} (key : A -> string) (l : list A) :
  NoDup (List.map key l) -> forall x y, x ∈ l -> y ∈ l -> key x = key y -> x = y.
Proof.
  induction l as [|z l IH]; intros Hn x y Hx Hy Hk; [by apply not_elem_of_nil in Hx|].
  apply NoDup_cons in Hn as [Hz Hn]. assert (Hin : forall w, w ∈ l -> key w <> key z).
  { intros w Hw He. apply Hz. rewrite <- He. by apply list_elem_of_In, in_map, list_elem_of_In. }
  apply elem_of_cons in Hx as [->|Hx], Hy as [->|Hy]; [done|by destruct (Hin y)|by destruct (Hin x)|by apply IH].
Qed.

Lemma sort_by_key_perm {A} (key : A -> string) (l l' : list A) :
  NoDup (List.map key l) -> l ≡ₚ l' -> sort_by_key key l = sort_by_key key l'.
Proof.
  intros Hn Hp. apply (sort_slice_perm_eq (cmp_on key String.compare)); [|done].
  intros x y Hx Hy He. apply (NoDup_key_inj key l Hn); [done..|]. by apply String.compare_eq_iff.
Qed.

Lemma canonical_sorted_perm {A} (norm : A -> A) ok key seen (l l' : list A) :
  l ≡ₚ l' ->
  bind (canonical_entries norm ok key seen l) (fun r => Ok (sort_by_key key r)) =
  bind (canonical_entries norm ok key seen l') (fun r => Ok (sort_by_key key r)).
Proof.
  intros Hp. rewrite !canonical_entries_spec. assert (Hm : List.map norm l ≡ₚ List.map norm l') by (by apply Permutation_map).
  rewrite (forallb_perm ok _ _ Hm), (fresh_ids_perm seen _ (List.map key (List.map norm l'))) by (by apply Permutation_map).
  case_match eqn:E; [|done]. cbn [bind]. f_equal. apply sort_by_key_perm; [|done].
  apply andb_true_iff in E as [_ Hf]. apply bool_decide_eq_true in Hf as [Hn _].
  by rewrite (Permutation_map key Hm).
Qed.

Section canonical_order.
Context `{NFC} `{JCS} `{Digest} `{Semver} `{!SemverLaws}.

Lemma canonicalVersion_sealed value :
  canonicalVersion value <> ""%string ->
  let v := ("v" ++ canonicalVersion value)%string in
  semver_IsValid v = true /\ semver_Canonical v = v /\ has_nul (canonicalVersion value) = false.
Proof.
  unfold canonicalVersion. set (w := if HasPrefix _ _ then _ else _). destruct (semver_IsValid w) eqn:Hv; cbn [negb]; [|done].
  intros _. cbv zeta. pose proof (TrimPrefix_app _ _ (semver_canonical_prefix _ Hv)) as Heq. rewrite Heq.
  split; [by apply semver_canonical_valid|]. split; [by apply semver_canonical_idem|].
  pose proof (semver_canonical_clean _ Hv) as Hc. rewrite <- Heq, has_nul_app in Hc. by apply orb_false_iff in Hc as [_ ?].
Qed.

(** Versions in canonical form are ordered like their strings are equal. *)
Definition canonical_version (v : string) : Prop :=
  semver_IsValid ("v" ++ v)%string = true /\ semver_Canonical ("v" ++ v)%string = ("v" ++ v)%string.

Definition version_cmp : string -> string -> comparison := cmp_on (fun v => ("v" ++ v)%string) semver_Compare.

Lemma version_cmp_eq v w : canonical_version v -> canonical_version w -> version_cmp v w = Eq -> v = w.
Proof.
  intros [Hv Hcv] [Hw Hcw] He. pose proof (semver_equal _ _ Hv Hw He) as Heq. rewrite Hcv, Hcw in Heq. by injection Heq.
Qed.

Definition canonical_range (r : CompatibilityRange) : Prop :=
  canonical_version (cg_MinimumInclusive r) /\ canonical_version (cg_MaximumExclusive r).

Definition range_cmp : CompatibilityRange -> CompatibilityRange -> comparison :=
  cmp_lex (cmp_on cg_MinimumInclusive version_cmp) (cmp_on cg_MaximumExclusive version_cmp).

#[local] Instance range_cmp_lawful : LawfulCmp range_cmp.
Proof. unfold range_cmp, version_cmp. apply _. Qed.

Lemma range_less_cmp l r : canonical_range l -> canonical_range r -> range_less l r = cmp_ltb range_cmp l r.
Proof.
  intros [Hl _] [Hr _]. unfold range_less, range_cmp, cmp_lex, cmp_ltb, cmp_on at 1.
  destruct (String.eqb_spec (cg_MinimumInclusive l) (cg_MinimumInclusive r)) as [->|Hne].
  - unfold version_cmp at 1, cmp_on at 1. by rewrite cmp_refl.
  - change (semver_less (cg_MinimumInclusive l) (cg_MinimumInclusive r))
      with (cmp_ltb version_cmp (cg_MinimumInclusive l) (cg_MinimumInclusive r)). unfold cmp_ltb.
    destruct (version_cmp _ _) eqn:E; [|done..]. by apply version_cmp_eq in E.
Qed.

Lemma range_ok_canonical r : range_ok (trim_range r) = true -> canonical_range (trim_range r).
Proof.
  unfold range_ok. rewrite !andb_true_iff, !negb_true_iff, !String.eqb_neq. intros [[H1' H2'] _].
  cbn [trim_range cg_MinimumInclusive cg_MaximumExclusive] in *.
  destruct (canonicalVersion_sealed _ H1') as (? & ? & _), (canonicalVersion_sealed _ H2') as (? & ? & _).
  by split; split.
Qed.

Lemma canonicalRanges_perm l l' : l ≡ₚ l' -> canonicalRanges l = canonicalRanges l'.
Proof.
  intros Hp. unfold canonicalRanges. assert (Hm : List.map trim_range l ≡ₚ List.map trim_range l') by (by apply Permutation_map).
  rewrite (forallb_perm range_ok _ _ Hm). case_match eqn:E; [done|]. apply negb_false_iff in E. f_equal.
  assert (Hc : forall r, r ∈ List.map trim_range l' -> canonical_range r).
  { intros r Hr%list_elem_of_In. pose proof (proj1 (forallb_forall _ _) E _ Hr) as Hok.
    apply in_map_iff in Hr as (r' & <- & _). by apply range_ok_canonical. }
  rewrite (sort_slice_ext_on range_less (cmp_ltb range_cmp) (List.map trim_range l))
    by (intros x y Hx Hy; rewrite Hm in Hx, Hy; by apply range_less_cmp; apply Hc).
  rewrite (sort_slice_ext_on range_less (cmp_ltb range_cmp) (List.map trim_range l'))
    by (intros x y Hx Hy; by apply range_less_cmp; apply Hc).
  apply (sort_slice_perm_eq range_cmp); [|done]. intros [a b] [a' b'] Hx Hy. rewrite Hm in Hx, Hy.
  destruct (Hc _ Hx) as [Ha Hb], (Hc _ Hy) as [Ha' Hb']. unfold range_cmp, cmp_lex, cmp_on at 1.
  cbn [cg_MinimumInclusive cg_MaximumExclusive] in *.
  destruct (version_cmp a a') eqn:Ea; [|done..]. unfold cmp_on. cbn [cg_MaximumExclusive]. intros Eb.
  by rewrite (version_cmp_eq _ _ Ha Ha' Ea), (version_cmp_eq _ _ Hb Hb' Eb).
Qed.
End canonical_order.

(** ** The theorems on canonical manifests *)
Section canonicalize.
Context `{NFC} `{JCS} `{Digest} `{Semver} `{!SemverLaws}.

(** The same declarations, each list in any order. *)
Record reordered (m m' : Manifest) : Prop := mk_reordered {
  ro_head : mf_SchemaVersion m = mf_SchemaVersion m' /\ mf_ToolID m = mf_ToolID m' /\ mf_Version m = mf_Version m';
  ro_modes : mf_SideEffect m = mf_SideEffect m' /\ mf_Risk m = mf_Risk m' /\ mf_Idempotency m = mf_Idempotency m' /\
    mf_Retry m = mf_Retry m' /\ mf_Compensation m = mf_Compensation m';
  ro_aliases : mf_Aliases m ≡ₚ mf_Aliases m';
  ro_inputs : mf_Inputs m ≡ₚ mf_Inputs m';
  ro_outputs : mf_Outputs m ≡ₚ mf_Outputs m';
  ro_reads : mf_Reads m ≡ₚ mf_Reads m';
  ro_writes : mf_Writes m ≡ₚ mf_Writes m';
  ro_effects : mf_Effects m ≡ₚ mf_Effects m';
  ro_preconditions : mf_Preconditions m ≡ₚ mf_Preconditions m';
  ro_successes : mf_SuccessPredicates m ≡ₚ mf_SuccessPredicates m';
  ro_methods : mf_VerificationMethods m ≡ₚ mf_VerificationMethods m';
  ro_ranges : mf_Compatibility m ≡ₚ mf_Compatibility m'
}.

Lemma canonicalStrings_perm l l' forbidden : l ≡ₚ l' -> canonicalStrings l forbidden = canonicalStrings l' forbidden.
Proof using.
  intros Hp. unfold canonicalStrings. rewrite !canonical_entries_spec, !List.map_id.
  assert (Hm : List.map token l ≡ₚ List.map token l') by (by apply Permutation_map).
  rewrite (forallb_perm _ _ _ Hm), (fresh_ids_perm _ _ _ Hm). case_match; [|done]. cbn [bind]. f_equal.
  by apply sort_strings_perm_eq.
Qed.

(** The content address of a contract does not depend on the order of its
    declarations: manifests that differ only in the order of aliases, fields,
    resources, effects, predicates, methods and ranges have the same canonical
    form and identifier, or are both refused. *)
Theorem Canonicalize_order (m m' : Manifest) : reordered m m' -> Canonicalize m = Canonicalize m'.
Proof.
  intros [(E1 & E2 & E3) (E4 & E5 & E6 & E7 & E8) Ha Hi Ho Hr Hw He Hp Hs Hv Hc].
  unfold Canonicalize. f_equal. unfold normalize_manifest, canonicalFields, canonicalResources, canonicalEffects,
    canonicalPredicates, canonicalVerifiers. rewrite E1, E2, E3, E4, E5, E6, E7, E8.
  rewrite (canonicalStrings_perm _ _ _ Ha), (canonicalRanges_perm _ _ Hc).
  rewrite (canonical_sorted_perm _ _ _ _ _ _ Hi), (canonical_sorted_perm _ _ _ _ _ _ Ho).
  rewrite (canonical_sorted_perm _ _ _ _ _ _ He), (canonical_sorted_perm _ _ _ _ _ _ Hv).
  destruct (_ || _); [done|]. destruct (canonicalStrings _ _); [|done]. cbn [bind].
  destruct (bind (canonical_entries _ _ fs_Name _ (mf_Inputs m')) _); [|done]. cbn [bind].
  destruct (bind (canonical_entries _ _ fs_Name _ (mf_Outputs m')) _); [|done]. cbn [bind].
  rewrite (canonical_sorted_perm _ _ _ _ _ _ Hr). destruct (bind (canonical_entries _ _ _ _ (mf_Reads m')) _); [|done]. cbn [bind].
  rewrite (canonical_sorted_perm _ _ _ _ _ _ Hw). destruct (bind (canonical_entries _ _ _ _ (mf_Writes m')) _); [|done]. cbn [bind].
  destruct (bind (canonical_entries _ _ _ _ (mf_Effects m')) _); [|done]. cbn [bind].
  by rewrite (canonical_sorted_perm _ _ _ _ _ _ Hp), (canonical_sorted_perm _ _ _ _ _ _ Hs).
Qed.
End canonicalize.

(** ** The registry *)
Section registry_facts.
Context `{NFC} `{JCS} `{Digest} `{Semver}.

Lemma canonicalStrings_nonempty l forbidden l' name : canonicalStrings l forbidden = Ok l' -> name ∈ l' -> name <> ""%string.
Proof using.
  unfold canonicalStrings. intros Hc. apply bind_Ok in Hc as (r & Hr & [= <-]). intros Hin%(proj1 (sort_strings_elem _ _)).
  apply canonical_entries_inv in Hr as (_ & Hok & _). specialize (Hok _ Hin). by apply negb_true_iff, String.eqb_neq in Hok.
Qed.

Lemma Canonicalize_fields m cm :
  Canonicalize m = Ok cm ->
  (exists v, mf_Version cm = canonicalVersion v /\ mf_Version cm <> ""%string) /\
  forall name, name ∈ contract_names cm -> name <> ""%string.
Proof using.
  unfold Canonicalize. intros Hc. apply bind_Ok in Hc as (nm & Hn & Hc). inv_Ok Hc. injection Hc as <-.
  unfold normalize_manifest in Hn. inv_Ok Hn. injection Hn as <-.
  cbn [identified mf_Version mf_ToolID mf_Aliases contract_names].
  match goal with Hh : _ || _ || String.eqb (canonicalVersion _) "" = false |- _ =>
    apply orb_false_iff in Hh as [[_ Ht]%orb_false_iff Hv] end.
  apply String.eqb_neq in Ht, Hv. split; [by eexists|]. intros name [->|Hin]%elem_of_cons; [done|].
  by eapply canonicalStrings_nonempty.
Qed.

(** What a registration does. *)
Lemma Register_cases r ctx m res r' :
  Register r ctx m = (res, r') ->
  r' = r \/
  exists cm, Canonicalize m = Ok cm /\ byKey r !! contractKey (mf_ToolID cm) (mf_Version cm) = None /\
    (forall name, name ∈ contract_names cm -> name_taken r (mf_ToolID cm) name = false) /\ r' = insert_contract r cm /\ res = Ok tt.
Proof using.
  unfold Register. destruct ctx as [e|]; [intros [= _ <-]; by left|].
  destruct (Canonicalize m) as [cm|]; [|intros [= _ <-]; by left].
  destruct (_ && _); [intros [= _ <-]; by left|].
  destruct (byKey r !! _) eqn:Ek; [intros [= _ <-]; by left|].
  destruct (existsb _ _) eqn:Ex; [intros [= _ <-]; by left|]. intros [= <- <-]. right. exists cm.
  split_and!; [done..| |done|done]. intros name Hin. apply not_true_is_false. intros Ht.
  apply not_true_iff_false in Ex. apply Ex, existsb_exists. exists name. split; [by apply list_elem_of_In|done].
Qed.

Lemma names_after (m : gmap string string) toolID l name :
  foldl (fun acc name => <[name := toolID]> acc) m l !! name = if decide (name ∈ l) then Some toolID else m !! name.
Proof using.
  revert m. induction l as [|x l IH]; intros m; cbn [foldl]; [by rewrite decide_False by apply not_elem_of_nil|].
  rewrite IH. destruct (decide (name ∈ l)) as [Hin|Hin].
  - by rewrite decide_True by (by right).
  - destruct (decide (name = x)) as [->|Hne].
    + by rewrite lookup_insert_eq, decide_True by (by left).
    + rewrite lookup_insert_ne, decide_False by (done || (by intros [?|?]%elem_of_cons)). done.
Qed.

(** Registered contracts and names stay. *)
Definition registry_extends (r r' : MemoryRegistry) : Prop := byKey r ⊆ byKey r' /\ names r ⊆ names r'.

Lemma Register_extends r ctx m : registry_extends r (snd (Register r ctx m)).
Proof using.
  destruct (Register r ctx m) as [res r'] eqn:E. cbn [snd].
  destruct (Register_cases _ _ _ _ _ E) as [->|(cm & _ & Hk & Hn & -> & _)]; [by split|]. split; cbn [insert_contract byKey names].
  - by apply insert_subseteq.
  - apply map_subseteq_spec. intros name owner Ho. rewrite names_after. destruct (decide _) as [Hin|]; [|done].
    specialize (Hn _ Hin). unfold name_taken in Hn. rewrite Ho in Hn. apply negb_false_iff, String.eqb_eq in Hn. by rewrite Hn.
Qed.

Lemma register_all_extends history : forall r, registry_extends r (register_all r history).
Proof using.
  unfold register_all. induction history as [|call history IH]; intros r; simpl; [by split|].
  destruct (Register_extends r (fst call) (snd call)) as [Hb Hn], (IH (snd (Register r (fst call) (snd call)))) as [Hb' Hn'].
  split; etrans; eassumption.
Qed.

(** A registered contract is final: after any later registrations, each of its
    names with its version resolves to exactly that contract. *)
Theorem Register_final (r r1 : MemoryRegistry) (m cm : Manifest) (history : list (option goerr * Manifest)) (query : Query) :
  Register r None m = (Ok tt, r1) -> Canonicalize m = Ok cm ->
  byKey r !! contractKey (mf_ToolID cm) (mf_Version cm) = None ->
  token (qy_Name query) ∈ contract_names cm -> canonicalVersion (qy_Version query) = mf_Version cm ->
  Resolve (register_all r1 history) None query = Ok (mk_Resolution cm false true).
Proof using.
  intros Hr Hc Hk Hname Hv. destruct (Canonicalize_fields _ _ Hc) as [(v & Hv' & Hvne) Hne].
  destruct (Register_cases _ _ _ _ _ Hr) as [->|(cm' & Hc' & _ & _ & -> & _)].
  { exfalso. unfold Register in Hr. rewrite Hc, Hk in Hr. destruct (_ && _); [done|]. destruct (existsb _ _); [done|].
    injection Hr as Hr. apply (f_equal byKey) in Hr. rewrite <- Hr in Hk. cbn [insert_contract byKey] in Hk.
    by rewrite lookup_insert_eq in Hk. }
  replace cm' with cm in * by congruence. destruct (register_all_extends history (insert_contract r cm)) as [Hb Hn].
  unfold Resolve. rewrite (proj2 (String.eqb_neq _ _)) by (by apply Hne). unfold find_contract.
  rewrite (lookup_weaken _ _ _ (mf_ToolID cm) (eq_trans (names_after _ _ _ _) (decide_True _ _ Hname)) Hn), Hv.
  rewrite (proj2 (String.eqb_neq _ _)) by done.
  by rewrite (lookup_weaken _ _ _ cm (lookup_insert_eq _ _ _) Hb).
Qed.

Context {laws : SemverLaws}.

Definition registered (r : MemoryRegistry) (toolID : string) (m : Manifest) : Prop :=
  mf_ToolID m = toolID /\ byKey r !! contractKey toolID (mf_Version m) = Some m.

(** No later version is higher. *)
Definition not_below (x y : string) : Prop := semver_less x y = false.

Record registry_ok (r : MemoryRegistry) : Prop := mk_registry_ok {
  ok_key : forall k m, byKey r !! k = Some m ->
    k = contractKey (mf_ToolID m) (mf_Version m) /\ mf_Version m ∈ versions_of r (mf_ToolID m) /\ has_nul (mf_Version m) = false;
  ok_version : forall t v, v ∈ versions_of r t -> exists m, registered r t m /\ mf_Version m = v;
  ok_sorted : forall t, StronglySorted not_below (versions_of r t)
}.

Lemma semver_sorted l : StronglySorted not_below (sort_slice (fun x y => semver_less y x) l).
Proof using laws.
  assert (Hl : LawfulCmp (cmp_rev version_cmp)) by (unfold version_cmp; apply _).
  pose proof (sort_slice_sorted (cmp_rev version_cmp) l) as Hs.
  change (sort_slice (cmp_ltb (cmp_rev version_cmp)) l) with (sort_slice (fun x y => semver_less y x) l) in Hs.
  eapply StronglySorted_weaken; [|exact Hs]. intros x y Hle. unfold cmp_le, cmp_rev, version_cmp, cmp_on in Hle.
  unfold not_below, semver_less, cmp_ltb. rewrite (cmp_opp ("v" ++ y)%string ("v" ++ x)%string).
  by destruct (semver_Compare _ _).
Qed.

Lemma versions_of_insert r m t :
  versions_of (insert_contract r m) t =
  if decide (mf_ToolID m = t) then sort_slice (fun x y => semver_less y x) (versions_of r t ++ [mf_Version m]) else versions_of r t.
Proof using.
  unfold versions_of. cbn [insert_contract versions]. destruct (decide _) as [<-|Hne]; [by rewrite lookup_insert_eq|].
  by rewrite lookup_insert_ne.
Qed.

Lemma insert_contract_ok r m :
  registry_ok r -> byKey r !! contractKey (mf_ToolID m) (mf_Version m) = None -> has_nul (mf_Version m) = false ->
  registry_ok (insert_contract r m).
Proof using laws.
  intros [Hk Hv Hs] Hfresh Hnul.
  assert (Hold : forall t m', registered r t m' -> registered (insert_contract r m) t m').
  { intros t m' [<- Hr]. split; [done|]. cbn [insert_contract byKey]. rewrite lookup_insert_ne; [done|]. intros Heq. rewrite <- Heq in Hr. congruence. }
  split.
  - intros k m' Hm'. cbn [insert_contract byKey] in Hm'. apply lookup_insert_Some in Hm' as [[<- <-]|[_ Hm']].
    + split; [done|]. rewrite versions_of_insert, decide_True, sort_slice_elem, elem_of_app by done. split; [right; by left|done].
    + destruct (Hk _ _ Hm') as (-> & Hin & Hn). split; [done|]. split; [|done]. rewrite versions_of_insert.
      destruct (decide _) as [_|]; [|done]. rewrite sort_slice_elem, elem_of_app. by left.
  - intros t v. rewrite versions_of_insert. destruct (decide _) as [<-|]; [|intros (m' & Hr & Hv')%Hv; exists m'; auto].
    rewrite sort_slice_elem, elem_of_app, list_elem_of_singleton. intros [(m' & Hr & Hv')%Hv| ->]; [exists m'; auto|].
    exists m. split; [|done]. split; [done|]. cbn [insert_contract byKey]. by rewrite lookup_insert_eq.
  - intros t. rewrite versions_of_insert. destruct (decide _); [apply semver_sorted|apply Hs].
Qed.

Lemma register_all_ok history : forall r, registry_ok r -> registry_ok (register_all r history).
Proof using laws.
  unfold register_all. induction history as [|call history IH]; intros r Hr; simpl; [done|]. apply IH.
  destruct (Register r (fst call) (snd call)) as [res r'] eqn:E. cbn [snd].
  destruct (Register_cases _ _ _ _ _ E) as [->|(cm & Hc & Hk & _ & -> & _)]; [done|]. apply insert_contract_ok; [done..|].
  destruct (Canonicalize_fields _ _ Hc) as [(v & Hv & Hne) _]. rewrite Hv in *. by apply canonicalVersion_sealed.
Qed.

Lemma NewMemoryRegistry_ok : registry_ok NewMemoryRegistry.
Proof using.
  split; [by intros k m Hm|intros t v Hv; by apply not_elem_of_nil in Hv|]. intros t. constructor.
Qed.

Lemma first_supporting_spec r toolID version l :
  (forall v, v ∈ l -> exists m, registered r toolID m /\ mf_Version m = v) -> StronglySorted not_below l ->
  match first_supporting r toolID version l with
  | Some m => registered r toolID m /\ supports m version = true /\
      forall m', registered r toolID m' -> mf_Version m' ∈ l -> supports m' version = true -> not_below (mf_Version m) (mf_Version m')
  | None => forall m', registered r toolID m' -> mf_Version m' ∈ l -> supports m' version = false
  end.
Proof using laws.
  intros Hreg Hs. induction Hs as [|v l Hs IH Hf]; cbn [first_supporting]; [by intros m' _ Hin%not_elem_of_nil|].
  destruct (Hreg v (list_elem_of_here _ _)) as (m & [Ht Hm] & Hmv). rewrite Hmv in Hm. rewrite Hm.
  assert (Hsame : forall m', registered r toolID m' -> mf_Version m' = v -> m' = m) by (intros m' [_ Hm'] Hv'; rewrite Hv' in Hm'; congruence).
  specialize (IH (fun w Hw => Hreg w (list_elem_of_further _ _ _ Hw))). rewrite List.Forall_forall in Hf.
  destruct (supports m version) eqn:Es.
  - split; [split; [done|by rewrite Hmv]|]. split; [done|]. intros m' Hm' [Hv'|Hin]%elem_of_cons _.
    + rewrite (Hsame _ Hm' Hv'). unfold not_below, semver_less, cmp_ltb. by rewrite cmp_refl.
    + rewrite Hmv. by apply Hf, list_elem_of_In.
  - destruct (first_supporting _ _ _ _) as [m0|].
    + destruct IH as (H0' & Hs0 & Hmax). split; [done|]. split; [done|]. intros m' Hm' [Hv'|Hin]%elem_of_cons Hs'; [|by apply Hmax].
      rewrite (Hsame _ Hm' Hv') in Hs'. congruence.
    + intros m' Hm' [Hv'|Hin]%elem_of_cons; [by rewrite (Hsame _ Hm' Hv')|by apply IH].
Qed.

(** The contract that answers a query: the registered version itself, or else
    the highest registered version that declares support for it. *)
Definition best_contract (r : MemoryRegistry) (toolID version : string) (m : Manifest) : Prop :=
  registered r toolID m /\
  (mf_Version m = version \/
   (forall m', registered r toolID m' -> mf_Version m' <> version) /\ supports m version = true /\
   forall m', registered r toolID m' -> supports m' version = true -> not_below (mf_Version m) (mf_Version m')).

Lemma find_contract_spec r name version :
  registry_ok r -> has_nul version = false ->
  match find_contract r name version with
  | Some m => exists toolID, names r !! name = Some toolID /\ best_contract r toolID version m
  | None => version = ""%string \/ forall toolID m, names r !! name = Some toolID -> registered r toolID m ->
      mf_Version m <> version /\ supports m version = false
  end.
Proof using laws.
  intros Hok Hnul. unfold find_contract. destruct (names r !! name) as [toolID|]; [|by right].
  destruct (String.eqb_spec version "") as [->|Hne]; [by left|].
  assert (Hin : forall m, registered r toolID m -> mf_Version m ∈ versions_of r toolID).
  { intros m [<- Hm]. by apply (ok_key _ Hok) in Hm as (_ & ? & _). }
  destruct (byKey r !! contractKey toolID version) as [m|] eqn:Em.
  - exists toolID. split; [done|]. destruct (ok_key _ Hok _ _ Em) as (Hkey & _ & Hn).
    apply last_part_inj in Hkey as [-> ->]; [|done..]. split; [by split|by left].
  - assert (Hnone : forall m, registered r toolID m -> mf_Version m <> version) by (intros m [_ Hm] <-; congruence).
    pose proof (first_supporting_spec r toolID version _ (ok_version _ Hok toolID) (ok_sorted _ Hok toolID)) as Hf.
    destruct (first_supporting _ _ _ _) as [m|].
    + destruct Hf as (Hm & Hs & Hmax). exists toolID. split; [done|]. split; [done|]. right. auto.
    + right. intros ? m [= <-] Hm. auto.
Qed.

(** After any registrations, [Resolve] answers with the registered contract of
    the queried version, or else with the highest registered version whose
    declared ranges contain it, and only when there is neither with an opaque
    contract, which is irreversible, of critical risk and never promotable. *)
Theorem Resolve_exact (history : list (option goerr * Manifest)) (query : Query) (res : Resolution) :
  let r := register_all NewMemoryRegistry history in
  let name := token (qy_Name query) in
  let version := canonicalVersion (qy_Version query) in
  Resolve r None query = Ok res ->
  if rl_Opaque res
  then rl_AutoPromotable res = false /\ mf_SideEffect (rl_Manifest res) = SideEffectIrreversible /\
       mf_Risk (rl_Manifest res) = RiskCritical /\
       (version = ""%string \/ forall toolID m, names r !! name = Some toolID -> registered r toolID m ->
          mf_Version m <> version /\ supports m version = false)
  else rl_AutoPromotable res = true /\
       exists toolID, names r !! name = Some toolID /\ best_contract r toolID version (rl_Manifest res).
Proof using laws.
  intros r name version. unfold Resolve. fold name version. destruct (String.eqb name ""); [done|].
  assert (Hnul : has_nul version = false).
  { destruct (decide (version = ""%string)) as [->|Hne]; [done|]. by apply canonicalVersion_sealed in Hne as (_ & _ & ?). }
  pose proof (find_contract_spec r name version (register_all_ok history _ NewMemoryRegistry_ok) Hnul) as Hf.
  destruct (find_contract r name version) as [m|].
  - intros [= <-]. cbn [rl_Opaque rl_AutoPromotable rl_Manifest]. by split.
  - unfold opaqueResolution. intros Hr. inv_Ok Hr. injection Hr as <-. by split_and!.
Qed.
End registry_facts.

(** ** Witnesses *)

(** Version strings compared byte-wise: enough for versions of equal width. *)
Definition plain_semver : Semver := {|
  semver_IsValid v := HasPrefix v "v" && negb (String.eqb v "v") && negb (has_nul v);
  semver_Canonical v := v;
  semver_Compare := String.compare
|}.

Lemma plain_semver_laws : @SemverLaws plain_semver.
Proof.
  split; cbn [semver_IsValid semver_Canonical semver_Compare plain_semver].
  - apply _.
  - done.
  - done.
  - by intros v [[? _]%andb_true_iff _]%andb_true_iff.
  - by intros v [_ ?%negb_true_iff]%andb_true_iff.
  - intros v w _ _. apply String.compare_eq_iff.
Qed.

Section demo.
#[local] Existing Instance copy_nfc.
#[local] Existing Instance copy_jcs.
#[local] Existing Instance checksum_digest.
#[local] Existing Instance plain_semver.
#[local] Existing Instance plain_semver_laws.

Definition demo_contract (version limit : string) (aliases : list string) : Manifest :=
  mk_Manifest "" "tool-contract.v1" " git " version aliases
    [mk_FieldSpec "repository" "string" true "relative_path"; mk_FieldSpec "message" "string" false "text"] []
    [mk_ResourceSpec "worktree" "directory" "fs" "repository" ""] [mk_ResourceSpec "history" "commit_log" "git" "repository" ""]
    [mk_EffectSpec "committed" "low"] SideEffectWrite RiskMedium (mk_IdempotencySpec IdempotencyNone "") (mk_RetrySpec RetryNever 1)
    [mk_PredicateSpec "clean" "worktree" "" "" ""] [mk_PredicateSpec "recorded" "history" "" "" ""] None
    [mk_VerificationMethod "log" "tool_postcondition"] [mk_CompatibilityRange version limit] "".

Definition demo_canonical (m : Manifest) : Manifest := match Canonicalize m with Ok c => c | Err _ => m end.

Definition contract_1 : Manifest := demo_contract "v1.0.0" "2.0.0" ["commit"; "gitc"].
Definition contract_2 : Manifest := demo_contract "1.2.0" "1.9.0" ["commit"].
Definition canonical_1 : Manifest := Eval vm_compute in demo_canonical contract_1.

Lemma contract_1_canonical : Canonicalize contract_1 = Ok canonical_1.
Proof. vm_compute. reflexivity. Qed.

Definition swapped_contract : Manifest :=
  mk_Manifest "" "tool-contract.v1" " git " "v1.0.0" ["gitc"; "commit"]
    [mk_FieldSpec "message" "string" false "text"; mk_FieldSpec "repository" "string" true "relative_path"] []
    (mf_Reads contract_1) (mf_Writes contract_1) (mf_Effects contract_1) SideEffectWrite RiskMedium
    (mf_Idempotency contract_1) (mf_Retry contract_1) (mf_Preconditions contract_1) (mf_SuccessPredicates contract_1) None
    (mf_VerificationMethods contract_1) (mf_Compatibility contract_1) "".

Lemma Canonicalize_order_witness : Canonicalize swapped_contract = Ok canonical_1.
Proof.
  rewrite (Canonicalize_order swapped_contract contract_1); [exact contract_1_canonical|].
  by split; (reflexivity || apply perm_swap || split_and?).
Defined.

Definition registry_1 : MemoryRegistry := snd (Register NewMemoryRegistry None contract_1).

Lemma Register_final_witness :
  Resolve (register_all registry_1 [(None, contract_2); (Some CtxCanceled, contract_2)]) None (mk_Query "gitc" " v1.0.0") =
  Ok (mk_Resolution canonical_1 false true).
Proof.
  apply (Register_final NewMemoryRegistry registry_1 contract_1 canonical_1).
  - assert (Hf : fst (Register NewMemoryRegistry None contract_1) = Ok tt) by (vm_compute; reflexivity).
    unfold registry_1. destruct (Register _ _ _) as [x r]. cbn [fst snd] in *. by rewrite Hf.
  - exact contract_1_canonical.
  - reflexivity.
  - right. right. left.
  - vm_compute. reflexivity.
Defined.

Definition demo_history : list (option goerr * Manifest) := [(None, contract_2); (None, contract_1)].
Definition demo_query : Query := mk_Query "commit" "1.3.0".

Definition demo_resolution : Resolution :=
  match Resolve (register_all NewMemoryRegistry demo_history) None demo_query with
  | Ok res => res
  | Err _ => mk_Resolution contract_1 true true
  end.

Lemma demo_resolved :
  Resolve (register_all NewMemoryRegistry demo_history) None demo_query = Ok demo_resolution /\
  rl_Opaque demo_resolution = false /\ mf_Version (rl_Manifest demo_resolution) = "1.2.0"%string.
Proof.
  assert (Hr : is_ok (Resolve (register_all NewMemoryRegistry demo_history) None demo_query) = true) by (vm_compute; reflexivity).
  split; [|split; vm_compute; reflexivity]. unfold demo_resolution. by destruct (Resolve _ _ _).
Qed.

Lemma Resolve_exact_witness : exists toolID,
  names (register_all NewMemoryRegistry demo_history) !! token "commit" = Some toolID /\
  best_contract (register_all NewMemoryRegistry demo_history) toolID (canonicalVersion "1.3.0") (rl_Manifest demo_resolution).
Proof.
  destruct demo_resolved as (Hr & Ho & _). pose proof (Resolve_exact demo_history demo_query demo_resolution Hr) as He.
  cbv zeta in He. rewrite Ho in He. exact (proj2 He).
Defined.
End demo.
