(* ===== verification/Synthesis.v ===== *)
(** * Causal graphs and procedure synthesis (internal/synthesis, internal/workflow/processor.go)

    [Build] turns the events of a trace into a causal graph: one node per
    event, with the contract its tool resolves to, resource-flow edges from the
    last writer of a resource to its readers, and the declared control and
    verifier dependencies.  [Synthesize] keeps what the verified goals and the
    required effects depend on, annotates what may be unnecessary and records
    the failed branches.  The processor's [inferGoals], [requiredEffects] and
    [inferFailedBranches] make the synthesis request from a graph.

    The tool registry is the interface [Registry]: the answer to the [n]-th
    query, since contracts may be registered and the context cancelled between
    two queries; [memory_registry] is the in-memory one.

    The file [SynthesisSound] has the theorems. *)

From Stdlib Require Import ZArith String Ascii List Bool Lia.
From stdpp Require Import base gmap strings list sorting.
From S2P Require Import Prelude GoStrings GoTime Canonical Domain Kahn ToolContract.

Open Scope Z_scope.
Open Scope go_scope.

(** ** graph.go *)
Definition EdgeResourceFlow : string := "resource_flow".
Definition EdgeControl : string := "control".
Definition EdgeVerifier : string := "verifier".

(** The structs [Resource] and [PredicateReference] have the fields of
    [domain.ProcedureResource] and [domain.ProcedurePredicate]. *)
Definition Resource : Type := ProcedureResource.
Definition PredicateReference : Type := ProcedurePredicate.

Record Node := mk_Node {
  nd_ID : string;
  nd_Position : Z;
  nd_ToolName : string;
  nd_ToolVersion : string;
  nd_ToolContractVersionID : string;
  nd_Opaque : bool;
  nd_Succeeded : bool;
  nd_SideEffect : string;
  nd_Risk : string;
  nd_Effects : list string;
  nd_CompensationBoundary : bool;
  nd_Preconditions : list PredicateReference;
  nd_SuccessPredicates : list string;
  nd_VerificationMethods : list string;
  nd_Reads : list Resource;
  nd_Writes : list Resource
}.

Record Edge := mk_Edge {
  ed_From : string;
  ed_To : string;
  ed_Type : string;
  ed_ResourceID : string;
  ed_ResourceName : string;
  ed_ResourceType : string;
  ed_ResourceNamespace : string
}.

Record Graph := mk_Graph {
  gr_SchemaVersion : string;
  gr_TraceID : string;
  gr_Nodes : list Node;
  gr_Edges : list Edge;
  gr_AutoPromotable : bool;
  gr_Hash : string
}.

Record DeclaredDependency := mk_DeclaredDependency { dp_Prerequisite : string; dp_Dependent : string }.

Record BuildRequest := mk_BuildRequest {
  br_Batch : CanonicalBatch;
  br_ControlDependencies : list DeclaredDependency;
  br_VerifierDependencies : list DeclaredDependency
}.

Definition node_json (n : Node) : json :=
  JObj (fstr "id" (nd_ID n) ++ fnum "position" (nd_Position n) ++ fstr "tool_name" (nd_ToolName n) ++
        fstr "tool_version" (nd_ToolVersion n) ++ fstr "tool_contract_version_id" (nd_ToolContractVersionID n) ++
        fbool "opaque" (nd_Opaque n) ++ fbool "succeeded" (nd_Succeeded n) ++ fstr "side_effect" (nd_SideEffect n) ++
        fstr "risk" (nd_Risk n) ++ fstrs_omit "effects" (nd_Effects n) ++
        fbool "compensation_boundary" (nd_CompensationBoundary n) ++
        farr_omit "preconditions" (List.map predicate_json (nd_Preconditions n)) ++
        fstrs_omit "success_predicates" (nd_SuccessPredicates n) ++
        fstrs_omit "verification_methods" (nd_VerificationMethods n) ++
        farr_omit "reads" (List.map resource_json (nd_Reads n)) ++ farr_omit "writes" (List.map resource_json (nd_Writes n))).

Definition edge_json (e : Edge) : json :=
  JObj (fstr "from" (ed_From e) ++ fstr "to" (ed_To e) ++ fstr "type" (ed_Type e) ++
        fstr_omit "resource_id" (ed_ResourceID e) ++ fstr_omit "resource_name" (ed_ResourceName e) ++
        fstr_omit "resource_type" (ed_ResourceType e) ++ fstr_omit "resource_namespace" (ed_ResourceNamespace e)).

Definition graph_json (g : Graph) : json :=
  JObj (fstr "schema_version" (gr_SchemaVersion g) ++ fstr "trace_id" (gr_TraceID g) ++
        farr "nodes" (List.map node_json (gr_Nodes g)) ++ farr_omit "edges" (List.map edge_json (gr_Edges g)) ++
        fbool "auto_promotable" (gr_AutoPromotable g)).

(** ** builder.go *)
Definition graphSchemaVersion : string := "causal-graph.v3".

Definition edge_key (e : Edge) : string :=
  (ed_From e ++ nul ++ ed_To e ++ nul ++ ed_Type e ++ nul ++ ed_ResourceID e ++ nul ++ ed_ResourceNamespace e ++ nul ++
   ed_ResourceType e ++ nul ++ ed_ResourceName e)%string.

Definition addEdge (edges : gmap string Edge) (e : Edge) : gmap string Edge := <[edge_key e := e]> edges.

Fixpoint addDeclaredEdges (positions : gmap string nat) (edgeType : string) (edges : gmap string Edge)
    (dependencies : list DeclaredDependency) : result (gmap string Edge) :=
  match dependencies with
  | [] => Ok edges
  | d :: dependencies =>
      reject String.eqb (dp_Prerequisite d) (dp_Dependent d) with ErrCausalCycle;
      reject bool_decide (positions !! dp_Prerequisite d = None) with ErrUnknownDependency;
      reject bool_decide (positions !! dp_Dependent d = None) with ErrUnknownDependency;
      addDeclaredEdges positions edgeType (addEdge edges (mk_Edge (dp_Prerequisite d) (dp_Dependent d) edgeType "" "" "" "")) dependencies
  end.

(** A missing key reads as position 0. *)
Definition position_of (positions : gmap string nat) (id : string) : nat := default 0%nat (positions !! id).

Definition edge_cmp (positions : gmap string nat) : Edge -> Edge -> comparison :=
  cmp_lex (cmp_on (fun e => position_of positions (ed_From e)) Nat.compare)
    (cmp_lex (cmp_on (fun e => position_of positions (ed_To e)) Nat.compare) (cmp_on edge_key String.compare)).

Definition sortEdges (positions : gmap string nat) : list Edge -> list Edge := sort_slice (cmp_ltb (edge_cmp positions)).

(** The loops are those of [Kahn], with released nodes appended to the queue.
    A node enters the queue at the start or when its in-degree falls to zero,
    so [fuel] bounds the turns. *)
Definition hasCycle (nodes : list Node) (edges : list Edge) : bool :=
  let ids := List.map nd_ID nodes in
  let indegree := initial_indegree ed_To (list_to_set ids) edges in
  let queue := List.filter (fun id => degree indegree id =? 0) ids in
  let fuel := (length nodes + length edges)%nat in
  let visited := length (order_loop (fun l => l) fuel (build_adjacency ed_From ed_To edges) queue indegree []) in
  negb (Nat.eqb visited (length nodes)).

Section builder.
Context `{JCS} `{Digest}.

Definition resource_of (tenantID : string) (spec : ResourceSpec) (value : string) : Resource :=
  let identityHash := sum256_hex (tenantID ++ nul ++ rp_Namespace spec ++ nul ++ rp_Type spec ++ nul ++ value)%string in
  mk_ProcedureResource ("res_" ++ identityHash)%string (rp_Name spec) (rp_Type spec) (rp_Namespace spec) identityHash (rp_SchemaVersion spec).

Fixpoint resources_from (tenantID : string) (values : gmap string string) (specs : list ResourceSpec) : result (list Resource) :=
  match specs with
  | [] => Ok []
  | spec :: specs =>
      let value := default ""%string (values !! rp_Field spec) in
      reject String.eqb value "" with ErrMissingResource;
      let* rest := resources_from tenantID values specs in
      Ok (resource_of tenantID spec value :: rest)
  end.

(** Two resources of one identifier keep their input order; the order of the
    source is open for those, which differ only in name and schema version. *)
Definition resourcesFor (tenantID : string) (specs : list ResourceSpec) (values : gmap string string) : result (list Resource) :=
  let* result := resources_from tenantID values specs in
  Ok (sort_by_key rs_ID result).

Definition event_succeeded (event : CanonicalEvent) : bool :=
  match cn_Result event with
  | Some r => String.eqb (cr_State r) "TOOL_RESULT_STATE_SUCCESS"
  | None => false
  end.

(** The values of the event's fields, then those of its result's evidence. *)
Definition event_values (event : CanonicalEvent) : gmap string string :=
  let set := fun (m : gmap string string) (f : CanonicalField) => <[cf_Name f := cf_Value f]> m in
  let values := foldl set ∅ (cn_Fields event) in
  match cn_Result event with
  | Some r => foldl set values (cr_Evidence r)
  | None => values
  end.

Definition sort_predicates : list PredicateReference -> list PredicateReference :=
  sort_slice (cmp_ltb (cmp_lex (cmp_on pp_ID String.compare) (cmp_on pp_ResourceName String.compare))).

Definition node_of (event : CanonicalEvent) (resolved : Resolution) (reads writes : list Resource) : Node :=
  let m := rl_Manifest resolved in
  mk_Node (cn_ID event) (cn_Position event) (cn_ToolName event) (cn_ToolVersion event) (mf_ID m) (rl_Opaque resolved)
    (event_succeeded event) (mf_SideEffect m) (mf_Risk m) (sort_strings (List.map ef_Name (mf_Effects m)))
    (match mf_Compensation m with Some _ => true | None => false end)
    (sort_predicates (List.map (fun p => mk_ProcedurePredicate (pd_ID p) (pd_Resource p)) (mf_Preconditions m)))
    (sort_strings (List.map pd_ID (mf_SuccessPredicates m))) (sort_strings (List.map vm_ID (mf_VerificationMethods m))) reads writes.

Definition buildNode (tenantID : string) (event : CanonicalEvent) (resolved : Resolution) : result Node :=
  if rl_Opaque resolved then Ok (node_of event resolved [] [])
  else
    let values := event_values event in
    let* reads := resourcesFor tenantID (mf_Reads (rl_Manifest resolved)) values in
    let* writes := resourcesFor tenantID (mf_Writes (rl_Manifest resolved)) values in
    Ok (node_of event resolved reads writes).

(** The state of the loop over the events. *)
Record building := mk_building {
  bd_nodes : list Node;
  bd_positions : gmap string nat;
  bd_lastWriter : gmap string string;
  bd_edges : gmap string Edge;
  bd_promotable : bool
}.

Definition flow_edge (producer : string) (node : Node) (r : Resource) : Edge :=
  mk_Edge producer (nd_ID node) EdgeResourceFlow (rs_ID r) (rs_Name r) (rs_Type r) (rs_Namespace r).

Definition add_reads (lastWriter : gmap string string) (node : Node) (edges : gmap string Edge) : gmap string Edge :=
  foldl (fun edges r => match lastWriter !! rs_ID r with Some producer => addEdge edges (flow_edge producer node r) | None => edges end)
    edges (nd_Reads node).

Definition add_writes (node : Node) (lastWriter : gmap string string) : gmap string string :=
  foldl (fun m r => <[rs_ID r := nd_ID node]> m) lastWriter (nd_Writes node).

Definition place_node (b : building) (node : Node) : building :=
  mk_building (bd_nodes b ++ [node]) (<[nd_ID node := length (bd_nodes b)]> (bd_positions b)) (add_writes node (bd_lastWriter b))
    (add_reads (bd_lastWriter b) node (bd_edges b)) (bd_promotable b && negb (nd_Opaque node)).

Class Registry := resolve : nat -> Query -> result Resolution.

Context `{Registry}.

Fixpoint build_nodes (tenantID : string) (b : building) (events : list CanonicalEvent) : result building :=
  match events with
  | [] => Ok b
  | event :: events =>
      let index := length (bd_nodes b) in
      reject String.eqb (cn_ID event) "" || negb (cn_Position event =? wrap_u32 (Z.of_nat index)) with ErrInvalidBuildRequest;
      reject bool_decide (is_Some (bd_positions b !! cn_ID event)) with ErrInvalidBuildRequest;
      let* resolved := resolve index (mk_Query (cn_ToolName event) (cn_ToolVersion event)) in
      let* node := buildNode tenantID event resolved in
      build_nodes tenantID (place_node b node) events
  end.

Definition Build (ctx : option goerr) (request : BuildRequest) : result Graph :=
  match ctx with
  | Some e => Err e
  | None =>
      let batch := br_Batch request in
      reject String.eqb (cb_TenantID batch) "" || String.eqb (tr_ID (cb_Trace batch)) "" || (count (cb_Events batch) =? 0)
        with ErrInvalidBuildRequest;
      let* b := build_nodes (cb_TenantID batch) (mk_building [] ∅ ∅ ∅ true) (cb_Events batch) in
      let* edges := addDeclaredEdges (bd_positions b) EdgeControl (bd_edges b) (br_ControlDependencies request) in
      let* edges := addDeclaredEdges (bd_positions b) EdgeVerifier edges (br_VerifierDependencies request) in
      let edges := sortEdges (bd_positions b) (List.map snd (map_to_list edges)) in
      reject hasCycle (bd_nodes b) edges with ErrCausalCycle;
      let graph := mk_Graph graphSchemaVersion (tr_ID (cb_Trace batch)) (bd_nodes b) edges (bd_promotable b) "" in
      let* (_, hash) := MarshalAndHash (graph_json graph) in
      Ok (mk_Graph graphSchemaVersion (tr_ID (cb_Trace batch)) (bd_nodes b) edges (bd_promotable b) hash)
  end.
End builder.

(** The in-memory registry, which nobody changes during a build. *)
Definition memory_registry `{NFC} `{JCS} `{Digest} `{Semver} (r : MemoryRegistry) : Registry := fun _ query => Resolve r None query.

(** ** synthesizer.go *)
Definition StatusSynthesized : string := "synthesized".
Definition StatusAbstained : string := "abstained".

Record GoalRequirement := mk_GoalRequirement { gq_PredicateID : string; gq_VerifierNodes : list string }.

Record FailedBranch := mk_FailedBranch {
  fb_FailurePredicateID : string;
  fb_EventIDs : list string;
  fb_Scope : CompatibilityScope
}.

Record Versions := mk_Versions { vs_Sanitizer : string; vs_Registry : string; vs_Policy : string; vs_GraphBuilder : string; vs_Synthesizer : string }.

Definition versions_valid (v : Versions) : bool :=
  negb (String.eqb (vs_Sanitizer v) "") && negb (String.eqb (vs_Registry v) "") && negb (String.eqb (vs_Policy v) "") &&
  negb (String.eqb (vs_GraphBuilder v) "") && negb (String.eqb (vs_Synthesizer v) "").

Record SynthesisRequest := mk_SynthesisRequest {
  sq_Graph : Graph;
  sq_OutcomeState : string;
  sq_Goals : list GoalRequirement;
  sq_RequiredEffects : list string;
  sq_IrrelevantNodes : list string;
  sq_FailedBranches : list FailedBranch;
  sq_Versions : Versions
}.

Record SynthesisResult := mk_SynthesisResult {
  sr_SchemaVersion : string;
  sr_Status : string;
  sr_AbstentionCode : string;
  sr_TraceID : string;
  sr_CausalGraphHash : string;
  sr_Steps : list ProcedureStep;
  sr_Edges : list Edge;
  sr_NegativePaths : list NegativePath;
  sr_GoalPredicates : list string;
  sr_Versions : Versions;
  sr_ObservedEndToEnd : bool;
  sr_Hash : string
}.

Definition versions_json (v : Versions) : json :=
  JObj (fstr "sanitizer" (vs_Sanitizer v) ++ fstr "registry" (vs_Registry v) ++ fstr "policy" (vs_Policy v) ++
        fstr "graph_builder" (vs_GraphBuilder v) ++ fstr "synthesizer" (vs_Synthesizer v)).

Definition synthesis_json (r : SynthesisResult) : json :=
  JObj (fstr "schema_version" (sr_SchemaVersion r) ++ fstr "status" (sr_Status r) ++ fstr_omit "abstention_code" (sr_AbstentionCode r) ++
        fstr "trace_id" (sr_TraceID r) ++ fstr "causal_graph_hash" (sr_CausalGraphHash r) ++
        farr_omit "steps" (List.map step_json (sr_Steps r)) ++ farr_omit "edges" (List.map edge_json (sr_Edges r)) ++
        farr_omit "negative_paths" (List.map negative_path_json (sr_NegativePaths r)) ++
        fstrs_omit "goal_predicates" (sr_GoalPredicates r) ++ fld "versions" (versions_json (sr_Versions r)) ++
        fbool "observed_end_to_end" (sr_ObservedEndToEnd r)).

Definition lowerHex (value : string) : bool := forallb is_lower_hex (list_ascii_of_string value).

(** The loop that indexes the nodes by identifier. *)
Fixpoint index_nodes (index : nat) (nodes : gmap string Node) (l : list Node) : option (gmap string Node) :=
  match l with
  | [] => Some nodes
  | n :: l =>
      if String.eqb (nd_ID n) "" || negb (nd_Position n =? wrap_u32 (Z.of_nat index)) then None
      else index_nodes (S index) (<[nd_ID n := n]> nodes) l
  end.

Definition merge_goal (merged : gmap string (gset string)) (goal : GoalRequirement) : gmap string (gset string) :=
  <[gq_PredicateID goal := default ∅ (merged !! gq_PredicateID goal) ∪ list_to_set (gq_VerifierNodes goal)]> merged.

Definition canonicalGoals (source : list GoalRequirement) : list GoalRequirement :=
  sort_by_key gq_PredicateID
    (List.map (fun kv => mk_GoalRequirement (fst kv) (sort_strings (elements (snd kv)))) (map_to_list (foldl merge_goal ∅ source))).

(** The verifiers of one goal: [None] when one of them is no node, otherwise
    the nodes to retain and whether one of them succeeded. *)
Fixpoint cover_goal (nodes : gmap string Node) (retained : gset string) (covered : bool) (verifiers : list string)
    : option (gset string * bool) :=
  match verifiers with
  | [] => Some (retained, covered)
  | id :: verifiers =>
      match nodes !! id with
      | None => None
      | Some n => if nd_Succeeded n then cover_goal nodes ({[id]} ∪ retained) true verifiers
                  else cover_goal nodes retained covered verifiers
      end
  end.

(** The loop over the goals: an error, or abstention after [n] predicates have
    been recorded, or the retained nodes. *)
Inductive coverage := CoverageInvalid | Uncovered (n : nat) | Covered (retained : gset string).

Fixpoint cover_goals (nodes : gmap string Node) (n : nat) (retained : gset string) (goals : list GoalRequirement) : coverage :=
  match goals with
  | [] => Covered retained
  | goal :: goals =>
      if String.eqb (gq_PredicateID goal) "" || (count (gq_VerifierNodes goal) =? 0) then Uncovered (S n)
      else match cover_goal nodes retained false (gq_VerifierNodes goal) with
           | None => CoverageInvalid
           | Some (_, false) => Uncovered (S n)
           | Some (retained, true) => cover_goals nodes (S n) retained goals
           end
  end.

(** The loop over the required effects: an error, abstention or the retained nodes. *)
Inductive requirement := RequirementInvalid | RequirementFailed | Required (retained : gset string).

Fixpoint require_effects (nodes : gmap string Node) (retained : gset string) (ids : list string) : requirement :=
  match ids with
  | [] => Required retained
  | id :: ids =>
      match nodes !! id with
      | None => RequirementInvalid
      | Some n => if nd_Succeeded n then require_effects nodes ({[id]} ∪ retained) ids else RequirementFailed
      end
  end.

Definition known (nodes : gmap string Node) (id : string) : bool := bool_decide (is_Some (nodes !! id)).

(** [reverse]: the prerequisites of each node. *)
Definition reverse_edges (edges : list Edge) : gmap string (list string) :=
  foldl (fun m e => <[ed_To e := successors m (ed_To e) ++ [ed_From e]]> m) ∅ edges.

Definition retain_step (acc : gset string * list string) (prerequisite : string) : gset string * list string :=
  let (retained, queue) := acc in
  if bool_decide (prerequisite ∈ retained) then acc else ({[prerequisite]} ∪ retained, prerequisite :: queue).

(** The worklist; the last element of the slice is the head here.  A node is
    pushed when it is first retained, so the number of nodes bounds the turns. *)
Fixpoint drain (fuel : nat) (reverse : gmap string (list string)) (retained : gset string) (queue : list string) : gset string :=
  match fuel, queue with
  | S fuel, id :: queue =>
      let (retained, queue) := foldl retain_step (retained, queue) (successors reverse id) in
      drain fuel reverse retained queue
  | _, _ => retained
  end.

Definition succeeded (nodes : gmap string Node) (id : string) : bool :=
  match nodes !! id with Some n => nd_Succeeded n | None => false end.

Definition eventSet (source : list string) (nodes : gmap string Node) : result (gset string) :=
  reject negb (forallb (known nodes) source) with ErrInvalidSynthesisRequest;
  Ok (list_to_set source).

(** ** Metadata of a step *)
Definition trim_resource_ref (item : Resource) : ProcedureResource :=
  mk_ProcedureResource (TrimSpace (rs_ID item)) (TrimSpace (rs_Name item)) (TrimSpace (rs_Type item)) (TrimSpace (rs_Namespace item))
    (TrimSpace (rs_IdentityHash item)) (TrimSpace (rs_SchemaVersion item)).

Definition resource_invalid (value : ProcedureResource) : bool :=
  negb (String.eqb (rs_ID value) ("res_" ++ rs_IdentityHash value)) || String.eqb (rs_Name value) "" || String.eqb (rs_Type value) "" ||
  String.eqb (rs_Namespace value) "" || negb (str_len (rs_IdentityHash value) =? 64) || negb (lowerHex (rs_IdentityHash value)).

(** An entry of another value under the identifier. *)
Definition clashes (m : gmap string ProcedureResource) (value : ProcedureResource) : bool :=
  match m !! rs_ID value with Some prior => bool_decide (prior <> value) | None => false end.

Fixpoint collect_resources (byID catalog : gmap string ProcedureResource) (source : list Resource)
    : result (gmap string ProcedureResource * gmap string ProcedureResource) :=
  match source with
  | [] => Ok (byID, catalog)
  | item :: source =>
      let value := trim_resource_ref item in
      reject resource_invalid value || clashes byID value || clashes catalog value with ErrInvalidSynthesisRequest;
      collect_resources (<[rs_ID value := value]> byID) (<[rs_ID value := value]> catalog) source
  end.

Definition canonicalProcedureResources (catalog : gmap string ProcedureResource) (source : list Resource)
    : result (list ProcedureResource * gmap string ProcedureResource) :=
  let* (byID, catalog) := collect_resources ∅ catalog source in
  Ok (sort_by_key rs_ID (List.map snd (map_to_list byID)), catalog).

Fixpoint collect_predicates (resources : gset string) (seen : gmap string ProcedurePredicate) (source : list PredicateReference)
    : result (gmap string ProcedurePredicate) :=
  match source with
  | [] => Ok seen
  | item :: source =>
      let value := mk_ProcedurePredicate (TrimSpace (pp_ID item)) (TrimSpace (pp_ResourceName item)) in
      reject String.eqb (pp_ID value) "" || (256 <? str_len (pp_ID value)) with ErrInvalidSynthesisRequest;
      reject negb (String.eqb (pp_ResourceName value) "") && bool_decide (pp_ResourceName value ∉ resources) with ErrInvalidSynthesisRequest;
      reject match seen !! pp_ID value with Some prior => bool_decide (prior <> value) | None => false end with ErrInvalidSynthesisRequest;
      collect_predicates resources (<[pp_ID value := value]> seen) source
  end.

Definition canonicalStepPredicates (source : list PredicateReference) (reads writes : list ProcedureResource) : result (list ProcedurePredicate) :=
  let* seen := collect_predicates (list_to_set (List.map rs_Name (reads ++ writes))) ∅ source in
  Ok (sort_by_key pp_ID (List.map snd (map_to_list seen))).

Definition canonicalStringSet (source : list string) : result (list string) :=
  let items := List.map TrimSpace source in
  reject existsb (fun item => String.eqb item "" || (256 <? str_len item)) items with ErrInvalidSynthesisRequest;
  Ok (sort_strings (elements (list_to_set items : gset string))).

Definition make_step (node : Node) (ordinal : nat) (uncertain : bool) (effects : list string) (preconditions : list ProcedurePredicate)
    (predicates methods : list string) (reads writes : list ProcedureResource) : ProcedureStep :=
  mk_ProcedureStep (nd_ID node) (wrap_u32 (Z.of_nat ordinal)) (nd_Position node) (nd_ToolName node) (nd_ToolVersion node)
    (nd_ToolContractVersionID node) uncertain (nd_CompensationBoundary node) (nd_SideEffect node) (nd_Risk node) effects preconditions
    predicates methods reads writes.

(** [canonicalStepMetadata] and the step made from it; the catalog is shared by all steps. *)
Definition canonicalStep (catalog : gmap string ProcedureResource) (ordinal : nat) (uncertain : bool) (node : Node)
    : result (ProcedureStep * gmap string ProcedureResource) :=
  reject negb (validSideEffect (nd_SideEffect node)) || negb (validRisk (nd_Risk node)) with ErrInvalidSynthesisRequest;
  let* (reads, catalog) := canonicalProcedureResources catalog (nd_Reads node) in
  let* (writes, catalog) := canonicalProcedureResources catalog (nd_Writes node) in
  let* effects := canonicalStringSet (nd_Effects node) in
  let* preconditions := canonicalStepPredicates (nd_Preconditions node) reads writes in
  let* predicates := canonicalStringSet (nd_SuccessPredicates node) in
  let* methods := canonicalStringSet (nd_VerificationMethods node) in
  Ok (make_step node ordinal uncertain effects preconditions predicates methods reads writes, catalog).

(** The condition under which the loop over the nodes makes no step. *)
Definition skipped (retained irrelevant failed : gset string) (node : Node) : bool :=
  let proven := bool_decide (nd_ID node ∈ retained) in
  bool_decide (nd_ID node ∈ failed) || (negb proven && bool_decide (nd_ID node ∈ irrelevant)) || (negb proven && negb (nd_Succeeded node)).

Fixpoint make_steps (retained irrelevant failed : gset string) (catalog : gmap string ProcedureResource) (ordinal : nat)
    (nodes : list Node) : result (list ProcedureStep) :=
  match nodes with
  | [] => Ok []
  | node :: nodes =>
      if skipped retained irrelevant failed node then make_steps retained irrelevant failed catalog ordinal nodes
      else
        let* (step, catalog) := canonicalStep catalog ordinal (negb (bool_decide (nd_ID node ∈ retained))) node in
        let* steps := make_steps retained irrelevant failed catalog (S ordinal) nodes in
        Ok (step :: steps)
  end.

Section synthesizer.
Context `{JCS} `{Digest}.

Definition hashed (r : SynthesisResult) : result SynthesisResult :=
  let* (_, hash) := MarshalAndHash (synthesis_json r) in
  Ok (mk_SynthesisResult (sr_SchemaVersion r) (sr_Status r) (sr_AbstentionCode r) (sr_TraceID r) (sr_CausalGraphHash r) (sr_Steps r)
        (sr_Edges r) (sr_NegativePaths r) (sr_GoalPredicates r) (sr_Versions r) (sr_ObservedEndToEnd r) hash).

(** An abstention: the request's header, the goal predicates recorded so far and the code. *)
Definition abstain (request : SynthesisRequest) (predicates : list string) (code : string) : result SynthesisResult :=
  hashed (mk_SynthesisResult "synthesis.v2" StatusAbstained code (gr_TraceID (sq_Graph request)) (gr_Hash (sq_Graph request)) [] [] []
            predicates (sq_Versions request) false "").

Definition node_position (nodes : gmap string Node) (id : string) : Z := match nodes !! id with Some n => nd_Position n | None => 0 end.

Fixpoint buildNegativePaths (nodes : gmap string Node) (source : list FailedBranch) : result (list NegativePath * gset string) :=
  match source with
  | [] => Ok ([], ∅)
  | branch :: source =>
      reject String.eqb (fb_FailurePredicateID branch) "" || negb (scope_Valid (fb_Scope branch)) || (count (fb_EventIDs branch) =? 0)
        with ErrInvalidSynthesisRequest;
      let eventIDs := sort_slice (cmp_ltb (cmp_on (node_position nodes) Z.compare)) (fb_EventIDs branch) in
      reject negb (forallb (known nodes) eventIDs) with ErrInvalidSynthesisRequest;
      let path := mk_NegativePath "" (fb_FailurePredicateID branch) eventIDs (fb_Scope branch) in
      let* (_, hash) := MarshalAndHash (negative_path_json path) in
      let* (rest, failed) := buildNegativePaths nodes source in
      Ok (mk_NegativePath ("neg_" ++ hash)%string (fb_FailurePredicateID branch) eventIDs (fb_Scope branch) :: rest,
          list_to_set (fb_EventIDs branch) ∪ failed)
  end.

Definition request_invalid (request : SynthesisRequest) : bool :=
  String.eqb (gr_TraceID (sq_Graph request)) "" || (count (gr_Nodes (sq_Graph request)) =? 0) || String.eqb (gr_Hash (sq_Graph request)) "" ||
  negb (versions_valid (sq_Versions request)) || (count (sq_Goals request) =? 0).

Definition index_step (acc : nat * gmap string nat) (n : Node) : nat * gmap string nat := (S (fst acc), <[nd_ID n := fst acc]> (snd acc)).

Definition positions_by_id (nodes : list Node) : gmap string nat := snd (foldl index_step (0%nat, ∅) nodes).

(** The part of [Synthesize] after the retained nodes are known. *)
Definition synthesize_retained (request : SynthesisRequest) (nodes : gmap string Node) (predicates : list string) (retained : gset string)
    : result SynthesisResult :=
  let graph := sq_Graph request in
  if existsb (fun id => negb (succeeded nodes id)) (elements retained) then abstain request predicates "failed_prerequisite"
  else
    let* irrelevant := eventSet (sq_IrrelevantNodes request) nodes in
    let* (paths, failed) := buildNegativePaths nodes (sq_FailedBranches request) in
    let* steps := make_steps retained irrelevant failed ∅ 0 (gr_Nodes graph) in
    let selected := list_to_set (List.map sp_EventID steps) : gset string in
    let edges := List.filter (fun e => bool_decide (ed_From e ∈ selected) && bool_decide (ed_To e ∈ selected)) (gr_Edges graph) in
    hashed (mk_SynthesisResult "synthesis.v2" StatusSynthesized "" (gr_TraceID graph) (gr_Hash graph) steps
              (sortEdges (positions_by_id (gr_Nodes graph)) edges) (sort_by_key np_ID paths) predicates (sq_Versions request) true "").

Definition Synthesize (request : SynthesisRequest) : result SynthesisResult :=
  let graph := sq_Graph request in
  reject request_invalid request with ErrInvalidSynthesisRequest;
  if negb (String.eqb (sq_OutcomeState request) OutcomeStateVerifiedSuccess) then abstain request [] "outcome_not_verified"
  else if negb (gr_AutoPromotable graph) then abstain request [] "opaque_tool"
  else
    match index_nodes 0 ∅ (gr_Nodes graph) with
    | None => Err ErrInvalidSynthesisRequest
    | Some nodes =>
        let goals := canonicalGoals (sq_Goals request) in
        let predicates := List.map gq_PredicateID goals in
        match cover_goals nodes 0 ∅ goals with
        | CoverageInvalid => Err ErrInvalidSynthesisRequest
        | Uncovered n => abstain request (firstn n predicates ++ repeat ""%string (length predicates - n)) "uncovered_goal"
        | Covered retained =>
            match require_effects nodes retained (sq_RequiredEffects request) with
            | RequirementInvalid => Err ErrInvalidSynthesisRequest
            | RequirementFailed => abstain request predicates "failed_required_effect"
            | Required retained =>
                reject negb (forallb (fun e => known nodes (ed_From e) && known nodes (ed_To e)) (gr_Edges graph))
                  with ErrInvalidSynthesisRequest;
                synthesize_retained request nodes predicates
                  (drain (size nodes) (reverse_edges (gr_Edges graph)) retained (elements retained))
            end
        end
    end.
End synthesizer.

(** ** processor.go: the synthesis request of a trace *)
Definition goal_node (predicate verifier : string) (n : Node) : bool :=
  nd_Succeeded n && (existsb (String.eqb predicate) (nd_SuccessPredicates n) || existsb (String.eqb verifier) (nd_VerificationMethods n)).

Definition infer_fact (nodes : list Node) (goals : gmap string (gset string)) (fact : OutcomeEvidence) : gmap string (gset string) :=
  <[oe_PredicateID fact := default ∅ (goals !! oe_PredicateID fact) ∪
      list_to_set (List.map nd_ID (List.filter (goal_node (oe_PredicateID fact) (oe_VerifierID fact)) nodes))]> goals.

Definition inferGoals (graph : Graph) (facts : list OutcomeEvidence) : list GoalRequirement :=
  sort_by_key gq_PredicateID
    (List.map (fun kv => mk_GoalRequirement (fst kv) (sort_strings (elements (snd kv))))
       (map_to_list (foldl (infer_fact (gr_Nodes graph)) ∅ facts))).

Definition requiredEffects (graph : Graph) : list string :=
  List.map nd_ID (List.filter (fun n => nd_Succeeded n && negb (String.eqb (nd_SideEffect n) SideEffectNone) &&
                                        negb (String.eqb (nd_SideEffect n) SideEffectRead)) (gr_Nodes graph)).

Section processor.
Context `{JCS} `{Digest}.

(** The batch is decoded from the stage artifact, where an empty field list is
    left out, so it is a nil slice. *)
Definition tool_scope_json (n : Node) (event : CanonicalEvent) : json :=
  JObj (fstr "contract_version_id" (nd_ToolContractVersionID n) ++
        fld "inputs" match cn_Fields event with [] => JNull | l => JArr (List.map field_json l) end).

Definition failure_json (r : CanonicalResult) : json :=
  JObj (fstr "state" (cr_State r) ++ match cr_ExitCode r with Some code => fnum "exit_code" code | None => [] end ++
        farr_omit "evidence" (List.map field_json (cr_Evidence r))).

Definition failed_branch (environmentHash : string) (events : gmap string CanonicalEvent) (n : Node) : result FailedBranch :=
  match events !! nd_ID n with
  | None => Err ErrInvalidStartRequest
  | Some event =>
      match cn_Result event with
      | None => Err ErrInvalidStartRequest
      | Some r =>
          let* (_, toolHash) := MarshalAndHash (tool_scope_json n event) in
          let* (_, failureHash) := MarshalAndHash (failure_json r) in
          let resources := sort_strings (List.map rs_IdentityHash (nd_Reads n) ++ List.map rs_IdentityHash (nd_Writes n)) in
          let* (_, resourceHash) := MarshalAndHash (jstrs resources) in
          Ok (mk_FailedBranch ("tool_failure:" ++ nd_ToolContractVersionID n ++ ":" ++ failureHash)%string [nd_ID n]
                (mk_CompatibilityScope environmentHash toolHash resourceHash))
      end
  end.

Fixpoint failed_branches (environmentHash : string) (events : gmap string CanonicalEvent) (nodes : list Node) : result (list FailedBranch) :=
  match nodes with
  | [] => Ok []
  | n :: nodes =>
      if nd_Succeeded n || nd_Opaque n then failed_branches environmentHash events nodes
      else
        let* branch := failed_branch environmentHash events n in
        let* rest := failed_branches environmentHash events nodes in
        Ok (branch :: rest)
  end.

Definition inferFailedBranches (graph : Graph) (batch : CanonicalBatch) (environmentHash : string) : result (list FailedBranch) :=
  failed_branches environmentHash (foldl (fun m e => <[cn_ID e := e]> m) ∅ (cb_Events batch)) (gr_Nodes graph).

(** The request of the [Synthesize] stage, from the artifacts of the stages before it. *)
Definition stage_request (graph : Graph) (batch : CanonicalBatch) (environmentHash state : string) (facts : list OutcomeEvidence)
    (versions : Versions) : result SynthesisRequest :=
  let* failed := inferFailedBranches graph batch environmentHash in
  Ok (mk_SynthesisRequest graph state (inferGoals graph facts) (requiredEffects graph) [] failed versions).
End processor.
