(* ===== verification/SynthesisSound.v ===== *)
(** * Correctness of causal graphs and of synthesis

    [Build_exact] characterizes the edges of a causal graph: exactly the
    resource flows from the last writer of a resource to a reader and the
    declared dependencies, without a cycle.  [Synthesize_exact] characterizes
    the steps of a procedure by backward reachability from the verified goals
    and required effects, and [pipeline_exact] shows that with the request the
    processor makes, nothing that a goal depends on is lost.
    [Synthesize_drops_proof] is a request, not of the processor's, with which
    the proof of a goal is dropped. *)

From Stdlib Require Import ZArith String Ascii List Bool Lia.
From stdpp Require Import base gmap strings list sorting relations.
From S2P Require Import Prelude GoStrings GoTime Canonical Domain Kahn ToolContract Synthesis.

Open Scope Z_scope.
Open Scope go_scope.

(** ** Cycles *)
Definition causes (edges : list Edge) : relation string := edge_rel ed_From ed_To edges.

Lemma hasCycle_spec (nodes : list Node) (edges : list Edge) :
  NoDup (List.map nd_ID nodes) ->
  (forall e, e ∈ edges -> ed_From e ∈ List.map nd_ID nodes /\ ed_To e ∈ List.map nd_ID nodes) ->
  hasCycle nodes edges = false <-> forall v, ~ tc (causes edges) v v.
Proof.
  intros Hn Hclosed. set (ids := list_to_set (List.map nd_ID nodes) : gset string).
  assert (Hc : forall e, e ∈ edges -> ed_From e ∈ ids /\ ed_To e ∈ ids) by (unfold ids; setoid_rewrite elem_of_list_to_set; done).
  assert (Hsize : size ids = length nodes) by (unfold ids; by rewrite size_list_to_set, List.length_map).
  unfold hasCycle. fold ids. set (queue := List.filter _ _).
  assert (Hq : kahn ed_From ed_To ids edges [] queue (initial_indegree ed_To ids edges)).
  { apply initial_kahn.
    - unfold queue. rewrite <- (List.map_id (List.filter _ _)). apply NoDup_map_filter. by rewrite List.map_id.
    - intros v. unfold queue, ids. rewrite elem_of_list_to_set, !list_elem_of_In, filter_In, Z.eqb_eq. done. }
  destruct (order_loop_spec ed_From ed_To (fun l => l) (fun l => reflexivity l) ids edges Hc (length nodes + length edges) _ _ _ Hq)
    as (m & Hk); [rewrite Hsize; simpl; lia|].
  rewrite negb_false_iff, Nat.eqb_eq, <- (kahn_iff _ _ ids edges Hc _ _ Hk), Hsize. done.
Qed.

(** ** Backward reachability *)

(** [depends edges a b]: the node [a] has the prerequisite [b]. *)
Definition depends (edges : list Edge) (a b : string) : Prop := exists e, e ∈ edges /\ ed_To e = a /\ ed_From e = b.

Lemma reverse_edges_spec edges a : successors (reverse_edges edges) a = List.map ed_From (List.filter (fun e => String.eqb (ed_To e) a) edges).
Proof. apply (successors_spec ed_To ed_From edges a). Qed.

Lemma reverse_edges_elem edges a b : b ∈ successors (reverse_edges edges) a <-> depends edges a b.
Proof.
  rewrite reverse_edges_spec, list_elem_of_In, in_map_iff. split.
  - intros (e & <- & [He Ht%String.eqb_eq]%filter_In). exists e. by rewrite list_elem_of_In.
  - intros (e & He & <- & <-). exists e. split; [done|]. apply filter_In. by rewrite str_eqb_refl, <- list_elem_of_In.
Qed.

Lemma retain_steps l : forall (R : gset string) Q, exists new,
  foldl retain_step (R, Q) l = (list_to_set new ∪ R, new ++ Q) /\ NoDup new /\
  (forall x, x ∈ new -> x ∈ l /\ x ∉ R) /\ (forall x, x ∈ l -> x ∈ new \/ x ∈ R).
Proof.
  induction l as [|y l IH]; intros R Q; cbn [foldl].
  { exists []. split; [by rewrite list_to_set_nil, union_empty_l_L|]. split; [constructor|]. split; intros x Hx; by apply not_elem_of_nil in Hx. }
  unfold retain_step at 2. destruct (bool_decide (y ∈ R)) eqn:Ey.
  - apply bool_decide_eq_true in Ey. destruct (IH R Q) as (new & -> & Hn & Hnew & Hall). exists new. split; [done|]. split; [done|].
    split; [intros x Hx; destruct (Hnew x Hx); by split; [right|]|]. intros x [->|Hx]%elem_of_cons; [by right|by apply Hall].
  - apply bool_decide_eq_false in Ey. destruct (IH ({[y]} ∪ R) (y :: Q)) as (new & -> & Hn & Hnew & Hall).
    exists (new ++ [y]). split; [|split; [|split]].
    + f_equal; [|by rewrite <- app_assoc]. rewrite list_to_set_app_L. set_solver.
    + apply NoDup_app. split; [done|]. split; [|apply NoDup_singleton]. intros x Hx ->%list_elem_of_singleton.
      destruct (Hnew y Hx) as [_ Hy]. set_solver.
    + intros x [Hx| ->%list_elem_of_singleton]%elem_of_app; [|by split; [left|]]. destruct (Hnew x Hx) as [? Hy]. split; [by right|set_solver].
    + intros x [->|Hx]%elem_of_cons; [left; apply elem_of_app; right; by left|].
      destruct (Hall x Hx) as [?|[?%elem_of_singleton|?]%elem_of_union]; [left; apply elem_of_app; by left| |by right].
      subst. left. apply elem_of_app. right. by left.
Qed.

Section reachability.
Context (edges : list Edge) (universe : gset string).
Hypothesis closed : forall a b, depends edges a b -> a ∈ universe /\ b ∈ universe.

(** The worklist's invariant: what is retained and not queued has all its prerequisites retained. *)
Lemma drain_spec (R0 : gset string) fuel : forall (R : gset string) (Q : list string),
  R ⊆ universe -> NoDup Q -> (forall x, x ∈ Q -> x ∈ R) ->
  (forall x y, x ∈ R -> x ∉ Q -> depends edges x y -> y ∈ R) ->
  (forall x, x ∈ R -> exists r, r ∈ R0 /\ rtc (depends edges) r x) -> R0 ⊆ R ->
  (size (universe ∖ R) + length Q <= fuel)%nat ->
  forall x, x ∈ drain fuel (reverse_edges edges) R Q <-> exists r, r ∈ R0 /\ rtc (depends edges) r x.
Proof using closed.
  induction fuel as [|fuel IH]; intros R Q HU Hn HQ Hdone Hsound H0 Hfuel.
  - destruct Q as [|y Q]; [|simpl in Hfuel; lia]. cbn [drain]. intros x. split; [apply Hsound|].
    intros (r & Hr & Hx). assert (Hstart : r ∈ R) by (by apply H0). clear Hr. induction Hx as [|a b c Hab _ IHx]; [done|].
    apply IHx, (Hdone a b); [done|apply not_elem_of_nil|done].
  - destruct Q as [|y Q]; cbn [drain].
    { intros x. split; [apply Hsound|]. intros (r & Hr & Hx). assert (Hstart : r ∈ R) by (by apply H0). clear Hr.
      induction Hx as [|a b c Hab _ IHx]; [done|]. apply IHx, (Hdone a b); [done|apply not_elem_of_nil|done]. }
    destruct (retain_steps (successors (reverse_edges edges) y) R Q) as (new & -> & Hnd & Hnew & Hall).
    apply NoDup_cons in Hn as [Hy Hn].
    assert (Hnewdep : forall x, x ∈ new -> depends edges y x) by (intros x Hx; by apply reverse_edges_elem, Hnew).
    assert (Hnew_u : list_to_set new ⊆ universe ∖ R).
    { intros x Hx%elem_of_list_to_set. apply elem_of_difference. split; [by apply (closed y x), Hnewdep|by apply Hnew]. }
    apply IH.
    + set_solver.
    + apply NoDup_app. split; [done|]. split; [|done]. intros x Hx HxQ. destruct (Hnew x Hx) as [_ Hr]. apply Hr, HQ. by right.
    + intros x [Hx|Hx]%elem_of_app; apply elem_of_union; [left; by apply elem_of_list_to_set|right; apply HQ; by right].
    + intros x z Hx HxQ Hd. apply elem_of_union. destruct (decide (x = y)) as [->|Hne].
      * apply reverse_edges_elem, Hall in Hd as [?|?]; [left; by apply elem_of_list_to_set|by right].
      * right. apply elem_of_union in Hx as [Hx%elem_of_list_to_set|Hx]; [exfalso; apply HxQ, elem_of_app; by left|].
        apply (Hdone x z); [done| |done]. intros [->|?]%elem_of_cons; [done|]. apply HxQ, elem_of_app. by right.
    + intros x [Hx%elem_of_list_to_set|Hx]%elem_of_union; [|by apply Hsound].
      destruct (Hsound y (HQ y (list_elem_of_here _ _))) as (r & Hr & Hry). exists r. split; [done|].
      eapply rtc_r; [exact Hry|by apply Hnewdep].
    + set_solver.
    + rewrite length_app. simpl in Hfuel.
      assert (Heq : universe ∖ (list_to_set new ∪ R) = (universe ∖ R) ∖ list_to_set new) by set_solver.
      rewrite Heq, size_difference, size_list_to_set by done.
      assert (length new <= size (universe ∖ R))%nat; [|lia].
      rewrite <- (size_list_to_set (C := gset string)) by done. by apply subseteq_size.
Qed.

Lemma drain_reaches (R : gset string) x :
  R ⊆ universe ->
  x ∈ drain (size universe) (reverse_edges edges) R (elements R) <-> exists r, r ∈ R /\ rtc (depends edges) r x.
Proof using closed.
  intros HU. apply (drain_spec R); [done|apply NoDup_elements|by intros y ?%elem_of_elements| | |done|].
  - intros y z Hy Hq. by destruct Hq; apply elem_of_elements.
  - intros y Hy. by exists y.
  - rewrite size_difference by done. pose proof (subseteq_size _ _ HU). change (length (elements R)) with (size R). lia.
Qed.
End reachability.

(** ** Edges keyed by their contents *)

(** Edges whose key determines them: no NUL byte in the joined fields. *)
Definition clean_edge (e : Edge) : Prop :=
  has_nul (ed_From e) = false /\ has_nul (ed_To e) = false /\ has_nul (ed_Type e) = false /\ has_nul (ed_ResourceID e) = false /\
  has_nul (ed_ResourceNamespace e) = false /\ has_nul (ed_ResourceType e) = false.

Lemma edge_key_inj e e' : clean_edge e -> clean_edge e' -> edge_key e = edge_key e' -> e = e'.
Proof.
  destruct e, e'. unfold clean_edge, edge_key. cbn. intros (? & ? & ? & ? & ? & ?) (? & ? & ? & ? & ? & ?) Hk.
  do 6 (apply nul_join_inj in Hk as [-> Hk]; [|done..]). by rewrite Hk.
Qed.

Lemma add_edges_sound l : forall m k e, foldl addEdge m l !! k = Some e -> m !! k = Some e \/ e ∈ l /\ k = edge_key e.
Proof.
  induction l as [|x l IH]; intros m k e; cbn [foldl]; [by left|]. intros [Hm|[Hl Hk]]%IH; [|right; split; [by right|done]].
  unfold addEdge in Hm. apply lookup_insert_Some in Hm as [[<- <-]|[_ Hm]]; [right; split; [by left|done]|by left].
Qed.

Lemma add_edges_complete l e : forall m,
  (forall x, x ∈ l -> edge_key x = edge_key e -> x = e) -> m !! edge_key e = Some e \/ e ∈ l -> foldl addEdge m l !! edge_key e = Some e.
Proof.
  induction l as [|x l IH]; intros m Hinj Hin; cbn [foldl]; [by destruct Hin as [|?%not_elem_of_nil]|].
  apply IH; [intros y Hy; apply Hinj; by right|]. unfold addEdge. destruct (decide (edge_key x = edge_key e)) as [Hk|Hk].
  - left. rewrite (Hinj x (list_elem_of_here _ _) Hk). apply lookup_insert_eq.
  - rewrite lookup_insert_ne by done. destruct Hin as [Hm|[->|Hl]%elem_of_cons]; [by left|done|by right].
Qed.

Definition read_edges (lastWriter : gmap string string) (node : Node) : list Edge :=
  omap (fun r => (fun p => flow_edge p node r) <$> lastWriter !! rs_ID r) (nd_Reads node).

Lemma add_reads_edges lastWriter node edges : add_reads lastWriter node edges = foldl addEdge edges (read_edges lastWriter node).
Proof.
  unfold add_reads, read_edges. revert edges. induction (nd_Reads node) as [|r l IH]; intros edges; cbn [foldl omap list_omap]; [done|].
  rewrite IH. by destruct (lastWriter !! rs_ID r).
Qed.

Lemma read_edges_elem lastWriter node e :
  e ∈ read_edges lastWriter node <-> exists r p, r ∈ nd_Reads node /\ lastWriter !! rs_ID r = Some p /\ e = flow_edge p node r.
Proof.
  unfold read_edges. rewrite list_elem_of_omap. split.
  - intros (r & Hr & (p & Hp & ->)%fmap_Some). by exists r, p.
  - intros (r & p & Hr & Hp & ->). exists r. by rewrite Hp.
Qed.

(** ** Resource flow *)
Definition writes_to (n : Node) (id : string) : Prop := id ∈ List.map rs_ID (nd_Writes n).

(** [p] is the last of [nodes] to write the resource. *)
Definition last_writer (nodes : list Node) (id : string) (p : Node) : Prop :=
  exists before after, nodes = before ++ p :: after /\ writes_to p id /\ forall q, q ∈ after -> ~ writes_to q id.

(** The resource-flow edges of a sequence of nodes: from the last writer of a
    resource before a node to that node, for every resource it reads. *)
Definition flows (nodes : list Node) (e : Edge) : Prop :=
  exists before n after r p, nodes = before ++ n :: after /\ r ∈ nd_Reads n /\ last_writer before (rs_ID r) p /\ e = flow_edge (nd_ID p) n r.

Lemma last_writer_snoc nodes n id p :
  last_writer (nodes ++ [n]) id p <-> (p = n /\ writes_to n id) \/ (~ writes_to n id /\ last_writer nodes id p).
Proof.
  split.
  - intros (b & a & Heq & Hw & Ha). destruct a as [|x a _] using rev_ind.
    + apply app_inj_tail in Heq as [-> ->]. by left.
    + rewrite app_comm_cons, app_assoc in Heq. apply app_inj_tail in Heq as [-> ->]. right.
      split; [apply Ha, elem_of_app; right; by left|]. exists b, a. split; [done|]. split; [done|]. intros q Hq. apply Ha, elem_of_app. by left.
  - intros [[-> Hw]|[Hn (b & a & -> & Hw & Ha)]].
    + exists nodes, []. split; [done|]. split; [done|]. intros q Hq. by apply not_elem_of_nil in Hq.
    + exists b, (a ++ [n]). split; [by rewrite <- app_assoc, app_comm_cons|]. split; [done|].
      intros q [Hq| ->%list_elem_of_singleton]%elem_of_app; [by apply Ha|done].
Qed.

Lemma flows_snoc nodes n e :
  flows (nodes ++ [n]) e <-> flows nodes e \/ exists r p, r ∈ nd_Reads n /\ last_writer nodes (rs_ID r) p /\ e = flow_edge (nd_ID p) n r.
Proof.
  split.
  - intros (b & m & a & r & p & Heq & Hr & Hp & ->). destruct a as [|x a _] using rev_ind.
    + apply app_inj_tail in Heq as [-> ->]. right. by exists r, p.
    + rewrite app_comm_cons, app_assoc in Heq. apply app_inj_tail in Heq as [-> ->]. left. by exists b, m, a, r, p.
  - intros [(b & m & a & r & p & -> & Hr & Hp & ->)|(r & p & Hr & Hp & ->)].
    + exists b, m, (a ++ [n]), r, p. split; [by rewrite <- app_assoc, app_comm_cons|done].
    + by exists nodes, n, [], r, p.
Qed.

(** A node whose edges are clean. *)
Definition clean_node (n : Node) : Prop :=
  has_nul (nd_ID n) = false /\
  forall r, r ∈ nd_Reads n -> has_nul (rs_ID r) = false /\ has_nul (rs_Namespace r) = false /\ has_nul (rs_Type r) = false.

Lemma flows_clean nodes e : (forall n, n ∈ nodes -> clean_node n) -> flows nodes e -> clean_edge e.
Proof.
  intros Hc (b & n & a & r & p & -> & Hr & (b' & a' & -> & _ & _) & ->).
  destruct (Hc n) as [Hn Hrs]; [apply elem_of_app; right; by left|]. destruct (Hrs r Hr) as (? & ? & ?).
  destruct (Hc p) as [Hp _]; [apply elem_of_app; left; apply elem_of_app; right; by left|]. by split_and!.
Qed.

(** ** The loop over the events *)
Record built (b : building) : Prop := mk_built {
  bt_positions : bd_positions b = positions_by_id (bd_nodes b);
  bt_nodup : NoDup (List.map nd_ID (bd_nodes b));
  bt_writers : forall id w, bd_lastWriter b !! id = Some w <-> exists p, last_writer (bd_nodes b) id p /\ nd_ID p = w;
  bt_sound : forall k e, bd_edges b !! k = Some e -> k = edge_key e /\ flows (bd_nodes b) e;
  bt_complete : (forall n, n ∈ bd_nodes b -> clean_node n) -> forall e, flows (bd_nodes b) e -> bd_edges b !! edge_key e = Some e;
  bt_promotable : bd_promotable b = forallb (fun n => negb (nd_Opaque n)) (bd_nodes b)
}.

Lemma positions_fold nodes : forall acc, fst (foldl index_step acc nodes) = (fst acc + length nodes)%nat.
Proof. induction nodes as [|n nodes IH]; intros acc; cbn [foldl length]; [lia|]. rewrite IH. cbn [index_step fst]. lia. Qed.

Lemma positions_snoc nodes n : positions_by_id (nodes ++ [n]) = <[nd_ID n := length nodes]> (positions_by_id nodes).
Proof. unfold positions_by_id. rewrite foldl_app. cbn [foldl index_step snd]. by rewrite positions_fold. Qed.

Lemma positions_dom nodes id : is_Some (positions_by_id nodes !! id) <-> id ∈ List.map nd_ID nodes.
Proof.
  induction nodes as [|n nodes IH] using rev_ind; [split; [by intros []|by intros ?%not_elem_of_nil]|].
  rewrite positions_snoc, List.map_app. cbn [List.map]. rewrite elem_of_app, list_elem_of_singleton, <- IH. destruct (decide (nd_ID n = id)) as [<-|Hne].
  - rewrite lookup_insert_eq. split; [by right|by eexists].
  - rewrite lookup_insert_ne by done. split; [by left|]. by intros [|?].
Qed.

Lemma add_writes_lookup n (l : gmap string string) id w :
  add_writes n l !! id = Some w <->
  (writes_to n id /\ w = nd_ID n) \/ (~ writes_to n id /\ l !! id = Some w).
Proof.
  unfold add_writes, writes_to. revert l. induction (nd_Writes n) as [|r rs IH]; intros l; cbn [foldl List.map].
  - split; [intros Hl; right; split; [apply not_elem_of_nil|done]|]. by intros [[?%not_elem_of_nil _]|[_ ?]].
  - rewrite IH, elem_of_cons. destruct (decide (rs_ID r = id)) as [<-|Hne]; [rewrite lookup_insert_eq|rewrite lookup_insert_ne by done].
    + destruct (decide (rs_ID r ∈ List.map rs_ID rs)); split; intros Hc; destruct_or!; destruct_and?; simplify_eq; try tauto; right; tauto.
    + assert (id <> rs_ID r) by done. tauto.
Qed.

Lemma place_built b n : built b -> nd_ID n ∉ List.map nd_ID (bd_nodes b) -> built (place_node b n).
Proof.
  intros [Hp Hn Hw Hs Hc Hprom] Hfresh.
  assert (Hreads : forall e, e ∈ read_edges (bd_lastWriter b) n <->
    exists r p, r ∈ nd_Reads n /\ last_writer (bd_nodes b) (rs_ID r) p /\ e = flow_edge (nd_ID p) n r).
  { intros e. rewrite read_edges_elem. split.
    - intros (r & w & Hr & (p & Hp' & <-)%Hw & ->). by exists r, p.
    - intros (r & p & Hr & Hp' & ->). exists r, (nd_ID p). split; [done|]. split; [|done]. apply Hw. by exists p. }
  split; cbn [place_node bd_nodes bd_positions bd_lastWriter bd_edges bd_promotable].
  - by rewrite Hp, positions_snoc.
  - rewrite List.map_app. apply NoDup_app. split; [done|]. split; [|apply NoDup_singleton]. by intros x Hx ->%list_elem_of_singleton.
  - intros id w. rewrite add_writes_lookup, Hw. setoid_rewrite last_writer_snoc. split.
    + intros [[Hwr ->]|[Hwr (p & Hp' & <-)]]; [exists n|exists p]; tauto.
    + intros (p & [[-> Hwr]|[Hwr Hp']] & <-); [left|right]; [done|]. split; [done|]. by exists p.
  - intros k e. rewrite add_reads_edges. intros [Hold|[Hin ->]]%add_edges_sound.
    + destruct (Hs _ _ Hold) as [-> Hf]. split; [done|]. apply flows_snoc. by left.
    + split; [done|]. apply flows_snoc. right. by apply Hreads.
  - intros Hclean e Hf. rewrite add_reads_edges.
    assert (Hce : forall x, flows (bd_nodes b ++ [n]) x -> clean_edge x) by (intros x; by apply flows_clean).
    apply add_edges_complete.
    + intros x Hx Hk. apply edge_key_inj; [|by apply Hce|done]. apply Hce, flows_snoc. right. by apply Hreads.
    + apply flows_snoc in Hf as [Hf|Hf]; [left|right; by apply Hreads]. apply Hc; [|done]. intros x Hx. apply Hclean, elem_of_app. by left.
  - rewrite forallb_app, Hprom. simpl. by rewrite andb_true_r.
Qed.

Section build.
Context `{JCS} `{Digest} `{Registry}.

(** The node of the [i]-th event: its contract is what the registry answers to the [i]-th query. *)
Definition node_at (tenantID : string) (i : nat) (event : CanonicalEvent) (node : Node) : Prop :=
  exists resolved, resolve i (mk_Query (cn_ToolName event) (cn_ToolVersion event)) = Ok resolved /\ buildNode tenantID event resolved = Ok node.

Lemma buildNode_id tenantID event resolved node : buildNode tenantID event resolved = Ok node -> nd_ID node = cn_ID event.
Proof. unfold buildNode. destruct (rl_Opaque resolved); intros Hb; inv_Ok Hb; by injection Hb as <-. Qed.

Lemma build_nodes_spec tenantID events : forall b b',
  build_nodes tenantID b events = Ok b' -> built b ->
  built b' /\ exists new, bd_nodes b' = bd_nodes b ++ new /\ length new = length events /\
    forall i event, events !! i = Some event -> exists node, new !! i = Some node /\ node_at tenantID (length (bd_nodes b) + i) event node.
Proof.
  induction events as [|event events IH]; intros b b' Hb Hok; cbn [build_nodes] in Hb.
  { injection Hb as <-. split; [done|]. exists []. by rewrite app_nil_r. }
  destruct (_ || _); [done|]. destruct (bool_decide _) eqn:Ed; [done|]. apply bool_decide_eq_false in Ed.
  apply bind_Ok in Hb as (resolved & Hr & Hb). apply bind_Ok in Hb as (node & Hnode & Hb).
  assert (Hfresh : nd_ID node ∉ List.map nd_ID (bd_nodes b)).
  { rewrite (buildNode_id _ _ _ _ Hnode). intros Hin%positions_dom. apply Ed. by rewrite (bt_positions _ Hok). }
  destruct (IH _ _ Hb (place_built _ _ Hok Hfresh)) as (Hok' & new & Heq & Hlen & Hev). cbn [place_node bd_nodes] in *.
  split; [done|]. exists (node :: new). split; [by rewrite Heq, <- app_assoc|]. split; [simpl; by rewrite Hlen|].
  intros [|i] e He; simpl in He.
  - injection He as <-. exists node. split; [done|]. rewrite Nat.add_0_r. by exists resolved.
  - destruct (Hev i e He) as (node' & Hn' & Hat). exists node'. split; [done|]. rewrite length_app in Hat. simpl in Hat.
    by replace (length (bd_nodes b) + S i)%nat with (length (bd_nodes b) + 1 + i)%nat by lia.
Qed.

Lemma built_empty : built (mk_building [] ∅ ∅ ∅ true).
Proof.
  split; cbn; [done|constructor| | | |done].
  - intros id w. split; [done|]. intros (p & (b & a & Heq & _) & _). by destruct b.
  - done.
  - intros _ e (b & n & a & r & p & Heq & _). by destruct b.
Qed.

(** The edges a list of declared dependencies stands for. *)
Definition declared_edge (edgeType : string) (d : DeclaredDependency) : Edge :=
  mk_Edge (dp_Prerequisite d) (dp_Dependent d) edgeType "" "" "" "".

Lemma addDeclaredEdges_spec positions edgeType deps : forall edges edges',
  addDeclaredEdges positions edgeType edges deps = Ok edges' ->
  edges' = foldl addEdge edges (List.map (declared_edge edgeType) deps) /\
  forall d, d ∈ deps -> is_Some (positions !! dp_Prerequisite d) /\ is_Some (positions !! dp_Dependent d).
Proof using.
  induction deps as [|d deps IH]; intros edges edges' Ha; cbn [addDeclaredEdges] in Ha.
  { injection Ha as <-. split; [done|]. intros d Hd. by apply not_elem_of_nil in Hd. }
  inv_Ok Ha. apply IH in Ha as [-> Hall]. split; [done|]. intros x [->|Hx]%elem_of_cons; [|by apply Hall].
  repeat match goal with Hn : bool_decide (_ = None) = false |- _ => apply bool_decide_eq_false, not_eq_None_Some in Hn end. done.
Qed.

Lemma sortEdges_strict positions (l : list Edge) :
  NoDup l -> (forall x y, x ∈ l -> y ∈ l -> edge_key x = edge_key y -> x = y) ->
  StronglySorted (fun x y => edge_cmp positions x y = Lt) (sortEdges positions l).
Proof using.
  intros Hn Hinj. assert (Hl : LawfulCmp (edge_cmp positions)) by (unfold edge_cmp; apply _).
  pose proof (sort_slice_sorted (edge_cmp positions) l) as Hs. fold (sortEdges positions l) in Hs.
  assert (Hn' : NoDup (sortEdges positions l)) by (unfold sortEdges; by rewrite sort_slice_perm).
  assert (Hel : forall x, x ∈ sortEdges positions l -> x ∈ l) by (intros x; unfold sortEdges; by rewrite sort_slice_elem).
  revert Hn' Hel. induction Hs as [|x s Hs IH Hf]; intros Hn' Hel; constructor.
  - apply NoDup_cons in Hn' as [_ Hn']. apply IH; [done|]. intros y Hy. apply Hel. by right.
  - apply NoDup_cons in Hn' as [Hx _]. rewrite List.Forall_forall in *. intros y Hy. specialize (Hf y Hy). apply list_elem_of_In in Hy.
    unfold cmp_le in Hf. destruct (edge_cmp positions x y) eqn:E; [|done..]. exfalso. apply Hx.
    replace x with y; [done|]. symmetry. apply Hinj; [apply Hel; by left|apply Hel; by right|].
    revert E. unfold edge_cmp, cmp_lex, cmp_on. destruct (Nat.compare _ _); [|done..]. destruct (Nat.compare _ _); [|done..].
    apply String.compare_eq_iff.
Qed.

Definition declared (request : BuildRequest) (e : Edge) : Prop :=
  e ∈ List.map (declared_edge EdgeControl) (br_ControlDependencies request) \/
  e ∈ List.map (declared_edge EdgeVerifier) (br_VerifierDependencies request).

(** The map of edges when the loops are done. *)
Record edges_done (request : BuildRequest) (b : building) (m : gmap string Edge) : Prop := mk_edges_done {
  dn_sound : forall k e, m !! k = Some e -> k = edge_key e /\ (flows (bd_nodes b) e \/ declared request e);
  dn_complete : forall e, flows (bd_nodes b) e \/ declared request e -> m !! edge_key e = Some e;
  dn_clean : forall e, flows (bd_nodes b) e \/ declared request e -> clean_edge e;
  dn_ends : forall e, flows (bd_nodes b) e \/ declared request e ->
    ed_From e ∈ List.map nd_ID (bd_nodes b) /\ ed_To e ∈ List.map nd_ID (bd_nodes b)
}.

Lemma flows_ends nodes e : flows nodes e -> ed_From e ∈ List.map nd_ID nodes /\ ed_To e ∈ List.map nd_ID nodes.
Proof using.
  intros (b & n & a & r & p & -> & _ & (b' & a' & -> & _ & _) & ->). cbn [flow_edge ed_From ed_To].
  split; apply list_elem_of_In, in_map, list_elem_of_In; rewrite !elem_of_app, !elem_of_cons; tauto.
Qed.

Lemma declared_ends (positions : gmap string nat) edgeType deps e :
  (forall d, d ∈ deps -> is_Some (positions !! dp_Prerequisite d) /\ is_Some (positions !! dp_Dependent d)) ->
  e ∈ List.map (declared_edge edgeType) deps ->
  is_Some (positions !! ed_From e) /\ is_Some (positions !! ed_To e) /\ ed_Type e = edgeType /\
  ed_ResourceID e = ""%string /\ ed_ResourceNamespace e = ""%string /\ ed_ResourceType e = ""%string.
Proof using. intros Hd (d & <- & Hin%list_elem_of_In)%list_elem_of_In%in_map_iff. destruct (Hd d Hin). by split_and!. Qed.

Lemma declared_clean request b m1 m2 :
  built b -> (forall n, n ∈ bd_nodes b -> clean_node n) ->
  addDeclaredEdges (bd_positions b) EdgeControl (bd_edges b) (br_ControlDependencies request) = Ok m1 ->
  addDeclaredEdges (bd_positions b) EdgeVerifier m1 (br_VerifierDependencies request) = Ok m2 ->
  forall e, declared request e ->
  clean_edge e /\ ed_From e ∈ List.map nd_ID (bd_nodes b) /\ ed_To e ∈ List.map nd_ID (bd_nodes b).
Proof using.
  intros Hok Hclean [_ Hcd]%addDeclaredEdges_spec [_ Hvd]%addDeclaredEdges_spec e He.
  assert (Hids : forall id, is_Some (bd_positions b !! id) -> id ∈ List.map nd_ID (bd_nodes b) /\ has_nul id = false).
  { intros id Hid. rewrite (bt_positions _ Hok) in Hid. apply positions_dom in Hid. split; [done|].
    apply list_elem_of_In, in_map_iff in Hid as (n & <- & Hin%list_elem_of_In). by apply Hclean. }
  assert (Hends : is_Some (bd_positions b !! ed_From e) /\ is_Some (bd_positions b !! ed_To e) /\
    has_nul (ed_Type e) = false /\ ed_ResourceID e = ""%string /\ ed_ResourceNamespace e = ""%string /\ ed_ResourceType e = ""%string).
  { destruct He as [He|He]; [apply (declared_ends _ _ _ _ Hcd) in He|apply (declared_ends _ _ _ _ Hvd) in He];
      destruct He as (? & ? & -> & ? & ? & ?); by split_and!. }
  destruct Hends as ([Hf Hfn]%Hids & [Ht Htn]%Hids & Hty & Hr & Hns & Hrt). split; [|done].
  unfold clean_edge. rewrite Hr, Hns, Hrt. by split_and!.
Qed.

Lemma declared_done request b m1 m2 :
  built b -> (forall n, n ∈ bd_nodes b -> clean_node n) ->
  addDeclaredEdges (bd_positions b) EdgeControl (bd_edges b) (br_ControlDependencies request) = Ok m1 ->
  addDeclaredEdges (bd_positions b) EdgeVerifier m1 (br_VerifierDependencies request) = Ok m2 ->
  edges_done request b m2.
Proof using.
  intros Hok Hclean Hc Hv. pose proof (declared_clean _ _ _ _ Hok Hclean Hc Hv) as Hdec.
  assert (Hcl : forall e, flows (bd_nodes b) e \/ declared request e -> clean_edge e).
  { intros e [Hf|Hd]; [by eapply flows_clean|by apply Hdec]. }
  destruct (addDeclaredEdges_spec _ _ _ _ _ Hc) as [-> _], (addDeclaredEdges_spec _ _ _ _ _ Hv) as [-> _].
  split; [| |exact Hcl|intros e [Hf|Hd]; [by apply flows_ends|by apply Hdec]].
  - intros k e [[Hm|[Hin ->]]%add_edges_sound|[Hin ->]]%add_edges_sound; [|by split; [|right; left]|by split; [|right; right]].
    destruct (bt_sound _ Hok _ _ Hm) as [-> Hf]. by split; [|left].
  - intros e Hspec. assert (Hinj : forall x, flows (bd_nodes b) x \/ declared request x -> edge_key x = edge_key e -> x = e).
    { intros x Hx Hk. apply edge_key_inj; [by apply Hcl|by apply Hcl|done]. }
    apply add_edges_complete; [intros x Hx; apply Hinj; right; by right|].
    destruct Hspec as [Hf|[Hd|Hd]]; [left|left|by right]; (apply add_edges_complete; [intros x Hx; apply Hinj; right; by left|]);
      [left; by apply (bt_complete _ Hok)|by right].
Qed.

Lemma done_values request b m :
  edges_done request b m ->
  (forall e, e ∈ List.map snd (map_to_list m) <-> flows (bd_nodes b) e \/ declared request e) /\ NoDup (List.map snd (map_to_list m)).
Proof using.
  intros [Hs Hc _ _]. split.
  - intros e. rewrite list_elem_of_In, in_map_iff. split.
    + intros ([k x] & <- & Hin%list_elem_of_In%elem_of_map_to_list). by apply (Hs k x).
    + intros Hspec. exists (edge_key e, e). split; [done|]. by apply list_elem_of_In, elem_of_map_to_list, Hc.
  - apply NoDup_map_on; [|apply NoDup_map_to_list]. intros [k x] [k' x'] Hx%elem_of_map_to_list Hx'%elem_of_map_to_list Heq.
    simpl in Heq. subst x'. destruct (Hs _ _ Hx) as [-> _], (Hs _ _ Hx') as [-> _]. done.
Qed.

(** C11: The edges of a causal graph are exactly the resource flows between its
    nodes (from the last writer of a resource to each later reader) and the
    declared control and verifier dependencies, each once, in a strict order,
    and without a cycle.  Every node carries the contract its tool resolved to,
    and the graph can be promoted only when no tool is opaque. *)
Theorem Build_exact (request : BuildRequest) (g : Graph) :
  Build None request = Ok g -> (forall n, n ∈ gr_Nodes g -> clean_node n) ->
  (forall e, e ∈ gr_Edges g <-> flows (gr_Nodes g) e \/ declared request e) /\
  StronglySorted (fun x y => edge_cmp (positions_by_id (gr_Nodes g)) x y = Lt) (gr_Edges g) /\
  (forall v, ~ tc (causes (gr_Edges g)) v v) /\
  length (gr_Nodes g) = length (cb_Events (br_Batch request)) /\
  (forall i event, cb_Events (br_Batch request) !! i = Some event ->
     exists node, gr_Nodes g !! i = Some node /\ node_at (cb_TenantID (br_Batch request)) i event node) /\
  gr_AutoPromotable g = forallb (fun n => negb (nd_Opaque n)) (gr_Nodes g).
Proof.
  intros Hb Hclean. unfold Build in Hb. inv_Ok Hb. injection Hb as <-. cbn [gr_Nodes gr_Edges gr_AutoPromotable] in *.
  match goal with Hn : build_nodes _ _ _ = Ok ?x |- _ =>
    rename x into b; destruct (build_nodes_spec _ _ _ _ Hn built_empty) as (Hok & new & Hnew & Hlen & Hev) end.
  cbn in Hnew, Hev. subst new.
  match goal with Hc : addDeclaredEdges _ EdgeControl _ _ = Ok _, Hv : addDeclaredEdges _ EdgeVerifier _ _ = Ok _ |- _ =>
    pose proof (declared_done _ _ _ _ Hok Hclean Hc Hv) as Hdone end.
  destruct (done_values _ _ _ Hdone) as [Hall Hnd]. destruct Hdone as [_ _ Hcl Hends]. split_and!.
  - intros e. unfold sortEdges. rewrite sort_slice_elem. apply Hall.
  - rewrite <- (bt_positions _ Hok). apply sortEdges_strict; [done|]. intros x y Hx Hy. apply edge_key_inj; apply Hcl; by apply Hall.
  - apply (hasCycle_spec (bd_nodes b)); [apply (bt_nodup _ Hok)| |done].
    intros e He. unfold sortEdges in He. rewrite sort_slice_elem in He. by apply Hends, Hall.
  - done.
  - exact Hev.
  - apply (bt_promotable _ Hok).
Qed.
End build.

(** ** Goals *)

(** A map from predicates to node sets as a list of goals, sorted by predicate. *)
Definition goals_of (m : gmap string (gset string)) : list GoalRequirement :=
  sort_by_key gq_PredicateID (List.map (fun kv => mk_GoalRequirement (fst kv) (sort_strings (elements (snd kv)))) (map_to_list m)).

Lemma goals_of_elem m goal :
  goal ∈ goals_of m <-> exists ids, m !! gq_PredicateID goal = Some ids /\ gq_VerifierNodes goal = sort_strings (elements ids).
Proof.
  unfold goals_of, sort_by_key. rewrite sort_slice_elem, list_elem_of_In, in_map_iff. split.
  - intros ([k ids] & <- & Hin%list_elem_of_In%elem_of_map_to_list). by exists ids.
  - intros (ids & Hm & Hv). exists (gq_PredicateID goal, ids). split; [destruct goal; cbn in *; by rewrite Hv|].
    by apply list_elem_of_In, elem_of_map_to_list.
Qed.

Lemma merge_goals_lookup source : forall m k,
  default ∅ (foldl merge_goal m source !! k) =
  default ∅ (m !! k) ∪ list_to_set (concat (List.map gq_VerifierNodes (List.filter (fun g => String.eqb (gq_PredicateID g) k) source))).
Proof.
  induction source as [|g source IH]; intros m k; cbn [foldl List.filter]; [set_solver|]. rewrite IH. unfold merge_goal.
  destruct (String.eqb_spec (gq_PredicateID g) k) as [->|Hne]; cbn [List.map concat].
  - rewrite lookup_insert_eq. cbn [default from_option]. rewrite list_to_set_app_L. set_solver.
  - by rewrite lookup_insert_ne.
Qed.

Lemma merge_goals_dom source : forall m k, is_Some (foldl merge_goal m source !! k) <-> is_Some (m !! k) \/ k ∈ List.map gq_PredicateID source.
Proof.
  induction source as [|g source IH]; intros m k; cbn [foldl List.map]; [split; [by left|by intros [|?%not_elem_of_nil]]|].
  rewrite IH, elem_of_cons. unfold merge_goal. destruct (decide (gq_PredicateID g = k)) as [<-|Hne].
  - rewrite lookup_insert_eq. split; [auto|]. intros _. left. by eexists.
  - rewrite lookup_insert_ne by done. assert (k <> gq_PredicateID g) by done. tauto.
Qed.

(** [verifies goals k id]: [id] is a verifier of the predicate [k]. *)
Definition verifies (goals : list GoalRequirement) (k id : string) : Prop :=
  exists g, g ∈ goals /\ gq_PredicateID g = k /\ id ∈ gq_VerifierNodes g.

Lemma canonicalGoals_elem source goal :
  goal ∈ canonicalGoals source ->
  gq_PredicateID goal ∈ List.map gq_PredicateID source /\ forall id, id ∈ gq_VerifierNodes goal <-> verifies source (gq_PredicateID goal) id.
Proof.
  unfold canonicalGoals. fold (goals_of (foldl merge_goal ∅ source)). intros (ids & Hm & ->)%goals_of_elem.
  set (k := gq_PredicateID goal) in *. split.
  { assert (Hd : is_Some (foldl merge_goal ∅ source !! k)) by (by eexists). apply merge_goals_dom in Hd as [[? Hd]|]; [by rewrite lookup_empty in Hd|done]. }
  intros id. rewrite sort_strings_elem, elem_of_elements. pose proof (merge_goals_lookup source ∅ k) as Hl.
  rewrite Hm, lookup_empty in Hl. change (default ∅ (Some ids)) with ids in Hl. change (default ∅ None) with (∅ : gset string) in Hl.
  rewrite union_empty_l_L in Hl. rewrite Hl, elem_of_list_to_set, list_elem_of_In, in_concat.
  split.
  - intros (l & (g & <- & [Hg Hk%String.eqb_eq]%filter_In)%in_map_iff & Hin%list_elem_of_In). exists g. rewrite list_elem_of_In. by split_and!.
  - intros (g & Hg & Hk & Hin). exists (gq_VerifierNodes g). split; [|by apply list_elem_of_In].
    apply in_map, filter_In. split; [by apply list_elem_of_In|]. by apply String.eqb_eq.
Qed.

Lemma canonicalGoals_covers source k : k ∈ List.map gq_PredicateID source -> exists goal, goal ∈ canonicalGoals source /\ gq_PredicateID goal = k.
Proof.
  intros Hk. destruct (proj2 (merge_goals_dom source ∅ k) (or_intror Hk)) as [ids Hids].
  exists (mk_GoalRequirement k (sort_strings (elements ids))). split; [|done].
  unfold canonicalGoals. fold (goals_of (foldl merge_goal ∅ source)). apply goals_of_elem. by exists ids.
Qed.

(** ** The roots *)
Lemma cover_goal_spec nodes ids : forall (R : gset string) covered R' covered',
  cover_goal nodes R covered ids = Some (R', covered') ->
  (forall x, x ∈ R' <-> x ∈ R \/ x ∈ ids /\ succeeded nodes x = true) /\
  (covered' = true <-> covered = true \/ exists x, x ∈ ids /\ succeeded nodes x = true).
Proof.
  induction ids as [|id ids IH]; intros R covered R' covered' Hc; cbn [cover_goal] in Hc.
  { injection Hc as <- <-. split; [intros x; rewrite elem_of_nil; tauto|]. split; [by left|]. intros [|(x & Hx & _)]; [done|]. by apply not_elem_of_nil in Hx. }
  destruct (nodes !! id) as [n|] eqn:En; [|done]. assert (Hs : succeeded nodes id = nd_Succeeded n) by (unfold succeeded; by rewrite En).
  destruct (nd_Succeeded n) eqn:Es; apply IH in Hc as [HR Hcov]; setoid_rewrite elem_of_cons; split.
  - intros x. rewrite HR, elem_of_union, elem_of_singleton. clear - Hs. naive_solver.
  - rewrite Hcov. split; [|by left]. intros _. right. exists id. by split; [left|].
  - intros x. rewrite HR. clear - Hs. split; [tauto|]. intros [|[[->|] Hx]]; [tauto|congruence|tauto].
  - rewrite Hcov. clear - Hs. split; [intros [|(x & ? & ?)]; [tauto|right; exists x; tauto]|].
    intros [|(x & [->|] & Hx)]; [tauto|congruence|right; exists x; tauto].
Qed.

Lemma cover_goals_spec nodes goals : forall n (R R' : gset string),
  cover_goals nodes n R goals = Covered R' ->
  (forall x, x ∈ R' <-> x ∈ R \/ exists g, g ∈ goals /\ x ∈ gq_VerifierNodes g /\ succeeded nodes x = true) /\
  (forall g, g ∈ goals -> gq_PredicateID g <> ""%string /\ exists x, x ∈ gq_VerifierNodes g /\ succeeded nodes x = true).
Proof.
  induction goals as [|g goals IH]; intros n R R' Hc; cbn [cover_goals] in Hc.
  { injection Hc as <-. split; [|intros g Hg; by apply not_elem_of_nil in Hg]. intros x. split; [by left|].
    intros [|(g & Hg & _)]; [done|]. by apply not_elem_of_nil in Hg. }
  destruct (_ || _) eqn:Eg; [done|]. apply orb_false_iff in Eg as [Hp%String.eqb_neq _].
  destruct (cover_goal nodes R false _) as [[R1 []]|] eqn:E1; [|done..]. apply cover_goal_spec in E1 as [H1 Hc1].
  apply IH in Hc as [HR Hg]. split.
  - intros x. rewrite HR, H1. setoid_rewrite elem_of_cons. clear. naive_solver.
  - intros g' [->|Hin]%elem_of_cons; [|by apply Hg]. split; [done|]. by destruct (proj1 Hc1 eq_refl) as [|].
Qed.

Lemma require_effects_spec nodes ids : forall (R R' : gset string),
  require_effects nodes R ids = Required R' ->
  (forall x, x ∈ R' <-> x ∈ R \/ x ∈ ids) /\ forall x, x ∈ ids -> succeeded nodes x = true.
Proof.
  induction ids as [|id ids IH]; intros R R' Hc; cbn [require_effects] in Hc.
  { injection Hc as <-. split; intros x; rewrite elem_of_nil; tauto. }
  destruct (nodes !! id) as [n|] eqn:En; [|done]. destruct (nd_Succeeded n) eqn:Es; [|done]. apply IH in Hc as [HR Hs]. split.
  - intros x. rewrite HR, elem_of_union, elem_of_singleton, elem_of_cons. tauto.
  - intros x [->|Hx]%elem_of_cons; [unfold succeeded; by rewrite En|by apply Hs].
Qed.

Lemma index_nodes_spec l : forall i m nodes, index_nodes i m l = Some nodes -> nodes = foldl (fun m n => <[nd_ID n := n]> m) m l.
Proof.
  induction l as [|n l IH]; intros i m nodes; cbn [index_nodes foldl]; [by intros [= <-]|]. destruct (_ || _); [done|]. apply IH.
Qed.

(** ** Steps *)
Lemma make_steps_spec (R I F : gset string) nodes : forall catalog ordinal steps,
  make_steps R I F catalog ordinal nodes = Ok steps ->
  List.map sp_EventID steps = List.map nd_ID (List.filter (fun n => negb (skipped R I F n)) nodes) /\
  forall i step, steps !! i = Some step ->
    sp_Ordinal step = wrap_u32 (Z.of_nat (ordinal + i)) /\ sp_UncertainNecessity step = negb (bool_decide (sp_EventID step ∈ R)).
Proof.
  induction nodes as [|n nodes IH]; intros catalog ordinal steps Hm; cbn [make_steps List.filter] in *; [by injection Hm as <-|].
  destruct (skipped R I F n); cbn [negb]; [by apply IH in Hm|].
  apply bind_Ok in Hm as ([step catalog'] & Hs & Hm). apply bind_Ok in Hm as (rest & Hr & [= <-]). apply IH in Hr as [Hids Hrest].
  unfold canonicalStep in Hs. inv_Ok Hs. injection Hs as <- _. split; [cbn [List.map]; by rewrite Hids|].
  intros [|i] step'; cbn [lookup list_lookup]; [intros [= <-]; by rewrite Nat.add_0_r|].
  intros [Ho Hu]%Hrest. split; [|done]. rewrite Ho. f_equal. lia.
Qed.

(** ** Synthesis *)

(** The node of an identifier. *)
Definition node_of_id (graph : Graph) (id : string) (n : Node) : Prop := n ∈ gr_Nodes graph /\ nd_ID n = id.

(** What the procedure must contain: a successful verifier of a goal, or a required effect. *)
Definition root (request : SynthesisRequest) (id : string) : Prop :=
  (exists goal n, goal ∈ sq_Goals request /\ id ∈ gq_VerifierNodes goal /\ node_of_id (sq_Graph request) id n /\ nd_Succeeded n = true) \/
  id ∈ sq_RequiredEffects request.

(** What the roots depend on. *)
Definition proven (request : SynthesisRequest) (id : string) : Prop :=
  exists r, root request r /\ rtc (depends (gr_Edges (sq_Graph request))) r id.

Definition in_failed_branch (request : SynthesisRequest) (id : string) : Prop :=
  exists branch, branch ∈ sq_FailedBranches request /\ id ∈ fb_EventIDs branch.

Section synthesize.
Context `{JCS} `{Digest}.

Lemma index_lookup (l : list Node) nodes :
  NoDup (List.map nd_ID l) -> index_nodes 0 ∅ l = Some nodes -> forall id n, nodes !! id = Some n <-> n ∈ l /\ nd_ID n = id.
Proof using.
  intros Hn ->%index_nodes_spec id n. rewrite (foldl_insert_lookup nd_ID (fun n => n)) by done.
  destruct (find_key nd_ID id l) as [n'|] eqn:Ef.
  - destruct (find_key_some _ _ _ _ Ef) as [Hin Hid]. split; [intros [= <-]; done|]. intros [Hin' Hid']. f_equal.
    apply (NoDup_key_inj nd_ID l Hn); [done..|congruence].
  - rewrite lookup_empty. split; [done|]. intros [Hin Hid]. apply find_key_none in Ef. destruct Ef. rewrite <- Hid.
    by apply list_elem_of_In, in_map, list_elem_of_In.
Qed.

Lemma buildNegativePaths_failed nodes source : forall paths failed,
  buildNegativePaths nodes source = Ok (paths, failed) -> forall id, id ∈ failed <-> exists b, b ∈ source /\ id ∈ fb_EventIDs b.
Proof using.
  induction source as [|b source IH]; intros paths failed Hb id; cbn [buildNegativePaths] in Hb.
  { injection Hb as _ <-. split; [set_solver|]. intros (b & Hb & _). by apply not_elem_of_nil in Hb. }
  inv_Ok Hb. injection Hb as _ <-. match goal with Hr : buildNegativePaths nodes source = Ok _ |- _ => specialize (IH _ _ Hr id) end.
  rewrite elem_of_union, elem_of_list_to_set, IH. setoid_rewrite elem_of_cons. clear. naive_solver.
Qed.

Lemma hashed_fields r r' : hashed r = Ok r' ->
  sr_Status r' = sr_Status r /\ sr_Steps r' = sr_Steps r /\ sr_Edges r' = sr_Edges r /\ sr_GoalPredicates r' = sr_GoalPredicates r.
Proof using. unfold hashed. intros Hh. inv_Ok Hh. by injection Hh as <-. Qed.

Lemma abstain_status request predicates code r : abstain request predicates code = Ok r -> sr_Status r = StatusAbstained.
Proof using. by intros [-> _]%hashed_fields. Qed.

(** What [Synthesize] established before it returned a procedure. *)
Record synthesized (request : SynthesisRequest) (nodes : gmap string Node) (R irrelevant failed : gset string) (res : SynthesisResult) : Prop := mk_synthesized {
  sy_state : sq_OutcomeState request = OutcomeStateVerifiedSuccess;
  sy_promotable : gr_AutoPromotable (sq_Graph request) = true;
  sy_nodes : index_nodes 0 ∅ (gr_Nodes (sq_Graph request)) = Some nodes;
  sy_covered : exists R0, cover_goals nodes 0 ∅ (canonicalGoals (sq_Goals request)) = Covered R0 /\
    exists R1, require_effects nodes R0 (sq_RequiredEffects request) = Required R1 /\
    R = drain (size nodes) (reverse_edges (gr_Edges (sq_Graph request))) R1 (elements R1);
  sy_known : forall e, e ∈ gr_Edges (sq_Graph request) -> is_Some (nodes !! ed_From e) /\ is_Some (nodes !! ed_To e);
  sy_succeeded : forall id, id ∈ R -> succeeded nodes id = true;
  sy_irrelevant : irrelevant = list_to_set (sq_IrrelevantNodes request);
  sy_failed : forall id, id ∈ failed <-> in_failed_branch request id;
  sy_steps : make_steps R irrelevant failed ∅ 0 (gr_Nodes (sq_Graph request)) = Ok (sr_Steps res);
  sy_edges : forall e, e ∈ sr_Edges res <->
    e ∈ gr_Edges (sq_Graph request) /\ ed_From e ∈ List.map sp_EventID (sr_Steps res) /\ ed_To e ∈ List.map sp_EventID (sr_Steps res)
}.

Lemma Synthesize_inv request res :
  Synthesize request = Ok res -> sr_Status res = StatusSynthesized -> exists nodes R irrelevant failed, synthesized request nodes R irrelevant failed res.
Proof using.
  intros Hs Hst. unfold Synthesize in Hs. destruct (request_invalid request); [done|].
  assert (Hno : forall p c, abstain request p c <> Ok res) by (intros p c Ha%abstain_status; rewrite Ha in Hst; done).
  destruct (negb (String.eqb _ _)) eqn:Eo; [by destruct (Hno _ _ Hs)|]. apply negb_false_iff, String.eqb_eq in Eo.
  destruct (negb (gr_AutoPromotable _)) eqn:Ep; [by destruct (Hno _ _ Hs)|]. apply negb_false_iff in Ep.
  destruct (index_nodes 0 ∅ _) as [nodes|] eqn:En; [|done]. destruct (cover_goals nodes 0 ∅ _) as [|n|R0] eqn:Ec; [done|by destruct (Hno _ _ Hs)|].
  destruct (require_effects nodes R0 _) as [| |R1] eqn:Er; [done|by destruct (Hno _ _ Hs)|].
  destruct (negb (forallb _ _)) eqn:Ee; [done|]. apply negb_false_iff in Ee. unfold synthesize_retained in Hs.
  set (R := drain _ _ _ _) in *. destruct (existsb _ (elements R)) eqn:Ex; [by destruct (Hno _ _ Hs)|].
  apply bind_Ok in Hs as (irrelevant & Hi & Hs). unfold eventSet in Hi. inv_Ok Hi. injection Hi as Hi.
  apply bind_Ok in Hs as ([paths failed] & Hp & Hs). apply bind_Ok in Hs as (steps & Hst' & Hs).
  destruct (hashed_fields _ _ Hs) as (_ & Hsteps & Hedges & _). cbn [sr_Steps sr_Edges] in Hsteps, Hedges.
  exists nodes, R, irrelevant, failed. split; [done..| | | |by symmetry| | |].
  - exists R0. split; [done|]. by exists R1.
  - intros e He%list_elem_of_In. pose proof (proj1 (forallb_forall _ _) Ee _ He) as Hk. unfold known in Hk.
    by rewrite andb_true_iff, !bool_decide_eq_true in Hk.
  - intros id Hid. apply not_false_iff_true. intros Hf. apply not_true_iff_false in Ex. apply Ex, existsb_exists. exists id.
    split; [by apply list_elem_of_In, elem_of_elements|by rewrite Hf].
  - by apply (buildNegativePaths_failed _ _ _ _ Hp).
  - by rewrite Hsteps.
  - intros e. rewrite Hedges, Hsteps. unfold sortEdges. rewrite sort_slice_elem, list_elem_of_In, filter_In, andb_true_iff, !bool_decide_eq_true.
    rewrite !elem_of_list_to_set, <- list_elem_of_In. done.
Qed.

Section request.
Context (request : SynthesisRequest) (nodes : gmap string Node) (R irrelevant failed : gset string) (res : SynthesisResult).
Hypothesis Hn : NoDup (List.map nd_ID (gr_Nodes (sq_Graph request))).
Hypothesis Hsy : synthesized request nodes R irrelevant failed res.

Lemma succeeded_spec id : succeeded nodes id = true <-> exists n, node_of_id (sq_Graph request) id n /\ nd_Succeeded n = true.
Proof using Hn Hsy.
  unfold succeeded, node_of_id. pose proof (index_lookup _ _ Hn (sy_nodes _ _ _ _ _ _ Hsy)) as Hl. split.
  - destruct (nodes !! id) as [n|] eqn:E; [|done]. apply Hl in E. by exists n.
  - intros (n & Hn' & Hs). apply Hl in Hn'. by rewrite Hn'.
Qed.

Lemma retained_proven id : id ∈ R <-> proven request id.
Proof using Hn Hsy.
  destruct (sy_covered _ _ _ _ _ _ Hsy) as (R0 & Hc & R1 & Hr & HR).
  apply cover_goals_spec in Hc as [HR0 _]. apply require_effects_spec in Hr as [HR1 Hreq].
  assert (Hroot : forall x, x ∈ R1 <-> root request x).
  { intros x. rewrite HR1, HR0. unfold root. split.
    - intros [[?|(g & Hg & Hx & Hs)]|]; [set_solver| |by right]. left. destruct (canonicalGoals_elem _ _ Hg) as [_ Hv].
      apply Hv in Hx as (goal & Hgoal & _ & Hin). apply succeeded_spec in Hs as (n & Hn' & Hs). by exists goal, n.
    - intros [(goal & n & Hgoal & Hin & Hn' & Hs)|]; [left; right|by right].
      assert (Hp : gq_PredicateID goal ∈ List.map gq_PredicateID (sq_Goals request)) by (by apply list_elem_of_In, in_map, list_elem_of_In).
      destruct (canonicalGoals_covers _ _ Hp) as (g & Hg & Hk). exists g. split; [done|]. split.
      + apply (proj2 (canonicalGoals_elem _ _ Hg)). by exists goal.
      + apply succeeded_spec. by exists n. }
  unfold proven. setoid_rewrite <- Hroot. rewrite HR, <- (size_dom nodes). apply (drain_reaches _ (dom nodes)).
  - intros a b (e & He & <- & <-). rewrite !elem_of_dom. destruct (sy_known _ _ _ _ _ _ Hsy e He). done.
  - intros x Hx%HR1. apply elem_of_dom. assert (Hs : succeeded nodes x = true); [|unfold succeeded in Hs; by destruct (nodes !! x)].
    destruct Hx as [Hx|Hx]; [|by apply Hreq]. apply HR0 in Hx as [?|(g & _ & _ & ?)]; [set_solver|done].
Qed.

Lemma step_ids n :
  n ∈ gr_Nodes (sq_Graph request) ->
  nd_ID n ∈ List.map sp_EventID (sr_Steps res) <->
  ~ in_failed_branch request (nd_ID n) /\ (proven request (nd_ID n) \/ nd_Succeeded n = true /\ nd_ID n ∉ sq_IrrelevantNodes request).
Proof using Hn Hsy.
  intros Hin. destruct (make_steps_spec _ _ _ _ _ _ _ (sy_steps _ _ _ _ _ _ Hsy)) as [-> _].
  assert (Hkept : nd_ID n ∈ List.map nd_ID (List.filter (fun n => negb (skipped R irrelevant failed n)) (gr_Nodes (sq_Graph request))) <->
    skipped R irrelevant failed n = false).
  { rewrite list_elem_of_In, in_map_iff. split.
    - intros (n' & Hid & [Hin' Hs]%filter_In). rewrite (NoDup_key_inj nd_ID _ Hn n n'); [by apply negb_true_iff|done|by apply list_elem_of_In|done].
    - intros Hs. exists n. split; [done|]. apply filter_In. rewrite Hs. by rewrite <- list_elem_of_In. }
  rewrite Hkept. unfold skipped. rewrite !orb_false_iff, !andb_false_iff, !negb_false_iff, !bool_decide_eq_false, !bool_decide_eq_true.
  rewrite (sy_failed _ _ _ _ _ _ Hsy), (sy_irrelevant _ _ _ _ _ _ Hsy), elem_of_list_to_set, retained_proven. tauto.
Qed.

(** A step that the procedure needs. *)
Definition certain (id : string) : Prop := exists step, step ∈ sr_Steps res /\ sp_EventID step = id /\ sp_UncertainNecessity step = false.

Lemma certain_proven id : certain id <-> proven request id /\ ~ in_failed_branch request id.
Proof using Hn Hsy.
  destruct (make_steps_spec _ _ _ _ _ _ _ (sy_steps _ _ _ _ _ _ Hsy)) as [Hids Hsteps]. split.
  - intros (step & [i Hi]%list_elem_of_lookup & Hid & Hu). destruct (Hsteps i step Hi) as [_ Hu']. rewrite Hu, Hid in Hu'.
    assert (Hp : proven request id) by (apply retained_proven; by rewrite <- bool_decide_eq_true, <- negb_false_iff). split; [done|].
    assert (Hin : id ∈ List.map sp_EventID (sr_Steps res))
      by (rewrite <- Hid; apply list_elem_of_In, in_map, list_elem_of_In, list_elem_of_lookup; by exists i).
    assert (Hnode : exists n, n ∈ gr_Nodes (sq_Graph request) /\ nd_ID n = id).
    { rewrite Hids, list_elem_of_In, in_map_iff in Hin. destruct Hin as (n & Hn' & [Hf _]%filter_In). exists n. by rewrite list_elem_of_In. }
    destruct Hnode as (n & Hnin & <-). by apply step_ids in Hin as [? _].
  - intros [Hp Hf]. assert (Hr := Hp). apply retained_proven, (sy_succeeded _ _ _ _ _ _ Hsy), succeeded_spec in Hr as (n & [Hnin <-] & _).
    assert (Hin : nd_ID n ∈ List.map sp_EventID (sr_Steps res)) by (apply step_ids; tauto).
    apply list_elem_of_In, in_map_iff in Hin as (step & Hid & Hs%list_elem_of_In). exists step. split_and!; [done..|].
    apply list_elem_of_lookup in Hs as [i Hi]. destruct (Hsteps i step Hi) as [_ ->].
    rewrite Hid, negb_false_iff, bool_decide_eq_true. by apply retained_proven.
Qed.

Lemma certain_step id : certain id -> id ∈ List.map sp_EventID (sr_Steps res).
Proof using. intros (step & Hs & <- & _). by apply list_elem_of_In, in_map, list_elem_of_In. Qed.
End request.

(** C9: A procedure is synthesized only from a verified, promotable run in which
    every goal has a successful verifier.  Its steps, in the order of the trace,
    are the nodes that the goals and required effects depend on, and the other
    successful nodes not declared irrelevant; a step is marked uncertain exactly
    when nothing proven depends on it.  Nodes of failed branches are left out,
    and the edges are those of the graph between steps. *)
Theorem Synthesize_exact (request : SynthesisRequest) (res : SynthesisResult) :
  Synthesize request = Ok res -> sr_Status res = StatusSynthesized -> NoDup (List.map nd_ID (gr_Nodes (sq_Graph request))) ->
  let graph := sq_Graph request in
  let ids := List.map sp_EventID (sr_Steps res) in
  sq_OutcomeState request = OutcomeStateVerifiedSuccess /\ gr_AutoPromotable graph = true /\
  (forall k, k ∈ List.map gq_PredicateID (sq_Goals request) ->
     exists id n, verifies (sq_Goals request) k id /\ node_of_id graph id n /\ nd_Succeeded n = true) /\
  (forall id, proven request id -> exists n, node_of_id graph id n /\ nd_Succeeded n = true) /\
  (forall n, n ∈ gr_Nodes graph -> nd_ID n ∈ ids <->
     ~ in_failed_branch request (nd_ID n) /\ (proven request (nd_ID n) \/ nd_Succeeded n = true /\ nd_ID n ∉ sq_IrrelevantNodes request)) /\
  ids `sublist_of` List.map nd_ID (gr_Nodes graph) /\
  (forall i step, sr_Steps res !! i = Some step ->
     sp_Ordinal step = wrap_u32 (Z.of_nat i) /\ (sp_UncertainNecessity step = false <-> proven request (sp_EventID step))) /\
  (forall e, e ∈ sr_Edges res <-> e ∈ gr_Edges graph /\ ed_From e ∈ ids /\ ed_To e ∈ ids).
Proof using.
  intros Hs Hst Hn. destruct (Synthesize_inv _ _ Hs Hst) as (nodes & R & I & F & Hsy). cbv zeta. split_and!.
  - apply (sy_state _ _ _ _ _ _ Hsy).
  - apply (sy_promotable _ _ _ _ _ _ Hsy).
  - intros k Hk. destruct (sy_covered _ _ _ _ _ _ Hsy) as (R0 & Hc & _). apply cover_goals_spec in Hc as [_ Hg].
    destruct (canonicalGoals_covers _ _ Hk) as (g & Hin & <-). destruct (Hg g Hin) as (_ & x & Hx & Hsx).
    apply (succeeded_spec _ _ _ _ _ _ Hn Hsy) in Hsx as (n & Hn' & Hsn). exists x, n. split; [|done].
    by apply (proj2 (canonicalGoals_elem _ _ Hin)).
  - intros id Hp. apply (succeeded_spec _ _ _ _ _ _ Hn Hsy), (sy_succeeded _ _ _ _ _ _ Hsy). by apply (retained_proven _ _ _ _ _ _ Hn Hsy).
  - intros n Hin. by apply (step_ids _ _ _ _ _ _ Hn Hsy).
  - destruct (make_steps_spec _ _ _ _ _ _ _ (sy_steps _ _ _ _ _ _ Hsy)) as [-> _]. clear.
    induction (gr_Nodes (sq_Graph request)) as [|n l IH]; simpl; [constructor|]. destruct (negb _); simpl; by constructor.
  - intros i step Hi. destruct (proj2 (make_steps_spec _ _ _ _ _ _ _ (sy_steps _ _ _ _ _ _ Hsy)) i step Hi) as [-> ->]. split; [done|].
    by rewrite negb_false_iff, bool_decide_eq_true, (retained_proven _ _ _ _ _ _ Hn Hsy).
  - apply (sy_edges _ _ _ _ _ _ Hsy).
Qed.

(** ** The request of the processor *)
Lemma infer_facts_lookup (nodes : list Node) facts : forall (m : gmap string (gset string)) k,
  (is_Some (foldl (infer_fact nodes) m facts !! k) <-> is_Some (m !! k) \/ exists fact, fact ∈ facts /\ oe_PredicateID fact = k) /\
  forall id, id ∈ default ∅ (foldl (infer_fact nodes) m facts !! k) <->
    id ∈ default ∅ (m !! k) \/
    exists fact n, fact ∈ facts /\ oe_PredicateID fact = k /\ n ∈ nodes /\ nd_ID n = id /\ goal_node (oe_PredicateID fact) (oe_VerifierID fact) n = true.
Proof using.
  induction facts as [|fact facts IH]; intros m k; cbn [foldl].
  { setoid_rewrite elem_of_nil. clear. split; [naive_solver|]. intros id. naive_solver. }
  destruct (IH (infer_fact nodes m fact) k) as [Hdom Hval]. rewrite Hdom. setoid_rewrite Hval. setoid_rewrite elem_of_cons. unfold infer_fact.
  clear IH Hdom Hval. destruct (decide (oe_PredicateID fact = k)) as [<-|Hk].
  - rewrite lookup_insert_eq. cbn [from_option Datatypes.id]. split; [naive_solver|]. intros id. rewrite elem_of_union, elem_of_list_to_set.
    rewrite list_elem_of_In, in_map_iff. setoid_rewrite filter_In. setoid_rewrite <- list_elem_of_In. naive_solver.
  - rewrite lookup_insert_ne by done. split; [naive_solver|]. intros id. naive_solver.
Qed.

Lemma inferGoals_elem graph facts goal :
  goal ∈ inferGoals graph facts ->
  forall id, id ∈ gq_VerifierNodes goal <->
    exists fact n, fact ∈ facts /\ oe_PredicateID fact = gq_PredicateID goal /\ n ∈ gr_Nodes graph /\ nd_ID n = id /\
      goal_node (oe_PredicateID fact) (oe_VerifierID fact) n = true.
Proof using.
  unfold inferGoals, sort_by_key. rewrite sort_slice_elem, list_elem_of_In, in_map_iff. intros ([k ids] & <- & Hin) id.
  cbn [gq_VerifierNodes gq_PredicateID fst snd]. rewrite sort_strings_elem, elem_of_elements. apply list_elem_of_In, elem_of_map_to_list in Hin.
  pose proof (proj2 (infer_facts_lookup (gr_Nodes graph) facts ∅ k) id) as Hv. rewrite Hin, lookup_empty in Hv. cbn [from_option Datatypes.id] in Hv.
  rewrite Hv. set_solver.
Qed.

Lemma inferGoals_covers graph facts fact : fact ∈ facts -> oe_PredicateID fact ∈ List.map gq_PredicateID (inferGoals graph facts).
Proof using.
  intros Hf. destruct (infer_facts_lookup (gr_Nodes graph) facts ∅ (oe_PredicateID fact)) as [[_ Hd] _].
  destruct Hd as [ids Hids]; [right; by exists fact|]. rewrite list_elem_of_In, in_map_iff.
  exists (mk_GoalRequirement (oe_PredicateID fact) (sort_strings (elements ids))). split; [done|].
  apply list_elem_of_In. unfold inferGoals, sort_by_key. rewrite sort_slice_elem, list_elem_of_In, in_map_iff.
  exists (oe_PredicateID fact, ids). split; [done|]. by apply list_elem_of_In, elem_of_map_to_list.
Qed.

Lemma failed_branches_elem environmentHash events nodes : forall branches branch id,
  failed_branches environmentHash events nodes = Ok branches -> branch ∈ branches -> id ∈ fb_EventIDs branch ->
  exists n, n ∈ nodes /\ nd_ID n = id /\ nd_Succeeded n = false.
Proof using.
  induction nodes as [|n nodes IH]; intros branches branch id Hb Hin Hid; cbn [failed_branches] in Hb.
  { injection Hb as <-. by apply not_elem_of_nil in Hin. }
  destruct (nd_Succeeded n || nd_Opaque n) eqn:En.
  { destruct (IH _ _ _ Hb Hin Hid) as (n' & ? & ?). exists n'. split; [by apply elem_of_cons; right|done]. }
  apply orb_false_iff in En as [En _]. apply bind_Ok in Hb as (b & Hb & Hr). apply bind_Ok in Hr as (rest & Hr & [= <-]).
  apply elem_of_cons in Hin as [->|Hin].
  - unfold failed_branch in Hb. destruct (events !! nd_ID n) as [ev|]; [|done]. destruct (cn_Result ev); [|done]. inv_Ok Hb.
    injection Hb as <-. cbn [fb_EventIDs] in Hid. apply list_elem_of_singleton in Hid as ->. exists n. split; [by apply elem_of_cons; left|done].
  - destruct (IH _ _ _ Hr Hin Hid) as (n' & ? & ?). exists n'. split; [by apply elem_of_cons; right|done].
Qed.

(** What the processor's request rules out: a failed branch never names a
    successful node. *)
Lemma stage_request_failed graph batch environmentHash state facts versions request n :
  stage_request graph batch environmentHash state facts versions = Ok request -> NoDup (List.map nd_ID (gr_Nodes graph)) ->
  n ∈ gr_Nodes graph -> nd_Succeeded n = true -> ~ in_failed_branch request (nd_ID n).
Proof using.
  intros Hr Hn Hin Hs (branch & Hb & Hid). unfold stage_request in Hr. apply bind_Ok in Hr as (failed & Hf & [= <-]).
  destruct (failed_branches_elem _ _ _ _ _ _ Hf Hb Hid) as (n' & Hin' & Hid' & Hs').
  rewrite (NoDup_key_inj nd_ID _ Hn n' n Hin' Hin Hid') in Hs'. congruence.
Qed.

(** C10: With the request the processor makes from a trace, nothing a goal depends on
    is lost: every predicate of the evidence has a certain step that verifies it,
    every successful step with an effect is certain, and a certain step comes
    with its prerequisites and the edges to them.  The steps are exactly the
    successful nodes. *)
Theorem pipeline_exact graph batch environmentHash state facts versions request res :
  NoDup (List.map nd_ID (gr_Nodes graph)) ->
  stage_request graph batch environmentHash state facts versions = Ok request ->
  Synthesize request = Ok res -> sr_Status res = StatusSynthesized ->
  (forall fact, fact ∈ facts -> exists fact' n, fact' ∈ facts /\ oe_PredicateID fact' = oe_PredicateID fact /\
     n ∈ gr_Nodes graph /\ goal_node (oe_PredicateID fact') (oe_VerifierID fact') n = true /\ certain res (nd_ID n)) /\
  (forall n, n ∈ gr_Nodes graph -> nd_Succeeded n = true -> nd_SideEffect n <> SideEffectNone -> nd_SideEffect n <> SideEffectRead ->
     certain res (nd_ID n)) /\
  (forall e, e ∈ gr_Edges graph -> certain res (ed_To e) -> certain res (ed_From e) /\ e ∈ sr_Edges res) /\
  (forall n, n ∈ gr_Nodes graph -> nd_ID n ∈ List.map sp_EventID (sr_Steps res) <-> nd_Succeeded n = true).
Proof using.
  intros Hn Hr Hs Hst. pose proof (fun n => stage_request_failed _ _ _ _ _ _ _ n Hr Hn) as Hfail.
  unfold stage_request in Hr. apply bind_Ok in Hr as (failed & _ & Hr). injection Hr as Hr.
  destruct (Synthesize_inv _ _ Hs Hst) as (nodes & R & I & F & Hsy).
  assert (Hg : sq_Graph request = graph) by (by rewrite <- Hr). assert (Hn' : NoDup (List.map nd_ID (gr_Nodes (sq_Graph request)))) by (by rewrite Hg).
  pose proof (fun id => certain_proven _ _ _ _ _ _ Hn' Hsy id) as Hcert. pose proof (fun id => retained_proven _ _ _ _ _ _ Hn' Hsy id) as Hret.
  pose proof (fun id => succeeded_spec _ _ _ _ _ _ Hn' Hsy id) as Hsucc.
  assert (Hkeep : forall id, proven request id -> certain res id).
  { intros id Hp. apply Hcert. split; [done|]. apply Hret, (sy_succeeded _ _ _ _ _ _ Hsy), Hsucc in Hp as (n & [Hin <-] & Hok). rewrite Hg in Hin.
    by apply Hfail. }
  assert (Hroots : forall id, root request id -> certain res id) by (intros id Hid; apply Hkeep; exists id; split; [done|constructor]).
  split_and!.
  - intros fact Hf. destruct (sy_covered _ _ _ _ _ _ Hsy) as (R0 & Hc & _). apply cover_goals_spec in Hc as [_ Hc].
    pose proof (inferGoals_covers graph facts fact Hf) as Hk. assert (Hgoals : sq_Goals request = inferGoals graph facts) by (by rewrite <- Hr).
    rewrite <- Hgoals in Hk. destruct (canonicalGoals_covers _ _ Hk) as (g & Hin & Heq). destruct (Hc g Hin) as (_ & x & Hx & Hsx).
    apply (proj2 (canonicalGoals_elem _ _ Hin)) in Hx as (goal & Hgoal & Hgk & Hgx). assert (Hgi := Hgoal). rewrite Hgoals in Hgi.
    apply (inferGoals_elem _ _ _ Hgi) in Hgx as Hgx'. destruct Hgx' as (fact' & n & Hf' & Hp & Hnin & Hid & Hgn).
    exists fact', n. split_and!; [done|congruence|done|done|]. apply Hroots. left. exists goal, n. rewrite Hid. split_and!; [done..| |].
    + unfold node_of_id. by rewrite Hg.
    + unfold goal_node in Hgn. by apply andb_true_iff in Hgn as [? _].
  - intros n Hin Hok H1 H2. apply Hroots. right. rewrite <- Hr. cbn [sq_RequiredEffects]. unfold requiredEffects.
    apply list_elem_of_In, in_map, filter_In. rewrite Hok. apply String.eqb_neq in H1, H2. rewrite H1, H2. by rewrite <- list_elem_of_In.
  - intros e He Ht. assert (Hp : proven request (ed_From e)).
    { apply Hcert in Ht as [(r & Hroot & Hpath) _]. exists r. split; [done|]. eapply rtc_r; [done|]. exists e. by rewrite Hg. }
    split; [by apply Hkeep|]. apply (sy_edges _ _ _ _ _ _ Hsy). rewrite Hg. split_and!; [done|by apply certain_step, Hkeep|by apply certain_step].
  - intros n Hin. assert (Hin' : n ∈ gr_Nodes (sq_Graph request)) by (by rewrite Hg). rewrite (step_ids _ _ _ _ _ _ Hn' Hsy n Hin').
    assert (Hirr : sq_IrrelevantNodes request = []) by (by rewrite <- Hr). rewrite Hirr. split.
    + intros [_ [Hp|[? _]]]; [|done]. apply Hret, (sy_succeeded _ _ _ _ _ _ Hsy), Hsucc in Hp as (n' & [Hn1 Hid] & Hok). rewrite Hg in Hn1.
      by rewrite <- (NoDup_key_inj nd_ID _ Hn n' n Hn1 Hin Hid).
    + intros Hok. split; [by apply Hfail|]. right. split; [done|apply not_elem_of_nil].
Qed.
End synthesize.

(** ** A trace: an edit, a failing test, another edit and the test that passes *)
Section synthesis_demo.
#[local] Existing Instance copy_jcs.
#[local] Existing Instance checksum_digest.

Definition tool_manifest (name effect : string) (reads writes : list ResourceSpec) (success : list PredicateSpec) : Manifest :=
  mk_Manifest ("tool_" ++ name)%string "tool-contract.v1" name "1.0.0" [] [] [] reads writes [] effect RiskLow
    (mk_IdempotencySpec IdempotencyNone "") (mk_RetrySpec RetryNever 1) [] success None [] [] "".

Definition source_tree : ResourceSpec := mk_ResourceSpec "tree" "directory" "fs" "path" "".

#[local] Instance demo_registry : Registry := fun _ query =>
  Ok (mk_Resolution
        (if String.eqb (qy_Name query) "edit" then tool_manifest "edit" SideEffectWrite [] [source_tree] []
         else tool_manifest "test" SideEffectRead [source_tree] [] [mk_PredicateSpec "tests_pass" "" "" "" ""]) false true).

Definition demo_event (position : Z) (id tool state : string) : CanonicalEvent :=
  mk_CanonicalEvent id position id "" "tool_call" tool "1.0.0" [mk_CanonicalField "path" "/repo"] (Some (mk_CanonicalResult state None [])).

Definition demo_batch : CanonicalBatch :=
  mk_CanonicalBatch "trace.v1" "tenant" (mk_CanonicalTrace "trace" "" "harness" "" "fix the test" [])
    [demo_event 0 "a" "edit" "TOOL_RESULT_STATE_SUCCESS"; demo_event 1 "b" "test" "TOOL_RESULT_STATE_ERROR";
     demo_event 2 "c" "edit" "TOOL_RESULT_STATE_SUCCESS"; demo_event 3 "d" "test" "TOOL_RESULT_STATE_SUCCESS"] "" "".

Definition build_request : BuildRequest := mk_BuildRequest demo_batch [mk_DeclaredDependency "a" "c"] [].
Definition empty_graph : Graph := mk_Graph "" "" [] [] false "".

Definition demo_graph : Graph := Eval vm_compute in match Build None build_request with Ok g => g | Err _ => empty_graph end.

Lemma demo_built : Build None build_request = Ok demo_graph.
Proof. vm_compute. reflexivity. Qed.

Lemma demo_nodes : NoDup (List.map nd_ID (gr_Nodes demo_graph)).
Proof. apply (bool_decide_unpack _). vm_compute. exact I. Qed.

(** The nodes are clean, since no name contains a NUL. *)
Lemma demo_clean n : n ∈ gr_Nodes demo_graph -> clean_node n.
Proof.
  assert (Hc : Forall (fun n => has_nul (nd_ID n) = false /\ Forall (fun r => has_nul (rs_ID r) = false /\ has_nul (rs_Namespace r) = false /\
    has_nul (rs_Type r) = false) (nd_Reads n)) (gr_Nodes demo_graph)) by (apply (bool_decide_unpack _); vm_compute; exact I).
  intros Hin. destruct (proj1 (Forall_forall _ _) Hc n Hin) as [Hn Hr]. split; [done|]. by apply Forall_forall.
Qed.

Lemma Build_exact_witness :
  (forall e, e ∈ gr_Edges demo_graph <-> flows (gr_Nodes demo_graph) e \/ declared build_request e) /\
  List.map (fun e => (ed_From e, ed_To e)) (gr_Edges demo_graph) = [("a", "b"); ("a", "c"); ("c", "d")]%string.
Proof.
  split; [|vm_compute; reflexivity]. exact (proj1 (Build_exact build_request demo_graph demo_built demo_clean)).
Defined.

Definition demo_versions : Versions := mk_Versions "s1" "r1" "p1" "g3" "y2".

Definition demo_fact : OutcomeEvidence :=
  mk_OutcomeEvidence "e1" "e1" EvidenceClassGoalPredicate EvidenceVerdictSatisfied "tests_pass" "runner" "" "" [].

Definition request_or (r : result SynthesisRequest) : SynthesisRequest :=
  match r with Ok q => q | Err _ => mk_SynthesisRequest empty_graph "" [] [] [] [] demo_versions end.

Definition synthesis_or (r : result SynthesisResult) : SynthesisResult :=
  match r with Ok x => x | Err _ => mk_SynthesisResult "" "" "" "" "" [] [] [] [] demo_versions false "" end.

Definition demo_request : SynthesisRequest :=
  Eval vm_compute in request_or (stage_request demo_graph demo_batch "env" OutcomeStateVerifiedSuccess [demo_fact] demo_versions).

Definition demo_result : SynthesisResult := Eval vm_compute in synthesis_or (Synthesize demo_request).

Lemma demo_requested : stage_request demo_graph demo_batch "env" OutcomeStateVerifiedSuccess [demo_fact] demo_versions = Ok demo_request.
Proof. vm_compute. reflexivity. Qed.

Lemma demo_synthesized : Synthesize demo_request = Ok demo_result.
Proof. vm_compute. reflexivity. Qed.

Lemma Synthesize_exact_witness :
  (forall n, n ∈ gr_Nodes demo_graph -> nd_ID n ∈ List.map sp_EventID (sr_Steps demo_result) <->
     ~ in_failed_branch demo_request (nd_ID n) /\ (proven demo_request (nd_ID n) \/ nd_Succeeded n = true /\ nd_ID n ∉ [])) /\
  List.map sp_EventID (sr_Steps demo_result) = ["a"; "c"; "d"]%string.
Proof.
  split; [|vm_compute; reflexivity].
  pose proof (Synthesize_exact demo_request demo_result demo_synthesized eq_refl demo_nodes) as He. cbv zeta in He.
  exact (proj1 (proj2 (proj2 (proj2 (proj2 He))))).
Defined.

Lemma pipeline_exact_witness :
  (forall e, e ∈ gr_Edges demo_graph -> certain demo_result (ed_To e) -> certain demo_result (ed_From e) /\ e ∈ sr_Edges demo_result) /\
  List.map (fun e => (ed_From e, ed_To e)) (sr_Edges demo_result) = [("a", "c"); ("c", "d")]%string.
Proof.
  split; [|vm_compute; reflexivity].
  exact (proj1 (proj2 (proj2 (pipeline_exact demo_graph demo_batch "env" OutcomeStateVerifiedSuccess [demo_fact] demo_versions
    demo_request demo_result demo_nodes demo_requested demo_synthesized eq_refl)))).
Defined.

(** ** A proof that is dropped *)

(** A request that names the verifier of its only goal in a failed branch. *)
Definition contradictory_request : SynthesisRequest :=
  mk_SynthesisRequest demo_graph OutcomeStateVerifiedSuccess [mk_GoalRequirement "tests_pass" ["d"%string]] [] []
    [mk_FailedBranch "tool_failure" ["d"%string] (mk_CompatibilityScope "env" "tool" "resource")] demo_versions.

(** The synthesizer takes such a request: the procedure it returns claims the
    goal, while the step that proves it is left out.  A failed branch is not
    checked against what is retained. *)
Example Synthesize_drops_proof :
  exists res, Synthesize contradictory_request = Ok res /\ sr_Status res = StatusSynthesized /\
    sr_GoalPredicates res = ["tests_pass"%string] /\ List.map sp_EventID (sr_Steps res) = ["a"; "c"]%string /\
    proven contradictory_request "d"%string.
Proof.
  assert (Hr : Synthesize contradictory_request = Ok (synthesis_or (Synthesize contradictory_request))) by (vm_compute; reflexivity).
  exists (synthesis_or (Synthesize contradictory_request)). split; [exact Hr|]. split_and!; [vm_compute; reflexivity..|].
  exists "d"%string. split; [left|constructor]. eexists _, _. split; [left|]. split; [left|]. split; [split; [do 3 right; left|]|]; reflexivity.
Qed.
End synthesis_demo.
