(* ===== verification/Budget.v ===== *)
(** * Contexts and work budgets (internal/composition, shared control flow)

    The composition planner threads two effects through its calls: polls of
    [ctx.Err()] and the mutable [workBudget] that bounds the work of one
    request.  [work A] is that computation: it reads an environment (the
    context, as the sequence of answers its polls get, and the budget's
    maximum), threads the number of polls made and the units used, and ends in
    a value or a Go error.  [Bounded] states that a computation keeps the
    budget's invariant; [post] is partial correctness of its value. *)

From Stdlib Require Import ZArith String List Bool Lia.
From stdpp Require Import base list.
From S2P Require Import Prelude.

Open Scope Z_scope.

(** What [ctx.Err()] returns: nil, [context.Canceled] or [context.DeadlineExceeded]. *)
Inductive ctx_status := Live | Canceled | DeadlineExceeded.

Record env := mk_env { ctx : nat -> ctx_status; maximum : Z }.
Record wstate := mk_wstate { polls : nat; used : Z }.

Definition work (A : Type) : Type := env -> wstate -> result A * wstate.

Definition ret {A} (a : A) : work A := fun _ s => (Ok a, s).
Definition raise {A} (e : goerr) : work A := fun _ s => (Err e, s).
Definition lift {A} (r : result A) : work A := fun _ s => (r, s).

Definition wbind {A B} (m : work A) (k : A -> work B) : work B := fun v s =>
  match m v s with
  | (Ok a, s') => k a v s'
  | (Err e, s') => (Err e, s')
  end.

(** The error of a call as a value, for code that inspects it. *)
Definition try {A} (m : work A) : work (result A) := fun v s => let (r, s') := m v s in (Ok r, s').

(** [if err := ctx.Err(); err != nil { return err }] *)
Definition check_ctx : work unit := fun v s =>
  let s' := mk_wstate (S (polls s)) (used s) in
  match ctx v (polls s) with
  | Live => (Ok tt, s')
  | Canceled => (Err CtxCanceled, s')
  | DeadlineExceeded => (Err CtxDeadlineExceeded, s')
  end.

(** [workBudget.consume], in uint64 arithmetic. *)
Definition consume (units : Z) : work bool := fun v s =>
  if units >? wrap_u64 (maximum v - used s) then (Ok false, s)
  else (Ok true, mk_wstate (polls s) (wrap_u64 (used s + units))).

Declare Scope work_scope.
Delimit Scope work_scope with work.
Notation "'do' x <- m ; k" := (wbind m (fun x => k))
  (at level 200, x pattern, m at level 100, k at level 200) : work_scope.
Notation "'guard' b 'else' e ; k" := (if b then raise e else k)
  (at level 200, b at level 100, e at level 100, k at level 200) : work_scope.
Open Scope work_scope.

(** [if !budget.consume(n) { return errWorkLimit }] *)
Definition charge (units : Z) : work unit :=
  do enough <- consume units; if enough then ret tt else raise ErrWorkLimit.

(** [if index%n == 0 { if err := ctx.Err(); ... }] *)
Definition check_every (n index : nat) : work unit :=
  if Nat.eqb (Nat.modulo index n) 0 then check_ctx else ret tt.

(** ** Loops: [for index, x := range l] with an accumulator, [break] as a value *)
Fixpoint loop {A B} (f : nat -> B -> A -> work A) (i : nat) (l : list B) (acc : A) : work A :=
  match l with
  | [] => ret acc
  | x :: l => do acc <- f i x acc; loop f (S i) l acc
  end.

Inductive flow (A : Type) := Next (a : A) | Break (a : A).
Arguments Next {A} a.
Arguments Break {A} a.

Fixpoint loop_break {A B} (f : B -> A -> work (flow A)) (l : list B) (acc : A) : work A :=
  match l with
  | [] => ret acc
  | x :: l =>
      do next <- f x acc;
      match next with
      | Next acc => loop_break f l acc
      | Break acc => ret acc
      end
  end.

(** [context.Background()]: never done. *)
Definition background : env := mk_env (fun _ => Live) 0.
Definition fresh : wstate := mk_wstate 0 0.

(** ** The budget's invariant *)
Definition within (v : env) (s : wstate) : Prop := 0 <= used s <= maximum v /\ in_u64 (maximum v).

Class Bounded {A} (m : work A) : Prop :=
  bounded : forall v s, within v s -> within v (snd (m v s)) /\ used s <= used (snd (m v s)).

#[export] Instance bounded_ret {A} (a : A) : Bounded (ret a).
Proof. intros v s Hw. split; [done|]. simpl. lia. Qed.

#[export] Instance bounded_raise {A} e : Bounded (raise (A := A) e).
Proof. intros v s Hw. split; [done|]. simpl. lia. Qed.

#[export] Instance bounded_lift {A} (r : result A) : Bounded (lift r).
Proof. intros v s Hw. split; [done|]. simpl. lia. Qed.

#[export] Instance bounded_check : Bounded check_ctx.
Proof. intros v s Hw. unfold check_ctx. destruct (ctx v (polls s)); simpl; split; [exact Hw|lia..|exact Hw|lia|exact Hw|lia]. Qed.

#[export] Instance bounded_bind {A B} (m : work A) (k : A -> work B) :
  Bounded m -> (forall a, Bounded (k a)) -> Bounded (wbind m k).
Proof.
  intros Hm Hk v s Hw. unfold wbind. specialize (Hm v s Hw).
  destruct (m v s) as [[a|e] s']; simpl in *; [|done]. destruct Hm as [Hw' Hle].
  destruct (Hk a v s' Hw'). split; [done|lia].
Qed.

#[export] Instance bounded_try {A} (m : work A) : Bounded m -> Bounded (try m).
Proof. intros Hm v s Hw. specialize (Hm v s Hw). unfold try. by destruct (m v s). Qed.

(** Units are uint64 values, so never negative. *)
Lemma bounded_consume units : 0 <= units -> Bounded (consume units).
Proof.
  intros Hu v s [Hw Hm]. unfold consume. rewrite wrap_u64_id by (unfold_widths; lia).
  destruct (units >? maximum v - used s) eqn:E; simpl; [split; [done|lia]|].
  apply Z.gtb_ltb, Z.ltb_ge in E || (rewrite Z.gtb_ltb in E; apply Z.ltb_ge in E).
  rewrite wrap_u64_id by (unfold_widths; lia). unfold within. simpl. split; [split; [lia|done]|lia].
Qed.
#[export] Hint Extern 1 (Bounded (consume _)) => apply bounded_consume; lia : typeclass_instances.

Lemma bounded_charge units : 0 <= units -> Bounded (charge units).
Proof. intros Hu. unfold charge. apply bounded_bind; [by apply bounded_consume|]. intros []; apply _. Qed.
#[export] Hint Extern 1 (Bounded (charge _)) => apply bounded_charge; lia : typeclass_instances.

#[export] Instance bounded_check_every n i : Bounded (check_every n i).
Proof. unfold check_every. case_match; apply _. Qed.

#[export] Instance bounded_loop {A B} (f : nat -> B -> A -> work A) i l acc :
  (forall i x acc, Bounded (f i x acc)) -> Bounded (loop f i l acc).
Proof. intros Hf. revert i acc. induction l as [|x l IH]; intros i acc; simpl; apply _. Qed.

#[export] Instance bounded_loop_break {A B} (f : B -> A -> work (flow A)) l acc :
  (forall x acc, Bounded (f x acc)) -> Bounded (loop_break f l acc).
Proof.
  intros Hf. revert acc. induction l as [|x l IH]; intros acc; simpl; [apply _|].
  apply bounded_bind; [apply _|]. intros []; apply _.
Qed.

(** Case analysis on the tests of the code. *)
Ltac bounded_cases :=
  repeat first
    [ match goal with
      | |- Bounded (wbind _ _) => apply bounded_bind; [|intros ?]
      | |- Bounded (match _ with _ => _ end) => case_match
      end
    | solve [apply _]
    | match goal with
      | |- Bounded (try _) => apply bounded_try
      | |- Bounded (loop _ _ _ _) => apply bounded_loop; intros ???
      | |- Bounded (loop_break _ _ _) => apply bounded_loop_break; intros ??
      end ].

(** ** Partial correctness *)
Definition post {A} (m : work A) (Q : A -> Prop) : Prop :=
  forall v s a s', m v s = (Ok a, s') -> Q a.

Lemma post_ret {A} (a : A) (Q : A -> Prop) : Q a -> post (ret a) Q.
Proof. intros HQ v s x s' [= <- _]. done. Qed.

Lemma post_raise {A} e (Q : A -> Prop) : post (raise e) Q.
Proof. intros v s x s' [=]. Qed.

Lemma post_lift {A} (r : result A) (Q : A -> Prop) : (forall a, r = Ok a -> Q a) -> post (lift r) Q.
Proof. intros HQ v s x s' [= Hr _]. by apply HQ. Qed.

Lemma post_bind {A B} (m : work A) (k : A -> work B) (P : A -> Prop) (Q : B -> Prop) :
  post m P -> (forall a, P a -> post (k a) Q) -> post (wbind m k) Q.
Proof.
  intros Hm Hk v s b s'. unfold wbind. destruct (m v s) as [[a|e] s1] eqn:E; [|done].
  apply Hk. by eapply Hm.
Qed.

Lemma post_skip {A B} (m : work A) (k : A -> work B) (Q : B -> Prop) :
  (forall a, post (k a) Q) -> post (wbind m k) Q.
Proof. intros Hk. by apply (post_bind m k (fun _ => True)). Qed.

Lemma post_try {A} (m : work A) (P : A -> Prop) :
  post m P -> post (try m) (fun r => match r with Ok a => P a | Err _ => True end).
Proof.
  intros Hm v s r s'. unfold try. destruct (m v s) as [[a|e] s1] eqn:E; intros [= <- _]; [|done].
  by eapply Hm.
Qed.

Lemma post_weaken {A} (m : work A) (P Q : A -> Prop) : post m P -> (forall a, P a -> Q a) -> post m Q.
Proof. intros Hm HPQ v s a s' E. by eapply HPQ, Hm. Qed.

Lemma post_and {A} (m : work A) (P Q : A -> Prop) : post m P -> post m Q -> post m (fun a => P a /\ Q a).
Proof. intros HP HQ v s a s' E. split; [by eapply HP|by eapply HQ]. Qed.

Lemma post_reject {A} (b : bool) e (k : work A) (Q : A -> Prop) :
  (b = false -> post k Q) -> post (if b then raise e else k) Q.
Proof. intros Hk. destruct b; [apply post_raise|auto]. Qed.

Lemma post_loop {A B} (f : nat -> B -> A -> work A) (Inv : list B -> A -> Prop) l acc :
  Inv [] acc ->
  (forall done x rest acc, l = done ++ x :: rest -> Inv done acc ->
     post (f (length done) x acc) (Inv (done ++ [x]))) ->
  post (loop f 0 l acc) (Inv l).
Proof.
  intros H0 Hf.
  assert (forall rest done acc, l = done ++ rest -> Inv done acc -> post (loop f (length done) rest acc) (Inv l)) as Hgen.
  { induction rest as [|x rest IH]; intros done acc' El Hinv; simpl.
    - apply post_ret. by rewrite El, app_nil_r.
    - eapply post_bind; [by eapply Hf|]. intros acc'' Hinv'.
      replace (S (length done)) with (length (done ++ [x])) by (rewrite length_app; simpl; lia).
      apply IH; [|done]. by rewrite <- app_assoc. }
  by apply (Hgen l []).
Qed.

Lemma post_loop_break {A B} (f : B -> A -> work (flow A)) (Inv : A -> Prop) l acc :
  Inv acc ->
  (forall x acc, x ∈ l -> Inv acc ->
     post (f x acc) (fun r => match r with Next a | Break a => Inv a end)) ->
  post (loop_break f l acc) Inv.
Proof.
  revert acc. induction l as [|x l IH]; intros acc H0 Hf; simpl; [by apply post_ret|].
  eapply post_bind; [apply Hf; [apply list_elem_of_here|done]|]. intros [a|a] Ha; [|by apply post_ret].
  apply IH; [done|]. intros y acc' Hy. apply Hf. by apply list_elem_of_further.
Qed.

(** ** Success under a context that is never done *)
Definition never_done (v : env) : Prop := forall n, ctx v n = Live.

Definition succeeds {A} (v : env) (m : work A) (Q : A -> Prop) : Prop :=
  forall s, exists a s', m v s = (Ok a, s') /\ Q a.

Lemma succeeds_ret {A} v (a : A) (Q : A -> Prop) : Q a -> succeeds v (ret a) Q.
Proof. intros HQ s. by exists a, s. Qed.

Lemma succeeds_bind {A B} v (m : work A) (k : A -> work B) (P : A -> Prop) (Q : B -> Prop) :
  succeeds v m P -> (forall a, P a -> succeeds v (k a) Q) -> succeeds v (wbind m k) Q.
Proof.
  intros Hm Hk s. destruct (Hm s) as (a & s1 & Heq & HP). destruct (Hk a HP s1) as (b & s2 & Heq' & HQ).
  exists b, s2. split; [|done]. unfold wbind. by rewrite Heq.
Qed.

Lemma succeeds_check v : never_done v -> succeeds v check_ctx (fun _ => True).
Proof. intros Hv s. unfold check_ctx. rewrite Hv. by eexists _, _. Qed.

Lemma succeeds_check_every v n i : never_done v -> succeeds v (check_every n i) (fun _ => True).
Proof. intros Hv. unfold check_every. case_match; [by apply succeeds_check|by apply succeeds_ret]. Qed.

Lemma succeeds_loop {A B} v (f : nat -> B -> A -> work A) (Inv : list B -> A -> Prop) l acc :
  Inv [] acc ->
  (forall done x rest acc, l = done ++ x :: rest -> Inv done acc ->
     succeeds v (f (length done) x acc) (Inv (done ++ [x]))) ->
  succeeds v (loop f 0 l acc) (Inv l).
Proof.
  intros H0 Hf.
  assert (forall rest done acc, l = done ++ rest -> Inv done acc ->
    succeeds v (loop f (length done) rest acc) (Inv l)) as Hgen.
  { induction rest as [|x rest IH]; intros done acc' El Hinv; simpl.
    - apply succeeds_ret. by rewrite El, app_nil_r.
    - eapply succeeds_bind; [by eapply Hf|]. intros acc'' Hinv'.
      replace (S (length done)) with (length (done ++ [x])) by (rewrite length_app; simpl; lia).
      apply IH; [|done]. by rewrite <- app_assoc. }
  by apply (Hgen l []).
Qed.
