(* ===== verification/Interfaces.v ===== *)
(** * Procedure interfaces (internal/domain/procedure.go, internal/retrieval/document.go)

    What a procedure version requires and provides, with the identifiers
    derived from the content of each entry, and the validation that every
    consumer of an interface runs before trusting it. *)

From Stdlib Require Import ZArith String Ascii List Bool Lia.
From stdpp Require Import base gmap strings list sorting.
From S2P Require Import Prelude GoStrings Canonical.

Open Scope Z_scope.
Open Scope go_scope.

Record ProcedureRequirement := mk_ProcedureRequirement {
  rq_ID : string;
  rq_ResourceType : string;
  rq_Namespace : string;
  rq_IdentityHash : string;
  rq_SchemaVersion : string;
  rq_AccessMode : string;
  rq_PredicateIDs : list string
}.

Record ProcedureProvision := mk_ProcedureProvision {
  pv_ID : string;
  pv_ResourceType : string;
  pv_Namespace : string;
  pv_IdentityHash : string;
  pv_SchemaVersion : string;
  pv_ProducedEffects : list string;
  pv_SuccessPredicateIDs : list string
}.

Record ProcedureInterface := mk_ProcedureInterface {
  pi_SchemaVersion : string;
  pi_ID : string;
  pi_Requirements : list ProcedureRequirement;
  pi_Provisions : list ProcedureProvision;
  pi_ContentHash : string
}.

#[export] Instance requirement_eq_dec : EqDecision ProcedureRequirement.
Proof. solve_decision. Defined.
#[export] Instance provision_eq_dec : EqDecision ProcedureProvision.
Proof. solve_decision. Defined.

Definition requirement_json (r : ProcedureRequirement) : json :=
  JObj (fstr_omit "id" (rq_ID r) ++ fstr "resource_type" (rq_ResourceType r) ++ fstr "namespace" (rq_Namespace r) ++
        fstr "identity_hash" (rq_IdentityHash r) ++ fstr_omit "schema_version" (rq_SchemaVersion r) ++
        fstr "access_mode" (rq_AccessMode r) ++ fstrs_omit "predicate_ids" (rq_PredicateIDs r)).

Definition provision_json (p : ProcedureProvision) : json :=
  JObj (fstr_omit "id" (pv_ID p) ++ fstr "resource_type" (pv_ResourceType p) ++ fstr "namespace" (pv_Namespace p) ++
        fstr "identity_hash" (pv_IdentityHash p) ++ fstr_omit "schema_version" (pv_SchemaVersion p) ++
        fstrs_omit "produced_effects" (pv_ProducedEffects p) ++
        fstrs_omit "success_predicate_ids" (pv_SuccessPredicateIDs p)).

Definition interface_json (i : ProcedureInterface) : json :=
  JObj (fstr "schema_version" (pi_SchemaVersion i) ++ fstr_omit "id" (pi_ID i) ++
        farr_omit "requirements" (List.map requirement_json (pi_Requirements i)) ++
        farr_omit "provisions" (List.map provision_json (pi_Provisions i)) ++
        fstr_omit "content_hash" (pi_ContentHash i)).

(** [identity := x; identity.ID = ""] *)
Definition requirement_identity (r : ProcedureRequirement) : ProcedureRequirement :=
  mk_ProcedureRequirement "" (rq_ResourceType r) (rq_Namespace r) (rq_IdentityHash r) (rq_SchemaVersion r)
    (rq_AccessMode r) (rq_PredicateIDs r).

Definition provision_identity (p : ProcedureProvision) : ProcedureProvision :=
  mk_ProcedureProvision "" (pv_ResourceType p) (pv_Namespace p) (pv_IdentityHash p) (pv_SchemaVersion p)
    (pv_ProducedEffects p) (pv_SuccessPredicateIDs p).

Definition interface_identity (i : ProcedureInterface) : ProcedureInterface :=
  mk_ProcedureInterface (pi_SchemaVersion i) "" (pi_Requirements i) (pi_Provisions i) "".

Section interfaces.
Context `{NFC} `{JCS} `{Digest}.

(** [token(value)] of retrieval/query.go. *)
Definition token (value : string) : string := nfc_string (TrimSpace value).

(** [strictDocumentStrings]: canonical tokens in strictly increasing order. *)
Fixpoint document_strings_from (prev : option string) (values : list string) : bool :=
  match values with
  | [] => true
  | value :: rest =>
      negb (String.eqb (token value) "") && String.eqb (token value) value &&
      match prev with Some p => str_ltb p value | None => true end &&
      document_strings_from (Some value) rest
  end.

Definition strictDocumentStrings (values : list string) : bool := document_strings_from None values.

Definition requirement_key (r : ProcedureRequirement) : string :=
  join nul [rq_ResourceType r; rq_Namespace r; rq_IdentityHash r; rq_SchemaVersion r; rq_AccessMode r].

Definition provision_key (p : ProcedureProvision) : string :=
  join nul [pv_ResourceType p; pv_Namespace p; pv_IdentityHash p; pv_SchemaVersion p].

(** [x.ID != prefix+hash] for the hash of the entry without its identifier. *)
Definition id_matches (id prefix : string) (identity : json) : bool :=
  match MarshalAndHash identity with
  | Ok (_, hash) => String.eqb id (prefix ++ hash)
  | Err _ => false
  end.

Definition requirement_ok (prev : option string) (r : ProcedureRequirement) : bool :=
  id_matches (rq_ID r) "req_" (requirement_json (requirement_identity r)) &&
  negb (String.eqb (rq_ResourceType r) "") && negb (String.eqb (rq_Namespace r) "") &&
  sha256Pattern (rq_IdentityHash r) && String.eqb (rq_AccessMode r) "read" &&
  strictDocumentStrings (rq_PredicateIDs r) &&
  match prev with Some p => str_ltb p (rq_ID r) | None => true end.

Fixpoint requirements_ok (seen : gset string) (prev : option string) (l : list ProcedureRequirement) : bool :=
  match l with
  | [] => true
  | r :: rest =>
      negb (bool_decide (requirement_key r ∈ seen)) && requirement_ok prev r &&
      requirements_ok ({[requirement_key r]} ∪ seen) (Some (rq_ID r)) rest
  end.

Definition provision_ok (prev : option string) (p : ProcedureProvision) : bool :=
  id_matches (pv_ID p) "prov_" (provision_json (provision_identity p)) &&
  negb (String.eqb (pv_ResourceType p) "") && negb (String.eqb (pv_Namespace p) "") &&
  sha256Pattern (pv_IdentityHash p) &&
  strictDocumentStrings (pv_ProducedEffects p) && strictDocumentStrings (pv_SuccessPredicateIDs p) &&
  match prev with Some q => str_ltb q (pv_ID p) | None => true end.

Fixpoint provisions_ok (seen : gset string) (prev : option string) (l : list ProcedureProvision) : bool :=
  match l with
  | [] => true
  | p :: rest =>
      negb (bool_decide (provision_key p ∈ seen)) && provision_ok prev p &&
      provisions_ok ({[provision_key p]} ∪ seen) (Some (pv_ID p)) rest
  end.

Definition ValidateProcedureInterface (value : ProcedureInterface) : result unit :=
  reject (negb (String.eqb (pi_SchemaVersion value) "procedure-interface.v1") || String.eqb (pi_ID value) "" ||
          negb (sha256Pattern (pi_ContentHash value)) ||
          negb (String.eqb (pi_ID value) ("pif_" ++ pi_ContentHash value))) with ErrInvalidDocument;
  reject (negb (requirements_ok ∅ None (pi_Requirements value))) with ErrInvalidDocument;
  reject (negb (provisions_ok ∅ None (pi_Provisions value))) with ErrInvalidDocument;
  match MarshalAndHash (interface_json (interface_identity value)) with
  | Ok (_, hash) => if String.eqb hash (pi_ContentHash value) then Ok tt else Err ErrInvalidDocument
  | Err _ => Err ErrInvalidDocument
  end.

(** [normalizeSet]: the distinct tokens of a list, sorted; an empty token is an error. *)
Definition normalizeSet (source : list string) : result (list string) :=
  let values := List.map token source in
  reject (existsb (fun value => String.eqb value "") values) with ErrInvalidQuery;
  Ok (sort_strings (elements (list_to_set values : gset string))).

Definition new_requirement (source : ProcedureRequirement) (seen : gset string) :
    result (ProcedureRequirement * gset string) :=
  match normalizeSet (rq_PredicateIDs source) with
  | Err _ => Err ErrInvalidDocument
  | Ok predicates =>
      let value := mk_ProcedureRequirement "" (token (rq_ResourceType source)) (token (rq_Namespace source))
        (token (rq_IdentityHash source)) (token (rq_SchemaVersion source)) (token (rq_AccessMode source)) predicates in
      reject (String.eqb (rq_ResourceType value) "" || String.eqb (rq_Namespace value) "" ||
              negb (sha256Pattern (rq_IdentityHash value)) || negb (String.eqb (rq_AccessMode value) "read"))
        with ErrInvalidDocument;
      reject (bool_decide (requirement_key value ∈ seen)) with ErrInvalidDocument;
      let* (_, hash) := MarshalAndHash (requirement_json value) in
      Ok (mk_ProcedureRequirement ("req_" ++ hash) (rq_ResourceType value) (rq_Namespace value)
            (rq_IdentityHash value) (rq_SchemaVersion value) (rq_AccessMode value) (rq_PredicateIDs value),
          {[requirement_key value]} ∪ seen)
  end.

Definition new_provision (source : ProcedureProvision) (seen : gset string) :
    result (ProcedureProvision * gset string) :=
  match normalizeSet (pv_ProducedEffects source), normalizeSet (pv_SuccessPredicateIDs source) with
  | Ok effects, Ok predicates =>
      let value := mk_ProcedureProvision "" (token (pv_ResourceType source)) (token (pv_Namespace source))
        (token (pv_IdentityHash source)) (token (pv_SchemaVersion source)) effects predicates in
      reject (String.eqb (pv_ResourceType value) "" || String.eqb (pv_Namespace value) "" ||
              negb (sha256Pattern (pv_IdentityHash value))) with ErrInvalidDocument;
      reject (bool_decide (provision_key value ∈ seen)) with ErrInvalidDocument;
      let* (_, hash) := MarshalAndHash (provision_json value) in
      Ok (mk_ProcedureProvision ("prov_" ++ hash) (pv_ResourceType value) (pv_Namespace value)
            (pv_IdentityHash value) (pv_SchemaVersion value) (pv_ProducedEffects value) (pv_SuccessPredicateIDs value),
          {[provision_key value]} ∪ seen)
  | _, _ => Err ErrInvalidDocument
  end.

(** The loop over the sources, threading the keys already seen. *)
Fixpoint new_entries {A} (f : A -> gset string -> result (A * gset string)) (seen : gset string) (source : list A) :
    result (list A) :=
  match source with
  | [] => Ok []
  | x :: rest =>
      let* (value, seen) := f x seen in
      let* values := new_entries f seen rest in
      Ok (value :: values)
  end.

Definition NewProcedureInterface (requirements : list ProcedureRequirement) (provisions : list ProcedureProvision) :
    result ProcedureInterface :=
  let* reqs := new_entries new_requirement ∅ requirements in
  let* provs := new_entries new_provision ∅ provisions in
  let result := mk_ProcedureInterface "procedure-interface.v1" ""
    (sort_slice (cmp_ltb (cmp_on rq_ID String.compare)) reqs)
    (sort_slice (cmp_ltb (cmp_on pv_ID String.compare)) provs) "" in
  let* (_, hash) := MarshalAndHash (interface_json result) in
  Ok (mk_ProcedureInterface "procedure-interface.v1" ("pif_" ++ hash) (pi_Requirements result) (pi_Provisions result) hash).

(** ** What validation guarantees *)

Lemma document_strings_strict prev values :
  document_strings_from prev values = true ->
  StronglySorted str_lt values /\ "" ∉ values /\
  match prev with Some p => Forall (str_lt p) values | None => True end.
Proof.
  revert prev. induction values as [|v values IH]; intros prev; simpl.
  { intros _. split; [constructor|]. split; [apply not_elem_of_nil|]. destruct prev; [constructor|done]. }
  rewrite !andb_true_iff, negb_true_iff. intros [[[Hne Heq] Hp] Hrest].
  apply String.eqb_eq in Heq. rewrite Heq in Hne. apply str_eqb_false in Hne.
  destruct (IH _ Hrest) as (Hs & He & Hf). split; [by constructor|]. split.
  - rewrite not_elem_of_cons. by split.
  - destruct prev as [p|]; [|done]. constructor; [done|]. eapply Forall_impl; [exact Hf|].
    intros x Hx. by transitivity v.
Qed.

Lemma strictDocumentStrings_sorted values :
  strictDocumentStrings values = true -> StronglySorted str_lt values /\ "" ∉ values.
Proof. intros [? [? _]]%document_strings_strict. done. Qed.

Record wf_requirement (r : ProcedureRequirement) : Prop := {
  wr_id : exists hash, rq_ID r = ("req_" ++ hash)%string /\ sha256Pattern hash = true;
  wr_predicates : StronglySorted str_lt (rq_PredicateIDs r)
}.

Record wf_provision (p : ProcedureProvision) : Prop := {
  wp_id : exists hash, pv_ID p = ("prov_" ++ hash)%string /\ sha256Pattern hash = true;
  wp_predicates : StronglySorted str_lt (pv_SuccessPredicateIDs p)
}.

Lemma id_matches_shape id prefix j :
  id_matches id prefix j = true -> exists hash, id = (prefix ++ hash)%string /\ sha256Pattern hash = true.
Proof.
  unfold id_matches. destruct (MarshalAndHash j) as [[c h]|] eqn:E; [|done]. intros ->%String.eqb_eq.
  exists h. split; [done|]. by eapply MarshalAndHash_pattern.
Qed.

Lemma requirements_ok_spec seen prev l :
  requirements_ok seen prev l = true ->
  Forall wf_requirement l /\ StronglySorted str_lt (List.map rq_ID l) /\
  match prev with Some p => Forall (str_lt p) (List.map rq_ID l) | None => True end.
Proof.
  revert seen prev. induction l as [|r l IH]; intros seen prev; simpl.
  { intros _. split; [constructor|]. split; [constructor|]. destruct prev; [constructor|done]. }
  unfold requirement_ok. rewrite !andb_true_iff.
  intros [[_ [[[[[[Hid _] _] _] _] Hpred] Hp]] Hrest].
  destruct (IH _ _ Hrest) as (Hf & Hs & Hlt). split; [|split].
  - constructor; [|done]. split; [by eapply id_matches_shape|]. by apply strictDocumentStrings_sorted.
  - by constructor.
  - destruct prev as [p|]; [|done]. constructor; [done|]. eapply Forall_impl; [exact Hlt|].
    intros x Hx. by transitivity (rq_ID r).
Qed.

Lemma provisions_ok_spec seen prev l :
  provisions_ok seen prev l = true ->
  Forall wf_provision l /\ StronglySorted str_lt (List.map pv_ID l) /\
  match prev with Some p => Forall (str_lt p) (List.map pv_ID l) | None => True end.
Proof.
  revert seen prev. induction l as [|r l IH]; intros seen prev; simpl.
  { intros _. split; [constructor|]. split; [constructor|]. destruct prev; [constructor|done]. }
  unfold provision_ok. rewrite !andb_true_iff.
  intros [[_ [[[[[[Hid _] _] _] _] Hpred] Hp]] Hrest].
  destruct (IH _ _ Hrest) as (Hf & Hs & Hlt). split; [|split].
  - constructor; [|done]. split; [by eapply id_matches_shape|]. by apply strictDocumentStrings_sorted.
  - by constructor.
  - destruct prev as [p|]; [|done]. constructor; [done|]. eapply Forall_impl; [exact Hlt|].
    intros x Hx. by transitivity (pv_ID r).
Qed.

(** A validated interface: identified by its content hash, entries identified
    by theirs, in strictly increasing order of identifiers. *)
Record wf_interface (i : ProcedureInterface) : Prop := {
  wi_hash : sha256Pattern (pi_ContentHash i) = true;
  wi_requirements : Forall wf_requirement (pi_Requirements i);
  wi_requirement_ids : StronglySorted str_lt (List.map rq_ID (pi_Requirements i));
  wi_provisions : Forall wf_provision (pi_Provisions i);
  wi_provision_ids : StronglySorted str_lt (List.map pv_ID (pi_Provisions i))
}.

Lemma ValidateProcedureInterface_wf i : ValidateProcedureInterface i = Ok tt -> wf_interface i.
Proof.
  unfold ValidateProcedureInterface.
  destruct (_ || _) eqn:E1; [done|]. rewrite !orb_false_iff, !negb_false_iff in E1.
  destruct (requirements_ok ∅ None (pi_Requirements i)) eqn:E2; [|done].
  destruct (provisions_ok ∅ None (pi_Provisions i)) eqn:E3; [|done]. intros _.
  apply requirements_ok_spec in E2 as (? & ? & _). apply provisions_ok_spec in E3 as (? & ? & _).
  by constructor; try apply E1.
Qed.

End interfaces.
