(* ===== verification/RetrievalQuery.v ===== *)
(** * Retrieval queries (internal/retrieval/query.go)

    A query is normalized and content-addressed before it is matched.
    [BuildQuery_order] shows that the query does not depend on the order in
    which a caller lists tools, facts, resources and effects,
    [BuildQuery_validates] that it passes [ValidateQuery], and
    [resourceIdentity_confined] that a resource identity never leaves its root.
    [resourceIdentity_drive] is an identity with a drive letter that the check
    for one does not see.

    The conversion from protobuf requests is generated code and is left out. *)

From Stdlib Require Import ZArith String Ascii List Bool Lia.
From stdpp Require Import base gmap strings list sorting.
From S2P Require Import Prelude GoStrings GoTime Canonical Interfaces.

Open Scope Z_scope.
Open Scope go_scope.

Definition querySchemaVersion : string := "retrieval-query.v1".

Definition RiskLow : string := "low".
Definition RiskMedium : string := "medium".
Definition RiskHigh : string := "high".
Definition RiskCritical : string := "critical".

Definition LatencyInteractive : string := "interactive".
Definition LatencyStandard : string := "standard".
Definition LatencyBatch : string := "batch".

Record Tool := mk_Tool { tl_Name : string; tl_ContractVersionID : string }.
Record Harness := mk_Harness { hn_Name : string; hn_Version : string }.
Record Fact := mk_Fact { fc_Name : string; fc_Value : string }.
Record Resource := mk_Resource { qr_Type : string; qr_Namespace : string; qr_Identity : string; qr_SchemaVersion : string }.

Record Input := mk_Input {
  in_Task : string;
  in_Tools : list Tool;
  in_Harness : Harness;
  in_Environment : list Fact;
  in_Resources : list Resource;
  in_Constraints : list Fact;
  in_ForbiddenEffects : list string;
  in_RiskClass : string;
  in_LatencyClass : string;
  in_MaxCandidates : Z
}.

Record AliasSet := mk_AliasSet { al_Tools : gmap string string; al_Resources : gmap string string }.

Record Query := mk_Query {
  qu_SchemaVersion : string;
  qu_TenantID : string;
  qu_PolicyVersion : string;
  qu_Task : string;
  qu_IntentHash : string;
  qu_EffectSignatureHash : string;
  qu_Tools : list Tool;
  qu_Harness : Harness;
  qu_Environment : list Fact;
  qu_EnvironmentHash : string;
  qu_Resources : list Resource;
  qu_Constraints : list Fact;
  qu_ForbiddenEffects : list string;
  qu_RiskClass : string;
  qu_LatencyClass : string;
  qu_MaxCandidates : Z;
  qu_Hash : string;
  qu_CanonicalJSON : string
}.

Definition tool_json (t : Tool) : json := JObj (fstr "name" (tl_Name t) ++ fstr "contract_version_id" (tl_ContractVersionID t)).
Definition harness_json (h : Harness) : json := JObj (fstr "name" (hn_Name h) ++ fstr_omit "version" (hn_Version h)).
Definition fact_json (f : Fact) : json := JObj (fstr "name" (fc_Name f) ++ fstr "value" (fc_Value f)).
Definition resource_json (r : Resource) : json :=
  JObj (fstr "type" (qr_Type r) ++ fstr_omit "namespace" (qr_Namespace r) ++ fstr "identity" (qr_Identity r) ++
        fstr_omit "schema_version" (qr_SchemaVersion r)).

Definition query_json (q : Query) : json :=
  JObj (fstr "schema_version" (qu_SchemaVersion q) ++ fstr "tenant_id" (qu_TenantID q) ++ fstr "policy_version" (qu_PolicyVersion q) ++
        fstr "task" (qu_Task q) ++ fstr "intent_hash" (qu_IntentHash q) ++ fstr_omit "effect_signature_hash" (qu_EffectSignatureHash q) ++
        farr "tools" (List.map tool_json (qu_Tools q)) ++ fld "harness" (harness_json (qu_Harness q)) ++
        farr_omit "environment" (List.map fact_json (qu_Environment q)) ++ fstr "environment_hash" (qu_EnvironmentHash q) ++
        farr_omit "resources" (List.map resource_json (qu_Resources q)) ++ farr_omit "constraints" (List.map fact_json (qu_Constraints q)) ++
        fstrs_omit "forbidden_effects" (qu_ForbiddenEffects q) ++ fstr "risk_class" (qu_RiskClass q) ++
        fstr "latency_class" (qu_LatencyClass q) ++ fnum "max_candidates" (qu_MaxCandidates q)).

Definition validRisk (value : string) : bool :=
  String.eqb value RiskLow || String.eqb value RiskMedium || String.eqb value RiskHigh || String.eqb value RiskCritical.

Definition validLatency (value : string) : bool :=
  String.eqb value LatencyInteractive || String.eqb value LatencyStandard || String.eqb value LatencyBatch.

(** ** Strings and paths *)

(** [strings.ReplaceAll(value, CR LF, LF)] *)
Fixpoint replace_crlf (l : list ascii) : list ascii :=
  match l with
  | a :: ((b :: l'') as l') =>
      if (byte_of a =? 13) && (byte_of b =? 10) then b :: replace_crlf l'' else a :: replace_crlf l'
  | _ => l
  end.

Definition backslash_byte (a : ascii) : bool := byte_of a =? 92.
Definition slash : ascii := ascii_of_nat 47.
Definition colon : ascii := ascii_of_nat 58.

(** [strings.ReplaceAll(value, a backslash, a slash)] *)
Definition to_slash (s : string) : string :=
  string_of_list_ascii (List.map (fun a => if backslash_byte a then slash else a) (list_ascii_of_string s)).

(** The elements of a path between its slashes. *)
Fixpoint split_slash (s : string) : string * list string :=
  match s with
  | EmptyString => (EmptyString, [])
  | String a s =>
      let (first, rest) := split_slash s in
      if Ascii.eqb a slash then (EmptyString, first :: rest) else (String a first, rest)
  end.

Definition path_elements (s : string) : list string := let (first, rest) := split_slash s in first :: rest.

(** [path.Clean]: the lexical rules of its documentation, one element at a
    time; the elements kept so far are in reverse order. *)
Definition clean_step (rooted : bool) (kept : list string) (e : string) : list string :=
  if String.eqb e "" || String.eqb e "." then kept
  else if String.eqb e ".." then
    match kept with
    | [] => if rooted then [] else [".."%string]
    | last :: before => if String.eqb last ".." then ".."%string :: kept else before
    end
  else e :: kept.

Definition clean_elements (s : string) : list string := rev (foldl (clean_step (HasPrefix s "/")) [] (path_elements s)).

Definition Clean (s : string) : string :=
  if HasPrefix s "/" then ("/" ++ join "/" (clean_elements s))%string
  else match clean_elements s with [] => "."%string | l => join "/" l end.

(** The second byte of a string is a colon. *)
Definition drive_letter (s : string) : bool :=
  match s with String _ (String b _) => Ascii.eqb b colon | _ => false end.

(** ** Bindings collected in a map *)

(** A binding agrees with the map: its name is free or has the same value. *)
Definition agrees (m : gmap string string) (k v : string) : bool :=
  match m !! k with Some prior => String.eqb prior v | None => true end.

(** The loops of [normalizeTools], [normalizeFacts] and [normalizeAliases]:
    an invalid or conflicting binding is an error. *)
Fixpoint collect (ok : string -> string -> bool) (m : gmap string string) (l : list (string * string)) : option (gmap string string) :=
  match l with
  | [] => Some m
  | (k, v) :: l => if ok k v && agrees m k v then collect ok (<[k := v]> m) l else None
  end.

(** The entries of a map in the order of their names. *)
Definition sorted_entries (m : gmap string string) : list (string * string) :=
  sort_slice (cmp_ltb (cmp_on fst String.compare)) (map_to_list m).

Definition named (k v : string) : bool := negb (String.eqb k "").
Definition named_value (k v : string) : bool := negb (String.eqb k "") && negb (String.eqb v "").

Section query.
Context `{NFC} `{JCS} `{Digest}.

(** [text(value)]; [strings.TrimFunc(value, unicode.IsSpace)] is [TrimSpace]. *)
Definition text (value : string) : string :=
  TrimSpace (nfc_string (string_of_list_ascii (replace_crlf (list_ascii_of_string value)))).

(** The source iterates over a map, whose order does not matter ([collect_perm]). *)
Definition normalizeAliases (source : gmap string string) : result (gmap string string) :=
  match collect named_value ∅ (List.map (fun kv => (token (fst kv), token (snd kv))) (map_to_list source)) with
  | Some m => Ok m
  | None => Err ErrInvalidQuery
  end.

Definition alias_of (aliases : gmap string string) (name : string) : string := default name (aliases !! name).

Definition normalizeTools (source : list Tool) (aliases : gmap string string) : result (list Tool) :=
  reject count source =? 0 with ErrInvalidQuery;
  match collect named_value ∅ (List.map (fun t => (alias_of aliases (token (tl_Name t)), token (tl_ContractVersionID t))) source) with
  | Some m => Ok (List.map (fun kv => mk_Tool (fst kv) (snd kv)) (sorted_entries m))
  | None => Err ErrInvalidQuery
  end.

Definition normalizeFacts (source : list Fact) : result (list Fact) :=
  match collect named ∅ (List.map (fun f => (token (fc_Name f), text (fc_Value f))) source) with
  | Some m => Ok (List.map (fun kv => mk_Fact (fst kv) (snd kv)) (sorted_entries m))
  | None => Err ErrInvalidQuery
  end.

Definition resourceIdentity (value : string) : result string :=
  let value := to_slash (token value) in
  reject String.eqb value "" || HasPrefix value "/" || drive_letter value with ErrInvalidQuery;
  let cleaned := Clean value in
  reject String.eqb cleaned ".." || HasPrefix cleaned "../" with ErrInvalidQuery;
  Ok cleaned.

Definition resource_key (r : Resource) : string := join nul [qr_Type r; qr_Namespace r; qr_Identity r; qr_SchemaVersion r].

Definition normalize_resource (aliases : gmap string string) (item : Resource) : result Resource :=
  let* identity := resourceIdentity (qr_Identity item) in
  let item := mk_Resource (alias_of aliases (token (qr_Type item))) (token (qr_Namespace item)) identity (token (qr_SchemaVersion item)) in
  reject String.eqb (qr_Type item) "" || String.eqb (qr_Identity item) "" with ErrInvalidQuery;
  Ok item.

Fixpoint normalize_items (aliases : gmap string string) (source : list Resource) : result (list Resource) :=
  match source with
  | [] => Ok []
  | item :: source =>
      let* item := normalize_resource aliases item in
      let* rest := normalize_items aliases source in
      Ok (item :: rest)
  end.

Definition normalizeResources (source : list Resource) (aliases : gmap string string) : result (list Resource) :=
  let* items := normalize_items aliases source in
  let seen := foldl (fun (m : gmap string Resource) item => <[resource_key item := item]> m) ∅ items in
  Ok (sort_slice (cmp_ltb (cmp_on resource_key String.compare)) (List.map snd (map_to_list seen))).

Definition intent_json (task : string) (harness : Harness) : json :=
  JObj (fstr "task" (text task) ++ fstr "harness" (token (hn_Name harness)) ++ fstr_omit "harness_version" (token (hn_Version harness))).

Definition CanonicalIntentHash (taskValue : string) (harnessValue : Harness) : result string :=
  let* (_, hash) := MarshalAndHash (intent_json taskValue harnessValue) in
  Ok hash.

Definition sealed_query (q : Query) (hash canonicalJSON : string) : Query :=
  mk_Query (qu_SchemaVersion q) (qu_TenantID q) (qu_PolicyVersion q) (qu_Task q) (qu_IntentHash q) (qu_EffectSignatureHash q) (qu_Tools q)
    (qu_Harness q) (qu_Environment q) (qu_EnvironmentHash q) (qu_Resources q) (qu_Constraints q) (qu_ForbiddenEffects q)
    (qu_RiskClass q) (qu_LatencyClass q) (qu_MaxCandidates q) hash canonicalJSON.

Definition input_invalid (tenantID policyVersion : string) (input : Input) : bool :=
  String.eqb tenantID "" || String.eqb (token policyVersion) "" || String.eqb (text (in_Task input)) "" ||
  String.eqb (token (hn_Name (in_Harness input))) "" || (in_MaxCandidates input <? 1) || (100 <? in_MaxCandidates input) ||
  negb (validRisk (in_RiskClass input)) || negb (validLatency (in_LatencyClass input)).

Definition BuildQuery (tenantID policyVersion : string) (aliases : AliasSet) (input : Input) : result Query :=
  let* toolAliases := normalizeAliases (al_Tools aliases) in
  let* resourceAliases := normalizeAliases (al_Resources aliases) in
  let harness := mk_Harness (token (hn_Name (in_Harness input))) (token (hn_Version (in_Harness input))) in
  let task := text (in_Task input) in
  reject input_invalid tenantID policyVersion input with ErrInvalidQuery;
  let* tools := normalizeTools (in_Tools input) toolAliases in
  let* environment := normalizeFacts (in_Environment input) in
  let* (_, environmentHash) := MarshalAndHash (JArr (List.map fact_json environment)) in
  let* constraints := normalizeFacts (in_Constraints input) in
  let* resources := normalizeResources (in_Resources input) resourceAliases in
  let* forbidden := normalizeSet (in_ForbiddenEffects input) in
  let* intentHash := CanonicalIntentHash task harness in
  let query := mk_Query querySchemaVersion tenantID (token policyVersion) task intentHash "" tools harness environment environmentHash
    resources constraints forbidden (in_RiskClass input) (in_LatencyClass input) (in_MaxCandidates input) "" "" in
  let* (canonicalJSON, hash) := MarshalAndHash (query_json query) in
  Ok (sealed_query query hash canonicalJSON).

Definition ValidateQuery (query : Query) : result unit :=
  match MarshalAndHash (query_json (sealed_query query "" "")) with
  | Ok (canonicalJSON, hash) =>
      reject negb (String.eqb (qu_Hash query) hash) || negb (String.eqb (qu_CanonicalJSON query) canonicalJSON) with ErrInvalidQuery;
      Ok tt
  | Err _ => Err ErrInvalidQuery
  end.

Definition with_signature (q : Query) (signature : string) : Query :=
  mk_Query (qu_SchemaVersion q) (qu_TenantID q) (qu_PolicyVersion q) (qu_Task q) (qu_IntentHash q) signature (qu_Tools q)
    (qu_Harness q) (qu_Environment q) (qu_EnvironmentHash q) (qu_Resources q) (qu_Constraints q) (qu_ForbiddenEffects q)
    (qu_RiskClass q) (qu_LatencyClass q) (qu_MaxCandidates q) "" "".

Definition BindEffectSignature (query : Query) (effectSignatureHash : string) : result Query :=
  reject failed (ValidateQuery query) || negb (sha256Pattern (TrimSpace effectSignatureHash)) with ErrInvalidQuery;
  let query := with_signature query (TrimSpace effectSignatureHash) in
  let* (canonicalJSON, hash) := MarshalAndHash (query_json query) in
  Ok (sealed_query query hash canonicalJSON).
End query.

(** ** Paths *)
Definition no_slash (e : string) : Prop := slash ∉ list_ascii_of_string e.

(** An element that [path.Clean] keeps. *)
Definition proper (e : string) : Prop := e <> ""%string /\ e <> "."%string /\ e <> ".."%string /\ no_slash e.

Lemma slash_join a es : join "/" (a :: es) = match es with [] => a | _ => (a ++ String slash (join "/" es))%string end.
Proof. destruct es; reflexivity. Qed.

Lemma path_elements_slash e s : no_slash e -> path_elements (e ++ String slash s) = e :: path_elements s.
Proof.
  unfold no_slash, path_elements. induction e as [|a e IH]; intros Hn.
  - change ("" ++ String slash s)%string with (String slash s). cbn [split_slash]. destruct (split_slash s). by rewrite Ascii.eqb_refl.
  - cbn in Hn. apply not_elem_of_cons in Hn as [Ha Hn]. specialize (IH Hn).
    change (String a e ++ String slash s)%string with (String a (e ++ String slash s)). cbn [split_slash].
    destruct (split_slash (e ++ String slash s)) as [f r]. injection IH as -> ->.
    rewrite (proj2 (Ascii.eqb_neq a slash)) by done. done.
Qed.

Lemma path_elements_single e : no_slash e -> path_elements e = [e].
Proof.
  unfold no_slash, path_elements. induction e as [|a e IH]; intros Hn; [done|]. cbn in Hn. apply not_elem_of_cons in Hn as [Ha Hn].
  specialize (IH Hn). cbn [split_slash]. destruct (split_slash e) as [f r]. injection IH as -> ->.
  by rewrite (proj2 (Ascii.eqb_neq a slash)) by done.
Qed.

Lemma path_elements_join es : es <> [] -> Forall no_slash es -> path_elements (join "/" es) = es.
Proof.
  induction es as [|e es IH]; intros Hne Hf; [done|]. inversion Hf; subst. rewrite slash_join. destruct es as [|e' es].
  - by apply path_elements_single.
  - rewrite path_elements_slash by done. by rewrite IH.
Qed.

Lemma path_elements_no_slash s : Forall no_slash (path_elements s).
Proof.
  unfold path_elements. induction s as [|a s IH]; [by repeat constructor; apply not_elem_of_nil|]. cbn [split_slash].
  destruct (split_slash s) as [f r]. inversion IH as [|? ? Hf Hr]; subst. destruct (Ascii.eqb a slash) eqn:E.
  - constructor; [apply not_elem_of_nil|done].
  - constructor; [|done]. unfold no_slash. cbn. apply not_elem_of_cons. split; [|done]. apply Ascii.eqb_neq in E. congruence.
Qed.

(** What is kept of a relative path: parent elements, then proper ones. *)
Lemma clean_steps es kept :
  Forall no_slash es -> (exists ks n, kept = ks ++ repeat ".."%string n /\ Forall proper ks) ->
  exists ks n, foldl (clean_step false) kept es = ks ++ repeat ".."%string n /\ Forall proper ks.
Proof.
  revert kept. induction es as [|e es IH]; intros kept Hf Hk; [done|]. inversion Hf as [|? ? He Hes]; subst. cbn [foldl]. apply IH; [done|].
  destruct Hk as (ks & n & -> & Hp). unfold clean_step. destruct (String.eqb_spec e "") as [|H1]; [by exists ks, n|].
  destruct (String.eqb_spec e ".") as [|H2]; [by exists ks, n|]. cbn [orb]. destruct (String.eqb_spec e "..") as [->|H3].
  - destruct ks as [|k ks]; cbn [app].
    + destruct n as [|n]; cbn [repeat]; [by exists [], 1%nat|]. by exists [], (S (S n)).
    + inversion Hp as [|? ? (_ & _ & Hk & _) Hks]; subst. apply String.eqb_neq in Hk. rewrite Hk. by exists ks, n.
  - exists (e :: ks), n. split; [done|]. by constructor.
Qed.

Lemma clean_elements_relative s :
  HasPrefix s "/" = false -> exists n ks, clean_elements s = repeat ".."%string n ++ ks /\ Forall proper ks.
Proof.
  intros Hs. unfold clean_elements. rewrite Hs. destruct (clean_steps (path_elements s) []) as (ks & n & -> & Hp).
  - apply path_elements_no_slash.
  - by exists [], 0%nat.
  - exists n, (rev ks). rewrite rev_app_distr. split; [|by apply Forall_rev]. f_equal. clear.
    induction n as [|n IH]; [done|]. cbn [repeat rev]. rewrite IH. clear. induction n as [|n IH]; [done|]. cbn [repeat app]. by rewrite IH.
Qed.

Lemma clean_proper es kept : Forall proper es -> foldl (clean_step false) kept es = rev es ++ kept.
Proof.
  revert kept. induction es as [|e es IH]; intros kept Hf; [done|]. inversion Hf as [|? ? (H1 & H2 & H3 & _) Hes]; subst. cbn [foldl rev].
  apply String.eqb_neq in H1, H2, H3. unfold clean_step at 2. rewrite H1, H2, H3, IH by done. cbn [orb]. by rewrite <- app_assoc.
Qed.

Lemma HasPrefix_slash_join es : es <> [] -> Forall proper es -> HasPrefix (join "/" es) "/" = false.
Proof.
  destruct es as [|e es]; [done|]. intros _ Hf. inversion Hf as [|? ? (Hne & _ & _ & Hn) _]; subst.
  destruct e as [|a e]; [done|]. rewrite slash_join. unfold HasPrefix, no_slash in *. cbn in Hn. apply not_elem_of_cons in Hn as [Ha _].
  assert (Hs : forall t, String.eqb (str_take (String.length "/") (String a t)) "/" = false).
  { intros t. cbn. destruct (Ascii.eqb_spec a "/"%char) as [->|]; [by destruct Ha|done]. }
  destruct es; [apply Hs|]. apply (Hs (e ++ _)%string).
Qed.

Lemma Clean_join es : es <> [] -> Forall proper es -> Clean (join "/" es) = join "/" es.
Proof.
  intros Hne Hf. unfold Clean, clean_elements. rewrite HasPrefix_slash_join by done. rewrite path_elements_join; [|done|].
  - rewrite clean_proper, app_nil_r, rev_involutive by done. by destruct es.
  - eapply Forall_impl; [exact Hf|]. by intros e (_ & _ & _ & ?).
Qed.

Section confined.
Context `{NFC}.

(** A relative path that does not start with the parent directory once it is
    clean stays within its root. *)
Lemma Clean_confined v :
  HasPrefix v "/" = false -> Clean v <> ".."%string -> HasPrefix (Clean v) "../" = false ->
  (Clean v = "."%string \/ Forall proper (path_elements (Clean v))) /\ HasPrefix (Clean v) "/" = false /\ Clean (Clean v) = Clean v.
Proof.
  intros Hroot H1 H2. destruct (clean_elements_relative v Hroot) as (n & ks & Hc & Hp).
  assert (Hcl : Clean v = match repeat ".."%string n ++ ks with [] => "."%string | l => join "/" l end)
    by (unfold Clean; by rewrite Hroot, Hc).
  rewrite Hcl in *. clear Hcl Hc. destruct n as [|n].
  - cbn [repeat app] in *. destruct ks as [|k ks]; [by split; [left|]|]. split; [right|].
    + rewrite path_elements_join; [done..|]. eapply Forall_impl; [exact Hp|]. by intros e (_ & _ & _ & ?).
    + split; [by apply HasPrefix_slash_join|by apply Clean_join].
  - exfalso. cbn [repeat app] in *. destruct (repeat ".."%string n ++ ks) as [|x l]; [done|]. rewrite slash_join in H2. discriminate H2.
Qed.

(** A resource identity never leaves its root: it is the root itself or a
    relative path of proper elements (none is empty, the current or the parent
    directory), which is its own clean form. *)
Theorem resourceIdentity_confined (value identity : string) :
  resourceIdentity value = Ok identity ->
  (identity = "."%string \/ Forall proper (path_elements identity)) /\ HasPrefix identity "/" = false /\ Clean identity = identity.
Proof.
  unfold resourceIdentity. set (v := to_slash (token value)). destruct (_ || drive_letter v) eqn:E1; [done|].
  apply orb_false_iff in E1 as [[_ Hroot]%orb_false_iff _]. destruct (_ || _) eqn:E2; [done|]. intros [= <-].
  apply orb_false_iff in E2 as [H1%String.eqb_neq H2]. by apply Clean_confined.
Qed.
End confined.

(** ** The order of the input *)
Lemma collect_perm ok l l' : l ≡ₚ l' -> forall m, collect ok m l = collect ok m l'.
Proof.
  induction 1 as [|[k v] l l' _ IH|[k v] [k' v'] l|l1 l2 l3 _ IH1 _ IH2]; intros m; cbn [collect].
  - done.
  - destruct (ok k v && agrees m k v); [apply IH|done].
  - destruct (ok k v) eqn:E, (ok k' v') eqn:E'; cbn [andb]; [|by repeat case_match..].
    unfold agrees. destruct (decide (k = k')) as [->|Hne].
    + rewrite !lookup_insert_eq. destruct (String.eqb_spec v v') as [->|Hv]; [by rewrite str_eqb_refl|].
      rewrite (proj2 (String.eqb_neq v' v)) by done. by repeat case_match.
    + rewrite !lookup_insert_ne by done. destruct (m !! k) as [p|], (m !! k') as [p'|]; repeat case_match; try done; by rewrite insert_insert_ne.
  - by rewrite IH1, IH2.
Qed.

Lemma insert_all_perm {A} (key : A -> string) (l l' : list A) : l ≡ₚ l' -> (forall x y, x ∈ l -> y ∈ l -> key x = key y -> x = y) ->
  forall m : gmap string A, foldl (fun m x => <[key x := x]> m) m l = foldl (fun m x => <[key x := x]> m) m l'.
Proof.
  induction 1 as [|x l l' _ IH|x y l|l1 l2 l3 Hp IH1 _ IH2]; intros Hi m; cbn [foldl].
  - done.
  - apply IH. intros a b Ha Hb. apply Hi; by right.
  - destruct (decide (key x = key y)) as [Hk|Hk].
    + rewrite (Hi x y); [done|right; left|left|done].
    + by rewrite insert_insert_ne.
  - rewrite IH1 by done. apply IH2. intros a b Ha Hb. apply Hi; by rewrite Hp.
Qed.

Section order.
Context `{NFC} `{JCS} `{Digest}.

Lemma normalizeTools_perm aliases l l' : l ≡ₚ l' -> normalizeTools l aliases = normalizeTools l' aliases.
Proof using. intros Hp. unfold normalizeTools, count. rewrite (Permutation_length Hp). erewrite collect_perm; [done|]. by apply Permutation_map. Qed.

Lemma normalizeFacts_perm l l' : l ≡ₚ l' -> normalizeFacts l = normalizeFacts l'.
Proof using. intros Hp. unfold normalizeFacts. erewrite collect_perm; [done|]. by apply Permutation_map. Qed.

Lemma normalizeSet_perm l l' : l ≡ₚ l' -> normalizeSet l = normalizeSet l'.
Proof using.
  intros Hp. unfold normalizeSet. assert (Hm : List.map token l ≡ₚ List.map token l') by (by apply Permutation_map).
  assert (He : existsb (fun v => String.eqb v "") (List.map token l) = existsb (fun v => String.eqb v "") (List.map token l')).
  { apply eq_true_iff_eq. rewrite !existsb_exists. by setoid_rewrite Hm. }
  rewrite He. replace (list_to_set (List.map token l) : gset string) with (list_to_set (List.map token l') : gset string); [done|].
  apply set_eq. intros x. by rewrite !elem_of_list_to_set, Hm.
Qed.

Lemma normalize_resource_err aliases r e : normalize_resource aliases r = Err e -> e = ErrInvalidQuery.
Proof using.
  unfold normalize_resource, resourceIdentity. destruct (_ || _); [by intros [= <-]|]. destruct (_ || _); [by intros [= <-]|].
  cbn [bind]. destruct (_ || _); [by intros [= <-]|done].
Qed.

Lemma normalize_items_err aliases l e : normalize_items aliases l = Err e -> e = ErrInvalidQuery.
Proof using.
  revert e. induction l as [|z l IH]; intros e; cbn [normalize_items]; [done|].
  destruct (normalize_resource aliases z) eqn:Ez; cbn [bind]; [|intros [= <-]; by apply normalize_resource_err in Ez].
  destruct (normalize_items aliases l); cbn [bind]; [done|]. intros [= <-]. by apply IH.
Qed.

Lemma normalize_items_perm aliases l l' : l ≡ₚ l' ->
  match normalize_items aliases l, normalize_items aliases l' with
  | Ok items, Ok items' => items ≡ₚ items'
  | Err e, Err e' => e = ErrInvalidQuery /\ e' = ErrInvalidQuery
  | _, _ => False
  end.
Proof using.
  induction 1 as [|x l l' _ IH|x y l|l1 l2 l3 _ IH1 _ IH2]; cbn [normalize_items].
  - done.
  - destruct (normalize_resource aliases x) eqn:Ex; cbn [bind]; [|by apply normalize_resource_err in Ex as ->].
    destruct (normalize_items aliases l), (normalize_items aliases l'); cbn [bind]; [by constructor|done..].
  - destruct (normalize_resource aliases x) eqn:Ex, (normalize_resource aliases y) eqn:Ey; cbn [bind];
      try apply normalize_resource_err in Ex as ->; try apply normalize_resource_err in Ey as ->; try done.
    destruct (normalize_items aliases l) as [r|e] eqn:El; cbn [bind]; [constructor|]. by apply normalize_items_err in El.
  - destruct (normalize_items aliases l1), (normalize_items aliases l2), (normalize_items aliases l3); try done; [by etrans|by destruct IH1, IH2].
Qed.

(** A resource whose key determines it: no NUL byte before the schema version. *)
Definition clean_resource (r : Resource) : Prop :=
  has_nul (qr_Type r) = false /\ has_nul (qr_Namespace r) = false /\ has_nul (qr_Identity r) = false.

Lemma resource_key_inj r r' : clean_resource r -> clean_resource r' -> resource_key r = resource_key r' -> r = r'.
Proof using.
  destruct r, r'. unfold clean_resource, resource_key. cbn. intros (? & ? & ?) (? & ? & ?) Hk.
  do 3 (apply nul_join_inj in Hk as [-> Hk]; [|done..]). by rewrite Hk.
Qed.

Lemma normalize_items_elem aliases l items item :
  normalize_items aliases l = Ok items -> item ∈ items -> exists r, r ∈ l /\ normalize_resource aliases r = Ok item.
Proof using.
  revert items. induction l as [|r l IH]; intros items Hn Hin; cbn [normalize_items] in Hn.
  { injection Hn as <-. by apply not_elem_of_nil in Hin. }
  apply bind_Ok in Hn as (x & Hx & Hn). apply bind_Ok in Hn as (rest & Hr & [= <-]). apply elem_of_cons in Hin as [->|Hin].
  - exists r. split; [left|done].
  - destruct (IH _ Hr Hin) as (r' & ? & ?). exists r'. split; [by right|done].
Qed.

Lemma normalizeResources_perm aliases l l' :
  l ≡ₚ l' -> (forall r item, r ∈ l -> normalize_resource aliases r = Ok item -> clean_resource item) ->
  normalizeResources l aliases = normalizeResources l' aliases.
Proof using.
  intros Hp Hc. unfold normalizeResources. pose proof (normalize_items_perm aliases l l' Hp) as Hi.
  destruct (normalize_items aliases l) as [items|e] eqn:El, (normalize_items aliases l') as [items'|e'];
    [|done|done|by destruct Hi as [-> ->]]. cbn [bind].
  rewrite (insert_all_perm resource_key items items' Hi); [done|].
  intros x y Hx Hy. apply resource_key_inj; [destruct (normalize_items_elem _ _ _ _ El Hx) as (r & Hr & Hn)|
    destruct (normalize_items_elem _ _ _ _ El Hy) as (r & Hr & Hn)]; by apply (Hc r).
Qed.

(** The same input, with its lists in another order. *)
Record reordered_input (i i' : Input) : Prop := mk_reordered_input {
  ri_Task : in_Task i = in_Task i';
  ri_Tools : in_Tools i ≡ₚ in_Tools i';
  ri_Harness : in_Harness i = in_Harness i';
  ri_Environment : in_Environment i ≡ₚ in_Environment i';
  ri_Resources : in_Resources i ≡ₚ in_Resources i';
  ri_Constraints : in_Constraints i ≡ₚ in_Constraints i';
  ri_ForbiddenEffects : in_ForbiddenEffects i ≡ₚ in_ForbiddenEffects i';
  ri_RiskClass : in_RiskClass i = in_RiskClass i';
  ri_LatencyClass : in_LatencyClass i = in_LatencyClass i';
  ri_MaxCandidates : in_MaxCandidates i = in_MaxCandidates i'
}.

(** The normalized resources of an input, with the normalized aliases. *)
Definition clean_input (aliases : AliasSet) (input : Input) : Prop :=
  forall m r item, normalizeAliases (al_Resources aliases) = Ok m -> r ∈ in_Resources input -> normalize_resource m r = Ok item -> clean_resource item.

(** The query of an input, its hash and errors included, does not depend on the
    order of tools, facts, resources, constraints and forbidden effects. *)
Theorem BuildQuery_order tenantID policyVersion aliases input input' :
  reordered_input input input' -> clean_input aliases input ->
  BuildQuery tenantID policyVersion aliases input = BuildQuery tenantID policyVersion aliases input'.
Proof using.
  intros [Ht Htools Hh He Hr Hcs Hf Hrisk Hlat Hmax] Hclean. unfold BuildQuery, input_invalid. rewrite Ht, Hh, Hrisk, Hlat, Hmax.
  destruct (normalizeAliases (al_Tools aliases)) as [ta|]; [|done]. destruct (normalizeAliases (al_Resources aliases)) as [ra|] eqn:Ea; [|done].
  cbn [bind]. destruct (_ || _); [done|].
  rewrite (normalizeTools_perm ta _ _ Htools), (normalizeFacts_perm _ _ He), (normalizeFacts_perm _ _ Hcs), (normalizeSet_perm _ _ Hf).
  rewrite (normalizeResources_perm ra _ _ Hr); [done|]. intros r item. by apply Hclean.
Qed.

Lemma sealed_valid q c h :
  MarshalAndHash (query_json q) = Ok (c, h) -> qu_Hash q = ""%string -> qu_CanonicalJSON q = ""%string -> ValidateQuery (sealed_query q h c) = Ok tt.
Proof using.
  destruct q. intros Hm Hh Hc. cbn in Hh, Hc. subst. unfold ValidateQuery, sealed_query in *. cbn in *. rewrite Hm. by rewrite !str_eqb_refl.
Qed.

(** A query that is built passes its validator, and so does a query bound to an
    effect signature, which keeps everything else. *)
Theorem BuildQuery_validates tenantID policyVersion aliases input q signature q' :
  BuildQuery tenantID policyVersion aliases input = Ok q -> BindEffectSignature q signature = Ok q' ->
  ValidateQuery q = Ok tt /\ ValidateQuery q' = Ok tt /\ qu_EffectSignatureHash q' = TrimSpace signature /\
  sha256Pattern (TrimSpace signature) = true /\ sealed_query (with_signature q' "") (qu_Hash q) (qu_CanonicalJSON q) = q.
Proof using.
  intros Hb Hs. unfold BuildQuery in Hb. inv_Ok Hb. injection Hb as <-. unfold BindEffectSignature in Hs.
  destruct (_ || negb (sha256Pattern _)) eqn:Ebind; [done|]. apply orb_false_iff in Ebind as [Hv Hp%negb_false_iff]. inv_Ok Hs. injection Hs as <-.
  split_and!; [by apply sealed_valid..|done|done|done].
Qed.
End order.

Section query_demo.
#[local] Existing Instance copy_nfc.
#[local] Existing Instance copy_jcs.
#[local] Existing Instance checksum_digest.

(** The check for a drive letter is made before the path is cleaned. *)
Example resourceIdentity_drive : resourceIdentity "C:/x" = Err ErrInvalidQuery /\ resourceIdentity "./C:/x" = Ok "C:/x"%string.
Proof. split; vm_compute; reflexivity. Qed.

Lemma resourceIdentity_confined_witness :
  Clean "src/lib.go" = "src/lib.go"%string /\ resourceIdentity "./src/x/..//lib.go" = Ok "src/lib.go"%string.
Proof.
  assert (Hr : resourceIdentity "./src/x/..//lib.go" = Ok "src/lib.go"%string) by (vm_compute; reflexivity).
  split; [|exact Hr]. exact (proj2 (proj2 (resourceIdentity_confined _ _ Hr))).
Defined.

Definition demo_input (facts : list Fact) (resources : list Resource) : Input :=
  mk_Input "fix the build" [mk_Tool "git" "tcv_1"; mk_Tool "go" "tcv_2"] (mk_Harness "cli" "") facts resources [] ["delete"%string]
    RiskLow LatencyStandard 10.

Definition input_1 : Input :=
  demo_input [mk_Fact "os" "linux"; mk_Fact "arch" "arm"] [mk_Resource "file" "" "a/b" ""; mk_Resource "dir" "fs" "c" "1"].
Definition input_2 : Input :=
  demo_input [mk_Fact "arch" "arm"; mk_Fact "os" "linux"] [mk_Resource "dir" "fs" "c" "1"; mk_Resource "file" "" "a/b" ""].

Definition no_aliases : AliasSet := mk_AliasSet ∅ ∅.

Lemma BuildQuery_order_witness :
  BuildQuery "tenant" "p1" no_aliases input_1 = BuildQuery "tenant" "p1" no_aliases input_2 /\
  is_ok (BuildQuery "tenant" "p1" no_aliases input_1) = true.
Proof.
  split; [|vm_compute; reflexivity]. apply BuildQuery_order.
  - split; try reflexivity; apply perm_swap.
  - intros m r item Hm Hin Hn. vm_compute in Hm. injection Hm as <-.
    apply elem_of_cons in Hin as [->|Hin]; [|apply list_elem_of_singleton in Hin as ->]; vm_compute in Hn; injection Hn as <-;
      split_and!; vm_compute; reflexivity.
Defined.

Definition query_or (r : result Query) : Query :=
  match r with
  | Ok q => q
  | Err _ => mk_Query "" "" "" "" "" "" [] (mk_Harness "" "") [] "" [] [] [] "" "" 0 "" ""
  end.

Definition demo_query : Query := Eval vm_compute in query_or (BuildQuery "tenant" "p1" no_aliases input_1).
Definition demo_signature : string := Eval vm_compute in checksum_hex "effects".
Definition bound_query : Query := Eval vm_compute in query_or (BindEffectSignature demo_query demo_signature).

Lemma BuildQuery_validates_witness : ValidateQuery bound_query = Ok tt.
Proof.
  assert (Hb : BuildQuery "tenant" "p1" no_aliases input_1 = Ok demo_query) by (vm_compute; reflexivity).
  assert (Hs : BindEffectSignature demo_query demo_signature = Ok bound_query) by (vm_compute; reflexivity).
  exact (proj1 (proj2 (BuildQuery_validates _ _ _ _ _ _ _ Hb Hs))).
Defined.
End query_demo.
