(* ===== verification/Trace.v ===== *)
(** * Canonical traces (internal/canonical, internal/contracts)

    [Build] turns a request of the ingest interface into a canonical batch:
    trimmed and normalized text, fields sorted by name, relative paths, and
    identifiers that are digests of the contents.  [VerifyBatch] checks a batch
    that was read back from an archive.  [Canonicalize] does the same for a
    request that reports an outcome.

    The messages are those of src/proto; a pointer that may be nil is an
    [option], and a getter of a nil message reads the empty message.
    google.golang.org/protobuf and buf.build/go/protovalidate are parameters
    ([Protobuf]): the size of a message, whether it meets the rules of its
    schema, and the time of a timestamp.

    [Build_verifies] and [Canonicalize_verifies] show that what was built passes
    the check that a reader makes, [Build_confined] that no path of a batch
    leaves its root, and [Build_order] that a batch does not depend on the order
    in which the fields are given. *)

From Stdlib Require Import ZArith String Ascii List Bool Lia.
From stdpp Require Import base gmap strings list sorting.
From S2P Require Import Prelude GoStrings GoTime Canonical Domain Evidence RetrievalQuery.

Open Scope Z_scope.
Open Scope go_scope.

(** ** Messages *)
Record Field := mk_Field { fd_Name : string; fd_StringValue : string }.
Record Timestamp := mk_Timestamp { ts_Seconds : Z; ts_Nanos : Z }.

Record ToolResult := mk_ToolResult { tl_State : Z; tl_ExitCode : option Z; tl_Evidence : list (option Field) }.

Record TraceEvent := mk_TraceEvent {
  ev_ClientEventId : string;
  ev_OccurredAt : option Timestamp;
  ev_Kind : Z;
  ev_ToolName : string;
  ev_ToolVersion : string;
  ev_Fields : list (option Field);
  ev_Result : option ToolResult
}.

Record IngestTraceRequest := mk_IngestTraceRequest {
  ir_ClientTraceId : string;
  ir_Harness : string;
  ir_HarnessVersion : string;
  ir_Task : string;
  ir_Events : list (option TraceEvent);
  ir_Environment : list (option Field)
}.

Record EvidenceMessage := mk_EvidenceMessage {
  em_ClientEvidenceId : string;
  em_Class : Z;
  em_Verdict : Z;
  em_PredicateId : string;
  em_VerifierId : string;
  em_VerifierVersion : string;
  em_ObservedAt : option Timestamp;
  em_Fields : list (option Field)
}.

Record RecordOutcomeRequest := mk_RecordOutcomeRequest {
  or_TraceId : string;
  or_ExecutionId : string;
  or_SelectionId : string;
  or_SupersedesOutcomeId : string;
  or_CorrectionReason : string;
  or_Evidence : list (option EvidenceMessage);
  or_InjectionId : string;
  or_TaskExecutionId : string
}.

(** What the getters of a nil message read. *)
Definition nil_event : TraceEvent := mk_TraceEvent "" None 0 "" "" [] None.
Definition nil_evidence : EvidenceMessage := mk_EvidenceMessage "" 0 0 "" "" "" None [].

Class Protobuf := {
  size_ingest : IngestTraceRequest -> Z;
  rules_ingest : IngestTraceRequest -> bool;
  size_outcome : RecordOutcomeRequest -> Z;
  rules_outcome : RecordOutcomeRequest -> bool;
  check_valid : option Timestamp -> bool;
  as_time : option Timestamp -> gotime
}.

(** The name of an enum's number, or the number where it has none. *)
Definition enum_string (names : list (Z * string)) (value : Z) : string :=
  match List.find (fun n => fst n =? value) names with Some (_, name) => name | None => num_string value end.

Definition EventKind_name : list (Z * string) :=
  [(0, "EVENT_KIND_UNSPECIFIED"); (1, "EVENT_KIND_READ"); (2, "EVENT_KIND_WRITE"); (3, "EVENT_KIND_SEARCH"); (4, "EVENT_KIND_EXECUTE");
   (5, "EVENT_KIND_VERIFY"); (6, "EVENT_KIND_OTHER")]%string.

Definition ToolResultState_name : list (Z * string) :=
  [(0, "TOOL_RESULT_STATE_UNSPECIFIED"); (1, "TOOL_RESULT_STATE_SUCCESS"); (2, "TOOL_RESULT_STATE_FAILURE"); (3, "TOOL_RESULT_STATE_UNKNOWN")]%string.

(** ** Encodings (domain/trace.go) *)
Definition result_json (r : CanonicalResult) : json :=
  JObj (fstr "state" (cr_State r) ++ match cr_ExitCode r with Some c => fnum "exit_code" c | None => [] end ++
        farr_omit "evidence" (List.map field_json (cr_Evidence r))).

Definition event_json (e : CanonicalEvent) : json :=
  JObj (fstr "id" (cn_ID e) ++ fnum "position" (cn_Position e) ++ fstr "client_event_id" (cn_ClientEventID e) ++ fstr "occurred_at" (cn_OccurredAt e) ++
        fstr "kind" (cn_Kind e) ++ fstr "tool_name" (cn_ToolName e) ++ fstr_omit "tool_version" (cn_ToolVersion e) ++
        farr_omit "fields" (List.map field_json (cn_Fields e)) ++ match cn_Result e with Some r => fld "result" (result_json r) | None => [] end).

Definition trace_json (t : CanonicalTrace) : json :=
  JObj (fstr "id" (tr_ID t) ++ fstr "client_trace_id" (tr_ClientTraceID t) ++ fstr "harness" (tr_Harness t) ++
        fstr_omit "harness_version" (tr_HarnessVersion t) ++ fstr_omit "task" (tr_Task t) ++
        farr_omit "environment" (List.map field_json (tr_Environment t))).

Definition batch_json (b : CanonicalBatch) : json :=
  JObj (fstr "schema_version" (cb_SchemaVersion b) ++ fstr "tenant_id" (cb_TenantID b) ++ fld "trace" (trace_json (cb_Trace b)) ++
        farr "events" (List.map event_json (cb_Events b))).

Definition traceIdentity_json (tenantID : string) (t : CanonicalTrace) : json := JObj (fstr "tenant_id" tenantID ++ fld "trace" (trace_json t)).

Definition eventIdentity_json (tenantID traceID : string) (position : Z) (e : CanonicalEvent) : json :=
  JObj (fstr "tenant_id" tenantID ++ fstr "trace_id" traceID ++ fnum "position" position ++ fld "event" (event_json e)).

Definition trace_with_id (id : string) (t : CanonicalTrace) : CanonicalTrace :=
  mk_CanonicalTrace id (tr_ClientTraceID t) (tr_Harness t) (tr_HarnessVersion t) (tr_Task t) (tr_Environment t).

Definition event_with_id (id : string) (e : CanonicalEvent) : CanonicalEvent :=
  mk_CanonicalEvent id (cn_Position e) (cn_ClientEventID e) (cn_OccurredAt e) (cn_Kind e) (cn_ToolName e) (cn_ToolVersion e) (cn_Fields e) (cn_Result e).

Definition field_cmp : CanonicalField -> CanonicalField -> comparison := cmp_lex (cmp_on cf_Name String.compare) (cmp_on cf_Value String.compare).

Definition sort_fields : list CanonicalField -> list CanonicalField := sort_slice (cmp_ltb field_cmp).

Definition maxIngestRequestBytes : Z := 1048576.
Definition maxOutcomeRequestBytes : Z := 1048576.
Definition schemaVersion : string := "canonical.v1".

Section canonical.
Context `{NFC} `{JCS} `{Digest} `{Protobuf}.

(** [canonicalToken], [normalizeToken] and [normalizeText] *)
Definition normalizeToken (value : string) : string := nfc_string (TrimSpace value).
Definition normalizeText (value : string) : string :=
  nfc_string (TrimSpace (string_of_list_ascii (replace_crlf (list_ascii_of_string value)))).

(** ** Validation of requests (contracts/validate.go) *)
Fixpoint validate_events (seen : gset string) (events : list (option TraceEvent)) : result unit :=
  match events with
  | [] => Ok tt
  | event :: events =>
      let event := default nil_event event in
      let id := normalizeToken (ev_ClientEventId event) in
      reject String.eqb id "" with ErrViolation;
      reject String.eqb (normalizeToken (ev_ToolName event)) "" with ErrViolation;
      reject bool_decide (id ∈ seen) with ErrViolation;
      validate_events ({[id]} ∪ seen) events
  end.

Definition ValidateIngest (request : option IngestTraceRequest) : result unit :=
  match request with
  | None => Err ErrViolation
  | Some request =>
      reject maxIngestRequestBytes <? size_ingest request with ErrViolation;
      reject negb (rules_ingest request) with ErrProtoRules;
      reject String.eqb (normalizeToken (ir_ClientTraceId request)) "" with ErrViolation;
      reject String.eqb (normalizeToken (ir_Harness request)) "" with ErrViolation;
      validate_events ∅ (ir_Events request)
  end.

Fixpoint validate_evidence (seen : gset string) (facts : list (option EvidenceMessage)) : result unit :=
  match facts with
  | [] => Ok tt
  | fact :: facts =>
      let fact := default nil_evidence fact in
      let id := normalizeToken (em_ClientEvidenceId fact) in
      reject String.eqb id "" with ErrViolation;
      reject bool_decide (id ∈ seen) with ErrViolation;
      reject String.eqb (normalizeToken (em_PredicateId fact)) "" with ErrViolation;
      reject String.eqb (normalizeToken (em_VerifierId fact)) "" with ErrViolation;
      validate_evidence ({[id]} ∪ seen) facts
  end.

Definition ValidateOutcome (request : option RecordOutcomeRequest) : result unit :=
  match request with
  | None => Err ErrViolation
  | Some request =>
      reject maxOutcomeRequestBytes <? size_outcome request with ErrViolation;
      reject negb (rules_outcome request) with ErrProtoRules;
      reject String.eqb (normalizeToken (or_TraceId request)) "" with ErrViolation;
      reject negb (String.eqb (or_SupersedesOutcomeId request) "") && String.eqb (normalizeToken (or_CorrectionReason request)) "" with ErrViolation;
      reject String.eqb (or_SupersedesOutcomeId request) "" && negb (String.eqb (normalizeToken (or_CorrectionReason request)) "") with ErrViolation;
      validate_evidence ∅ (or_Evidence request)
  end.

(** ** Canonical traces (canonical/normalize.go) *)
Definition normalizePath (value : string) : result string :=
  let normalized := to_slash (nfc_string (TrimSpace value)) in
  reject HasPrefix normalized "/" with ErrUnnormalized;
  let normalized := Clean normalized in
  reject String.eqb normalized ".." || HasPrefix normalized "../" with ErrUnnormalized;
  Ok normalized.

(** The loop of [normalizeFields]; [seen] are the names so far. *)
Fixpoint normalize_from (seen : gset string) (source : list (option Field)) : result (list CanonicalField) :=
  match source with
  | [] => Ok []
  | None :: _ => Err ErrUnnormalized
  | Some item :: source =>
      let name := normalizeToken (fd_Name item) in
      reject bool_decide (name ∈ seen) with ErrUnnormalized;
      let value := nfc_string (fd_StringValue item) in
      let* value := (if String.eqb name "path" then normalizePath value else Ok value) in
      let* fields := normalize_from ({[name]} ∪ seen) source in
      Ok (mk_CanonicalField name value :: fields)
  end.

Definition normalizeFields (source : list (option Field)) : result (list CanonicalField) :=
  let* fields := normalize_from ∅ source in
  Ok (sort_fields fields).

Definition normalize_result (r : ToolResult) : result CanonicalResult :=
  let* evidence := normalizeFields (tl_Evidence r) in
  Ok (mk_CanonicalResult (enum_string ToolResultState_name (tl_State r)) (tl_ExitCode r) evidence).

Definition normalizeEvent (index : Z) (source : option TraceEvent) : result CanonicalEvent :=
  match source with
  | None => Err ErrUnnormalized
  | Some source =>
      reject negb (check_valid (ev_OccurredAt source)) with ErrUnnormalized;
      let* fields := normalizeFields (ev_Fields source) in
      let* outcome := match ev_Result source with None => Ok None | Some r => let* r := normalize_result r in Ok (Some r) end in
      Ok (mk_CanonicalEvent "" (wrap_u32 index) (normalizeToken (ev_ClientEventId source)) (format_rfc3339nano (UTC (as_time (ev_OccurredAt source))))
            (enum_string EventKind_name (ev_Kind source)) (normalizeToken (ev_ToolName source)) (normalizeToken (ev_ToolVersion source)) fields outcome)
  end.

(** The loop over the events of a request, from position [index]. *)
Fixpoint build_events (tenantID traceID : string) (index : Z) (events : list (option TraceEvent)) : result (list CanonicalEvent) :=
  match events with
  | [] => Ok []
  | source :: events =>
      let* event := normalizeEvent index source in
      let* id := deriveID "ev" (eventIdentity_json tenantID traceID (wrap_u32 index) event) in
      let* rest := build_events tenantID traceID (index + 1) events in
      Ok (event_with_id id event :: rest)
  end.

Definition build_trace (request : IngestTraceRequest) (environment : list CanonicalField) : CanonicalTrace :=
  mk_CanonicalTrace "" (normalizeToken (ir_ClientTraceId request)) (normalizeToken (ir_Harness request)) (normalizeToken (ir_HarnessVersion request))
    (normalizeText (ir_Task request)) environment.

Definition Build (tenantID : string) (request : option IngestTraceRequest) : result CanonicalBatch :=
  reject String.eqb tenantID "" with ErrUnnormalized;
  let* _ := ValidateIngest request in
  match request with
  | None => Err ErrViolation
  | Some request =>
      let* environment := normalizeFields (ir_Environment request) in
      let trace := build_trace request environment in
      let* traceID := deriveID "tr" (traceIdentity_json tenantID trace) in
      let trace := trace_with_id traceID trace in
      let* events := build_events tenantID traceID 0 (ir_Events request) in
      let batch := mk_CanonicalBatch schemaVersion tenantID trace events "" "" in
      let* (canonicalJSON, hash) := MarshalAndHash (batch_json batch) in
      Ok (mk_CanonicalBatch schemaVersion tenantID trace events hash canonicalJSON)
  end.

(** ** Checking a batch (canonical/verify.go) *)
Fixpoint verify_events (tenantID traceID : string) (seen : gset string) (index : Z) (events : list CanonicalEvent) : result unit :=
  match events with
  | [] => Ok tt
  | source :: events =>
      reject negb (cn_Position source =? wrap_u32 index) with ErrInvalidCanonicalBatch;
      match deriveID "ev" (eventIdentity_json tenantID traceID (wrap_u32 index) (event_with_id "" source)) with
      | Err _ => Err ErrInvalidCanonicalBatch
      | Ok id =>
          reject negb (String.eqb (cn_ID source) id) with ErrInvalidCanonicalBatch;
          reject bool_decide (cn_ID source ∈ seen) with ErrInvalidCanonicalBatch;
          verify_events tenantID traceID ({[cn_ID source]} ∪ seen) (index + 1) events
      end
  end.

Definition VerifyBatch (batch : CanonicalBatch) (body : string) : result unit :=
  reject negb (String.eqb (cb_SchemaVersion batch) schemaVersion) || String.eqb (cb_TenantID batch) "" || String.eqb (tr_ID (cb_Trace batch)) "" ||
         match cb_Events batch with [] => true | _ => false end with ErrInvalidCanonicalBatch;
  match deriveID "tr" (traceIdentity_json (cb_TenantID batch) (trace_with_id "" (cb_Trace batch))) with
  | Err _ => Err ErrInvalidCanonicalBatch
  | Ok traceID =>
      reject negb (String.eqb (tr_ID (cb_Trace batch)) traceID) with ErrInvalidCanonicalBatch;
      let* _ := verify_events (cb_TenantID batch) (tr_ID (cb_Trace batch)) ∅ 0 (cb_Events batch) in
      match MarshalAndHash (batch_json batch) with
      | Err _ => Err ErrInvalidCanonicalBatch
      | Ok (encoded, hash) =>
          reject negb (String.eqb encoded body) with ErrInvalidCanonicalBatch;
          reject negb (String.eqb (cb_Hash batch) "") && negb (String.eqb (cb_Hash batch) hash) with ErrInvalidCanonicalBatch;
          Ok tt
      end
  end.

(** ** Canonical outcomes (evidence/canonical.go) *)
Definition evidenceClass (value : Z) : string :=
  if value =? 1 then EvidenceClassIndependentVerifier else if value =? 2 then EvidenceClassGoalPredicate
  else if value =? 3 then EvidenceClassHarnessAssertion else if value =? 4 then EvidenceClassToolPostcondition
  else if value =? 5 then EvidenceClassExitStatusOrSelfReport else "".

Definition evidenceVerdict (value : Z) : string :=
  if value =? 1 then EvidenceVerdictSatisfied else if value =? 2 then EvidenceVerdictFailed
  else if value =? 3 then EvidenceVerdictUnknown else "".

(** The loop of evidence's [normalizeFields], which also refuses an empty name. *)
Fixpoint evidence_fields_from (seen : gset string) (source : list (option Field)) : result (list CanonicalField) :=
  match source with
  | [] => Ok []
  | None :: _ => Err ErrUnnormalized
  | Some field :: source =>
      let name := normalizeToken (fd_Name field) in
      reject String.eqb name "" with ErrUnnormalized;
      reject bool_decide (name ∈ seen) with ErrUnnormalized;
      let* fields := evidence_fields_from ({[name]} ∪ seen) source in
      Ok (mk_CanonicalField name (nfc_string (fd_StringValue field)) :: fields)
  end.

Definition evidence_fields (source : list (option Field)) : result (list CanonicalField) :=
  let* fields := evidence_fields_from ∅ source in
  Ok (sort_fields fields).

Definition canonical_fact (tenantID traceID : string) (source : EvidenceMessage) : result OutcomeEvidence :=
  reject negb (check_valid (em_ObservedAt source)) with ErrUnnormalized;
  let* fields := evidence_fields (em_Fields source) in
  let fact := mk_OutcomeEvidence "" (normalizeToken (em_ClientEvidenceId source)) (evidenceClass (em_Class source)) (evidenceVerdict (em_Verdict source))
    (normalizeToken (em_PredicateId source)) (normalizeToken (em_VerifierId source)) (normalizeToken (em_VerifierVersion source))
    (format_rfc3339nano (UTC (as_time (em_ObservedAt source)))) fields in
  let* (_, hash) := MarshalAndHash (evidenceIdentity_json tenantID traceID fact) in
  Ok (mk_OutcomeEvidence ("oe_" ++ hash) (oe_ClientEvidenceID fact) (oe_Class fact) (oe_Verdict fact) (oe_PredicateID fact) (oe_VerifierID fact)
        (oe_VerifierVersion fact) (oe_ObservedAt fact) (oe_Fields fact)).

Fixpoint canonical_facts (tenantID traceID : string) (evidence : list (option EvidenceMessage)) : result (list OutcomeEvidence) :=
  match evidence with
  | [] => Ok []
  | source :: evidence =>
      let* fact := canonical_fact tenantID traceID (default nil_evidence source) in
      let* facts := canonical_facts tenantID traceID evidence in
      Ok (fact :: facts)
  end.

(** The outcome of a request, with the identifier, hash and bytes given. *)
Definition outcome_of (tenantID traceID : string) (request : RecordOutcomeRequest) (facts : list OutcomeEvidence) (id hash canonicalJSON : string)
    : CanonicalOutcome :=
  mk_CanonicalOutcome outcomeSchemaVersion id tenantID traceID (normalizeToken (or_ExecutionId request)) (normalizeToken (or_SelectionId request))
    (normalizeToken (or_InjectionId request)) (normalizeToken (or_TaskExecutionId request)) (normalizeToken (or_SupersedesOutcomeId request))
    (normalizeText (or_CorrectionReason request)) facts hash canonicalJSON.

Definition Canonicalize (tenantID : string) (request : option RecordOutcomeRequest) : result CanonicalOutcome :=
  reject String.eqb tenantID "" with ErrUnnormalized;
  let* _ := ValidateOutcome request in
  match request with
  | None => Err ErrViolation
  | Some request =>
      let traceID := normalizeToken (or_TraceId request) in
      let* facts := canonical_facts tenantID traceID (or_Evidence request) in
      let facts := sort_slice evidence_id_less facts in
      let* (_, identityHash) := MarshalAndHash (outcomeIdentity_json (outcome_of tenantID traceID request facts "" "" "") facts) in
      let outcome := outcome_of tenantID traceID request facts ("out_" ++ identityHash)%string in
      let* (encoded, hash) := MarshalAndHash (outcome_json (outcome "" ""))%string in
      Ok (outcome hash encoded)
  end.
End canonical.

(** ** Well-formed fields *)

(** A field that is a path stays within its root, in clean form. *)
Definition confined (f : CanonicalField) : Prop :=
  cf_Name f = "path"%string ->
  (cf_Value f = "."%string \/ Forall proper (path_elements (cf_Value f))) /\ HasPrefix (cf_Value f) "/" = false /\ Clean (cf_Value f) = cf_Value f.

(** Fields in strictly increasing order of their names, with confined paths. *)
Definition fields_ok (fields : list CanonicalField) : Prop :=
  StronglySorted (fun f g => String.compare (cf_Name f) (cf_Name g) = Lt) fields /\ Forall confined fields.

Lemma sort_fields_strict fields :
  NoDup (List.map cf_Name fields) -> StronglySorted (fun f g => String.compare (cf_Name f) (cf_Name g) = Lt) (sort_fields fields).
Proof.
  intros Hn. assert (Hs : StronglySorted (cmp_le field_cmp) (sort_fields fields)) by (apply sort_slice_sorted; apply _).
  assert (Hn' : NoDup (List.map cf_Name (sort_fields fields))) by (unfold sort_fields; by rewrite sort_slice_perm).
  revert Hn'. induction Hs as [|f l Hl IH Hf]; [constructor|]. cbn [List.map]. intros [Hx Hl']%NoDup_cons. constructor; [by apply IH|].
  rewrite Forall_forall in Hf. apply Forall_forall. intros g Hg. specialize (Hf g Hg). unfold cmp_le, field_cmp, cmp_lex, cmp_on in Hf.
  destruct (String.compare (cf_Name f) (cf_Name g)) eqn:E; [|done|done]. apply String.compare_eq_iff in E. exfalso. apply Hx. rewrite E.
  apply list_elem_of_In, in_map, list_elem_of_In. done.
Qed.

Lemma sort_fields_perm fields fields' : NoDup (List.map cf_Name fields) -> fields ≡ₚ fields' -> sort_fields fields = sort_fields fields'.
Proof.
  intros _ Hp. apply (sort_slice_perm_eq field_cmp); [|done]. intros [n v] [n' v'] _ _. unfold field_cmp, cmp_lex, cmp_on. cbn.
  destruct (String.compare n n') eqn:E; try done. apply String.compare_eq_iff in E as ->. by intros ->%String.compare_eq_iff.
Qed.

(** What the schema of the messages promises. *)
Class ProtobufLaws `{Protobuf} : Prop := {
  rules_ingest_events : forall r, rules_ingest r = true -> (1 <= length (ir_Events r) <= 5000)%nat;
  rules_outcome_evidence : forall r, rules_outcome r = true -> (1 <= length (or_Evidence r) <= 256)%nat
}.

Section sound.
Context `{NFC} `{JCS} `{Digest} `{Protobuf}.

Lemma deriveID_Ok prefix v id : deriveID prefix v = Ok id -> exists c, MarshalAndHash v = Ok (c, sum256_hex c) /\ id = (prefix ++ "_" ++ sum256_hex c)%string.
Proof.
  unfold deriveID. destruct (MarshalAndHash v) as [[c h]|] eqn:E; [|done]. intros [= <-]. pose proof (MarshalAndHash_digest _ _ _ E) as ->. by exists c.
Qed.

Lemma normalizePath_confined value path : normalizePath value = Ok path -> confined (mk_CanonicalField "path" path).
Proof.
  unfold normalizePath. intros Hn. inv_Ok Hn. injection Hn as <-. apply orb_false_iff in E0 as [E1%String.eqb_neq E2]. intros _. by apply Clean_confined.
Qed.

Lemma normalize_from_ok seen source fields :
  normalize_from seen source = Ok fields -> NoDup (List.map cf_Name fields) /\ (forall f, f ∈ fields -> cf_Name f ∉ seen) /\ Forall confined fields.
Proof.
  revert seen fields. induction source as [|[item|] source IH]; intros seen fields; cbn [normalize_from]; [|intros Hn|done].
  { intros [= <-]. split_and!; [constructor|by intros f ?%elem_of_nil|constructor]. }
  inv_Ok Hn. apply bool_decide_eq_false in E. injection Hn as <-.
  match goal with Hr : normalize_from _ source = Ok _ |- _ => destruct (IH _ _ Hr) as (Hd & Hs & Hc) end. cbn [List.map cf_Name]. split_and!.
  - apply NoDup_cons. split; [|done]. intros (f & Hf & Hin)%list_elem_of_In%in_map_iff. apply (Hs f); [by apply list_elem_of_In|]. set_solver.
  - intros f [->|Hf]%elem_of_cons; [done|]. specialize (Hs f Hf). set_solver.
  - constructor; [|done]. destruct (String.eqb_spec (normalizeToken (fd_Name item)) "path") as [Hp|Hp]; [|done]. rewrite Hp. by eapply normalizePath_confined.
Qed.

Lemma normalizeFields_ok source fields : normalizeFields source = Ok fields -> fields_ok fields.
Proof.
  unfold normalizeFields. intros Hn. inv_Ok Hn. injection Hn as <-. match goal with Hr : normalize_from _ _ = Ok _ |- _ => destruct (normalize_from_ok _ _ _ Hr) as (Hd & _ & Hc) end.
  split; [by apply sort_fields_strict|]. unfold sort_fields. by rewrite sort_slice_perm.
Qed.

(** The loop gives the fields of any other order of the items, in that order. *)
Lemma normalize_from_perm source source' :
  source ≡ₚ source' -> forall seen fields, normalize_from seen source = Ok fields -> exists fields', normalize_from seen source' = Ok fields' /\ fields ≡ₚ fields'.
Proof.
  induction 1 as [|[item|] l l' Hp IH|[y|] [x|] l|l1 l2 l3 _ IH1 _ IH2]; intros seen fields Hn; cbn [normalize_from] in *; try done; [by eexists| | |by inv_Ok Hn|].
  - inv_Ok Hn. injection Hn as <-. match goal with Hv : _ = Ok ?v, Hr : normalize_from _ l = Ok _ |- _ => destruct (IH _ _ Hr) as (fs & Hfs & Hperm); rewrite Hv, Hfs end.
    cbn [bind]. eexists. split; [done|]. by constructor.
  - set (nx := normalizeToken (fd_Name x)) in *. set (ny := normalizeToken (fd_Name y)) in *. inv_Ok Hn. injection Hn as <-.
    match goal with Hi : (reject _ with _; _)%go = Ok _ |- _ => rename Hi into Hin end. inv_Ok Hin. injection Hin as <-. apply bool_decide_eq_false in E, E0.
    rewrite (bool_decide_eq_false_2 (ny ∈ seen)), (bool_decide_eq_false_2 (nx ∈ {[ny]} ∪ seen)) by set_solver.
    repeat match goal with Hv : (if _ then _ else _) = Ok _ |- _ => rewrite Hv; clear Hv end. cbn [bind].
    assert (Hswap : {[ny]} ∪ ({[nx]} ∪ seen) = {[nx]} ∪ ({[ny]} ∪ seen)) by set_solver. rewrite Hswap in *.
    match goal with Hr : normalize_from _ l = Ok _ |- _ => rewrite Hr end. cbn [bind]. eexists. split; [done|]. apply Permutation_swap.
  - destruct (IH1 _ _ Hn) as (f2 & Hn2 & P2). destruct (IH2 _ _ Hn2) as (f3 & Hn3 & P3). exists f3. split; [done|]. by rewrite P2.
Qed.

Lemma normalizeFields_perm source source' fields : source ≡ₚ source' -> normalizeFields source = Ok fields -> normalizeFields source' = Ok fields.
Proof.
  unfold normalizeFields. intros Hp Hn. inv_Ok Hn. injection Hn as <-. match goal with Hr : normalize_from _ _ = Ok _ |- _ =>
    destruct (normalize_from_perm _ _ Hp _ _ Hr) as (fs & -> & Hperm); destruct (normalize_from_ok _ _ _ Hr) as (Hd & _) end.
  cbn [bind]. f_equal. symmetry. by apply sort_fields_perm.
Qed.

(** ** Events *)
Definition event_ok (e : CanonicalEvent) : Prop :=
  fields_ok (cn_Fields e) /\ match cn_Result e with Some r => fields_ok (cr_Evidence r) | None => True end.

Lemma normalizeEvent_ok index source event : normalizeEvent index source = Ok event -> event_ok event /\ cn_ID event = ""%string /\ cn_Position event = wrap_u32 index.
Proof.
  unfold normalizeEvent. destruct source as [source|]; [|done]. intros Hn. inv_Ok Hn. injection Hn as <-. split; [|done]. split; [by eapply normalizeFields_ok|].
  cbn [cn_Result]. destruct (ev_Result source) as [r|]; [|match goal with Hr : Ok None = Ok ?o |- _ => by injection Hr as <- end].
  match goal with Hr : bind _ _ = Ok _ |- _ => inv_Ok Hr; injection Hr as <- end. match goal with Hr : normalize_result _ = Ok _ |- _ => unfold normalize_result in Hr; inv_Ok Hr; injection Hr as <- end.
  by eapply normalizeFields_ok.
Qed.

Lemma event_without_id id e : cn_ID e = ""%string -> event_with_id "" (event_with_id id e) = e.
Proof. destruct e. cbn. by intros ->. Qed.

Lemma build_events_ok tenantID traceID index events built : build_events tenantID traceID index events = Ok built -> Forall event_ok built /\ length built = length events.
Proof.
  revert index built. induction events as [|source events IH]; intros index built; cbn [build_events]; [by intros [= <-]|]. intros Hb. inv_Ok Hb. injection Hb as <-.
  match goal with Hr : build_events _ _ _ events = Ok _ |- _ => destruct (IH _ _ Hr) as [Hok Hlen] end. split; [|by cbn; rewrite Hlen]. constructor; [|done].
  match goal with Hr : normalizeEvent _ _ = Ok _ |- _ => by destruct (normalizeEvent_ok _ _ _ Hr) as ([? ?] & _) end.
Qed.

Lemma build_events_verify tenantID traceID index events built seen :
  build_events tenantID traceID index events = Ok built -> NoDup (List.map cn_ID built) -> (forall e, e ∈ built -> cn_ID e ∉ seen) ->
  verify_events tenantID traceID seen index built = Ok tt.
Proof.
  revert index built seen. induction events as [|source events IH]; intros index built seen; cbn [build_events]; [by intros [= <-]|]. intros Hb. inv_Ok Hb. injection Hb as <-.
  cbn [List.map verify_events]. intros [Hfresh Hd]%NoDup_cons Hseen.
  match goal with Hr : normalizeEvent _ _ = Ok ?e, Hi : deriveID _ _ = Ok ?i, Hb : build_events _ _ _ events = Ok ?l |- _ =>
    destruct (normalizeEvent_ok _ _ _ Hr) as (_ & Hid & Hpos); set (event := e) in *; set (id := i) in *; set (rest := l) in *;
    rewrite (event_without_id _ _ Hid), Hi; specialize (IH _ _ ({[id]} ∪ seen) Hb Hd) end.
  cbn [cn_Position cn_ID event_with_id] in *. rewrite Hpos, Z.eqb_refl. cbn [negb]. rewrite String.eqb_refl. cbn [negb].
  rewrite bool_decide_eq_false_2 by (apply (Hseen (event_with_id id event)); left). apply IH.
  intros e He. assert (Hne : cn_ID e <> id). { intros Heq. apply Hfresh. rewrite <- Heq. apply list_elem_of_In, in_map, list_elem_of_In. done. }
  assert (Hs : cn_ID e ∉ seen) by (apply Hseen; by right). set_solver.
Qed.

(** ** What a batch was built from *)
Record built_from (tenantID : string) (request : IngestTraceRequest) (b : CanonicalBatch) : Prop := mk_built_from {
  bf_tenant : tenantID <> ""%string /\ cb_TenantID b = tenantID /\ cb_SchemaVersion b = schemaVersion;
  bf_valid : ValidateIngest (Some request) = Ok tt;
  bf_environment : exists environment, normalizeFields (ir_Environment request) = Ok environment /\
    cb_Trace b = trace_with_id (tr_ID (cb_Trace b)) (build_trace request environment) /\
    deriveID "tr" (traceIdentity_json tenantID (build_trace request environment)) = Ok (tr_ID (cb_Trace b));
  bf_events : build_events tenantID (tr_ID (cb_Trace b)) 0 (ir_Events request) = Ok (cb_Events b);
  bf_sealed : MarshalAndHash (batch_json b) = Ok (cb_CanonicalJSON b, cb_Hash b)
}.

Lemma Build_inv tenantID request b : Build tenantID request = Ok b -> exists r, request = Some r /\ built_from tenantID r b.
Proof.
  unfold Build. intros Hb. inv_Ok Hb. destruct request as [r|]; [|done]. inv_Ok Hb. injection Hb as <-. apply String.eqb_neq in E. exists r. split; [done|].
  match goal with Hv : ValidateIngest _ = Ok ?u |- _ => destruct u end. split; cbn; try done. by eexists.
Qed.

(** The batch that a request and its environment, identifier, events and seal give. *)
Lemma built_from_Build tenantID request b : built_from tenantID request b -> Build tenantID (Some request) = Ok b.
Proof.
  intros [(Ht & Htn & Hsv) Hv (environment & He & Htr & Hid) Hev Hs]. unfold Build. apply String.eqb_neq in Ht. rewrite Ht, Hv. cbn [bind]. rewrite He. cbn [bind].
  rewrite Hid. cbn [bind]. rewrite Hev. cbn [bind]. destruct b as [sv tn trace events hash bytes]. cbn [cb_TenantID cb_SchemaVersion cb_Trace cb_Events cb_Hash cb_CanonicalJSON] in *.
  subst sv tn. rewrite <- Htr. match type of Hs with MarshalAndHash ?x = _ => change (MarshalAndHash x = Ok (bytes, hash)) in Hs end.
  change (batch_json (mk_CanonicalBatch schemaVersion tenantID trace events "" "")) with (batch_json (mk_CanonicalBatch schemaVersion tenantID trace events hash bytes)).
  by rewrite Hs.
Qed.

Context `{!ProtobufLaws}.

Lemma valid_events request : ValidateIngest (Some request) = Ok tt -> (1 <= length (ir_Events request) <= 5000)%nat.
Proof. unfold ValidateIngest. intros Hv. inv_Ok Hv. apply rules_ingest_events. by destruct (rules_ingest request). Qed.

(** C36: A batch that was built passes the check that a reader of the archive makes,
    with its canonical bytes and with no others, unless two of its events have
    the same digest. *)
Theorem Build_verifies (tenantID : string) (request : option IngestTraceRequest) (b : CanonicalBatch) (body : string) :
  Build tenantID request = Ok b -> NoDup (List.map cn_ID (cb_Events b)) -> VerifyBatch b body = Ok tt <-> body = cb_CanonicalJSON b.
Proof.
  intros (r & -> & [(Ht & Htn & Hsv) Hv (environment & He & Htr & Hid) Hev Hs])%Build_inv Hd. unfold VerifyBatch. rewrite Htn, Hsv.
  pose proof (valid_events _ Hv) as Hlen. destruct (build_events_ok _ _ _ _ _ Hev) as [_ Hl]. pose proof (build_events_verify _ _ _ _ _ ∅ Hev Hd ltac:(set_solver)) as Hver.
  destruct (deriveID_Ok _ _ _ Hid) as (c & _ & Hcid). apply String.eqb_neq in Ht. rewrite str_eqb_refl, Ht.
  assert (Hne : String.eqb (tr_ID (cb_Trace b)) "" = false) by (by rewrite Hcid). rewrite Hne.
  assert (Hev0 : match cb_Events b with [] => true | _ => false end = false) by (destruct (cb_Events b); [cbn in Hl; lia|done]). rewrite Hev0. cbn [negb orb].
  assert (Hbare : trace_with_id "" (cb_Trace b) = build_trace r environment) by (by rewrite Htr). rewrite Hbare, Hid, str_eqb_refl. cbn [negb].
  rewrite Hver. cbn [bind]. rewrite Hs, str_eqb_refl. cbn [negb]. rewrite andb_false_r. destruct (String.eqb_spec (cb_CanonicalJSON b) body) as [->|Hb]; cbn [negb]; [done|]. split; [done|]. congruence.
Qed.

(** The fields of a batch are strictly ordered by name, and every path among
    them, of the environment, of an event or of its evidence, is a relative path
    in clean form that stays within its root. *)
Theorem Build_confined (tenantID : string) (request : option IngestTraceRequest) (b : CanonicalBatch) :
  Build tenantID request = Ok b -> fields_ok (tr_Environment (cb_Trace b)) /\ Forall event_ok (cb_Events b).
Proof.
  intros (r & -> & [_ _ (environment & He & Htr & _) Hev _])%Build_inv. split; [|by apply (build_events_ok _ _ _ _ _ Hev)].
  rewrite Htr. by eapply normalizeFields_ok.
Qed.

(** ** The order of the fields *)

(** Two events that differ in the order of their fields and of their evidence. *)
Inductive event_reordered : option TraceEvent -> option TraceEvent -> Prop :=
| reordered_nil : event_reordered None None
| reordered_event id at_time kind tool version fields fields' result result' :
    fields ≡ₚ fields' ->
    match result, result' with
    | None, None => True
    | Some r, Some r' => tl_State r = tl_State r' /\ tl_ExitCode r = tl_ExitCode r' /\ tl_Evidence r ≡ₚ tl_Evidence r'
    | _, _ => False
    end ->
    event_reordered (Some (mk_TraceEvent id at_time kind tool version fields result)) (Some (mk_TraceEvent id at_time kind tool version fields' result')).

Record request_reordered (r r' : IngestTraceRequest) : Prop := mk_request_reordered {
  rr_header : ir_ClientTraceId r = ir_ClientTraceId r' /\ ir_Harness r = ir_Harness r' /\ ir_HarnessVersion r = ir_HarnessVersion r' /\ ir_Task r = ir_Task r';
  rr_environment : ir_Environment r ≡ₚ ir_Environment r';
  rr_events : Forall2 event_reordered (ir_Events r) (ir_Events r')
}.

Lemma normalizeEvent_reordered index e e' event : event_reordered e e' -> normalizeEvent index e = Ok event -> normalizeEvent index e' = Ok event.
Proof.
  destruct 1 as [|id at_time kind tool version fields fields' result result' Hf Hr]; [done|]. unfold normalizeEvent. cbn [ev_OccurredAt ev_Fields ev_Result]. intros Hn. inv_Ok Hn.
  injection Hn as <-. match goal with Hx : normalizeFields fields = Ok _ |- _ => rewrite (normalizeFields_perm _ _ _ Hf Hx) end. cbn [bind].
  destruct result as [r|], result' as [r'|]; try done; [|match goal with Hx : Ok None = Ok _ |- _ => by injection Hx as <- end].
  destruct Hr as (Hst & Hex & Hev). match goal with Hx : bind (normalize_result r) _ = Ok _ |- _ => inv_Ok Hx; injection Hx as <- end.
  match goal with Hx : normalize_result r = Ok _ |- _ => unfold normalize_result in Hx; inv_Ok Hx; injection Hx as <- end.
  unfold normalize_result. match goal with Hx : normalizeFields (tl_Evidence r) = Ok _ |- _ => rewrite (normalizeFields_perm _ _ _ Hev Hx) end. cbn [bind].
  by rewrite Hst, Hex.
Qed.

Lemma build_events_reordered tenantID traceID index events events' built :
  Forall2 event_reordered events events' -> build_events tenantID traceID index events = Ok built -> build_events tenantID traceID index events' = Ok built.
Proof.
  intros Hr. revert index built. induction Hr as [|e e' events events' He _ IH]; intros index built; cbn [build_events]; [done|]. intros Hb. inv_Ok Hb. injection Hb as <-.
  match goal with Hx : normalizeEvent _ e = Ok _, Hi : deriveID _ _ = Ok _, Hl : build_events _ _ _ events = Ok _ |- _ =>
    rewrite (normalizeEvent_reordered _ _ _ _ He Hx); cbn [bind]; rewrite Hi; cbn [bind]; by rewrite (IH _ _ Hl) end.
Qed.

(** The batch, its identifiers, hash and canonical bytes included, does not
    depend on the order in which a valid request lists the fields of the
    environment, of its events and of their evidence. *)
Theorem Build_order (tenantID : string) (r r' : IngestTraceRequest) (b : CanonicalBatch) :
  request_reordered r r' -> ValidateIngest (Some r') = Ok tt -> Build tenantID (Some r) = Ok b -> Build tenantID (Some r') = Ok b.
Proof.
  intros [(Hc & Hh & Hhv & Ht) He Hev] Hv (r0 & [= <-] & [Htn _ (environment & Hn & Htr & Hid) Hb Hs])%Build_inv. apply built_from_Build.
  assert (Hbt : build_trace r' environment = build_trace r environment) by (unfold build_trace; by rewrite Hc, Hh, Hhv, Ht).
  split; try done; [|by eapply build_events_reordered]. exists environment. rewrite Hbt. split; [by eapply normalizeFields_perm|done].
Qed.

(** ** Outcomes *)
Lemma canonical_fact_ok tenantID traceID source fact o :
  canonical_fact tenantID traceID source = Ok fact -> co_TenantID o = tenantID -> co_TraceID o = traceID -> fact_id_ok o fact = true.
Proof.
  unfold canonical_fact. intros Hf <- <-. inv_Ok Hf. injection Hf as <-. unfold fact_id_ok, hash_is, without_id. cbn [oe_ID oe_ClientEvidenceID oe_Class oe_Verdict oe_PredicateID oe_VerifierID
    oe_VerifierVersion oe_ObservedAt oe_Fields] in *. match goal with Hm : MarshalAndHash _ = Ok _ |- _ => rewrite Hm end. apply str_eqb_refl.
Qed.

Lemma canonical_facts_ok tenantID traceID evidence facts o :
  canonical_facts tenantID traceID evidence = Ok facts -> co_TenantID o = tenantID -> co_TraceID o = traceID ->
  Forall (fun f => fact_id_ok o f = true) facts /\ length facts = length evidence.
Proof.
  intros Hf Ht Htr. revert facts Hf. induction evidence as [|source evidence IH]; intros facts; cbn [canonical_facts]; [by intros [= <-]|]. intros Hf. inv_Ok Hf. injection Hf as <-.
  match goal with Hr : canonical_facts _ _ evidence = Ok _, Hc : canonical_fact _ _ _ = Ok _ |- _ =>
    destruct (IH _ Hr) as [Hok Hl]; split; [constructor; [exact (canonical_fact_ok _ _ _ _ _ Hc Ht Htr)|done]|cbn; by rewrite Hl] end.
Qed.

(** An outcome that was canonicalized passes the check that a store makes
    before it accepts it. *)
Theorem Canonicalize_verifies (tenantID : string) (request : option RecordOutcomeRequest) (o : CanonicalOutcome) :
  Canonicalize tenantID request = Ok o -> VerifyCanonical o = true.
Proof.
  unfold Canonicalize. intros Hc. inv_Ok Hc. destruct request as [request|]; [|done]. inv_Ok Hc. injection Hc as <-. apply String.eqb_neq in E.
  match goal with Hv : ValidateOutcome _ = Ok _ |- _ => unfold ValidateOutcome in Hv; inv_Ok Hv end. apply negb_false_iff in E1.
  match goal with Hf : canonical_facts _ _ _ = Ok ?fs, Hi : MarshalAndHash (outcomeIdentity_json _ _) = Ok (_, ?ih), Hm : MarshalAndHash (outcome_json _) = Ok (?enc, ?h) |- _ =>
    set (facts := sort_slice evidence_id_less fs) in *; set (o := outcome_of tenantID _ request facts _ h enc) in *;
    destruct (canonical_facts_ok _ _ _ _ o Hf eq_refl eq_refl) as [Hok Hlen]; rename Hi into Hid, Hm into Hseal end.
  pose proof (rules_outcome_evidence _ E1) as Hrules. assert (Hsorted : sort_slice evidence_id_less facts = facts).
  { apply (sort_slice_id (cmp_on oe_ID String.compare)), (sort_slice_sorted (cmp_on oe_ID String.compare)). }
  unfold VerifyCanonical. assert (Hg : negb (String.eqb (co_SchemaVersion o) outcomeSchemaVersion) || String.eqb (co_TenantID o) "" || String.eqb (co_TraceID o) "" || no_values (co_Evidence o) = false).
  { cbn [o outcome_of co_SchemaVersion co_TenantID co_TraceID co_Evidence]. apply String.eqb_neq in E. rewrite str_eqb_refl, E, E2. cbn [negb orb].
    assert (Hl : length facts = length (or_Evidence request)) by (unfold facts; rewrite sort_slice_length; done). unfold no_values. destruct facts; [cbn in Hl; lia|done]. }
  rewrite Hg. assert (Hall : forallb (fact_id_ok o) (co_Evidence o) = true).
  { apply forallb_forall. intros f Hin%list_elem_of_In. rewrite Forall_forall in Hok. apply Hok. by apply sort_slice_elem in Hin. }
  rewrite Hall. cbn [negb]. change (co_Evidence o) with facts. rewrite Hsorted, bool_decide_eq_true_2 by done. cbn [negb].
  unfold hash_is. match type of Hid with MarshalAndHash (outcomeIdentity_json ?x _) = _ => change (outcomeIdentity_json o facts) with (outcomeIdentity_json x facts) end.
  rewrite Hid, str_eqb_refl. cbn [negb]. match type of Hseal with MarshalAndHash (outcome_json ?x) = _ => change (outcome_json o) with (outcome_json x) end.
  rewrite Hseal. by rewrite !str_eqb_refl.
Qed.
End sound.

(** ** Witnesses *)
Section demo.
#[local] Existing Instance copy_nfc.
#[local] Existing Instance copy_jcs.
#[local] Existing Instance checksum_digest.

(** A schema that checks the number of events and of facts. *)
Definition counting_protobuf : Protobuf := {|
  size_ingest := fun r => 1024 * Z.of_nat (length (ir_Events r));
  rules_ingest := fun r => (1 <=? length (ir_Events r))%nat && (length (ir_Events r) <=? 5000)%nat;
  size_outcome := fun r => 1024 * Z.of_nat (length (or_Evidence r));
  rules_outcome := fun r => (1 <=? length (or_Evidence r))%nat && (length (or_Evidence r) <=? 256)%nat;
  check_valid := fun t => match t with Some t => (0 <=? ts_Nanos t) && (ts_Nanos t <? Second) | None => false end;
  as_time := fun t => match t with Some t => mk_time ((ts_Seconds t + 62135596800) * Second + ts_Nanos t) 0 | None => mk_time (62135596800 * Second) 0 end
|}.
#[local] Existing Instance counting_protobuf.

#[local] Instance counting_laws : ProtobufLaws.
Proof. split; intros r [?%Nat.leb_le ?%Nat.leb_le]%andb_true_iff; lia. Qed.

Definition sample_event (id path : string) : option TraceEvent :=
  Some (mk_TraceEvent id (Some (mk_Timestamp 1700000000 0)) 2 " editor " "" [Some (mk_Field "path" path); Some (mk_Field "command" "save")]
    (Some (mk_ToolResult 1 (Some 0) [Some (mk_Field "path" "out/./log"); Some (mk_Field "assertion" "saved")]))).

Definition sample_request (environment : list (option Field)) : IngestTraceRequest :=
  mk_IngestTraceRequest "trace-1" "harness" "1.0" "write the file" [sample_event "e1" "src//a/../b.go"; sample_event "e2" "src\c.go"] environment.

Definition sample_environment : list (option Field) := [Some (mk_Field "resource_type" "file"); Some (mk_Field "command" "shell")].

Definition no_batch : CanonicalBatch := mk_CanonicalBatch "" "" (mk_CanonicalTrace "" "" "" "" "" []) [] "" "".
Definition sample_batch : CanonicalBatch := Eval vm_compute in
  match Build "tenant_a" (Some (sample_request sample_environment)) with Ok b => b | Err _ => no_batch end.

Lemma sample_built : Build "tenant_a" (Some (sample_request sample_environment)) = Ok sample_batch.
Proof. vm_compute. reflexivity. Qed.

Lemma Build_verifies_witness : VerifyBatch sample_batch (cb_CanonicalJSON sample_batch) = Ok tt.
Proof.
  apply (Build_verifies _ _ _ (cb_CanonicalJSON sample_batch) sample_built); [|done]. apply (bool_decide_unpack _). vm_compute. exact I.
Defined.

Lemma Build_confined_witness : Forall event_ok (cb_Events sample_batch).
Proof. exact (proj2 (Build_confined _ _ _ sample_built)). Defined.

Lemma Build_order_witness : Build "tenant_a" (Some (sample_request (rev sample_environment))) = Ok sample_batch.
Proof.
  apply (Build_order _ (sample_request sample_environment)); [|vm_compute; reflexivity|apply sample_built]. split; [done|apply Permutation_swap|].
  repeat constructor.
Defined.

Definition sample_outcome_request : RecordOutcomeRequest :=
  mk_RecordOutcomeRequest "tr_1" "" "" "" ""
    [Some (mk_EvidenceMessage "c1" 2 1 "built" "verifier" "" (Some (mk_Timestamp 1700000001 5)) [Some (mk_Field "b" "2"); Some (mk_Field "a" "1")]);
     Some (mk_EvidenceMessage "c2" 1 1 "tested" "verifier" "v2" (Some (mk_Timestamp 1700000002 0)) [])] "" "".

Definition no_outcome : CanonicalOutcome := mk_CanonicalOutcome "" "" "" "" "" "" "" "" "" "" [] "" "".
Definition sample_canonical_outcome : CanonicalOutcome := Eval vm_compute in
  match Canonicalize "tenant_a" (Some sample_outcome_request) with Ok o => o | Err _ => no_outcome end.

Lemma Canonicalize_verifies_witness : VerifyCanonical sample_canonical_outcome = true.
Proof. apply (Canonicalize_verifies "tenant_a" (Some sample_outcome_request)). vm_compute. reflexivity. Defined.

(** Paths are clean and relative, and an escape is refused. *)
Example paths_normalized :
  List.map (fun e => List.map cf_Value (List.filter (fun f => String.eqb (cf_Name f) "path") (cn_Fields e))) (cb_Events sample_batch) = [["src/b.go"]; ["src/c.go"]]%string /\
  normalizePath "a/../../b" = Err ErrUnnormalized.
Proof. vm_compute. done. Qed.
End demo.
