(* ===== verification/Sanitize.v ===== *)
(** * Sanitizing a trace (internal/ingest/sanitize.go, limits.go)

    [Sanitize] refuses requests over the limits of its policy, with fields that
    the policy does not allow or with identities that sanitizing would change,
    and cleans every free text of the rest: control characters are stripped and
    credentials are redacted.

    Redaction is a parameter ([Redactor]): it is made of regular expressions of
    Go's [regexp] and of a test of entropy in floating-point numbers.
    [stripControls] and everything around it are definitions.

    [stripControls_clean] shows that a stripped text has no control character and
    that stripping it again changes nothing; [Sanitize_exact] that the sanitized
    request differs from the given one only in its free texts, each of which was
    cleaned, and that its fields are within the policy. *)

From Stdlib Require Import ZArith String Ascii List Bool Lia.
From stdpp Require Import base gmap strings list sorting.
From S2P Require Import Prelude GoStrings GoTime Canonical RetrievalQuery Trace.

Open Scope Z_scope.
Open Scope go_scope.

Record SanitizerPolicy := mk_SanitizerPolicy { sp_AllowedFields : gset string; sp_MaxValueBytes : Z; sp_MaxTaskBytes : Z; sp_MaxTotalBytes : Z }.

Definition DefaultPolicy : SanitizerPolicy :=
  mk_SanitizerPolicy {["command"; "path"; "url_host"; "query_shape"; "resource_type"; "resource_id"; "assertion"]}%string 65536 262144 1048576.

Record SanitizationReport := mk_SanitizationReport { sr_Redactions : Z; sr_ReasonCounts : gmap string Z; sr_StrippedControls : Z }.

Definition empty_report : SanitizationReport := mk_SanitizationReport 0 ∅ 0.

(** The text with its credentials replaced, and the reason of every replacement. *)
Class Redactor := redact : string -> string * list string.

(** ** Control characters *)

(** [strings.ReplaceAll(value, CR, LF)] *)
Definition replace_cr (l : list ascii) : list ascii := List.map (fun a => if byte_of a =? 13 then ascii_of_nat 10 else a) l.

(** U+FFFD, which an invalid byte is written as. *)
Definition replacement : list ascii := [ascii_of_nat 239; ascii_of_nat 191; ascii_of_nat 189].

Definition control1 (a : ascii) : bool := let b := byte_of a in ((b <? 32) && negb (b =? 9) && negb (b =? 10)) || (b =? 127).
(** U+0080 to U+009F *)
Definition control2 (a b : ascii) : bool := (byte_of a =? 194) && between 128 159 b.

Definition emit (rune : list ascii) (rest : list ascii * Z) : list ascii * Z := (rune ++ fst rest, snd rest).
Definition drop_control (rest : list ascii * Z) : list ascii * Z := (fst rest, snd rest + 1).

(** The loop over the runes of a string. *)
Fixpoint strip_runes (l : list ascii) : list ascii * Z :=
  match l with
  | [] => ([], 0)
  | a :: l1 =>
      if byte_of a <? 128 then if control1 a then drop_control (strip_runes l1) else emit [a] (strip_runes l1)
      else match l1 with
           | [] => emit replacement ([], 0)
           | b :: l2 =>
               if utf8_2 a b then if control2 a b then drop_control (strip_runes l2) else emit [a; b] (strip_runes l2)
               else match l2 with
                    | [] => emit replacement (strip_runes l1)
                    | c :: l3 =>
                        if utf8_3 a b c then emit [a; b; c] (strip_runes l3)
                        else match l3 with
                             | [] => emit replacement (strip_runes l1)
                             | d :: l4 => if utf8_4 a b c d then emit [a; b; c; d] (strip_runes l4) else emit replacement (strip_runes l1)
                             end
                    end
           end
  end.

Definition stripControls (value : string) : string * Z :=
  let '(l, n) := strip_runes (replace_cr (replace_crlf (list_ascii_of_string value))) in (string_of_list_ascii l, n).

Section sanitize.
Context `{Protobuf} `{Redactor}.

Definition sanitizeValue (value : string) (report : SanitizationReport) : string * SanitizationReport :=
  let '(clean, stripped) := stripControls value in
  let '(clean, reasons) := redact clean in
  (clean, mk_SanitizationReport (sr_Redactions report + Z.of_nat (length reasons))
            (foldl (fun m r => <[r := default 0 (m !! r) + 1]> m) (sr_ReasonCounts report) reasons) (sr_StrippedControls report + stripped)).

(** The text that [sanitizeValue] returns. *)
Definition cleaned (value : string) : string := fst (redact (fst (stripControls value))).

Fixpoint validateFields (fields : list (option Field)) (policy : SanitizerPolicy) : result unit :=
  match fields with
  | [] => Ok tt
  | None :: _ => Err ErrInvalidTrace
  | Some item :: fields =>
      reject negb (bool_decide (TrimSpace (fd_Name item) ∈ sp_AllowedFields policy)) with ErrForbiddenField;
      reject sp_MaxValueBytes policy <? str_len (fd_StringValue item) with ErrValueTooLarge;
      validateFields fields policy
  end.

Fixpoint validate_event_fields (events : list (option TraceEvent)) (policy : SanitizerPolicy) : result unit :=
  match events with
  | [] => Ok tt
  | None :: _ => Err ErrInvalidTrace
  | Some event :: events =>
      let* _ := validateFields (ev_Fields event) policy in
      let* _ := match ev_Result event with Some r => validateFields (tl_Evidence r) policy | None => Ok tt end in
      validate_event_fields events policy
  end.

Definition validateFieldLimits (request : IngestTraceRequest) (policy : SanitizerPolicy) : result unit :=
  let* _ := validateFields (ir_Environment request) policy in
  validate_event_fields (ir_Events request) policy.

(** The identities of a request that are persisted as they are. *)
Definition identities (request : IngestTraceRequest) : list string :=
  [ir_ClientTraceId request; ir_Harness request; ir_HarnessVersion request] ++
  flat_map (fun e => match e with Some e => [ev_ClientEventId e; ev_ToolName e; ev_ToolVersion e] | None => [] end) (ir_Events request).

Definition validatePersistedIdentities (request : IngestTraceRequest) : result unit :=
  reject existsb (fun value => negb (String.eqb (fst (sanitizeValue value empty_report)) value)) (identities request) with ErrInvalidTrace;
  Ok tt.

(** The loops that clean the values of fields, left to right. *)
Fixpoint sanitize_fields (fields : list (option Field)) (report : SanitizationReport) : list (option Field) * SanitizationReport :=
  match fields with
  | [] => ([], report)
  | None :: fields => let '(fields, report) := sanitize_fields fields report in (None :: fields, report)
  | Some item :: fields =>
      let '(value, report) := sanitizeValue (fd_StringValue item) report in
      let '(fields, report) := sanitize_fields fields report in
      (Some (mk_Field (fd_Name item) value) :: fields, report)
  end.

Definition sanitize_result (r : option ToolResult) (report : SanitizationReport) : option ToolResult * SanitizationReport :=
  match r with
  | None => (None, report)
  | Some r => let '(evidence, report) := sanitize_fields (tl_Evidence r) report in (Some (mk_ToolResult (tl_State r) (tl_ExitCode r) evidence), report)
  end.

Fixpoint sanitize_events (events : list (option TraceEvent)) (report : SanitizationReport) : list (option TraceEvent) * SanitizationReport :=
  match events with
  | [] => ([], report)
  | None :: events => let '(events, report) := sanitize_events events report in (None :: events, report)
  | Some e :: events =>
      let '(fields, report) := sanitize_fields (ev_Fields e) report in
      let '(outcome, report) := sanitize_result (ev_Result e) report in
      let '(events, report) := sanitize_events events report in
      (Some (mk_TraceEvent (ev_ClientEventId e) (ev_OccurredAt e) (ev_Kind e) (ev_ToolName e) (ev_ToolVersion e) fields outcome) :: events, report)
  end.

Definition Sanitize (request : option IngestTraceRequest) (policy : SanitizerPolicy) : result (IngestTraceRequest * SanitizationReport) :=
  match request with
  | None => Err ErrInvalidTrace
  | Some request =>
      reject (sp_MaxValueBytes policy <=? 0) || (sp_MaxTaskBytes policy <=? 0) || (sp_MaxTotalBytes policy <=? 0) with ErrInvalidTrace;
      reject sp_MaxTotalBytes policy <? size_ingest request with ErrTraceTooLarge;
      reject sp_MaxTaskBytes policy <? str_len (ir_Task request) with ErrValueTooLarge;
      let* _ := validateFieldLimits request policy in
      let* _ := validatePersistedIdentities request in
      let '(task, report) := sanitizeValue (ir_Task request) empty_report in
      let '(environment, report) := sanitize_fields (ir_Environment request) report in
      let '(events, report) := sanitize_events (ir_Events request) report in
      Ok (mk_IngestTraceRequest (ir_ClientTraceId request) (ir_Harness request) (ir_HarnessVersion request) task events environment, report)
  end.
End sanitize.

(** ** Stripping controls *)
Lemma emit_snd rune rest : snd (emit rune rest) = snd rest.
Proof. done. Qed.

(** A whole rune that is not a control character is kept, and the rest is read on its own. *)
Lemma strip_kept1 a l : byte_of a <? 128 = true -> control1 a = false -> strip_runes (a :: l) = emit [a] (strip_runes l).
Proof. intros Ha Hc. cbn [strip_runes]. by rewrite Ha, Hc. Qed.

Lemma strip_kept2 a b l : byte_of a <? 128 = false -> utf8_2 a b = true -> control2 a b = false -> strip_runes (a :: b :: l) = emit [a; b] (strip_runes l).
Proof. intros Ha Hu Hc. cbn [strip_runes]. by rewrite Ha, Hu, Hc. Qed.

Lemma strip_kept3 a b c l : byte_of a <? 128 = false -> utf8_2 a b = false -> utf8_3 a b c = true -> strip_runes (a :: b :: c :: l) = emit [a; b; c] (strip_runes l).
Proof. intros Ha Hu Hc. cbn [strip_runes]. by rewrite Ha, Hu, Hc. Qed.

Lemma strip_kept4 a b c d l :
  byte_of a <? 128 = false -> utf8_2 a b = false -> utf8_3 a b c = false -> utf8_4 a b c d = true -> strip_runes (a :: b :: c :: d :: l) = emit [a; b; c; d] (strip_runes l).
Proof. intros Ha Hu Hc Hd. cbn [strip_runes]. by rewrite Ha, Hu, Hc, Hd. Qed.

Lemma strip_replacement l : strip_runes (replacement ++ l) = emit replacement (strip_runes l).
Proof. by apply strip_kept3. Qed.

(** The runes that are kept are kept again. *)
Lemma strip_idem l : strip_runes (fst (strip_runes l)) = (fst (strip_runes l), 0).
Proof.
  induction l as [l IH] using (induction_ltof1 _ (@length ascii)). unfold ltof in IH.
  assert (Hemit : forall rune rest, (length rest < length l)%nat -> (forall m, strip_runes (rune ++ m) = emit rune (strip_runes m)) ->
    strip_runes (fst (emit rune (strip_runes rest))) = (fst (emit rune (strip_runes rest)), 0)).
  { intros rune rest Hl Hr. cbn [emit fst]. rewrite Hr, IH by done. done. }
  destruct l as [|a l1]; [done|]. cbn [strip_runes]. destruct (byte_of a <? 128) eqn:Ea.
  { destruct (control1 a) eqn:Ec; [apply (IH l1); cbn; lia|]. apply (Hemit [a]); [cbn; lia|]. intros m. by apply strip_kept1. }
  assert (Hbad : forall rest, (length rest < length (a :: l1))%nat -> strip_runes (fst (emit replacement (strip_runes rest))) = (fst (emit replacement (strip_runes rest)), 0)).
  { intros rest Hl. apply Hemit; [done|]. apply strip_replacement. }
  destruct l1 as [|b l2]; [apply (Hbad []); cbn; lia|]. destruct (utf8_2 a b) eqn:E2.
  { destruct (control2 a b) eqn:Ec; [apply (IH l2); cbn; lia|]. apply (Hemit [a; b]); [cbn; lia|]. intros m. by apply strip_kept2. }
  destruct l2 as [|c l3]; [apply Hbad; cbn; lia|]. destruct (utf8_3 a b c) eqn:E3; [apply (Hemit [a; b; c]); [cbn; lia|]; intros m; by apply strip_kept3|].
  destruct l3 as [|d l4]; [apply Hbad; cbn; lia|]. destruct (utf8_4 a b c d) eqn:E4; [apply (Hemit [a; b; c; d]); [cbn; lia|]; intros m; by apply strip_kept4|].
  apply Hbad. cbn. lia.
Qed.

(** No byte of a stripped text is an ASCII control character. *)
Lemma strip_no_control l : Forall (fun a => control1 a = false) (fst (strip_runes l)).
Proof.
  induction l as [l IH] using (induction_ltof1 _ (@length ascii)). unfold ltof in IH.
  assert (Hhigh : forall a, byte_of a <? 128 = false -> control1 a = false).
  { intros a Ha%Z.ltb_ge. unfold control1. apply orb_false_iff. split; [|apply Z.eqb_neq; lia]. apply andb_false_iff. left. apply andb_false_iff. left. apply Z.ltb_ge. lia. }
  assert (Hcont : forall a, cont a = true -> control1 a = false).
  { intros a [Ha%Z.leb_le _]%andb_true_iff. apply Hhigh, Z.ltb_ge. lia. }
  assert (Hbetween : forall lo hi a, 128 <= lo -> between lo hi a = true -> control1 a = false).
  { intros lo hi a Hlo [Ha%Z.leb_le _]%andb_true_iff. apply Hhigh, Z.ltb_ge. lia. }
  assert (Hemit : forall rune rest, (length rest < length l)%nat -> Forall (fun a => control1 a = false) rune -> Forall (fun a => control1 a = false) (fst (emit rune (strip_runes rest)))).
  { intros rune rest Hl Hr. cbn [emit fst]. apply Forall_app. split; [done|by apply IH]. }
  assert (Hbad : Forall (fun a => control1 a = false) replacement) by (by repeat constructor).
  destruct l as [|a l1]; [constructor|]. cbn [strip_runes]. destruct (byte_of a <? 128) eqn:Ea.
  { destruct (control1 a) eqn:Ec; [apply (IH l1); cbn; lia|]. apply Hemit; [cbn; lia|by repeat constructor]. }
  assert (Ha : control1 a = false) by (by apply Hhigh). destruct l1 as [|b l2]; [apply (Hemit _ []); [cbn; lia|done]|]. destruct (utf8_2 a b) eqn:E2.
  { destruct (control2 a b) eqn:Ec; [apply (IH l2); cbn; lia|]. apply Hemit; [cbn; lia|]. apply andb_true_iff in E2 as [_ E2]. repeat constructor; auto. }
  destruct l2 as [|c l3]; [apply Hemit; [cbn; lia|done]|]. destruct (utf8_3 a b c) eqn:E3.
  { apply Hemit; [cbn; lia|]. unfold utf8_3 in E3. rewrite !orb_true_iff, !andb_true_iff in E3. assert (control1 b = false /\ control1 c = false) as [? ?]; [|by repeat constructor].
    destruct E3 as [[[[_ Hb] Hc]|[[_ Hb] Hc]]|[[_ Hb] Hc]]; split; eauto; refine (Hbetween _ _ _ _ Hb); lia. }
  destruct l3 as [|d l4]; [apply Hemit; [cbn; lia|done]|]. destruct (utf8_4 a b c d) eqn:E4; [|apply Hemit; [cbn; lia|done]].
  apply Hemit; [cbn; lia|]. unfold utf8_4 in E4. rewrite !orb_true_iff, !andb_true_iff in E4. assert (control1 b = false /\ control1 c = false /\ control1 d = false) as (? & ? & ?); [|by repeat constructor].
  destruct E4 as [[[[[_ Hb] Hc] Hd]|[[[_ Hb] Hc] Hd]]|[[[_ Hb] Hc] Hd]]; split_and!; eauto; refine (Hbetween _ _ _ _ Hb); lia.
Qed.

Lemma no_cr_replace l : Forall (fun a => control1 a = false) l -> replace_cr (replace_crlf l) = l.
Proof.
  intros Hl. assert (Hcr : Forall (fun a => byte_of a =? 13 = false) l).
  { eapply Forall_impl; [exact Hl|]. intros a Ha. destruct (Z.eqb_spec (byte_of a) 13) as [E|]; [|done]. unfold control1 in Ha. by rewrite E in Ha. }
  assert (Hcrlf : replace_crlf l = l).
  { clear Hl. induction l as [l IH] using (induction_ltof1 _ (@length ascii)). unfold ltof in IH. destruct l as [|a [|b l]]; [done|done|]. inversion Hcr as [|? ? Ha Hb]; subst.
    change (replace_crlf (a :: b :: l)) with (if (byte_of a =? 13) && (byte_of b =? 10) then b :: replace_crlf l else a :: replace_crlf (b :: l)).
    rewrite Ha. cbn [andb]. f_equal. apply IH; [cbn; lia|done]. }
  rewrite Hcrlf. unfold replace_cr. clear Hl Hcrlf. induction Hcr as [|a l Ha _ IH]; [done|]. cbn [List.map]. by rewrite Ha, IH.
Qed.

(** A text whose controls were stripped has no ASCII control character other
    than tabs and line feeds, and stripping it again changes and counts nothing. *)
Theorem stripControls_clean (value : string) :
  Forall (fun a => control1 a = false) (list_ascii_of_string (fst (stripControls value))) /\ stripControls (fst (stripControls value)) = (fst (stripControls value), 0).
Proof.
  unfold stripControls at 1 3 4. pose proof (strip_no_control (replace_cr (replace_crlf (list_ascii_of_string value)))) as Hn.
  pose proof (strip_idem (replace_cr (replace_crlf (list_ascii_of_string value)))) as Hi. destruct (strip_runes _) as [l n]. cbn [fst] in *.
  unfold stripControls. rewrite list_ascii_of_string_of_list_ascii. split; [done|]. by rewrite (no_cr_replace l Hn), Hi.
Qed.

(** ** The sanitized request *)
Section sound.
Context `{Protobuf} `{Redactor}.

Definition clean_field (f : Field) : Field := mk_Field (fd_Name f) (cleaned (fd_StringValue f)).
Definition clean_fields : list (option Field) -> list (option Field) := List.map (option_map clean_field).

Definition clean_event (e : TraceEvent) : TraceEvent :=
  mk_TraceEvent (ev_ClientEventId e) (ev_OccurredAt e) (ev_Kind e) (ev_ToolName e) (ev_ToolVersion e) (clean_fields (ev_Fields e))
    (option_map (fun r => mk_ToolResult (tl_State r) (tl_ExitCode r) (clean_fields (tl_Evidence r))) (ev_Result e)).

(** The request with every free text cleaned and nothing else changed. *)
Definition clean_request (r : IngestTraceRequest) : IngestTraceRequest :=
  mk_IngestTraceRequest (ir_ClientTraceId r) (ir_Harness r) (ir_HarnessVersion r) (cleaned (ir_Task r)) (List.map (option_map clean_event) (ir_Events r))
    (clean_fields (ir_Environment r)).

Definition field_allowed (policy : SanitizerPolicy) (f : option Field) : Prop :=
  exists item, f = Some item /\ TrimSpace (fd_Name item) ∈ sp_AllowedFields policy /\ str_len (fd_StringValue item) <= sp_MaxValueBytes policy.

Definition event_allowed (policy : SanitizerPolicy) (e : option TraceEvent) : Prop :=
  exists event, e = Some event /\ Forall (field_allowed policy) (ev_Fields event) /\
    match ev_Result event with Some r => Forall (field_allowed policy) (tl_Evidence r) | None => True end.

Lemma sanitizeValue_clean value report : fst (sanitizeValue value report) = cleaned value.
Proof. unfold sanitizeValue, cleaned. destruct (stripControls value). cbn [fst]. by destruct (redact s). Qed.

Lemma sanitize_fields_clean fields report : fst (sanitize_fields fields report) = clean_fields fields.
Proof.
  revert report. induction fields as [|[f|] fields IH]; intros report; [done| |]; cbn [sanitize_fields].
  - pose proof (sanitizeValue_clean (fd_StringValue f) report) as Hv. destruct (sanitizeValue _ report) as [value rep]. specialize (IH rep). destruct (sanitize_fields fields rep).
    cbn in *. unfold clean_field. congruence.
  - specialize (IH report). destruct (sanitize_fields fields report). cbn in *. congruence.
Qed.

Lemma sanitize_events_clean events report : fst (sanitize_events events report) = List.map (option_map clean_event) events.
Proof.
  revert report. induction events as [|[e|] events IH]; intros report; [done| |]; cbn [sanitize_events].
  - pose proof (sanitize_fields_clean (ev_Fields e) report) as Hf. destruct (sanitize_fields (ev_Fields e) report) as [fields rep].
    assert (Hr : fst (sanitize_result (ev_Result e) rep) = option_map (fun r => mk_ToolResult (tl_State r) (tl_ExitCode r) (clean_fields (tl_Evidence r))) (ev_Result e)).
    { unfold sanitize_result. destruct (ev_Result e) as [r|]; [|done]. pose proof (sanitize_fields_clean (tl_Evidence r) rep) as He. destruct (sanitize_fields (tl_Evidence r) rep). cbn in *. congruence. }
    destruct (sanitize_result (ev_Result e) rep) as [outcome rep']. specialize (IH rep'). destruct (sanitize_events events rep') as [rest rep'']. cbn [fst List.map option_map] in *. unfold clean_event at 1. by rewrite Hf, Hr, IH.
  - specialize (IH report). destruct (sanitize_events events report). cbn in *. congruence.
Qed.

Lemma validateFields_allowed fields policy : validateFields fields policy = Ok tt <-> Forall (field_allowed policy) fields.
Proof.
  induction fields as [|[f|] fields IH]; cbn [validateFields]; [by split; [constructor|]| |].
  - rewrite Forall_cons, <- IH. case_bool_decide as Hn; cbn [negb]; [|by split; [done|intros [(i & [= <-] & ? & _) _]]].
    destruct (Z.ltb_spec (sp_MaxValueBytes policy) (str_len (fd_StringValue f))); [split; [done|intros [(i & [= <-] & _ & ?) _]; lia]|].
    split; [intros Hv; split; [|done]; by exists f|by intros [_ ?]].
  - split; [done|]. intros Hf. inversion Hf as [|? ? (i & ? & _) _]. done.
Qed.

Lemma validate_event_fields_allowed events policy : validate_event_fields events policy = Ok tt <-> Forall (event_allowed policy) events.
Proof.
  induction events as [|[e|] events IH]; cbn [validate_event_fields]; [by split; [constructor|]| |].
  - rewrite Forall_cons, <- IH. split.
    + intros Hv. inv_Ok Hv. split; [|done]. exists e. split; [done|]. repeat match goal with u : () |- _ => destruct u end.
      split; [by apply validateFields_allowed|]. destruct (ev_Result e); [by apply validateFields_allowed|done].
    + intros [(e' & [= <-] & Hf & Hr) Hv]. rewrite (proj2 (validateFields_allowed _ _) Hf). cbn [bind]. destruct (ev_Result e) as [r|]; [|done].
      by rewrite (proj2 (validateFields_allowed _ _) Hr).
  - split; [done|]. intros Hf. inversion Hf as [|? ? (i & ? & _) _]. done.
Qed.

Lemma Sanitize_iff request policy clean :
  (exists report, Sanitize (Some request) policy = Ok (clean, report)) <->
  clean = clean_request request /\ 0 < sp_MaxValueBytes policy /\ 0 < sp_MaxTaskBytes policy /\ 0 < sp_MaxTotalBytes policy /\
  size_ingest request <= sp_MaxTotalBytes policy /\ str_len (ir_Task request) <= sp_MaxTaskBytes policy /\
  Forall (field_allowed policy) (ir_Environment request) /\ Forall (event_allowed policy) (ir_Events request) /\
  Forall (fun value => cleaned value = value) (identities request).
Proof.
  unfold Sanitize. pose proof (sanitizeValue_clean (ir_Task request) empty_report) as Ht. destruct (sanitizeValue (ir_Task request) empty_report) as [task rep].
  pose proof (sanitize_fields_clean (ir_Environment request) rep) as Hf. destruct (sanitize_fields (ir_Environment request) rep) as [environment rep'].
  pose proof (sanitize_events_clean (ir_Events request) rep') as He. destruct (sanitize_events (ir_Events request) rep') as [events rep'']. cbn [fst] in *.
  assert (Hid : validatePersistedIdentities request = Ok tt <-> Forall (fun value => cleaned value = value) (identities request)).
  { unfold validatePersistedIdentities. rewrite Forall_forall. destruct (existsb _ _) eqn:Ex.
    - split; [done|]. intros Hall. apply existsb_exists in Ex as (v & Hin & Hv). rewrite sanitizeValue_clean, (Hall v), str_eqb_refl in Hv by (by apply list_elem_of_In). done.
    - split; [|done]. intros _ v Hin. destruct (String.eqb_spec (cleaned v) v) as [|Hne]; [done|]. exfalso. apply not_true_iff_false in Ex. apply Ex, existsb_exists. exists v.
      split; [by apply list_elem_of_In|]. rewrite sanitizeValue_clean. apply String.eqb_neq in Hne. by rewrite Hne. }
  rewrite <- Hid, <- validateFields_allowed, <- validate_event_fields_allowed. unfold validateFieldLimits, clean_request. rewrite <- Ht, <- Hf, <- He. split.
  - intros [report Hs]. inv_Ok Hs. injection Hs as <- _. repeat match goal with u : () |- _ => destruct u end.
    match goal with Hl : bind _ _ = Ok tt |- _ => inv_Ok Hl; repeat match goal with u : () |- _ => destruct u end end. 
    autorewrite with goboolsimpl in *. destruct_and!. done.
  - intros (-> & H1 & H2 & H3 & H4 & H5 & H6 & H7 & H8). exists rep''. rewrite !(proj2 (Z.leb_gt _ _)), !(proj2 (Z.ltb_ge _ _)) by lia. cbn [orb]. by rewrite H6, H7, H8.
Qed.

End sound.

(** ** An example *)
Section demo.
#[local] Existing Instance counting_protobuf.

(** Redacts a text that starts with a token prefix. *)
Definition prefix_redactor : Redactor := fun s => if HasPrefix s "sk_live_" then ("[REDACTED]", ["provider_token"])%string else (s, []).
#[local] Existing Instance prefix_redactor.

Example sanitize_sample :
  match Sanitize (Some (sample_request [Some (mk_Field "command" "sk_live_secret")])) DefaultPolicy with
  | Ok (clean, report) => ir_Environment clean = [Some (mk_Field "command" "[REDACTED]")] /\ sr_Redactions report = 1
  | Err _ => False
  end /\
  Sanitize (Some (sample_request [Some (mk_Field "password" "x")])) DefaultPolicy = Err ErrForbiddenField.
Proof. vm_compute. done. Qed.

Example strip_sample : stripControls (string_of_list_ascii (List.map ascii_of_nat [97; 13; 10; 13; 7; 194; 133; 255; 98])%nat) =
  (string_of_list_ascii (List.map ascii_of_nat [97; 10; 10; 239; 191; 189; 98])%nat, 2).
Proof. vm_compute. reflexivity. Qed.
End demo.
