(* ===== verification/Archive.v ===== *)
(** * The archive of canonical traces (internal/archive/archive.go, memory.go)

    Objects are stored under a key that names the tenant's digest, the schema
    version and the digest of the bytes.  [KeyFor] makes the key and
    [metadataFromKey] reads it; [PutCanonical] stores bytes whose digest is the
    one the key names, and [GetBounded] reads them up to a limit.

    [archive_roundtrip] shows that what was stored is read back after any later
    calls, and that the object under a key is always the bytes that its digest
    names. *)

From Stdlib Require Import ZArith String Ascii List Bool Lia.
From stdpp Require Import base gmap strings list sorting.
From S2P Require Import Prelude GoStrings GoTime Canonical RetrievalQuery.

Open Scope Z_scope.
Open Scope go_scope.

(** [strings.HasSuffix(s, suffix)] and [strings.TrimSuffix(s, suffix)] *)
Definition HasSuffix (s suffix : string) : bool :=
  (str_len suffix <=? str_len s) && String.eqb (str_drop (String.length s - String.length suffix) s) suffix.
Definition TrimSuffix (s suffix : string) : string :=
  if HasSuffix s suffix then str_take (String.length s - String.length suffix) s else s.

Definition schema_byte (a : ascii) : bool := let b := byte_of a in is_alnum a || (b =? 46) || (b =? 95) || (b =? 45).

(** [^[A-Za-z0-9][A-Za-z0-9._-]{0,63}$] *)
Definition schemaVersionPattern (s : string) : bool :=
  match s with
  | EmptyString => false
  | String a rest => is_alnum a && (str_len rest <=? 63) && forallb schema_byte (list_ascii_of_string rest)
  end.

Record PutRequest := mk_PutRequest { pu_TenantID : string; pu_SchemaVersion : string; pu_Hash : string; pu_Body : string }.
Record Object := mk_Object { ob_Key : string; ob_Hash : string; ob_Size : Z; ob_Reused : bool }.
Record MemoryStore := mk_MemoryStore { objects : gmap string string; puts : Z }.

Definition NewMemoryStore : MemoryStore := mk_MemoryStore ∅ 0.

(** [metadataFromKey]: the schema version and the hash that a key names. *)
Definition metadataFromKey (key : string) : result (string * string) :=
  reject negb (HasPrefix key "canonical/") || negb (HasSuffix key ".json") with ErrInvalidArchiveRequest;
  match path_elements key with
  | [_; _; schema; name] =>
      reject negb (schemaVersionPattern schema) with ErrInvalidArchiveRequest;
      let hash := TrimSuffix name ".json" in
      reject negb (sha256Pattern hash) with ErrInvalidArchiveRequest;
      Ok (schema, hash)
  | _ => Err ErrInvalidArchiveRequest
  end.

Definition hashFromKey (key : string) : result string := let* (_, hash) := metadataFromKey key in Ok hash.

(** ** Strings *)
Lemma HasSuffix_app s t : HasSuffix (s ++ t) t = true /\ TrimSuffix (s ++ t) t = s.
Proof.
  assert (Hl : (String.length (s ++ t) - String.length t)%nat = String.length s) by (pose proof (str_len_app s t) as Hl; unfold str_len in Hl; lia).
  assert (Hs : HasSuffix (s ++ t) t = true).
  { unfold HasSuffix. rewrite Hl, str_drop_app, str_eqb_refl. rewrite str_len_app. apply andb_true_iff. split; [apply Z.leb_le; unfold str_len; lia|done]. }
  split; [done|]. unfold TrimSuffix. by rewrite Hs, Hl, str_take_app.
Qed.

Lemma no_slash_bytes (f : ascii -> bool) s : f slash = false -> forallb f (list_ascii_of_string s) = true -> no_slash s.
Proof.
  intros Hf Hs Hin. rewrite forallb_forall in Hs. apply list_elem_of_In, Hs in Hin. congruence.
Qed.

Lemma no_slash_app s t : no_slash s -> no_slash t -> no_slash (s ++ t).
Proof. unfold no_slash. rewrite list_ascii_app. set_solver. Qed.

Lemma forallb_str_take (f : ascii -> bool) n s : forallb f (list_ascii_of_string s) = true -> forallb f (list_ascii_of_string (str_take n s)) = true.
Proof. revert n. induction s as [|a s IH]; intros [|n]; try done. cbn [str_take list_ascii_of_string forallb]. intros [-> Hs]%andb_true_iff. by apply IH. Qed.

Lemma sha256Pattern_no_slash s : sha256Pattern s = true -> no_slash s.
Proof. intros [_ Hs]%andb_true_iff. by apply (no_slash_bytes is_lower_hex). Qed.

Lemma schemaVersion_no_slash s : schemaVersionPattern s = true -> no_slash s.
Proof.
  destruct s as [|a s]; [done|]. cbn [schemaVersionPattern]. intros [[Ha _]%andb_true_iff Hs]%andb_true_iff. apply (no_slash_bytes schema_byte); [done|].
  cbn [list_ascii_of_string forallb]. rewrite Hs. unfold schema_byte. by rewrite Ha.
Qed.

Section archive.
Context `{Digest}.

Definition KeyFor (tenantID schemaVersion contentHash : string) : result string :=
  reject String.eqb (TrimSpace tenantID) "" || negb (schemaVersionPattern schemaVersion) || negb (sha256Pattern contentHash) with ErrInvalidArchiveRequest;
  Ok ("canonical/" ++ str_take 16 (sum256_hex tenantID) ++ "/" ++ schemaVersion ++ "/" ++ contentHash ++ ".json")%string.

Definition validatePutRequest (req : PutRequest) : result string :=
  let* key := KeyFor (pu_TenantID req) (pu_SchemaVersion req) (pu_Hash req) in
  reject negb (String.eqb (sum256_hex (pu_Body req)) (pu_Hash req)) with ErrHashMismatch;
  Ok key.

Definition PutCanonical (s : MemoryStore) (ctx : option goerr) (req : PutRequest) : result Object * MemoryStore :=
  match ctx with
  | Some e => (Err e, s)
  | None =>
      match validatePutRequest req with
      | Err e => (Err e, s)
      | Ok key =>
          match objects s !! key with
          | Some existing => (Ok (mk_Object key (pu_Hash req) (str_len existing) true), s)
          | None => (Ok (mk_Object key (pu_Hash req) (str_len (pu_Body req)) false), mk_MemoryStore (<[key := pu_Body req]> (objects s)) (puts s + 1))
          end
      end
  end.

Definition GetBounded (s : MemoryStore) (ctx : option goerr) (key : string) (maximumBytes : Z) : result string :=
  match ctx with
  | Some e => Err e
  | None =>
      let* _ := hashFromKey key in
      match objects s !! key with
      | None => Err ErrArchiveNotFound
      | Some body => reject (maximumBytes <=? 0) || (maximumBytes <? str_len body) with ErrTooLarge; Ok body
      end
  end.

Definition Get (s : MemoryStore) (ctx : option goerr) (key : string) : result string := GetBounded s ctx key 67108864.

(** ** Histories *)
Definition put_all (s : MemoryStore) (requests : list (option goerr * PutRequest)) : MemoryStore :=
  foldl (fun s r => snd (PutCanonical s (fst r) (snd r))) s requests.

(** Every object is the bytes that its key's digest names. *)
Definition addressed (s : MemoryStore) : Prop := forall key body, objects s !! key = Some body -> hashFromKey key = Ok (sum256_hex body).

Lemma KeyFor_hash tenantID schemaVersion contentHash key : KeyFor tenantID schemaVersion contentHash = Ok key -> hashFromKey key = Ok contentHash.
Proof.
  unfold KeyFor. intros Hk. inv_Ok Hk. apply Ok_inj in Hk as <-. apply orb_false_iff in E as [[_ Hsv%negb_false_iff]%orb_false_iff Hh%negb_false_iff].
  set (tenant := str_take 16 (sum256_hex tenantID)). assert (Ht : no_slash tenant).
  { apply (no_slash_bytes is_lower_hex); [done|]. apply forallb_str_take. by destruct (proj1 (andb_true_iff _ _) (sum256_hex_pattern tenantID)). }
  set (key := ("canonical/" ++ tenant ++ "/" ++ schemaVersion ++ "/" ++ contentHash ++ ".json")%string).
  assert (Hparts : path_elements key = ["canonical"; tenant; schemaVersion; contentHash ++ ".json"]%string).
  { change key with (join "/" ["canonical"; tenant; schemaVersion; contentHash ++ ".json"])%string. apply path_elements_join; [done|].
    repeat constructor; [by vm_compute; set_solver|done|by apply schemaVersion_no_slash|]. apply no_slash_app; [by apply sha256Pattern_no_slash|by vm_compute; set_solver]. }
  assert (Hsuffix : HasSuffix key ".json" = true).
  { unfold key. rewrite !str_app_assoc. apply HasSuffix_app. }
  unfold hashFromKey, metadataFromKey. rewrite Hsuffix, Hparts. change (HasPrefix key "canonical/") with true. cbn [negb orb bind]. rewrite Hsv. cbn [negb].
  rewrite (proj2 (HasSuffix_app contentHash ".json")), Hh. done.
Qed.

Lemma PutCanonical_cases s ctx req res s' :
  PutCanonical s ctx req = (res, s') ->
  s' = s \/ exists key, validatePutRequest req = Ok key /\ objects s !! key = None /\ objects s' = <[key := pu_Body req]> (objects s) /\
    res = Ok (mk_Object key (pu_Hash req) (str_len (pu_Body req)) false).
Proof.
  unfold PutCanonical. destruct ctx; [intros [= _ <-]; by left|]. destruct (validatePutRequest req) as [key|] eqn:Ev; [|intros [= _ <-]; by left].
  destruct (objects s !! key) eqn:Ek; [intros [= _ <-]; by left|]. intros [= <- <-]. right. by exists key.
Qed.

Lemma validatePutRequest_inv req key : validatePutRequest req = Ok key -> hashFromKey key = Ok (pu_Hash req) /\ sum256_hex (pu_Body req) = pu_Hash req.
Proof. unfold validatePutRequest. intros Hv. inv_Ok Hv. injection Hv as ->. apply negb_false_iff, String.eqb_eq in E. split; [by eapply KeyFor_hash|done]. Qed.

Lemma PutCanonical_addressed s ctx req : addressed s -> addressed (snd (PutCanonical s ctx req)).
Proof.
  intros Hs. destruct (PutCanonical s ctx req) as [res s'] eqn:E. destruct (PutCanonical_cases _ _ _ _ _ E) as [->|(key & Hv & _ & Ho & _)]; [done|]. cbn [snd].
  intros k body. rewrite Ho. intros [[<- <-]|[_ Hk]]%lookup_insert_Some; [|by apply Hs]. destruct (validatePutRequest_inv _ _ Hv) as [-> <-]. done.
Qed.

Lemma PutCanonical_keeps s ctx req key body : objects s !! key = Some body -> objects (snd (PutCanonical s ctx req)) !! key = Some body.
Proof.
  intros Hk. destruct (PutCanonical s ctx req) as [res s'] eqn:E. destruct (PutCanonical_cases _ _ _ _ _ E) as [->|(k & _ & Hn & Ho & _)]; [done|]. cbn [snd].
  rewrite Ho, lookup_insert_ne; [done|congruence].
Qed.

Lemma put_all_addressed s requests : addressed s -> addressed (put_all s requests).
Proof. revert s. induction requests as [|[ctx r] requests IH]; intros s Hs; [done|]. by apply IH, PutCanonical_addressed. Qed.

Lemma put_all_keeps s requests key body : objects s !! key = Some body -> objects (put_all s requests) !! key = Some body.
Proof. revert s. induction requests as [|[ctx r] requests IH]; intros s Hs; [done|]. by apply IH, PutCanonical_keeps. Qed.

(** What a stored object promises: bytes of its size, whose digest is its hash. *)
Lemma PutCanonical_stored s ctx req obj s' :
  addressed s -> PutCanonical s ctx req = (Ok obj, s') -> hashFromKey (ob_Key obj) = Ok (pu_Hash req) /\ ob_Hash obj = pu_Hash req /\
  KeyFor (pu_TenantID req) (pu_SchemaVersion req) (pu_Hash req) = Ok (ob_Key obj) /\
  exists body, objects s' !! ob_Key obj = Some body /\ sum256_hex body = pu_Hash req /\ ob_Size obj = str_len body.
Proof.
  intros Hs. unfold PutCanonical. destruct ctx; [done|]. destruct (validatePutRequest req) as [key|] eqn:Ev; [|done]. destruct (validatePutRequest_inv _ _ Ev) as [Hh Hb].
  assert (Hkey : KeyFor (pu_TenantID req) (pu_SchemaVersion req) (pu_Hash req) = Ok key) by (unfold validatePutRequest in Ev; inv_Ok Ev; by injection Ev as ->).
  destruct (objects s !! key) as [body|] eqn:Ek; intros [= <- <-]; cbn [ob_Key ob_Hash ob_Size objects]; split_and!; try done.
  - exists body. split_and!; try done. specialize (Hs _ _ Ek). rewrite Hh in Hs. by injection Hs.
  - exists (pu_Body req). by rewrite lookup_insert_eq.
Qed.

(** After any calls, an object that was stored is read back within its limit as
    bytes whose digest is the hash that was given, of the size that was reported:
    the bytes that were stored, unless two byte strings have the same digest. *)
Theorem archive_roundtrip (before later : list (option goerr * PutRequest)) (ctx : option goerr) (req : PutRequest) (obj : Object) (s : MemoryStore) (maximum : Z) :
  PutCanonical (put_all NewMemoryStore before) ctx req = (Ok obj, s) -> 0 < maximum -> ob_Size obj <= maximum ->
  exists body, GetBounded (put_all s later) None (ob_Key obj) maximum = Ok body /\ sum256_hex body = pu_Hash req /\ str_len body = ob_Size obj /\
    ((forall other, sum256_hex other = sum256_hex (pu_Body req) -> other = pu_Body req) -> body = pu_Body req).
Proof.
  intros Hput Hpos Hmax. assert (Ha : addressed (put_all NewMemoryStore before)) by (by apply put_all_addressed).
  destruct (PutCanonical_stored _ _ _ _ _ Ha Hput) as (Hh & _ & _ & body & Hb & Hd & Hsize). exists body. unfold GetBounded. rewrite Hh. cbn [bind].
  rewrite (put_all_keeps _ _ _ _ Hb). rewrite Hsize in Hmax. rewrite (proj2 (Z.leb_gt _ _)), (proj2 (Z.ltb_ge _ _)) by lia. cbn [orb]. split_and!; try done.
  intros Hinj. apply Hinj. rewrite Hd. unfold PutCanonical in Hput. destruct ctx; [done|]. destruct (validatePutRequest req) as [key|] eqn:Ev; [|done].
  by destruct (validatePutRequest_inv _ _ Ev) as [_ <-].
Qed.
End archive.

(** ** Witnesses *)
Section demo.
#[local] Existing Instance checksum_digest.

Definition sample_put (body : string) : PutRequest := mk_PutRequest "tenant_a" "canonical.v1" (checksum_hex body) body.

Definition sample_object : Object :=
  mk_Object ("canonical/" ++ str_take 16 (checksum_hex "tenant_a") ++ "/canonical.v1/" ++ checksum_hex "first" ++ ".json") (checksum_hex "first") 5 false.

Lemma archive_roundtrip_witness :
  exists body, GetBounded (put_all (snd (PutCanonical NewMemoryStore None (sample_put "first"))) [(None, sample_put "second"); (None, sample_put "first")]) None
    (ob_Key sample_object) 5 = Ok body /\ sum256_hex body = pu_Hash (sample_put "first") /\ str_len body = ob_Size sample_object.
Proof.
  assert (Hput : PutCanonical (put_all NewMemoryStore []) None (sample_put "first") = (Ok sample_object, snd (PutCanonical NewMemoryStore None (sample_put "first"))))
    by (vm_compute; reflexivity).
  destruct (archive_roundtrip [] [(None, sample_put "second"); (None, sample_put "first")] None (sample_put "first") sample_object _ 5 Hput eq_refl ltac:(discriminate))
    as (body & Hg & Hd & Hl & _).
  exact (ex_intro _ body (conj Hg (conj Hd Hl))).
Defined.
End demo.
