(* ===== verification/RetrievalDocument.v ===== *)
(** * Retrieval documents (internal/retrieval/document.go)

    A document is what retrieval sees of a procedure version: what it is for,
    what it needs, where it was learned, and its lifecycle and evidence counts.
    It is sealed by its content hash, and a revision changes only the counts,
    the lifecycle and the time of validation.  [BuildDocument_spec],
    [ReviseEvidence_spec] and [ReviseLifecycle_spec] show that every document
    the package makes passes [ValidateDocument] and what it keeps. *)

From Stdlib Require Import ZArith String Ascii List Bool Lia.
From stdpp Require Import base gmap strings list sorting.
From S2P Require Import Prelude GoStrings GoTime Canonical Interfaces RetrievalQuery.

Open Scope Z_scope.
Open Scope go_scope.

Definition documentSchemaVersion : string := "retrieval-document.v2".
Definition legacyDocumentSchemaVersion : string := "retrieval-document.v1".

Record ToolRequirement := mk_ToolRequirement { td_Name : string; td_ContractVersionID : string }.

Record ResourceRequirement := mk_ResourceRequirement {
  rr_Type : string;
  rr_Namespace : string;
  rr_IdentityHash : string;
  rr_SchemaVersion : string
}.

Record DocumentInput := mk_DocumentInput {
  di_TenantID : string;
  di_ProcedureVersionID : string;
  di_ProcedureID : string;
  di_TaskText : string;
  di_IntentHash : string;
  di_EffectSignatureHash : string;
  di_Tools : list ToolRequirement;
  di_OrderedStepContractIDs : list string;
  di_Resources : list ResourceRequirement;
  di_Effects : list string;
  di_EnvironmentScopeHash : string;
  di_Harness : Harness;
  di_Environment : list Fact;
  di_Lifecycle : string;
  di_ObservedEndToEnd : bool;
  di_VerificationStrength : Z;
  di_VerifiedSuccessCount : Z;
  di_UnsafeOutcomeCount : Z;
  di_ValidatedAt : gotime;
  di_ValidationPolicyVersion : string;
  di_LearnedWithRecallConsent : bool;
  di_ResidencyRegion : string;
  di_RiskClass : string;
  di_Interface : option ProcedureInterface
}.

Record Document := mk_Document {
  dc_SchemaVersion : string;
  dc_TenantID : string;
  dc_ProcedureVersionID : string;
  dc_ProcedureID : string;
  dc_TaskText : string;
  dc_IntentHash : string;
  dc_EffectSignatureHash : string;
  dc_Tools : list ToolRequirement;
  dc_Resources : list ResourceRequirement;
  dc_Effects : list string;
  dc_EnvironmentScopeHash : string;
  dc_Harness : Harness;
  dc_Environment : list Fact;
  dc_Lifecycle : string;
  dc_ObservedEndToEnd : bool;
  dc_VerificationStrength : Z;
  dc_VerifiedSuccessCount : Z;
  dc_UnsafeOutcomeCount : Z;
  dc_ValidatedAt : string;
  dc_ValidationPolicyVersion : string;
  dc_LearnedWithRecallConsent : bool;
  dc_ResidencyRegion : string;
  dc_RiskClass : string;
  dc_Interface : option ProcedureInterface;
  dc_PrefixHashes : list string;
  dc_ID : string;
  dc_ContentHash : string;
  dc_CanonicalJSON : string
}.

Definition tool_requirement_json (t : ToolRequirement) : json :=
  JObj (fstr "name" (td_Name t) ++ fstr "contract_version_id" (td_ContractVersionID t)).

Definition resource_requirement_json (r : ResourceRequirement) : json :=
  JObj (fstr "type" (rr_Type r) ++ fstr_omit "namespace" (rr_Namespace r) ++ fstr "identity_hash" (rr_IdentityHash r) ++
        fstr_omit "schema_version" (rr_SchemaVersion r)).

Definition document_json (d : Document) : json :=
  JObj (fstr "schema_version" (dc_SchemaVersion d) ++ fstr "tenant_id" (dc_TenantID d) ++
        fstr "procedure_version_id" (dc_ProcedureVersionID d) ++ fstr "procedure_id" (dc_ProcedureID d) ++ fstr "task_text" (dc_TaskText d) ++
        fstr "intent_hash" (dc_IntentHash d) ++ fstr "effect_signature_hash" (dc_EffectSignatureHash d) ++
        farr "tools" (List.map tool_requirement_json (dc_Tools d)) ++ farr_omit "resources" (List.map resource_requirement_json (dc_Resources d)) ++
        fstrs_omit "effects" (dc_Effects d) ++ fstr "environment_scope_hash" (dc_EnvironmentScopeHash d) ++
        fld "harness" (harness_json (dc_Harness d)) ++ farr_omit "environment" (List.map fact_json (dc_Environment d)) ++
        fstr "lifecycle" (dc_Lifecycle d) ++ fbool "observed_end_to_end" (dc_ObservedEndToEnd d) ++
        fnum "verification_strength" (dc_VerificationStrength d) ++ fnum "verified_success_count" (dc_VerifiedSuccessCount d) ++
        fnum "unsafe_outcome_count" (dc_UnsafeOutcomeCount d) ++ fstr "validated_at" (dc_ValidatedAt d) ++
        fstr "validation_policy_version" (dc_ValidationPolicyVersion d) ++
        fbool "learned_with_recall_consent" (dc_LearnedWithRecallConsent d) ++ fstr "residency_region" (dc_ResidencyRegion d) ++
        fstr "risk_class" (dc_RiskClass d) ++ match dc_Interface d with Some i => fld "interface" (interface_json i) | None => [] end ++
        fstrs "prefix_hashes" (dc_PrefixHashes d)).

(** [document.ID, document.ContentHash, document.CanonicalJSON = ...] *)
Definition with_seal (d : Document) (id hash encoded : string) : Document :=
  mk_Document (dc_SchemaVersion d) (dc_TenantID d) (dc_ProcedureVersionID d) (dc_ProcedureID d) (dc_TaskText d) (dc_IntentHash d)
    (dc_EffectSignatureHash d) (dc_Tools d) (dc_Resources d) (dc_Effects d) (dc_EnvironmentScopeHash d) (dc_Harness d) (dc_Environment d)
    (dc_Lifecycle d) (dc_ObservedEndToEnd d) (dc_VerificationStrength d) (dc_VerifiedSuccessCount d) (dc_UnsafeOutcomeCount d)
    (dc_ValidatedAt d) (dc_ValidationPolicyVersion d) (dc_LearnedWithRecallConsent d) (dc_ResidencyRegion d) (dc_RiskClass d)
    (dc_Interface d) (dc_PrefixHashes d) id hash encoded.

(** The fields that a revision sets. *)
Definition revised (d : Document) (lifecycle : string) (verified unsafe : Z) (validatedAt policyVersion : string) : Document :=
  mk_Document (dc_SchemaVersion d) (dc_TenantID d) (dc_ProcedureVersionID d) (dc_ProcedureID d) (dc_TaskText d) (dc_IntentHash d)
    (dc_EffectSignatureHash d) (dc_Tools d) (dc_Resources d) (dc_Effects d) (dc_EnvironmentScopeHash d) (dc_Harness d) (dc_Environment d)
    lifecycle (dc_ObservedEndToEnd d) (dc_VerificationStrength d) verified unsafe
    validatedAt policyVersion (dc_LearnedWithRecallConsent d) (dc_ResidencyRegion d) (dc_RiskClass d)
    (dc_Interface d) (dc_PrefixHashes d) "" "" "".

(** [validatedAt.UTC().Format(time.RFC3339Nano)] *)
Definition validated_string (t : gotime) : string := format_rfc3339nano (UTC t).

Definition validDocumentRisk (value : string) : bool :=
  String.eqb value "low" || String.eqb value "medium" || String.eqb value "high" || String.eqb value "critical".

Definition validLifecycle (value : string) : bool :=
  String.eqb value "candidate" || String.eqb value "trial" || String.eqb value "active" || String.eqb value "retired" ||
  String.eqb value "quarantined".

Definition validInitialLifecycle (value : string) : bool :=
  String.eqb value "candidate" || String.eqb value "trial" || String.eqb value "active".

Definition requirement_resource_key (r : ResourceRequirement) : string := join nul [rr_Type r; rr_Namespace r; rr_IdentityHash r].

Section document.
Context `{NFC} `{JCS} `{Digest}.

Definition normalizeToolRequirements (source : list ToolRequirement) : result (list ToolRequirement) :=
  reject count source =? 0 with ErrInvalidDocument;
  match collect named_value ∅ (List.map (fun t => (token (td_Name t), token (td_ContractVersionID t))) source) with
  | Some m => Ok (List.map (fun kv => mk_ToolRequirement (fst kv) (snd kv)) (sorted_entries m))
  | None => Err ErrInvalidDocument
  end.

Definition trim_requirement (item : ResourceRequirement) : ResourceRequirement :=
  mk_ResourceRequirement (token (rr_Type item)) (token (rr_Namespace item)) (token (rr_IdentityHash item)) (token (rr_SchemaVersion item)).

Fixpoint collect_requirements (seen : gmap string ResourceRequirement) (source : list ResourceRequirement)
    : result (gmap string ResourceRequirement) :=
  match source with
  | [] => Ok seen
  | item :: source =>
      let item := trim_requirement item in
      reject String.eqb (rr_Type item) "" || negb (sha256Pattern (rr_IdentityHash item)) with ErrInvalidDocument;
      let key := requirement_resource_key item in
      reject match seen !! key with Some prior => negb (String.eqb (rr_SchemaVersion prior) (rr_SchemaVersion item)) | None => false end
        with ErrInvalidDocument;
      collect_requirements (<[key := item]> seen) source
  end.

Definition normalizeResourceRequirements (source : list ResourceRequirement) : result (list ResourceRequirement) :=
  let* seen := collect_requirements ∅ source in
  Ok (sort_slice (cmp_ltb (cmp_on requirement_resource_key String.compare)) (List.map snd (map_to_list seen))).

(** The loop over the first steps; [before] are the tokens already read. *)
Fixpoint prefix_loop (before source : list string) : result (list string) :=
  match source with
  | [] => Ok []
  | item :: source =>
      let ids := before ++ [token item] in
      reject String.eqb (token item) "" with ErrInvalidDocument;
      let* (_, hash) := MarshalAndHash (jstrs ids) in
      let* rest := prefix_loop ids source in
      Ok (hash :: rest)
  end.

Definition prefixHashes (source : list string) : result (list string) :=
  reject count source =? 0 with ErrInvalidDocument;
  prefix_loop [] (firstn 8 source).

(** The document before its lists are normalized. *)
Definition draft_document (input : DocumentInput) : Document :=
  mk_Document documentSchemaVersion (di_TenantID input) (token (di_ProcedureVersionID input)) (token (di_ProcedureID input))
    (text (di_TaskText input)) (token (di_IntentHash input)) (token (di_EffectSignatureHash input)) [] [] []
    (token (di_EnvironmentScopeHash input)) (mk_Harness (token (hn_Name (di_Harness input))) (token (hn_Version (di_Harness input)))) []
    (token (di_Lifecycle input)) (di_ObservedEndToEnd input) (di_VerificationStrength input) (di_VerifiedSuccessCount input)
    (di_UnsafeOutcomeCount input) (validated_string (di_ValidatedAt input)) (token (di_ValidationPolicyVersion input))
    (di_LearnedWithRecallConsent input) (token (di_ResidencyRegion input)) (token (di_RiskClass input)) None [] "" "" "".

Definition draft_invalid (d : Document) (interface : option ProcedureInterface) : bool :=
  String.eqb (dc_TenantID d) "" || String.eqb (dc_ProcedureVersionID d) "" || String.eqb (dc_ProcedureID d) "" ||
  String.eqb (dc_TaskText d) "" || negb (sha256Pattern (dc_IntentHash d)) || negb (sha256Pattern (dc_EffectSignatureHash d)) ||
  negb (sha256Pattern (dc_EnvironmentScopeHash d)) || String.eqb (hn_Name (dc_Harness d)) "" || (dc_VerificationStrength d =? 0) ||
  (dc_VerifiedSuccessCount d =? 0) || String.eqb (dc_ValidationPolicyVersion d) "" || negb (dc_LearnedWithRecallConsent d) ||
  String.eqb (dc_ResidencyRegion d) "" || negb (validDocumentRisk (dc_RiskClass d)) || negb (validInitialLifecycle (dc_Lifecycle d)) ||
  match interface with Some i => failed (ValidateProcedureInterface i) | None => true end.

(** The document with its normalized lists. *)
Definition filled (d : Document) (tools : list ToolRequirement) (resources : list ResourceRequirement) (effects : list string)
    (environment : list Fact) (prefixes : list string) (interface : option ProcedureInterface) : Document :=
  mk_Document (dc_SchemaVersion d) (dc_TenantID d) (dc_ProcedureVersionID d) (dc_ProcedureID d) (dc_TaskText d) (dc_IntentHash d)
    (dc_EffectSignatureHash d) tools resources effects (dc_EnvironmentScopeHash d) (dc_Harness d) environment
    (dc_Lifecycle d) (dc_ObservedEndToEnd d) (dc_VerificationStrength d) (dc_VerifiedSuccessCount d) (dc_UnsafeOutcomeCount d)
    (dc_ValidatedAt d) (dc_ValidationPolicyVersion d) (dc_LearnedWithRecallConsent d) (dc_ResidencyRegion d) (dc_RiskClass d)
    interface prefixes "" "" "".

Definition seal_document (d : Document) : result Document :=
  let* (canonicalJSON, hash) := MarshalAndHash (document_json d) in
  Ok (with_seal d ("rdoc_" ++ hash) hash canonicalJSON).

Definition BuildDocument (input : DocumentInput) : result Document :=
  reject IsZero (di_ValidatedAt input) with ErrInvalidDocument;
  let draft := draft_document input in
  reject draft_invalid draft (di_Interface input) with ErrInvalidDocument;
  let* tools := normalizeToolRequirements (di_Tools input) in
  let* resources := normalizeResourceRequirements (di_Resources input) in
  let* effects := normalizeSet (di_Effects input) in
  let* environment := normalizeFacts (di_Environment input) in
  let* prefixes := prefixHashes (di_OrderedStepContractIDs input) in
  seal_document (filled draft tools resources effects environment prefixes (di_Interface input)).

Definition ValidateDocument (document : Document) : result unit :=
  reject negb (String.eqb (dc_SchemaVersion document) documentSchemaVersion) &&
         negb (String.eqb (dc_SchemaVersion document) legacyDocumentSchemaVersion) with ErrInvalidDocument;
  reject String.eqb (dc_SchemaVersion document) documentSchemaVersion &&
         match dc_Interface document with Some i => failed (ValidateProcedureInterface i) | None => true end with ErrInvalidDocument;
  reject String.eqb (dc_SchemaVersion document) legacyDocumentSchemaVersion &&
         match dc_Interface document with Some _ => true | None => false end with ErrInvalidDocument;
  match MarshalAndHash (document_json (with_seal document "" "" "")) with
  | Err _ => Err ErrInvalidDocument
  | Ok (canonicalJSON, hash) =>
      reject negb (String.eqb (dc_ID document) ("rdoc_" ++ hash)) || negb (String.eqb (dc_ContentHash document) hash) ||
             negb (String.eqb (dc_CanonicalJSON document) canonicalJSON) with ErrInvalidDocument;
      Ok tt
  end.

Definition ReviseEvidence (document : Document) (verifiedSuccessCount unsafeOutcomeCount : Z) (validatedAt : gotime) : result Document :=
  reject failed (ValidateDocument document) || negb (String.eqb (dc_SchemaVersion document) documentSchemaVersion) ||
         (verifiedSuccessCount =? 0) || IsZero validatedAt with ErrInvalidDocument;
  seal_document (revised document (dc_Lifecycle document) verifiedSuccessCount unsafeOutcomeCount (validated_string validatedAt)
                   (dc_ValidationPolicyVersion document)).

Definition ReviseLifecycle (document : Document) (lifecycle : string) (verifiedSuccessCount unsafeOutcomeCount : Z)
    (validatedAt : gotime) (validationPolicyVersion : string) : result Document :=
  reject failed (ValidateDocument document) || negb (String.eqb (dc_SchemaVersion document) documentSchemaVersion) ||
         IsZero validatedAt || negb (validLifecycle (token lifecycle)) || String.eqb (token validationPolicyVersion) "" with ErrInvalidDocument;
  seal_document (revised document (token lifecycle) verifiedSuccessCount unsafeOutcomeCount (validated_string validatedAt)
                   (token validationPolicyVersion)).

(** ** Seals *)

(** A document that is made and not yet sealed. *)
Definition unsealed_ok (d : Document) : Prop :=
  dc_SchemaVersion d = documentSchemaVersion /\ (exists i, dc_Interface d = Some i /\ ValidateProcedureInterface i = Ok tt) /\ with_seal d "" "" "" = d.

Lemma seal_document_spec d s :
  seal_document d = Ok s -> unsealed_ok d -> ValidateDocument s = Ok tt /\ s = with_seal d (dc_ID s) (dc_ContentHash s) (dc_CanonicalJSON s).
Proof.
  intros Hs (Hv & (i & Hi & Hok) & Hd). unfold seal_document in Hs. apply bind_Ok in Hs as ([c h] & Hm & [= <-]). split; [|done].
  unfold ValidateDocument. cbn [with_seal dc_SchemaVersion dc_Interface dc_ID dc_ContentHash dc_CanonicalJSON].
  rewrite Hv, Hi, Hok. cbn [failed is_ok negb].
  replace (with_seal (with_seal d ("rdoc_" ++ h) h c) "" "" "") with d by (by rewrite <- Hd at 1).
  rewrite Hm, !str_eqb_refl. done.
Qed.

Lemma ValidateDocument_unsealed d : ValidateDocument d = Ok tt -> dc_SchemaVersion d = documentSchemaVersion ->
  exists i, dc_Interface d = Some i /\ ValidateProcedureInterface i = Ok tt.
Proof.
  unfold ValidateDocument. intros Hv Hs. rewrite Hs in Hv. cbn in Hv. destruct (dc_Interface d) as [i|]; [|done]. exists i. split; [done|].
  unfold failed in Hv. by destruct (ValidateProcedureInterface i) as [[]|].
Qed.

Lemma ReviseEvidence_spec d verified unsafe at_ s :
  ReviseEvidence d verified unsafe at_ = Ok s ->
  ValidateDocument d = Ok tt /\ dc_SchemaVersion d = documentSchemaVersion /\ verified <> 0 /\ ValidateDocument s = Ok tt /\
  s = with_seal (revised d (dc_Lifecycle d) verified unsafe (validated_string at_) (dc_ValidationPolicyVersion d)) (dc_ID s) (dc_ContentHash s) (dc_CanonicalJSON s).
Proof.
  unfold ReviseEvidence. destruct (_ || IsZero at_) eqn:E; [done|]. intros Hs. unfold failed in E.
  destruct (ValidateDocument d) as [[]|] eqn:Ev; [|done]. cbn [is_ok negb] in E. autorewrite with goboolsimpl in E. destruct E as [[[_ E1] E2] _].
  destruct (ValidateDocument_unsealed _ Ev E1) as (i & Hi & Hok).
  apply seal_document_spec in Hs as [Hv Heq]; [|split; [done|split; [by exists i|done]]]. split_and!; [done..|lia|done|done].
Qed.

Lemma ReviseLifecycle_spec d lifecycle verified unsafe at_ policy s :
  ReviseLifecycle d lifecycle verified unsafe at_ policy = Ok s ->
  ValidateDocument d = Ok tt /\ dc_SchemaVersion d = documentSchemaVersion /\ validLifecycle (token lifecycle) = true /\ ValidateDocument s = Ok tt /\
  s = with_seal (revised d (token lifecycle) verified unsafe (validated_string at_) (token policy)) (dc_ID s) (dc_ContentHash s) (dc_CanonicalJSON s).
Proof.
  unfold ReviseLifecycle. destruct (_ || String.eqb (token policy) "") eqn:E; [done|]. intros Hs. unfold failed in E.
  destruct (ValidateDocument d) as [[]|] eqn:Ev; [|done]. cbn [is_ok negb] in E. autorewrite with goboolsimpl in E.
  destruct E as [[[[_ E1] _] E3] _]. destruct (ValidateDocument_unsealed _ Ev E1) as (i & Hi & Hok).
  apply seal_document_spec in Hs as [Hv Heq]; [|split; [done|split; [by exists i|done]]]. by split_and!.
Qed.

Lemma BuildDocument_spec input s :
  BuildDocument input = Ok s ->
  ValidateDocument s = Ok tt /\ dc_SchemaVersion s = documentSchemaVersion /\ dc_TenantID s = di_TenantID input /\
  dc_ProcedureVersionID s = token (di_ProcedureVersionID input) /\ dc_ProcedureID s = token (di_ProcedureID input) /\
  dc_Lifecycle s = token (di_Lifecycle input) /\ validInitialLifecycle (dc_Lifecycle s) = true /\ dc_Interface s = di_Interface input.
Proof.
  unfold BuildDocument. intros Hb. destruct (IsZero _); [done|]. destruct (draft_invalid _ _) eqn:Ed; [done|].
  unfold draft_invalid in Ed. apply orb_false_iff in Ed as [Ed Hi]. apply orb_false_iff in Ed as [_ Hl%negb_false_iff].
  inv_Ok Hb. apply seal_document_spec in Hb as [Hv Hs].
  - split; [done|]. rewrite Hs. by split_and!.
  - split; [done|]. split; [|done]. cbn [filled dc_Interface]. destruct (di_Interface input) as [i|]; [|done]. exists i. split; [done|].
    unfold failed in Hi. by destruct (ValidateProcedureInterface i) as [[]|].
Qed.
End document.
