(* ===== verification/Projection.v ===== *)
(** * Projections of procedures (internal/projection)

    [Build] turns the result of a synthesis into a projection: the procedure
    family and version it belongs to, its steps and edges by ordinal, the
    interface it offers to composition, the retrieval document, and a manifest
    that ties all of it to the outcome and the archive.  [Validate] is the check
    that a repository makes before it stores a projection.

    The file [ProjectionSound] has the theorems. *)

From Stdlib Require Import ZArith String Ascii List Bool Lia.
From stdpp Require Import base gmap strings list sorting relations.
From S2P Require Import Prelude GoStrings GoTime Canonical Domain Synthesis Interfaces RetrievalQuery RetrievalDocument.

Open Scope Z_scope.
Open Scope go_scope.

(** ** Types *)
Record ServingMetadata := mk_ServingMetadata {
  sm_TaskText : string;
  sm_Harness : Harness;
  sm_Environment : list Fact;
  sm_Resources : list ResourceRequirement;
  sm_Effects : list string;
  sm_RiskClass : string;
  sm_VerificationStrength : Z;
  sm_LearnedWithRecallConsent : bool;
  sm_ResidencyRegion : string
}.

Record BuildRequest := mk_BuildRequest {
  pb_TenantID : string;
  pb_OutcomeID : string;
  pb_IntentHash : string;
  pb_EffectSignatureHash : string;
  pb_EnvironmentScopeHash : string;
  pb_ArchiveHash : string;
  pb_CanonicalEventStart : Z;
  pb_CanonicalEventEnd : Z;
  pb_CreatedAt : gotime;
  pb_Synthesis : SynthesisResult;
  pb_Serving : ServingMetadata
}.

Record Family := mk_Family { fm_ID : string; fm_IntentHash : string; fm_EffectSignatureHash : string; fm_ContentHash : string }.

Record Version := mk_Version {
  vn_ID : string;
  vn_ProcedureID : string;
  vn_GraphHash : string;
  vn_EnvironmentScopeHash : string;
  vn_PolicyVersion : string;
  vn_ObservedEndToEnd : bool;
  vn_InterfaceHash : string;
  vn_ContentHash : string
}.

(** [logicalStep]; a [Step] is a logical step with its identifier and hash. *)
Record logicalStep := mk_logicalStep {
  ls_Ordinal : Z;
  ls_ToolName : string;
  ls_ToolVersion : string;
  ls_ToolContractVersionID : string;
  ls_UncertainNecessity : bool;
  ls_CompensationBoundary : bool;
  ls_SideEffect : string;
  ls_Risk : string;
  ls_Effects : list string;
  ls_Preconditions : list ProcedurePredicate;
  ls_SuccessPredicates : list string;
  ls_VerificationMethods : list string;
  ls_Reads : list ProcedureResource;
  ls_Writes : list ProcedureResource
}.

Record Step := mk_Step { st_ID : string; st_logical : logicalStep; st_ContentHash : string }.

Record logicalEdge := mk_logicalEdge {
  le_FromOrdinal : Z;
  le_ToOrdinal : Z;
  le_Type : string;
  le_ResourceID : string;
  le_ResourceName : string;
  le_ResourceType : string;
  le_ResourceNamespace : string
}.

Record Edge := mk_Edge { eg_ID : string; eg_logical : logicalEdge; eg_ContentHash : string }.

Record Manifest := mk_Manifest {
  mn_ID : string;
  mn_TenantID : string;
  mn_OutcomeID : string;
  mn_TraceID : string;
  mn_ProcedureVersionID : string;
  mn_ArchiveHash : string;
  mn_CanonicalEventStart : Z;
  mn_CanonicalEventEnd : Z;
  mn_Versions : Versions;
  mn_Status : string;
  mn_AbstentionCode : string;
  mn_SynthesisHash : string;
  mn_ContentHash : string
}.

(** For an abstention the parts of a procedure have their zero values. *)
Record Projection := mk_Projection {
  pj_TenantID : string;
  pj_Family : Family;
  pj_Version : Version;
  pj_Steps : list Step;
  pj_Edges : list Edge;
  pj_NegativePaths : list NegativePath;
  pj_GoalPredicates : list string;
  pj_Interface : ProcedureInterface;
  pj_Manifest : Manifest;
  pj_CreatedAt : gotime;
  pj_CanonicalProjectionJSON : string;
  pj_RetrievalDocument : Document
}.

(** ** JSON *)
Definition family_json (f : Family) : json :=
  JObj (fstr "id" (fm_ID f) ++ fstr "intent_hash" (fm_IntentHash f) ++ fstr "effect_signature_hash" (fm_EffectSignatureHash f) ++
        fstr "content_hash" (fm_ContentHash f)).

Definition version_json (v : Version) : json :=
  JObj (fstr "id" (vn_ID v) ++ fstr "procedure_id" (vn_ProcedureID v) ++ fstr "graph_hash" (vn_GraphHash v) ++
        fstr "environment_scope_hash" (vn_EnvironmentScopeHash v) ++ fstr "policy_version" (vn_PolicyVersion v) ++
        fbool "observed_end_to_end" (vn_ObservedEndToEnd v) ++ fstr "interface_hash" (vn_InterfaceHash v) ++
        fstr "content_hash" (vn_ContentHash v)).

Definition logical_step_fields (s : logicalStep) : list (string * json) :=
  fnum "ordinal" (ls_Ordinal s) ++ fstr "tool_name" (ls_ToolName s) ++ fstr_omit "tool_version" (ls_ToolVersion s) ++
  fstr "tool_contract_version_id" (ls_ToolContractVersionID s) ++ fbool "uncertain_necessity" (ls_UncertainNecessity s) ++
  fbool "compensation_boundary" (ls_CompensationBoundary s) ++ fstr "side_effect" (ls_SideEffect s) ++ fstr "risk" (ls_Risk s) ++
  fstrs_omit "effects" (ls_Effects s) ++ farr_omit "preconditions" (List.map predicate_json (ls_Preconditions s)) ++
  fstrs_omit "success_predicates" (ls_SuccessPredicates s) ++ fstrs_omit "verification_methods" (ls_VerificationMethods s) ++
  farr_omit "reads" (List.map Domain.resource_json (ls_Reads s)) ++ farr_omit "writes" (List.map Domain.resource_json (ls_Writes s)).

Definition projection_step_json (s : Step) : json :=
  JObj (fstr "id" (st_ID s) ++ logical_step_fields (st_logical s) ++ fstr "content_hash" (st_ContentHash s)).

Definition logical_edge_fields (e : logicalEdge) : list (string * json) :=
  fnum "from_ordinal" (le_FromOrdinal e) ++ fnum "to_ordinal" (le_ToOrdinal e) ++ fstr "type" (le_Type e) ++
  fstr_omit "resource_id" (le_ResourceID e) ++ fstr_omit "resource_name" (le_ResourceName e) ++
  fstr_omit "resource_type" (le_ResourceType e) ++ fstr_omit "resource_namespace" (le_ResourceNamespace e).

Definition projection_edge_json (e : Edge) : json :=
  JObj (fstr "id" (eg_ID e) ++ logical_edge_fields (eg_logical e) ++ fstr "content_hash" (eg_ContentHash e)).

Definition manifest_json (m : Manifest) : json :=
  JObj (fstr "id" (mn_ID m) ++ fstr "tenant_id" (mn_TenantID m) ++ fstr "outcome_id" (mn_OutcomeID m) ++ fstr "trace_id" (mn_TraceID m) ++
        fstr_omit "procedure_version_id" (mn_ProcedureVersionID m) ++ fstr "archive_hash" (mn_ArchiveHash m) ++
        fnum "canonical_event_start" (mn_CanonicalEventStart m) ++ fnum "canonical_event_end" (mn_CanonicalEventEnd m) ++
        fld "versions" (versions_json (mn_Versions m)) ++ fstr "status" (mn_Status m) ++ fstr_omit "abstention_code" (mn_AbstentionCode m) ++
        fstr "synthesis_hash" (mn_SynthesisHash m) ++ fstr "content_hash" (mn_ContentHash m)).

Definition family_identity_json (tenantID intentHash effectSignatureHash : string) : json :=
  JObj (fstr "tenant_id" tenantID ++ fstr "intent_hash" intentHash ++ fstr "effect_signature_hash" effectSignatureHash).

(** The goals are copied with [append] to a nil slice, which stays nil when there are none. *)
Definition graph_identity_json (steps : list logicalStep) (edges : list logicalEdge) (goals : list string) (environment : string) : json :=
  JObj (farr "steps" (List.map (fun s => JObj (logical_step_fields s)) steps) ++
        farr_omit "edges" (List.map (fun e => JObj (logical_edge_fields e)) edges) ++
        fld "goal_predicates" match goals with [] => JNull | _ => jstrs goals end ++ fstr "environment_scope_hash" environment).

Definition version_identity_json (tenantID procedureID graphHash policyVersion : string) (observed : bool) (interfaceHash : string) : json :=
  JObj (fstr "tenant_id" tenantID ++ fstr "procedure_id" procedureID ++ fstr "graph_hash" graphHash ++
        fstr "policy_version" policyVersion ++ fbool "observed_end_to_end" observed ++ fstr "interface_hash" interfaceHash).

Definition step_identity_json (versionID : string) (s : logicalStep) : json :=
  JObj (fstr "version_id" versionID ++ fld "step" (JObj (logical_step_fields s))).

Definition edge_identity_json (versionID : string) (e : logicalEdge) : json :=
  JObj (fstr "version_id" versionID ++ fld "edge" (JObj (logical_edge_fields e))).

Definition canonical_projection_json (f : Family) (v : Version) (steps : list Step) (edges : list Edge) (i : ProcedureInterface) : json :=
  JObj (fld "family" (family_json f) ++ fld "version" (version_json v) ++ farr "steps" (List.map projection_step_json steps) ++
        farr_omit "edges" (List.map projection_edge_json edges) ++ fld "interface" (interface_json i)).

(** ** The interface of a procedure *)
Definition stepHasResource (resources : list ProcedureResource) (id : string) : bool := existsb (fun r => String.eqb (rs_ID r) id) resources.

Definition procedureResourceKey (r : ProcedureResource) : string :=
  join nul [rs_Type r; rs_Namespace r; rs_IdentityHash r; rs_SchemaVersion r].

Definition canonicalProjectionStrings (source : list string) : list string :=
  sort_strings (elements (list_to_set (List.filter (fun s => negb (String.eqb s "")) source) : gset string)).

(** The key of an event and a resource. *)
Definition use_key (event resource : string) : string := (event ++ nul ++ resource)%string.

(** The reads met by, and the writes consumed by, a flow inside the procedure. *)
Fixpoint internal_uses (byEvent : gmap string ProcedureStep) (reads writes : gset string) (edges : list Synthesis.Edge)
    : result (gset string * gset string) :=
  match edges with
  | [] => Ok (reads, writes)
  | e :: edges =>
      if negb (String.eqb (ed_Type e) EdgeResourceFlow) || String.eqb (ed_ResourceID e) "" then internal_uses byEvent reads writes edges
      else
        match byEvent !! ed_From e, byEvent !! ed_To e with
        | Some from, Some to =>
            reject negb (stepHasResource (sp_Writes from) (ed_ResourceID e)) || negb (stepHasResource (sp_Reads to) (ed_ResourceID e))
              with ErrInvalidBuildRequest;
            internal_uses byEvent ({[use_key (ed_To e) (ed_ResourceID e)]} ∪ reads) ({[use_key (ed_From e) (ed_ResourceID e)]} ∪ writes) edges
        | _, _ => Err ErrInvalidBuildRequest
        end
  end.

Definition predicate_ids (step : ProcedureStep) (r : ProcedureResource) : list string :=
  List.map pp_ID (List.filter (fun p => String.eqb (pp_ResourceName p) "" || String.eqb (pp_ResourceName p) (rs_Name r)) (sp_Preconditions step)).

Definition add_requirement (internalRead : gset string) (step : ProcedureStep) (m : gmap string ProcedureRequirement) (r : ProcedureResource)
    : gmap string ProcedureRequirement :=
  if bool_decide (use_key (sp_EventID step) (rs_ID r) ∈ internalRead) then m
  else
    let key := procedureResourceKey r in
    let before := match m !! key with Some value => rq_PredicateIDs value | None => [] end in
    <[key := mk_ProcedureRequirement "" (rs_Type r) (rs_Namespace r) (rs_IdentityHash r) (rs_SchemaVersion r) "read"
               (canonicalProjectionStrings (before ++ predicate_ids step r))]> m.

Definition provision_of (step : ProcedureStep) (r : ProcedureResource) : ProcedureProvision :=
  mk_ProcedureProvision "" (rs_Type r) (rs_Namespace r) (rs_IdentityHash r) (rs_SchemaVersion r)
    (canonicalProjectionStrings (sp_Effects step)) (canonicalProjectionStrings (sp_SuccessPredicates step)).

(** [provisions] and [provisionOwner] *)
Definition provision_state : Type := gmap string ProcedureProvision * gmap string string.

Fixpoint add_provisions (consumed : gset string) (step : ProcedureStep) (acc : provision_state) (writes : list ProcedureResource)
    : result provision_state :=
  match writes with
  | [] => Ok acc
  | r :: writes =>
      if bool_decide (use_key (sp_EventID step) (rs_ID r) ∈ consumed) then add_provisions consumed step acc writes
      else
        let key := procedureResourceKey r in
        reject match snd acc !! key with Some owner => negb (String.eqb owner (sp_EventID step)) | None => false end with ErrInvalidBuildRequest;
        add_provisions consumed step (<[key := provision_of step r]> (fst acc), <[key := sp_EventID step]> (snd acc)) writes
  end.

Fixpoint interface_entries (internalRead consumed : gset string) (requirements : gmap string ProcedureRequirement) (acc : provision_state)
    (steps : list ProcedureStep) : result (gmap string ProcedureRequirement * gmap string ProcedureProvision) :=
  match steps with
  | [] => Ok (requirements, fst acc)
  | step :: steps =>
      let requirements := foldl (add_requirement internalRead step) requirements (sp_Reads step) in
      let* acc := add_provisions consumed step acc (sp_Writes step) in
      interface_entries internalRead consumed requirements acc steps
  end.

Definition steps_by_event (steps : list ProcedureStep) : gmap string ProcedureStep :=
  foldl (fun m s => <[sp_EventID s := s]> m) ∅ steps.

Section projection.
Context `{NFC} `{JCS} `{Digest}.

Definition buildProcedureInterface (steps : list ProcedureStep) (edges : list Synthesis.Edge) : result ProcedureInterface :=
  let* (internalRead, consumed) := internal_uses (steps_by_event steps) ∅ ∅ edges in
  let* (requirements, provisions) := interface_entries internalRead consumed ∅ (∅, ∅) steps in
  NewProcedureInterface (List.map snd (map_to_list requirements)) (List.map snd (map_to_list provisions)).

(** ** model.go: Build *)
Definition logical_of (s : ProcedureStep) : logicalStep :=
  mk_logicalStep (sp_Ordinal s) (sp_ToolName s) (sp_ToolVersion s) (sp_ToolContractVersionID s) (sp_UncertainNecessity s)
    (sp_CompensationBoundary s) (sp_SideEffect s) (sp_Risk s) (sp_Effects s) (sp_Preconditions s) (sp_SuccessPredicates s)
    (sp_VerificationMethods s) (sp_Reads s) (sp_Writes s).

Fixpoint logical_steps (index : nat) (ordinals : gmap string Z) (steps : list ProcedureStep) : result (list logicalStep * gmap string Z) :=
  match steps with
  | [] => Ok ([], ordinals)
  | s :: steps =>
      reject negb (sp_Ordinal s =? wrap_u32 (Z.of_nat index)) || String.eqb (sp_EventID s) "" || String.eqb (sp_ToolContractVersionID s) ""
        with ErrInvalidBuildRequest;
      let* (rest, ordinals) := logical_steps (S index) (<[sp_EventID s := sp_Ordinal s]> ordinals) steps in
      Ok (logical_of s :: rest, ordinals)
  end.

Fixpoint logical_edges (ordinals : gmap string Z) (edges : list Synthesis.Edge) : result (list logicalEdge) :=
  match edges with
  | [] => Ok []
  | e :: edges =>
      match ordinals !! ed_From e, ordinals !! ed_To e with
      | Some from, Some to =>
          reject to <=? from with ErrInvalidBuildRequest;
          let* rest := logical_edges ordinals edges in
          Ok (mk_logicalEdge from to (ed_Type e) (ed_ResourceID e) (ed_ResourceName e) (ed_ResourceType e) (ed_ResourceNamespace e) :: rest)
      | _, _ => Err ErrInvalidBuildRequest
      end
  end.

(** The sort key; an ordinal is a [uint32], so ten digits hold it. *)
Definition logical_edge_key (e : logicalEdge) : string :=
  join nul [digits 10 (le_FromOrdinal e); digits 10 (le_ToOrdinal e); le_Type e; le_ResourceID e; le_ResourceNamespace e; le_ResourceType e;
            le_ResourceName e].

Definition sort_logical_edges : list logicalEdge -> list logicalEdge := sort_slice (cmp_ltb (cmp_on logical_edge_key String.compare)).

Fixpoint seal_steps (versionID : string) (steps : list logicalStep) : result (list Step) :=
  match steps with
  | [] => Ok []
  | s :: steps =>
      let* (_, hash) := MarshalAndHash (step_identity_json versionID s) in
      let* rest := seal_steps versionID steps in
      Ok (mk_Step ("step_" ++ hash) s hash :: rest)
  end.

Fixpoint seal_edges (versionID : string) (edges : list logicalEdge) : result (list Edge) :=
  match edges with
  | [] => Ok []
  | e :: edges =>
      let* (_, hash) := MarshalAndHash (edge_identity_json versionID e) in
      let* rest := seal_edges versionID edges in
      Ok (mk_Edge ("edge_" ++ hash) e hash :: rest)
  end.

Record built_procedure := mk_built_procedure {
  bp_Family : Family;
  bp_Version : Version;
  bp_Steps : list Step;
  bp_Edges : list Edge;
  bp_Interface : ProcedureInterface;
  bp_JSON : string
}.

Definition buildProcedure (request : BuildRequest) : result built_procedure :=
  let source := pb_Synthesis request in
  let* (_, familyHash) := MarshalAndHash (family_identity_json (pb_TenantID request) (pb_IntentHash request) (pb_EffectSignatureHash request)) in
  let family := mk_Family ("proc_" ++ familyHash) (pb_IntentHash request) (pb_EffectSignatureHash request) familyHash in
  let* (logicalSteps, ordinals) := logical_steps 0 ∅ (sr_Steps source) in
  let* edges := logical_edges ordinals (sr_Edges source) in
  let logicalEdges := sort_logical_edges edges in
  let* interface := buildProcedureInterface (sr_Steps source) (sr_Edges source) in
  let goals := sort_strings (sr_GoalPredicates source) in
  let* (_, graphHash) := MarshalAndHash (graph_identity_json logicalSteps logicalEdges goals (pb_EnvironmentScopeHash request)) in
  let policy := vs_Policy (sr_Versions source) in
  let* (_, versionHash) := MarshalAndHash (version_identity_json (pb_TenantID request) (fm_ID family) graphHash policy
    (sr_ObservedEndToEnd source) (pi_ContentHash interface)) in
  let version := mk_Version ("pv_" ++ versionHash) (fm_ID family) graphHash (pb_EnvironmentScopeHash request) policy
    (sr_ObservedEndToEnd source) (pi_ContentHash interface) versionHash in
  let* steps := seal_steps (vn_ID version) logicalSteps in
  let* edges := seal_edges (vn_ID version) logicalEdges in
  let* (encoded, _) := MarshalAndHash (canonical_projection_json family version steps edges interface) in
  Ok (mk_built_procedure family version steps edges interface encoded).

Definition request_head_invalid (request : BuildRequest) : bool :=
  String.eqb (pb_TenantID request) "" || String.eqb (pb_OutcomeID request) "" || negb (sha256Pattern (pb_ArchiveHash request)) ||
  negb (sha256Pattern (pb_IntentHash request)) || negb (sha256Pattern (pb_EffectSignatureHash request)) ||
  negb (sha256Pattern (pb_EnvironmentScopeHash request)) || String.eqb (sr_Hash (pb_Synthesis request)) "" ||
  String.eqb (sr_TraceID (pb_Synthesis request)) "" || (pb_CanonicalEventEnd request <? pb_CanonicalEventStart request) ||
  IsZero (pb_CreatedAt request).

Definition cloneNegativePaths : list NegativePath -> list NegativePath := sort_slice (cmp_ltb (cmp_on np_ID String.compare)).

Definition zero_family : Family := mk_Family "" "" "" "".
Definition zero_version : Version := mk_Version "" "" "" "" "" false "" "".
Definition zero_interface : ProcedureInterface := mk_ProcedureInterface "" "" [] [] "".
Definition zero_document : Document :=
  mk_Document "" "" "" "" "" "" "" [] [] [] "" (mk_Harness "" "") [] "" false 0 0 0 "" "" false "" "" None [] "" "" "".

(** The document of a version. *)
Definition document_input (request : BuildRequest) (p : built_procedure) : DocumentInput :=
  let serving := pb_Serving request in
  mk_DocumentInput (pb_TenantID request) (vn_ID (bp_Version p)) (fm_ID (bp_Family p)) (sm_TaskText serving) (fm_IntentHash (bp_Family p))
    (fm_EffectSignatureHash (bp_Family p))
    (List.map (fun s => mk_ToolRequirement (ls_ToolName (st_logical s)) (ls_ToolContractVersionID (st_logical s))) (bp_Steps p))
    (List.map (fun s => ls_ToolContractVersionID (st_logical s)) (bp_Steps p)) (sm_Resources serving) (sm_Effects serving)
    (vn_EnvironmentScopeHash (bp_Version p)) (sm_Harness serving) (sm_Environment serving) "candidate" (vn_ObservedEndToEnd (bp_Version p))
    (sm_VerificationStrength serving) 1 0 (pb_CreatedAt request) (vn_PolicyVersion (bp_Version p)) (sm_LearnedWithRecallConsent serving)
    (sm_ResidencyRegion serving) (sm_RiskClass serving) (Some (bp_Interface p)).

Definition sealed_manifest (m : Manifest) (id hash : string) : Manifest :=
  mk_Manifest id (mn_TenantID m) (mn_OutcomeID m) (mn_TraceID m) (mn_ProcedureVersionID m) (mn_ArchiveHash m) (mn_CanonicalEventStart m)
    (mn_CanonicalEventEnd m) (mn_Versions m) (mn_Status m) (mn_AbstentionCode m) (mn_SynthesisHash m) hash.

Definition build_manifest (request : BuildRequest) (versionID : string) : result Manifest :=
  let source := pb_Synthesis request in
  let manifest := mk_Manifest "" (pb_TenantID request) (pb_OutcomeID request) (sr_TraceID source) versionID (pb_ArchiveHash request)
    (pb_CanonicalEventStart request) (pb_CanonicalEventEnd request) (sr_Versions source) (sr_Status source) (sr_AbstentionCode source)
    (sr_Hash source) "" in
  let* (_, hash) := MarshalAndHash (manifest_json manifest) in
  Ok (sealed_manifest manifest ("syn_" ++ hash) hash).

Definition intent_matches (request : BuildRequest) : bool :=
  match CanonicalIntentHash (sm_TaskText (pb_Serving request)) (sm_Harness (pb_Serving request)) with
  | Ok hash => String.eqb hash (pb_IntentHash request)
  | Err _ => false
  end.

Definition Build (request : BuildRequest) : result Projection :=
  reject request_head_invalid request with ErrInvalidBuildRequest;
  let source := pb_Synthesis request in
  let negative := cloneNegativePaths (sr_NegativePaths source) in
  let createdAt := UTC (pb_CreatedAt request) in
  if String.eqb (sr_Status source) StatusSynthesized then
    reject count (sr_Steps source) =? 0 with ErrInvalidBuildRequest;
    reject negb (intent_matches request) with ErrInvalidBuildRequest;
    let* p := buildProcedure request in
    let* document := BuildDocument (document_input request p) in
    let* manifest := build_manifest request (vn_ID (bp_Version p)) in
    Ok (mk_Projection (pb_TenantID request) (bp_Family p) (bp_Version p) (bp_Steps p) (bp_Edges p) negative
          (sort_strings (sr_GoalPredicates source)) (bp_Interface p) manifest createdAt (bp_JSON p) document)
  else
    reject negb (String.eqb (sr_Status source) StatusAbstained) || String.eqb (sr_AbstentionCode source) "" with ErrInvalidBuildRequest;
    let* manifest := build_manifest request "" in
    Ok (mk_Projection (pb_TenantID request) zero_family zero_version [] [] negative [] zero_interface manifest createdAt "" zero_document).

(** ** repository.go: Validate *)
Definition validateManifest (m : Manifest) : result unit :=
  match MarshalAndHash (manifest_json (sealed_manifest m "" "")) with
  | Err _ => Err ErrInvalidProjection
  | Ok (_, hash) => reject negb (String.eqb (mn_ID m) ("syn_" ++ hash)) || negb (String.eqb (mn_ContentHash m) hash) with ErrInvalidProjection; Ok tt
  end.

(** [x.ID = prefix+hash] and [x.ContentHash = hash] for the hash of an identity. *)
Definition named_by (id prefix contentHash : string) (identity : json) : bool :=
  match MarshalAndHash identity with
  | Ok (_, hash) => String.eqb id (prefix ++ hash) && String.eqb contentHash hash
  | Err _ => false
  end.

(** The edges are compared with the sorted logical edges, position by position. *)
Fixpoint edges_named (versionID : string) (edges : list Edge) (logical : list logicalEdge) : bool :=
  match edges, logical with
  | e :: edges, l :: logical => named_by (eg_ID e) "edge_" (eg_ContentHash e) (edge_identity_json versionID l) && edges_named versionID edges logical
  | _, _ => true
  end.

Definition hash_of (j : json) : option string := match MarshalAndHash j with Ok (_, hash) => Some hash | Err _ => None end.

Definition validateProcedureProjection (value : Projection) : result unit :=
  let family := pj_Family value in
  let version := pj_Version value in
  reject negb (named_by (fm_ID family) "proc_" (fm_ContentHash family)
                 (family_identity_json (pj_TenantID value) (fm_IntentHash family) (fm_EffectSignatureHash family))) with ErrInvalidProjection;
  let logicalSteps := List.map st_logical (pj_Steps value) in
  reject negb (forallb (fun s => named_by (st_ID s) "step_" (st_ContentHash s) (step_identity_json (vn_ID version) (st_logical s))) (pj_Steps value))
    with ErrInvalidProjection;
  let logicalEdges := sort_logical_edges (List.map eg_logical (pj_Edges value)) in
  reject negb (edges_named (vn_ID version) (pj_Edges value) logicalEdges) with ErrInvalidProjection;
  let goals := sort_strings (pj_GoalPredicates value) in
  match hash_of (graph_identity_json logicalSteps logicalEdges goals (vn_EnvironmentScopeHash version)) with
  | None => Err ErrInvalidProjection
  | Some graphHash =>
      reject negb (String.eqb (vn_GraphHash version) graphHash) with ErrInvalidProjection;
      reject negb (named_by (vn_ID version) "pv_" (vn_ContentHash version)
                     (version_identity_json (pj_TenantID value) (fm_ID family) graphHash (vn_PolicyVersion version)
                        (vn_ObservedEndToEnd version) (vn_InterfaceHash version))) ||
             negb (String.eqb (vn_InterfaceHash version) (pi_ContentHash (pj_Interface value))) ||
             failed (ValidateProcedureInterface (pj_Interface value)) with ErrInvalidProjection;
      match MarshalAndHash (canonical_projection_json family version (pj_Steps value) (pj_Edges value) (pj_Interface value)) with
      | Err _ => Err ErrInvalidProjection
      | Ok (encoded, _) => reject negb (String.eqb encoded (pj_CanonicalProjectionJSON value)) with ErrInvalidProjection; Ok tt
      end
  end.

Fixpoint steps_ordered (index : nat) (steps : list Step) : bool :=
  match steps with
  | [] => true
  | s :: steps =>
      negb (String.eqb (st_ID s) "") && (ls_Ordinal (st_logical s) =? wrap_u32 (Z.of_nat index)) && negb (String.eqb (st_ContentHash s) "") &&
      steps_ordered (S index) steps
  end.

Definition edge_ok (steps : Z) (e : Edge) : bool :=
  let l := eg_logical e in
  negb (String.eqb (eg_ID e) "") && (le_FromOrdinal l <? wrap_u32 steps) && (le_ToOrdinal l <? wrap_u32 steps) && (le_FromOrdinal l <? le_ToOrdinal l).

Definition negative_ok (path : NegativePath) : bool :=
  negb (String.eqb (np_ID path) "") && negb (String.eqb (np_FailurePredicateID path) "") && negb (count (np_EventIDs path) =? 0) &&
  scope_Valid (np_Scope path) &&
  match hash_of (negative_path_json (mk_NegativePath "" (np_FailurePredicateID path) (np_EventIDs path) (np_Scope path))) with
  | Some hash => String.eqb (np_ID path) ("neg_" ++ hash)
  | None => false
  end && forallb (fun id => negb (String.eqb id "")) (np_EventIDs path).

Definition header_invalid (value : Projection) : bool :=
  String.eqb (pj_TenantID value) "" || String.eqb (mn_ID (pj_Manifest value)) "" ||
  negb (String.eqb (mn_TenantID (pj_Manifest value)) (pj_TenantID value)) || String.eqb (mn_ContentHash (pj_Manifest value)) "" ||
  IsZero (pj_CreatedAt value).

Definition document_mismatch (value : Projection) : bool :=
  let d := pj_RetrievalDocument value in
  failed (ValidateDocument d) || negb (String.eqb (dc_TenantID d) (pj_TenantID value)) ||
  negb (String.eqb (dc_ProcedureVersionID d) (vn_ID (pj_Version value))) || negb (String.eqb (dc_ProcedureID d) (fm_ID (pj_Family value))).

Definition Validate (value : Projection) : result unit :=
  let manifest := pj_Manifest value in
  reject header_invalid value with ErrInvalidProjection;
  if String.eqb (mn_Status manifest) "abstained" then
    reject String.eqb (mn_AbstentionCode manifest) "" || negb (String.eqb (vn_ID (pj_Version value)) "") ||
           negb (count (pj_Steps value) =? 0) || negb (str_len (pj_CanonicalProjectionJSON value) =? 0) with ErrInvalidProjection;
    validateManifest manifest
  else
    reject negb (String.eqb (mn_Status manifest) "synthesized") || String.eqb (fm_ID (pj_Family value)) "" ||
           String.eqb (vn_ID (pj_Version value)) "" || negb (String.eqb (vn_ProcedureID (pj_Version value)) (fm_ID (pj_Family value))) ||
           negb (String.eqb (mn_ProcedureVersionID manifest) (vn_ID (pj_Version value))) || (count (pj_Steps value) =? 0) ||
           (str_len (pj_CanonicalProjectionJSON value) =? 0) with ErrInvalidProjection;
    reject document_mismatch value with ErrInvalidProjection;
    reject negb (steps_ordered 0 (pj_Steps value)) with ErrInvalidProjection;
    reject negb (forallb (edge_ok (count (pj_Steps value))) (pj_Edges value)) with ErrInvalidProjection;
    reject negb (forallb negative_ok (pj_NegativePaths value)) with ErrInvalidProjection;
    let* _ := validateManifest manifest in
    validateProcedureProjection value.
End projection.
