(* ===== verification/ProjectionSound.v ===== *)
(** * Correctness of projections

    [Build_publishable] shows that a projection built from any result of the
    synthesizer passes the repository's [Validate]: the two packages agree on
    every identifier and order.  The interfaces [NFCLaws] and [JCSLaws] are what
    it needs of the two packages outside the repository. *)

From Stdlib Require Import ZArith String Ascii List Bool Lia.
From stdpp Require Import base gmap strings list sorting.
From S2P Require Import Prelude GoStrings GoTime Canonical Domain Synthesis SynthesisSound Interfaces RetrievalQuery RetrievalDocument Projection.

Open Scope Z_scope.
Open Scope go_scope.

(** ** Negative paths of a synthesis *)
Lemma index_nodes_ids l : forall i m nodes,
  index_nodes i m l = Some nodes -> (forall id, is_Some (m !! id) -> id <> ""%string) -> forall id, is_Some (nodes !! id) -> id <> ""%string.
Proof.
  induction l as [|n l IH]; intros i m nodes; cbn [index_nodes]; [by intros [= <-]|].
  destruct (_ || _) eqn:E; [done|]. apply orb_false_iff in E as [Hn%String.eqb_neq _]. intros Hi Hm. apply (IH _ _ _ Hi).
  intros id. rewrite lookup_insert_is_Some'. intros [<-|]; auto.
Qed.

Section paths.
Context `{JCS} `{Digest}.

Lemma buildNegativePaths_ok nodes source : forall paths failed,
  (forall id, is_Some (nodes !! id) -> id <> ""%string) -> buildNegativePaths nodes source = Ok (paths, failed) ->
  forallb negative_ok paths = true.
Proof.
  induction source as [|b source IH]; intros paths failed Hids Hb; cbn [buildNegativePaths] in Hb; [by injection Hb as <- _|].
  destruct (_ || (count _ =? 0)) eqn:E1; [done|]. apply orb_false_iff in E1 as [[Hp%String.eqb_neq Hs%negb_false_iff]%orb_false_iff Hc%Z.eqb_neq].
  destruct (negb (forallb _ _)) eqn:E2; [done|]. apply negb_false_iff in E2.
  apply bind_Ok in Hb as ([c hash] & Hm & Hb). apply bind_Ok in Hb as ([rest failed'] & Hr & Hb). injection Hb as <- _.
  cbn [forallb]. rewrite (IH _ _ Hids Hr), andb_true_r. unfold negative_ok, hash_of. cbn [np_ID np_FailurePredicateID np_EventIDs np_Scope].
  rewrite Hm, str_eqb_refl, Hs. apply String.eqb_neq in Hp. rewrite Hp.
  assert (Hc' : (count (sort_slice (cmp_ltb (cmp_on (node_position nodes) Z.compare)) (fb_EventIDs b)) =? 0) = false).
  { apply Z.eqb_neq. unfold count in *. by rewrite sort_slice_length. }
  rewrite Hc'. cbn [negb andb]. apply forallb_forall. intros id Hid. apply negb_true_iff, str_eqb_false, Hids.
  by apply (proj1 (forallb_forall _ _) E2), bool_decide_eq_true in Hid.
Qed.

Lemma hashed_negative r r' : hashed r = Ok r' -> sr_NegativePaths r' = sr_NegativePaths r.
Proof. unfold hashed. intros Hh. inv_Ok Hh. by injection Hh as <-. Qed.

Lemma Synthesize_negative q res : Synthesize q = Ok res -> forallb negative_ok (sr_NegativePaths res) = true.
Proof.
  unfold Synthesize. destruct (request_invalid q); [done|]. assert (Ha : forall p c, abstain q p c = Ok res -> forallb negative_ok (sr_NegativePaths res) = true)
    by (intros p c Hh%hashed_negative; by rewrite Hh).
  destruct (negb (String.eqb _ _)); [apply Ha|]. destruct (negb (gr_AutoPromotable _)); [apply Ha|].
  destruct (index_nodes 0 ∅ _) as [nodes|] eqn:En; [|done]. destruct (cover_goals nodes 0 ∅ _) as [|n|R0]; [done|apply Ha|].
  destruct (require_effects nodes R0 _) as [| |R1]; [done|apply Ha|]. destruct (negb (forallb _ _)); [done|].
  unfold synthesize_retained. destruct (existsb _ _); [apply Ha|]. intros Hs.
  apply bind_Ok in Hs as (irr & _ & Hs). apply bind_Ok in Hs as ([paths failed] & Hp & Hs). apply bind_Ok in Hs as (steps & _ & Hs).
  apply hashed_negative in Hs. rewrite Hs. cbn [sr_NegativePaths]. unfold ToolContract.sort_by_key.
  rewrite (forallb_perm _ _ _ (sort_slice_perm _ paths)). apply (buildNegativePaths_ok nodes (sq_FailedBranches q) _ failed); [|done].
  apply (index_nodes_ids _ _ _ _ En). intros id [x Hx]. by rewrite lookup_empty in Hx.
Qed.
End paths.

(** ** The parts of a projection *)
Section parts.
Context `{NFC} `{JCS} `{Digest}.

Lemma logical_steps_spec steps : forall index ordinals logical ordinals',
  logical_steps index ordinals steps = Ok (logical, ordinals') ->
  logical = List.map logical_of steps /\
  (forall j s, steps !! j = Some s -> sp_Ordinal s = wrap_u32 (Z.of_nat (index + j))) /\
  (forall id o, ordinals' !! id = Some o -> ordinals !! id = Some o \/ exists j s, steps !! j = Some s /\ o = sp_Ordinal s).
Proof.
  induction steps as [|s steps IH]; intros index ordinals logical ordinals' Hl; cbn [logical_steps] in Hl.
  { injection Hl as <- <-. split; [done|]. split; [done|]. by left. }
  destruct (_ || _) eqn:E; [done|]. apply orb_false_iff in E as [[Ho%negb_false_iff _]%orb_false_iff _]. apply Z.eqb_eq in Ho.
  apply bind_Ok in Hl as ([rest ords] & Hr & Hl). injection Hl as <- <-. destruct (IH _ _ _ _ Hr) as (-> & Hord & Hin). split; [done|]. split.
  - intros [|j] x; cbn; [intros [= <-]; by rewrite Nat.add_0_r|]. intros Hx. rewrite (Hord _ _ Hx). f_equal. lia.
  - intros id o Hid. destruct (Hin id o Hid) as [Hi|(j & x & Hx & ->)]; [|right; by exists (S j), x].
    apply lookup_insert_Some in Hi as [[_ <-]|[_ Hi]]; [right; by exists 0%nat, s|by left].
Qed.

Lemma logical_edges_spec ordinals edges : forall logical, logical_edges ordinals edges = Ok logical ->
  forall l, l ∈ logical -> le_FromOrdinal l < le_ToOrdinal l /\ (exists id, ordinals !! id = Some (le_FromOrdinal l)) /\ exists id, ordinals !! id = Some (le_ToOrdinal l).
Proof.
  induction edges as [|e edges IH]; intros logical Hl l Hin; cbn [logical_edges] in Hl.
  { injection Hl as <-. by apply not_elem_of_nil in Hin. }
  destruct (ordinals !! ed_From e) as [from|] eqn:Ef; [|done]. destruct (ordinals !! ed_To e) as [to|] eqn:Et; [|done].
  destruct (to <=? from) eqn:Eo; [done|]. apply bind_Ok in Hl as (rest & Hr & [= <-]). apply elem_of_cons in Hin as [->|Hin]; [|by apply (IH rest)].
  cbn. split; [lia|]. by split; [exists (ed_From e)|exists (ed_To e)].
Qed.

Lemma hash_nonempty j c h : MarshalAndHash j = Ok (c, h) -> String.eqb h "" = false.
Proof. intros Hm%MarshalAndHash_pattern. by destruct h. Qed.

Lemma named_by_hash prefix j c h : MarshalAndHash j = Ok (c, h) -> named_by (prefix ++ h) prefix h j = true.
Proof. intros Hm. unfold named_by. by rewrite Hm, !str_eqb_refl. Qed.

Lemma seal_steps_spec versionID logical : forall steps, seal_steps versionID logical = Ok steps ->
  List.map st_logical steps = logical /\
  forallb (fun s => named_by (st_ID s) "step_" (st_ContentHash s) (step_identity_json versionID (st_logical s))) steps = true /\
  forall s, s ∈ steps -> st_ID s <> ""%string /\ st_ContentHash s <> ""%string.
Proof.
  induction logical as [|l logical IH]; intros steps Hs; cbn [seal_steps] in Hs.
  { injection Hs as <-. split_and!; try done. intros s Hin. by apply not_elem_of_nil in Hin. }
  apply bind_Ok in Hs as ([c h] & Hm & Hs). apply bind_Ok in Hs as (rest & Hr & [= <-]). destruct (IH _ Hr) as (<- & Hn & Hne). split_and!; [done| |].
  - cbn [forallb]. rewrite Hn, andb_true_r. by apply (named_by_hash _ _ c).
  - intros s [->|Hin]%elem_of_cons; [|by apply Hne]. cbn. split; [done|]. apply str_eqb_false. by apply (hash_nonempty _ _ _ Hm).
Qed.

Lemma seal_edges_spec versionID logical : forall edges, seal_edges versionID logical = Ok edges ->
  List.map eg_logical edges = logical /\ edges_named versionID edges logical = true /\ forall e, e ∈ edges -> eg_ID e <> ""%string.
Proof.
  induction logical as [|l logical IH]; intros edges Hs; cbn [seal_edges] in Hs.
  { injection Hs as <-. split_and!; try done. intros e Hin. by apply not_elem_of_nil in Hin. }
  apply bind_Ok in Hs as ([c h] & Hm & Hs). apply bind_Ok in Hs as (rest & Hr & [= <-]). destruct (IH _ Hr) as (<- & Hn & Hne). split_and!; [done| |].
  - cbn [edges_named]. rewrite Hn, andb_true_r. by apply (named_by_hash _ _ c).
  - intros e [->|Hin]%elem_of_cons; [done|by apply Hne].
Qed.

Lemma steps_ordered_spec steps : forall index,
  (forall s, s ∈ steps -> st_ID s <> ""%string /\ st_ContentHash s <> ""%string) ->
  (forall j l, List.map st_logical steps !! j = Some l -> ls_Ordinal l = wrap_u32 (Z.of_nat (index + j))) -> steps_ordered index steps = true.
Proof.
  induction steps as [|s steps IH]; intros index Hne Ho; [done|]. cbn [steps_ordered].
  destruct (Hne s) as [Hi%String.eqb_neq Hc%String.eqb_neq]; [left|]. rewrite Hi, Hc. cbn [negb].
  pose proof (Ho 0%nat (st_logical s) eq_refl) as Hs. rewrite Nat.add_0_r in Hs. rewrite Hs, Z.eqb_refl. cbn [andb]. apply IH.
  - intros x Hx. apply Hne. by right.
  - intros j l Hj. rewrite (Ho (S j) l Hj). f_equal. lia.
Qed.

Lemma sort_logical_edges_idem l : sort_logical_edges (sort_logical_edges l) = sort_logical_edges l.
Proof. apply sort_slice_id; [apply _|]. apply sort_slice_sorted, _. Qed.
End parts.

(** ** Building and validating *)
Section build.
Context `{NFCLaws} `{JCSLaws} `{Digest}.

Lemma hash_token prefix h : token_bytes prefix = true -> sha256Pattern h = true -> token (prefix ++ h) = (prefix ++ h)%string.
Proof.
  intros Hp [Hh _]%sha256Pattern_bytes. assert (Ht : token_bytes (prefix ++ h) = true).
  { unfold token_bytes in *. by rewrite list_ascii_app, forallb_app, Hp, Hh. }
  unfold token. rewrite (TrimSpace_token _ Ht). by apply nfc_ascii, token_bytes_ascii.
Qed.

Lemma MarshalAndHash_nonempty j c h : MarshalAndHash j = Ok (c, h) -> (str_len c =? 0) = false.
Proof.
  unfold MarshalAndHash. destruct (marshal j) as [raw|]; [|done]. destruct (jcs_transform raw) as [x|] eqn:E; [|done]. intros [= <- _].
  apply jcs_nonempty in E. by destruct x.
Qed.

Lemma build_manifest_spec request versionID m :
  build_manifest request versionID = Ok m ->
  validateManifest m = Ok tt /\ mn_TenantID m = pb_TenantID request /\ mn_ID m <> ""%string /\ mn_ContentHash m <> ""%string /\
  mn_Status m = sr_Status (pb_Synthesis request) /\ mn_AbstentionCode m = sr_AbstentionCode (pb_Synthesis request) /\ mn_ProcedureVersionID m = versionID.
Proof.
  unfold build_manifest. intros Hm. apply bind_Ok in Hm as ([c h] & Hm & [= <-]).
  split; [|split_and!; try done; apply str_eqb_false; by apply (hash_nonempty _ _ _ Hm)].
  unfold validateManifest. cbn [sealed_manifest] in *. unfold sealed_manifest at 1. cbn. cbn in Hm. rewrite Hm. by rewrite !str_eqb_refl.
Qed.

(** What [buildProcedure] returns: the parts, and that each is named by its content. *)
Record procedure_ok (request : BuildRequest) (p : built_procedure) : Prop := mk_procedure_ok {
  po_family : named_by (fm_ID (bp_Family p)) "proc_" (fm_ContentHash (bp_Family p))
    (family_identity_json (pb_TenantID request) (fm_IntentHash (bp_Family p)) (fm_EffectSignatureHash (bp_Family p))) = true;
  po_steps : List.map st_logical (bp_Steps p) = List.map logical_of (sr_Steps (pb_Synthesis request));
  po_ordinals : forall j s, sr_Steps (pb_Synthesis request) !! j = Some s -> sp_Ordinal s = wrap_u32 (Z.of_nat j);
  po_steps_named : forallb (fun s => named_by (st_ID s) "step_" (st_ContentHash s) (step_identity_json (vn_ID (bp_Version p)) (st_logical s))) (bp_Steps p) = true;
  po_steps_ids : forall s, s ∈ bp_Steps p -> st_ID s <> ""%string /\ st_ContentHash s <> ""%string;
  po_edges_sorted : sort_logical_edges (List.map eg_logical (bp_Edges p)) = List.map eg_logical (bp_Edges p);
  po_edges_named : edges_named (vn_ID (bp_Version p)) (bp_Edges p) (List.map eg_logical (bp_Edges p)) = true;
  po_edges_ids : forall e, e ∈ bp_Edges p -> eg_ID e <> ""%string;
  po_edges_ends : forall e, e ∈ bp_Edges p -> le_FromOrdinal (eg_logical e) < le_ToOrdinal (eg_logical e) /\
    exists j s, sr_Steps (pb_Synthesis request) !! j = Some s /\ le_ToOrdinal (eg_logical e) = sp_Ordinal s;
  po_graph : hash_of (graph_identity_json (List.map st_logical (bp_Steps p)) (List.map eg_logical (bp_Edges p))
    (sort_strings (sr_GoalPredicates (pb_Synthesis request))) (vn_EnvironmentScopeHash (bp_Version p))) = Some (vn_GraphHash (bp_Version p));
  po_version : named_by (vn_ID (bp_Version p)) "pv_" (vn_ContentHash (bp_Version p))
    (version_identity_json (pb_TenantID request) (fm_ID (bp_Family p)) (vn_GraphHash (bp_Version p)) (vn_PolicyVersion (bp_Version p))
       (vn_ObservedEndToEnd (bp_Version p)) (vn_InterfaceHash (bp_Version p))) = true;
  po_interface : vn_InterfaceHash (bp_Version p) = pi_ContentHash (bp_Interface p);
  po_procedure : vn_ProcedureID (bp_Version p) = fm_ID (bp_Family p);
  po_tokens : token (vn_ID (bp_Version p)) = vn_ID (bp_Version p) /\ token (fm_ID (bp_Family p)) = fm_ID (bp_Family p);
  po_json : exists h, MarshalAndHash (canonical_projection_json (bp_Family p) (bp_Version p) (bp_Steps p) (bp_Edges p) (bp_Interface p)) = Ok (bp_JSON p, h)
}.

Lemma buildProcedure_ok request p : buildProcedure request = Ok p -> procedure_ok request p.
Proof.
  unfold buildProcedure. intros Hb.
  apply bind_Ok in Hb as ([cf fh] & Hf & Hb). apply bind_Ok in Hb as ([logical ordinals] & Hl & Hb). apply bind_Ok in Hb as (edges & He & Hb).
  apply bind_Ok in Hb as (i & Hi & Hb). apply bind_Ok in Hb as ([cg gh] & Hg & Hb). apply bind_Ok in Hb as ([cv vh] & Hv & Hb).
  apply bind_Ok in Hb as (steps & Hs & Hb). apply bind_Ok in Hb as (sealed & Hse & Hb). apply bind_Ok in Hb as ([cj jh] & Hj & [= <-]).
  destruct (logical_steps_spec _ _ _ _ _ Hl) as (-> & Hord & Hin). destruct (seal_steps_spec _ _ _ Hs) as (Hls & Hn & Hne).
  destruct (seal_edges_spec _ _ _ Hse) as (Hle & Hen & Hei). pose proof (logical_edges_spec _ _ _ He) as Hends.
  split; cbn [bp_Family bp_Version bp_Steps bp_Edges bp_Interface bp_JSON fm_ID fm_ContentHash fm_IntentHash fm_EffectSignatureHash vn_ID vn_GraphHash
    vn_ContentHash vn_PolicyVersion vn_ObservedEndToEnd vn_InterfaceHash vn_ProcedureID vn_EnvironmentScopeHash]; rewrite ?Hls, ?Hle; try done.
  - by apply (named_by_hash _ _ cf).
  - apply sort_logical_edges_idem.
  - intros e Hein. assert (Hl' : eg_logical e ∈ edges).
    { unfold sort_logical_edges in Hle. rewrite <- (sort_slice_elem (cmp_ltb (cmp_on logical_edge_key String.compare))), <- Hle.
      by apply list_elem_of_In, in_map, list_elem_of_In. }
    destruct (Hends _ Hl') as (Hlt & _ & id & Hid). split; [done|]. destruct (Hin _ _ Hid) as [Hz|Hs']; [by rewrite lookup_empty in Hz|done].
  - unfold hash_of. by rewrite Hg.
  - by apply (named_by_hash _ _ cv).
  - split; apply hash_token; (done || by eapply MarshalAndHash_pattern).
  - by exists jh.
Qed.

Lemma built_count request p : procedure_ok request p -> count (bp_Steps p) = count (sr_Steps (pb_Synthesis request)).
Proof using.
  intros Hp. unfold count. pose proof (f_equal length (po_steps _ _ Hp)) as Hle. rewrite !List.length_map in Hle. by rewrite Hle.
Qed.

Lemma edges_ok request p :
  procedure_ok request p -> count (sr_Steps (pb_Synthesis request)) < 4294967296 ->
  forallb (edge_ok (count (sr_Steps (pb_Synthesis request)))) (bp_Edges p) = true.
Proof using.
  intros Hp Hlen. apply forallb_forall. intros e Hein%list_elem_of_In. unfold edge_ok.
  destruct (po_edges_ends _ _ Hp e Hein) as (Hlt & j & s & Hs & Hto). pose proof (po_edges_ids _ _ Hp e Hein) as Hid%String.eqb_neq. rewrite Hid.
  rewrite (po_ordinals _ _ Hp j s Hs) in Hto. apply lookup_lt_Some in Hs. unfold count in *.
  assert (Hw : forall z, 0 <= z < 4294967296 -> wrap_u32 z = z) by (intros z Hz; apply wrap_u32_id; unfold in_u32, MaxUint32; lia).
  rewrite Hw in Hto by lia. rewrite Hw by lia. cbn [negb andb]. rewrite !andb_true_iff, !Z.ltb_lt. lia.
Qed.

Lemma built_steps_ordered request p : procedure_ok request p -> steps_ordered 0 (bp_Steps p) = true.
Proof using.
  intros Hp. apply steps_ordered_spec; [apply (po_steps_ids _ _ Hp)|]. intros j l. rewrite (po_steps _ _ Hp).
  change (List.map logical_of ?x) with (logical_of <$> x). rewrite list_lookup_fmap. intros (s & Hs & ->)%fmap_Some.
  exact (po_ordinals _ _ Hp j s Hs).
Qed.

Lemma built_ids request p : procedure_ok request p -> String.eqb (fm_ID (bp_Family p)) "" = false /\ String.eqb (vn_ID (bp_Version p)) "" = false.
Proof using.
  intros Hp. pose proof (po_family _ _ Hp) as Hfam. pose proof (po_version _ _ Hp) as Hver. unfold named_by in Hfam, Hver.
  destruct (MarshalAndHash _) as [[? ?]|] in Hfam; [|done]. destruct (MarshalAndHash _) as [[? ?]|] in Hver; [|done].
  apply andb_true_iff in Hfam as [->%String.eqb_eq _], Hver as [->%String.eqb_eq _]. done.
Qed.

Lemma document_ok request p d value :
  procedure_ok request p -> BuildDocument (document_input request p) = Ok d ->
  pj_RetrievalDocument value = d -> pj_TenantID value = pb_TenantID request -> pj_Version value = bp_Version p -> pj_Family value = bp_Family p ->
  document_mismatch value = false /\ ValidateProcedureInterface (bp_Interface p) = Ok tt.
Proof using.
  intros Hp Hd <- Ht Hv Hf. destruct (BuildDocument_spec _ _ Hd) as (Hval & Hsv & Hdt & Hdv & Hdp & _ & _ & Hdi).
  destruct (po_tokens _ _ Hp) as [Htv Htf]. split.
  - unfold document_mismatch. rewrite Hval, Hdt, Hdv, Hdp, Hv, Hf. cbn [failed is_ok negb document_input di_TenantID di_ProcedureVersionID di_ProcedureID].
    by rewrite Ht, Htv, Htf, !str_eqb_refl.
  - destruct (ValidateDocument_unsealed _ Hval Hsv) as (i & Hi & Hok). rewrite Hdi in Hi. by injection Hi as <-.
Qed.

Lemma procedure_projection_ok request p value :
  procedure_ok request p -> ValidateProcedureInterface (bp_Interface p) = Ok tt ->
  pj_TenantID value = pb_TenantID request -> pj_Version value = bp_Version p -> pj_Family value = bp_Family p -> pj_Steps value = bp_Steps p ->
  pj_Edges value = bp_Edges p -> pj_Interface value = bp_Interface p -> pj_GoalPredicates value = sort_strings (sr_GoalPredicates (pb_Synthesis request)) ->
  pj_CanonicalProjectionJSON value = bp_JSON p -> validateProcedureProjection value = Ok tt.
Proof using.
  intros Hp Hi Ht Hv Hf Hs He Hin Hg Hj. unfold validateProcedureProjection. rewrite Ht, Hv, Hf, Hs, He, Hin, Hg, Hj.
  rewrite (po_family _ _ Hp), (po_steps_named _ _ Hp), (po_edges_sorted _ _ Hp), (po_edges_named _ _ Hp), sort_strings_idem, (po_graph _ _ Hp).
  rewrite str_eqb_refl, (po_version _ _ Hp), (po_interface _ _ Hp), str_eqb_refl, Hi. cbn [negb orb failed is_ok].
  destruct (po_json _ _ Hp) as (h & ->). by rewrite str_eqb_refl.
Qed.

Lemma Build_head request p : Build request = Ok p -> String.eqb (pb_TenantID request) "" = false /\ IsZero (pb_CreatedAt request) = false.
Proof using.
  unfold Build. destruct (request_head_invalid request) eqn:Eh; [done|]. intros _.
  unfold request_head_invalid in Eh. apply orb_false_iff in Eh as [Eh Hz]. by repeat apply orb_false_iff in Eh as [Eh _].
Qed.

Lemma procedure_publishable q request p :
  Synthesize q = Ok (pb_Synthesis request) -> count (sr_Steps (pb_Synthesis request)) < 4294967296 ->
  Build request = Ok p -> sr_Status (pb_Synthesis request) = StatusSynthesized -> Validate p = Ok tt.
Proof using H0 H2.
  intros Hsyn Hlen Hb Es. destruct (Build_head _ _ Hb) as [Eh Hz]. unfold Build in Hb. destruct (request_head_invalid request); [done|].
  unfold Validate, header_invalid. rewrite Es, str_eqb_refl in Hb.
  destruct (count (sr_Steps (pb_Synthesis request)) =? 0) eqn:Ec; [done|]. destruct (intent_matches request); [|done].
  apply bind_Ok in Hb as (bp & Hbp & Hb). apply bind_Ok in Hb as (d & Hd & Hb). apply bind_Ok in Hb as (m & Hm & Hb).
  pose proof (buildProcedure_ok _ _ Hbp) as Hp. destruct (build_manifest_spec _ _ _ Hm) as (Hmv & Hmt & Hmi & Hmh & Hms & _ & Hmp).
  set (value := p) in *. assert (Hfields : pj_RetrievalDocument value = d /\ pj_TenantID value = pb_TenantID request /\ pj_Version value = bp_Version bp /\
    pj_Family value = bp_Family bp /\ pj_Steps value = bp_Steps bp /\ pj_Edges value = bp_Edges bp /\ pj_Interface value = bp_Interface bp /\
    pj_GoalPredicates value = sort_strings (sr_GoalPredicates (pb_Synthesis request)) /\ pj_CanonicalProjectionJSON value = bp_JSON bp /\
    pj_Manifest value = m /\ pj_NegativePaths value = cloneNegativePaths (sr_NegativePaths (pb_Synthesis request)) /\
    pj_CreatedAt value = UTC (pb_CreatedAt request)) by (injection Hb as <-; done).
  clearbody value. destruct Hfields as (F1 & F2 & F3 & F4 & F5 & F6 & F7 & F8 & F9 & F10 & F11 & F12).
  destruct (document_ok _ _ _ value Hp Hd F1 F2 F3 F4) as [Hdm Hpi]. rewrite Hdm.
  pose proof (procedure_projection_ok _ _ value Hp Hpi F2 F3 F4 F5 F6 F7 F8 F9) as Hpp. rewrite F2, F3, F4, F5, F6, F9, F10, F11, F12.
  apply String.eqb_neq in Hmi, Hmh. rewrite Eh, Hmi, Hmh, Hmt, str_eqb_refl, Hms, Es, Hmp, (po_procedure _ _ Hp), !str_eqb_refl.
  change (IsZero (UTC (pb_CreatedAt request))) with (IsZero (pb_CreatedAt request)). rewrite Hz.
  destruct (po_json _ _ Hp) as (h & Hj). rewrite (MarshalAndHash_nonempty _ _ _ Hj).
  destruct (built_ids _ _ Hp) as [-> ->]. rewrite (built_count _ _ Hp), Ec.
  cbn [negb orb StatusSynthesized String.eqb Ascii.eqb Bool.eqb].
  rewrite (built_steps_ordered _ _ Hp).
  rewrite (edges_ok _ _ Hp Hlen). unfold cloneNegativePaths. rewrite (forallb_perm _ _ _ (sort_slice_perm _ _)), (Synthesize_negative _ _ Hsyn).
  cbn [negb]. rewrite Hmv. exact Hpp.
Qed.

Lemma abstention_publishable request p : Build request = Ok p -> sr_Status (pb_Synthesis request) <> StatusSynthesized -> Validate p = Ok tt.
Proof using.
  intros Hb Es. destruct (Build_head _ _ Hb) as [Eh Hz]. unfold Build in Hb. destruct (request_head_invalid request); [done|].
  unfold Validate, header_invalid. rewrite (proj2 (String.eqb_neq _ _) Es) in Hb.
  destruct (_ || _) eqn:Ea; [done|]. apply orb_false_iff in Ea as [Ea%negb_false_iff Hcode]. apply String.eqb_eq in Ea.
  apply bind_Ok in Hb as (m & Hm & [= <-]). destruct (build_manifest_spec _ _ _ Hm) as (Hmv & Hmt & Hmi & Hmh & Hms & Hma & _).
  cbn [pj_TenantID pj_Manifest pj_CreatedAt pj_Version pj_Steps pj_CanonicalProjectionJSON]. apply String.eqb_neq in Hmi, Hmh.
  rewrite Eh, Hmi, Hmh, Hmt, str_eqb_refl, Hms, Ea, Hma, Hcode.
  change (IsZero (UTC (pb_CreatedAt request))) with (IsZero (pb_CreatedAt request)). rewrite Hz. exact Hmv.
Qed.

(** C22: A projection that is built from any result of the synthesizer, a procedure
    or an abstention, passes the repository's check: the identifiers, the
    hashes, the order of steps and edges, the negative paths, the interface, the
    document and the canonical bytes all agree. *)
Theorem Build_publishable (q : SynthesisRequest) (request : BuildRequest) (p : Projection) :
  Synthesize q = Ok (pb_Synthesis request) -> count (sr_Steps (pb_Synthesis request)) < 4294967296 ->
  Build request = Ok p -> Validate p = Ok tt.
Proof using H0 H2.
  intros Hsyn Hlen Hb. destruct (decide (sr_Status (pb_Synthesis request) = StatusSynthesized)) as [Es|Es].
  - by apply (procedure_publishable q request).
  - by apply (abstention_publishable request).
Qed.
End build.

(** ** The procedure of the trace of [SynthesisSound] *)
Definition strict_jcs : JCS := fun raw => if String.eqb raw "" then None else Some raw.

Lemma strict_jcs_laws : @JCSLaws strict_jcs.
Proof.
  intros raw c. unfold jcs_transform, strict_jcs. destruct (String.eqb_spec raw "") as [|Hne]; [done|]. by intros [= <-].
Qed.

Lemma copy_nfc_laws : @NFCLaws copy_nfc.
Proof. by intros s _. Qed.

Section projection_demo.
#[local] Existing Instance copy_nfc.
#[local] Existing Instance copy_nfc_laws.
#[local] Existing Instance strict_jcs.
#[local] Existing Instance strict_jcs_laws.
#[local] Existing Instance checksum_digest.

Definition demo_harness : Harness := mk_Harness "cli" "".
Definition hash_or (r : result string) : string := match r with Ok h => h | Err _ => "" end.
Definition demo_hex (s : string) : string := checksum_hex s.

Definition build_request_of (archive : string) (createdAt : gotime) (source : SynthesisResult) : BuildRequest :=
  mk_BuildRequest "tenant" ("out_" ++ archive) (hash_or (CanonicalIntentHash "fix the test" demo_harness)) (demo_hex "effects") (demo_hex "env")
    (demo_hex archive) 0 3 createdAt source
    (mk_ServingMetadata "fix the test" demo_harness [] [] ["edited"%string] "low" 3 true "eu").

Definition demo_build : BuildRequest := Eval vm_compute in build_request_of "a1" (mk_time 5 0) demo_result.

Definition zero_manifest : Manifest := mk_Manifest "" "" "" "" "" "" 0 0 demo_versions "" "" "" "".

Definition projection_or (r : result Projection) : Projection :=
  match r with
  | Ok p => p
  | Err _ => mk_Projection "" zero_family zero_version [] [] [] [] zero_interface zero_manifest zero_time "" zero_document
  end.

Definition demo_projection : Projection := Eval vm_compute in projection_or (Build demo_build).

Lemma demo_projected : Build demo_build = Ok demo_projection.
Proof. vm_compute. reflexivity. Qed.

Lemma Build_publishable_witness : Validate demo_projection = Ok tt /\ List.length (pj_Steps demo_projection) = 3%nat.
Proof.
  assert (Hs : Synthesize demo_request = Ok (pb_Synthesis demo_build)) by (vm_compute; reflexivity).
  split; [|vm_compute; reflexivity]. apply (Build_publishable demo_request demo_build demo_projection Hs); [vm_compute; reflexivity|exact demo_projected].
Defined.
End projection_demo.
