(* ===== verification/RetrievalChannels.v ===== *)
(** * Candidate channels (internal/retrieval/channel.go, candidates.go)

    [CollectCandidates] asks every index for candidates at once, one goroutine
    per channel, and merges what has arrived by the deadline.  The model takes
    the schedule of the receiving loop as a list of events: a response of a
    channel, or the end of the deadline.  [CollectCandidates_order] shows that
    the order in which the responses arrive does not matter, and
    [CollectCandidates_exact] that a schedule in which every channel answers or
    the deadline ends gives a result, and what that result holds. *)

From Stdlib Require Import ZArith String Ascii List Bool Lia.
From stdpp Require Import base gmap strings list sorting.
From S2P Require Import Prelude GoStrings GoTime Canonical RetrievalQuery.

Open Scope Z_scope.
Open Scope go_scope.

Definition ChannelExact : string := "exact".
Definition ChannelLexical : string := "lexical".
Definition ChannelFacet : string := "facet".
Definition ChannelGraph : string := "graph".
Definition ChannelVector : string := "vector".

Record ChannelRequest := mk_ChannelRequest { cq_TenantID : string; cq_ProjectionEpoch : Z; cq_Query : Query; cq_Limit : Z }.

Record Hit := mk_Hit { ht_VersionID : string; ht_RawScoreQuantized : Z; ht_IndexManifestID : string; ht_Approximate : bool }.

(** What the code asks of an error of a channel: [errors.Is] for the two context errors and the code of a [ChannelError]. *)
Record search_error := mk_search_error { se_DeadlineExceeded : bool; se_Canceled : bool; se_ChannelCode : option string }.

(** The constant methods of the interface [Channel]; the answers of [Search] are in the schedule. *)
Record Channel := mk_Channel { cn_Name : string; cn_ManifestID : string; cn_Approximate : bool }.

Definition validChannel (value : string) : bool :=
  String.eqb value ChannelExact || String.eqb value ChannelLexical || String.eqb value ChannelFacet || String.eqb value ChannelGraph ||
  String.eqb value ChannelVector.

Definition channelFailure (err : search_error) : string :=
  if se_DeadlineExceeded err then "deadline_exceeded"
  else if se_Canceled err then "canceled"
  else match se_ChannelCode err with Some code => if String.eqb code "" then "channel_failed" else code | None => "channel_failed" end.

(** [Timeout] in nanoseconds. *)
Record CollectRequest := mk_CollectRequest { cl_Request : ChannelRequest; cl_Channels : list Channel; cl_Timeout : Z }.

Record RankedHit := mk_RankedHit { rh_Channel : string; rh_Rank : Z; rh_RawScoreQuantized : Z; rh_IndexManifestID : string; rh_Approximate : bool }.

Record CandidateSet := mk_CandidateSet { cs_VersionID : string; cs_Hits : list RankedHit }.

Record ChannelResult := mk_ChannelResult { cr_Channel : string; cr_IndexManifestID : string; cr_HitCount : Z; cr_Approximate : bool; cr_LatencyMicros : Z }.

Record DegradedChannel := mk_DegradedChannel {
  dg_Channel : string;
  dg_Code : string;
  dg_IndexManifestID : string;
  dg_Approximate : bool;
  dg_LatencyMicros : Z
}.

Record CandidateCollection := mk_CandidateCollection {
  co_Candidates : list CandidateSet;
  co_Results : list ChannelResult;
  co_Degraded : list DegradedChannel;
  co_Approximate : bool
}.

Record channelResponse := mk_channelResponse {
  rp_name : string;
  rp_manifestID : string;
  rp_approximate : bool;
  rp_hits : list Hit;
  rp_err : option search_error;
  rp_latencyMicros : Z
}.

(** An event of the receiving loop: a response with the latency measured for it, or [channelCtx.Done()] with [ctx.Err()] at that time. *)
Record Response := mk_Response { re_Channel : Channel; re_Hits : list Hit; re_Err : option search_error; re_LatencyMicros : Z }.

Inductive Event :=
| EvResponse (response : Response)
| EvDone (ctx : option goerr).

(** [channelResponse{name: channel.Name(), ...}] *)
Definition response_of (r : Response) : channelResponse :=
  mk_channelResponse (cn_Name (re_Channel r)) (cn_ManifestID (re_Channel r)) (cn_Approximate (re_Channel r)) (re_Hits r) (re_Err r) (re_LatencyMicros r).

Definition blank (s : string) : bool := String.eqb (TrimSpace s) "".

(** A second channel of the same name is refused. *)
Fixpoint channels_ok (seen : gset string) (channels : list Channel) : bool :=
  match channels with
  | [] => true
  | c :: channels =>
      validChannel (cn_Name c) && negb (blank (cn_ManifestID c)) && negb (cn_Approximate c && negb (String.eqb (cn_Name c) ChannelVector)) &&
      negb (bool_decide (cn_Name c ∈ seen)) && channels_ok ({[ cn_Name c ]} ∪ seen) channels
  end.

Definition validateCollectRequest (request : CollectRequest) : result unit :=
  let r := cl_Request request in
  reject String.eqb (cq_TenantID r) "" || (cq_ProjectionEpoch r =? 0) || (cq_Limit r =? 0) || (1000 <? cq_Limit r) || (cl_Timeout request <=? 0) ||
         (count (cl_Channels request) =? 0) || (5 <? count (cl_Channels request)) with ErrInvalidChannels;
  reject negb (channels_ok ∅ (cl_Channels request)) with ErrInvalidChannels;
  Ok tt.

Fixpoint hits_ok (channel manifest : string) (channelApproximate : bool) (seen : gset string) (hits : list Hit) : bool :=
  match hits with
  | [] => true
  | h :: hits =>
      negb (blank (ht_VersionID h)) && negb (blank (ht_IndexManifestID h)) && negb (bool_decide (ht_VersionID h ∈ seen)) &&
      String.eqb manifest (ht_IndexManifestID h) && Bool.eqb (ht_Approximate h) channelApproximate &&
      negb (ht_Approximate h && negb (String.eqb channel ChannelVector)) &&
      hits_ok channel manifest channelApproximate ({[ ht_VersionID h ]} ∪ seen) hits
  end.

(** The latency is set by the caller. *)
Definition validateHits (channel manifest : string) (channelApproximate : bool) (hits : list Hit) (limit : Z) : result ChannelResult :=
  reject limit <? count hits with ErrInvalidChannels;
  reject negb (hits_ok channel manifest channelApproximate ∅ hits) with ErrInvalidChannels;
  Ok (mk_ChannelResult channel manifest (wrap_u32 (count hits)) (foldl (fun approximate h => approximate || ht_Approximate h) channelApproximate hits) 0).

Definition timed_out (request : CollectRequest) (c : Channel) : channelResponse :=
  mk_channelResponse (cn_Name c) (cn_ManifestID c) (cn_Approximate c) [] (Some (mk_search_error true false None)) (Z.quot (cl_Timeout request) 1000).

(** "[for len(pending) > 0 { select ... }]"; [None]: the schedule ends while a channel is pending and the deadline has not ended. *)
Fixpoint collect_loop (request : CollectRequest) (pending : gset string) (byChannel : gmap string channelResponse) (events : list Event)
    : option (result (gmap string channelResponse)) :=
  if bool_decide (pending = ∅) then Some (Ok byChannel)
  else
    match events with
    | [] => None
    | EvResponse r :: events =>
        let name := rp_name (response_of r) in
        if bool_decide (name ∈ pending) then collect_loop request (pending ∖ {[ name ]}) (<[name := response_of r]> byChannel) events
        else collect_loop request pending byChannel events
    | EvDone (Some e) :: _ => Some (Err e)
    | EvDone None :: _ =>
        Some (Ok (foldl (fun m c => if bool_decide (cn_Name c ∈ pending) then <[cn_Name c := timed_out request c]> m else m) byChannel (cl_Channels request)))
    end.

Fixpoint ranked_hits (channel : string) (index : nat) (hits : list Hit) (union : gmap string (list RankedHit)) : gmap string (list RankedHit) :=
  match hits with
  | [] => union
  | h :: hits =>
      let hit := mk_RankedHit channel (wrap_u32 (Z.of_nat index + 1)) (ht_RawScoreQuantized h) (ht_IndexManifestID h) (ht_Approximate h) in
      ranked_hits channel (S index) hits (<[ht_VersionID h := default [] (union !! ht_VersionID h) ++ [hit]]> union)
  end.

Definition with_latency (r : ChannelResult) (latency : Z) : ChannelResult :=
  mk_ChannelResult (cr_Channel r) (cr_IndexManifestID r) (cr_HitCount r) (cr_Approximate r) latency.

Definition degraded_of (name code : string) (r : channelResponse) : DegradedChannel :=
  mk_DegradedChannel name code (rp_manifestID r) (rp_approximate r) (rp_latencyMicros r).

(** The result of one channel: its entry, or how it is degraded. *)
Definition channel_outcome (limit : Z) (name : string) (r : channelResponse) : ChannelResult + DegradedChannel :=
  match rp_err r with
  | Some err => inr (degraded_of name (channelFailure err) r)
  | None =>
      match validateHits name (rp_manifestID r) (rp_approximate r) (rp_hits r) limit with
      | Err _ => inr (degraded_of name "malformed_result" r)
      | Ok result => inl (with_latency result (rp_latencyMicros r))
      end
  end.

(** One turn of the loop over the sorted names: the collection and the union of hits. *)
Definition merge_channel (limit : Z) (byChannel : gmap string channelResponse) (acc : CandidateCollection * gmap string (list RankedHit)) (name : string)
    : CandidateCollection * gmap string (list RankedHit) :=
  let '(c, union) := acc in
  match byChannel !! name with
  | None => acc
  | Some r =>
      match channel_outcome limit name r with
      | inr degraded => (mk_CandidateCollection (co_Candidates c) (co_Results c) (co_Degraded c ++ [degraded]) (co_Approximate c), union)
      | inl result => (mk_CandidateCollection (co_Candidates c) (co_Results c ++ [result]) (co_Degraded c) (co_Approximate c || cr_Approximate result),
                       ranked_hits name 0 (rp_hits r) union)
      end
  end.

Definition sort_hits : list RankedHit -> list RankedHit := sort_slice (cmp_ltb (cmp_on rh_Channel String.compare)).

Definition merge (limit : Z) (byChannel : gmap string channelResponse) : CandidateCollection :=
  let names := sort_strings (List.map fst (map_to_list byChannel)) in
  let '(c, union) := foldl (merge_channel limit byChannel) (mk_CandidateCollection [] [] [] false, ∅) names in
  let versionIDs := sort_strings (List.map fst (map_to_list union)) in
  mk_CandidateCollection (List.map (fun v => mk_CandidateSet v (sort_hits (default [] (union !! v)))) versionIDs) (co_Results c) (co_Degraded c) (co_Approximate c).

(** [CollectCandidates] on a schedule; [ctx] is [ctx.Err()] after the loop. *)
Definition CollectCandidates (request : CollectRequest) (events : list Event) (ctx : option goerr) : option (result CandidateCollection) :=
  match validateCollectRequest request with
  | Err e => Some (Err e)
  | Ok _ =>
      match collect_loop request (list_to_set (List.map cn_Name (cl_Channels request))) ∅ events with
      | None => None
      | Some (Err e) => Some (Err e)
      | Some (Ok byChannel) => match ctx with Some e => Some (Err e) | None => Some (Ok (merge (cq_Limit (cl_Request request)) byChannel)) end
      end
  end.

(** ** The order of responses *)
Definition response_name (r : Response) : string := cn_Name (re_Channel r).

Lemma collect_loop_done request byChannel events : collect_loop request ∅ byChannel events = Some (Ok byChannel).
Proof. by destruct events. Qed.

Lemma collect_loop_respond request pending byChannel r events :
  collect_loop request pending byChannel (EvResponse r :: events) =
  if bool_decide (response_name r ∈ pending) then collect_loop request (pending ∖ {[ response_name r ]}) (<[response_name r := response_of r]> byChannel) events
  else collect_loop request pending byChannel events.
Proof.
  cbn [collect_loop]. case_bool_decide as Hp; [|done]. subst. rewrite collect_loop_done. by rewrite bool_decide_eq_false_2 by set_solver.
Qed.

Lemma collect_loop_swap request pending byChannel r r' events :
  response_name r <> response_name r' ->
  collect_loop request pending byChannel (EvResponse r :: EvResponse r' :: events) = collect_loop request pending byChannel (EvResponse r' :: EvResponse r :: events).
Proof.
  intros Hne. rewrite !collect_loop_respond. case_bool_decide as H1; case_bool_decide as H2; rewrite ?collect_loop_respond;
    rewrite ?(bool_decide_eq_true_2 (response_name r ∈ _)) by set_solver; rewrite ?(bool_decide_eq_true_2 (response_name r' ∈ _)) by set_solver;
    rewrite ?(bool_decide_eq_false_2 (response_name r ∈ _)) by set_solver; rewrite ?(bool_decide_eq_false_2 (response_name r' ∈ _)) by set_solver; [|done..].
  rewrite insert_insert_ne by done. f_equal. set_solver.
Qed.

Lemma collect_loop_perm request pending byChannel rs rs' rest :
  rs ≡ₚ rs' -> NoDup (List.map response_name rs) ->
  collect_loop request pending byChannel (List.map EvResponse rs ++ rest) = collect_loop request pending byChannel (List.map EvResponse rs' ++ rest).
Proof.
  intros Hp. revert pending byChannel. induction Hp as [|r rs rs' Hp IH|r r' rs|rs1 rs2 rs3 Hp1 IH1 Hp2 IH2]; intros pending byChannel Hn; [done|..].
  - cbn [List.map app] in *. apply NoDup_cons in Hn as [_ Hn]. rewrite !collect_loop_respond. by destruct (bool_decide _); apply IH.
  - cbn [List.map app] in *. apply collect_loop_swap. apply NoDup_cons in Hn as [Hn _]. set_solver.
  - rewrite IH1 by done. apply IH2. by rewrite <- Hp1.
Qed.

(** The collection does not depend on the order in which the channels answer. *)
Theorem CollectCandidates_order (request : CollectRequest) (rs rs' : list Response) (rest : list Event) (ctx : option goerr) :
  rs ≡ₚ rs' -> NoDup (List.map response_name rs) ->
  CollectCandidates request (List.map EvResponse rs ++ rest) ctx = CollectCandidates request (List.map EvResponse rs' ++ rest) ctx.
Proof.
  intros Hp Hn. unfold CollectCandidates. destruct (validateCollectRequest request); [|done]. by rewrite (collect_loop_perm request _ _ rs rs').
Qed.

(** ** What is collected *)

(** The response that the loop keeps for a channel: its first answer, or the time-out if the deadline ends before it. *)
Fixpoint answer (request : CollectRequest) (name : string) (events : list Event) : option channelResponse :=
  match events with
  | [] => None
  | EvResponse r :: events => if String.eqb (response_name r) name then Some (response_of r) else answer request name events
  | EvDone _ :: _ => timed_out request <$> List.find (fun c => String.eqb (cn_Name c) name) (cl_Channels request)
  end.

Lemma fill_lookup request (pending : gset string) channels (byChannel : gmap string channelResponse) name :
  NoDup (List.map cn_Name channels) ->
  foldl (fun m c => if bool_decide (cn_Name c ∈ pending) then <[cn_Name c := timed_out request c]> m else m) byChannel channels !! name =
  match List.find (fun c => String.eqb (cn_Name c) name) channels with
  | Some c => if bool_decide (name ∈ pending) then Some (timed_out request c) else byChannel !! name
  | None => byChannel !! name
  end.
Proof.
  revert byChannel. induction channels as [|c channels IH]; intros byChannel Hn; [done|]. cbn [foldl List.map List.find] in *.
  apply NoDup_cons in Hn as [Hc Hn]. rewrite IH by done. destruct (String.eqb_spec (cn_Name c) name) as [<-|Hne].
  - destruct (List.find _ channels) as [c'|] eqn:Ef.
    + apply find_some in Ef as [Hin He%String.eqb_eq]. destruct Hc. rewrite <- He. by apply list_elem_of_In, in_map.
    + case_bool_decide; [by rewrite lookup_insert_eq|done].
  - assert (Hl : (if bool_decide (cn_Name c ∈ pending) then <[cn_Name c := timed_out request c]> byChannel else byChannel) !! name = byChannel !! name)
      by (destruct (bool_decide (cn_Name c ∈ pending)); [by rewrite lookup_insert_ne|done]). by rewrite Hl.
Qed.

Lemma collect_loop_answers request pending byChannel events byChannel' :
  NoDup (List.map cn_Name (cl_Channels request)) -> (forall n, n ∈ pending -> n ∈ List.map cn_Name (cl_Channels request)) ->
  collect_loop request pending byChannel events = Some (Ok byChannel') ->
  forall n, byChannel' !! n = if bool_decide (n ∈ pending) then answer request n events else byChannel !! n.
Proof.
  intros Hn. revert pending byChannel. induction events as [|[r|ctx] events IH]; intros pending byChannel Hsub Hc n.
  - cbn in Hc. case_bool_decide; [|done]. subst. injection Hc as <-. by rewrite bool_decide_eq_false_2 by set_solver.
  - rewrite collect_loop_respond in Hc. cbn [answer]. case_bool_decide as Hin.
    + assert (Hsub' : forall m, m ∈ pending ∖ {[response_name r]} -> m ∈ List.map cn_Name (cl_Channels request)) by set_solver.
      rewrite (IH _ _ Hsub' Hc). destruct (String.eqb_spec (response_name r) n) as [<-|Hne].
      * rewrite bool_decide_eq_false_2, lookup_insert_eq by set_solver. by rewrite bool_decide_eq_true_2.
      * rewrite lookup_insert_ne by done. assert (Hd : n ∈ pending ∖ {[response_name r]} <-> n ∈ pending).
        { rewrite elem_of_difference, elem_of_singleton. split; [tauto|]. intros ?. split; [done|congruence]. }
        by rewrite (bool_decide_ext _ _ Hd).
    + rewrite (IH _ _ Hsub Hc). case_bool_decide; [|done]. destruct (String.eqb_spec (response_name r) n) as [<-|]; done.
  - cbn [collect_loop] in Hc. case_bool_decide as Hp; [subst; injection Hc as <-; by rewrite bool_decide_eq_false_2 by set_solver|].
    destruct ctx; [done|]. injection Hc as <-. rewrite fill_lookup by done. cbn [answer].
    destruct (List.find _ _) as [c|] eqn:Ef; [by case_bool_decide|]. case_bool_decide as Hin; [|done]. exfalso.
    apply Hsub, list_elem_of_In, in_map_iff in Hin as (c & Hc & Hin). apply (find_none _ _ Ef) in Hin. by rewrite Hc, str_eqb_refl in Hin.
Qed.

(** A response that the merge uses. *)
Definition usable (limit : Z) (name : string) (r : channelResponse) : bool :=
  match rp_err r with Some _ => false | None => is_ok (validateHits name (rp_manifestID r) (rp_approximate r) (rp_hits r) limit) end.

Definition hit_of (name : string) (k : nat) (h : Hit) : RankedHit :=
  mk_RankedHit name (Z.of_nat k + 1) (ht_RawScoreQuantized h) (ht_IndexManifestID h) (ht_Approximate h).

Lemma ranked_hits_elem name start hits union v h :
  Z.of_nat (start + length hits) < 4294967296 ->
  h ∈ default [] (ranked_hits name start hits union !! v) <->
  h ∈ default [] (union !! v) \/ exists k hit, hits !! k = Some hit /\ ht_VersionID hit = v /\ h = hit_of name (start + k) hit.
Proof.
  revert start union. induction hits as [|x hits IH]; intros start union Hlen; cbn [ranked_hits length] in *.
  { split; [by left|]. intros [?|(k & hit & Hk & _)]; done. }
  rewrite IH by lia. assert (Hw : wrap_u32 (Z.of_nat start + 1) = Z.of_nat start + 1) by (apply wrap_u32_id; unfold in_u32, MaxUint32; lia). rewrite Hw.
  destruct (decide (ht_VersionID x = v)) as [<-|Hne].
  - rewrite lookup_insert_eq. cbn [default from_option id]. rewrite elem_of_app, list_elem_of_singleton. split.
    + intros [[Hu| ->]|(k & hit & Hk & Hv & ->)]; [by left|right|right].
      * exists 0%nat, x. rewrite Nat.add_0_r. done.
      * exists (S k), hit. by rewrite Nat.add_succ_r.
    + intros [Hu|([|k] & hit & Hk & Hv & ->)]; [by left; left| |].
      * injection Hk as ->. left. right. by rewrite Nat.add_0_r.
      * right. exists k, hit. by rewrite Nat.add_succ_r.
  - rewrite lookup_insert_ne by done. split.
    + intros [Hu|(k & hit & Hk & Hv & ->)]; [by left|right]. exists (S k), hit. by rewrite Nat.add_succ_r.
    + intros [Hu|([|k] & hit & Hk & Hv & ->)]; [by left|injection Hk as ->; done|right]. exists k, hit. by rewrite Nat.add_succ_r.
Qed.

Lemma hits_ok_versions channel manifest approximate seen hits :
  hits_ok channel manifest approximate seen hits = true ->
  NoDup (List.map ht_VersionID hits) /\ (forall h, h ∈ hits -> ht_VersionID h ∉ seen) /\
  (forall h, h ∈ hits -> ht_VersionID h <> "" /\ ht_IndexManifestID h = manifest /\ ht_Approximate h = approximate).
Proof.
  revert seen. induction hits as [|h hits IH]; intros seen Hok; cbn [hits_ok List.map] in *; [by split_and!; [constructor|intros h Hh; inversion Hh..]|].
  autorewrite with goboolsimpl in Hok. destruct Hok as [[[[[[Hb _] Hs] Hm] Ha] _] Hr]. apply bool_decide_eq_false in Hs.
  destruct (IH _ Hr) as (Hn & Hd & Hall). split_and!.
  - apply NoDup_cons. split; [|done]. intros (h' & Hh' & Hin)%list_elem_of_In%in_map_iff. apply list_elem_of_In in Hin. apply Hd in Hin. set_solver.
  - intros h' [->|Hin]%elem_of_cons; [done|]. apply Hd in Hin. set_solver.
  - intros h' [->|Hin]%elem_of_cons; [|by apply Hall]. split; [|split; [congruence|by apply eqb_prop]]. intros He. unfold blank in Hb. by rewrite He in Hb.
Qed.

Lemma ranked_hits_other name start hits union v :
  v ∉ List.map ht_VersionID hits -> ranked_hits name start hits union !! v = union !! v.
Proof.
  revert start union. induction hits as [|x hits IH]; intros start union Hv; [done|]. cbn [ranked_hits List.map] in *.
  rewrite IH by set_solver. apply lookup_insert_ne. set_solver.
Qed.

(** A channel adds at most one hit to a version. *)
Lemma ranked_hits_extra name start hits union v :
  NoDup (List.map ht_VersionID hits) ->
  exists extra, default [] (ranked_hits name start hits union !! v) = default [] (union !! v) ++ extra /\
    (extra = [] \/ exists h, extra = [h] /\ rh_Channel h = name).
Proof.
  revert start union. induction hits as [|x hits IH]; intros start union Hn; cbn [ranked_hits List.map] in *.
  { exists []. rewrite app_nil_r. split; [done|by left]. }
  apply NoDup_cons in Hn as [Hx Hn]. destruct (decide (ht_VersionID x = v)) as [<-|Hne].
  - rewrite ranked_hits_other by done. rewrite lookup_insert_eq. cbn [default from_option id]. eexists. split; [done|right]. by eexists.
  - destruct (IH (S start) (<[ht_VersionID x := default [] (union !! ht_VersionID x) ++ [mk_RankedHit name (wrap_u32 (Z.of_nat start + 1)) (ht_RawScoreQuantized x) (ht_IndexManifestID x) (ht_Approximate x)]]> union) Hn) as (extra & He & Hc).
    exists extra. split; [|done]. rewrite He. by rewrite lookup_insert_ne.
Qed.

Lemma ranked_hits_nonempty name start hits union v l :
  (forall w l', union !! w = Some l' -> l' <> []) -> ranked_hits name start hits union !! v = Some l -> l <> [].
Proof.
  revert start union. induction hits as [|x hits IH]; intros start union Hu Hl; [by eapply Hu|]. cbn [ranked_hits] in Hl. eapply IH; [|exact Hl].
  intros w l' [[_ <-]|[_ Hw]]%lookup_insert_Some; [by destruct (default [] _)|by eapply Hu].
Qed.

Lemma elem_of_map_dom {A} (m : gmap string A) k : k ∈ List.map fst (map_to_list m) <-> is_Some (m !! k).
Proof.
  rewrite list_elem_of_In, in_map_iff. split.
  - intros ([k' a] & <- & Hin%list_elem_of_In%elem_of_map_to_list). by eexists.
  - intros [a Ha]. exists (k, a). split; [done|]. by apply list_elem_of_In, elem_of_map_to_list.
Qed.

(** The entries of the merged channels. *)
Definition completed (limit : Z) (byChannel : gmap string channelResponse) (name : string) : option ChannelResult :=
  match byChannel !! name with Some r => match channel_outcome limit name r with inl x => Some x | inr _ => None end | None => None end.

Definition degraded (limit : Z) (byChannel : gmap string channelResponse) (name : string) : option DegradedChannel :=
  match byChannel !! name with Some r => match channel_outcome limit name r with inr x => Some x | inl _ => None end | None => None end.

Lemma usable_outcome limit name r :
  usable limit name r = match channel_outcome limit name r with inl _ => true | inr _ => false end.
Proof. unfold usable, channel_outcome. destruct (rp_err r); [done|]. by destruct (validateHits _ _ _ _ _). Qed.

Lemma usable_hits limit name r :
  usable limit name r = true -> rp_err r = None /\ count (rp_hits r) <= limit /\ hits_ok name (rp_manifestID r) (rp_approximate r) ∅ (rp_hits r) = true.
Proof.
  unfold usable, validateHits. destruct (rp_err r); [done|]. destruct (Z.ltb_spec limit (count (rp_hits r))); [done|]. by destruct (hits_ok _ _ _ _ _).
Qed.

(** The hits of a channel that is used. *)
Definition channel_hit (limit : Z) (byChannel : gmap string channelResponse) (name v : string) (h : RankedHit) : Prop :=
  exists r k hit, byChannel !! name = Some r /\ usable limit name r = true /\ rp_hits r !! k = Some hit /\ ht_VersionID hit = v /\ h = hit_of name k hit.

Record merged (limit : Z) (byChannel : gmap string channelResponse) (names : list string) (c : CandidateCollection) (union : gmap string (list RankedHit)) : Prop :=
  mk_merged {
  mg_results : co_Results c = omap (completed limit byChannel) names;
  mg_degraded : co_Degraded c = omap (degraded limit byChannel) names;
  mg_approximate : co_Approximate c = existsb cr_Approximate (co_Results c);
  mg_hits : forall v h, h ∈ default [] (union !! v) <-> exists name, name ∈ names /\ channel_hit limit byChannel name v h;
  mg_once : forall v, NoDup (List.map rh_Channel (default [] (union !! v)));
  mg_nonempty : forall v l, union !! v = Some l -> l <> []
}.

Lemma merge_channel_merged limit byChannel names c union name :
  limit <= 1000 -> merged limit byChannel names c union -> name ∉ names ->
  let acc := merge_channel limit byChannel (c, union) name in merged limit byChannel (names ++ [name]) (fst acc) (snd acc).
Proof.
  intros Hlim [Hr Hd Ha Hh Ho He] Hname acc. subst acc. unfold merge_channel.
  assert (Hskip : forall v h, (forall r, byChannel !! name = Some r -> usable limit name r = false) ->
    (exists n, n ∈ names ++ [name] /\ channel_hit limit byChannel n v h) <-> (exists n, n ∈ names /\ channel_hit limit byChannel n v h)).
  { intros v h Hno. split; intros (n & Hn & Hx); exists n; (split; [|done]); [|set_solver]. apply elem_of_app in Hn as [Hn|Hn%list_elem_of_singleton]; [done|].
    subst n. destruct Hx as (r & k & hit & Hb & Hu & _). by rewrite (Hno r Hb) in Hu. }
  destruct (byChannel !! name) as [r|] eqn:Eb; [destruct (channel_outcome limit name r) as [x|x] eqn:Eo|]; cbn [fst snd].
  - assert (Hu : usable limit name r = true) by (by rewrite usable_outcome, Eo). destruct (usable_hits _ _ _ Hu) as (_ & Hcount & Hok).
    destruct (hits_ok_versions _ _ _ _ _ Hok) as (Hnd & _). split; cbn [co_Results co_Degraded co_Approximate].
    + rewrite omap_app, <- Hr. unfold completed at 1. cbn [omap list_omap]. by rewrite Eb, Eo.
    + rewrite omap_app, <- Hd. unfold degraded at 1. cbn [omap list_omap]. rewrite Eb, Eo. by rewrite app_nil_r.
    + rewrite existsb_app, <- Ha. cbn [existsb]. by rewrite orb_false_r.
    + intros v h. unfold count in Hcount. rewrite ranked_hits_elem, Hh by (simpl; lia). split.
      * intros [(n & Hn & Hx)|(k & hit & Hk & Hv & ->)]; [exists n; split; [set_solver|done]|]. exists name. split; [set_solver|].
        exists r, k, hit. done.
      * intros (n & [Hn|Hn%list_elem_of_singleton]%elem_of_app & Hx); [left; by exists n|right]. subst n.
        destruct Hx as (r' & k & hit & Hb & _ & Hk & Hv & ->). rewrite Eb in Hb. injection Hb as <-. by exists k, hit.
    + intros v. destruct (ranked_hits_extra name 0 (rp_hits r) union v Hnd) as (extra & -> & Hex). rewrite map_app.
      destruct Hex as [->|(h & -> & Hc)]; [by rewrite app_nil_r|]. apply NoDup_app. split; [done|]. split; [|apply NoDup_singleton].
      intros n (h' & <- & Hin)%list_elem_of_In%in_map_iff. cbn [List.map]. rewrite list_elem_of_singleton, Hc. intros Hch. apply list_elem_of_In, Hh in Hin as (n & Hn & Hx).
      destruct Hx as (r' & k & hit & _ & _ & _ & _ & ->). cbn [hit_of rh_Channel] in Hch. by subst n.
    + intros v l. apply ranked_hits_nonempty, He.
  - split; cbn [co_Results co_Degraded co_Approximate].
    + rewrite omap_app, <- Hr. unfold completed at 1. cbn [omap list_omap]. rewrite Eb, Eo. by rewrite app_nil_r.
    + rewrite omap_app, <- Hd. unfold degraded at 1. cbn [omap list_omap]. by rewrite Eb, Eo.
    + done.
    + intros v h. rewrite Hskip; [apply Hh|]. intros r' [= <-]. by rewrite usable_outcome, Eo.
    + done.
    + done.
  - split; [| |done| |done|done].
    + rewrite omap_app, <- Hr. unfold completed at 1. cbn [omap list_omap]. rewrite Eb. by rewrite app_nil_r.
    + rewrite omap_app, <- Hd. unfold degraded at 1. cbn [omap list_omap]. rewrite Eb. by rewrite app_nil_r.
    + intros v h. rewrite Hskip by done. apply Hh.
Qed.

Lemma merge_fold limit byChannel names :
  limit <= 1000 -> NoDup names ->
  let acc := foldl (merge_channel limit byChannel) (mk_CandidateCollection [] [] [] false, ∅) names in merged limit byChannel names (fst acc) (snd acc).
Proof.
  intros Hlim. induction names as [|name names IH] using rev_ind; intros Hn.
  { split; try done. intros v h. split; [intros Hh; inversion Hh|]. intros (n & Hn' & _). inversion Hn'. }
  apply NoDup_app in Hn as (Hn & Hdis & _). rewrite foldl_app. cbn [foldl]. specialize (IH Hn). cbv zeta in IH.
  destruct (foldl _ _ names) as [c union]. apply merge_channel_merged; [done|done|]. intros Hin. apply (Hdis _ Hin). set_solver.
Qed.

(** ** The result *)
Record collected (request : CollectRequest) (events : list Event) (c : CandidateCollection) : Prop := mk_collected {
  cd_channels : List.map cr_Channel (co_Results c) ++ List.map dg_Channel (co_Degraded c) ≡ₚ List.map cn_Name (cl_Channels request);
  cd_complete : forall name, name ∈ List.map cr_Channel (co_Results c) <->
    exists r, name ∈ List.map cn_Name (cl_Channels request) /\ answer request name events = Some r /\ usable (cq_Limit (cl_Request request)) name r = true;
  cd_hits : forall v h, (exists cs, cs ∈ co_Candidates c /\ cs_VersionID cs = v /\ h ∈ cs_Hits cs) <->
    exists name r k hit, name ∈ List.map cn_Name (cl_Channels request) /\ answer request name events = Some r /\
      usable (cq_Limit (cl_Request request)) name r = true /\ rp_hits r !! k = Some hit /\ ht_VersionID hit = v /\ h = hit_of name k hit;
  cd_sorted : StronglySorted str_lt (List.map cs_VersionID (co_Candidates c));
  cd_once : forall cs, cs ∈ co_Candidates c -> cs_Hits cs <> [] /\ NoDup (List.map rh_Channel (cs_Hits cs)) /\
    StronglySorted (cmp_le (cmp_on rh_Channel String.compare)) (cs_Hits cs);
  cd_approximate : co_Approximate c = existsb cr_Approximate (co_Results c)
}.

Lemma channels_ok_NoDup seen channels : channels_ok seen channels = true -> NoDup (List.map cn_Name channels) /\ forall c, c ∈ channels -> cn_Name c ∉ seen.
Proof.
  revert seen. induction channels as [|c channels IH]; intros seen Hok; cbn [channels_ok List.map] in *; [split; [constructor|intros c Hc; inversion Hc]|].
  autorewrite with goboolsimpl in Hok. destruct Hok as [[_ Hs] Hr]. apply bool_decide_eq_false in Hs. destruct (IH _ Hr) as [Hn Hd]. split.
  - apply NoDup_cons. split; [|done]. intros (c' & Hc & Hin)%list_elem_of_In%in_map_iff. apply list_elem_of_In, Hd in Hin. set_solver.
  - intros c' [->|Hin]%elem_of_cons; [done|]. apply Hd in Hin. set_solver.
Qed.

Lemma completed_name limit byChannel name x : completed limit byChannel name = Some x -> cr_Channel x = name.
Proof.
  unfold completed, channel_outcome, validateHits. destruct (byChannel !! name) as [r|]; [|done]. destruct (rp_err r); [done|].
  destruct (limit <? _); [done|]. destruct (hits_ok _ _ _ _ _); [|done]. by intros [= <-].
Qed.

Lemma degraded_name limit byChannel name x : degraded limit byChannel name = Some x -> dg_Channel x = name.
Proof.
  unfold degraded, channel_outcome. destruct (byChannel !! name) as [r|]; [|done]. destruct (rp_err r); [by intros [= <-]|].
  destruct (validateHits _ _ _ _ _); [done|]. by intros [= <-].
Qed.

Lemma outcomes_partition limit byChannel names :
  (forall n, n ∈ names -> is_Some (byChannel !! n)) ->
  List.map cr_Channel (omap (completed limit byChannel) names) ++ List.map dg_Channel (omap (degraded limit byChannel) names) ≡ₚ names.
Proof.
  induction names as [|n names IH]; intros Hs; [done|]. cbn [omap list_omap]. specialize (IH ltac:(set_solver)).
  destruct (Hs n) as [r Hr]; [set_solver|]. pose proof (completed_name limit byChannel n) as Hc. pose proof (degraded_name limit byChannel n) as Hd.
  unfold completed, degraded in Hc, Hd. unfold completed at 1, degraded at 1. rewrite Hr in *. destruct (channel_outcome limit n r) as [x|x]; cbn [List.map app].
  - rewrite (Hc x eq_refl). by constructor.
  - rewrite (Hd x eq_refl), <- Permutation_middle. by constructor.
Qed.

Lemma merge_collected request events byChannel :
  cq_Limit (cl_Request request) <= 1000 -> NoDup (List.map cn_Name (cl_Channels request)) ->
  (forall n, byChannel !! n = if bool_decide (n ∈ List.map cn_Name (cl_Channels request)) then answer request n events else None) ->
  (forall n, n ∈ List.map cn_Name (cl_Channels request) -> is_Some (byChannel !! n)) ->
  collected request events (merge (cq_Limit (cl_Request request)) byChannel).
Proof.
  intros Hlim Hnd Hby Hsome. set (limit := cq_Limit (cl_Request request)) in *. unfold merge. set (names := sort_strings (List.map fst (map_to_list byChannel))).
  assert (Hnames : forall n, n ∈ names <-> n ∈ List.map cn_Name (cl_Channels request)).
  { intros n. unfold names. rewrite sort_strings_elem, elem_of_map_dom. split.
    - intros [r Hr]. rewrite Hby in Hr. by case_bool_decide.
    - apply Hsome. }
  assert (Hnn : NoDup names) by (apply NoDup_sort_strings, NoDup_fst_map_to_list).
  assert (Hpn : names ≡ₚ List.map cn_Name (cl_Channels request)) by (by apply NoDup_Permutation).
  pose proof (merge_fold limit byChannel names Hlim Hnn) as Hm. cbv zeta in Hm. destruct (foldl _ _ names) as [c union]. cbn [fst snd] in Hm. destruct Hm as [Hr Hd Ha Hh Ho He].
  assert (Hch : forall name v h, (name ∈ names /\ channel_hit limit byChannel name v h) <-> exists r k hit, name ∈ List.map cn_Name (cl_Channels request) /\
    answer request name events = Some r /\ usable limit name r = true /\ rp_hits r !! k = Some hit /\ ht_VersionID hit = v /\ h = hit_of name k hit).
  { intros name v h. rewrite Hnames. split.
    - intros [Hn (r & k & hit & Hb & Hrest)]. rewrite Hby, bool_decide_eq_true_2 in Hb by done. by exists r, k, hit.
    - intros (r & k & hit & Hn & Hb & Hrest). split; [done|]. exists r, k, hit. by rewrite Hby, bool_decide_eq_true_2 by done. }
  split; cbn [co_Results co_Degraded co_Candidates co_Approximate].
  - rewrite Hr, Hd, outcomes_partition; [done|]. intros n Hn. by apply Hsome, Hnames.
  - intros name. rewrite Hr, list_elem_of_In, in_map_iff. split.
    + intros (x & <- & Hin). apply list_elem_of_In, list_elem_of_omap in Hin as (n & Hn & Hx). pose proof (completed_name _ _ _ _ Hx) as ->. unfold completed in Hx.
      destruct (byChannel !! n) as [r|] eqn:Eb; [|done]. pose proof (proj1 (Hnames n) Hn) as Hn'. exists r. split; [done|].
      rewrite Hby, bool_decide_eq_true_2 in Eb by done. split; [done|]. rewrite usable_outcome. fold limit. by destruct (channel_outcome limit n r).
    + intros (r & Hn & Hb & Hu). fold limit in Hu. rewrite usable_outcome in Hu. destruct (channel_outcome limit name r) as [x|] eqn:Eo; [|done].
      assert (Hx : completed limit byChannel name = Some x). { unfold completed. rewrite Hby, bool_decide_eq_true_2 by done. by rewrite Hb, Eo. }
      exists x. split; [by apply (completed_name _ _ _ _ Hx)|]. apply list_elem_of_In, list_elem_of_omap. exists name. split; [by apply Hnames|done].
  - intros v h. transitivity (exists name, name ∈ names /\ channel_hit limit byChannel name v h); [rewrite <- Hh|by setoid_rewrite Hch]. split.
    + intros (cs & Hin & <- & Hcs). apply list_elem_of_In, in_map_iff in Hin as (v & <- & _). cbn [cs_VersionID cs_Hits] in *. unfold sort_hits in Hcs. by rewrite sort_slice_elem in Hcs.
    + intros Hin. exists (mk_CandidateSet v (sort_hits (default [] (union !! v)))). split; [|split; [done|by apply sort_slice_elem]].
      apply list_elem_of_In, in_map_iff. exists v. split; [done|]. apply list_elem_of_In, sort_strings_elem, elem_of_map_dom.
      destruct (union !! v); [by eexists|inversion Hin].
  - rewrite map_map. cbn [cs_VersionID]. rewrite map_id. apply sorted_NoDup_strict; [apply sort_strings_sorted|apply NoDup_sort_strings, NoDup_fst_map_to_list].
  - intros cs (v & <- & Hv)%list_elem_of_In%in_map_iff. cbn [cs_Hits]. split.
    + apply list_elem_of_In, sort_strings_elem, elem_of_map_dom in Hv as [l Hl]. rewrite Hl. cbn [default from_option id]. intros Hnil.
      assert (Hlen : l = []). { apply Permutation_nil. rewrite <- Hnil. apply sort_slice_perm. }
      by destruct (He v l).
    + split; [|apply (sort_slice_sorted (cmp_on rh_Channel String.compare))]. unfold sort_hits. rewrite sort_slice_perm. apply Ho.
  - done.
Qed.

Lemma collect_loop_total request pending byChannel events :
  (forall n, n ∈ pending -> is_Some (answer request n events)) ->
  (forall n, n ∈ pending -> n ∈ List.map cn_Name (cl_Channels request)) ->
  collect_loop request pending byChannel events <> None.
Proof.
  revert pending byChannel. induction events as [|[r|ctx] events IH]; intros pending byChannel Ha Hsub.
  - cbn. case_bool_decide as Hp; [done|]. destruct (set_choose_L pending Hp) as [n Hn]. by destruct (Ha n Hn).
  - rewrite collect_loop_respond. destruct (bool_decide (response_name r ∈ pending)) eqn:Er.
    + apply IH; [|set_solver]. intros n [Hn Hne]%elem_of_difference. specialize (Ha n Hn). cbn [answer] in Ha.
      destruct (String.eqb_spec (response_name r) n) as [E|]; [set_solver|done].
    + apply bool_decide_eq_false in Er. apply IH; [|done]. intros n Hn. specialize (Ha n Hn). cbn [answer] in Ha.
      destruct (String.eqb_spec (response_name r) n) as [E|]; [by rewrite E in Er|done].
  - cbn [collect_loop]. case_bool_decide; [done|]. by destruct ctx.
Qed.

Lemma answer_some_loop request pending byChannel events byChannel' n :
  collect_loop request pending byChannel events = Some (Ok byChannel') ->
  n ∈ pending -> n ∈ List.map cn_Name (cl_Channels request) -> is_Some (answer request n events).
Proof.
  revert pending byChannel. induction events as [|[r|ctx] events IH]; intros pending byChannel Hc Hp Hn.
  - cbn in Hc. case_bool_decide; [set_solver|done].
  - rewrite collect_loop_respond in Hc. cbn [answer]. destruct (String.eqb_spec (response_name r) n) as [<-|Hne]; [by eexists|].
    destruct (bool_decide (response_name r ∈ pending)); (eapply IH; [exact Hc|set_solver|done]).
  - cbn [answer]. destruct (List.find _ _) as [c|] eqn:Ef; [by eexists|]. exfalso.
    apply list_elem_of_In, in_map_iff in Hn as (c & Hcn & Hin). apply (find_none _ _ Ef) in Hin. by rewrite Hcn, str_eqb_refl in Hin.
Qed.

Lemma validateCollectRequest_ok request :
  validateCollectRequest request = Ok tt -> cq_Limit (cl_Request request) <= 1000 /\ NoDup (List.map cn_Name (cl_Channels request)).
Proof.
  unfold validateCollectRequest. intros Hv. inv_Ok Hv. autorewrite with goboolsimpl in *. split; [|by eapply (channels_ok_NoDup ∅)]. lia.
Qed.

(** The degraded channels of a collection come in the order of their names. *)
Lemma merge_degraded_sorted limit byChannel :
  limit <= 1000 -> StronglySorted str_lt (List.map dg_Channel (co_Degraded (merge limit byChannel))) /\
  co_Approximate (merge limit byChannel) = existsb cr_Approximate (co_Results (merge limit byChannel)).
Proof.
  intros Hlim. unfold merge. set (names := sort_strings (List.map fst (map_to_list byChannel))).
  assert (Hnn : NoDup names) by (apply NoDup_sort_strings, NoDup_fst_map_to_list).
  pose proof (merge_fold limit byChannel names Hlim Hnn) as Hm. cbv zeta in Hm. destruct (foldl _ _ names) as [c union]. cbn [fst snd] in Hm.
  destruct Hm as [_ Hd Ha _ _ _]. cbn [co_Degraded co_Approximate co_Results]. split; [|done]. rewrite Hd.
  assert (Hs : StronglySorted str_lt names) by (apply sorted_NoDup_strict; [apply sort_strings_sorted|done]). clear - Hs.
  assert (Hsub : forall l n, Forall (str_lt n) l -> Forall (str_lt n) (List.map dg_Channel (omap (degraded limit byChannel) l))).
  { intros l n. induction 1 as [|m l Hm Hl IH]; [constructor|]. cbn [omap list_omap]. destruct (degraded limit byChannel m) as [x|] eqn:Ex; [|done].
    cbn [List.map]. constructor; [|done]. by rewrite (degraded_name _ _ _ _ Ex). }
  induction Hs as [|n l Hl IH Hf]; [constructor|]. cbn [omap list_omap]. destruct (degraded limit byChannel n) as [x|] eqn:Ex; [|done].
  cbn [List.map]. constructor; [done|]. rewrite (degraded_name _ _ _ _ Ex). by apply Hsub.
Qed.

Lemma CollectCandidates_merged request events ctx c :
  CollectCandidates request events ctx = Some (Ok c) ->
  StronglySorted str_lt (List.map dg_Channel (co_Degraded c)) /\ co_Approximate c = existsb cr_Approximate (co_Results c).
Proof.
  unfold CollectCandidates. destruct (validateCollectRequest request) as [[]|] eqn:Ev; [|done]. destruct (collect_loop _ _ _ _) as [[byChannel|]|]; [|done..].
  destruct ctx; [done|]. intros [= <-]. apply merge_degraded_sorted. apply (validateCollectRequest_ok _ Ev).
Qed.

(** The schedule answers for every channel: each responds, or the deadline ends. *)
Definition complete_schedule (request : CollectRequest) (events : list Event) : Prop :=
  (exists ctx, EvDone ctx ∈ events) \/
  (forall c, c ∈ cl_Channels request -> exists r, EvResponse r ∈ events /\ response_name r = cn_Name c).

Lemma complete_schedule_answer request events n :
  complete_schedule request events -> n ∈ List.map cn_Name (cl_Channels request) -> is_Some (answer request n events).
Proof.
  intros Hs (c & <- & Hc)%list_elem_of_In%in_map_iff. apply list_elem_of_In in Hc.
  assert (He : (exists ctx, EvDone ctx ∈ events) \/ exists r, EvResponse r ∈ events /\ response_name r = cn_Name c) by (destruct Hs as [|Hs]; [by left|right; by apply Hs]).
  clear Hs. induction events as [|[r|ctx] events IH].
  - destruct He as [[ctx He]|[r [He _]]]; inversion He.
  - cbn [answer]. destruct (String.eqb_spec (response_name r) (cn_Name c)); [by eexists|]. apply IH. set_solver.
  - cbn [answer]. destruct (List.find _ _) as [c'|] eqn:Ef; [by eexists|]. apply list_elem_of_In, (find_none _ _ Ef) in Hc. by rewrite str_eqb_refl in Hc.
Qed.

Lemma collect_loop_error request pending byChannel events e :
  collect_loop request pending byChannel events = Some (Err e) -> EvDone (Some e) ∈ events.
Proof.
  revert pending byChannel. induction events as [|[r|ctx] events IH]; intros pending byChannel Hc.
  - cbn in Hc. by case_bool_decide.
  - rewrite collect_loop_respond in Hc. destruct (bool_decide (response_name r ∈ pending)); apply IH in Hc; set_solver.
  - cbn [collect_loop] in Hc. case_bool_decide; [done|]. destruct ctx; [|done]. injection Hc as ->. set_solver.
Qed.

Lemma CollectCandidates_collected (request : CollectRequest) (events : list Event) :
  validateCollectRequest request = Ok tt -> complete_schedule request events -> (forall e, EvDone (Some e) ∉ events) ->
  exists c, CollectCandidates request events None = Some (Ok c) /\ collected request events c.
Proof.
  intros Hv Hs Hctx. destruct (validateCollectRequest_ok _ Hv) as [Hlim Hnd]. unfold CollectCandidates. rewrite Hv.
  set (names := List.map cn_Name (cl_Channels request)) in *.
  assert (Hsub : forall n, n ∈ (list_to_set names : gset string) -> n ∈ names) by set_solver.
  assert (Ha : forall n, n ∈ names -> is_Some (answer request n events)) by (intros n; by apply complete_schedule_answer).
  destruct (collect_loop request (list_to_set names) ∅ events) as [[byChannel|e]|] eqn:Ec.
  - eexists. split; [done|]. pose proof (collect_loop_answers _ _ _ _ _ Hnd Hsub Ec) as Hl.
    assert (Hby : forall n, byChannel !! n = if bool_decide (n ∈ names) then answer request n events else None).
    { intros n. rewrite Hl, lookup_empty. by rewrite (bool_decide_ext _ _ (elem_of_list_to_set (C:=gset string) n names)). }
    apply merge_collected; [done|done|exact Hby|]. intros n Hn. rewrite Hby, bool_decide_eq_true_2 by done. by apply Ha.
  - by destruct (Hctx e); eapply collect_loop_error.
  - exfalso. eapply collect_loop_total; [|exact Hsub|exact Ec]. intros n Hn. by apply Ha, Hsub.
Qed.

(** C24: A valid request whose context is not cancelled gets a collection from every
    schedule in which each channel answers or the deadline ends.  Every channel
    is in it exactly once, as completed or as degraded; a hit of it is a hit
    at its place in the first answer of a completed channel, and every such
    hit is there; versions are sorted and each has one hit per channel. *)
Theorem CollectCandidates_exact (request : CollectRequest) (events : list Event) :
  validateCollectRequest request = Ok tt -> complete_schedule request events -> (forall e, EvDone (Some e) ∉ events) ->
  exists c, CollectCandidates request events None = Some (Ok c) /\ collected request events c.
Proof. apply CollectCandidates_collected. Qed.

(** ** Examples *)
Definition demo_channel (name : string) : Channel := mk_Channel name ("index-" ++ name) (String.eqb name ChannelVector).

Definition demo_hit (version name : string) (score : Z) : Hit := mk_Hit version score ("index-" ++ name) (String.eqb name ChannelVector).



Definition demo_collect : CollectRequest :=
  mk_CollectRequest (mk_ChannelRequest "tenant" 7 demo_query 2) (List.map demo_channel ["vector"; "exact"; "lexical"]) 2000000.

Definition demo_response (name : string) (hits : list Hit) : Response := mk_Response (demo_channel name) hits None 10.

Definition demo_responses : list Response :=
  [demo_response "vector" [demo_hit "v2" "vector" 900; demo_hit "v1" "vector" 800]; demo_response "exact" [demo_hit "v1" "exact" 1000]].

Lemma CollectCandidates_order_witness :
  CollectCandidates demo_collect (List.map EvResponse demo_responses ++ [EvDone None]) None =
  CollectCandidates demo_collect (List.map EvResponse (rev demo_responses) ++ [EvDone None]) None.
Proof.
  apply (CollectCandidates_order demo_collect demo_responses (rev demo_responses) [EvDone None] None).
  - cbn. constructor.
  - apply (bool_decide_eq_true_1 _). vm_compute. reflexivity.
Defined.

(** The lexical index misses the deadline; the other two are merged. *)
Definition demo_events : list Event := List.map EvResponse demo_responses ++ [EvDone None].

Lemma CollectCandidates_exact_witness :
  exists c, CollectCandidates demo_collect demo_events None = Some (Ok c) /\ collected demo_collect demo_events c.
Proof.
  apply (CollectCandidates_exact demo_collect demo_events).
  - vm_compute. reflexivity.
  - left. exists None. by right; right; left.
  - intros e. unfold demo_events. cbn. rewrite !elem_of_cons. intros [?|[?|[?|Hn]]]; try done. inversion Hn.
Defined.

Example collected_demo :
  CollectCandidates demo_collect demo_events None =
  Some (Ok (mk_CandidateCollection
    [mk_CandidateSet "v1" [mk_RankedHit "exact" 1 1000 "index-exact" false; mk_RankedHit "vector" 2 800 "index-vector" true];
     mk_CandidateSet "v2" [mk_RankedHit "vector" 1 900 "index-vector" true]]
    [mk_ChannelResult "exact" "index-exact" 1 false 10; mk_ChannelResult "vector" "index-vector" 2 true 10]
    [mk_DegradedChannel "lexical" "deadline_exceeded" "index-lexical" false 2000] true)).
Proof. vm_compute. reflexivity. Qed.
