(* ===== verification/RetrievalRun.v ===== *)
(** * Retrieval runs (internal/retrieval/run.go)

    A run is the record of one retrieval: the snapshot it was served from, what
    every channel returned, the gate and the rank of every candidate, and the
    versions that were selected.  [BuildRun] sorts and checks it and binds it to
    the hash of its canonical bytes; [ValidateRun] checks a stored one and
    [DecodeRun] reads one back, also in the two older layouts.

    [encoding/json]'s decoder is a parameter ([RunDecoder]).  The theorems are in
    [RetrievalRunSound]: a built run reads back, the order of its parts does not
    matter, and a run that validates is typed.

    Slices are copied by the code before they are sorted ([cloneSnapshot],
    [cloneGates], [cloneRanks], [cloneSemanticJudgments]); lists need no copies. *)

From Stdlib Require Import ZArith String Ascii List Bool Lia.
From stdpp Require Import base gmap strings list sorting.
From S2P Require Import Prelude GoStrings GoTime Canonical RetrievalQuery RetrievalChannels.

Open Scope Z_scope.
Open Scope go_scope.

(** ** Types *)
Definition runSchemaVersion : string := "retrieval-run.v3".

Definition runIDPattern (id : string) : bool := HasPrefix id "rrun_" && sha256Pattern (str_drop 5 id).

Definition RunSelected : string := "selected".
Definition RunAbstained : string := "abstained".
Definition RunFailed : string := "failed".

Record SnapshotIndex := mk_SnapshotIndex { si_Channel : string; si_ManifestID : string; si_Approximate : bool }.

Record ServingConfig := mk_ServingConfig {
  sc_SchemaVersion : string;
  sc_TenantID : string;
  sc_PolicyManifestID : string;
  sc_RankerManifestID : string;
  sc_Indexes : list SnapshotIndex;
  sc_ID : string;
  sc_ContentHash : string;
  sc_CanonicalJSON : string
}.

Record ServingSnapshot := mk_ServingSnapshot {
  ss_ProjectionEpoch : Z;
  ss_ProjectionCreatedAt : gotime;
  ss_VectorIndexCreatedAt : gotime;
  ss_DocumentSetHash : string;
  ss_ServingConfigID : string;
  ss_PolicyManifestID : string;
  ss_RankerManifestID : string;
  ss_Indexes : list SnapshotIndex
}.

Record ChannelExecution := mk_ChannelExecution {
  ex_Channel : string;
  ex_IndexManifestID : string;
  ex_HitCount : Z;
  ex_Approximate : bool;
  ex_Complete : bool;
  ex_DegradationCode : string;
  ex_LatencyMicros : Z
}.

Record PersistedHit := mk_PersistedHit {
  ph_Channel : string;
  ph_VersionID : string;
  ph_Rank : Z;
  ph_RawScoreQuantized : Z;
  ph_IndexManifestID : string;
  ph_Approximate : bool
}.

Record PersistedGate := mk_PersistedGate {
  pg_VersionID : string;
  pg_Eligible : bool;
  pg_AdvisoryOnly : bool;
  pg_RejectionCodes : list string;
  pg_CanonicalFacts : string
}.

Record PersistedFeature := mk_PersistedFeature { pf_Name : string; pf_Value : Z }.

Record PersistedRank := mk_PersistedRank {
  pk_VersionID : string;
  pk_RRFScore : Z;
  pk_FinalScore : Z;
  pk_Rank : Z;
  pk_VerificationStrength : Z;
  pk_ObservedEndToEnd : bool;
  pk_Features : list PersistedFeature;
  pk_MissingFeatures : list string
}.

Record PersistedSemanticJudgment := mk_PersistedSemanticJudgment {
  sj_VersionID : string;
  sj_JudgmentKey : string;
  sj_Disposition : string;
  sj_ContentHash : string;
  sj_Provider : string;
  sj_Model : string;
  sj_RubricManifestID : string;
  sj_Features : list PersistedFeature
}.

Record RunInput := mk_RunInput {
  ni_ID : string;
  ni_TenantID : string;
  ni_Query : Query;
  ni_RequestContextHash : string;
  ni_QueryEnvelope : string;
  ni_Snapshot : ServingSnapshot;
  ni_ChannelExecutions : list ChannelExecution;
  ni_Hits : list PersistedHit;
  ni_Gates : list PersistedGate;
  ni_Ranked : list PersistedRank;
  ni_SemanticJudgments : list PersistedSemanticJudgment;
  ni_Disposition : string;
  ni_DecisionCode : string;
  ni_SelectedVersionIDs : list string;
  ni_CreatedAt : gotime;
  ni_CompletedAt : gotime;
  ni_ExpiresAt : gotime
}.

Record Run := mk_Run {
  rn_SchemaVersion : string;
  rn_ID : string;
  rn_TenantID : string;
  rn_QueryHash : string;
  rn_RequestContextHash : string;
  rn_QueryEnvelope : string;
  rn_Snapshot : ServingSnapshot;
  rn_ChannelExecutions : list ChannelExecution;
  rn_Hits : list PersistedHit;
  rn_Gates : list PersistedGate;
  rn_Ranked : list PersistedRank;
  rn_SemanticJudgments : list PersistedSemanticJudgment;
  rn_CandidateVersionIDs : list string;
  rn_IndexManifestIDs : list string;
  rn_Disposition : string;
  rn_DecisionCode : string;
  rn_SelectedVersionIDs : list string;
  rn_CreatedAt : gotime;
  rn_CompletedAt : gotime;
  rn_ExpiresAt : gotime;
  rn_ContentHash : string;
  rn_CanonicalJSON : string
}.

(** ** JSON *)

(** A [time.Time] is a struct, so [omitempty] does not omit it. *)
Definition index_json (i : SnapshotIndex) : json :=
  JObj (fstr "channel" (si_Channel i) ++ fstr "manifest_id" (si_ManifestID i) ++ fbool "approximate" (si_Approximate i)).

Definition config_json (c : ServingConfig) : json :=
  JObj (fstr "schema_version" (sc_SchemaVersion c) ++ fstr "tenant_id" (sc_TenantID c) ++ fstr "policy_manifest_id" (sc_PolicyManifestID c) ++
        fstr "ranker_manifest_id" (sc_RankerManifestID c) ++ farr "indexes" (List.map index_json (sc_Indexes c))).

Definition snapshot_json (s : ServingSnapshot) : json :=
  JObj (fnum "projection_epoch" (ss_ProjectionEpoch s) ++ ftime "projection_created_at" (ss_ProjectionCreatedAt s) ++
        ftime "vector_index_created_at" (ss_VectorIndexCreatedAt s) ++ fstr "document_set_hash" (ss_DocumentSetHash s) ++
        fstr "serving_config_id" (ss_ServingConfigID s) ++ fstr "policy_manifest_id" (ss_PolicyManifestID s) ++
        fstr "ranker_manifest_id" (ss_RankerManifestID s) ++ farr "indexes" (List.map index_json (ss_Indexes s))).

Definition execution_json (e : ChannelExecution) : json :=
  JObj (fstr "channel" (ex_Channel e) ++ fstr "index_manifest_id" (ex_IndexManifestID e) ++ fnum "hit_count" (ex_HitCount e) ++
        fbool "approximate" (ex_Approximate e) ++ fbool "complete" (ex_Complete e) ++ fstr_omit "degradation_code" (ex_DegradationCode e) ++
        fnum "latency_micros" (ex_LatencyMicros e)).

Definition hit_json (h : PersistedHit) : json :=
  JObj (fstr "channel" (ph_Channel h) ++ fstr "version_id" (ph_VersionID h) ++ fnum "rank" (ph_Rank h) ++
        fnum "raw_score_quantized" (ph_RawScoreQuantized h) ++ fstr "index_manifest_id" (ph_IndexManifestID h) ++
        fbool "approximate" (ph_Approximate h)).

Definition gate_json (g : PersistedGate) : json :=
  JObj (fstr "version_id" (pg_VersionID g) ++ fbool "eligible" (pg_Eligible g) ++ fbool "advisory_only" (pg_AdvisoryOnly g) ++
        fstrs_omit "rejection_codes" (pg_RejectionCodes g) ++ fstr "canonical_facts" (pg_CanonicalFacts g)).

Definition feature_json (f : PersistedFeature) : json := JObj (fstr "name" (pf_Name f) ++ fnum "value" (pf_Value f)).

Definition rank_json (r : PersistedRank) : json :=
  JObj (fstr "version_id" (pk_VersionID r) ++ fnum "rrf_score" (pk_RRFScore r) ++ fnum "final_score" (pk_FinalScore r) ++
        fnum "rank" (pk_Rank r) ++ fnum "verification_strength" (pk_VerificationStrength r) ++
        fbool "observed_end_to_end" (pk_ObservedEndToEnd r) ++ farr_omit "features" (List.map feature_json (pk_Features r)) ++
        fstrs_omit "missing_features" (pk_MissingFeatures r)).

Definition judgment_json (j : PersistedSemanticJudgment) : json :=
  JObj (fstr "version_id" (sj_VersionID j) ++ fstr "judgment_key" (sj_JudgmentKey j) ++ fstr "disposition" (sj_Disposition j) ++
        fstr_omit "content_hash" (sj_ContentHash j) ++ fstr "provider" (sj_Provider j) ++ fstr "model" (sj_Model j) ++
        fstr "rubric_manifest_id" (sj_RubricManifestID j) ++ farr_omit "features" (List.map feature_json (sj_Features j))).

(** The fields of a run after its snapshot; the older layouts have no judgments. *)
Definition run_tail (executions : list ChannelExecution) (hits : list PersistedHit) (gates : list PersistedGate) (ranked : list PersistedRank)
    (judgments : list PersistedSemanticJudgment) (candidates indexes : list string) (disposition code : string) (selected : list string)
    (createdAt completedAt expiresAt : gotime) : list (string * json) :=
  farr_omit "channel_executions" (List.map execution_json executions) ++ farr_omit "hits" (List.map hit_json hits) ++
  farr_omit "gates" (List.map gate_json gates) ++ farr_omit "ranked" (List.map rank_json ranked) ++
  farr_omit "semantic_judgments" (List.map judgment_json judgments) ++ fstrs_omit "candidate_version_ids" candidates ++
  fstrs "index_manifest_ids" indexes ++ fstr "disposition" disposition ++ fstr_omit "decision_code" code ++
  fstrs_omit "selected_version_ids" selected ++ ftime "created_at" createdAt ++ ftime "completed_at" completedAt ++ ftime "expires_at" expiresAt.

Definition run_json (r : Run) : json :=
  JObj (fstr "schema_version" (rn_SchemaVersion r) ++ fstr "id" (rn_ID r) ++ fstr "tenant_id" (rn_TenantID r) ++
        fstr "query_hash" (rn_QueryHash r) ++ fstr "request_context_hash" (rn_RequestContextHash r) ++
        fstr "query_envelope" (rn_QueryEnvelope r) ++ fld "snapshot" (snapshot_json (rn_Snapshot r)) ++
        run_tail (rn_ChannelExecutions r) (rn_Hits r) (rn_Gates r) (rn_Ranked r) (rn_SemanticJudgments r) (rn_CandidateVersionIDs r)
          (rn_IndexManifestIDs r) (rn_Disposition r) (rn_DecisionCode r) (rn_SelectedVersionIDs r) (rn_CreatedAt r) (rn_CompletedAt r) (rn_ExpiresAt r)).

(** ** Snapshots and serving configurations *)
Definition sort_indexes : list SnapshotIndex -> list SnapshotIndex := sort_slice (cmp_ltb (cmp_on si_Channel String.compare)).

Definition with_indexes (s : ServingSnapshot) (indexes : list SnapshotIndex) : ServingSnapshot :=
  mk_ServingSnapshot (ss_ProjectionEpoch s) (ss_ProjectionCreatedAt s) (ss_VectorIndexCreatedAt s) (ss_DocumentSetHash s) (ss_ServingConfigID s)
    (ss_PolicyManifestID s) (ss_RankerManifestID s) indexes.

(** The loop over the sorted indexes; [prev] is the channel before. *)
Fixpoint indexes_ok (prev : option string) (indexes : list SnapshotIndex) : bool :=
  match indexes with
  | [] => true
  | i :: indexes =>
      validChannel (si_Channel i) && negb (blank (si_ManifestID i)) && Bool.eqb (si_Approximate i) (String.eqb (si_Channel i) ChannelVector) &&
      negb (match prev with Some p => String.eqb p (si_Channel i) | None => false end) && indexes_ok (Some (si_Channel i)) indexes
  end.

(** [validateSnapshot] sorts the indexes in place: the result is the snapshot after the call. *)
Definition validateSnapshot (s : ServingSnapshot) : result ServingSnapshot :=
  reject (ss_ProjectionEpoch s =? 0) || negb (sha256Pattern (ss_DocumentSetHash s)) || blank (ss_ServingConfigID s) || blank (ss_PolicyManifestID s) ||
         blank (ss_RankerManifestID s) || (count (ss_Indexes s) =? 0) || (5 <? count (ss_Indexes s)) with ErrInvalidRun;
  let s := with_indexes s (sort_indexes (ss_Indexes s)) in
  reject negb (indexes_ok None (ss_Indexes s)) with ErrInvalidRun;
  Ok s.

Section config.
Context `{NFC} `{JCS} `{Digest}.

Definition BuildServingConfig (tenantID policyManifestID rankerManifestID : string) (indexes : list SnapshotIndex) : result ServingConfig :=
  let policy := TrimSpace policyManifestID in
  let ranker := TrimSpace rankerManifestID in
  let snapshot := mk_ServingSnapshot 1 zero_time zero_time (digits 64 0) "pending" policy ranker indexes in
  reject String.eqb tenantID "" with ErrInvalidRun;
  match validateSnapshot snapshot with
  | Err _ => Err ErrInvalidRun
  | Ok snapshot =>
      let config := mk_ServingConfig "retrieval-serving-config.v1" tenantID policy ranker (ss_Indexes snapshot) "" "" "" in
      let* (canonicalJSON, hash) := MarshalAndHash (config_json config) in
      Ok (mk_ServingConfig "retrieval-serving-config.v1" tenantID policy ranker (ss_Indexes snapshot) ("rsc_" ++ hash) hash canonicalJSON)
  end.

Definition ValidateServingConfig (config : ServingConfig) : result unit :=
  match BuildServingConfig (sc_TenantID config) (sc_PolicyManifestID config) (sc_RankerManifestID config) (sc_Indexes config) with
  | Err _ => Err ErrInvalidRun
  | Ok rebuilt =>
      reject negb (String.eqb (sc_SchemaVersion config) (sc_SchemaVersion rebuilt)) || negb (String.eqb (sc_ID config) (sc_ID rebuilt)) ||
             negb (String.eqb (sc_ContentHash config) (sc_ContentHash rebuilt)) ||
             negb (String.eqb (sc_CanonicalJSON config) (sc_CanonicalJSON rebuilt)) with ErrInvalidRun;
      Ok tt
  end.
End config.

(** ** The checks of a run *)

(** [index > 0 && values[index-1] >= value] *)
Definition not_after (prev : option string) (value : string) : bool := match prev with Some p => negb (str_ltb p value) | None => false end.

Fixpoint strict_strings_from (prev : option string) (values : list string) : bool :=
  match values with
  | [] => true
  | value :: values => negb (blank value) && (str_len value <=? 256) && negb (not_after prev value) && strict_strings_from (Some value) values
  end.
Definition strictStrings : list string -> bool := strict_strings_from None.

Fixpoint strict_features_from (prev : option string) (values : list PersistedFeature) : bool :=
  match values with
  | [] => true
  | value :: values =>
      negb (blank (pf_Name value)) && (str_len (pf_Name value) <=? 128) && negb (not_after prev (pf_Name value)) &&
      strict_features_from (Some (pf_Name value)) values
  end.
Definition strictFeatures : list PersistedFeature -> bool := strict_features_from None.

Definition index_map (indexes : list SnapshotIndex) : gmap string SnapshotIndex := foldl (fun m i => <[si_Channel i := i]> m) ∅ indexes.

Definition execution_ok (indexByChannel : gmap string SnapshotIndex) (prev : option string) (e : ChannelExecution) : bool :=
  validChannel (ex_Channel e) && negb (blank (ex_IndexManifestID e)) && (str_len (ex_IndexManifestID e) <=? 256) && (0 <=? ex_LatencyMicros e) &&
  String.eqb (ex_DegradationCode e) (TrimSpace (ex_DegradationCode e)) && (str_len (ex_DegradationCode e) <=? 128) && negb (not_after prev (ex_Channel e)) &&
  match indexByChannel !! ex_Channel e with
  | None => false
  | Some i => String.eqb (si_ManifestID i) (ex_IndexManifestID e) && Bool.eqb (si_Approximate i) (ex_Approximate e) &&
              negb (Bool.eqb (ex_Complete e) (negb (String.eqb (ex_DegradationCode e) "")))
  end.

(** The map [executions], if every execution passes. *)
Fixpoint executions_loop (indexByChannel : gmap string SnapshotIndex) (prev : option string) (executions : gmap string ChannelExecution)
    (items : list ChannelExecution) : option (gmap string ChannelExecution) :=
  match items with
  | [] => Some executions
  | e :: items =>
      if execution_ok indexByChannel prev e
      then executions_loop indexByChannel (Some (ex_Channel e)) (<[ex_Channel e := e]> executions) items
      else None
  end.

(** [hitCounts], [lastRank] and [candidates] *)
Record HitState := mk_HitState { hs_counts : gmap string Z; hs_last : gmap string Z; hs_candidates : gset string }.

Definition hit_ok (executions : gmap string ChannelExecution) (s : HitState) (h : PersistedHit) : bool :=
  match executions !! ph_Channel h with
  | None => false
  | Some e => ex_Complete e && negb (String.eqb (ph_VersionID h) "") &&
              (ph_Rank h =? wrap_u32 (default 0 (hs_last s !! ph_Channel h) + 1)) &&
              String.eqb (ph_IndexManifestID h) (ex_IndexManifestID e) && Bool.eqb (ph_Approximate h) (ex_Approximate e)
  end.

Definition hit_step (s : HitState) (h : PersistedHit) : HitState :=
  mk_HitState (<[ph_Channel h := wrap_u32 (default 0 (hs_counts s !! ph_Channel h) + 1)]> (hs_counts s)) (<[ph_Channel h := ph_Rank h]> (hs_last s))
    ({[ ph_VersionID h ]} ∪ hs_candidates s).

Fixpoint hits_loop (executions : gmap string ChannelExecution) (s : HitState) (hits : list PersistedHit) : option HitState :=
  match hits with
  | [] => Some s
  | h :: hits => if hit_ok executions s h then hits_loop executions (hit_step s h) hits else None
  end.

Definition counts_ok (executions : gmap string ChannelExecution) (counts : gmap string Z) : bool :=
  forallb (fun p => ex_HitCount (snd p) =? default 0 (counts !! fst p)) (map_to_list executions).

Section run.
Context `{RawCanonical}.

Definition canonicalJSONString (value : string) : bool := match raw_canonical value with Some c => String.eqb c value | None => false end.

Definition gate_ok (prev : option string) (g : PersistedGate) : bool :=
  negb (String.eqb (pg_VersionID g) "") && negb (not_after prev (pg_VersionID g)) && negb (pg_AdvisoryOnly g && negb (pg_Eligible g)) &&
  negb (Bool.eqb (pg_Eligible g) (0 <? count (pg_RejectionCodes g))) && strictStrings (pg_RejectionCodes g) && canonicalJSONString (pg_CanonicalFacts g).

(** The map [gates]; [all] is [run.Disposition != RunFailed]. *)
Fixpoint gates_loop (all : bool) (candidates : gset string) (prev : option string) (gates : gmap string PersistedGate) (items : list PersistedGate)
    : option (gmap string PersistedGate) :=
  match items with
  | [] => Some gates
  | g :: items =>
      if gate_ok prev g && (negb all || bool_decide (pg_VersionID g ∈ candidates))
      then gates_loop all candidates (Some (pg_VersionID g)) (<[pg_VersionID g := g]> gates) items
      else None
  end.

Definition gated (candidates : gset string) (gates : gmap string PersistedGate) : bool :=
  forallb (fun v => bool_decide (is_Some (gates !! v))) (elements candidates).

Definition rank_ok (candidates : gset string) (gates : gmap string PersistedGate) (ranked : gmap string PersistedRank) (index : Z) (r : PersistedRank) : bool :=
  negb (String.eqb (pk_VersionID r) "") && (pk_Rank r =? wrap_u32 (index + 1)) && (0 <=? pk_VerificationStrength r) && strictFeatures (pk_Features r) &&
  strictStrings (pk_MissingFeatures r) &&
  match gates !! pk_VersionID r with Some g => pg_Eligible g | None => false end &&
  bool_decide (pk_VersionID r ∈ candidates) && match ranked !! pk_VersionID r with Some _ => false | None => true end.

Fixpoint ranks_loop (candidates : gset string) (gates : gmap string PersistedGate) (index : Z) (ranked : gmap string PersistedRank)
    (items : list PersistedRank) : option (gmap string PersistedRank) :=
  match items with
  | [] => Some ranked
  | r :: items =>
      if rank_ok candidates gates ranked index r then ranks_loop candidates gates (index + 1) (<[pk_VersionID r := r]> ranked) items else None
  end.

Fixpoint judgments_ok (ranked : gmap string PersistedRank) (prev : option string) (items : list PersistedSemanticJudgment) : bool :=
  match items with
  | [] => true
  | j :: items =>
      negb (String.eqb (sj_VersionID j) "") && negb (not_after prev (sj_VersionID j)) && HasPrefix (sj_JudgmentKey j) "jevj_" &&
      (str_len (sj_JudgmentKey j) =? 69) && negb (blank (sj_Disposition j)) && (str_len (sj_Disposition j) <=? 128) &&
      String.eqb (sj_Provider j) "typesafe" && negb (blank (sj_Model j)) && negb (blank (sj_RubricManifestID j)) && strictFeatures (sj_Features j) &&
      bool_decide (is_Some (ranked !! sj_VersionID j)) &&
      (if String.eqb (sj_ContentHash j) "" then count (sj_Features j) =? 0 else sha256Pattern (sj_ContentHash j)) &&
      judgments_ok ranked (Some (sj_VersionID j)) items
  end.

Fixpoint selected_ok (ranked : gmap string PersistedRank) (previousSelectedRank : Z) (ids : list string) : bool :=
  match ids with
  | [] => true
  | id :: ids => match ranked !! id with None => false | Some r => (previousSelectedRank <? pk_Rank r) && selected_ok ranked (pk_Rank r) ids end
  end.

Definition run_head_ok (r : Run) : bool :=
  String.eqb (rn_SchemaVersion r) runSchemaVersion && runIDPattern (rn_ID r) && negb (String.eqb (rn_TenantID r) "") && sha256Pattern (rn_QueryHash r) &&
  sha256Pattern (rn_RequestContextHash r) && HasPrefix (rn_QueryEnvelope r) "enc.v1." && (str_len (rn_QueryEnvelope r) <=? 1048576) &&
  is_ok (validateSnapshot (rn_Snapshot r)) && negb (IsZero (rn_CreatedAt r)) && negb (Before (rn_CompletedAt r) (rn_CreatedAt r)) &&
  After (rn_ExpiresAt r) (rn_CompletedAt r) && negb (After (rn_ExpiresAt r) (time_Add (rn_CompletedAt r) (30 * 24 * Hour))) &&
  (count (rn_ChannelExecutions r) <=? 5) && (count (rn_Hits r) <=? 5000) && (count (rn_Gates r) <=? 1000) && (count (rn_Ranked r) <=? 1000) &&
  (count (rn_SemanticJudgments r) <=? 32).

Definition disposition_ok (r : Run) : bool :=
  (String.eqb (rn_Disposition r) RunSelected || String.eqb (rn_Disposition r) RunAbstained || String.eqb (rn_Disposition r) RunFailed) &&
  String.eqb (rn_DecisionCode r) (TrimSpace (rn_DecisionCode r)) && (str_len (rn_DecisionCode r) <=? 128) &&
  (if String.eqb (rn_Disposition r) RunSelected
   then String.eqb (rn_DecisionCode r) "" && negb (count (rn_SelectedVersionIDs r) =? 0)
   else negb (String.eqb (rn_DecisionCode r) "") && (count (rn_SelectedVersionIDs r) =? 0)).

(** The derived lists of a run and its sorted snapshot. *)
Definition with_derived (r : Run) (snapshot : ServingSnapshot) (candidates indexes : list string) : Run :=
  mk_Run (rn_SchemaVersion r) (rn_ID r) (rn_TenantID r) (rn_QueryHash r) (rn_RequestContextHash r) (rn_QueryEnvelope r) snapshot (rn_ChannelExecutions r)
    (rn_Hits r) (rn_Gates r) (rn_Ranked r) (rn_SemanticJudgments r) candidates indexes (rn_Disposition r) (rn_DecisionCode r) (rn_SelectedVersionIDs r)
    (rn_CreatedAt r) (rn_CompletedAt r) (rn_ExpiresAt r) (rn_ContentHash r) (rn_CanonicalJSON r).

(** [validateCanonicalRun] writes through its pointer: the result is the run after the call. *)
Definition validateCanonicalRun (r : Run) : result Run :=
  reject negb (run_head_ok r) with ErrInvalidRun;
  reject negb (disposition_ok r) with ErrInvalidRun;
  let* snapshot := validateSnapshot (rn_Snapshot r) in
  let all := negb (String.eqb (rn_Disposition r) RunFailed) in
  let indexByChannel := index_map (ss_Indexes snapshot) in
  match executions_loop indexByChannel None ∅ (rn_ChannelExecutions r) with
  | None => Err ErrInvalidRun
  | Some executions =>
      reject all && negb (Z.of_nat (size executions) =? Z.of_nat (size indexByChannel)) with ErrInvalidRun;
      match hits_loop executions (mk_HitState ∅ ∅ ∅) (rn_Hits r) with
      | None => Err ErrInvalidRun
      | Some s =>
          reject negb (counts_ok executions (hs_counts s)) with ErrInvalidRun;
          match gates_loop all (hs_candidates s) None ∅ (rn_Gates r) with
          | None => Err ErrInvalidRun
          | Some gates =>
              reject all && negb (gated (hs_candidates s) gates) with ErrInvalidRun;
              match ranks_loop (hs_candidates s) gates 0 ∅ (rn_Ranked r) with
              | None => Err ErrInvalidRun
              | Some ranked =>
                  reject negb (judgments_ok ranked None (rn_SemanticJudgments r)) with ErrInvalidRun;
                  reject negb (selected_ok ranked 0 (rn_SelectedVersionIDs r)) with ErrInvalidRun;
                  Ok (with_derived r snapshot (sort_strings (elements (hs_candidates s))) (sort_strings (List.map si_ManifestID (ss_Indexes snapshot))))
              end
          end
      end
  end.

(** ** Canonical order *)
Definition sort_executions : list ChannelExecution -> list ChannelExecution := sort_slice (cmp_ltb (cmp_on ex_Channel String.compare)).

Definition cmp_hit : PersistedHit -> PersistedHit -> comparison := cmp_lex (cmp_on ph_Channel String.compare) (cmp_on ph_Rank Z.compare).
Definition sort_persisted_hits : list PersistedHit -> list PersistedHit := sort_slice (cmp_ltb cmp_hit).

Definition sort_features : list PersistedFeature -> list PersistedFeature := sort_slice (cmp_ltb (cmp_on pf_Name String.compare)).

Definition sort_codes (g : PersistedGate) : PersistedGate :=
  mk_PersistedGate (pg_VersionID g) (pg_Eligible g) (pg_AdvisoryOnly g) (sort_strings (pg_RejectionCodes g)) (pg_CanonicalFacts g).
Definition sort_gates (gates : list PersistedGate) : list PersistedGate :=
  sort_slice (cmp_ltb (cmp_on pg_VersionID String.compare)) (List.map sort_codes gates).

Definition sort_rank_parts (r : PersistedRank) : PersistedRank :=
  mk_PersistedRank (pk_VersionID r) (pk_RRFScore r) (pk_FinalScore r) (pk_Rank r) (pk_VerificationStrength r) (pk_ObservedEndToEnd r)
    (sort_features (pk_Features r)) (sort_strings (pk_MissingFeatures r)).
Definition sort_ranks (ranked : list PersistedRank) : list PersistedRank :=
  sort_slice (cmp_ltb (cmp_on pk_Rank Z.compare)) (List.map sort_rank_parts ranked).

Definition sort_judgment_parts (j : PersistedSemanticJudgment) : PersistedSemanticJudgment :=
  mk_PersistedSemanticJudgment (sj_VersionID j) (sj_JudgmentKey j) (sj_Disposition j) (sj_ContentHash j) (sj_Provider j) (sj_Model j)
    (sj_RubricManifestID j) (sort_features (sj_Features j)).
Definition sort_judgments (judgments : list PersistedSemanticJudgment) : list PersistedSemanticJudgment :=
  sort_slice (cmp_ltb (cmp_on sj_VersionID String.compare)) (List.map sort_judgment_parts judgments).

Definition sort_run (r : Run) (snapshot : ServingSnapshot) : Run :=
  mk_Run (rn_SchemaVersion r) (rn_ID r) (rn_TenantID r) (rn_QueryHash r) (rn_RequestContextHash r) (rn_QueryEnvelope r) snapshot
    (sort_executions (rn_ChannelExecutions r)) (sort_persisted_hits (rn_Hits r)) (sort_gates (rn_Gates r)) (sort_ranks (rn_Ranked r))
    (sort_judgments (rn_SemanticJudgments r)) (rn_CandidateVersionIDs r) (rn_IndexManifestIDs r) (rn_Disposition r) (rn_DecisionCode r)
    (rn_SelectedVersionIDs r) (rn_CreatedAt r) (rn_CompletedAt r) (rn_ExpiresAt r) (rn_ContentHash r) (rn_CanonicalJSON r).

Definition canonicalizeRun (r : Run) : result Run :=
  let* snapshot := validateSnapshot (rn_Snapshot r) in
  validateCanonicalRun (sort_run r snapshot).

Definition sealed_run (r : Run) (hash canonicalJSON : string) : Run :=
  mk_Run (rn_SchemaVersion r) (rn_ID r) (rn_TenantID r) (rn_QueryHash r) (rn_RequestContextHash r) (rn_QueryEnvelope r) (rn_Snapshot r)
    (rn_ChannelExecutions r) (rn_Hits r) (rn_Gates r) (rn_Ranked r) (rn_SemanticJudgments r) (rn_CandidateVersionIDs r) (rn_IndexManifestIDs r)
    (rn_Disposition r) (rn_DecisionCode r) (rn_SelectedVersionIDs r) (rn_CreatedAt r) (rn_CompletedAt r) (rn_ExpiresAt r) hash canonicalJSON.

(** A copy of the struct shares its slices with the original, so the sorting of
    the copy is seen in the original, and [run.CandidateVersionIDs[:0]] with
    [append] writes over the elements of the original (a list that outgrows the
    original is never accepted: the bytes it was read from hold the original). *)
Definition overwritten (old new : list string) : list string := take (length old) (new ++ drop (length new) old).

Definition sharing (run copy : Run) : Run :=
  mk_Run (rn_SchemaVersion run) (rn_ID run) (rn_TenantID run) (rn_QueryHash run) (rn_RequestContextHash run) (rn_QueryEnvelope run)
    (with_indexes (rn_Snapshot run) (ss_Indexes (rn_Snapshot copy))) (rn_ChannelExecutions copy) (rn_Hits copy) (rn_Gates copy) (rn_Ranked copy)
    (rn_SemanticJudgments copy) (overwritten (rn_CandidateVersionIDs run) (rn_CandidateVersionIDs copy)) (rn_IndexManifestIDs run) (rn_Disposition run)
    (rn_DecisionCode run) (rn_SelectedVersionIDs run) (rn_CreatedAt run) (rn_CompletedAt run) (rn_ExpiresAt run) (rn_ContentHash run) (rn_CanonicalJSON run).

Context `{NFC} `{JCS} `{Digest}.

Definition run_of_input (i : RunInput) : Run :=
  mk_Run runSchemaVersion (ni_ID i) (ni_TenantID i) (qu_Hash (ni_Query i)) (ni_RequestContextHash i) (ni_QueryEnvelope i) (ni_Snapshot i)
    (ni_ChannelExecutions i) (ni_Hits i) (ni_Gates i) (ni_Ranked i) (ni_SemanticJudgments i) [] [] (ni_Disposition i) (TrimSpace (ni_DecisionCode i))
    (ni_SelectedVersionIDs i) (UTC (ni_CreatedAt i)) (UTC (ni_CompletedAt i)) (UTC (ni_ExpiresAt i)) "" "".

Definition BuildRun (input : RunInput) : result Run :=
  reject negb (runIDPattern (ni_ID input)) || String.eqb (ni_TenantID input) "" || failed (ValidateQuery (ni_Query input)) ||
         negb (String.eqb (qu_TenantID (ni_Query input)) (ni_TenantID input)) || negb (HasPrefix (ni_QueryEnvelope input) "enc.v1.") with ErrInvalidRun;
  let* run := canonicalizeRun (run_of_input input) in
  let* (canonicalJSON, hash) := MarshalAndHash (run_json run) in
  Ok (sealed_run run hash canonicalJSON).

(** The checks of [ValidateRun], with [copyOfRun] after them. *)
Definition validated_copy (run : Run) : result Run :=
  reject negb (sha256Pattern (rn_QueryHash run)) || negb (sha256Pattern (rn_RequestContextHash run)) with ErrInvalidRun;
  let* copyOfRun := validateCanonicalRun (sealed_run run "" "") in
  match MarshalAndHash (run_json copyOfRun) with
  | Err _ => Err ErrInvalidRun
  | Ok (canonicalJSON, hash) =>
      reject negb (String.eqb hash (rn_ContentHash run)) || negb (String.eqb canonicalJSON (rn_CanonicalJSON run)) with ErrInvalidRun;
      Ok copyOfRun
  end.

Definition ValidateRun (run : Run) : result unit := let* _ := validated_copy run in Ok tt.
End run.

(** ** Decoding *)
Record legacyRunV2 := mk_legacyRunV2 {
  l2_SchemaVersion : string;
  l2_ID : string;
  l2_TenantID : string;
  l2_QueryHash : string;
  l2_RequestContextHash : string;
  l2_QueryEnvelope : string;
  l2_Snapshot : ServingSnapshot;
  l2_ChannelExecutions : list ChannelExecution;
  l2_Hits : list PersistedHit;
  l2_Gates : list PersistedGate;
  l2_Ranked : list PersistedRank;
  l2_CandidateVersionIDs : list string;
  l2_IndexManifestIDs : list string;
  l2_Disposition : string;
  l2_DecisionCode : string;
  l2_SelectedVersionIDs : list string;
  l2_CreatedAt : gotime;
  l2_CompletedAt : gotime;
  l2_ExpiresAt : gotime
}.

Record legacyServingSnapshotV1 := mk_legacyServingSnapshotV1 {
  s1_ProjectionEpoch : Z;
  s1_DocumentSetHash : string;
  s1_ServingConfigID : string;
  s1_PolicyManifestID : string;
  s1_RankerManifestID : string;
  s1_Indexes : list SnapshotIndex
}.

Record legacyRunV1 := mk_legacyRunV1 {
  l1_SchemaVersion : string;
  l1_ID : string;
  l1_TenantID : string;
  l1_QueryHash : string;
  l1_QueryEnvelope : string;
  l1_Snapshot : legacyServingSnapshotV1;
  l1_ChannelExecutions : list ChannelExecution;
  l1_Hits : list PersistedHit;
  l1_Gates : list PersistedGate;
  l1_Ranked : list PersistedRank;
  l1_CandidateVersionIDs : list string;
  l1_IndexManifestIDs : list string;
  l1_Disposition : string;
  l1_DecisionCode : string;
  l1_SelectedVersionIDs : list string;
  l1_CreatedAt : gotime;
  l1_CompletedAt : gotime;
  l1_ExpiresAt : gotime
}.

(** [json.Unmarshal] into the header and into the three layouts. *)
Class RunDecoder := {
  unmarshal_schema : string -> option string;
  unmarshal_v1 : string -> option legacyRunV1;
  unmarshal_v2 : string -> option legacyRunV2;
  unmarshal_run : string -> option Run
}.

Definition legacy_v2_json (l : legacyRunV2) : json :=
  JObj (fstr "schema_version" (l2_SchemaVersion l) ++ fstr "id" (l2_ID l) ++ fstr "tenant_id" (l2_TenantID l) ++ fstr "query_hash" (l2_QueryHash l) ++
        fstr "request_context_hash" (l2_RequestContextHash l) ++ fstr "query_envelope" (l2_QueryEnvelope l) ++
        fld "snapshot" (snapshot_json (l2_Snapshot l)) ++
        run_tail (l2_ChannelExecutions l) (l2_Hits l) (l2_Gates l) (l2_Ranked l) [] (l2_CandidateVersionIDs l) (l2_IndexManifestIDs l)
          (l2_Disposition l) (l2_DecisionCode l) (l2_SelectedVersionIDs l) (l2_CreatedAt l) (l2_CompletedAt l) (l2_ExpiresAt l)).

Definition snapshot_v1_json (s : legacyServingSnapshotV1) : json :=
  JObj (fnum "projection_epoch" (s1_ProjectionEpoch s) ++ fstr "document_set_hash" (s1_DocumentSetHash s) ++
        fstr "serving_config_id" (s1_ServingConfigID s) ++ fstr "policy_manifest_id" (s1_PolicyManifestID s) ++
        fstr "ranker_manifest_id" (s1_RankerManifestID s) ++ farr "indexes" (List.map index_json (s1_Indexes s))).

Definition legacy_v1_json (l : legacyRunV1) : json :=
  JObj (fstr "schema_version" (l1_SchemaVersion l) ++ fstr "id" (l1_ID l) ++ fstr "tenant_id" (l1_TenantID l) ++ fstr "query_hash" (l1_QueryHash l) ++
        fstr "query_envelope" (l1_QueryEnvelope l) ++ fld "snapshot" (snapshot_v1_json (l1_Snapshot l)) ++
        run_tail (l1_ChannelExecutions l) (l1_Hits l) (l1_Gates l) (l1_Ranked l) [] (l1_CandidateVersionIDs l) (l1_IndexManifestIDs l)
          (l1_Disposition l) (l1_DecisionCode l) (l1_SelectedVersionIDs l) (l1_CreatedAt l) (l1_CompletedAt l) (l1_ExpiresAt l)).

Definition runFromLegacyV2 (l : legacyRunV2) : Run :=
  mk_Run (l2_SchemaVersion l) (l2_ID l) (l2_TenantID l) (l2_QueryHash l) (l2_RequestContextHash l) (l2_QueryEnvelope l) (l2_Snapshot l)
    (l2_ChannelExecutions l) (l2_Hits l) (l2_Gates l) (l2_Ranked l) [] (l2_CandidateVersionIDs l) (l2_IndexManifestIDs l) (l2_Disposition l)
    (l2_DecisionCode l) (l2_SelectedVersionIDs l) (l2_CreatedAt l) (l2_CompletedAt l) (l2_ExpiresAt l) "" "".

Definition legacyFromRunV2 (r : Run) : legacyRunV2 :=
  mk_legacyRunV2 "retrieval-run.v2" (rn_ID r) (rn_TenantID r) (rn_QueryHash r) (rn_RequestContextHash r) (rn_QueryEnvelope r) (rn_Snapshot r)
    (rn_ChannelExecutions r) (rn_Hits r) (rn_Gates r) (rn_Ranked r) (rn_CandidateVersionIDs r) (rn_IndexManifestIDs r) (rn_Disposition r)
    (rn_DecisionCode r) (rn_SelectedVersionIDs r) (rn_CreatedAt r) (rn_CompletedAt r) (rn_ExpiresAt r).

Definition runFromLegacyV1 (l : legacyRunV1) : Run :=
  let s := l1_Snapshot l in
  mk_Run (l1_SchemaVersion l) (l1_ID l) (l1_TenantID l) (l1_QueryHash l) "" (l1_QueryEnvelope l)
    (mk_ServingSnapshot (s1_ProjectionEpoch s) zero_time zero_time (s1_DocumentSetHash s) (s1_ServingConfigID s) (s1_PolicyManifestID s)
       (s1_RankerManifestID s) (s1_Indexes s))
    (l1_ChannelExecutions l) (l1_Hits l) (l1_Gates l) (l1_Ranked l) [] (l1_CandidateVersionIDs l) (l1_IndexManifestIDs l) (l1_Disposition l)
    (l1_DecisionCode l) (l1_SelectedVersionIDs l) (l1_CreatedAt l) (l1_CompletedAt l) (l1_ExpiresAt l) "" "".

Definition legacyFromRunV1 (r : Run) : legacyRunV1 :=
  let s := rn_Snapshot r in
  mk_legacyRunV1 "retrieval-run.v1" (rn_ID r) (rn_TenantID r) (rn_QueryHash r) (rn_QueryEnvelope r)
    (mk_legacyServingSnapshotV1 (ss_ProjectionEpoch s) (ss_DocumentSetHash s) (ss_ServingConfigID s) (ss_PolicyManifestID s) (ss_RankerManifestID s)
       (ss_Indexes s))
    (rn_ChannelExecutions r) (rn_Hits r) (rn_Gates r) (rn_Ranked r) (rn_CandidateVersionIDs r) (rn_IndexManifestIDs r) (rn_Disposition r)
    (rn_DecisionCode r) (rn_SelectedVersionIDs r) (rn_CreatedAt r) (rn_CompletedAt r) (rn_ExpiresAt r).

(** [validated.SchemaVersion = runSchemaVersion], with the context hash that the first layout lacks. *)
Definition upgraded (r : Run) (contextHash : string) : Run :=
  mk_Run runSchemaVersion (rn_ID r) (rn_TenantID r) (rn_QueryHash r) contextHash (rn_QueryEnvelope r) (rn_Snapshot r)
    (rn_ChannelExecutions r) (rn_Hits r) (rn_Gates r) (rn_Ranked r) (rn_SemanticJudgments r) (rn_CandidateVersionIDs r) (rn_IndexManifestIDs r)
    (rn_Disposition r) (rn_DecisionCode r) (rn_SelectedVersionIDs r) (rn_CreatedAt r) (rn_CompletedAt r) (rn_ExpiresAt r) (rn_ContentHash r)
    (rn_CanonicalJSON r).

Section decode.
Context `{RawCanonical} `{NFC} `{JCS} `{Digest} `{RunDecoder}.

(** The end of both legacy decoders: the checked run is [validated], whose slices are those of [run]. *)
Definition sealed_legacy (run validated : Run) (normalized : json) (canonicalJSON contentHash : string) : result Run :=
  match MarshalAndHash normalized with
  | Err _ => Err ErrInvalidRun
  | Ok (canonicalLegacy, hash) =>
      reject negb (String.eqb hash contentHash) || negb (String.eqb canonicalLegacy canonicalJSON) with ErrInvalidRun;
      Ok (sealed_run (sharing run validated) contentHash canonicalJSON)
  end.

Definition decodeLegacyRunV2 (canonicalJSON contentHash : string) : result Run :=
  match unmarshal_v2 canonicalJSON with
  | None => Err ErrInvalidRun
  | Some legacy =>
      reject negb (String.eqb (l2_SchemaVersion legacy) "retrieval-run.v2") || negb (sha256Pattern contentHash) with ErrInvalidRun;
      let run := runFromLegacyV2 legacy in
      let* validated := canonicalizeRun (upgraded run (rn_RequestContextHash run)) in
      sealed_legacy run validated (legacy_v2_json (legacyFromRunV2 validated)) canonicalJSON contentHash
  end.

Definition decodeLegacyRunV1 (canonicalJSON contentHash : string) : result Run :=
  match unmarshal_v1 canonicalJSON with
  | None => Err ErrInvalidRun
  | Some legacy =>
      reject negb (String.eqb (l1_SchemaVersion legacy) "retrieval-run.v1") || negb (sha256Pattern contentHash) with ErrInvalidRun;
      let run := runFromLegacyV1 legacy in
      let* validated := canonicalizeRun (upgraded run (digits 64 0)) in
      sealed_legacy run validated (legacy_v1_json (legacyFromRunV1 validated)) canonicalJSON contentHash
  end.

Definition DecodeRun (canonicalJSON contentHash : string) : result Run :=
  match unmarshal_schema canonicalJSON with
  | None => Err ErrInvalidRun
  | Some version =>
      if String.eqb version "retrieval-run.v1" then decodeLegacyRunV1 canonicalJSON contentHash
      else if String.eqb version "retrieval-run.v2" then decodeLegacyRunV2 canonicalJSON contentHash
      else
        match unmarshal_run canonicalJSON with
        | None => Err ErrInvalidRun
        | Some run =>
            let run := sealed_run run contentHash canonicalJSON in
            let* copyOfRun := validated_copy run in
            Ok (sharing run copyOfRun)
        end
  end.
End decode.
