(* ===== verification/RetrievalRunSound.v ===== *)
(** * The theorems about retrieval runs (internal/retrieval/run.go)

    [ValidateRun_typed]: what a run that validates satisfies.
    [BuildRun_decodes]: a built run reads back from its bytes.
    [BuildRun_order]: the parts of a run may come in any order. *)

From Stdlib Require Import ZArith String Ascii List Bool Lia.
From stdpp Require Import base gmap strings list sorting.
From S2P Require Import Prelude GoStrings GoTime Canonical RetrievalQuery RetrievalChannels RetrievalRun.

Open Scope Z_scope.
Open Scope go_scope.

(** ** Increasing keys *)
Fixpoint ascending (prev : option string) (keys : list string) : bool :=
  match keys with [] => true | k :: keys => negb (not_after prev k) && ascending (Some k) keys end.

Lemma ascending_sorted prev keys :
  ascending prev keys = true -> StronglySorted str_lt keys /\ forall p, prev = Some p -> Forall (str_lt p) keys.
Proof.
  revert prev. induction keys as [|k keys IH]; intros prev; cbn [ascending]; [intros _; split; [constructor|constructor]|].
  intros [Hk Hr]%andb_true_iff. destruct (IH _ Hr) as [Hs Hf]. split; [constructor; [done|by apply Hf]|].
  intros p ->. cbn in Hk. rewrite negb_involutive in Hk. constructor; [done|]. eapply List.Forall_impl; [|by apply Hf]. intros z Hz. by transitivity k.
Qed.

Lemma ascending_NoDup prev keys : ascending prev keys = true -> NoDup keys.
Proof. intros Ha. by apply StronglySorted_str_lt_NoDup, (ascending_sorted prev). Qed.

Lemma NoDup_keys_inj {A K} (key : A -> K) (l : list A) x y : NoDup (List.map key l) -> x ∈ l -> y ∈ l -> key x = key y -> x = y.
Proof.
  induction l as [|a l IH]; cbn [List.map]; [intros _ Hx; inversion Hx|]. intros [Ha Hn]%NoDup_cons Hx Hy Hk.
  assert (Hmem : forall z, z ∈ l -> key z ∈ List.map key l) by (intros z Hz; by apply list_elem_of_In, in_map, list_elem_of_In).
  apply elem_of_cons in Hx as [->|Hx], Hy as [->|Hy]; [done| | |by apply IH].
  - destruct Ha. rewrite Hk. by apply Hmem.
  - destruct Ha. rewrite <- Hk. by apply Hmem.
Qed.

Definition keyed_map {A} (key : A -> string) (l : list A) : gmap string A := foldl (fun m x => <[key x := x]> m) ∅ l.

Lemma keyed_map_lookup {A} (key : A -> string) (l : list A) k x :
  NoDup (List.map key l) -> keyed_map key l !! k = Some x <-> x ∈ l /\ key x = k.
Proof.
  intros Hn. unfold keyed_map. rewrite (foldl_insert_lookup key (fun x => x)) by done. split.
  - destruct (find_key key k l) as [y|] eqn:Ef; [|done]. intros [= ->]. by apply find_key_some.
  - intros [Hx <-]. by rewrite find_key_unique.
Qed.

(** ** The loops *)
Lemma indexes_ok_spec prev indexes :
  indexes_ok prev indexes = true ->
  Forall (fun i => validChannel (si_Channel i) = true /\ blank (si_ManifestID i) = false /\ si_Approximate i = String.eqb (si_Channel i) ChannelVector) indexes /\
  adjacent_dup String.eqb (List.map si_Channel indexes) = false.
Proof.
  revert prev. induction indexes as [|i indexes IH]; intros prev Hok; [done|]. cbn [indexes_ok] in Hok.
  autorewrite with goboolsimpl in Hok. destruct Hok as [[[[Hv Hb] Ha] Hp] Hr]. destruct (IH _ Hr) as [Hf Hd]. split.
  - constructor; [|done]. split_and!; [done|done|by apply eqb_prop].
  - destruct indexes as [|j indexes]; [done|]. cbn [indexes_ok] in Hr. autorewrite with goboolsimpl in Hr. destruct Hr as [[_ Hne] _].
    cbn [List.map adjacent_dup]. apply orb_false_iff. split; [|exact Hd]. by apply String.eqb_neq.
Qed.

Lemma validateSnapshot_inv s s' :
  validateSnapshot s = Ok s' -> s' = with_indexes s (sort_indexes (ss_Indexes s)) /\ NoDup (List.map si_Channel (ss_Indexes s')) /\
  Forall (fun i => blank (si_ManifestID i) = false) (ss_Indexes s').
Proof.
  unfold validateSnapshot. intros Hv. inv_Ok Hv. injection Hv as <-. split; [done|]. apply negb_false_iff, indexes_ok_spec in E0 as [Hf Hd].
  cbn [with_indexes ss_Indexes] in *. split; [|by eapply List.Forall_impl; [|exact Hf]; intros i (_ & ? & _)].
  apply adjacent_dup_sorted; [|done]. apply StronglySorted_on, (sort_slice_sorted (cmp_on si_Channel String.compare)).
Qed.

Lemma with_indexes_twice s i j : with_indexes (with_indexes s i) j = with_indexes s j.
Proof. done. Qed.

Lemma with_indexes_same s : with_indexes s (ss_Indexes s) = s.
Proof. by destruct s. Qed.

Lemma sort_indexes_idem l : sort_indexes (sort_indexes l) = sort_indexes l.
Proof. apply (sort_slice_id (cmp_on si_Channel String.compare)), (sort_slice_sorted (cmp_on si_Channel String.compare)). Qed.

Lemma validateSnapshot_idem s s' : validateSnapshot s = Ok s' -> validateSnapshot s' = Ok s'.
Proof.
  unfold validateSnapshot. intros Hv. inv_Ok Hv. injection Hv as <-. cbn [with_indexes ss_Indexes] in *.
  rewrite sort_indexes_idem. assert (Hc : count (sort_indexes (ss_Indexes s)) = count (ss_Indexes s)).
  { unfold count. f_equal. apply Permutation_length, sort_slice_perm. }
  unfold with_indexes. cbn [ss_ProjectionEpoch ss_DocumentSetHash ss_ServingConfigID ss_PolicyManifestID ss_RankerManifestID ss_Indexes].
  rewrite Hc, E. by rewrite E0.
Qed.

Lemma executions_loop_spec idx prev m items m' :
  executions_loop idx prev m items = Some m' ->
  m' = foldl (fun m e => <[ex_Channel e := e]> m) m items /\ ascending prev (List.map ex_Channel items) = true /\
  Forall (fun e => exists i, idx !! ex_Channel e = Some i /\ si_ManifestID i = ex_IndexManifestID e /\ si_Approximate i = ex_Approximate e /\
                        ex_Complete e = String.eqb (ex_DegradationCode e) "") items.
Proof.
  revert prev m. induction items as [|e items IH]; intros prev m; cbn [executions_loop]; [by intros [= <-]|].
  destruct (execution_ok idx prev e) eqn:Ee; [|done]. intros Hl. destruct (IH _ _ Hl) as (Hm & Ha & Hf).
  unfold execution_ok in Ee. autorewrite with goboolsimpl in Ee. destruct Ee as [[_ Hp] Hi]. cbn [foldl List.map ascending]. split_and!; [done| |].
  - by rewrite Hp, Ha.
  - constructor; [|done]. destruct (idx !! ex_Channel e) as [i|]; [|done]. autorewrite with goboolsimpl in Hi. destruct Hi as [[Hi1 Hi2] Hi3].
    exists i. split_and!; [done|congruence|by apply eqb_prop|]. by destruct (ex_Complete e), (String.eqb (ex_DegradationCode e) "").
Qed.

(** The hits of a channel, in the order of the run. *)
Definition of_channel (c : string) (hits : list PersistedHit) : list PersistedHit := List.filter (fun h => String.eqb (ph_Channel h) c) hits.

Definition used_by (executions : gmap string ChannelExecution) (h : PersistedHit) : Prop :=
  exists e, executions !! ph_Channel h = Some e /\ ex_Complete e = true /\ ph_IndexManifestID h = ex_IndexManifestID e /\ ph_Approximate h = ex_Approximate e.

Definition hit_state_bounded (s : HitState) (n : Z) : Prop :=
  forall c, 0 <= default 0 (hs_last s !! c) /\ default 0 (hs_last s !! c) + n < 4294967296 /\
    0 <= default 0 (hs_counts s !! c) /\ default 0 (hs_counts s !! c) + n < 4294967296.

Lemma hit_ok_inv executions s h : hit_ok executions s h = true -> used_by executions h /\ ph_Rank h = wrap_u32 (default 0 (hs_last s !! ph_Channel h) + 1) /\ ph_VersionID h <> "".
Proof.
  unfold hit_ok. destruct (executions !! ph_Channel h) as [e|] eqn:Ee; [|done]. intros Hok. autorewrite with goboolsimpl in Hok.
  destruct Hok as [[[[Hc Hv] Hr] Hm] Ha]. split; [|done]. exists e. split_and!; [done..|]. by apply eqb_prop.
Qed.

Lemma hit_step_lookup s h c :
  default 0 (hs_last (hit_step s h) !! c) = (if String.eqb (ph_Channel h) c then ph_Rank h else default 0 (hs_last s !! c)) /\
  default 0 (hs_counts (hit_step s h) !! c) =
    (if String.eqb (ph_Channel h) c then wrap_u32 (default 0 (hs_counts s !! c) + 1) else default 0 (hs_counts s !! c)).
Proof.
  cbn [hit_step hs_last hs_counts]. destruct (String.eqb_spec (ph_Channel h) c) as [<-|Hne].
  - by rewrite !lookup_insert_eq.
  - by rewrite !lookup_insert_ne.
Qed.

Lemma hits_loop_spec executions s hits s' :
  hit_state_bounded s (count hits) -> hits_loop executions s hits = Some s' ->
  Forall (used_by executions) hits /\ hs_candidates s' = list_to_set (List.map ph_VersionID hits) ∪ hs_candidates s /\
  forall c, List.map ph_Rank (of_channel c hits) = seqZ (default 0 (hs_last s !! c) + 1) (count (of_channel c hits)) /\
            default 0 (hs_counts s' !! c) = default 0 (hs_counts s !! c) + count (of_channel c hits).
Proof.
  revert s. induction hits as [|h hits IH]; intros s Hb; cbn [hits_loop].
  { intros [= <-]. split; [constructor|]. split; [set_solver|]. intros c. split; [done|]. change (count (of_channel c [])) with 0. by rewrite Z.add_0_r. }
  destruct (hit_ok executions s h) eqn:Eh; [|done]. apply hit_ok_inv in Eh as (Hu & Hr & _). intros Hl.
  assert (Hcount : count (h :: hits) = count hits + 1) by (unfold count; cbn [length]; lia). rewrite Hcount in Hb.
  assert (Hn : 0 <= count hits) by (unfold count; lia).
  rewrite wrap_u32_id in Hr by (pose proof (Hb (ph_Channel h)); unfold in_u32, MaxUint32; lia).
  assert (Hw : forall c, wrap_u32 (default 0 (hs_counts s !! c) + 1) = default 0 (hs_counts s !! c) + 1)
    by (intros c; destruct (Hb c) as (_ & _ & ? & ?); apply wrap_u32_id; unfold in_u32, MaxUint32; lia).
  destruct (IH (hit_step s h)) as (Hf & Hc & Hch); [|done|].
  { intros c. destruct (hit_step_lookup s h c) as [-> ->]. specialize (Hb c). destruct (String.eqb_spec (ph_Channel h) c) as [<-|]; [rewrite Hw, Hr|]; lia. }
  split; [by constructor|]. split; [rewrite Hc; cbn [hit_step hs_candidates List.map list_to_set]; set_solver|]. intros c. destruct (Hch c) as [Hc1 Hc2].
  destruct (hit_step_lookup s h c) as [Hl1 Hl2]. rewrite Hl1 in Hc1. rewrite Hl2 in Hc2. unfold of_channel in *. cbn [List.filter].
  destruct (String.eqb_spec (ph_Channel h) c) as [Heq|]; [|done]. subst c. cbn [List.map]. rewrite Hw in Hc2. rewrite Hc1, Hc2. unfold count in *. cbn [length]. split; [|lia].
  rewrite (seqZ_cons _ (Z.of_nat (S _))) by lia. rewrite Hr. f_equal. f_equal; lia.
Qed.

Section runs.
Context `{RawCanonical}.

Definition gate_valid (g : PersistedGate) : Prop := (pg_AdvisoryOnly g = true -> pg_Eligible g = true) /\ (pg_Eligible g = true <-> pg_RejectionCodes g = []).

Lemma gates_loop_spec all candidates prev m items m' :
  gates_loop all candidates prev m items = Some m' ->
  m' = foldl (fun m g => <[pg_VersionID g := g]> m) m items /\ ascending prev (List.map pg_VersionID items) = true /\
  Forall (fun g => gate_valid g /\ (all = true -> pg_VersionID g ∈ candidates)) items.
Proof.
  revert prev m. induction items as [|g items IH]; intros prev m; cbn [gates_loop]; [by intros [= <-]|].
  destruct (gate_ok prev g && _) eqn:Eg; [|done]. intros Hl. destruct (IH _ _ Hl) as (Hm & Ha & Hf). apply andb_true_iff in Eg as [Eg Ec].
  unfold gate_ok in Eg. autorewrite with goboolsimpl in Eg. destruct Eg as [[[[[_ Hp] Had] He] _] _]. cbn [foldl List.map ascending].
  split; [done|]. split; [by rewrite Hp, Ha|]. constructor; [|done]. split; [split|].
  - intros Hadv. rewrite Hadv in Had. by destruct Had.
  - unfold count in He. destruct (pg_Eligible g), (pg_RejectionCodes g); cbn in He; (split; [try done|try done]).
  - intros ->. by apply bool_decide_eq_true in Ec.
Qed.

Lemma ranks_loop_spec candidates gates index m items m' :
  0 <= index -> index + count items < 4294967296 -> ranks_loop candidates gates index m items = Some m' ->
  m' = foldl (fun m r => <[pk_VersionID r := r]> m) m items /\ NoDup (List.map pk_VersionID items) /\
  (forall r, r ∈ items -> m !! pk_VersionID r = None) /\ List.map pk_Rank items = seqZ (index + 1) (count items) /\
  Forall (fun r => pk_VersionID r ∈ candidates /\ exists g, gates !! pk_VersionID r = Some g /\ pg_Eligible g = true) items.
Proof.
  revert index m. induction items as [|r items IH]; intros index m H0 Hb; cbn [ranks_loop].
  { intros [= <-]. split_and!; try done; [constructor|intros r Hr; inversion Hr]. }
  assert (Hcount : count (r :: items) = count items + 1) by (unfold count; cbn [length]; lia). rewrite Hcount in *. assert (Hn : 0 <= count items) by (unfold count; lia).
  destruct (rank_ok _ _ _ _ r) eqn:Er; [|done]. intros Hl. destruct (IH (index + 1) _ ltac:(lia) ltac:(lia) Hl) as (Hm & Hnd & Hfresh & Hr & Hf).
  unfold rank_ok in Er. autorewrite with goboolsimpl in Er. destruct Er as [[[[[[[_ Hk] _] _] _] Hg] Hc] Hd]. apply bool_decide_eq_true in Hc.
  rewrite wrap_u32_id in Hk by (unfold in_u32, MaxUint32; lia). cbn [foldl List.map]. split_and!; [done| | | |].
  - apply NoDup_cons. split; [|done]. intros (r' & Hv & Hin)%list_elem_of_In%in_map_iff. apply list_elem_of_In, Hfresh in Hin.
    by rewrite Hv, lookup_insert_eq in Hin.
  - intros r' [->|Hin]%elem_of_cons; [by destruct (m !! _)|]. apply Hfresh in Hin. by apply lookup_insert_None in Hin as [? _].
  - rewrite seqZ_cons by lia. rewrite Hr. f_equal; [lia|]. f_equal; lia.
  - constructor; [|done]. split; [done|]. destruct (gates !! pk_VersionID r) as [g|]; [|done]. by exists g.
Qed.

Lemma judgments_ok_spec ranked prev items :
  judgments_ok ranked prev items = true -> ascending prev (List.map sj_VersionID items) = true /\ Forall (fun j => is_Some (ranked !! sj_VersionID j)) items.
Proof.
  revert prev. induction items as [|j items IH]; intros prev Hok; [done|]. cbn [judgments_ok] in Hok. autorewrite with goboolsimpl in Hok.
  destruct Hok as [[[[[[[[[[[[_ Hp] _] _] _] _] _] _] _] _] Hr] _] Hrest]. apply bool_decide_eq_true in Hr. destruct (IH _ Hrest) as [Ha Hf].
  cbn [List.map ascending]. rewrite Hp, Ha. split; [done|by constructor].
Qed.

Lemma selected_ok_spec ranked p ids :
  selected_ok ranked p ids = true ->
  exists items, Forall2 (fun id r => ranked !! id = Some r) ids items /\ StronglySorted Z.lt (List.map pk_Rank items) /\ Forall (fun r => p < pk_Rank r) items.
Proof.
  revert p. induction ids as [|id ids IH]; intros p Hok; [exists []; split_and!; constructor|]. cbn [selected_ok] in Hok.
  destruct (ranked !! id) as [r|] eqn:Er; [|done]. autorewrite with goboolsimpl in Hok. destruct Hok as [Hp Hr]. destruct (IH _ Hr) as (items & Hf & Hs & Hlt).
  exists (r :: items). split_and!; [by constructor| |].
  - cbn [List.map]. constructor; [done|]. by apply Forall_map.
  - constructor; [done|]. eapply List.Forall_impl; [|exact Hlt]. intros x Hx. cbn in Hx. lia.
Qed.

(** ** A run that passes *)
Definition all_gated (r : Run) : bool := negb (String.eqb (rn_Disposition r) RunFailed).

(** The intermediate values of [validateCanonicalRun]. *)
Record checked (r : Run) (snapshot : ServingSnapshot) (executions : gmap string ChannelExecution) (s : HitState) (gates : gmap string PersistedGate)
    (ranked : gmap string PersistedRank) : Prop := mk_checked {
  ck_head : run_head_ok r = true;
  ck_disposition : disposition_ok r = true;
  ck_snapshot : validateSnapshot (rn_Snapshot r) = Ok snapshot;
  ck_executions : executions_loop (index_map (ss_Indexes snapshot)) None ∅ (rn_ChannelExecutions r) = Some executions;
  ck_size : all_gated r && negb (Z.of_nat (size executions) =? Z.of_nat (size (index_map (ss_Indexes snapshot)))) = false;
  ck_hits : hits_loop executions (mk_HitState ∅ ∅ ∅) (rn_Hits r) = Some s;
  ck_counts : counts_ok executions (hs_counts s) = true;
  ck_gates : gates_loop (all_gated r) (hs_candidates s) None ∅ (rn_Gates r) = Some gates;
  ck_gated : all_gated r && negb (gated (hs_candidates s) gates) = false;
  ck_ranked : ranks_loop (hs_candidates s) gates 0 ∅ (rn_Ranked r) = Some ranked;
  ck_judgments : judgments_ok ranked None (rn_SemanticJudgments r) = true;
  ck_selected : selected_ok ranked 0 (rn_SelectedVersionIDs r) = true
}.

Definition derived (r : Run) (snapshot : ServingSnapshot) (s : HitState) : Run :=
  with_derived r snapshot (sort_strings (elements (hs_candidates s))) (sort_strings (List.map si_ManifestID (ss_Indexes snapshot))).

Lemma validateCanonicalRun_checked r r' :
  validateCanonicalRun r = Ok r' <-> exists snapshot executions s gates ranked, checked r snapshot executions s gates ranked /\ r' = derived r snapshot s.
Proof.
  unfold validateCanonicalRun. split.
  - intros Hv. inv_Ok Hv. destruct (executions_loop _ _ _ _) as [executions|] eqn:X1; [|done]. inv_Ok Hv.
    destruct (hits_loop _ _ _) as [s|] eqn:X2; [|done]. inv_Ok Hv. destruct (gates_loop _ _ _ _ _) as [gates|] eqn:X3; [|done]. inv_Ok Hv.
    destruct (ranks_loop _ _ _ _ _) as [ranked|] eqn:X4; [|done]. inv_Ok Hv. injection Hv as <-. repeat match goal with Hn : negb _ = false |- _ => apply negb_false_iff in Hn end.
    eexists _, executions, s, gates, ranked. split; [by constructor|done].
  - intros (snapshot & executions & s & gates & ranked & [] & ->). fold (all_gated r). rewrite ck_head0, ck_disposition0, ck_snapshot0. cbn [negb bind].
    rewrite ck_executions0, ck_size0, ck_hits0, ck_counts0. cbn [negb]. rewrite ck_gates0, ck_gated0, ck_ranked0, ck_judgments0, ck_selected0. done.
Qed.

Lemma checked_derived r snapshot executions s gates ranked :
  checked r snapshot executions s gates ranked -> checked (derived r snapshot s) snapshot executions s gates ranked.
Proof.
  intros []. pose proof (validateSnapshot_idem _ _ ck_snapshot0) as Hs. constructor; try done. unfold run_head_ok in *. cbn [derived with_derived rn_SchemaVersion rn_ID rn_TenantID rn_QueryHash rn_RequestContextHash rn_QueryEnvelope rn_Snapshot
    rn_CreatedAt rn_CompletedAt rn_ExpiresAt rn_ChannelExecutions rn_Hits rn_Gates rn_Ranked rn_SemanticJudgments]. rewrite Hs. by rewrite ck_snapshot0 in ck_head0.
Qed.

Lemma validateCanonicalRun_idem r r' : validateCanonicalRun r = Ok r' -> validateCanonicalRun r' = Ok r'.
Proof.
  intros (snapshot & executions & s & gates & ranked & Hc & ->)%validateCanonicalRun_checked. apply validateCanonicalRun_checked.
  exists snapshot, executions, s, gates, ranked. split; [by apply checked_derived|done].
Qed.

(** What a run that validates satisfies. *)
Record run_typed (r : Run) : Prop := mk_run_typed {
  rt_selected : exists items, Forall2 (fun id k => k ∈ rn_Ranked r /\ pk_VersionID k = id) (rn_SelectedVersionIDs r) items /\ StronglySorted Z.lt (List.map pk_Rank items);
  rt_disposition : if String.eqb (rn_Disposition r) RunSelected then rn_SelectedVersionIDs r <> [] /\ rn_DecisionCode r = "" else
    rn_SelectedVersionIDs r = [] /\ rn_DecisionCode r <> "";
  rt_ranked : List.map pk_Rank (rn_Ranked r) = seqZ 1 (count (rn_Ranked r)) /\ NoDup (List.map pk_VersionID (rn_Ranked r));
  rt_eligible : forall k, k ∈ rn_Ranked r -> exists g h, g ∈ rn_Gates r /\ pg_VersionID g = pk_VersionID k /\ pg_Eligible g = true /\
    h ∈ rn_Hits r /\ ph_VersionID h = pk_VersionID k;
  rt_gates : NoDup (List.map pg_VersionID (rn_Gates r)) /\ Forall gate_valid (rn_Gates r);
  rt_gated : rn_Disposition r <> RunFailed -> forall v, v ∈ List.map pg_VersionID (rn_Gates r) <-> v ∈ List.map ph_VersionID (rn_Hits r);
  rt_hits : forall e, e ∈ rn_ChannelExecutions r ->
    ex_HitCount e = count (of_channel (ex_Channel e) (rn_Hits r)) /\ List.map ph_Rank (of_channel (ex_Channel e) (rn_Hits r)) = seqZ 1 (ex_HitCount e);
  rt_channels : forall h, h ∈ rn_Hits r -> exists e i, e ∈ rn_ChannelExecutions r /\ i ∈ ss_Indexes (rn_Snapshot r) /\ ex_Channel e = ph_Channel h /\
    si_Channel i = ph_Channel h /\ ex_Complete e = true /\ si_ManifestID i = ph_IndexManifestID h /\ ex_IndexManifestID e = ph_IndexManifestID h;
  rt_executions : rn_Disposition r <> RunFailed -> List.map ex_Channel (rn_ChannelExecutions r) ≡ₚ List.map si_Channel (ss_Indexes (rn_Snapshot r));
  rt_judged : forall j, j ∈ rn_SemanticJudgments r -> sj_VersionID j ∈ List.map pk_VersionID (rn_Ranked r);
  rt_times : t_ns (rn_CreatedAt r) <= t_ns (rn_CompletedAt r) < t_ns (rn_ExpiresAt r) /\ t_ns (rn_ExpiresAt r) <= t_ns (rn_CompletedAt r) + 30 * 24 * Hour
}.

Lemma keyed_map_size {A} (key : A -> string) (l : list A) : NoDup (List.map key l) -> size (keyed_map key l) = length l.
Proof.
  induction l as [|x l IH] using rev_ind; intros Hn; [apply map_size_empty|]. rewrite map_app in Hn. apply NoDup_app in Hn as (Hn & Hd & _).
  unfold keyed_map in *. rewrite foldl_app, length_app. cbn [foldl length]. rewrite map_size_insert_None, IH; [lia|done|].
  destruct (foldl _ _ l !! key x) as [y|] eqn:E; [|done]. apply (keyed_map_lookup key l) in E as [Hy Hk]; [|done]. exfalso. apply (Hd (key x)); [|set_solver].
  rewrite <- Hk. by apply list_elem_of_In, in_map, list_elem_of_In.
Qed.

Lemma elem_of_map {A B} (f : A -> B) (l : list A) y : y ∈ List.map f l <-> exists x, x ∈ l /\ f x = y.
Proof.
  rewrite list_elem_of_In, in_map_iff. split.
  - intros (x & Hf & Hx). exists x. by rewrite list_elem_of_In.
  - intros (x & Hx & Hf). exists x. by rewrite <- list_elem_of_In.
Qed.

Lemma NoDup_subset_length {A} (l k : list A) : NoDup l -> (forall x, x ∈ l -> x ∈ k) -> (length k <= length l)%nat -> l ≡ₚ k.
Proof. intros Hn Hs Hl. apply submseteq_length_Permutation; [by apply NoDup_submseteq|done]. Qed.

Section typed.
Context (r : Run) (snapshot : ServingSnapshot) (executions : gmap string ChannelExecution) (s : HitState).
Context (gates : gmap string PersistedGate) (ranked : gmap string PersistedRank).
Hypothesis Hck : checked r snapshot executions s gates ranked.

Lemma checked_head : count (rn_Hits r) <= 5000 /\ count (rn_Ranked r) <= 1000 /\
  (t_ns (rn_CreatedAt r) <= t_ns (rn_CompletedAt r) < t_ns (rn_ExpiresAt r) /\ t_ns (rn_ExpiresAt r) <= t_ns (rn_CompletedAt r) + 30 * 24 * Hour).
Proof using Hck.
  destruct Hck as [Hh _ _ _ _ _ _ _ _ _ _ _]. unfold run_head_ok, Before, After, time_Add in Hh. cbn [t_ns] in Hh. autorewrite with goboolsimpl in Hh.
  repeat match type of Hh with _ /\ _ => destruct Hh as [Hh ?] end. lia.
Qed.

Lemma checked_executions :
  executions = keyed_map ex_Channel (rn_ChannelExecutions r) /\ NoDup (List.map ex_Channel (rn_ChannelExecutions r)) /\
  forall e, e ∈ rn_ChannelExecutions r -> exists i, i ∈ ss_Indexes (rn_Snapshot r) /\ si_Channel i = ex_Channel e /\ si_ManifestID i = ex_IndexManifestID e.
Proof using Hck.
  destruct Hck as [_ _ Hs He _ _ _ _ _ _ _ _]. destruct (executions_loop_spec _ _ _ _ _ He) as (Hm & Ha & Hf). split; [done|]. split; [by eapply ascending_NoDup|].
  intros e Hin. rewrite Forall_forall in Hf. apply Hf in Hin as (i & Hi & Hman & _).
  apply validateSnapshot_inv in Hs as (-> & Hn & _). apply (keyed_map_lookup si_Channel) in Hi as [Hi Hc]; [|done]. cbn [with_indexes ss_Indexes] in Hi.
  unfold sort_indexes in Hi. rewrite sort_slice_elem in Hi. by exists i.
Qed.

Lemma checked_hits :
  Forall (used_by executions) (rn_Hits r) /\ hs_candidates s = list_to_set (List.map ph_VersionID (rn_Hits r)) /\
  forall c, List.map ph_Rank (of_channel c (rn_Hits r)) = seqZ 1 (count (of_channel c (rn_Hits r))) /\ default 0 (hs_counts s !! c) = count (of_channel c (rn_Hits r)).
Proof using Hck.
  destruct checked_head as [Hlen _]. destruct Hck as [_ _ _ _ _ Hh _ _ _ _ _ _]. apply hits_loop_spec in Hh as (Hf & Hc & Hch).
  - split; [done|]. split; [rewrite Hc; cbn [hs_candidates]; set_solver|]. intros c. exact (Hch c).
  - intros c. cbn [hs_last hs_counts]. rewrite !lookup_empty. cbn [default from_option]. lia.
Qed.

Lemma checked_gates :
  gates = keyed_map pg_VersionID (rn_Gates r) /\ NoDup (List.map pg_VersionID (rn_Gates r)) /\ Forall gate_valid (rn_Gates r) /\
  (rn_Disposition r <> RunFailed -> forall v, v ∈ List.map pg_VersionID (rn_Gates r) <-> v ∈ List.map ph_VersionID (rn_Hits r)).
Proof using Hck.
  destruct checked_hits as (_ & Hc & _). destruct Hck as [_ _ _ _ _ _ _ Hg Hgd _ _ _]. destruct (gates_loop_spec _ _ _ _ _ _ Hg) as (Hm & Ha & Hf).
  apply ascending_NoDup in Ha. split; [done|]. split; [done|]. split; [eapply List.Forall_impl; [|exact Hf]; by intros g [? _]|].
  intros Hd v. unfold all_gated in *. rewrite (proj2 (String.eqb_neq _ _) Hd) in *. cbn [negb andb] in *. apply negb_false_iff in Hgd. split.
  - intros (g & Hin & <-)%elem_of_map. rewrite Forall_forall in Hf. apply Hf in Hin as [_ Hin]. specialize (Hin eq_refl). rewrite Hc in Hin. set_solver.
  - intros Hv. unfold gated in Hgd. rewrite forallb_forall in Hgd. assert (Hv' : In v (elements (hs_candidates s))) by (apply list_elem_of_In, elem_of_elements; rewrite Hc; set_solver).
    apply Hgd, bool_decide_eq_true in Hv' as [g Hl]. subst gates. apply (keyed_map_lookup pg_VersionID) in Hl as [Hl <-]; [|done]. apply elem_of_map. by exists g.
Qed.

Lemma checked_ranked :
  ranked = keyed_map pk_VersionID (rn_Ranked r) /\ NoDup (List.map pk_VersionID (rn_Ranked r)) /\ List.map pk_Rank (rn_Ranked r) = seqZ 1 (count (rn_Ranked r)) /\
  forall k, k ∈ rn_Ranked r -> exists g h, g ∈ rn_Gates r /\ pg_VersionID g = pk_VersionID k /\ pg_Eligible g = true /\ h ∈ rn_Hits r /\ ph_VersionID h = pk_VersionID k.
Proof using Hck.
  destruct checked_head as (_ & Hlen & _). destruct checked_hits as (_ & Hc & _). destruct checked_gates as (Hg & Hgn & _).
  destruct Hck as [_ _ _ _ _ _ _ _ _ Hr _ _]. apply ranks_loop_spec in Hr as (Hm & Hn & _ & Hk & Hf); [|lia|lia].
  split; [done|]. split; [done|]. split; [done|]. intros k Hin. rewrite Forall_forall in Hf. apply Hf in Hin as [Hin (g & Hl & He)].
  rewrite Hc in Hin. apply elem_of_list_to_set, elem_of_map in Hin as (h & Hh & Hv). rewrite Hg in Hl. apply (keyed_map_lookup pg_VersionID) in Hl as [Hl Hgv]; [|done].
  by exists g, h.
Qed.

Lemma checked_typed : run_typed r.
Proof using Hck.
  destruct checked_head as (_ & _ & Ht). destruct checked_executions as (He & Hen & Hei). destruct checked_hits as (Hhf & Hc & Hh).
  destruct checked_gates as (Hg & Hgn & Hgf & Hgd). destruct checked_ranked as (Hr & Hrn & Hrk & Hre). destruct Hck as [_ Hdis Hsn _ Hsz _ Hcnt _ _ _ Hj Hs]. constructor; try done.
  - apply selected_ok_spec in Hs as (items & Hf & Hso & _). exists items. split; [|done]. eapply Forall2_impl; [exact Hf|].
    intros id k Hk. cbn in Hk. rewrite Hr in Hk. by apply (keyed_map_lookup pk_VersionID) in Hk.
  - unfold disposition_ok in Hdis. apply andb_true_iff in Hdis as [_ Hdis]. destruct (String.eqb (rn_Disposition r) RunSelected); autorewrite with goboolsimpl in Hdis;
      destruct Hdis as [Hd1 Hd2]; unfold count in Hd2; destruct (rn_SelectedVersionIDs r); cbn in Hd2; try lia; split; try done; by apply String.eqb_neq.
  - intros e Hin. destruct (Hh (ex_Channel e)) as [Hh1 Hh2]. unfold counts_ok in Hcnt. rewrite forallb_forall in Hcnt. assert (Hx : In (ex_Channel e, e) (map_to_list executions))
      by (apply list_elem_of_In, elem_of_map_to_list; rewrite He; by apply (keyed_map_lookup ex_Channel)).
    apply Hcnt, Z.eqb_eq in Hx. cbn [fst snd] in Hx. by rewrite Hx, Hh2.
  - intros h Hin. rewrite Forall_forall in Hhf. apply Hhf in Hin as (e & Hl & Hcm & Hman & _). rewrite He in Hl.
    apply (keyed_map_lookup ex_Channel) in Hl as [Hl Hec]; [|done]. destruct (Hei e Hl) as (i & Hi & Hic & Him). exists e, i. split_and!; try done; congruence.
  - intros Hd. unfold all_gated in Hsz. rewrite (proj2 (String.eqb_neq _ _) Hd) in Hsz. cbn [negb andb] in Hsz. apply negb_false_iff, Z.eqb_eq in Hsz.
    apply validateSnapshot_inv in Hsn as (-> & Hn & _). assert (Hix : forall l, index_map l = keyed_map si_Channel l) by done. rewrite Hix, He, keyed_map_size, (keyed_map_size si_Channel) in Hsz by done.
    cbn [with_indexes ss_Indexes] in Hsz. unfold sort_indexes in Hsz. rewrite (Permutation_length (sort_slice_perm _ (ss_Indexes (rn_Snapshot r)))) in Hsz.
    apply NoDup_subset_length; [done| |rewrite !length_map; lia]. intros c (e & Hin & <-)%elem_of_map. destruct (Hei e Hin) as (i & Hi & Hic & _).
    apply elem_of_map. by exists i.
  - intros j Hin. apply judgments_ok_spec in Hj as [_ Hf]. rewrite Forall_forall in Hf. apply Hf in Hin as [k Hk]. rewrite Hr in Hk.
    apply (keyed_map_lookup pk_VersionID) in Hk as [Hk Hv]; [|done]. apply elem_of_map. by exists k.
Qed.
End typed.

Context `{NFC} `{JCS} `{Digest}.

(** ** Validation *)
Lemma validated_copy_inv run copy :
  validated_copy run = Ok copy -> validateCanonicalRun (sealed_run run "" "") = Ok copy /\ MarshalAndHash (run_json copy) = Ok (rn_CanonicalJSON run, rn_ContentHash run).
Proof.
  unfold validated_copy. intros Hv. inv_Ok Hv. destruct (MarshalAndHash _) as [[canonicalJSON hash]|] eqn:Em; [|done]. inv_Ok Hv. injection Hv as <-.
  autorewrite with goboolsimpl in *. by destruct_and!; subst.
Qed.

(** C23: A run that validates is typed: the selected versions are ranked, in the
    order of their ranks; ranks count from one and are of versions that some
    complete channel returned and whose gate is open; a gate is open exactly
    when it rejects nothing; unless the run failed, every version returned is
    gated and every index of the snapshot was asked; the hits of a channel are
    numbered in order, as many as it reports; a run is kept at most thirty days. *)
Theorem ValidateRun_typed (run : Run) : ValidateRun run = Ok tt -> run_typed run.
Proof.
  unfold ValidateRun. intros Hv. inv_Ok Hv. apply validated_copy_inv in H3 as [Hc _].
  apply validateCanonicalRun_checked in Hc as (snapshot & executions & s & gates & ranked & Hc & _). apply checked_typed in Hc. destruct Hc. by constructor.
Qed.

Lemma canonicalizeRun_seal r r' : canonicalizeRun r = Ok r' -> rn_ContentHash r' = rn_ContentHash r /\ rn_CanonicalJSON r' = rn_CanonicalJSON r.
Proof.
  unfold canonicalizeRun. intros Hc. inv_Ok Hc. by apply validateCanonicalRun_checked in Hc as (? & ? & ? & ? & ? & _ & ->).
Qed.

Lemma sealed_run_id r : rn_ContentHash r = "" -> rn_CanonicalJSON r = "" -> sealed_run r "" "" = r.
Proof. by destruct r; cbn; intros -> ->. Qed.

Lemma BuildRun_inv input run :
  BuildRun input = Ok run -> exists r canonicalJSON hash, canonicalizeRun (run_of_input input) = Ok r /\ MarshalAndHash (run_json r) = Ok (canonicalJSON, hash) /\
    run = sealed_run r hash canonicalJSON /\ sealed_run run "" "" = r.
Proof.
  unfold BuildRun. intros Hb. inv_Ok Hb. injection Hb as <-. destruct (canonicalizeRun_seal _ _ H3) as [Hh Hj]. eexists _, _, _. split_and!; [done|done|done|].
  exact (sealed_run_id _ Hh Hj).
Qed.

Lemma BuildRun_copy input run : BuildRun input = Ok run -> validated_copy run = Ok (sealed_run run "" "").
Proof.
  intros (r & canonicalJSON & hash & Hc & Hm & Hrun & Hseal)%BuildRun_inv. unfold canonicalizeRun in Hc. inv_Ok Hc. pose proof (validateCanonicalRun_idem _ _ Hc) as Hi.
  unfold validated_copy. rewrite Hseal, Hi. cbn [bind]. rewrite Hm. rewrite Hrun. cbn [sealed_run rn_ContentHash rn_CanonicalJSON rn_QueryHash rn_RequestContextHash].
  rewrite !str_eqb_refl. apply validateCanonicalRun_checked in Hi as (? & ? & ? & ? & ? & [Hh _ _ _ _ _ _ _ _ _ _ _] & _).
  unfold run_head_ok in Hh. autorewrite with goboolsimpl in Hh. destruct_and!. by repeat match goal with Hp : sha256Pattern _ = true |- _ => rewrite Hp; clear Hp end.
Qed.

(** The parts of a built run. *)
Record built (input : RunInput) (run : Run) : Prop := mk_built {
  bt_head : rn_ID run = ni_ID input /\ rn_TenantID run = ni_TenantID input /\ rn_QueryHash run = qu_Hash (ni_Query input) /\
    rn_RequestContextHash run = ni_RequestContextHash input /\ rn_Disposition run = ni_Disposition input /\
    rn_DecisionCode run = TrimSpace (ni_DecisionCode input) /\ rn_SelectedVersionIDs run = ni_SelectedVersionIDs input;
  bt_snapshot : rn_Snapshot run = with_indexes (ni_Snapshot input) (sort_indexes (ss_Indexes (ni_Snapshot input)));
  bt_tenant : ni_TenantID input <> "";
  bt_executions : rn_ChannelExecutions run = sort_executions (ni_ChannelExecutions input);
  bt_gates : rn_Gates run = sort_gates (ni_Gates input);
  bt_ranked : rn_Ranked run = sort_ranks (ni_Ranked input);
  bt_judgments : rn_SemanticJudgments run = sort_judgments (ni_SemanticJudgments input);
  bt_sorted : StronglySorted str_lt (List.map ex_Channel (rn_ChannelExecutions run));
  bt_valid : ValidateRun run = Ok tt;
  bt_typed : run_typed run;
  bt_count : count (rn_Ranked run) <= 1000
}.

Lemma BuildRun_built input run : BuildRun input = Ok run -> built input run.
Proof.
  intros Hb. pose proof (BuildRun_copy _ _ Hb) as Hcopy. pose proof Hb as (r & canonicalJSON & hash & Hc & _ & -> & _)%BuildRun_inv. unfold BuildRun in Hb.
  destruct (_ || _) eqn:Eb; [done|]. clear Hb. autorewrite with goboolsimpl in Eb. destruct_and!. unfold canonicalizeRun in Hc. inv_Ok Hc.
  pose proof (validateSnapshot_idem _ _ H3) as Hi. pose proof Hc as (snapshot & executions & s & gates & ranked & Hck & ->)%validateCanonicalRun_checked.
  pose proof (checked_typed _ _ _ _ _ _ Hck) as Hty. pose proof (checked_head _ _ _ _ _ _ Hck) as (_ & Hcount & _).
  destruct Hck as [_ _ Hsn He _ _ _ _ _ _ _ _]. cbn [sort_run rn_Snapshot] in Hsn. rewrite Hi in Hsn. injection Hsn as <-. apply validateSnapshot_inv in H3 as (-> & _).
  destruct (executions_loop_spec _ _ _ _ _ He) as (_ & Ha & _). apply ascending_sorted in Ha as [Ha _].
  split; try done; [unfold ValidateRun; by rewrite Hcopy|by destruct Hty].
Qed.

Lemma overwritten_same l : overwritten l l = l.
Proof. unfold overwritten. by rewrite take_app_length. Qed.

Lemma sharing_same r h c : sharing r (sealed_run r h c) = r.
Proof. destruct r. unfold sharing. cbn -[with_indexes overwritten]. by rewrite with_indexes_same, overwritten_same. Qed.

(** A run that [BuildRun] returns is read back by [DecodeRun] as it was, where
    the decoder reads the fields of the run from its bytes. *)
Theorem BuildRun_decodes `{RunDecoder} (input : RunInput) (run : Run) :
  BuildRun input = Ok run ->
  unmarshal_schema (rn_CanonicalJSON run) = Some runSchemaVersion -> unmarshal_run (rn_CanonicalJSON run) = Some (sealed_run run "" "") ->
  DecodeRun (rn_CanonicalJSON run) (rn_ContentHash run) = Ok run.
Proof.
  intros Hb Hs Hd. unfold DecodeRun. rewrite Hs, Hd. cbn [runSchemaVersion String.eqb Ascii.eqb Bool.eqb].
  assert (Hr : sealed_run (sealed_run run "" "") (rn_ContentHash run) (rn_CanonicalJSON run) = run) by (by destruct run). rewrite Hr, (BuildRun_copy _ _ Hb).
  cbn [bind]. by rewrite sharing_same.
Qed.

(** ** Order *)
Record same_input (i i' : RunInput) : Prop := mk_same_input {
  sm_scalars : ni_ID i = ni_ID i' /\ ni_TenantID i = ni_TenantID i' /\ ni_Query i = ni_Query i' /\ ni_RequestContextHash i = ni_RequestContextHash i' /\
    ni_QueryEnvelope i = ni_QueryEnvelope i' /\ ni_Disposition i = ni_Disposition i' /\ ni_DecisionCode i = ni_DecisionCode i' /\
    ni_SelectedVersionIDs i = ni_SelectedVersionIDs i' /\ ni_CreatedAt i = ni_CreatedAt i' /\ ni_CompletedAt i = ni_CompletedAt i' /\
    ni_ExpiresAt i = ni_ExpiresAt i';
  sm_snapshot : with_indexes (ni_Snapshot i) [] = with_indexes (ni_Snapshot i') [];
  sm_indexes : ss_Indexes (ni_Snapshot i) ≡ₚ ss_Indexes (ni_Snapshot i');
  sm_executions : ni_ChannelExecutions i ≡ₚ ni_ChannelExecutions i';
  sm_hits : ni_Hits i ≡ₚ ni_Hits i';
  sm_gates : ni_Gates i ≡ₚ ni_Gates i';
  sm_ranked : ni_Ranked i ≡ₚ ni_Ranked i';
  sm_judgments : ni_SemanticJudgments i ≡ₚ ni_SemanticJudgments i'
}.

Lemma sort_strings_key_perm {A} (key : A -> string) (l l' : list A) :
  NoDup (List.map key (sort_slice (cmp_ltb (cmp_on key String.compare)) l)) -> l ≡ₚ l' ->
  sort_slice (cmp_ltb (cmp_on key String.compare)) l = sort_slice (cmp_ltb (cmp_on key String.compare)) l'.
Proof.
  intros Hn Hp. apply (sort_slice_perm_eq (cmp_on key String.compare)); [|done]. intros x y Hx Hy Hc. unfold cmp_on in Hc. apply String.compare_eq_iff in Hc.
  eapply (NoDup_keys_inj key); [exact Hn| | |done]; by rewrite sort_slice_elem.
Qed.

Lemma validateSnapshot_perm s s' t :
  with_indexes s [] = with_indexes s' [] -> ss_Indexes s ≡ₚ ss_Indexes s' -> validateSnapshot s = Ok t -> validateSnapshot s' = Ok t.
Proof.
  intros Hw Hp Hv. destruct (validateSnapshot_inv _ _ Hv) as (Ht & Hn & _). assert (Hs : sort_indexes (ss_Indexes s) = sort_indexes (ss_Indexes s')).
  { apply sort_strings_key_perm; [|done]. by subst t. }
  unfold validateSnapshot in *. destruct s as [a1 a2 a3 a4 a5 a6 a7 l], s' as [b1 b2 b3 b4 b5 b6 b7 l'].
  unfold with_indexes in *. injection Hw as <- <- <- <- <- <- <-. cbn [ss_Indexes] in *.
  cbn [ss_ProjectionEpoch ss_DocumentSetHash ss_ServingConfigID ss_PolicyManifestID ss_RankerManifestID ss_Indexes] in *.
  unfold count in *. rewrite <- (Permutation_length Hp). by rewrite <- Hs.
Qed.

(** Two hits of a checked run are not of the same channel and rank. *)
Lemma numbered_hits_inj hits x y :
  (forall c, List.map ph_Rank (of_channel c hits) = seqZ 1 (count (of_channel c hits))) -> x ∈ hits -> y ∈ hits ->
  ph_Channel x = ph_Channel y -> ph_Rank x = ph_Rank y -> x = y.
Proof.
  intros Hn Hx Hy Hc Hr. apply (NoDup_keys_inj ph_Rank (of_channel (ph_Channel x) hits)); [rewrite Hn; apply NoDup_seqZ| | |done]; apply list_elem_of_In, filter_In;
    (split; [by apply list_elem_of_In|]); [by rewrite str_eqb_refl|]. by rewrite Hc, str_eqb_refl.
Qed.

(** The run does not depend on the order in which its parts are given. *)
Theorem BuildRun_order (input input' : RunInput) (run : Run) : same_input input input' -> BuildRun input = Ok run -> BuildRun input' = Ok run.
Proof.
  intros [(Hid & Ht & Hq & Hctx & Henv & Hdis & Hcode & Hsel & Hca & Hco & Hex) Hsnap Hidx Hexe Hhits Hgates Hrank Hjud] Hb.
  assert (Hcan : forall r, canonicalizeRun (run_of_input input) = Ok r -> canonicalizeRun (run_of_input input') = Ok r).
  2:{ unfold BuildRun in *. rewrite <- Hid, <- Ht, <- Hq, <- Henv. destruct (_ || _); [done|]. apply bind_Ok in Hb as (r & Hr & Hb). by rewrite (Hcan r Hr). }
  clear Hb. intros r Hr. unfold canonicalizeRun in *. apply bind_Ok in Hr as (snapshot & Hs & Hv). cbn [run_of_input rn_Snapshot] in *.
  rewrite (validateSnapshot_perm _ _ _ Hsnap Hidx Hs). cbn [bind].
  pose proof Hv as (snap & executions & s & gates & ranked & Hck & _)%validateCanonicalRun_checked. rewrite <- Hv. f_equal.
  destruct (checked_executions _ _ _ _ _ _ Hck) as (_ & Hen & _). destruct (checked_hits _ _ _ _ _ _ Hck) as (_ & _ & Hhn). destruct (checked_gates _ _ _ _ _ _ Hck) as (_ & Hgn & _).
  destruct (checked_ranked _ _ _ _ _ _ Hck) as (_ & _ & Hrn & _). destruct Hck as [_ _ _ _ _ _ _ _ _ _ Hj _]. apply judgments_ok_spec in Hj as [Hjn%ascending_NoDup _].
  unfold sort_run in *. cbn [run_of_input rn_SchemaVersion rn_ID rn_TenantID rn_QueryHash rn_RequestContextHash rn_QueryEnvelope rn_ChannelExecutions rn_Hits rn_Gates rn_Ranked
    rn_SemanticJudgments rn_CandidateVersionIDs rn_IndexManifestIDs rn_Disposition rn_DecisionCode rn_SelectedVersionIDs rn_CreatedAt rn_CompletedAt rn_ExpiresAt rn_ContentHash
    rn_CanonicalJSON] in *. rewrite <- Hid, <- Ht, <- Hq, <- Hctx, <- Henv, <- Hdis, <- Hcode, <- Hsel, <- Hca, <- Hco, <- Hex. f_equal; symmetry.
  - by apply sort_strings_key_perm.
  - apply (sort_slice_perm_eq cmp_hit); [|done]. intros x y Hx Hy Hxy. unfold cmp_hit, cmp_lex, cmp_on in Hxy.
    destruct (String.compare (ph_Channel x) (ph_Channel y)) eqn:Ec; try done. apply String.compare_eq_iff in Ec. apply Z.compare_eq in Hxy.
    eapply numbered_hits_inj; [intros c; apply Hhn| | |done|done]; by apply sort_slice_elem.
  - apply sort_strings_key_perm; [done|]. by apply Permutation_map.
  - apply (sort_slice_perm_eq (cmp_on pk_Rank Z.compare)); [|by apply Permutation_map]. intros x y Hx Hy Hxy%Z.compare_eq.
    apply (NoDup_keys_inj pk_Rank (sort_ranks (ni_Ranked input))); [rewrite Hrn; apply NoDup_seqZ|by apply sort_slice_elem|by apply sort_slice_elem|done].
  - apply sort_strings_key_perm; [done|]. by apply Permutation_map.
Qed.
End runs.

(** ** Examples *)
#[local] Existing Instance copy_nfc.
#[local] Existing Instance copy_jcs.
#[local] Existing Instance copy_raw.
#[local] Existing Instance checksum_digest.

Module run_demo.
Definition demo_hash : string := Eval vm_compute in checksum_hex "context".

Definition demo_indexes : list SnapshotIndex := [mk_SnapshotIndex "vector" "index-vector" true; mk_SnapshotIndex "exact" "index-exact" false].

Definition demo_snapshot (indexes : list SnapshotIndex) : ServingSnapshot :=
  mk_ServingSnapshot 7 (mk_time Hour 0) zero_time demo_hash "rsc_1" "policy-1" "ranker-1" indexes.

Definition demo_executions : list ChannelExecution :=
  [mk_ChannelExecution "vector" "index-vector" 0 true false "deadline_exceeded" 2000; mk_ChannelExecution "exact" "index-exact" 2 false true "" 10].

Definition demo_hits : list PersistedHit :=
  [mk_PersistedHit "exact" "v2" 2 800 "index-exact" false; mk_PersistedHit "exact" "v1" 1 900 "index-exact" false].

Definition demo_gates : list PersistedGate := [mk_PersistedGate "v2" false false ["stale"; "consent"] "[]"; mk_PersistedGate "v1" true false [] "[]"].

Definition demo_ranked : list PersistedRank := [mk_PersistedRank "v1" 16393 16393 1 2 true [] []].

Definition demo_run_input (indexes : list SnapshotIndex) (executions : list ChannelExecution) (hits : list PersistedHit) (gates : list PersistedGate) : RunInput :=
  mk_RunInput ("rrun_" ++ demo_hash) "tenant" demo_query demo_hash "enc.v1.x" (demo_snapshot indexes) executions hits gates demo_ranked [] RunSelected "" ["v1"]
    (mk_time (2 * Hour) 0) (mk_time (2 * Hour + 1) 0) (mk_time (3 * Hour) 0).

Definition demo_run_input_1 : RunInput := demo_run_input demo_indexes demo_executions demo_hits demo_gates.
Definition demo_run_input_2 : RunInput := demo_run_input (rev demo_indexes) (rev demo_executions) (rev demo_hits) (rev demo_gates).

Definition run_or (r : result Run) : Run :=
  match r with
  | Ok run => run
  | Err _ => mk_Run "" "" "" "" "" "" (demo_snapshot []) [] [] [] [] [] [] [] "" "" [] zero_time zero_time zero_time "" ""
  end.

Definition demo_run : Run := Eval vm_compute in run_or (BuildRun demo_run_input_1).

Lemma demo_run_built : BuildRun demo_run_input_1 = Ok demo_run.
Proof. vm_compute. reflexivity. Qed.

(** A decoder that knows the bytes of one run. *)
Definition demo_decoder : RunDecoder :=
  {| unmarshal_schema := fun raw => if String.eqb raw (rn_CanonicalJSON demo_run) then Some runSchemaVersion else None;
     unmarshal_v1 := fun _ => None;
     unmarshal_v2 := fun _ => None;
     unmarshal_run := fun raw => if String.eqb raw (rn_CanonicalJSON demo_run) then Some (sealed_run demo_run "" "") else None |}.
End run_demo.
Import run_demo.
#[local] Existing Instance demo_decoder.

Lemma ValidateRun_typed_witness : ValidateRun demo_run = Ok tt /\ run_typed demo_run.
Proof.
  assert (Hv : ValidateRun demo_run = Ok tt) by (vm_compute; reflexivity). split; [exact Hv|]. exact (ValidateRun_typed demo_run Hv).
Defined.

Lemma BuildRun_order_witness : BuildRun demo_run_input_2 = Ok demo_run.
Proof.
  apply (BuildRun_order demo_run_input_1 demo_run_input_2 demo_run).
  - split; [split_and!; reflexivity|reflexivity|apply perm_swap|apply perm_swap|apply perm_swap|apply perm_swap|reflexivity|reflexivity].
  - exact demo_run_built.
Defined.

Lemma BuildRun_decodes_witness : DecodeRun (rn_CanonicalJSON demo_run) (rn_ContentHash demo_run) = Ok demo_run.
Proof.
  apply (BuildRun_decodes demo_run_input_1 demo_run demo_run_built); vm_compute; reflexivity.
Defined.
