(* ===== verification/PublicationStore.v ===== *)
(** * The stores of published projections (internal/store/memory/projection.go,
    internal/store/memory/lifecycle.go, internal/lifecycle/repository.go)

    [Publish] files a validated projection: the procedure family, the version
    with its steps and edges, the negative paths, the link to the outcome that
    is its evidence, the manifest, and a new retrieval document under the
    tenant's next projection epoch.  [Commit] files a lifecycle decision over a
    document that a reader saw at an epoch; when the decision changes the state
    of the version, it writes a revised document under the next epoch.  Both
    stores share one mutex and one set of documents, so they have one state
    here, [Store].

    The file [PublicationSound] has the theorems. *)

From Stdlib Require Import ZArith String Ascii List Bool Lia.
From stdpp Require Import base gmap strings list sorting relations.
From S2P Require Import Prelude GoStrings GoTime Canonical Domain Synthesis Lifecycle Interfaces RetrievalQuery RetrievalDocument Projection.

Open Scope Z_scope.
Open Scope go_scope.

(** ** Types *)
Inductive Disposition := DispositionPublished | DispositionDuplicate.

Record PublishReceipt := mk_PublishReceipt {
  pr_ManifestID : string;
  pr_ProcedureID : string;
  pr_ProcedureVersionID : string;
  pr_Disposition : Disposition;
  pr_NewFamily : bool;
  pr_NewVersion : bool;
  pr_EvidenceAdded : bool;
  pr_ProjectionEpoch : Z;
  pr_RetrievalDocumentID : string
}.

Record Counts := mk_Counts {
  ct_Families : Z;
  ct_Versions : Z;
  ct_Steps : Z;
  ct_Edges : Z;
  ct_NegativePaths : Z;
  ct_Manifests : Z;
  ct_EvidenceLinks : Z;
  ct_RetrievalDocuments : Z;
  ct_ProjectionEpochs : Z
}.

(** The maps of [ProjectionRepository], in two records: what is immutable once
    it is written, and the documents by epoch. *)
Record Catalog := mk_Catalog {
  families : gmap string Family;
  versions : gmap string Version;
  steps : gmap string Step;
  edges : gmap string Edge;
  negative : gset string;
  manifests : gmap string Manifest;
  evidence : gset string;
  canonical : gmap string string
}.

Record Snapshots := mk_Snapshots {
  documents : gmap string Document;
  documentEpoch : gmap string Z;
  epochs : gmap string Z;
  epochHashes : gmap string string;
  epochHistory : gmap string string;
  epochCreated : gmap string gotime
}.

Record ProjectionRepository := mk_ProjectionRepository { catalog : Catalog; snapshots : Snapshots }.

Definition NewProjectionRepository : ProjectionRepository :=
  mk_ProjectionRepository (mk_Catalog ∅ ∅ ∅ ∅ ∅ ∅ ∅ ∅) (mk_Snapshots ∅ ∅ ∅ ∅ ∅ ∅).

Record Publication := mk_Publication {
  pn_Manifest : PolicyManifest;
  pn_Decision : Decision;
  pn_SourceDocument : Document;
  pn_SourceEpoch : Z
}.

Record Receipt := mk_Receipt { rc_DecisionID : string; rc_RetrievalDocumentID : string; rc_ProjectionEpoch : Z; rc_Disposition : Disposition }.

Record VersionHead := mk_VersionHead {
  vh_TenantID : string;
  vh_ProcedureID : string;
  vh_ProcedureVersionID : string;
  vh_PolicyManifestID : string;
  vh_State : string;
  vh_DecisionID : string;
  vh_ProjectionEpoch : Z;
  vh_UpdatedAt : gotime
}.

Record ChampionHead := mk_ChampionHead {
  ch_TenantID : string;
  ch_ProcedureID : string;
  ch_PolicyManifestID : string;
  ch_ProcedureVersionID : string;
  ch_DecisionID : string;
  ch_ProjectionEpoch : Z;
  ch_UpdatedAt : gotime
}.

(** The maps of [LifecycleRepository] but for the shared projections. *)
Record LifecycleRepository := mk_LifecycleRepository {
  lr_manifests : gmap string PolicyManifest;
  decisions : gmap string Decision;
  receipts : gmap string Receipt;
  lr_versions : gmap string VersionHead;
  champions : gmap string ChampionHead
}.

Record Store := mk_Store { projection : ProjectionRepository; lifecycle : LifecycleRepository }.

Definition NewLifecycleRepository (projection : ProjectionRepository) : Store := mk_Store projection (mk_LifecycleRepository ∅ ∅ ∅ ∅ ∅).

(** ** Keys *)

(** [fmt.Sprintf("%s\x00%s\x00%020d", tenantID, versionID, epoch)]: an epoch is a [uint64], so twenty digits hold it. *)
Definition documentKey (tenantID versionID : string) (epoch : Z) : string := ((tenantID ++ nul ++ versionID) ++ nul ++ digits 20 epoch)%string.

Definition epochKey (tenantID : string) (epoch : Z) : string := (tenantID ++ nul ++ digits 20 epoch)%string.

Definition lifecycleVersionKey (tenantID versionID policyID : string) : string := ((tenantID ++ nul ++ versionID) ++ nul ++ policyID)%string.
Definition lifecycleChampionKey (tenantID procedureID policyID : string) : string := ((tenantID ++ nul ++ procedureID) ++ nul ++ policyID)%string.

Definition negative_key (tenantID versionID pathID : string) : string := ((tenantID ++ nul ++ versionID) ++ nul ++ pathID)%string.
Definition evidence_key (versionID outcomeID : string) : string := (versionID ++ nul ++ outcomeID)%string.

(** [strings.Repeat("0", 64)], which is also [fmt.Sprintf("%064d", 0)]. *)
Definition zero_hash : string := digits 64 0.

(** ** The catalog *)

(** [None] is the conflict with a stored family of another content hash; the flag is [receipt.NewFamily]. *)
Definition publish_family (c : Catalog) (family : Family) : option (bool * Catalog) :=
  match families c !! fm_ID family with
  | Some existing => if String.eqb (fm_ContentHash existing) (fm_ContentHash family) then Some (false, c) else None
  | None => Some (true, mk_Catalog (<[fm_ID family := family]> (families c)) (versions c) (steps c) (edges c) (negative c) (manifests c) (evidence c)
                          (canonical c))
  end.

Definition publish_version (c : Catalog) (value : Projection) : option (bool * Catalog) :=
  let version := pj_Version value in
  match versions c !! vn_ID version with
  | Some existing =>
      if negb (String.eqb (vn_ContentHash existing) (vn_ContentHash version)) ||
         negb (String.eqb (default "" (canonical c !! vn_ID version)) (pj_CanonicalProjectionJSON value))
      then None else Some (false, c)
  | None =>
      Some (true, mk_Catalog (families c) (<[vn_ID version := version]> (versions c))
                    (foldl (fun m s => <[st_ID s := s]> m) (steps c) (pj_Steps value))
                    (foldl (fun m e => <[eg_ID e := e]> m) (edges c) (pj_Edges value))
                    (negative c) (manifests c) (evidence c) (<[vn_ID version := pj_CanonicalProjectionJSON value]> (canonical c)))
  end.

Definition with_manifest (c : Catalog) (m : Manifest) : Catalog :=
  mk_Catalog (families c) (versions c) (steps c) (edges c) (negative c) (<[mn_ID m := m]> (manifests c)) (evidence c) (canonical c).

(** The negative paths, the evidence link and the manifest; the flag is [receipt.EvidenceAdded]. *)
Definition publish_links (c : Catalog) (value : Projection) : bool * Catalog :=
  let version := vn_ID (pj_Version value) in
  let evidenceKey := evidence_key version (mn_OutcomeID (pj_Manifest value)) in
  let linked := mk_Catalog (families c) (versions c) (steps c) (edges c)
    (foldl (fun s path => {[ negative_key (pj_TenantID value) version (np_ID path) ]} ∪ s) (negative c) (pj_NegativePaths value))
    (manifests c) ({[ evidenceKey ]} ∪ evidence c) (canonical c) in
  (negb (bool_decide (evidenceKey ∈ evidence c)), with_manifest linked (pj_Manifest value)).

(** The evidence links whose key has the prefix [version.ID + "\x00"]. *)
Definition evidence_count (c : Catalog) (versionID : string) : Z :=
  wrap_u64 (count (List.filter (fun key => HasPrefix key (versionID ++ nul)) (elements (evidence c)))).

(** ** Epochs *)
Definition epoch_of (s : Snapshots) (tenantID : string) : Z := default 0 (epochs s !! tenantID).

Definition previous_hash (s : Snapshots) (tenantID : string) : string :=
  let previousHash := default "" (epochHashes s !! tenantID) in if String.eqb previousHash "" then zero_hash else previousHash.

Definition epoch_json (tenantID : string) (epoch : Z) (previousHash versionID documentHash : string) : json :=
  JObj (fstr "tenant_id" tenantID ++ fnum "epoch" epoch ++ fstr "previous_hash" previousHash ++ fstr "procedure_version_id" versionID ++
        fstr "document_hash" documentHash).

Definition with_epoch (s : Snapshots) (tenantID : string) (epoch : Z) : Snapshots :=
  mk_Snapshots (documents s) (documentEpoch s) (<[tenantID := epoch]> (epochs s)) (epochHashes s) (epochHistory s) (epochCreated s).

(** The writes under the key of the epoch and under the key of the document. *)
Definition record_document (s : Snapshots) (tenantID versionID : string) (epoch : Z) (setHash : string) (createdAt : gotime) (document : Document)
    : Snapshots :=
  let key := documentKey tenantID versionID epoch in
  mk_Snapshots (<[key := document]> (documents s)) (<[key := epoch]> (documentEpoch s)) (epochs s) (<[tenantID := setHash]> (epochHashes s))
    (<[epochKey tenantID epoch := setHash]> (epochHistory s)) (<[epochKey tenantID epoch := createdAt]> (epochCreated s)).

Section store.
Context `{NFC} `{JCS} `{Digest}.

(** The tail of [Publish]: the epoch advances before its record is hashed. *)
Definition publish_document (s : Snapshots) (value : Projection) (document : Document) : result Z * Snapshots :=
  let tenantID := pj_TenantID value in
  let versionID := vn_ID (pj_Version value) in
  let epoch := wrap_u64 (epoch_of s tenantID + 1) in
  let s := with_epoch s tenantID epoch in
  match MarshalAndHash (epoch_json tenantID epoch (previous_hash s tenantID) versionID (dc_ContentHash document)) with
  | Err e => (Err e, s)
  | Ok (_, documentSetHash) => (Ok epoch, record_document s tenantID versionID epoch documentSetHash (UTC (pj_CreatedAt value)) document)
  end.

Definition receipt_of (value : Projection) (disposition : Disposition) (newFamily newVersion evidenceAdded : bool) (epoch : Z) (documentID : string)
    : PublishReceipt :=
  mk_PublishReceipt (mn_ID (pj_Manifest value)) (fm_ID (pj_Family value)) (vn_ID (pj_Version value)) disposition newFamily newVersion evidenceAdded epoch documentID.

(** [Publish] of a procedure whose manifest is not stored yet. *)
Definition publish_procedure (r : ProjectionRepository) (value : Projection) : result PublishReceipt * ProjectionRepository :=
  match publish_family (catalog r) (pj_Family value) with
  | None => (Err ErrProjectionConflict, r)
  | Some (newFamily, c) =>
      match publish_version c value with
      | None => (Err ErrProjectionConflict, mk_ProjectionRepository c (snapshots r))
      | Some (newVersion, c) =>
          let '(evidenceAdded, c) := publish_links c value in
          match ReviseEvidence (pj_RetrievalDocument value) (evidence_count c (vn_ID (pj_Version value))) 0 (pj_CreatedAt value) with
          | Err e => (Err e, mk_ProjectionRepository c (snapshots r))
          | Ok document =>
              let '(published, s) := publish_document (snapshots r) value document in
              let r := mk_ProjectionRepository c s in
              match published with
              | Err e => (Err e, r)
              | Ok epoch => (Ok (receipt_of value DispositionPublished newFamily newVersion evidenceAdded epoch (dc_ID document)), r)
              end
          end
      end
  end.

Definition Publish (r : ProjectionRepository) (ctx : option goerr) (value : Projection) : result PublishReceipt * ProjectionRepository :=
  match ctx with
  | Some e => (Err e, r)
  | None =>
      match Validate value with
      | Err e => (Err e, r)
      | Ok _ =>
          let manifest := pj_Manifest value in
          match manifests (catalog r) !! mn_ID manifest with
          | Some existing =>
              if negb (String.eqb (mn_ContentHash existing) (mn_ContentHash manifest)) then (Err ErrProjectionConflict, r)
              else (Ok (receipt_of value DispositionDuplicate false false false 0 ""), r)
          | None =>
              if String.eqb (mn_Status manifest) "abstained"
              then (Ok (receipt_of value DispositionPublished false false false 0 ""),
                    mk_ProjectionRepository (with_manifest (catalog r) manifest) (snapshots r))
              else publish_procedure r value
          end
      end
  end.

(** [total += int(epoch)] over the tenants. *)
Definition epochCount (epochs : gmap string Z) : Z := foldl (fun total kv => wrap_i64 (total + wrap_i64 (snd kv))) 0 (map_to_list epochs).

Definition repository_counts (r : ProjectionRepository) (ctx : option goerr) : result Counts :=
  match ctx with
  | Some e => Err e
  | None =>
      let c := catalog r in
      Ok (mk_Counts (Z.of_nat (size (families c))) (Z.of_nat (size (versions c))) (Z.of_nat (size (steps c))) (Z.of_nat (size (edges c)))
            (Z.of_nat (size (negative c))) (Z.of_nat (size (manifests c))) (Z.of_nat (size (evidence c)))
            (Z.of_nat (size (documents (snapshots r)))) (epochCount (epochs (snapshots r))))
  end.

Definition RetrievalDocument (r : ProjectionRepository) (ctx : option goerr) (tenantID versionID : string) (epoch : Z) : result Document :=
  match ctx with
  | Some e => Err e
  | None => match documents (snapshots r) !! documentKey tenantID versionID epoch with Some document => Ok document | None => Err ErrProjectionNotFound end
  end.

(** One pass of "[for key, document := range r.documents]"; [latestEpoch] and [latest] are its maps. *)
Definition scan_step (tenantID : string) (wanted : gset string) (epoch : Z) (epochOf : gmap string Z)
    (acc : gmap string Z * gmap string Document) (entry : string * Document) : gmap string Z * gmap string Document :=
  let '(latestEpoch, latest) := acc in
  let '(key, document) := entry in
  let documentEpoch := default 0 (epochOf !! key) in
  let version := dc_ProcedureVersionID document in
  if negb (String.eqb (dc_TenantID document) tenantID) || (epoch <? documentEpoch) then acc
  else if negb (bool_decide (version ∈ wanted)) || (documentEpoch <=? default 0 (latestEpoch !! version)) then acc
  else (<[version := documentEpoch]> latestEpoch, <[version := document]> latest).

(** [RetrievalDocuments]; the order in which Go ranges over a map is not
    specified, so the entries of [r.documents] in some order are an argument. *)
Definition RetrievalDocuments_in (iteration : list (string * Document)) (r : ProjectionRepository) (ctx : option goerr) (tenantID : string)
    (versionIDs : list string) (epoch : Z) : result (list Document) :=
  match ctx with
  | Some e => Err e
  | None =>
      reject String.eqb tenantID "" || (epoch =? 0) || (count versionIDs =? 0) || (1000 <? count versionIDs) with ErrProjectionNotFound;
      reject existsb (fun id => String.eqb id "") versionIDs with ErrProjectionNotFound;
      let '(_, latest) := foldl (scan_step tenantID (list_to_set versionIDs) epoch (documentEpoch (snapshots r))) (∅, ∅) iteration in
      Ok (omap (fun id => latest !! id) (sort_strings (List.map fst (map_to_list latest))))
  end.

Definition RetrievalDocuments (r : ProjectionRepository) := RetrievalDocuments_in (map_to_list (documents (snapshots r))) r.

Definition valueFamilyID (tenantID : string) (family : Family) : string :=
  match MarshalAndHash (family_identity_json tenantID (fm_IntentHash family) (fm_EffectSignatureHash family)) with
  | Ok (_, hash) => ("proc_" ++ hash)%string
  | Err _ => ""
  end.

(** [r.families[id]] of a missing family is the zero family. *)
Definition Canonical (r : ProjectionRepository) (ctx : option goerr) (tenantID versionID : string) : result string :=
  match ctx with
  | Some e => Err e
  | None =>
      let c := catalog r in
      match versions c !! versionID with
      | None => Err ErrProjectionNotFound
      | Some version =>
          let family := default zero_family (families c !! vn_ProcedureID version) in
          reject String.eqb (fm_ID family) "" with ErrProjectionNotFound;
          reject negb (String.eqb (valueFamilyID tenantID family) (fm_ID family)) with ErrProjectionNotFound;
          Ok (default "" (canonical c !! versionID))
      end
  end.

(** ** Lifecycle publications *)
Definition ValidatePublication (value : Publication) : result unit :=
  let d := pn_Decision value in
  let source := pn_SourceDocument value in
  reject negb (ValidatePolicyManifest (pn_Manifest value)) || failed (ValidateDecision d) || failed (ValidateDocument source) ||
         (pn_SourceEpoch value =? 0) || negb (String.eqb (Lifecycle.dc_TenantID d) (dc_TenantID source)) ||
         String.eqb (Lifecycle.dc_TenantID d) "" || negb (String.eqb (Lifecycle.dc_ProcedureID d) (dc_ProcedureID source)) ||
         negb (String.eqb (Lifecycle.dc_ProcedureVersionID d) (dc_ProcedureVersionID source)) ||
         negb (String.eqb (dc_PolicyManifestID d) (lm_ID (pn_Manifest value))) ||
         negb (String.eqb (dc_PriorState d) (dc_Lifecycle source)) with ErrInvalidLifecycle;
  Ok tt.

(** One pass of the loop of [latestDocument]. *)
Definition latest_step (tenantID versionID : string) (epochOf : gmap string Z) (acc : Z * option Document) (entry : string * Document) : Z * option Document :=
  let current := default 0 (epochOf !! fst entry) in
  if String.eqb (dc_TenantID (snd entry)) tenantID && String.eqb (dc_ProcedureVersionID (snd entry)) versionID && (fst acc <? current)
  then (current, Some (snd entry)) else acc.

(** [epoch, result, epoch > 0] over the entries of [r.projection.documents]. *)
Definition latestDocument_in (iteration : list (string * Document)) (s : Snapshots) (tenantID versionID : string) : Z * Document * bool :=
  let '(epoch, result) := foldl (latest_step tenantID versionID (documentEpoch s)) (0, None) iteration in
  (epoch, default zero_document result, 0 <? epoch).

Definition latestDocument (s : Snapshots) := latestDocument_in (map_to_list (documents s)) s.

Definition changes_state (d : Decision) : bool := negb (String.eqb (dc_NextState d) (dc_PriorState d)).

Definition activates (d : Decision) : bool := String.eqb (dc_NextState d) (state_string Active).

(** The four guards of [Commit] between the lookup of the receipt and the first write. *)
Definition commit_refused (r : Store) (value : Publication) : option goerr :=
  let d := pn_Decision value in
  let m := pn_Manifest value in
  let '(latestEpoch, latest, found) := latestDocument (snapshots (projection r)) (Lifecycle.dc_TenantID d) (Lifecycle.dc_ProcedureVersionID d) in
  if match lr_manifests (lifecycle r) !! lm_ID m with Some existing => negb (String.eqb (lm_ContentHash existing) (lm_ContentHash m)) | None => false end
  then Some ErrLifecycleConflict
  else if negb found || negb (latestEpoch =? pn_SourceEpoch value) ||
          negb (String.eqb (dc_ContentHash latest) (dc_ContentHash (pn_SourceDocument value)))
  then Some ErrLifecycleConflict
  else if match lr_versions (lifecycle r) !! lifecycleVersionKey (Lifecycle.dc_TenantID d) (Lifecycle.dc_ProcedureVersionID d) (lm_ID m) with
          | Some head => negb (String.eqb (vh_State head) (dc_PriorState d)) || negb (vh_ProjectionEpoch head =? pn_SourceEpoch value)
          | None => false
          end
  then Some ErrLifecycleConflict
  else if activates d &&
          match champions (lifecycle r) !! lifecycleChampionKey (Lifecycle.dc_TenantID d) (Lifecycle.dc_ProcedureID d) (lm_ID m) with
          | Some champion => negb (String.eqb (ch_ProcedureVersionID champion) (Lifecycle.dc_ProcedureVersionID d))
          | None => false
          end
  then Some ErrChampionConflict
  else None.

(** The revised document and its epoch, when the decision changes the state; nothing is written before both are known. *)
Definition commit_document (s : Snapshots) (value : Publication) : result (Receipt * Snapshots) :=
  let d := pn_Decision value in
  let tenantID := Lifecycle.dc_TenantID d in
  let receipt := mk_Receipt (Lifecycle.dc_ID d) (dc_ID (pn_SourceDocument value)) (pn_SourceEpoch value) DispositionPublished in
  if changes_state d then
    let* document := ReviseLifecycle (pn_SourceDocument value) (dc_NextState d) (dc_CausalSuccessCount d) (Lifecycle.dc_UnsafeOutcomeCount d)
                       (dc_EvaluatedAt d) (lm_ID (pn_Manifest value)) in
    let epoch := wrap_u64 (epoch_of s tenantID + 1) in
    let* (_, setHash) := MarshalAndHash (epoch_json tenantID epoch (previous_hash s tenantID) (Lifecycle.dc_ProcedureVersionID d) (dc_ContentHash document)) in
    Ok (mk_Receipt (Lifecycle.dc_ID d) (dc_ID document) epoch DispositionPublished,
        record_document (with_epoch s tenantID epoch) tenantID (Lifecycle.dc_ProcedureVersionID d) epoch setHash (dc_EvaluatedAt d) document)
  else Ok (receipt, s).

Definition head_of (value : Publication) (receipt : Receipt) : VersionHead :=
  let d := pn_Decision value in
  mk_VersionHead (Lifecycle.dc_TenantID d) (Lifecycle.dc_ProcedureID d) (Lifecycle.dc_ProcedureVersionID d) (lm_ID (pn_Manifest value)) (dc_NextState d)
    (Lifecycle.dc_ID d) (rc_ProjectionEpoch receipt) (dc_EvaluatedAt d).

Definition champion_of (value : Publication) (receipt : Receipt) : ChampionHead :=
  let d := pn_Decision value in
  mk_ChampionHead (Lifecycle.dc_TenantID d) (Lifecycle.dc_ProcedureID d) (lm_ID (pn_Manifest value)) (Lifecycle.dc_ProcedureVersionID d)
    (Lifecycle.dc_ID d) (rc_ProjectionEpoch receipt) (dc_EvaluatedAt d).

(** The writes of [Commit] to the maps of [LifecycleRepository]. *)
Definition record_decision (l : LifecycleRepository) (value : Publication) (receipt : Receipt) : LifecycleRepository :=
  let d := pn_Decision value in
  let m := pn_Manifest value in
  let championKey := lifecycleChampionKey (Lifecycle.dc_TenantID d) (Lifecycle.dc_ProcedureID d) (lm_ID m) in
  mk_LifecycleRepository (<[lm_ID m := m]> (lr_manifests l)) (<[Lifecycle.dc_ID d := d]> (decisions l)) (<[Lifecycle.dc_ID d := receipt]> (receipts l))
    (<[lifecycleVersionKey (Lifecycle.dc_TenantID d) (Lifecycle.dc_ProcedureVersionID d) (lm_ID m) := head_of value receipt]> (lr_versions l))
    (if activates d then <[championKey := champion_of value receipt]> (champions l)
     else if String.eqb (dc_PriorState d) (state_string Active) then delete championKey (champions l)
     else champions l).

(** [Commit] under the mutex, for a publication that [ValidatePublication] accepts. *)
Definition commit_locked (r : Store) (value : Publication) : result Receipt * Store :=
  match receipts (lifecycle r) !! Lifecycle.dc_ID (pn_Decision value) with
  | Some existing =>
      (Ok (mk_Receipt (rc_DecisionID existing) (rc_RetrievalDocumentID existing) (rc_ProjectionEpoch existing) DispositionDuplicate), r)
  | None =>
      match commit_refused r value with
      | Some e => (Err e, r)
      | None =>
          match commit_document (snapshots (projection r)) value with
          | Err e => (Err e, r)
          | Ok (receipt, s) =>
              (Ok receipt, mk_Store (mk_ProjectionRepository (catalog (projection r)) s) (record_decision (lifecycle r) value receipt))
          end
      end
  end.

(** [Commit]; [None] is a nil repository or one without projections. *)
Definition Commit (r : option Store) (ctx : option goerr) (value : Publication) : result Receipt * option Store :=
  match ctx, r with
  | Some e, _ => (Err e, r)
  | None, None => (Err ErrInvalidLifecycle, r)
  | None, Some store =>
      if failed (ValidatePublication value) then (Err ErrInvalidLifecycle, r)
      else let '(receipt, store) := commit_locked store value in (receipt, Some store)
  end.

Definition version_head (r : option Store) (ctx : option goerr) (tenantID versionID policyID : string) : result VersionHead :=
  match ctx, r with
  | Some e, _ => Err e
  | None, None => Err ErrLifecycleNotFound
  | None, Some store =>
      match lr_versions (lifecycle store) !! lifecycleVersionKey tenantID versionID policyID with Some value => Ok value | None => Err ErrLifecycleNotFound end
  end.

Definition Champion (r : option Store) (ctx : option goerr) (tenantID procedureID policyID : string) : result ChampionHead :=
  match ctx, r with
  | Some e, _ => Err e
  | None, None => Err ErrLifecycleNotFound
  | None, Some store =>
      match champions (lifecycle store) !! lifecycleChampionKey tenantID procedureID policyID with Some value => Ok value | None => Err ErrLifecycleNotFound end
  end.

(** ** Histories: calls to the two stores in the order in which they hold the mutex *)
Inductive Op :=
| OpPublish (ctx : option goerr) (value : Projection)
| OpCommit (ctx : option goerr) (value : Publication).

Definition apply_op (s : Store) (op : Op) : Store :=
  match op with
  | OpPublish ctx value => mk_Store (snd (Publish (projection s) ctx value)) (lifecycle s)
  | OpCommit ctx value => default s (snd (Commit (Some s) ctx value))
  end.

Definition run (s : Store) (ops : list Op) : Store := foldl apply_op s ops.

Definition NewStore : Store := NewLifecycleRepository NewProjectionRepository.
End store.
