(* ===== verification/PublicationSound.v ===== *)
(** * Theorems about the stores of published projections

    The abstract state is a log per tenant: entry [i] is what epoch [i+1]
    published, a document, or nothing when a publication failed after it had
    taken the epoch.  [refines] says that the maps of the store hold that log,
    [apply_op_refines] that every call to either store appends at most one entry
    to it, and the theorems read the log: a snapshot at a past epoch never
    changes, the epoch hashes bind the history, a decision over a stale document
    is refused. *)

From Stdlib Require Import ZArith String Ascii List Bool Lia.
From stdpp Require Import base gmap strings list sorting relations.
From S2P Require Import Prelude GoStrings GoTime Canonical Domain Synthesis SynthesisSound Lifecycle Interfaces RetrievalQuery RetrievalDocument.
From S2P Require Import Projection ProjectionSound PublicationStore.

Open Scope Z_scope.
Open Scope go_scope.

(** ** Keys *)
Lemma token_no_nul s : token_bytes s = true -> has_nul s = false.
Proof.
  unfold token_bytes, has_nul, contains_byte. intros Hs. apply not_true_iff_false. intros (a & Ha & Hz)%existsb_exists.
  rewrite forallb_forall in Hs. specialize (Hs a Ha). apply token_byte_range in Hs. lia.
Qed.

Lemma epoch_digits e e' : in_u64 e -> in_u64 e' -> digits 20 e = digits 20 e' -> e = e'.
Proof. unfold_widths. intros He He'. apply digits_inj; cbn; lia. Qed.

Lemma documentKey_inj t v e t' v' e' :
  has_nul v = false -> has_nul v' = false -> in_u64 e -> in_u64 e' -> documentKey t v e = documentKey t' v' e' -> t = t' /\ v = v' /\ e = e'.
Proof.
  intros Hv Hv' He He' Heq. apply last_part_inj in Heq as [Heq Hd%epoch_digits]; [|done|done|apply digits_no_nul..].
  apply last_part_inj in Heq as [-> ->]; done.
Qed.

Lemma epochKey_inj t e t' e' : in_u64 e -> in_u64 e' -> epochKey t e = epochKey t' e' -> t = t' /\ e = e'.
Proof. intros He He' Heq. apply last_part_inj in Heq as [-> Hd%epoch_digits]; [done..|apply digits_no_nul|apply digits_no_nul]. Qed.

Lemma version_key_inj t v m t' v' m' :
  has_nul v = false -> has_nul v' = false -> has_nul m = false -> has_nul m' = false ->
  lifecycleVersionKey t v m = lifecycleVersionKey t' v' m' -> t = t' /\ v = v' /\ m = m'.
Proof.
  intros Hv Hv' Hm Hm' Heq. apply last_part_inj in Heq as [Heq ->]; [|done..]. apply last_part_inj in Heq as [-> ->]; done.
Qed.

(** ** The log *)
Notation Logs := (gmap string (list (option Document))).

Definition log_of (l : Logs) (t : string) : list (option Document) := default [] (l !! t).

Definition log_append (l : Logs) (t : string) (x : option Document) : Logs := <[t := log_of l t ++ [x]]> l.

Lemma log_of_append l t x t' : log_of (log_append l t x) t' = if String.eqb t' t then log_of l t ++ [x] else log_of l t'.
Proof.
  unfold log_of, log_append. destruct (String.eqb_spec t' t) as [->|Hne]; [by rewrite lookup_insert_eq|by rewrite lookup_insert_ne].
Qed.

(** The last entry for a version, with its epoch. *)
Definition latest_next (v : string) (acc : Z * option (Z * Document)) (x : option Document) : Z * option (Z * Document) :=
  (fst acc + 1,
   match x with
   | Some d => if String.eqb (dc_ProcedureVersionID d) v then Some (fst acc + 1, d) else snd acc
   | None => snd acc
   end).

Definition latest_in (v : string) (log : list (option Document)) : option (Z * Document) := snd (foldl (latest_next v) (0, None) log).

(** What a reader of the versions [wanted] sees at epoch [e]: by version, the last document published up to it. *)
Definition snapshot (log : list (option Document)) (wanted : list string) (e : Z) : list Document :=
  let seen v := snd <$> latest_in v (firstn (Z.to_nat e) log) in
  omap seen (sort_strings (List.filter (fun v => match seen v with Some _ => true | None => false end) (remove_dups wanted))).

Lemma latest_fold_count v log acc : fst (foldl (latest_next v) acc log) = fst acc + count log.
Proof. revert acc. unfold count. induction log as [|x log IH]; intros acc; simpl; [lia|]. rewrite IH. cbn [latest_next fst length]. lia. Qed.

Definition published_at (log : list (option Document)) (v : string) (i : nat) (d : Document) : Prop :=
  log !! i = Some (Some d) /\ dc_ProcedureVersionID d = v.

Lemma published_snoc log x v i d :
  published_at (log ++ [x]) v i d <-> published_at log v i d \/ (i = length log /\ x = Some d /\ dc_ProcedureVersionID d = v).
Proof.
  unfold published_at. rewrite lookup_snoc_Some. split; [intros [[[? ?]|[-> ->]] ?]|intros [[? ?]|(-> & -> & ?)]]; try tauto.
  split; [left; split; [by eapply lookup_lt_Some|done]|done].
Qed.

Lemma latest_in_spec v log :
  match latest_in v log with
  | Some (e, d) => exists i, e = Z.of_nat i + 1 /\ published_at log v i d /\ forall j d', published_at log v j d' -> (j <= i)%nat
  | None => forall j d', ~ published_at log v j d'
  end.
Proof.
  induction log as [|x log IH] using rev_ind; [by intros j d' [? _]|].
  assert (Hold : (forall d, x = Some d -> dc_ProcedureVersionID d <> v) -> latest_in v (log ++ [x]) = latest_in v log).
  { intros Hne. unfold latest_in. rewrite foldl_app. cbn [foldl latest_next snd]. destruct x as [d|]; [|done].
    destruct (String.eqb_spec (dc_ProcedureVersionID d) v) as [E|]; [by destruct (Hne d eq_refl)|done]. }
  assert (Hcase : (exists d, x = Some d /\ dc_ProcedureVersionID d = v) \/ ~ (exists d, x = Some d /\ dc_ProcedureVersionID d = v)).
  { destruct x as [d|]; [|right; by intros (d & ? & _)]. destruct (decide (dc_ProcedureVersionID d = v)); [left; by exists d|right].
    by intros (d' & [= <-] & ?). }
  destruct Hcase as [(d & -> & Hd)|Hne].
  - assert (Hl : latest_in v (log ++ [Some d]) = Some (count log + 1, d)).
    { unfold latest_in. rewrite foldl_app. cbn [foldl latest_next snd]. rewrite Hd, str_eqb_refl, latest_fold_count. by f_equal. }
    rewrite Hl. exists (length log). split; [done|]. split; [apply published_snoc; by right|].
    intros j d' [[Hj _]|(-> & _)]%published_snoc; [apply lookup_lt_Some in Hj; lia|done].
  - rewrite Hold by (intros d -> Hd; apply Hne; by exists d). destruct (latest_in v log) as [[e d]|].
    + destruct IH as (i & -> & Hi & Hmax). exists i. split; [done|]. split; [apply published_snoc; by left|].
      intros j d' [Hj|(_ & -> & Hd)]%published_snoc; [by eapply Hmax|destruct Hne; by exists d'].
    + intros j d' [Hj|(_ & -> & Hd)]%published_snoc; [by eapply IH|destruct Hne; by exists d'].
Qed.

Section store_facts.
Context `{NFC} `{JCS} `{Digest}.

(** The hash of each epoch's record covers the hash before it. *)
Definition chain_next (t : string) (acc : Z * string) (x : option Document) : Z * string :=
  (fst acc + 1,
   match x with
   | Some d => default "" (hash_of (epoch_json t (fst acc + 1) (snd acc) (dc_ProcedureVersionID d) (dc_ContentHash d)))
   | None => snd acc
   end).

Definition chain (t : string) (log : list (option Document)) : Z * string := foldl (chain_next t) (0, zero_hash) log.

Lemma chain_snoc t log x : chain t (log ++ [x]) = chain_next t (chain t log) x.
Proof. unfold chain. by rewrite foldl_app. Qed.

Lemma chain_count t log : fst (chain t log) = count log.
Proof. induction log as [|x log IH] using rev_ind; [done|]. rewrite chain_snoc. unfold count in *. cbn [chain_next fst]. rewrite IH, length_app. simpl. lia. Qed.

(** Every published document had its epoch record hashed. *)
Definition hashed (t : string) (log : list (option Document)) : Prop :=
  forall i d, log !! i = Some (Some d) ->
    is_Some (hash_of (epoch_json t (Z.of_nat i + 1) (snd (chain t (firstn i log))) (dc_ProcedureVersionID d) (dc_ContentHash d))).

Lemma hashed_snoc t log x :
  hashed t (log ++ [x]) <-> hashed t log /\
    forall d, x = Some d -> is_Some (hash_of (epoch_json t (count log + 1) (snd (chain t log)) (dc_ProcedureVersionID d) (dc_ContentHash d))).
Proof.
  unfold hashed. split.
  - intros Hh. split.
    + intros i d Hi. specialize (Hh i d). pose proof (lookup_lt_Some _ _ _ Hi). rewrite lookup_app_l, take_app_le in Hh by lia. by apply Hh.
    + intros d ->. specialize (Hh (length log) d). rewrite take_app_length in Hh. apply Hh. by apply list_lookup_middle.
  - intros [Hh Hx] i d [[Hlt Hi]|[-> ->]]%lookup_snoc_Some; [|by rewrite take_app_length; apply Hx].
    rewrite take_app_le by lia. by apply Hh.
Qed.

(** A version's name: bytes of a token, of which there is one. *)
Definition version_name (v : string) : Prop := token_bytes v = true /\ v <> "".

(** An entry: a valid document of the tenant whose version can be part of a key. *)
Definition entry_ok (t : string) (d : Document) : Prop :=
  dc_TenantID d = t /\ has_nul (dc_ProcedureVersionID d) = false /\ ValidateDocument d = Ok tt /\ version_name (dc_ProcedureVersionID d).

(** The maps of the store hold the log. *)
Record refines (s : Snapshots) (l : Logs) : Prop := mk_refines {
  rf_epochs : forall t, epoch_of s t = count (log_of l t);
  rf_fits : forall t, count (log_of l t) <= MaxUint64;
  rf_entries : forall t i d, log_of l t !! i = Some (Some d) -> entry_ok t d;
  rf_documents : forall k d, documents s !! k = Some d <->
    exists t i, log_of l t !! i = Some (Some d) /\ k = documentKey t (dc_ProcedureVersionID d) (Z.of_nat i + 1);
  rf_documentEpoch : forall t i d, log_of l t !! i = Some (Some d) -> documentEpoch s !! documentKey t (dc_ProcedureVersionID d) (Z.of_nat i + 1) = Some (Z.of_nat i + 1);
  rf_hashes : forall t, previous_hash s t = snd (chain t (log_of l t));
  rf_history : forall t i d, log_of l t !! i = Some (Some d) ->
    epochHistory s !! epochKey t (Z.of_nat i + 1) = Some (snd (chain t (firstn (S i) (log_of l t))));
  rf_hashed : forall t, hashed t (log_of l t)
}.

Lemma refines_new : refines (snapshots NewProjectionRepository) ∅.
Proof.
  assert (Hl : forall t, log_of ∅ t = []) by done.
  split; intros; rewrite ?Hl in *; try done. split; [done|]. by intros (t & i & Hi & _).
Qed.

Lemma lookup_log_append l t x t' i d :
  log_of (log_append l t x) t' !! i = Some (Some d) <->
  log_of l t' !! i = Some (Some d) \/ (t' = t /\ i = length (log_of l t) /\ x = Some d).
Proof.
  rewrite log_of_append. destruct (String.eqb_spec t' t) as [->|Hne]; [|tauto]. rewrite lookup_snoc_Some. split.
  - intros [[_ ?]|[-> ->]]; tauto.
  - intros [Hi|(_ & -> & ->)]; [left|tauto]. split; [by eapply lookup_lt_Some|done].
Qed.

Lemma count_log_append l t x t' : count (log_of (log_append l t x) t') = count (log_of l t') + (if String.eqb t' t then 1 else 0).
Proof. rewrite log_of_append. unfold count. destruct (String.eqb_spec t' t) as [->|]; rewrite ?length_app; simpl; lia. Qed.

Lemma chain_firstn_append l t x t' i d :
  log_of l t' !! i = Some (Some d) -> firstn (S i) (log_of (log_append l t x) t') = firstn (S i) (log_of l t').
Proof.
  intros Hi. apply lookup_lt_Some in Hi. rewrite log_of_append. destruct (String.eqb_spec t' t) as [->|]; [|done].
  rewrite firstn_app. replace (S i - length (log_of l t))%nat with 0%nat by lia. by rewrite app_nil_r.
Qed.

Lemma entry_epoch s l t i d : refines s l -> log_of l t !! i = Some (Some d) -> in_u64 (Z.of_nat i + 1).
Proof.
  intros Hr Hi. apply lookup_lt_Some in Hi. pose proof (rf_fits _ _ Hr t) as Hf. unfold count in Hf. unfold_widths. lia.
Qed.

Lemma epoch_of_with s t e t' : epoch_of (with_epoch s t e) t' = if String.eqb t' t then e else epoch_of s t'.
Proof.
  unfold epoch_of, with_epoch. cbn [epochs]. destruct (String.eqb_spec t' t) as [->|Hne]; [by rewrite lookup_insert_eq|by rewrite lookup_insert_ne].
Qed.

(** An epoch that was taken and has no document. *)
Lemma refines_gap s l t :
  refines s l -> count (log_of l t) < MaxUint64 -> refines (with_epoch s t (count (log_of l t) + 1)) (log_append l t None).
Proof.
  intros Hr Hfit. pose proof Hr as [He Hf Hok Hd Hde Hh Hhist Hhd]. split.
  - intros t'. rewrite epoch_of_with, count_log_append, He. destruct (String.eqb_spec t' t) as [->|]; lia.
  - intros t'. rewrite count_log_append. specialize (Hf t'). destruct (String.eqb_spec t' t) as [->|]; lia.
  - intros t' i d [Hi|(_ & _ & ?)]%lookup_log_append; [by eapply Hok|done].
  - intros k d. cbn [with_epoch documents]. rewrite Hd. split; intros (t' & i & Hi & ->); exists t', i; (split; [|done]).
    + apply lookup_log_append. by left.
    + by apply lookup_log_append in Hi as [Hi|(_ & _ & ?)].
  - intros t' i d [Hi|(_ & _ & ?)]%lookup_log_append; [by apply Hde|done].
  - intros t'. change (previous_hash (with_epoch s t _) t') with (previous_hash s t'). rewrite Hh, log_of_append.
    destruct (String.eqb_spec t' t) as [->|]; [|done]. by rewrite chain_snoc.
  - intros t' i d [Hi|(_ & _ & ?)]%lookup_log_append; [|done]. rewrite (chain_firstn_append _ _ _ _ _ _ Hi). by eapply Hhist.
  - intros t'. rewrite log_of_append. destruct (String.eqb_spec t' t) as [->|]; [|apply Hhd]. apply hashed_snoc. split; [apply Hhd|done].
Qed.

Lemma hash_of_Some j c h : MarshalAndHash j = Ok (c, h) -> hash_of j = Some h.
Proof. unfold hash_of. by intros ->. Qed.

Lemma hash_of_nonempty j h : hash_of j = Some h -> h <> "".
Proof.
  unfold hash_of, MarshalAndHash. destruct (marshal j); [|done]. destruct (jcs_transform _) as [c|]; [|done]. intros [= <-] He.
  pose proof (sum256_hex_pattern c) as Hp. by rewrite He in Hp.
Qed.

(** A document published under the next epoch. *)
Lemma refines_record s l t d h at_ :
  refines s l -> count (log_of l t) < MaxUint64 -> entry_ok t d ->
  hash_of (epoch_json t (count (log_of l t) + 1) (previous_hash s t) (dc_ProcedureVersionID d) (dc_ContentHash d)) = Some h ->
  refines (record_document (with_epoch s t (count (log_of l t) + 1)) t (dc_ProcedureVersionID d) (count (log_of l t) + 1) h at_ d) (log_append l t (Some d)).
Proof.
  intros Hr Hfit Hd Hh. set (e := count (log_of l t) + 1) in *.
  assert (Hen : e = Z.of_nat (length (log_of l t)) + 1) by done. assert (He : in_u64 e) by (unfold e, count in *; unfold_widths; lia).
  pose proof (refines_gap _ _ _ Hr Hfit) as [Ge Gf _ _ _ _ _ _]. pose proof Hr as [Re Rf Rok Rd Rde Rh Rhist Rhd].
  assert (Hnew : forall t' i d', log_of l t' !! i = Some (Some d') -> documentKey t (dc_ProcedureVersionID d) e <> documentKey t' (dc_ProcedureVersionID d') (Z.of_nat i + 1)).
  { intros t' i d' Hi Hk. destruct (Rok _ _ _ Hi) as (_ & Hn & _), Hd as (_ & Hn' & _).
    apply documentKey_inj in Hk as (-> & _ & Hk); [|done|done|done|by eapply entry_epoch]. apply lookup_lt_Some in Hi. lia. }
  split.
  - intros t'. change (epoch_of (record_document _ _ _ _ _ _ _) t') with (epoch_of (with_epoch s t e) t'). by rewrite Ge, !count_log_append.
  - intros t'. specialize (Gf t'). by rewrite count_log_append in *.
  - intros t' i d' [Hi|(-> & _ & [= <-])]%lookup_log_append; [by eapply Rok|done].
  - intros k d'. cbn [record_document documents with_epoch]. rewrite lookup_insert_Some, Rd. split.
    + intros [[<- <-]|[_ (t' & i & Hi & ->)]].
      * exists t, (length (log_of l t)). split; [apply lookup_log_append; by right|by rewrite <- Hen].
      * exists t', i. split; [apply lookup_log_append; by left|done].
    + intros (t' & i & [Hi|(-> & -> & [= <-])]%lookup_log_append & ->); [right|left; by rewrite <- Hen].
      split; [by apply Hnew|by exists t', i].
  - intros t' i d' [Hi|(-> & -> & [= <-])]%lookup_log_append; cbn [record_document documentEpoch with_epoch].
    + rewrite lookup_insert_ne by (by apply Hnew). by apply Rde.
    + rewrite <- Hen. by rewrite lookup_insert_eq.
  - intros t'. unfold previous_hash. cbn [record_document epochHashes with_epoch]. rewrite log_of_append.
    destruct (String.eqb_spec t' t) as [->|Hne]; [|rewrite lookup_insert_ne by done; apply Rh]. rewrite lookup_insert_eq. change (default "" (Some h)) with h. cbv zeta.
    rewrite (proj2 (String.eqb_neq _ _) (hash_of_nonempty _ _ Hh)), chain_snoc. cbn [chain_next snd]. rewrite chain_count, <- Rh. fold e. by rewrite Hh.
  - intros t' i d' [Hi|(-> & -> & [= <-])]%lookup_log_append; cbn [record_document epochHistory with_epoch].
    + rewrite (chain_firstn_append _ _ _ _ _ _ Hi), lookup_insert_ne; [by eapply Rhist|]. intros Hk.
      apply epochKey_inj in Hk as [-> Hk]; [|done|by eapply entry_epoch]. apply lookup_lt_Some in Hi. lia.
    + rewrite <- Hen, lookup_insert_eq, log_of_append, str_eqb_refl, firstn_all2 by (rewrite length_app; simpl; lia).
      rewrite chain_snoc. cbn [chain_next snd]. rewrite chain_count, <- Rh. fold e. by rewrite Hh.
  - intros t'. rewrite log_of_append. destruct (String.eqb_spec t' t) as [->|]; [|apply Rhd]. apply hashed_snoc. split; [apply Rhd|].
    intros d' [= <-]. rewrite <- Rh. fold e. by rewrite Hh.
Qed.

(** ** Calls append to the log *)
Lemma publish_document_refines s l value d :
  refines s l -> count (log_of l (pj_TenantID value)) < MaxUint64 -> entry_ok (pj_TenantID value) d -> dc_ProcedureVersionID d = vn_ID (pj_Version value) ->
  exists x, refines (snd (publish_document s value d)) (log_append l (pj_TenantID value) x) /\
    forall e, fst (publish_document s value d) = Ok e -> x = Some d /\ e = count (log_of l (pj_TenantID value)) + 1.
Proof.
  intros Hr Hfit Hok Hv. unfold publish_document. rewrite (rf_epochs _ _ Hr), wrap_u64_id by (unfold_widths; unfold count in *; lia).
  set (t := pj_TenantID value) in *. set (e := count (log_of l t) + 1). change (previous_hash (with_epoch s t e) t) with (previous_hash s t). rewrite <- Hv.
  destruct (MarshalAndHash _) as [[c h]|err] eqn:Em; cbn [fst snd].
  - exists (Some d). split; [|by intros ? [= <-]]. apply refines_record; [done..|]. by eapply hash_of_Some.
  - exists None. split; [by apply refines_gap|done].
Qed.

Lemma named_by_digest id prefix contentHash j : named_by id prefix contentHash j = true -> exists h, id = (prefix ++ h)%string /\ sha256Pattern h = true.
Proof.
  unfold named_by, MarshalAndHash. destruct (marshal j); [|done]. destruct (jcs_transform _) as [c|]; [|done].
  intros [->%String.eqb_eq _]%andb_true_iff. eexists. split; [done|apply sum256_hex_pattern].
Qed.

Lemma Validate_document value :
  Validate value = Ok tt -> String.eqb (mn_Status (pj_Manifest value)) "abstained" = false ->
  document_mismatch value = false /\ has_nul (vn_ID (pj_Version value)) = false /\ version_name (vn_ID (pj_Version value)).
Proof.
  unfold Validate. intros Hv Hs. rewrite Hs in Hv. destruct (header_invalid value); [done|]. destruct (_ || (str_len _ =? 0)); [done|].
  destruct (document_mismatch value); [done|]. destruct (steps_ordered _ _); [|done]. destruct (forallb _ (pj_Edges value)); [|done].
  destruct (forallb _ (pj_NegativePaths value)); [|done]. apply bind_Ok in Hv as ([] & _ & Hv). split; [done|].
  unfold validateProcedureProjection in Hv. destruct (named_by (fm_ID _) _ _ _); [|done]. destruct (forallb _ _); [|done].
  destruct (edges_named _ _ _); [|done]. destruct (hash_of _) as [g|]; [|done]. destruct (String.eqb _ g); [|done]. cbn [negb] in Hv.
  destruct (named_by (vn_ID _) _ _ _) eqn:En; [|done]. destruct (named_by_digest _ _ _ _ En) as (h & -> & Hh).
  apply sha256Pattern_bytes in Hh as [Hh _]. split; [rewrite has_nul_app, (token_no_nul h) by done; reflexivity|].
  split; [|done]. unfold token_bytes in *. by rewrite list_ascii_app, forallb_app, Hh.
Qed.

Lemma document_mismatch_false value :
  document_mismatch value = false ->
  dc_TenantID (pj_RetrievalDocument value) = pj_TenantID value /\ dc_ProcedureVersionID (pj_RetrievalDocument value) = vn_ID (pj_Version value).
Proof. unfold document_mismatch. autorewrite with goboolsimpl. tauto. Qed.

Definition extends (l l' : Logs) : Prop := l' = l \/ exists t x, l' = log_append l t x.

Lemma publish_procedure_refines r l value :
  refines (snapshots r) l -> count (log_of l (pj_TenantID value)) < MaxUint64 ->
  document_mismatch value = false -> has_nul (vn_ID (pj_Version value)) = false /\ version_name (vn_ID (pj_Version value)) ->
  exists l', refines (snapshots (snd (publish_procedure r value))) l' /\ extends l l'.
Proof.
  intros Hr Hfit Hm [Hn Hname]. apply document_mismatch_false in Hm as [Ht Hv]. unfold publish_procedure.
  assert (Hkeep : exists l', refines (snapshots r) l' /\ extends l l') by (exists l; split; [done|by left]).
  destruct (publish_family _ _) as [[nf c]|]; [|done]. destruct (publish_version c value) as [[nv c']|]; [|done].
  destruct (publish_links c' value) as [ea c'']. destruct (ReviseEvidence _ _ _ _) as [d|] eqn:Ed; [|done].
  destruct (ReviseEvidence_spec _ _ _ _ _ Ed) as (_ & _ & _ & Hd & Heq).
  assert (Hdt : dc_TenantID d = pj_TenantID value) by (by rewrite Heq). assert (Hdv : dc_ProcedureVersionID d = vn_ID (pj_Version value)) by (by rewrite Heq).
  destruct (publish_document_refines (snapshots r) l value d Hr Hfit) as (x & Hx & _); [rewrite <- Hdv in Hn, Hname; by split_and!|done|].
  destruct (publish_document (snapshots r) value d) as [res s]. exists (log_append l (pj_TenantID value) x).
  split; [by destruct res|right; by eexists _, _].
Qed.

Lemma Publish_refines r l ctx value :
  refines (snapshots r) l -> count (log_of l (pj_TenantID value)) < MaxUint64 ->
  exists l', refines (snapshots (snd (Publish r ctx value))) l' /\ extends l l'.
Proof.
  intros Hr Hfit. assert (Hkeep : exists l', refines (snapshots r) l' /\ extends l l') by (exists l; split; [done|by left]).
  unfold Publish. destruct ctx; [done|]. destruct (Validate value) as [[]|] eqn:Ev; [|done].
  destruct (manifests _ !! _); [by destruct (negb _)|]. destruct (String.eqb _ "abstained") eqn:Es; [done|].
  destruct (Validate_document _ Ev Es). by apply publish_procedure_refines.
Qed.

Lemma ValidatePublication_facts value :
  ValidatePublication value = Ok tt ->
  let d := pn_Decision value in
  dc_TenantID (pn_SourceDocument value) = Lifecycle.dc_TenantID d /\ dc_ProcedureVersionID (pn_SourceDocument value) = Lifecycle.dc_ProcedureVersionID d /\
  has_nul (Lifecycle.dc_ProcedureVersionID d) = false /\ has_nul (lm_ID (pn_Manifest value)) = false /\ 0 <> pn_SourceEpoch value /\
  version_name (Lifecycle.dc_ProcedureVersionID d).
Proof.
  unfold ValidatePublication. destruct (_ || _) eqn:E; [done|]. intros _. autorewrite with goboolsimpl in E.
  destruct E as [[[[[[[[[_ Hd] _] He] Ht] _] _] Hv] Hm] _]. unfold failed in Hd. destruct (ValidateDecision (pn_Decision value)) as [[]|] eqn:Ed; [|done].
  unfold ValidateDecision in Ed. destruct (decision_invalid _) eqn:Ei; [done|]. unfold decision_invalid in Ei. autorewrite with goboolsimpl in Ei.
  assert (Htok : tokenPattern (Lifecycle.dc_ProcedureVersionID (pn_Decision value)) = true /\ tokenPattern (dc_PolicyManifestID (pn_Decision value)) = true) by tauto.
  destruct Htok as [[Hvb Hvl]%tokenPattern_bytes [Hmb _]%tokenPattern_bytes]. rewrite <- Hm. split_and!; [done|done|by apply token_no_nul|by apply token_no_nul|lia|].
  split; [done|]. intros Hempty. rewrite Hempty in Hvl. by destruct Hvl.
Qed.

Lemma commit_document_refines s l value receipt s' :
  refines s l -> count (log_of l (Lifecycle.dc_TenantID (pn_Decision value))) < MaxUint64 -> ValidatePublication value = Ok tt ->
  commit_document s value = Ok (receipt, s') ->
  let t := Lifecycle.dc_TenantID (pn_Decision value) in
  let v := Lifecycle.dc_ProcedureVersionID (pn_Decision value) in
  rc_Disposition receipt = DispositionPublished /\ rc_DecisionID receipt = Lifecycle.dc_ID (pn_Decision value) /\
  if changes_state (pn_Decision value)
  then exists d, refines s' (log_append l t (Some d)) /\ dc_ProcedureVersionID d = v /\ rc_ProjectionEpoch receipt = count (log_of l t) + 1 /\
         rc_RetrievalDocumentID receipt = dc_ID d
  else s' = s /\ rc_ProjectionEpoch receipt = pn_SourceEpoch value.
Proof.
  intros Hr Hfit Hval Hc t v. destruct (ValidatePublication_facts _ Hval) as (Ht & Hv & Hn & _ & _ & Hname). unfold commit_document in Hc.
  destruct (changes_state _); [|by injection Hc as <- <-]. apply bind_Ok in Hc as (d & Hd & Hc). apply bind_Ok in Hc as ([c h] & Hm & [= <- <-]).
  split; [done|]. split; [done|]. destruct (ReviseLifecycle_spec _ _ _ _ _ _ _ Hd) as (_ & _ & _ & Hdv & Heq).
  assert (Hdt : dc_TenantID d = t) by (by rewrite Heq). assert (Hdver : dc_ProcedureVersionID d = v) by (by rewrite Heq).
  exists d. rewrite (rf_epochs _ _ Hr) in *. fold t v in Hm, Hfit |- *.
  rewrite wrap_u64_id in * by (unfold_widths; unfold count in *; lia). split; [|done]. rewrite <- Hdver.
  apply refines_record; [done|done|split_and!; [done|by rewrite Hdver|done|by rewrite Hdver]|]. rewrite Hdver. by eapply hash_of_Some.
Qed.

Lemma commit_locked_refines r l value :
  refines (snapshots (projection r)) l -> count (log_of l (Lifecycle.dc_TenantID (pn_Decision value))) < MaxUint64 -> ValidatePublication value = Ok tt ->
  exists l', refines (snapshots (projection (snd (commit_locked r value)))) l' /\ extends l l'.
Proof.
  intros Hr Hfit Hval. assert (Hkeep : exists l', refines (snapshots (projection r)) l' /\ extends l l') by (exists l; split; [done|by left]).
  unfold commit_locked. destruct (receipts _ !! _); [done|]. destruct (commit_refused r value); [done|].
  destruct (commit_document _ value) as [[receipt s']|] eqn:Ec; [|done]. cbn [snd projection snapshots].
  destruct (commit_document_refines _ _ _ _ _ Hr Hfit Hval Ec) as (_ & _ & Hs). destruct (changes_state _); [|by destruct Hs as [-> _]].
  destruct Hs as (d & Hs & _). eexists. split; [done|right; by eexists _, _].
Qed.

(** Every call appends at most one entry to the log of one tenant. *)
Lemma apply_op_refines s l op :
  refines (snapshots (projection s)) l -> (forall t, count (log_of l t) < MaxUint64) ->
  exists l', refines (snapshots (projection (apply_op s op))) l' /\ extends l l'.
Proof.
  intros Hr Hfit. assert (Hkeep : exists l', refines (snapshots (projection s)) l' /\ extends l l') by (exists l; split; [done|by left]).
  destruct op as [ctx value|ctx value]; cbn [apply_op projection]; [by apply Publish_refines|].
  unfold Commit. destruct ctx; [done|]. unfold failed. destruct (ValidatePublication value) as [[]|] eqn:Ev; [|done]. cbn [is_ok negb].
  pose proof (commit_locked_refines s l value Hr (Hfit _) Ev) as Hc. by destruct (commit_locked s value).
Qed.

Lemma run_last s ops op : run s (ops ++ [op]) = apply_op (run s ops) op.
Proof. unfold run. by rewrite foldl_app. Qed.

Lemma run_later s ops later : run s (ops ++ later) = run (run s ops) later.
Proof. unfold run. by rewrite foldl_app. Qed.

(** The history appends: one log is a prefix of the other, for each tenant. *)
Definition grows (l l' : Logs) : Prop := forall t, log_of l t `prefix_of` log_of l' t.

Lemma extends_grows l l' : extends l l' -> grows l l' /\ forall t, count (log_of l' t) <= count (log_of l t) + 1.
Proof.
  intros [->|(t & x & ->)]; [split; [by intros t|intros t; lia]|]. split; intros t'.
  - rewrite log_of_append. destruct (String.eqb_spec t' t) as [->|]; [by eexists|done].
  - rewrite count_log_append. destruct (String.eqb _ _); lia.
Qed.

Lemma run_refines s l n ops :
  refines (snapshots (projection s)) l -> (forall t, count (log_of l t) <= n) -> n + count ops <= MaxUint64 ->
  exists l', refines (snapshots (projection (run s ops))) l' /\ grows l l' /\ forall t, count (log_of l' t) <= n + count ops.
Proof.
  intros Hr Hn. induction ops as [|op ops IH] using rev_ind; intros Hfit.
  - exists l. unfold count in *. simpl in *. split; [done|]. split; [by intros t|]. intros t. specialize (Hn t). lia.
  - unfold count in Hfit. rewrite length_app in Hfit. simpl in Hfit. destruct IH as (l1 & Hr1 & Hg & Hb); [unfold count; lia|].
    rewrite run_last. destruct (apply_op_refines (run s ops) l1 op Hr1) as (l2 & Hr2 & [Hg2 Hb2]%extends_grows).
    { intros t. specialize (Hb t). unfold count in *. lia. }
    exists l2. split; [done|]. split; [intros t; etransitivity; [apply Hg|apply Hg2]|]. intros t. specialize (Hb t). specialize (Hb2 t).
    unfold count in *. rewrite length_app. simpl. lia.
Qed.

(** ** Reads of the log *)
Definition pick (cand : string * Document -> bool) (epochOf : gmap string Z) (acc : Z * option Document) (x : string * Document) : Z * option Document :=
  let current := default 0 (epochOf !! fst x) in if cand x && (fst acc <? current) then (current, Some (snd x)) else acc.

Lemma pick_spec cand epochOf xs :
  let ep (x : string * Document) := default 0 (epochOf !! fst x) in
  match foldl (pick cand epochOf) (0, None) xs with
  | (e, None) => e = 0 /\ forall x, x ∈ xs -> cand x = true -> ep x <= 0
  | (e, Some d) => exists k, (k, d) ∈ xs /\ cand (k, d) = true /\ ep (k, d) = e /\ 0 < e /\ forall x, x ∈ xs -> cand x = true -> ep x <= e
  end.
Proof.
  intros ep. induction xs as [|x xs IH] using rev_ind; [by split; [|intros x Hx; inversion Hx]|]. rewrite foldl_app. cbn [foldl].
  destruct (foldl _ _ xs) as [e o]. unfold pick. cbn [fst]. fold (ep x). destruct (cand x && (e <? ep x)) eqn:Ec.
  - apply andb_true_iff in Ec as [Hc Hlt%Z.ltb_lt]. exists (fst x). rewrite <- surjective_pairing. split; [set_solver|]. split; [done|]. split; [done|].
    assert (H0e : 0 <= e) by (destruct o; [destruct IH as (? & _ & _ & _ & ? & _); lia|destruct IH; lia]). split; [lia|].
    intros y [Hy|Hy%list_elem_of_singleton]%elem_of_app Hcy; [|subst; lia].
    enough (ep y <= e) by lia. destruct o; [destruct IH as (? & _ & _ & _ & _ & IH); by apply IH|destruct IH as [-> IH]; by apply IH].
  - assert (Hx : cand x = true -> ep x <= e) by (intros Hc; rewrite Hc in Ec; cbn in Ec; lia). destruct o as [d|].
    + destruct IH as (k & Hin & Hk & He & Hpos & Hmax). exists k. split; [set_solver|]. split_and!; [done..|]. intros y [Hy|Hy%list_elem_of_singleton]%elem_of_app; subst; auto.
    + destruct IH as [-> Hmax]. split; [done|]. intros y [Hy|Hy%list_elem_of_singleton]%elem_of_app; subst; auto.
Qed.

(** The entries of the documents map are the entries of the logs. *)
Lemma iteration_entries s l iteration k d :
  refines s l -> iteration ≡ₚ map_to_list (documents s) -> (k, d) ∈ iteration ->
  exists i, log_of l (dc_TenantID d) !! i = Some (Some d) /\ default 0 (documentEpoch s !! k) = Z.of_nat i + 1.
Proof.
  intros Hr Hp Hin. rewrite Hp in Hin. apply elem_of_map_to_list, (rf_documents _ _ Hr) in Hin as (t & i & Hi & ->). exists i.
  destruct (rf_entries _ _ Hr _ _ _ Hi) as (-> & _). split; [done|]. by rewrite (rf_documentEpoch _ _ Hr _ _ _ Hi).
Qed.

Lemma log_iterated s l iteration t i d :
  refines s l -> iteration ≡ₚ map_to_list (documents s) -> log_of l t !! i = Some (Some d) ->
  (documentKey t (dc_ProcedureVersionID d) (Z.of_nat i + 1), d) ∈ iteration.
Proof. intros Hr Hp Hi. rewrite Hp. apply elem_of_map_to_list, (rf_documents _ _ Hr). by exists t, i. Qed.

Lemma published_firstn log e v i d : published_at (firstn e log) v i d <-> published_at log v i d /\ (i < e)%nat.
Proof. unfold published_at. rewrite lookup_take_Some. tauto. Qed.

(** A scan of the documents of a tenant and a version up to an epoch finds the last entry of the log, in whatever order it runs. *)
Lemma pick_log s l iteration cand t v e :
  refines s l -> iteration ≡ₚ map_to_list (documents s) -> 0 <= e ->
  (forall k d, (k, d) ∈ iteration -> cand (k, d) = true <-> dc_TenantID d = t /\ dc_ProcedureVersionID d = v /\ default 0 (documentEpoch s !! k) <= e) ->
  foldl (pick cand (documentEpoch s)) (0, None) iteration =
  match latest_in v (firstn (Z.to_nat e) (log_of l t)) with Some (e, d) => (e, Some d) | None => (0, None) end.
Proof.
  intros Hr Hp He Hcand. pose proof (pick_spec cand (documentEpoch s) iteration) as Hs. pose proof (latest_in_spec v (firstn (Z.to_nat e) (log_of l t))) as Hl.
  assert (Hfrom : forall k d, (k, d) ∈ iteration -> cand (k, d) = true ->
    exists i, published_at (firstn (Z.to_nat e) (log_of l t)) v i d /\ default 0 (documentEpoch s !! k) = Z.of_nat i + 1).
  { intros k d Hin Hc. apply (Hcand _ _ Hin) in Hc as (<- & Hv & Hle). destruct (iteration_entries _ _ _ _ _ Hr Hp Hin) as (i & Hi & Hep).
    exists i. split; [|done]. apply published_firstn. split; [by split|lia]. }
  assert (Hto : forall i d, published_at (firstn (Z.to_nat e) (log_of l t)) v i d ->
    let k := documentKey t v (Z.of_nat i + 1) in (k, d) ∈ iteration /\ cand (k, d) = true /\ default 0 (documentEpoch s !! k) = Z.of_nat i + 1).
  { intros i d [[Hi <-] Hlt]%published_firstn k. subst k. pose proof (log_iterated _ _ _ _ _ _ Hr Hp Hi) as Hin. split; [done|].
    pose proof (rf_documentEpoch _ _ Hr _ _ _ Hi) as Hep. split; [|by rewrite Hep]. apply (Hcand _ _ Hin). rewrite Hep.
    destruct (rf_entries _ _ Hr _ _ _ Hi) as (-> & _). split_and!; [done..|]. simpl. lia. }
  cbv zeta in Hs. destruct (foldl _ _ iteration) as [e1 [d1|]].
  - destruct Hs as (k & Hin & Hc & Hep & Hpos & Hmax). destruct (Hfrom _ _ Hin Hc) as (i & Hi & Hei). cbn [fst] in *.
    destruct (latest_in _ _) as [[e2 d2]|]; [|by destruct (Hl i d1)]. destruct Hl as (j & -> & Hj & Hjmax).
    destruct (Hto _ _ Hj) as (Hin2 & Hc2 & Hep2). specialize (Hmax _ Hin2 Hc2). specialize (Hjmax _ _ Hi). cbn [fst] in *.
    assert (i = j) as -> by lia. destruct Hi as [Hi _], Hj as [Hj _]. rewrite Hi in Hj. injection Hj as ->. by rewrite <- Hep, Hei.
  - destruct Hs as [-> Hnone]. destruct (latest_in _ _) as [[e2 d2]|]; [|done]. destruct Hl as (j & -> & Hj & _).
    destruct (Hto _ _ Hj) as (Hin2 & Hc2 & Hep2). specialize (Hnone _ Hin2 Hc2). cbn [fst] in *. lia.
Qed.

Lemma latestDocument_log s l iteration t v :
  refines s l -> iteration ≡ₚ map_to_list (documents s) ->
  latestDocument_in iteration s t v = match latest_in v (log_of l t) with Some (e, d) => (e, d, true) | None => (0, zero_document, false) end.
Proof.
  intros Hr Hp. unfold latestDocument_in.
  change (foldl (latest_step t v (documentEpoch s)) (0, None) iteration) with
    (foldl (pick (fun x => String.eqb (dc_TenantID (snd x)) t && String.eqb (dc_ProcedureVersionID (snd x)) v) (documentEpoch s)) (0, None) iteration).
  rewrite (pick_log s l iteration _ t v (count (log_of l t)) Hr Hp); [|unfold count; lia|].
  - unfold count. rewrite Nat2Z.id, firstn_all. pose proof (latest_in_spec v (log_of l t)) as Hl. destruct (latest_in v (log_of l t)) as [[e d]|]; [|done].
    destruct Hl as (i & -> & _). by rewrite (proj2 (Z.ltb_lt _ _)) by lia.
  - intros k d Hin. cbn [snd]. rewrite andb_true_iff, !String.eqb_eq. split; [|tauto]. intros [<- <-]. split_and!; [done..|].
    destruct (iteration_entries _ _ _ _ _ Hr Hp Hin) as (i & Hi & ->). apply lookup_lt_Some in Hi. unfold count. lia.
Qed.

Lemma scan_at t wanted e epochOf xs v :
  let acc := foldl (scan_step t wanted e epochOf) (∅, ∅) xs in
  (default 0 (fst acc !! v), snd acc !! v) =
  if bool_decide (v ∈ wanted)
  then foldl (pick (fun x => String.eqb (dc_TenantID (snd x)) t && negb (e <? default 0 (epochOf !! fst x)) && String.eqb (dc_ProcedureVersionID (snd x)) v) epochOf) (0, None) xs
  else (0, None).
Proof.
  induction xs as [|[k d] xs IH] using rev_ind; [by case_bool_decide|]. rewrite !foldl_app. cbn [foldl]. cbv zeta in *.
  destruct (foldl (scan_step t wanted e epochOf) (∅, ∅) xs) as [le la]. cbn [fst snd] in IH.
  assert (Hskip : forall acc : Z * option Document, acc = (default 0 (le !! v), la !! v) ->
    String.eqb (dc_TenantID d) t && negb (e <? default 0 (epochOf !! k)) && String.eqb (dc_ProcedureVersionID d) v && (fst acc <? default 0 (epochOf !! k)) = false ->
    pick (fun x => String.eqb (dc_TenantID (snd x)) t && negb (e <? default 0 (epochOf !! fst x)) && String.eqb (dc_ProcedureVersionID (snd x)) v) epochOf acc (k, d) = acc).
  { intros acc -> Hf. unfold pick. cbn [fst snd] in *. by rewrite Hf. }
  unfold scan_step. set (c := default 0 (epochOf !! k)) in *. destruct (String.eqb (dc_TenantID d) t) eqn:Et; cbn [negb orb andb] in *; [|].
  - destruct (e <? c) eqn:Ee; cbn [negb orb andb fst snd] in *; [case_bool_decide; [rewrite <- IH; by rewrite Hskip|done]|].
    destruct (String.eqb_spec (dc_ProcedureVersionID d) v) as [<-|Hne]; cbn [andb] in *.
    + case_bool_decide; cbn [negb orb]; [|done]. rewrite <- IH. unfold pick. cbn [fst snd]. fold c. rewrite Et, Ee, str_eqb_refl. cbn [negb andb].
      destruct (Z.leb_spec c (default 0 (le !! dc_ProcedureVersionID d))); [by rewrite (proj2 (Z.ltb_ge _ _))|].
      rewrite (proj2 (Z.ltb_lt _ _)) by done. cbn [fst snd]. by rewrite !lookup_insert_eq.
    + assert (Hst : forall acc : gmap string Z * gmap string Document, acc = (le, la) \/ acc = (<[dc_ProcedureVersionID d := c]> le, <[dc_ProcedureVersionID d := d]> la) ->
        (default 0 (fst acc !! v), snd acc !! v) = (default 0 (le !! v), la !! v)).
      { intros acc [->| ->]; cbn [fst snd]; by rewrite ?lookup_insert_ne. }
      rewrite Hst by (destruct (_ || _); tauto). rewrite IH. case_bool_decide; [|done]. symmetry. by apply Hskip.
  - cbn [fst snd]. rewrite IH. case_bool_decide; [|done]. symmetry. by apply Hskip.
Qed.

Definition request_ok (t : string) (versionIDs : list string) (e : Z) : Prop :=
  t <> "" /\ 0 < e /\ 0 < count versionIDs <= 1000 /\ "" ∉ versionIDs.

Lemma RetrievalDocuments_log r l iteration t versionIDs e :
  refines (snapshots r) l -> iteration ≡ₚ map_to_list (documents (snapshots r)) -> request_ok t versionIDs e ->
  RetrievalDocuments_in iteration r None t versionIDs e = Ok (snapshot (log_of l t) versionIDs e).
Proof.
  intros Hr Hp (Ht & He & Hc & Hids). unfold RetrievalDocuments_in.
  rewrite (proj2 (String.eqb_neq _ _) Ht), (proj2 (Z.eqb_neq _ _)), (proj2 (Z.eqb_neq (count versionIDs) _)), (proj2 (Z.ltb_ge _ _)) by lia. cbn [orb].
  assert (existsb (fun id => String.eqb id "") versionIDs = false) as ->.
  { apply not_true_iff_false. intros (id & Hid & Hz%String.eqb_eq)%existsb_exists. apply Hids. subst. by apply list_elem_of_In. }
  destruct (foldl _ _ iteration) as [le la] eqn:Ef.
  assert (Hla : forall v, la !! v = if bool_decide (v ∈ versionIDs) then snd <$> latest_in v (firstn (Z.to_nat e) (log_of l t)) else None).
  { intros v. pose proof (scan_at t (list_to_set versionIDs) e (documentEpoch (snapshots r)) iteration v) as Hs. cbv zeta in Hs. rewrite Ef in Hs. cbn [fst snd] in Hs.
    rewrite (bool_decide_ext (v ∈ list_to_set versionIDs) (v ∈ versionIDs)) in Hs by apply elem_of_list_to_set.
    case_bool_decide; [|by injection Hs]. rewrite (pick_log (snapshots r) l iteration _ t v e Hr Hp) in Hs; [|lia|].
    - by destruct (latest_in _ _) as [[? ?]|]; injection Hs.
    - intros k d Hin. cbn [fst snd]. rewrite !andb_true_iff, negb_true_iff, Z.ltb_ge, !String.eqb_eq. tauto. }
  unfold snapshot. f_equal.
  assert (Hkeys : sort_strings (List.map fst (map_to_list la)) =
    sort_strings (List.filter (fun v => match snd <$> latest_in v (firstn (Z.to_nat e) (log_of l t)) with Some _ => true | None => false end) (remove_dups versionIDs))).
  { apply sort_strings_perm_eq, NoDup_Permutation; [apply NoDup_fst_map_to_list|apply NoDup_List_filter, NoDup_remove_dups|].
    intros v. rewrite elem_of_List_filter, elem_of_remove_dups. split.
    - intros ([k d] & -> & Hin)%list_elem_of_fmap. cbn [fst]. apply elem_of_map_to_list in Hin. rewrite Hla in Hin. case_bool_decide; [|done]. by rewrite Hin.
    - intros [Hs Hv]. specialize (Hla v). rewrite bool_decide_eq_true_2 in Hla by done. destruct (snd <$> _) as [d|]; [|done].
      apply list_elem_of_fmap. exists (v, d). split; [done|by apply elem_of_map_to_list]. }
  rewrite Hkeys. apply omap_ext_on. intros v Hv. apply sort_strings_elem, elem_of_List_filter in Hv as [_ Hv]. rewrite elem_of_remove_dups in Hv.
  rewrite Hla. by rewrite bool_decide_eq_true_2 by done.
Qed.

Lemma RetrievalDocument_log r l t v e :
  refines (snapshots r) l -> has_nul v = false -> 0 < e <= MaxUint64 ->
  RetrievalDocument r None t v e =
  match log_of l t !! Z.to_nat (e - 1) with
  | Some (Some d) => if String.eqb (dc_ProcedureVersionID d) v then Ok d else Err ErrProjectionNotFound
  | _ => Err ErrProjectionNotFound
  end.
Proof.
  intros Hr Hv He. unfold RetrievalDocument. set (i := Z.to_nat (e - 1)). assert (Hi : Z.of_nat i + 1 = e) by lia.
  destruct (documents (snapshots r) !! documentKey t v e) as [d|] eqn:Ed.
  - apply (rf_documents _ _ Hr) in Ed as (t' & j & Hj & Hk). destruct (rf_entries _ _ Hr _ _ _ Hj) as (_ & Hn & _).
    apply documentKey_inj in Hk as (-> & -> & Hk); [|done|done|unfold_widths; lia|by eapply entry_epoch]. assert (i = j) as -> by lia.
    by rewrite Hj, str_eqb_refl.
  - destruct (log_of l t !! i) as [[d|]|] eqn:El; [|done..]. destruct (String.eqb_spec (dc_ProcedureVersionID d) v) as [<-|]; [|done].
    assert (Hd : documents (snapshots r) !! documentKey t (dc_ProcedureVersionID d) e = Some d).
    { apply (rf_documents _ _ Hr). exists t, i. by rewrite Hi. }
    by rewrite Hd in Ed.
Qed.

(** What the readers of the stores see is determined by the log. *)
Record observes (s : Store) (l : Logs) : Prop := mk_observes {
  ob_epoch : forall t, epoch_of (snapshots (projection s)) t = count (log_of l t);
  ob_head : forall t, previous_hash (snapshots (projection s)) t = snd (chain t (log_of l t));
  ob_history : forall t i d, log_of l t !! i = Some (Some d) ->
    epochHistory (snapshots (projection s)) !! epochKey t (Z.of_nat i + 1) = Some (snd (chain t (firstn (S i) (log_of l t))));
  ob_valid : forall t i d, log_of l t !! i = Some (Some d) -> dc_TenantID d = t /\ ValidateDocument d = Ok tt;
  ob_document : forall t v e, has_nul v = false -> 0 < e <= MaxUint64 ->
    RetrievalDocument (projection s) None t v e =
    match log_of l t !! Z.to_nat (e - 1) with
    | Some (Some d) => if String.eqb (dc_ProcedureVersionID d) v then Ok d else Err ErrProjectionNotFound
    | _ => Err ErrProjectionNotFound
    end;
  ob_documents : forall iteration t versionIDs e, iteration ≡ₚ map_to_list (documents (snapshots (projection s))) -> request_ok t versionIDs e ->
    RetrievalDocuments_in iteration (projection s) None t versionIDs e = Ok (snapshot (log_of l t) versionIDs e);
  ob_latest : forall iteration t v, iteration ≡ₚ map_to_list (documents (snapshots (projection s))) ->
    latestDocument_in iteration (snapshots (projection s)) t v =
    match latest_in v (log_of l t) with Some (e, d) => (e, d, true) | None => (0, zero_document, false) end
}.

Lemma refines_observes s l : refines (snapshots (projection s)) l -> observes s l.
Proof.
  intros Hr. split.
  - apply (rf_epochs _ _ Hr).
  - apply (rf_hashes _ _ Hr).
  - apply (rf_history _ _ Hr).
  - intros t i d Hi. destruct (rf_entries _ _ Hr _ _ _ Hi) as (? & _ & ? & _). done.
  - intros t v e. by apply RetrievalDocument_log.
  - intros iteration t versionIDs e. by apply RetrievalDocuments_log.
  - intros iteration t v. by apply latestDocument_log.
Qed.

(** A history and a later one of the same store, with their logs. *)
Lemma histories_refine ops later :
  count (ops ++ later) <= MaxUint64 ->
  exists l l', refines (snapshots (projection (run NewStore ops))) l /\ refines (snapshots (projection (run NewStore (ops ++ later)))) l' /\ grows l l' /\
    forall t, count (log_of l' t) <= count (ops ++ later).
Proof.
  intros Hlen. unfold count in *. rewrite length_app in Hlen.
  destruct (run_refines NewStore ∅ 0 ops refines_new) as (l & Hl & _ & Hb); [done|unfold count; lia|].
  destruct (run_refines (run NewStore ops) l (count ops) later Hl) as (l' & Hl' & Hg & Hb'); [intros t; apply Hb|unfold count; lia|].
  exists l, l'. rewrite run_later. split_and!; [done..|]. intros t. specialize (Hb' t). unfold count in *. rewrite length_app. lia.
Qed.

(** C19: Any sequence of calls to the two stores refines an append-only log per
    tenant: the reads, by key, by snapshot and of the latest document, in
    whatever order Go ranges over the maps, are functions of the log, the epoch
    is its length, the stored epoch hashes are its hash chain, its documents
    are sealed and of their tenant, and later calls only append to it. *)
Theorem store_refines_log (ops later : list Op) :
  count (ops ++ later) <= MaxUint64 ->
  exists l l', observes (run NewStore ops) l /\ observes (run NewStore (ops ++ later)) l' /\ grows l l'.
Proof.
  intros Hlen. destruct (histories_refine ops later Hlen) as (l & l' & Hl & Hl' & Hg & _). exists l, l'.
  split; [by apply refines_observes|]. split; [by apply refines_observes|done].
Qed.

Lemma snapshot_prefix log log' wanted e : log `prefix_of` log' -> e <= count log -> snapshot log' wanted e = snapshot log wanted e.
Proof.
  intros [rest ->] He. unfold snapshot. rewrite firstn_app. unfold count in He. replace (Z.to_nat e - length log)%nat with 0%nat by lia.
  by rewrite app_nil_r.
Qed.

(** A read of several versions at an epoch that the tenant has reached gives
    the same documents ever after, whatever is published and committed in
    between and in whatever order the maps are ranged over. *)
Theorem snapshot_repeatable (ops later : list Op) (t : string) (versionIDs : list string) (e : Z) (iteration iteration' : list (string * Document)) :
  count (ops ++ later) <= MaxUint64 -> e <= epoch_of (snapshots (projection (run NewStore ops))) t ->
  iteration ≡ₚ map_to_list (documents (snapshots (projection (run NewStore ops)))) ->
  iteration' ≡ₚ map_to_list (documents (snapshots (projection (run NewStore (ops ++ later))))) ->
  request_ok t versionIDs e ->
  RetrievalDocuments_in iteration' (projection (run NewStore (ops ++ later))) None t versionIDs e =
  RetrievalDocuments_in iteration (projection (run NewStore ops)) None t versionIDs e.
Proof.
  intros Hlen He Hi Hi' Hok. destruct (histories_refine ops later Hlen) as (l & l' & Hl & Hl' & Hg & _). rewrite (rf_epochs _ _ Hl) in He.
  rewrite (RetrievalDocuments_log _ l' iteration'), (RetrievalDocuments_log _ l iteration) by done. f_equal. by apply snapshot_prefix.
Qed.

(** ** The epoch hashes bind the history *)

(** Two different epoch records with one hash, or a record with the hash that stands for "no epoch yet". *)
Definition epoch_collision (t : string) : Prop :=
  (exists e p v h e' p' v' h' x, (e, p, v, h) <> (e', p', v', h') /\ hash_of (epoch_json t e p v h) = Some x /\ hash_of (epoch_json t e' p' v' h') = Some x) \/
  (exists e p v h, hash_of (epoch_json t e p v h) = Some zero_hash).

Definition binding (x : option Document) : option (string * string) := (fun d => (dc_ProcedureVersionID d, dc_ContentHash d)) <$> x.

Lemma chain_last t log :
  hashed t log -> snd (chain t log) = zero_hash \/ exists e p v h, e <= count log /\ hash_of (epoch_json t e p v h) = Some (snd (chain t log)).
Proof.
  induction log as [|x log IH] using rev_ind; intros Hh; [by left|]. apply hashed_snoc in Hh as [Hh Hx]. rewrite chain_snoc. cbn [chain_next snd].
  rewrite chain_count. unfold count in *. rewrite length_app. cbn [length]. destruct x as [d|].
  - right. destruct (Hx d eq_refl) as [h Hd]. rewrite Hd. eexists _, _, _, _. split; [|exact Hd]. lia.
  - destruct (IH Hh) as [->|(e & p & v & h & He & Heq)]; [by left|right]. exists e, p, v, h. split; [lia|done].
Qed.

(** A record of a later epoch has the hash of no earlier epoch, but for a collision. *)
Lemma gap_collision t log e p v h :
  hashed t log -> count log < e -> hash_of (epoch_json t e p v h) = Some (snd (chain t log)) -> epoch_collision t.
Proof.
  intros Hh He Heq. destruct (chain_last t log Hh) as [Hz|(e' & p' & v' & h' & He' & Heq')].
  - right. exists e, p, v, h. by rewrite <- Hz.
  - left. exists e, p, v, h, e', p', v', h', (snd (chain t log)). split; [|done]. intros [= -> _ _ _]. lia.
Qed.

Lemma chain_binding t log log' :
  hashed t log -> hashed t log' -> length log = length log' -> snd (chain t log) = snd (chain t log') ->
  List.map binding log = List.map binding log' \/ epoch_collision t.
Proof.
  revert log'. induction log as [|x log IH] using rev_ind; intros log' Hh Hh' Hlen Heq.
  { left. by destruct log'. }
  destruct log' as [|y log' _] using rev_ind; [rewrite length_app in Hlen; simpl in Hlen; lia|].
  rewrite !length_app in Hlen. simpl in Hlen. assert (Hl : length log = length log') by lia.
  apply hashed_snoc in Hh as [Hh Hx], Hh' as [Hh' Hy]. rewrite !chain_snoc in Heq. cbn [chain_next snd] in Heq. rewrite !chain_count in Heq.
  unfold count in Heq, Hx, Hy. rewrite <- Hl in Heq, Hy. rewrite !map_app. cbn [List.map].
  destruct x as [d|], y as [d'|].
  - destruct (Hx d eq_refl) as [h Hd], (Hy d' eq_refl) as [h' Hd']. rewrite Hd, Hd' in Heq. simpl in Heq. subst h'.
    destruct (decide ((snd (chain t log), dc_ProcedureVersionID d, dc_ContentHash d) = (snd (chain t log'), dc_ProcedureVersionID d', dc_ContentHash d'))) as [[= Hp Hv Hc]|Hne].
    + destruct (IH log' Hh Hh' Hl Hp) as [->|]; [left|by right]. unfold binding. cbn. by rewrite Hv, Hc.
    + right. left. do 9 eexists. split; [|split; [exact Hd|exact Hd']]. intros [= Hp Hv Hc]. by rewrite Hp, Hv, Hc in Hne.
  - right. destruct (Hx d eq_refl) as [h Hd]. rewrite Hd in Heq. simpl in Heq. subst h. eapply gap_collision; [exact Hh'|..|exact Hd]. unfold count. lia.
  - right. destruct (Hy d' eq_refl) as [h Hd]. rewrite Hd in Heq. simpl in Heq. rewrite <- Heq in Hd. eapply gap_collision; [exact Hh|..|exact Hd]. unfold count. lia.
  - destruct (IH log' Hh Hh' Hl Heq) as [->|]; [by left|by right].
Qed.

Definition content_hash (r : result Document) : option string := match r with Ok d => Some (dc_ContentHash d) | Err _ => None end.

Lemma binding_lookup log log' i :
  List.map binding log = List.map binding log' ->
  forall v, (match log !! i with Some (Some d) => if String.eqb (dc_ProcedureVersionID d) v then Some (dc_ContentHash d) else None | _ => None end) =
            (match log' !! i with Some (Some d) => if String.eqb (dc_ProcedureVersionID d) v then Some (dc_ContentHash d) else None | _ => None end).
Proof.
  intros Hb v. apply (f_equal (.!! i)) in Hb. change (List.map binding ?x) with (binding <$> x) in Hb. rewrite !list_lookup_fmap in Hb.
  destruct (log !! i) as [[d|]|], (log' !! i) as [[d'|]|]; try done. simpl in Hb. by injection Hb as -> ->.
Qed.


(** ** A projection is published once *)
Lemma publish_family_manifests c f b c' : publish_family c f = Some (b, c') -> manifests c' = manifests c.
Proof. unfold publish_family. destruct (families c !! _); [destruct (String.eqb _ _); [|done]|]; by intros [= <- <-]. Qed.

Lemma publish_version_manifests c value b c' : publish_version c value = Some (b, c') -> manifests c' = manifests c.
Proof. unfold publish_version. destruct (versions c !! _); [destruct (_ || _); [done|]|]; by intros [= <- <-]. Qed.

(** Either the manifests stay, or the manifest of the projection is new and is added. *)
Lemma Publish_manifests r ctx value :
  let m := pj_Manifest value in
  let r' := snd (Publish r ctx value) in
  (manifests (catalog r') = manifests (catalog r) /\
   (is_ok (fst (Publish r ctx value)) = true -> exists m', manifests (catalog r) !! mn_ID m = Some m' /\ mn_ContentHash m' = mn_ContentHash m)) \/
  (manifests (catalog r) !! mn_ID m = None /\ manifests (catalog r') = <[mn_ID m := m]> (manifests (catalog r))).
Proof.
  intros m r'. subst m r'. unfold Publish. destruct ctx; [by left|]. destruct (Validate value); [|by left]. destruct (manifests _ !! _) as [m'|] eqn:Em.
  { left. destruct (String.eqb_spec (mn_ContentHash m') (mn_ContentHash (pj_Manifest value))); split; try done. intros _. by exists m'. }
  destruct (String.eqb _ "abstained"); [by right|]. unfold publish_procedure.
  destruct (publish_family _ _) as [[nf c]|] eqn:Ef; [|by left]. apply publish_family_manifests in Ef.
  destruct (publish_version c value) as [[nv c']|] eqn:Ev; [|left; split; [exact Ef|done]]. apply publish_version_manifests in Ev.
  destruct (publish_links c' value) as [ea c''] eqn:El. unfold publish_links in El. injection El as _ <-. right. split; [done|].
  destruct (ReviseEvidence _ _ _ _); [|cbn; by rewrite Ev, Ef]. destruct (publish_document _ _ _) as [[|] ?]; cbn; by rewrite Ev, Ef.
Qed.

Lemma apply_op_manifests s op id m :
  manifests (catalog (projection s)) !! id = Some m -> manifests (catalog (projection (apply_op s op))) !! id = Some m.
Proof.
  intros Hm. destruct op as [ctx value|ctx value]; cbn [apply_op projection].
  - destruct (Publish_manifests (projection s) ctx value) as [[-> _]|[Hn ->]]; [done|]. rewrite lookup_insert_ne; [done|]. intros <-. by rewrite Hn in Hm.
  - unfold Commit. destruct ctx; [done|]. destruct (failed _); [done|]. unfold commit_locked. destruct (receipts _ !! _); [done|].
    destruct (commit_refused _ _); [done|]. by destruct (commit_document _ _) as [[? ?]|].
Qed.

Lemma run_manifests s ops id m : manifests (catalog (projection s)) !! id = Some m -> manifests (catalog (projection (run s ops))) !! id = Some m.
Proof. revert s. induction ops as [|op ops IH]; intros s Hm; [done|]. by apply IH, apply_op_manifests. Qed.

(** Once a projection is published, publishing it again, after whatever other
    calls, is reported as a duplicate and changes nothing: no second document,
    no new epoch. *)
Theorem Publish_once (s : Store) (value : Projection) (later : list Op) :
  is_ok (fst (Publish (projection s) None value)) = true ->
  let s' := run (apply_op s (OpPublish None value)) later in
  Publish (projection s') None value = (Ok (receipt_of value DispositionDuplicate false false false 0 ""), projection s').
Proof.
  intros Hok s'. assert (Hm : exists m', manifests (catalog (projection s')) !! mn_ID (pj_Manifest value) = Some m' /\ mn_ContentHash m' = mn_ContentHash (pj_Manifest value)).
  { destruct (Publish_manifests (projection s) None value) as [[Hsame Hex]|[Hn Hins]].
    - destruct (Hex Hok) as (m' & Hm & Hc). exists m'. split; [|done]. apply run_manifests. cbn [apply_op projection]. by rewrite Hsame.
    - exists (pj_Manifest value). split; [|done]. apply run_manifests. cbn [apply_op projection]. by rewrite Hins, lookup_insert_eq. }
  unfold Publish in *. destruct (Validate value); [|done]. destruct Hm as (m' & -> & ->). by rewrite str_eqb_refl.
Qed.

(** ** Decisions over stale documents *)
Definition latest_epoch (s : Store) (t v : string) : Z := fst (fst (latestDocument (snapshots (projection s)) t v)).

Lemma latest_epoch_log s l t v :
  refines (snapshots (projection s)) l -> latest_epoch s t v = match latest_in v (log_of l t) with Some (e, _) => e | None => 0 end.
Proof.
  intros Hr. unfold latest_epoch, latestDocument. rewrite (latestDocument_log _ l) by done. by destruct (latest_in v (log_of l t)) as [[? ?]|].
Qed.

Lemma latest_in_prefix v log log' :
  log `prefix_of` log' -> match latest_in v log with Some (e, _) => e | None => 0 end <= match latest_in v log' with Some (e, _) => e | None => 0 end.
Proof.
  intros [rest ->]. pose proof (latest_in_spec v log) as Hl. pose proof (latest_in_spec v (log ++ rest)) as Hl'. destruct (latest_in v log) as [[e d]|].
  - destruct Hl as (i & -> & [Hi Hd] & _). assert (Hi' : published_at (log ++ rest) v i d) by (split; [by apply lookup_app_l_Some|done]).
    destruct (latest_in v (log ++ rest)) as [[e' d']|]; [|by destruct (Hl' i d)]. destruct Hl' as (j & -> & _ & Hmax). specialize (Hmax _ _ Hi'). lia.
  - destruct (latest_in v (log ++ rest)) as [[e' d']|]; [|done]. destruct Hl' as (j & -> & _). lia.
Qed.

Lemma latest_in_count v log : match latest_in v log with Some (e, _) => e | None => 0 end <= count log.
Proof.
  pose proof (latest_in_spec v log) as Hl. unfold count. destruct (latest_in v log) as [[e d]|]; [|lia]. destruct Hl as (i & -> & [Hi _] & _).
  apply lookup_lt_Some in Hi. lia.
Qed.

(** The guards of [Commit], for a decision that has no receipt. *)
Lemma commit_stale s value :
  ValidatePublication value = Ok tt -> receipts (lifecycle s) !! Lifecycle.dc_ID (pn_Decision value) = None ->
  latest_epoch s (Lifecycle.dc_TenantID (pn_Decision value)) (Lifecycle.dc_ProcedureVersionID (pn_Decision value)) <> pn_SourceEpoch value ->
  Commit (Some s) None value = (Err ErrLifecycleConflict, Some s).
Proof.
  intros Hv Hr Hl. unfold Commit, commit_locked. rewrite Hv, Hr. cbn [failed is_ok negb]. unfold commit_refused, latest_epoch in *.
  destruct (latestDocument _ _ _) as [[e d] found]. cbn [fst] in Hl. rewrite (proj2 (Z.eqb_neq _ _) Hl). cbn [negb]. rewrite orb_true_r. cbn [orb].
  by destruct (match lr_manifests _ !! _ with Some _ => _ | None => _ end).
Qed.

Lemma Commit_state s value :
  is_ok (fst (Commit (Some s) None value)) = true -> exists receipt, Commit (Some s) None value = (Ok receipt, Some (apply_op s (OpCommit None value))).
Proof.
  cbn [apply_op]. unfold Commit. destruct (failed _); [done|]. destruct (commit_locked s value) as [[receipt|] s']; [|done]. intros _. by exists receipt.
Qed.

(** What holds of the store when a commit files a decision. *)
Lemma Commit_published s value receipt s' :
  Commit (Some s) None value = (Ok receipt, Some s') -> rc_Disposition receipt = DispositionPublished ->
  receipts (lifecycle s) !! Lifecycle.dc_ID (pn_Decision value) <> None \/
  (ValidatePublication value = Ok tt /\ commit_refused s value = None /\
   exists sn, commit_document (snapshots (projection s)) value = Ok (receipt, sn) /\
     s' = mk_Store (mk_ProjectionRepository (catalog (projection s)) sn) (record_decision (lifecycle s) value receipt)).
Proof.
  unfold Commit, commit_locked, failed. destruct (ValidatePublication value) as [[]|]; [|done]. cbn [is_ok negb].
  destruct (receipts _ !! _); [by left|]. destruct (commit_refused s value); [done|].
  destruct (commit_document _ value) as [[rc sn]|]; [|done]. intros [= <- <-] _. right. split; [done|]. split; [done|]. by exists sn.
Qed.

Lemma commit_refused_None s value :
  commit_refused s value = None ->
  latest_epoch s (Lifecycle.dc_TenantID (pn_Decision value)) (Lifecycle.dc_ProcedureVersionID (pn_Decision value)) = pn_SourceEpoch value /\
  forall head, lr_versions (lifecycle s) !! lifecycleVersionKey (Lifecycle.dc_TenantID (pn_Decision value)) (Lifecycle.dc_ProcedureVersionID (pn_Decision value))
      (lm_ID (pn_Manifest value)) = Some head -> vh_State head = dc_PriorState (pn_Decision value) /\ vh_ProjectionEpoch head = pn_SourceEpoch value.
Proof.
  unfold commit_refused, latest_epoch. destruct (latestDocument _ _ _) as [[e d] found]. cbn [fst].
  destruct (match lr_manifests _ !! _ with Some _ => _ | None => _ end); [done|]. destruct found; [|done]. cbn [negb orb].
  destruct (Z.eqb_spec e (pn_SourceEpoch value)) as [->|]; [|done]. cbn [negb orb]. destruct (String.eqb _ _); [|done]. cbn [negb].
  destruct (lr_versions _ !! _) as [head|]; [|intros _; by split].
  destruct (String.eqb_spec (vh_State head) (dc_PriorState (pn_Decision value))) as [Hst|]; [|done].
  destruct (Z.eqb_spec (vh_ProjectionEpoch head) (pn_SourceEpoch value)) as [Hep|]; [|done]. intros _. split; [done|]. by intros ? [= <-].
Qed.

(** No lost update: once a decision that changes the state of a version is
    committed over the document of some epoch, every other decision that was
    made over a document of that epoch or of an earlier one is refused, after
    whatever calls in between, and leaves the store as it is. *)
Theorem stale_decision_refused (ops later : list Op) (value value' : Publication) (receipt : Receipt) (s' : Store) :
  let s := run NewStore ops in
  let s'' := run s' later in
  count (ops ++ OpCommit None value :: later) <= MaxUint64 ->
  receipts (lifecycle s) !! Lifecycle.dc_ID (pn_Decision value) = None -> Commit (Some s) None value = (Ok receipt, Some s') ->
  changes_state (pn_Decision value) = true ->
  Lifecycle.dc_TenantID (pn_Decision value') = Lifecycle.dc_TenantID (pn_Decision value) ->
  Lifecycle.dc_ProcedureVersionID (pn_Decision value') = Lifecycle.dc_ProcedureVersionID (pn_Decision value) ->
  pn_SourceEpoch value' <= pn_SourceEpoch value ->
  ValidatePublication value' = Ok tt -> receipts (lifecycle s'') !! Lifecycle.dc_ID (pn_Decision value') = None ->
  Commit (Some s'') None value' = (Err ErrLifecycleConflict, Some s'').
Proof.
  intros s s'' Hlen Hnew Hc Hch Ht Hv Hse Hval' Hr'. unfold count in Hlen. rewrite length_app in Hlen. simpl in Hlen.
  destruct (run_refines NewStore ∅ 0 ops refines_new) as (l & Hl & _ & Hb); [done|unfold count; lia|]. fold s in Hl.
  assert (Hfit : forall u, count (log_of l u) < MaxUint64) by (intros u; specialize (Hb u); unfold count in *; lia).
  apply commit_stale; [done|done|]. rewrite Ht, Hv.
  destruct (Commit_published _ _ _ _ Hc) as [Hd|(Hval & Hg & sn & Hdoc & Hs')]; [|by rewrite Hnew in Hd|].
  { unfold Commit, commit_locked, failed in Hc. destruct (ValidatePublication value) as [[]|] eqn:Ev; [|done]. rewrite Hnew in Hc. cbn [is_ok negb] in Hc.
    destruct (commit_refused s value); [done|]. destruct (commit_document _ value) as [[rc sn]|] eqn:Ed; [|done]. injection Hc as -> _.
    by destruct (commit_document_refines _ _ _ _ _ Hl (Hfit _) Ev Ed) as (? & _). }
  destruct (commit_document_refines _ _ _ _ _ Hl (Hfit _) Hval Hdoc) as (_ & _ & Hs). rewrite Hch in Hs. destruct Hs as (d & Hrf & Hdv & _ & _).
  set (t := Lifecycle.dc_TenantID (pn_Decision value)) in *. set (v := Lifecycle.dc_ProcedureVersionID (pn_Decision value)) in *.
  destruct (run_refines s' (log_append l t (Some d)) (count ops + 1) later) as (l2 & Hl2 & Hg2 & _).
  { by rewrite Hs'. } { intros u. rewrite count_log_append. specialize (Hb u). destruct (String.eqb u t); lia. } { unfold count in *. lia. }
  fold s'' in Hl2. rewrite (latest_epoch_log _ _ _ _ Hl2). destruct (commit_refused_None _ _ Hg) as [Hse1 _]. fold t v in Hse1.
  rewrite (latest_epoch_log _ _ _ _ Hl) in Hse1. pose proof (latest_in_count v (log_of l t)) as Hcnt.
  specialize (Hg2 t). apply (latest_in_prefix v) in Hg2. rewrite log_of_append, str_eqb_refl in Hg2.
  unfold latest_in in Hg2 at 1. rewrite foldl_app in Hg2. cbn [foldl latest_next snd] in Hg2. rewrite Hdv, str_eqb_refl, latest_fold_count in Hg2. cbn [fst] in Hg2. lia.
Qed.

(** ** Stranded heads *)
Definition head_at (s : Store) (t v m : string) : option VersionHead := lr_versions (lifecycle s) !! lifecycleVersionKey t v m.

Definition stranded (s : Store) (t v m : string) (head : VersionHead) : Prop :=
  head_at s t v m = Some head /\ vh_ProjectionEpoch head < latest_epoch s t v.

Lemma stranded_step s l op t v m head :
  refines (snapshots (projection s)) l -> (forall u, count (log_of l u) < MaxUint64) -> has_nul v = false -> has_nul m = false ->
  stranded s t v m head -> stranded (apply_op s op) t v m head.
Proof.
  intros Hr Hfit Hv Hm [Hh Hlt]. destruct (apply_op_refines s l op Hr Hfit) as (l' & Hr' & [Hg _]%extends_grows).
  split; [|rewrite (latest_epoch_log _ _ _ _ Hr) in Hlt; rewrite (latest_epoch_log _ _ _ _ Hr'); pose proof (latest_in_prefix v _ _ (Hg t)); lia].
  destruct op as [ctx value|ctx value]; [done|]. cbn [apply_op]. unfold Commit. destruct ctx; [done|].
  unfold failed. destruct (ValidatePublication value) as [[]|] eqn:Ev; [|done]. cbn [is_ok negb]. unfold commit_locked.
  destruct (receipts _ !! _); [done|]. destruct (commit_refused s value) eqn:Eg; [done|]. destruct (commit_document _ value) as [[rc sn]|]; [|done].
  cbn [snd default from_option id head_at lifecycle record_decision lr_versions]. unfold head_at. cbn [lifecycle record_decision lr_versions].
  destruct (ValidatePublication_facts _ Ev) as (_ & _ & Hnv & Hnm & _). destruct (commit_refused_None _ _ Eg) as [Hle Hhead].
  rewrite lookup_insert_ne; [done|]. intros Hk. apply version_key_inj in Hk as (Ht & Hv' & Hm'); [|done..]. rewrite Ht, Hv', Hm' in *.
  destruct (Hhead head Hh) as [_ He]. lia.
Qed.

(** C21: A head that is behind its version's latest document never moves again:
    whatever is published and committed afterwards, the head stays and every
    new decision about that version under that policy is refused. *)
Theorem stranded_head_is_final (ops later : list Op) (t v m : string) (head : VersionHead) (value : Publication) :
  let s := run NewStore ops in
  let s' := run s later in
  count (ops ++ later) <= MaxUint64 -> has_nul v = false -> has_nul m = false -> stranded s t v m head ->
  ValidatePublication value = Ok tt -> Lifecycle.dc_TenantID (pn_Decision value) = t -> Lifecycle.dc_ProcedureVersionID (pn_Decision value) = v ->
  lm_ID (pn_Manifest value) = m -> receipts (lifecycle s') !! Lifecycle.dc_ID (pn_Decision value) = None ->
  head_at s' t v m = Some head /\ exists e, Commit (Some s') None value = (Err e, Some s').
Proof.
  intros s s' Hlen Hv Hm Hst Hval Ht Hver Hman Hrec.
  assert (Hst' : stranded s' t v m head).
  { subst s' s. clear -Hlen Hv Hm Hst. revert Hlen. induction later as [|op later IH] using rev_ind; intros Hlen; [done|].
    unfold count in Hlen. rewrite !length_app in Hlen. simpl in Hlen. rewrite run_last.
    destruct (run_refines NewStore ∅ 0 (ops ++ later) refines_new) as (l & Hl & _ & Hb); [done|unfold count; rewrite length_app; lia|].
    rewrite run_later in Hl. apply (stranded_step _ l); [done| |done|done|apply IH; unfold count; rewrite length_app; lia].
    intros u. specialize (Hb u). unfold count in *. rewrite length_app in Hb. lia. }
  split; [apply Hst'|]. unfold Commit, commit_locked. rewrite Hval, Hrec. cbn [failed is_ok negb].
  destruct (commit_refused s' value) as [e|] eqn:Eg; [by exists e|]. destruct (commit_refused_None _ _ Eg) as [Hle Hhead].
  destruct Hst' as [Hh Hlt]. rewrite Ht, Hver, Hman in *. destruct (Hhead head Hh). lia.
Qed.
End store_facts.

(** ** A store with three versions of one procedure *)
#[local] Existing Instance copy_nfc.
#[local] Existing Instance strict_jcs.
#[local] Existing Instance checksum_digest.

Definition scoped_request (archive environment : string) (createdAt : gotime) : BuildRequest :=
  let r := build_request_of archive createdAt demo_result in
  mk_BuildRequest (pb_TenantID r) (pb_OutcomeID r) (pb_IntentHash r) (pb_EffectSignatureHash r) (demo_hex environment) (pb_ArchiveHash r)
    (pb_CanonicalEventStart r) (pb_CanonicalEventEnd r) (pb_CreatedAt r) (pb_Synthesis r) (pb_Serving r).

Definition first_run : Projection := Eval vm_compute in projection_or (Build (scoped_request "a1" "env" (mk_time 5 0))).
Definition second_run : Projection := Eval vm_compute in projection_or (Build (scoped_request "a2" "env" (mk_time 6 0))).
Definition other_version : Projection := Eval vm_compute in projection_or (Build (scoped_request "a3" "env2" (mk_time 7 0))).
Definition third_version : Projection := Eval vm_compute in projection_or (Build (scoped_request "a4" "env3" (mk_time 8 0))).

Definition policy_or (r : result PolicyManifest) : PolicyManifest :=
  match r with Ok m => m | Err _ => mk_PolicyManifest "" (mk_PolicySpec "" 0 0 0 0 0 0 0 0 0 0) "" "" "" end.

Definition policy (version : string) : PolicyManifest := policy_or (NewPolicyManifest (mk_PolicySpec version 1 1 0 1 0 0 0 2 3600 1)).
Definition policy_a : PolicyManifest := Eval vm_compute in policy "a".
Definition policy_b : PolicyManifest := Eval vm_compute in policy "b".

Definition decision_or (r : result Decision) (d : Decision) : Decision := match r with Ok d => d | Err _ => d end.

(** A decision over the document of a version at an epoch. *)
Definition decide_over (s : Store) (versionID : string) (epoch : Z) (m : PolicyManifest) (next reason : string) (at_ : Z) : Publication :=
  let document := match RetrievalDocument (projection s) None "tenant" versionID epoch with Ok d => d | Err _ => zero_document end in
  let draft := mk_Decision "lifecycle-decision.v1" "" "tenant" (dc_ProcedureID document) versionID (lm_ID m) (dc_Lifecycle document) next 3 0 0 0 0 0 [reason]
    (mk_time at_ 0) (mk_time at_ 0) "" "" in
  mk_Publication m (decision_or (sealDecision draft) draft) document epoch.

Definition v1 : string := Eval vm_compute in vn_ID (pj_Version first_run).
Definition v2 : string := Eval vm_compute in vn_ID (pj_Version other_version).
Definition v3 : string := Eval vm_compute in vn_ID (pj_Version third_version).

Definition published_one : list Op := [OpPublish None first_run].
Definition to_trial : Publication := Eval vm_compute in decide_over (run NewStore published_one) v1 1 policy_a "trial" "state_maintained" 10.
Definition to_quarantine : Publication := Eval vm_compute in decide_over (run NewStore published_one) v1 1 policy_a "quarantined" "state_maintained" 11.
Definition in_trial : list Op := published_one ++ [OpCommit None to_trial].

(** The second run of the same version resets its document to a candidate under epoch 3, behind the back of the head. *)
Definition again_published : list Op := in_trial ++ [OpPublish None second_run].
Definition to_trial_again : Publication := Eval vm_compute in decide_over (run NewStore again_published) v1 3 policy_a "trial" "state_maintained" 12.

Definition head_or (o : option VersionHead) : VersionHead := default (mk_VersionHead "" "" "" "" "" "" 0 zero_time) o.
Definition trial_head : VersionHead := Eval vm_compute in head_or (head_at (run NewStore in_trial) "tenant" v1 (lm_ID policy_a)).

Example second_run_same_version : vn_ID (pj_Version second_run) = v1 /\ v2 <> v1 /\ fm_ID (pj_Family other_version) = fm_ID (pj_Family first_run).
Proof. split; [vm_compute; reflexivity|]. split; [vm_compute; discriminate|vm_compute; reflexivity]. Qed.

Lemma store_refines_log_witness : exists l l', observes (run NewStore in_trial) l /\ observes (run NewStore again_published) l' /\ grows l l'.
Proof. unfold again_published. apply (store_refines_log in_trial [OpPublish None second_run]). vm_compute. discriminate. Defined.

Lemma snapshot_repeatable_witness :
  RetrievalDocuments (projection (run NewStore again_published)) None "tenant" [v1] 1 = RetrievalDocuments (projection (run NewStore published_one)) None "tenant" [v1] 1 /\
  RetrievalDocuments (projection (run NewStore again_published)) None "tenant" [v1] 1 <> RetrievalDocuments (projection (run NewStore again_published)) None "tenant" [v1] 3.
Proof.
  split; [|vm_compute; discriminate].
  apply (snapshot_repeatable published_one [OpCommit None to_trial; OpPublish None second_run] "tenant" [v1] 1); [vm_compute; discriminate|vm_compute; discriminate|reflexivity|reflexivity|].
  split; [discriminate|]. split; [lia|]. split; [vm_compute; split; [reflexivity|discriminate]|]. rewrite list_elem_of_singleton. discriminate.
Defined.

Lemma Publish_once_witness :
  let s' := run (apply_op NewStore (OpPublish None first_run)) [OpCommit None to_trial; OpPublish None second_run] in
  Publish (projection s') None first_run = (Ok (receipt_of first_run DispositionDuplicate false false false 0 ""), projection s').
Proof.
  assert (Hok : is_ok (fst (Publish (projection NewStore) None first_run)) = true) by (vm_compute; reflexivity).
  exact (Publish_once NewStore first_run [OpCommit None to_trial; OpPublish None second_run] Hok).
Defined.


Lemma stale_decision_refused_witness :
  let s'' := run (run NewStore in_trial) [OpPublish None second_run] in
  Commit (Some s'') None to_quarantine = (Err ErrLifecycleConflict, Some s'').
Proof.
  destruct (Commit_state (run NewStore published_one) to_trial) as [receipt Hc]; [vm_compute; reflexivity|]. rewrite <- run_last in Hc. fold in_trial in Hc.
  refine (stale_decision_refused published_one [OpPublish None second_run] to_trial to_quarantine receipt (run NewStore in_trial) _ _ Hc _ _ _ _ _ _).
  - vm_compute. discriminate.
  - vm_compute. reflexivity.
  - vm_compute. reflexivity.
  - reflexivity.
  - reflexivity.
  - vm_compute. discriminate.
  - vm_compute. reflexivity.
  - vm_compute. reflexivity.
Defined.

Lemma stranded_head_is_final_witness :
  let s' := run (run NewStore again_published) [OpPublish None other_version] in
  head_at s' "tenant" v1 (lm_ID policy_a) = Some trial_head /\ exists e, Commit (Some s') None to_trial_again = (Err e, Some s').
Proof.
  refine (stranded_head_is_final again_published [OpPublish None other_version] "tenant" v1 (lm_ID policy_a) trial_head to_trial_again _ _ _ _ _ _ _ _ _).
  - vm_compute. discriminate.
  - vm_compute. reflexivity.
  - vm_compute. reflexivity.
  - split; vm_compute; reflexivity.
  - vm_compute. reflexivity.
  - reflexivity.
  - reflexivity.
  - reflexivity.
  - vm_compute. reflexivity.
Defined.

(** Version 1 is active under policy a; version 2 is the champion under policy b.  Retiring version 1 under policy b removes the champion of policy b. *)
Definition three_published : list Op := [OpPublish None first_run; OpPublish None other_version; OpPublish None third_version].
Definition activate_1 : Publication := Eval vm_compute in decide_over (run NewStore three_published) v1 1 policy_a "active" "state_maintained" 10.
Definition activate_2 : Publication := Eval vm_compute in decide_over (run NewStore three_published) v2 2 policy_b "active" "state_maintained" 11.
Definition two_active : list Op := three_published ++ [OpCommit None activate_1; OpCommit None activate_2].
Definition retire_1 : Publication := Eval vm_compute in decide_over (run NewStore two_active) v1 4 policy_b "retired" "state_maintained" 12.
Definition activate_3 : Publication := Eval vm_compute in decide_over (run NewStore three_published) v3 3 policy_b "active" "state_maintained" 13.

Definition champion_version (s : Store) (m : PolicyManifest) : option string :=
  match Champion (Some s) None "tenant" (fm_ID (pj_Family first_run)) (lm_ID m) with Ok c => Some (ch_ProcedureVersionID c) | Err _ => None end.

(** Two versions of a family are active under one policy: the store removed a champion that was another version's. *)
Example champion_removed_by_other_version :
  let before := run NewStore two_active in
  let after := run before [OpCommit None retire_1; OpCommit None activate_3] in
  champion_version before policy_b = Some v2 /\ champion_version (run before [OpCommit None retire_1]) policy_b = None /\
  champion_version after policy_b = Some v3 /\ vh_State <$> head_at after "tenant" v2 (lm_ID policy_b) = Some "active" /\
  vh_State <$> head_at after "tenant" v3 (lm_ID policy_b) = Some "active".
Proof. vm_compute. split_and!; reflexivity. Qed.

(** A document of the former schema passes [Validate] and not [ReviseEvidence]: the publication fails and its retry is reported as a duplicate, with no document stored. *)
Definition legacy_document (d : Document) : Document :=
  let d := mk_Document legacyDocumentSchemaVersion (dc_TenantID d) (dc_ProcedureVersionID d) (dc_ProcedureID d) (dc_TaskText d) (dc_IntentHash d)
    (dc_EffectSignatureHash d) (dc_Tools d) (dc_Resources d) (dc_Effects d) (dc_EnvironmentScopeHash d) (dc_Harness d) (dc_Environment d)
    (dc_Lifecycle d) (dc_ObservedEndToEnd d) (dc_VerificationStrength d) (dc_VerifiedSuccessCount d) (dc_UnsafeOutcomeCount d)
    (dc_ValidatedAt d) (dc_ValidationPolicyVersion d) (dc_LearnedWithRecallConsent d) (dc_ResidencyRegion d) (dc_RiskClass d) None (dc_PrefixHashes d) "" "" "" in
  match seal_document d with Ok d => d | Err _ => d end.

Definition legacy_run : Projection := Eval vm_compute in
  mk_Projection (pj_TenantID first_run) (pj_Family first_run) (pj_Version first_run) (pj_Steps first_run) (pj_Edges first_run) (pj_NegativePaths first_run)
    (pj_GoalPredicates first_run) (pj_Interface first_run) (pj_Manifest first_run) (pj_CreatedAt first_run) (pj_CanonicalProjectionJSON first_run)
    (legacy_document (pj_RetrievalDocument first_run)).

Example failed_publication_reported_duplicate :
  let '(first, r) := Publish NewProjectionRepository None legacy_run in
  first = Err ErrInvalidDocument /\
  fst (Publish r None legacy_run) = Ok (receipt_of legacy_run DispositionDuplicate false false false 0 "") /\ size (documents (snapshots r)) = 0%nat.
Proof. vm_compute. split_and!; reflexivity. Qed.
