(* ===== verification/Search.v ===== *)
(** * The in-memory retrieval channels (internal/store/memory/retrieval.go)

    A channel of the in-memory index reads the documents that the projection
    store shows at an epoch, scores each against the query in the way of its
    name, and returns the best.  The code ranges over maps three times, in an
    order that Go leaves open; the model takes the orders as an argument.

    [Search_exact] shows that for every history of the stores and every order
    the answer is the list that a reference reads off the log of the tenant, and
    that the collector of candidates accepts it. *)

From Stdlib Require Import ZArith String Ascii List Bool Lia.
From stdpp Require Import base gmap strings list sorting.
From S2P Require Import Prelude GoStrings GoTime Canonical Sanitize RetrievalQuery RetrievalDocument.
From S2P Require Import RetrievalChannels Projection ProjectionSound PublicationStore PublicationSound.

Open Scope Z_scope.
Open Scope go_scope.

(** ** Runes *)

(** The tables of package unicode for runes above ASCII; a rune is its UTF-8 encoding. *)
Class Unicode := mk_Unicode {
  table_ToLower : list ascii -> list ascii;
  table_IsLetter : list ascii -> bool;
  table_IsNumber : list ascii -> bool
}.

(** [[]rune(s)]: a byte that begins no rune reads as U+FFFD. *)
Fixpoint runes (l : list ascii) : list (list ascii) :=
  match l with
  | [] => []
  | a :: l1 =>
      if byte_of a <? 128 then [a] :: runes l1
      else match l1 with
           | [] => [replacement]
           | b :: l2 =>
               if utf8_2 a b then [a; b] :: runes l2
               else match l2 with
                    | [] => replacement :: runes l1
                    | c :: l3 =>
                        if utf8_3 a b c then [a; b; c] :: runes l3
                        else match l3 with
                             | [] => replacement :: runes l1
                             | d :: l4 => if utf8_4 a b c d then [a; b; c; d] :: runes l4 else replacement :: runes l1
                             end
                    end
           end
  end.

(** A field of the query or of the document. *)
Definition is_upper (a : ascii) : bool := between 65 90 a.
Definition is_lower (a : ascii) : bool := between 97 122 a.
Definition is_decimal (a : ascii) : bool := between 48 57 a.

Section channel.
Context `{Unicode}.

(** [unicode.ToLower], [unicode.IsLetter], [unicode.IsNumber] *)
Definition ToLower_rune (r : list ascii) : list ascii :=
  match r with [a] => [if is_upper a then ascii_of_nat (nat_of_ascii a + 32) else a] | _ => table_ToLower r end.

Definition IsLetter (r : list ascii) : bool := match r with [a] => is_upper a || is_lower a | _ => table_IsLetter r end.
Definition IsNumber (r : list ascii) : bool := match r with [a] => is_decimal a | _ => table_IsNumber r end.

(** The runes of [strings.ToLower(value)]. *)
Definition lower_runes (value : string) : list (list ascii) := List.map ToLower_rune (runes (list_ascii_of_string value)).

Definition string_of_runes (rs : list (list ascii)) : string := string_of_list_ascii (concat rs).

(** [strings.FieldsFunc]; [field] is the open field, as runes. *)
Fixpoint fields_func (separator : list ascii -> bool) (field : list (list ascii)) (rs : list (list ascii)) : list string :=
  match rs with
  | [] => if count field =? 0 then [] else [string_of_runes field]
  | r :: rs =>
      if separator r then (if count field =? 0 then [] else [string_of_runes field]) ++ fields_func separator [] rs
      else fields_func separator (field ++ [r]) rs
  end.

Definition words (value : string) : gset string :=
  foldl (fun result field => if String.eqb field "" then result else {[ field ]} ∪ result) ∅
    (fields_func (fun r => negb (IsLetter r) && negb (IsNumber r)) [] (lower_runes value)).

(** "[for index := 0; index+3 <= len(runes); index++]" *)
Fixpoint windows (rs : list (list ascii)) : list string :=
  match rs with
  | a :: ((b :: c :: _) as rest) => string_of_runes [a; b; c] :: windows rest
  | _ => []
  end.

Definition trigrams (value : string) : gset string :=
  let rs := lower_runes value in
  if count rs <? 3 then (if 0 <? count rs then {[ string_of_runes rs ]} else ∅)
  else foldl (fun result window => {[ window ]} ∪ result) ∅ (windows rs).

Definition setSimilarity (left right : gset string) : Z :=
  if (Z.of_nat (size left) =? 0) || (Z.of_nat (size right) =? 0) then 0
  else
    let intersection := count (List.filter (fun value => bool_decide (value ∈ right)) (elements left)) in
    if intersection =? 0 then 0
    else Z.quot (intersection * 1000000) (Z.of_nat (size left) + Z.of_nat (size right) - intersection).

(** ** Scores *)

(** A missing key reads as the empty string. *)
Definition facet_matched (documented : gmap string string) (asked : list (string * string)) : Z :=
  count (List.filter (fun kv => String.eqb (default "" (documented !! fst kv)) (snd kv)) asked).

Definition facetScore (query : Query) (document : Document) : Z :=
  let harness := String.eqb (hn_Name (qu_Harness query)) (hn_Name (dc_Harness document)) &&
    (String.eqb (hn_Version (dc_Harness document)) "" || String.eqb (hn_Version (qu_Harness query)) (hn_Version (dc_Harness document))) in
  let docTools := foldl (fun m tool => <[td_Name tool := td_ContractVersionID tool]> m) (∅ : gmap string string) (dc_Tools document) in
  let docEnvironment := foldl (fun m fact => <[fc_Name fact := fc_Value fact]> m) (∅ : gmap string string) (dc_Environment document) in
  let possible := 1 + count (qu_Tools query) + count (qu_Environment query) in
  let matched := (if harness then 1 else 0) +
    facet_matched docTools (List.map (fun tool => (tl_Name tool, tl_ContractVersionID tool)) (qu_Tools query)) +
    facet_matched docEnvironment (List.map (fun fact => (fc_Name fact, fc_Value fact)) (qu_Environment query)) in
  if (possible =? 0) || (matched =? 0) then 0 else Z.quot (matched * 1000000) possible.

Definition graphScore (query : Query) (document : Document) : Z :=
  let docTools : gset string := list_to_set (List.map (fun tool => td_Name tool ++ nul ++ td_ContractVersionID tool)%string (dc_Tools document)) in
  let docResources : gset string := list_to_set (List.map (fun resource => rr_Type resource ++ nul ++ rr_Namespace resource)%string (dc_Resources document)) in
  let tools := count (List.filter (fun tool => bool_decide ((tl_Name tool ++ nul ++ tl_ContractVersionID tool)%string ∈ docTools)) (qu_Tools query)) in
  let resources := count (List.filter (fun resource => bool_decide ((qr_Type resource ++ nul ++ qr_Namespace resource)%string ∈ docResources)) (qu_Resources query)) in
  (2 * tools + resources) * 100000.

Definition score (name : string) (query : Query) (document : Document) : Z :=
  if String.eqb name ChannelExact then
    if negb (String.eqb (qu_IntentHash query) "") && negb (String.eqb (qu_EffectSignatureHash query) "") &&
       String.eqb (qu_IntentHash query) (dc_IntentHash document) && String.eqb (qu_EffectSignatureHash query) (dc_EffectSignatureHash document)
    then 1000000 else 0
  else if String.eqb name ChannelLexical then setSimilarity (words (qu_Task query)) (words (dc_TaskText document))
  else if String.eqb name ChannelFacet then facetScore query document
  else if String.eqb name ChannelGraph then graphScore query document
  else if String.eqb name ChannelVector then setSimilarity (trigrams (qu_Task query)) (trigrams (dc_TaskText document))
  else 0.

(** ** The search *)
Definition NewRetrievalChannel (name : string) : Channel := mk_Channel name ("memory-" ++ name ++ ".v1") false.

(** One pass of "[for key, document := range c.repository.documents]". *)
Definition collect_step (tenantID : string) (projectionEpoch : Z) (epochOf : gmap string Z) (acc : gmap string Z * gmap string Document)
    (entry : string * Document) : gmap string Z * gmap string Document :=
  let '(latestEpoch, documents) := acc in
  let '(key, document) := entry in
  let epoch := default 0 (epochOf !! key) in
  let version := dc_ProcedureVersionID document in
  if negb (String.eqb (dc_TenantID document) tenantID) || (projectionEpoch <? epoch) || (epoch <=? default 0 (latestEpoch !! version)) then acc
  else (<[version := epoch]> latestEpoch, <[version := document]> documents).

(** The loop that infers the effect signature; [None] is "[return nil, nil]". *)
Fixpoint infer (intentHash inferred : string) (entries : list (string * Document)) : option string :=
  match entries with
  | [] => Some inferred
  | (_, document) :: entries =>
      if negb (String.eqb (dc_IntentHash document) intentHash) then infer intentHash inferred entries
      else if String.eqb inferred "" then infer intentHash (dc_EffectSignatureHash document) entries
      else if negb (String.eqb inferred (dc_EffectSignatureHash document)) then None
      else infer intentHash inferred entries
  end.

Definition with_effect (query : Query) (hash : string) : Query :=
  mk_Query (qu_SchemaVersion query) (qu_TenantID query) (qu_PolicyVersion query) (qu_Task query) (qu_IntentHash query) hash (qu_Tools query)
    (qu_Harness query) (qu_Environment query) (qu_EnvironmentHash query) (qu_Resources query) (qu_Constraints query) (qu_ForbiddenEffects query)
    (qu_RiskClass query) (qu_LatencyClass query) (qu_MaxCandidates query) (qu_Hash query) (qu_CanonicalJSON query).

Definition hit_for (name : string) (query : Query) (entry : string * Document) : option Hit :=
  let score := score name query (snd entry) in
  if score <=? 0 then None else Some (mk_Hit (fst entry) score (cn_ManifestID (NewRetrievalChannel name)) false).

(** The loop over the documents; [ctx n] is the answer of the n-th poll of the context. *)
Fixpoint score_loop (ctx : nat -> option search_error) (poll : nat) (name : string) (query : Query) (entries : list (string * Document))
    : search_error + list Hit :=
  match entries with
  | [] => inr []
  | entry :: entries =>
      match ctx poll with
      | Some err => inl err
      | None =>
          match score_loop ctx (S poll) name query entries with
          | inl err => inl err
          | inr hits => inr (match hit_for name query entry with Some hit => hit :: hits | None => hits end)
          end
      end
  end.

Definition hit_cmp : Hit -> Hit -> comparison := cmp_lex (cmp_rev (cmp_on ht_RawScoreQuantized Z.compare)) (cmp_on ht_VersionID String.compare).

#[export] Instance hit_cmp_lawful : LawfulCmp hit_cmp.
Proof. unfold hit_cmp. apply _. Qed.

(** [Search]; [order n] is the order in which the n-th range over a map runs. *)
Definition Search (r : ProjectionRepository) (order : nat -> list (string * Document) -> list (string * Document)) (ctx : nat -> option search_error)
    (name : string) (request : ChannelRequest) : search_error + list Hit :=
  match ctx 0%nat with
  | Some err => inl err
  | None =>
      if String.eqb (cq_TenantID request) "" || (cq_ProjectionEpoch request =? 0) || (cq_Limit request =? 0)
      then inl (mk_search_error false false (Some "invalid_request"))
      else
        let '(_, found) := foldl (collect_step (cq_TenantID request) (cq_ProjectionEpoch request) (documentEpoch (snapshots r))) (∅, ∅)
          (order 0%nat (map_to_list (documents (snapshots r)))) in
        let query := cq_Query request in
        let inferred :=
          if String.eqb name ChannelExact && String.eqb (qu_EffectSignatureHash query) ""
          then with_effect query <$> infer (qu_IntentHash query) "" (order 1%nat (map_to_list found))
          else Some query in
        match inferred with
        | None => inr []
        | Some query =>
            match score_loop ctx 1 name query (order 2%nat (map_to_list found)) with
            | inl err => inl err
            | inr hits =>
                let hits := sort_slice (cmp_ltb hit_cmp) hits in
                inr (if cq_Limit request <? count hits then firstn (Z.to_nat (cq_Limit request)) hits else hits)
            end
        end
  end.

(** ** The answer by the log *)

(** The documents that the log of a tenant shows at an epoch: the last of every version, by version. *)
Definition visible (log : list (option Document)) (epoch : Z) : list Document :=
  snapshot log (omap (fmap dc_ProcedureVersionID) log) epoch.

(** The effect signature that all documents of the intent share; none of the intent leaves it empty. *)
Definition shared_effect (intentHash : string) (docs : list Document) : option string :=
  match List.find (fun d => String.eqb (dc_IntentHash d) intentHash) docs with
  | None => Some ""
  | Some d =>
      if forallb (fun d' => negb (String.eqb (dc_IntentHash d') intentHash) || String.eqb (dc_EffectSignatureHash d) (dc_EffectSignatureHash d')) docs
      then Some (dc_EffectSignatureHash d) else None
  end.

Definition completed_query (name : string) (query : Query) (docs : list Document) : option Query :=
  if String.eqb name ChannelExact && String.eqb (qu_EffectSignatureHash query) "" then with_effect query <$> shared_effect (qu_IntentHash query) docs
  else Some query.

(** The best documents of positive score, by score and then by version. *)
Definition best_hits (name : string) (request : ChannelRequest) (log : list (option Document)) : list Hit :=
  let docs := visible log (cq_ProjectionEpoch request) in
  match completed_query name (cq_Query request) docs with
  | None => []
  | Some query =>
      firstn (Z.to_nat (cq_Limit request))
        (sort_slice (cmp_ltb hit_cmp) (omap (fun d => hit_for name query (dc_ProcedureVersionID d, d)) docs))
  end.

Lemma collect_scan t e epochOf wanted xs acc :
  (forall x, x ∈ xs -> dc_ProcedureVersionID (snd x) ∈ wanted) ->
  foldl (collect_step t e epochOf) acc xs = foldl (scan_step t wanted e epochOf) acc xs.
Proof.
  revert acc. induction xs as [|[k d] xs IH]; intros [le la] Hw; [done|]. cbn [foldl]. rewrite IH by set_solver. f_equal.
  unfold collect_step, scan_step. rewrite (bool_decide_eq_true_2 (dc_ProcedureVersionID d ∈ wanted)) by (apply (Hw (k, d)); left).
  cbn [negb orb]. by destruct (negb _ || (e <? _)).
Qed.

(** ** Visible documents *)
Definition seen (log : list (option Document)) (e : Z) (v : string) : option Document := snd <$> latest_in v (firstn (Z.to_nat e) log).

Lemma seen_version log e v d : seen log e v = Some d -> dc_ProcedureVersionID d = v /\ exists i, log !! i = Some (Some d).
Proof.
  unfold seen. intros Hs. pose proof (latest_in_spec v (firstn (Z.to_nat e) log)) as Hl. destruct (latest_in v _) as [[e' d']|]; [|done]. injection Hs as ->.
  destruct Hl as (i & _ & Hp & _). apply published_firstn in Hp as [[Hi Hv] _]. split; [done|by exists i].
Qed.

(** The versions of the visible documents, in their order. *)
Definition visible_versions (log : list (option Document)) (e : Z) : list string :=
  sort_strings (List.filter (fun v => match seen log e v with Some _ => true | None => false end) (remove_dups (omap (fmap dc_ProcedureVersionID) log))).

Lemma visible_versions_elem log e v : v ∈ visible_versions log e <-> is_Some (seen log e v).
Proof.
  unfold visible_versions. rewrite sort_strings_elem, elem_of_List_filter, elem_of_remove_dups. split.
  - intros [Hs _]. by destruct (seen log e v).
  - intros [d Hd]. rewrite Hd. split; [done|]. destruct (seen_version _ _ _ _ Hd) as (<- & i & Hi). apply list_elem_of_omap. exists (Some d).
    split; [by eapply list_elem_of_lookup_2|done].
Qed.

Lemma visible_pairs log e :
  List.map (fun d => (dc_ProcedureVersionID d, d)) (visible log e) = omap (fun v => (fun d => (v, d)) <$> seen log e v) (visible_versions log e).
Proof.
  change (visible log e) with (omap (seen log e) (visible_versions log e)). generalize (visible_versions log e) as vs.
  induction vs as [|v vs IH]; [done|]. cbn [omap list_omap]. destruct (seen log e v) as [d|] eqn:Ed; cbn [fmap option_fmap option_map List.map]; [|done].
  destruct (seen_version _ _ _ _ Ed) as [-> _]. by f_equal.
Qed.

Lemma visible_elem log e d : d ∈ visible log e <-> seen log e (dc_ProcedureVersionID d) = Some d.
Proof.
  change (visible log e) with (omap (seen log e) (visible_versions log e)). rewrite list_elem_of_omap. split.
  - intros (v & _ & Hv). by destruct (seen_version _ _ _ _ Hv) as [-> _].
  - intros Hs. exists (dc_ProcedureVersionID d). split; [|done]. apply visible_versions_elem. by eexists.
Qed.

Lemma visible_NoDup log e : NoDup (List.map dc_ProcedureVersionID (visible log e)).
Proof.
  assert (Hv : List.map dc_ProcedureVersionID (visible log e) = visible_versions log e).
  { rewrite <- (map_map (fun d => (dc_ProcedureVersionID d, d)) fst), visible_pairs. assert (Hall : forall v, v ∈ visible_versions log e -> is_Some (seen log e v)).
    { intros v. apply visible_versions_elem. } induction (visible_versions log e) as [|v vs IH]; [done|]. cbn [omap list_omap].
    destruct (Hall v) as [d ->]; [left|]. cbn [fmap option_fmap option_map List.map fst]. f_equal. apply IH. intros w Hw. apply Hall. by right. }
  rewrite Hv. apply NoDup_sort_strings, NoDup_List_filter, NoDup_remove_dups.
Qed.

Section visible.
Context `{NFC} `{JCS} `{Digest}.

Lemma collected_seen s l iteration t e v :
  refines s l -> iteration ≡ₚ map_to_list (documents s) -> 0 <= e ->
  snd (foldl (collect_step t e (documentEpoch s)) (∅, ∅) iteration) !! v = seen (log_of l t) e v.
Proof.
  intros Hr Hp He. set (wanted := ({[ v ]} ∪ list_to_set (List.map (fun x => dc_ProcedureVersionID (snd x)) iteration)) : gset string).
  rewrite (collect_scan t e (documentEpoch s) wanted).
  2:{ intros x Hx. unfold wanted. apply elem_of_union_r, elem_of_list_to_set, list_elem_of_In, in_map_iff. exists x. split; [done|by apply list_elem_of_In]. }
  pose proof (scan_at t wanted e (documentEpoch s) iteration v) as Hs. cbv zeta in Hs. rewrite bool_decide_eq_true_2 in Hs by set_solver.
  rewrite (pick_log s l iteration _ t v e Hr Hp He) in Hs.
  - unfold seen. destruct (latest_in _ _) as [[? ?]|]; by injection Hs.
  - intros k d Hin. cbn [fst snd]. rewrite !andb_true_iff, negb_true_iff, Z.ltb_ge, !String.eqb_eq. tauto.
Qed.

Lemma collected_visible s l iteration t e :
  refines s l -> iteration ≡ₚ map_to_list (documents s) -> 0 <= e ->
  map_to_list (snd (foldl (collect_step t e (documentEpoch s)) (∅, ∅) iteration)) ≡ₚ List.map (fun d => (dc_ProcedureVersionID d, d)) (visible (log_of l t) e).
Proof.
  intros Hr Hp He. apply NoDup_Permutation; [apply NoDup_map_to_list| |].
  - apply (NoDup_fmap_1 fst). change (NoDup (List.map fst (List.map (fun d => (dc_ProcedureVersionID d, d)) (visible (log_of l t) e)))).
    rewrite map_map. apply visible_NoDup.
  - intros [v d]. rewrite elem_of_map_to_list, (collected_seen s l) by done. rewrite list_elem_of_In, in_map_iff. split.
    + intros Hs. destruct (seen_version _ _ _ _ Hs) as [<- _]. exists d. split; [done|]. by apply list_elem_of_In, visible_elem.
    + intros (d' & [= <- <-] & Hin). by apply list_elem_of_In, visible_elem in Hin.
Qed.
End visible.

(** ** Inference *)
Lemma infer_from i h es :
  h <> "" ->
  infer i h es = if forallb (fun e => negb (String.eqb (dc_IntentHash (snd e)) i) || String.eqb h (dc_EffectSignatureHash (snd e))) es then Some h else None.
Proof.
  intros Hh. induction es as [|[k d] es IH]; [done|]. cbn [infer forallb snd]. rewrite (proj2 (String.eqb_neq _ _) Hh).
  destruct (String.eqb (dc_IntentHash d) i); [|done]. cbn [negb orb]. by destruct (String.eqb h _).
Qed.

Lemma infer_shared i (docs : list Document) :
  (forall d, d ∈ docs -> dc_EffectSignatureHash d <> "") -> infer i "" (List.map (fun d => (dc_ProcedureVersionID d, d)) docs) = shared_effect i docs.
Proof.
  intros Hne. assert (Hall : forall (p : Document -> bool) l, forallb (fun e : string * Document => p (snd e)) (List.map (fun d => (dc_ProcedureVersionID d, d)) l) = forallb p l).
  { intros p l. induction l as [|d l IH]; [done|]. cbn [List.map forallb snd]. by rewrite IH. }
  unfold shared_effect. induction docs as [|d docs IH]; [done|]. cbn [List.map infer List.find].
  destruct (String.eqb (dc_IntentHash d) i) eqn:Ei; cbn [negb].
  - rewrite infer_from, (Hall (fun d' => negb (String.eqb (dc_IntentHash d') i) || String.eqb (dc_EffectSignatureHash d) (dc_EffectSignatureHash d'))) by (apply Hne; left).
    cbn [forallb]. by rewrite Ei, !str_eqb_refl.
  - rewrite IH by (intros d' Hd'; apply Hne; by right). destruct (List.find _ docs); [|done]. cbn [forallb]. by rewrite Ei.
Qed.


(** Entries in any order infer the same. *)
Lemma infer_perm i es es' : es ≡ₚ es' -> (forall e, e ∈ es -> dc_EffectSignatureHash (snd e) <> "") -> infer i "" es = infer i "" es'.
Proof.
  assert (Hstart : forall es, (forall e, e ∈ es -> dc_EffectSignatureHash (snd e) <> "") ->
    (infer i "" es = Some "" /\ forall e, e ∈ es -> dc_IntentHash (snd e) <> i) \/
    exists e, e ∈ es /\ dc_IntentHash (snd e) = i /\
      infer i "" es = if forallb (fun e' => negb (String.eqb (dc_IntentHash (snd e')) i) || String.eqb (dc_EffectSignatureHash (snd e)) (dc_EffectSignatureHash (snd e'))) es
                      then Some (dc_EffectSignatureHash (snd e)) else None).
  { clear es es'. intros es Hne. induction es as [|[k d] es IH]; [left; split; [done|]; intros e He; inversion He|]. cbn [infer].
    destruct (String.eqb_spec (dc_IntentHash d) i) as [Ei|Ei]; cbn [negb].
    - right. exists (k, d). split; [left|]. split; [done|]. rewrite infer_from by (apply (Hne (k, d)); left). cbn [forallb snd]. by rewrite !str_eqb_refl, orb_true_r.
    - destruct IH as [[IH Hn]|(e & He & Hi & IH)]; [intros e He; apply Hne; by right|left|right].
      + split; [done|]. intros e [->|He]%elem_of_cons; [done|by apply Hn].
      + exists e. split; [by right|]. split; [done|]. cbn [forallb snd]. by rewrite IH, (proj2 (String.eqb_neq _ _) Ei). }
  intros Hp Hne. destruct (Hstart es Hne) as [[-> Hn]|(e & He & Hi & ->)]; destruct (Hstart es') as [[-> Hn']|(e' & He' & Hi' & ->)]; try (by intros x; rewrite <- Hp; auto).
  - done.
  - exfalso. apply (Hn e'); [by rewrite Hp|done].
  - exfalso. apply (Hn' e); [by rewrite <- Hp|done].
  - assert (Hto : forall (a b : string * Document) l, b ∈ l -> dc_IntentHash (snd b) = i ->
      forallb (fun e' => negb (String.eqb (dc_IntentHash (snd e')) i) || String.eqb (dc_EffectSignatureHash (snd a)) (dc_EffectSignatureHash (snd e'))) l = true ->
      dc_EffectSignatureHash (snd a) = dc_EffectSignatureHash (snd b)).
    { intros a b l Hb Hib Hf. rewrite forallb_forall in Hf. apply list_elem_of_In, Hf in Hb. rewrite Hib, str_eqb_refl in Hb. by apply String.eqb_eq in Hb. }
    rewrite (forallb_perm _ es es' Hp). destruct (forallb _ es') eqn:E1.
    + rewrite <- (Hto _ _ _ He' Hi' E1). by rewrite E1.
    + destruct (forallb _ es') eqn:E2 in |- *; [|done]. rewrite (Hto e' e es') in E2; [by rewrite E2 in E1|by rewrite <- Hp|done|done].
Qed.

(** ** Hits *)
Lemma score_loop_live ctx poll name query es : (forall n, ctx n = None) -> score_loop ctx poll name query es = inr (omap (hit_for name query) es).
Proof.
  intros Hc. revert poll. induction es as [|e es IH]; intros poll; [done|]. cbn [score_loop omap list_omap]. rewrite Hc, IH. by destruct (hit_for name query e).
Qed.

Lemma hit_for_spec name query e h :
  hit_for name query e = Some h -> ht_VersionID h = fst e /\ ht_IndexManifestID h = cn_ManifestID (NewRetrievalChannel name) /\ ht_Approximate h = false.
Proof. unfold hit_for. destruct (_ <=? 0); [done|]. by intros [= <-]. Qed.

Lemma hits_NoDup name query es : NoDup (List.map fst es) -> NoDup (List.map ht_VersionID (omap (hit_for name query) es)).
Proof.
  induction es as [|e es IH]; intros Hn; [constructor|]. cbn [List.map omap list_omap] in *. apply NoDup_cons in Hn as [Hf Hn].
  destruct (hit_for name query e) as [h|] eqn:Eh; [|by apply IH]. cbn [List.map]. apply NoDup_cons. split; [|by apply IH].
  intros (h' & Hv & Hin)%list_elem_of_In%in_map_iff. apply list_elem_of_In, list_elem_of_omap in Hin as (e' & He' & Hh').
  apply hit_for_spec in Eh as (Eh & _). apply hit_for_spec in Hh' as (Hh' & _). apply Hf. rewrite <- Eh, <- Hv, Hh'. by apply list_elem_of_In, in_map, list_elem_of_In.
Qed.

Lemma hit_cmp_version x y : hit_cmp x y = Eq -> ht_VersionID x = ht_VersionID y.
Proof. unfold hit_cmp, cmp_lex, cmp_rev, cmp_on. destruct (_ ?= _); [|done..]. apply String.compare_eq_iff. Qed.

Lemma NoDup_map_inj {A B} (f : A -> B) l x y : NoDup (List.map f l) -> x ∈ l -> y ∈ l -> f x = f y -> x = y.
Proof.
  induction l as [|a l IH]; intros Hn Hx Hy Hf; [inversion Hx|]. cbn [List.map] in Hn. apply NoDup_cons in Hn as [Ha Hn].
  assert (Hin : forall z, z ∈ l -> f z ∈ List.map f l) by (intros z Hz; by apply list_elem_of_In, in_map, list_elem_of_In).
  apply elem_of_cons in Hx as [->|Hx], Hy as [->|Hy]; [done| | |by apply IH]; exfalso; apply Ha; [rewrite Hf|rewrite <- Hf]; by apply Hin.
Qed.

Lemma sorted_hits_perm name query es es' :
  es ≡ₚ es' -> NoDup (List.map fst es) ->
  sort_slice (cmp_ltb hit_cmp) (omap (hit_for name query) es) = sort_slice (cmp_ltb hit_cmp) (omap (hit_for name query) es').
Proof.
  intros Hp Hn. apply (sort_slice_perm_eq hit_cmp); [|exact (omap_Permutation _ _ _ Hp)]. intros x y Hx Hy He.
  eapply NoDup_map_inj; [by apply (hits_NoDup name query es)|done|done|by apply hit_cmp_version].
Qed.

Lemma hits_accepted channel manifest seen hits :
  blank manifest = false -> NoDup (List.map ht_VersionID hits) -> (forall h, h ∈ hits -> ht_VersionID h ∉ seen) ->
  (forall h, h ∈ hits -> blank (ht_VersionID h) = false /\ ht_IndexManifestID h = manifest /\ ht_Approximate h = false) ->
  hits_ok channel manifest false seen hits = true.
Proof.
  intros Hm. revert seen. induction hits as [|h hits IH]; intros seen Hn Hs Hall; [done|]. cbn [hits_ok List.map] in *. apply NoDup_cons in Hn as [Hh Hn].
  destruct (Hall h) as (Hb & Hmh & Ha); [left|]. rewrite Hb, Hmh, Ha, Hm, str_eqb_refl, bool_decide_eq_false_2 by (apply Hs; left). cbn [negb andb Bool.eqb].
  apply IH; [done| |intros h' Hh'; apply Hall; by right]. intros h' Hh' [He%elem_of_singleton|He]%elem_of_union; [|by apply (Hs h'); [right|]].
  apply Hh. rewrite <- He. by apply list_elem_of_In, in_map, list_elem_of_In.
Qed.

Lemma best_hits_spec name request log h :
  h ∈ best_hits name request log ->
  (exists d, d ∈ visible log (cq_ProjectionEpoch request) /\ ht_VersionID h = dc_ProcedureVersionID d) /\
  ht_IndexManifestID h = cn_ManifestID (NewRetrievalChannel name) /\ ht_Approximate h = false.
Proof.
  unfold best_hits. destruct (completed_query _ _ _) as [query|]; [|intros Hin; inversion Hin]. intros Hin. apply elem_of_take in Hin as (k & Hin & _).
  apply list_elem_of_lookup_2, sort_slice_elem, list_elem_of_omap in Hin as (d & Hd & Hh). apply hit_for_spec in Hh as (Hv & Hrest). split; [by exists d|done].
Qed.

Lemma best_hits_NoDup name request log : NoDup (List.map ht_VersionID (best_hits name request log)).
Proof.
  unfold best_hits. destruct (completed_query _ _ _) as [query|]; [|constructor]. rewrite <- firstn_map. eapply sublist_NoDup; [|apply sublist_take].
  rewrite (Permutation_map ht_VersionID (sort_slice_perm _ _)).
  assert (Ho : forall docs, omap (fun d => hit_for name query (dc_ProcedureVersionID d, d)) docs =
    omap (hit_for name query) (List.map (fun d => (dc_ProcedureVersionID d, d)) docs)).
  { intros docs. induction docs as [|d docs IH]; [done|]. cbn [omap list_omap List.map]. by rewrite <- IH. }
  rewrite Ho. apply hits_NoDup. rewrite map_map. apply visible_NoDup.
Qed.

(** ** The theorems *)
Section histories.
Context `{NFC} `{JCS} `{Digest}.

Definition searchable (request : ChannelRequest) : Prop := cq_TenantID request <> "" /\ 0 < cq_ProjectionEpoch request /\ 0 < cq_Limit request.

(** Every visible document names an effect signature, as every built document
    does; without it the inference depends on the order of the map. *)
Definition effects_named (log : list (option Document)) (epoch : Z) : Prop := forall d, d ∈ visible log epoch -> dc_EffectSignatureHash d <> "".

Lemma Search_log r l order ctx name request :
  refines (snapshots r) l -> (forall n entries, order n entries ≡ₚ entries) -> (forall n, ctx n = None) -> searchable request ->
  effects_named (log_of l (cq_TenantID request)) (cq_ProjectionEpoch request) ->
  Search r order ctx name request = inr (best_hits name request (log_of l (cq_TenantID request))).
Proof.
  intros Hr Ho Hc (Ht & He & Hl) Hne. unfold Search. rewrite Hc, (proj2 (String.eqb_neq _ _) Ht), (proj2 (Z.eqb_neq (cq_ProjectionEpoch request) _)), (proj2 (Z.eqb_neq (cq_Limit request) _)) by lia.
  cbn [orb]. set (log := log_of l (cq_TenantID request)) in *. set (docs := visible log (cq_ProjectionEpoch request)).
  pose proof (collected_visible (snapshots r) l _ (cq_TenantID request) (cq_ProjectionEpoch request) Hr (Ho 0%nat _) ltac:(lia)) as Hf. fold log docs in Hf.
  destruct (foldl _ _ _) as [le found]. cbn [snd] in Hf. unfold best_hits. fold docs.
  assert (Hq : (if String.eqb name ChannelExact && String.eqb (qu_EffectSignatureHash (cq_Query request)) ""
    then with_effect (cq_Query request) <$> infer (qu_IntentHash (cq_Query request)) "" (order 1%nat (map_to_list found)) else Some (cq_Query request)) =
    completed_query name (cq_Query request) docs).
  { unfold completed_query. destruct (_ && _); [|done]. f_equal. rewrite <- infer_shared by exact Hne. apply infer_perm; [by rewrite Ho|].
    intros e Hin. rewrite Ho, Hf in Hin. apply list_elem_of_In, in_map_iff in Hin as (d & <- & Hd). by apply Hne, list_elem_of_In. }
  rewrite Hq. destruct (completed_query name (cq_Query request) docs) as [query|]; [|done]. rewrite score_loop_live by done. f_equal.
  assert (Hs : sort_slice (cmp_ltb hit_cmp) (omap (hit_for name query) (order 2%nat (map_to_list found))) =
    sort_slice (cmp_ltb hit_cmp) (omap (fun d => hit_for name query (dc_ProcedureVersionID d, d)) docs)).
  { rewrite (sorted_hits_perm name query _ (List.map (fun d => (dc_ProcedureVersionID d, d)) docs)).
    - f_equal. clear. induction docs as [|d docs IH]; [done|]. cbn [omap list_omap List.map]. by rewrite IH.
    - by rewrite Ho.
    - rewrite (Permutation_map fst (Ho 2%nat _)). apply NoDup_fst_map_to_list. }
  rewrite Hs. set (hits := sort_slice _ _). destruct (cq_Limit request <? count hits) eqn:Ec; [done|]. rewrite firstn_all2; [done|]. unfold count in Ec. lia.
Qed.

Lemma entry_visible s l t e d : refines s l -> d ∈ visible (log_of l t) e -> entry_ok t d.
Proof. intros Hr Hd. apply visible_elem in Hd. destruct (seen_version _ _ _ _ Hd) as (_ & i & Hi). by eapply (rf_entries _ _ Hr). Qed.

Lemma stored_effects s l t e : refines s l -> map_Forall (fun _ d => dc_EffectSignatureHash d <> "") (documents s) -> effects_named (log_of l t) e.
Proof.
  intros Hr Hall d Hd. apply visible_elem in Hd. destruct (seen_version _ _ _ _ Hd) as (_ & i & Hi).
  eapply (Hall (documentKey t (dc_ProcedureVersionID d) (Z.of_nat i + 1))), (rf_documents _ _ Hr). by exists t, i.
Qed.

(** What the collector receives from a channel. *)
Definition memory_response (name : string) (found : search_error + list Hit) (latency : Z) : Response :=
  match found with
  | inl err => mk_Response (NewRetrievalChannel name) [] (Some err) latency
  | inr hits => mk_Response (NewRetrievalChannel name) hits None latency
  end.

Lemma best_hits_usable s l name request latency :
  refines s l -> validChannel name = true -> searchable request ->
  usable (cq_Limit request) name (response_of (memory_response name (inr (best_hits name request (log_of l (cq_TenantID request)))) latency)) = true.
Proof.
  intros Hr Hn (_ & _ & Hl). unfold usable. cbn [memory_response response_of re_Channel re_Hits re_Err rp_err rp_manifestID rp_approximate rp_hits cn_Approximate NewRetrievalChannel].
  set (hits := best_hits _ _ _). unfold validateHits. rewrite (proj2 (Z.ltb_ge _ _)).
  2:{ unfold hits, best_hits, count. destruct (completed_query _ _ _); [rewrite length_firstn|simpl]; lia. }
  rewrite hits_accepted; [done| |apply best_hits_NoDup|set_solver|].
  - unfold validChannel in Hn. rewrite !orb_true_iff, !String.eqb_eq in Hn. by destruct Hn as [[[[->| ->]| ->]| ->]| ->].
  - intros h Hh. destruct (best_hits_spec _ _ _ _ Hh) as ((d & Hd & ->) & Hm & Ha). split; [|done].
    destruct (entry_visible _ _ _ _ _ Hr Hd) as (_ & _ & _ & Hb & Hv). unfold blank. rewrite TrimSpace_token by done. by apply String.eqb_neq.
Qed.

Lemma answer_responses request rs r :
  NoDup (List.map response_name rs) -> r ∈ rs -> answer request (response_name r) (List.map EvResponse rs) = Some (response_of r).
Proof.
  induction rs as [|r' rs IH]; intros Hn Hin; [inversion Hin|]. cbn [List.map answer] in *. apply NoDup_cons in Hn as [Hr' Hn].
  destruct (String.eqb_spec (response_name r') (response_name r)) as [He|Hne].
  - apply elem_of_cons in Hin as [->|Hin]; [done|]. exfalso. apply Hr'. rewrite He. by apply list_elem_of_In, in_map, list_elem_of_In.
  - apply elem_of_cons in Hin as [->|Hin]; [done|]. by apply IH.
Qed.

Lemma channels_ok_valid seen channels c : channels_ok seen channels = true -> c ∈ channels -> validChannel (cn_Name c) = true.
Proof.
  revert seen. induction channels as [|c' channels IH]; intros seen Hok Hc; [inversion Hc|]. cbn [channels_ok] in Hok. autorewrite with goboolsimpl in Hok.
  apply elem_of_cons in Hc as [->|Hc]; [tauto|]. eapply IH; [|done]. apply Hok.
Qed.

Lemma memory_request names request timeout :
  validateCollectRequest (mk_CollectRequest request (List.map NewRetrievalChannel names) timeout) = Ok tt ->
  0 <= cq_ProjectionEpoch request -> 0 <= cq_Limit request ->
  searchable request /\ NoDup names /\ forall name, name ∈ names -> validChannel name = true.
Proof.
  intros Hv He Hl. pose proof (validateCollectRequest_ok _ Hv) as [_ Hn]. unfold validateCollectRequest in Hv. cbn [cl_Request cl_Channels cl_Timeout] in *. inv_Ok Hv.
  autorewrite with goboolsimpl in *. rewrite map_map, map_id in Hn. split; [|split; [done|]].
  - split; [|lia]. match goal with Hx : _ |- _ => by apply Hx end.
  - intros name Hname. eapply (channels_ok_valid ∅ _ (NewRetrievalChannel name)); [done|]. by apply list_elem_of_In, in_map, list_elem_of_In.
Qed.

(** Every channel answers with its best hits. *)
Lemma memory_answers r l order latency ctx names request timeout responses :
  refines (snapshots r) l -> (forall name n entries, order name n entries ≡ₚ entries) -> (forall n, ctx n = None) -> searchable request -> NoDup names ->
  effects_named (log_of l (cq_TenantID request)) (cq_ProjectionEpoch request) ->
  responses ≡ₚ List.map (fun name => memory_response name (Search r (order name) ctx name request) (latency name)) names ->
  forall name, name ∈ names ->
    answer (mk_CollectRequest request (List.map NewRetrievalChannel names) timeout) name (List.map EvResponse responses) =
    Some (response_of (memory_response name (inr (best_hits name request (log_of l (cq_TenantID request)))) (latency name))).
Proof.
  intros Hr Ho Hc Hs Hn He Hp name Hname. set (reply n := memory_response n (inr (best_hits n request (log_of l (cq_TenantID request)))) (latency n)).
  assert (Hp' : responses ≡ₚ List.map reply names).
  { rewrite Hp. apply reflexive_eq, map_ext. intros n. unfold reply. by rewrite (Search_log r l). }
  assert (Hnd : NoDup (List.map response_name responses)) by (rewrite (Permutation_map response_name Hp'), map_map; unfold reply; by rewrite map_id).
  apply (answer_responses _ responses (reply name) Hnd). rewrite Hp'. by apply list_elem_of_In, in_map, list_elem_of_In.
Qed.

Lemma no_degraded request events c :
  collected request events c -> NoDup (List.map cn_Name (cl_Channels request)) ->
  (forall name, name ∈ List.map cn_Name (cl_Channels request) -> exists r, answer request name events = Some r /\ usable (cq_Limit (cl_Request request)) name r = true) ->
  co_Degraded c = [].
Proof.
  intros Hc Hn Ha. destruct (co_Degraded c) as [|d ds] eqn:Ed; [done|]. exfalso. pose proof (cd_channels _ _ _ Hc) as Hp. rewrite Ed in Hp.
  assert (Hd : dg_Channel d ∈ List.map cn_Name (cl_Channels request)) by (rewrite <- Hp; apply elem_of_app; right; left).
  destruct (Ha _ Hd) as (r & Hr & Hu). rewrite <- Hp in Hn. apply NoDup_app in Hn as (_ & Hdis & _). apply (Hdis (dg_Channel d)); [|left].
  apply (cd_complete _ _ _ Hc). by exists r.
Qed.

(** C24: The in-memory index serves what was published: after any calls to the stores,
    the channels of a valid request, in whatever order they range over maps and
    answer, give a collection in which no channel is degraded, and its hits are
    exactly those that each channel's score picks among the latest documents
    of the tenant at the epoch: the best of positive score, within the limit, at
    their places by score and version. *)
Theorem memory_candidates (ops : list Op) (order : string -> nat -> list (string * Document) -> list (string * Document)) (latency : string -> Z)
    (ctx : nat -> option search_error) (names : list string) (request : ChannelRequest) (timeout : Z) (responses : list Response) :
  let collect := mk_CollectRequest request (List.map NewRetrievalChannel names) timeout in
  let repository := projection (run NewStore ops) in
  count ops <= MaxUint64 -> (forall name n entries, order name n entries ≡ₚ entries) -> (forall n, ctx n = None) ->
  validateCollectRequest collect = Ok tt -> 0 <= cq_ProjectionEpoch request -> 0 <= cq_Limit request ->
  map_Forall (fun _ d => dc_EffectSignatureHash d <> "") (documents (snapshots repository)) ->
  responses ≡ₚ List.map (fun name => memory_response name (Search repository (order name) ctx name request) (latency name)) names ->
  exists l c, observes (run NewStore ops) l /\
    CollectCandidates collect (List.map EvResponse responses) None = Some (Ok c) /\ co_Degraded c = [] /\
    forall v h, (exists cs, cs ∈ co_Candidates c /\ cs_VersionID cs = v /\ h ∈ cs_Hits cs) <->
      exists name k hit, name ∈ names /\ best_hits name request (log_of l (cq_TenantID request)) !! k = Some hit /\
        ht_VersionID hit = v /\ h = hit_of name k hit.
Proof.
  intros collect repository Hlen Ho Hctx Hv He Hl Hall Hp. destruct (memory_request _ _ _ Hv He Hl) as (Hs & Hn & Hvalid).
  destruct (histories_refine ops [] ltac:(by rewrite app_nil_r)) as (l & _ & Hr & _).
  assert (Hne : effects_named (log_of l (cq_TenantID request)) (cq_ProjectionEpoch request)) by (by eapply stored_effects).
  pose proof (memory_answers repository l order latency ctx names request timeout responses Hr Ho Hctx Hs Hn Hne Hp) as Ha. fold collect in Ha.
  assert (Hnames : List.map cn_Name (cl_Channels collect) = names) by (cbn [collect cl_Channels]; by rewrite map_map, map_id).
  assert (Hu : forall name, name ∈ names -> usable (cq_Limit request) name
    (response_of (memory_response name (inr (best_hits name request (log_of l (cq_TenantID request)))) (latency name))) = true).
  { intros name Hname. eapply best_hits_usable; [exact Hr|by apply Hvalid|done]. }
  destruct (CollectCandidates_collected collect (List.map EvResponse responses) Hv) as (c & Hcc & Hc).
  - right. intros ch Hch. assert (Hin : cn_Name ch ∈ names) by (rewrite <- Hnames; by apply list_elem_of_In, in_map, list_elem_of_In).
    exists (memory_response (cn_Name ch) (Search repository (order (cn_Name ch)) ctx (cn_Name ch) request) (latency (cn_Name ch))).
    split; [|by destruct (Search _ _ _ _ _)]. apply list_elem_of_In, in_map, list_elem_of_In. rewrite Hp. apply list_elem_of_In, in_map_iff.
    exists (cn_Name ch). split; [done|by apply list_elem_of_In].
  - intros e (r & ? & _)%list_elem_of_In%in_map_iff. done.
  - exists l, c. split; [by apply refines_observes|]. split; [done|]. split.
    + eapply no_degraded; [exact Hc|by rewrite Hnames|]. rewrite Hnames. intros name Hname. eexists. split; [by apply Ha|by apply Hu].
    + intros v h. rewrite (cd_hits _ _ _ Hc), Hnames. split.
      * intros (name & r & k & hit & Hname & Hans & _ & Hk & Hv' & ->). rewrite Ha in Hans by done. injection Hans as <-. by exists name, k, hit.
      * intros (name & k & hit & Hname & Hk & Hv' & ->). eexists name, _, k, hit. split; [done|]. split; [by apply Ha|]. split; [by apply Hu|done].
Qed.
End histories.
End channel.

(** ** A store with two versions of one procedure *)
#[local] Existing Instance copy_nfc.
#[local] Existing Instance strict_jcs.
#[local] Existing Instance checksum_digest.

(** No rune above ASCII has a case or is a letter. *)
Definition ascii_tables : Unicode := mk_Unicode (fun r => r) (fun _ => false) (fun _ => false).

#[local] Existing Instance ascii_tables.

Definition demo_document : Document := pj_RetrievalDocument first_run.

Definition asked (effect task : string) (environment : list Fact) : Query :=
  mk_Query "retrieval-query.v1" "tenant" "p" task (dc_IntentHash demo_document) effect [] (dc_Harness demo_document) environment "" [] [] [] "low" "standard" 5 "" "".

Definition demo_ops : list Op := [OpPublish None first_run; OpPublish None other_version].

Definition demo_request : ChannelRequest := mk_ChannelRequest "tenant" 2 (asked "" (dc_TaskText demo_document) []) 10.

Definition in_order (n : nat) (entries : list (string * Document)) : list (string * Document) := entries.

Definition search_demo (name : string) : search_error + list Hit := Search (projection (run NewStore demo_ops)) in_order (fun _ => None) name demo_request.

Example search_finds_both : List.map (fun name => match search_demo name with inr hits => List.map ht_VersionID hits | inl _ => [] end) [ChannelExact; ChannelLexical; ChannelVector] =
  let both := sort_strings [v1; v2] in [both; both; both].
Proof. vm_compute. reflexivity. Qed.

Lemma memory_candidates_witness :
  exists l c, observes (run NewStore demo_ops) l /\
    CollectCandidates (mk_CollectRequest demo_request (List.map NewRetrievalChannel [ChannelExact; ChannelFacet]) 1000000)
      (List.map EvResponse [memory_response ChannelFacet (search_demo ChannelFacet) 7; memory_response ChannelExact (search_demo ChannelExact) 7]) None = Some (Ok c) /\
    co_Degraded c = [] /\
    forall v h, (exists cs, cs ∈ co_Candidates c /\ cs_VersionID cs = v /\ h ∈ cs_Hits cs) <->
      exists name k hit, name ∈ [ChannelExact; ChannelFacet] /\ best_hits name demo_request (log_of l "tenant") !! k = Some hit /\
        ht_VersionID hit = v /\ h = hit_of name k hit.
Proof.
  apply (memory_candidates demo_ops (fun _ => in_order) (fun _ => 7) (fun _ => None) [ChannelExact; ChannelFacet] demo_request 1000000).
  - vm_compute. discriminate.
  - reflexivity.
  - reflexivity.
  - vm_compute. reflexivity.
  - discriminate.
  - discriminate.
  - apply (bool_decide_unpack _). vm_compute. exact I.
  - apply Permutation_swap.
Defined.

(** A fact that the document does not state is a match when the query states it as empty. *)
Example facet_absent_fact :
  dc_Environment demo_document = [] /\
  facetScore (asked "" "" [mk_Fact "region" ""]) demo_document = 1000000 /\ facetScore (asked "" "" [mk_Fact "region" "eu"]) demo_document = 500000.
Proof. vm_compute. repeat split. Qed.
