(* ===== verification/RetrievalRunStore.v ===== *)
(** * The store of serving configurations and runs (internal/store/memory/retrieval_run.go)

    A tenant has one active serving configuration.  [AcquireServingSnapshot]
    pins it together with the tenant's current projection epoch;
    [SaveRetrievalRun] keeps a run only if it still matches a configuration and
    the recorded hash of its epoch; [RetrievalRun] reads it back from its bytes.
    The projections are those of [PublicationStore]: a history here interleaves
    the calls to the three stores.

    [snapshot_savable]: publications and other saves never invalidate a snapshot
    that was acquired.  [saved_run_returned]: a saved run is returned ever
    after. *)

From Stdlib Require Import ZArith String Ascii List Bool Lia.
From stdpp Require Import base gmap strings list sorting.
From S2P Require Import Prelude GoStrings GoTime Canonical Domain Synthesis Lifecycle Interfaces.
From S2P Require Import RetrievalQuery RetrievalDocument Projection RetrievalChannels RetrievalRun RetrievalRunSound PublicationStore PublicationSound.

Open Scope Z_scope.
Open Scope go_scope.

#[export] Instance SnapshotIndex_eq_dec : EqDecision SnapshotIndex.
Proof. solve_decision. Defined.

Record RetrievalRunRepository := mk_RetrievalRunRepository {
  configs : gmap string ServingConfig;
  active : gmap string string;
  runs : gmap string Run
}.

Definition NewRetrievalRunRepository : RetrievalRunRepository := mk_RetrievalRunRepository ∅ ∅ ∅.

Definition configKey (tenantID id : string) : string := (tenantID ++ nul ++ id)%string.
Definition runKey (tenantID id : string) : string := (tenantID ++ nul ++ id)%string.

Section run_store.
Context `{RawCanonical} `{NFC} `{JCS} `{Digest} `{RunDecoder}.

(** In every method [None] is a nil repository or one without projections. *)
Definition ActivateServingConfig (r : option RetrievalRunRepository) (ctx : option goerr) (config : ServingConfig)
    : result unit * option RetrievalRunRepository :=
  match ctx, r with
  | Some e, _ => (Err e, r)
  | None, None => (Err ErrServingConfigUnavailable, r)
  | None, Some repository =>
      if failed (ValidateServingConfig config) then (Err ErrServingConfigUnavailable, r)
      else
        let key := configKey (sc_TenantID config) (sc_ID config) in
        if match configs repository !! key with Some existing => negb (String.eqb (sc_ContentHash existing) (sc_ContentHash config)) | None => false end
        then (Err ErrRetrievalRunConflict, r)
        else (Ok tt, Some (mk_RetrievalRunRepository (<[key := config]> (configs repository))
                             (<[sc_TenantID config := sc_ID config]> (active repository)) (runs repository)))
  end.

Definition AcquireServingSnapshot (r : option RetrievalRunRepository) (p : ProjectionRepository) (ctx : option goerr) (tenantID : string)
    : result ServingSnapshot :=
  match ctx, r with
  | Some e, _ => Err e
  | None, None => Err ErrServingConfigUnavailable
  | None, Some repository =>
      reject String.eqb tenantID "" with ErrServingConfigUnavailable;
      let configID := default "" (active repository !! tenantID) in
      match configs repository !! configKey tenantID configID with
      | None => Err ErrServingConfigUnavailable
      | Some config =>
          let epoch := epoch_of (snapshots p) tenantID in
          let hash := default "" (epochHistory (snapshots p) !! epochKey tenantID epoch) in
          let createdAt := default zero_time (epochCreated (snapshots p) !! epochKey tenantID epoch) in
          reject (epoch =? 0) || String.eqb hash "" with ErrServingConfigUnavailable;
          Ok (mk_ServingSnapshot epoch createdAt zero_time hash (sc_ID config) (sc_PolicyManifestID config) (sc_RankerManifestID config) (sc_Indexes config))
      end
  end.

(** The configuration and the recorded epoch hash that a run must match. *)
Definition snapshot_mismatch (repository : RetrievalRunRepository) (p : ProjectionRepository) (run : Run) : bool :=
  let snapshot := rn_Snapshot run in
  match configs repository !! configKey (rn_TenantID run) (ss_ServingConfigID snapshot) with
  | None => true
  | Some config =>
      negb (String.eqb (sc_PolicyManifestID config) (ss_PolicyManifestID snapshot)) ||
      negb (String.eqb (sc_RankerManifestID config) (ss_RankerManifestID snapshot)) ||
      negb (bool_decide (sc_Indexes config = ss_Indexes snapshot))
  end ||
  (let hash := default "" (epochHistory (snapshots p) !! epochKey (rn_TenantID run) (ss_ProjectionEpoch snapshot)) in
   String.eqb hash "" || negb (String.eqb hash (ss_DocumentSetHash snapshot))).

(** [ValidateRun] sorts the indexes of the snapshot that it shares with its caller. *)
Definition SaveRetrievalRun (r : option RetrievalRunRepository) (p : ProjectionRepository) (ctx : option goerr) (run : Run)
    : result unit * option RetrievalRunRepository :=
  match ctx, r with
  | Some e, _ => (Err e, r)
  | None, None => (Err ErrRetrievalRunConflict, r)
  | None, Some repository =>
      match validated_copy run with
      | Err _ => (Err ErrRetrievalRunConflict, r)
      | Ok copyOfRun =>
          let run := sharing run copyOfRun in
          if snapshot_mismatch repository p run then (Err ErrRetrievalSnapshotMismatch, r)
          else
            let key := runKey (rn_TenantID run) (rn_ID run) in
            match runs repository !! key with
            | Some existing => if negb (String.eqb (rn_ContentHash existing) (rn_ContentHash run)) then (Err ErrRetrievalRunConflict, r) else (Ok tt, r)
            | None => (Ok tt, Some (mk_RetrievalRunRepository (configs repository) (active repository) (<[key := run]> (runs repository))))
            end
      end
  end.

Definition RetrievalRun (r : option RetrievalRunRepository) (ctx : option goerr) (tenantID id : string) : result Run :=
  match ctx, r with
  | Some e, _ => Err e
  | None, None => Err ErrRunNotFound
  | None, Some repository =>
      reject String.eqb tenantID "" with ErrRunNotFound;
      match runs repository !! runKey tenantID id with
      | None => Err ErrRunNotFound
      | Some run => DecodeRun (rn_CanonicalJSON run) (rn_ContentHash run)
      end
  end.

(** ** Histories of the three stores *)
Record World := mk_World { w_store : Store; w_runs : RetrievalRunRepository }.

Inductive WorldOp :=
| WStore (op : Op)
| WActivate (ctx : option goerr) (config : ServingConfig)
| WSave (ctx : option goerr) (run : Run).

Definition apply_world (w : World) (op : WorldOp) : World :=
  match op with
  | WStore op => mk_World (apply_op (w_store w) op) (w_runs w)
  | WActivate ctx config => mk_World (w_store w) (default (w_runs w) (snd (ActivateServingConfig (Some (w_runs w)) ctx config)))
  | WSave ctx run => mk_World (w_store w) (default (w_runs w) (snd (SaveRetrievalRun (Some (w_runs w)) (projection (w_store w)) ctx run)))
  end.

Definition run_world (w : World) (ops : list WorldOp) : World := foldl apply_world w ops.

Definition NewWorld : World := mk_World NewStore NewRetrievalRunRepository.
End run_store.

(** ** Epoch records are never rewritten *)
Section history.
Context `{NFC} `{JCS} `{Digest}.

(** A call to the stores of projections advances the epoch of at most one tenant, and records at most that epoch. *)
Definition advances (s s' : Snapshots) : Prop :=
  s' = s \/ exists t, let e := wrap_u64 (epoch_of s t + 1) in
    s' = with_epoch s t e \/ exists v h at_ d, s' = record_document (with_epoch s t e) t v e h at_ d.

Lemma Publish_advances r ctx value : advances (snapshots r) (snapshots (snd (Publish r ctx value))).
Proof.
  unfold Publish, publish_procedure. destruct ctx; [by left|]. destruct (Validate value); [|by left]. destruct (manifests _ !! _); [by destruct (negb _); left|].
  destruct (String.eqb _ "abstained"); [by left|]. destruct (publish_family _ _) as [[nf c]|]; [|by left]. destruct (publish_version c value) as [[nv c']|]; [|by left].
  destruct (publish_links c' value) as [ea c'']. destruct (ReviseEvidence _ _ _ _) as [d|]; [|by left].
  unfold publish_document. destruct (MarshalAndHash _) as [[c3 h]|]; right; exists (pj_TenantID value); [right|by left]. by eexists _, _, _, _.
Qed.

Lemma apply_op_advances s op : advances (snapshots (projection s)) (snapshots (projection (apply_op s op))).
Proof.
  destruct op as [ctx value|ctx value]; cbn [apply_op projection]; [apply Publish_advances|].
  unfold Commit. destruct ctx; [by left|]. destruct (failed _); [by left|]. unfold commit_locked. destruct (receipts _ !! _); [by left|].
  destruct (commit_refused s value); [by left|]. destruct (commit_document _ value) as [[receipt s']|] eqn:Ec; [|by left]. cbn [snd default from_option id projection snapshots].
  unfold commit_document in Ec. destruct (changes_state _); [|injection Ec as _ <-; by left]. inv_Ok Ec. injection Ec as _ <-. right. eexists. right. by eexists _, _, _, _.
Qed.

Lemma advances_history s s' t e :
  advances s s' -> (forall t, 0 <= epoch_of s t < MaxUint64) -> 0 <= e <= epoch_of s t ->
  epochHistory s' !! epochKey t e = epochHistory s !! epochKey t e /\ epoch_of s t <= epoch_of s' t.
Proof.
  intros [->|[t' Ha]] Hb He; [done|]. cbv zeta in Ha. pose proof (Hb t') as Hb'. rewrite wrap_u64_id in Ha by (unfold_widths; lia). pose proof (Hb t) as Hbt.
  assert (Hep : epoch_of s t <= epoch_of (with_epoch s t' (epoch_of s t' + 1)) t) by (rewrite epoch_of_with; destruct (String.eqb_spec t t') as [->|]; lia).
  destruct Ha as [->|(v & h & at_ & d & ->)]; [done|]. split; [|done]. cbn [record_document epochHistory with_epoch]. apply lookup_insert_ne. intros Hk.
  apply epochKey_inj in Hk as [<- <-]; [lia|unfold_widths; lia|unfold_widths; lia].
Qed.

Lemma run_history s l n later t e :
  refines (snapshots (projection s)) l -> (forall t, count (log_of l t) <= n) -> n + count later <= MaxUint64 -> 0 <= e <= epoch_of (snapshots (projection s)) t ->
  epochHistory (snapshots (projection (run s later))) !! epochKey t e = epochHistory (snapshots (projection s)) !! epochKey t e.
Proof.
  intros Hr Hn. revert l n s Hr Hn. induction later as [|op later IH]; intros l n s Hr Hn Hfit He; [done|].
  assert (Hc : count (op :: later) = count later + 1) by (unfold count; cbn [length]; lia). rewrite Hc in Hfit. assert (0 <= count later) by (unfold count; lia).
  assert (Hb : forall t, 0 <= epoch_of (snapshots (projection s)) t < MaxUint64)
    by (intros t'; rewrite (rf_epochs _ _ Hr); specialize (Hn t'); unfold count in *; lia).
  destruct (apply_op_refines s l op Hr) as (l' & Hr' & [_ Hb']%extends_grows); [intros t'; specialize (Hn t'); lia|].
  destruct (advances_history _ _ t e (apply_op_advances s op) Hb He) as [Hh Hep]. change (run s (op :: later)) with (run (apply_op s op) later).
  rewrite (IH l' (n + 1)); [exact Hh|done|intros t'; specialize (Hb' t'); specialize (Hn t'); lia|lia|lia].
Qed.
End history.

Section world.
Context `{RawCanonical} `{NFC} `{JCS} `{Digest}.

Definition store_op (op : WorldOp) : option Op := match op with WStore op => Some op | _ => None end.

Lemma run_world_store w ops : w_store (run_world w ops) = run (w_store w) (omap store_op ops).
Proof.
  revert w. induction ops as [|op ops IH]; intros w; [done|]. change (run_world w (op :: ops)) with (run_world (apply_world w op) ops). rewrite IH.
  by destruct op.
Qed.

Lemma run_world_later w ops later : run_world w (ops ++ later) = run_world (run_world w ops) later.
Proof. unfold run_world. by rewrite foldl_app. Qed.

Lemma count_store_ops ops : count (omap store_op ops) <= count ops.
Proof. unfold count. induction ops as [|op ops IH]; [done|]. cbn [omap list_omap]. destruct op; cbn [store_op length]; lia. Qed.

(** The epoch records that a history has written are read in every later one. *)
Lemma world_history ops later t e :
  count (ops ++ later) <= MaxUint64 -> 0 <= e <= epoch_of (snapshots (projection (w_store (run_world NewWorld ops)))) t ->
  epochHistory (snapshots (projection (w_store (run_world NewWorld (ops ++ later))))) !! epochKey t e =
  epochHistory (snapshots (projection (w_store (run_world NewWorld ops)))) !! epochKey t e.
Proof.
  intros Hlen He. rewrite run_world_later, (run_world_store (run_world NewWorld ops)). unfold count in Hlen. rewrite length_app in Hlen.
  pose proof (count_store_ops ops) as H1'. pose proof (count_store_ops later) as H2'. unfold count in H1', H2'. rewrite run_world_store in He |- *.
  destruct (run_refines NewStore ∅ 0 (omap store_op ops) refines_new) as (l & Hl & _ & Hb); [done|unfold count; lia|].
  eapply (run_history _ l (count (omap store_op ops))); [exact Hl|intros t'; apply Hb|unfold count; lia|exact He].
Qed.

(** ** Saves *)
Lemma ActivateServingConfig_keeps r ctx config :
  let r' := default r (snd (ActivateServingConfig (Some r) ctx config)) in
  runs r' = runs r /\ forall key, configs r' !! key = configs r !! key \/ key = configKey (sc_TenantID config) (sc_ID config) /\ configs r' !! key = Some config.
Proof.
  unfold ActivateServingConfig. cbv zeta. destruct ctx; [by split; [|left]|]. destruct (failed _); [by split; [|left]|].
  destruct (match configs r !! _ with Some _ => _ | None => _ end); [by split; [|left]|]. cbn [snd default from_option id runs configs]. split; [done|]. intros key.
  destruct (decide (configKey (sc_TenantID config) (sc_ID config) = key)) as [<-|Hne]; [right|left]; [by rewrite lookup_insert_eq|by rewrite lookup_insert_ne].
Qed.

Lemma SaveRetrievalRun_keeps r p ctx run :
  let r' := default r (snd (SaveRetrievalRun (Some r) p ctx run)) in
  configs r' = configs r /\ forall key stored, runs r !! key = Some stored -> runs r' !! key = Some stored.
Proof.
  unfold SaveRetrievalRun. cbv zeta. destruct ctx; [done|]. destruct (validated_copy run) as [copy|]; [|done]. destruct (snapshot_mismatch _ _ _); [done|].
  destruct (runs r !! _) as [existing|] eqn:Er; [by destruct (negb _)|]. cbn [snd default from_option id runs configs]. split; [done|]. intros key stored Hk.
  rewrite lookup_insert_ne; [done|]. intros <-. by rewrite Hk in Er.
Qed.

Lemma run_world_runs w later key stored : runs (w_runs w) !! key = Some stored -> runs (w_runs (run_world w later)) !! key = Some stored.
Proof.
  revert w. induction later as [|op later IH]; intros w Hk; [done|]. change (run_world w (op :: later)) with (run_world (apply_world w op) later). apply IH.
  destruct op as [op|ctx config|ctx run]; cbn [apply_world w_runs]; [done| |].
  - by rewrite (proj1 (ActivateServingConfig_keeps (w_runs w) ctx config)).
  - by apply SaveRetrievalRun_keeps.
Qed.

(** ** The keys of the configurations *)
Record keyed_configs (r : RetrievalRunRepository) : Prop := mk_keyed_configs {
  kc_configs : forall key config, configs r !! key = Some config -> key = configKey (sc_TenantID config) (sc_ID config) /\ has_nul (sc_ID config) = false;
  kc_active : forall t id, active r !! t = Some id -> has_nul id = false
}.

Lemma ValidateServingConfig_id config : ValidateServingConfig config = Ok tt -> has_nul (sc_ID config) = false.
Proof.
  unfold ValidateServingConfig, BuildServingConfig. destruct (String.eqb (sc_TenantID config) ""); [done|]. destruct (validateSnapshot _) as [snapshot|]; [|done].
  unfold MarshalAndHash. destruct (marshal _); [|done]. destruct (jcs_transform _) as [c|]; [|done]. cbn [bind sc_ID]. intros Hv. inv_Ok Hv.
  autorewrite with goboolsimpl in *. destruct_and!. match goal with Hid : sc_ID config = _ |- _ => rewrite Hid end.
  destruct (sha256Pattern_bytes _ (sum256_hex_pattern c)) as [Hh _]. rewrite has_nul_app, (token_no_nul _ Hh). reflexivity.
Qed.

Lemma ActivateServingConfig_keyed r ctx config :
  keyed_configs r -> keyed_configs (default r (snd (ActivateServingConfig (Some r) ctx config))).
Proof.
  intros [Hc Ha]. unfold ActivateServingConfig. destruct ctx; [done|]. unfold failed. destruct (ValidateServingConfig config) as [[]|] eqn:Ev; [|done]. cbn [is_ok negb].
  destruct (match configs r !! _ with Some _ => _ | None => _ end); [done|]. apply ValidateServingConfig_id in Ev. cbn [snd default from_option id].
  split; cbn [configs active].
  - intros key c [[<- <-]|[_ Hk]]%lookup_insert_Some; [done|by apply Hc].
  - intros t i [[<- <-]|[_ Hk]]%lookup_insert_Some; [done|by eapply Ha].
Qed.

Lemma SaveRetrievalRun_keyed r p ctx run : keyed_configs r -> keyed_configs (default r (snd (SaveRetrievalRun (Some r) p ctx run))).
Proof.
  intros [Hc Ha]. unfold SaveRetrievalRun. destruct ctx; [done|]. destruct (validated_copy run) as [copy|]; [|done]. destruct (snapshot_mismatch _ _ _); [done|].
  by destruct (runs r !! _) as [existing|]; [destruct (negb _)|].
Qed.

Lemma run_world_keyed w ops : keyed_configs (w_runs w) -> keyed_configs (w_runs (run_world w ops)).
Proof.
  revert w. induction ops as [|op ops IH]; intros w Hk; [done|]. change (run_world w (op :: ops)) with (run_world (apply_world w op) ops). apply IH.
  destruct op as [op|ctx config|ctx run]; cbn [apply_world w_runs]; [done|by apply ActivateServingConfig_keyed|by apply SaveRetrievalRun_keyed].
Qed.

Lemma NewWorld_keyed : keyed_configs (w_runs NewWorld).
Proof. split; intros k c Hk; cbn in Hk; by rewrite lookup_empty in Hk. Qed.

(** ** A snapshot stays valid *)

(** The parts of a configuration that a snapshot pins. *)
Definition same_serving (c c' : ServingConfig) : Prop :=
  sc_PolicyManifestID c = sc_PolicyManifestID c' /\ sc_RankerManifestID c = sc_RankerManifestID c' /\ sc_Indexes c = sc_Indexes c'.

Lemma run_world_config w later key c :
  configs (w_runs w) !! key = Some c ->
  (forall ctx c', WActivate ctx c' ∈ later -> configKey (sc_TenantID c') (sc_ID c') = key -> same_serving c c') ->
  exists c', configs (w_runs (run_world w later)) !! key = Some c' /\ same_serving c c'.
Proof.
  intros Hk Hall. assert (Hex : exists c', configs (w_runs w) !! key = Some c' /\ same_serving c c') by (by exists c). clear Hk.
  revert w Hex. induction later as [|op later IH]; intros w (c' & Hk & Hs); [by exists c'|]. change (run_world w (op :: later)) with (run_world (apply_world w op) later).
  apply IH; [intros ctx c2 Hin; apply (Hall ctx c2); by right|]. destruct op as [op|ctx config|ctx run]; cbn [apply_world w_runs]; [by exists c'| |].
  - destruct (ActivateServingConfig_keeps (w_runs w) ctx config) as [_ Hc]. destruct (Hc key) as [->|[Hkey ->]]; [by exists c'|]. exists config. split; [done|].
    apply (Hall ctx config); [by left|done].
  - exists c'. by rewrite (proj1 (SaveRetrievalRun_keeps (w_runs w) (projection (w_store w)) ctx run)).
Qed.

Lemma AcquireServingSnapshot_inv w t snapshot :
  keyed_configs (w_runs w) -> AcquireServingSnapshot (Some (w_runs w)) (projection (w_store w)) None t = Ok snapshot ->
  exists config, configs (w_runs w) !! configKey t (ss_ServingConfigID snapshot) = Some config /\ sc_PolicyManifestID config = ss_PolicyManifestID snapshot /\
    sc_RankerManifestID config = ss_RankerManifestID snapshot /\ sc_Indexes config = ss_Indexes snapshot /\
    ss_ProjectionEpoch snapshot = epoch_of (snapshots (projection (w_store w))) t /\ ss_DocumentSetHash snapshot <> "" /\
    epochHistory (snapshots (projection (w_store w))) !! epochKey t (ss_ProjectionEpoch snapshot) = Some (ss_DocumentSetHash snapshot).
Proof.
  intros [Hc Ha] Hs. unfold AcquireServingSnapshot in Hs. inv_Ok Hs. destruct (configs (w_runs w) !! _) as [config|] eqn:Ec; [|done]. inv_Ok Hs. injection Hs as <-.
  apply orb_false_iff in E0 as [_ Hh%String.eqb_neq]. exists config. cbn [ss_ServingConfigID ss_PolicyManifestID ss_RankerManifestID ss_Indexes ss_ProjectionEpoch ss_DocumentSetHash].
  split_and!; try done.
  - pose proof Ec as Ec'. apply Hc in Ec' as [Hkey Hn]. assert (Hi : has_nul (default "" (active (w_runs w) !! t)) = false).
    { destruct (active (w_runs w) !! t) as [id|] eqn:Et; [by eapply Ha|done]. }
    unfold configKey in Hkey. apply last_part_inj in Hkey as [_ Hid]; [|done|done]. by rewrite <- Hid.
  - destruct (epochHistory _ !! _); [done|by destruct Hh].
Qed.

Lemma BuildRun_head input run :
  BuildRun input = Ok run -> rn_TenantID run = ni_TenantID input /\ rn_ID run = ni_ID input /\ ni_TenantID input <> "" /\
  rn_Snapshot run = with_indexes (ni_Snapshot input) (sort_indexes (ss_Indexes (ni_Snapshot input))).
Proof. intros []%BuildRun_built. by destruct_and!. Qed.

Lemma BuildRun_sharing input run : BuildRun input = Ok run -> exists copy, validated_copy run = Ok copy /\ sharing run copy = run.
Proof. intros Hb. eexists. split; [by eapply BuildRun_copy|apply sharing_same]. Qed.

(** A run that is built on an acquired snapshot can be saved whatever is
    published, committed, saved and activated in between, so long as the
    configuration itself is not replaced and no other run took its name. *)
Theorem snapshot_savable (before later : list WorldOp) (t : string) (snapshot : ServingSnapshot) (input : RunInput) (run : Run) :
  count (before ++ later) <= MaxUint64 ->
  let w := run_world NewWorld before in
  let w' := run_world NewWorld (before ++ later) in
  AcquireServingSnapshot (Some (w_runs w)) (projection (w_store w)) None t = Ok snapshot -> sort_indexes (ss_Indexes snapshot) = ss_Indexes snapshot ->
  BuildRun input = Ok run -> ni_Snapshot input = snapshot -> ni_TenantID input = t ->
  (forall ctx config, WActivate ctx config ∈ later -> configKey (sc_TenantID config) (sc_ID config) = configKey t (ss_ServingConfigID snapshot) ->
     sc_PolicyManifestID config = ss_PolicyManifestID snapshot /\ sc_RankerManifestID config = ss_RankerManifestID snapshot /\ sc_Indexes config = ss_Indexes snapshot) ->
  (forall stored, runs (w_runs w') !! runKey t (rn_ID run) = Some stored -> rn_ContentHash stored = rn_ContentHash run) ->
  fst (SaveRetrievalRun (Some (w_runs w')) (projection (w_store w')) None run) = Ok tt.
Proof.
  intros Hlen w w' Ha Hsorted Hb Hsnap Ht Hact Hstored. destruct (AcquireServingSnapshot_inv w t snapshot (run_world_keyed _ _ NewWorld_keyed) Ha)
    as (config & Hc & Hp & Hr & Hi & He & Hne & Hh). destruct (BuildRun_head _ _ Hb) as (Hrt & Hrid & _ & Hrs). rewrite Hsnap, Hsorted, with_indexes_same in Hrs.
  destruct (run_world_config w later _ config Hc) as (c' & Hc' & Hp' & Hr' & Hi').
  { intros ctx c2 Hin Hk. destruct (Hact ctx c2 Hin Hk) as (? & ? & ?). unfold same_serving. split_and!; congruence. }
  assert (Hh' : epochHistory (snapshots (projection (w_store w'))) !! epochKey t (ss_ProjectionEpoch snapshot) = Some (ss_DocumentSetHash snapshot)).
  { rewrite <- Hh. apply world_history; [done|]. rewrite He. split; [|done]. fold w. unfold w. rewrite run_world_store.
    unfold count in Hlen. rewrite length_app in Hlen. pose proof (count_store_ops before) as Hso. unfold count in Hso.
    destruct (run_refines NewStore ∅ 0 (omap store_op before) refines_new) as (l & Hl & _ & _); [done|unfold count; lia|]. rewrite (rf_epochs _ _ Hl). unfold count. lia. }
  destruct (BuildRun_sharing _ _ Hb) as (copy & Hcopy & Hshare). unfold SaveRetrievalRun. rewrite Hcopy, Hshare.
  assert (Hmm : snapshot_mismatch (w_runs w') (projection (w_store w')) run = false).
  { unfold snapshot_mismatch. assert (Hw : w' = run_world w later) by apply run_world_later. rewrite Hrs, Hrt, Ht, Hh', Hw, Hc'. cbn [default from_option id]. rewrite <- Hp', <- Hr', <- Hi', Hp, Hr, Hi, !str_eqb_refl.
    rewrite bool_decide_eq_true_2 by done. cbn [negb orb]. by rewrite (proj2 (String.eqb_neq _ _) Hne). }
  rewrite Hmm. rewrite Hrt, Ht. destruct (runs (w_runs w') !! runKey t (rn_ID run)) as [stored|] eqn:Es; [|done]. rewrite (Hstored _ eq_refl), str_eqb_refl. done.
Qed.

(** A run that was built and saved under a new name is returned as it was in every later state. *)
Theorem saved_run_returned `{RunDecoder} (w : World) (later : list WorldOp) (input : RunInput) (run : Run) :
  BuildRun input = Ok run ->
  unmarshal_schema (rn_CanonicalJSON run) = Some runSchemaVersion -> unmarshal_run (rn_CanonicalJSON run) = Some (sealed_run run "" "") ->
  runs (w_runs w) !! runKey (rn_TenantID run) (rn_ID run) = None ->
  fst (SaveRetrievalRun (Some (w_runs w)) (projection (w_store w)) None run) = Ok tt ->
  RetrievalRun (Some (w_runs (run_world w (WSave None run :: later)))) None (rn_TenantID run) (rn_ID run) = Ok run.
Proof.
  intros Hb Hsch Hdec Hfresh Hsave. destruct (BuildRun_head _ _ Hb) as (Hrt & _ & Hne & _). destruct (BuildRun_sharing _ _ Hb) as (copy & Hcopy & Hshare).
  change (run_world w (WSave None run :: later)) with (run_world (apply_world w (WSave None run)) later).
  assert (Hk : runs (w_runs (apply_world w (WSave None run))) !! runKey (rn_TenantID run) (rn_ID run) = Some run).
  { cbn [apply_world w_runs]. unfold SaveRetrievalRun in *. rewrite Hcopy, Hshare, Hfresh in *.
    destruct (snapshot_mismatch _ _ _); [done|]. cbn [snd default from_option id runs]. apply lookup_insert_eq. }
  unfold RetrievalRun. rewrite (run_world_runs _ later _ _ Hk), Hrt, (proj2 (String.eqb_neq _ _) Hne). by eapply BuildRun_decodes.
Qed.
End world.

(** ** Examples *)
#[local] Existing Instance copy_nfc.
#[local] Existing Instance copy_jcs.
#[local] Existing Instance copy_raw.
#[local] Existing Instance checksum_digest.

Module store_demo.
Definition config_or (r : result ServingConfig) : ServingConfig := match r with Ok c => c | Err _ => mk_ServingConfig "" "" "" "" [] "" "" "" end.
Definition demo_config : ServingConfig := Eval vm_compute in config_or (BuildServingConfig "tenant" "policy-1" "ranker-1" run_demo.demo_indexes).

Definition before : list WorldOp := [WStore (OpPublish None first_run); WActivate None demo_config].
Definition later : list WorldOp := [WStore (OpPublish None second_run)].

Definition acquired (ops : list WorldOp) : result ServingSnapshot :=
  let w := run_world NewWorld ops in AcquireServingSnapshot (Some (w_runs w)) (projection (w_store w)) None "tenant".

Definition snapshot_or (r : result ServingSnapshot) : ServingSnapshot := match r with Ok s => s | Err _ => run_demo.demo_snapshot [] end.
Definition served : ServingSnapshot := Eval vm_compute in snapshot_or (acquired before).

Definition input_on (snapshot : ServingSnapshot) : RunInput :=
  let i := run_demo.demo_run_input_1 in
  mk_RunInput (ni_ID i) "tenant" (ni_Query i) (ni_RequestContextHash i) (ni_QueryEnvelope i) snapshot (ni_ChannelExecutions i) (ni_Hits i) (ni_Gates i) (ni_Ranked i)
    (ni_SemanticJudgments i) (ni_Disposition i) (ni_DecisionCode i) (ni_SelectedVersionIDs i) (ni_CreatedAt i) (ni_CompletedAt i) (ni_ExpiresAt i).

Definition served_run : Run := Eval vm_compute in run_demo.run_or (BuildRun (input_on served)).

Definition saved (ops : list WorldOp) (run : Run) : result unit :=
  let w := run_world NewWorld ops in fst (SaveRetrievalRun (Some (w_runs w)) (projection (w_store w)) None run).

Definition served_decoder : RunDecoder :=
  {| unmarshal_schema := fun raw => if String.eqb raw (rn_CanonicalJSON served_run) then Some runSchemaVersion else None;
     unmarshal_v1 := fun _ => None;
     unmarshal_v2 := fun _ => None;
     unmarshal_run := fun raw => if String.eqb raw (rn_CanonicalJSON served_run) then Some (sealed_run served_run "" "") else None |}.
End store_demo.
Import store_demo.
#[local] Existing Instance served_decoder.

Lemma served_run_built : BuildRun (input_on served) = Ok served_run.
Proof. vm_compute. reflexivity. Qed.

Lemma snapshot_savable_witness : saved (before ++ later) served_run = Ok tt.
Proof.
  unfold saved. apply (snapshot_savable before later "tenant" served (input_on served) served_run).
  - vm_compute. discriminate.
  - vm_compute. reflexivity.
  - vm_compute. reflexivity.
  - exact served_run_built.
  - reflexivity.
  - reflexivity.
  - intros ctx config Hin. apply list_elem_of_singleton in Hin. discriminate Hin.
  - intros stored Hs. exfalso. revert Hs. vm_compute. discriminate.
Defined.

Lemma saved_run_returned_witness :
  RetrievalRun (Some (w_runs (run_world (run_world NewWorld before) (WSave None served_run :: later)))) None (rn_TenantID served_run) (rn_ID served_run) = Ok served_run.
Proof.
  apply (saved_run_returned (run_world NewWorld before) later (input_on served) served_run served_run_built); vm_compute; reflexivity.
Defined.

(** A configuration with its indexes in another order, or with a padded manifest
    name, keeps its hash, validates and is activated; every run on its snapshot
    is then refused, and so are the runs on the snapshot it replaced. *)
Definition respelled (policy : string) (indexes : list SnapshotIndex) : ServingConfig :=
  mk_ServingConfig (sc_SchemaVersion demo_config) (sc_TenantID demo_config) policy (sc_RankerManifestID demo_config) indexes (sc_ID demo_config)
    (sc_ContentHash demo_config) (sc_CanonicalJSON demo_config).

Definition unsorted_config : ServingConfig := respelled "policy-1" run_demo.demo_indexes.
Definition padded_config : ServingConfig := respelled " policy-1" (sc_Indexes demo_config).
Definition unsorted_snapshot : ServingSnapshot := Eval vm_compute in snapshot_or (acquired (before ++ [WActivate None unsorted_config])).
Definition unsorted_run : Run := Eval vm_compute in run_demo.run_or (BuildRun (input_on unsorted_snapshot)).

Example respelled_config_refuses_runs :
  ValidateServingConfig unsorted_config = Ok tt /\ ValidateServingConfig padded_config = Ok tt /\
  acquired (before ++ [WActivate None unsorted_config]) = Ok unsorted_snapshot /\ BuildRun (input_on unsorted_snapshot) = Ok unsorted_run /\
  saved (before ++ [WActivate None unsorted_config]) unsorted_run = Err ErrRetrievalSnapshotMismatch /\
  saved before served_run = Ok tt /\ saved (before ++ [WActivate None padded_config]) served_run = Err ErrRetrievalSnapshotMismatch.
Proof. split_and!; vm_compute; reflexivity. Qed.
