(* ===== verification/RetrievalService.v ===== *)
(** * The retrieval service (internal/retrieval/service.go, explain.go, plan.go)

    [Retrieve] answers one request: it builds the query, replays the stored run
    of a repeated request, or else pins a serving snapshot, collects candidates,
    reads their documents at the snapshot's epoch, gates and ranks them, selects
    the best, files the run and attaches an executable plan.

    Everything the service calls through an interface is a parameter: the state
    [W] of the rest of the system and the operations of [Dependencies] on it,
    each of which may change that state in any way.  A service is not nil and
    has no nil dependency here, as [NewService] guarantees; metrics are not
    modelled.  The theorems are in [RetrievalServiceSound]. *)

From Stdlib Require Import ZArith String Ascii List Bool Lia.
From stdpp Require Import base gmap strings list sorting.
From S2P Require Import Prelude GoStrings GoTime Canonical Eligibility Ranking Domain Interfaces.
From S2P Require Import RetrievalQuery RetrievalDocument Projection RetrievalChannels RetrievalRun.

Open Scope Z_scope.
Open Scope go_scope.

(** ** Types *)
Record SemanticJudgmentRequest := mk_SemanticJudgmentRequest {
  jr_TenantID : string;
  jr_Query : Query;
  jr_Document : Document;
  jr_PolicyManifestID : string
}.

Record SemanticJudgment := mk_SemanticJudgment {
  jt_VersionID : string;
  jt_JudgmentKey : string;
  jt_Disposition : string;
  jt_ContentHash : string;
  jt_Provider : string;
  jt_Model : string;
  jt_RubricManifestID : string;
  jt_Features : list FeatureValue
}.

Record PlanNode := mk_PlanNode { on_Ordinal : Z; on_VersionID : string; on_InterfaceHash : string; on_Bridge : bool }.

Record PlanDependency := mk_PlanDependency {
  od_CompatibilityEdgeID : string;
  od_SourceVersionID : string;
  od_TargetVersionID : string;
  od_SourceProvisionIDs : list string;
  od_SatisfiedRequirementIDs : list string
}.

Record ParallelGroup := mk_ParallelGroup { og_Ordinal : Z; og_NodeVersionIDs : list string }.

Record PlanGap := mk_PlanGap { oq_VersionID : string; oq_RequirementID : string; oq_GoalPredicateID : string; oq_Code : string }.

Record PlanArtifact := mk_PlanArtifact {
  pa_InjectionID : string;
  pa_TaskExecutionID : string;
  pa_SelectionHash : string;
  pa_PlanHash : string;
  pa_CompatibilityGraphID : string;
  pa_CompatibilityGraphHash : string;
  pa_CompatibilityMatrixHash : string;
  pa_CandidateSetHash : string;
  pa_PlannerManifestID : string;
  pa_PolicyManifestID : string;
  pa_RankerManifestID : string;
  pa_ServingConfigID : string;
  pa_DocumentSetHash : string;
  pa_TenantID : string;
  pa_RetrievalRunID : string;
  pa_QueryHash : string;
  pa_RequestContextHash : string;
  pa_ProjectionEpoch : Z;
  pa_NoveltyClass : string;
  pa_Complete : bool;
  pa_Nodes : list PlanNode;
  pa_Dependencies : list PlanDependency;
  pa_ParallelGroups : list ParallelGroup;
  pa_Gaps : list PlanGap;
  pa_LimitCodes : list string
}.

(** [ChannelTimeout] and [Retention] in nanoseconds. *)
Record ServiceConfig := mk_ServiceConfig {
  sv_Channels : list Channel;
  sv_RequiredChannels : list string;
  sv_ChannelTimeout : Z;
  sv_Retention : Z;
  sv_MinimumScore : Z;
  sv_MaximumSelections : Z;
  sv_Aliases : AliasSet
}.

Record ServiceRequest := mk_ServiceRequest {
  sq_TenantID : string;
  sq_CurrentPolicyVersion : string;
  sq_RequestIdentityHash : string;
  sq_Input : Input;
  sq_RecallAllowed : bool;
  sq_ExternalInferenceAllowed : bool;
  sq_AllowedResidencyRegions : list string
}.

Record SelectedCandidate := mk_SelectedCandidate {
  sd_VersionID : string;
  sd_ProcedureID : string;
  sd_FinalScore : Z;
  sd_Rank : Z;
  sd_Lifecycle : string;
  sd_ObservedEndToEnd : bool;
  sd_AdvisoryOnly : bool
}.

Record ServiceResponse := mk_ServiceResponse {
  vr_RunID : string;
  vr_Disposition : string;
  vr_DecisionCode : string;
  vr_Candidates : list SelectedCandidate;
  vr_Snapshot : ServingSnapshot;
  vr_QueryHash : string;
  vr_Degraded : list DegradedChannel;
  vr_EnhancementDegraded : list string;
  vr_Approximate : bool;
  vr_Replayed : bool;
  vr_Plan : option PlanArtifact
}.

(** An error as it is returned: itself, or wrapped in a [ServiceError]. *)
Inductive service_error :=
| Plain (e : goerr)
| ServiceError (Code RunID : string) (e : goerr).

(** ** Computations over the rest of the system *)
Section monad.
Context {W : Type}.

Definition M (A : Type) : Type := W -> A * W.
Definition E (A : Type) : Type := W -> (A + service_error) * W.

Definition eret {A} (a : A) : E A := fun w => (inl a, w).
Definition efail {A} (e : service_error) : E A := fun w => (inr e, w).
Definition ebind {A B} (m : E A) (k : A -> E B) : E B :=
  fun w => match m w with (inl a, w') => k a w' | (inr e, w') => (inr e, w') end.

(** A call, with what its error is returned as. *)
Definition call {A} (m : M (result A)) (f : goerr -> service_error) : E A :=
  fun w => match m w with (Ok a, w') => (inl a, w') | (Err e, w') => (inr (f e), w') end.
Definition attempt {A} (m : M A) : E A := fun w => let (a, w') := m w in (inl a, w').
Definition pure {A} (r : result A) (f : goerr -> service_error) : E A := fun w => (match r with Ok a => inl a | Err e => inr (f e) end, w).
End monad.
Arguments M : clear implicits.
Arguments E : clear implicits.

Notation "'let!' x := m 'in' k" := (ebind m (fun x => k))
  (at level 10, x pattern, m at level 100, k at level 200) : go_scope.
Notation "'refuse' b 'with' e ; k" := (if b then efail e else k)
  (at level 10, b at level 100, e at level 100, k at level 200) : go_scope.

(** What the service calls.  [dp_Search] is the schedule of the receiving loop of
    [CollectCandidates] up to its deadline, [ctx.Err()] at the deadline and
    [ctx.Err()] after the loop; [dp_Wait] ends with [ctx.Err()] if the context
    ends before the timer. *)
Record Dependencies (W : Type) := mk_Dependencies {
  dp_AcquireServingSnapshot : string -> M W (result ServingSnapshot);
  dp_SaveRetrievalRun : Run -> M W (result unit);
  dp_RetrievalRun : string -> string -> M W (result Run);
  dp_RetrievalDocuments : string -> list string -> Z -> M W (result (list Document));
  dp_EligibilityPolicy : string -> string -> M W (result Policy);
  dp_Ranker : string -> string -> M W (result Ranking.Manifest);
  dp_InferEffectSignature : option (string -> Query -> M W (result string));
  dp_Encrypt : string -> string -> M W (result string);
  dp_NewRunID : M W (result string);
  dp_Clock : M W gotime;
  dp_Search : CollectRequest -> M W (list Event * option goerr * option goerr);
  dp_Admit : option (list Ranking.Result -> result (list string));
  dp_Judge : SemanticJudgmentRequest -> M W SemanticJudgment;
  dp_FindByRetrievalRunID : string -> string -> M W (result PlanArtifact);
  dp_Issue : Run -> list Document -> M W (result PlanArtifact);
  dp_Wait : Z -> M W (option goerr)
}.
Arguments dp_AcquireServingSnapshot {W} d.
Arguments dp_SaveRetrievalRun {W} d.
Arguments dp_RetrievalRun {W} d.
Arguments dp_RetrievalDocuments {W} d.
Arguments dp_EligibilityPolicy {W} d.
Arguments dp_Ranker {W} d.
Arguments dp_InferEffectSignature {W} d.
Arguments dp_Encrypt {W} d.
Arguments dp_NewRunID {W} d.
Arguments dp_Clock {W} d.
Arguments dp_Search {W} d.
Arguments dp_Admit {W} d.
Arguments dp_Judge {W} d.
Arguments dp_FindByRetrievalRunID {W} d.
Arguments dp_Issue {W} d.
Arguments dp_Wait {W} d.

(** ** NewService *)
Fixpoint service_channels_ok (seen : gset string) (channels : list Channel) : option (gset string) :=
  match channels with
  | [] => Some seen
  | c :: channels =>
      if negb (validChannel (cn_Name c)) || bool_decide (cn_Name c ∈ seen) || negb (Bool.eqb (cn_Approximate c) (String.eqb (cn_Name c) ChannelVector)) then None
      else service_channels_ok ({[ cn_Name c ]} ∪ seen) channels
  end.

Fixpoint required_ok (seen requiredSeen : gset string) (required : list string) : bool :=
  match required with
  | [] => true
  | r :: required => bool_decide (r ∈ seen) && negb (bool_decide (r ∈ requiredSeen)) && required_ok seen ({[ r ]} ∪ requiredSeen) required
  end.

(** The configuration of the new service. *)
Definition NewService (config : ServiceConfig) : result ServiceConfig :=
  reject (sv_ChannelTimeout config <=? 0) || (sv_Retention config <=? 0) || (30 * 24 * Hour <? sv_Retention config) || (sv_MaximumSelections config =? 0) ||
         (100 <? sv_MaximumSelections config) || (count (sv_Channels config) =? 0) with ErrServiceUnavailable;
  match service_channels_ok ∅ (sv_Channels config) with
  | None => Err ErrServiceUnavailable
  | Some seen =>
      reject negb (required_ok seen ∅ (sv_RequiredChannels config)) with ErrServiceUnavailable;
      Ok (mk_ServiceConfig (sv_Channels config) (sort_strings (sv_RequiredChannels config)) (sv_ChannelTimeout config) (sv_Retention config)
            (sv_MinimumScore config) (sv_MaximumSelections config) (sv_Aliases config))
  end.

(** ** The pure helpers *)
Fixpoint active_channels (configured : gmap string Channel) (indexes : list SnapshotIndex) : option (list Channel) :=
  match indexes with
  | [] => Some []
  | i :: indexes =>
      match configured !! si_Channel i with
      | None => None
      | Some channel =>
          if negb (String.eqb (cn_ManifestID channel) (si_ManifestID i)) || negb (Bool.eqb (cn_Approximate channel) (si_Approximate i)) then None
          else match active_channels configured indexes with Some active => Some (channel :: active) | None => None end
      end
  end.

Definition snapshotChannels (config : ServiceConfig) (snapshot : ServingSnapshot) : result (list Channel) :=
  let configured : gmap string Channel := foldl (fun m c => <[cn_Name c := c]> m) ∅ (sv_Channels config) in
  match active_channels configured (ss_Indexes snapshot) with
  | None => Err ErrServiceUnavailable
  | Some active =>
      reject negb (forallb (fun required => existsb (fun i => String.eqb (si_Channel i) required) (ss_Indexes snapshot)) (sv_RequiredChannels config))
        with ErrServiceUnavailable;
      reject count active =? 0 with ErrServiceUnavailable;
      Ok active
  end.

Definition persistedChannels (collection : CandidateCollection) : list ChannelExecution * list PersistedHit :=
  (List.map (fun r => mk_ChannelExecution (RetrievalChannels.cr_Channel r) (cr_IndexManifestID r) (cr_HitCount r) (cr_Approximate r) true "" (cr_LatencyMicros r))
     (co_Results collection) ++
   List.map (fun d => mk_ChannelExecution (dg_Channel d) (dg_IndexManifestID d) 0 (dg_Approximate d) false (dg_Code d) (dg_LatencyMicros d)) (co_Degraded collection),
   flat_map (fun c => List.map (fun h => mk_PersistedHit (rh_Channel h) (cs_VersionID c) (rh_Rank h) (rh_RawScoreQuantized h) (rh_IndexManifestID h) (rh_Approximate h))
                        (cs_Hits c)) (co_Candidates collection)).

Definition requiredDegradation (degraded : list DegradedChannel) (required : list string) : string :=
  let set : gset string := list_to_set (List.map dg_Channel degraded) in
  default "" (List.find (fun name => bool_decide (name ∈ set)) required).

Definition eligibilityRisk (value : string) : Z :=
  if String.eqb value RiskLow then Eligibility.RiskLow
  else if String.eqb value RiskMedium then Eligibility.RiskMedium
  else if String.eqb value RiskHigh then Eligibility.RiskHigh
  else if String.eqb value RiskCritical then Eligibility.RiskCritical
  else 0.

Definition semanticFeatureNames : list string :=
  ["jev_intent_fit_micros"; "jev_non_contradiction_micros"; "jev_partial_plan_micros"; "jev_preconditions_micros"; "jev_task_coverage_micros"].

Definition supportsSemanticFeatures (manifest : Ranking.Manifest) : bool :=
  let specs := featureSpecMap (ms_Features (m_Spec manifest)) in
  forallb (fun name => match specs !! name with
                       | None => false
                       | Some spec => (fs_Minimum spec =? 0) && (fs_Maximum spec =? 1000000) && (0 <=? fs_Missing spec) && (fs_Missing spec <=? 1000000)
                       end) semanticFeatureNames.

(** The counts of a document are [uint64], its verification strength a [uint8]. *)
Definition rankingFeatures (manifest : Ranking.Manifest) (document : Document) : list FeatureValue :=
  let value_of (name : string) : option Z :=
    if String.eqb name "verified_success_count" then Some (wrap_i64 (dc_VerifiedSuccessCount document))
    else if String.eqb name "unsafe_outcome_count" then Some (wrap_i64 (dc_UnsafeOutcomeCount document))
    else if String.eqb name "verification_strength" then Some (dc_VerificationStrength document)
    else None in
  omap (fun spec =>
    match value_of (fs_Name spec) with
    | None => None
    | Some value =>
        let value := if value <? fs_Minimum spec then fs_Minimum spec else value in
        let value := if fs_Maximum spec <? value then fs_Maximum spec else value in
        Some (mk_FeatureValue (fs_Name spec) (wrap_i32 value))
    end) (ms_Features (m_Spec manifest)).

Definition sort_feature_values : list FeatureValue -> list FeatureValue := sort_slice (cmp_ltb (cmp_on fv_Name String.compare)).

Definition validSemanticJudgment (judgment : SemanticJudgment) (manifest : Ranking.Manifest) : bool :=
  negb (String.eqb (jt_VersionID judgment) "") && HasPrefix (jt_JudgmentKey judgment) "jevj_" && (str_len (jt_JudgmentKey judgment) =? 69) &&
  negb (String.eqb (jt_Disposition judgment) "") && (str_len (jt_Disposition judgment) <=? 128) && String.eqb (jt_Provider judgment) "typesafe" &&
  negb (String.eqb (jt_Model judgment) "") && negb (String.eqb (jt_RubricManifestID judgment) "") &&
  (if String.eqb (jt_ContentHash judgment) "" then count (jt_Features judgment) =? 0
   else
     sha256Pattern (jt_ContentHash judgment) && (count (jt_Features judgment) =? count semanticFeatureNames) &&
     (let specs := featureSpecMap (ms_Features (m_Spec manifest)) in
      forallb (fun nf => String.eqb (fv_Name (snd nf)) (fst nf) &&
                 match specs !! fst nf with
                 | None => false
                 | Some spec => (fs_Minimum spec <=? fv_Value (snd nf)) && (fv_Value (snd nf) <=? fs_Maximum spec)
                 end) (combine semanticFeatureNames (sort_feature_values (jt_Features judgment))))).

Definition persisted_feature (f : FeatureValue) : PersistedFeature := mk_PersistedFeature (fv_Name f) (fv_Value f).

Definition persistedRanking (results : list Ranking.Result) (candidates : list Ranking.Candidate) : list PersistedRank :=
  let features : gmap string (list FeatureValue) := foldl (fun m c => <[c_VersionID c := c_Features c]> m) ∅ candidates in
  List.map (fun item =>
    mk_PersistedRank (r_VersionID item) (r_RRFScore item) (r_FinalScore item) (r_Rank item) (r_VerificationStrength item) (r_ObservedEndToEnd item)
      (List.map persisted_feature (default [] (features !! r_VersionID item))) (sort_strings (elements (r_MissingFeatures item)))) results.

Definition semanticDegradations (judgments : list PersistedSemanticJudgment) : list string :=
  sort_strings (List.map (fun j => (sj_VersionID j ++ ":" ++ sj_Disposition j)%string)
    (List.filter (fun j => negb (String.eqb (sj_Disposition j) "committed") && negb (String.eqb (sj_Disposition j) "cache_hit")) judgments)).

(** The code before the first colon. *)
Fixpoint before_colon (s : string) : string :=
  match s with
  | EmptyString => EmptyString
  | String a s => if Ascii.eqb a colon then EmptyString else String a (before_colon s)
  end.

(** The decision that a failed run reports. *)
Definition failure_of (run : Run) : service_error := ServiceError (before_colon (rn_DecisionCode run)) (rn_ID run) ErrServiceUnavailable.

(** "[if _, exists := docByID[...]; exists { ... }]": [None] if a version comes twice. *)
Fixpoint documents_by_id (docByID : gmap string Document) (documents : list Document) : option (gmap string Document) :=
  match documents with
  | [] => Some docByID
  | d :: documents =>
      match docByID !! dc_ProcedureVersionID d with
      | Some _ => None
      | None => documents_by_id (<[dc_ProcedureVersionID d := d]> docByID) documents
      end
  end.

(** The candidates whose gate is open, in rank order: the advisory ones, and the
    selected ones up to the limit with at least the minimum score. *)
Fixpoint choose (config : ServiceConfig) (docByID : gmap string Document) (decisionByID : gmap string Eligibility.Decision) (selectedIDs : list string)
    (ranked : list Ranking.Result) : list string * list SelectedCandidate :=
  match ranked with
  | [] => (selectedIDs, [])
  | item :: ranked =>
      let document := default zero_document (docByID !! r_VersionID item) in
      let advisory := match decisionByID !! r_VersionID item with Some d => d_AdvisoryOnly d | None => false end in
      let candidate := mk_SelectedCandidate (r_VersionID item) (dc_ProcedureID document) (r_FinalScore item) (r_Rank item) (dc_Lifecycle document)
                         (dc_ObservedEndToEnd document) advisory in
      if advisory then
        let '(ids, candidates) := choose config docByID decisionByID selectedIDs ranked in (ids, candidate :: candidates)
      else if (r_FinalScore item <? sv_MinimumScore config) || (sv_MaximumSelections config <=? count selectedIDs) then
        choose config docByID decisionByID selectedIDs ranked
      else
        let '(ids, candidates) := choose config docByID decisionByID (selectedIDs ++ [r_VersionID item]) ranked in (ids, candidate :: candidates)
  end.

Definition rejection_json (r : Rejection) : json :=
  JObj (fstr "code" (rj_Code r) ++ fstr "subject_id" (rj_SubjectID r) ++ fstr "field" (rj_Field r) ++ fstr "expected" (rj_Expected r) ++
        fstr "observed" (rj_Observed r)).

(** A decision without rejections has a nil slice, which is encoded as null. *)
Definition rejections_json (l : list Rejection) : json := match l with [] => JNull | _ => JArr (List.map rejection_json l) end.

Definition request_context_json (request : ServiceRequest) (queryHash : string) (regions : list string) : json :=
  JObj (fstr "tenant_id" (sq_TenantID request) ++ fstr "query_hash" queryHash ++ fbool "recall_allowed" (sq_RecallAllowed request) ++
        fbool "external_inference_allowed" (sq_ExternalInferenceAllowed request) ++ fstrs "allowed_residency_regions" regions).

(** The loop over the sorted regions: a region that equals the last one kept is dropped; [kept] is in reverse order. *)
Fixpoint unique_regions (kept : list string) (regions : list string) : option (list string) :=
  match regions with
  | [] => Some (rev kept)
  | region :: regions =>
      let region := TrimSpace region in
      if String.eqb region "" then None
      else match kept with
           | last :: _ => if String.eqb last region then unique_regions kept regions else unique_regions (region :: kept) regions
           | [] => unique_regions [region] regions
           end
  end.

Section helpers.
Context `{NFC} `{JCS} `{Digest}.

Definition retrievalRequestContextHash (request : ServiceRequest) (query : Query) : result string :=
  match unique_regions [] (sort_strings (sq_AllowedResidencyRegions request)) with
  | None => Err ErrInvalidQuery
  | Some unique => let* (_, hash) := MarshalAndHash (request_context_json request (qu_Hash query) unique) in Ok hash
  end.

Definition resource_identity_hash (tenantID : string) (r : RetrievalQuery.Resource) : string :=
  sum256_hex (tenantID ++ nul ++ qr_Namespace r ++ nul ++ qr_Type r ++ nul ++ qr_Identity r)%string.

Definition eligibilityContextFrom (request : ServiceRequest) (query : Query) (now : gotime) : Eligibility.Context :=
  Eligibility.mk_Context (sq_TenantID request) (Unix now) (sq_RecallAllowed request)
    (List.map (fun t => Eligibility.mk_Tool (tl_Name t) (tl_ContractVersionID t)) (qu_Tools query))
    (Eligibility.mk_Harness (hn_Name (qu_Harness query)) (hn_Version (qu_Harness query)))
    (List.map (fun f => Eligibility.mk_Fact (fc_Name f) (fc_Value f)) (qu_Environment query))
    (List.map (fun r => Eligibility.mk_Resource (qr_Type r) (qr_Namespace r) (resource_identity_hash (sq_TenantID request) r) (qr_SchemaVersion r)) (qu_Resources query))
    (qu_ForbiddenEffects query) (eligibilityRisk (qu_RiskClass query)) (sq_AllowedResidencyRegions request).

(** A time that does not parse is the zero time. *)
Definition eligibilityCandidateFrom (document : Document) : Eligibility.Candidate :=
  Eligibility.mk_Candidate (dc_ProcedureVersionID document) (dc_TenantID document) [] (dc_Lifecycle document) ""
    (List.map (fun t => Eligibility.mk_Tool (td_Name t) (td_ContractVersionID t)) (dc_Tools document))
    (Eligibility.mk_Harness (hn_Name (dc_Harness document)) (hn_Version (dc_Harness document)))
    (List.map (fun f => Eligibility.mk_Fact (fc_Name f) (fc_Value f)) (dc_Environment document))
    (List.map (fun r => Eligibility.mk_Resource (rr_Type r) (rr_Namespace r) (rr_IdentityHash r) (rr_SchemaVersion r)) (dc_Resources document))
    (dc_Effects document) (eligibilityRisk (dc_RiskClass document)) (Unix (default zero_time (parse_rfc3339nano (dc_ValidatedAt document))))
    (dc_ValidationPolicyVersion document) (dc_LearnedWithRecallConsent document) (dc_ResidencyRegion document).

Definition persistedGate (versionID : string) (decision : Eligibility.Decision) : result PersistedGate :=
  let* (facts, _) := MarshalAndHash (rejections_json (d_Rejections decision)) in
  Ok (mk_PersistedGate versionID (d_Eligible decision) (d_AdvisoryOnly decision)
        (sort_strings (remove_dups (List.map rj_Code (d_Rejections decision)))) facts).

(** [gates], [rankingCandidates] and [decisionByID] *)
Record Assessment := mk_Assessment {
  as_Gates : list PersistedGate;
  as_Candidates : list Ranking.Candidate;
  as_Decisions : gmap string Eligibility.Decision
}.

Definition ranking_candidate (ranker : Ranking.Manifest) (document : Document) (hits : list RankedHit) : Ranking.Candidate :=
  Ranking.mk_Candidate (dc_ProcedureVersionID document) (List.map (fun h => mk_ChannelRank (rh_Channel h) (rh_Rank h)) hits) (rankingFeatures ranker document)
    (dc_VerificationStrength document) (dc_ObservedEndToEnd document).

Fixpoint assess (policy : PolicySpec) (context : Eligibility.Context) (ranker : Ranking.Manifest) (runID : string) (docByID : gmap string Document)
    (a : Assessment) (candidates : list CandidateSet) : Assessment + service_error :=
  match candidates with
  | [] => inl a
  | c :: candidates =>
      match docByID !! cs_VersionID c with
      | None => inr (ServiceError "candidate_snapshot_missing" runID ErrServiceUnavailable)
      | Some document =>
          let version := dc_ProcedureVersionID document in
          let decision := Evaluate policy context (eligibilityCandidateFrom document) in
          match persistedGate version decision with
          | Err e => inr (Plain e)
          | Ok gate =>
              assess policy context ranker runID docByID
                (mk_Assessment (as_Gates a ++ [gate])
                   (if d_Eligible decision then as_Candidates a ++ [ranking_candidate ranker document (cs_Hits c)] else as_Candidates a)
                   (<[version := decision]> (as_Decisions a))) candidates
          end
      end
  end.

(** ** Semantic judgments *)
Fixpoint admitted_ok (eligible seen : gset string) (admitted : list string) : bool :=
  match admitted with
  | [] => true
  | v :: admitted => bool_decide (v ∈ eligible) && negb (bool_decide (v ∈ seen)) && admitted_ok eligible ({[ v ]} ∪ seen) admitted
  end.

Definition persisted_judgment (j : SemanticJudgment) : PersistedSemanticJudgment :=
  mk_PersistedSemanticJudgment (jt_VersionID j) (jt_JudgmentKey j) (jt_Disposition j) (jt_ContentHash j) (jt_Provider j) (jt_Model j) (jt_RubricManifestID j)
    (List.map persisted_feature (jt_Features j)).

Definition add_features (features : list FeatureValue) (c : Ranking.Candidate) : Ranking.Candidate :=
  Ranking.mk_Candidate (c_VersionID c) (c_ChannelRanks c) (c_Features c ++ features) (c_VerificationStrength c) (c_ObservedEndToEnd c).

(** [byVersion]: the last position of a version; a version that is missing gives position zero. *)
Definition positions (candidates : list Ranking.Candidate) : gmap string nat :=
  snd (foldl (fun acc c => (S (fst acc), <[c_VersionID c := fst acc]> (snd acc))) (0%nat, ∅) candidates).

Definition judgment_step (manifest : Ranking.Manifest) (byVersion : gmap string nat) (acc : list Ranking.Candidate * list PersistedSemanticJudgment)
    (j : SemanticJudgment) : list Ranking.Candidate * list PersistedSemanticJudgment :=
  let '(copies, persisted) := acc in
  if negb (validSemanticJudgment j manifest) then acc
  else (if String.eqb (jt_ContentHash j) "" then copies else alter (add_features (jt_Features j)) (default 0%nat (byVersion !! jt_VersionID j)) copies,
        persisted ++ [persisted_judgment j]).

(** The ranking after the judgments are in, the judgments to persist, and [candidates] after the call. *)
Definition apply_judgments (manifest : Ranking.Manifest) (candidates : list Ranking.Candidate) (preliminary : list Ranking.Result) (admitted : list string)
    (judgments : list SemanticJudgment) : list Ranking.Result * list PersistedSemanticJudgment * list Ranking.Candidate :=
  let '(copies, persisted) := foldl (judgment_step manifest (positions candidates)) (candidates, []) judgments in
  if count persisted =? 0 then (preliminary, [], candidates)
  else if negb (count persisted =? count admitted) || existsb (fun j => String.eqb (sj_ContentHash j) "") persisted then (preliminary, persisted, candidates)
  else match Rank manifest copies with
       | Err _ => (preliminary, persisted, candidates)
       | Ok reranked => (reranked, persisted, copies)
       end.
End helpers.

(** ** The service *)
Section service.
Context `{RawCanonical} `{NFC} `{JCS} `{Digest} {W : Type}.
Context (config : ServiceConfig) (d : Dependencies W).

Definition is_error (e target : goerr) : bool := bool_decide (e = target).

Definition runID (tenantID requestIdentityHash : string) : E W string :=
  if String.eqb requestIdentityHash "" then call (dp_NewRunID d) (ServiceError "run_id_unavailable" "")
  else
    refuse negb (sha256Pattern requestIdentityHash) with Plain ErrInvalidQuery;
    eret ("rrun_" ++ sum256_hex (tenantID ++ nul ++ requestIdentityHash))%string.

Definition buildRun (id tenantID : string) (query : Query) (requestContextHash envelope : string) (snapshot : ServingSnapshot)
    (executions : list ChannelExecution) (hits : list PersistedHit) (gates : list PersistedGate) (ranks : list PersistedRank)
    (semantic : list PersistedSemanticJudgment) (disposition code : string) (selected : list string) (started : gotime) : E W Run :=
  let! now := attempt (dp_Clock d) in
  let completed := UTC now in
  let completed := if Before completed started then started else completed in
  pure (BuildRun (mk_RunInput id tenantID query requestContextHash envelope snapshot executions hits gates ranks semantic disposition code selected started
                    completed (time_Add completed (sv_Retention config)))) Plain.

Definition plan_mismatch (plan : PlanArtifact) (run : Run) : bool :=
  String.eqb (pa_InjectionID plan) "" || String.eqb (pa_TaskExecutionID plan) "" || String.eqb (pa_SelectionHash plan) "" || String.eqb (pa_PlanHash plan) "" ||
  (count (pa_Nodes plan) =? 0) || negb (String.eqb (pa_TenantID plan) (rn_TenantID run)) || negb (String.eqb (pa_RetrievalRunID plan) (rn_ID run)) ||
  negb (String.eqb (pa_QueryHash plan) (rn_QueryHash run)) || negb (String.eqb (pa_RequestContextHash plan) (rn_RequestContextHash run)) ||
  negb (pa_ProjectionEpoch plan =? ss_ProjectionEpoch (rn_Snapshot run)).

Definition with_plan (r : ServiceResponse) (plan : PlanArtifact) : ServiceResponse :=
  mk_ServiceResponse (vr_RunID r) (vr_Disposition r) (vr_DecisionCode r) (vr_Candidates r) (vr_Snapshot r) (vr_QueryHash r) (vr_Degraded r)
    (vr_EnhancementDegraded r) (vr_Approximate r) (vr_Replayed r) (Some plan).

Definition with_candidates (r : ServiceResponse) (candidates : list SelectedCandidate) : ServiceResponse :=
  mk_ServiceResponse (vr_RunID r) (vr_Disposition r) (vr_DecisionCode r) candidates (vr_Snapshot r) (vr_QueryHash r) (vr_Degraded r)
    (vr_EnhancementDegraded r) (vr_Approximate r) (vr_Replayed r) (vr_Plan r).

(** The plan of a run: the one that was issued, or a new one. *)
Definition find_or_issue (run : Run) (documents : list Document) : M W (result PlanArtifact) := fun w =>
  match dp_FindByRetrievalRunID d (rn_TenantID run) (rn_ID run) w with
  | (Err e, w') => if is_error e ErrPlanNotFound then dp_Issue d run documents w' else (Err e, w')
  | found => found
  end.

Definition attachPlan (response : ServiceResponse) (run : Run) (documents : list Document) : E W ServiceResponse :=
  let! plan := call (find_or_issue run documents) (ServiceError "plan_persistence_failed" (rn_ID run)) in
  refuse plan_mismatch plan run with ServiceError "plan_persistence_failed" (rn_ID run) ErrPlanUnavailable;
  eret (with_plan response plan).

(** The executions that did not complete. *)
Definition degraded_executions (executions : list ChannelExecution) : list DegradedChannel :=
  omap (fun e => if ex_Complete e then None
                 else Some (mk_DegradedChannel (ex_Channel e) (ex_DegradationCode e) (ex_IndexManifestID e) (ex_Approximate e) (ex_LatencyMicros e))) executions.

Definition included (run : Run) : gset string :=
  list_to_set (rn_SelectedVersionIDs run) ∪ list_to_set (List.map pg_VersionID (List.filter pg_AdvisoryOnly (rn_Gates run))).

(** The loop over [run.Ranked]; [None] if a document is missing. *)
Fixpoint replayed_candidates (include : gset string) (docByID : gmap string Document) (gateByID : gmap string PersistedGate) (ranked : list PersistedRank)
    : option (list SelectedCandidate) :=
  match ranked with
  | [] => Some []
  | item :: ranked =>
      if negb (bool_decide (pk_VersionID item ∈ include)) then replayed_candidates include docByID gateByID ranked
      else
        match docByID !! pk_VersionID item with
        | None => None
        | Some document =>
            match replayed_candidates include docByID gateByID ranked with
            | None => None
            | Some candidates =>
                Some (mk_SelectedCandidate (pk_VersionID item) (dc_ProcedureID document) (pk_FinalScore item) (pk_Rank item) (dc_Lifecycle document)
                        (dc_ObservedEndToEnd document) (match gateByID !! pk_VersionID item with Some g => pg_AdvisoryOnly g | None => false end) :: candidates)
            end
        end
  end.

Definition snapshot_missing (run : Run) : service_error := ServiceError "candidate_snapshot_missing" (rn_ID run) ErrServiceUnavailable.

Definition response_head (run : Run) (degraded : list DegradedChannel) (approximate replayed : bool) : ServiceResponse :=
  mk_ServiceResponse (rn_ID run) (rn_Disposition run) (rn_DecisionCode run) [] (rn_Snapshot run) (rn_QueryHash run) degraded
    (semanticDegradations (rn_SemanticJudgments run)) approximate replayed None.

Definition responseFromRun (run : Run) : E W ServiceResponse :=
  let response := response_head run (degraded_executions (rn_ChannelExecutions run))
    (existsb (fun e => ex_Approximate e && ex_Complete e) (rn_ChannelExecutions run)) true in
  refuse String.eqb (rn_Disposition run) RunFailed with failure_of run;
  let include := included run in
  if bool_decide (include = ∅) then eret response
  else
    let ids := sort_strings (elements include) in
    let! documents := call (dp_RetrievalDocuments d (rn_TenantID run) ids (ss_ProjectionEpoch (rn_Snapshot run))) (fun _ => snapshot_missing run) in
    refuse negb (count documents =? count ids) with snapshot_missing run;
    match documents_by_id ∅ documents with
    | None => efail (snapshot_missing run)
    | Some docByID =>
        match replayed_candidates include docByID (foldl (fun m g => <[pg_VersionID g := g]> m) ∅ (rn_Gates run)) (rn_Ranked run) with
        | None => efail (snapshot_missing run)
        | Some candidates =>
            let response := with_candidates response candidates in
            if negb (String.eqb (rn_Disposition run) RunSelected) then eret response else attachPlan response run documents
        end
    end.

(** [persistedWinner]: three lookups, with a pause after the first two; [attempts] counts those left. *)
Fixpoint persistedWinner_from (attempts : nat) (tenantID id : string) (lastErr : goerr) : M W (result Run) := fun w =>
  match attempts with
  | O => (Err lastErr, w)
  | S attempts =>
      match dp_RetrievalRun d tenantID id w with
      | (Ok run, w') => (Ok run, w')
      | (Err e, w') =>
          if negb (is_error e ErrRunNotFound) then (Err e, w')
          else match attempts with
               | O => (Err e, w')
               | _ =>
                   match dp_Wait d (Z.of_nat (3 - attempts) * 5000000) w' with
                   | (Some ctx, w'') => (Err ctx, w'')
                   | (None, w'') => persistedWinner_from attempts tenantID id e w''
                   end
               end
      end
  end.
Definition persistedWinner (tenantID id : string) : M W (result Run) := persistedWinner_from 3 tenantID id ErrRunNotFound.

Definition conflicts (run : Run) (queryHash requestContextHash : string) : bool :=
  negb (String.eqb (rn_QueryHash run) queryHash) || negb (String.eqb (rn_RequestContextHash run) requestContextHash).

Definition persistRun (run : Run) (collection : CandidateCollection) : E W ServiceResponse := fun w =>
  match dp_SaveRetrievalRun d run w with
  | (Err e, w') =>
      match persistedWinner (rn_TenantID run) (rn_ID run) w' with
      | (Ok winner, w'') =>
          if conflicts winner (rn_QueryHash run) (rn_RequestContextHash run) then efail (ServiceError "idempotency_conflict" (rn_ID run) ErrIdempotencyConflict) w''
          else responseFromRun winner w''
      | (Err _, w'') => efail (ServiceError "run_persistence_failed" (rn_ID run) e) w''
      end
  | (Ok _, w') =>
      if String.eqb (rn_Disposition run) RunFailed then efail (failure_of run) w'
      else eret (response_head run (co_Degraded collection) (co_Approximate collection) false) w'
  end.

(** What is known of a request when its candidates have been collected. *)
Record Serving := mk_Serving {
  sg_Request : ServiceRequest;
  sg_Query : Query;
  sg_ContextHash : string;
  sg_RunID : string;
  sg_Snapshot : ServingSnapshot;
  sg_Policy : Policy;
  sg_Ranker : Ranking.Manifest;
  sg_Envelope : string;
  sg_Started : gotime;
  sg_Collection : CandidateCollection
}.

(** [persistOutcome], which is also the shape of the calls of [buildRun] and [persistRun] for a failed run. *)
Definition persistOutcome (s : Serving) (gates : list PersistedGate) (ranks : list PersistedRank) (semantic : list PersistedSemanticJudgment)
    (disposition code : string) (selected : list string) : E W ServiceResponse :=
  let '(executions, hits) := persistedChannels (sg_Collection s) in
  let! run := buildRun (sg_RunID s) (sq_TenantID (sg_Request s)) (sg_Query s) (sg_ContextHash s) (sg_Envelope s) (sg_Snapshot s) executions hits gates ranks
                semantic disposition code selected (sg_Started s) in
  persistRun run (sg_Collection s).

Fixpoint judge_all (tenantID : string) (query : Query) (policyManifestID : string) (documents : gmap string Document) (admitted : list string)
    : M W (list SemanticJudgment) := fun w =>
  match admitted with
  | [] => ([], w)
  | v :: admitted =>
      let (j, w) := dp_Judge d (mk_SemanticJudgmentRequest tenantID query (default zero_document (documents !! v)) policyManifestID) w in
      let (js, w) := judge_all tenantID query policyManifestID documents admitted w in
      (j :: js, w)
  end.

(** The goroutines that judge the admitted versions write to their own positions; they are run in that order here. *)
Definition applySemanticJudgments (admission : list Ranking.Result -> result (list string)) (s : Serving) (documents : gmap string Document)
    (candidates : list Ranking.Candidate) (preliminary : list Ranking.Result)
    : M W (list Ranking.Result * list PersistedSemanticJudgment * list Ranking.Candidate) := fun w =>
  match admission preliminary with
  | Err _ => ((preliminary, [], candidates), w)
  | Ok admitted =>
      if (32 <? count admitted) || (count admitted =? 0) || negb (admitted_ok (list_to_set (List.map r_VersionID preliminary)) ∅ admitted)
      then ((preliminary, [], candidates), w)
      else
        let (judgments, w) := judge_all (sq_TenantID (sg_Request s)) (sg_Query s) (ss_PolicyManifestID (sg_Snapshot s)) documents admitted w in
        (apply_judgments (sg_Ranker s) candidates preliminary admitted judgments, w)
  end.

Definition semantic_ranking (s : Serving) (documents : gmap string Document) (candidates : list Ranking.Candidate) (preliminary : list Ranking.Result)
    : M W (list Ranking.Result * list PersistedSemanticJudgment * list Ranking.Candidate) :=
  match dp_Admit d with
  | Some admission =>
      if sq_ExternalInferenceAllowed (sg_Request s) && supportsSemanticFeatures (sg_Ranker s)
      then applySemanticJudgments admission s documents candidates preliminary
      else fun w => ((preliminary, [], candidates), w)
  | None => fun w => ((preliminary, [], candidates), w)
  end.

(** From the documents of the candidates to the response. *)
Definition decide_candidates (s : Serving) (documents : list Document) (docByID : gmap string Document) : E W ServiceResponse :=
  let! now := attempt (dp_Clock d) in
  let context := eligibilityContextFrom (sg_Request s) (sg_Query s) (UTC now) in
  match assess (pol_Spec (sg_Policy s)) context (sg_Ranker s) (sg_RunID s) docByID (mk_Assessment [] [] ∅) (co_Candidates (sg_Collection s)) with
  | inr e => efail e
  | inl a =>
      if count (as_Candidates a) =? 0 then persistOutcome s (as_Gates a) [] [] RunAbstained "no_eligible_candidates" []
      else
        let! preliminary := pure (Rank (sg_Ranker s) (as_Candidates a)) (ServiceError "ranking_failed" (sg_RunID s)) in
        let! (ranked, judgments, candidates) := attempt (semantic_ranking s docByID (as_Candidates a) preliminary) in
        let persistedRanks := persistedRanking ranked candidates in
        let '(selectedIDs, responseCandidates) := choose config docByID (as_Decisions a) [] ranked in
        if count selectedIDs =? 0 then
          let! response := persistOutcome s (as_Gates a) persistedRanks judgments RunAbstained "below_confidence_threshold" [] in
          if vr_Replayed response then eret response else eret (with_candidates response responseCandidates)
        else
          let! response := persistOutcome s (as_Gates a) persistedRanks judgments RunSelected "" selectedIDs in
          if vr_Replayed response then eret response
          else
            let! persisted := call (dp_RetrievalRun d (sq_TenantID (sg_Request s)) (sg_RunID s)) (ServiceError "plan_persistence_failed" (sg_RunID s)) in
            attachPlan (with_candidates response responseCandidates) persisted documents
  end.

(** From the collected candidates on. *)
Definition serve_collection (s : Serving) : E W ServiceResponse :=
  let missing := requiredDegradation (co_Degraded (sg_Collection s)) (sv_RequiredChannels config) in
  if negb (String.eqb missing "") then persistOutcome s [] [] [] RunFailed ("required_channel_unavailable:" ++ missing)%string []
  else
    let versionIDs := List.map cs_VersionID (co_Candidates (sg_Collection s)) in
    if count versionIDs =? 0 then persistOutcome s [] [] [] RunAbstained "no_candidates" []
    else fun w =>
      match dp_RetrievalDocuments d (sq_TenantID (sg_Request s)) versionIDs (ss_ProjectionEpoch (sg_Snapshot s)) w with
      | (Err _, w) => persistOutcome s [] [] [] RunFailed "candidate_snapshot_missing" [] w
      | (Ok documents, w) =>
          if negb (count documents =? count versionIDs) then persistOutcome s [] [] [] RunFailed "candidate_snapshot_missing" [] w
          else
            match documents_by_id ∅ documents with
            | None => efail (ServiceError "candidate_snapshot_missing" (sg_RunID s) ErrServiceUnavailable) w
            | Some docByID =>
                if negb (Z.of_nat (size docByID) =? count versionIDs) then efail (ServiceError "candidate_snapshot_missing" (sg_RunID s) ErrServiceUnavailable) w
                else decide_candidates s documents docByID w
            end
      end.

(** [CollectCandidates] with the deadline that its context always reaches. *)
Definition collect (request : CollectRequest) : M W (result CandidateCollection) := fun w =>
  let '((events, deadline, after), w) := dp_Search d request w in
  (match CollectCandidates request (events ++ [EvDone deadline]) after with Some r => r | None => Err ErrInvalidChannels end, w).

(** A request that has no stored run. *)
Definition serve (request : ServiceRequest) (query : Query) (requestContextHash id : string) : E W ServiceResponse :=
  let tenantID := sq_TenantID request in
  let! snapshot := call (dp_AcquireServingSnapshot d tenantID) (ServiceError "snapshot_unavailable" "") in
  let! activeChannels := pure (snapshotChannels config snapshot) (ServiceError "serving_config_mismatch" "") in
  let! _ := attempt (dp_Clock d) in
  let! policy := call (dp_EligibilityPolicy d tenantID (ss_PolicyManifestID snapshot)) (fun _ => ServiceError "policy_manifest_unavailable" "" ErrServiceUnavailable) in
  refuse negb (String.eqb (pol_ID policy) (ss_PolicyManifestID snapshot)) with ServiceError "policy_manifest_unavailable" "" ErrServiceUnavailable;
  let! ranker := call (dp_Ranker d tenantID (ss_RankerManifestID snapshot)) (fun _ => ServiceError "ranker_manifest_unavailable" "" ErrServiceUnavailable) in
  refuse negb (String.eqb (m_ID ranker) (ss_RankerManifestID snapshot)) with ServiceError "ranker_manifest_unavailable" "" ErrServiceUnavailable;
  let! envelope := call (dp_Encrypt d tenantID (qu_CanonicalJSON query)) (ServiceError "query_encryption_failed" id) in
  let! started := attempt (dp_Clock d) in
  let! collection := call (collect (mk_CollectRequest (mk_ChannelRequest tenantID (ss_ProjectionEpoch snapshot) query (in_MaxCandidates (sq_Input request)))
                                      activeChannels (sv_ChannelTimeout config))) Plain in
  serve_collection (mk_Serving request query requestContextHash id snapshot policy ranker envelope (UTC started) collection).

(** The query of a request, bound to its inferred effects. *)
Definition request_query (request : ServiceRequest) : E W Query :=
  let! query := pure (BuildQuery (sq_TenantID request) (sq_CurrentPolicyVersion request) (sv_Aliases config) (sq_Input request)) Plain in
  match dp_InferEffectSignature d with
  | None => eret query
  | Some infer =>
      let! effectHash := call (infer (sq_TenantID request) query) (ServiceError "effect_inference_failed" "") in
      pure (BindEffectSignature query effectHash) Plain
  end.

(** [ctx] is [ctx.Err()] at the start. *)
Definition Retrieve (ctx : option goerr) (request : ServiceRequest) : E W ServiceResponse :=
  match ctx with
  | Some e => efail (Plain e)
  | None =>
      refuse negb (sq_RecallAllowed request) with Plain ErrRecallDenied;
      refuse count (sq_AllowedResidencyRegions request) =? 0 with Plain ErrServiceUnavailable;
      let! query := request_query request in
      let! requestContextHash := pure (retrievalRequestContextHash request query) Plain in
      let! id := runID (sq_TenantID request) (sq_RequestIdentityHash request) in
      if String.eqb (sq_RequestIdentityHash request) "" then serve request query requestContextHash id
      else fun w =>
        match dp_RetrievalRun d (sq_TenantID request) id w with
        | (Ok existing, w) =>
            if conflicts existing (qu_Hash query) requestContextHash then efail (ServiceError "idempotency_conflict" id ErrIdempotencyConflict) w
            else responseFromRun existing w
        | (Err e, w) =>
            if is_error e ErrRunNotFound then serve request query requestContextHash id w
            else efail (ServiceError "run_lookup_failed" id e) w
        end
  end.

(** ** Explanations *)
Record CandidateExplanation := mk_CandidateExplanation {
  xc_VersionID : string;
  xc_Eligible : bool;
  xc_AdvisoryOnly : bool;
  xc_SourceChannels : list string;
  xc_Facts : list Rejection;
  xc_RRFScore : Z;
  xc_FinalScore : Z;
  xc_FinalRank : Z;
  xc_Semantic : option PersistedSemanticJudgment
}.

Record Explanation := mk_Explanation {
  xp_RunID : string;
  xp_Disposition : string;
  xp_DecisionCode : string;
  xp_QueryHash : string;
  xp_Snapshot : ServingSnapshot;
  xp_Candidates : list CandidateExplanation;
  xp_Degraded : list DegradedChannel;
  xp_EnhancementDegraded : list string;
  xp_Approximate : bool;
  xp_Plan : option PlanArtifact
}.

(** [json.Unmarshal] of the facts of a gate is a parameter. *)
Context (unmarshal_facts : string -> option (list Rejection)).

Definition zero_rank : PersistedRank := mk_PersistedRank "" 0 0 0 0 false [] [].

Fixpoint explain_candidates (run : Run) (versions : list string) : option (list CandidateExplanation) :=
  let gates : gmap string PersistedGate := foldl (fun m g => <[pg_VersionID g := g]> m) ∅ (rn_Gates run) in
  let ranks : gmap string PersistedRank := foldl (fun m r => <[pk_VersionID r := r]> m) ∅ (rn_Ranked run) in
  let semantic : gmap string PersistedSemanticJudgment := foldl (fun m j => <[sj_VersionID j := j]> m) ∅ (rn_SemanticJudgments run) in
  match versions with
  | [] => Some []
  | v :: versions =>
      match gates !! v with
      | None => explain_candidates run versions
      | Some gate =>
          match unmarshal_facts (pg_CanonicalFacts gate), explain_candidates run versions with
          | Some facts, Some rest =>
              let item := default zero_rank (ranks !! v) in
              let source := sort_strings (List.map ph_Channel (List.filter (fun h => String.eqb (ph_VersionID h) v) (rn_Hits run))) in
              Some (mk_CandidateExplanation v (pg_Eligible gate) (pg_AdvisoryOnly gate) source facts (pk_RRFScore item) (pk_FinalScore item) (pk_Rank item)
                      (semantic !! v) :: rest)
          | _, _ => None
          end
      end
  end.

Definition Explain (ctx : option goerr) (tenantID id : string) : E W Explanation :=
  match ctx with
  | Some e => efail (Plain e)
  | None =>
      refuse String.eqb tenantID "" || String.eqb id "" with Plain ErrServiceUnavailable;
      let! run := call (dp_RetrievalRun d tenantID id) Plain in
      match explain_candidates run (rn_CandidateVersionIDs run) with
      | None => efail (Plain ErrInvalidRun)
      | Some candidates =>
          let explanation := mk_Explanation (rn_ID run) (rn_Disposition run) (rn_DecisionCode run) (rn_QueryHash run) (rn_Snapshot run) candidates
            (degraded_executions (rn_ChannelExecutions run)) (semanticDegradations (rn_SemanticJudgments run))
            (existsb (fun e => ex_Complete e && ex_Approximate e) (rn_ChannelExecutions run)) in
          if String.eqb (rn_Disposition run) RunSelected then
            let! plan := call (dp_FindByRetrievalRunID d tenantID (rn_ID run)) (ServiceError "plan_persistence_failed" (rn_ID run)) in
            eret (explanation (Some plan))
          else eret (explanation None)
      end
  end.
End service.
