(* ===== verification/RetrievalServiceSound.v ===== *)
(** * The theorems about the retrieval service (internal/retrieval/service.go)

    [Retrieve_is_replay]: every response, fresh or replayed, is what the stored
    run of the request says, so that a repeated request is answered alike.
    [Retrieve_selects_eligible]: what a fresh response offers passed its gate,
    and what it selects reaches the minimum score, within the limit. *)

From Stdlib Require Import ZArith String Ascii List Bool Lia.
From stdpp Require Import base gmap strings list sorting.
From S2P Require Import Prelude GoStrings GoTime Canonical Eligibility Ranking Domain Interfaces.
From S2P Require Import RetrievalQuery RetrievalDocument Projection RetrievalChannels RetrievalRun RetrievalRunSound RetrievalService.

Open Scope Z_scope.
Open Scope go_scope.

(** ** Computations *)
Lemma ebind_inl {W A B} (m : E W A) (k : A -> E W B) w b w' :
  ebind m k w = (inl b, w') -> exists a w1, m w = (inl a, w1) /\ k a w1 = (inl b, w').
Proof. unfold ebind. destruct (m w) as [[a|e] w1]; [|done]. intros Hk. by exists a, w1. Qed.

Lemma call_inl {W A} (m : M W (result A)) f w a w' : call m f w = (inl a, w') -> m w = (Ok a, w').
Proof. unfold call. destruct (m w) as [[x|e] w1]; [|done]. by intros [= -> ->]. Qed.

Lemma attempt_inl {W A} (m : M W A) w a w' : attempt m w = (inl a, w') -> m w = (a, w').
Proof. unfold attempt. destruct (m w) as [x w1]. by intros [= -> ->]. Qed.

Lemma pure_inl {W A} (r : result A) f (w : W) a w' : pure r f w = (inl a, w') -> r = Ok a /\ w' = w.
Proof. unfold pure. destruct r; [|done]. by intros [= -> ->]. Qed.

(** ** The documents of a response *)
Lemma documents_by_id_spec documents : forall m m',
  documents_by_id m documents = Some m' -> (forall v x, m !! v = Some x -> dc_ProcedureVersionID x = v) ->
  (forall v x, m' !! v = Some x -> dc_ProcedureVersionID x = v /\ (m !! v = Some x \/ x ∈ documents)).
Proof.
  induction documents as [|x documents IH]; intros m m'; cbn [documents_by_id]; [intros [= <-] Hm v x Hv; split; [by apply Hm|by left]|].
  destruct (m !! dc_ProcedureVersionID x) eqn:Ex; [done|]. intros Hd Hm v y Hv. destruct (IH _ _ Hd) with (v := v) (x := y) as [Hy Hin]; [|done|].
  { intros u z [[<- <-]|[_ Hz]]%lookup_insert_Some; [done|by apply Hm]. }
  split; [done|]. destruct Hin as [[[_ <-]|[_ Hz]]%lookup_insert_Some|Hin]; [right; by left|by left|right; by right].
Qed.

Lemma documents_by_id_empty documents docByID v x : documents_by_id ∅ documents = Some docByID -> docByID !! v = Some x -> dc_ProcedureVersionID x = v /\ x ∈ documents.
Proof.
  intros Hd Hv. destruct (documents_by_id_spec _ _ _ Hd) with (v := v) (x := x) as [Hx [He|Hin]]; [|done| |done].
  - intros u y Hu. by rewrite lookup_empty in Hu.
  - by rewrite lookup_empty in He.
Qed.

(** ** The selection and its replay *)

(** What the replay reads of a rank. *)
Definition rank_view (k : PersistedRank) : string * Z * Z := (pk_VersionID k, pk_FinalScore k, pk_Rank k).

Lemma replayed_view include docByID gateByID l l' :
  List.map rank_view l = List.map rank_view l' -> replayed_candidates include docByID gateByID l = replayed_candidates include docByID gateByID l'.
Proof.
  revert l'. induction l as [|k l IH]; intros [|k' l'] Hv; try done. injection Hv as Hid Hs Hr Hl. cbn [replayed_candidates]. rewrite Hid, Hs, Hr. by rewrite (IH _ Hl).
Qed.

Definition advisory_of (decisionByID : gmap string Eligibility.Decision) (v : string) : bool :=
  match decisionByID !! v with Some d => d_AdvisoryOnly d | None => false end.

Lemma choose_ids config docByID decisionByID ranked : forall sel ids candidates,
  choose config docByID decisionByID sel ranked = (ids, candidates) ->
  exists more, ids = sel ++ more /\ (forall v, v ∈ more -> v ∈ List.map r_VersionID ranked /\ advisory_of decisionByID v = false) /\
    (count sel <= sv_MaximumSelections config -> count ids <= sv_MaximumSelections config).
Proof.
  induction ranked as [|item ranked IH]; intros sel ids candidates; cbn [choose].
  { intros [= <- <-]. exists []. rewrite app_nil_r. split; [done|]. split; [|done]. intros v Hv. inversion Hv. }
  fold (advisory_of decisionByID (r_VersionID item)). destruct (advisory_of decisionByID (r_VersionID item)) eqn:Ea.
  - destruct (choose config docByID decisionByID sel ranked) as [ids' cs] eqn:Ec. intros [= <- <-]. destruct (IH _ _ _ Ec) as (more & -> & Hm & Hc).
    exists more. split; [done|]. split; [|done]. intros v Hv. destruct (Hm v Hv). split; [by right|done].
  - destruct (_ || _) eqn:Es.
    + intros Hc'. destruct (IH _ _ _ Hc') as (more & -> & Hm & Hc). exists more. split; [done|]. split; [|done]. intros v Hv. destruct (Hm v Hv). split; [by right|done].
    + destruct (choose config docByID decisionByID (sel ++ [r_VersionID item]) ranked) as [ids' cs] eqn:Ec. intros [= <- <-].
      destruct (IH _ _ _ Ec) as (more & -> & Hm & Hc). exists (r_VersionID item :: more). rewrite <- app_assoc. split; [done|]. split.
      * intros v [->|Hv]%elem_of_cons; [split; [by left|done]|]. destruct (Hm v Hv). split; [by right|done].
      * intros _. rewrite app_assoc. apply Hc. apply orb_false_iff in Es as [_ Es]. unfold count in *. rewrite length_app. cbn [length]. lia.
Qed.

(** The candidates of a fresh response are those that the replay of the run finds. *)
Lemma choose_replayed config docByID decisionByID gateByID include ranks ranked : forall sel ids candidates,
  choose config docByID decisionByID sel ranked = (ids, candidates) ->
  List.map rank_view ranks = List.map (fun r => (r_VersionID r, r_FinalScore r, r_Rank r)) ranked ->
  NoDup (List.map r_VersionID ranked) -> (forall v, v ∈ sel -> v ∉ List.map r_VersionID ranked) ->
  (forall v, v ∈ List.map r_VersionID ranked -> is_Some (docByID !! v) /\ (match gateByID !! v with Some g => pg_AdvisoryOnly g | None => false end) = advisory_of decisionByID v) ->
  (forall v, v ∈ List.map r_VersionID ranked -> v ∈ include <-> advisory_of decisionByID v = true \/ v ∈ ids) ->
  replayed_candidates include docByID gateByID ranks = Some candidates.
Proof.
  revert ranks. induction ranked as [|item ranked IH]; intros ranks sel ids candidates.
  { cbn [choose]. intros [= <- <-] Hv _ _ _ _. by destruct ranks. }
  destruct ranks as [|k ranks]; [done|]. cbn [List.map]. intros Hc [= Hid Hs Hr Hv] [Hni Hnd]%NoDup_cons Hsel Hdoc Hinc.
  destruct (Hdoc (r_VersionID item) ltac:(by left)) as [[document Hd] Hg]. pose proof (Hinc (r_VersionID item) ltac:(by left)) as Hi.
  assert (Hdoc' : forall v, v ∈ List.map r_VersionID ranked -> is_Some (docByID !! v) /\ (match gateByID !! v with Some g => pg_AdvisoryOnly g | None => false end) = advisory_of decisionByID v)
    by (intros v Hin; apply Hdoc; by right).
  cbn [choose replayed_candidates] in *. fold (advisory_of decisionByID (r_VersionID item)) in Hc. rewrite Hid, Hs, Hr, Hd, Hg. rewrite Hd in Hc. cbn [default from_option id] in Hc.
  assert (Hfin : forall sel', (forall v, v ∈ sel' -> v ∉ List.map r_VersionID ranked) -> forall candidates', choose config docByID decisionByID sel' ranked = (ids, candidates') ->
    replayed_candidates include docByID gateByID ranks = Some candidates').
  { intros sel' Hsel' cs Hcs. eapply IH; [exact Hcs|done|done|done|done|]. intros v Hin. apply Hinc. by right. }
  assert (Hskip : forall v, v ∈ sel -> v ∉ List.map r_VersionID ranked) by (intros v Hin Hin'; apply (Hsel v Hin); by right).
  destruct (advisory_of decisionByID (r_VersionID item)) eqn:Ea.
  - destruct (choose config docByID decisionByID sel ranked) as [ids' cs] eqn:Ec. injection Hc as <- <-. rewrite bool_decide_eq_true_2 by (apply Hi; by left). cbn [negb].
    by rewrite (Hfin sel Hskip cs Ec).
  - destruct (_ || _).
    + rewrite bool_decide_eq_false_2; [by apply (Hfin sel)|]. rewrite Hi. intros [|Hin]; [done|]. destruct (choose_ids _ _ _ _ _ _ _ Hc) as (more & -> & Hm & _).
      apply elem_of_app in Hin as [Hin|Hin]; [apply (Hsel _ Hin); by left|by apply Hm in Hin as [? _]].
    + destruct (choose config docByID decisionByID (sel ++ [r_VersionID item]) ranked) as [ids' cs] eqn:Ec. injection Hc as <- <-.
      destruct (choose_ids _ _ _ _ _ _ _ Ec) as (more & Hids & _). rewrite bool_decide_eq_true_2 by (apply Hi; right; rewrite Hids; set_solver). cbn [negb].
      rewrite (Hfin (sel ++ [r_VersionID item])) with (candidates' := cs); [done| |done]. intros v [Hin|Hin%list_elem_of_singleton]%elem_of_app; [by apply Hskip|by subst].
Qed.

(** ** The ranking *)
Lemma scoreAll_versions s weights specs : forall seen l results,
  scoreAll s weights specs seen l = Ok results ->
  List.map r_VersionID results = List.map c_VersionID l /\ NoDup (List.map c_VersionID l) /\ forall c, c ∈ l -> c_VersionID c ∉ seen.
Proof.
  intros seen l. revert seen. induction l as [|c l IH]; intros seen results; cbn [scoreAll].
  { intros [= <-]. split_and!; [done|constructor|intros c Hc; inversion Hc]. }
  intros Hs. inv_Ok Hs. injection Hs as <-. apply bool_decide_eq_false in E0. destruct (IH _ _ H0) as (Hm & Hn & Hd). cbn [List.map].
  assert (Hv : r_VersionID x = c_VersionID c).
  { unfold scoreCandidate in H. inv_Ok H. destruct (checkedMul _ _); [|done]. destruct (checkedAdd _ _); [|done]. inv_Ok H. by injection H as <-. }
  split_and!.
  - by rewrite Hv, Hm.
  - apply NoDup_cons. split; [|done]. intros (c' & Hc & Heq)%elem_of_map. apply Hd in Hc. set_solver.
  - intros c' [->|Hc]%elem_of_cons; [done|]. apply Hd in Hc. set_solver.
Qed.

Section ranking.
Context `{JCS} `{Digest}.

Lemma Rank_versions m candidates results :
  Rank m candidates = Ok results ->
  List.map r_VersionID results ≡ₚ List.map c_VersionID candidates /\ NoDup (List.map r_VersionID results) /\
  (forall i r, results !! i = Some r -> r_Rank r = wrap_u32 (Z.of_nat i + 1)).
Proof.
  unfold Rank. intros Hr. inv_Ok Hr. injection Hr as <-. destruct (scoreAll_versions _ _ _ _ _ _ H1) as (Hm & Hn & _).
  assert (Hp : List.map r_VersionID (sort_slice result_less x) ≡ₚ List.map c_VersionID candidates) by (rewrite <- Hm; apply Permutation_map, sort_slice_perm).
  rewrite assignRanks_ids. split_and!; [done|by rewrite Hp|]. intros i r Hi. by apply assignRanks_lookup in Hi as (r0 & _ & ->).
Qed.

Lemma ranks_sorted m candidates results :
  Rank m candidates = Ok results -> Z.of_nat (length results) <= 1000 -> StronglySorted Z.le (List.map r_Rank results).
Proof.
  intros Hr Hlen. apply Rank_versions in Hr as (_ & _ & Hi).
  assert (Hg : forall l start, (forall i r, l !! i = Some r -> r_Rank r = wrap_u32 (Z.of_nat (start + i) + 1)) -> Z.of_nat (start + length l) <= 1000 ->
    StronglySorted Z.le (List.map r_Rank l) /\ Forall (fun z => Z.of_nat start + 1 <= z) (List.map r_Rank l)).
  { induction l as [|r l IH]; intros start Hl Hb; [split; constructor|]. cbn [List.map length] in *. destruct (IH (S start)) as [Hs Hf]; [|lia|].
    { intros i r' Hi'. rewrite (Hl (S i) r' Hi'). do 2 f_equal. lia. }
    rewrite (Hl 0%nat r eq_refl), Nat.add_0_r, wrap_u32_id by (unfold in_u32, MaxUint32; lia).
    assert (Hf' : Forall (fun z => Z.of_nat start + 1 <= z) (List.map r_Rank l)) by (eapply List.Forall_impl; [|exact Hf]; intros z Hz; cbn in Hz; lia).
    split; constructor; [done|exact Hf'|lia|exact Hf']. }
  destruct (Hg results 0%nat) as [Hs _]; [exact Hi|lia|done].
Qed.

Lemma sort_ranks_view ranked candidates :
  StronglySorted Z.le (List.map r_Rank ranked) ->
  List.map rank_view (sort_ranks (persistedRanking ranked candidates)) = List.map (fun r => (r_VersionID r, r_FinalScore r, r_Rank r)) ranked.
Proof.
  intros Hs. unfold sort_ranks. rewrite (sort_slice_id (cmp_on pk_Rank Z.compare)).
  - unfold persistedRanking. by rewrite !map_map.
  - unfold persistedRanking. rewrite map_map. clear - Hs. induction ranked as [|r ranked IH]; [constructor|]. cbn [List.map] in *. inversion Hs as [|? ? Hs' Hf]; subst.
    constructor; [by apply IH|]. rewrite Forall_forall in Hf. apply Forall_forall. intros y (x & Hx & <-)%elem_of_map. apply (Hf (r_Rank x)), elem_of_map. by exists x.
Qed.

Lemma alter_versions features i (l : list Ranking.Candidate) : List.map c_VersionID (alter (add_features features) i l) = List.map c_VersionID l.
Proof. revert i. induction l as [|c l IH]; intros [|i]; cbn [alter list_alter List.map]; [done..|]. by f_equal. Qed.

Lemma judgments_versions manifest byVersion judgments : forall acc,
  List.map c_VersionID (fst (foldl (judgment_step manifest byVersion) acc judgments)) = List.map c_VersionID (fst acc).
Proof.
  induction judgments as [|j judgments IH]; intros [copies persisted]; [done|]. cbn [foldl]. rewrite IH. cbn [judgment_step].
  destruct (negb _); [done|]. cbn [fst]. destruct (String.eqb _ ""); [done|]. apply alter_versions.
Qed.

Context {W : Type} (d : Dependencies W).

(** The ranking that is used ranks the eligible candidates, before or after the judgments. *)
Lemma semantic_ranking_ranks s docByID candidates preliminary w ranked judgments candidates' w' :
  semantic_ranking d s docByID candidates preliminary w = ((ranked, judgments, candidates'), w') -> Rank (sg_Ranker s) candidates = Ok preliminary ->
  exists cs, List.map c_VersionID cs = List.map c_VersionID candidates /\ Rank (sg_Ranker s) cs = Ok ranked.
Proof.
  intros Hs Hr. assert (Hkeep : ranked = preliminary -> exists cs, List.map c_VersionID cs = List.map c_VersionID candidates /\ Rank (sg_Ranker s) cs = Ok ranked)
    by (intros ->; by exists candidates).
  unfold semantic_ranking, applySemanticJudgments in Hs. destruct (dp_Admit d) as [admission|]; [|by injection Hs as <- _ _ _; apply Hkeep].
  destruct (_ && _); [|by injection Hs as <- _ _ _; apply Hkeep]. destruct (admission preliminary) as [admitted|]; [|by injection Hs as <- _ _ _; apply Hkeep].
  destruct (_ || _); [by injection Hs as <- _ _ _; apply Hkeep|]. destruct (judge_all _ _ _ _ _ _ w) as [js w1]. injection Hs as Ha _. unfold apply_judgments in Ha.
  pose proof (judgments_versions (sg_Ranker s) (positions candidates) js (candidates, [])) as Hv. destruct (foldl _ _ js) as [copies persisted]. cbn [fst] in Hv.
  destruct (_ =? 0); [by injection Ha as <- _ _; apply Hkeep|]. destruct (_ || _); [by injection Ha as <- _ _; apply Hkeep|].
  destruct (Rank (sg_Ranker s) copies) as [reranked|] eqn:Er; injection Ha as <- _ _; [by exists copies|by apply Hkeep].
Qed.
End ranking.

(** ** The gates *)
Section gates.
Context `{NFC} `{JCS} `{Digest}.
Context (policy : PolicySpec) (context : Eligibility.Context) (ranker : Ranking.Manifest) (id : string) (docByID : gmap string Document).
Hypothesis Hdocs : forall v x, docByID !! v = Some x -> dc_ProcedureVersionID x = v.

Definition decision_at (v : string) : option Eligibility.Decision := (fun x => Evaluate policy context (eligibilityCandidateFrom x)) <$> docByID !! v.

Record assessed (a : Assessment) : Prop := mk_assessed {
  ad_decisions : forall v x, as_Decisions a !! v = Some x -> decision_at v = Some x;
  ad_gates : forall g, g ∈ as_Gates a -> exists x, as_Decisions a !! pg_VersionID g = Some x /\ pg_AdvisoryOnly g = d_AdvisoryOnly x;
  ad_gated : forall v x, as_Decisions a !! v = Some x -> exists g, g ∈ as_Gates a /\ pg_VersionID g = v;
  ad_candidates : forall c, c ∈ as_Candidates a -> exists x, as_Decisions a !! c_VersionID c = Some x /\ d_Eligible x = true
}.

Lemma persistedGate_view v x g : persistedGate v x = Ok g -> pg_VersionID g = v /\ pg_AdvisoryOnly g = d_AdvisoryOnly x.
Proof. unfold persistedGate. intros Hg. inv_Ok Hg. by injection Hg as <-. Qed.

(** A version that is assessed again gets the same decision. *)
Lemma decisions_kept (a : Assessment) v x u y :
  (forall v x, as_Decisions a !! v = Some x -> decision_at v = Some x) -> decision_at v = Some x ->
  as_Decisions a !! u = Some y -> <[v := x]> (as_Decisions a) !! u = Some y.
Proof.
  intros Hd Hv Hu. destruct (decide (v = u)) as [->|Hne]; [|by rewrite lookup_insert_ne]. rewrite lookup_insert_eq. apply Hd in Hu. congruence.
Qed.

Lemma assess_step a v document gate hits :
  assessed a -> docByID !! v = Some document ->
  let x := Evaluate policy context (eligibilityCandidateFrom document) in persistedGate (dc_ProcedureVersionID document) x = Ok gate ->
  assessed (mk_Assessment (as_Gates a ++ [gate]) (if d_Eligible x then as_Candidates a ++ [ranking_candidate ranker document hits] else as_Candidates a)
              (<[dc_ProcedureVersionID document := x]> (as_Decisions a))).
Proof using Hdocs.
  intros [Hd Hg Hgd Hc] Hv x Hgate. pose proof (Hdocs _ _ Hv) as Hver. rewrite Hver in *. apply persistedGate_view in Hgate as [Hgv Hga].
  assert (Hx : decision_at v = Some x) by (unfold decision_at; by rewrite Hv).
  pose proof (fun u y => decisions_kept a v x u y Hd Hx) as Hkeep. split; cbn [as_Decisions as_Gates as_Candidates].
  - intros u y [[<- <-]|[_ Hu]]%lookup_insert_Some; [done|by apply Hd].
  - intros g [Hin|Hin%list_elem_of_singleton]%elem_of_app; [|subst g].
    + destruct (Hg g Hin) as (y & Hy & Ha). exists y. split; [by apply Hkeep|done].
    + exists x. rewrite Hgv, lookup_insert_eq. done.
  - intros u y [[<- <-]|[_ Hu]]%lookup_insert_Some; [exists gate; split; [set_solver|done]|]. destruct (Hgd u y Hu) as (g & Hin & Hu'). exists g. split; [set_solver|done].
  - assert (Hold : forall c, c ∈ as_Candidates a -> exists y, <[v := x]> (as_Decisions a) !! c_VersionID c = Some y /\ d_Eligible y = true)
      by (intros c Hin; destruct (Hc c Hin) as (y & Hy & He); exists y; split; [by apply Hkeep|done]).
    destruct (d_Eligible x) eqn:Ee; [|done]. intros c [Hin|Hin%list_elem_of_singleton]%elem_of_app; [by apply Hold|]. subst c. exists x.
    cbn [ranking_candidate c_VersionID]. by rewrite Hver, lookup_insert_eq.
Qed.

Lemma assess_assessed candidates : forall a a', assess policy context ranker id docByID a candidates = inl a' -> assessed a -> assessed a'.
Proof using Hdocs.
  induction candidates as [|c candidates IH]; intros a a'; cbn [assess]; [by intros [= <-]|]. destruct (docByID !! cs_VersionID c) as [document|] eqn:Ed; [|done].
  destruct (persistedGate _ _) as [gate|] eqn:Eg; [|done]. intros Ha Has. eapply IH; [exact Ha|]. by eapply assess_step.
Qed.

Lemma assessed_empty : assessed (mk_Assessment [] [] ∅).
Proof. split; cbn [as_Decisions as_Gates as_Candidates]; try (intros v x Hv; by rewrite lookup_empty in Hv); intros x Hx; inversion Hx. Qed.
End gates.

(** ** The run of a response *)
Section answers.
Context `{RawCanonical} `{NFC} `{JCS} `{Digest}.

Definition gate_map (run : Run) : gmap string PersistedGate := foldl (fun m g => <[pg_VersionID g := g]> m) ∅ (rn_Gates run).

(** A response says what its run says; [documents] are those of the snapshot. *)
Record answers (run : Run) (documents : list Document) (r : ServiceResponse) : Prop := mk_answers {
  an_head : vr_RunID r = rn_ID run /\ vr_Disposition r = rn_Disposition run /\ vr_DecisionCode r = rn_DecisionCode run /\ vr_Snapshot r = rn_Snapshot run /\
    vr_QueryHash r = rn_QueryHash run /\ vr_EnhancementDegraded r = semanticDegradations (rn_SemanticJudgments run);
  an_degraded : vr_Degraded r = degraded_executions (rn_ChannelExecutions run);
  an_approximate : vr_Approximate r = existsb (fun e => ex_Approximate e && ex_Complete e) (rn_ChannelExecutions run);
  an_candidates : exists docByID, documents_by_id ∅ documents = Some docByID /\
    replayed_candidates (included run) docByID (gate_map run) (rn_Ranked run) = Some (vr_Candidates r);
  an_completed : rn_Disposition run <> RunFailed
}.

Lemma answers_with_plan run documents r plan : answers run documents r -> answers run documents (with_plan r plan).
Proof. by intros []. Qed.

Lemma replayed_nothing include docByID gateByID ranked : include = ∅ -> replayed_candidates include docByID gateByID ranked = Some [].
Proof. intros ->. induction ranked as [|k ranked IH]; [done|]. cbn [replayed_candidates]. by rewrite bool_decide_eq_false_2 by set_solver. Qed.

Lemma StronglySorted_map_inv {A B} (R : B -> B -> Prop) (f : A -> B) (l : list A) :
  StronglySorted R (List.map f l) -> StronglySorted (fun x y => R (f x) (f y)) l.
Proof.
  induction l as [|x l IH]; [constructor|]. cbn [List.map]. intros Hs. inversion Hs as [|? ? Hl Hf]; subst. constructor; [by apply IH|].
  rewrite Forall_forall in Hf. apply Forall_forall. intros y Hy. apply Hf, elem_of_map. by exists y.
Qed.

(** The executions of a run tell what the collection told. *)
Lemma degraded_of_collection collection executions :
  executions ≡ₚ fst (persistedChannels collection) -> StronglySorted str_lt (List.map ex_Channel executions) ->
  StronglySorted str_lt (List.map dg_Channel (co_Degraded collection)) -> degraded_executions executions = co_Degraded collection.
Proof.
  intros Hp Hs Hd.
  assert (Hperm : degraded_executions executions ≡ₚ co_Degraded collection).
  { unfold degraded_executions. rewrite Hp. cbn [persistedChannels fst]. rewrite omap_app. set (f := fun e : ChannelExecution => _).
    assert (H1' : omap f (List.map (fun r => mk_ChannelExecution (RetrievalChannels.cr_Channel r) (cr_IndexManifestID r) (cr_HitCount r) (cr_Approximate r) true ""
      (cr_LatencyMicros r)) (co_Results collection)) = []) by (induction (co_Results collection); done).
    rewrite H1'. cbn [app]. clear. induction (co_Degraded collection) as [|x l IH]; [done|]. cbn [List.map omap list_omap]. unfold f at 1. cbn [ex_Complete ex_Channel ex_DegradationCode
      ex_IndexManifestID ex_Approximate ex_LatencyMicros]. destruct x. cbn. by constructor. }
  assert (Hsub : StronglySorted str_lt (List.map dg_Channel (degraded_executions executions))).
  { clear - Hs. unfold degraded_executions. set (f := fun e : ChannelExecution => _). assert (Hf : forall e x, f e = Some x -> dg_Channel x = ex_Channel e)
      by (intros e x; unfold f; destruct (ex_Complete e); [done|by intros [= <-]]).
    induction executions as [|e l IH]; [constructor|]. cbn [List.map omap list_omap] in *. inversion Hs as [|? ? Hl Hlt]; subst. specialize (IH Hl).
    destruct (f e) as [x|] eqn:Ex; [|done]. cbn [List.map]. constructor; [done|]. rewrite (Hf _ _ Ex). rewrite Forall_forall in Hlt. apply Forall_forall.
    intros n (y & Hy & <-)%elem_of_map. apply list_elem_of_omap in Hy as (e' & He & Hy). rewrite (Hf _ _ Hy). apply Hlt, elem_of_map. by exists e'. }
  apply (StronglySorted_unique_strong (fun x y => str_lt (dg_Channel x) (dg_Channel y))); [|by apply StronglySorted_map_inv..|done].
  intros x y _ _ Hxy Hyx. exfalso. apply (str_lt_irrefl (dg_Channel x)). by transitivity (dg_Channel y).
Qed.

Lemma approximate_of_collection collection executions :
  executions ≡ₚ fst (persistedChannels collection) -> co_Approximate collection = existsb cr_Approximate (co_Results collection) ->
  existsb (fun e => ex_Approximate e && ex_Complete e) executions = co_Approximate collection.
Proof.
  intros Hp ->. apply eq_true_iff_eq. rewrite !existsb_exists. split.
  - intros (e & Hin & Ha). apply list_elem_of_In in Hin. rewrite Hp in Hin. cbn [persistedChannels fst] in Hin. apply elem_of_app in Hin as [Hin|Hin]; apply elem_of_map in Hin as (x & Hx & <-).
    + exists x. split; [by apply list_elem_of_In|]. cbn in Ha. by rewrite andb_true_r in Ha.
    + cbn in Ha. by rewrite andb_false_r in Ha.
  - intros (x & Hin & Ha). eexists. split; [apply list_elem_of_In; rewrite Hp; cbn [persistedChannels fst]; apply elem_of_app; left; apply elem_of_map; exists x; split;
      [by apply list_elem_of_In|reflexivity]|]. cbn. by rewrite Ha.
Qed.

(** The collections that [CollectCandidates] returns. *)
Definition sorted_collection (c : CandidateCollection) : Prop :=
  StronglySorted str_lt (List.map dg_Channel (co_Degraded c)) /\ co_Approximate c = existsb cr_Approximate (co_Results c).

Lemma built_answers input run collection documents docByID candidates :
  built input run -> ni_ChannelExecutions input = fst (persistedChannels collection) -> sorted_collection collection -> rn_Disposition run <> RunFailed ->
  documents_by_id ∅ documents = Some docByID -> replayed_candidates (included run) docByID (gate_map run) (rn_Ranked run) = Some candidates ->
  answers run documents (with_candidates (response_head run (co_Degraded collection) (co_Approximate collection) false) candidates).
Proof.
  intros Hb Hi [Hs Ha] Hd Hdoc Hc. assert (Hp : rn_ChannelExecutions run ≡ₚ fst (persistedChannels collection)) by (rewrite (bt_executions _ _ Hb), Hi; apply sort_slice_perm).
  split; cbn [with_candidates response_head vr_RunID vr_Disposition vr_DecisionCode vr_Snapshot vr_QueryHash vr_EnhancementDegraded vr_Degraded vr_Approximate vr_Candidates]; try done.
  - symmetry. apply degraded_of_collection; [done|apply (bt_sorted _ _ Hb)|done].
  - symmetry. by apply approximate_of_collection.
  - by exists docByID.
Qed.

Lemma gate_map_lookup run v : NoDup (List.map pg_VersionID (rn_Gates run)) -> forall g, gate_map run !! v = Some g <-> g ∈ rn_Gates run /\ pg_VersionID g = v.
Proof. intros Hn g. apply (keyed_map_lookup pg_VersionID (rn_Gates run) v g Hn). Qed.

Lemma sort_gates_elem gates g : g ∈ sort_gates gates <-> exists g0, g0 ∈ gates /\ g = sort_codes g0.
Proof.
  unfold sort_gates. rewrite sort_slice_elem, elem_of_map. split; intros (g0 & ? & ?); by exists g0.
Qed.

(** The replay of the run finds the candidates of the fresh response. *)
Lemma chosen_replayed config policy context docByID a input run ranked candidates selectedIDs responseCandidates cs :
  (forall v x, docByID !! v = Some x -> dc_ProcedureVersionID x = v) -> assessed policy context docByID a -> built input run ->
  ni_Gates input = as_Gates a -> ni_Ranked input = persistedRanking ranked candidates -> ni_SelectedVersionIDs input = selectedIDs ->
  List.map c_VersionID cs = List.map c_VersionID (as_Candidates a) -> forall ranker, Rank ranker cs = Ok ranked ->
  choose config docByID (as_Decisions a) [] ranked = (selectedIDs, responseCandidates) ->
  replayed_candidates (included run) docByID (gate_map run) (rn_Ranked run) = Some responseCandidates.
Proof.
  intros Hdocs [Hd Hg Hgd Hc] Hb Hgates Hranked Hsel Hcs ranker Hr Hch. destruct (Rank_versions _ _ _ Hr) as (Hp & Hn & _). rewrite Hcs in Hp.
  pose proof (rt_gates _ (bt_typed _ _ Hb)) as [Hgn _]. assert (Hlen : Z.of_nat (length ranked) <= 1000).
  { pose proof (bt_count _ _ Hb) as Hl. rewrite (bt_ranked _ _ Hb), Hranked in Hl. unfold count, sort_ranks in Hl. rewrite (Permutation_length (sort_slice_perm _ _)) in Hl.
    unfold persistedRanking in Hl. by rewrite !length_map in Hl. }
  assert (Hdec : forall v, v ∈ List.map r_VersionID ranked -> exists x, as_Decisions a !! v = Some x).
  { intros v Hv. rewrite Hp in Hv. apply elem_of_map in Hv as (c & Hin & <-). destruct (Hc c Hin) as (x & Hx & _). by exists x. }
  assert (Hgate : forall g, g ∈ rn_Gates run -> exists x, as_Decisions a !! pg_VersionID g = Some x /\ pg_AdvisoryOnly g = d_AdvisoryOnly x).
  { intros g Hin. rewrite (bt_gates _ _ Hb), Hgates in Hin. apply sort_gates_elem in Hin as (g0 & Hin & ->). exact (Hg g0 Hin). }
  assert (Hhas : forall v x, as_Decisions a !! v = Some x -> exists g, g ∈ rn_Gates run /\ pg_VersionID g = v /\ pg_AdvisoryOnly g = d_AdvisoryOnly x).
  { intros v x Hx. destruct (Hgd v x Hx) as (g0 & Hin & Hv). assert (Hin' : sort_codes g0 ∈ rn_Gates run) by (rewrite (bt_gates _ _ Hb), Hgates; apply sort_gates_elem; by exists g0).
    exists (sort_codes g0). split; [done|]. split; [done|]. destruct (Hgate _ Hin') as (y & Hy & Ha). cbn [sort_codes pg_VersionID] in Hy. rewrite Hv, Hx in Hy. by injection Hy as <-. }
  eapply (choose_replayed config docByID (as_Decisions a)); [exact Hch| |exact Hn|intros v Hv; inversion Hv| |].
  - rewrite (bt_ranked _ _ Hb), Hranked. apply sort_ranks_view. by eapply ranks_sorted.
  - intros v Hv. destruct (Hdec v Hv) as [x Hx]. split.
    + apply Hd in Hx. unfold decision_at in Hx. destruct (docByID !! v); [by eexists|done].
    + destruct (Hhas v x Hx) as (g & Hin & Hgv & Ha). unfold advisory_of. rewrite Hx. destruct (gate_map run !! v) as [g'|] eqn:Eg.
      * apply gate_map_lookup in Eg as [Hin' Hv']; [|done]. destruct (Hgate g' Hin') as (y & Hy & Ha'). rewrite Hv', Hx in Hy. by injection Hy as <-.
      * assert (Hs : gate_map run !! v = Some g) by (by apply gate_map_lookup). by rewrite Eg in Hs.
  - intros v Hv. unfold included. destruct (bt_head _ _ Hb) as (_ & _ & _ & _ & _ & _ & ->). rewrite Hsel, elem_of_union, !elem_of_list_to_set. destruct (Hdec v Hv) as [x Hx].
    unfold advisory_of. rewrite Hx. split.
    + intros [Hin|Hin]; [by right|]. left. apply elem_of_map in Hin as (g & Hin & Hgv). apply elem_of_List_filter in Hin as [Hadv Hin].
      destruct (Hgate g Hin) as (y & Hy & Ha). rewrite Hgv, Hx in Hy. injection Hy as <-. congruence.
    + intros [Hadv|Hin]; [right|by left]. destruct (Hhas v x Hx) as (g & Hin & Hgv & Ha). apply elem_of_map. exists g. split; [|done].
      apply elem_of_List_filter. split; [congruence|done].
Qed.
End answers.

(** ** The service *)
Section service_facts.
Context `{RawCanonical} `{NFC} `{JCS} `{Digest} {W : Type}.
Context (config : ServiceConfig) (d : Dependencies W).

(** The run came from the repository, or was accepted by it. *)
Definition returned (run : Run) : Prop := exists tenantID id w w', dp_RetrievalRun d tenantID id w = (Ok run, w').
Definition saved (run : Run) : Prop := exists w w', dp_SaveRetrievalRun d run w = (Ok tt, w').

(** The documents were read at the run's epoch. *)
Definition read_at (run : Run) (documents : list Document) : Prop :=
  documents = [] \/ exists ids w w', dp_RetrievalDocuments d (rn_TenantID run) ids (ss_ProjectionEpoch (rn_Snapshot run)) w = (Ok documents, w').

Definition replays (r : ServiceResponse) : Prop :=
  vr_Replayed r = true /\ exists run documents, returned run /\ read_at run documents /\ answers run documents r.

Lemma attachPlan_inl response run documents w r w' :
  attachPlan d response run documents w = (inl r, w') -> exists plan, r = with_plan response plan /\ plan_mismatch plan run = false.
Proof.
  unfold attachPlan. intros (plan & w1 & _ & Hr)%ebind_inl. destruct (plan_mismatch plan run) eqn:Ep; [done|]. injection Hr as <- _. by exists plan.
Qed.

Lemma responseFromRun_inl run w r w' :
  responseFromRun d run w = (inl r, w') -> vr_Replayed r = true /\ exists documents, read_at run documents /\ answers run documents r.
Proof.
  unfold responseFromRun. destruct (String.eqb_spec (rn_Disposition run) RunFailed) as [|Hd]; [done|]. destruct (bool_decide _) eqn:Ei.
  { apply bool_decide_eq_true in Ei. intros [= <- _]. split; [done|]. exists []. split; [by left|]. split; try done. exists ∅. split; [done|]. by apply replayed_nothing. }
  intros (documents & w1 & Hc & Hr)%ebind_inl. apply call_inl in Hc. destruct (negb _); [done|]. destruct (documents_by_id ∅ documents) as [docByID|] eqn:Edoc; [|done].
  fold (gate_map run) in Hr. destruct (replayed_candidates _ _ _ _) as [candidates|] eqn:Ec; [|done].
  set (response := with_candidates _ _) in Hr. assert (Ha : answers run documents response) by (split; try done; by exists docByID).
  assert (Hread : read_at run documents) by (right; by eexists _, _, _). destruct (negb _) in Hr.
  - injection Hr as <- _. split; [done|]. by exists documents.
  - apply attachPlan_inl in Hr as (plan & -> & _). split; [done|]. exists documents. split; [done|]. by apply answers_with_plan.
Qed.

Lemma persistedWinner_returned attempts tenantID id e : forall w run w', persistedWinner_from d attempts tenantID id e w = (Ok run, w') -> returned run.
Proof.
  revert e. induction attempts as [|attempts IH]; intros e w run w'; cbn [persistedWinner_from]; [done|].
  destruct (dp_RetrievalRun d tenantID id w) as [[found|err] w1] eqn:Er; [intros [= <- _]; by eexists _, _, _, _|]. destruct (negb _); [done|].
  destruct attempts as [|attempts]; [done|]. destruct (dp_Wait d _ w1) as [[ctx|] w2]; [done|]. apply IH.
Qed.

(** How a run for [s] was built. *)
Record input_for (s : Serving) (gates : list PersistedGate) (ranks : list PersistedRank) (disposition : string) (selected : list string) (input : RunInput) : Prop :=
  mk_input_for {
  if_executions : ni_ChannelExecutions input = fst (persistedChannels (sg_Collection s));
  if_gates : ni_Gates input = gates;
  if_ranked : ni_Ranked input = ranks;
  if_disposition : ni_Disposition input = disposition;
  if_selected : ni_SelectedVersionIDs input = selected;
  if_tenant : ni_TenantID input = sq_TenantID (sg_Request s);
  if_snapshot : ni_Snapshot input = sg_Snapshot s
}.

(** A response that is not a replay, of a run just saved. *)
Definition filed (s : Serving) (gates : list PersistedGate) (ranks : list PersistedRank) (disposition : string) (selected : list string) (r : ServiceResponse) : Prop :=
  exists input run, input_for s gates ranks disposition selected input /\ built input run /\ saved run /\ rn_Disposition run <> RunFailed /\
    r = response_head run (co_Degraded (sg_Collection s)) (co_Approximate (sg_Collection s)) false.

Lemma persistOutcome_inl s gates ranks semantic disposition code selected w r w' :
  persistOutcome config d s gates ranks semantic disposition code selected w = (inl r, w') -> replays r \/ filed s gates ranks disposition selected r.
Proof.
  unfold persistOutcome. destruct (persistedChannels (sg_Collection s)) as [executions hits] eqn:Ep. intros (run & w1 & Hb & Hr)%ebind_inl.
  unfold buildRun in Hb. apply ebind_inl in Hb as (now & w2 & _ & Hb). apply pure_inl in Hb as [Hb _]. unfold persistRun in Hr.
  destruct (dp_SaveRetrievalRun d run w1) as [[[]|e] w3] eqn:Es.
  - right. destruct (String.eqb_spec (rn_Disposition run) RunFailed) as [|Hd]; [done|]. injection Hr as <- _. eexists _, run. split; [|split; [by eapply BuildRun_built|]].
    + by split; cbn [ni_ChannelExecutions ni_Gates ni_Ranked ni_Disposition ni_SelectedVersionIDs ni_TenantID ni_Snapshot]; rewrite ?Ep.
    + split; [by eexists _, _|done].
  - left. destruct (persistedWinner d _ _ w3) as [[winner|e'] w4] eqn:Ew; [|done]. destruct (conflicts _ _ _); [done|]. apply persistedWinner_returned in Ew.
    apply responseFromRun_inl in Hr as (Hrep & documents & Hread & Ha). split; [done|]. by exists winner, documents.
Qed.

(** A fresh response of a saved, valid run. *)
Definition freshly_answers (documents : list Document) (r : ServiceResponse) : Prop :=
  vr_Replayed r = false /\ exists run, saved run /\ ValidateRun run = Ok tt /\ read_at run documents /\ answers run documents r.

Definition read_for (s : Serving) (documents : list Document) : Prop :=
  documents = [] \/ exists ids w w', dp_RetrievalDocuments d (sq_TenantID (sg_Request s)) ids (ss_ProjectionEpoch (sg_Snapshot s)) w = (Ok documents, w').

(** A saved run with the candidates that its replay finds. *)
Lemma filed_answers s gates ranks disposition selected r documents docByID candidates :
  sorted_collection (sg_Collection s) -> filed s gates ranks disposition selected r -> read_for s documents -> documents_by_id ∅ documents = Some docByID ->
  (forall input run, input_for s gates ranks disposition selected input -> built input run ->
     replayed_candidates (included run) docByID (gate_map run) (rn_Ranked run) = Some candidates) ->
  freshly_answers documents (with_candidates r candidates) /\ ss_PolicyManifestID (vr_Snapshot r) = ss_PolicyManifestID (sg_Snapshot s).
Proof.
  intros Hs (input & run & Hin & Hb & Hsv & Hd & ->) Hread Hdoc Hc. specialize (Hc _ _ Hin Hb). destruct Hin as [He _ _ _ _ Ht Hsn].
  destruct (bt_head _ _ Hb) as (_ & Hrt & _). pose proof (bt_snapshot _ _ Hb) as Hrs. split; [|cbn [response_head vr_Snapshot]; by rewrite Hrs, Hsn].
  split; [done|]. exists run. split; [done|]. split; [apply (bt_valid _ _ Hb)|]. split.
  - unfold read_at. rewrite Hrs, Hsn, Hrt, Ht. exact Hread.
  - by eapply built_answers.
Qed.

Lemma filed_no_candidates s gates disposition selected r : filed s gates [] disposition selected r -> with_candidates r [] = r.
Proof. by intros (input & run & _ & _ & _ & _ & ->). Qed.

Lemma filed_replayed s gates ranks disposition selected r : filed s gates ranks disposition selected r -> vr_Replayed r = false.
Proof. by intros (input & run & _ & _ & _ & _ & ->). Qed.

(** What a fresh response offers: documents whose gate is open, each advisory or
    of at least the minimum score, and no more selected than the limit. *)
Record offers (s : Serving) (now : gotime) (documents : list Document) (r : ServiceResponse) : Prop := mk_offers {
  of_eligible : forall c, c ∈ vr_Candidates r -> exists x, x ∈ documents /\ dc_ProcedureVersionID x = sd_VersionID c /\
    let decision := Evaluate (pol_Spec (sg_Policy s)) (eligibilityContextFrom (sg_Request s) (sg_Query s) now) (eligibilityCandidateFrom x) in
    d_Eligible decision = true /\ sd_AdvisoryOnly c = d_AdvisoryOnly decision;
  of_score : forall c, c ∈ vr_Candidates r -> sd_AdvisoryOnly c = false -> sv_MinimumScore config <= sd_FinalScore c;
  of_limit : count (List.filter (fun c => negb (sd_AdvisoryOnly c)) (vr_Candidates r)) <= sv_MaximumSelections config
}.

Lemma choose_offers docByID decisionByID ranked : forall sel ids candidates,
  choose config docByID decisionByID sel ranked = (ids, candidates) ->
  (forall c, c ∈ candidates -> sd_VersionID c ∈ List.map r_VersionID ranked /\ sd_AdvisoryOnly c = advisory_of decisionByID (sd_VersionID c) /\
     (sd_AdvisoryOnly c = false -> sv_MinimumScore config <= sd_FinalScore c)) /\
  count (List.filter (fun c => negb (sd_AdvisoryOnly c)) candidates) + count sel = count ids.
Proof.
  induction ranked as [|item ranked IH]; intros sel ids candidates; cbn [choose]; [intros [= <- <-]; split; [intros c Hc; inversion Hc|done]|].
  fold (advisory_of decisionByID (r_VersionID item)). destruct (advisory_of decisionByID (r_VersionID item)) eqn:Ea.
  - destruct (choose config docByID decisionByID sel ranked) as [ids' cs] eqn:Ec. intros [= <- <-]. destruct (IH _ _ _ Ec) as [Hc Hn]. split; [|done].
    intros c [->|Hin]%elem_of_cons; [split; [by left|done]|]. destruct (Hc c Hin) as (? & ? & ?). split; [by right|done].
  - destruct (_ || _) eqn:Es.
    + intros Hch. destruct (IH _ _ _ Hch) as [Hc Hn]. split; [|done]. intros c Hin. destruct (Hc c Hin) as (? & ? & ?). split; [by right|done].
    + destruct (choose config docByID decisionByID (sel ++ [r_VersionID item]) ranked) as [ids' cs] eqn:Ec. intros [= <- <-]. destruct (IH _ _ _ Ec) as [Hc Hn].
      apply orb_false_iff in Es as [Es _]. split.
      * intros c [->|Hin]%elem_of_cons; [split; [by left|split; [done|intros _; cbn [sd_FinalScore]; lia]]|]. destruct (Hc c Hin) as (? & ? & ?). split; [by right|done].
      * cbn [List.filter sd_AdvisoryOnly negb]. unfold count in *. rewrite length_app in Hn. cbn [length] in *. lia.
Qed.

(** What [Retrieve] gives: a replay, or a fresh response and what it offers. *)
Definition outcome (request : ServiceRequest) (r : ServiceResponse) : Prop :=
  replays r \/ exists s now documents, sg_Request s = request /\ pol_ID (sg_Policy s) = ss_PolicyManifestID (vr_Snapshot r) /\ freshly_answers documents r /\
    offers s now documents r.

Lemma offers_nothing s now documents r : 0 <= sv_MaximumSelections config -> vr_Candidates r = [] -> offers s now documents r.
Proof. intros Hm Hc. split; rewrite Hc; [intros c Hin; inversion Hin..|]. done. Qed.

Hypothesis Hmax : 0 <= sv_MaximumSelections config.

Section one_serving.
Context (s : Serving).
Hypothesis Hsorted : sorted_collection (sg_Collection s).
Hypothesis Hpolicy : pol_ID (sg_Policy s) = ss_PolicyManifestID (sg_Snapshot s).

Lemma filed_outcome gates ranks disposition selected r documents docByID candidates now :
  filed s gates ranks disposition selected r -> read_for s documents -> documents_by_id ∅ documents = Some docByID ->
  (forall input run, input_for s gates ranks disposition selected input -> built input run ->
     replayed_candidates (included run) docByID (gate_map run) (rn_Ranked run) = Some candidates) ->
  (offers s now documents (with_candidates r candidates)) ->
  forall r', r' = with_candidates r candidates \/ (exists plan, r' = with_plan (with_candidates r candidates) plan) -> outcome (sg_Request s) r'.
Proof using Hsorted Hpolicy.
  intros Hf Hread Hdoc Hc Ho r' Hr'. destruct (filed_answers _ _ _ _ _ _ _ _ _ Hsorted Hf Hread Hdoc Hc) as [(Hrep & run & Hsv & Hval & Hra & Han) Hp]. right.
  exists s, now, documents. destruct Hr' as [->|[plan ->]]; (split; [done|]; split; [by rewrite Hpolicy|]; split; [|done || by destruct Ho]).
  - split; [done|]. by exists run.
  - split; [done|]. exists run. split_and!; try done. by apply answers_with_plan.
Qed.

(** An outcome without ranks has no candidates. *)
Lemma persistOutcome_outcome gates disposition code selected w r w' :
  persistOutcome config d s gates [] [] disposition code selected w = (inl r, w') -> outcome (sg_Request s) r.
Proof using Hmax Hsorted Hpolicy.
  intros [Hr|Hf]%persistOutcome_inl; [by left|]. eapply (filed_outcome _ _ _ _ _ [] ∅ [] zero_time Hf); [by left|done| | |].
  - intros input run Hin Hb. by rewrite (bt_ranked _ _ Hb), (if_ranked _ _ _ _ _ _ Hin).
  - by apply offers_nothing.
  - left. by rewrite (filed_no_candidates _ _ _ _ _ Hf).
Qed.

Lemma decide_candidates_outcome documents docByID w r w' :
  read_for s documents -> documents_by_id ∅ documents = Some docByID -> decide_candidates config d s documents docByID w = (inl r, w') -> outcome (sg_Request s) r.
Proof using Hmax Hsorted Hpolicy.
  intros Hread Hdoc. unfold decide_candidates. intros (now & w1 & _ & Hr)%ebind_inl.
  assert (Hdocs : forall v x, docByID !! v = Some x -> dc_ProcedureVersionID x = v) by (intros v x Hv; by apply (documents_by_id_empty _ _ _ _ Hdoc)).
  set (context := eligibilityContextFrom _ _ _) in Hr. destruct (assess _ _ _ _ _ _ _) as [a|e] eqn:Ea; [|done]. cbv beta iota in Hr.
  apply (assess_assessed _ _ _ _ _ Hdocs) in Ea; [|apply assessed_empty]. destruct (_ =? 0); [by apply persistOutcome_outcome in Hr|].
  apply ebind_inl in Hr as (preliminary & w2 & Hp & Hr). apply pure_inl in Hp as [Hrank ->]. apply ebind_inl in Hr as ([[ranked judgments] candidates] & w3 & Hs & Hr).
  apply attempt_inl in Hs. destruct (semantic_ranking_ranks d s docByID _ _ _ _ _ _ _ Hs Hrank) as (cs & Hcs & Hrk).
  destruct (choose config docByID (as_Decisions a) [] ranked) as [selectedIDs responseCandidates] eqn:Ech. destruct (choose_offers _ _ _ _ _ _ Ech) as [Hof Hlim].
  assert (Hoffers : forall r0, offers s (UTC now) documents (with_candidates r0 responseCandidates)).
  { intros r0. destruct (choose_ids _ _ _ _ _ _ _ Ech) as (_ & _ & _ & Hcount). split; cbn [with_candidates vr_Candidates].
    - intros c Hin. destruct (Hof c Hin) as (Hv & Hadv & _). apply Rank_versions in Hrk as (Hperm & _). rewrite Hperm, Hcs in Hv. apply elem_of_map in Hv as (c0 & Hc0 & Hv).
      destruct (ad_candidates _ _ _ _ Ea c0 Hc0) as (x & Hx & He). rewrite Hv in Hx. unfold advisory_of in Hadv. rewrite Hx in Hadv. apply (ad_decisions _ _ _ _ Ea) in Hx.
      unfold decision_at in Hx. destruct (docByID !! sd_VersionID c) as [document|] eqn:Ed; [|done]. injection Hx as <-. destruct (documents_by_id_empty _ _ _ _ Hdoc Ed) as [Hver Hin'].
      by exists document.
    - intros c Hin. by apply Hof.
    - unfold count in *. cbn [length] in Hcount, Hlim. specialize (Hcount Hmax). lia. }
  assert (Hfin : forall disposition selected r0, filed s (as_Gates a) (persistedRanking ranked candidates) disposition selected r0 -> selected = selectedIDs ->
    forall r', r' = with_candidates r0 responseCandidates \/ (exists plan, r' = with_plan (with_candidates r0 responseCandidates) plan) -> outcome (sg_Request s) r').
  { intros disposition selected r0 Hf ->. eapply (filed_outcome _ _ _ _ _ documents docByID responseCandidates (UTC now) Hf Hread Hdoc); [|apply Hoffers].
    intros input run Hin Hb. eapply (chosen_replayed config (pol_Spec (sg_Policy s)) context docByID a input run ranked candidates selectedIDs responseCandidates cs); try done; apply Hin. }
  destruct (count selectedIDs =? 0) eqn:En; apply ebind_inl in Hr as (r0 & w4 & Hr0 & Hr); apply persistOutcome_inl in Hr0 as [Hrep|Hf].
  - rewrite (proj1 Hrep) in Hr. injection Hr as <- _. by left.
  - rewrite (filed_replayed _ _ _ _ _ _ Hf) in Hr. injection Hr as <- _. eapply Hfin; [exact Hf| |by left]. unfold count in En. by destruct selectedIDs.
  - rewrite (proj1 Hrep) in Hr. injection Hr as <- _. by left.
  - rewrite (filed_replayed _ _ _ _ _ _ Hf) in Hr. apply ebind_inl in Hr as (persisted & w5 & _ & Hr). apply attachPlan_inl in Hr as (plan & -> & _).
    eapply Hfin; [exact Hf|done|]. right. by exists plan.
Qed.

Lemma serve_collection_outcome w r w' : serve_collection config d s w = (inl r, w') -> outcome (sg_Request s) r.
Proof using Hmax Hsorted Hpolicy.
  unfold serve_collection. destruct (negb _); [apply persistOutcome_outcome|]. destruct (_ =? 0); [apply persistOutcome_outcome|].
  destruct (dp_RetrievalDocuments d _ _ _ w) as [[documents|e] w1] eqn:Ed; [|apply persistOutcome_outcome]. destruct (negb _); [apply persistOutcome_outcome|].
  destruct (documents_by_id ∅ documents) as [docByID|] eqn:Eid; [|done]. destruct (negb _); [done|]. apply decide_candidates_outcome; [|done]. right. by eexists _, _, _.
Qed.
End one_serving.

Lemma collect_sorted request w c w' : collect d request w = (Ok c, w') -> sorted_collection c.
Proof.
  unfold collect. destruct (dp_Search d request w) as [[[events deadline] after] w1]. destruct (CollectCandidates _ _ _) as [[c'|e]|] eqn:Ec; [|done..].
  intros [= <- _]. by apply CollectCandidates_merged in Ec.
Qed.

(** The deadline is in the schedule, so the collection always ends. *)
Lemma collect_ends request w : let '((events, deadline, after), _) := dp_Search d request w in
  CollectCandidates request (events ++ [EvDone deadline]) after <> None.
Proof.
  destruct (dp_Search d request w) as [[[events deadline] after] w1]. unfold CollectCandidates. destruct (validateCollectRequest request) as [[]|]; [|done].
  destruct (collect_loop _ _ _ _) as [[byChannel|e]|] eqn:Ec; [by destruct after|done|]. exfalso. eapply collect_loop_total; [| |exact Ec].
  - intros n Hn. apply complete_schedule_answer; [|set_solver]. left. exists deadline. set_solver.
  - set_solver.
Qed.

Lemma serve_outcome request query contextHash id w r w' : serve config d request query contextHash id w = (inl r, w') -> outcome request r.
Proof using Hmax.
  unfold serve. intros (snapshot & w1 & _ & Hr)%ebind_inl. apply ebind_inl in Hr as (channels & w2 & _ & Hr). apply ebind_inl in Hr as (t & w3 & _ & Hr).
  apply ebind_inl in Hr as (policy & w4 & _ & Hr). destruct (String.eqb_spec (pol_ID policy) (ss_PolicyManifestID snapshot)) as [Hp|]; [|done]. cbn [negb] in Hr.
  apply ebind_inl in Hr as (ranker & w5 & _ & Hr). destruct (negb _); [done|]. apply ebind_inl in Hr as (envelope & w6 & _ & Hr). apply ebind_inl in Hr as (started & w7 & _ & Hr).
  apply ebind_inl in Hr as (collection & w8 & Hc & Hr). apply call_inl, collect_sorted in Hc. by apply serve_collection_outcome in Hr.
Qed.

Lemma Retrieve_outcome ctx request w r w' : Retrieve config d ctx request w = (inl r, w') -> outcome request r.
Proof using Hmax.
  unfold Retrieve. destruct ctx; [done|]. destruct (negb _); [done|]. destruct (_ =? 0); [done|]. intros (query & w1 & _ & Hr)%ebind_inl.
  apply ebind_inl in Hr as (contextHash & w2 & _ & Hr). apply ebind_inl in Hr as (id & w3 & _ & Hr). destruct (String.eqb _ ""); [by apply serve_outcome in Hr|].
  destruct (dp_RetrievalRun d _ _ w3) as [[existing|e] w4] eqn:Er.
  - destruct (conflicts _ _ _); [done|]. left. apply responseFromRun_inl in Hr as (Hrep & documents & Hread & Ha). split; [done|]. exists existing, documents.
    split; [by eexists _, _, _, _|done].
  - destruct (is_error _ _); [|done]. by apply serve_outcome in Hr.
Qed.

(** C5: Every response tells what its run tells: the disposition, the snapshot, the
    degraded channels and the candidates are those that a replay of the run
    gives, read from documents of the run's epoch.  The run of a replayed
    response is one that the repository returned; that of a fresh response
    validates and was accepted by the repository before the response was given. *)
Theorem Retrieve_is_replay (ctx : option goerr) (request : ServiceRequest) (w : W) (r : ServiceResponse) (w' : W) :
  Retrieve config d ctx request w = (inl r, w') ->
  exists run documents, answers run documents r /\ read_at run documents /\
    if vr_Replayed r then returned run else saved run /\ ValidateRun run = Ok tt.
Proof using Hmax.
  intros [(Hrep & run & documents & Hret & Hread & Ha)|(s & now & documents & _ & _ & (Hrep & run & Hsv & Hval & Hread & Ha) & _)]%Retrieve_outcome;
    exists run, documents; rewrite Hrep; done.
Qed.

End service_facts.

(** Two responses of one run agree, if they were read from the same documents. *)
Lemma replayed_candidates_same include docByID docByID' gateByID ranked candidates candidates' :
  (forall v x x', docByID !! v = Some x -> docByID' !! v = Some x' -> x = x') ->
  replayed_candidates include docByID gateByID ranked = Some candidates -> replayed_candidates include docByID' gateByID ranked = Some candidates' -> candidates = candidates'.
Proof.
  intros Hd. revert candidates candidates'. induction ranked as [|k ranked IH]; intros candidates candidates'; cbn [replayed_candidates]; [by intros [= <-] [= <-]|].
  destruct (negb _); [apply IH|]. destruct (docByID !! _) as [x|] eqn:Ex; [|done]. destruct (docByID' !! _) as [x'|] eqn:Ex'; [|done]. pose proof (Hd _ _ _ Ex Ex') as <-.
  destruct (replayed_candidates include docByID gateByID ranked) as [c|]; [|done]. destruct (replayed_candidates include docByID' gateByID ranked) as [c'|]; [|done].
  intros [= <-] [= <-]. by rewrite (IH c c' eq_refl eq_refl).
Qed.

Lemma answers_functional run documents documents' r r' :
  answers run documents r -> answers run documents' r' ->
  (forall x x', x ∈ documents -> x' ∈ documents' -> dc_ProcedureVersionID x = dc_ProcedureVersionID x' -> x = x') ->
  vr_RunID r = vr_RunID r' /\ vr_Disposition r = vr_Disposition r' /\ vr_DecisionCode r = vr_DecisionCode r' /\ vr_Candidates r = vr_Candidates r' /\
  vr_Snapshot r = vr_Snapshot r' /\ vr_QueryHash r = vr_QueryHash r' /\ vr_Degraded r = vr_Degraded r' /\
  vr_EnhancementDegraded r = vr_EnhancementDegraded r' /\ vr_Approximate r = vr_Approximate r'.
Proof.
  intros [(H1 & H2 & H3 & H4 & H5 & H6) Hd Ha (m & Hm & Hc) _] [(H1' & H2' & H3' & H4' & H5' & H6') Hd' Ha' (m' & Hm' & Hc') _] Hdocs.
  assert (Hcs : vr_Candidates r = vr_Candidates r').
  { eapply replayed_candidates_same; [|exact Hc|exact Hc']. intros v x x' Hx Hx'. destruct (documents_by_id_empty _ _ _ _ Hm Hx) as [Hv Hin].
    destruct (documents_by_id_empty _ _ _ _ Hm' Hx') as [Hv' Hin']. apply Hdocs; congruence. }
  split_and!; congruence.
Qed.

(** ** Examples *)
#[local] Existing Instance copy_nfc.
#[local] Existing Instance copy_jcs.
#[local] Existing Instance copy_raw.
#[local] Existing Instance checksum_digest.

(** The regions of a request are sorted before they are trimmed, so a padded
    region changes the order and a duplicate stays. *)
Example padded_region_kept :
  unique_regions [] (sort_strings ["b"; "a"]) = Some ["a"; "b"] /\ unique_regions [] (sort_strings [" b"; "a"; "b"]) = Some ["b"; "a"; "b"].
Proof. split; vm_compute; reflexivity. Qed.

Module service_demo.
Definition demo_document (version lifecycle : string) : Document :=
  mk_Document documentSchemaVersion "tenant" version ("procedure-" ++ version) "fix the build" "" "" [] [] [] "" (mk_Harness "" "") [] lifecycle true 2 3 0
    "2024-01-01T00:00:00Z" "p1" true "eu" "low" None [] "" "" "".

Definition demo_documents : list Document := [demo_document "v1" "active"; demo_document "v2" "candidate"; demo_document "v3" "retired"].

Definition policy_or (r : result Policy) : Policy := match r with Ok p => p | Err _ => mk_Policy (mk_PolicySpec "" [] false 0 0 [] []) "" "" end.
Definition demo_policy : Policy := Eval vm_compute in policy_or (NewPolicy (mk_PolicySpec "p1" ["active"] true 3 1000000 ["p1"] ["eu"])).

Definition ranker_or (r : result Ranking.Manifest) : Ranking.Manifest :=
  match r with Ok m => m | Err _ => Ranking.mk_Manifest (mk_ManifestSpec "" 0 0 0 0 [] []) "" "" end.
Definition demo_ranker : Ranking.Manifest := Eval vm_compute in
  ranker_or (NewManifest (mk_ManifestSpec "r1" 60 1 100 0 [mk_ChannelWeight "exact" 1000000] [mk_FeatureSpec "verified_success_count" 0 10 0 5])).

Definition demo_channels : list Channel := [mk_Channel "exact" "index-exact" false].

Definition demo_config : ServiceConfig := mk_ServiceConfig demo_channels ["exact"] 2000000 Hour 100 1 no_aliases.

Definition demo_now : gotime := mk_time ((62135596800 + 1704100000) * Second) 0.
Definition demo_serving_hash : string := Eval vm_compute in checksum_hex "set".

Definition demo_serving : ServingSnapshot :=
  mk_ServingSnapshot 7 zero_time zero_time demo_serving_hash "rsc_1" (pol_ID demo_policy) (m_ID demo_ranker) [mk_SnapshotIndex "exact" "index-exact" false].

Definition demo_plan (run : Run) : PlanArtifact :=
  mk_PlanArtifact "inj" "exec" "sel" "plan" "" "" "" "" "" "" "" "" "" (rn_TenantID run) (rn_ID run) (rn_QueryHash run) (rn_RequestContextHash run)
    (ss_ProjectionEpoch (rn_Snapshot run)) "" true [mk_PlanNode 0 "v1" "" false] [] [] [] [].

(** The state is the stored run; every other answer is fixed. *)
Definition demo_dependencies : Dependencies (option Run) :=
  mk_Dependencies (option Run)
    (fun _ w => (Ok demo_serving, w))
    (fun run w => match w with Some _ => (Err ErrRetrievalRunConflict, w) | None => (Ok tt, Some run) end)
    (fun _ _ w => match w with Some run => (Ok run, w) | None => (Err ErrRunNotFound, w) end)
    (fun _ ids _ w => (Ok (List.filter (fun x => bool_decide (dc_ProcedureVersionID x ∈ ids)) demo_documents), w))
    (fun _ _ w => (Ok demo_policy, w))
    (fun _ _ w => (Ok demo_ranker, w))
    None
    (fun _ _ w => (Ok "enc.v1.x"%string, w))
    (fun w => (Err ErrServiceUnavailable, w))
    (fun w => (demo_now, w))
    (fun _ w => (([EvResponse (mk_Response (mk_Channel "exact" "index-exact" false)
                    (List.map (fun v => mk_Hit v 900 "index-exact" false) ["v3"; "v1"; "v2"]) None 10)], None, None), w))
    None
    (fun request w => (mk_SemanticJudgment "" "" "" "" "" "" "" [], w))
    (fun _ _ w => (Err ErrPlanNotFound, w))
    (fun run _ w => (Ok (demo_plan run), w))
    (fun _ w => (None, w)).

Definition demo_request : ServiceRequest := mk_ServiceRequest "tenant" "p1" demo_serving_hash input_1 true false ["eu"].

Definition response_of (r : (ServiceResponse + service_error) * option Run) : ServiceResponse * option Run :=
  match r with
  | (inl response, w) => (response, w)
  | (inr _, w) => (mk_ServiceResponse "" "" "" [] demo_serving "" [] [] false false None, w)
  end.

Definition first_call : ServiceResponse * option Run := Eval vm_compute in response_of (Retrieve demo_config demo_dependencies None demo_request None).
End service_demo.
Import service_demo.

Lemma first_call_served : Retrieve demo_config demo_dependencies None demo_request None = (inl (fst first_call), snd first_call).
Proof. vm_compute. reflexivity. Qed.

Lemma Retrieve_is_replay_witness :
  exists run documents, answers run documents (fst first_call) /\ read_at demo_dependencies run documents /\ saved demo_dependencies run /\ ValidateRun run = Ok tt.
Proof. exact (Retrieve_is_replay demo_config demo_dependencies ltac:(vm_compute; discriminate) None demo_request None (fst first_call) (snd first_call) first_call_served). Defined.


(** The active version is selected, the candidate is advisory, the retired one
    is rejected; the same request again gives the same candidates as a replay. *)
Example served_and_replayed :
  List.map (fun c => (sd_VersionID c, sd_AdvisoryOnly c)) (vr_Candidates (fst first_call)) = [("v1"%string, false); ("v2"%string, true)] /\
  vr_Disposition (fst first_call) = RunSelected /\
  let second := Retrieve demo_config demo_dependencies None demo_request (snd first_call) in
  match fst second with inl r => vr_Replayed r = true /\ vr_Candidates r = vr_Candidates (fst first_call) | inr _ => False end.
Proof. split_and!; vm_compute; repeat split; reflexivity. Qed.
