(* ===== verification/Compatibility.v ===== *)
(** * Compatibility graphs (internal/composition/contract.go, compatibility.go)

    A compatibility matrix lists the pairs of schema versions that may be
    chained; a compatibility graph has an edge from one procedure version to
    another when a resource the first provides meets a requirement of the
    second.  Both are content-addressed values with a builder and a validator.
    The theorems state that the edges are exactly the matches the candidates'
    interfaces admit, that the merge scan and the binary search compute subset
    and membership, and that what the builder returns the validator accepts. *)

From Stdlib Require Import ZArith String Ascii List Bool Lia.
From stdpp Require Import base gmap strings list sorting.
From S2P Require Import Prelude GoStrings Canonical Budget Interfaces.

Open Scope Z_scope.
Open Scope go_scope.
Open Scope work_scope.

Definition maximumCompatibilityGraphEdges : Z := 100000.
Definition maximumCompatibilityRules : Z := 4096.

Record SchemaCompatibility := mk_SchemaCompatibility {
  sc_ResourceType : string;
  sc_Namespace : string;
  sc_ProvidedSchema : string;
  sc_RequiredSchema : string
}.

#[export] Instance rule_eq_dec : EqDecision SchemaCompatibility.
Proof. solve_decision. Defined.

Record CompatibilityLimits := mk_CompatibilityLimits {
  cl_MaximumCandidates : Z;
  cl_MaximumInterfaceEntries : Z;
  cl_MaximumTotalInterfaceEntries : Z;
  cl_MaximumProvidersPerResource : Z;
  cl_MaximumEdges : Z;
  cl_MaximumMatchComparisons : Z
}.

Record CompatibilityMatrix := mk_CompatibilityMatrix {
  cm_SchemaVersion : string;
  cm_ID : string;
  cm_Rules : list SchemaCompatibility;
  cm_Limits : CompatibilityLimits;
  cm_ContentHash : string;
  cm_CanonicalJSON : string
}.

Record Candidate := mk_Candidate {
  cd_TenantID : string;
  cd_ProcedureVersionID : string;
  cd_Lifecycle : string;
  cd_Interface : ProcedureInterface;
  cd_PlanningFactsHash : string
}.

Record ParallelismFacts := mk_ParallelismFacts {
  pf_ReadResourceIDs : list string;
  pf_WriteResourceIDs : list string;
  pf_ExclusiveResourceIDs : list string;
  pf_PolicyMutexKeys : list string;
  pf_CompensationBoundary : bool;
  pf_PolicySerial : bool
}.

Record PlanningFacts := mk_PlanningFacts {
  pl_ProcedureVersionID : string;
  pl_InterfaceHash : string;
  pl_Lifecycle : string;
  pl_PolicyManifestID : string;
  pl_GoalPredicateIDs : list string;
  pl_Parallelism : ParallelismFacts;
  pl_EvidenceStrength : Z;
  pl_ObservedEndToEnd : bool;
  pl_RiskCost : Z;
  pl_ToolCost : Z
}.

Record CompatibilityEdge := mk_CompatibilityEdge {
  ce_ID : string;
  ce_TenantID : string;
  ce_ProjectionEpoch : Z;
  ce_SourceVersionID : string;
  ce_TargetVersionID : string;
  ce_SourceInterfaceHash : string;
  ce_TargetInterfaceHash : string;
  ce_SourceProvisionIDs : list string;
  ce_SatisfiedRequirementIDs : list string;
  ce_PlannerManifestID : string;
  ce_PolicyManifestID : string;
  ce_SchemaVersion : string;
  ce_ContentHash : string
}.

Record CompatibilityGraph := mk_CompatibilityGraph {
  cg_SchemaVersion : string;
  cg_ID : string;
  cg_TenantID : string;
  cg_ProjectionEpoch : Z;
  cg_PlannerManifestID : string;
  cg_PolicyManifestID : string;
  cg_MatrixHash : string;
  cg_CandidateSetHash : string;
  cg_Edges : list CompatibilityEdge;
  cg_ContentHash : string;
  cg_CanonicalJSON : string
}.

Record GraphRequest := mk_GraphRequest {
  gr_TenantID : string;
  gr_ProjectionEpoch : Z;
  gr_PlannerManifestID : string;
  gr_PolicyManifestID : string;
  gr_Matrix : CompatibilityMatrix;
  gr_Candidates : list Candidate
}.

(** ** JSON *)
Definition rule_json (r : SchemaCompatibility) : json :=
  JObj (fstr "resource_type" (sc_ResourceType r) ++ fstr "namespace" (sc_Namespace r) ++
        fstr "provided_schema" (sc_ProvidedSchema r) ++ fstr "required_schema" (sc_RequiredSchema r)).

Definition limits_json (l : CompatibilityLimits) : json :=
  JObj (fnum "maximum_candidates" (cl_MaximumCandidates l) ++
        fnum "maximum_interface_entries" (cl_MaximumInterfaceEntries l) ++
        fnum "maximum_total_interface_entries" (cl_MaximumTotalInterfaceEntries l) ++
        fnum "maximum_providers_per_resource" (cl_MaximumProvidersPerResource l) ++
        fnum "maximum_edges" (cl_MaximumEdges l) ++
        fnum "maximum_match_comparisons" (cl_MaximumMatchComparisons l)).

Definition matrix_json (m : CompatibilityMatrix) : json :=
  JObj (fstr "schema_version" (cm_SchemaVersion m) ++ fstr_omit "id" (cm_ID m) ++
        farr_omit "rules" (List.map rule_json (cm_Rules m)) ++ fld "limits" (limits_json (cm_Limits m)) ++
        fstr_omit "content_hash" (cm_ContentHash m)).

Definition parallelism_json (f : ParallelismFacts) : json :=
  JObj (fstrs_omit "read_resource_ids" (pf_ReadResourceIDs f) ++
        fstrs_omit "write_resource_ids" (pf_WriteResourceIDs f) ++
        fstrs_omit "exclusive_resource_ids" (pf_ExclusiveResourceIDs f) ++
        fstrs_omit "policy_mutex_keys" (pf_PolicyMutexKeys f) ++
        fbool "compensation_boundary" (pf_CompensationBoundary f) ++ fbool "policy_serial" (pf_PolicySerial f)).

Definition facts_json (f : PlanningFacts) : json :=
  JObj (fstr "procedure_version_id" (pl_ProcedureVersionID f) ++ fstr "interface_hash" (pl_InterfaceHash f) ++
        fstr "lifecycle" (pl_Lifecycle f) ++ fstr "policy_manifest_id" (pl_PolicyManifestID f) ++
        fstrs_omit "goal_predicate_ids" (pl_GoalPredicateIDs f) ++
        fld "parallelism" (parallelism_json (pl_Parallelism f)) ++
        fnum "evidence_strength" (pl_EvidenceStrength f) ++ fbool "observed_end_to_end" (pl_ObservedEndToEnd f) ++
        fnum "risk_cost" (pl_RiskCost f) ++ fnum "tool_cost" (pl_ToolCost f)).

Definition edge_json (e : CompatibilityEdge) : json :=
  JObj (fstr "id" (ce_ID e) ++ fstr "tenant_id" (ce_TenantID e) ++ fnum "projection_epoch" (ce_ProjectionEpoch e) ++
        fstr "source_procedure_version_id" (ce_SourceVersionID e) ++
        fstr "target_procedure_version_id" (ce_TargetVersionID e) ++
        fstr "source_interface_hash" (ce_SourceInterfaceHash e) ++
        fstr "target_interface_hash" (ce_TargetInterfaceHash e) ++
        fstrs "source_provision_ids" (ce_SourceProvisionIDs e) ++
        fstrs "satisfied_requirement_ids" (ce_SatisfiedRequirementIDs e) ++
        fstr "planner_manifest_id" (ce_PlannerManifestID e) ++ fstr "policy_manifest_id" (ce_PolicyManifestID e) ++
        fstr "schema_version" (ce_SchemaVersion e) ++ fstr_omit "content_hash" (ce_ContentHash e)).

Definition graph_json (g : CompatibilityGraph) : json :=
  JObj (fstr "schema_version" (cg_SchemaVersion g) ++ fstr_omit "id" (cg_ID g) ++ fstr "tenant_id" (cg_TenantID g) ++
        fnum "projection_epoch" (cg_ProjectionEpoch g) ++ fstr "planner_manifest_id" (cg_PlannerManifestID g) ++
        fstr "policy_manifest_id" (cg_PolicyManifestID g) ++ fstr "matrix_hash" (cg_MatrixHash g) ++
        fstr "candidate_set_hash" (cg_CandidateSetHash g) ++ farr_omit "edges" (List.map edge_json (cg_Edges g)) ++
        fstr_omit "content_hash" (cg_ContentHash g)).

(** ** Identifiers *)
Definition empty (s : string) : bool := String.eqb s "".

Definition safeIdentity (value : string) : bool :=
  negb (empty value) && (str_len value <=? 1024) && negb (has_nul value).

Definition strictPrefixed (values : list string) (prefix : string) : bool :=
  strictSorted values &&
  forallb (fun value =>
    (str_len value =? str_len prefix + 64) && String.eqb (str_take (String.length prefix) value) prefix &&
    sha256Pattern (str_drop (String.length prefix) value)) values.

(** [normalizedIDs] (planner.go). *)
Definition normalizedIDs (source : list string) (allowEmpty : bool) : option (list string) :=
  let result := List.map TrimSpace source in
  if existsb (fun id => (str_len id >? 1024) || negb (safeIdentity id)) result then None
  else
    let result := sort_strings result in
    if adjacent_dup String.eqb result then None
    else if allowEmpty || (0 <? count result) then Some result else None.

Definition sliceSet (values : list string) : gset string := list_to_set values.
Definition sortedSet (values : gset string) : list string := sort_strings (elements values).

Definition validCompatibilityLimits (v : CompatibilityLimits) : bool :=
  (0 <? cl_MaximumCandidates v) && (cl_MaximumCandidates v <=? 10000) &&
  (0 <? cl_MaximumInterfaceEntries v) && (cl_MaximumInterfaceEntries v <=? 1024) &&
  (0 <? cl_MaximumTotalInterfaceEntries v) && (cl_MaximumTotalInterfaceEntries v <=? 1000000) &&
  (0 <? cl_MaximumProvidersPerResource v) && (cl_MaximumProvidersPerResource v <=? 1024) &&
  (0 <? cl_MaximumEdges v) && (cl_MaximumEdges v <=? 100000) &&
  (0 <? cl_MaximumMatchComparisons v) && (cl_MaximumMatchComparisons v <=? 10000000).

Definition defaultCompatibilityLimits : CompatibilityLimits :=
  mk_CompatibilityLimits 512 128 16384 128 65536 1000000.

(** ** Parallelism facts *)
Definition parallelEntryCount (f : ParallelismFacts) : Z :=
  count (pf_ReadResourceIDs f) + count (pf_WriteResourceIDs f) + count (pf_ExclusiveResourceIDs f) +
  count (pf_PolicyMutexKeys f).

Definition normalizedParallelism (source : ParallelismFacts) : option ParallelismFacts :=
  match normalizedIDs (pf_ReadResourceIDs source) true with
  | None => None
  | Some reads =>
      match normalizedIDs (pf_WriteResourceIDs source) true with
      | None => None
      | Some writes =>
          match normalizedIDs (pf_ExclusiveResourceIDs source) true with
          | None => None
          | Some exclusive =>
              match normalizedIDs (pf_PolicyMutexKeys source) true with
              | None => None
              | Some mutexes =>
                  if negb (strictPrefixed reads "res_") || negb (strictPrefixed writes "res_") ||
                     negb (strictPrefixed exclusive "res_")
                  then None
                  else Some (mk_ParallelismFacts reads writes exclusive mutexes (pf_CompensationBoundary source)
                               (pf_PolicySerial source))
              end
          end
      end
  end.

(** ** Rules and matches *)
Definition compareCompatibility : SchemaCompatibility -> SchemaCompatibility -> comparison :=
  cmp_lex (cmp_on sc_ResourceType String.compare)
    (cmp_lex (cmp_on sc_Namespace String.compare)
      (cmp_lex (cmp_on sc_ProvidedSchema String.compare) (cmp_on sc_RequiredSchema String.compare))).

Definition compatibility_eqb (l r : SchemaCompatibility) : bool :=
  match compareCompatibility l r with Eq => true | _ => false end.

(** [sort.Search(n, f)]: the loop on [i < j] with [h = (i+j)/2]; [j - i] shrinks at each turn. *)
Fixpoint search_loop (fuel : nat) (f : nat -> bool) (i j : nat) : nat :=
  match fuel with
  | O => i
  | S fuel =>
      if Nat.ltb i j then
        let h := Nat.div (i + j) 2 in
        if f h then search_loop fuel f i h else search_loop fuel f (S h) j
      else i
  end.

Definition sort_search (n : nat) (f : nat -> bool) : nat := search_loop (S n) f 0 n.

Definition explicitlyCompatible (provision : ProcedureProvision) (requirement : ProcedureRequirement)
    (rules : list SchemaCompatibility) : bool :=
  let key := mk_SchemaCompatibility (pv_ResourceType provision) (pv_Namespace provision)
               (pv_SchemaVersion provision) (rq_SchemaVersion requirement) in
  let index := sort_search (length rules) (fun i =>
    match rules !! i with
    | Some rule => match compareCompatibility rule key with Lt => false | _ => true end
    | None => false
    end) in
  match rules !! index with
  | Some rule => compatibility_eqb rule key
  | None => false
  end.

(** The inner [for providedIndex < len(provided) && provided[providedIndex] < predicate]. *)
Fixpoint skip_below (predicate : string) (provided : list string) : list string :=
  match provided with
  | p :: rest => if str_ltb p predicate then skip_below predicate rest else provided
  | [] => []
  end.

(** The slice [provided] stands for [provided[providedIndex:]]. *)
Fixpoint predicateGuaranteesCover (provided required : list string) : bool :=
  match required with
  | [] => true
  | predicate :: rest =>
      match skip_below predicate provided with
      | [] => false
      | p :: provided' => if String.eqb p predicate then predicateGuaranteesCover (p :: provided') rest else false
      end
  end.

Record provisionReference := mk_provisionReference { ref_source : Candidate; ref_provision : ProcedureProvision }.

Definition resourceIdentity : Type := string * string * string.
Notation versionPair := (string * string)%type.

Record compatibilityMatch := mk_compatibilityMatch {
  mt_source : Candidate;
  mt_target : Candidate;
  mt_provisionIDs : gset string;
  mt_requirementIDs : gset string
}.

Notation matchSet := (gmap versionPair compatibilityMatch).

Definition provision_resource (p : ProcedureProvision) : resourceIdentity :=
  (pv_ResourceType p, pv_Namespace p, pv_IdentityHash p).
Definition requirement_resource (r : ProcedureRequirement) : resourceIdentity :=
  (rq_ResourceType r, rq_Namespace r, rq_IdentityHash r).

Definition providers (byResource : gmap resourceIdentity (list provisionReference)) (key : resourceIdentity) :
    list provisionReference :=
  match byResource !! key with Some l => l | None => [] end.

Section graphs.
Context `{NFC} `{JCS} `{Digest}.

Definition BuildPlanningFactsHash (facts : PlanningFacts) : result string :=
  reject ((count (pl_GoalPredicateIDs facts) >? 1024) || (parallelEntryCount (pl_Parallelism facts) >? 16384))
    with ErrInvalidCompatibilityInput;
  let version := TrimSpace (pl_ProcedureVersionID facts) in
  let lifecycle := TrimSpace (pl_Lifecycle facts) in
  let policy := TrimSpace (pl_PolicyManifestID facts) in
  let goals := sort_strings (List.map TrimSpace (pl_GoalPredicateIDs facts)) in
  match normalizedParallelism (pl_Parallelism facts) with
  | None => Err ErrInvalidCompatibilityInput
  | Some parallelism =>
      reject (negb (safeIdentity version) || negb (sha256Pattern (pl_InterfaceHash facts)) ||
              negb (safeIdentity lifecycle) || negb (safeIdentity policy) || (pl_EvidenceStrength facts <? 0) ||
              (pl_ToolCost facts =? 0) || negb (strictSorted goals)) with ErrInvalidCompatibilityInput;
      let* (_, hash) := MarshalAndHash (facts_json (mk_PlanningFacts version (pl_InterfaceHash facts) lifecycle policy
        goals parallelism (pl_EvidenceStrength facts) (pl_ObservedEndToEnd facts) (pl_RiskCost facts)
        (pl_ToolCost facts))) in
      Ok hash
  end.

(** ** Matrices *)
Definition trim_rule (r : SchemaCompatibility) : SchemaCompatibility :=
  mk_SchemaCompatibility (TrimSpace (sc_ResourceType r)) (TrimSpace (sc_Namespace r))
    (TrimSpace (sc_ProvidedSchema r)) (TrimSpace (sc_RequiredSchema r)).

Definition rule_invalid (r : SchemaCompatibility) : bool :=
  empty (sc_ResourceType r) || empty (sc_Namespace r) || empty (sc_ProvidedSchema r) || empty (sc_RequiredSchema r) ||
  contains_byte 42 (sc_ResourceType r ++ sc_Namespace r ++ sc_ProvidedSchema r ++ sc_RequiredSchema r) ||
  has_nul (sc_ResourceType r) || has_nul (sc_Namespace r) || has_nul (sc_ProvidedSchema r) ||
  has_nul (sc_RequiredSchema r).

(** A nil slice of rules marshals as [null]. *)
Definition rules_json (rules : list SchemaCompatibility) : json :=
  match rules with [] => JNull | _ => JArr (List.map rule_json rules) end.

Definition normalizeCompatibility (source : list SchemaCompatibility) : result (list SchemaCompatibility * string) :=
  reject (count source >? maximumCompatibilityRules) with ErrInvalidCompatibilityInput;
  let rules := List.map trim_rule source in
  reject (existsb rule_invalid rules) with ErrInvalidCompatibilityInput;
  let rules := sort_slice (cmp_ltb compareCompatibility) rules in
  reject (adjacent_dup compatibility_eqb rules) with ErrInvalidCompatibilityInput;
  let* (_, hash) := MarshalAndHash (rules_json rules) in
  Ok (rules, hash).

Definition seal_matrix (m : CompatibilityMatrix) (id hash text : string) : CompatibilityMatrix :=
  mk_CompatibilityMatrix (cm_SchemaVersion m) id (cm_Rules m) (cm_Limits m) hash text.

Definition BuildCompatibilityMatrixWithLimits (source : list SchemaCompatibility) (limits : CompatibilityLimits) :
    result CompatibilityMatrix :=
  reject (negb (validCompatibilityLimits limits)) with ErrInvalidCompatibilityInput;
  let* (rules, _) := normalizeCompatibility source in
  let matrix := mk_CompatibilityMatrix "compatibility-matrix.v1" "" rules limits "" "" in
  let* (text, hash) := MarshalAndHash (matrix_json matrix) in
  Ok (seal_matrix matrix ("cmat_" ++ hash) hash text).

Definition BuildCompatibilityMatrix (source : list SchemaCompatibility) : result CompatibilityMatrix :=
  BuildCompatibilityMatrixWithLimits source defaultCompatibilityLimits.

(** [sameCompatibilityRules] *)
Definition sameCompatibilityRules (left right : list SchemaCompatibility) : bool := bool_decide (left = right).

(** The recomputed canonical bytes and digest are the recorded ones. *)
Definition sealed_as (value : json) (hash text : string) : bool :=
  match MarshalAndHash value with
  | Ok (text', hash') => String.eqb hash' hash && String.eqb text' text
  | Err _ => false
  end.

Definition ValidateCompatibilityMatrix (matrix : CompatibilityMatrix) : result unit :=
  reject (negb (String.eqb (cm_SchemaVersion matrix) "compatibility-matrix.v1") ||
          negb (String.eqb (cm_ID matrix) ("cmat_" ++ cm_ContentHash matrix)) ||
          negb (sha256Pattern (cm_ContentHash matrix))) with ErrInvalidCompatibilityInput;
  reject (negb (sealed_as (matrix_json (seal_matrix matrix "" "" "")) (cm_ContentHash matrix)
                  (cm_CanonicalJSON matrix))) with ErrInvalidCompatibilityInput;
  match normalizeCompatibility (cm_Rules matrix) with
  | Err _ => Err ErrInvalidCompatibilityInput
  | Ok (normalized, normalizedHash) =>
      reject (empty normalizedHash || negb (sameCompatibilityRules normalized (cm_Rules matrix)) ||
              negb (validCompatibilityLimits (cm_Limits matrix))) with ErrInvalidCompatibilityInput;
      Ok tt
  end.

(** ** Candidates *)
Definition entry_identity_ok (resourceType namespace schema : string) : bool :=
  safeIdentity resourceType && safeIdentity namespace && (empty schema || safeIdentity schema).

Definition validCandidate (candidate : Candidate) (tenantID : string) : bool :=
  String.eqb (cd_TenantID candidate) tenantID && safeIdentity (cd_TenantID candidate) &&
  safeIdentity (cd_ProcedureVersionID candidate) && sha256Pattern (cd_PlanningFactsHash candidate) &&
  (String.eqb (cd_Lifecycle candidate) "candidate" || String.eqb (cd_Lifecycle candidate) "trial" ||
   String.eqb (cd_Lifecycle candidate) "active") &&
  is_ok (ValidateProcedureInterface (cd_Interface candidate)) &&
  forallb (fun r => entry_identity_ok (rq_ResourceType r) (rq_Namespace r) (rq_SchemaVersion r))
    (pi_Requirements (cd_Interface candidate)) &&
  forallb (fun p => entry_identity_ok (pv_ResourceType p) (pv_Namespace p) (pv_SchemaVersion p))
    (pi_Provisions (cd_Interface candidate)).

Definition candidate_json (c : Candidate) : json :=
  JObj (fstr "procedure_version_id" (cd_ProcedureVersionID c) ++
        fstr "interface_hash" (pi_ContentHash (cd_Interface c)) ++ fstr "lifecycle" (cd_Lifecycle c) ++
        fstr "planning_facts_hash" (cd_PlanningFactsHash c)).

Definition by_version : list Candidate -> list Candidate :=
  sort_slice (cmp_ltb (cmp_on cd_ProcedureVersionID String.compare)).

Definition buildCandidateSetHash (candidates : list Candidate) : result string :=
  let* (_, hash) := MarshalAndHash (JArr (List.map candidate_json (by_version candidates))) in
  Ok hash.

(** ** Matching *)
Definition provides (rules : list SchemaCompatibility) (target : Candidate) (requirement : ProcedureRequirement)
    (reference : provisionReference) : bool :=
  negb (String.eqb (cd_ProcedureVersionID (ref_source reference)) (cd_ProcedureVersionID target)) &&
  (String.eqb (pv_SchemaVersion (ref_provision reference)) (rq_SchemaVersion requirement) ||
   explicitlyCompatible (ref_provision reference) requirement rules) &&
  predicateGuaranteesCover (pv_SuccessPredicateIDs (ref_provision reference)) (rq_PredicateIDs requirement).

Definition index_provision (limits : CompatibilityLimits) (source : Candidate) (provision : ProcedureProvision)
    (byResource : gmap resourceIdentity (list provisionReference)) :
    work (gmap resourceIdentity (list provisionReference)) :=
  if empty (pv_SchemaVersion provision) then ret byResource
  else
    let key := provision_resource provision in
    let l := providers byResource key ++ [mk_provisionReference source provision] in
    guard count l >? cl_MaximumProvidersPerResource limits else ErrInvalidCompatibilityInput;
    ret (<[key := l]> byResource).

Definition index_source (limits : CompatibilityLimits) (source : Candidate)
    (byResource : gmap resourceIdentity (list provisionReference)) :
    work (gmap resourceIdentity (list provisionReference)) :=
  do _ <- check_ctx;
  loop (fun _ => index_provision limits source) 0 (pi_Provisions (cd_Interface source)) byResource.

Definition add_match (m : compatibilityMatch) (provision : ProcedureProvision) (requirement : ProcedureRequirement) :
    compatibilityMatch :=
  mk_compatibilityMatch (mt_source m) (mt_target m) ({[pv_ID provision]} ∪ mt_provisionIDs m)
    ({[rq_ID requirement]} ∪ mt_requirementIDs m).

(** The body of the loop on the providers of a requirement's resource. *)
Definition match_reference (limits : CompatibilityLimits) (rules : list SchemaCompatibility) (target : Candidate)
    (requirement : ProcedureRequirement) (reference : provisionReference) (acc : nat * matchSet) :
    work (nat * matchSet) :=
  let comparisons := S (fst acc) in
  let matches := snd acc in
  do _ <- check_every 256 comparisons;
  guard Z.of_nat comparisons >? cl_MaximumMatchComparisons limits else ErrInvalidCompatibilityInput;
  if negb (provides rules target requirement reference) then ret (comparisons, matches)
  else
    let pair := (cd_ProcedureVersionID (ref_source reference), cd_ProcedureVersionID target) in
    match matches !! pair with
    | None =>
        guard Z.of_nat (size matches) >=? cl_MaximumEdges limits else ErrInvalidCompatibilityInput;
        ret (comparisons, <[pair := add_match (mk_compatibilityMatch (ref_source reference) target ∅ ∅)
                                      (ref_provision reference) requirement]> matches)
    | Some m => ret (comparisons, <[pair := add_match m (ref_provision reference) requirement]> matches)
    end.

Definition match_requirement (limits : CompatibilityLimits) (rules : list SchemaCompatibility)
    (byResource : gmap resourceIdentity (list provisionReference)) (target : Candidate)
    (requirement : ProcedureRequirement) (acc : nat * matchSet) : work (nat * matchSet) :=
  if empty (rq_SchemaVersion requirement) then ret acc
  else loop (fun _ => match_reference limits rules target requirement) 0
         (providers byResource (requirement_resource requirement)) acc.

Definition match_target (limits : CompatibilityLimits) (rules : list SchemaCompatibility)
    (byResource : gmap resourceIdentity (list provisionReference)) (target : Candidate) (acc : nat * matchSet) :
    work (nat * matchSet) :=
  do _ <- check_ctx;
  loop (fun _ => match_requirement limits rules byResource target) 0 (pi_Requirements (cd_Interface target)) acc.

Definition indexCompatibilityMatches (candidates : list Candidate) (rules : list SchemaCompatibility)
    (limits : CompatibilityLimits) : work matchSet :=
  do byResource <- loop (fun _ => index_source limits) 0 candidates ∅;
  do acc <- loop (fun _ => match_target limits rules byResource) 0 candidates (0%nat, ∅);
  ret (snd acc).

(** ** Building the graph *)
Definition seal_edge (e : CompatibilityEdge) (id hash : string) : CompatibilityEdge :=
  mk_CompatibilityEdge id (ce_TenantID e) (ce_ProjectionEpoch e) (ce_SourceVersionID e) (ce_TargetVersionID e)
    (ce_SourceInterfaceHash e) (ce_TargetInterfaceHash e) (ce_SourceProvisionIDs e) (ce_SatisfiedRequirementIDs e)
    (ce_PlannerManifestID e) (ce_PolicyManifestID e) (ce_SchemaVersion e) hash.

Definition match_edge (request : GraphRequest) (m : compatibilityMatch) : CompatibilityEdge :=
  mk_CompatibilityEdge "" (gr_TenantID request) (gr_ProjectionEpoch request)
    (cd_ProcedureVersionID (mt_source m)) (cd_ProcedureVersionID (mt_target m))
    (pi_ContentHash (cd_Interface (mt_source m))) (pi_ContentHash (cd_Interface (mt_target m)))
    (sortedSet (mt_provisionIDs m)) (sortedSet (mt_requirementIDs m))
    (TrimSpace (gr_PlannerManifestID request)) (TrimSpace (gr_PolicyManifestID request)) "compatibility-edge.v1" "".

Definition append_edge (request : GraphRequest) (matches : matchSet) (index : nat) (key : versionPair)
    (edges : list CompatibilityEdge) : work (list CompatibilityEdge) :=
  do _ <- check_every 256 index;
  match matches !! key with
  | None => ret edges
  | Some m =>
      let edge := match_edge request m in
      do (_, hash) <- lift (MarshalAndHash (edge_json edge));
      ret (edges ++ [seal_edge edge ("cedge_" ++ hash) hash])
  end.

Definition check_candidate (request : GraphRequest) (candidate : Candidate) (acc : gset string * Z) :
    work (gset string * Z) :=
  do _ <- check_ctx;
  let limits := cm_Limits (gr_Matrix request) in
  let entries := count (pi_Requirements (cd_Interface candidate)) + count (pi_Provisions (cd_Interface candidate)) in
  let total := snd acc + entries in
  guard negb (validCandidate candidate (gr_TenantID request)) || (entries >? cl_MaximumInterfaceEntries limits) ||
        (total >? cl_MaximumTotalInterfaceEntries limits) else ErrInvalidCompatibilityInput;
  guard bool_decide (cd_ProcedureVersionID candidate ∈ fst acc) else ErrInvalidCompatibilityInput;
  ret ({[cd_ProcedureVersionID candidate]} ∪ fst acc, total).

Definition pair_compare : versionPair -> versionPair -> comparison :=
  cmp_lex (cmp_on fst String.compare) (cmp_on snd String.compare).

Definition by_edge_id : list CompatibilityEdge -> list CompatibilityEdge :=
  sort_slice (cmp_ltb (cmp_on ce_ID String.compare)).

Definition seal_graph (g : CompatibilityGraph) (id hash text : string) : CompatibilityGraph :=
  mk_CompatibilityGraph (cg_SchemaVersion g) id (cg_TenantID g) (cg_ProjectionEpoch g) (cg_PlannerManifestID g)
    (cg_PolicyManifestID g) (cg_MatrixHash g) (cg_CandidateSetHash g) (cg_Edges g) hash text.

Definition BuildCompatibilityGraphContext (request : GraphRequest) : work CompatibilityGraph :=
  do _ <- check_ctx;
  guard empty (gr_TenantID request) || (gr_ProjectionEpoch request =? 0) ||
        empty (TrimSpace (gr_PlannerManifestID request)) || empty (TrimSpace (gr_PolicyManifestID request)) ||
        failed (ValidateCompatibilityMatrix (gr_Matrix request)) else ErrInvalidCompatibilityInput;
  let rules := cm_Rules (gr_Matrix request) in
  let limits := cm_Limits (gr_Matrix request) in
  guard count (gr_Candidates request) >? cl_MaximumCandidates limits else ErrInvalidCompatibilityInput;
  do _ <- loop (fun _ => check_candidate request) 0 (gr_Candidates request) (∅, 0);
  let candidates := by_version (gr_Candidates request) in
  do candidateSetHash <- lift (buildCandidateSetHash candidates);
  do matches <- indexCompatibilityMatches candidates rules limits;
  let keys := List.map fst (map_to_list matches) in
  do _ <- loop (fun index _ u => do _ <- check_every 256 index; ret u) 0 keys tt;
  let pairKeys := sort_slice (cmp_ltb pair_compare) keys in
  do _ <- check_ctx;
  do edges <- loop (append_edge request matches) 0 pairKeys [];
  let graph := mk_CompatibilityGraph "compatibility-graph.v1" "" (gr_TenantID request) (gr_ProjectionEpoch request)
    (TrimSpace (gr_PlannerManifestID request)) (TrimSpace (gr_PolicyManifestID request))
    (cm_ContentHash (gr_Matrix request)) candidateSetHash (by_edge_id edges) "" "" in
  do _ <- check_ctx;
  do (text, hash) <- lift (MarshalAndHash (graph_json graph));
  do _ <- check_ctx;
  ret (seal_graph graph ("cgraph_" ++ hash) hash text).

(** [BuildCompatibilityGraph]: on [context.Background()]. *)
Definition BuildCompatibilityGraph (request : GraphRequest) : result CompatibilityGraph :=
  fst (BuildCompatibilityGraphContext request background fresh).

(** ** Validating a graph *)
Definition validateCompatibilityEdge (edge : CompatibilityEdge) (graph : CompatibilityGraph) : result unit :=
  reject (negb (String.eqb (ce_SchemaVersion edge) "compatibility-edge.v1") ||
          negb (String.eqb (ce_ID edge) ("cedge_" ++ ce_ContentHash edge)) ||
          negb (sha256Pattern (ce_ContentHash edge)) ||
          negb (String.eqb (ce_TenantID edge) (cg_TenantID graph)) ||
          negb (ce_ProjectionEpoch edge =? cg_ProjectionEpoch graph) ||
          negb (String.eqb (ce_PlannerManifestID edge) (cg_PlannerManifestID graph)) ||
          negb (String.eqb (ce_PolicyManifestID edge) (cg_PolicyManifestID graph)) ||
          empty (ce_SourceVersionID edge) || empty (ce_TargetVersionID edge) ||
          String.eqb (ce_SourceVersionID edge) (ce_TargetVersionID edge) ||
          negb (sha256Pattern (ce_SourceInterfaceHash edge)) || negb (sha256Pattern (ce_TargetInterfaceHash edge)) ||
          (count (ce_SourceProvisionIDs edge) =? 0) || (count (ce_SatisfiedRequirementIDs edge) =? 0) ||
          negb (strictPrefixed (ce_SourceProvisionIDs edge) "prov_") ||
          negb (strictPrefixed (ce_SatisfiedRequirementIDs edge) "req_")) with ErrInvalidCompatibilityInput;
  match MarshalAndHash (edge_json (seal_edge edge "" "")) with
  | Ok (_, hash) => if String.eqb hash (ce_ContentHash edge) then Ok tt else Err ErrInvalidCompatibilityInput
  | Err _ => Err ErrInvalidCompatibilityInput
  end.

(** [edge.SourceVersionID + "\x00" + edge.TargetVersionID] *)
Definition pair_key (e : CompatibilityEdge) : string := (ce_SourceVersionID e ++ nul ++ ce_TargetVersionID e)%string.

Definition check_edge (graph : CompatibilityGraph) (index : nat) (edge : CompatibilityEdge)
    (acc : gset string * option string) : work (gset string * option string) :=
  do _ <- check_every 256 index;
  guard bool_decide (pair_key edge ∈ fst acc) || failed (validateCompatibilityEdge edge graph) ||
        match snd acc with Some prev => negb (str_ltb prev (ce_ID edge)) | None => false end
    else ErrInvalidCompatibilityInput;
  ret ({[pair_key edge]} ∪ fst acc, Some (ce_ID edge)).

Definition charge_if (charging : bool) (units : Z) : work unit := if charging then charge units else ret tt.

(** [charging] is [charge != nil]. *)
Definition validateCompatibilityGraph (charging : bool) (graph : CompatibilityGraph) : work unit :=
  do _ <- check_ctx;
  guard negb (String.eqb (cg_SchemaVersion graph) "compatibility-graph.v1") ||
        negb (String.eqb (cg_ID graph) ("cgraph_" ++ cg_ContentHash graph)) ||
        negb (sha256Pattern (cg_ContentHash graph)) else ErrInvalidCompatibilityInput;
  guard count (cg_Edges graph) >? maximumCompatibilityGraphEdges else ErrInvalidCompatibilityInput;
  do _ <- charge_if charging (count (cg_Edges graph) + 1);
  guard negb (sealed_as (graph_json (seal_graph graph "" "" "")) (cg_ContentHash graph) (cg_CanonicalJSON graph))
    else ErrInvalidCompatibilityInput;
  do _ <- check_ctx;
  guard empty (cg_TenantID graph) || (cg_ProjectionEpoch graph =? 0) || empty (cg_PlannerManifestID graph) ||
        empty (cg_PolicyManifestID graph) || negb (sha256Pattern (cg_MatrixHash graph)) ||
        negb (sha256Pattern (cg_CandidateSetHash graph)) else ErrInvalidCompatibilityInput;
  do _ <- charge_if charging (count (cg_Edges graph));
  do _ <- loop (check_edge graph) 0 (cg_Edges graph) (∅, None);
  ret tt.

Definition ValidateCompatibilityGraph (graph : CompatibilityGraph) : result unit :=
  fst (validateCompatibilityGraph false graph background fresh).

End graphs.

(** ** The merge scan and the binary search *)
Lemma skip_below_suffix predicate provided :
  StronglySorted str_lt provided ->
  exists before, provided = before ++ skip_below predicate provided /\ Forall (fun p => str_lt p predicate) before /\
    match skip_below predicate provided with p :: _ => ~ str_lt p predicate | [] => True end.
Proof.
  induction provided as [|p rest IH]; intros Hs; simpl; [by exists []|].
  inversion Hs as [|? ? Hrest _]; subst. destruct (str_ltb p predicate) eqn:E.
  - destruct (IH Hrest) as (before & Heq & Hf & Hhd). exists (p :: before). simpl. rewrite <- Heq.
    split; [done|]. split; [by constructor|done].
  - exists []. split; [done|]. split; [constructor|]. unfold str_lt. by rewrite E.
Qed.

Lemma predicateGuaranteesCover_subset provided required :
  StronglySorted str_lt provided -> StronglySorted str_lt required ->
  predicateGuaranteesCover provided required = true <-> (forall x, x ∈ required -> x ∈ provided).
Proof.
  revert provided. induction required as [|q rest IH]; intros provided Hp Hr; simpl.
  { split; [|done]. intros _ x Hx. by apply not_elem_of_nil in Hx. }
  inversion Hr as [|? ? Hrest Hq]; subst.
  destruct (skip_below_suffix q provided Hp) as (before & Heq & Hbefore & Hhd).
  remember (skip_below q provided) as tail eqn:Et. clear Et. subst provided.
  assert (Hout : forall x, x = q \/ str_lt q x -> x ∈ before ++ tail -> x ∈ tail).
  { intros x Hx [Hb|Ht]%elem_of_app; [|done]. rewrite List.Forall_forall in Hbefore.
    specialize (Hbefore x (proj1 (list_elem_of_In _ _) Hb)). exfalso. apply (str_lt_irrefl q).
    destruct Hx as [->|Hx]; [done|]. by transitivity x. }
  assert (Hs : StronglySorted str_lt tail) by (by apply StronglySorted_app in Hp as (_ & _ & ?)).
  destruct tail as [|p tail].
  { split; [done|]. intros Hall. specialize (Hout q (or_introl eq_refl) (Hall q (list_elem_of_here _ _))).
    by apply not_elem_of_nil in Hout. }
  destruct (String.eqb_spec p q) as [->|Hne].
  - rewrite IH by done. split.
    + intros Hall x [->|Hx]%elem_of_cons; apply elem_of_app; right; [by left|by apply Hall].
    + intros Hall x Hx. apply Hout; [right; by rewrite Forall_forall in Hq; apply Hq|]. apply Hall. by right.
  - split; [done|]. intros Hall. exfalso.
    specialize (Hout q (or_introl eq_refl) (Hall q (list_elem_of_here _ _))).
    apply elem_of_cons in Hout as [->|Hin]; [done|]. inversion Hs as [|? ? _ Hp']; subst.
    rewrite Forall_forall in Hp'. by apply Hhd, Hp'.
Qed.

Lemma search_loop_spec (f : nat -> bool) n fuel i j :
  (forall h k, f h = true -> (h <= k < n)%nat -> f k = true) ->
  (i <= j <= n)%nat -> (j - i < fuel)%nat ->
  (forall k, (k < i)%nat -> f k = false) -> (forall k, (j <= k < n)%nat -> f k = true) ->
  (forall k, (k < search_loop fuel f i j)%nat -> f k = false) /\
  (forall k, (search_loop fuel f i j <= k < n)%nat -> f k = true).
Proof.
  intros Hmono. revert i j. induction fuel as [|fuel IH]; intros i j Hij Hfuel Hlo Hhi; [lia|].
  cbn [search_loop].
  destruct (Nat.ltb_spec i j) as [Hlt|Hge].
  - pose proof (Nat.div_mod (i + j) 2 ltac:(lia)) as Hd.
    pose proof (Nat.mod_upper_bound (i + j) 2 ltac:(lia)) as Hm.
    set (h := ((i + j) / 2)%nat) in *. destruct (f h) eqn:E.
    + apply IH; [lia..|done|]. intros k Hk. eapply Hmono; [exact E|lia].
    + apply IH; [lia..| |done]. intros k Hk. destruct (f k) eqn:Ek; [|done].
      rewrite <- E. symmetry. eapply Hmono; [exact Ek|lia].
  - assert (i = j) as <- by lia. split; [done|]. intros k Hk. by apply Hhi.
Qed.

#[export] Instance compareCompatibility_lawful : LawfulCmp compareCompatibility.
Proof. unfold compareCompatibility. apply _. Qed.

Lemma compareCompatibility_eq l r : compareCompatibility l r = Eq <-> l = r.
Proof.
  unfold compareCompatibility, cmp_lex, cmp_on. split; [|intros ->; by rewrite !(cmp_refl (cmp := String.compare))].
  destruct l, r; simpl. repeat case_match; try done.
  repeat match goal with E : String.compare _ _ = Eq |- _ => apply String.compare_eq_iff in E end.
  intros ?%String.compare_eq_iff. by subst.
Qed.

Definition rule_lt (l r : SchemaCompatibility) : Prop := compareCompatibility l r = Lt.

Lemma sorted_distinct_rules rules :
  StronglySorted (cmp_le compareCompatibility) rules -> adjacent_dup compatibility_eqb rules = false ->
  StronglySorted rule_lt rules.
Proof.
  induction 1 as [|x l Hl IH Hf]; intros Hd; constructor.
  - apply IH. destruct l as [|y l]; [done|]. simpl in *. apply orb_false_iff in Hd as [_ Hd]. done.
  - destruct l as [|y l]; [done|]. simpl in Hd. apply orb_false_iff in Hd as [Hxy _].
    assert (Hlt : rule_lt x y).
    { inversion Hf as [|? ? Hle _]; subst. unfold cmp_le, compatibility_eqb, rule_lt in *. by destruct (compareCompatibility x y). }
    constructor; [done|]. inversion Hl as [|? ? _ Hyl]; subst.
    eapply Forall_impl; [exact Hyl|]. intros z Hz. by eapply (cmp_lt_le_trans x y z).
Qed.

Definition explicit_rule (p : ProcedureProvision) (r : ProcedureRequirement) : SchemaCompatibility :=
  mk_SchemaCompatibility (pv_ResourceType p) (pv_Namespace p) (pv_SchemaVersion p) (rq_SchemaVersion r).

Lemma explicitlyCompatible_member p r rules :
  StronglySorted rule_lt rules -> explicitlyCompatible p r rules = true <-> explicit_rule p r ∈ rules.
Proof.
  intros Hs. unfold explicitlyCompatible. fold (explicit_rule p r). set (key := explicit_rule p r).
  set (f := fun i => match rules !! i with Some rule => _ | None => false end).
  assert (Hmono : forall h k, f h = true -> (h <= k < length rules)%nat -> f k = true).
  { unfold f. intros h k Hh Hk. destruct (rules !! h) as [a|] eqn:Ea; [|done].
    destruct (rules !! k) as [b|] eqn:Eb; [|apply lookup_ge_None in Eb; lia].
    destruct (decide (h = k)) as [->|Hne]; [by simplify_eq|].
    assert (Hab : rule_lt a b) by (eapply StronglySorted_nth_lt; [exact Hs| |exact Ea|exact Eb]; lia).
    destruct (compareCompatibility b key) eqn:Ebk; [done| |done].
    rewrite (cmp_lt_le_trans a b key) in Hh; [done|done|by rewrite Ebk]. }
  destruct (search_loop_spec f (length rules) (S (length rules)) 0 (length rules)) as [Hlo Hhi];
    [exact Hmono|lia|lia|lia|lia|].
  fold (sort_search (length rules) f) in Hlo, Hhi. set (i := sort_search (length rules) f) in *.
  split.
  - destruct (rules !! i) as [rule|] eqn:Ei; [|done]. unfold compatibility_eqb.
    destruct (compareCompatibility rule key) eqn:Ec; try done. intros _.
    apply compareCompatibility_eq in Ec as <-. by eapply list_elem_of_lookup_2.
  - intros (k & Hk)%list_elem_of_lookup_1.
    assert (Hfk : f k = true) by (unfold f; rewrite Hk; by rewrite (cmp_refl (cmp := compareCompatibility))).
    destruct (decide (k < i)%nat) as [Hlt|Hge]; [by rewrite Hlo in Hfk|].
    pose proof (lookup_lt_Some _ _ _ Hk) as Hlen.
    destruct (rules !! i) as [rule|] eqn:Ei; [|apply lookup_ge_None in Ei; lia].
    assert (Hfi : f i = true) by (apply Hhi; lia). unfold f in Hfi. rewrite Ei in Hfi.
    destruct (decide (i = k)) as [->|Hne].
    + simplify_eq. unfold compatibility_eqb. by rewrite (cmp_refl (cmp := compareCompatibility)).
    + assert (Hlt : rule_lt rule key) by (eapply StronglySorted_nth_lt; [exact Hs| |exact Ei|exact Hk]; lia).
      unfold rule_lt in Hlt. by rewrite Hlt in Hfi.
Qed.

(** ** Strings joined with NUL *)
Lemma safeIdentity_spec s :
  safeIdentity s = true <-> s <> ""%string /\ str_len s <= 1024 /\ has_nul s = false.
Proof.
  unfold safeIdentity, empty. rewrite !andb_true_iff, !negb_true_iff, Z.leb_le, str_eqb_false. tauto.
Qed.

Lemma sortedSet_elem s x : x ∈ sortedSet s <-> x ∈ s.
Proof. unfold sortedSet. by rewrite sort_strings_elem, elem_of_elements. Qed.

Lemma sortedSet_strict s : "" ∉ s -> strictSorted (sortedSet s) = true.
Proof. intros He. apply sort_strings_strict; [apply NoDup_elements|]. by rewrite elem_of_elements. Qed.

(** A strictly prefixed slice: strictly sorted, each entry the prefix and a digest. *)
Lemma strictPrefixed_intro values prefix :
  strictSorted values = true ->
  (forall x, x ∈ values -> exists hash, x = (prefix ++ hash)%string /\ sha256Pattern hash = true) ->
  strictPrefixed values prefix = true.
Proof.
  intros Hs Hp. unfold strictPrefixed. rewrite Hs. simpl. rewrite forallb_forall. intros x Hx.
  destruct (Hp x) as (hash & -> & Hh); [by apply list_elem_of_In|].
  rewrite str_take_app, str_drop_app, str_eqb_refl, Hh, str_len_app.
  unfold sha256Pattern in Hh. apply andb_true_iff in Hh as [->%Z.eqb_eq _]. by rewrite Z.eqb_refl.
Qed.

Lemma strictPrefixed_strict values prefix : strictPrefixed values prefix = true -> strictSorted values = true.
Proof. unfold strictPrefixed. by intros [? _]%andb_true_iff. Qed.

(** ** Validated inputs *)
Section validated.
Context `{NFC} `{JCS} `{Digest}.

Lemma normalizeCompatibility_strict source rules hash :
  normalizeCompatibility source = Ok (rules, hash) -> StronglySorted rule_lt rules.
Proof.
  unfold normalizeCompatibility. case_match; [done|]. case_match; [done|].
  destruct (adjacent_dup _ _) eqn:Ed; [done|]. destruct (MarshalAndHash _) as [[? ?]|]; [|done]. simpl.
  intros [= <- _]. apply sorted_distinct_rules; [|done]. apply (sort_slice_sorted compareCompatibility).
Qed.

Lemma ValidateCompatibilityMatrix_rules m :
  ValidateCompatibilityMatrix m = Ok tt ->
  StronglySorted rule_lt (cm_Rules m) /\ sha256Pattern (cm_ContentHash m) = true /\
  validCompatibilityLimits (cm_Limits m) = true.
Proof.
  unfold ValidateCompatibilityMatrix. destruct (_ || _) eqn:E1; [done|].
  rewrite !orb_false_iff, !negb_false_iff in E1. destruct E1 as [_ Hh].
  destruct (sealed_as _ _ _); [|done]. cbn [negb].
  destruct (normalizeCompatibility (cm_Rules m)) as [[rules hash]|] eqn:En; [|done].
  destruct (_ || _) eqn:E2; [done|]. rewrite !orb_false_iff, !negb_false_iff in E2. destruct E2 as [[_ Hs] Hl].
  intros _. apply bool_decide_eq_true in Hs as <-. split; [by eapply normalizeCompatibility_strict|done].
Qed.

Lemma provides_spec rules source target p r :
  StronglySorted rule_lt rules -> wf_provision p -> wf_requirement r ->
  provides rules target r (mk_provisionReference source p) = true <->
  cd_ProcedureVersionID source <> cd_ProcedureVersionID target /\
  (pv_SchemaVersion p = rq_SchemaVersion r \/ explicit_rule p r ∈ rules) /\
  (forall x, x ∈ rq_PredicateIDs r -> x ∈ pv_SuccessPredicateIDs p).
Proof.
  intros Hs Hp Hr. unfold provides. cbn [ref_source ref_provision].
  rewrite !andb_true_iff, orb_true_iff, negb_true_iff, str_eqb_false, String.eqb_eq, explicitlyCompatible_member,
    predicateGuaranteesCover_subset by (done || apply Hp || apply Hr). tauto.
Qed.

Lemma validCandidate_wf c tenant :
  validCandidate c tenant = true ->
  wf_interface (cd_Interface c) /\ safeIdentity (cd_ProcedureVersionID c) = true /\
  cd_TenantID c = tenant /\ sha256Pattern (cd_PlanningFactsHash c) = true.
Proof.
  unfold validCandidate. rewrite !andb_true_iff. intros [[[[[[[Ht _] Hv] Hf] _] Hi] _] _].
  split; [|split_and!; [done|by apply String.eqb_eq|done]]. apply ValidateProcedureInterface_wf.
  by destruct (ValidateProcedureInterface _) as [[]|].
Qed.

(** ** The index of providers *)
Notation "x '!!!' k" := (providers x k) (at level 20).

Definition offers (cands : list Candidate) (key : resourceIdentity) (ref : provisionReference) : Prop :=
  ref_source ref ∈ cands /\ ref_provision ref ∈ pi_Provisions (cd_Interface (ref_source ref)) /\
  pv_SchemaVersion (ref_provision ref) <> ""%string /\ provision_resource (ref_provision ref) = key.

Lemma providers_insert m k k' l : providers (<[k := l]> m) k' = if decide (k = k') then l else providers m k'.
Proof.
  unfold providers. destruct (decide (k = k')) as [->|Hne]; [by rewrite lookup_insert_eq|by rewrite lookup_insert_ne].
Qed.

Lemma index_source_post limits source m :
  post (index_source limits source m) (fun m' => forall key ref, ref ∈ m' !!! key <->
    ref ∈ m !!! key \/
    ref_source ref = source /\ ref_provision ref ∈ pi_Provisions (cd_Interface source) /\
    pv_SchemaVersion (ref_provision ref) <> ""%string /\ provision_resource (ref_provision ref) = key).
Proof.
  unfold index_source. apply post_skip. intros _.
  apply (post_loop _ (fun seen m' => forall key ref, ref ∈ m' !!! key <-> ref ∈ m !!! key \/
    ref_source ref = source /\ ref_provision ref ∈ seen /\
    pv_SchemaVersion (ref_provision ref) <> ""%string /\ provision_resource (ref_provision ref) = key)).
  { intros key ref. rewrite elem_of_nil. tauto. }
  intros seen p rest m' _ Hinv. unfold index_provision, empty.
  assert (Hsnoc : forall q, q ∈ seen ++ [p] <-> q ∈ seen \/ q = p) by (intros q; by rewrite elem_of_app, list_elem_of_singleton).
  destruct (String.eqb_spec (pv_SchemaVersion p) "") as [He|He].
  { apply post_ret. intros key ref. rewrite Hinv, Hsnoc. split; [tauto|].
    intros [?|(? & [?| ->] & ? & ?)]; tauto. }
  apply post_reject. intros _. apply post_ret. intros key [s q]. rewrite providers_insert, Hsnoc. cbn [ref_source ref_provision].
  destruct (decide (provision_resource p = key)) as [<-|Hne].
  - rewrite elem_of_app, list_elem_of_singleton, Hinv. cbn [ref_source ref_provision]. split.
    + intros [?|[= -> ->]]; tauto.
    + intros [?|(-> & [?| ->] & ? & ?)]; tauto.
  - rewrite Hinv. cbn [ref_source ref_provision]. split; [tauto|].
    intros [?|(? & [?| ->] & ? & ?)]; tauto.
Qed.

Lemma index_post limits cands :
  post (loop (fun _ => index_source limits) 0 cands ∅)
    (fun m => forall key ref, ref ∈ m !!! key <-> offers cands key ref).
Proof.
  apply (post_loop _ (fun seen m => forall key ref, ref ∈ m !!! key <-> offers seen key ref)).
  { intros key ref. unfold offers, providers. rewrite lookup_empty, !elem_of_nil. tauto. }
  intros seen source rest m _ Hinv. eapply post_weaken; [apply index_source_post|].
  intros m' Hm' key ref. specialize (Hm' key ref). specialize (Hinv key ref). rewrite Hm', Hinv. unfold offers. rewrite elem_of_app, list_elem_of_singleton.
  split; [intros [?|(<- & ?)]; tauto|]. intros ([?|Hs] & Hrest); [tauto|]. right. by rewrite <- Hs.
Qed.

(** ** The matches, as a fold over the hits *)
Definition hit : Type := provisionReference * Candidate * ProcedureRequirement.
Definition hit_ref (h : hit) : provisionReference := fst (fst h).
Definition hit_target (h : hit) : Candidate := snd (fst h).
Definition hit_requirement (h : hit) : ProcedureRequirement := snd h.
Definition hit_pair (h : hit) : versionPair :=
  (cd_ProcedureVersionID (ref_source (hit_ref h)), cd_ProcedureVersionID (hit_target h)).

Definition add_hit (matches : matchSet) (h : hit) : matchSet :=
  let base := match matches !! hit_pair h with
              | Some m => m
              | None => mk_compatibilityMatch (ref_source (hit_ref h)) (hit_target h) ∅ ∅
              end in
  <[hit_pair h := add_match base (ref_provision (hit_ref h)) (hit_requirement h)]> matches.

Definition requirement_hits (rules : list SchemaCompatibility) (byResource : gmap resourceIdentity (list provisionReference))
    (t : Candidate) (r : ProcedureRequirement) : list hit :=
  if empty (rq_SchemaVersion r) then []
  else List.map (fun ref => (ref, t, r)) (List.filter (provides rules t r) (providers byResource (requirement_resource r))).

Definition target_hits rules byResource (t : Candidate) : list hit :=
  flat_map (requirement_hits rules byResource t) (pi_Requirements (cd_Interface t)).

Definition all_hits rules byResource (cands : list Candidate) : list hit := flat_map (target_hits rules byResource) cands.

(** A loop that appends the hits of each element. *)
Lemma loop_hits {B} (limits : CompatibilityLimits) (f : nat -> B -> nat * matchSet -> work (nat * matchSet))
    (hits : B -> list hit) l acc :
  (forall i x acc, (Z.of_nat (size (snd acc)) <= cl_MaximumEdges limits) ->
     post (f i x acc) (fun acc' => snd acc' = foldl add_hit (snd acc) (hits x) /\
       Z.of_nat (size (snd acc')) <= cl_MaximumEdges limits)) ->
  Z.of_nat (size (snd acc)) <= cl_MaximumEdges limits ->
  post (loop f 0 l acc) (fun acc' => snd acc' = foldl add_hit (snd acc) (flat_map hits l) /\
    Z.of_nat (size (snd acc')) <= cl_MaximumEdges limits).
Proof.
  intros Hf Hsize.
  apply (post_loop _ (fun seen acc' => snd acc' = foldl add_hit (snd acc) (flat_map hits seen) /\
    Z.of_nat (size (snd acc')) <= cl_MaximumEdges limits)); [done|].
  intros seen x rest acc' _ [Heq Hs]. eapply post_weaken; [by apply Hf|].
  intros acc'' [Heq' Hs']. split; [|done]. rewrite flat_map_app, foldl_app, <- Heq, Heq'. simpl. by rewrite app_nil_r.
Qed.

Lemma match_reference_post limits rules t r ref acc :
  Z.of_nat (size (snd acc)) <= cl_MaximumEdges limits ->
  post (match_reference limits rules t r ref acc) (fun acc' =>
    snd acc' = foldl add_hit (snd acc) (if provides rules t r ref then [(ref, t, r)] else []) /\
    Z.of_nat (size (snd acc')) <= cl_MaximumEdges limits).
Proof.
  intros Hsize. unfold match_reference. apply post_skip. intros _. apply post_reject. intros _.
  destruct (provides rules t r ref); cbn [negb foldl]; [|by apply post_ret].
  unfold add_hit, hit_pair, hit_ref, hit_target, hit_requirement. cbn [fst snd].
  destruct (snd acc !! _) as [m|] eqn:E.
  - apply post_ret. cbn [fst snd]. split; [done|]. by rewrite map_size_insert_Some by (by exists m).
  - apply post_reject. intros Hlt. apply post_ret. cbn [fst snd]. split; [done|].
    rewrite map_size_insert_None by done. rewrite Z.geb_leb in Hlt. apply Z.leb_gt in Hlt. lia.
Qed.

Lemma match_target_post limits rules byResource t acc :
  Z.of_nat (size (snd acc)) <= cl_MaximumEdges limits ->
  post (match_target limits rules byResource t acc) (fun acc' =>
    snd acc' = foldl add_hit (snd acc) (target_hits rules byResource t) /\
    Z.of_nat (size (snd acc')) <= cl_MaximumEdges limits).
Proof.
  intros Hsize. unfold match_target. apply post_skip. intros _.
  apply (loop_hits limits _ (requirement_hits rules byResource t)); [|done]. clear acc Hsize. intros _ r acc Hsize.
  unfold match_requirement, requirement_hits. destruct (empty _); [by apply post_ret|].
  eapply post_weaken; [apply (loop_hits limits _ (fun ref => if provides rules t r ref then [(ref, t, r)] else [])); [|done]|].
  { intros _ ref acc' Hs. by apply match_reference_post. }
  intros acc' [Heq Hs]. split; [|done]. rewrite Heq. f_equal. clear Heq.
  induction (providers byResource (requirement_resource r)) as [|ref l IH]; simpl; [done|].
  rewrite IH. by destruct (provides rules t r ref).
Qed.

Lemma indexCompatibilityMatches_post cands rules limits :
  0 <= cl_MaximumEdges limits ->
  post (indexCompatibilityMatches cands rules limits) (fun matches => exists byResource,
    (forall key ref, ref ∈ providers byResource key <-> offers cands key ref) /\
    matches = foldl add_hit ∅ (all_hits rules byResource cands) /\
    Z.of_nat (size matches) <= cl_MaximumEdges limits).
Proof.
  intros Hl. unfold indexCompatibilityMatches. eapply post_bind; [apply index_post|]. intros byResource Hidx.
  eapply post_bind; [apply (loop_hits limits _ (target_hits rules byResource))|].
  { intros _ t acc Hs. by apply match_target_post. }
  { simpl. by rewrite map_size_empty. }
  intros [n matches] [Heq Hs]. apply post_ret. exists byResource. by split.
Qed.

(** What a set of matches records of the hits. *)
Definition records (matches : matchSet) (hits : list hit) : Prop :=
  forall pair, match matches !! pair with
  | None => forall h, h ∈ hits -> hit_pair h <> pair
  | Some m =>
      (exists h, h ∈ hits /\ hit_pair h = pair /\ mt_source m = ref_source (hit_ref h) /\ mt_target m = hit_target h) /\
      (forall id, id ∈ mt_provisionIDs m <->
         exists h, h ∈ hits /\ hit_pair h = pair /\ pv_ID (ref_provision (hit_ref h)) = id) /\
      (forall id, id ∈ mt_requirementIDs m <->
         exists h, h ∈ hits /\ hit_pair h = pair /\ rq_ID (hit_requirement h) = id)
  end.

(** One more hit adds its identifier to the identifiers of its pair. *)
Lemma hit_ids_snoc (hits : list hit) (x : hit) (k : hit -> string) (ids : gset string) :
  (forall id, id ∈ ids <-> exists h, h ∈ hits /\ hit_pair h = hit_pair x /\ k h = id) ->
  forall id, id ∈ {[k x]} ∪ ids <-> exists h, h ∈ hits ++ [x] /\ hit_pair h = hit_pair x /\ k h = id.
Proof.
  intros Hids id. rewrite elem_of_union, elem_of_singleton, Hids. split.
  - intros [->|(h & Hh & Hp & Hk)]; [exists x|exists h]; (split; [|done]); apply elem_of_app;
      [right; by apply list_elem_of_singleton|by left].
  - intros (h & [Hh|Hh%list_elem_of_singleton]%elem_of_app & Hp & Hk); [right; by exists h|left; by subst].
Qed.

(** The hits of another pair leave a pair's record alone. *)
Lemma hit_ids_other (hits : list hit) (x : hit) (k : hit -> string) pair id :
  hit_pair x <> pair ->
  (exists h, h ∈ hits /\ hit_pair h = pair /\ k h = id) <->
  (exists h, h ∈ hits ++ [x] /\ hit_pair h = pair /\ k h = id).
Proof.
  intros Hne. split; intros (h & Hh & Hp & Hk); exists h; (split; [|done]).
  - apply elem_of_app. by left.
  - apply elem_of_app in Hh as [?|Hh%list_elem_of_singleton]; [done|]. by subst.
Qed.

Lemma add_hit_records matches hits x : records matches hits -> records (add_hit matches x) (hits ++ [x]).
Proof.
  intros Hrec pair. specialize (Hrec pair) as Hp. unfold add_hit.
  destruct (decide (hit_pair x = pair)) as [<-|Hne].
  - rewrite lookup_insert_eq. unfold add_match. cbn [mt_source mt_target mt_provisionIDs mt_requirementIDs].
    assert (Hx : x ∈ hits ++ [x]) by (apply elem_of_app; right; by apply list_elem_of_singleton).
    destruct (matches !! hit_pair x) as [m|]; cbn [mt_source mt_target mt_provisionIDs mt_requirementIDs].
    + destruct Hp as ((h & Hh & ?) & Hprov & Hreq). split.
      { exists h. split; [|done]. apply elem_of_app. by left. }
      split; [by apply (hit_ids_snoc hits x (fun h => pv_ID (ref_provision (hit_ref h))))
             |by apply (hit_ids_snoc hits x (fun h => rq_ID (hit_requirement h)))].
    + split; [by exists x|]. assert (Hnone : forall k id, id ∈ (∅ : gset string) <->
        exists h, h ∈ hits /\ hit_pair h = hit_pair x /\ k h = id).
      { intros k id. rewrite elem_of_empty. split; [done|]. intros (h & Hh & Hq & _). by apply (Hp h Hh). }
      split; [by apply (hit_ids_snoc hits x (fun h => pv_ID (ref_provision (hit_ref h))))
             |by apply (hit_ids_snoc hits x (fun h => rq_ID (hit_requirement h)))].
  - rewrite lookup_insert_ne by done. destruct (matches !! pair) as [m|].
    + destruct Hp as ((h & Hh & ?) & Hprov & Hreq). split.
      { exists h. split; [|done]. apply elem_of_app. by left. }
      split; intros id; rewrite ?Hprov, ?Hreq;
        [by apply (hit_ids_other hits x (fun h => pv_ID (ref_provision (hit_ref h))))
        |by apply (hit_ids_other hits x (fun h => rq_ID (hit_requirement h)))].
    + intros h [Hh|Hh%list_elem_of_singleton]%elem_of_app; [by apply Hp|by subst].
Qed.

Lemma foldl_records hits : records (foldl add_hit ∅ hits) hits.
Proof.
  induction hits as [|x hits IH] using rev_ind; [|rewrite foldl_app; simpl; by apply add_hit_records].
  intros pair. simpl. rewrite lookup_empty. intros h Hh. by apply not_elem_of_nil in Hh.
Qed.

End validated.

(** ** What the builder returns *)
Section built.
Context `{NFC} `{JCS} `{Digest}.

(** A provision of one candidate meets a requirement of another. *)
Record can_feed (request : GraphRequest) (s t : Candidate) (p : ProcedureProvision) (r : ProcedureRequirement) : Prop := {
  cf_source : s ∈ gr_Candidates request;
  cf_target : t ∈ gr_Candidates request;
  cf_distinct : cd_ProcedureVersionID s <> cd_ProcedureVersionID t;
  cf_provision : p ∈ pi_Provisions (cd_Interface s);
  cf_requirement : r ∈ pi_Requirements (cd_Interface t);
  cf_versioned : pv_SchemaVersion p <> ""%string /\ rq_SchemaVersion r <> ""%string;
  cf_resource : provision_resource p = requirement_resource r;
  cf_schema : pv_SchemaVersion p = rq_SchemaVersion r \/ explicit_rule p r ∈ cm_Rules (gr_Matrix request);
  cf_predicates : forall x, x ∈ rq_PredicateIDs r -> x ∈ pv_SuccessPredicateIDs p
}.

Definition edge_of (request : GraphRequest) (matches : matchSet) (key : versionPair) (e : CompatibilityEdge) : Prop :=
  exists m text hash, matches !! key = Some m /\
    MarshalAndHash (edge_json (match_edge request m)) = Ok (text, hash) /\
    e = seal_edge (match_edge request m) ("cedge_" ++ hash) hash.

Record built (request : GraphRequest) (g : CompatibilityGraph) (matches : matchSet)
    (byResource : gmap resourceIdentity (list provisionReference)) (keys : list versionPair)
    (edges : list CompatibilityEdge) : Prop := {
  bt_tenant : gr_TenantID request <> ""%string;
  bt_epoch : gr_ProjectionEpoch request <> 0;
  bt_planner : TrimSpace (gr_PlannerManifestID request) <> ""%string;
  bt_policy : TrimSpace (gr_PolicyManifestID request) <> ""%string;
  bt_matrix : ValidateCompatibilityMatrix (gr_Matrix request) = Ok tt;
  bt_candidates : Forall (fun c => validCandidate c (gr_TenantID request) = true) (gr_Candidates request);
  bt_versions : NoDup (List.map cd_ProcedureVersionID (gr_Candidates request));
  bt_index : forall key ref, ref ∈ providers byResource key <-> offers (by_version (gr_Candidates request)) key ref;
  bt_matches : matches = foldl add_hit ∅ (all_hits (cm_Rules (gr_Matrix request)) byResource (by_version (gr_Candidates request)));
  bt_size : Z.of_nat (size matches) <= cl_MaximumEdges (cm_Limits (gr_Matrix request));
  bt_keys : keys ≡ₚ List.map fst (map_to_list matches);
  bt_edges : Forall2 (edge_of request matches) keys edges;
  bt_sorted : cg_Edges g = by_edge_id edges;
  bt_sethash : sha256Pattern (cg_CandidateSetHash g) = true;
  bt_graph : exists text hash base,
    base = mk_CompatibilityGraph "compatibility-graph.v1" "" (gr_TenantID request) (gr_ProjectionEpoch request)
      (TrimSpace (gr_PlannerManifestID request)) (TrimSpace (gr_PolicyManifestID request))
      (cm_ContentHash (gr_Matrix request)) (cg_CandidateSetHash g) (cg_Edges g) "" "" /\
    MarshalAndHash (graph_json base) = Ok (text, hash) /\ g = seal_graph base ("cgraph_" ++ hash) hash text
}.

Lemma check_candidates_post request :
  post (loop (fun _ => check_candidate request) 0 (gr_Candidates request) (∅, 0)) (fun _ =>
    Forall (fun c => validCandidate c (gr_TenantID request) = true) (gr_Candidates request) /\
    NoDup (List.map cd_ProcedureVersionID (gr_Candidates request))).
Proof.
  eapply post_weaken; [apply (post_loop _ (fun seen acc =>
    (Forall (fun c => validCandidate c (gr_TenantID request) = true) seen /\
    NoDup (List.map cd_ProcedureVersionID seen)) /\
    forall x, x ∈ fst acc <-> x ∈ List.map cd_ProcedureVersionID seen))|by intros acc [? _]].
  { split; [by repeat constructor|]. intros x. simpl. by rewrite elem_of_empty, elem_of_nil. }
  intros seen c rest [ids total] _ [[Hv Hn] Hids]. unfold check_candidate. apply post_skip. intros _.
  apply post_reject. rewrite !orb_false_iff, negb_false_iff. intros [[Hc _] _].
  apply post_reject. intros Hfresh%bool_decide_eq_false. apply post_ret. cbn [fst snd] in *.
  rewrite List.map_app. simpl. split; [split|].
  - apply Forall_app. split; [done|]. by repeat constructor.
  - rewrite NoDup_app. split; [done|]. split; [|apply NoDup_singleton].
    intros x Hx ->%list_elem_of_singleton. by apply Hfresh, Hids.
  - intros x. rewrite elem_of_union, elem_of_singleton, Hids, elem_of_app, list_elem_of_singleton. tauto.
Qed.

Lemma append_edges_post request matches keys :
  (forall k, k ∈ keys -> is_Some (matches !! k)) ->
  post (loop (append_edge request matches) 0 keys []) (Forall2 (edge_of request matches) keys).
Proof.
  intros Hkeys. apply (post_loop _ (Forall2 (edge_of request matches))); [constructor|].
  intros seen k rest edges Heq Hinv. unfold append_edge. apply post_skip. intros _.
  destruct (Hkeys k) as [m Hm]; [rewrite Heq; apply elem_of_app; right; left|]. rewrite Hm.
  eapply post_bind; [apply post_lift; intros th Hth; exact Hth|]. intros [text hash] Hth.
  apply post_ret. apply Forall2_app; [done|]. repeat constructor. by exists m, text, hash.
Qed.

Lemma BuildCompatibilityGraphContext_built request :
  post (BuildCompatibilityGraphContext request) (fun g =>
    exists matches byResource keys edges, built request g matches byResource keys edges).
Proof.
  unfold BuildCompatibilityGraphContext. apply post_skip. intros _. apply post_reject.
  rewrite !orb_false_iff. intros [[[[Ht He] Hpl] Hpo] Hm]. unfold empty in *.
  apply str_eqb_false in Ht, Hpl, Hpo. apply Z.eqb_neq in He.
  unfold failed in Hm. apply negb_false_iff in Hm.
  assert (Hmat : ValidateCompatibilityMatrix (gr_Matrix request) = Ok tt)
    by (by destruct (ValidateCompatibilityMatrix _) as [[]|]).
  apply post_reject. intros _. eapply post_bind; [apply check_candidates_post|]. intros _ [Hv Hn].
  eapply post_bind; [apply post_lift; intros h Hh; exact Hh|]. intros setHash Hset.
  assert (0 <= cl_MaximumEdges (cm_Limits (gr_Matrix request))) as Hmax.
  { destruct (ValidateCompatibilityMatrix_rules _ Hmat) as (_ & _ & Hl).
    unfold validCompatibilityLimits in Hl. rewrite !andb_true_iff, ?Z.ltb_lt in Hl. lia. }
  eapply post_bind; [by apply indexCompatibilityMatches_post|]. intros matches (byResource & Hidx & Hmt & Hsz).
  apply post_skip. intros _. apply post_skip. intros _.
  eapply post_bind; [apply append_edges_post|].
  { intros k Hk. rewrite sort_slice_elem in Hk. apply list_elem_of_In, in_map_iff in Hk as ([k' m] & <- & Hin).
    exists m. by apply elem_of_map_to_list, list_elem_of_In. }
  intros edges Hedges. apply post_skip. intros _.
  eapply post_bind; [apply post_lift; intros th Hth; exact Hth|]. intros [text hash] Hth.
  apply post_skip. intros _. apply post_ret.
  exists matches, byResource, (sort_slice (cmp_ltb pair_compare) (List.map fst (map_to_list matches))), edges.
  constructor; try done; [apply sort_slice_perm| |by eexists _, _, _].
  simpl. unfold buildCandidateSetHash in Hset. destruct (MarshalAndHash _) as [[c h]|] eqn:Ec; [|done].
  simpl in Hset. injection Hset as <-. by eapply MarshalAndHash_pattern.
Qed.

Context (request : GraphRequest) (g : CompatibilityGraph) (matches : matchSet)
  (byResource : gmap resourceIdentity (list provisionReference)) (keys : list versionPair)
  (edges : list CompatibilityEdge) (Hb : built request g matches byResource keys edges).

Lemma by_version_elem c : c ∈ by_version (gr_Candidates request) <-> c ∈ gr_Candidates request.
Proof. apply sort_slice_elem. Qed.

Lemma built_valid c : c ∈ gr_Candidates request -> validCandidate c (gr_TenantID request) = true.
Proof using Hb. intros Hc. pose proof (bt_candidates _ _ _ _ _ _ Hb) as Hf. rewrite Forall_forall in Hf. by apply Hf. Qed.

Lemma built_interface c : c ∈ gr_Candidates request -> wf_interface (cd_Interface c).
Proof using Hb. intros Hc. by eapply validCandidate_wf, built_valid. Qed.

(** The hits are exactly the matches the interfaces admit. *)
Lemma all_hits_feed ref t r :
  (ref, t, r) ∈ all_hits (cm_Rules (gr_Matrix request)) byResource (by_version (gr_Candidates request)) <->
  can_feed request (ref_source ref) t (ref_provision ref) r.
Proof using Hb.
  destruct (ValidateCompatibilityMatrix_rules _ (bt_matrix _ _ _ _ _ _ Hb)) as (Hrules & _).
  assert (Hspec : forall s p, s ∈ gr_Candidates request -> t ∈ gr_Candidates request ->
    p ∈ pi_Provisions (cd_Interface s) -> r ∈ pi_Requirements (cd_Interface t) -> wf_provision p /\ wf_requirement r).
  { intros s p Hs Ht Hp Hr. split.
    - apply (proj1 (Forall_forall _ _) (wi_provisions _ (built_interface s Hs)) p Hp).
    - apply (proj1 (Forall_forall _ _) (wi_requirements _ (built_interface t Ht)) r Hr). }
  unfold all_hits. rewrite list_elem_of_In, in_flat_map. unfold target_hits. split.
  - intros (t' & Ht & Hin). apply in_flat_map in Hin as (r' & Hr & Hin).
    unfold requirement_hits, empty in Hin. destruct (String.eqb_spec (rq_SchemaVersion r') "") as [|Hne]; [done|].
    apply in_map_iff in Hin as (ref' & [= -> -> ->] & Hin). apply filter_In in Hin as [Href Hprov].
    apply list_elem_of_In, (bt_index _ _ _ _ _ _ Hb) in Href as (Hs & Hp & Hpne & Hres).
    apply list_elem_of_In in Ht, Hr. rewrite by_version_elem in Hs, Ht.
    destruct (Hspec _ _ Hs Ht Hp Hr) as [Hwp Hwr]. destruct ref as [s p]. cbn [ref_source ref_provision] in *.
    apply provides_spec in Hprov as (? & ? & ?); [|done..]. by constructor.
  - intros []. exists t. split; [apply list_elem_of_In; by rewrite by_version_elem|].
    apply in_flat_map. exists r. split; [by apply list_elem_of_In|]. unfold requirement_hits, empty.
    destruct (String.eqb_spec (rq_SchemaVersion r) "") as [|Hne]; [by destruct cf_versioned0|].
    apply in_map_iff. exists ref. split; [done|]. apply filter_In. split.
    + apply list_elem_of_In, (bt_index _ _ _ _ _ _ Hb). split_and!; [by rewrite by_version_elem|done|apply cf_versioned0|done].
    + destruct (Hspec _ _ cf_source0 cf_target0 cf_provision0 cf_requirement0) as [Hwp Hwr].
      destruct ref as [s p]. by apply provides_spec.
Qed.

Lemma match_records : records matches (all_hits (cm_Rules (gr_Matrix request)) byResource (by_version (gr_Candidates request))).
Proof using Hb. rewrite (bt_matches _ _ _ _ _ _ Hb). apply foldl_records. Qed.

(** The edge of a pair, with the match it records. *)
Lemma edge_of_match key e :
  edge_of request matches key e ->
  exists m, matches !! key = Some m /\ (ce_SourceVersionID e, ce_TargetVersionID e) = key /\
    ce_SourceProvisionIDs e = sortedSet (mt_provisionIDs m) /\
    ce_SatisfiedRequirementIDs e = sortedSet (mt_requirementIDs m).
Proof using Hb.
  intros (m & text & hash & Hm & _ & ->). exists m. split; [done|]. split; [|done].
  pose proof (match_records key) as Hr. rewrite Hm in Hr. destruct Hr as ((h & _ & <- & Hs & Ht) & _).
  simpl. by rewrite Hs, Ht.
Qed.

Lemma built_edge e : e ∈ cg_Edges g <-> exists key, edge_of request matches key e.
Proof using Hb.
  rewrite (bt_sorted _ _ _ _ _ _ Hb). unfold by_edge_id. rewrite sort_slice_elem. pose proof (bt_edges _ _ _ _ _ _ Hb) as Hf.
  split.
  - intros (i & Hi)%list_elem_of_lookup_1. destruct (Forall2_lookup_r _ _ _ _ _ Hf Hi) as (k & _ & Hk). by exists k.
  - intros (k & Hk). assert (k ∈ keys) as (i & Hi)%list_elem_of_lookup_1.
    { rewrite (bt_keys _ _ _ _ _ _ Hb). apply list_elem_of_In, in_map_iff. destruct Hk as (m & _ & _ & Hm & _).
      exists (k, m). split; [done|]. by apply list_elem_of_In, elem_of_map_to_list. }
    destruct (Forall2_lookup_l _ _ _ _ _ Hf Hi) as (e' & He' & Hke').
    destruct Hk as (m & text & hash & Hm & Hh & ->), Hke' as (m' & text' & hash' & Hm' & Hh' & ->).
    rewrite Hm in Hm'. injection Hm' as <-. rewrite Hh in Hh'. injection Hh' as <- <-.
    exact (list_elem_of_lookup_2 _ _ _ He').
Qed.

Lemma built_pairs : NoDup (List.map (fun e => (ce_SourceVersionID e, ce_TargetVersionID e)) (cg_Edges g)).
Proof using Hb.
  rewrite (bt_sorted _ _ _ _ _ _ Hb). unfold by_edge_id.
  rewrite (Permutation_map (fun e => (ce_SourceVersionID e, ce_TargetVersionID e)) (sort_slice_perm _ edges)).
  assert (Heq : List.map (fun e => (ce_SourceVersionID e, ce_TargetVersionID e)) edges = keys).
  { pose proof (bt_edges _ _ _ _ _ _ Hb) as Hf. clear -Hb Hf. assert (Hf' := Hf). revert Hf'. clear Hf.
    generalize keys at 1 2. generalize edges. intros es ks Hf. induction Hf as [|k e ks es Hk Hf IH]; simpl; [done|].
    rewrite IH. destruct (edge_of_match _ _ Hk) as (m & _ & -> & _). done. }
  rewrite Heq, (bt_keys _ _ _ _ _ _ Hb). apply (NoDup_fst_map_to_list matches).
Qed.

End built.

(** ** Success of the validator *)
Section validator.
Context `{NFC} `{JCS} `{Digest}.

Record wf_graph (g : CompatibilityGraph) : Prop := {
  wg_version : cg_SchemaVersion g = "compatibility-graph.v1"%string;
  wg_id : cg_ID g = ("cgraph_" ++ cg_ContentHash g)%string;
  wg_hash : sha256Pattern (cg_ContentHash g) = true;
  wg_count : count (cg_Edges g) <= maximumCompatibilityGraphEdges;
  wg_sealed : sealed_as (graph_json (seal_graph g "" "" "")) (cg_ContentHash g) (cg_CanonicalJSON g) = true;
  wg_tenant : cg_TenantID g <> ""%string;
  wg_epoch : cg_ProjectionEpoch g <> 0;
  wg_planner : cg_PlannerManifestID g <> ""%string;
  wg_policy : cg_PolicyManifestID g <> ""%string;
  wg_matrix : sha256Pattern (cg_MatrixHash g) = true;
  wg_candidates : sha256Pattern (cg_CandidateSetHash g) = true;
  wg_pairs : NoDup (List.map pair_key (cg_Edges g));
  wg_edges : Forall (fun e => validateCompatibilityEdge e g = Ok tt) (cg_Edges g);
  wg_ids : StronglySorted str_lt (List.map ce_ID (cg_Edges g))
}.

(** The invariant of the scan: the keys seen, the last identifier. *)
Definition scan_inv (g : CompatibilityGraph) (seen : list CompatibilityEdge) (acc : gset string * option string) : Prop :=
  (forall x, x ∈ fst acc <-> x ∈ List.map pair_key seen) /\ snd acc = last (List.map ce_ID seen).

Lemma scan_inv_snoc g seen e acc : scan_inv g seen acc -> scan_inv g (seen ++ [e]) ({[pair_key e]} ∪ fst acc, Some (ce_ID e)).
Proof.
  intros [Hs _]. split; cbn [fst snd]; rewrite List.map_app; simpl; [|by rewrite last_snoc].
  intros x. rewrite elem_of_union, elem_of_singleton, Hs, elem_of_app, list_elem_of_singleton. tauto.
Qed.

Lemma last_lt (l : list string) x :
  StronglySorted str_lt l -> match last l with Some p => str_ltb p x | None => true end = true <-> StronglySorted str_lt (l ++ [x]).
Proof.
  intros Hs. destruct l as [|y l _] using rev_ind; simpl; [split; [by repeat constructor|done]|].
  rewrite last_snoc. rewrite !StronglySorted_app. apply StronglySorted_app in Hs as (Hly & Hl & Hy). split.
  - intros Hlt. split_and!; [|done..|by repeat constructor]. intros a b Ha ->%list_elem_of_singleton.
    apply elem_of_app in Ha as [Ha| ->%list_elem_of_singleton]; [|done]. transitivity y; [|done].
    apply Hly; [done|by apply list_elem_of_singleton].
  - intros (Hxy & _). apply Hxy; [apply elem_of_app; right|]; by apply list_elem_of_singleton.
Qed.

Lemma validateCompatibilityGraph_post charging g : post (validateCompatibilityGraph charging g) (fun _ => wf_graph g).
Proof.
  unfold validateCompatibilityGraph. apply post_skip. intros _. apply post_reject.
  rewrite !orb_false_iff, !negb_false_iff. intros [[Hv%String.eqb_eq Hi%String.eqb_eq] Hh].
  apply post_reject. rewrite Z.gtb_ltb, Z.ltb_ge. intros Hc. apply post_skip. intros _.
  apply post_reject. rewrite negb_false_iff. intros Hse. apply post_skip. intros _.
  apply post_reject. unfold empty. rewrite !orb_false_iff, !negb_false_iff, !str_eqb_false, Z.eqb_neq.
  intros [[[[[Ht He] Hpl] Hpo] Hm] Hca]. apply post_skip. intros _.
  eapply post_bind; [|intros acc Hacc; apply post_ret; exact Hacc].
  eapply post_weaken; [apply (post_loop _ (fun seen acc => scan_inv g seen acc /\ NoDup (List.map pair_key seen) /\
    Forall (fun e => validateCompatibilityEdge e g = Ok tt) seen /\ StronglySorted str_lt (List.map ce_ID seen)))|].
  - split; [|by repeat constructor]. split; [|done]. intros x. simpl. by rewrite elem_of_empty, elem_of_nil.
  - intros seen e rest acc _ (Hinv & Hn & Hf & Hs). unfold check_edge. apply post_skip. intros _.
    apply post_reject. rewrite !orb_false_iff, bool_decide_eq_false. intros [[Hfresh Hok] Hlt]. apply post_ret.
    split; [by apply scan_inv_snoc|]. destruct Hinv as [Hseen Hlast]. rewrite !List.map_app. simpl. split_and!.
    + rewrite NoDup_app. split; [done|]. split; [|apply NoDup_singleton].
      intros x Hx ->%list_elem_of_singleton. by apply Hfresh, Hseen.
    + apply Forall_app. split; [done|]. constructor; [|constructor]. unfold failed in Hok. apply negb_false_iff in Hok.
      by destruct (validateCompatibilityEdge e g) as [[]|].
    + apply (last_lt _ (ce_ID e) Hs). rewrite <- Hlast. destruct (snd acc); [by apply negb_false_iff|done].
  - intros acc (_ & Hn & Hf & Hs). by constructor.
Qed.

Lemma validateCompatibilityGraph_succeeds v g :
  never_done v -> wf_graph g -> succeeds v (validateCompatibilityGraph false g) (fun _ => True).
Proof.
  intros Hv []. unfold validateCompatibilityGraph. eapply succeeds_bind; [by apply succeeds_check|]. intros _ _.
  rewrite wg_version0, wg_id0, !str_eqb_refl, wg_hash0. cbn [negb orb].
  rewrite Z.gtb_ltb. replace (_ <? _) with false by (symmetry; by apply Z.ltb_ge).
  eapply (succeeds_bind _ _ _ (fun _ => True)); [by apply succeeds_ret|]. intros _ _. rewrite wg_sealed0. cbn [negb].
  eapply succeeds_bind; [by apply succeeds_check|]. intros _ _. unfold empty.
  rewrite (proj2 (str_eqb_false _ _) wg_tenant0), (proj2 (Z.eqb_neq _ _) wg_epoch0),
    (proj2 (str_eqb_false _ _) wg_planner0), (proj2 (str_eqb_false _ _) wg_policy0), wg_matrix0, wg_candidates0. cbn [negb orb].
  eapply (succeeds_bind _ _ _ (fun _ => True)); [by apply succeeds_ret|]. intros _ _.
  eapply succeeds_bind; [|intros acc _; by apply succeeds_ret].
  apply (succeeds_loop _ _ (fun seen acc => scan_inv g seen acc)).
  { split; [|done]. intros x. simpl. by rewrite elem_of_empty, elem_of_nil. }
  intros seen e rest acc Heq Hinv. unfold check_edge. eapply succeeds_bind; [by apply succeeds_check_every|]. intros _ _.
  rewrite Heq in *. rewrite Forall_app, Forall_cons in wg_edges0. destruct wg_edges0 as (_ & Hok & _).
  rewrite List.map_app in wg_pairs0, wg_ids0. simpl in wg_pairs0, wg_ids0. destruct Hinv as [Hseen Hlast].
  rewrite Hok. unfold failed. simpl. rewrite bool_decide_eq_false_2.
  - replace (match snd acc with Some prev => negb (str_ltb prev (ce_ID e)) | None => false end) with false.
    { apply succeeds_ret. by apply scan_inv_snoc. }
    rewrite Hlast. change (ce_ID e :: List.map ce_ID rest) with ([ce_ID e] ++ List.map ce_ID rest) in wg_ids0.
    rewrite app_assoc in wg_ids0. apply StronglySorted_app in wg_ids0 as (_ & Hs & _).
    assert (Hs' := Hs). apply StronglySorted_app in Hs' as (_ & Hs' & _).
    apply (last_lt _ (ce_ID e) Hs') in Hs. destruct (last _); [by rewrite Hs|done].
  - rewrite Hseen. intros Hin. apply NoDup_app in wg_pairs0 as (_ & Hd & _). apply (Hd _ Hin). by left.
Qed.

(** An edge the builder made passes the edge validator. *)
Lemma built_edge_valid request g matches byResource keys edges e :
  built request g matches byResource keys edges -> e ∈ cg_Edges g -> validateCompatibilityEdge e g = Ok tt.
Proof.
  intros Hb He. apply (built_edge _ _ _ _ _ _ Hb) in He as (key & m & text & hash & Hm & Hh & ->).
  destruct (bt_graph _ _ _ _ _ _ Hb) as (gt & gh & base & Hbase & _ & Hg).
  pose proof (match_records _ _ _ _ _ _ Hb key) as Hr. rewrite Hm in Hr. destruct Hr as ((h & Hin & Hk & Hs & Ht) & Hprov & Hreq).
  assert (Hids : forall h, h ∈ all_hits (cm_Rules (gr_Matrix request)) byResource (by_version (gr_Candidates request)) ->
    can_feed request (ref_source (hit_ref h)) (hit_target h) (ref_provision (hit_ref h)) (hit_requirement h))
    by (intros [[ref t] r]; apply (all_hits_feed _ _ _ _ _ _ Hb)).
  pose proof (Hids h Hin) as Hfeed.
  destruct (validCandidate_wf _ _ (built_valid _ _ _ _ _ _ Hb _ (cf_source _ _ _ _ _ Hfeed))) as (Hws & Hsv & _ & _).
  destruct (validCandidate_wf _ _ (built_valid _ _ _ _ _ _ Hb _ (cf_target _ _ _ _ _ Hfeed))) as (Hwt & Htv & _ & _).
  apply safeIdentity_spec in Hsv as (Hsv & _), Htv as (Htv & _).
  assert (Hpp : strictPrefixed (sortedSet (mt_provisionIDs m)) "prov_" = true).
  { assert (Hx : forall x, x ∈ mt_provisionIDs m -> exists hash, x = ("prov_" ++ hash)%string /\ sha256Pattern hash = true).
    { intros x (h' & Hh' & _ & <-)%Hprov. destruct (Hids h' Hh') as [Hs' _ _ Hp' _ _ _ _ _].
      apply (wp_id _ (proj1 (Forall_forall _ _) (wi_provisions _ (built_interface _ _ _ _ _ _ Hb _ Hs')) _ Hp')). }
    apply strictPrefixed_intro; [apply sortedSet_strict; intros (? & ? & _)%Hx; done|].
    intros x Hx'%sortedSet_elem. by apply Hx. }
  assert (Hrp : strictPrefixed (sortedSet (mt_requirementIDs m)) "req_" = true).
  { assert (Hx : forall x, x ∈ mt_requirementIDs m -> exists hash, x = ("req_" ++ hash)%string /\ sha256Pattern hash = true).
    { intros x (h' & Hh' & _ & <-)%Hreq. destruct (Hids h' Hh') as [_ Ht' _ _ Hr' _ _ _ _].
      apply (wr_id _ (proj1 (Forall_forall _ _) (wi_requirements _ (built_interface _ _ _ _ _ _ Hb _ Ht')) _ Hr')). }
    apply strictPrefixed_intro; [apply sortedSet_strict; intros (? & ? & _)%Hx; done|].
    intros x Hx'%sortedSet_elem. by apply Hx. }
  assert (Hnz : forall s x, x ∈ s -> (count (sortedSet s) =? 0) = false).
  { intros s x Hx%sortedSet_elem. apply Z.eqb_neq. unfold count. destruct (sortedSet s); [by apply not_elem_of_nil in Hx|simpl; lia]. }
  unfold validateCompatibilityEdge. rewrite Hg, Hbase. cbn -[sha256Pattern str_len String.append sortedSet count strictPrefixed MarshalAndHash edge_json].
  rewrite Hs, Ht, !str_eqb_refl, (MarshalAndHash_pattern _ _ _ Hh), Z.eqb_refl, Hpp, Hrp,
    (wi_hash _ Hws), (wi_hash _ Hwt), (Hnz _ (pv_ID (ref_provision (hit_ref h)))), (Hnz _ (rq_ID (hit_requirement h))).
  - unfold empty. rewrite (proj2 (str_eqb_false _ _) Hsv), (proj2 (str_eqb_false _ _) Htv),
      (proj2 (str_eqb_false _ _) (cf_distinct _ _ _ _ _ Hfeed)). cbn [negb orb].
    change (seal_edge _ "" "") with (match_edge request m). by rewrite Hh, str_eqb_refl.
  - apply Hreq. by exists h.
  - apply Hprov. by exists h.
Qed.

(** No version identifier holds a NUL, so the keys of distinct pairs differ. *)
Lemma built_pair_keys request g matches byR keys edges :
  built request g matches byR keys edges -> NoDup (List.map pair_key (cg_Edges g)).
Proof.
  intros Hb. rewrite <- (List.map_map (fun e => (ce_SourceVersionID e, ce_TargetVersionID e))
    (fun k => (fst k ++ nul ++ snd k)%string)).
  apply NoDup_map_on; [|by apply (built_pairs _ _ _ _ _ _ Hb)]. intros [a b] [a' b'] Hin Hin' Hj.
  assert (Hsafe : forall a b, (a, b) ∈ List.map (fun e => (ce_SourceVersionID e, ce_TargetVersionID e)) (cg_Edges g) -> has_nul a = false).
  { intros a0 b0 Hin0. apply list_elem_of_In, in_map_iff in Hin0 as (e & [= <- <-] & He%list_elem_of_In).
    apply (built_edge _ _ _ _ _ _ Hb) in He as (key & Hk). destruct Hk as (m & ? & ? & Hm & _ & ->). simpl.
    pose proof (match_records _ _ _ _ _ _ Hb key) as Hr. rewrite Hm in Hr. destruct Hr as (([[ref t] r] & Hin0 & _ & -> & _) & _).
    apply (all_hits_feed _ _ _ _ _ _ Hb) in Hin0. destruct Hin0.
    destruct (validCandidate_wf _ _ (built_valid _ _ _ _ _ _ Hb _ cf_source0)) as (_ & Hsv & _).
    by apply safeIdentity_spec in Hsv as (_ & _ & ?). }
  destruct (nul_join_inj a b a' b') as [-> ->]; [by eapply Hsafe|by eapply Hsafe|done|done].
Qed.

Lemma built_wf request g matches byR keys edges :
  built request g matches byR keys edges -> NoDup (List.map ce_ID (cg_Edges g)) -> wf_graph g.
Proof.
  intros Hb Hids. destruct (bt_graph _ _ _ _ _ _ Hb) as (gt & gh & base & Hbase & Hh & Hg).
  destruct (ValidateCompatibilityMatrix_rules _ (bt_matrix _ _ _ _ _ _ Hb)) as (_ & Hmh & Hlim).
  pose proof (bt_sethash _ _ _ _ _ _ Hb) as Hset. pose proof (built_pairs _ _ _ _ _ _ Hb) as Hpairs.
  pose proof (bt_sorted _ _ _ _ _ _ Hb) as Hsorted. pose proof (bt_size _ _ _ _ _ _ Hb) as Hsize.
  constructor.
  - by rewrite Hg, Hbase.
  - by rewrite Hg.
  - rewrite Hg. simpl. by eapply MarshalAndHash_pattern.
  - rewrite Hsorted. unfold count, by_edge_id. rewrite sort_slice_length, <- (Forall2_length _ _ _ (bt_edges _ _ _ _ _ _ Hb)).
    rewrite (bt_keys _ _ _ _ _ _ Hb), List.length_map, length_map_to_list. unfold maximumCompatibilityGraphEdges.
    unfold validCompatibilityLimits in Hlim. rewrite !andb_true_iff, ?Z.leb_le in Hlim. lia.
  - unfold sealed_as. rewrite Hg. replace (seal_graph (seal_graph base ("cgraph_" ++ gh) gh gt) "" "" "") with base by (by rewrite Hbase).
    rewrite Hh. simpl. by rewrite !str_eqb_refl.
  - rewrite Hg, Hbase. apply (bt_tenant _ _ _ _ _ _ Hb).
  - rewrite Hg, Hbase. apply (bt_epoch _ _ _ _ _ _ Hb).
  - rewrite Hg, Hbase. apply (bt_planner _ _ _ _ _ _ Hb).
  - rewrite Hg, Hbase. apply (bt_policy _ _ _ _ _ _ Hb).
  - by rewrite Hg, Hbase.
  - done.
  - by eapply built_pair_keys.
  - apply Forall_forall. intros e He. by eapply built_edge_valid.
  - apply sorted_NoDup_strict; [|done]. rewrite Hsorted. apply StronglySorted_on, (sort_slice_sorted (cmp_on ce_ID String.compare)).
Qed.

End validator.

(** ** Theorems *)
Section claims.
Context `{NFC} `{JCS} `{Digest}.

(** on a validated matrix and validated interfaces the test that links a
    provision to a requirement, which binary-searches the sorted rules and
    merges the sorted predicate lists, holds exactly when the two belong to
    different versions, the schemas are equal or listed as a rule, and every
    required predicate is among the guaranteed ones. *)
Theorem provides_exact matrix source target p r :
  ValidateCompatibilityMatrix matrix = Ok tt ->
  ValidateProcedureInterface (cd_Interface source) = Ok tt ->
  ValidateProcedureInterface (cd_Interface target) = Ok tt ->
  p ∈ pi_Provisions (cd_Interface source) -> r ∈ pi_Requirements (cd_Interface target) ->
  provides (cm_Rules matrix) target r (mk_provisionReference source p) = true <->
  cd_ProcedureVersionID source <> cd_ProcedureVersionID target /\
  (pv_SchemaVersion p = rq_SchemaVersion r \/ explicit_rule p r ∈ cm_Rules matrix) /\
  (forall x, x ∈ rq_PredicateIDs r -> x ∈ pv_SuccessPredicateIDs p).
Proof.
  intros Hm Hs Ht Hp Hr. destruct (ValidateCompatibilityMatrix_rules _ Hm) as [Hrules _].
  apply provides_spec; [done| |].
  - apply (proj1 (Forall_forall _ _) (wi_provisions _ (ValidateProcedureInterface_wf _ Hs)) p Hp).
  - apply (proj1 (Forall_forall _ _) (wi_requirements _ (ValidateProcedureInterface_wf _ Ht)) r Hr).
Qed.

(** C12: the graph a request builds has at most one edge per pair of versions;
    it has the edge exactly when some provision of the source can feed some
    requirement of the target, and the edge lists exactly the provisions and
    the requirements that take part. *)
Theorem BuildCompatibilityGraph_exact request v s g s' :
  BuildCompatibilityGraphContext request v s = (Ok g, s') ->
  NoDup (List.map (fun e => (ce_SourceVersionID e, ce_TargetVersionID e)) (cg_Edges g)) /\
  (forall a b, (exists e, e ∈ cg_Edges g /\ ce_SourceVersionID e = a /\ ce_TargetVersionID e = b) <->
     exists x y p r, can_feed request x y p r /\ cd_ProcedureVersionID x = a /\ cd_ProcedureVersionID y = b) /\
  (forall e, e ∈ cg_Edges g ->
     (forall id, id ∈ ce_SourceProvisionIDs e <-> exists x y p r, can_feed request x y p r /\
        cd_ProcedureVersionID x = ce_SourceVersionID e /\ cd_ProcedureVersionID y = ce_TargetVersionID e /\ pv_ID p = id) /\
     (forall id, id ∈ ce_SatisfiedRequirementIDs e <-> exists x y p r, can_feed request x y p r /\
        cd_ProcedureVersionID x = ce_SourceVersionID e /\ cd_ProcedureVersionID y = ce_TargetVersionID e /\ rq_ID r = id)).
Proof.
  intros Hrun. destruct (BuildCompatibilityGraphContext_built request _ _ _ _ Hrun) as (matches & byR & keys & edges & Hb).
  pose proof (match_records _ _ _ _ _ _ Hb) as Hrec.
  assert (Hhits : forall key (Q : hit -> Prop),
    (exists h, h ∈ all_hits (cm_Rules (gr_Matrix request)) byR (by_version (gr_Candidates request)) /\ hit_pair h = key /\ Q h) <->
    exists x y p r, can_feed request x y p r /\ cd_ProcedureVersionID x = fst key /\ cd_ProcedureVersionID y = snd key /\
      Q (mk_provisionReference x p, y, r)).
  { intros [a b] Q. split.
    - intros ([[[x p] y] r] & Hin & [= <- <-] & HQ). apply (all_hits_feed _ _ _ _ _ _ Hb) in Hin. by exists x, y, p, r.
    - cbn [fst snd]. intros (x & y & p & r & Hf & <- & <- & HQ). exists (mk_provisionReference x p, y, r).
      split; [by apply (all_hits_feed _ _ _ _ _ _ Hb)|done]. }
  split; [by apply (built_pairs _ _ _ _ _ _ Hb)|]. split.
  - intros a b. split.
    + intros (e & He & <- & <-). apply (built_edge _ _ _ _ _ _ Hb) in He as (key & Hk).
      destruct (edge_of_match _ _ _ _ _ _ Hb _ _ Hk) as (m & Hm & Hkey & _). specialize (Hrec key). rewrite Hm in Hrec.
      destruct Hrec as ((h & Hin & Hp & _) & _). destruct (proj1 (Hhits key (fun _ => True))) as (x & y & p & r & ? & ? & ? & _);
        [by exists h|]. exists x, y, p, r. by rewrite <- Hkey in *.
    + intros (x & y & p & r & Hf & <- & <-). set (key := (cd_ProcedureVersionID x, cd_ProcedureVersionID y)).
      destruct (proj2 (Hhits key (fun _ => True))) as (h & Hin & Hp & _); [by exists x, y, p, r|].
      specialize (Hrec key). destruct (matches !! key) as [m|] eqn:Em; [|by apply Hrec in Hin].
      assert (Hk : key ∈ keys).
      { rewrite (bt_keys _ _ _ _ _ _ Hb). apply list_elem_of_In, in_map_iff. exists (key, m). split; [done|].
        by apply list_elem_of_In, elem_of_map_to_list. }
      apply list_elem_of_lookup_1 in Hk as (i & Hi).
      destruct (Forall2_lookup_l _ _ _ _ _ (bt_edges _ _ _ _ _ _ Hb) Hi) as (e & _ & Hke).
      exists e. split; [by apply (built_edge _ _ _ _ _ _ Hb); exists key|].
      destruct (edge_of_match _ _ _ _ _ _ Hb _ _ Hke) as (_ & _ & [= -> ->] & _). done.
  - intros e He. apply (built_edge _ _ _ _ _ _ Hb) in He as (key & Hk).
    destruct (edge_of_match _ _ _ _ _ _ Hb _ _ Hk) as (m & Hm & Hkey & -> & ->).
    specialize (Hrec key). rewrite Hm in Hrec. destruct Hrec as (_ & Hprov & Hreq). subst key.
    split; intros id; rewrite sortedSet_elem, ?Hprov, ?Hreq.
    + apply (Hhits (ce_SourceVersionID e, ce_TargetVersionID e) (fun h => pv_ID (ref_provision (hit_ref h)) = id)).
    + apply (Hhits (ce_SourceVersionID e, ce_TargetVersionID e) (fun h => rq_ID (hit_requirement h) = id)).
Qed.

(** the graph a request builds passes [ValidateCompatibilityGraph], provided
    the digest gave its edges distinct identifiers. *)
Theorem BuildCompatibilityGraph_valid request v s g s' :
  BuildCompatibilityGraphContext request v s = (Ok g, s') -> NoDup (List.map ce_ID (cg_Edges g)) ->
  ValidateCompatibilityGraph g = Ok tt.
Proof.
  intros Hrun Hids. destruct (BuildCompatibilityGraphContext_built request _ _ _ _ Hrun) as (matches & byR & keys & edges & Hb).
  pose proof (built_wf _ _ _ _ _ _ Hb Hids) as Hwf. unfold ValidateCompatibilityGraph.
  destruct (validateCompatibilityGraph_succeeds background g ltac:(done) Hwf fresh) as ([] & s1 & -> & _). done.
Qed.

End claims.

(** ** A small graph: a build step that produces a binary, and a test step that needs one *)
Section demo.
#[local] Existing Instance copy_nfc.
#[local] Existing Instance copy_jcs.
#[local] Existing Instance checksum_digest.

Definition demo_value {A} (d : A) (r : result A) : A := match r with Ok a => a | Err _ => d end.
Definition demo_hash (s : string) : string := checksum_hex s.

Definition demo_interface_none : ProcedureInterface := mk_ProcedureInterface "" "" [] [] "".

Definition demo_build_interface : ProcedureInterface := Eval vm_compute in
  demo_value demo_interface_none (NewProcedureInterface []
    [mk_ProcedureProvision "" "file" "repo" (demo_hash "bin") "v1" ["write"] ["built"; "linked"]]).

Definition demo_test_interface : ProcedureInterface := Eval vm_compute in
  demo_value demo_interface_none (NewProcedureInterface
    [mk_ProcedureRequirement "" "file" "repo" (demo_hash "bin") "v2" "read" ["built"]] []).

Definition demo_rule : SchemaCompatibility := mk_SchemaCompatibility "file" "repo" "v1" "v2".

Definition demo_matrix : CompatibilityMatrix := Eval vm_compute in
  demo_value (mk_CompatibilityMatrix "" "" [] defaultCompatibilityLimits "" "")
    (BuildCompatibilityMatrix [mk_SchemaCompatibility "file" "repo" "v0" "v1"; demo_rule]).

Definition demo_candidate (id : string) (i : ProcedureInterface) : Candidate :=
  mk_Candidate "tenant" id "active" i (demo_hash id).

Definition demo_request : GraphRequest :=
  mk_GraphRequest "tenant" 1 "planner" "policy" demo_matrix
    [demo_candidate "test" demo_test_interface; demo_candidate "build" demo_build_interface].

Definition demo_graph : CompatibilityGraph := Eval vm_compute in
  demo_value (mk_CompatibilityGraph "" "" "" 0 "" "" "" "" [] "" "") (BuildCompatibilityGraph demo_request).

Lemma demo_graph_built : BuildCompatibilityGraph demo_request = Ok demo_graph.
Proof. vm_compute. reflexivity. Qed.

Definition demo_run : result CompatibilityGraph * wstate := BuildCompatibilityGraphContext demo_request background fresh.

Lemma demo_runs : BuildCompatibilityGraphContext demo_request background fresh = (Ok demo_graph, snd demo_run).
Proof. vm_compute. reflexivity. Qed.

Example demo_edges :
  List.map (fun e => (ce_SourceVersionID e, ce_TargetVersionID e)) (cg_Edges demo_graph) = [("build", "test")].
Proof. reflexivity. Qed.

Lemma provides_exact_witness :
  exists p r, p ∈ pi_Provisions demo_build_interface /\ r ∈ pi_Requirements demo_test_interface /\
    (provides (cm_Rules demo_matrix) (demo_candidate "test" demo_test_interface) r
       (mk_provisionReference (demo_candidate "build" demo_build_interface) p) = true <->
     "build"%string <> "test"%string /\
     (pv_SchemaVersion p = rq_SchemaVersion r \/ explicit_rule p r ∈ cm_Rules demo_matrix) /\
     (forall x, x ∈ rq_PredicateIDs r -> x ∈ pv_SuccessPredicateIDs p)).
Proof.
  eexists _, _. split; [left|]. split; [left|].
  apply (provides_exact demo_matrix (demo_candidate "build" demo_build_interface) (demo_candidate "test" demo_test_interface)).
  - vm_compute. reflexivity.
  - vm_compute. reflexivity.
  - vm_compute. reflexivity.
  - left.
  - left.
Defined.

Lemma BuildCompatibilityGraph_exact_witness :
  exists x y p r, can_feed demo_request x y p r /\
    cd_ProcedureVersionID x = "build"%string /\ cd_ProcedureVersionID y = "test"%string.
Proof.
  destruct (BuildCompatibilityGraph_exact demo_request background fresh demo_graph (snd demo_run) demo_runs) as (_ & Hedge & _).
  apply Hedge. eexists. split; [left|]. by split.
Defined.

Lemma BuildCompatibilityGraph_valid_witness : ValidateCompatibilityGraph demo_graph = Ok tt.
Proof.
  apply (BuildCompatibilityGraph_valid demo_request background fresh demo_graph (snd demo_run) demo_runs).
  apply NoDup_singleton.
Defined.

End demo.
