(* ===== verification/Planner.v ===== *)
(** * The composition planner (internal/composition/manifest.go, planner.go)

    [PlanProcedures] runs a bounded beam search over sets of procedure
    versions: every state is a set of versions closed into a plan (the edges of
    the compatibility graph between its members in topological order, the
    requirements and goals it covers, the gaps it leaves), and a work budget
    and the context bound the search.  [ValidatePlan] is what consumers of a
    plan check. *)

From Stdlib Require Import ZArith String Ascii List Bool Lia.
From stdpp Require Import base gmap strings list sorting.
From S2P Require Import Prelude GoStrings Canonical Kahn Budget Interfaces Compatibility.

Open Scope Z_scope.
Open Scope go_scope.
Open Scope work_scope.

Record PlannerManifestSpec := mk_PlannerManifestSpec {
  ms_Version : string;
  ms_BeamWidth : Z;
  ms_MaximumCandidates : Z;
  ms_MaximumGoalPredicates : Z;
  ms_MaximumTotalCandidateGoals : Z;
  ms_MaximumParallelEntries : Z;
  ms_MaximumTotalParallelEntries : Z;
  ms_MaximumSatisfiedRequirements : Z;
  ms_MaximumDepth : Z;
  ms_MaximumProcedures : Z;
  ms_MaximumBridges : Z;
  ms_MaximumTotalToolCost : Z;
  ms_MaximumExpansions : Z;
  ms_MaximumWorkUnits : Z;
  ms_NoveltyPenalty : Z;
  ms_UnobservedEdgePenalty : Z
}.

Record PlannerManifest := mk_PlannerManifest {
  pm_SchemaVersion : string;
  pm_Spec : PlannerManifestSpec;
  pm_ID : string;
  pm_ContentHash : string;
  pm_CanonicalJSON : string
}.

Definition spec_json (s : PlannerManifestSpec) : list (string * json) :=
  fstr "version" (ms_Version s) ++ fnum "beam_width" (ms_BeamWidth s) ++
  fnum "maximum_candidates" (ms_MaximumCandidates s) ++ fnum "maximum_goal_predicates" (ms_MaximumGoalPredicates s) ++
  fnum "maximum_total_candidate_goals" (ms_MaximumTotalCandidateGoals s) ++
  fnum "maximum_parallel_entries_per_candidate" (ms_MaximumParallelEntries s) ++
  fnum "maximum_total_parallel_entries" (ms_MaximumTotalParallelEntries s) ++
  fnum "maximum_satisfied_requirements" (ms_MaximumSatisfiedRequirements s) ++
  fnum "maximum_depth" (ms_MaximumDepth s) ++ fnum "maximum_procedures" (ms_MaximumProcedures s) ++
  fnum "maximum_bridges" (ms_MaximumBridges s) ++ fnum "maximum_total_tool_cost" (ms_MaximumTotalToolCost s) ++
  fnum "maximum_expansions" (ms_MaximumExpansions s) ++ fnum "maximum_work_units" (ms_MaximumWorkUnits s) ++
  fnum "novelty_penalty" (ms_NoveltyPenalty s) ++ fnum "unobserved_edge_penalty" (ms_UnobservedEdgePenalty s).

Definition manifest_json (m : PlannerManifest) : json :=
  JObj (fstr "schema_version" (pm_SchemaVersion m) ++ spec_json (pm_Spec m)).

Definition validPlannerSpec (s : PlannerManifestSpec) : bool :=
  negb (empty (ms_Version s)) && negb (has_nul (ms_Version s)) &&
  (0 <? ms_BeamWidth s) && (ms_BeamWidth s <=? 1024) && (0 <? ms_MaximumDepth s) && (ms_MaximumDepth s <=? 32) &&
  (0 <? ms_MaximumCandidates s) && (ms_MaximumCandidates s <=? 10000) &&
  (0 <? ms_MaximumGoalPredicates s) && (ms_MaximumGoalPredicates s <=? 1024) &&
  (ms_MaximumGoalPredicates s <=? ms_MaximumTotalCandidateGoals s) && (ms_MaximumTotalCandidateGoals s <=? 1000000) &&
  (0 <? ms_MaximumParallelEntries s) && (ms_MaximumParallelEntries s <=? 16384) &&
  (ms_MaximumParallelEntries s <=? ms_MaximumTotalParallelEntries s) && (ms_MaximumTotalParallelEntries s <=? 1000000) &&
  (0 <? ms_MaximumSatisfiedRequirements s) && (ms_MaximumSatisfiedRequirements s <=? 100000) &&
  (0 <? ms_MaximumProcedures s) && (ms_MaximumProcedures s <=? 32) && (ms_MaximumBridges s <? ms_MaximumProcedures s) &&
  (0 <? ms_MaximumTotalToolCost s) && (ms_MaximumTotalToolCost s <=? 1000000) &&
  (ms_BeamWidth s <=? ms_MaximumExpansions s) && (ms_MaximumExpansions s <=? 100000) &&
  (ms_MaximumExpansions s <=? ms_MaximumWorkUnits s) && (ms_MaximumWorkUnits s <=? 10000000) &&
  (0 <=? ms_NoveltyPenalty s) && (ms_NoveltyPenalty s <=? MaxInt32) &&
  (0 <=? ms_UnobservedEdgePenalty s) && (ms_UnobservedEdgePenalty s <=? MaxInt32).

Definition trim_version (s : PlannerManifestSpec) : PlannerManifestSpec :=
  mk_PlannerManifestSpec (TrimSpace (ms_Version s)) (ms_BeamWidth s) (ms_MaximumCandidates s)
    (ms_MaximumGoalPredicates s) (ms_MaximumTotalCandidateGoals s) (ms_MaximumParallelEntries s)
    (ms_MaximumTotalParallelEntries s) (ms_MaximumSatisfiedRequirements s) (ms_MaximumDepth s)
    (ms_MaximumProcedures s) (ms_MaximumBridges s) (ms_MaximumTotalToolCost s) (ms_MaximumExpansions s)
    (ms_MaximumWorkUnits s) (ms_NoveltyPenalty s) (ms_UnobservedEdgePenalty s).

(** ** Plans *)
Record PlannerCandidate := mk_PlannerCandidate {
  pc_VersionID : string;
  pc_Interface : ProcedureInterface;
  pc_Lifecycle : string;
  pc_PlanningFactsHash : string;
  pc_Seed : bool;
  pc_Eligible : bool;
  pc_PolicyManifestID : string;
  pc_GoalPredicateIDs : list string;
  pc_Parallelism : ParallelismFacts;
  pc_EvidenceStrength : Z;
  pc_ObservedEndToEnd : bool;
  pc_RiskCost : Z;
  pc_ToolCost : Z
}.

Record PlanRequest := mk_PlanRequest {
  pr_TenantID : string;
  pr_ProjectionEpoch : Z;
  pr_PolicyManifestID : string;
  pr_Graph : CompatibilityGraph;
  pr_GoalPredicateIDs : list string;
  pr_SatisfiedRequirementIDs : list string;
  pr_Candidates : list PlannerCandidate
}.

Record PlanNode := mk_PlanNode {
  nd_Ordinal : Z;
  nd_VersionID : string;
  nd_InterfaceHash : string;
  nd_Bridge : bool
}.

Record PlanDependency := mk_PlanDependency {
  dp_CompatibilityEdgeID : string;
  dp_SourceVersionID : string;
  dp_TargetVersionID : string;
  dp_SourceProvisionIDs : list string;
  dp_SatisfiedRequirementIDs : list string
}.

Record PlanGap := mk_PlanGap {
  gp_VersionID : string;
  gp_RequirementID : string;
  gp_GoalPredicateID : string;
  gp_Code : string
}.

Record Plan := mk_Plan {
  p_SchemaVersion : string;
  p_ID : string;
  p_TenantID : string;
  p_ProjectionEpoch : Z;
  p_PlannerManifestID : string;
  p_PolicyManifestID : string;
  p_CompatibilityGraphID : string;
  p_CompatibilityGraphHash : string;
  p_CompatibilityMatrixHash : string;
  p_CandidateSetHash : string;
  p_Nodes : list PlanNode;
  p_Dependencies : list PlanDependency;
  p_CompatibilityEdgeIDs : list string;
  p_ExternallySatisfiedRequirementIDs : list string;
  p_SatisfiedRequirementIDs : list string;
  p_ProducedResourceIDs : list string;
  p_CoveredGoalPredicateIDs : list string;
  p_RequestedGoalPredicateIDs : list string;
  p_SeedVersionIDs : list string;
  p_Gaps : list PlanGap;
  p_LimitCodes : list string;
  p_Complete : bool;
  p_EvidenceStrength : Z;
  p_AllObservedEndToEnd : bool;
  p_RiskCost : Z;
  p_ToolCost : Z;
  p_ContentHash : string;
  p_CanonicalJSON : string
}.

Definition node_json (n : PlanNode) : json :=
  JObj (fnum "ordinal" (nd_Ordinal n) ++ fstr "procedure_version_id" (nd_VersionID n) ++
        fstr "interface_hash" (nd_InterfaceHash n) ++ fbool "bridge" (nd_Bridge n)).

Definition dependency_json (d : PlanDependency) : json :=
  JObj (fstr "compatibility_edge_id" (dp_CompatibilityEdgeID d) ++
        fstr "source_procedure_version_id" (dp_SourceVersionID d) ++
        fstr "target_procedure_version_id" (dp_TargetVersionID d) ++
        fstrs "source_provision_ids" (dp_SourceProvisionIDs d) ++
        fstrs "satisfied_requirement_ids" (dp_SatisfiedRequirementIDs d)).

Definition gap_json (g : PlanGap) : json :=
  JObj (fstr_omit "procedure_version_id" (gp_VersionID g) ++ fstr_omit "requirement_id" (gp_RequirementID g) ++
        fstr_omit "goal_predicate_id" (gp_GoalPredicateID g) ++ fstr "code" (gp_Code g)).

Definition plan_json (p : Plan) : json :=
  JObj (fstr "schema_version" (p_SchemaVersion p) ++ fstr_omit "id" (p_ID p) ++ fstr "tenant_id" (p_TenantID p) ++
        fnum "projection_epoch" (p_ProjectionEpoch p) ++ fstr "planner_manifest_id" (p_PlannerManifestID p) ++
        fstr "policy_manifest_id" (p_PolicyManifestID p) ++
        fstr "compatibility_graph_id" (p_CompatibilityGraphID p) ++
        fstr "compatibility_graph_hash" (p_CompatibilityGraphHash p) ++
        fstr "compatibility_matrix_hash" (p_CompatibilityMatrixHash p) ++
        fstr "candidate_set_hash" (p_CandidateSetHash p) ++ farr "nodes" (List.map node_json (p_Nodes p)) ++
        farr_omit "dependencies" (List.map dependency_json (p_Dependencies p)) ++
        fstrs_omit "compatibility_edge_ids" (p_CompatibilityEdgeIDs p) ++
        fstrs_omit "externally_satisfied_requirement_ids" (p_ExternallySatisfiedRequirementIDs p) ++
        fstrs_omit "satisfied_requirement_ids" (p_SatisfiedRequirementIDs p) ++
        fstrs_omit "produced_resource_ids" (p_ProducedResourceIDs p) ++
        fstrs_omit "covered_goal_predicate_ids" (p_CoveredGoalPredicateIDs p) ++
        fstrs "requested_goal_predicate_ids" (p_RequestedGoalPredicateIDs p) ++
        fstrs "seed_version_ids" (p_SeedVersionIDs p) ++ farr_omit "gaps" (List.map gap_json (p_Gaps p)) ++
        fstrs_omit "limit_codes" (p_LimitCodes p) ++ fbool "complete" (p_Complete p) ++
        fnum "evidence_strength" (p_EvidenceStrength p) ++ fbool "all_observed_end_to_end" (p_AllObservedEndToEnd p) ++
        fnum "risk_cost" (p_RiskCost p) ++ fnum "tool_cost" (p_ToolCost p) ++
        fstr_omit "content_hash" (p_ContentHash p)).

Definition seal_plan (p : Plan) (id hash text : string) : Plan :=
  mk_Plan (p_SchemaVersion p) id (p_TenantID p) (p_ProjectionEpoch p) (p_PlannerManifestID p) (p_PolicyManifestID p)
    (p_CompatibilityGraphID p) (p_CompatibilityGraphHash p) (p_CompatibilityMatrixHash p) (p_CandidateSetHash p)
    (p_Nodes p) (p_Dependencies p) (p_CompatibilityEdgeIDs p) (p_ExternallySatisfiedRequirementIDs p)
    (p_SatisfiedRequirementIDs p) (p_ProducedResourceIDs p) (p_CoveredGoalPredicateIDs p)
    (p_RequestedGoalPredicateIDs p) (p_SeedVersionIDs p) (p_Gaps p) (p_LimitCodes p) (p_Complete p)
    (p_EvidenceStrength p) (p_AllObservedEndToEnd p) (p_RiskCost p) (p_ToolCost p) hash text.

(** [plan.LimitCodes = codes] *)
Definition limit_plan (p : Plan) (codes : list string) : Plan :=
  mk_Plan (p_SchemaVersion p) (p_ID p) (p_TenantID p) (p_ProjectionEpoch p) (p_PlannerManifestID p)
    (p_PolicyManifestID p) (p_CompatibilityGraphID p) (p_CompatibilityGraphHash p) (p_CompatibilityMatrixHash p)
    (p_CandidateSetHash p) (p_Nodes p) (p_Dependencies p) (p_CompatibilityEdgeIDs p)
    (p_ExternallySatisfiedRequirementIDs p) (p_SatisfiedRequirementIDs p) (p_ProducedResourceIDs p)
    (p_CoveredGoalPredicateIDs p) (p_RequestedGoalPredicateIDs p) (p_SeedVersionIDs p) (p_Gaps p) codes (p_Complete p)
    (p_EvidenceStrength p) (p_AllObservedEndToEnd p) (p_RiskCost p) (p_ToolCost p) (p_ContentHash p)
    (p_CanonicalJSON p).

Record searchState := mk_searchState {
  st_plan : Plan;
  st_nodeSet : gset string;
  st_hash : string
}.

(** ** Topological order

    [indegree] and [adjacency] are Go maps; ranging over [indegree] only feeds a
    slice that is sorted, so its order does not matter.  The loops are those of
    [Kahn], with the ready slice kept sorted; every node is taken from it at
    most once, so the number of keys of [indegree] bounds the turns. *)
Definition initial_ready (indegree : gmap string Z) : list string :=
  sort_strings (List.map fst (List.filter (fun kv => snd kv =? 0) (map_to_list indegree))).

Definition topologicalOrder (nodes : gset string) (edges : list CompatibilityEdge) : result (list string) :=
  let indegree := initial_indegree ce_TargetVersionID nodes edges in
  let ordered := order_loop sort_strings (size indegree) (build_adjacency ce_SourceVersionID ce_TargetVersionID edges)
                   (initial_ready indegree) indegree [] in
  if Nat.eqb (length ordered) (size nodes) then Ok ordered else Err ErrPlanCycle.

(** Each edge runs forward in [l]. *)
Definition forward (edges : list CompatibilityEdge) (l : list string) : Prop :=
  Kahn.forward ce_SourceVersionID ce_TargetVersionID edges l.

Section topological.
Context (nodes : gset string) (edges : list CompatibilityEdge).
Hypothesis closed : forall e, e ∈ edges -> ce_SourceVersionID e ∈ nodes /\ ce_TargetVersionID e ∈ nodes.

#[local] Notation indegree0 := (initial_indegree ce_TargetVersionID nodes edges).

Lemma sort_strings_perm l : sort_strings l ≡ₚ l.
Proof. apply sort_slice_perm. Qed.

Lemma initial_ready_spec :
  NoDup (initial_ready indegree0) /\ forall v, v ∈ initial_ready indegree0 <-> v ∈ nodes /\ degree indegree0 v = 0.
Proof using closed.
  unfold initial_ready. split; [apply NoDup_sort_strings, NoDup_map_filter, (NoDup_fst_map_to_list indegree0)|].
  intros v. rewrite sort_strings_elem, list_elem_of_In, in_map_iff.
  rewrite <- (initial_dom ce_SourceVersionID ce_TargetVersionID nodes edges closed v). unfold degree. split.
  - intros ([k d] & <- & [Hin Hd]%filter_In). apply list_elem_of_In, elem_of_map_to_list in Hin.
    apply Z.eqb_eq in Hd. simpl in *. rewrite Hin. split; [by eexists|done].
  - intros [[d Hd] Hz]. rewrite Hd in Hz. exists (v, d). split; [done|]. apply filter_In.
    split; [by apply list_elem_of_In, elem_of_map_to_list|]. by apply Z.eqb_eq.
Qed.

Lemma topologicalOrder_kahn : exists ordered m,
  kahn ce_SourceVersionID ce_TargetVersionID nodes edges ordered [] m /\
  topologicalOrder nodes edges = if Nat.eqb (length ordered) (size nodes) then Ok ordered else Err ErrPlanCycle.
Proof using closed.
  destruct initial_ready_spec as [Hn Hel].
  destruct (order_loop_spec _ _ sort_strings sort_strings_perm nodes edges closed (size indegree0) _ _ _
    (initial_kahn ce_SourceVersionID ce_TargetVersionID nodes edges _ Hn Hel)) as (m & Hk);
    [rewrite (initial_size _ _ nodes edges closed); simpl; lia|].
  by eexists _, m.
Qed.

Lemma topologicalOrder_sound l :
  topologicalOrder nodes edges = Ok l -> l ≡ₚ elements nodes /\ forward edges l.
Proof using closed.
  destruct topologicalOrder_kahn as (ordered & m & Hk & ->). case_match eqn:E; [|done]. intros [= <-].
  by apply (kahn_forward _ _ nodes edges closed _ _ Hk), Nat.eqb_eq.
Qed.

Lemma topologicalOrder_complete l :
  l ≡ₚ elements nodes -> forward edges l -> exists l', topologicalOrder nodes edges = Ok l'.
Proof using closed.
  intros Hl Hfw. destruct topologicalOrder_kahn as (ordered & m & Hk & ->).
  rewrite (proj2 (Nat.eqb_eq _ _)); [by eexists|]. by apply (kahn_complete _ _ nodes edges closed _ _ _ Hk Hl).
Qed.
End topological.

(** ** Search states *)

(** The zero value a Go map lookup yields for a missing version. *)
Definition zero_candidate : PlannerCandidate :=
  mk_PlannerCandidate "" (mk_ProcedureInterface "" "" [] [] "") "" "" false false "" []
    (mk_ParallelismFacts [] [] [] [] false false) 0 false 0 0.

Definition candidate_at (byVersion : gmap string PlannerCandidate) (id : string) : PlannerCandidate :=
  match byVersion !! id with Some c => c | None => zero_candidate end.

Definition has_node (nodes : gset string) (id : string) : bool := bool_decide (id ∈ nodes).

Definition select_edge (nodes : gset string) (index : nat) (edge : CompatibilityEdge) (acc : list CompatibilityEdge) :
    work (list CompatibilityEdge) :=
  do _ <- check_every 256 index;
  do _ <- charge 1;
  ret (if has_node nodes (ce_SourceVersionID edge) && has_node nodes (ce_TargetVersionID edge)
       then acc ++ [edge] else acc).

Definition selectedEdges (edges : list CompatibilityEdge) (nodes : gset string) : work (list CompatibilityEdge) :=
  if Nat.ltb (size nodes) 2 then ret []
  else
    do result <- loop (select_edge nodes) 0 edges [];
    ret (by_edge_id result).

Definition adjacent_step (nodes : gset string) (index : nat) (edge : CompatibilityEdge) (acc : gset string) :
    work (gset string) :=
  do _ <- check_every 256 index;
  do _ <- charge 1;
  let source := has_node nodes (ce_SourceVersionID edge) in
  let target := has_node nodes (ce_TargetVersionID edge) in
  ret (if Bool.eqb source target then acc
       else if source then {[ce_TargetVersionID edge]} ∪ acc else {[ce_SourceVersionID edge]} ∪ acc).

Definition adjacentVersions (edges : list CompatibilityEdge) (nodes : gset string) : work (list string) :=
  do result <- loop (adjacent_step nodes) 0 edges ∅;
  ret (sortedSet result).

Definition checkedPlannerMul (left right : Z) : option Z :=
  if (left =? 0) || (right =? 0) then Some 0
  else if left >? Z.quot MaxInt64 right then None
  else Some (wrap_i64 (left * right)).

Definition edge_dependency (e : CompatibilityEdge) : PlanDependency :=
  mk_PlanDependency (ce_ID e) (ce_SourceVersionID e) (ce_TargetVersionID e) (ce_SourceProvisionIDs e)
    (ce_SatisfiedRequirementIDs e).

(** What the loop over the ordered versions accumulates. *)
Record nodeAcc := mk_nodeAcc {
  na_nodes : list PlanNode;
  na_bridges : Z;
  na_risk : Z;
  na_tool : Z;
  na_strength : Z;
  na_observed : bool;
  na_covered : gset string;
  na_produced : gset string;
  na_gaps : list PlanGap
}.

Definition requirement_gaps (satisfied : gset string) (versionID : string) (requirements : list ProcedureRequirement) :
    list PlanGap :=
  List.map (fun r => mk_PlanGap versionID (rq_ID r) "" "unsatisfied_requirement")
    (List.filter (fun r => negb (bool_decide (rq_ID r ∈ satisfied))) requirements).

Definition add_node (byVersion : gmap string PlannerCandidate) (goalSet satisfied : gset string) (acc : nodeAcc)
    (versionID : string) : nodeAcc :=
  let candidate := candidate_at byVersion versionID in
  mk_nodeAcc
    (na_nodes acc ++ [mk_PlanNode (wrap_u32 (count (na_nodes acc))) versionID (pi_ContentHash (pc_Interface candidate))
                        (negb (pc_Seed candidate))])
    (if pc_Seed candidate then na_bridges acc else na_bridges acc + 1)
    (wrap_u64 (na_risk acc + pc_RiskCost candidate))
    (wrap_u64 (na_tool acc + pc_ToolCost candidate))
    (if pc_EvidenceStrength candidate <? na_strength acc then pc_EvidenceStrength candidate else na_strength acc)
    (na_observed acc && pc_ObservedEndToEnd candidate)
    (foldl (fun s goal => if bool_decide (goal ∈ goalSet) then {[goal]} ∪ s else s) (na_covered acc)
       (pc_GoalPredicateIDs candidate))
    (foldl (fun s p => {[pv_ID p]} ∪ s) (na_produced acc) (pi_Provisions (pc_Interface candidate)))
    (na_gaps acc ++ requirement_gaps satisfied versionID (pi_Requirements (pc_Interface candidate))).

Definition empty_nodeAcc : nodeAcc := mk_nodeAcc [] 0 0 0 MaxInt64 true ∅ ∅ [].

Definition gapKey (gap : PlanGap) : string :=
  (gp_Code gap ++ nul ++ gp_VersionID gap ++ nul ++ gp_RequirementID gap ++ nul ++ gp_GoalPredicateID gap)%string.

Definition goal_gaps (covered : gset string) (goals : list string) : list PlanGap :=
  List.map (fun goal => mk_PlanGap "" "" goal "uncovered_goal")
    (List.filter (fun goal => negb (bool_decide (goal ∈ covered))) goals).

Definition sort_gaps : list PlanGap -> list PlanGap := sort_slice (cmp_ltb (cmp_on gapKey String.compare)).

(** The requirements met from outside or by the selected edges. *)
Definition satisfied_set (externallySatisfied : list string) (edges : list CompatibilityEdge) : gset string :=
  foldl (fun s e => foldl (fun s id => {[id]} ∪ s) s (ce_SatisfiedRequirementIDs e)) (sliceSet externallySatisfied) edges.

Definition unobserved_edges (byVersion : gmap string PlannerCandidate) (edges : list CompatibilityEdge) : Z :=
  count (List.filter (fun e =>
    negb (pc_ObservedEndToEnd (candidate_at byVersion (ce_SourceVersionID e))) ||
    negb (pc_ObservedEndToEnd (candidate_at byVersion (ce_TargetVersionID e)))) edges).

(** The evidence strength after both penalties. *)
Definition penalised (strength penalty : Z) (edgePenalty : option Z) : Z :=
  match edgePenalty with
  | None => 0
  | Some edgePenalty =>
      if (strength <? penalty) || (wrap_i64 (strength - penalty) <? edgePenalty) then 0
      else wrap_i64 (strength - wrap_i64 (penalty + edgePenalty))
  end.

Section planner.
Context `{NFC} `{JCS} `{Digest}.

Definition NewPlannerManifest (spec : PlannerManifestSpec) : result PlannerManifest :=
  let spec := trim_version spec in
  let manifest := mk_PlannerManifest "planner-manifest.v1" spec "" "" "" in
  reject (negb (validPlannerSpec spec)) with ErrInvalidPlannerManifest;
  let* (text, hash) := MarshalAndHash (manifest_json manifest) in
  Ok (mk_PlannerManifest "planner-manifest.v1" spec ("pman_" ++ hash) hash text).

Definition ValidatePlannerManifest (manifest : PlannerManifest) : result unit :=
  match NewPlannerManifest (pm_Spec manifest) with
  | Err _ => Err ErrInvalidPlannerManifest
  | Ok rebuilt =>
      reject (negb (String.eqb (pm_SchemaVersion manifest) (pm_SchemaVersion rebuilt)) ||
              negb (String.eqb (pm_ID manifest) (pm_ID rebuilt)) ||
              negb (String.eqb (pm_ContentHash manifest) (pm_ContentHash rebuilt)) ||
              negb (String.eqb (pm_CanonicalJSON manifest) (pm_CanonicalJSON rebuilt))) with ErrInvalidPlannerManifest;
      Ok tt
  end.

Definition canonicalizePlan (plan : Plan) : result Plan :=
  let* (text, hash) := MarshalAndHash (plan_json (seal_plan plan "" "" "")) in
  Ok (seal_plan plan ("plan_" ++ hash) hash text).

(** The plan of a node set, before it is canonicalised. *)
Definition draft_plan (manifest : PlannerManifest) (request : PlanRequest) (seedVersionIDs goals externallySatisfied : list string)
    (edges : list CompatibilityEdge) (satisfied : gset string) (acc : nodeAcc) (strength : Z) : Plan :=
  let gaps := sort_gaps (na_gaps acc ++ goal_gaps (na_covered acc) goals) in
  mk_Plan "composition-plan.v1" "" (pr_TenantID request) (pr_ProjectionEpoch request) (pm_ID manifest)
    (pr_PolicyManifestID request) (cg_ID (pr_Graph request)) (cg_ContentHash (pr_Graph request))
    (cg_MatrixHash (pr_Graph request)) (cg_CandidateSetHash (pr_Graph request)) (na_nodes acc)
    (List.map edge_dependency edges) (sort_strings (List.map ce_ID edges)) externallySatisfied
    (sortedSet satisfied) (sortedSet (na_produced acc)) (sortedSet (na_covered acc)) goals seedVersionIDs gaps []
    (count gaps =? 0) strength (na_observed acc) (na_risk acc) (na_tool acc) "" "".

Definition buildSearchState (manifest : PlannerManifest) (request : PlanRequest) (byVersion : gmap string PlannerCandidate)
    (seedVersionIDs goals externallySatisfied : list string) (nodeSet : gset string) : work searchState :=
  do _ <- check_ctx;
  do edges <- selectedEdges (cg_Edges (pr_Graph request)) nodeSet;
  do ordered <- lift (topologicalOrder nodeSet edges);
  let spec := pm_Spec manifest in
  let satisfied := satisfied_set externallySatisfied edges in
  let acc := foldl (add_node byVersion (sliceSet goals) satisfied) empty_nodeAcc ordered in
  guard (na_bridges acc >? ms_MaximumBridges spec) || (na_tool acc >? ms_MaximumTotalToolCost spec) else ErrPlanLimit;
  match checkedPlannerMul (na_bridges acc) (ms_NoveltyPenalty spec) with
  | None => raise ErrInvalidPlanRequest
  | Some penalty =>
      let edgePenalty := checkedPlannerMul (unobserved_edges byVersion edges) (ms_UnobservedEdgePenalty spec) in
      let strength := penalised (na_strength acc) penalty edgePenalty in
      do plan <- lift (canonicalizePlan (draft_plan manifest request seedVersionIDs goals externallySatisfied edges
                                           satisfied acc strength));
      do _ <- check_ctx;
      ret (mk_searchState plan nodeSet (p_ContentHash plan))
  end.

(** ** Input validation *)
Record inputAcc := mk_inputAcc {
  ia_candidates : list PlannerCandidate;
  ia_interfaces : gmap string string;
  ia_hasSeed : bool;
  ia_goals : Z;
  ia_entries : Z
}.

Definition candidate_facts (c : PlannerCandidate) (goals : list string) (parallelism : ParallelismFacts) : PlanningFacts :=
  mk_PlanningFacts (pc_VersionID c) (pi_ContentHash (pc_Interface c)) (pc_Lifecycle c) (pc_PolicyManifestID c) goals
    parallelism (pc_EvidenceStrength c) (pc_ObservedEndToEnd c) (pc_RiskCost c) (pc_ToolCost c).

Definition normalized_candidate (c : PlannerCandidate) (goals : list string) (parallelism : ParallelismFacts) : PlannerCandidate :=
  mk_PlannerCandidate (pc_VersionID c) (pc_Interface c) (pc_Lifecycle c) (pc_PlanningFactsHash c) (pc_Seed c)
    (pc_Eligible c) (pc_PolicyManifestID c) goals parallelism (pc_EvidenceStrength c) (pc_ObservedEndToEnd c)
    (pc_RiskCost c) (pc_ToolCost c).

(** [factsErr == nil && factsHash == candidate.PlanningFactsHash] *)
Definition facts_match (c : PlannerCandidate) (goals : list string) (parallelism : ParallelismFacts) : bool :=
  match BuildPlanningFactsHash (candidate_facts c goals parallelism) with
  | Ok hash => String.eqb hash (pc_PlanningFactsHash c)
  | Err _ => false
  end.

Definition validate_candidate (manifest : PlannerManifest) (request : PlanRequest) (index : nat) (c : PlannerCandidate)
    (acc : inputAcc) : work inputAcc :=
  let spec := pm_Spec manifest in
  do _ <- check_every 256 index;
  let goalCount := count (pc_GoalPredicateIDs c) in
  guard (goalCount >? ms_MaximumGoalPredicates spec) || (ia_goals acc + goalCount >? ms_MaximumTotalCandidateGoals spec)
    else ErrInvalidPlanRequest;
  let entries := parallelEntryCount (pc_Parallelism c) in
  guard (entries >? ms_MaximumParallelEntries spec) || (ia_entries acc + entries >? ms_MaximumTotalParallelEntries spec)
    else ErrInvalidPlanRequest;
  do _ <- charge ((goalCount + entries) * 2 + 1);
  match normalizedIDs (pc_GoalPredicateIDs c) true, normalizedParallelism (pc_Parallelism c) with
  | Some goals, Some parallelism =>
      guard empty (pc_VersionID c) || has_nul (pc_VersionID c) || negb (pc_Eligible c) ||
            negb (String.eqb (pc_PolicyManifestID c) (pr_PolicyManifestID request)) ||
            failed (ValidateProcedureInterface (pc_Interface c)) || (pc_EvidenceStrength c <? 0) ||
            (pc_ToolCost c =? 0) || negb (facts_match c goals parallelism) else ErrInvalidPlanRequest;
      guard bool_decide (is_Some (ia_interfaces acc !! pc_VersionID c)) else ErrInvalidPlanRequest;
      ret (mk_inputAcc (ia_candidates acc ++ [normalized_candidate c goals parallelism])
             (<[pc_VersionID c := pi_ContentHash (pc_Interface c)]> (ia_interfaces acc))
             (ia_hasSeed acc || pc_Seed c) (ia_goals acc + goalCount) (ia_entries acc + entries))
  | _, _ => raise ErrInvalidPlanRequest
  end.

Definition validate_edge (interfaces : gmap string string) (index : nat) (edge : CompatibilityEdge) (_ : unit) : work unit :=
  do _ <- check_every 256 index;
  do _ <- charge 1;
  match interfaces !! ce_SourceVersionID edge, interfaces !! ce_TargetVersionID edge with
  | Some source, Some target =>
      guard negb (String.eqb source (ce_SourceInterfaceHash edge)) || negb (String.eqb target (ce_TargetInterfaceHash edge))
        else ErrInvalidPlanRequest;
      ret tt
  | _, _ => raise ErrInvalidPlanRequest
  end.

Definition graph_candidate (tenant : string) (c : PlannerCandidate) : Candidate :=
  mk_Candidate tenant (pc_VersionID c) (pc_Lifecycle c) (pc_Interface c) (pc_PlanningFactsHash c).

Definition by_candidate : list PlannerCandidate -> list PlannerCandidate :=
  sort_slice (cmp_ltb (cmp_on pc_VersionID String.compare)).

(** The errors of graph validation that pass through: context and budget. *)
Definition graph_error (e fallback : goerr) : goerr :=
  match e with
  | CtxCanceled | CtxDeadlineExceeded | ErrWorkLimit => e
  | _ => fallback
  end.

Definition validate_graph (graph : CompatibilityGraph) (fallback : goerr) : work unit :=
  do r <- try (validateCompatibilityGraph true graph);
  match r with Ok _ => ret tt | Err e => raise (graph_error e fallback) end.

(** [buildCandidateSetHash(...)] succeeds with the graph's hash. *)
Definition candidate_set_matches (candidates : list Candidate) (graph : CompatibilityGraph) : bool :=
  match buildCandidateSetHash candidates with
  | Ok hash => String.eqb hash (cg_CandidateSetHash graph)
  | Err _ => false
  end.

Definition validatePlanInputs (manifest : PlannerManifest) (request : PlanRequest) :
    work (list PlannerCandidate * list string * list string) :=
  let spec := pm_Spec manifest in
  let graph := pr_Graph request in
  guard failed (ValidatePlannerManifest manifest) else ErrInvalidPlanRequest;
  do _ <- validate_graph graph ErrInvalidPlanRequest;
  guard empty (pr_TenantID request) || (pr_ProjectionEpoch request =? 0) ||
        negb (String.eqb (cg_TenantID graph) (pr_TenantID request)) ||
        negb (cg_ProjectionEpoch graph =? pr_ProjectionEpoch request) ||
        negb (String.eqb (cg_PlannerManifestID graph) (pm_ID manifest)) ||
        negb (String.eqb (cg_PolicyManifestID graph) (pr_PolicyManifestID request)) ||
        empty (pr_PolicyManifestID request) || (count (pr_Candidates request) =? 0) else ErrInvalidPlanRequest;
  guard (count (pr_Candidates request) >? ms_MaximumCandidates spec) ||
        (count (pr_GoalPredicateIDs request) >? ms_MaximumGoalPredicates spec) ||
        (count (pr_SatisfiedRequirementIDs request) >? ms_MaximumSatisfiedRequirements spec) else ErrInvalidPlanRequest;
  match normalizedIDs (pr_GoalPredicateIDs request) false, normalizedIDs (pr_SatisfiedRequirementIDs request) true with
  | Some goals, Some satisfied =>
      do acc <- loop (validate_candidate manifest request) 0 (by_candidate (pr_Candidates request))
                  (mk_inputAcc [] ∅ false 0 0);
      guard negb (ia_hasSeed acc) else ErrInvalidPlanRequest;
      guard negb (candidate_set_matches (List.map (graph_candidate (pr_TenantID request)) (ia_candidates acc)) graph)
        else ErrInvalidPlanRequest;
      do _ <- loop (validate_edge (ia_interfaces acc)) 0 (cg_Edges graph) tt;
      ret (ia_candidates acc, goals, satisfied)
  | _, _ => raise ErrInvalidPlanRequest
  end.

(** ** The search *)
Definition betterState (left right : searchState) : bool :=
  let l := st_plan left in
  let r := st_plan right in
  if negb (Bool.eqb (p_Complete l) (p_Complete r)) then p_Complete l
  else if negb (count (p_CoveredGoalPredicateIDs l) =? count (p_CoveredGoalPredicateIDs r))
  then count (p_CoveredGoalPredicateIDs l) >? count (p_CoveredGoalPredicateIDs r)
  else if negb (p_EvidenceStrength l =? p_EvidenceStrength r) then p_EvidenceStrength l >? p_EvidenceStrength r
  else if negb (Bool.eqb (p_AllObservedEndToEnd l) (p_AllObservedEndToEnd r)) then p_AllObservedEndToEnd l
  else if negb (count (p_SatisfiedRequirementIDs l) =? count (p_SatisfiedRequirementIDs r))
  then count (p_SatisfiedRequirementIDs l) >? count (p_SatisfiedRequirementIDs r)
  else if negb (p_RiskCost l =? p_RiskCost r) then p_RiskCost l <? p_RiskCost r
  else if negb (p_ToolCost l =? p_ToolCost r) then p_ToolCost l <? p_ToolCost r
  else if negb (count (p_Nodes l) =? count (p_Nodes r)) then count (p_Nodes l) <? count (p_Nodes r)
  else str_ltb (st_hash left) (st_hash right).

Definition sortStates : list searchState -> list searchState := sort_slice betterState.

Definition WorkExhausted : string := "work_budget_exhausted".
Definition BeamTruncated : string := "beam_truncated".
Definition ExpansionExhausted : string := "expansion_budget_exhausted".
Definition DepthExhausted : string := "depth_exhausted".

Record seedAcc := mk_seedAcc {
  sa_frontier : list searchState;
  sa_seen : gset string;
  sa_limits : gset string;
  sa_best : option searchState
}.

Section search.
Context (manifest : PlannerManifest) (request : PlanRequest) (byVersion : gmap string PlannerCandidate)
  (seedVersionIDs goals satisfied : list string).

Definition build_state (nodes : gset string) : work searchState :=
  buildSearchState manifest request byVersion seedVersionIDs goals satisfied nodes.

Definition pick_best (state : searchState) (best : option searchState) : searchState :=
  match best with
  | None => state
  | Some b => if betterState state b then state else b
  end.

Definition seed_step (candidate : PlannerCandidate) (acc : seedAcc) : work (flow seedAcc) :=
  if negb (pc_Seed candidate) then ret (Next acc)
  else
    do enough <- consume 1;
    if negb enough then ret (Break (mk_seedAcc (sa_frontier acc) (sa_seen acc) ({[WorkExhausted]} ∪ sa_limits acc) (sa_best acc)))
    else
      do r <- try (build_state {[pc_VersionID candidate]});
      match r with
      | Ok state =>
          ret (Next (mk_seedAcc (sa_frontier acc ++ [state]) ({[st_hash state]} ∪ sa_seen acc) (sa_limits acc)
                       (Some (pick_best state (sa_best acc)))))
      | Err ErrPlanLimit => ret (Next acc)
      | Err e => raise e
      end.

Record searchAcc := mk_searchAcc {
  sr_next : list searchState;
  sr_seen : gset string;
  sr_limits : gset string;
  sr_best : searchState;
  sr_expansions : Z;
  sr_exhausted : bool
}.

Definition add_limit (code : string) (a : searchAcc) : searchAcc :=
  mk_searchAcc (sr_next a) (sr_seen a) ({[code]} ∪ sr_limits a) (sr_best a) (sr_expansions a) (sr_exhausted a).

Definition exhaust (a : searchAcc) : searchAcc :=
  mk_searchAcc (sr_next a) (sr_seen a) ({[WorkExhausted]} ∪ sr_limits a) (sr_best a) (sr_expansions a) true.

Definition count_expansion (a : searchAcc) : searchAcc :=
  mk_searchAcc (sr_next a) (sr_seen a) (sr_limits a) (sr_best a) (wrap_u32 (sr_expansions a + 1)) (sr_exhausted a).

(** The body of the loop over the adjacent versions of a state. *)
Definition expand_step (state : searchState) (versionID : string) (acc : searchAcc) : work (flow searchAcc) :=
  if sr_expansions acc >=? ms_MaximumExpansions (pm_Spec manifest) then ret (Break (add_limit ExpansionExhausted acc))
  else
    let acc := count_expansion acc in
    do r <- try (build_state ({[versionID]} ∪ st_nodeSet state));
    match r with
    | Err ErrWorkLimit => ret (Break (exhaust acc))
    | Err ErrPlanCycle | Err ErrPlanLimit => ret (Next acc)
    | Err e => raise e
    | Ok candidateState =>
        if bool_decide (st_hash candidateState ∈ sr_seen acc) then ret (Next acc)
        else ret (Next (mk_searchAcc (sr_next acc ++ [candidateState]) ({[st_hash candidateState]} ∪ sr_seen acc)
                          (sr_limits acc) (pick_best candidateState (Some (sr_best acc))) (sr_expansions acc)
                          (sr_exhausted acc)))
    end.

(** The body of the loop over the frontier. *)
Definition frontier_step (state : searchState) (acc : searchAcc) : work (flow searchAcc) :=
  if sr_expansions acc >=? ms_MaximumExpansions (pm_Spec manifest) then ret (Break (add_limit ExpansionExhausted acc))
  else if p_Complete (st_plan state) || (Z.of_nat (size (st_nodeSet state)) >=? ms_MaximumProcedures (pm_Spec manifest))
  then ret (Next acc)
  else
    do r <- try (adjacentVersions (cg_Edges (pr_Graph request)) (st_nodeSet state));
    match r with
    | Err ErrWorkLimit => ret (Break (exhaust acc))
    | Err e => raise e
    | Ok adjacent =>
        do acc <- loop_break (expand_step state) adjacent acc;
        ret (if sr_exhausted acc then Break acc else Next acc)
    end.

(** Sorting a frontier and cutting it to the beam width. *)
Definition beam (states : list searchState) (limits : gset string) : list searchState * gset string :=
  let states := sortStates states in
  let width := ms_BeamWidth (pm_Spec manifest) in
  if count states >? width then (firstn (Z.to_nat width) states, {[BeamTruncated]} ∪ limits) else (states, limits).

(** The loop on [depth]; [turns] is the number of depths left. *)
Fixpoint depth_loop (turns : nat) (frontier : list searchState) (acc : searchAcc) : work (list searchState * searchAcc) :=
  match turns, frontier with
  | S turns, _ :: _ =>
      if sr_exhausted acc then ret (frontier, acc)
      else
        do _ <- check_ctx;
        do acc <- loop_break frontier_step frontier
                    (mk_searchAcc [] (sr_seen acc) (sr_limits acc) (sr_best acc) (sr_expansions acc) (sr_exhausted acc));
        if sr_exhausted acc then ret (frontier, acc)
        else
          let (next, limits) := beam (sr_next acc) (sr_limits acc) in
          let acc := mk_searchAcc [] (sr_seen acc) limits (sr_best acc) (sr_expansions acc) (sr_exhausted acc) in
          if sr_expansions acc >=? ms_MaximumExpansions (pm_Spec manifest)
          then ret (next, add_limit ExpansionExhausted acc)
          else depth_loop turns next acc
  | _, _ => ret (frontier, acc)
  end.

(** Recording the limits that cut the search short. *)
Definition finish_plan (plan : Plan) (codes : list string) : work Plan :=
  do _ <- check_ctx;
  let plan := limit_plan plan codes in
  if 0 <? count codes then
    do _ <- check_ctx;
    do plan <- lift (canonicalizePlan plan);
    do _ <- check_ctx;
    ret plan
  else ret plan.

Definition run_search (candidates : list PlannerCandidate) : work Plan :=
  let spec := pm_Spec manifest in
  do seeds <- loop_break seed_step candidates (mk_seedAcc [] ∅ ∅ None);
  match sa_best seeds with
  | None => raise ErrInvalidPlanRequest
  | Some best =>
      let (frontier, limits) := beam (sa_frontier seeds) (sa_limits seeds) in
      let exhausted := bool_decide (WorkExhausted ∈ limits) in
      do (frontier, acc) <- depth_loop (Z.to_nat (ms_MaximumDepth spec - 1)) frontier
                              (mk_searchAcc [] (sa_seen seeds) limits best 0 exhausted);
      let depth := (0 <? count frontier) && negb (p_Complete (st_plan (sr_best acc))) && negb (sr_exhausted acc) &&
                   (sr_expansions acc <? ms_MaximumExpansions spec) in
      let limits := if depth then {[DepthExhausted]} ∪ sr_limits acc else sr_limits acc in
      finish_plan (st_plan (sr_best acc)) (sortedSet limits)
  end.

End search.

Definition index_candidates (candidates : list PlannerCandidate) : gmap string PlannerCandidate :=
  foldl (fun m c => <[pc_VersionID c := c]> m) ∅ candidates.

Definition seed_versions (candidates : list PlannerCandidate) : list string :=
  sort_strings (List.map pc_VersionID (List.filter pc_Seed candidates)).

Definition plan_procedures (manifest : PlannerManifest) (request : PlanRequest) : work Plan :=
  do _ <- check_ctx;
  do (candidates, goals, satisfied) <- validatePlanInputs manifest request;
  run_search manifest request (index_candidates candidates) (seed_versions candidates) goals satisfied candidates.

(** [PlanProcedures]: a fresh budget of [manifest.MaximumWorkUnits]. *)
Definition PlanProcedures (context : nat -> ctx_status) (manifest : PlannerManifest) (request : PlanRequest) :
    result Plan * wstate :=
  plan_procedures manifest request (mk_env context (ms_MaximumWorkUnits (pm_Spec manifest))) fresh.

Definition BuildPlan (manifest : PlannerManifest) (request : PlanRequest) : result Plan :=
  fst (PlanProcedures (fun _ => Live) manifest request).

(** ** Validating a plan *)
Definition node_ok (seeds : gset string) (ordinal : nat) (node : PlanNode) : bool :=
  (nd_Ordinal node =? wrap_u32 (Z.of_nat ordinal)) && safeIdentity (nd_VersionID node) &&
  sha256Pattern (nd_InterfaceHash node) && negb (Bool.eqb (nd_Bridge node) (bool_decide (nd_VersionID node ∈ seeds))).

(** The loop over the nodes; [positions] maps each version seen to its ordinal. *)
Fixpoint nodes_ok (seeds : gset string) (ordinal : nat) (positions : gmap string nat) (nodes : list PlanNode) :
    option (gmap string nat) :=
  match nodes with
  | [] => Some positions
  | node :: rest =>
      if negb (node_ok seeds ordinal node) then None
      else if bool_decide (is_Some (positions !! nd_VersionID node)) then None
      else nodes_ok seeds (S ordinal) (<[nd_VersionID node := ordinal]> positions) rest
  end.

Definition dependency_ok (positions : gmap string nat) (edgeID : string) (d : PlanDependency) : bool :=
  String.eqb (dp_CompatibilityEdgeID d) edgeID &&
  match positions !! dp_SourceVersionID d, positions !! dp_TargetVersionID d with
  | Some s, Some t => Nat.ltb s t
  | _, _ => false
  end &&
  strictPrefixed (dp_SourceProvisionIDs d) "prov_" && strictPrefixed (dp_SatisfiedRequirementIDs d) "req_".

Fixpoint dependencies_ok (positions : gmap string nat) (edgeIDs : list string) (l : list PlanDependency) : bool :=
  match l, edgeIDs with
  | d :: l, id :: edgeIDs => dependency_ok positions id d && dependencies_ok positions edgeIDs l
  | [], _ => true
  | _, [] => false
  end.

Definition limit_code_ok (code : string) : bool :=
  String.eqb code BeamTruncated || String.eqb code DepthExhausted || String.eqb code ExpansionExhausted ||
  String.eqb code WorkExhausted.

Definition gap_ok (gap : PlanGap) : bool :=
  if String.eqb (gp_Code gap) "unsatisfied_requirement"
  then negb (empty (gp_VersionID gap)) && negb (empty (gp_RequirementID gap)) && empty (gp_GoalPredicateID gap)
  else if String.eqb (gp_Code gap) "uncovered_goal"
  then empty (gp_VersionID gap) && empty (gp_RequirementID gap) && negb (empty (gp_GoalPredicateID gap))
  else false.

Fixpoint gaps_ok (prev : option PlanGap) (gaps : list PlanGap) : bool :=
  match gaps with
  | [] => true
  | gap :: rest =>
      gap_ok gap && match prev with Some p => str_ltb (gapKey p) (gapKey gap) | None => true end && gaps_ok (Some gap) rest
  end.

Definition ValidatePlan (plan : Plan) : result unit :=
  reject (negb (String.eqb (p_SchemaVersion plan) "composition-plan.v1") ||
          negb (String.eqb (p_ID plan) ("plan_" ++ p_ContentHash plan)) ||
          negb (sha256Pattern (p_ContentHash plan))) with ErrInvalidPlanRequest;
  reject (negb (sealed_as (plan_json (seal_plan plan "" "" "")) (p_ContentHash plan) (p_CanonicalJSON plan)))
    with ErrInvalidPlanRequest;
  reject (empty (p_TenantID plan) || (p_ProjectionEpoch plan =? 0) || empty (p_PlannerManifestID plan) ||
          empty (p_PolicyManifestID plan) ||
          negb (String.eqb (p_CompatibilityGraphID plan) ("cgraph_" ++ p_CompatibilityGraphHash plan)) ||
          negb (sha256Pattern (p_CompatibilityGraphHash plan)) || negb (sha256Pattern (p_CompatibilityMatrixHash plan)) ||
          negb (sha256Pattern (p_CandidateSetHash plan)) || (count (p_Nodes plan) =? 0) ||
          (count (p_RequestedGoalPredicateIDs plan) =? 0) || (count (p_SeedVersionIDs plan) =? 0) ||
          (p_ToolCost plan =? 0) || (p_EvidenceStrength plan <? 0) ||
          negb (strictSorted (p_RequestedGoalPredicateIDs plan)) || negb (strictSorted (p_SeedVersionIDs plan)) ||
          negb (strictSorted (p_ExternallySatisfiedRequirementIDs plan)) ||
          negb (strictSorted (p_SatisfiedRequirementIDs plan)) || negb (strictSorted (p_ProducedResourceIDs plan)) ||
          negb (strictSorted (p_CoveredGoalPredicateIDs plan)) ||
          ((0 <? count (p_CompatibilityEdgeIDs plan)) && negb (strictPrefixed (p_CompatibilityEdgeIDs plan) "cedge_")) ||
          negb (strictSorted (p_LimitCodes plan)) || negb (Bool.eqb (p_Complete plan) (count (p_Gaps plan) =? 0)))
    with ErrInvalidPlanRequest;
  match nodes_ok (sliceSet (p_SeedVersionIDs plan)) 0 ∅ (p_Nodes plan) with
  | None => Err ErrInvalidPlanRequest
  | Some positions =>
      reject (negb (count (p_Dependencies plan) =? count (p_CompatibilityEdgeIDs plan))) with ErrInvalidPlanRequest;
      reject (negb (dependencies_ok positions (p_CompatibilityEdgeIDs plan) (p_Dependencies plan)))
        with ErrInvalidPlanRequest;
      reject (negb (forallb (fun goal => bool_decide (goal ∈ sliceSet (p_RequestedGoalPredicateIDs plan)))
                      (p_CoveredGoalPredicateIDs plan))) with ErrInvalidPlanRequest;
      reject (negb (forallb limit_code_ok (p_LimitCodes plan))) with ErrInvalidPlanRequest;
      reject (negb (gaps_ok None (p_Gaps plan))) with ErrInvalidPlanRequest;
      Ok tt
  end.

Definition HydratePlan (plan : Plan) : result Plan :=
  match MarshalAndHash (plan_json (seal_plan plan "" "" "")) with
  | Err _ => Err ErrInvalidPlanRequest
  | Ok (text, hash) =>
      reject (negb (String.eqb (p_ID plan) ("plan_" ++ hash)) || negb (String.eqb (p_ContentHash plan) hash))
        with ErrInvalidPlanRequest;
      let plan := seal_plan plan (p_ID plan) (p_ContentHash plan) text in
      reject (failed (ValidatePlan plan)) with ErrInvalidPlanRequest;
      Ok plan
  end.

(** ** The budget bounds every computation *)
#[export] Instance bounded_charge_if charging units : 0 <= units -> Bounded (charge_if charging units).
Proof. intros Hu. unfold charge_if. destruct charging; apply _. Qed.

Lemma count_nonneg {A} (l : list A) : 0 <= count l.
Proof. unfold count. lia. Qed.

#[export] Instance validateCompatibilityGraph_bounded charging g : Bounded (validateCompatibilityGraph charging g).
Proof.
  unfold validateCompatibilityGraph, check_edge. pose proof (count_nonneg (cg_Edges g)).
  bounded_cases; apply bounded_charge_if; lia.
Qed.

Lemma parallelEntryCount_nonneg f : 0 <= parallelEntryCount f.
Proof. unfold parallelEntryCount, count. lia. Qed.

#[export] Instance validatePlanInputs_bounded manifest request : Bounded (validatePlanInputs manifest request).
Proof.
  unfold validatePlanInputs, validate_graph. bounded_cases.
  - unfold validate_candidate. pose proof (count_nonneg (pc_GoalPredicateIDs x)).
    pose proof (parallelEntryCount_nonneg (pc_Parallelism x)). bounded_cases.
  - unfold validate_edge. bounded_cases.
Qed.

#[export] Instance buildSearchState_bounded manifest request byVersion seeds goals satisfied nodes :
  Bounded (buildSearchState manifest request byVersion seeds goals satisfied nodes).
Proof. unfold buildSearchState, selectedEdges, select_edge. bounded_cases. Qed.

#[export] Instance adjacentVersions_bounded edges nodes : Bounded (adjacentVersions edges nodes).
Proof. unfold adjacentVersions, adjacent_step. bounded_cases. Qed.

#[export] Instance depth_loop_bounded manifest request byVersion seeds goals satisfied turns frontier acc :
  Bounded (depth_loop manifest request byVersion seeds goals satisfied turns frontier acc).
Proof.
  revert frontier acc. induction turns as [|turns IH]; intros [|state frontier] acc; cbn [depth_loop]; try apply bounded_ret.
  unfold frontier_step, expand_step, build_state. bounded_cases.
Qed.

#[export] Instance run_search_bounded manifest request byVersion seeds goals satisfied candidates :
  Bounded (run_search manifest request byVersion seeds goals satisfied candidates).
Proof. unfold run_search, seed_step, build_state, finish_plan. bounded_cases. Qed.

Lemma plan_procedures_bounded manifest request : Bounded (plan_procedures manifest request).
Proof.
  unfold plan_procedures. bounded_cases.
Qed.

End planner.
