(* ===== verification/PlannerSound.v ===== *)
(** * Soundness of the composition planner

    The invariant of the beam search of [Planner] (every state it keeps is the
    plan of a set of validated candidates, within the limits of the manifest)
    and what it gives: the order of a plan, its gaps, its limits, and that the
    planner's result passes [ValidatePlan]. *)

From Stdlib Require Import ZArith String Ascii List Bool Lia.
From stdpp Require Import base gmap strings list sorting.
From S2P Require Import Prelude GoStrings Canonical Budget Interfaces Compatibility Planner.

Open Scope Z_scope.
Open Scope go_scope.
Open Scope work_scope.

(** ** Normalised identifiers *)
Lemma normalizedIDs_spec source allowEmpty l :
  normalizedIDs source allowEmpty = Some l ->
  strictSorted l = true /\ Forall (fun x => safeIdentity x = true) l /\ (allowEmpty = false -> l <> []) /\
  (forall x, x ∈ l <-> x ∈ List.map TrimSpace source).
Proof.
  unfold normalizedIDs. destruct (existsb _ _) eqn:Ex; [done|].
  destruct (adjacent_dup _ _) eqn:Ed; [done|]. destruct (_ || _) eqn:Ea; [|done]. intros [= <-].
  assert (Hsafe : forall x, x ∈ List.map TrimSpace source -> safeIdentity x = true).
  { intros x Hx. apply not_true_iff_false in Ex. destruct (safeIdentity x) eqn:Es; [done|]. exfalso. apply Ex.
    apply existsb_exists. exists x. split; [by apply list_elem_of_In|]. by rewrite Es, orb_true_r. }
  split_and!.
  - apply sort_strings_strict; [apply NoDup_sort_strings, (adjacent_dup_sorted _ (sort_strings_sorted _)), Ed|].
    intros Hin%Hsafe. discriminate Hin.
  - apply Forall_forall. intros x Hx. rewrite sort_strings_elem in Hx. by apply Hsafe.
  - intros ->. simpl in Ea. intros Hn. by rewrite Hn in Ea.
  - intros x. apply sort_strings_elem.
Qed.

(** ** What the loop over the ordered versions computes *)
Lemma foldl_union_elem {A} (k : A -> string) (l : list A) (s : gset string) x :
  x ∈ foldl (fun s a => {[k a]} ∪ s) s l <-> x ∈ s \/ x ∈ List.map k l.
Proof.
  revert s. induction l as [|a l IH]; intros s; simpl; [rewrite elem_of_nil; tauto|].
  rewrite IH, elem_of_union, elem_of_singleton, elem_of_cons. tauto.
Qed.

Lemma foldl_wanted_elem (wanted : gset string) (l : list string) (s : gset string) x :
  x ∈ foldl (fun s g => if bool_decide (g ∈ wanted) then {[g]} ∪ s else s) s l <-> x ∈ s \/ x ∈ wanted /\ x ∈ l.
Proof.
  revert s. induction l as [|a l IH]; intros s; simpl; [rewrite elem_of_nil; tauto|].
  rewrite IH, elem_of_cons. destruct (decide (a ∈ wanted)) as [Hw|Hw].
  - rewrite bool_decide_true, elem_of_union, elem_of_singleton by done. split; [|tauto].
    intros [[->|Hx]|Hx]; tauto.
  - rewrite bool_decide_false by done. split; [tauto|]. intros [Hx|(Hx & [->|Hl])]; tauto.
Qed.

Lemma satisfied_set_elem external edges x :
  x ∈ satisfied_set external edges <-> x ∈ external \/ exists e, e ∈ edges /\ x ∈ ce_SatisfiedRequirementIDs e.
Proof.
  unfold satisfied_set. assert (Hgen : forall (s : gset string),
    x ∈ foldl (fun s e => foldl (fun s id => {[id]} ∪ s) s (ce_SatisfiedRequirementIDs e)) s edges <->
    x ∈ s \/ exists e, e ∈ edges /\ x ∈ ce_SatisfiedRequirementIDs e).
  { induction edges as [|e l IH]; intros s; simpl.
    - split; [by left|]. intros [?|(e & He & _)]; [done|by apply not_elem_of_nil in He].
    - rewrite IH, (foldl_union_elem (fun id => id)), List.map_id. split.
      + intros [[?|?]|(e' & He' & ?)]; [by left|right; exists e; split; [left|done]|right; exists e'; split; [by right|done]].
      + intros [?|(e' & [->|He']%elem_of_cons & ?)]; [tauto|tauto|right; by exists e']. }
  rewrite Hgen. unfold sliceSet. by rewrite elem_of_list_to_set.
Qed.

Section nodes.
Context (byVersion : gmap string PlannerCandidate) (goalSet satisfied : gset string).

Notation cand v := (candidate_at byVersion v).
Notation run l := (foldl (add_node byVersion goalSet satisfied) empty_nodeAcc l).

Definition node_at (i : nat) (v : string) : PlanNode :=
  mk_PlanNode (wrap_u32 (Z.of_nat i)) v (pi_ContentHash (pc_Interface (cand v))) (negb (pc_Seed (cand v))).

Lemma run_nodes l : na_nodes (run l) = imap node_at l.
Proof.
  induction l as [|v l IH] using rev_ind; [done|]. rewrite foldl_app, imap_app. simpl. rewrite IH.
  unfold count. rewrite length_imap. unfold node_at. simpl. by rewrite Nat.add_0_r.
Qed.

Lemma run_bridges l : na_bridges (run l) = count (List.filter (fun v => negb (pc_Seed (cand v))) l).
Proof.
  induction l as [|v l IH] using rev_ind; [done|]. rewrite foldl_app, List.filter_app. simpl. rewrite IH. unfold count.
  rewrite length_app. destruct (pc_Seed (cand v)); simpl; lia.
Qed.

Lemma run_tool l : na_tool (run l) = wrap_u64 (zsum (fun v => pc_ToolCost (cand v)) l).
Proof.
  induction l as [|v l IH] using rev_ind; [done|]. rewrite foldl_app, zsum_app. simpl. rewrite IH. unfold wrap_u64.
  rewrite Z.add_mod_idemp_l by done. f_equal. lia.
Qed.

Lemma run_strength l :
  (forall v, v ∈ l -> 0 <= pc_EvidenceStrength (cand v)) ->
  0 <= na_strength (run l) <= MaxInt64 /\ (forall v, v ∈ l -> na_strength (run l) <= pc_EvidenceStrength (cand v)).
Proof.
  induction l as [|v l IH] using rev_ind; intros Hs; [split; [done|]; intros v Hv; by apply not_elem_of_nil in Hv|].
  destruct IH as [IH1 IH2]; [intros u Hu; apply Hs, elem_of_app; by left|].
  assert (Hv : 0 <= pc_EvidenceStrength (cand v)) by (apply Hs, elem_of_app; right; by left).
  rewrite foldl_app. cbn [foldl add_node na_strength]. destruct (Z.ltb_spec (pc_EvidenceStrength (cand v)) (na_strength (run l)));
    (split; [lia|]); intros u [Hu| ->%list_elem_of_singleton]%elem_of_app; try apply IH2 in Hu; lia.
Qed.

Lemma run_covered l x :
  x ∈ na_covered (run l) <-> x ∈ goalSet /\ exists v, v ∈ l /\ x ∈ pc_GoalPredicateIDs (cand v).
Proof.
  induction l as [|v l IH] using rev_ind; simpl.
  { rewrite elem_of_empty. split; [done|]. intros (_ & v & Hv & _). by apply not_elem_of_nil in Hv. }
  rewrite foldl_app. cbn [foldl add_node na_covered]. rewrite foldl_wanted_elem, IH. split.
  - intros [(Hg & u & Hu & Hx)|[Hg Hx]]; (split; [done|]); [exists u|exists v]; (split; [apply elem_of_app|done]);
      [by left|right; by left].
  - intros (Hg & u & [Hu| ->%list_elem_of_singleton]%elem_of_app & Hx); [left|by right]. split; [done|]. by exists u.
Qed.

Lemma run_produced l x :
  x ∈ na_produced (run l) <-> exists v, v ∈ l /\ x ∈ List.map pv_ID (pi_Provisions (pc_Interface (cand v))).
Proof.
  induction l as [|v l IH] using rev_ind; simpl.
  { rewrite elem_of_empty. split; [done|]. intros (v & Hv & _). by apply not_elem_of_nil in Hv. }
  rewrite foldl_app. cbn [foldl add_node na_produced]. rewrite foldl_union_elem, IH. split.
  - intros [(u & Hu & Hx)|Hx]; [exists u|exists v]; (split; [apply elem_of_app|done]); [by left|right; by left].
  - intros (u & [Hu| ->%list_elem_of_singleton]%elem_of_app & Hx); [left; by exists u|by right].
Qed.

Lemma run_gaps l :
  na_gaps (run l) = flat_map (fun v => requirement_gaps satisfied v (pi_Requirements (pc_Interface (cand v)))) l.
Proof.
  induction l as [|v l IH] using rev_ind; [done|]. rewrite foldl_app, flat_map_app. simpl. by rewrite IH, app_nil_r.
Qed.

End nodes.

(** ** Penalties *)
Lemma checkedPlannerMul_spec l r :
  0 <= l -> 0 <= r ->
  checkedPlannerMul l r = if l * r <=? MaxInt64 then Some (l * r) else None.
Proof.
  intros Hl Hr. unfold checkedPlannerMul. destruct (Z.eqb_spec l 0) as [->|Hl0]; [done|].
  destruct (Z.eqb_spec r 0) as [->|Hr0]; simpl; [by rewrite Z.mul_0_r|].
  rewrite Z.quot_div_nonneg by (unfold MaxInt64; lia). rewrite Z.gtb_ltb.
  destruct (Z.ltb_spec (MaxInt64 / r) l) as [Hlt|Hge], (Z.leb_spec (l * r) MaxInt64) as [Hle|Hgt]; try done.
  - exfalso. assert (l <= MaxInt64 / r) by (apply Z.div_le_lower_bound; lia). lia.
  - rewrite wrap_i64_id; [done|]. unfold_widths. nia.
  - exfalso. assert (r * (MaxInt64 / r) <= MaxInt64) by (apply Z.mul_div_le; lia). nia.
Qed.

Lemma penalised_spec strength penalty edgePenalty :
  0 <= strength <= MaxInt64 -> 0 <= penalty <= MaxInt64 ->
  (forall e, edgePenalty = Some e -> 0 <= e <= MaxInt64) ->
  penalised strength penalty edgePenalty =
  match edgePenalty with Some e => Z.max 0 (strength - penalty - e) | None => 0 end.
Proof.
  intros Hs Hp He. unfold penalised. destruct edgePenalty as [e|]; [|done]. specialize (He e eq_refl).
  destruct (Z.ltb_spec strength penalty) as [|Hge]; simpl; [lia|].
  rewrite wrap_i64_id by (unfold_widths; lia). destruct (Z.ltb_spec (strength - penalty) e) as [|Hge']; [lia|].
  rewrite (wrap_i64_id (penalty + e)) by (unfold_widths; lia). rewrite wrap_i64_id by (unfold_widths; lia). lia.
Qed.

Lemma penalised_nonneg strength bridges novelty unobserved edge penalty :
  0 <= strength <= MaxInt64 -> 0 <= bridges -> 0 <= novelty -> 0 <= unobserved -> 0 <= edge ->
  checkedPlannerMul bridges novelty = Some penalty ->
  0 <= penalised strength penalty (checkedPlannerMul unobserved edge).
Proof.
  intros Hs Hb Hn Hu He. rewrite !checkedPlannerMul_spec by done.
  destruct (Z.leb_spec (bridges * novelty) MaxInt64); [|done]. intros [= <-].
  rewrite penalised_spec; [repeat case_match; simplify_eq; lia|done|nia|].
  intros e. destruct (Z.leb_spec (unobserved * edge) MaxInt64); [|done]. intros [= <-]. nia.
Qed.

(** ** Validated inputs *)
Section sound.
Context `{NFC} `{JCS} `{Digest}.

Record good_candidate (request : PlanRequest) (c : PlannerCandidate) : Prop := {
  gc_id : pc_VersionID c <> ""%string;
  gc_nul : has_nul (pc_VersionID c) = false;
  gc_eligible : pc_Eligible c = true;
  gc_policy : pc_PolicyManifestID c = pr_PolicyManifestID request;
  gc_interface : wf_interface (pc_Interface c);
  gc_strength : 0 <= pc_EvidenceStrength c;
  gc_tool : pc_ToolCost c <> 0;
  gc_source : exists source goals parallelism, source ∈ pr_Candidates request /\
    normalizedIDs (pc_GoalPredicateIDs source) true = Some goals /\
    normalizedParallelism (pc_Parallelism source) = Some parallelism /\
    c = normalized_candidate source goals parallelism
}.

Record valid_inputs (manifest : PlannerManifest) (request : PlanRequest) (candidates : list PlannerCandidate)
    (goals satisfied : list string) : Prop := {
  vi_spec : validPlannerSpec (trim_version (pm_Spec manifest)) = true;
  vi_manifest : pm_ID manifest <> ""%string;
  vi_graph : wf_graph (pr_Graph request);
  vi_tenant : pr_TenantID request <> ""%string;
  vi_epoch : pr_ProjectionEpoch request <> 0;
  vi_policy : pr_PolicyManifestID request <> ""%string;
  vi_goals : normalizedIDs (pr_GoalPredicateIDs request) false = Some goals;
  vi_satisfied : normalizedIDs (pr_SatisfiedRequirementIDs request) true = Some satisfied;
  vi_candidates : Forall (good_candidate request) candidates;
  vi_versions : NoDup (List.map pc_VersionID candidates);
  vi_seed : exists c, c ∈ candidates /\ pc_Seed c = true;
  vi_edges : forall e, e ∈ cg_Edges (pr_Graph request) ->
    ce_SourceVersionID e ∈ List.map pc_VersionID candidates /\ ce_TargetVersionID e ∈ List.map pc_VersionID candidates
}.

Lemma ValidatePlannerManifest_spec manifest :
  failed (ValidatePlannerManifest manifest) = false ->
  validPlannerSpec (trim_version (pm_Spec manifest)) = true /\ pm_ID manifest <> ""%string.
Proof.
  unfold ValidatePlannerManifest, NewPlannerManifest, failed. destruct (validPlannerSpec _) eqn:Ev; [|done].
  cbn [negb]. destruct (MarshalAndHash _) as [[text hash]|]; cbn [bind]; [|done]. cbn [pm_SchemaVersion pm_ID pm_ContentHash pm_CanonicalJSON].
  destruct (_ || _) eqn:Eo; [done|]. intros _. split; [done|].
  rewrite !orb_false_iff, !negb_false_iff in Eo. destruct Eo as [[[_ Hid%String.eqb_eq] _] _]. rewrite Hid. done.
Qed.

(** The invariant of the loop over the candidates. *)
Definition input_inv (request : PlanRequest) (seen : list PlannerCandidate) (acc : inputAcc) : Prop :=
  Forall (good_candidate request) (ia_candidates acc) /\ NoDup (List.map pc_VersionID (ia_candidates acc)) /\
  (forall v, is_Some (ia_interfaces acc !! v) <-> v ∈ List.map pc_VersionID (ia_candidates acc)) /\
  (ia_hasSeed acc = true -> exists c, c ∈ ia_candidates acc /\ pc_Seed c = true).

Lemma validate_candidates_post manifest request :
  post (loop (validate_candidate manifest request) 0 (by_candidate (pr_Candidates request)) (mk_inputAcc [] ∅ false 0 0))
    (input_inv request (by_candidate (pr_Candidates request))).
Proof.
  apply (post_loop _ (input_inv request)).
  { split_and!; [constructor|constructor| |done]. intros v. simpl. rewrite lookup_empty, elem_of_nil.
    split; [by intros [? ?]|done]. }
  intros seen c rest acc Hsplit (Hg & Hn & Hi & Hseed). unfold validate_candidate. apply post_skip. intros _.
  apply post_reject. intros _. apply post_reject. intros _. apply post_skip. intros _.
  destruct (normalizedIDs (pc_GoalPredicateIDs c) true) as [goals|] eqn:Eg; [|apply post_raise].
  destruct (normalizedParallelism (pc_Parallelism c)) as [par|] eqn:Ep; [|apply post_raise].
  apply post_reject. unfold empty. rewrite !orb_false_iff, !negb_false_iff, str_eqb_false, Z.ltb_ge, Z.eqb_neq, String.eqb_eq.
  intros [[[[[[[Hid Hnul] Hel] Hpol] Hint] Hstr] Htool] _]. apply post_reject. intros Hfresh%bool_decide_eq_false.
  apply post_ret. unfold input_inv. cbn [ia_candidates ia_interfaces ia_hasSeed]. rewrite List.map_app. simpl. split_and!.
  - apply Forall_app. split; [done|]. constructor; [|constructor]. constructor; try done.
    + apply ValidateProcedureInterface_wf. unfold failed in Hint. apply negb_false_iff in Hint.
      by destruct (ValidateProcedureInterface _) as [[]|].
    + exists c, goals, par. split; [|done]. apply (sort_slice_elem (cmp_ltb (cmp_on pc_VersionID String.compare))).
      fold (by_candidate (pr_Candidates request)). rewrite Hsplit. apply elem_of_app. right. by left.
  - rewrite NoDup_app. split; [done|]. split; [|apply NoDup_singleton].
    intros x Hx ->%list_elem_of_singleton. by apply Hfresh, Hi.
  - intros v. rewrite elem_of_app, list_elem_of_singleton, <- Hi.
    destruct (decide (pc_VersionID c = v)) as [<-|Hne]; [rewrite lookup_insert_eq|rewrite lookup_insert_ne by done].
    + split; [by right|by eexists].
    + split; [by left|]. intros [?|?]; [done|congruence].
  - intros [Hs|Hs]%orb_true_iff.
    + destruct (Hseed Hs) as (d & Hd & ?). exists d. split; [apply elem_of_app; by left|done].
    + eexists. split; [apply elem_of_app; right; left|done].
Qed.

Lemma validatePlanInputs_post manifest request :
  post (validatePlanInputs manifest request) (fun r => let '(candidates, goals, satisfied) := r in
    valid_inputs manifest request candidates goals satisfied).
Proof.
  unfold validatePlanInputs. apply post_reject. intros [Hspec Hid]%ValidatePlannerManifest_spec.
  eapply (post_bind _ _ (fun _ => wf_graph (pr_Graph request))).
  { unfold validate_graph. eapply post_bind; [apply post_try, validateCompatibilityGraph_post|].
    intros [[]|e] Hr; [by apply post_ret|apply post_raise]. }
  intros _ Hgraph. apply post_reject. unfold empty. rewrite !orb_false_iff, !negb_false_iff, !str_eqb_false, Z.eqb_neq.
  intros [[[[[[[Ht He] _] _] _] _] Hpol] _]. apply post_reject. intros _.
  destruct (normalizedIDs (pr_GoalPredicateIDs request) false) as [goals|] eqn:Eg; [|apply post_raise].
  destruct (normalizedIDs (pr_SatisfiedRequirementIDs request) true) as [satisfied|] eqn:Es; [|apply post_raise].
  eapply post_bind; [apply validate_candidates_post|]. intros acc (Hg & Hn & Hi & Hseed).
  apply post_reject. rewrite negb_false_iff. intros Hs. apply post_reject. intros _.
  eapply (post_bind _ _ (fun _ => forall e, e ∈ cg_Edges (pr_Graph request) ->
    ce_SourceVersionID e ∈ List.map pc_VersionID (ia_candidates acc) /\
    ce_TargetVersionID e ∈ List.map pc_VersionID (ia_candidates acc))).
  { apply (post_loop _ (fun seen _ => forall e, e ∈ seen ->
      ce_SourceVersionID e ∈ List.map pc_VersionID (ia_candidates acc) /\
      ce_TargetVersionID e ∈ List.map pc_VersionID (ia_candidates acc))); [intros e Hin; by apply not_elem_of_nil in Hin|].
    intros seen e rest u _ Hinv. unfold validate_edge. apply post_skip. intros _. apply post_skip. intros _.
    destruct (ia_interfaces acc !! ce_SourceVersionID e) eqn:E1; [|apply post_raise].
    destruct (ia_interfaces acc !! ce_TargetVersionID e) eqn:E2; [|apply post_raise].
    apply post_reject. intros _. apply post_ret. intros e' [Hin| ->%list_elem_of_singleton]%elem_of_app; [by apply Hinv|].
    split; apply Hi; by eexists. }
  intros _ Hedges. apply post_ret. constructor; try done. by apply Hseed.
Qed.

(** ** Search states *)
Section states.
Context (manifest : PlannerManifest) (request : PlanRequest) (candidates : list PlannerCandidate)
  (goals satisfied : list string).
Hypothesis Hvi : valid_inputs manifest request candidates goals satisfied.

Notation byVersion := (index_candidates candidates).
Notation seeds := (seed_versions candidates).
Notation cand v := (candidate_at byVersion v).

Lemma candidate_at_in v :
  v ∈ List.map pc_VersionID candidates -> cand v ∈ candidates /\ pc_VersionID (cand v) = v.
Proof using Hvi.
  intros Hv. unfold candidate_at, index_candidates.
  rewrite (foldl_insert_lookup pc_VersionID (fun c => c)) by apply (vi_versions _ _ _ _ _ Hvi).
  destruct (find_key pc_VersionID v candidates) as [c|] eqn:Ef; [by apply find_key_some|].
  by apply find_key_none in Ef.
Qed.

Lemma cand_good v : v ∈ List.map pc_VersionID candidates -> good_candidate request (cand v).
Proof using Hvi.
  intros Hv. apply (proj1 (Forall_forall _ _) (vi_candidates _ _ _ _ _ Hvi)). by apply candidate_at_in.
Qed.

(** The edges of the graph inside a set of nodes. *)
Definition inner_edges (nodes : gset string) : list CompatibilityEdge :=
  if Nat.ltb (size nodes) 2 then []
  else by_edge_id (List.filter (fun e => has_node nodes (ce_SourceVersionID e) && has_node nodes (ce_TargetVersionID e))
                     (cg_Edges (pr_Graph request))).

Lemma selectedEdges_post nodes :
  post (selectedEdges (cg_Edges (pr_Graph request)) nodes) (fun edges => edges = inner_edges nodes).
Proof.
  unfold selectedEdges, inner_edges. destruct (Nat.ltb _ _); [by apply post_ret|].
  eapply post_bind; [apply (post_loop _ (fun seen acc => acc = List.filter (fun e =>
    has_node nodes (ce_SourceVersionID e) && has_node nodes (ce_TargetVersionID e)) seen)); [done|]|].
  - intros seen e rest acc _ ->. unfold select_edge. apply post_skip. intros _. apply post_skip. intros _.
    apply post_ret. rewrite List.filter_app. simpl. destruct (_ && _); [done|by rewrite app_nil_r].
  - intros edges ->. by apply post_ret.
Qed.

Lemma inner_edges_elem nodes e :
  e ∈ inner_edges nodes ->
  e ∈ cg_Edges (pr_Graph request) /\ ce_SourceVersionID e ∈ nodes /\ ce_TargetVersionID e ∈ nodes.
Proof.
  unfold inner_edges. case_match; [intros He; by apply not_elem_of_nil in He|]. unfold by_edge_id.
  rewrite sort_slice_elem, list_elem_of_In, filter_In. unfold has_node. rewrite andb_true_iff, !bool_decide_eq_true.
  by rewrite list_elem_of_In.
Qed.

(** A state of the search: the plan of a set of candidates within the limits. *)
Record search_ok (state : searchState) : Prop := {
  so_nodes : forall v, v ∈ st_nodeSet state -> v ∈ List.map pc_VersionID candidates;
  so_size : 1 <= Z.of_nat (size (st_nodeSet state)) <= ms_MaximumProcedures (pm_Spec manifest);
  so_plan : exists ordered acc strength,
    topologicalOrder (st_nodeSet state) (inner_edges (st_nodeSet state)) = Ok ordered /\
    acc = foldl (add_node byVersion (sliceSet goals) (satisfied_set satisfied (inner_edges (st_nodeSet state)))) empty_nodeAcc ordered /\
    na_bridges acc <= ms_MaximumBridges (pm_Spec manifest) /\ na_tool acc <= ms_MaximumTotalToolCost (pm_Spec manifest) /\
    (exists penalty, checkedPlannerMul (na_bridges acc) (ms_NoveltyPenalty (pm_Spec manifest)) = Some penalty /\
       strength = penalised (na_strength acc) penalty
         (checkedPlannerMul (unobserved_edges byVersion (inner_edges (st_nodeSet state)))
            (ms_UnobservedEdgePenalty (pm_Spec manifest)))) /\
    canonicalizePlan (draft_plan manifest request seeds goals satisfied (inner_edges (st_nodeSet state))
      (satisfied_set satisfied (inner_edges (st_nodeSet state))) acc strength) = Ok (st_plan state)
}.

Lemma buildSearchState_post nodes :
  (forall v, v ∈ nodes -> v ∈ List.map pc_VersionID candidates) ->
  1 <= Z.of_nat (size nodes) <= ms_MaximumProcedures (pm_Spec manifest) ->
  post (buildSearchState manifest request byVersion seeds goals satisfied nodes) search_ok.
Proof.
  intros Hnodes Hsize. unfold buildSearchState. apply post_skip. intros _.
  eapply post_bind; [apply selectedEdges_post|]. intros edges ->.
  eapply post_bind; [apply post_lift; intros o Ho; exact Ho|]. intros ordered Hord.
  apply post_reject. rewrite orb_false_iff, !Z.gtb_ltb, !Z.ltb_ge. intros [Hbr Htc].
  destruct (checkedPlannerMul _ _) as [penalty|] eqn:Epen; [|apply post_raise].
  eapply post_bind; [apply post_lift; intros p Hp; exact Hp|]. intros plan Hplan.
  apply post_skip. intros _. apply post_ret. constructor; cbn [st_nodeSet st_plan]; [done..|].
  eexists ordered, _, _. split; [done|]. split; [reflexivity|]. split_and!; [done..| |exact Hplan].
  exists penalty. by split.
Qed.

Definition search_inv (acc : searchAcc) : Prop :=
  (forall st, st ∈ sr_next acc -> search_ok st) /\ search_ok (sr_best acc) /\
  (forall code, code ∈ sr_limits acc -> limit_code_ok code = true).

Lemma limit_codes_ok : limit_code_ok WorkExhausted = true /\ limit_code_ok BeamTruncated = true /\
  limit_code_ok ExpansionExhausted = true /\ limit_code_ok DepthExhausted = true.
Proof. done. Qed.

Lemma limits_union code (limits : gset string) :
  limit_code_ok code = true -> (forall c, c ∈ limits -> limit_code_ok c = true) ->
  forall c, c ∈ {[code]} ∪ limits -> limit_code_ok c = true.
Proof. intros Hc Hl c [->%elem_of_singleton|?]%elem_of_union; auto. Qed.

Lemma pick_best_ok state best :
  search_ok state -> match best with Some b => search_ok b | None => True end -> search_ok (pick_best state best).
Proof. intros Hs Hb. destruct best as [b|]; simpl; [|done]. by destruct (betterState state b). Qed.

Lemma expand_step_post state versionID acc :
  search_ok state -> Z.of_nat (size (st_nodeSet state)) < ms_MaximumProcedures (pm_Spec manifest) ->
  versionID ∈ List.map pc_VersionID candidates -> search_inv acc ->
  post (expand_step manifest request byVersion seeds goals satisfied state versionID acc)
    (fun r => match r with Next a | Break a => search_inv a end).
Proof.
  intros Hst Hsz Hv (Hnext & Hbest & Hlim). unfold expand_step. destruct (_ >=? _).
  { apply post_ret. split; [done|]. split; [done|]. by apply limits_union. }
  eapply post_bind; [apply post_try, buildSearchState_post|].
  - intros u [->%elem_of_singleton|Hu]%elem_of_union; [done|by apply (so_nodes _ Hst)].
  - pose proof (so_size _ Hst) as Hs1. split.
    + assert (size (st_nodeSet state) <= size ({[versionID]} ∪ st_nodeSet state))%nat by (apply subseteq_size; set_solver). lia.
    + assert (Hle := size_union_alt ({[versionID]} : gset string) (st_nodeSet state)). rewrite size_singleton in Hle.
      assert (size (st_nodeSet state ∖ {[versionID]}) <= size (st_nodeSet state))%nat by (apply subseteq_size; set_solver). lia.
  - intros [st|e] Hst'.
    + case_match; apply post_ret; [by split_and!|]. split; cbn [sr_next sr_best sr_limits].
      { intros s [Hs| ->%list_elem_of_singleton]%elem_of_app; [by apply Hnext|done]. }
      split; [|done]. by apply (pick_best_ok st (Some (sr_best acc))).
    + destruct e; try apply post_raise; apply post_ret; (split; [done|]; split; [done|]; try done).
      by apply limits_union.
Qed.

Lemma adjacentVersions_post nodes :
  post (adjacentVersions (cg_Edges (pr_Graph request)) nodes) (fun l => forall v, v ∈ l -> v ∈ List.map pc_VersionID candidates).
Proof using Hvi.
  unfold adjacentVersions. eapply post_bind; [apply (post_loop _ (fun seen (acc : gset string) =>
    forall v, v ∈ acc -> v ∈ List.map pc_VersionID candidates)); [intros v Hv; by apply elem_of_empty in Hv|]|].
  - intros seen e rest acc Heq Hinv. unfold adjacent_step. apply post_skip. intros _. apply post_skip. intros _. apply post_ret.
    destruct (vi_edges _ _ _ _ _ Hvi e) as [Hs Ht]; [rewrite Heq; apply elem_of_app; right; by left|].
    destruct (Bool.eqb _ _); [done|]. destruct (has_node _ _);
      intros v [->%elem_of_singleton|Hv]%elem_of_union; auto.
  - intros acc Hacc. apply post_ret. intros v Hv%sortedSet_elem. by apply Hacc.
Qed.

Lemma frontier_step_post state acc :
  search_ok state -> search_inv acc ->
  post (frontier_step manifest request byVersion seeds goals satisfied state acc)
    (fun r => match r with Next a | Break a => search_inv a end).
Proof using Hvi.
  intros Hst Hacc. unfold frontier_step. destruct (_ >=? _).
  { apply post_ret. destruct Hacc as (? & ? & ?). split; [done|]. split; [done|]. by apply limits_union. }
  destruct (_ || _) eqn:Eo; [by apply post_ret|]. apply orb_false_iff in Eo as [_ Hsz].
  rewrite Z.geb_leb in Hsz. apply Z.leb_gt in Hsz.
  eapply post_bind; [apply post_try, adjacentVersions_post|]. intros [adjacent|e] Hadj.
  - eapply post_bind; [apply (post_loop_break _ search_inv); [done|]|].
    + intros v a Hv Ha. apply expand_step_post; auto.
    + intros a Ha. apply post_ret. by destruct (sr_exhausted a).
  - destruct e; try apply post_raise. apply post_ret. destruct Hacc as (? & ? & ?). split; [done|]. split; [done|].
    by apply limits_union.
Qed.

Lemma beam_ok states limits :
  (forall st, st ∈ states -> search_ok st) -> (forall c, c ∈ limits -> limit_code_ok c = true) ->
  (forall st, st ∈ fst (beam manifest states limits) -> search_ok st) /\
  (forall c, c ∈ snd (beam manifest states limits) -> limit_code_ok c = true).
Proof.
  intros Hs Hl. assert (Hs' : forall st, st ∈ sortStates states -> search_ok st)
    by (intros st Hst; unfold sortStates in Hst; rewrite sort_slice_elem in Hst; by apply Hs).
  unfold beam. destruct (_ >? _); cbn [fst snd]; [|done]. split; [|by apply limits_union].
  intros st Hst. apply Hs'. apply list_elem_of_In in Hst. apply list_elem_of_In.
  rewrite <- (firstn_skipn (Z.to_nat (ms_BeamWidth (pm_Spec manifest)))). apply in_app_iff. by left.
Qed.

Lemma depth_loop_post turns frontier acc :
  (forall st, st ∈ frontier -> search_ok st) -> search_inv acc ->
  post (depth_loop manifest request byVersion seeds goals satisfied turns frontier acc)
    (fun r => search_inv (snd r)).
Proof using Hvi.
  revert frontier acc. induction turns as [|turns IH]; intros [|st frontier] acc Hf Hacc; cbn [depth_loop];
    try (by apply post_ret).
  destruct (sr_exhausted acc); [by apply post_ret|]. apply post_skip. intros _.
  eapply post_bind; [apply (post_loop_break _ search_inv)|].
  - destruct Hacc as (_ & ? & ?). split_and!; [intros s Hs; by apply not_elem_of_nil in Hs|done..].
  - intros s a Hs Ha. apply frontier_step_post; auto.
  - intros a (Hn & Hb & Hl). destruct (sr_exhausted a); [apply post_ret; by split_and!|].
    destruct (beam_ok (sr_next a) (sr_limits a) Hn Hl) as [Hnext Hlim]. destruct (beam _ _ _) as [next limits]. cbn [fst snd] in *.
    destruct (_ >=? _).
    + apply post_ret. cbn [snd]. split; [intros s Hs; by apply not_elem_of_nil in Hs|]. split; [done|]. by apply limits_union.
    + apply IH; [done|]. split_and!; [intros s Hs; by apply not_elem_of_nil in Hs|done..].
Qed.

(** What the planner returns: the plan of a search state with the limit codes. *)
Definition returned (plan : Plan) : Prop := exists state codes,
  search_ok state /\ Forall (fun c => limit_code_ok c = true) codes /\ strictSorted codes = true /\
  if 0 <? count codes then canonicalizePlan (limit_plan (st_plan state) codes) = Ok plan
  else plan = limit_plan (st_plan state) codes.

Lemma run_search_post : post (run_search manifest request byVersion seeds goals satisfied candidates) returned.
Proof using Hvi.
  unfold run_search. eapply post_bind; [apply (post_loop_break _ (fun acc =>
    (forall st, st ∈ sa_frontier acc -> search_ok st) /\ match sa_best acc with Some b => search_ok b | None => True end /\
    (forall code, code ∈ sa_limits acc -> limit_code_ok code = true)))|].
  - split_and!; [intros s Hs; by apply not_elem_of_nil in Hs|done|intros c Hc; by apply elem_of_empty in Hc].
  - intros c acc Hc (Hf & Hb & Hl). unfold seed_step. destruct (pc_Seed c); cbn [negb]; [|by apply post_ret].
    apply post_skip. intros [|]; cbn [negb]; [|apply post_ret; split; [done|]; split; [done|]; by apply limits_union].
    eapply post_bind; [apply post_try, buildSearchState_post|].
    + intros v ->%elem_of_singleton. apply list_elem_of_In, in_map_iff. exists c. split; [done|]. by apply list_elem_of_In.
    + rewrite size_singleton. pose proof (vi_spec _ _ _ _ _ Hvi) as Hs. unfold validPlannerSpec in Hs.
      rewrite !andb_true_iff, ?Z.ltb_lt in Hs. simpl in Hs. lia.
    + intros [st|e] Hst.
      * apply post_ret. split; [|split; [by apply pick_best_ok|done]].
        intros s [Hs| ->%list_elem_of_singleton]%elem_of_app; [by apply Hf|done].
      * destruct e; try apply post_raise. by apply post_ret.
  - intros acc (Hf & Hb & Hl). destruct (sa_best acc) as [best|]; [|apply post_raise].
    destruct (beam_ok _ _ Hf Hl) as [Hf' Hl']. destruct (beam _ _ _) as [frontier limits]. cbn [fst snd] in *.
    eapply post_bind; [apply depth_loop_post; [done|split_and!; [intros s Hs; by apply not_elem_of_nil in Hs|done..]]|].
    intros [frontier' a] (_ & Hbest & Hlim). cbn [snd] in *.
    set (codes := if _ : bool then _ else sr_limits a).
    assert (Hcodes : forall c, c ∈ codes -> limit_code_ok c = true) by (unfold codes; case_match; [by apply limits_union|done]).
    assert (Hne : "" ∉ codes) by (intros Hin%Hcodes; discriminate Hin).
    unfold finish_plan. apply post_skip. intros _. unfold returned. destruct (0 <? count (sortedSet codes)) eqn:Ec.
    + apply post_skip. intros _. eapply post_bind; [apply post_lift; intros p Hp; exact Hp|]. intros plan Hplan.
      apply post_skip. intros _. apply post_ret. exists (sr_best a), (sortedSet codes). rewrite Ec.
      split_and!; [done| |by apply sortedSet_strict|done]. apply Forall_forall. intros c Hc%sortedSet_elem. by apply Hcodes.
    + apply post_ret. exists (sr_best a), (sortedSet codes). rewrite Ec.
      split_and!; [done| |by apply sortedSet_strict|done]. apply Forall_forall. intros c Hc%sortedSet_elem. by apply Hcodes.
Qed.


(** ** The order of a state *)
Lemma state_order state ordered :
  topologicalOrder (st_nodeSet state) (inner_edges (st_nodeSet state)) = Ok ordered ->
  ordered ≡ₚ elements (st_nodeSet state) /\ NoDup ordered /\ forward (inner_edges (st_nodeSet state)) ordered.
Proof.
  intros Hord. destruct (topologicalOrder_sound _ _ (fun e He => proj2 (inner_edges_elem _ e He)) ordered Hord) as [Hp Hf].
  split; [done|]. split; [rewrite Hp; apply NoDup_elements|done].
Qed.

Lemma seed_versions_elem v :
  v ∈ List.map pc_VersionID candidates -> v ∈ seeds <-> pc_Seed (cand v) = true.
Proof using Hvi.
  intros Hv. destruct (candidate_at_in v Hv) as [Hin Hid].
  unfold seed_versions. rewrite sort_strings_elem, list_elem_of_In, in_map_iff. split.
  - intros (c & Hc & [Hcin Hseed]%filter_In). apply list_elem_of_In in Hcin.
    assert (Hu : find_key pc_VersionID v candidates = Some c)
      by (rewrite <- Hc; apply find_key_unique; [apply (vi_versions _ _ _ _ _ Hvi)|done]).
    assert (Hu' : find_key pc_VersionID v candidates = Some (cand v))
      by (rewrite <- Hid at 1; apply find_key_unique; [apply (vi_versions _ _ _ _ _ Hvi)|done]).
    rewrite Hu in Hu'. injection Hu' as Heq. by rewrite <- Heq.
  - intros Hs. exists (cand v). split; [done|]. apply filter_In. split; [by apply list_elem_of_In|done].
Qed.

(** Go's types and the length bound that identifiers meet elsewhere. *)
Hypothesis Htyped : Forall (fun c => in_u32 (pc_RiskCost c) /\ in_u32 (pc_ToolCost c) /\ str_len (pc_VersionID c) <= 1024)
  (pr_Candidates request).

Lemma cand_typed v : v ∈ List.map pc_VersionID candidates ->
  in_u32 (pc_ToolCost (cand v)) /\ safeIdentity v = true.
Proof using Hvi Htyped.
  intros Hv. destruct (gc_source _ _ (cand_good v Hv)) as (source & gl & par & Hin & _ & _ & Heq).
  destruct (proj1 (Forall_forall _ _) Htyped source Hin) as (_ & Ht & Hl).
  destruct (candidate_at_in v Hv) as [_ Hid]. pose proof (gc_id _ _ (cand_good v Hv)) as Hne.
  pose proof (gc_nul _ _ (cand_good v Hv)) as Hnul. rewrite Hid in Hne, Hnul.
  split; [by rewrite Heq|]. apply safeIdentity_spec. split_and!; [done| |done].
  rewrite <- Hid, Heq. done.
Qed.

Lemma nodes_ok_spec l k positions :
  NoDup l -> (forall v, v ∈ l -> v ∈ List.map pc_VersionID candidates) -> (forall v, v ∈ l -> positions !! v = None) ->
  exists positions', nodes_ok (sliceSet seeds) k positions (imap (fun i v => node_at byVersion (k + i) v) l) = Some positions' /\
    (forall v i, l !! i = Some v -> positions' !! v = Some (k + i)%nat) /\
    (forall v, v ∉ l -> positions' !! v = positions !! v).
Proof using Hvi Htyped.
  revert k positions. induction l as [|v l IH]; intros k positions Hn Hl Hp; simpl.
  { exists positions. split_and!; [done|intros v i Hi; by rewrite lookup_nil in Hi|done]. }
  inversion Hn as [|? ? Hv Hn']; subst. assert (Hvl := Hl v (list_elem_of_here _ _)).
  destruct (cand_typed v Hvl) as [_ Hsafe]. rewrite Nat.add_0_r.
  replace (node_ok (sliceSet seeds) k (node_at byVersion k v)) with true; cycle 1.
  { unfold node_ok, node_at. cbn [nd_Ordinal nd_VersionID nd_InterfaceHash nd_Bridge].
    rewrite Z.eqb_refl, Hsafe, (wi_hash _ (gc_interface _ _ (cand_good v Hvl))).
    assert (Hs : bool_decide (v ∈ sliceSet seeds) = pc_Seed (cand v)).
    { apply eq_true_iff_eq. rewrite bool_decide_eq_true. unfold sliceSet. rewrite elem_of_list_to_set. by apply seed_versions_elem. }
    rewrite Hs. by destruct (pc_Seed (cand v)). }
  cbn [negb nd_VersionID node_at]. rewrite (Hp v (list_elem_of_here _ _)). rewrite bool_decide_false by (by intros [? ?]).
  destruct (IH (S k) (<[v := k]> positions) Hn') as (positions' & Heq & Hin & Hout).
  { intros u Hu. apply Hl. by right. }
  { intros u Hu. rewrite lookup_insert_ne by (intros ->; done). apply Hp. by right. }
  exists positions'. split_and!.
  - rewrite <- Heq. f_equal. apply imap_ext. intros i u _. simpl. f_equal. lia.
  - intros u [|i] Hi; simpl in Hi; [injection Hi as <-; rewrite Hout by done; rewrite lookup_insert_eq; f_equal; lia|].
    rewrite (Hin u i Hi). f_equal. lia.
  - intros u Hu. apply not_elem_of_cons in Hu as [Hne Hu]. rewrite Hout by done. by rewrite lookup_insert_ne.
Qed.

(** ** Edges and dependencies *)
Lemma graph_edge_valid e : e ∈ cg_Edges (pr_Graph request) -> validateCompatibilityEdge e (pr_Graph request) = Ok tt.
Proof using Hvi. intros He. apply (proj1 (Forall_forall _ _) (wg_edges _ (vi_graph _ _ _ _ _ Hvi)) e He). Qed.

Lemma edge_valid_spec e g :
  validateCompatibilityEdge e g = Ok tt ->
  (exists hash, ce_ID e = ("cedge_" ++ hash)%string /\ sha256Pattern hash = true) /\
  strictPrefixed (ce_SourceProvisionIDs e) "prov_" = true /\ strictPrefixed (ce_SatisfiedRequirementIDs e) "req_" = true.
Proof.
  unfold validateCompatibilityEdge. destruct (_ || _) eqn:Eo; [done|]. intros _.
  rewrite !orb_false_iff, !negb_false_iff in Eo. destruct_and!. split; [|done]. exists (ce_ContentHash e).
  split; [by apply String.eqb_eq|done].
Qed.

Lemma inner_edges_ids nodes : StronglySorted str_lt (List.map ce_ID (inner_edges nodes)).
Proof using Hvi.
  unfold inner_edges. case_match; [constructor|]. apply sorted_NoDup_strict.
  - apply StronglySorted_on, (sort_slice_sorted (cmp_on ce_ID String.compare)).
  - unfold by_edge_id. rewrite (Permutation_map ce_ID (sort_slice_perm _ _)). apply NoDup_map_filter.
    apply StronglySorted_str_lt_NoDup, (wg_ids _ (vi_graph _ _ _ _ _ Hvi)).
Qed.

Lemma sorted_edge_ids nodes : sort_strings (List.map ce_ID (inner_edges nodes)) = List.map ce_ID (inner_edges nodes).
Proof using Hvi.
  apply (sort_slice_id String.compare), str_sorted_le, inner_edges_ids.
Qed.

Lemma dependencies_ok_spec positions edges :
  (forall e, e ∈ edges -> exists s t, positions !! ce_SourceVersionID e = Some s /\
     positions !! ce_TargetVersionID e = Some t /\ (s < t)%nat /\
     strictPrefixed (ce_SourceProvisionIDs e) "prov_" = true /\ strictPrefixed (ce_SatisfiedRequirementIDs e) "req_" = true) ->
  dependencies_ok positions (List.map ce_ID edges) (List.map edge_dependency edges) = true.
Proof.
  induction edges as [|e l IH]; intros Hall; simpl; [done|]. unfold dependency_ok at 1.
  cbn [edge_dependency dp_CompatibilityEdgeID dp_SourceVersionID dp_TargetVersionID dp_SourceProvisionIDs dp_SatisfiedRequirementIDs].
  destruct (Hall e (list_elem_of_here _ _)) as (s & t & -> & -> & Hlt & -> & ->). rewrite str_eqb_refl.
  rewrite (proj2 (Nat.ltb_lt _ _) Hlt). simpl. apply IH. intros e' He'. apply Hall. by right.
Qed.

(** ** Gaps *)
Lemma hex_no_nul h : sha256Pattern h = true -> has_nul h = false.
Proof.
  unfold sha256Pattern, has_nul, contains_byte. rewrite andb_true_iff, forallb_forall. intros [_ Hh].
  apply not_true_iff_false. rewrite existsb_exists. intros (a & Ha & Hz%Z.eqb_eq). specialize (Hh a Ha).
  unfold is_lower_hex in Hh. rewrite Hz in Hh. done.
Qed.

Lemma gapKey_inj g g' :
  has_nul (gp_Code g) = false -> has_nul (gp_Code g') = false ->
  has_nul (gp_VersionID g) = false -> has_nul (gp_VersionID g') = false ->
  has_nul (gp_RequirementID g) = false -> has_nul (gp_RequirementID g') = false ->
  gapKey g = gapKey g' -> g = g'.
Proof.
  intros Hc Hc' Hv Hv' Hr Hr' Hk. destruct g as [v r goal c], g' as [v' r' goal' c']. unfold gapKey in Hk.
  cbn [gp_Code gp_VersionID gp_RequirementID gp_GoalPredicateID] in *.
  apply nul_join_inj in Hk as [-> Hk]; [|done..]. apply nul_join_inj in Hk as [-> Hk]; [|done..].
  by apply nul_join_inj in Hk as [-> ->]; [|done..].
Qed.

Lemma gaps_ok_spec gaps :
  StronglySorted str_lt (List.map gapKey gaps) -> Forall (fun g => gap_ok g = true) gaps -> gaps_ok None gaps = true.
Proof.
  assert (Hgen : forall gaps prev, StronglySorted str_lt (List.map gapKey gaps) -> Forall (fun g => gap_ok g = true) gaps ->
    match prev with Some p => Forall (fun g => str_lt (gapKey p) (gapKey g)) gaps | None => True end -> gaps_ok prev gaps = true).
  { clear gaps. induction gaps as [|g l IH]; intros prev Hs Hf Hp; simpl; [done|].
    inversion Hs as [|? ? Hs' Hlt]; subst. inversion Hf as [|? ? Hg Hf']; subst. rewrite Hg.
    replace (match prev with Some p => str_ltb (gapKey p) (gapKey g) | None => true end) with true;
      [|destruct prev as [p|]; [by inversion Hp|done]].
    simpl. apply IH; [done|done|]. by rewrite List.Forall_map in Hlt. }
  intros. by apply Hgen.
Qed.

Section gaps.
Context (l : list string) (met covered : gset string).
Hypothesis Hl : forall v, v ∈ l -> v ∈ List.map pc_VersionID candidates.
Hypothesis Hn : NoDup l.

Definition all_gaps : list PlanGap :=
  flat_map (fun v => requirement_gaps met v (pi_Requirements (pc_Interface (cand v)))) l ++ goal_gaps covered goals.

Lemma all_gaps_elem g :
  g ∈ all_gaps <->
  (exists v r, v ∈ l /\ r ∈ pi_Requirements (pc_Interface (cand v)) /\ rq_ID r ∉ met /\
     g = mk_PlanGap v (rq_ID r) "" "unsatisfied_requirement") \/
  (exists goal, goal ∈ goals /\ goal ∉ covered /\ g = mk_PlanGap "" "" goal "uncovered_goal").
Proof using.
  unfold all_gaps. rewrite elem_of_app. f_equiv.
  - rewrite list_elem_of_In, in_flat_map. split.
    + intros (v & Hv & Hg). apply in_map_iff in Hg as (r & <- & [Hr Hm]%filter_In).
      apply negb_true_iff, bool_decide_eq_false in Hm. exists v, r. split_and!; [by apply list_elem_of_In..|done|done].
    + intros (v & r & Hv & Hr & Hm & ->). exists v. split; [by apply list_elem_of_In|]. apply in_map_iff. exists r.
      split; [done|]. apply filter_In. split; [by apply list_elem_of_In|]. by rewrite bool_decide_false.
  - unfold goal_gaps. rewrite list_elem_of_In, in_map_iff. split.
    + intros (goal & <- & [Hg Hm]%filter_In). apply negb_true_iff, bool_decide_eq_false in Hm.
      exists goal. split_and!; [by apply list_elem_of_In|done|done].
    + intros (goal & Hg & Hm & ->). exists goal. split; [done|]. apply filter_In. split; [by apply list_elem_of_In|].
      by rewrite bool_decide_false.
Qed.

Lemma requirement_id_clean v r :
  v ∈ l -> r ∈ pi_Requirements (pc_Interface (cand v)) -> rq_ID r <> ""%string /\ has_nul (rq_ID r) = false.
Proof using Hvi Hl.
  intros Hv Hr. pose proof (gc_interface _ _ (cand_good v (Hl v Hv))) as Hw.
  destruct (wr_id _ (proj1 (Forall_forall _ _) (wi_requirements _ Hw) r Hr)) as (h & -> & Hh).
  split; [done|]. exact (hex_no_nul h Hh).
Qed.

Lemma all_gaps_ok g : g ∈ all_gaps ->
  gap_ok g = true /\ has_nul (gp_Code g) = false /\ has_nul (gp_VersionID g) = false /\ has_nul (gp_RequirementID g) = false.
Proof using Hvi Hl.
  intros [(v & r & Hv & Hr & _ & ->)|(goal & Hg & _ & ->)]%all_gaps_elem.
  - destruct (requirement_id_clean v r Hv Hr) as [Hne Hnul]. pose proof (cand_good v (Hl v Hv)) as Hc.
    destruct (candidate_at_in v (Hl v Hv)) as [_ Hid]. pose proof (gc_id _ _ Hc) as Hvne. pose proof (gc_nul _ _ Hc) as Hvnul.
    rewrite Hid in Hvne, Hvnul. cbn [gp_Code gp_VersionID gp_RequirementID]. split_and!; [|done..]. unfold gap_ok, empty. simpl.
    by rewrite (proj2 (str_eqb_false _ _) Hvne), (proj2 (str_eqb_false _ _) Hne).
  - split_and!; [|done..]. unfold gap_ok, empty. simpl.
    destruct (normalizedIDs_spec _ _ _ (vi_goals _ _ _ _ _ Hvi)) as (_ & Hsafe & _).
    pose proof (proj1 (Forall_forall _ _) Hsafe goal Hg) as Hs. apply safeIdentity_spec in Hs as (Hne & _).
    by rewrite (proj2 (str_eqb_false _ _) Hne).
Qed.

Lemma requirement_gaps_nodup v : v ∈ List.map pc_VersionID candidates ->
  NoDup (requirement_gaps met v (pi_Requirements (pc_Interface (cand v)))).
Proof using Hvi.
  intros Hv. pose proof (wi_requirement_ids _ (gc_interface _ _ (cand_good v Hv))) as Hs.
  apply StronglySorted_str_lt_NoDup in Hs. unfold requirement_gaps.
  apply (NoDup_map_filter rq_ID (fun r => negb (bool_decide (rq_ID r ∈ met)))) in Hs.
  rewrite <- (List.map_map rq_ID (fun id => mk_PlanGap v id "" "unsatisfied_requirement")).
  apply NoDup_map_on; [|done]. intros x y _ _ [= ->]. done.
Qed.

Lemma all_gaps_nodup : NoDup all_gaps.
Proof using Hvi Hl Hn.
  unfold all_gaps. rewrite NoDup_app. split_and!.
  - clear -Hvi Hl Hn. induction l as [|v l' IH]; simpl; [constructor|]. inversion Hn as [|? ? Hv Hn']; subst.
    rewrite NoDup_app. split; [apply requirement_gaps_nodup, Hl; left|]. split.
    + intros g Hg Hg'. apply list_elem_of_In, in_map_iff in Hg as (r & <- & _).
      apply list_elem_of_In, in_flat_map in Hg' as (u & Hu & Hg'). apply in_map_iff in Hg' as (r' & [= -> _] & _).
      by apply list_elem_of_In in Hu.
    + apply IH; [|done]. intros u Hu. apply Hl. by right.
  - intros g Hg Hg'. apply list_elem_of_In, in_flat_map in Hg as (v & _ & Hg). apply in_map_iff in Hg as (r & <- & _).
    by apply list_elem_of_In, in_map_iff in Hg' as (goal & [=] & _).
  - unfold goal_gaps. apply NoDup_map_on; [by intros x y _ _ [= ->]|]. rewrite <- (List.map_id (List.filter _ _)).
    apply NoDup_map_filter. rewrite List.map_id.
    destruct (normalizedIDs_spec _ _ _ (vi_goals _ _ _ _ _ Hvi)) as (Hs & _). apply strictSorted_spec in Hs as [Hs _].
    by apply StronglySorted_str_lt_NoDup.
Qed.

Lemma sorted_gaps_ok : gaps_ok None (sort_gaps all_gaps) = true.
Proof using Hvi Hl Hn.
  apply gaps_ok_spec.
  - apply sorted_NoDup_strict; [apply StronglySorted_on, (sort_slice_sorted (cmp_on gapKey String.compare))|].
    unfold sort_gaps. rewrite (Permutation_map gapKey (sort_slice_perm _ _)). apply NoDup_map_on; [|apply all_gaps_nodup].
    intros g g' (_ & ? & ? & ?)%all_gaps_ok (_ & ? & ? & ?)%all_gaps_ok. by apply gapKey_inj.
  - apply Forall_forall. intros g Hg. unfold sort_gaps in Hg. rewrite sort_slice_elem in Hg. by apply all_gaps_ok.
Qed.

End gaps.

(** ** The returned plan is valid *)
Record plan_body (p : Plan) : Prop := {
  pb_version : p_SchemaVersion p = "composition-plan.v1"%string;
  pb_tenant : p_TenantID p <> ""%string;
  pb_epoch : p_ProjectionEpoch p <> 0;
  pb_planner : p_PlannerManifestID p <> ""%string;
  pb_policy : p_PolicyManifestID p <> ""%string;
  pb_graph : p_CompatibilityGraphID p = ("cgraph_" ++ p_CompatibilityGraphHash p)%string;
  pb_hashes : sha256Pattern (p_CompatibilityGraphHash p) = true /\ sha256Pattern (p_CompatibilityMatrixHash p) = true /\
    sha256Pattern (p_CandidateSetHash p) = true;
  pb_nonempty : p_Nodes p <> [] /\ p_RequestedGoalPredicateIDs p <> [] /\ p_SeedVersionIDs p <> [];
  pb_tool : p_ToolCost p <> 0;
  pb_strength : 0 <= p_EvidenceStrength p;
  pb_sorted : Forall (fun l => strictSorted l = true) [p_RequestedGoalPredicateIDs p; p_SeedVersionIDs p;
    p_ExternallySatisfiedRequirementIDs p; p_SatisfiedRequirementIDs p; p_ProducedResourceIDs p;
    p_CoveredGoalPredicateIDs p; p_LimitCodes p];
  pb_edges : strictPrefixed (p_CompatibilityEdgeIDs p) "cedge_" = true;
  pb_complete : p_Complete p = (count (p_Gaps p) =? 0);
  pb_nodes : exists positions, nodes_ok (sliceSet (p_SeedVersionIDs p)) 0 ∅ (p_Nodes p) = Some positions /\
    dependencies_ok positions (p_CompatibilityEdgeIDs p) (p_Dependencies p) = true;
  pb_count : count (p_Dependencies p) = count (p_CompatibilityEdgeIDs p);
  pb_covered : forall goal, goal ∈ p_CoveredGoalPredicateIDs p -> goal ∈ p_RequestedGoalPredicateIDs p;
  pb_limits : Forall (fun c => limit_code_ok c = true) (p_LimitCodes p);
  pb_gaps : gaps_ok None (p_Gaps p) = true
}.

Lemma count_zero {A} (l : list A) : l <> [] -> (count l =? 0) = false.
Proof. intros Hne. apply Z.eqb_neq. unfold count. destruct l; [done|simpl; lia]. Qed.

Lemma ValidatePlan_intro p :
  plan_body p -> p_ID p = ("plan_" ++ p_ContentHash p)%string -> sha256Pattern (p_ContentHash p) = true ->
  sealed_as (plan_json (seal_plan p "" "" "")) (p_ContentHash p) (p_CanonicalJSON p) = true -> ValidatePlan p = Ok tt.
Proof.
  intros [] Hid Hh Hse. unfold ValidatePlan. rewrite pb_version0, Hid, !str_eqb_refl, Hh, Hse. cbn [negb orb].
  destruct pb_hashes0 as (Hh1 & Hh2 & Hh3), pb_nonempty0 as (Hn1 & Hn2 & Hn3).
  rewrite !Forall_cons in pb_sorted0. destruct pb_sorted0 as (Hs1 & Hs2 & Hs3 & Hs4 & Hs5 & Hs6 & Hs7 & _). unfold empty.
  rewrite (proj2 (str_eqb_false _ _) pb_tenant0), (proj2 (Z.eqb_neq _ _) pb_epoch0), (proj2 (str_eqb_false _ _) pb_planner0),
    (proj2 (str_eqb_false _ _) pb_policy0), pb_graph0, str_eqb_refl, Hh1, Hh2, Hh3, !count_zero by done.
  rewrite (proj2 (Z.eqb_neq _ _) pb_tool0), (proj2 (Z.ltb_ge _ _) pb_strength0), Hs1, Hs2, Hs3, Hs4, Hs5, Hs6, Hs7, pb_edges0,
    pb_complete0, eqb_reflx, andb_false_r. cbn [negb orb].
  destruct pb_nodes0 as (positions & -> & ->). rewrite pb_count0, Z.eqb_refl. cbn [negb].
  replace (forallb _ (p_CoveredGoalPredicateIDs p)) with true.
  - replace (forallb limit_code_ok (p_LimitCodes p)) with true; [by rewrite pb_gaps0|].
    symmetry. apply forallb_forall. intros c Hc%list_elem_of_In. by apply (proj1 (Forall_forall _ _) pb_limits0).
  - symmetry. apply forallb_forall. intros g Hg%list_elem_of_In. apply bool_decide_eq_true. unfold sliceSet.
    apply elem_of_list_to_set. by apply pb_covered0.
Qed.

Lemma plan_body_seal p id hash text : plan_body p -> plan_body (seal_plan p id hash text).
Proof. intros []. by constructor. Qed.

Lemma canonicalizePlan_inv p q :
  canonicalizePlan p = Ok q -> exists text hash, MarshalAndHash (plan_json (seal_plan p "" "" "")) = Ok (text, hash) /\
    q = seal_plan p ("plan_" ++ hash) hash text.
Proof.
  unfold canonicalizePlan. destruct (MarshalAndHash _) as [[text hash]|]; [|done]. intros [= <-]. by exists text, hash.
Qed.

Lemma canonicalizePlan_valid p q : canonicalizePlan p = Ok q -> plan_body p -> ValidatePlan q = Ok tt.
Proof.
  intros (text & hash & Hm & ->)%canonicalizePlan_inv Hb. apply ValidatePlan_intro.
  - by apply plan_body_seal.
  - done.
  - by eapply MarshalAndHash_pattern.
  - unfold sealed_as. cbn [p_ContentHash p_CanonicalJSON seal_plan].
    change (seal_plan (seal_plan p ("plan_" ++ hash) hash text) "" "" "") with (seal_plan p "" "" "").
    rewrite Hm. by rewrite !str_eqb_refl.
Qed.

Lemma zsum_tools l :
  (forall v, v ∈ l -> v ∈ List.map pc_VersionID candidates) ->
  Z.of_nat (length l) <= zsum (fun v => pc_ToolCost (cand v)) l <= Z.of_nat (length l) * MaxUint32.
Proof using Hvi Htyped.
  induction l as [|v l IH]; intros Hl; [by unfold_widths|]. cbn [zsum foldr length].
  assert (Hv := Hl v (list_elem_of_here _ _)). destruct (cand_typed v Hv) as [Ht _].
  pose proof (gc_tool _ _ (cand_good v Hv)) as Hne. unfold in_u32 in Ht.
  specialize (IH (fun u Hu => Hl u (list_elem_of_further _ _ _ Hu))). unfold zsum in IH. lia.
Qed.

Lemma spec_bounds : ms_MaximumProcedures (pm_Spec manifest) <= 32 /\ 0 <= ms_NoveltyPenalty (pm_Spec manifest) /\
  0 <= ms_UnobservedEdgePenalty (pm_Spec manifest).
Proof using Hvi.
  pose proof (vi_spec _ _ _ _ _ Hvi) as Hs. unfold validPlannerSpec in Hs. rewrite !andb_true_iff, ?Z.ltb_lt, ?Z.leb_le in Hs.
  simpl in Hs. lia.
Qed.

Lemma seeds_ok : seeds <> [] /\ strictSorted seeds = true.
Proof using Hvi.
  split.
  - destruct (vi_seed _ _ _ _ _ Hvi) as (c & Hc & Hs). intros Hnil.
    assert (Hin : pc_VersionID c ∈ seeds).
    { unfold seed_versions. apply sort_strings_elem, list_elem_of_In, in_map_iff. exists c. split; [done|].
      apply filter_In. split; [by apply list_elem_of_In|done]. }
    rewrite Hnil in Hin. by apply not_elem_of_nil in Hin.
  - apply sort_strings_strict; [apply NoDup_map_filter, (vi_versions _ _ _ _ _ Hvi)|].
    intros (c & Hc & [Hin _]%filter_In)%list_elem_of_In%in_map_iff.
    by apply (gc_id _ _ (proj1 (Forall_forall _ _) (vi_candidates _ _ _ _ _ Hvi) c (proj2 (list_elem_of_In _ _) Hin))).
Qed.

Lemma forward_positions edges l (positions : gmap string nat) e :
  forward edges l -> (forall v i, l !! i = Some v -> positions !! v = Some (0 + i)%nat) -> e ∈ edges ->
  exists s t, positions !! ce_SourceVersionID e = Some s /\ positions !! ce_TargetVersionID e = Some t /\ (s < t)%nat.
Proof.
  intros Hf Hpos He. destruct (Hf e He) as (b & c & a & ->). exists (length b), (length b + S (length c))%nat. split_and!.
  - apply (Hpos _ (length b)). by rewrite list_lookup_middle.
  - apply (Hpos _ (length b + S (length c))%nat). rewrite lookup_app_r by lia.
    replace (length b + S (length c) - length b)%nat with (S (length c)) by lia. simpl. by rewrite list_lookup_middle.
  - lia.
Qed.

Lemma search_ok_body state codes :
  search_ok state -> Forall (fun c => limit_code_ok c = true) codes -> strictSorted codes = true ->
  plan_body (limit_plan (st_plan state) codes).
Proof using Hvi Htyped.
  intros [Hnodes Hsize (ordered & acc & strength & Hord & -> & Hbr & Htc & (penalty & Hpen & ->) & Hcan)] Hcodes Hsorted.
  destruct (canonicalizePlan_inv _ _ Hcan) as (text & hash & _ & ->). clear Hcan.
  destruct (state_order state ordered Hord) as (Hperm & Hnd & Hfw). set (edges := inner_edges (st_nodeSet state)) in *.
  set (sat := satisfied_set satisfied edges) in *. set (acc := foldl _ _ _) in *.
  assert (Hin : forall v, v ∈ ordered -> v ∈ List.map pc_VersionID candidates).
  { intros v Hv. rewrite Hperm, elem_of_elements in Hv. by apply Hnodes. }
  assert (Hlen : length ordered = size (st_nodeSet state)) by (rewrite Hperm; done).
  destruct spec_bounds as (Hmp & Hnp & Hup). destruct seeds_ok as [Hse1 Hse2]. pose proof (zsum_tools ordered Hin) as Htool.
  destruct (run_strength byVersion (sliceSet goals) sat ordered) as [Hst _];
    [intros v Hv; apply (gc_strength _ _ (cand_good v (Hin v Hv)))|]. fold acc in Hst.
  pose proof (vi_graph _ _ _ _ _ Hvi) as Hg. destruct (normalizedIDs_spec _ _ _ (vi_goals _ _ _ _ _ Hvi)) as (Hgs & _ & Hgne & _).
  destruct (normalizedIDs_spec _ _ _ (vi_satisfied _ _ _ _ _ Hvi)) as (Hss & _).
  assert (Hedge : forall e, e ∈ edges -> validateCompatibilityEdge e (pr_Graph request) = Ok tt).
  { intros e He. apply graph_edge_valid. by apply inner_edges_elem in He as [? _]. }
  assert (Hids := sorted_edge_ids (st_nodeSet state)). fold edges in Hids.
  constructor; cbn [limit_plan seal_plan draft_plan p_SchemaVersion p_TenantID p_ProjectionEpoch p_PlannerManifestID
    p_PolicyManifestID p_CompatibilityGraphID p_CompatibilityGraphHash p_CompatibilityMatrixHash p_CandidateSetHash p_Nodes
    p_Dependencies p_CompatibilityEdgeIDs p_ExternallySatisfiedRequirementIDs p_SatisfiedRequirementIDs p_ProducedResourceIDs
    p_CoveredGoalPredicateIDs p_RequestedGoalPredicateIDs p_SeedVersionIDs p_Gaps p_LimitCodes p_Complete p_EvidenceStrength
    p_ToolCost]; try done; try apply Hvi; try apply Hg.
  - split_and!; apply Hg.
  - split_and!; [|by apply Hgne|done]. unfold acc. rewrite run_nodes. intros Hnil. apply (f_equal length) in Hnil.
    rewrite length_imap in Hnil. simpl in Hnil. lia.
  - unfold acc. rewrite run_tool, wrap_u64_id by (unfold_widths; lia). lia.
  - eapply penalised_nonneg; [..|exact Hpen]; try done; [unfold acc; rewrite run_bridges|unfold unobserved_edges]; apply count_nonneg.
  - repeat apply Forall_cons_2; try done; try apply sortedSet_strict.
    + intros Hin'. unfold sat in Hin'. apply satisfied_set_elem in Hin' as [Hx|(e & He & Hx)].
      * apply strictSorted_spec in Hss as [_ Hss]. done.
      * destruct (edge_valid_spec _ _ (Hedge e He)) as (_ & _ & Hreq). apply strictPrefixed_strict, strictSorted_spec in Hreq as [_ Hreq]. done.
    + unfold acc. rewrite run_produced. intros (v & Hv & Hx). apply list_elem_of_In, in_map_iff in Hx as (pv & Hpv & Hpin).
      pose proof (gc_interface _ _ (cand_good v (Hin v Hv))) as Hw.
      destruct (wp_id _ (proj1 (Forall_forall _ _) (wi_provisions _ Hw) pv (proj2 (list_elem_of_In _ _) Hpin))) as (h & Hh & _).
      by rewrite Hh in Hpv.
    + unfold acc. rewrite run_covered. intros [Hx _]. unfold sliceSet in Hx. apply elem_of_list_to_set in Hx.
      apply strictSorted_spec in Hgs as [_ Hgs]. done.
  - rewrite Hids. apply strictPrefixed_intro.
    + apply strictSorted_spec. split; [apply inner_edges_ids|].
      intros (e & Heq & He)%list_elem_of_In%in_map_iff. apply list_elem_of_In in He.
      destruct (edge_valid_spec _ _ (Hedge e He)) as ((h & Hh & _) & _). by rewrite Hh in Heq.
    + intros x (e & <- & He)%list_elem_of_In%in_map_iff. apply list_elem_of_In in He. apply (edge_valid_spec _ _ (Hedge e He)).
  - destruct (nodes_ok_spec ordered 0 ∅ Hnd Hin) as (positions & Hok & Hpos & _); [intros; apply lookup_empty|].
    exists positions. split; [unfold acc; rewrite run_nodes; exact Hok|]. rewrite Hids. apply dependencies_ok_spec.
    intros e He. destruct (forward_positions _ _ _ _ Hfw Hpos He) as (s & t & ? & ? & ?). exists s, t.
    destruct (edge_valid_spec _ _ (Hedge e He)) as (_ & ? & ?). done.
  - unfold count. by rewrite sort_strings_length, !List.length_map.
  - intros goal Hx%sortedSet_elem. unfold acc in Hx. apply run_covered in Hx as [Hx _]. unfold sliceSet in Hx.
    by apply elem_of_list_to_set in Hx.
  - unfold acc at 1. rewrite run_gaps. by apply (sorted_gaps_ok ordered sat (na_covered acc)).
Qed.

Lemma returned_valid plan : returned plan -> ValidatePlan plan = Ok tt.
Proof using Hvi Htyped.
  intros (state & codes & Hst & Hc & Hs & Hplan). pose proof (search_ok_body state codes Hst Hc Hs) as Hb.
  destruct (Z.ltb_spec 0 (count codes)); [by eapply canonicalizePlan_valid|].
  assert (codes = []) as -> by (destruct codes; [done|unfold count in *; simpl in *; lia]).
  destruct Hst as [_ _ (ordered & acc & strength & _ & _ & _ & _ & _ & Hcan)].
  assert (Heq : limit_plan (st_plan state) [] = st_plan state).
  { destruct (canonicalizePlan_inv _ _ Hcan) as (text & hash & _ & ->). done. }
  rewrite Hplan, Heq in *. eapply canonicalizePlan_valid; [exact Hcan|].
  destruct (canonicalizePlan_inv _ _ Hcan) as (text & hash & _ & Hq). rewrite Hq in Hb.
  apply (plan_body_seal _ "" "" "") in Hb. exact Hb.
Qed.

(** ** What a plan says *)
Record plan_sound (plan : Plan) : Prop := {
  ps_distinct : NoDup (List.map nd_VersionID (p_Nodes plan));
  ps_size : 1 <= count (p_Nodes plan) <= ms_MaximumProcedures (pm_Spec manifest);
  ps_bridges : count (List.filter nd_Bridge (p_Nodes plan)) <= ms_MaximumBridges (pm_Spec manifest);
  ps_nodes : forall n, n ∈ p_Nodes plan -> exists c, c ∈ pr_Candidates request /\ pc_VersionID c = nd_VersionID n /\
    pc_Eligible c = true /\ nd_Bridge n = negb (pc_Seed c) /\ nd_InterfaceHash n = pi_ContentHash (pc_Interface c);
  ps_dependencies : forall d, d ∈ p_Dependencies plan <-> exists e, e ∈ cg_Edges (pr_Graph request) /\
    ce_SourceVersionID e ∈ List.map nd_VersionID (p_Nodes plan) /\
    ce_TargetVersionID e ∈ List.map nd_VersionID (p_Nodes plan) /\ d = edge_dependency e;
  ps_order : forall d, d ∈ p_Dependencies plan -> exists before between after,
    List.map nd_VersionID (p_Nodes plan) = before ++ dp_SourceVersionID d :: between ++ dp_TargetVersionID d :: after;
  ps_goals : p_Complete plan = true -> forall goal, goal ∈ List.map TrimSpace (pr_GoalPredicateIDs request) ->
    exists n c, n ∈ p_Nodes plan /\ c ∈ pr_Candidates request /\ pc_VersionID c = nd_VersionID n /\
      goal ∈ List.map TrimSpace (pc_GoalPredicateIDs c);
  ps_requirements : p_Complete plan = true -> forall n c r, n ∈ p_Nodes plan -> c ∈ pr_Candidates request ->
    pc_VersionID c = nd_VersionID n -> r ∈ pi_Requirements (pc_Interface c) ->
    rq_ID r ∈ List.map TrimSpace (pr_SatisfiedRequirementIDs request) \/
    exists d, d ∈ p_Dependencies plan /\ rq_ID r ∈ dp_SatisfiedRequirementIDs d
}.

Lemma plan_sound_limit plan codes : plan_sound plan -> plan_sound (limit_plan plan codes).
Proof. intros []. by constructor. Qed.

Lemma plan_sound_seal plan id hash text : plan_sound plan -> plan_sound (seal_plan plan id hash text).
Proof. intros []. by constructor. Qed.

Hypothesis Hunique : NoDup (List.map pc_VersionID (pr_Candidates request)).

Lemma cand_source c v :
  c ∈ pr_Candidates request -> pc_VersionID c = v -> v ∈ List.map pc_VersionID candidates ->
  exists gl par, normalizedIDs (pc_GoalPredicateIDs c) true = Some gl /\ cand v = normalized_candidate c gl par.
Proof using Hvi Hunique.
  intros Hc Hv Hin. destruct (gc_source _ _ (cand_good v Hin)) as (source & gl & par & Hs & Hgl & _ & Heq).
  destruct (candidate_at_in v Hin) as [_ Hid]. rewrite Heq in Hid. simpl in Hid.
  assert (Hf : find_key pc_VersionID v (pr_Candidates request) = Some source)
    by (rewrite <- Hid; by apply find_key_unique).
  assert (Hf' : find_key pc_VersionID v (pr_Candidates request) = Some c)
    by (rewrite <- Hv; by apply find_key_unique).
  rewrite Hf in Hf'. injection Hf' as ->. by exists gl, par.
Qed.

Lemma inner_edges_all nodes e :
  (forall v, v ∈ nodes -> v ∈ List.map pc_VersionID candidates) ->
  e ∈ cg_Edges (pr_Graph request) -> ce_SourceVersionID e ∈ nodes -> ce_TargetVersionID e ∈ nodes ->
  e ∈ inner_edges nodes.
Proof using Hvi.
  intros _ He Hs Ht. unfold inner_edges. destruct (Nat.ltb_spec (size nodes) 2) as [Hlt|Hge].
  - exfalso. pose proof (graph_edge_valid e He) as Hv. unfold validateCompatibilityEdge in Hv.
    destruct (_ || _) eqn:Eo; [done|]. rewrite !orb_false_iff, !negb_false_iff in Eo. destruct_and!.
    assert (Hne : ce_SourceVersionID e <> ce_TargetVersionID e) by (by apply str_eqb_false).
    assert (Hsub : ({[ce_SourceVersionID e; ce_TargetVersionID e]} : gset string) ⊆ nodes)
      by (clear -Hs Ht; set_solver).
    apply subseteq_size in Hsub. rewrite size_union, !size_singleton in Hsub by (clear -Hne; set_solver). lia.
  - unfold by_edge_id. rewrite sort_slice_elem, list_elem_of_In, filter_In. split; [by apply list_elem_of_In|].
    unfold has_node. by rewrite !bool_decide_true.
Qed.

Lemma imap_versions l : List.map nd_VersionID (imap (node_at byVersion) l) = l.
Proof. induction l as [|v l IH] using rev_ind; [done|]. by rewrite imap_app, List.map_app, IH. Qed.

Lemma imap_bridges l : count (List.filter nd_Bridge (imap (node_at byVersion) l)) = count (List.filter (fun v => negb (pc_Seed (cand v))) l).
Proof.
  unfold count. induction l as [|v l IH] using rev_ind; [done|]. rewrite imap_app, !List.filter_app, !length_app. simpl.
  destruct (pc_Seed (cand v)); simpl; lia.
Qed.

Lemma imap_node n l : n ∈ imap (node_at byVersion) l -> exists i v, v ∈ l /\ n = node_at byVersion i v.
Proof.
  intros (i & Hi)%list_elem_of_lookup_1. rewrite list_lookup_imap in Hi.
  destruct (l !! i) as [v|] eqn:Ev; [|done]. injection Hi as <-. exists i, v. split; [by eapply list_elem_of_lookup_2|done].
Qed.

Lemma draft_sound state ordered strength :
  (forall v, v ∈ st_nodeSet state -> v ∈ List.map pc_VersionID candidates) ->
  1 <= Z.of_nat (size (st_nodeSet state)) <= ms_MaximumProcedures (pm_Spec manifest) ->
  topologicalOrder (st_nodeSet state) (inner_edges (st_nodeSet state)) = Ok ordered ->
  let sat := satisfied_set satisfied (inner_edges (st_nodeSet state)) in
  let acc := foldl (add_node byVersion (sliceSet goals) sat) empty_nodeAcc ordered in
  na_bridges acc <= ms_MaximumBridges (pm_Spec manifest) ->
  plan_sound (draft_plan manifest request seeds goals satisfied (inner_edges (st_nodeSet state)) sat acc strength).
Proof using Hvi Hunique.
  intros Hnodes Hsize Hord sat acc Hbr. destruct (state_order state ordered Hord) as (Hperm & Hnd & Hfw).
  set (edges := inner_edges (st_nodeSet state)) in *.
  assert (Hel : forall v, v ∈ ordered <-> v ∈ st_nodeSet state) by (intros v; by rewrite Hperm, elem_of_elements).
  assert (Hin : forall v, v ∈ ordered -> v ∈ List.map pc_VersionID candidates) by (intros v Hv; by apply Hnodes, Hel).
  assert (Hlen : length ordered = size (st_nodeSet state)) by (by rewrite Hperm).
  assert (Hns : na_nodes acc = imap (node_at byVersion) ordered) by apply run_nodes.
  assert (Hgap : (count (sort_gaps (na_gaps acc ++ goal_gaps (na_covered acc) goals)) =? 0) = true ->
    forall g, g ∉ all_gaps ordered sat (na_covered acc)).
  { intros Hz g Hg. apply Z.eqb_eq in Hz. unfold acc in Hz at 1. rewrite run_gaps in Hz.
    fold (all_gaps ordered sat (na_covered acc)) in Hz. unfold count, sort_gaps in Hz. rewrite sort_slice_length in Hz.
    destruct (all_gaps _ _ _); [by apply not_elem_of_nil in Hg|simpl in Hz; lia]. }
  constructor; cbn [draft_plan p_Nodes p_Dependencies p_Complete]; rewrite ?Hns, ?imap_versions, ?imap_bridges; try done.
  - unfold count. rewrite length_imap. lia.
  - unfold acc in Hbr. by rewrite run_bridges in Hbr.
  - intros n (i & v & Hv & ->)%imap_node. destruct (gc_source _ _ (cand_good v (Hin v Hv))) as (source & gl & par & Hs & _ & _ & Heq).
    destruct (candidate_at_in v (Hin v Hv)) as [_ Hid]. pose proof (gc_eligible _ _ (cand_good v (Hin v Hv))) as He.
    exists source. unfold node_at. cbn [nd_VersionID nd_Bridge nd_InterfaceHash]. rewrite Heq in *. by split_and!.
  - intros d. rewrite list_elem_of_In, in_map_iff. split.
    + intros (e & <- & He). apply list_elem_of_In in He. apply inner_edges_elem in He as (He & Hs & Ht). exists e. by rewrite !Hel.
    + intros (e & He & Hs & Ht & ->). exists e. split; [done|]. apply list_elem_of_In. rewrite Hel in Hs, Ht. by apply inner_edges_all.
  - intros d (e & <- & He)%list_elem_of_In%in_map_iff. apply list_elem_of_In in He. apply (Hfw e He).
  - intros Hz goal Hg. destruct (normalizedIDs_spec _ _ _ (vi_goals _ _ _ _ _ Hvi)) as (_ & _ & _ & Hgl). apply Hgl in Hg.
    assert (Hcov : goal ∈ na_covered acc).
    { destruct (decide (goal ∈ na_covered acc)) as [|Hno]; [done|]. exfalso.
      eapply (Hgap Hz). apply all_gaps_elem. right. exists goal. by split_and!. }
    unfold acc in Hcov. apply run_covered in Hcov as (_ & v & Hv & Hx).
    destruct (gc_source _ _ (cand_good v (Hin v Hv))) as (source & gl & par & Hs & Hgs & _ & Heq).
    destruct (candidate_at_in v (Hin v Hv)) as [_ Hid]. rewrite Heq in Hx, Hid.
    apply list_elem_of_lookup_1 in Hv as (i & Hi). exists (node_at byVersion i v), source.
    split_and!; [|done|done|by apply (normalizedIDs_spec _ _ _ Hgs)].
    apply (list_elem_of_lookup_2 _ i). by rewrite list_lookup_imap, Hi.
  - intros Hz n c r (i & v & Hv & ->)%imap_node Hc Hid Hr.
    destruct (cand_source c v Hc Hid (Hin v Hv)) as (gl & par & _ & Heq).
    assert (Hmet : rq_ID r ∈ sat).
    { destruct (decide (rq_ID r ∈ sat)) as [|Hno]; [done|]. exfalso. eapply (Hgap Hz). apply all_gaps_elem. left.
      exists v, r. rewrite Heq. by split_and!. }
    apply satisfied_set_elem in Hmet as [Hx|(e & He & Hx)].
    + left. by apply (normalizedIDs_spec _ _ _ (vi_satisfied _ _ _ _ _ Hvi)).
    + right. exists (edge_dependency e). split; [|done]. apply list_elem_of_In, in_map_iff. exists e.
      split; [done|by apply list_elem_of_In].
Qed.

Lemma returned_sound plan : returned plan -> plan_sound plan.
Proof using Hvi Hunique.
  intros (state & codes & [Hnodes Hsize (ordered & acc & strength & Hord & -> & Hbr & _ & _ & Hcan)] & _ & _ & Hplan).
  destruct (canonicalizePlan_inv _ _ Hcan) as (text & hash & _ & Hq).
  pose proof (draft_sound state ordered strength Hnodes Hsize Hord Hbr) as Hs.
  assert (Hl : plan_sound (limit_plan (st_plan state) codes)) by (rewrite Hq; by apply plan_sound_limit, plan_sound_seal).
  destruct (_ <? _); [|by subst]. apply canonicalizePlan_inv in Hplan as (? & ? & _ & ->). by apply plan_sound_seal.
Qed.

End states.
End sound.

(** ** Theorems *)
Section claims.
Context `{NFC} `{JCS} `{Digest}.


Lemma plan_procedures_returned manifest request :
  post (plan_procedures manifest request) (fun plan => exists candidates goals satisfied,
    valid_inputs manifest request candidates goals satisfied /\ returned manifest request candidates goals satisfied plan).
Proof.
  unfold plan_procedures. apply post_skip. intros _. eapply post_bind; [apply validatePlanInputs_post|].
  intros [[candidates goals] satisfied] Hvi. eapply post_weaken; [apply (run_search_post _ _ _ _ _ Hvi)|].
  intros plan Hp. by exists candidates, goals, satisfied.
Qed.

(** planning charges at most [MaximumWorkUnits] units, on every path,
    whether it ends in a plan, in an error or in a cancellation. *)
Theorem PlanProcedures_within_budget context manifest request :
  in_u64 (ms_MaximumWorkUnits (pm_Spec manifest)) ->
  0 <= used (snd (PlanProcedures context manifest request)) <= ms_MaximumWorkUnits (pm_Spec manifest).
Proof.
  intros Hm. set (v := mk_env context (ms_MaximumWorkUnits (pm_Spec manifest))).
  assert (Hw : within v fresh) by (split; [simpl; unfold_widths; lia|done]).
  destruct (plan_procedures_bounded manifest request v fresh Hw) as [[Hb _] _]. exact Hb.
Qed.

(** the plan the planner returns passes [ValidatePlan], for candidates
    whose version identifiers have at most 1024 bytes. *)
Theorem PlanProcedures_valid context manifest request plan s :
  Forall (fun c => in_u32 (pc_RiskCost c) /\ in_u32 (pc_ToolCost c) /\ str_len (pc_VersionID c) <= 1024)
    (pr_Candidates request) ->
  PlanProcedures context manifest request = (Ok plan, s) -> ValidatePlan plan = Ok tt.
Proof.
  intros Ht Hrun. destruct (plan_procedures_returned manifest request _ _ _ _ Hrun) as (cands & goals & sat & Hvi & Hret).
  by apply (returned_valid _ _ _ _ _ Hvi Ht).
Qed.

Lemma validatePlanInputs_unique manifest request :
  post (validatePlanInputs manifest request) (fun _ => NoDup (List.map pc_VersionID (pr_Candidates request))).
Proof.
  unfold validatePlanInputs. apply post_reject. intros _. apply post_skip. intros _. apply post_reject. intros _.
  apply post_reject. intros _. destruct (normalizedIDs _ false); [|apply post_raise].
  destruct (normalizedIDs (pr_SatisfiedRequirementIDs request) true); [|apply post_raise].
  eapply (post_bind _ _ (fun acc => List.map pc_VersionID (ia_candidates acc) = List.map pc_VersionID (by_candidate (pr_Candidates request)) /\
    NoDup (List.map pc_VersionID (ia_candidates acc)))).
  - apply post_and; [|eapply post_weaken; [apply validate_candidates_post|by intros acc (_ & ? & _)]].
    apply (post_loop _ (fun seen acc => List.map pc_VersionID (ia_candidates acc) = List.map pc_VersionID seen)); [done|].
    intros seen c rest acc _ Hinv. unfold validate_candidate. apply post_skip. intros _.
    apply post_reject. intros _. apply post_reject. intros _. apply post_skip. intros _.
    destruct (normalizedIDs (pc_GoalPredicateIDs c) true); [|apply post_raise].
    destruct (normalizedParallelism (pc_Parallelism c)); [|apply post_raise].
    apply post_reject. intros _. apply post_reject. intros _. apply post_ret. simpl. by rewrite !List.map_app, Hinv.
  - intros acc [Heq Hn]. apply post_reject. intros _. apply post_reject. intros _. apply post_skip. intros _. apply post_ret.
    rewrite Heq in Hn. unfold by_candidate in Hn. by rewrite (Permutation_map pc_VersionID (sort_slice_perm _ _)) in Hn.
Qed.

Lemma plan_returned_sound context manifest request plan s :
  PlanProcedures context manifest request = (Ok plan, s) -> plan_sound manifest request plan.
Proof.
  intros Hrun. destruct (plan_procedures_returned manifest request _ _ _ _ Hrun) as (cands & goals & sat & Hvi & Hret).
  assert (Hn : NoDup (List.map pc_VersionID (pr_Candidates request))).
  { assert (Hp : post (plan_procedures manifest request) (fun _ => NoDup (List.map pc_VersionID (pr_Candidates request)))).
    { unfold plan_procedures. apply post_skip. intros _. eapply post_bind; [apply validatePlanInputs_unique|].
      intros [[? ?] ?] Hn. intros v st a st' _. done. }
    by eapply Hp. }
  by eapply returned_sound.
Qed.

(** C13: a returned plan names distinct eligible candidates within the limits of
    the manifest; its dependencies are exactly the edges of the graph between
    its nodes, each from an earlier node to a later one; and when it is marked
    complete every requested goal is a goal of one of its nodes and every
    requirement of every node is listed as satisfied from outside or by one of
    its dependencies. *)
Theorem PlanProcedures_sound context manifest request plan s :
  PlanProcedures context manifest request = (Ok plan, s) -> plan_sound manifest request plan.
Proof. apply plan_returned_sound. Qed.

(** a valid plan survives the loss of its canonical bytes, which are not
    part of its JSON: hydrating it gives the plan back. *)
Theorem HydratePlan_roundtrip plan :
  ValidatePlan plan = Ok tt -> HydratePlan (seal_plan plan (p_ID plan) (p_ContentHash plan) "") = Ok plan.
Proof.
  intros Hv. pose proof Hv as Hv'. unfold ValidatePlan in Hv'. destruct (_ || _ || _) eqn:E1; [done|].
  rewrite !orb_false_iff, !negb_false_iff in E1. destruct E1 as [[_ Hid%String.eqb_eq] _].
  destruct (sealed_as _ _ _) eqn:Es; [|done]. clear Hv'. unfold sealed_as in Es. unfold HydratePlan.
  change (seal_plan (seal_plan plan (p_ID plan) (p_ContentHash plan) "") "" "" "") with (seal_plan plan "" "" "").
  destruct (MarshalAndHash _) as [[text hash]|]; [|done]. apply andb_true_iff in Es as [->%String.eqb_eq ->%String.eqb_eq].
  cbn [p_ID p_ContentHash seal_plan]. rewrite Hid, !str_eqb_refl. cbn [negb orb].
  replace (seal_plan _ _ _ (p_CanonicalJSON plan)) with plan; [by rewrite Hv|].
  destruct plan. simpl in *. by subst.
Qed.

End claims.

(** ** A plan for the small graph of [Compatibility] *)
Section demo.
#[local] Existing Instance copy_nfc.
#[local] Existing Instance copy_jcs.
#[local] Existing Instance checksum_digest.

Definition demo_manifest : PlannerManifest := Eval vm_compute in
  demo_value (mk_PlannerManifest "" (mk_PlannerManifestSpec "" 0 0 0 0 0 0 0 0 0 0 0 0 0 0 0) "" "" "")
    (NewPlannerManifest (mk_PlannerManifestSpec "v1" 4 16 8 64 16 128 16 4 8 4 100 64 4096 10 1)).

Definition no_parallelism : ParallelismFacts := mk_ParallelismFacts [] [] [] [] false false.

Definition demo_planner_candidate (id : string) (i : ProcedureInterface) (seed : bool) (goals : list string)
    (par : ParallelismFacts) : PlannerCandidate :=
  let c := mk_PlannerCandidate id i "active" "" seed true "policy" goals par 100 true 1 1 in
  mk_PlannerCandidate id i "active" (demo_value "" (BuildPlanningFactsHash (candidate_facts c goals par))) seed true
    "policy" goals par 100 true 1 1.

Definition demo_graph_for (candidates : list PlannerCandidate) : CompatibilityGraph :=
  demo_value (mk_CompatibilityGraph "" "" "" 0 "" "" "" "" [] "" "")
    (BuildCompatibilityGraph (mk_GraphRequest "tenant" 1 (pm_ID demo_manifest) "policy" demo_matrix
       (List.map (graph_candidate "tenant") candidates))).

Definition demo_plan_request (candidates : list PlannerCandidate) (goals : list string) : PlanRequest :=
  mk_PlanRequest "tenant" 1 "policy" (demo_graph_for candidates) goals [] candidates.

Definition demo_candidates : list PlannerCandidate := Eval vm_compute in
  [demo_planner_candidate "build" demo_build_interface false [] no_parallelism;
   demo_planner_candidate "test" demo_test_interface true ["tested"] no_parallelism].

Definition demo_plan_input : PlanRequest := Eval vm_compute in demo_plan_request demo_candidates ["tested"].

Definition empty_plan : Plan :=
  mk_Plan "" "" "" 0 "" "" "" "" "" "" [] [] [] [] [] [] [] [] [] [] [] false 0 false 0 0 "" "".

Definition demo_plan : Plan := Eval vm_compute in demo_value empty_plan (BuildPlan demo_manifest demo_plan_input).

Definition demo_plan_state : wstate := Eval vm_compute in snd (PlanProcedures (fun _ => Live) demo_manifest demo_plan_input).

Lemma demo_planned : PlanProcedures (fun _ => Live) demo_manifest demo_plan_input = (Ok demo_plan, demo_plan_state).
Proof. vm_compute. reflexivity. Qed.

Example demo_plan_nodes :
  (List.map nd_VersionID (p_Nodes demo_plan), p_Complete demo_plan) = (["build"; "test"], true).
Proof. reflexivity. Qed.


Lemma PlanProcedures_within_budget_witness :
  0 <= used (snd (PlanProcedures (fun _ => Live) demo_manifest demo_plan_input)) <= 4096.
Proof. apply (PlanProcedures_within_budget (fun _ => Live) demo_manifest demo_plan_input). vm_compute. done. Defined.

Lemma PlanProcedures_valid_witness : ValidatePlan demo_plan = Ok tt.
Proof.
  apply (PlanProcedures_valid (fun _ => Live) demo_manifest demo_plan_input demo_plan demo_plan_state); [|exact demo_planned].
  repeat constructor; vm_compute; done.
Defined.

Lemma PlanProcedures_sound_witness : plan_sound demo_manifest demo_plan_input demo_plan.
Proof. apply (PlanProcedures_sound (fun _ => Live) demo_manifest demo_plan_input demo_plan demo_plan_state demo_planned). Defined.

Lemma HydratePlan_roundtrip_witness :
  HydratePlan (seal_plan demo_plan (p_ID demo_plan) (p_ContentHash demo_plan) "") = Ok demo_plan.
Proof. apply (HydratePlan_roundtrip demo_plan). vm_compute. reflexivity. Defined.

(** A step that rewrites a resource it also needs: it requires and provides the
    same file, and another step requires that file in the same way. *)
Definition demo_rewrite_interface : ProcedureInterface := Eval vm_compute in
  demo_value demo_interface_none (NewProcedureInterface
    [mk_ProcedureRequirement "" "file" "repo" (demo_hash "bin") "v2" "read" ["built"]]
    [mk_ProcedureProvision "" "file" "repo" (demo_hash "bin") "v2" ["write"] ["built"]]).

Definition rewrite_candidates : list PlannerCandidate := Eval vm_compute in
  [demo_planner_candidate "rewrite" demo_rewrite_interface false [] no_parallelism;
   demo_planner_candidate "test" demo_test_interface true ["tested"] no_parallelism].

Definition rewrite_input : PlanRequest := Eval vm_compute in demo_plan_request rewrite_candidates ["tested"].

(** requirements are matched by identifier across the whole plan, so the
    edge that feeds one node also clears the same requirement of the node the
    edge leaves: the planner marks a plan complete although its first node
    requires a resource that nothing outside the plan and no dependency into
    that node provides. *)
Theorem PlanProcedures_self_satisfied :
  exists plan r, BuildPlan demo_manifest rewrite_input = Ok plan /\ p_Complete plan = true /\
    List.map nd_VersionID (p_Nodes plan) = ["rewrite"; "test"]%string /\
    pi_Requirements demo_rewrite_interface = [r] /\ pr_SatisfiedRequirementIDs rewrite_input = [] /\
    forall d, d ∈ p_Dependencies plan -> dp_TargetVersionID d <> "rewrite"%string.
Proof.
  eexists _, _. split; [vm_compute; reflexivity|]. split; [reflexivity|]. split; [reflexivity|].
  split; [reflexivity|]. split; [reflexivity|]. intros d Hd.
  apply list_elem_of_singleton in Hd as ->. done.
Qed.

End demo.
