(* ===== verification/Parallel.v ===== *)
(** * Parallel schedules (internal/composition/parallel.go)

    [DeriveParallelSchedule] cuts the nodes of a complete plan, in plan order,
    into groups that may run concurrently: a node goes to the first group after
    the groups of its predecessors whose members it does not conflict with.
    The work budget and the context bound the comparisons. *)

From Stdlib Require Import ZArith String Ascii List Bool Lia.
From stdpp Require Import base gmap strings list sorting.
From S2P Require Import Prelude GoStrings Canonical Kahn Budget Interfaces Compatibility Planner PlannerSound.

Open Scope Z_scope.
Open Scope go_scope.
Open Scope work_scope.

Record ParallelGroup := mk_ParallelGroup {
  pg_SchemaVersion : string;
  pg_ID : string;
  pg_Ordinal : Z;
  pg_PlanID : string;
  pg_NodeVersionIDs : list string;
  pg_ContentHash : string;
  pg_CanonicalJSON : string
}.

Record ParallelSchedule := mk_ParallelSchedule {
  sch_SchemaVersion : string;
  sch_ID : string;
  sch_TenantID : string;
  sch_ProjectionEpoch : Z;
  sch_PlanID : string;
  sch_PlanHash : string;
  sch_CompatibilityGraphID : string;
  sch_CompatibilityGraphHash : string;
  sch_PlannerManifestID : string;
  sch_PolicyManifestID : string;
  sch_Groups : list ParallelGroup;
  sch_ContentHash : string;
  sch_CanonicalJSON : string
}.

Definition maximumParallelPlanEdges : Z := 32 * 31 / 2.

Definition group_json (g : ParallelGroup) : json :=
  JObj (fstr "schema_version" (pg_SchemaVersion g) ++ fstr_omit "id" (pg_ID g) ++ fnum "ordinal" (pg_Ordinal g) ++
        fstr "plan_id" (pg_PlanID g) ++ fstrs "node_version_ids" (pg_NodeVersionIDs g) ++
        fstr_omit "content_hash" (pg_ContentHash g)).

Definition schedule_json (s : ParallelSchedule) : json :=
  JObj (fstr "schema_version" (sch_SchemaVersion s) ++ fstr_omit "id" (sch_ID s) ++ fstr "tenant_id" (sch_TenantID s) ++
        fnum "projection_epoch" (sch_ProjectionEpoch s) ++ fstr "plan_id" (sch_PlanID s) ++
        fstr "plan_hash" (sch_PlanHash s) ++ fstr "compatibility_graph_id" (sch_CompatibilityGraphID s) ++
        fstr "compatibility_graph_hash" (sch_CompatibilityGraphHash s) ++
        fstr "planner_manifest_id" (sch_PlannerManifestID s) ++ fstr "policy_manifest_id" (sch_PolicyManifestID s) ++
        farr "groups" (List.map group_json (sch_Groups s)) ++ fstr_omit "content_hash" (sch_ContentHash s)).

Definition seal_group (g : ParallelGroup) (id hash text : string) : ParallelGroup :=
  mk_ParallelGroup (pg_SchemaVersion g) id (pg_Ordinal g) (pg_PlanID g) (pg_NodeVersionIDs g) hash text.

Definition seal_schedule (s : ParallelSchedule) (id hash text : string) : ParallelSchedule :=
  mk_ParallelSchedule (sch_SchemaVersion s) id (sch_TenantID s) (sch_ProjectionEpoch s) (sch_PlanID s) (sch_PlanHash s)
    (sch_CompatibilityGraphID s) (sch_CompatibilityGraphHash s) (sch_PlannerManifestID s) (sch_PolicyManifestID s)
    (sch_Groups s) hash text.

(** ** Conflicts *)

(** The merge of two sorted slices; the arguments stand for [left[leftIndex:]]
    and [right[rightIndex:]], one of which shrinks at each comparison. *)
Fixpoint intersects_loop (fuel comparisons : nat) (left right : list string) : work bool :=
  match fuel, left, right with
  | S fuel, l :: left', r :: right' =>
      do _ <- check_every 256 comparisons;
      do _ <- charge 1;
      if String.eqb l r then ret true
      else if str_ltb l r then intersects_loop fuel (S comparisons) left' right
      else intersects_loop fuel (S comparisons) left right'
  | _, _, _ => ret false
  end.

Definition intersectsBounded (left right : list string) : work bool :=
  intersects_loop (length left + length right) 0 left right.

Fixpoint any_intersects (pairs : list (list string * list string)) : work bool :=
  match pairs with
  | [] => ret false
  | (one, other) :: rest =>
      do conflict <- intersectsBounded one other;
      if conflict then ret true else any_intersects rest
  end.

Definition conflict_pairs (left right : ParallelismFacts) : list (list string * list string) :=
  [(pf_PolicyMutexKeys left, pf_PolicyMutexKeys right);
   (pf_WriteResourceIDs left, pf_ReadResourceIDs right); (pf_WriteResourceIDs left, pf_WriteResourceIDs right);
   (pf_WriteResourceIDs right, pf_ReadResourceIDs left);
   (pf_ExclusiveResourceIDs left, pf_ReadResourceIDs right); (pf_ExclusiveResourceIDs left, pf_WriteResourceIDs right);
   (pf_ExclusiveResourceIDs left, pf_ExclusiveResourceIDs right);
   (pf_ExclusiveResourceIDs right, pf_ReadResourceIDs left); (pf_ExclusiveResourceIDs right, pf_WriteResourceIDs left)].

Definition parallelConflict (left right : ParallelismFacts) : work bool :=
  do _ <- charge 1;
  if pf_CompensationBoundary left || pf_CompensationBoundary right || pf_PolicySerial left || pf_PolicySerial right
  then ret true
  else any_intersects (conflict_pairs left right).

Definition no_facts : ParallelismFacts := mk_ParallelismFacts [] [] [] [] false false.
Definition facts_of (facts : gmap string ParallelismFacts) (v : string) : ParallelismFacts :=
  match facts !! v with Some f => f | None => no_facts end.

Fixpoint groupAccepts (group : list string) (versionID : string) (facts : gmap string ParallelismFacts) : work bool :=
  match group with
  | [] => ret true
  | member :: rest =>
      do conflict <- parallelConflict (facts_of facts member) (facts_of facts versionID);
      if conflict then ret false else groupAccepts rest versionID facts
  end.

(** ** Assigning groups *)
Definition group_of (groupByVersion : gmap string nat) (v : string) : nat :=
  match groupByVersion !! v with Some g => g | None => 0%nat end.

Definition minimum_group (groupByVersion : gmap string nat) (predecessors : list string) : nat :=
  foldl (fun m p => Nat.max m (S (group_of groupByVersion p))) 0%nat predecessors.

(** The loop on [groupIndex] from [minimumGroup]; [groups] is the slice from there. *)
Fixpoint find_group (index : nat) (groups : list (list string)) (v : string) (facts : gmap string ParallelismFacts) :
    work (option nat) :=
  match groups with
  | [] => ret None
  | g :: rest =>
      do accepts <- groupAccepts g v facts;
      if accepts then ret (Some index) else find_group (S index) rest v facts
  end.

Definition groupAcc : Type := list (list string) * gmap string nat.

Definition assign_node (predecessors : gmap string (list string)) (facts : gmap string ParallelismFacts) (index : nat)
    (node : PlanNode) (acc : groupAcc) : work groupAcc :=
  let (groups, groupByVersion) := acc in
  let v := nd_VersionID node in
  do _ <- check_every 32 index;
  let minimum := minimum_group groupByVersion (successors predecessors v) in
  do found <- find_group minimum (drop minimum groups) v facts;
  match found with
  | Some g => ret (alter (fun members => members ++ [v]) g groups, <[v := g]> groupByVersion)
  | None => ret (groups ++ [[v]], <[v := length groups]> groupByVersion)
  end.

(** [position[...] >= position[...]] and [predecessors], built over the selected edges. *)
Definition add_predecessor (position : gmap string nat) (edge : CompatibilityEdge) (m : gmap string (list string)) :
    work (gmap string (list string)) :=
  guard Nat.leb (group_of position (ce_TargetVersionID edge)) (group_of position (ce_SourceVersionID edge))
    else ErrInvalidParallelRequest;
  ret (<[ce_TargetVersionID edge := successors m (ce_TargetVersionID edge) ++ [ce_SourceVersionID edge]]> m).

Definition index_node (acc : nat * gmap string nat) (n : PlanNode) : nat * gmap string nat :=
  (S (fst acc), <[nd_VersionID n := fst acc]> (snd acc)).

Definition positions_of (nodes : list PlanNode) : gmap string nat := snd (foldl index_node (0%nat, ∅) nodes).

Section schedules.
Context `{NFC} `{JCS} `{Digest}.

Definition canonicalizeParallelGroup (g : ParallelGroup) : result ParallelGroup :=
  let* (text, hash) := MarshalAndHash (group_json (seal_group g "" "" "")) in
  Ok (seal_group g ("pgroup_" ++ hash) hash text).

Definition canonicalizeParallelSchedule (s : ParallelSchedule) : result ParallelSchedule :=
  let* (text, hash) := MarshalAndHash (schedule_json (seal_schedule s "" "" "")) in
  Ok (seal_schedule s ("psched_" ++ hash) hash text).

(** ** Input validation *)
Record parallelAcc := mk_parallelAcc {
  pa_facts : gmap string ParallelismFacts;
  pa_candidates : list Candidate;
  pa_entries : Z;
  pa_goals : Z
}.

Definition validate_parallel_candidate (manifest : PlannerManifest) (plan : Plan) (index : nat) (c : PlannerCandidate)
    (acc : parallelAcc) : work parallelAcc :=
  let spec := pm_Spec manifest in
  do _ <- check_every 256 index;
  let entries := parallelEntryCount (pc_Parallelism c) in
  let goalsCount := count (pc_GoalPredicateIDs c) in
  guard (entries >? ms_MaximumParallelEntries spec) || (pa_entries acc + entries >? ms_MaximumTotalParallelEntries spec) ||
        (goalsCount >? ms_MaximumGoalPredicates spec) || (pa_goals acc + goalsCount >? ms_MaximumTotalCandidateGoals spec)
    else ErrInvalidParallelRequest;
  do _ <- charge ((entries + goalsCount) * 2 + 1);
  match normalizedIDs (pc_GoalPredicateIDs c) true, normalizedParallelism (pc_Parallelism c) with
  | Some goals, Some parallelism =>
      guard negb (facts_match c goals parallelism) || negb (String.eqb (pc_PolicyManifestID c) (p_PolicyManifestID plan))
        else ErrInvalidParallelRequest;
      guard bool_decide (is_Some (pa_facts acc !! pc_VersionID c)) else ErrInvalidParallelRequest;
      ret (mk_parallelAcc (<[pc_VersionID c := parallelism]> (pa_facts acc))
             (pa_candidates acc ++ [graph_candidate (p_TenantID plan) c]) (pa_entries acc + entries)
             (pa_goals acc + goalsCount))
  | _, _ => raise ErrInvalidParallelRequest
  end.

(** The scan of the graph's edges: [edgeIDs] are the recorded edges not met yet. *)
Definition recorded_edge (selected : gset string) (index : nat) (edge : CompatibilityEdge)
    (acc : gset string * list CompatibilityEdge) : work (gset string * list CompatibilityEdge) :=
  do _ <- check_every 256 index;
  do _ <- charge 1;
  let inside := has_node selected (ce_SourceVersionID edge) && has_node selected (ce_TargetVersionID edge) in
  let recorded := bool_decide (ce_ID edge ∈ fst acc) in
  guard negb (Bool.eqb inside recorded) else ErrInvalidParallelRequest;
  ret (if recorded then (fst acc ∖ {[ce_ID edge]}, snd acc ++ [edge]) else acc).

Definition parallel_invalid (manifest : PlannerManifest) (plan : Plan) (graph : CompatibilityGraph)
    (candidates : list PlannerCandidate) : bool :=
  let spec := pm_Spec manifest in
  failed (ValidatePlannerManifest manifest) || (count (p_Nodes plan) >? ms_MaximumProcedures spec) ||
  (count (p_RequestedGoalPredicateIDs plan) >? ms_MaximumGoalPredicates spec) ||
  (count (p_ExternallySatisfiedRequirementIDs plan) >? ms_MaximumSatisfiedRequirements spec) ||
  (count (p_SatisfiedRequirementIDs plan) >? ms_MaximumSatisfiedRequirements spec + 32 * 1024) ||
  (count (p_ProducedResourceIDs plan) >? 32 * 1024) ||
  (count (p_CoveredGoalPredicateIDs plan) >? ms_MaximumGoalPredicates spec) ||
  (count (p_SeedVersionIDs plan) >? ms_MaximumCandidates spec) ||
  (count (p_CompatibilityEdgeIDs plan) >? maximumParallelPlanEdges) || negb (count (p_Gaps plan) =? 0) ||
  (str_len (p_CanonicalJSON plan) >? Z.shiftl 16 20) || failed (ValidatePlan plan) || negb (p_Complete plan) ||
  negb (String.eqb (p_PlannerManifestID plan) (pm_ID manifest)) ||
  negb (String.eqb (p_CompatibilityGraphID plan) (cg_ID graph)) ||
  negb (String.eqb (p_CompatibilityGraphHash plan) (cg_ContentHash graph)) ||
  negb (String.eqb (p_CandidateSetHash plan) (cg_CandidateSetHash graph)) ||
  negb (String.eqb (p_CompatibilityMatrixHash plan) (cg_MatrixHash graph)) ||
  negb (String.eqb (p_TenantID plan) (cg_TenantID graph)) ||
  negb (p_ProjectionEpoch plan =? cg_ProjectionEpoch graph) ||
  negb (String.eqb (cg_PlannerManifestID graph) (pm_ID manifest)) ||
  negb (String.eqb (p_PolicyManifestID plan) (cg_PolicyManifestID graph)) || (count candidates =? 0) ||
  (count candidates >? ms_MaximumCandidates spec).

Definition validateParallelInputs (manifest : PlannerManifest) (plan : Plan) (graph : CompatibilityGraph)
    (candidates : list PlannerCandidate) : work (gmap string ParallelismFacts * list CompatibilityEdge) :=
  guard parallel_invalid manifest plan graph candidates else ErrInvalidParallelRequest;
  do _ <- validate_graph graph ErrInvalidParallelRequest;
  do acc <- loop (validate_parallel_candidate manifest plan) 0 (by_candidate candidates) (mk_parallelAcc ∅ [] 0 0);
  guard negb (candidate_set_matches (pa_candidates acc) graph) else ErrInvalidParallelRequest;
  guard negb (forallb (fun n => bool_decide (is_Some (pa_facts acc !! nd_VersionID n))) (p_Nodes plan))
    else ErrInvalidParallelRequest;
  let selected := sliceSet (List.map nd_VersionID (p_Nodes plan)) in
  do (edgeIDs, selectedEdges) <- loop (recorded_edge selected) 0 (cg_Edges graph)
                                   (sliceSet (p_CompatibilityEdgeIDs plan), []);
  guard negb (bool_decide (edgeIDs = ∅)) else ErrInvalidParallelRequest;
  ret (pa_facts acc, selectedEdges).

(** ** The schedule *)
Definition make_group (plan : Plan) (index : nat) (versions : list string) (groups : list ParallelGroup) :
    work (list ParallelGroup) :=
  do group <- lift (canonicalizeParallelGroup
    (mk_ParallelGroup "parallel-group.v1" "" (wrap_u32 (Z.of_nat index)) (p_ID plan) versions "" ""));
  ret (groups ++ [group]).

Definition derive_schedule (manifest : PlannerManifest) (plan : Plan) (graph : CompatibilityGraph)
    (candidates : list PlannerCandidate) : work ParallelSchedule :=
  do _ <- check_ctx;
  do (facts, selectedEdges) <- validateParallelInputs manifest plan graph candidates;
  let position := positions_of (p_Nodes plan) in
  do predecessors <- loop (fun _ => add_predecessor position) 0 selectedEdges ∅;
  do (groups, _) <- loop (assign_node predecessors facts) 0 (p_Nodes plan) ([], ∅);
  do made <- loop (make_group plan) 0 groups [];
  lift (canonicalizeParallelSchedule (mk_ParallelSchedule "parallel-schedule.v1" "" (p_TenantID plan)
    (p_ProjectionEpoch plan) (p_ID plan) (p_ContentHash plan) (cg_ID graph) (cg_ContentHash graph) (pm_ID manifest)
    (p_PolicyManifestID plan) made "" "")).

(** [DeriveParallelSchedule]: a fresh budget of [manifest.MaximumWorkUnits]. *)
Definition DeriveParallelSchedule (context : nat -> ctx_status) (manifest : PlannerManifest) (plan : Plan)
    (graph : CompatibilityGraph) (candidates : list PlannerCandidate) : result ParallelSchedule * wstate :=
  derive_schedule manifest plan graph candidates (mk_env context (ms_MaximumWorkUnits (pm_Spec manifest))) fresh.

(** ** Validation and hydration *)
Definition group_invalid (schedule : ParallelSchedule) (index : nat) (totalNodes : Z) (g : ParallelGroup) : bool :=
  negb (String.eqb (pg_SchemaVersion g) "parallel-group.v1") || negb (pg_Ordinal g =? wrap_u32 (Z.of_nat index)) ||
  negb (String.eqb (pg_PlanID g) (sch_PlanID schedule)) || negb (String.eqb (pg_ID g) ("pgroup_" ++ pg_ContentHash g)) ||
  negb (sha256Pattern (pg_ContentHash g)) || (str_len (pg_CanonicalJSON g) >? Z.shiftl 1 20) ||
  (count (pg_NodeVersionIDs g) =? 0) || (count (pg_NodeVersionIDs g) >? 32) ||
  (totalNodes >? 32 - count (pg_NodeVersionIDs g)).

Fixpoint groups_ok (schedule : ParallelSchedule) (index : nat) (totalNodes : Z) (groups : list ParallelGroup) : bool :=
  match groups with
  | [] => true
  | g :: rest =>
      negb (group_invalid schedule index totalNodes g) && forallb safeIdentity (pg_NodeVersionIDs g) &&
      groups_ok schedule (S index) (totalNodes + count (pg_NodeVersionIDs g)) rest
  end.

(** The last loop: the groups' seals, and no version twice. *)
Fixpoint members_ok (seen : gset string) (groups : list ParallelGroup) : bool :=
  match groups with
  | [] => true
  | g :: rest =>
      sealed_as (group_json (seal_group g "" "" "")) (pg_ContentHash g) (pg_CanonicalJSON g) &&
      fresh_ids seen (pg_NodeVersionIDs g) && members_ok (list_to_set (pg_NodeVersionIDs g) ∪ seen) rest
  end.

Definition ValidateParallelSchedule (s : ParallelSchedule) : result unit :=
  reject (negb (String.eqb (sch_SchemaVersion s) "parallel-schedule.v1") ||
          negb (String.eqb (sch_ID s) ("psched_" ++ sch_ContentHash s)) || negb (sha256Pattern (sch_ContentHash s)) ||
          negb (safeIdentity (sch_TenantID s)) || (sch_ProjectionEpoch s =? 0) ||
          negb (String.eqb (sch_PlanID s) ("plan_" ++ sch_PlanHash s)) || negb (sha256Pattern (sch_PlanHash s)) ||
          negb (String.eqb (sch_CompatibilityGraphID s) ("cgraph_" ++ sch_CompatibilityGraphHash s)) ||
          negb (sha256Pattern (sch_CompatibilityGraphHash s)) || negb (safeIdentity (sch_PlannerManifestID s)) ||
          negb (safeIdentity (sch_PolicyManifestID s)) || (count (sch_Groups s) =? 0) || (count (sch_Groups s) >? 32) ||
          (str_len (sch_CanonicalJSON s) >? Z.shiftl 16 20)) with ErrInvalidParallelRequest;
  reject (negb (groups_ok s 0 0 (sch_Groups s))) with ErrInvalidParallelRequest;
  reject (negb (sealed_as (schedule_json (seal_schedule s "" "" "")) (sch_ContentHash s) (sch_CanonicalJSON s)))
    with ErrInvalidParallelRequest;
  reject (negb (members_ok ∅ (sch_Groups s))) with ErrInvalidParallelRequest;
  Ok tt.

Definition hydrate_group (g : ParallelGroup) : result ParallelGroup :=
  match MarshalAndHash (group_json (seal_group g "" "" "")) with
  | Err _ => Err ErrInvalidParallelRequest
  | Ok (text, hash) =>
      reject (negb (String.eqb (pg_ID g) ("pgroup_" ++ hash)) || negb (String.eqb (pg_ContentHash g) hash))
        with ErrInvalidParallelRequest;
      Ok (seal_group g (pg_ID g) (pg_ContentHash g) text)
  end.

Fixpoint hydrate_groups (groups : list ParallelGroup) : result (list ParallelGroup) :=
  match groups with
  | [] => Ok []
  | g :: rest =>
      let* g := hydrate_group g in
      let* rest := hydrate_groups rest in
      Ok (g :: rest)
  end.

Definition set_groups (s : ParallelSchedule) (groups : list ParallelGroup) : ParallelSchedule :=
  mk_ParallelSchedule (sch_SchemaVersion s) (sch_ID s) (sch_TenantID s) (sch_ProjectionEpoch s) (sch_PlanID s)
    (sch_PlanHash s) (sch_CompatibilityGraphID s) (sch_CompatibilityGraphHash s) (sch_PlannerManifestID s)
    (sch_PolicyManifestID s) groups (sch_ContentHash s) (sch_CanonicalJSON s).

Definition HydrateParallelSchedule (s : ParallelSchedule) : result ParallelSchedule :=
  let* groups := hydrate_groups (sch_Groups s) in
  let s := set_groups s groups in
  match MarshalAndHash (schedule_json (seal_schedule s "" "" "")) with
  | Err _ => Err ErrInvalidParallelRequest
  | Ok (text, hash) =>
      reject (negb (String.eqb (sch_ID s) ("psched_" ++ hash)) || negb (String.eqb (sch_ContentHash s) hash))
        with ErrInvalidParallelRequest;
      let s := seal_schedule s (sch_ID s) (sch_ContentHash s) text in
      reject (failed (ValidateParallelSchedule s)) with ErrInvalidParallelRequest;
      Ok s
  end.

End schedules.

(** ** When two procedures may not run together *)
Definition touches (f : ParallelismFacts) (x : string) : Prop :=
  x ∈ pf_ReadResourceIDs f \/ x ∈ pf_WriteResourceIDs f \/ x ∈ pf_ExclusiveResourceIDs f.

Definition serial (f : ParallelismFacts) : Prop := pf_CompensationBoundary f = true \/ pf_PolicySerial f = true.

Definition interferes (f g : ParallelismFacts) : Prop :=
  serial f \/ serial g \/ (exists key, key ∈ pf_PolicyMutexKeys f /\ key ∈ pf_PolicyMutexKeys g) \/
  exists x,
    (x ∈ pf_WriteResourceIDs f /\ (x ∈ pf_ReadResourceIDs g \/ x ∈ pf_WriteResourceIDs g)) \/
    (x ∈ pf_WriteResourceIDs g /\ (x ∈ pf_ReadResourceIDs f \/ x ∈ pf_WriteResourceIDs f)) \/
    (x ∈ pf_ExclusiveResourceIDs f /\ touches g x) \/ (x ∈ pf_ExclusiveResourceIDs g /\ touches f x).

#[export] Instance interferes_symmetric : Symmetric interferes.
Proof. unfold interferes. intros f g [?|[?|[(k & ? & ?)|(x & Hx)]]]; [tauto..|right; right; left; by exists k|]. right; right; right. exists x. tauto. Qed.

Record sorted_facts (f : ParallelismFacts) : Prop := {
  sf_reads : StronglySorted str_lt (pf_ReadResourceIDs f);
  sf_writes : StronglySorted str_lt (pf_WriteResourceIDs f);
  sf_exclusive : StronglySorted str_lt (pf_ExclusiveResourceIDs f);
  sf_mutexes : StronglySorted str_lt (pf_PolicyMutexKeys f)
}.

Lemma normalizedParallelism_sorted source f : normalizedParallelism source = Some f -> sorted_facts f.
Proof.
  unfold normalizedParallelism. repeat (case_match; [|done]). case_match; [done|]. intros [= <-].
  repeat match goal with E : normalizedIDs _ _ = Some _ |- _ =>
    apply normalizedIDs_spec in E as ([E _]%strictSorted_spec & _) end.
  by constructor.
Qed.

Lemma sorted_head_absent a l r :
  StronglySorted str_lt (r :: l) -> str_lt a r -> a ∉ r :: l.
Proof.
  intros Hs Ha Hin. inversion Hs as [|? ? _ Hf]; subst. apply elem_of_cons in Hin as [->|Hin]; [by apply (str_lt_irrefl r)|].
  apply (str_lt_irrefl a). transitivity r; [done|]. by apply (proj1 (Forall_forall _ _) Hf).
Qed.

Lemma intersects_loop_post fuel comparisons l r :
  StronglySorted str_lt l -> StronglySorted str_lt r -> (length l + length r <= fuel)%nat ->
  post (intersects_loop fuel comparisons l r) (fun b => b = true <-> exists x, x ∈ l /\ x ∈ r).
Proof.
  revert comparisons l r. induction fuel as [|fuel IH]; intros comparisons l r Hl Hr Hfuel.
  { destruct l; [|simpl in Hfuel; lia]. simpl. apply post_ret. split; [done|]. intros (x & Hx & _). by apply not_elem_of_nil in Hx. }
  destruct l as [|a l]; simpl.
  { apply post_ret. split; [done|]. intros (x & Hx & _). by apply not_elem_of_nil in Hx. }
  destruct r as [|b r].
  { apply post_ret. split; [done|]. intros (x & _ & Hx). by apply not_elem_of_nil in Hx. }
  apply post_skip. intros _. apply post_skip. intros _.
  destruct (String.eqb_spec a b) as [->|Hne]; [apply post_ret; split; [|done]; intros _; exists b; split; left|].
  destruct (str_ltb a b) eqn:Eab.
  - inversion Hl as [|? ? Hl' _]; subst. eapply post_weaken; [apply IH; [done|done|simpl in *; lia]|].
    intros res Hres. rewrite Hres. split; intros (x & Hx & Hx'); exists x; (split; [|done]); [by right|].
    apply elem_of_cons in Hx as [->|?]; [|done]. exfalso. by apply (sorted_head_absent _ _ _ Hr Eab).
  - assert (Hba : str_lt b a).
    { unfold str_lt. destruct (str_ltb b a) eqn:Eba; [done|]. exfalso. by apply Hne, str_total. }
    inversion Hr as [|? ? Hr' _]; subst. eapply post_weaken; [apply IH; [done|done|simpl in *; lia]|].
    intros res Hres. rewrite Hres. split; intros (x & Hx & Hx'); exists x; (split; [done|]); [by right|].
    apply elem_of_cons in Hx' as [->|?]; [|done]. exfalso. by apply (sorted_head_absent _ _ _ Hl Hba).
Qed.

Lemma any_intersects_post pairs :
  Forall (fun p => StronglySorted str_lt (fst p) /\ StronglySorted str_lt (snd p)) pairs ->
  post (any_intersects pairs) (fun b => b = true <-> Exists (fun p => exists x, x ∈ fst p /\ x ∈ snd p) pairs).
Proof.
  induction 1 as [|[l r] pairs [Hl Hr] _ IH]; simpl; [apply post_ret; by rewrite Exists_nil|].
  eapply post_bind; [by apply intersects_loop_post|]. intros b Hb. destruct b.
  - apply post_ret. split; [|done]. intros _. apply Exists_cons_hd. by apply Hb.
  - eapply post_weaken; [exact IH|]. intros b Hb'. rewrite Hb', Exists_cons. split; [by right|].
    intros [Hx|?]; [|done]. by apply Hb in Hx.
Qed.

Lemma parallelConflict_post f g :
  sorted_facts f -> sorted_facts g -> post (parallelConflict f g) (fun b => b = true <-> interferes f g).
Proof.
  intros [] []. unfold parallelConflict. apply post_skip. intros _.
  destruct (_ || _) eqn:Eo.
  { apply post_ret. split; [|done]. intros _. unfold interferes, serial. rewrite !orb_true_iff in Eo. tauto. }
  rewrite !orb_false_iff in Eo. destruct Eo as [[[E1 E2] E3] E4].
  eapply post_weaken; [apply any_intersects_post; by repeat constructor|]. intros b ->.
  unfold conflict_pairs. rewrite !Exists_cons, Exists_nil. cbn [fst snd]. unfold interferes, serial, touches.
  rewrite E1, E2, E3, E4. clear. split; [|naive_solver].
  intros Hx. destruct_or!; destruct Hx as (x & ? & ?) || done; [right; right; left; by exists x|..];
    right; right; right; exists x; tauto.
Qed.

Lemma groupAccepts_post facts group v :
  (forall u, sorted_facts (facts_of facts u)) ->
  post (groupAccepts group v facts) (fun b => b = true -> forall u, u ∈ group -> ~ interferes (facts_of facts u) (facts_of facts v)).
Proof.
  intros Hs. induction group as [|u group IH]; simpl.
  { apply post_ret. intros _ u Hu. by apply not_elem_of_nil in Hu. }
  eapply post_bind; [by apply parallelConflict_post|]. intros [|] Hc; [by apply post_ret|].
  eapply post_weaken; [exact IH|]. intros b Hb Hok w [->|Hw]%elem_of_cons; [|by apply Hb]. by intros ?%Hc.
Qed.

Lemma find_group_post facts index groups v :
  (forall u, sorted_facts (facts_of facts u)) ->
  post (find_group index groups v facts) (fun r => forall g, r = Some g -> exists k members,
    g = (index + k)%nat /\ groups !! k = Some members /\
    forall u, u ∈ members -> ~ interferes (facts_of facts u) (facts_of facts v)).
Proof.
  intros Hs. revert index. induction groups as [|members groups IH]; intros index; simpl; [by apply post_ret|].
  eapply post_bind; [by apply groupAccepts_post|]. intros [|] Hok.
  - apply post_ret. intros g [= <-]. exists 0%nat, members. split; [lia|]. split; [done|]. by apply Hok.
  - eapply post_weaken; [apply IH|]. intros r Hr g Hg. destruct (Hr g Hg) as (k & ms & -> & Hk & Hms).
    exists (S k), ms. split; [lia|]. by split.
Qed.

(** ** The invariant of the assignment *)
Section assignment.
Context (facts : gmap string ParallelismFacts) (edges : list CompatibilityEdge) (versions : list string).
Hypothesis Hsorted : forall u, sorted_facts (facts_of facts u).
Hypothesis Hnodup : NoDup versions.

Record assigned (seen : list string) (acc : groupAcc) : Prop := {
  as_partition : concat (fst acc) ≡ₚ seen;
  as_member : forall v, v ∈ seen -> exists g members, snd acc !! v = Some g /\ fst acc !! g = Some members /\ v ∈ members;
  as_only : forall g members v, fst acc !! g = Some members -> v ∈ members -> snd acc !! v = Some g;
  as_apart : forall members u v, members ∈ fst acc -> u ∈ members -> v ∈ members -> u <> v ->
    ~ interferes (facts_of facts u) (facts_of facts v);
  as_order : forall e, e ∈ edges -> ce_TargetVersionID e ∈ seen ->
    (group_of (snd acc) (ce_SourceVersionID e) < group_of (snd acc) (ce_TargetVersionID e))%nat
}.

Lemma minimum_group_le m l p : p ∈ l -> (group_of m p < minimum_group m l)%nat.
Proof.
  unfold minimum_group. generalize 0%nat. induction l as [|q l IH]; intros k Hp; [by apply not_elem_of_nil in Hp|]. simpl.
  assert (Hmono : forall l k, (k <= foldl (fun m' p => Nat.max m' (S (group_of m p))) k l)%nat).
  { clear. induction l as [|q l IH]; intros k; simpl; [lia|]. specialize (IH (Nat.max k (S (group_of m q)))). lia. }
  apply elem_of_cons in Hp as [->|Hp]; [|by apply IH]. specialize (Hmono l (Nat.max k (S (group_of m q)))). lia.
Qed.

Lemma group_of_insert m v g u : group_of (<[v := g]> m) u = if decide (v = u) then g else group_of m u.
Proof.
  unfold group_of. destruct (decide (v = u)) as [->|Hne]; [by rewrite lookup_insert_eq|by rewrite lookup_insert_ne].
Qed.

(** Putting a node in a group it does not conflict with keeps the invariant. *)
Lemma assigned_place seen groups m v g members :
  assigned seen (groups, m) -> v ∉ seen -> groups !! g = Some members ->
  (forall u, u ∈ members -> ~ interferes (facts_of facts u) (facts_of facts v)) ->
  (forall e, e ∈ edges -> ce_TargetVersionID e = v -> ce_SourceVersionID e ∈ seen /\ (group_of m (ce_SourceVersionID e) < g)%nat) ->
  (forall e, e ∈ edges -> ce_TargetVersionID e ∈ seen -> ce_SourceVersionID e ∈ seen) ->
  assigned (seen ++ [v]) (alter (fun members => members ++ [v]) g groups, <[v := g]> m).
Proof.
  intros [Hp Hm Ho Ha He] Hv Hg Hok Hpred Hclosed. cbn [fst snd] in *.
  assert (Hlk : forall i ms, alter (fun members => members ++ [v]) g groups !! i = Some ms ->
    exists old, groups !! i = Some old /\ (ms = old \/ i = g /\ ms = old ++ [v])).
  { intros i ms Hi. destruct (decide (i = g)) as [->|Hne].
    - rewrite list_lookup_alter_eq, Hg in Hi. injection Hi as <-. exists members. split; [done|]. by right.
    - rewrite list_lookup_alter_ne in Hi by done. exists ms. split; [done|]. by left. }
  constructor; cbn [fst snd].
  - rewrite <- Hp. apply list_elem_of_split_length in Hg as (l1 & l2 & -> & ->). rewrite alter_app_r_alt by lia.
    rewrite Nat.sub_diag. simpl. rewrite !concat_app. simpl. rewrite <- !app_assoc. f_equiv. f_equiv.
    apply Permutation_app_comm.
  - intros u [Hu| ->%list_elem_of_singleton]%elem_of_app.
    + destruct (Hm u Hu) as (i & ms & Hi & Hms & Hin). exists i.
      assert (u <> v) by (intros ->; done). rewrite lookup_insert_ne by done.
      destruct (decide (i = g)) as [->|Hne].
      * exists (ms ++ [v]). rewrite list_lookup_alter_eq, Hms. split_and!; [done|done|apply elem_of_app; by left].
      * exists ms. by rewrite list_lookup_alter_ne.
    + exists g, (members ++ [v]). rewrite lookup_insert_eq, list_lookup_alter_eq, Hg.
      split_and!; [done|done|apply elem_of_app; right; by left].
  - intros i ms u Hi Hu. destruct (Hlk i ms Hi) as (old & Hold & [->|[-> ->]]).
    + assert (u <> v). { intros ->. apply Hv. rewrite <- Hp. apply list_elem_of_In, in_concat. exists old.
        split; [apply list_elem_of_In; by eapply list_elem_of_lookup_2|by apply list_elem_of_In]. }
      rewrite lookup_insert_ne by done. by eapply Ho.
    + apply elem_of_app in Hu as [Hu| ->%list_elem_of_singleton]; [|by rewrite lookup_insert_eq].
      destruct (decide (v = u)) as [->|Hne]; [by rewrite lookup_insert_eq|]. rewrite lookup_insert_ne by done. by eapply Ho.
  - intros ms u w Hms Hu Hw Hne. apply list_elem_of_lookup_1 in Hms as (i & Hi).
    destruct (Hlk i ms Hi) as (old & Hold & [->|[-> ->]]); [eapply Ha; [by eapply list_elem_of_lookup_2|done..]|].
    simplify_eq. apply elem_of_app in Hu as [Hu| ->%list_elem_of_singleton], Hw as [Hw| ->%list_elem_of_singleton].
    + eapply Ha; [by eapply list_elem_of_lookup_2|done..].
    + by apply Hok.
    + intros Hint%symmetry. by apply (Hok w Hw).
    + done.
  - intros e Hin [Ht|Ht%list_elem_of_singleton]%elem_of_app; rewrite !group_of_insert.
    + rewrite !decide_False; [by apply He|intros Heq; apply Hv; by rewrite Heq|].
      intros Heq. apply Hv. rewrite Heq. by apply Hclosed.
    + destruct (Hpred e Hin Ht) as [Hs Hlt]. rewrite decide_False by (intros Heq; apply Hv; by rewrite Heq).
      by rewrite decide_True.
Qed.

(** Opening a group for a node that fits none keeps the invariant. *)
Lemma assigned_open seen groups m v :
  assigned seen (groups, m) -> v ∉ seen ->
  (forall e, e ∈ edges -> ce_TargetVersionID e = v -> ce_SourceVersionID e ∈ seen) ->
  (forall e, e ∈ edges -> ce_TargetVersionID e ∈ seen -> ce_SourceVersionID e ∈ seen) ->
  assigned (seen ++ [v]) (groups ++ [[v]], <[v := length groups]> m).
Proof.
  intros [Hp Hm Ho Ha He] Hv Hpred Hclosed. cbn [fst snd] in *.
  assert (Hin : forall i ms u, groups !! i = Some ms -> u ∈ ms -> u <> v).
  { intros i ms u Hi Hu ->. apply Hv. rewrite <- Hp. apply list_elem_of_In, in_concat. exists ms.
    split; [apply list_elem_of_In; by eapply list_elem_of_lookup_2|by apply list_elem_of_In]. }
  constructor; cbn [fst snd].
  - rewrite concat_app, Hp. simpl. done.
  - intros u [Hu| ->%list_elem_of_singleton]%elem_of_app.
    + destruct (Hm u Hu) as (i & ms & Hi & Hms & Hin'). exists i, ms. rewrite lookup_insert_ne by (intros ->; done).
      split_and!; [done|by apply lookup_app_l_Some|done].
    + exists (length groups), [v]. rewrite lookup_insert_eq, list_lookup_middle by done. split_and!; [done|done|by left].
  - intros i ms u Hi Hu. apply lookup_app_Some in Hi as [Hi|[Hle Hi]].
    + pose proof (Hin _ _ _ Hi Hu). rewrite lookup_insert_ne by done. by eapply Ho.
    + apply list_lookup_singleton_Some in Hi as [Hz <-]. apply list_elem_of_singleton in Hu as ->.
      rewrite lookup_insert_eq. f_equal. lia.
  - intros ms u w [Hms| ->%list_elem_of_singleton]%elem_of_app Hu Hw Hne; [by eapply Ha|].
    apply list_elem_of_singleton in Hu as ->, Hw as ->. done.
  - intros e Hin' [Ht|Ht%list_elem_of_singleton]%elem_of_app; rewrite !group_of_insert.
    + rewrite !decide_False; [by apply He|intros Heq; apply Hv; by rewrite Heq|].
      intros Heq. apply Hv. rewrite Heq. by apply Hclosed.
    + rewrite decide_False by (intros Heq; apply Hv; rewrite Heq; by apply Hpred). rewrite decide_True by done.
      specialize (Hpred e Hin' Ht). destruct (Hm _ Hpred) as (i & ms & Hi & Hms & _). unfold group_of. rewrite Hi.
      by apply lookup_lt_Some in Hms.
Qed.

Hypothesis Hpositions : forall e seen rest, e ∈ edges -> versions = seen ++ ce_TargetVersionID e :: rest ->
  ce_SourceVersionID e ∈ seen.

(** The predecessors recorded for a version: the sources of its edges. *)
Definition records_predecessors (predecessors : gmap string (list string)) : Prop :=
  forall v, successors predecessors v =
    List.map ce_SourceVersionID (List.filter (fun e => String.eqb (ce_TargetVersionID e) v) edges).

Lemma closed_prefix seen rest e :
  versions = seen ++ rest -> e ∈ edges -> ce_TargetVersionID e ∈ seen -> ce_SourceVersionID e ∈ seen.
Proof using Hpositions.
  intros Heq He (s1 & s2 & ->)%list_elem_of_split. rewrite <- app_assoc in Heq. simpl in Heq.
  apply elem_of_app. left. by eapply Hpositions.
Qed.

Lemma assign_nodes_post predecessors nodes :
  records_predecessors predecessors -> versions = List.map nd_VersionID nodes ->
  post (loop (assign_node predecessors facts) 0 nodes ([], ∅)) (assigned versions).
Proof using Hsorted Hnodup Hpositions.
  intros Hpred Heq. eapply post_weaken; [apply (post_loop _ (fun seen acc => assigned (List.map nd_VersionID seen) acc))|].
  - constructor; simpl; [done|..].
    + intros v Hv. by apply not_elem_of_nil in Hv.
    + intros g members v Hg. by rewrite lookup_nil in Hg.
    + intros members u v Hm. by apply not_elem_of_nil in Hm.
    + intros e _ Ht. by apply not_elem_of_nil in Ht.
  - intros seen n rest [groups m] Hsplit Hinv. set (v := nd_VersionID n).
    assert (Hvs : versions = List.map nd_VersionID seen ++ v :: List.map nd_VersionID rest)
      by (by rewrite Heq, Hsplit, List.map_app).
    assert (Hv : v ∉ List.map nd_VersionID seen).
    { intros Hin. rewrite Hvs in Hnodup. apply NoDup_app in Hnodup as (_ & Hd & _). apply (Hd v Hin). by left. }
    assert (Hsrc : forall e, e ∈ edges -> ce_TargetVersionID e = v -> ce_SourceVersionID e ∈ List.map nd_VersionID seen)
      by (intros e He Ht; eapply Hpositions; [done|by rewrite Ht]).
    unfold assign_node. fold v. apply post_skip. intros _.
    eapply post_bind; [apply (find_group_post facts); exact Hsorted|]. intros [g|] Hfound; rewrite List.map_app; cbn [List.map].
    + destruct (Hfound g eq_refl) as (k & members & -> & Hk & Hok). rewrite lookup_drop in Hk. apply post_ret.
      eapply assigned_place; [done|done|exact Hk|done| |intros e He Ht; by eapply closed_prefix].
      intros e He Ht. split; [by apply Hsrc|].
      assert (Hlt : (group_of m (ce_SourceVersionID e) < minimum_group m (successors predecessors v))%nat); [|lia].
      apply minimum_group_le. rewrite Hpred. apply list_elem_of_In, in_map_iff. exists e. split; [done|].
      apply filter_In. split; [by apply list_elem_of_In|]. by rewrite Ht, str_eqb_refl.
    + apply post_ret. apply assigned_open; [done|done|done|]. intros e He Ht. by eapply closed_prefix.
  - intros acc Hacc. by rewrite Heq.
Qed.

End assignment.

(** ** Validated inputs *)
Section sound.
Context `{NFC} `{JCS} `{Digest}.

Lemma nodes_ok_NoDup seeds k positions nodes positions' :
  nodes_ok seeds k positions nodes = Some positions' ->
  NoDup (List.map nd_VersionID nodes) /\ forall v, v ∈ List.map nd_VersionID nodes -> positions !! v = None.
Proof.
  revert k positions. induction nodes as [|n nodes IH]; intros k positions; simpl.
  { intros _. split; [constructor|]. intros v Hv. by apply not_elem_of_nil in Hv. }
  destruct (node_ok _ _ _); [|done]. cbn [negb]. case_bool_decide as Hs; [done|]. intros [Hn Hout]%IH.
  assert (Hnone : positions !! nd_VersionID n = None) by (apply eq_None_not_Some; exact Hs). split.
  - constructor; [|done]. intros Hin%Hout. by rewrite lookup_insert_eq in Hin.
  - intros v [->|Hv]%elem_of_cons; [done|]. specialize (Hout v Hv).
    destruct (decide (nd_VersionID n = v)) as [<-|Hne]; [done|]. by rewrite lookup_insert_ne in Hout.
Qed.

Lemma ValidatePlan_NoDup plan : ValidatePlan plan = Ok tt -> NoDup (List.map nd_VersionID (p_Nodes plan)).
Proof.
  unfold ValidatePlan. case_match; [done|]. case_match; [done|]. case_match; [done|].
  destruct (nodes_ok _ _ _ _) eqn:E; [|done]. intros _. by apply nodes_ok_NoDup in E as [? _].
Qed.

Lemma positions_of_lookup nodes :
  NoDup (List.map nd_VersionID nodes) ->
  forall v i, positions_of nodes !! v = Some i <-> List.map nd_VersionID nodes !! i = Some v.
Proof.
  unfold positions_of. intros Hn.
  assert (Hgen : fst (foldl index_node (0%nat, ∅) nodes) = length nodes /\
    forall v i, snd (foldl index_node (0%nat, ∅) nodes) !! v = Some i <->
      List.map nd_VersionID nodes !! i = Some v); [|by destruct Hgen].
  induction nodes as [|n nodes IH] using rev_ind.
  { split; [done|]. intros v i. simpl. by rewrite lookup_empty, lookup_nil. }
  rewrite List.map_app in Hn. apply NoDup_app in Hn as (Hn & Hd & _). destruct (IH Hn) as [Hlen Hlk].
  rewrite foldl_app, List.map_app. simpl. destruct (foldl _ _ nodes) as [k m]. cbn [fst snd] in *. subst k. split.
  { rewrite length_app. simpl. lia. }
  intros v i. rewrite lookup_app_Some, list_lookup_singleton_Some, List.length_map.
  destruct (decide (nd_VersionID n = v)) as [<-|Hne].
  - rewrite lookup_insert_eq. split.
    + intros [= <-]. right. split; [lia|]. split; [lia|done].
    + intros [Hi|(Hle & Hz & _)]; [|f_equal; lia]. apply list_elem_of_lookup_2, Hd in Hi. exfalso. apply Hi. by left.
  - rewrite lookup_insert_ne by done. rewrite Hlk. split; [by left|]. intros [?|(_ & _ & ?)]; done.
Qed.

Definition inside (plan : Plan) (e : CompatibilityEdge) : bool :=
  has_node (sliceSet (List.map nd_VersionID (p_Nodes plan))) (ce_SourceVersionID e) &&
  has_node (sliceSet (List.map nd_VersionID (p_Nodes plan))) (ce_TargetVersionID e).

Lemma inside_spec plan e : inside plan e = true <->
  ce_SourceVersionID e ∈ List.map nd_VersionID (p_Nodes plan) /\ ce_TargetVersionID e ∈ List.map nd_VersionID (p_Nodes plan).
Proof.
  unfold inside, has_node, sliceSet. by rewrite andb_true_iff, !bool_decide_eq_true, !elem_of_list_to_set.
Qed.

Record parallel_inputs (plan : Plan) (graph : CompatibilityGraph) (candidates : list PlannerCandidate)
    (facts : gmap string ParallelismFacts) (edges : list CompatibilityEdge) : Prop := {
  pi_versions : NoDup (List.map nd_VersionID (p_Nodes plan));
  pi_facts : forall c f, c ∈ candidates -> normalizedParallelism (pc_Parallelism c) = Some f ->
    facts !! pc_VersionID c = Some f;
  pi_sorted : forall v f, facts !! v = Some f -> sorted_facts f;
  pi_edges : edges = List.filter (inside plan) (cg_Edges graph)
}.

Lemma validateParallelInputs_post manifest plan graph candidates :
  post (validateParallelInputs manifest plan graph candidates) (fun r => parallel_inputs plan graph candidates (fst r) (snd r)).
Proof.
  unfold validateParallelInputs. apply post_reject. intros Hinv.
  assert (Hn : NoDup (List.map nd_VersionID (p_Nodes plan))).
  { apply ValidatePlan_NoDup. unfold parallel_invalid in Hinv. rewrite !orb_false_iff in Hinv. destruct_and!.
    match goal with E : failed (ValidatePlan plan) = false |- _ => unfold failed in E; apply negb_false_iff in E;
      by destruct (ValidatePlan plan) as [[]|] end. }
  apply post_skip. intros _.
  eapply (post_bind _ _ (fun acc =>
    (forall c f, c ∈ by_candidate candidates -> normalizedParallelism (pc_Parallelism c) = Some f -> pa_facts acc !! pc_VersionID c = Some f) /\
    (forall v f, pa_facts acc !! v = Some f -> sorted_facts f))).
  { apply (post_loop _ (fun seen acc =>
      (forall c f, c ∈ seen -> normalizedParallelism (pc_Parallelism c) = Some f -> pa_facts acc !! pc_VersionID c = Some f) /\
      (forall v f, pa_facts acc !! v = Some f -> sorted_facts f))).
    { split; [intros c f Hc; by apply not_elem_of_nil in Hc|]. intros v f. simpl. by rewrite lookup_empty. }
    intros seen c rest acc _ [Hf Hs]. unfold validate_parallel_candidate. apply post_skip. intros _.
    apply post_reject. intros _. apply post_skip. intros _. destruct (normalizedIDs _ _); [|apply post_raise].
    destruct (normalizedParallelism (pc_Parallelism c)) as [par|] eqn:Ep; [|apply post_raise].
    apply post_reject. intros _. apply post_reject. intros Hfresh%bool_decide_eq_false. apply post_ret.
    cbn [pa_facts]. split.
    - intros d f [Hd| ->%list_elem_of_singleton]%elem_of_app Hp; [|rewrite Ep in Hp; injection Hp as <-; by rewrite lookup_insert_eq].
      rewrite lookup_insert_ne; [by apply Hf|]. intros Heq. apply Hfresh. rewrite Heq. exists f. by apply Hf.
    - intros v f. destruct (decide (pc_VersionID c = v)) as [<-|Hne]; [|rewrite lookup_insert_ne by done; apply Hs].
      rewrite lookup_insert_eq. intros [= <-]. by eapply normalizedParallelism_sorted. }
  intros acc [Hf Hs]. apply post_reject. intros _. apply post_reject. intros _.
  eapply (post_bind _ _ (fun r => snd r = List.filter (inside plan) (cg_Edges graph))).
  { apply (post_loop _ (fun seen (acc : gset string * list CompatibilityEdge) => snd acc = List.filter (inside plan) seen)); [done|].
    intros seen e rest [ids l] _ Hl. unfold recorded_edge. apply post_skip. intros _. apply post_skip. intros _. apply post_reject.
    rewrite negb_false_iff. intros Heq%eqb_prop. apply post_ret. cbn [fst snd] in *. fold (inside plan e) in Heq. rewrite <- Heq.
    rewrite List.filter_app. simpl. rewrite Hl. destruct (inside plan e); simpl; [done|by rewrite app_nil_r]. }
  intros [ids l] Hl. apply post_reject. intros _. apply post_ret. cbn [fst snd] in *. constructor; [done| |done|done].
  intros c f Hc. apply Hf. by apply (sort_slice_elem (cmp_ltb (cmp_on pc_VersionID String.compare))).
Qed.

Lemma add_predecessors_post position edges :
  post (loop (fun _ => add_predecessor position) 0 edges ∅) (fun m => records_predecessors edges m /\
    forall e, e ∈ edges -> (group_of position (ce_SourceVersionID e) < group_of position (ce_TargetVersionID e))%nat).
Proof.
  apply (post_loop _ (fun seen m => records_predecessors seen m /\
    forall e, e ∈ seen -> (group_of position (ce_SourceVersionID e) < group_of position (ce_TargetVersionID e))%nat)).
  { split; [|intros e He; by apply not_elem_of_nil in He]. intros v. unfold successors. by rewrite lookup_empty. }
  intros seen e rest m _ [Hr Hp]. unfold add_predecessor. apply post_reject. intros Hlt%Nat.leb_gt. apply post_ret. split.
  - intros v. unfold successors. rewrite List.filter_app, List.map_app. simpl.
    destruct (String.eqb_spec (ce_TargetVersionID e) v) as [->|Hne].
    + rewrite lookup_insert_eq. simpl. by rewrite <- (Hr v).
    + rewrite lookup_insert_ne by done. simpl. rewrite app_nil_r. apply Hr.
  - intros d [Hd| ->%list_elem_of_singleton]%elem_of_app; [by apply Hp|done].
Qed.

Record schedule_ok (plan : Plan) (graph : CompatibilityGraph) (candidates : list PlannerCandidate)
    (groups : list (list string)) : Prop := {
  so_partition : concat groups ≡ₚ List.map nd_VersionID (p_Nodes plan) /\ NoDup (concat groups);
  so_order : forall e, e ∈ cg_Edges graph -> ce_SourceVersionID e ∈ List.map nd_VersionID (p_Nodes plan) ->
    ce_TargetVersionID e ∈ List.map nd_VersionID (p_Nodes plan) ->
    exists i j gi gj, (i < j)%nat /\ groups !! i = Some gi /\ groups !! j = Some gj /\
      ce_SourceVersionID e ∈ gi /\ ce_TargetVersionID e ∈ gj;
  so_apart : forall group c d f g, group ∈ groups -> c ∈ candidates -> d ∈ candidates ->
    pc_VersionID c ∈ group -> pc_VersionID d ∈ group -> pc_VersionID c <> pc_VersionID d ->
    normalizedParallelism (pc_Parallelism c) = Some f -> normalizedParallelism (pc_Parallelism d) = Some g ->
    ~ interferes f g
}.

Lemma assigned_schedule plan graph candidates facts edges acc :
  parallel_inputs plan graph candidates facts edges ->
  assigned facts edges (List.map nd_VersionID (p_Nodes plan)) acc -> schedule_ok plan graph candidates (fst acc).
Proof.
  intros [Hn Hf Hs ->] [Hp Hm Ho Ha He]. constructor.
  - split; [done|]. by rewrite Hp.
  - intros e Hin Hsrc Htgt. destruct (Hm _ Hsrc) as (i & gi & Hi & Hgi & Hsi), (Hm _ Htgt) as (j & gj & Hj & Hgj & Htj).
    exists i, j, gi, gj. split_and!; try done.
    assert (Hlt := He e). unfold group_of in Hlt. rewrite Hi, Hj in Hlt. apply Hlt; [|done].
    apply list_elem_of_In, filter_In. split; [by apply list_elem_of_In|by apply inside_spec].
  - intros group c d f g Hg Hc Hd Hcg Hdg Hne Hcf Hdf.
    assert (Hfc := Hf c f Hc Hcf). assert (Hfd := Hf d g Hd Hdf).
    assert (Hap := Ha group _ _ Hg Hcg Hdg Hne). unfold facts_of in Hap. by rewrite Hfc, Hfd in Hap.
Qed.

Lemma make_groups_post plan groups :
  post (loop (make_group plan) 0 groups []) (fun made => List.map pg_NodeVersionIDs made = groups).
Proof.
  apply (post_loop _ (fun seen made => List.map pg_NodeVersionIDs made = seen)); [done|].
  intros seen vs rest made _ Hm. unfold make_group. eapply post_bind; [apply post_lift; intros g Hg; exact Hg|].
  intros g Hg. apply post_ret. rewrite List.map_app, Hm. f_equal. simpl. f_equal. unfold canonicalizeParallelGroup in Hg.
  destruct (MarshalAndHash _) as [[? ?]|]; [|done]. by injection Hg as <-.
Qed.

Lemma derive_schedule_post manifest plan graph candidates :
  post (derive_schedule manifest plan graph candidates) (fun s =>
    schedule_ok plan graph candidates (List.map pg_NodeVersionIDs (sch_Groups s))).
Proof.
  unfold derive_schedule. apply post_skip. intros _. eapply post_bind; [apply validateParallelInputs_post|].
  intros [facts edges] Hin. cbn [fst snd] in *. eapply post_bind; [apply add_predecessors_post|]. intros preds [Hrec Hpos].
  eapply post_bind; [apply (assign_nodes_post facts edges (List.map nd_VersionID (p_Nodes plan)))|].
  - intros u. unfold facts_of. destruct (facts !! u) eqn:E; [by eapply (pi_sorted _ _ _ _ _ Hin)|by repeat constructor].
  - apply (pi_versions _ _ _ _ _ Hin).
  - intros e seen rest He Hsplit. pose proof (pi_versions _ _ _ _ _ Hin) as Hn.
    assert (Hi : inside plan e = true) by (rewrite (pi_edges _ _ _ _ _ Hin) in He; apply list_elem_of_In, filter_In in He; tauto).
    apply inside_spec in Hi as [Hsrc _]. apply list_elem_of_lookup_1 in Hsrc as (i & Hi).
    assert (Ht : List.map nd_VersionID (p_Nodes plan) !! length seen = Some (ce_TargetVersionID e))
      by (rewrite Hsplit; by apply list_lookup_middle).
    specialize (Hpos e He). unfold group_of in Hpos.
    rewrite (proj2 (positions_of_lookup _ Hn _ _) Hi), (proj2 (positions_of_lookup _ Hn _ _) Ht) in Hpos.
    rewrite Hsplit, lookup_app_l in Hi by done. by eapply list_elem_of_lookup_2.
  - exact Hrec.
  - done.
  - intros [groups m] Has. eapply post_bind; [apply make_groups_post|]. intros made Hmade.
    apply post_lift. intros s Hs. unfold canonicalizeParallelSchedule in Hs. destruct (MarshalAndHash _) as [[? ?]|]; [|done].
    injection Hs as <-. simpl. rewrite Hmade. by apply (assigned_schedule _ _ _ _ _ _ Hin Has).
Qed.

#[export] Instance intersects_bounded fuel comparisons l r : Bounded (intersects_loop fuel comparisons l r).
Proof.
  revert comparisons l r. induction fuel as [|fuel IH]; intros comparisons [|a l] [|b r]; simpl; bounded_cases.
Qed.

#[export] Instance any_intersects_bounded pairs : Bounded (any_intersects pairs).
Proof. induction pairs as [|[l r] pairs IH]; simpl; unfold intersectsBounded; bounded_cases. Qed.

#[export] Instance groupAccepts_bounded group v facts : Bounded (groupAccepts group v facts).
Proof. induction group as [|u group IH]; simpl; unfold parallelConflict; bounded_cases. Qed.

#[export] Instance find_group_bounded index groups v facts : Bounded (find_group index groups v facts).
Proof. revert index. induction groups as [|g groups IH]; intros index; simpl; bounded_cases. Qed.

#[export] Instance validateParallelInputs_bounded manifest plan graph candidates :
  Bounded (validateParallelInputs manifest plan graph candidates).
Proof.
  unfold validateParallelInputs, validate_graph. bounded_cases.
  - unfold validate_parallel_candidate. pose proof (count_nonneg (pc_GoalPredicateIDs x)).
    pose proof (parallelEntryCount_nonneg (pc_Parallelism x)). bounded_cases.
  - unfold recorded_edge. bounded_cases.
Qed.

#[export] Instance derive_schedule_bounded manifest plan graph candidates : Bounded (derive_schedule manifest plan graph candidates).
Proof. unfold derive_schedule, add_predecessor, assign_node, make_group. bounded_cases. Qed.

End sound.

(** ** Theorems *)
Section claims.
Context `{NFC} `{JCS} `{Digest}.

(** C15: a derived schedule partitions the nodes of the plan; the source of
    every edge of the graph between two nodes is in a strictly earlier group
    than its target; and two candidates placed in the same group do not
    interfere: neither is serial, they share no policy mutex, neither writes
    what the other reads or writes, and neither holds exclusively what the
    other touches. *)
Theorem DeriveParallelSchedule_correct context manifest plan graph candidates schedule s :
  DeriveParallelSchedule context manifest plan graph candidates = (Ok schedule, s) ->
  schedule_ok plan graph candidates (List.map pg_NodeVersionIDs (sch_Groups schedule)).
Proof. intros Hrun. by apply (derive_schedule_post manifest plan graph candidates _ _ _ _ Hrun). Qed.

(** deriving a schedule charges at most [MaximumWorkUnits] units on every path. *)
Theorem DeriveParallelSchedule_within_budget context manifest plan graph candidates :
  in_u64 (ms_MaximumWorkUnits (pm_Spec manifest)) ->
  0 <= used (snd (DeriveParallelSchedule context manifest plan graph candidates)) <= ms_MaximumWorkUnits (pm_Spec manifest).
Proof.
  intros Hm. set (v := mk_env context (ms_MaximumWorkUnits (pm_Spec manifest))).
  assert (Hw : within v fresh) by (split; [simpl; unfold_widths; lia|done]).
  destruct (derive_schedule_bounded manifest plan graph candidates v fresh Hw) as [[Hb _] _]. exact Hb.
Qed.

Definition strip_group (g : ParallelGroup) : ParallelGroup := seal_group g (pg_ID g) (pg_ContentHash g) "".

Lemma hydrate_groups_strip schedule index total seen groups :
  groups_ok schedule index total groups = true -> members_ok seen groups = true ->
  hydrate_groups (List.map strip_group groups) = Ok groups.
Proof.
  revert index total seen. induction groups as [|g groups IH]; intros index total seen Hg Hm; [done|].
  cbn [groups_ok members_ok] in *. rewrite !andb_true_iff in Hg, Hm. destruct Hg as [[Hi _] Hg], Hm as [[Hs _] Hm].
  simpl. unfold hydrate_group. change (seal_group (strip_group g) "" "" "") with (seal_group g "" "" "").
  unfold sealed_as in Hs. destruct (MarshalAndHash _) as [[text hash]|]; [|done].
  apply andb_true_iff in Hs as [->%String.eqb_eq ->%String.eqb_eq].
  unfold group_invalid in Hi. rewrite negb_true_iff, !orb_false_iff, !negb_false_iff in Hi. destruct_and!.
  match goal with E : String.eqb (pg_ID g) _ = true |- _ => apply String.eqb_eq in E as Hid end.
  cbn [strip_group pg_ID pg_ContentHash seal_group]. rewrite Hid, !str_eqb_refl. cbn [negb orb bind].
  rewrite (IH _ _ _ Hg Hm). cbn [bind]. f_equal. f_equal. destruct g. simpl in *. by subst.
Qed.

(** a valid schedule survives the loss of the canonical bytes of itself and
    of its groups, which are not part of its JSON: hydrating it gives it back. *)
Theorem HydrateParallelSchedule_roundtrip schedule :
  ValidateParallelSchedule schedule = Ok tt ->
  HydrateParallelSchedule (set_groups (seal_schedule schedule (sch_ID schedule) (sch_ContentHash schedule) "")
    (List.map strip_group (sch_Groups schedule))) = Ok schedule.
Proof.
  intros Hv. pose proof Hv as Hv'. unfold ValidateParallelSchedule in Hv'. destruct (_ || _) eqn:E1; [done|].
  rewrite !orb_false_iff, !negb_false_iff in E1. destruct_and!.
  destruct (groups_ok _ _ _ _) eqn:Eg; [|done]. destruct (sealed_as _ _ _) eqn:Es; [|done].
  destruct (members_ok _ _) eqn:Em; [|done]. clear Hv'. unfold HydrateParallelSchedule. cbn [sch_Groups set_groups].
  rewrite (hydrate_groups_strip _ _ _ _ _ Eg Em). cbn [bind]. unfold sealed_as in Es.
  match goal with |- context[MarshalAndHash (schedule_json ?x)] =>
    replace x with (seal_schedule schedule "" "" "") by (by destruct schedule) end.
  destruct (MarshalAndHash _) as [[text hash]|]; [|done]. apply andb_true_iff in Es as [->%String.eqb_eq ->%String.eqb_eq].
  match goal with E : String.eqb (sch_ID schedule) _ = true |- _ => apply String.eqb_eq in E as Hid end.
  cbn [sch_ID sch_ContentHash set_groups seal_schedule]. rewrite Hid, !str_eqb_refl. cbn [negb orb].
  match goal with |- context[failed (ValidateParallelSchedule ?x)] =>
    replace x with schedule by (destruct schedule; simpl in *; by subst) end.
  by rewrite Hv.
Qed.

End claims.

(** ** A schedule: two readers of a build, one of which writes what the other reads *)
Section demo.
#[local] Existing Instance copy_nfc.
#[local] Existing Instance copy_jcs.
#[local] Existing Instance checksum_digest.

Definition demo_resource : string := ("res_" ++ demo_hash "report")%string.

Definition schedule_candidates : list PlannerCandidate := Eval vm_compute in
  [demo_planner_candidate "build" demo_build_interface false [] no_parallelism;
   demo_planner_candidate "lint" demo_test_interface true ["linted"] (mk_ParallelismFacts [demo_resource] [] [] [] false false);
   demo_planner_candidate "scan" demo_test_interface true ["scanned"] no_parallelism;
   demo_planner_candidate "test" demo_test_interface true ["tested"] (mk_ParallelismFacts [] [demo_resource] [] [] false false)].

Definition schedule_input : PlanRequest := Eval vm_compute in
  demo_plan_request schedule_candidates ["linted"; "scanned"; "tested"].

Definition schedule_plan : Plan := Eval vm_compute in demo_value empty_plan (BuildPlan demo_manifest schedule_input).

Definition empty_schedule : ParallelSchedule := mk_ParallelSchedule "" "" "" 0 "" "" "" "" "" "" [] "" "".

Definition demo_schedule : ParallelSchedule := Eval vm_compute in
  demo_value empty_schedule (fst (DeriveParallelSchedule (fun _ => Live) demo_manifest schedule_plan
    (pr_Graph schedule_input) schedule_candidates)).

Example demo_groups :
  List.map pg_NodeVersionIDs (sch_Groups demo_schedule) = [["build"]; ["lint"; "scan"]; ["test"]]%string.
Proof. reflexivity. Qed.

Lemma demo_scheduled :
  DeriveParallelSchedule (fun _ => Live) demo_manifest schedule_plan (pr_Graph schedule_input) schedule_candidates =
  (Ok demo_schedule, snd (DeriveParallelSchedule (fun _ => Live) demo_manifest schedule_plan (pr_Graph schedule_input)
     schedule_candidates)).
Proof. vm_compute. reflexivity. Qed.

Lemma DeriveParallelSchedule_correct_witness :
  schedule_ok schedule_plan (pr_Graph schedule_input) schedule_candidates
    (List.map pg_NodeVersionIDs (sch_Groups demo_schedule)).
Proof. exact (DeriveParallelSchedule_correct _ _ _ _ _ _ _ demo_scheduled). Defined.

Lemma DeriveParallelSchedule_within_budget_witness :
  0 <= used (snd (DeriveParallelSchedule (fun _ => Live) demo_manifest schedule_plan (pr_Graph schedule_input)
    schedule_candidates)) <= 4096.
Proof. apply (DeriveParallelSchedule_within_budget (fun _ => Live) demo_manifest). vm_compute. done. Defined.

Lemma HydrateParallelSchedule_roundtrip_witness :
  HydrateParallelSchedule (set_groups (seal_schedule demo_schedule (sch_ID demo_schedule) (sch_ContentHash demo_schedule) "")
    (List.map strip_group (sch_Groups demo_schedule))) = Ok demo_schedule.
Proof. apply (HydrateParallelSchedule_roundtrip demo_schedule). vm_compute. reflexivity. Defined.

End demo.
