(* ===== verification/Experiment.v ===== *)
(** * Champion and challenger experiments (internal/experiment, internal/store/memory/experiment.go)

    A manifest fixes the champion, the challengers, the share of queries that
    may see a challenger and the exposure limits.  [Assign] routes one query
    bucket deterministically; the in-memory repository's [Reserve] charges the
    tenant's and the global exposure budgets of the window.

    [Assign_exact] says when a challenger is served, [Assign_validates] that a
    sealed assignment passes its validator, [Reserve_exposure_bounded] that no
    sequence of reservations exceeds the limits, and [Reserve_stable] that a
    reserved routing is never changed by later traffic. *)

From Stdlib Require Import ZArith String Ascii List Bool Lia.
From stdpp Require Import base gmap strings list fin_maps sorting.
From S2P Require Import Prelude GoStrings GoTime Canonical.

Open Scope Z_scope.
Open Scope go_scope.

(** ** manifest.go *)
Definition BucketCount : Z := 1000000.

Record ManifestSpec := mk_ManifestSpec {
  ms_Version : string;
  ms_TenantID : string;
  ms_ProcedureID : string;
  ms_ChampionVersionID : string;
  ms_ChallengerVersionIDs : list string;
  ms_ExperimentEpoch : Z;
  ms_ChallengerExposurePPM : Z;
  ms_MaximumConcurrentTrials : Z;
  ms_TenantExposureLimit : Z;
  ms_GlobalExposureLimit : Z;
  ms_TenantUnsafeOutcomeCeiling : Z;
  ms_GlobalUnsafeOutcomeCeiling : Z;
  ms_ExposureWindowSeconds : Z;
  ms_AssignmentTTLSeconds : Z;
  ms_TenantHighRiskOptIn : bool
}.

Record Manifest := mk_Manifest {
  mf_SchemaVersion : string;
  mf_Spec : ManifestSpec;
  mf_ID : string;
  mf_ContentHash : string;
  mf_CanonicalJSON : string
}.

Definition manifest_json (schema : string) (s : ManifestSpec) : json :=
  JObj (fstr "schema_version" schema ++ fstr "version" (ms_Version s) ++ fstr "tenant_id" (ms_TenantID s) ++
    fstr "procedure_id" (ms_ProcedureID s) ++ fstr "champion_version_id" (ms_ChampionVersionID s) ++
    fstrs "challenger_version_ids" (ms_ChallengerVersionIDs s) ++ fnum "experiment_epoch" (ms_ExperimentEpoch s) ++
    fnum "challenger_exposure_ppm" (ms_ChallengerExposurePPM s) ++
    fnum "maximum_concurrent_trials" (ms_MaximumConcurrentTrials s) ++
    fnum "tenant_exposure_limit" (ms_TenantExposureLimit s) ++
    fnum "global_exposure_limit" (ms_GlobalExposureLimit s) ++
    fnum "tenant_unsafe_outcome_ceiling" (ms_TenantUnsafeOutcomeCeiling s) ++
    fnum "global_unsafe_outcome_ceiling" (ms_GlobalUnsafeOutcomeCeiling s) ++
    fnum "exposure_window_seconds" (ms_ExposureWindowSeconds s) ++
    fnum "assignment_ttl_seconds" (ms_AssignmentTTLSeconds s) ++
    fbool "tenant_high_risk_opt_in" (ms_TenantHighRiskOptIn s)).

(** A blank, a tab, a line feed or a carriage return. *)
Definition token_space (a : ascii) : bool :=
  let b := byte_of a in (b =? 32) || (b =? 9) || (b =? 10) || (b =? 13).

Fixpoint drop_spaces (l : list ascii) : list ascii :=
  match l with
  | a :: l' => if token_space a then drop_spaces l' else l
  | [] => []
  end.

Definition token (value : string) : string :=
  string_of_list_ascii (rev (drop_spaces (rev (drop_spaces (list_ascii_of_string value))))).

Definition normalizeVersions (source : list string) : list string := sort_strings (List.map token source).

Definition normalizeSpec (s : ManifestSpec) : ManifestSpec :=
  mk_ManifestSpec (token (ms_Version s)) (ms_TenantID s) (token (ms_ProcedureID s)) (token (ms_ChampionVersionID s))
    (normalizeVersions (ms_ChallengerVersionIDs s)) (ms_ExperimentEpoch s) (ms_ChallengerExposurePPM s)
    (ms_MaximumConcurrentTrials s) (ms_TenantExposureLimit s) (ms_GlobalExposureLimit s)
    (ms_TenantUnsafeOutcomeCeiling s) (ms_GlobalUnsafeOutcomeCeiling s) (ms_ExposureWindowSeconds s)
    (ms_AssignmentTTLSeconds s) (ms_TenantHighRiskOptIn s).

Definition maximumWindow : Z := 31 * 24 * 60 * 60.

(** The loop over the challengers: tokens, none of them the champion, strictly increasing. *)
Fixpoint challengers_ok (champion : string) (prev : option string) (l : list string) : bool :=
  match l with
  | [] => true
  | v :: l =>
      negb (negb (tokenPattern v) || String.eqb v champion ||
            match prev with Some p => negb (str_ltb p v) | None => false end) &&
      challengers_ok champion (Some v) l
  end.

Definition validManifest (s : ManifestSpec) : bool :=
  let challengers := Z.of_nat (length (ms_ChallengerVersionIDs s)) in
  negb (negb (tokenPattern (ms_Version s)) || String.eqb (ms_TenantID s) "" || negb (tokenPattern (ms_ProcedureID s)) ||
    negb (tokenPattern (ms_ChampionVersionID s)) || (ms_ExperimentEpoch s =? 0) ||
    (BucketCount <? ms_ChallengerExposurePPM s) || (ms_ChallengerExposurePPM s =? 0) ||
    (ms_MaximumConcurrentTrials s =? 0) || (challengers =? 0) || (ms_MaximumConcurrentTrials s <? challengers) ||
    (ms_TenantExposureLimit s =? 0) || (ms_GlobalExposureLimit s <? ms_TenantExposureLimit s) ||
    (ms_ExposureWindowSeconds s =? 0) || (maximumWindow <? ms_ExposureWindowSeconds s) ||
    (ms_AssignmentTTLSeconds s =? 0) || (ms_ExposureWindowSeconds s <? ms_AssignmentTTLSeconds s)) &&
  challengers_ok (ms_ChampionVersionID s) None (ms_ChallengerVersionIDs s).

(** ** assign.go *)
Definition RiskLow : string := "low".
Definition RiskMedium : string := "medium".
Definition RiskHigh : string := "high".
Definition RiskCritical : string := "critical".

Definition validRisk (value : string) : bool :=
  String.eqb value RiskLow || String.eqb value RiskMedium || String.eqb value RiskHigh || String.eqb value RiskCritical.

Record ExposureSnapshot := mk_ExposureSnapshot {
  ex_WindowStart : gotime;
  ex_TenantExposureCount : Z;
  ex_GlobalExposureCount : Z;
  ex_TenantUnsafeCount : Z;
  ex_GlobalUnsafeCount : Z;
  ex_ConcurrentTrialCount : Z
}.

Record AssignmentRequest := mk_AssignmentRequest {
  ar_Manifest : Manifest;
  ar_QueryBucketHash : string;
  ar_Risk : string;
  ar_Exposure : ExposureSnapshot;
  ar_AssignedAt : gotime
}.

Record Assignment := mk_Assignment {
  as_SchemaVersion : string;
  as_ID : string;
  as_TenantID : string;
  as_ManifestID : string;
  as_AssignmentKeyHash : string;
  as_QueryBucketHash : string;
  as_AssignedProcedureVersionID : string;
  as_Bucket : Z;
  as_Challenger : bool;
  as_Risk : string;
  as_ReasonCodes : list string;
  as_WindowStart : gotime;
  as_CreatedAt : gotime;
  as_ExpiresAt : gotime;
  as_ContentHash : string;
  as_CanonicalJSON : string
}.

Definition assignment_json (a : Assignment) : json :=
  JObj (fstr "schema_version" (as_SchemaVersion a) ++ fstr "experiment_assignment_id" (as_ID a) ++
    fstr "tenant_id" (as_TenantID a) ++ fstr "experiment_manifest_id" (as_ManifestID a) ++
    fstr "assignment_key_hash" (as_AssignmentKeyHash a) ++ fstr "query_bucket_hash" (as_QueryBucketHash a) ++
    fstr "assigned_procedure_version_id" (as_AssignedProcedureVersionID a) ++ fnum "bucket" (as_Bucket a) ++
    fbool "challenger" (as_Challenger a) ++ fstr "risk" (as_Risk a) ++ fstrs "reason_codes" (as_ReasonCodes a) ++
    ftime "window_start" (as_WindowStart a) ++ ftime "created_at" (as_CreatedAt a) ++
    ftime "expires_at" (as_ExpiresAt a) ++ fstr_omit "content_hash" (as_ContentHash a)).

Definition ReasonChallengerBucket : string := "challenger_bucket".
Definition ReasonChampionBucket : string := "champion_bucket".
Definition ReasonCriticalRisk : string := "critical_risk_champion_only".
Definition ReasonHighRiskOptInRequired : string := "high_risk_opt_in_required".
Definition ReasonConcurrentTrialCap : string := "concurrent_trial_cap_reached".
Definition ReasonTenantExposureCap : string := "tenant_exposure_cap_reached".
Definition ReasonGlobalExposureCap : string := "global_exposure_cap_reached".
Definition ReasonTenantUnsafeCeiling : string := "tenant_unsafe_ceiling_exceeded".
Definition ReasonGlobalUnsafeCeiling : string := "global_unsafe_ceiling_exceeded".

Definition CanonicalWindowStart (m : ManifestSpec) (assignedAt : gotime) : gotime :=
  if IsZero assignedAt || (ms_ExposureWindowSeconds m =? 0) then zero_time
  else Truncate (UTC assignedAt) (seconds (ms_ExposureWindowSeconds m)).

Definition validExposure (m : ManifestSpec) (assignedAt windowStart : gotime) : bool :=
  let window := seconds (ms_ExposureWindowSeconds m) in
  negb (IsZero assignedAt) && time_Equal assignedAt (UTC assignedAt) && negb (IsZero windowStart) &&
  time_Equal windowStart (UTC windowStart) && negb (After windowStart assignedAt) &&
  Before assignedAt (time_Add windowStart window).

(** [hex.DecodeString] *)
Definition fromHexChar (a : ascii) : option Z :=
  let b := byte_of a in
  if (48 <=? b) && (b <=? 57) then Some (b - 48)
  else if (97 <=? b) && (b <=? 102) then Some (b - 87)
  else if (65 <=? b) && (b <=? 70) then Some (b - 55)
  else None.

Fixpoint DecodeString (l : list ascii) : option (list Z) :=
  match l with
  | [] => Some []
  | [_] => None
  | a :: b :: l =>
      match fromHexChar a, fromHexChar b, DecodeString l with
      | Some x, Some y, Some rest => Some (x * 16 + y :: rest)
      | _, _, _ => None
      end
  end.

(** [binary.BigEndian.Uint64] *)
Definition Uint64 (l : list Z) : Z := foldl (fun acc b => acc * 256 + b) 0 l.

(** The routing decision so far: whether a challenger is still possible, and the reasons. *)
Definition routing : Type := bool * list string.

(** One guard: "[challenger = false; reasons = append(reasons, reason)]". *)
Definition gate (blocked : bool) (reason : string) (r : routing) : routing :=
  if blocked then (false, snd r ++ [reason]) else r.

Definition route (m : ManifestSpec) (risk : string) (e : ExposureSnapshot) (bucket : Z) : routing :=
  let challenger := bucket <? ms_ChallengerExposurePPM m in
  let r := (challenger, if negb challenger then [ReasonChampionBucket] else []) in
  let r := gate (String.eqb risk RiskCritical) ReasonCriticalRisk r in
  let r := gate (String.eqb risk RiskHigh && negb (ms_TenantHighRiskOptIn m)) ReasonHighRiskOptInRequired r in
  let r := gate (ms_MaximumConcurrentTrials m <? ex_ConcurrentTrialCount e) ReasonConcurrentTrialCap r in
  let r := gate (ms_TenantExposureLimit m <=? ex_TenantExposureCount e) ReasonTenantExposureCap r in
  let r := gate (ms_GlobalExposureLimit m <=? ex_GlobalExposureCount e) ReasonGlobalExposureCap r in
  let r := gate (ms_TenantUnsafeOutcomeCeiling m <? ex_TenantUnsafeCount e) ReasonTenantUnsafeCeiling r in
  gate (ms_GlobalUnsafeOutcomeCeiling m <? ex_GlobalUnsafeCount e) ReasonGlobalUnsafeCeiling r.

Definition pick_challenger (m : ManifestSpec) (digest : list Z) : string :=
  nth (Z.to_nat (Uint64 (firstn 8 (skipn 8 digest)) mod Z.of_nat (length (ms_ChallengerVersionIDs m))))
    (ms_ChallengerVersionIDs m) "".

Definition assignment_key_json (m : ManifestSpec) (queryBucketHash : string) : json :=
  JObj (fstr "tenant_id" (ms_TenantID m) ++ fstr "procedure_id" (ms_ProcedureID m) ++
    fstr "query_bucket_hash" queryBucketHash ++ fnum "experiment_epoch" (ms_ExperimentEpoch m)).

(** The assignment ends with its lifetime or with its window, whichever is first. *)
Definition expiry (m : ManifestSpec) (assignedAt windowStart : gotime) : gotime :=
  let expiresAt := time_Add assignedAt (seconds (ms_AssignmentTTLSeconds m)) in
  let windowEnd := time_Add windowStart (seconds (ms_ExposureWindowSeconds m)) in
  if After expiresAt windowEnd then windowEnd else expiresAt.

Definition with_seal (a : Assignment) (id hash encoded : string) (reasons : list string) : Assignment :=
  mk_Assignment (as_SchemaVersion a) id (as_TenantID a) (as_ManifestID a) (as_AssignmentKeyHash a)
    (as_QueryBucketHash a) (as_AssignedProcedureVersionID a) (as_Bucket a) (as_Challenger a) (as_Risk a) reasons
    (as_WindowStart a) (as_CreatedAt a) (as_ExpiresAt a) hash encoded.

Definition EquivalentRouting (l r : Assignment) : bool :=
  String.eqb (as_TenantID l) (as_TenantID r) && String.eqb (as_ManifestID l) (as_ManifestID r) &&
  String.eqb (as_AssignmentKeyHash l) (as_AssignmentKeyHash r) &&
  String.eqb (as_QueryBucketHash l) (as_QueryBucketHash r) &&
  String.eqb (as_AssignedProcedureVersionID l) (as_AssignedProcedureVersionID r) &&
  (as_Bucket l =? as_Bucket r) && Bool.eqb (as_Challenger l) (as_Challenger r) &&
  String.eqb (as_Risk l) (as_Risk r) && time_Equal (as_WindowStart l) (as_WindowStart r).

(** ** store/memory/experiment.go *)
Record experimentBudget := mk_budget { eb_Exposure : Z; eb_Unsafe : Z }.

Record ExperimentRepository := mk_repo {
  manifests : gmap string Manifest;
  epochs : gmap string string;
  assignments : gmap string Assignment;
  tenant : gmap string experimentBudget;
  global : gmap string experimentBudget
}.

Definition NewExperimentRepository : ExperimentRepository := mk_repo ∅ ∅ ∅ ∅ ∅.

Inductive Disposition := DispositionReserved | DispositionDuplicate.

Record Reservation := mk_Reservation { rs_Assignment : Assignment; rs_Disposition : Disposition }.

Definition experimentAssignmentKey (tenantID manifestID keyHash : string) : string :=
  (tenantID ++ nul ++ manifestID ++ nul ++ keyHash)%string.

Definition experimentEpochKey (tenantID procedureID : string) (epoch : Z) : string :=
  (tenantID ++ nul ++ procedureID ++ nul ++ num_string epoch)%string.

Definition experimentBudgetKey (scope window : string) : string := (scope ++ nul ++ window)%string.

Definition budget_at (m : gmap string experimentBudget) (k : string) : experimentBudget :=
  default (mk_budget 0 0) (m !! k).

Definition assignment_key (a : Assignment) : string :=
  experimentAssignmentKey (as_TenantID a) (as_ManifestID a) (as_AssignmentKeyHash a).

(** The request with the larger of the snapshot's and the budgets' counters. *)
Definition raised (req : AssignmentRequest) (windowStart : gotime) (tb gb : experimentBudget) : AssignmentRequest :=
  let e := ar_Exposure req in
  mk_AssignmentRequest (ar_Manifest req) (ar_QueryBucketHash req) (ar_Risk req)
    (mk_ExposureSnapshot windowStart (Z.max (ex_TenantExposureCount e) (eb_Exposure tb))
       (Z.max (ex_GlobalExposureCount e) (eb_Exposure gb)) (Z.max (ex_TenantUnsafeCount e) (eb_Unsafe tb))
       (Z.max (ex_GlobalUnsafeCount e) (eb_Unsafe gb)) (ex_ConcurrentTrialCount e))
    (ar_AssignedAt req).

(** "[if assignment.Challenger { budget.Exposure++ }]", then the new unsafe count. *)
Definition charge_budget (challenger : bool) (unsafe : Z) (b : experimentBudget) : experimentBudget :=
  mk_budget (if challenger then wrap_u64 (eb_Exposure b + 1) else eb_Exposure b) unsafe.

Section assign.
Context `{JCS} `{Digest}.

Definition NewManifest (spec : ManifestSpec) : result Manifest :=
  let schema := "experiment-manifest.v1"%string in
  let spec := normalizeSpec spec in
  reject negb (validManifest spec) with ErrInvalidExperiment;
  let* (encoded, hash) := MarshalAndHash (manifest_json schema spec) in
  Ok (mk_Manifest schema spec ("expman_" ++ hash)%string hash encoded).

Definition ValidateManifest (m : Manifest) : bool :=
  match NewManifest (mf_Spec m) with
  | Err _ => false
  | Ok rebuilt =>
      String.eqb (mf_SchemaVersion m) (mf_SchemaVersion rebuilt) && String.eqb (mf_ID m) (mf_ID rebuilt) &&
      String.eqb (mf_ContentHash m) (mf_ContentHash rebuilt) &&
      String.eqb (mf_CanonicalJSON m) (mf_CanonicalJSON rebuilt)
  end.

Definition sealAssignment (value : Assignment) : result Assignment :=
  let value := with_seal value "" "" "" (sort_strings (as_ReasonCodes value)) in
  let* (encoded, hash) := MarshalAndHash (assignment_json value) in
  Ok (with_seal value ("expasn_" ++ hash)%string hash encoded (as_ReasonCodes value)).

(** The body of [Assign] once the digest of the assignment key is known. *)
Definition draft_assignment (req : AssignmentRequest) (keyHash : string) (digest : list Z) : Assignment :=
  let m := mf_Spec (ar_Manifest req) in
  let windowStart := CanonicalWindowStart m (ar_AssignedAt req) in
  let bucket := wrap_u32 (Uint64 (firstn 8 digest) mod BucketCount) in
  let '(challenger, reasons) := route m (ar_Risk req) (ar_Exposure req) bucket in
  mk_Assignment "experiment-assignment.v1" "" (ms_TenantID m) (mf_ID (ar_Manifest req)) keyHash (ar_QueryBucketHash req)
    (if challenger then pick_challenger m digest else ms_ChampionVersionID m) bucket challenger (ar_Risk req)
    (if challenger then reasons ++ [ReasonChallengerBucket] else reasons)
    windowStart (ar_AssignedAt req) (expiry m (ar_AssignedAt req) windowStart) "" "".

Definition Assign (req : AssignmentRequest) : result Assignment :=
  let m := mf_Spec (ar_Manifest req) in
  reject negb (ValidateManifest (ar_Manifest req)) || negb (sha256Pattern (ar_QueryBucketHash req)) ||
         negb (validRisk (ar_Risk req)) with ErrInvalidExperiment;
  reject negb (validExposure m (ar_AssignedAt req) (CanonicalWindowStart m (ar_AssignedAt req))) with ErrInvalidExperiment;
  let* (_, keyHash) := MarshalAndHash (assignment_key_json m (ar_QueryBucketHash req)) in
  match DecodeString (list_ascii_of_string keyHash) with
  | None => Err ErrInvalidExperiment
  | Some digest =>
      reject negb (Z.of_nat (length digest) =? 32) with ErrInvalidExperiment;
      sealAssignment (draft_assignment req keyHash digest)
  end.

Definition assignment_invalid (a : Assignment) : bool :=
  negb (String.eqb (as_SchemaVersion a) "experiment-assignment.v1") ||
  negb (String.eqb (as_ID a) ("expasn_" ++ as_ContentHash a)) || negb (sha256Pattern (as_ContentHash a)) ||
  String.eqb (as_TenantID a) "" || negb (tokenPattern (as_ManifestID a)) ||
  negb (sha256Pattern (as_AssignmentKeyHash a)) || negb (sha256Pattern (as_QueryBucketHash a)) ||
  negb (tokenPattern (as_AssignedProcedureVersionID a)) || (BucketCount <=? as_Bucket a) ||
  negb (validRisk (as_Risk a)) || IsZero (as_CreatedAt a) || IsZero (as_ExpiresAt a) ||
  negb (time_Equal (as_CreatedAt a) (UTC (as_CreatedAt a))) ||
  negb (time_Equal (as_ExpiresAt a) (UTC (as_ExpiresAt a))) || negb (After (as_ExpiresAt a) (as_CreatedAt a)) ||
  IsZero (as_WindowStart a) || negb (time_Equal (as_WindowStart a) (UTC (as_WindowStart a))) ||
  (Z.of_nat (length (as_ReasonCodes a)) =? 0).

Definition ValidateAssignment (a : Assignment) : result unit :=
  reject assignment_invalid a with ErrInvalidExperiment;
  reject negb (tokens_from None (as_ReasonCodes a)) with ErrInvalidExperiment;
  match sealAssignment (with_seal a "" "" "" (as_ReasonCodes a)) with
  | Err _ => Err ErrInvalidExperiment
  | Ok rebuilt =>
      reject negb (String.eqb (as_ID rebuilt) (as_ID a)) ||
             negb (String.eqb (as_CanonicalJSON rebuilt) (as_CanonicalJSON a)) with ErrInvalidExperiment;
      Ok tt
  end.

(** The part of [Reserve] after the lookup of an existing assignment. *)
Definition reserve_new (r : ExperimentRepository) (req : AssignmentRequest) (candidate : Assignment)
    : result Reservation * ExperimentRepository :=
  let m := ar_Manifest req in
  let epochKey := experimentEpochKey (ms_TenantID (mf_Spec m)) (ms_ProcedureID (mf_Spec m)) (ms_ExperimentEpoch (mf_Spec m)) in
  if match epochs r !! epochKey with Some id => negb (String.eqb id (mf_ID m)) | None => false end
  then (Err ErrExperimentConflict, r)
  else
    let window := utc_string (as_WindowStart candidate) in
    let tenantKey := experimentBudgetKey (ms_TenantID (mf_Spec m)) window in
    let globalKey := experimentBudgetKey "_global" window in
    let tenantBudget := budget_at (tenant r) tenantKey in
    let globalBudget := budget_at (global r) globalKey in
    let req := raised req (as_WindowStart candidate) tenantBudget globalBudget in
    match Assign req with
    | Err e => (Err e, r)
    | Ok a =>
        (Ok (mk_Reservation a DispositionReserved),
         mk_repo (<[mf_ID m := m]> (manifests r)) (<[epochKey := mf_ID m]> (epochs r))
           (<[assignment_key candidate := a]> (assignments r))
           (<[tenantKey := charge_budget (as_Challenger a) (ex_TenantUnsafeCount (ar_Exposure req)) tenantBudget]> (tenant r))
           (<[globalKey := charge_budget (as_Challenger a) (ex_GlobalUnsafeCount (ar_Exposure req)) globalBudget]> (global r)))
    end.

Definition Reserve (r : ExperimentRepository) (ctx : option goerr) (req : AssignmentRequest)
    : result Reservation * ExperimentRepository :=
  match ctx with
  | Some e => (Err e, r)
  | None =>
      match Assign req with
      | Err e => (Err e, r)
      | Ok candidate =>
          match assignments r !! assignment_key candidate with
          | Some existing =>
              if negb (String.eqb (as_QueryBucketHash existing) (as_QueryBucketHash candidate)) ||
                 negb (String.eqb (as_Risk existing) (as_Risk candidate))
              then (Err ErrExperimentConflict, r)
              else (Ok (mk_Reservation existing DispositionDuplicate), r)
          | None => reserve_new r req candidate
          end
      end
  end.

(** [Find]; [None] is the nil repository. *)
Definition Find (r : option ExperimentRepository) (ctx : option goerr) (tenantID manifestID keyHash : string) : result Assignment :=
  match ctx, r with
  | Some e, _ => Err e
  | None, None => Err ErrExperimentNotFound
  | None, Some r =>
      match assignments r !! experimentAssignmentKey tenantID manifestID keyHash with
      | Some value => Ok value
      | None => Err ErrExperimentNotFound
      end
  end.

(** The state after a sequence of reservations. *)
Definition reserve_all (r : ExperimentRepository) (trace : list (option goerr * AssignmentRequest)) : ExperimentRepository :=
  foldl (fun r call => snd (Reserve r (fst call) (snd call))) r trace.
End assign.

(** ** The digest decodes *)
Lemma fromHexChar_lower a : is_lower_hex a = true -> exists x, fromHexChar a = Some x.
Proof.
  unfold is_lower_hex, fromHexChar. intros Hl. destruct ((48 <=? byte_of a) && (byte_of a <=? 57)); [by eexists|].
  simpl in Hl. rewrite Hl. by eexists.
Qed.

Lemma DecodeString_lower n l :
  length l = (2 * n)%nat -> forallb is_lower_hex l = true -> exists d, DecodeString l = Some d /\ length d = n.
Proof.
  revert l. induction n as [|n IH]; intros l Hl Hx.
  { destruct l; [by exists []|done]. }
  destruct l as [|a [|b l]]; simpl in Hl; try lia. simpl in Hx. rewrite !andb_true_iff in Hx. destruct Hx as (Ha & Hb & Hx).
  destruct (fromHexChar_lower a Ha) as [x Hxa]. destruct (fromHexChar_lower b Hb) as [y Hyb].
  destruct (IH l ltac:(lia) Hx) as (d & Hd & Hlen). exists (x * 16 + y :: d). simpl. rewrite Hxa, Hyb, Hd.
  split; [done|]. simpl. by rewrite Hlen.
Qed.

Lemma list_ascii_length s : length (list_ascii_of_string s) = String.length s.
Proof. induction s as [|a s IH]; simpl; [done|]. by rewrite IH. Qed.

Lemma DecodeString_digest h :
  sha256Pattern h = true -> exists d, DecodeString (list_ascii_of_string h) = Some d /\ length d = 32%nat.
Proof.
  unfold sha256Pattern, str_len. rewrite andb_true_iff, Z.eqb_eq. intros [Hl Hx].
  apply DecodeString_lower; [|done]. rewrite list_ascii_length. lia.
Qed.

(** ** The gates *)
Lemma gate_fst b reason r : fst (gate b reason r) = negb b && fst r.
Proof. by destruct b. Qed.

Lemma gate_snd b reason r : snd (gate b reason r) = snd r ++ (if b then [reason] else []).
Proof. destruct b; simpl; [done|]. by rewrite app_nil_r. Qed.

Definition reasoned (r : routing) : Prop := fst r = false -> snd r <> [].

Lemma gate_reasoned b reason r : reasoned r -> reasoned (gate b reason r).
Proof. unfold reasoned, gate. destruct b; simpl; [|done]. intros _ _. by destruct (snd r). Qed.

Lemma route_reasoned m risk e bucket : reasoned (route m risk e bucket).
Proof. unfold route. repeat apply gate_reasoned. unfold reasoned. by destruct (bucket <? _). Qed.

(** A challenger may be served: the bucket is in its share, the risk allows
    it, and no cap is reached. *)
Definition may_explore (m : ManifestSpec) (risk : string) (e : ExposureSnapshot) (bucket : Z) : Prop :=
  bucket < ms_ChallengerExposurePPM m /\ risk <> RiskCritical /\
  (risk = RiskHigh -> ms_TenantHighRiskOptIn m = true) /\
  ex_ConcurrentTrialCount e <= ms_MaximumConcurrentTrials m /\
  ex_TenantExposureCount e < ms_TenantExposureLimit m /\
  ex_GlobalExposureCount e < ms_GlobalExposureLimit m /\
  ex_TenantUnsafeCount e <= ms_TenantUnsafeOutcomeCeiling m /\
  ex_GlobalUnsafeCount e <= ms_GlobalUnsafeOutcomeCeiling m.

Lemma route_fst m risk e bucket : fst (route m risk e bucket) = true <-> may_explore m risk e bucket.
Proof.
  unfold route, may_explore. rewrite !gate_fst. cbn [fst]. autorewrite with goboolsimpl.
  assert (Hr : (risk <> RiskHigh \/ ms_TenantHighRiskOptIn m = true) <-> (risk = RiskHigh -> ms_TenantHighRiskOptIn m = true)).
  { destruct (String.eqb_spec risk RiskHigh); tauto. }
  rewrite <- Hr. tauto.
Qed.

Definition all_reasons : list string :=
  [ReasonChampionBucket; ReasonCriticalRisk; ReasonHighRiskOptInRequired; ReasonConcurrentTrialCap;
   ReasonTenantExposureCap; ReasonGlobalExposureCap; ReasonTenantUnsafeCeiling; ReasonGlobalUnsafeCeiling;
   ReasonChallengerBucket].

Lemma optional_sublist {A} (b : bool) (x : A) : (if b then [x] else []) `sublist_of` [x].
Proof. destruct b; [done|apply sublist_nil_l]. Qed.

Lemma route_reasons m risk e bucket (challenger : bool) :
  snd (route m risk e bucket) ++ (if challenger then [ReasonChallengerBucket] else []) `sublist_of` all_reasons.
Proof.
  unfold route. rewrite !gate_snd. cbn [snd].
  change all_reasons with ((((((((([ReasonChampionBucket] ++ [ReasonCriticalRisk]) ++ [ReasonHighRiskOptInRequired]) ++
    [ReasonConcurrentTrialCap]) ++ [ReasonTenantExposureCap]) ++ [ReasonGlobalExposureCap]) ++
    [ReasonTenantUnsafeCeiling]) ++ [ReasonGlobalUnsafeCeiling]) ++ [ReasonChallengerBucket])).
  repeat (apply sublist_app; [|apply optional_sublist]). apply optional_sublist.
Qed.

(** ** Manifests *)
Lemma challengers_ok_some champion p l :
  challengers_ok champion (Some p) l = tokens_from (Some p) l && forallb (fun v => negb (String.eqb v champion)) l.
Proof.
  revert p. induction l as [|v l IH]; intros p; simpl; [done|]. rewrite IH.
  destruct (tokenPattern v), (String.eqb v champion), (str_ltb p v), (tokens_from (Some v) l); done.
Qed.

Lemma challengers_ok_none champion l :
  challengers_ok champion None l = tokens_from None l && forallb (fun v => negb (String.eqb v champion)) l.
Proof.
  destruct l as [|v l]; simpl; [done|]. rewrite challengers_ok_some.
  destruct (tokenPattern v), (String.eqb v champion), (tokens_from (Some v) l); done.
Qed.

(** The counters of a manifest are unsigned. *)
Definition manifest_typed (s : ManifestSpec) : Prop :=
  in_u64 (ms_ExposureWindowSeconds s) /\ in_u64 (ms_AssignmentTTLSeconds s) /\
  in_u64 (ms_TenantExposureLimit s) /\ in_u64 (ms_GlobalExposureLimit s).

Lemma validManifest_facts s :
  validManifest s = true ->
  ms_TenantID s <> ""%string /\ tokenPattern (ms_ChampionVersionID s) = true /\ ms_ChallengerVersionIDs s <> [] /\
  forallb tokenPattern (ms_ChallengerVersionIDs s) = true /\ ms_ExposureWindowSeconds s <> 0 /\
  ms_ExposureWindowSeconds s <= maximumWindow /\ ms_AssignmentTTLSeconds s <> 0 /\
  ms_AssignmentTTLSeconds s <= ms_ExposureWindowSeconds s.
Proof.
  unfold validManifest. rewrite challengers_ok_none, tokens_from_none. autorewrite with goboolsimpl.
  intros (Hv & (Htok & _) & _). destruct_and? Hv. split_and!; try done.
  intros Heq. rewrite Heq in *. done.
Qed.

Lemma nth_mod_in (l : list string) x : l <> [] -> nth (Z.to_nat (x mod Z.of_nat (length l))) l "" ∈ l.
Proof.
  intros Hl. apply list_elem_of_In, nth_In. assert (0 < length l)%nat by (destruct l; simpl; [done|lia]).
  pose proof (Z.mod_pos_bound x (Z.of_nat (length l)) ltac:(lia)). lia.
Qed.

Section assign_facts.
Context `{JCS} `{Digest}.

Lemma experiment_manifest_inv spec m :
  NewManifest spec = Ok m ->
  mf_Spec m = normalizeSpec spec /\ validManifest (mf_Spec m) = true /\
  mf_ID m = ("expman_" ++ mf_ContentHash m)%string /\ sha256Pattern (mf_ContentHash m) = true.
Proof.
  unfold NewManifest. destruct (validManifest _) eqn:Hv; [|done]. simpl.
  destruct (MarshalAndHash _) as [[enc h]|] eqn:E; [|done]. simpl. intros [= <-]. simpl.
  by rewrite (MarshalAndHash_pattern _ _ _ E).
Qed.

Lemma ValidateManifest_spec m : ValidateManifest m = true -> validManifest (normalizeSpec (mf_Spec m)) = true.
Proof.
  unfold ValidateManifest. destruct (NewManifest (mf_Spec m)) as [rebuilt|] eqn:E; [|done]. intros _.
  apply experiment_manifest_inv in E as (<- & Hv & _). done.
Qed.

Lemma sealAssignment_inv v a :
  sealAssignment v = Ok a ->
  exists encoded, MarshalAndHash (assignment_json (with_seal v "" "" "" (sort_strings (as_ReasonCodes v)))) =
      Ok (encoded, sum256_hex encoded) /\
    a = with_seal v ("expasn_" ++ sum256_hex encoded)%string (sum256_hex encoded) encoded (sort_strings (as_ReasonCodes v)).
Proof.
  unfold sealAssignment. destruct (MarshalAndHash _) as [[enc h]|] eqn:E; [|done]. simpl. intros [= <-].
  pose proof (MarshalAndHash_digest _ _ _ E) as ->. by exists enc.
Qed.

Lemma assignment_resealed v a :
  sealAssignment v = Ok a -> sealAssignment (with_seal a "" "" "" (as_ReasonCodes a)) = Ok a.
Proof.
  intros Hs. apply sealAssignment_inv in Hs as (enc & Hm & ->). unfold sealAssignment. simpl.
  rewrite sort_strings_idem. destruct v. unfold with_seal in *. simpl in *. by rewrite Hm.
Qed.

(** The key hash, and its decoding, that [Assign] computes for a manifest and a query bucket. *)
Definition keyed (m : ManifestSpec) (queryBucketHash keyHash : string) (digest : list Z) : Prop :=
  (exists enc, MarshalAndHash (assignment_key_json m queryBucketHash) = Ok (enc, keyHash)) /\
  DecodeString (list_ascii_of_string keyHash) = Some digest /\ sha256Pattern keyHash = true.

Lemma keyed_fun m q h h' d d' : keyed m q h d -> keyed m q h' d' -> h = h' /\ d = d'.
Proof. intros ((? & H1) & H2 & _) ((? & H1') & H2' & _). rewrite H1 in H1'. injection H1' as <- <-. rewrite H2 in H2'. by injection H2' as <-. Qed.

Lemma Assign_inv req a :
  Assign req = Ok a ->
  let m := mf_Spec (ar_Manifest req) in
  exists keyHash digest, keyed m (ar_QueryBucketHash req) keyHash digest /\
    ValidateManifest (ar_Manifest req) = true /\ sha256Pattern (ar_QueryBucketHash req) = true /\
    validRisk (ar_Risk req) = true /\
    validExposure m (ar_AssignedAt req) (CanonicalWindowStart m (ar_AssignedAt req)) = true /\
    sealAssignment (draft_assignment req keyHash digest) = Ok a.
Proof.
  unfold Assign. destruct (ValidateManifest _) eqn:E1; [|done]. destruct (sha256Pattern _) eqn:E2; [|done].
  destruct (validRisk _) eqn:E3; [|done]. destruct (validExposure _ _ _) eqn:E4; [|done].
  destruct (MarshalAndHash _) as [[enc kh]|] eqn:E5; [|done]. simpl.
  destruct (DecodeString _) as [digest|] eqn:E6; [|done]. destruct (_ =? 32); [|done]. simpl. intros Hs.
  exists kh, digest. split_and!; try done. repeat split; [by exists enc|done|by eapply MarshalAndHash_pattern].
Qed.

(** The unsealed fields of an assignment are those of the draft. *)
Definition same_routing (v a : Assignment) : Prop :=
  as_SchemaVersion a = as_SchemaVersion v /\ as_TenantID a = as_TenantID v /\ as_ManifestID a = as_ManifestID v /\
  as_AssignmentKeyHash a = as_AssignmentKeyHash v /\ as_QueryBucketHash a = as_QueryBucketHash v /\
  as_AssignedProcedureVersionID a = as_AssignedProcedureVersionID v /\ as_Bucket a = as_Bucket v /\
  as_Challenger a = as_Challenger v /\ as_Risk a = as_Risk v /\
  as_ReasonCodes a = sort_strings (as_ReasonCodes v) /\ as_WindowStart a = as_WindowStart v /\
  as_CreatedAt a = as_CreatedAt v /\ as_ExpiresAt a = as_ExpiresAt v.

Lemma sealed_routing v a : sealAssignment v = Ok a -> same_routing v a.
Proof. intros (enc & _ & ->)%sealAssignment_inv. by repeat split. Qed.

Lemma draft_fields req h d :
  let m := mf_Spec (ar_Manifest req) in
  let v := draft_assignment req h d in
  as_Bucket v = Uint64 (firstn 8 d) mod BucketCount /\
  as_Challenger v = fst (route m (ar_Risk req) (ar_Exposure req) (as_Bucket v)) /\
  as_AssignedProcedureVersionID v = (if as_Challenger v then pick_challenger m d else ms_ChampionVersionID m) /\
  as_ReasonCodes v = snd (route m (ar_Risk req) (ar_Exposure req) (as_Bucket v)) ++
    (if as_Challenger v then [ReasonChallengerBucket] else []).
Proof.
  intros m v. assert (Hb : as_Bucket v = Uint64 (firstn 8 d) mod BucketCount).
  { unfold v, draft_assignment. destruct (route _ _ _ _). simpl. apply wrap_u32_id.
    pose proof (Z.mod_pos_bound (Uint64 (firstn 8 d)) BucketCount eq_refl) as Hm. revert Hm. unfold BucketCount.
    unfold_widths. lia. }
  split; [done|]. unfold v, draft_assignment, m. destruct (route _ _ _ _) as [c rs] eqn:E. cbn [as_Bucket as_Challenger
    as_AssignedProcedureVersionID as_ReasonCodes]. rewrite E. destruct c; cbn [fst snd]; by rewrite ?app_nil_r.
Qed.

Lemma draft_copies req h d :
  let m := mf_Spec (ar_Manifest req) in
  let v := draft_assignment req h d in
  let w := CanonicalWindowStart m (ar_AssignedAt req) in
  as_SchemaVersion v = "experiment-assignment.v1"%string /\ as_TenantID v = ms_TenantID m /\
  as_ManifestID v = mf_ID (ar_Manifest req) /\ as_AssignmentKeyHash v = h /\
  as_QueryBucketHash v = ar_QueryBucketHash req /\ as_Risk v = ar_Risk req /\ as_WindowStart v = w /\
  as_CreatedAt v = ar_AssignedAt req /\ as_ExpiresAt v = expiry m (ar_AssignedAt req) w.
Proof. intros m v w. unfold v, draft_assignment. destruct (route _ _ _ _). by repeat split. Qed.

Lemma bucket_range x : 0 <= x mod BucketCount < BucketCount.
Proof. by apply Z.mod_pos_bound. Qed.

(** An assignment serves a challenger exactly when the bucket of the
    query falls in the challengers' share, the risk is not critical (and for
    high risk the tenant has opted in), and no trial, exposure or unsafe cap
    is reached; it then names one of the manifest's challengers and otherwise
    the champion.  The bucket is below [BucketCount]. *)
Theorem Assign_exact (req : AssignmentRequest) (a : Assignment) :
  Assign req = Ok a ->
  let m := mf_Spec (ar_Manifest req) in
  0 <= as_Bucket a < BucketCount /\
  (as_Challenger a = true <-> may_explore m (ar_Risk req) (ar_Exposure req) (as_Bucket a)) /\
  (as_Challenger a = true -> as_AssignedProcedureVersionID a ∈ ms_ChallengerVersionIDs m) /\
  (as_Challenger a = false -> as_AssignedProcedureVersionID a = ms_ChampionVersionID m).
Proof.
  intros Ha m. destruct (Assign_inv req a Ha) as (h & d & _ & Hm & _ & _ & _ & Hs).
  destruct (sealed_routing _ _ Hs) as (_ & _ & _ & _ & _ & -> & -> & -> & _).
  destruct (draft_fields req h d) as (Hb & Hc & Hv & _). fold m in Hc, Hv. rewrite Hv.
  split; [rewrite Hb; apply bucket_range|]. split; [rewrite Hc at 1; apply route_fst|].
  destruct (as_Challenger _); split; try done. intros _. apply nth_mod_in.
  apply ValidateManifest_spec, validManifest_facts in Hm as (_ & _ & Hne & _). intros Heq. apply Hne.
  change (normalizeVersions (ms_ChallengerVersionIDs m) = []). by rewrite Heq.
Qed.

(** ** Sealed assignments pass their validator *)
Lemma reasons_valid m risk e bucket (challenger : bool) :
  challenger = fst (route m risk e bucket) ->
  let rs := sort_strings (snd (route m risk e bucket) ++ (if challenger then [ReasonChallengerBucket] else [])) in
  rs <> [] /\ tokens_from None rs = true.
Proof.
  intros Hc rs. pose proof (route_reasons m risk e bucket challenger) as Hsub.
  assert (Hall : NoDup all_reasons /\ forallb tokenPattern all_reasons = true).
  { split; [apply (bool_decide_eq_true_1 (NoDup _)); vm_compute; reflexivity|reflexivity]. }
  destruct Hall as [Hnd Htok]. pose proof (sublist_NoDup _ _ Hnd Hsub) as Hn.
  assert (Ht : forall x, x ∈ snd (route m risk e bucket) ++ (if challenger then [ReasonChallengerBucket] else []) ->
    tokenPattern x = true).
  { intros x Hx. rewrite forallb_forall in Htok. apply Htok, list_elem_of_In. by eapply elem_of_sublist. }
  split.
  - intros Heq. apply (f_equal (@length string)) in Heq. unfold rs in Heq. rewrite sort_strings_length in Heq.
    pose proof (route_reasoned m risk e bucket) as Hr. unfold reasoned in Hr. rewrite <- Hc in Hr.
    destruct challenger; [rewrite length_app in Heq; simpl in Heq; lia|].
    rewrite app_nil_r in Heq. apply Hr; [done|]. by apply length_zero_iff_nil.
  - rewrite tokens_from_none. unfold rs. apply andb_true_iff. split.
    + apply forallb_forall. intros x Hx%list_elem_of_In. rewrite sort_strings_elem in Hx. auto.
    + apply sort_strings_strict; [done|]. intros Hx%Ht. done.
Qed.

Lemma expiry_after m at_ :
  validManifest m = true -> manifest_typed m -> 0 < t_ns at_ ->
  validExposure m at_ (CanonicalWindowStart m at_) = true ->
  let e := expiry m at_ (CanonicalWindowStart m at_) in
  After e at_ = true /\ IsZero e = false /\ IsZero (CanonicalWindowStart m at_) = false.
Proof.
  intros Hv (Hw & Httl & _) Hat He e. apply validManifest_facts in Hv as (_ & _ & _ & _ & Hw0 & Hwm & Ht0 & Htw).
  unfold validExposure in He. autorewrite with goboolsimpl in He. destruct He as (((((_ & _) & Hz) & _) & _) & Hb).
  revert Hb. unfold e, expiry, After, Before, IsZero, in_u64, maximumWindow in *.
  set (w := CanonicalWindowStart m at_) in *. clearbody w.
  unfold time_Add. rewrite !seconds_id by lia. cbn [t_ns]. rewrite Z.ltb_lt. intros Hb. unfold Second in *.
  destruct (Z.ltb_spec (t_ns w + ms_ExposureWindowSeconds m * 1000000000) (t_ns at_ + ms_AssignmentTTLSeconds m * 1000000000));
    cbn [t_ns]; rewrite Z.ltb_lt, Z.eqb_neq; lia.
Qed.

Lemma manifest_id_token spec m : NewManifest spec = Ok m -> tokenPattern (mf_ID m) = true.
Proof.
  intros (_ & _ & -> & Hp)%experiment_manifest_inv. destruct (sha256Pattern_bytes _ Hp) as [Hb Hl].
  change ("expman_" ++ mf_ContentHash m)%string with (append "expman_" (mf_ContentHash m)).
  rewrite tokenPattern_app, Hl by done. reflexivity.
Qed.

Lemma assigned_version_token m (c : bool) d :
  validManifest m = true -> tokenPattern (if c then pick_challenger m d else ms_ChampionVersionID m) = true.
Proof.
  intros (_ & Hch & Hne & Htok & _)%validManifest_facts. destruct c; [|done].
  rewrite forallb_forall in Htok. apply Htok, list_elem_of_In. by apply nth_mod_in.
Qed.

(** With a manifest built by [NewManifest] and a time after the zero time,
    an assignment that [Assign] returns passes [ValidateAssignment]. *)
Theorem Assign_validates (spec : ManifestSpec) (req : AssignmentRequest) (a : Assignment) :
  NewManifest spec = Ok (ar_Manifest req) -> manifest_typed spec -> 0 < t_ns (ar_AssignedAt req) ->
  Assign req = Ok a -> ValidateAssignment a = Ok tt.
Proof.
  intros Hnew Htyped Hat Ha. destruct (experiment_manifest_inv _ _ Hnew) as (Hspec & Hvm & _).
  destruct (Assign_inv req a Ha) as (h & d & (_ & _ & Hh) & _ & Hq & Hr & He & Hs).
  assert (Ht : manifest_typed (mf_Spec (ar_Manifest req))) by (rewrite Hspec; exact Htyped).
  destruct (expiry_after _ _ Hvm Ht Hat He) as (Hafter & Hez & Hwz).
  destruct (draft_fields req h d) as (Hb & Hc & Hv & Hrs).
  destruct (reasons_valid _ _ _ _ _ Hc) as [Hne Htok]. rewrite <- Hrs in Hne, Htok.
  pose proof (assignment_resealed _ _ Hs) as Hre. destruct (sealed_routing _ _ Hs) as (Hf1 & Hf2 & Hf3 & Hf4 & Hf5 &
    Hf6 & Hf7 & Hf8 & Hf9 & Hf10 & Hf11 & Hf12 & Hf13).
  destruct (sealAssignment_inv _ _ Hs) as (enc & _ & Heq).
  unfold ValidateAssignment. rewrite Hre, !str_eqb_refl, Hf10, Htok.
  assert (Hinv : assignment_invalid a = false); [|by rewrite Hinv].
  unfold assignment_invalid. rewrite Hf1, Hf2, Hf3, Hf4, Hf5, Hf6, Hf7, Hf9, Hf10, Hf11, Hf12, Hf13, Hv, Hb, !Equal_UTC.
  rewrite (assigned_version_token _ _ _ Hvm). pose proof (bucket_range (Uint64 (firstn 8 d))) as Hrange.
  rewrite (proj2 (Z.leb_gt _ _)) by lia. replace (Z.of_nat (length (sort_strings (as_ReasonCodes (draft_assignment req h d)))) =? 0)
    with false by (symmetry; apply Z.eqb_neq; destruct (sort_strings _); simpl; [done|lia]).
  rewrite Heq. cbn [with_seal as_ID as_ContentHash]. rewrite str_eqb_refl, (sum256_hex_pattern enc).
  destruct (draft_copies req h d) as (-> & -> & -> & -> & -> & -> & -> & -> & ->).
  apply validManifest_facts in Hvm as (Hten & _). apply String.eqb_neq in Hten.
  rewrite Hten, (manifest_id_token _ _ Hnew), Hh, Hq, Hr, Hafter, Hez, Hwz. unfold IsZero at 1.
  rewrite (proj2 (Z.eqb_neq _ 0)) by lia. reflexivity.
Qed.

(** ** Budget keys *)
Lemma fraction_no_nul z : has_nul (fraction z) = false.
Proof.
  unfold fraction. destruct (z =? 0); [done|]. rewrite has_nul_app. change (has_nul ".") with false. cbn [orb].
  generalize 9%nat as n. intros n. revert z. induction n as [|n IH]; intros x; [done|]. cbn [trim_fraction].
  destruct (x mod 10 =? 0); [apply IH|apply digits_no_nul].
Qed.

Lemma utc_string_no_nul t : has_nul (utc_string t) = false.
Proof.
  unfold utc_string. destruct (civil _) as [[y m] d]. rewrite !has_nul_app, !digits_no_nul, fraction_no_nul. reflexivity.
Qed.

(** A key whose last part has no NUL determines its parts. *)
(** ** Exposure budgets

    The challenger assignments that [select] keeps, counted in the repository. *)
Definition exposed (sel : Assignment -> bool) (m : gmap string Assignment) : Z :=
  Z.of_nat (length (List.filter (fun kv => as_Challenger (snd kv) && sel (snd kv)) (map_to_list m))).

Lemma exposed_insert sel m k a :
  m !! k = None -> exposed sel (<[k := a]> m) = exposed sel m + (if as_Challenger a && sel a then 1 else 0).
Proof.
  intros Hk. unfold exposed. rewrite (Permutation_length (l := List.filter _ (map_to_list (<[k := a]> m)))
    (l' := List.filter (fun kv => as_Challenger (snd kv) && sel (snd kv)) ((k, a) :: map_to_list m))).
  - cbn [List.filter snd]. destruct (_ && _); cbn [length]; lia.
  - pose proof (map_to_list_insert m k a Hk) as Hp. induction Hp; simpl; repeat destruct (_ && _); eauto using Permutation.
Qed.

Definition in_window (w : string) (a : Assignment) : bool := String.eqb (utc_string (as_WindowStart a)) w.
Definition of_tenant (t w : string) (a : Assignment) : bool := String.eqb (as_TenantID a) t && in_window w a.

(** The budgets count the stored challenger assignments, and are within [Lt] for the tenant and [Lg] globally. *)
Record budgets_exact (r : ExperimentRepository) : Prop := mk_budgets_exact {
  tenant_exact : forall t w, has_nul w = false -> eb_Exposure (budget_at (tenant r) (experimentBudgetKey t w)) = exposed (of_tenant t w) (assignments r);
  global_exact : forall w, has_nul w = false -> eb_Exposure (budget_at (global r) (experimentBudgetKey "_global" w)) = exposed (in_window w) (assignments r)
}.

Lemma exposed_nonneg sel m : 0 <= exposed sel m.
Proof. unfold exposed. lia. Qed.

Lemma Assign_copies req a :
  Assign req = Ok a ->
  let m := mf_Spec (ar_Manifest req) in
  as_TenantID a = ms_TenantID m /\ as_ManifestID a = mf_ID (ar_Manifest req) /\
  as_QueryBucketHash a = ar_QueryBucketHash req /\ as_Risk a = ar_Risk req /\
  as_WindowStart a = CanonicalWindowStart m (ar_AssignedAt req) /\
  exists d, keyed m (ar_QueryBucketHash req) (as_AssignmentKeyHash a) d.
Proof.
  intros Ha m. destruct (Assign_inv req a Ha) as (h & d & Hk & _ & _ & _ & _ & Hs).
  destruct (sealed_routing _ _ Hs) as (_ & -> & -> & -> & -> & _ & _ & _ & -> & _ & -> & _).
  destruct (draft_copies req h d) as (_ & -> & -> & -> & -> & -> & -> & _). repeat split. by exists d.
Qed.

Lemma Assign_same_key req req' a a' :
  Assign req = Ok a -> Assign req' = Ok a' ->
  ar_Manifest req' = ar_Manifest req -> ar_QueryBucketHash req' = ar_QueryBucketHash req ->
  assignment_key a = assignment_key a'.
Proof.
  intros Ha Ha' Hm Hq. destruct (Assign_copies _ _ Ha) as (Ht & Hi & _ & _ & _ & d & Hk).
  destruct (Assign_copies _ _ Ha') as (Ht' & Hi' & _ & _ & _ & d' & Hk'). rewrite Hm, Hq in *.
  destruct (keyed_fun _ _ _ _ _ _ Hk Hk') as [Hh _]. unfold assignment_key. by rewrite Ht, Ht', Hi, Hi', Hh.
Qed.
End assign_facts.

Section repository.
Context `{JCS} `{Digest}.

(** What a reservation that stores something does. *)
Record stored (r : ExperimentRepository) (req : AssignmentRequest) (a : Assignment) (r' : ExperimentRepository) : Prop := mk_stored {
  st_window := utc_string (as_WindowStart a);
  st_tenantKey := experimentBudgetKey (as_TenantID a) st_window;
  st_globalKey := experimentBudgetKey "_global" st_window;
  st_fresh : assignments r !! assignment_key a = None;
  st_tenantID : as_TenantID a = ms_TenantID (mf_Spec (ar_Manifest req));
  st_routing : as_Challenger a = true ->
    eb_Exposure (budget_at (tenant r) st_tenantKey) < ms_TenantExposureLimit (mf_Spec (ar_Manifest req)) /\
    eb_Exposure (budget_at (global r) st_globalKey) < ms_GlobalExposureLimit (mf_Spec (ar_Manifest req));
  st_assignments : assignments r' = <[assignment_key a := a]> (assignments r);
  st_tenant : exists u, tenant r' = <[st_tenantKey := charge_budget (as_Challenger a) u (budget_at (tenant r) st_tenantKey)]> (tenant r);
  st_global : exists u, global r' = <[st_globalKey := charge_budget (as_Challenger a) u (budget_at (global r) st_globalKey)]> (global r)
}.

Lemma Reserve_step r ctx req :
  snd (Reserve r ctx req) = r \/
  exists a, fst (Reserve r ctx req) = Ok (mk_Reservation a DispositionReserved) /\ stored r req a (snd (Reserve r ctx req)).
Proof.
  unfold Reserve. destruct ctx; [by left|]. destruct (Assign req) as [cand|] eqn:Hc; [|by left].
  destruct (assignments r !! assignment_key cand) eqn:Hk; [destruct (_ || _); by left|].
  unfold reserve_new. destruct (match epochs r !! _ with Some _ => _ | None => _ end); [by left|].
  match goal with |- context [Assign ?q] => set (req' := q) end.
  destruct (Assign req') as [a|] eqn:Ha; [|by left]. right. exists a. split; [done|]. cbn [snd].
  pose proof (Assign_same_key req req' cand a Hc Ha eq_refl eq_refl) as Hkey.
  destruct (Assign_copies _ _ Hc) as (Ht & _ & _ & _ & Hw & _). destruct (Assign_copies _ _ Ha) as (Ht' & _ & _ & _ & Hw' & _).
  assert (Hww : as_WindowStart a = as_WindowStart cand) by (rewrite Hw, Hw'; done).
  change (ar_Manifest req') with (ar_Manifest req) in Ht'.
  split; rewrite <- ?Hkey, ?Hww, ?Ht'; try done; [|by eexists..].
  intros Hch. destruct (Assign_inv _ _ Ha) as (h & d & _ & _ & _ & _ & _ & Hs).
  destruct (sealed_routing _ _ Hs) as (_ & _ & _ & _ & _ & _ & _ & Heq & _). rewrite Heq in Hch.
  destruct (draft_fields req' h d) as (_ & Hroute & _). rewrite Hroute in Hch.
  apply route_fst in Hch as (_ & _ & _ & _ & H1 & H2 & _). cbn [req' raised ar_Manifest ar_Exposure ex_TenantExposureCount ex_GlobalExposureCount] in H1, H2. lia.
Qed.

Lemma budget_at_insert m k b k' : budget_at (<[k := b]> m) k' = if String.eqb k' k then b else budget_at m k'.
Proof.
  unfold budget_at. destruct (String.eqb_spec k' k) as [->|Hne]; [by rewrite lookup_insert_eq|]. by rewrite lookup_insert_ne.
Qed.

Definition trace_typed (trace : list (option goerr * AssignmentRequest)) : Prop :=
  forall call, call ∈ trace -> manifest_typed (mf_Spec (ar_Manifest (snd call))).

(** One budget of the two: charging its key keeps it exact. *)
Lemma charge_exact (m : gmap string experimentBudget) key k u (c : bool) :
  (c = true -> in_u64 (eb_Exposure (budget_at m key) + 1)) ->
  eb_Exposure (budget_at (<[key := charge_budget c u (budget_at m key)]> m) k) =
  eb_Exposure (budget_at m k) + (if c && String.eqb k key then 1 else 0).
Proof.
  intros Hr. rewrite budget_at_insert. destruct (String.eqb_spec k key) as [->|]; [|destruct c; simpl; lia].
  unfold charge_budget. destruct c; cbn [eb_Exposure andb]; [|lia]. by apply wrap_u64_id, Hr.
Qed.

Lemma budget_key_eqb s t w w' :
  has_nul w = false -> has_nul w' = false ->
  String.eqb (experimentBudgetKey s w) (experimentBudgetKey t w') = String.eqb s t && String.eqb w w'.
Proof.
  intros Hw Hw'. apply eq_true_iff_eq. rewrite andb_true_iff, !String.eqb_eq. split; [|by intros [-> ->]].
  by apply last_part_inj.
Qed.

Lemma stored_exact r req a r' :
  budgets_exact r -> manifest_typed (mf_Spec (ar_Manifest req)) -> stored r req a r' -> budgets_exact r'.
Proof.
  intros [Ht Hg] (_ & _ & Hlt & Hlg) Hst. destruct Hst as [w tk gk Hf _ Hr Ha [u1 Htn] [u2 Hgl]].
  pose proof (utc_string_no_nul (as_WindowStart a)) as Hn. fold w in Hn. unfold_widths.
  split.
  - intros t w' Hw'. rewrite Htn, Ha, exposed_insert, charge_exact, <- Ht by
      (try done; intros Hc; specialize (Hr Hc); unfold tk in *; rewrite Ht in * by done;
       pose proof (exposed_nonneg (of_tenant (as_TenantID a) w) (assignments r)); unfold_widths; lia).
    f_equal. unfold tk. rewrite budget_key_eqb by done. unfold of_tenant, in_window. fold w.
    by rewrite (String.eqb_sym t), (String.eqb_sym w').
  - intros w' Hw'. rewrite Hgl, Ha, exposed_insert, charge_exact, <- Hg by
      (try done; intros Hc; specialize (Hr Hc); unfold gk in *; rewrite Hg in * by done;
       pose proof (exposed_nonneg (in_window w) (assignments r)); unfold_widths; lia).
    f_equal. unfold gk. rewrite budget_key_eqb, str_eqb_refl by done. unfold in_window. fold w.
    by rewrite (String.eqb_sym w').
Qed.

Lemma stored_bounded r req a r' t w Lt Lg :
  budgets_exact r -> stored r req a r' -> has_nul w = false ->
  (ms_TenantID (mf_Spec (ar_Manifest req)) = t -> ms_TenantExposureLimit (mf_Spec (ar_Manifest req)) <= Lt) ->
  ms_GlobalExposureLimit (mf_Spec (ar_Manifest req)) <= Lg ->
  exposed (of_tenant t w) (assignments r) <= Lt -> exposed (in_window w) (assignments r) <= Lg ->
  exposed (of_tenant t w) (assignments r') <= Lt /\ exposed (in_window w) (assignments r') <= Lg.
Proof.
  intros [Ht Hg] Hst Hw HLt HLg Hbt Hbg. destruct Hst as [w' tk gk Hf Hid Hr Ha _ _]. rewrite Ha, !exposed_insert by done.
  unfold of_tenant, in_window in *. fold w'. fold w' in tk, gk. destruct (as_Challenger a) eqn:Hc; cbn [andb]; [|lia].
  specialize (Hr eq_refl). unfold tk, gk in Hr. destruct (String.eqb_spec w' w) as [Hww|]; [|rewrite andb_false_r; lia].
  rewrite Hww in Hr. rewrite Ht, Hg in Hr by done. unfold of_tenant, in_window in Hr.
  destruct (String.eqb_spec (as_TenantID a) t) as [Hid'|]; cbn [andb]; [|lia].
  rewrite Hid' in *. specialize (HLt (eq_sym Hid)). lia.
Qed.

(** C16: Along any sequence of reservations, whatever snapshots the callers
    send, the challenger assignments stored for a tenant and a window stay
    within the tenant's exposure limit, and those of all tenants in a window
    within the global one. *)
Theorem Reserve_exposure_bounded (trace : list (option goerr * AssignmentRequest)) (t : string) (at_ : gotime) (Lt Lg : Z) :
  trace_typed trace -> 0 <= Lt -> 0 <= Lg ->
  (forall call, call ∈ trace -> ms_TenantID (mf_Spec (ar_Manifest (snd call))) = t ->
     ms_TenantExposureLimit (mf_Spec (ar_Manifest (snd call))) <= Lt) ->
  (forall call, call ∈ trace -> ms_GlobalExposureLimit (mf_Spec (ar_Manifest (snd call))) <= Lg) ->
  let r := reserve_all NewExperimentRepository trace in
  exposed (of_tenant t (utc_string at_)) (assignments r) <= Lt /\
  exposed (in_window (utc_string at_)) (assignments r) <= Lg.
Proof.
  intros Htyped HLt HLg Hlt Hlg r.
  enough (budgets_exact r /\ exposed (of_tenant t (utc_string at_)) (assignments r) <= Lt /\
    exposed (in_window (utc_string at_)) (assignments r) <= Lg) by tauto.
  subst r. induction trace as [|call trace IH] using rev_ind.
  { split; [|done]. by split. }
  destruct IH as (Hex & Hbt & Hbg); [intros c Hc..|]; try (first [eapply Htyped|eapply Hlt|eapply Hlg]; set_solver).
  unfold reserve_all. rewrite foldl_app. cbn [foldl]. fold (reserve_all NewExperimentRepository trace).
  set (r := reserve_all _ _) in *. assert (Hin : call ∈ trace ++ [call]) by set_solver.
  destruct (Reserve_step r (fst call) (snd call)) as [-> | (a & _ & Hst)]; [done|].
  split; [by eapply stored_exact; [done|apply Htyped|done]|].
  eapply (stored_bounded r); eauto using utc_string_no_nul.
Qed.

(** ** Stored routings *)
Lemma stored_kept r ctx req k a : assignments r !! k = Some a -> assignments (snd (Reserve r ctx req)) !! k = Some a.
Proof.
  intros Hk. destruct (Reserve_step r ctx req) as [-> | (b & _ & Hst)]; [done|].
  rewrite (st_assignments _ _ _ _ Hst). apply lookup_insert_Some. right. split; [|done].
  intros Heq. pose proof (st_fresh _ _ _ _ Hst) as Hf. rewrite Heq, Hk in Hf. done.
Qed.

Lemma reserve_all_kept trace r k a : assignments r !! k = Some a -> assignments (reserve_all r trace) !! k = Some a.
Proof.
  revert r. induction trace as [|call trace IH]; intros r Hk; [done|]. apply IH. by apply stored_kept.
Qed.

Lemma Reserve_found r ctx req res r1 :
  Reserve r ctx req = (Ok res, r1) ->
  exists cand, Assign req = Ok cand /\ assignments r1 !! assignment_key cand = Some (rs_Assignment res) /\
    as_QueryBucketHash (rs_Assignment res) = ar_QueryBucketHash req /\ as_Risk (rs_Assignment res) = ar_Risk req.
Proof.
  unfold Reserve. destruct ctx; [done|]. destruct (Assign req) as [cand|] eqn:Hc; [|done].
  destruct (Assign_copies _ _ Hc) as (_ & _ & Hq & Hrk & _).
  destruct (assignments r !! assignment_key cand) as [ex|] eqn:Hk.
  - destruct (String.eqb_spec (as_QueryBucketHash ex) (as_QueryBucketHash cand)) as [Heq|]; [|done].
    destruct (String.eqb_spec (as_Risk ex) (as_Risk cand)) as [Heq'|]; [|done]. intros [= <- <-].
    exists cand. cbn [rs_Assignment]. by rewrite Heq, Heq'.
  - unfold reserve_new. destruct (match epochs r !! _ with Some _ => _ | None => _ end); [done|].
    match goal with |- context [Assign ?q] => set (req' := q) end.
    destruct (Assign req') as [a|] eqn:Ha; [|done]. intros [= <- <-]. exists cand.
    destruct (Assign_copies _ _ Ha) as (_ & _ & Hq' & Hrk' & _). cbn [rs_Assignment assignments].
    by rewrite lookup_insert_eq, Hq', Hrk'.
Qed.

(** A reserved routing is final: after any later reservations, a request
    for the same manifest and query bucket is answered with the assignment
    stored first, whatever its time and exposure snapshot, and is refused as
    a conflict when it claims another risk; it never changes the repository. *)
Theorem Reserve_stable (r r1 : ExperimentRepository) (ctx : option goerr) (req req' : AssignmentRequest) (res : Reservation)
    (trace : list (option goerr * AssignmentRequest)) :
  Reserve r ctx req = (Ok res, r1) ->
  ar_Manifest req' = ar_Manifest req -> ar_QueryBucketHash req' = ar_QueryBucketHash req -> is_ok (Assign req') = true ->
  let r2 := reserve_all r1 trace in
  Reserve r2 None req' =
    (if String.eqb (ar_Risk req) (ar_Risk req')
     then Ok (mk_Reservation (rs_Assignment res) DispositionDuplicate) else Err ErrExperimentConflict, r2).
Proof.
  intros Hr Hm Hq Hok r2. destruct (Reserve_found _ _ _ _ _ Hr) as (cand & Hc & Hk & Hqb & Hrk).
  apply (reserve_all_kept trace) in Hk. fold r2 in Hk. unfold Reserve.
  destruct (Assign req') as [cand'|] eqn:Hc'; [|done].
  rewrite <- (Assign_same_key req req' cand cand' Hc Hc' Hm Hq), Hk.
  destruct (Assign_copies _ _ Hc') as (_ & _ & -> & -> & _). rewrite Hqb, Hrk, Hq, str_eqb_refl. simpl.
  by destruct (String.eqb (ar_Risk req) (ar_Risk req')).
Qed.
End repository.

(** ** Witnesses *)
#[local] Existing Instance copy_jcs.
#[local] Existing Instance checksum_digest.

Definition sample_spec : ManifestSpec :=
  mk_ManifestSpec "experiment.v1" "tenant_a" "proc_a" "pv_champion" ["pv_b"; "pv_a"] 1 1000000 2 1 5 0 1 3600 600 false.

Definition no_manifest : Manifest := mk_Manifest "" sample_spec "" "" "".
Definition no_assignment : Assignment :=
  mk_Assignment "" "" "" "" "" "" "" 0 false "" [] zero_time zero_time zero_time "" "".

Definition sample_manifest : Manifest :=
  Eval vm_compute in match NewManifest sample_spec with Ok m => m | Err _ => no_manifest end.

Definition sample_snapshot : ExposureSnapshot := mk_ExposureSnapshot zero_time 0 0 0 0 0.

Definition sample_request (query : string) (second : Z) : AssignmentRequest :=
  mk_AssignmentRequest sample_manifest (checksum_hex query) RiskLow sample_snapshot (mk_time (63900000000 * Second + second * Second) 0).

Definition sample_assignment (query : string) (second : Z) : Assignment :=
  match Assign (sample_request query second) with Ok a => a | Err _ => no_assignment end.

Lemma Assign_exact_witness :
  as_Challenger (sample_assignment "query one" 7) = true /\
  as_AssignedProcedureVersionID (sample_assignment "query one" 7) ∈ ["pv_a"; "pv_b"]%string.
Proof.
  assert (Ha : Assign (sample_request "query one" 7) = Ok (sample_assignment "query one" 7)) by (vm_compute; reflexivity).
  destruct (Assign_exact _ _ Ha) as (_ & _ & Hv & _). split; [vm_compute; reflexivity|]. apply Hv. vm_compute. reflexivity.
Defined.

Lemma Assign_validates_witness : ValidateAssignment (sample_assignment "query one" 7) = Ok tt.
Proof.
  apply (Assign_validates sample_spec (sample_request "query one" 7)).
  - vm_compute. reflexivity.
  - unfold manifest_typed. unfold_widths. cbn. lia.
  - vm_compute. reflexivity.
  - vm_compute. reflexivity.
Defined.

Definition sample_trace : list (option goerr * AssignmentRequest) :=
  [(None, sample_request "query one" 7); (Some CtxCanceled, sample_request "query two" 8);
   (None, sample_request "query two" 9); (None, sample_request "query one" 10)].

Lemma sample_trace_manifest call : call ∈ sample_trace -> ar_Manifest (snd call) = sample_manifest.
Proof. unfold sample_trace. rewrite !elem_of_cons. by intros [->|[->|[->|[->|?%not_elem_of_nil]]]]. Qed.

Lemma Reserve_exposure_bounded_witness :
  let r := reserve_all NewExperimentRepository sample_trace in
  size (assignments r) = 2%nat /\
  exposed (of_tenant "tenant_a" (utc_string (mk_time (63900000000 * Second) 0))) (assignments r) <= 1.
Proof.
  assert (H1 : trace_typed sample_trace).
  { intros call Hc. rewrite (sample_trace_manifest call Hc). unfold manifest_typed. unfold_widths. cbn. lia. }
  assert (H2 : forall call, call ∈ sample_trace -> ms_TenantID (mf_Spec (ar_Manifest (snd call))) = "tenant_a"%string ->
    ms_TenantExposureLimit (mf_Spec (ar_Manifest (snd call))) <= 1).
  { intros call Hc _. rewrite (sample_trace_manifest call Hc). cbn. lia. }
  assert (H3 : forall call, call ∈ sample_trace -> ms_GlobalExposureLimit (mf_Spec (ar_Manifest (snd call))) <= 5).
  { intros call Hc. rewrite (sample_trace_manifest call Hc). cbn. lia. }
  split; [vm_compute; reflexivity|].
  exact (proj1 (Reserve_exposure_bounded sample_trace "tenant_a" (mk_time (63900000000 * Second) 0) 1 5 H1
    ltac:(lia) ltac:(lia) H2 H3)).
Defined.

Definition first_reserve : result Reservation * ExperimentRepository :=
  Reserve NewExperimentRepository None (sample_request "query one" 7).

Definition first_reservation : Reservation := mk_Reservation (sample_assignment "query one" 7) DispositionReserved.

Lemma first_reserve_ok :
  Reserve NewExperimentRepository None (sample_request "query one" 7) = (Ok first_reservation, snd first_reserve).
Proof.
  assert (Hf : fst first_reserve = Ok first_reservation) by (vm_compute; reflexivity).
  unfold first_reserve in *. destruct (Reserve _ _ _) as [x r]. cbn [fst snd] in *. by rewrite Hf.
Qed.

Lemma later_request_ok : is_ok (Assign (sample_request "query one" 5000)) = true.
Proof. vm_compute. reflexivity. Qed.

Lemma Reserve_stable_witness :
  let r2 := reserve_all (snd first_reserve) sample_trace in
  Reserve r2 None (sample_request "query one" 5000) =
  (if String.eqb RiskLow RiskLow
   then Ok (mk_Reservation (rs_Assignment first_reservation) DispositionDuplicate) else Err ErrExperimentConflict, r2).
Proof.
  exact (Reserve_stable _ _ _ _ (sample_request "query one" 5000) _ sample_trace first_reserve_ok eq_refl eq_refl later_request_ok).
Defined.

(** ** The validator compares seals, not the normalized fields

    [ValidateManifest] rebuilds the manifest from its fields, which normalizes
    them again, and compares identifiers and bytes only.  A manifest whose
    challengers are not in the sealed order therefore passes, and routes the
    same query to another version under the same manifest identifier. *)
Definition reordered_manifest : Manifest :=
  mk_Manifest (mf_SchemaVersion sample_manifest) sample_spec (mf_ID sample_manifest) (mf_ContentHash sample_manifest)
    (mf_CanonicalJSON sample_manifest).

Definition reordered_request : AssignmentRequest :=
  mk_AssignmentRequest reordered_manifest (checksum_hex "query one") RiskLow sample_snapshot
    (ar_AssignedAt (sample_request "query one" 7)).

Lemma ValidateManifest_reordered :
  mf_ID reordered_manifest = mf_ID sample_manifest /\
  ValidateManifest sample_manifest = true /\ ValidateManifest reordered_manifest = true /\
  match Assign (sample_request "query one" 7), Assign reordered_request with
  | Ok a, Ok b => as_AssignmentKeyHash a = as_AssignmentKeyHash b /\
      as_AssignedProcedureVersionID a = "pv_a"%string /\ as_AssignedProcedureVersionID b = "pv_b"%string
  | _, _ => False
  end.
Proof. vm_compute. repeat split. Qed.
