(* ===== verification/Selection.v ===== *)
(** * Selections (internal/selection, internal/store/memory/selection.go)

    A selection binds a plan, and for a complete plan its parallel schedule, to
    the query and the manifests it was made with.  [NewDraft] and [NewRecord]
    check and seal it; the in-memory repository commits at most one record per
    idempotency identity and per retrieval run.

    [derived_schedule_matches] connects the planner's components to this one: the
    schedule derived for a plan always passes [scheduleCoversPlan].
    [NewRecord_validates] is the round trip of the seals, and [Commit_final] and
    [Commit_at_most_once] give the contract of the repository over any history;
    [repository_refines_log] shows that it behaves as a log of records.

    The program copies plans, schedules and records when it stores or returns
    them; here they are immutable values and a copy is the value itself. *)

From Stdlib Require Import ZArith String Ascii List Bool Lia.
From stdpp Require Import base gmap strings list sorting.
From S2P Require Import Prelude GoStrings GoTime Canonical Budget Interfaces Compatibility Planner PlannerSound Parallel.

Open Scope Z_scope.
Open Scope go_scope.

(** ** model.go *)
Definition NoveltyExact : string := "exact".
Definition NoveltyKnownShape : string := "known_shape".
Definition NoveltyBridged : string := "bridged".
Definition NoveltyPartial : string := "partial".
Definition NoveltyUnseen : string := "unseen".

Definition validNovelty (value : string) : bool :=
  String.eqb value NoveltyExact || String.eqb value NoveltyKnownShape || String.eqb value NoveltyBridged ||
  String.eqb value NoveltyPartial || String.eqb value NoveltyUnseen.

(** The fields that [Draft] and [Record] share. *)
Record Fields := mk_Fields {
  f_TenantID : string;
  f_QueryHash : string;
  f_RequestContextHash : string;
  f_RetrievalRunID : string;
  f_ProjectionEpoch : Z;
  f_DocumentSetHash : string;
  f_ServingConfigID : string;
  f_PolicyManifestID : string;
  f_RankerManifestID : string;
  f_PlannerManifestID : string;
  f_LifecyclePolicyManifestID : string;
  f_ExperimentManifestID : string;
  f_ExperimentAssignmentID : string;
  f_NoveltyClass : string;
  f_Plan : Plan;
  f_ParallelSchedule : option ParallelSchedule
}.

Record Draft := mk_Draft {
  df_SchemaVersion : string;
  df_Fields : Fields;
  df_ContentHash : string;
  df_CanonicalJSON : string
}.

Record Selection := mk_Selection {
  sl_SchemaVersion : string;
  sl_InjectionID : string;
  sl_IdempotencyIdentityHash : string;
  sl_Fields : Fields;
  sl_DraftHash : string;
  sl_CreatedAt : gotime;
  sl_ExpiresAt : gotime;
  sl_ContentHash : string;
  sl_CanonicalJSON : string
}.

Definition fields_json (f : Fields) : list (string * json) :=
  fstr "tenant_id" (f_TenantID f) ++ fstr "query_hash" (f_QueryHash f) ++
  fstr "request_context_hash" (f_RequestContextHash f) ++ fstr "retrieval_run_id" (f_RetrievalRunID f) ++
  fnum "projection_epoch" (f_ProjectionEpoch f) ++ fstr "document_set_hash" (f_DocumentSetHash f) ++
  fstr "serving_config_id" (f_ServingConfigID f) ++ fstr "policy_manifest_id" (f_PolicyManifestID f) ++
  fstr "ranker_manifest_id" (f_RankerManifestID f) ++ fstr "planner_manifest_id" (f_PlannerManifestID f) ++
  fstr "lifecycle_policy_manifest_id" (f_LifecyclePolicyManifestID f) ++
  fstr_omit "experiment_manifest_id" (f_ExperimentManifestID f) ++
  fstr_omit "experiment_assignment_id" (f_ExperimentAssignmentID f) ++ fstr "novelty_class" (f_NoveltyClass f) ++
  fld "plan" (plan_json (f_Plan f)) ++
  match f_ParallelSchedule f with Some s => fld "parallel_schedule" (schedule_json s) | None => [] end.

Definition draft_json (d : Draft) : json :=
  JObj (fstr "schema_version" (df_SchemaVersion d) ++ fields_json (df_Fields d) ++
        fstr_omit "content_hash" (df_ContentHash d)).

Definition record_json (r : Selection) : json :=
  JObj (fstr "schema_version" (sl_SchemaVersion r) ++ fstr "injection_id" (sl_InjectionID r) ++
        fstr "idempotency_identity_hash" (sl_IdempotencyIdentityHash r) ++ fields_json (sl_Fields r) ++
        fstr "draft_hash" (sl_DraftHash r) ++ ftime "created_at" (sl_CreatedAt r) ++
        ftime "expires_at" (sl_ExpiresAt r) ++ fstr_omit "content_hash" (sl_ContentHash r)).

Definition bounded (value : string) : bool :=
  negb (String.eqb value "") && (str_len value <=? 1024) && negb (has_nul value).

(** The loops over the groups: the versions still wanted, the group of each
    version seen, and how many were seen. *)
Record coverage := mk_coverage { cv_wanted : gset string; cv_group : gmap string Z; cv_seen : Z }.

Fixpoint cover_group (ordinal : Z) (acc : coverage) (versions : list string) : option coverage :=
  match versions with
  | [] => Some acc
  | v :: versions =>
      if bool_decide (v ∈ cv_wanted acc)
      then cover_group ordinal (mk_coverage (cv_wanted acc ∖ {[v]}) (<[v := ordinal]> (cv_group acc)) (cv_seen acc + 1)) versions
      else None
  end.

Fixpoint cover_groups (acc : coverage) (groups : list ParallelGroup) : option coverage :=
  match groups with
  | [] => Some acc
  | g :: groups =>
      match cover_group (pg_Ordinal g) acc (pg_NodeVersionIDs g) with
      | Some acc => cover_groups acc groups
      | None => None
      end
  end.

(** "[groupByVersion[v]]", zero when absent *)
Definition group_at (groupByVersion : gmap string Z) (v : string) : Z := default 0 (groupByVersion !! v).

Definition scheduleCoversPlan (schedule : ParallelSchedule) (plan : Plan) : bool :=
  match cover_groups (mk_coverage (list_to_set (List.map nd_VersionID (p_Nodes plan))) ∅ 0) (sch_Groups schedule) with
  | None => false
  | Some acc =>
      negb (negb (cv_seen acc =? count (p_Nodes plan)) || negb (Z.of_nat (size (cv_wanted acc)) =? 0)) &&
      forallb (fun d => negb (group_at (cv_group acc) (dp_TargetVersionID d) <=? group_at (cv_group acc) (dp_SourceVersionID d)))
        (p_Dependencies plan)
  end.

(** ** repository.go *)
Record CommitRequest := mk_CommitRequest {
  cr_TenantID : string;
  cr_IdempotencyIdentityHash : string;
  cr_Draft : Draft
}.

Inductive Disposition := DispositionCommitted | DispositionDuplicate.

Record Receipt := mk_Receipt { rc_Record : Selection; rc_Disposition : Disposition }.

(** [RetentionPolicy.Validate] *)
Definition policy_invalid (ttl : Z) : bool := (ttl <? Minute) || (30 * 24 * Hour <? ttl).

(** ** store/memory/selection.go *)
Notation selectionKey := (string * string)%type (only parsing).

Record SelectionRepository := mk_repo {
  policy_TTL : Z;
  byIdempotency : gmap selectionKey Selection;
  byInjection : gmap selectionKey Selection;
  byRun : gmap selectionKey Selection
}.

Definition NewSelectionRepository (ttl : Z) : result SelectionRepository :=
  reject policy_invalid ttl with ErrInvalidSelection;
  Ok (mk_repo ttl ∅ ∅ ∅).

Section selection.
Context `{NFC} `{JCS} `{Digest}.

Definition InjectionID (tenantID idempotencyHash : string) : string :=
  ("inj_" ++ sum256_hex (tenantID ++ nul ++ idempotencyHash))%string.

Definition TaskExecutionID (injectionID : string) : string :=
  ("texec_" ++ sum256_hex ("task-execution.v1" ++ nul ++ injectionID))%string.

Definition has_bridge (plan : Plan) : bool := existsb nd_Bridge (p_Nodes plan).

(** The schedule of a complete plan: valid, made for the plan, and covering it. *)
Definition schedule_matches (f : Fields) (s : ParallelSchedule) : bool :=
  let p := f_Plan f in
  is_ok (ValidateParallelSchedule s) && String.eqb (sch_PlanID s) (p_ID p) &&
  String.eqb (sch_PlanHash s) (p_ContentHash p) && String.eqb (sch_TenantID s) (f_TenantID f) &&
  (sch_ProjectionEpoch s =? f_ProjectionEpoch f) &&
  String.eqb (sch_CompatibilityGraphID s) (p_CompatibilityGraphID p) &&
  String.eqb (sch_CompatibilityGraphHash s) (p_CompatibilityGraphHash p) &&
  String.eqb (sch_PlannerManifestID s) (p_PlannerManifestID p) &&
  String.eqb (sch_PolicyManifestID s) (p_PolicyManifestID p) && scheduleCoversPlan s p.

Definition identities_invalid (f : Fields) : bool :=
  negb (bounded (f_TenantID f)) || (f_ProjectionEpoch f =? 0) || negb (sha256Pattern (f_QueryHash f)) ||
  negb (sha256Pattern (f_RequestContextHash f)) || negb (sha256Pattern (f_DocumentSetHash f)) ||
  negb (bounded (f_RetrievalRunID f)) || negb (bounded (f_ServingConfigID f)) || negb (bounded (f_PolicyManifestID f)) ||
  negb (bounded (f_RankerManifestID f)) || negb (bounded (f_PlannerManifestID f)) ||
  negb (bounded (f_LifecyclePolicyManifestID f)) || negb (String.eqb (p_TenantID (f_Plan f)) (f_TenantID f)) ||
  negb (p_ProjectionEpoch (f_Plan f) =? f_ProjectionEpoch f) ||
  negb (String.eqb (p_PolicyManifestID (f_Plan f)) (f_PolicyManifestID f)) ||
  negb (String.eqb (p_PlannerManifestID (f_Plan f)) (f_PlannerManifestID f)) || failed (ValidatePlan (f_Plan f)) ||
  negb (validNovelty (f_NoveltyClass f)).

Definition experiment_invalid (f : Fields) : bool :=
  negb (Bool.eqb (String.eqb (f_ExperimentManifestID f) "") (String.eqb (f_ExperimentAssignmentID f) "")) ||
  (negb (String.eqb (f_ExperimentManifestID f) "") &&
   (negb (bounded (f_ExperimentManifestID f)) || negb (bounded (f_ExperimentAssignmentID f)))).

Definition validateDraftFields (f : Fields) : result unit :=
  reject identities_invalid f with ErrInvalidSelection;
  reject experiment_invalid f with ErrInvalidSelection;
  if p_Complete (f_Plan f) then
    reject String.eqb (f_NoveltyClass f) NoveltyPartial ||
           negb (Bool.eqb (has_bridge (f_Plan f)) (String.eqb (f_NoveltyClass f) NoveltyBridged)) ||
           match f_ParallelSchedule f with None => true | Some s => negb (schedule_matches f s) end with ErrInvalidSelection;
    Ok tt
  else
    reject match f_ParallelSchedule f with Some _ => true | None => false end ||
           negb (String.eqb (f_NoveltyClass f) NoveltyPartial) || (count (p_Gaps (f_Plan f)) =? 0) with ErrInvalidSelection;
    Ok tt.

Definition NewDraft (f : Fields) : result Draft :=
  let value := mk_Draft "selection-draft.v1" f "" "" in
  let* _ := validateDraftFields f in
  let* (encoded, hash) := MarshalAndHash (draft_json value) in
  Ok (mk_Draft "selection-draft.v1" f hash encoded).

Definition bytes_invalid (text : string) : bool := (str_len text =? 0) || (Z.shiftl 16 20 <? str_len text).

Definition ValidateDraft (d : Draft) : result unit :=
  reject negb (String.eqb (df_SchemaVersion d) "selection-draft.v1") || negb (sha256Pattern (df_ContentHash d)) ||
         bytes_invalid (df_CanonicalJSON d) || failed (validateDraftFields (df_Fields d)) with ErrInvalidSelection;
  reject negb (sealed_as (draft_json (mk_Draft (df_SchemaVersion d) (df_Fields d) "" "")) (df_ContentHash d) (df_CanonicalJSON d))
    with ErrInvalidSelection;
  Ok tt.

Definition times_invalid (createdAt expiresAt : gotime) : bool :=
  IsZero createdAt || negb (time_Equal createdAt (UTC createdAt)) || negb (time_Equal expiresAt (UTC expiresAt)) ||
  negb (After expiresAt createdAt).

Definition NewRecord (draft : Draft) (idempotencyHash : string) (createdAt expiresAt : gotime) : result Selection :=
  reject failed (ValidateDraft draft) || negb (sha256Pattern idempotencyHash) || times_invalid createdAt expiresAt
    with ErrInvalidSelection;
  let f := df_Fields draft in
  let record hash encoded := mk_Selection "selection-record.v1" (InjectionID (f_TenantID f) idempotencyHash) idempotencyHash
    f (df_ContentHash draft) createdAt expiresAt hash encoded in
  let* (encoded, hash) := MarshalAndHash (record_json (record "" "")) in
  Ok (record hash encoded).

Definition unsealed (r : Selection) : Selection :=
  mk_Selection (sl_SchemaVersion r) (sl_InjectionID r) (sl_IdempotencyIdentityHash r) (sl_Fields r) (sl_DraftHash r)
    (sl_CreatedAt r) (sl_ExpiresAt r) "" "".

Definition ValidateRecord (r : Selection) : result unit :=
  reject negb (String.eqb (sl_SchemaVersion r) "selection-record.v1") ||
         negb (String.eqb (sl_InjectionID r) (InjectionID (f_TenantID (sl_Fields r)) (sl_IdempotencyIdentityHash r))) ||
         negb (sha256Pattern (sl_IdempotencyIdentityHash r)) || negb (sha256Pattern (sl_DraftHash r)) ||
         negb (sha256Pattern (sl_ContentHash r)) || bytes_invalid (sl_CanonicalJSON r) ||
         times_invalid (sl_CreatedAt r) (sl_ExpiresAt r) with ErrInvalidSelection;
  match NewDraft (sl_Fields r) with
  | Err _ => Err ErrInvalidSelection
  | Ok draft =>
      reject negb (String.eqb (df_ContentHash draft) (sl_DraftHash r)) with ErrInvalidSelection;
      reject negb (sealed_as (record_json (unsealed r)) (sl_ContentHash r) (sl_CanonicalJSON r)) with ErrInvalidSelection;
      Ok tt
  end.

Definition ValidateCommitRequest (request : CommitRequest) : result unit :=
  reject String.eqb (cr_TenantID request) "" ||
         negb (String.eqb (f_TenantID (df_Fields (cr_Draft request))) (cr_TenantID request)) ||
         negb (sha256Pattern (cr_IdempotencyIdentityHash request)) || failed (ValidateDraft (cr_Draft request))
    with ErrInvalidSelection;
  Ok tt.

(** [Commit] on a repository that is not nil; [now] is the clock's reading. *)
Definition Commit (r : SelectionRepository) (ctx : option goerr) (now : gotime) (request : CommitRequest)
    : result Receipt * SelectionRepository :=
  match ctx with
  | Some e => (Err e, r)
  | None =>
      if failed (ValidateCommitRequest request) then (Err ErrInvalidSelection, r)
      else
        let now := UTC now in
        let draft := cr_Draft request in
        let idempotencyKey := (cr_TenantID request, cr_IdempotencyIdentityHash request) in
        let runKey := (cr_TenantID request, f_RetrievalRunID (df_Fields draft)) in
        match byIdempotency r !! idempotencyKey with
        | Some existing =>
            if negb (Before now (sl_ExpiresAt existing)) then (Err ErrSelectionExpired, r)
            else if negb (String.eqb (sl_DraftHash existing) (df_ContentHash draft)) then (Err ErrSelectionIdempotencyConflict, r)
            else (Ok (mk_Receipt existing DispositionDuplicate), r)
        | None =>
            match byRun r !! runKey with
            | Some existing =>
                if negb (Before now (sl_ExpiresAt existing)) then (Err ErrSelectionExpired, r)
                else if negb (String.eqb (sl_DraftHash existing) (df_ContentHash draft)) ||
                        negb (String.eqb (sl_IdempotencyIdentityHash existing) (cr_IdempotencyIdentityHash request))
                then (Err ErrRetrievalRunConflict, r)
                else (Ok (mk_Receipt existing DispositionDuplicate), r)
            | None =>
                match NewRecord draft (cr_IdempotencyIdentityHash request) now (time_Add now (policy_TTL r)) with
                | Err e => (Err e, r)
                | Ok record =>
                    (Ok (mk_Receipt record DispositionCommitted),
                     mk_repo (policy_TTL r) (<[idempotencyKey := record]> (byIdempotency r))
                       (<[(cr_TenantID request, sl_InjectionID record) := record]> (byInjection r))
                       (<[runKey := record]> (byRun r)))
                end
            end
        end
  end.

(** The lookups of [FindByInjectionID] and [FindByRetrievalRunID]. *)
Definition find_in (index : gmap selectionKey Selection) (ctx : option goerr) (now : gotime) (tenantID identity : string)
    : result Selection :=
  match ctx with
  | Some e => Err e
  | None =>
      reject String.eqb tenantID "" || String.eqb identity "" with ErrInvalidSelection;
      match index !! (tenantID, identity) with
      | None => Err ErrSelectionNotFound
      | Some record =>
          reject negb (Before (UTC now) (sl_ExpiresAt record)) with ErrSelectionNotFound;
          reject failed (ValidateRecord record) with ErrInvalidSelection;
          Ok record
      end
  end.

Definition FindByInjectionID (r : SelectionRepository) := find_in (byInjection r).
Definition FindByRetrievalRunID (r : SelectionRepository) := find_in (byRun r).

Definition commit_all (r : SelectionRepository) (trace : list (option goerr * gotime * CommitRequest)) : SelectionRepository :=
  foldl (fun r call => snd (Commit r (fst (fst call)) (snd (fst call)) (snd call))) r trace.
End selection.

(** ** Covering a plan *)
Lemma cover_group_spec ordinal acc vs :
  NoDup vs -> (forall v, v ∈ vs -> v ∈ cv_wanted acc) ->
  exists acc', cover_group ordinal acc vs = Some acc' /\
    (forall v, v ∈ cv_wanted acc' <-> v ∈ cv_wanted acc /\ v ∉ vs) /\ cv_seen acc' = cv_seen acc + count vs /\
    (forall v, cv_group acc' !! v = if bool_decide (v ∈ vs) then Some ordinal else cv_group acc !! v).
Proof.
  revert acc. induction vs as [|v vs IH]; intros acc Hn Hin.
  { exists acc. cbn [cover_group]. split_and!; [done|set_solver|unfold count; simpl; lia|done]. }
  apply NoDup_cons in Hn as [Hv Hn]. cbn [cover_group]. rewrite bool_decide_true by (apply Hin; by left).
  edestruct (IH (mk_coverage (cv_wanted acc ∖ {[v]}) (<[v := ordinal]> (cv_group acc)) (cv_seen acc + 1)) Hn)
    as (acc' & Hc & Hw & Hs & Hg).
  { intros u Hu. cbn [cv_wanted]. assert (u <> v) by congruence. assert (u ∈ cv_wanted acc) by (apply Hin; by right). set_solver. }
  cbn [cv_wanted cv_group cv_seen] in *. exists acc'. split_and!; [done|set_solver|rewrite Hs; unfold count; simpl; lia|].
  intros u. rewrite Hg. destruct (decide (u = v)) as [->|Hne].
  - rewrite bool_decide_false, (bool_decide_true (v ∈ v :: vs)), lookup_insert_eq by set_solver. done.
  - rewrite lookup_insert_ne by done. by rewrite (bool_decide_ext (u ∈ v :: vs) (u ∈ vs)) by set_solver.
Qed.

Definition members (groups : list ParallelGroup) : list string := concat (List.map pg_NodeVersionIDs groups).

Lemma cover_groups_spec acc groups :
  NoDup (members groups) -> (forall v, v ∈ members groups -> v ∈ cv_wanted acc) ->
  exists acc', cover_groups acc groups = Some acc' /\
    (forall v, v ∈ cv_wanted acc' <-> v ∈ cv_wanted acc /\ v ∉ members groups) /\
    cv_seen acc' = cv_seen acc + count (members groups) /\
    (forall v g, g ∈ groups -> v ∈ pg_NodeVersionIDs g -> cv_group acc' !! v = Some (pg_Ordinal g)) /\
    (forall v, v ∉ members groups -> cv_group acc' !! v = cv_group acc !! v).
Proof.
  revert acc. induction groups as [|g groups IH]; intros acc Hn Hin.
  { exists acc. cbn. split_and!; [done|set_solver|unfold count; simpl; lia|set_solver|done]. }
  unfold members in Hn, Hin. simpl in Hn, Hin. apply NoDup_app in Hn as (Hg & Hd & Hn). fold (members groups) in *.
  destruct (cover_group_spec (pg_Ordinal g) acc (pg_NodeVersionIDs g) Hg) as (a1 & Hc1 & Hw1 & Hs1 & Hg1); [set_solver|].
  destruct (IH a1 Hn) as (a2 & Hc2 & Hw2 & Hs2 & Hg2 & Ho2).
  { intros v Hv. apply Hw1. split; [set_solver|]. intros Hv'. by apply (Hd v Hv'). }
  exists a2. cbn [cover_groups]. rewrite Hc1. assert (Hm : forall v, v ∈ members (g :: groups) <->
    v ∈ pg_NodeVersionIDs g \/ v ∈ members groups) by (intros v; unfold members; simpl; apply elem_of_app).
  split_and!; [done|intros v; rewrite Hw2, Hw1, Hm; tauto| | |].
  - rewrite Hs2, Hs1. unfold count, members. simpl. rewrite length_app. lia.
  - intros v g' [->|Hg']%elem_of_cons Hv; [|by eapply Hg2].
    rewrite Ho2 by (by apply Hd). rewrite Hg1. by rewrite bool_decide_true.
  - intros v Hv. rewrite Hm in Hv. rewrite Ho2, Hg1 by tauto. by rewrite bool_decide_false by tauto.
Qed.

(** A partition of the nodes into groups with increasing ordinals, in which
    every dependency goes to a later group, covers the plan. *)
Lemma partition_covers schedule plan :
  members (sch_Groups schedule) ≡ₚ List.map nd_VersionID (p_Nodes plan) ->
  NoDup (List.map nd_VersionID (p_Nodes plan)) ->
  (forall d, d ∈ p_Dependencies plan -> exists g h, g ∈ sch_Groups schedule /\ h ∈ sch_Groups schedule /\
     dp_SourceVersionID d ∈ pg_NodeVersionIDs g /\ dp_TargetVersionID d ∈ pg_NodeVersionIDs h /\ pg_Ordinal g < pg_Ordinal h) ->
  scheduleCoversPlan schedule plan = true.
Proof.
  intros Hp Hn Hd. unfold scheduleCoversPlan.
  destruct (cover_groups_spec (mk_coverage (list_to_set (List.map nd_VersionID (p_Nodes plan))) ∅ 0) (sch_Groups schedule))
    as (acc & -> & Hw & Hs & Hg & _).
  { by rewrite Hp. }
  { intros v Hv. cbn [cv_wanted]. rewrite Hp in Hv. by apply elem_of_list_to_set. }
  cbn [cv_wanted cv_seen] in *. rewrite Hs. unfold count at 1. rewrite (Permutation_length Hp), length_map.
  unfold count. rewrite Z.add_0_l, Z.eqb_refl.
  assert (Hempty : cv_wanted acc = ∅).
  { apply set_eq. intros v. rewrite Hw, elem_of_list_to_set, Hp. set_solver. }
  rewrite Hempty, size_empty. cbn [negb orb andb]. change (Z.of_nat 0 =? 0) with true. cbn [negb andb].
  apply forallb_forall. intros d Hin%list_elem_of_In. destruct (Hd d Hin) as (g & h & Hgi & Hhi & Hsg & Hth & Hlt).
  unfold group_at. rewrite (Hg _ _ Hgi Hsg), (Hg _ _ Hhi Hth). simpl. apply negb_true_iff, Z.leb_gt. done.
Qed.

Lemma groups_ok_ordinal schedule i total groups k g :
  groups_ok schedule i total groups = true -> groups !! k = Some g -> pg_Ordinal g = wrap_u32 (Z.of_nat (i + k)).
Proof.
  revert i total k. induction groups as [|h groups IH]; intros i total k Hg Hk; [done|].
  cbn [groups_ok] in Hg. rewrite !andb_true_iff in Hg. destruct Hg as [[Hi _] Hg]. destruct k as [|k].
  - injection Hk as <-. unfold group_invalid in Hi. rewrite negb_true_iff, !orb_false_iff, !negb_false_iff, !Z.eqb_eq in Hi.
    destruct_and!. by replace (i + 0)%nat with i by lia.
  - rewrite (IH _ _ _ Hg Hk). do 2 f_equal. lia.
Qed.

Section covers.
Context `{NFC} `{JCS} `{Digest}.

Lemma valid_schedule_ordinals schedule :
  ValidateParallelSchedule schedule = Ok tt ->
  forall k g, sch_Groups schedule !! k = Some g -> pg_Ordinal g = Z.of_nat k.
Proof.
  intros Hv k g Hk. unfold ValidateParallelSchedule in Hv. destruct (_ || _) eqn:E; [done|].
  destruct (groups_ok _ _ _ _) eqn:Hg; [|done]. rewrite !orb_false_iff in E. destruct_and!.
  rewrite (groups_ok_ordinal _ _ _ _ _ _ Hg Hk). simpl. apply wrap_u32_id.
  apply lookup_lt_Some in Hk. match goal with E : (count (sch_Groups schedule) >? 32) = false |- _ => rename E into Hc end.
  rewrite Z.gtb_ltb, Z.ltb_ge in Hc. unfold count in Hc. unfold_widths. lia.
Qed.

Lemma derive_schedule_header manifest plan graph candidates :
  post (derive_schedule manifest plan graph candidates) (fun s =>
    sch_PlanID s = p_ID plan /\ sch_PlanHash s = p_ContentHash plan /\ sch_TenantID s = p_TenantID plan /\
    sch_ProjectionEpoch s = p_ProjectionEpoch plan /\ sch_CompatibilityGraphID s = p_CompatibilityGraphID plan /\
    sch_CompatibilityGraphHash s = p_CompatibilityGraphHash plan /\ sch_PlannerManifestID s = p_PlannerManifestID plan /\
    sch_PolicyManifestID s = p_PolicyManifestID plan).
Proof.
  unfold derive_schedule. apply post_skip. intros _.
  eapply (post_bind _ _ (fun _ => parallel_invalid manifest plan graph candidates = false)).
  { unfold validateParallelInputs. apply post_reject. intros Hi. intros v s a s' _. done. }
  intros [facts edges] Hi. do 2 (apply post_skip; intros ?). destruct a0 as [groups ?]. apply post_skip. intros made.
  apply post_lift. intros s Hs. unfold canonicalizeParallelSchedule in Hs. destruct (MarshalAndHash _) as [[? ?]|]; [|done].
  injection Hs as <-. cbn. unfold parallel_invalid in Hi. rewrite !orb_false_iff, !negb_false_iff, !String.eqb_eq in Hi.
  destruct_and!. by split_and!.
Qed.

(** For a plan returned by the planner and the schedule derived for it on
    the same graph, the checks that a selection makes of the schedule reduce
    to the schedule's own validity: it names the plan, its tenant, graph and
    manifests, contains every node once, and puts the source of each
    dependency in an earlier group than its target. *)
Theorem derived_schedule_matches (c1 c2 : nat -> ctx_status) manifest request plan s1 candidates schedule s2 (f : Fields) :
  PlanProcedures c1 manifest request = (Ok plan, s1) ->
  DeriveParallelSchedule c2 manifest plan (pr_Graph request) candidates = (Ok schedule, s2) ->
  f_Plan f = plan -> f_TenantID f = p_TenantID plan -> f_ProjectionEpoch f = p_ProjectionEpoch plan ->
  schedule_matches f schedule = is_ok (ValidateParallelSchedule schedule).
Proof.
  intros Hplan Hsch Hf Ht He. pose proof (derive_schedule_header manifest plan (pr_Graph request) candidates _ _ _ _ Hsch) as Hh.
  cbn beta in Hh. destruct Hh as (E1 & E2 & E3 & E4 & E5 & E6 & E7 & E8).
  unfold schedule_matches. rewrite Hf, Ht, He, E1, E2, E3, E4, E5, E6, E7, E8, !str_eqb_refl, Z.eqb_refl.
  destruct (ValidateParallelSchedule schedule) as [[]|] eqn:Hv; [|done]. cbn [is_ok andb].
  pose proof (valid_schedule_ordinals _ Hv) as Hord.
  destruct (derive_schedule_post manifest plan (pr_Graph request) candidates _ _ _ _ Hsch) as [[Hp Hn] Ho _].
  destruct (plan_returned_sound _ _ _ _ _ Hplan) as [Hnd _ _ _ Hdeps _ _ _].
  apply partition_covers; [done|done|]. intros d (e & Hed & Hes & Het & ->)%Hdeps.
  destruct (Ho e Hed Hes Het) as (i & j & gi & gj & Hij & Hgi & Hgj & Hsi & Htj).
  rewrite list_lookup_fmap in Hgi, Hgj. destruct (sch_Groups schedule !! i) as [g|] eqn:Eg; [|done].
  destruct (sch_Groups schedule !! j) as [h|] eqn:Eh; [|done]. injection Hgi as <-. injection Hgj as <-.
  exists g, h. rewrite (Hord _ _ Eg), (Hord _ _ Eh). split_and!; try done; try (by eapply list_elem_of_lookup_2). lia.
Qed.
End covers.

(** ** Sealed records pass their validator *)
Section records.
Context `{NFC} `{JCS} `{Digest}.

Lemma ValidateDraft_inv d :
  ValidateDraft d = Ok tt ->
  df_SchemaVersion d = "selection-draft.v1"%string /\ sha256Pattern (df_ContentHash d) = true /\
  validateDraftFields (df_Fields d) = Ok tt /\
  MarshalAndHash (draft_json (mk_Draft "selection-draft.v1" (df_Fields d) "" "")) = Ok (df_CanonicalJSON d, df_ContentHash d).
Proof.
  unfold ValidateDraft, sealed_as, failed. destruct (_ || _) eqn:E; [done|]. autorewrite with goboolsimpl in E.
  destruct E as (((Hs & Hh) & _) & Hf). rewrite Hs. destruct (MarshalAndHash _) as [[text hash]|]; [|done].
  destruct (String.eqb_spec hash (df_ContentHash d)) as [->|]; [|done].
  destruct (String.eqb_spec text (df_CanonicalJSON d)) as [->|]; [|done].
  by destruct (validateDraftFields (df_Fields d)) as [[]|].
Qed.

Lemma NewRecord_inv draft h c e r :
  NewRecord draft h c e = Ok r ->
  ValidateDraft draft = Ok tt /\ sha256Pattern h = true /\ times_invalid c e = false /\
  r = mk_Selection "selection-record.v1" (InjectionID (f_TenantID (df_Fields draft)) h) h (df_Fields draft) (df_ContentHash draft)
        c e (sl_ContentHash r) (sl_CanonicalJSON r) /\
  MarshalAndHash (record_json (unsealed r)) = Ok (sl_CanonicalJSON r, sl_ContentHash r).
Proof.
  unfold NewRecord, failed. destruct (ValidateDraft draft) as [[]|]; [|done]. destruct (sha256Pattern h); [|done].
  destruct (times_invalid c e) eqn:Et; [done|]. cbn [is_ok negb orb bind].
  destruct (MarshalAndHash _) as [[enc hash]|] eqn:Em; [|done]. intros [= <-]. done.
Qed.

Lemma record_valid draft h createdAt expiresAt r :
  NewRecord draft h createdAt expiresAt = Ok r -> bytes_invalid (sl_CanonicalJSON r) = false -> ValidateRecord r = Ok tt.
Proof.
  intros Hnew Hb. destruct (NewRecord_inv _ _ _ _ _ Hnew) as (Hd & Hh & Ht & Hr & Hm).
  destruct (ValidateDraft_inv _ Hd) as (_ & Hdh & Hf & Hdm). unfold ValidateRecord, sealed_as. rewrite Hm, Hb, !str_eqb_refl.
  rewrite (MarshalAndHash_pattern _ _ _ Hm). rewrite Hr.
  cbn [sl_SchemaVersion sl_InjectionID sl_IdempotencyIdentityHash sl_Fields sl_DraftHash sl_CreatedAt sl_ExpiresAt].
  rewrite !str_eqb_refl, Hh, Hdh, Ht. cbn [negb orb]. unfold NewDraft. rewrite Hf. cbn [bind]. rewrite Hdm. cbn [bind df_ContentHash].
  by rewrite str_eqb_refl.
Qed.

(** A record made from a draft passes [ValidateRecord], and so is found
    again, when its canonical bytes are within the limit of 16 MiB. *)
Theorem NewRecord_validates (draft : Draft) (h : string) (createdAt expiresAt : gotime) (r : Selection) :
  NewRecord draft h createdAt expiresAt = Ok r -> bytes_invalid (sl_CanonicalJSON r) = false ->
  ValidateRecord r = Ok tt.
Proof. apply record_valid. Qed.
End records.

(** ** The repository *)
Section repository.
Context `{NFC} `{JCS} `{Digest}.

Definition run_of (r : Selection) : string := f_RetrievalRunID (sl_Fields r).

(** The index by identity and the index by run hold the same records. *)
Record indexed (r : SelectionRepository) : Prop := mk_indexed {
  ix_identity : forall t id rec, byIdempotency r !! (t, id) = Some rec ->
    sl_IdempotencyIdentityHash rec = id /\ byRun r !! (t, run_of rec) = Some rec;
  ix_run : forall t run rec, byRun r !! (t, run) = Some rec ->
    run_of rec = run /\ byIdempotency r !! (t, sl_IdempotencyIdentityHash rec) = Some rec;
  ix_made : forall t run rec, byRun r !! (t, run) = Some rec -> exists d h c e, NewRecord d h c e = Ok rec
}.

(** Later states keep what is stored. *)
Definition extends (r r' : SelectionRepository) : Prop := byIdempotency r ⊆ byIdempotency r' /\ byRun r ⊆ byRun r'.

#[local] Instance extends_preorder : PreOrder extends.
Proof. split; [done|]. intros a b c [? ?] [? ?]. split; by etrans. Qed.

Lemma Commit_cases r ctx now req :
  let '(res, r') := Commit r ctx now req in
  r' = r \/
  exists rec, res = Ok (mk_Receipt rec DispositionCommitted) /\
    byIdempotency r !! (cr_TenantID req, cr_IdempotencyIdentityHash req) = None /\
    byRun r !! (cr_TenantID req, run_of rec) = None /\
    sl_IdempotencyIdentityHash rec = cr_IdempotencyIdentityHash req /\
    run_of rec = f_RetrievalRunID (df_Fields (cr_Draft req)) /\ sl_DraftHash rec = df_ContentHash (cr_Draft req) /\
    NewRecord (cr_Draft req) (cr_IdempotencyIdentityHash req) (UTC now) (time_Add (UTC now) (policy_TTL r)) = Ok rec /\
    byIdempotency r' = <[(cr_TenantID req, cr_IdempotencyIdentityHash req) := rec]> (byIdempotency r) /\
    byRun r' = <[(cr_TenantID req, run_of rec) := rec]> (byRun r).
Proof.
  unfold Commit. destruct ctx; [by left|]. destruct (failed _); [by left|].
  destruct (byIdempotency r !! _) eqn:E1; [destruct (negb _); [by left|]; destruct (negb _); by left|].
  destruct (byRun r !! _) eqn:E2; [destruct (negb (Before _ _)); [by left|]; destruct (_ || _); by left|].
  destruct (NewRecord _ _ _ _) as [rec|] eqn:En; [|by left]. right. exists rec.
  destruct (NewRecord_inv _ _ _ _ _ En) as (_ & _ & _ & Hr & _).
  assert (Hrun : run_of rec = f_RetrievalRunID (df_Fields (cr_Draft req))) by (unfold run_of; by rewrite Hr).
  rewrite Hrun. split_and!; try done; by rewrite Hr.
Qed.

Lemma Commit_extends r ctx now req : extends r (snd (Commit r ctx now req)).
Proof.
  pose proof (Commit_cases r ctx now req) as Hc. destruct (Commit r ctx now req) as [res r'].
  destruct Hc as [->|(rec & _ & Hn1 & Hn2 & _ & _ & _ & _ & Hi & Hr)]; [done|]. cbn [snd]. unfold extends. rewrite Hi, Hr.
  split; by apply insert_subseteq.
Qed.

Lemma Commit_indexed r ctx now req : indexed r -> indexed (snd (Commit r ctx now req)).
Proof.
  intros [Hid Hrun Hmade]. pose proof (Commit_cases r ctx now req) as Hc. destruct (Commit r ctx now req) as [res r'].
  destruct Hc as [->|(rec & _ & Hfi & Hfr & Hi & _ & _ & Hnew & Hii & Hir)]; [done|]. cbn [snd]. split.
  - intros t id x. rewrite Hii, Hir, lookup_insert_Some. intros [[[= <- <-] <-]|[Hne Hl]].
    + by rewrite lookup_insert_eq.
    + destruct (Hid _ _ _ Hl) as [Hx Hr]. split; [done|]. rewrite lookup_insert_ne; [done|]. intros [= <- Heq].
      rewrite Heq, Hr in Hfr. done.
  - intros t run x. rewrite Hii, Hir, lookup_insert_Some. intros [[[= <- <-] <-]|[Hne Hl]].
    + rewrite Hi, lookup_insert_eq. done.
    + destruct (Hrun _ _ _ Hl) as [Hx Hr]. split; [done|]. rewrite lookup_insert_ne; [done|]. intros [= <- Heq].
      rewrite <- Heq, Hfi in Hr. done.
  - intros t run x. rewrite Hir, lookup_insert_Some. intros [[_ <-]|[_ Hl]]; [by eauto|by eapply Hmade].
Qed.

Lemma commit_all_extends trace r : extends r (commit_all r trace).
Proof.
  revert r. induction trace as [|call trace IH]; intros r; [done|]. etrans; [|apply IH]. apply Commit_extends.
Qed.

Lemma commit_all_indexed trace r : indexed r -> indexed (commit_all r trace).
Proof.
  revert r. induction trace as [|call trace IH]; intros r Hr; [done|]. by apply IH, Commit_indexed.
Qed.

Lemma NewSelectionRepository_indexed ttl r : NewSelectionRepository ttl = Ok r -> indexed r.
Proof. unfold NewSelectionRepository. destruct (policy_invalid ttl); [done|]. intros [= <-]. by split. Qed.

(** A receipt's record is stored under the identity and the run of its request. *)
Lemma Commit_stored r ctx now req rcpt r' :
  indexed r -> Commit r ctx now req = (Ok rcpt, r') ->
  let rec := rc_Record rcpt in
  byIdempotency r' !! (cr_TenantID req, cr_IdempotencyIdentityHash req) = Some rec /\
  byRun r' !! (cr_TenantID req, run_of rec) = Some rec /\ sl_IdempotencyIdentityHash rec = cr_IdempotencyIdentityHash req /\
  sl_DraftHash rec = df_ContentHash (cr_Draft req).
Proof.
  intros [Hid Hrun _] Hc rec. pose proof (Commit_cases r ctx now req) as Hcase. rewrite Hc in Hcase.
  destruct Hcase as [-> | (x & [= ->] & _ & _ & Hi & _ & Hd & _ & -> & ->)]; [|subst rec; cbn [rc_Record]; by rewrite !lookup_insert_eq].
  unfold Commit in Hc. destruct ctx; [done|]. destruct (failed _); [done|].
  destruct (byIdempotency r !! _) as [x|] eqn:E1.
  - destruct (Before _ _); [|done]. destruct (String.eqb_spec (sl_DraftHash x) (df_ContentHash (cr_Draft req))) as [Hd|]; [|done].
    injection Hc as <-. subst rec. cbn [rc_Record]. by destruct (Hid _ _ _ E1) as [-> ->].
  - destruct (byRun r !! _) as [x|] eqn:E2.
    + destruct (Before _ _); [|done]. destruct (String.eqb_spec (sl_DraftHash x) (df_ContentHash (cr_Draft req))); [|done].
      destruct (String.eqb_spec (sl_IdempotencyIdentityHash x) (cr_IdempotencyIdentityHash req)) as [Hi|]; [|done].
      destruct (Hrun _ _ _ E2) as [_ Hx]. rewrite Hi, E1 in Hx. done.
    + destruct (NewRecord _ _ _ _) as [x|]; [|done]. exfalso. injection Hc as _ Hr.
      apply (f_equal byIdempotency) in Hr. cbn in Hr. rewrite <- Hr, lookup_insert_eq in E1. done.
Qed.

Lemma NewRecord_keys draft h c e rec :
  NewRecord draft h c e = Ok rec -> f_TenantID (sl_Fields rec) <> ""%string /\ run_of rec <> ""%string.
Proof.
  intros (Hd & _ & _ & Hr & _)%NewRecord_inv. unfold run_of. rewrite Hr. cbn [sl_Fields].
  apply ValidateDraft_inv in Hd as (_ & _ & Hf & _). unfold validateDraftFields in Hf.
  destruct (identities_invalid _) eqn:E; [done|]. unfold identities_invalid, bounded in E. autorewrite with goboolsimpl in E.
  destruct_and!. done.
Qed.

(** A commit is final.  After any later history, a valid request with the
    same tenant and idempotency identity returns the committed record when its
    draft is the same, is refused as a conflict when the draft differs, and is
    refused as expired from the expiry on; it never changes the repository.
    Until the expiry the record is found by its retrieval run. *)
Theorem Commit_final ttl r0 trace0 ctx now req rcpt r1 trace now' req' :
  NewSelectionRepository ttl = Ok r0 -> Commit (commit_all r0 trace0) ctx now req = (Ok rcpt, r1) ->
  cr_TenantID req' = cr_TenantID req -> cr_IdempotencyIdentityHash req' = cr_IdempotencyIdentityHash req ->
  ValidateCommitRequest req' = Ok tt -> bytes_invalid (sl_CanonicalJSON (rc_Record rcpt)) = false ->
  let r2 := commit_all r1 trace in
  let live := Before now' (sl_ExpiresAt (rc_Record rcpt)) in
  Commit r2 None now' req' =
    (if negb live then Err ErrSelectionExpired
     else if negb (String.eqb (df_ContentHash (cr_Draft req)) (df_ContentHash (cr_Draft req')))
     then Err ErrSelectionIdempotencyConflict
     else Ok (mk_Receipt (rc_Record rcpt) DispositionDuplicate), r2) /\
  FindByRetrievalRunID r2 None now' (cr_TenantID req) (run_of (rc_Record rcpt)) =
    (if live then Ok (rc_Record rcpt) else Err ErrSelectionNotFound).
Proof.
  intros Hnew Hc Ht Hi Hv Hb r2 live. pose proof (commit_all_indexed trace0 _ (NewSelectionRepository_indexed _ _ Hnew)) as Hix.
  destruct (Commit_stored _ _ _ _ _ _ Hix Hc) as (Hs & Hr & _ & Hd).
  assert (Hix1 : indexed r1) by (pose proof (Commit_indexed _ ctx now req Hix) as Hx; by rewrite Hc in Hx).
  destruct (commit_all_extends trace r1) as [He1 He2].
  pose proof (lookup_weaken _ _ _ _ Hs He1) as Hs2. pose proof (lookup_weaken _ _ _ _ Hr He2) as Hr2. fold r2 in Hs2, Hr2.
  split.
  - unfold Commit. rewrite Hv. cbn [failed is_ok negb]. rewrite Ht, Hi, Hs2, Hd.
    change (Before (UTC now') (sl_ExpiresAt (rc_Record rcpt))) with live. destruct live; [|done]. cbn [negb].
    by destruct (String.eqb _ _).
  - destruct (ix_made _ Hix1 _ _ _ Hr) as (d & h & c & e & Hn). destruct (NewRecord_keys _ _ _ _ _ Hn) as [_ Hrun].
    unfold FindByRetrievalRunID, find_in. rewrite Hr2.
    assert (Hten : cr_TenantID req <> ""%string).
    { unfold ValidateCommitRequest in Hv. destruct (_ || _) eqn:E in Hv; [done|]. autorewrite with goboolsimpl in E.
      destruct_and!. congruence. }
    apply String.eqb_neq in Hten, Hrun. rewrite Hten, Hrun. cbn [orb].
    change (Before (UTC now') (sl_ExpiresAt (rc_Record rcpt))) with live. destruct live; [|done]. cbn [negb].
    by rewrite (record_valid _ _ _ _ _ Hn Hb).
Qed.

(** At most one selection exists per identity and per retrieval run: in any
    history, two successful commits of a tenant that agree on the identity or
    on the run return the same record, and the second one changes nothing. *)
Theorem Commit_at_most_once ttl r0 trace0 ctx now req rcpt r1 trace ctx' now' req' rcpt' r3 :
  NewSelectionRepository ttl = Ok r0 -> Commit (commit_all r0 trace0) ctx now req = (Ok rcpt, r1) ->
  Commit (commit_all r1 trace) ctx' now' req' = (Ok rcpt', r3) ->
  cr_TenantID req' = cr_TenantID req ->
  cr_IdempotencyIdentityHash req' = cr_IdempotencyIdentityHash req \/ run_of (rc_Record rcpt') = run_of (rc_Record rcpt) ->
  rc_Record rcpt' = rc_Record rcpt /\ r3 = commit_all r1 trace /\
  cr_IdempotencyIdentityHash req' = cr_IdempotencyIdentityHash req /\
  df_ContentHash (cr_Draft req') = df_ContentHash (cr_Draft req).
Proof.
  intros Hnew Hc Hc' Ht Heq. pose proof (commit_all_indexed trace0 _ (NewSelectionRepository_indexed _ _ Hnew)) as Hix.
  destruct (Commit_stored _ _ _ _ _ _ Hix Hc) as (Hs & Hr & Hid & Hd).
  assert (Hix1 : indexed r1) by (pose proof (Commit_indexed _ ctx now req Hix) as Hx; by rewrite Hc in Hx).
  pose proof (commit_all_indexed trace _ Hix1) as Hix2. destruct (commit_all_extends trace r1) as [He1 He2].
  pose proof (lookup_weaken _ _ _ _ Hs He1) as Hs2. pose proof (lookup_weaken _ _ _ _ Hr He2) as Hr2.
  destruct (Commit_stored _ _ _ _ _ _ Hix2 Hc') as (Hs3 & Hr3 & Hid3 & Hd3).
  destruct (Commit_extends (commit_all r1 trace) ctx' now' req') as [He3 He4]. rewrite Hc' in He3, He4. cbn [snd] in He3, He4.
  pose proof (lookup_weaken _ _ _ _ Hs2 He3) as Hs4. pose proof (lookup_weaken _ _ _ _ Hr2 He4) as Hr4.
  rewrite Ht in Hs3, Hr3. assert (Hrec : rc_Record rcpt' = rc_Record rcpt).
  { destruct Heq as [Heq|Heq]; [rewrite Heq in Hs3|rewrite Heq in Hr3]; congruence. }
  rewrite Hrec in *. split_and!; [done| |congruence|congruence].
  pose proof (Commit_cases (commit_all r1 trace) ctx' now' req') as Hcase. rewrite Hc' in Hcase.
  destruct Hcase as [?|(x & [= ->] & _ & Hfr & _)]; [done|]. cbn [rc_Record] in Hrec. rewrite Ht, Hrec, Hr2 in Hfr. done.
Qed.
(** ** The repository as a log *)

(** The abstract repository is the list of committed records, the newest
    first; an index lookup is a search for the newest record of a key. *)
Definition identity_key (r : Selection) : selectionKey := (f_TenantID (sl_Fields r), sl_IdempotencyIdentityHash r).
Definition injection_key (r : Selection) : selectionKey := (f_TenantID (sl_Fields r), sl_InjectionID r).
Definition run_key (r : Selection) : selectionKey := (f_TenantID (sl_Fields r), run_of r).

Definition newest (key : Selection -> selectionKey) (k : selectionKey) (log : list Selection) : option Selection :=
  List.find (fun r => bool_decide (key r = k)) log.

(** A commit in the log: the first record of an identity or a run is final. *)
Definition log_Commit (ttl : Z) (log : list Selection) (ctx : option goerr) (now : gotime) (request : CommitRequest)
    : result Receipt * list Selection :=
  match ctx, ValidateCommitRequest request with
  | Some e, _ => (Err e, log)
  | None, Err _ => (Err ErrInvalidSelection, log)
  | None, Ok _ =>
      let tenant := cr_TenantID request in
      let draft := cr_Draft request in
      match newest identity_key (tenant, cr_IdempotencyIdentityHash request) log,
            newest run_key (tenant, f_RetrievalRunID (df_Fields draft)) log with
      | Some existing, _ =>
          (if negb (Before now (sl_ExpiresAt existing)) then Err ErrSelectionExpired
           else if negb (String.eqb (sl_DraftHash existing) (df_ContentHash draft)) then Err ErrSelectionIdempotencyConflict
           else Ok (mk_Receipt existing DispositionDuplicate), log)
      | None, Some existing =>
          (if negb (Before now (sl_ExpiresAt existing)) then Err ErrSelectionExpired else Err ErrRetrievalRunConflict, log)
      | None, None =>
          match NewRecord draft (cr_IdempotencyIdentityHash request) (UTC now) (time_Add (UTC now) ttl) with
          | Err e => (Err e, log)
          | Ok record => (Ok (mk_Receipt record DispositionCommitted), record :: log)
          end
      end
  end.

Definition log_find (key : Selection -> selectionKey) (log : list Selection) (ctx : option goerr) (now : gotime) (tenantID identity : string)
    : result Selection :=
  match ctx, newest key (tenantID, identity) log with
  | Some e, _ => Err e
  | None, found =>
      reject String.eqb tenantID "" || String.eqb identity "" with ErrInvalidSelection;
      match found with
      | None => Err ErrSelectionNotFound
      | Some record =>
          reject negb (Before now (sl_ExpiresAt record)) with ErrSelectionNotFound;
          reject bytes_invalid (sl_CanonicalJSON record) with ErrInvalidSelection;
          Ok record
      end
  end.

(** The operations, as calls with answers. *)
Inductive call :=
| CallCommit (ctx : option goerr) (now : gotime) (request : CommitRequest)
| CallInjection (ctx : option goerr) (now : gotime) (tenantID identity : string)
| CallRun (ctx : option goerr) (now : gotime) (tenantID identity : string).

Inductive answer := AnswerCommit (r : result Receipt) | AnswerFind (r : result Selection).

Definition step (r : SelectionRepository) (c : call) : answer * SelectionRepository :=
  match c with
  | CallCommit ctx now request => let (a, r) := Commit r ctx now request in (AnswerCommit a, r)
  | CallInjection ctx now t id => (AnswerFind (FindByInjectionID r ctx now t id), r)
  | CallRun ctx now t id => (AnswerFind (FindByRetrievalRunID r ctx now t id), r)
  end.

Definition log_step (ttl : Z) (log : list Selection) (c : call) : answer * list Selection :=
  match c with
  | CallCommit ctx now request => let (a, log) := log_Commit ttl log ctx now request in (AnswerCommit a, log)
  | CallInjection ctx now t id => (AnswerFind (log_find injection_key log ctx now t id), log)
  | CallRun ctx now t id => (AnswerFind (log_find run_key log ctx now t id), log)
  end.

Fixpoint answers {S} (step : S -> call -> answer * S) (s : S) (calls : list call) : list answer :=
  match calls with
  | [] => []
  | c :: calls => fst (step s c) :: answers step (snd (step s c)) calls
  end.

Record represents (ttl : Z) (r : SelectionRepository) (log : list Selection) : Prop := mk_represents {
  rp_ttl : policy_TTL r = ttl;
  rp_identity : forall k, byIdempotency r !! k = newest identity_key k log;
  rp_injection : forall k, byInjection r !! k = newest injection_key k log;
  rp_run : forall k, byRun r !! k = newest run_key k log;
  rp_made : forall rec, rec ∈ log -> exists d h c e, NewRecord d h c e = Ok rec
}.

Lemma newest_some key k log r : newest key k log = Some r -> r ∈ log /\ key r = k.
Proof. intros [Hin Hk%bool_decide_eq_true]%find_some. by rewrite list_elem_of_In. Qed.

Lemma newest_none key k log r : newest key k log = None -> r ∈ log -> key r <> k.
Proof. intros Hn Hin%list_elem_of_In. pose proof (find_none _ _ Hn _ Hin) as Hb. by rewrite bool_decide_eq_false in Hb. Qed.

Lemma newest_insert (m : gmap selectionKey Selection) key log rec :
  (forall k, m !! k = newest key k log) -> forall k, <[key rec := rec]> m !! k = newest key k (rec :: log).
Proof.
  intros Hm k. unfold newest. cbn [List.find]. case_bool_decide as Hk; [subst; by rewrite lookup_insert_eq|].
  rewrite lookup_insert_ne by done. apply Hm.
Qed.

Lemma ValidateRecord_made d h c e rec :
  NewRecord d h c e = Ok rec -> ValidateRecord rec = if bytes_invalid (sl_CanonicalJSON rec) then Err ErrInvalidSelection else Ok tt.
Proof.
  intros Hn. destruct (bytes_invalid _) eqn:Eb; [|by apply (record_valid _ _ _ _ _ Hn)].
  unfold ValidateRecord. rewrite Eb, !orb_true_r. done.
Qed.

Lemma find_refines (log : list Selection) (index : gmap selectionKey Selection) key ctx now t id :
  (forall k, index !! k = newest key k log) -> (forall rec, rec ∈ log -> exists d h c e, NewRecord d h c e = Ok rec) ->
  find_in index ctx now t id = log_find key log ctx now t id.
Proof.
  intros Hix Hmade. unfold find_in, log_find. destruct ctx; [done|]. rewrite Hix. destruct (_ || _); [done|].
  destruct (newest key (t, id) log) as [rec|] eqn:Ef; [|done]. change (Before (UTC now) (sl_ExpiresAt rec)) with (Before now (sl_ExpiresAt rec)). destruct (negb _); [done|].
  apply newest_some in Ef as [(d & h & c & e & Hn)%Hmade _]. rewrite (ValidateRecord_made _ _ _ _ _ Hn). by destruct (bytes_invalid _).
Qed.

Lemma Commit_refines ttl r log ctx now request :
  represents ttl r log ->
  fst (Commit r ctx now request) = fst (log_Commit ttl log ctx now request) /\
  represents ttl (snd (Commit r ctx now request)) (snd (log_Commit ttl log ctx now request)).
Proof.
  intros Hrep. assert (Hr := Hrep). destruct Hr as [Httl Hid Hinj Hrun Hmade]. unfold Commit, log_Commit. destruct ctx; [done|].
  destruct (ValidateCommitRequest request) as [[]|] eqn:Ev; [|done]. cbn [failed is_ok negb]. rewrite Hid, Hrun, Httl.
  assert (Hten : f_TenantID (df_Fields (cr_Draft request)) = cr_TenantID request).
  { unfold ValidateCommitRequest in Ev. destruct (_ || _) eqn:E in Ev; [done|]. autorewrite with goboolsimpl in E. by destruct_and!. }
  destruct (newest identity_key _ log) as [x|] eqn:Ei.
  { split; [|by repeat case_match]. change (Before (UTC now) (sl_ExpiresAt x)) with (Before now (sl_ExpiresAt x)). by repeat case_match. }
  destruct (newest run_key _ log) as [x|] eqn:Er.
  { assert (Hne : String.eqb (sl_IdempotencyIdentityHash x) (cr_IdempotencyIdentityHash request) = false).
    { apply newest_some in Er as [Hin Hk]. pose proof (newest_none _ _ _ _ Ei Hin) as Hn. apply str_eqb_false. intros Heq. apply Hn.
      unfold identity_key, run_key in *. congruence. }
    rewrite Hne, orb_true_r. change (Before (UTC now) (sl_ExpiresAt x)) with (Before now (sl_ExpiresAt x)). by destruct (negb (Before _ _)). }
  destruct (NewRecord _ _ _ _) as [rec|] eqn:En; [|done]. split; [done|]. cbn [snd].
  destruct (NewRecord_inv _ _ _ _ _ En) as (_ & _ & _ & Heq & _).
  assert (Hk : identity_key rec = (cr_TenantID request, cr_IdempotencyIdentityHash request) /\
    injection_key rec = (cr_TenantID request, sl_InjectionID rec) /\
    run_key rec = (cr_TenantID request, f_RetrievalRunID (df_Fields (cr_Draft request)))).
  { unfold identity_key, injection_key, run_key, run_of. by rewrite Heq; cbn; rewrite Hten. }
  destruct Hk as (Hk1 & Hk2 & Hk3). rewrite <- Hk1, <- Hk2, <- Hk3. split; cbn [policy_TTL byIdempotency byInjection byRun]; [done| | | |].
  1-3: by apply newest_insert.
  intros y [->|Hy]%elem_of_cons; [by eauto|by apply Hmade].
Qed.

Lemma step_refines ttl r log c :
  represents ttl r log ->
  fst (step r c) = fst (log_step ttl log c) /\ represents ttl (snd (step r c)) (snd (log_step ttl log c)).
Proof.
  intros Hr. destruct c as [ctx now req|ctx now t id|ctx now t id]; cbn [step log_step].
  - destruct (Commit_refines ttl r log ctx now req Hr) as [Hf Hs]. destruct (Commit _ _ _ _), (log_Commit _ _ _ _ _). cbn [fst snd] in *.
    by rewrite Hf.
  - split; [|done]. cbn [fst]. f_equal. apply find_refines; apply Hr.
  - split; [|done]. cbn [fst]. f_equal. apply find_refines; apply Hr.
Qed.

(** C17: The repository of three maps refines a log of records: on every sequence of
    commits and lookups its answers, errors included, are those of the log.  In
    the log a selection is final, a second identity for a retrieval run is
    always a conflict, and the only record a lookup can reject is one that is
    longer than the limit on canonical bytes. *)
Theorem repository_refines_log ttl r0 calls :
  NewSelectionRepository ttl = Ok r0 -> answers step r0 calls = answers (log_step ttl) [] calls.
Proof.
  unfold NewSelectionRepository. destruct (policy_invalid ttl); [done|]. intros [= <-].
  assert (Hr : represents ttl (mk_repo ttl ∅ ∅ ∅) []) by (split; [done..|]; intros rec Hin; by apply not_elem_of_nil in Hin).
  revert Hr. generalize (mk_repo ttl ∅ ∅ ∅) as r, (@nil Selection) as log. induction calls as [|c calls IH]; intros r log Hr; [done|].
  cbn [answers]. destruct (step_refines ttl r log c Hr) as [-> Hs]. f_equal. by apply IH.
Qed.
End repository.

(** ** Witnesses: the plan and the schedule of [Parallel] *)
Section demo.
#[local] Existing Instance copy_nfc.
#[local] Existing Instance copy_jcs.
#[local] Existing Instance checksum_digest.

Definition demo_fields (run : string) : Fields :=
  mk_Fields (p_TenantID schedule_plan) (demo_hash "query") (demo_hash "context") run (p_ProjectionEpoch schedule_plan)
    (demo_hash "documents") "serving" (p_PolicyManifestID schedule_plan) "ranker" (p_PlannerManifestID schedule_plan)
    "lifecycle" "" "" (if has_bridge schedule_plan then NoveltyBridged else NoveltyExact) schedule_plan (Some demo_schedule).

Lemma demo_planned_schedule :
  PlanProcedures (fun _ => Live) demo_manifest schedule_input =
  (Ok schedule_plan, snd (PlanProcedures (fun _ => Live) demo_manifest schedule_input)).
Proof.
  assert (Hf : fst (PlanProcedures (fun _ => Live) demo_manifest schedule_input) = Ok schedule_plan) by (vm_compute; reflexivity).
  destruct (PlanProcedures _ _ _) as [x s]. cbn [fst snd] in *. by rewrite Hf.
Qed.

Lemma derived_schedule_matches_witness :
  schedule_matches (demo_fields "run-1") demo_schedule = is_ok (ValidateParallelSchedule demo_schedule).
Proof.
  exact (derived_schedule_matches _ _ _ _ _ _ _ _ _ (demo_fields "run-1") demo_planned_schedule demo_scheduled
    eq_refl eq_refl eq_refl).
Defined.

Definition no_draft : Draft := mk_Draft "" (demo_fields "") "" "".

Definition demo_draft : Draft := Eval vm_compute in demo_value no_draft (NewDraft (demo_fields "run-1")).
Definition other_draft : Draft := Eval vm_compute in demo_value no_draft (NewDraft (demo_fields "run-2")).

Definition demo_now : gotime := mk_time (63900000000 * Second) 0.

Definition no_selection : Selection := mk_Selection "" "" "" (demo_fields "") "" zero_time zero_time "" "".

Definition demo_record : Selection := Eval vm_compute in
  demo_value no_selection (NewRecord demo_draft (demo_hash "key") demo_now (time_Add demo_now Hour)).

Lemma demo_recorded : NewRecord demo_draft (demo_hash "key") demo_now (time_Add demo_now Hour) = Ok demo_record.
Proof. vm_compute. reflexivity. Qed.

Lemma NewRecord_validates_witness : ValidateRecord demo_record = Ok tt.
Proof. apply (NewRecord_validates _ _ _ _ _ demo_recorded). vm_compute. reflexivity. Defined.

Definition demo_commit (key : string) (draft : Draft) : CommitRequest :=
  mk_CommitRequest (p_TenantID schedule_plan) (demo_hash key) draft.

Definition empty_repository : SelectionRepository := mk_repo Hour ∅ ∅ ∅.

Definition committed : SelectionRepository := snd (Commit (commit_all empty_repository []) None demo_now (demo_commit "key" demo_draft)).

Lemma demo_committed :
  Commit (commit_all empty_repository []) None demo_now (demo_commit "key" demo_draft) =
  (Ok (mk_Receipt demo_record DispositionCommitted), committed).
Proof.
  assert (Hf : fst (Commit (commit_all empty_repository []) None demo_now (demo_commit "key" demo_draft)) =
    Ok (mk_Receipt demo_record DispositionCommitted)) by (vm_compute; reflexivity).
  unfold committed. destruct (Commit _ _ _ _) as [x r]. cbn [fst snd] in *. by rewrite Hf.
Qed.

Definition demo_history : list (option goerr * gotime * CommitRequest) :=
  [(None, demo_now, demo_commit "second key" other_draft); (None, demo_now, demo_commit "key" other_draft)].

Lemma Commit_final_witness :
  let r2 := commit_all committed demo_history in
  Commit r2 None demo_now (demo_commit "key" demo_draft) =
    (if negb true then Err ErrSelectionExpired
     else if negb (String.eqb (df_ContentHash demo_draft) (df_ContentHash demo_draft))
     then Err ErrSelectionIdempotencyConflict else Ok (mk_Receipt demo_record DispositionDuplicate), r2).
Proof.
  assert (Hv : ValidateCommitRequest (demo_commit "key" demo_draft) = Ok tt) by (vm_compute; reflexivity).
  assert (Hb : bytes_invalid (sl_CanonicalJSON demo_record) = false) by (vm_compute; reflexivity).
  exact (proj1 (Commit_final Hour empty_repository [] None demo_now (demo_commit "key" demo_draft)
    (mk_Receipt demo_record DispositionCommitted) committed demo_history demo_now (demo_commit "key" demo_draft)
    eq_refl demo_committed eq_refl eq_refl Hv Hb)).
Defined.

Definition retried : SelectionRepository :=
  snd (Commit (commit_all committed demo_history) None demo_now (demo_commit "key" demo_draft)).

Lemma demo_retried :
  Commit (commit_all committed demo_history) None demo_now (demo_commit "key" demo_draft) =
  (Ok (mk_Receipt demo_record DispositionDuplicate), retried).
Proof.
  assert (Hf : fst (Commit (commit_all committed demo_history) None demo_now (demo_commit "key" demo_draft)) =
    Ok (mk_Receipt demo_record DispositionDuplicate)) by (vm_compute; reflexivity).
  unfold retried. destruct (Commit _ _ _ _) as [x r]. cbn [fst snd] in *. by rewrite Hf.
Qed.

Lemma Commit_at_most_once_witness : retried = commit_all committed demo_history.
Proof.
  refine (proj1 (proj2 (Commit_at_most_once Hour empty_repository [] None demo_now (demo_commit "key" demo_draft) _ committed
    demo_history None demo_now (demo_commit "key" demo_draft) _ retried eq_refl demo_committed demo_retried eq_refl _))).
  by left.
Defined.

Definition demo_calls : list call :=
  [CallCommit None demo_now (demo_commit "key" demo_draft); CallCommit None demo_now (demo_commit "second key" demo_draft);
   CallRun None demo_now (p_TenantID schedule_plan) (run_of demo_record)].

Lemma repository_refines_log_witness :
  answers step empty_repository demo_calls = answers (log_step Hour) [] demo_calls /\
  answers (log_step Hour) [] demo_calls =
    [AnswerCommit (Ok (mk_Receipt demo_record DispositionCommitted)); AnswerCommit (Err ErrRetrievalRunConflict); AnswerFind (Ok demo_record)].
Proof. split; [exact (repository_refines_log Hour empty_repository demo_calls eq_refl)|vm_compute; reflexivity]. Defined.
End demo.
