(* ===== verification/Issuer.v ===== *)
(** * The plan issuer (internal/planning/issuer.go)

    The issuer turns a stored retrieval run into an executable plan: it builds
    the compatibility graph of the selected versions, plans over it, derives the
    parallel schedule of a complete plan and commits the selection.  It composes
    [RetrievalRun], [Compatibility], [Planner], [Parallel] and [Selection], and
    is the [PlanIssuer] that [RetrievalService] calls.

    The selection repository is an interface, [SelectionStore], with the laws
    [StoreLaws]; [memory_laws] shows that the in-memory repository meets them.
    The context is polled by every stage in turn: [polling] counts the polls, so
    that a stage sees the context as the stages before it have left it.

    [issued_plan_answers_run] shows that over any history of calls the plan that
    is found or issued for a stored run passes the checks of
    [RetrievalService.attachPlan]; [complete_plan_certified] that a plan is
    complete only for a certified replay; [issued_plan_final] that a plan is
    final, and that an expired one is never issued again. *)

From Stdlib Require Import ZArith String Ascii List Bool Lia.
From stdpp Require Import base gmap strings list sorting.
From S2P Require Import Prelude GoStrings GoTime Canonical Domain Budget Interfaces.
From S2P Require Import RetrievalQuery RetrievalDocument RetrievalChannels RetrievalRun RetrievalRunSound RetrievalService.
From S2P Require Import Compatibility Planner PlannerSound Parallel Selection.

Open Scope Z_scope.
Open Scope go_scope.

(** ** Polling one context in several stages *)
Definition polling (A : Type) : Type := (nat -> ctx_status) -> result A * nat.

(** The context after [n] polls. *)
Definition after (n : nat) (context : nat -> ctx_status) : nat -> ctx_status := fun k => context (n + k)%nat.

Definition stage {A} (r : result A) : polling A := fun _ => (r, 0%nat).

(** A stage with a budget of its own, or with none. *)
Definition counted {A} (m : (nat -> ctx_status) -> result A * wstate) : polling A := fun context =>
  let '(r, s) := m context in (r, polls s).

Definition then_stage {A B} (m : polling A) (k : A -> polling B) : polling B := fun context =>
  match m context with
  | (Err e, n) => (Err e, n)
  | (Ok a, n) => let '(r, n') := k a (after n context) in (r, (n + n')%nat)
  end.

Declare Scope stage_scope.
Delimit Scope stage_scope with stage.
Notation "'stage!' x := m 'in' k" := (then_stage m (fun x => k)) (at level 200, x pattern, m at level 100, k at level 200) : stage_scope.
Open Scope stage_scope.

(** [ctx.Err()] *)
Definition ctx_err (context : nat -> ctx_status) : option goerr :=
  match context 0%nat with Live => None | Canceled => Some CtxCanceled | DeadlineExceeded => Some CtxDeadlineExceeded end.

(** ** The selection repository as the issuer sees it *)
Record SelectionStore (W : Type) := mk_SelectionStore {
  st_Commit : gotime -> (nat -> ctx_status) -> CommitRequest -> W -> result Receipt * W;
  st_FindByRetrievalRunID : gotime -> (nat -> ctx_status) -> string -> string -> W -> result Selection * W
}.
Arguments st_Commit {W} s.
Arguments st_FindByRetrievalRunID {W} s.

Record DeterministicIssuer := mk_DeterministicIssuer { di_manifest : PlannerManifest; di_matrix : CompatibilityMatrix }.

Section issuer.
Context `{NFC} `{JCS} `{RawCanonical} `{Digest}.

Definition memory_store : SelectionStore SelectionRepository :=
  {| st_Commit := fun now context request r => Commit r (ctx_err context) now request;
     st_FindByRetrievalRunID := fun now context tenantID runID r => (FindByRetrievalRunID r (ctx_err context) now tenantID runID, r) |}.

Definition issuer_spec : PlannerManifestSpec :=
  mk_PlannerManifestSpec "retrieval-plan.v1" 32 100 128 12800 1024 102400 4096 8 8 4 4096 10000 1000000 100 100.

(** [NewDeterministicIssuer]; [present] is whether the repository is not nil. *)
Definition NewDeterministicIssuer (present : bool) : result DeterministicIssuer :=
  let* manifest := NewPlannerManifest issuer_spec in
  let* matrix := BuildCompatibilityMatrix [] in
  reject negb present with ErrPlanUnavailable;
  Ok (mk_DeterministicIssuer manifest matrix).

Definition riskCost (value : string) : Z :=
  if String.eqb value "critical" then 4 else if String.eqb value "high" then 3 else if String.eqb value "medium" then 2 else 1.

(** The loop that drops equal neighbours of a sorted list. *)
Fixpoint unique_from (prev : option string) (values : list string) : list string :=
  match values with
  | [] => []
  | v :: values => if match prev with Some p => String.eqb p v | None => false end then unique_from prev values else v :: unique_from (Some v) values
  end.

Definition sortedUnique (values : list string) : list string := unique_from None (sort_strings values).

Definition parallelismFacts (value : ProcedureInterface) : ParallelismFacts :=
  mk_ParallelismFacts (sortedUnique (List.map (fun r => "res_" ++ rq_IdentityHash r)%string (pi_Requirements value)))
    (sortedUnique (List.map (fun p => "res_" ++ pv_IdentityHash p)%string (pi_Provisions value))) [] [] false false.

Definition hasCertifiedExactHit (run : Run) (versionID : string) : bool :=
  existsb (fun e => String.eqb (ex_Channel e) ChannelExact && ex_Complete e) (rn_ChannelExecutions run) &&
  existsb (fun h => String.eqb (ph_Channel h) ChannelExact && String.eqb (ph_VersionID h) versionID) (rn_Hits run) &&
  match List.find (fun g => String.eqb (RetrievalRun.pg_VersionID g) versionID) (rn_Gates run) with Some g => pg_Eligible g | None => false end.

(** The documents by version; a later one replaces an earlier one. *)
Definition documents_by_version (documents : list Document) : gmap string Document :=
  foldl (fun m d => <[dc_ProcedureVersionID d := d]> m) ∅ documents.

Definition goal_id (primary : Document) (run : Run) : string :=
  ("goal_" ++ sum256_hex (dc_ProcedureVersionID primary ++ nul ++ rn_QueryHash run))%string.

Definition certified_replay (run : Run) (primary : Document) : bool :=
  (count (rn_SelectedVersionIDs run) =? 1) && dc_ObservedEndToEnd primary && hasCertifiedExactHit run (dc_ProcedureVersionID primary).

(** The candidate of a document, before its facts are hashed. *)
Definition plain_candidate (run : Run) (document : Document) (interface : ProcedureInterface) (first : bool) (goals : list string) (facts : string)
    : PlannerCandidate :=
  mk_PlannerCandidate (dc_ProcedureVersionID document) interface (dc_Lifecycle document) facts first true
    (ss_PolicyManifestID (rn_Snapshot run)) goals (parallelismFacts interface) (dc_VerificationStrength document) (dc_ObservedEndToEnd document)
    (riskCost (dc_RiskClass document)) (wrap_u32 (Z.max 1 (count (dc_Tools document)))).

(** The body of the loop over the selected versions. *)
Definition issue_candidate (run : Run) (byID : gmap string Document) (goals : list string) (first : bool) (versionID : string) : result PlannerCandidate :=
  match byID !! versionID with
  | None => Err ErrPlanUnavailable
  | Some document =>
      match dc_Interface document with
      | None => Err ErrPlanUnavailable
      | Some interface =>
          let candidate := plain_candidate run document interface first goals "" in
          let* facts := BuildPlanningFactsHash (candidate_facts candidate (pc_GoalPredicateIDs candidate) (pc_Parallelism candidate)) in
          Ok (plain_candidate run document interface first goals facts)
      end
  end.

Fixpoint later_candidates (run : Run) (byID : gmap string Document) (ids : list string) : result (list PlannerCandidate) :=
  match ids with
  | [] => Ok []
  | id :: ids =>
      let* candidate := issue_candidate run byID [] false id in
      let* candidates := later_candidates run byID ids in
      Ok (candidate :: candidates)
  end.

Definition graph_request (i : DeterministicIssuer) (run : Run) (candidates : list PlannerCandidate) : GraphRequest :=
  mk_GraphRequest (rn_TenantID run) (ss_ProjectionEpoch (rn_Snapshot run)) (pm_ID (di_manifest i)) (ss_PolicyManifestID (rn_Snapshot run)) (di_matrix i)
    (List.map (graph_candidate (rn_TenantID run)) candidates).

Definition plan_request (run : Run) (graph : CompatibilityGraph) (goalID : string) (candidates : list PlannerCandidate) : PlanRequest :=
  mk_PlanRequest (rn_TenantID run) (ss_ProjectionEpoch (rn_Snapshot run)) (ss_PolicyManifestID (rn_Snapshot run)) graph [goalID] [] candidates.

Definition novelty_of (primary : Document) (plan : Plan) : string :=
  if negb (p_Complete plan) then NoveltyPartial
  else if has_bridge plan then NoveltyBridged
  else if dc_ObservedEndToEnd primary then NoveltyExact
  else NoveltyKnownShape.

Definition draft_fields (i : DeterministicIssuer) (run : Run) (primary : Document) (plan : Plan) (schedule : option ParallelSchedule) : Fields :=
  let s := rn_Snapshot run in
  mk_Fields (rn_TenantID run) (rn_QueryHash run) (rn_RequestContextHash run) (rn_ID run) (ss_ProjectionEpoch s) (ss_DocumentSetHash s)
    (ss_ServingConfigID s) (ss_PolicyManifestID s) (ss_RankerManifestID s) (pm_ID (di_manifest i)) (ss_PolicyManifestID s) "" ""
    (novelty_of primary plan) plan schedule.

(** The schedule of a complete plan. *)
Definition schedule_stage (i : DeterministicIssuer) (plan : Plan) (graph : CompatibilityGraph) (candidates : list PlannerCandidate)
    : polling (option ParallelSchedule) :=
  if p_Complete plan then
    stage! schedule := counted (fun context => DeriveParallelSchedule context (di_manifest i) plan graph candidates) in stage (Ok (Some schedule))
  else stage (Ok None).

(** [Issue], up to the draft that it commits. *)
Definition issue_draft (i : DeterministicIssuer) (run : Run) (documents : list Document) : polling Draft :=
  match rn_SelectedVersionIDs run with
  | [] => stage (Err ErrPlanUnavailable)
  | first :: rest =>
      if failed (ValidateRun run) || negb (String.eqb (rn_Disposition run) RunSelected) ||
         existsb (fun d => failed (ValidateDocument d) || negb (String.eqb (dc_TenantID d) (rn_TenantID run))) documents
      then stage (Err ErrPlanUnavailable)
      else
        let byID := documents_by_version documents in
        match byID !! first with
        | None => stage (Err ErrPlanUnavailable)
        | Some primary =>
            let goalID := goal_id primary run in
            let goals := if certified_replay run primary then [goalID] else [] in
            stage! candidate := stage (issue_candidate run byID goals true first) in
            stage! others := stage (later_candidates run byID rest) in
            let candidates := candidate :: others in
            stage! graph := counted (fun context => BuildCompatibilityGraphContext (graph_request i run candidates) (mk_env context 0) fresh) in
            stage! plan := counted (fun context => PlanProcedures context (di_manifest i) (plan_request run graph goalID candidates)) in
            stage! schedule := schedule_stage i plan graph candidates in
            stage (NewDraft (draft_fields i run primary plan schedule))
        end
  end.

Definition artifact_node (n : Planner.PlanNode) : RetrievalService.PlanNode :=
  RetrievalService.mk_PlanNode (nd_Ordinal n) (nd_VersionID n) (nd_InterfaceHash n) (nd_Bridge n).

Definition artifact_dependency (d : Planner.PlanDependency) : RetrievalService.PlanDependency :=
  RetrievalService.mk_PlanDependency (dp_CompatibilityEdgeID d) (dp_SourceVersionID d) (dp_TargetVersionID d) (dp_SourceProvisionIDs d)
    (dp_SatisfiedRequirementIDs d).

Definition artifact_group (g : Parallel.ParallelGroup) : RetrievalService.ParallelGroup :=
  RetrievalService.mk_ParallelGroup (pg_Ordinal g) (pg_NodeVersionIDs g).

Definition artifact_gap (g : Planner.PlanGap) : RetrievalService.PlanGap :=
  RetrievalService.mk_PlanGap (gp_VersionID g) (gp_RequirementID g) (gp_GoalPredicateID g) (gp_Code g).

Definition artifact (record : Selection) : PlanArtifact :=
  let f := sl_Fields record in
  let p := f_Plan f in
  mk_PlanArtifact (sl_InjectionID record) (TaskExecutionID (sl_InjectionID record)) (sl_ContentHash record) (p_ContentHash p)
    (p_CompatibilityGraphID p) (p_CompatibilityGraphHash p) (p_CompatibilityMatrixHash p) (p_CandidateSetHash p)
    (f_PlannerManifestID f) (f_PolicyManifestID f) (f_RankerManifestID f) (f_ServingConfigID f) (f_DocumentSetHash f) (f_TenantID f)
    (f_RetrievalRunID f) (f_QueryHash f) (f_RequestContextHash f) (f_ProjectionEpoch f) (f_NoveltyClass f) (p_Complete p)
    (List.map artifact_node (p_Nodes p)) (List.map artifact_dependency (p_Dependencies p))
    (match f_ParallelSchedule f with Some s => List.map artifact_group (sch_Groups s) | None => [] end)
    (List.map artifact_gap (p_Gaps p)) (p_LimitCodes p).

(** The idempotency identity of a run. *)
Definition identity_hash (run : Run) : string := sum256_hex (rn_TenantID run ++ nul ++ rn_ID run).

Section calls.
Context {W : Type} (store : SelectionStore W).

Definition FindByRetrievalRunID (now : gotime) (context : nat -> ctx_status) (tenantID runID : string) (w : W) : result PlanArtifact * W :=
  match st_FindByRetrievalRunID store now context tenantID runID w with
  | (Err e, w') => (Err (if is_error e ErrSelectionNotFound then ErrPlanNotFound else e), w')
  | (Ok record, w') => (Ok (artifact record), w')
  end.

(** [Issue]; [now] is the clock's reading when the selection is committed. *)
Definition Issue (i : DeterministicIssuer) (now : gotime) (context : nat -> ctx_status) (run : Run) (documents : list Document) (w : W)
    : result PlanArtifact * W :=
  match issue_draft i run documents context with
  | (Err e, _) => (Err e, w)
  | (Ok draft, n) =>
      match st_Commit store now (after n context) (mk_CommitRequest (rn_TenantID run) (identity_hash run) draft) w with
      | (Err e, w') => (Err e, w')
      | (Ok receipt, w') => (Ok (artifact (rc_Record receipt)), w')
      end
  end.
End calls.
End issuer.

(** ** What the issuer expects of the repository

    [inv] is an invariant of the repository and [holds w r] says that it holds
    the record [r].  A commit adds at most the record made from its draft and
    returns a held record of its identity; a lookup returns a held record of its
    run; neither loses the invariant. *)
Class StoreLaws `{NFC} `{JCS} `{RawCanonical} `{Digest} {W : Type} (store : SelectionStore W) (inv : W -> Prop) (holds : W -> Selection -> Prop) : Prop := {
  law_commit : forall now context request w, inv w ->
    let '(res, w') := st_Commit store now context request w in
    inv w' /\
    (forall r, holds w' r -> holds w r \/ exists created expires, NewRecord (cr_Draft request) (cr_IdempotencyIdentityHash request) created expires = Ok r) /\
    (forall receipt, res = Ok receipt -> holds w' (rc_Record receipt) /\
       f_TenantID (sl_Fields (rc_Record receipt)) = cr_TenantID request /\
       sl_IdempotencyIdentityHash (rc_Record receipt) = cr_IdempotencyIdentityHash request);
  law_find : forall now context tenantID runID w, inv w ->
    let '(res, w') := st_FindByRetrievalRunID store now context tenantID runID w in
    inv w' /\ (forall r, holds w' r -> holds w r) /\
    (forall r, res = Ok r -> holds w' r /\ f_TenantID (sl_Fields r) = tenantID /\ f_RetrievalRunID (sl_Fields r) = runID)
}.

Section memory.
Context `{NFC} `{JCS} `{RawCanonical} `{Digest}.

Definition memory_holds (r : SelectionRepository) (record : Selection) : Prop := exists key, byIdempotency r !! key = Some record.

Record memory_inv (r : SelectionRepository) : Prop := mk_memory_inv {
  mi_indexed : indexed r;
  mi_tenant : forall t id record, byIdempotency r !! (t, id) = Some record -> f_TenantID (sl_Fields record) = t
}.

Lemma commit_tenant r ctx now request :
  memory_inv r -> memory_inv (snd (Commit r ctx now request)).
Proof.
  intros [Hi Ht]. split; [by apply Commit_indexed|]. pose proof (Commit_cases r ctx now request) as Hc. pose proof (eq_refl (Commit r ctx now request)) as Hdef.
  destruct (Commit r ctx now request) as [res r'] eqn:Ec. destruct Hc as [->|(rec & -> & _ & _ & _ & _ & _ & Hn & Hii & _)]; [done|].
  cbn [snd]. intros t id record. rewrite Hii. intros [[[= <- <-] <-]|[_ Hl]]%lookup_insert_Some; [|by eapply Ht].
  destruct (NewRecord_inv _ _ _ _ _ Hn) as (_ & _ & _ & Hr & _). rewrite Hr. cbn [sl_Fields].
  unfold Commit in Ec. destruct ctx; [done|]. unfold failed in Ec. destruct (ValidateCommitRequest request) as [[]|] eqn:Ev; [|done].
  unfold ValidateCommitRequest in Ev. destruct (_ || _) eqn:E in Ev; [done|]. autorewrite with goboolsimpl in E. by destruct_and!.
Qed.

#[export] Instance memory_laws : StoreLaws memory_store memory_inv memory_holds.
Proof.
  split.
  - intros now context request r Hi. cbn [memory_store st_Commit]. pose proof (commit_tenant r (ctx_err context) now request Hi) as Hi'.
    pose proof (Commit_cases r (ctx_err context) now request) as Hc. destruct (Commit r _ now request) as [res r'] eqn:Ec. cbn [snd] in Hi'.
    split_and!; [done| |].
    + intros rec [k Hk]. destruct Hc as [->|(new & _ & _ & _ & _ & _ & _ & Hn & Hii & _)]; [left; by exists k|].
      rewrite Hii in Hk. apply lookup_insert_Some in Hk as [[_ <-]|[_ Hk]]; [right; by eexists _, _|left; by exists k].
    + intros receipt ->. destruct (Commit_stored _ _ _ _ _ _ (mi_indexed _ Hi) Ec) as (Hs & _ & Hid & _). split_and!; [by eexists|by eapply mi_tenant|done].
  - intros now context t id r Hi. cbn [memory_store st_FindByRetrievalRunID]. split_and!; [done|done|]. intros rec Hf.
    unfold Selection.FindByRetrievalRunID, find_in in Hf. destruct (ctx_err context); [done|]. destruct (_ || _); [done|].
    destruct (byRun r !! (t, id)) as [x|] eqn:Er; [|done]. destruct (negb _); [done|]. destruct (failed _); [done|]. injection Hf as ->.
    destruct (ix_run _ (mi_indexed _ Hi) _ _ _ Er) as [Hrun Hb]. split_and!; [by eexists|by eapply mi_tenant|done].
Qed.
End memory.

(** ** Histories of calls *)
Inductive IssuerCall :=
| CallIssue (now : gotime) (context : nat -> ctx_status) (run : Run) (documents : list Document)
| CallFind (now : gotime) (context : nat -> ctx_status) (tenantID runID : string).

Section history.
Context `{NFC} `{JCS} `{RawCanonical} `{Digest}.

Lemma documents_by_version_elem documents v d :
  documents_by_version documents !! v = Some d -> d ∈ documents /\ dc_ProcedureVersionID d = v.
Proof.
  unfold documents_by_version. induction documents as [|x documents IH] using rev_ind; [cbn [foldl]; by rewrite lookup_empty|].
  rewrite foldl_app. cbn [foldl]. intros [[<- <-]|[_ Hl]]%lookup_insert_Some; [set_solver|]. destruct (IH Hl). set_solver.
Qed.

Lemma then_stage_Ok {A B} (m : polling A) (k : A -> polling B) context b n :
  then_stage m k context = (Ok b, n) -> exists a n1 n2, m context = (Ok a, n1) /\ k a (after n1 context) = (Ok b, n2).
Proof.
  unfold then_stage. destruct (m context) as [[a|e] n1]; [|done]. destruct (k a (after n1 context)) as [r n2] eqn:Ek. intros [= -> _]. by eexists _, _, _.
Qed.

(** What a draft was made from. *)
Record drafted (i : DeterministicIssuer) (run : Run) (documents : list Document) (draft : Draft) : Prop := mk_drafted {
  dd_run : ValidateRun run = Ok tt;
  dd_documents : Forall (fun d => ValidateDocument d = Ok tt /\ dc_TenantID d = rn_TenantID run) documents;
  dd_made : exists primary rest candidate others graph plan schedule,
    rn_SelectedVersionIDs run = dc_ProcedureVersionID primary :: rest /\ primary ∈ documents /\
    documents_by_version documents !! dc_ProcedureVersionID primary = Some primary /\
    issue_candidate run (documents_by_version documents) (if certified_replay run primary then [goal_id primary run] else []) true (dc_ProcedureVersionID primary) = Ok candidate /\
    later_candidates run (documents_by_version documents) rest = Ok others /\
    (exists context s, PlanProcedures context (di_manifest i) (plan_request run graph (goal_id primary run) (candidate :: others)) = (Ok plan, s)) /\
    NewDraft (draft_fields i run primary plan schedule) = Ok draft
}.

Lemma issue_draft_drafted i run documents context draft n :
  issue_draft i run documents context = (Ok draft, n) -> drafted i run documents draft.
Proof.
  unfold issue_draft. destruct (rn_SelectedVersionIDs run) as [|first rest] eqn:Es; [done|]. destruct (_ || _ || _) eqn:Eg; [done|].
  rewrite !orb_false_iff in Eg. destruct Eg as [[Hv _] Hd]. destruct (documents_by_version documents !! first) as [primary|] eqn:Ep; [|done].
  destruct (documents_by_version_elem _ _ _ Ep) as [Hin <-].
  intros (candidate & ? & ? & Hc & Hr)%then_stage_Ok. injection Hc as Hc _. apply then_stage_Ok in Hr as (others & ? & ? & Ho & Hr). injection Ho as Ho _.
  apply then_stage_Ok in Hr as (graph & ? & ? & _ & Hr). apply then_stage_Ok in Hr as (plan & n3 & ? & Hp & Hr).
  apply then_stage_Ok in Hr as (schedule & ? & ? & _ & Hr). injection Hr as Hr _. split.
  - unfold failed in Hv. by destruct (ValidateRun run) as [[]|].
  - apply Forall_forall. intros d Hdin. assert (Hx : failed (ValidateDocument d) || negb (String.eqb (dc_TenantID d) (rn_TenantID run)) = false).
    { destruct (_ || _) eqn:E; [|done]. rewrite <- Hd. symmetry. apply existsb_exists. exists d. split; [by apply list_elem_of_In|done]. }
    rewrite orb_false_iff, negb_false_iff, String.eqb_eq in Hx. destruct Hx as [Hx ->]. unfold failed in Hx. by destruct (ValidateDocument d) as [[]|].
  - exists primary, rest, candidate, others, graph, plan, schedule. split_and!; try done. unfold counted in Hp. destruct (PlanProcedures _ _ _) as [r s] eqn:E in Hp.
    injection Hp as -> _. by eexists _, _.
Qed.

(** The record was committed for a draft of the run. *)
Definition made_for (i : DeterministicIssuer) (run : Run) (record : Selection) : Prop :=
  exists documents draft created expires, drafted i run documents draft /\ NewRecord draft (identity_hash run) created expires = Ok record.

Lemma made_fields i run record :
  made_for i run record -> sl_IdempotencyIdentityHash record = identity_hash run /\ exists documents draft, drafted i run documents draft /\
    sl_Fields record = df_Fields draft /\ validateDraftFields (df_Fields draft) = Ok tt /\ sl_ContentHash record <> ""%string /\
    sl_InjectionID record = InjectionID (f_TenantID (df_Fields draft)) (identity_hash run).
Proof.
  intros (documents & draft & created & expires & Hd & Hn). destruct (NewRecord_inv _ _ _ _ _ Hn) as (Hv & _ & _ & Hr & Hm).
  destruct (ValidateDraft_inv _ Hv) as (_ & _ & Hf & _). pose proof (MarshalAndHash_pattern _ _ _ Hm) as Hp.
  split; [by rewrite Hr|]. exists documents, draft. split_and!; try done; [by rewrite Hr| |by rewrite Hr]. by intros Hz; rewrite Hz in Hp.
Qed.

Lemma NewDraft_fields f draft : NewDraft f = Ok draft -> df_Fields draft = f.
Proof. unfold NewDraft. intros Hn. inv_Ok Hn. by injection Hn as <-. Qed.

(** A record that was made for a run passes the checks of [attachPlan]. *)
Lemma made_answers i run record : made_for i run record -> plan_mismatch (artifact record) run = false.
Proof.
  intros (_ & documents & draft & [_ _ (primary & rest & candidate & others & graph & plan & schedule & _ & _ & _ & _ & _ & _ & Hn)] & Hf & Hv & Hc & Hi)%made_fields.
  apply NewDraft_fields in Hn. rewrite Hn in *. unfold validateDraftFields in Hv. destruct (identities_invalid _) eqn:Ei; [done|]. clear Hv.
  unfold identities_invalid in Ei. autorewrite with goboolsimpl in Ei. destruct_and!. cbn [draft_fields f_Plan] in *.
  assert (Hp : sha256Pattern (p_ContentHash plan) = true /\ (count (p_Nodes plan) =? 0) = false).
  { unfold failed in *. destruct (ValidatePlan plan) as [[]|] eqn:Ev; [|done]. unfold ValidatePlan in Ev. destruct (_ || _ || _) eqn:E1 in Ev; [done|].
    destruct (negb (sealed_as _ _ _)); [done|]. match type of Ev with (if ?b then _ else _) = _ => destruct b eqn:E2; [done|] end. clear Ev.
    autorewrite with goboolsimpl in E1, E2. destruct_and!. split; [done|by apply Z.eqb_neq]. }
  destruct Hp as [Hp Hc0]. assert (Hh : p_ContentHash plan <> ""%string) by (by intros Hz; rewrite Hz in Hp).
  unfold plan_mismatch, artifact. rewrite Hf, Hi. cbn -[String.eqb InjectionID TaskExecutionID count]. unfold count. rewrite length_map. fold (count (p_Nodes plan)).
  rewrite Hc0, !str_eqb_refl, Z.eqb_refl. apply String.eqb_neq in Hc, Hh. by rewrite Hc, Hh.
Qed.

(** The selected versions are planned in order, the first as the seed. *)
Lemma issue_candidate_inv run byID goals first v c :
  issue_candidate run byID goals first v = Ok c ->
  exists document interface, byID !! v = Some document /\ dc_Interface document = Some interface /\ pc_VersionID c = dc_ProcedureVersionID document /\
    pc_Interface c = interface /\ pc_GoalPredicateIDs c = goals /\ pc_Seed c = first.
Proof.
  unfold issue_candidate. destruct (byID !! v) as [document|]; [|done]. destruct (dc_Interface document) as [interface|] eqn:Ei; [|done].
  intros (facts & _ & Hc)%bind_Ok. injection Hc as <-. by exists document, interface.
Qed.

Lemma later_candidates_goals run byID ids candidates :
  later_candidates run byID ids = Ok candidates -> Forall (fun c => pc_GoalPredicateIDs c = []) candidates /\ length candidates = length ids.
Proof.
  revert candidates. induction ids as [|id ids IH]; cbn [later_candidates]; [by intros ? [= <-]|].
  intros candidates (c & Hc & Hr)%bind_Ok. apply bind_Ok in Hr as (cs & Hcs & Hr). injection Hr as <-. destruct (IH _ Hcs) as [Hg Hl].
  destruct (issue_candidate_inv _ _ _ _ _ _ Hc) as (? & ? & _ & _ & _ & _ & Hgc & _). split; [by constructor|cbn; congruence].
Qed.

(** A complete plan is the replay of the one selected version: it was observed
    end to end, the exact channel found it and its gate is open; its interface
    requires nothing, and it is the one step of the plan. *)
Record certified (run : Run) (primary : Document) (plan : PlanArtifact) : Prop := mk_certified {
  cf_selected : rn_SelectedVersionIDs run = [dc_ProcedureVersionID primary];
  cf_document : ValidateDocument primary = Ok tt /\ dc_TenantID primary = rn_TenantID run;
  cf_observed : dc_ObservedEndToEnd primary = true;
  cf_exact : hasCertifiedExactHit run (dc_ProcedureVersionID primary) = true;
  cf_interface : exists interface, dc_Interface primary = Some interface /\ pi_Requirements interface = [];
  cf_nodes : List.map on_VersionID (pa_Nodes plan) = [dc_ProcedureVersionID primary];
  cf_alone : pa_Dependencies plan = [] /\ pa_NoveltyClass plan = NoveltyExact
}.

Lemma single_candidate_plan manifest request plan c :
  plan_sound manifest request plan -> pr_Candidates request = [c] -> pr_SatisfiedRequirementIDs request = [] -> p_Complete plan = true ->
  List.map nd_VersionID (p_Nodes plan) = [pc_VersionID c] /\ p_Dependencies plan = [] /\ pi_Requirements (pc_Interface c) = [] /\
  (pc_Seed c = true -> has_bridge plan = false).
Proof.
  intros [Hd Hs _ Hn _ Ho _ Hr] Hc Hsat Hcomp.
  assert (Hv : forall n, n ∈ p_Nodes plan -> nd_VersionID n = pc_VersionID c /\ nd_Bridge n = negb (pc_Seed c)).
  { intros n (c' & Hin & <- & _ & Hb & _)%Hn. rewrite Hc in Hin. apply list_elem_of_singleton in Hin as ->. done. }
  assert (Hl : List.map nd_VersionID (p_Nodes plan) = [pc_VersionID c]).
  { unfold count in Hs. destruct (p_Nodes plan) as [|n [|n' l]] eqn:E; [cbn in Hs; lia| |].
    - cbn. f_equal. apply Hv. set_solver.
    - exfalso. cbn in Hd. rewrite (proj1 (Hv n ltac:(set_solver))), (proj1 (Hv n' ltac:(set_solver))) in Hd. inversion Hd. set_solver. }
  assert (Hdep : p_Dependencies plan = []).
  { destruct (p_Dependencies plan) as [|d l] eqn:E; [done|]. destruct (Ho d ltac:(set_solver)) as (before & between & tail & He). rewrite Hl in He.
    apply (f_equal length) in He. rewrite length_app in He. cbn in He. rewrite length_app in He. cbn in He. lia. }
  split_and!; [done|done| |].
  - destruct (pi_Requirements (pc_Interface c)) as [|r l] eqn:E; [done|]. exfalso. destruct (p_Nodes plan) as [|n nodes] eqn:En; [done|].
    destruct (Hr Hcomp n c r ltac:(set_solver)) as [Hx|(d & Hx & _)]; [rewrite Hc; set_solver|symmetry; apply Hv; set_solver|rewrite E; set_solver| |].
    + rewrite Hsat in Hx. set_solver.
    + rewrite Hdep in Hx. set_solver.
  - intros Hseed. unfold has_bridge. destruct (existsb _ _) eqn:E; [|done]. apply existsb_exists in E as (n & Hin%list_elem_of_In & Hb).
    destruct (Hv n Hin) as [_ Hb']. rewrite Hseed in Hb'. by rewrite Hb' in Hb.
Qed.

Lemma made_certified i run record :
  made_for i run record -> pa_Complete (artifact record) = true -> exists primary, certified run primary (artifact record).
Proof.
  intros (_ & documents & draft & [_ Hdocs (primary & rest & c & others & graph & plan & schedule & Hsel & Hin & Hp & Hc & Ho & (context & s & Hplan) & Hn)] & Hf & _)%made_fields.
  apply NewDraft_fields in Hn. unfold artifact. cbn [pa_Complete]. rewrite Hf, Hn. cbn [draft_fields f_Plan]. intros Hcomp. exists primary.
  pose proof (plan_returned_sound _ _ _ _ _ Hplan) as Hsound. destruct (issue_candidate_inv _ _ _ _ _ _ Hc) as (document & interface & Hdoc & Hi & Hcv & Hci & Hcg & Hcs).
  rewrite Hp in Hdoc. injection Hdoc as <-. destruct (later_candidates_goals _ _ _ _ Ho) as [Hog Hol].
  assert (Hcert : certified_replay run primary = true).
  { destruct (ps_goals _ _ _ Hsound Hcomp (TrimSpace (goal_id primary run))) as (n & c' & _ & Hin' & _ & Hg); [cbn; set_solver|].
    cbn [plan_request pr_Candidates] in Hin'. apply elem_of_cons in Hin' as [->|Hin'].
    - rewrite Hcg in Hg. destruct (certified_replay run primary); [done|]. cbn in Hg. set_solver.
    - rewrite Forall_forall in Hog. rewrite (Hog _ Hin') in Hg. cbn in Hg. set_solver. }
  unfold certified_replay in Hcert. rewrite !andb_true_iff in Hcert. destruct Hcert as [[Hcount Hobs] Hexact].
  assert (rest = []) as ->. { apply Z.eqb_eq in Hcount. rewrite Hsel in Hcount. unfold count in Hcount. destruct rest; [done|]. cbn [length] in Hcount. lia. }
  destruct others; [|done]. destruct (single_candidate_plan _ _ _ c Hsound eq_refl eq_refl Hcomp) as (Hnodes & Hdeps & Hreq & Hbridge).
  rewrite Forall_forall in Hdocs. split; try done.
  - by apply Hdocs.
  - exists interface. by rewrite Hci in Hreq.
  - cbn [pa_Nodes]. rewrite List.map_map. trans (List.map nd_VersionID (p_Nodes plan)); [by apply List.map_ext|by rewrite Hnodes, Hcv].
  - cbn [pa_Dependencies pa_NoveltyClass f_NoveltyClass draft_fields]. rewrite Hdeps. unfold novelty_of. by rewrite Hcomp, (Hbridge Hcs), Hobs.
Qed.

(** ** Every history of calls *)
Section calls.
Context {W : Type} (store : SelectionStore W) (inv : W -> Prop) (holds : W -> Selection -> Prop) `{!StoreLaws store inv holds}.
Context (i : DeterministicIssuer) (stored : Run -> Prop).

(** The identities of the stored runs of a tenant do not collide. *)
Hypothesis Hidentity : forall run run', stored run -> stored run' -> rn_TenantID run = rn_TenantID run' -> identity_hash run = identity_hash run' -> run = run'.

Definition apply_issuer (w : W) (c : IssuerCall) : W :=
  match c with
  | CallIssue now context run documents => snd (Issue store i now context run documents w)
  | CallFind now context tenantID runID => snd (FindByRetrievalRunID store now context tenantID runID w)
  end.

Definition for_stored (c : IssuerCall) : Prop := match c with CallIssue _ _ run _ => stored run | CallFind _ _ _ _ => True end.

(** The plan that [RetrievalService.find_or_issue] gets for a run. *)
Definition obtains (w : W) (run : Run) (plan : PlanArtifact) : Prop :=
  (exists now context documents, fst (Issue store i now context run documents w) = Ok plan) \/
  (exists now context, fst (FindByRetrievalRunID store now context (rn_TenantID run) (rn_ID run) w) = Ok plan).

Definition issued (w : W) : Prop := inv w /\ forall r, holds w r -> exists run, stored run /\ made_for i run r.

Lemma made_tenant run r : made_for i run r -> f_TenantID (sl_Fields r) = rn_TenantID run /\ f_RetrievalRunID (sl_Fields r) = rn_ID run.
Proof.
  intros (_ & documents & draft & [_ _ (? & ? & ? & ? & ? & ? & ? & _ & _ & _ & _ & _ & _ & Hn)] & Hf & _)%made_fields. apply NewDraft_fields in Hn. by rewrite Hf, Hn.
Qed.

Lemma issued_unique run r :
  stored run -> f_TenantID (sl_Fields r) = rn_TenantID run -> sl_IdempotencyIdentityHash r = identity_hash run ->
  (exists run', stored run' /\ made_for i run' r) -> made_for i run r.
Proof using Hidentity.
  intros Hs Ht Hi (run' & Hs' & Hm). destruct (made_fields _ _ _ Hm) as [Hi' _]. destruct (made_tenant _ _ Hm) as [Ht' _].
  by rewrite (Hidentity run run') by congruence.
Qed.

Lemma Issue_issued now context run documents w :
  issued w -> stored run -> let '(res, w') := Issue store i now context run documents w in
  issued w' /\ forall plan, res = Ok plan -> exists draft n receipt, issue_draft i run documents context = (Ok draft, n) /\
    st_Commit store now (after n context) (mk_CommitRequest (rn_TenantID run) (identity_hash run) draft) w = (Ok receipt, w') /\
    plan = artifact (rc_Record receipt) /\ made_for i run (rc_Record receipt).
Proof using All.
  intros [Hi Hh] Hs. unfold Issue. destruct (issue_draft i run documents context) as [[draft|e] n] eqn:Ed; [|by split]. pose proof Ed as Ed'.
  pose proof (law_commit now (after n context) (mk_CommitRequest (rn_TenantID run) (identity_hash run) draft) w Hi) as Hl.
  apply issue_draft_drafted in Ed'. destruct (st_Commit store _ _ _ w) as [res w'] eqn:Ec. destruct Hl as (Hi' & Hnew & Hrec).
  assert (Hiss : issued w').
  { split; [done|]. intros r [Hr|(created & expires & Hn)]%Hnew; [by apply Hh|]. exists run. split; [done|]. by exists documents, draft, created, expires. }
  destruct res as [receipt|e]; [|by split]. split; [done|]. intros plan [= <-]. exists draft, n, receipt. split_and!; [done|done|done|].
  destruct (Hrec _ eq_refl) as (Hr & Ht & Hid). apply issued_unique; [done|done|done|]. by apply Hiss.
Qed.

Lemma Find_issued now context tenantID runID w :
  issued w -> let '(res, w') := FindByRetrievalRunID store now context tenantID runID w in
  issued w' /\ forall plan, res = Ok plan -> exists r, plan = artifact r /\ (exists run, stored run /\ made_for i run r) /\
    f_TenantID (sl_Fields r) = tenantID /\ f_RetrievalRunID (sl_Fields r) = runID.
Proof using All.
  intros [Hi Hh]. unfold FindByRetrievalRunID. pose proof (law_find now context tenantID runID w Hi) as Hl.
  destruct (st_FindByRetrievalRunID store _ _ _ _ w) as [res w']. destruct Hl as (Hi' & Hold & Hrec).
  destruct res as [r|e]; (split; [split; [done|]; intros r' Hr'; by apply Hh, Hold|]); [|done].
  intros plan [= <-]. exists r. destruct (Hrec _ eq_refl) as (Hr & Ht & Hid). split_and!; try done. by apply Hh, Hold.
Qed.

Lemma history_issued calls w : issued w -> Forall for_stored calls -> issued (foldl apply_issuer w calls).
Proof using All.
  intros Hw Hc. revert w Hw. induction Hc as [|c calls Hc _ IH]; intros w Hw; [done|]. cbn [foldl]. apply IH. destruct c as [now context run documents|now context t id]; cbn [apply_issuer].
  - pose proof (Issue_issued now context run documents w Hw Hc) as Hx. destruct (Issue store i now context run documents w). by destruct Hx.
  - pose proof (Find_issued now context t id w Hw) as Hx. destruct (FindByRetrievalRunID store now context t id w). by destruct Hx.
Qed.

Lemma obtains_made calls w0 run plan :
  inv w0 -> (forall r, ~ holds w0 r) -> Forall for_stored calls -> stored run -> obtains (foldl apply_issuer w0 calls) run plan ->
  exists r, plan = artifact r /\ made_for i run r.
Proof using All.
  intros Hi Hempty Hc Hs Hob. assert (Hw : issued (foldl apply_issuer w0 calls)). { apply history_issued; [|done]. split; [done|]. intros r Hr. by destruct (Hempty r). }
  destruct Hob as [(now & context & documents & Ho)|(now & context & Ho)].
  - pose proof (Issue_issued now context run documents _ Hw Hs) as Hx. destruct (Issue store i now context run documents _) as [res w'].
    destruct (proj2 Hx plan Ho) as (? & ? & receipt & _ & _ & -> & Hm). by eexists.
  - pose proof (Find_issued now context (rn_TenantID run) (rn_ID run) _ Hw) as Hx. destruct (FindByRetrievalRunID store now context _ _ _) as [res w'].
    destruct (proj2 Hx plan Ho) as (r & -> & (run' & Hs' & Hm) & Ht & Hid). exists r. split; [done|]. destruct (made_tenant _ _ Hm) as [Ht' Hid'].
    rewrite (Hidentity run run'); [done|done|done|congruence|]. unfold identity_hash. congruence.
Qed.

(** C25: After any history of calls that issue plans for stored runs and look plans
    up, the plan that is found or issued for a stored run passes the checks that
    the service makes of it: it names its tenant, run, query, context and epoch,
    and has a step. *)
Theorem issued_plan_answers_run (calls : list IssuerCall) (w0 : W) (run : Run) (plan : PlanArtifact) :
  inv w0 -> (forall r, ~ holds w0 r) -> Forall for_stored calls -> stored run -> obtains (foldl apply_issuer w0 calls) run plan -> plan_mismatch plan run = false.
Proof using All. intros Hi He Hc Hs Ho. destruct (obtains_made _ _ _ _ Hi He Hc Hs Ho) as (r & -> & Hm). by eapply made_answers. Qed.

End calls.

(** ** Issued plans are final *)
Definition live : nat -> ctx_status := fun _ => Live.

Lemma history_commits i calls r : exists trace, foldl (apply_issuer memory_store i) r calls = commit_all r trace.
Proof.
  revert r. induction calls as [|c calls IH]; intros r; [by exists []|]. cbn [foldl]. destruct (IH (apply_issuer memory_store i r c)) as (trace & ->).
  destruct c as [now context run documents|now context t id]; cbn [apply_issuer].
  - unfold Issue. destruct (issue_draft i run documents context) as [[draft|e] n]; [|by exists trace].
    exists ((ctx_err (after n context), now, mk_CommitRequest (rn_TenantID run) (identity_hash run) draft) :: trace).
    cbn [memory_store st_Commit]. unfold commit_all. cbn [foldl]. by destruct (Commit r _ _ _) as [[receipt|e] r'].
  - unfold FindByRetrievalRunID. cbn [memory_store st_FindByRetrievalRunID]. exists trace. by destruct (Selection.FindByRetrievalRunID _ _ _ _ _).
Qed.

(** A plan is issued once: in every later state, until its selection expires,
    looking it up and issuing it again give the same plan; afterwards the lookup
    finds nothing and the run can no longer get a plan.  Neither changes the
    repository. *)
Theorem issued_plan_final (i : DeterministicIssuer) (stored : Run -> Prop) (ttl : Z) (r0 r1 : SelectionRepository) (before later : list IssuerCall)
    (now now' : gotime) (run : Run) (documents : list Document) (plan : PlanArtifact) :
  (forall a b, stored a -> stored b -> rn_TenantID a = rn_TenantID b -> identity_hash a = identity_hash b -> a = b) ->
  NewSelectionRepository ttl = Ok r0 -> Forall (for_stored stored) before -> stored run ->
  Issue memory_store i now live run documents (foldl (apply_issuer memory_store i) r0 before) = (Ok plan, r1) ->
  exists record, plan = artifact record /\
    (bytes_invalid (sl_CanonicalJSON record) = false ->
     let r2 := foldl (apply_issuer memory_store i) r1 later in
     let current := Before now' (sl_ExpiresAt record) in
     FindByRetrievalRunID memory_store now' live (rn_TenantID run) (rn_ID run) r2 = (if current then Ok plan else Err ErrPlanNotFound, r2) /\
     Issue memory_store i now' live run documents r2 = (if current then Ok plan else Err ErrSelectionExpired, r2)).
Proof.
  intros Hid Hnew Hb Hs His. destruct (history_commits i before r0) as (trace0 & Ht0).
  assert (Hinv : memory_inv r0 /\ forall r, ~ memory_holds r0 r).
  { split; [split; [by eapply NewSelectionRepository_indexed|]|]; unfold NewSelectionRepository in Hnew; (destruct (policy_invalid ttl); [done|]); injection Hnew as <-.
    - intros t id r Hr. cbn in Hr. by rewrite lookup_empty in Hr.
    - intros r [k Hr]. cbn in Hr. by rewrite lookup_empty in Hr. }
  assert (Hiss : issued memory_inv memory_holds i stored (commit_all r0 trace0)).
  { rewrite <- Ht0. apply (history_issued memory_store memory_inv memory_holds i stored Hid); [|done]. split; [apply Hinv|]. intros r Hr. by destruct (proj2 Hinv r). }
  rewrite Ht0 in His. pose proof (Issue_issued memory_store memory_inv memory_holds i stored Hid now live run documents _ Hiss Hs) as Hx. rewrite His in Hx.
  destruct (proj2 Hx plan eq_refl) as (draft & n & receipt & Ed & Ec & -> & Hm). exists (rc_Record receipt). split; [done|]. intros Hbytes r2 current.
  cbn [memory_store st_Commit] in Ec. change (ctx_err (after n live)) with (@None goerr) in Ec. set (request := mk_CommitRequest _ _ draft) in *.
  assert (Hv : ValidateCommitRequest request = Ok tt). { unfold Commit, failed in Ec. by destruct (ValidateCommitRequest request) as [[]|]. }
  destruct (history_commits i later r1) as (trace & Ht).
  destruct (Commit_final ttl r0 trace0 None now request receipt r1 trace now' request Hnew Ec eq_refl eq_refl Hv Hbytes) as [Hcommit Hfind].
  destruct (made_tenant i run _ Hm) as [_ Hrun]. unfold run_of in Hfind. rewrite Hrun, <- Ht in Hfind. rewrite <- Ht in Hcommit. fold r2 current in Hcommit, Hfind. split.
  - unfold FindByRetrievalRunID. cbn [memory_store st_FindByRetrievalRunID]. change (ctx_err live) with (@None goerr).
    change (cr_TenantID request) with (rn_TenantID run) in Hfind. rewrite Hfind. by destruct current.
  - unfold Issue. rewrite Ed. cbn [memory_store st_Commit]. change (ctx_err (after n live)) with (@None goerr). fold request. rewrite Hcommit, str_eqb_refl. by destruct current.
Qed.
End history.

(** ** Examples *)
#[local] Existing Instance copy_nfc.
#[local] Existing Instance copy_jcs.
#[local] Existing Instance copy_raw.
#[local] Existing Instance checksum_digest.

Module issuer_demo.
Definition demo_issuer : DeterministicIssuer := Eval vm_compute in
  demo_value (mk_DeterministicIssuer demo_manifest demo_matrix) (NewDeterministicIssuer true).

Definition document_with (version : string) (observed : bool) (interface : ProcedureInterface) : result Document :=
  BuildDocument (mk_DocumentInput "tenant" version "procedure" "fix the build" (demo_hash "intent") (demo_hash "effect")
    [mk_ToolRequirement "make" "contract-1"] ["contract-1"] [] ["files"] (demo_hash "environment") (mk_Harness "cli" "1") [] "active" observed 2 3 0
    (mk_time (100 * 365 * 24 * Hour) 0) "policy-1" true "eu" "low" (Some interface)).

Definition no_document : Document :=
  mk_Document "" "" "" "" "" "" "" [] [] [] "" (mk_Harness "" "") [] "" false 0 0 0 "" "" false "" "" None [] "" "" "".

Definition replayed_document : Document := Eval vm_compute in demo_value no_document (document_with "v1" true demo_build_interface).
Definition requiring_document : Document := Eval vm_compute in demo_value no_document (document_with "v1" true demo_test_interface).

Definition no_selections : SelectionRepository := mk_repo Hour ∅ ∅ ∅.

Definition first_issue : result PlanArtifact * SelectionRepository := Issue memory_store demo_issuer demo_now live run_demo.demo_run [replayed_document] no_selections.

Definition no_plan : PlanArtifact := mk_PlanArtifact "" "" "" "" "" "" "" "" "" "" "" "" "" "" "" "" "" 0 "" false [] [] [] [] [].
Definition first_plan : PlanArtifact := Eval vm_compute in demo_value no_plan (fst first_issue).

Definition later_calls : list IssuerCall :=
  [CallIssue demo_now live run_demo.demo_run [replayed_document]; CallFind demo_now live "tenant" (rn_ID run_demo.demo_run)].
End issuer_demo.
Import issuer_demo.

Lemma first_issued : Issue memory_store demo_issuer demo_now live run_demo.demo_run [replayed_document] no_selections = (Ok first_plan, snd first_issue).
Proof.
  assert (Hf : fst first_issue = Ok first_plan) by (vm_compute; reflexivity). unfold first_issue in *. destruct (Issue _ _ _ _ _ _ _) as [x r]. cbn [fst snd] in *. by rewrite Hf.
Qed.

Lemma demo_identity run run' :
  run = run_demo.demo_run -> run' = run_demo.demo_run -> rn_TenantID run = rn_TenantID run' -> identity_hash run = identity_hash run' -> run = run'.
Proof. intros -> ->. reflexivity. Qed.

Lemma no_selections_inv : memory_inv no_selections.
Proof. split; [exact (NewSelectionRepository_indexed Hour no_selections eq_refl)|]. intros t id r Hr. cbn in Hr. by rewrite lookup_empty in Hr. Qed.

Lemma no_selections_empty r : ~ memory_holds no_selections r.
Proof. intros [k Hk]. cbn in Hk. by rewrite lookup_empty in Hk. Qed.

Lemma demo_obtained : obtains memory_store demo_issuer (foldl (apply_issuer memory_store demo_issuer) no_selections []) run_demo.demo_run first_plan.
Proof. left. exists demo_now, live, [replayed_document]. cbn [foldl]. by rewrite first_issued. Qed.

Lemma issued_plan_answers_run_witness : plan_mismatch first_plan run_demo.demo_run = false.
Proof.
  exact (issued_plan_answers_run memory_store memory_inv memory_holds demo_issuer (fun run => run = run_demo.demo_run) demo_identity [] no_selections
    run_demo.demo_run first_plan no_selections_inv no_selections_empty (Forall_nil_2 _) eq_refl demo_obtained).
Defined.


Lemma issued_plan_final_witness :
  exists record, first_plan = artifact record /\
    (bytes_invalid (sl_CanonicalJSON record) = false ->
     let r2 := foldl (apply_issuer memory_store demo_issuer) (snd first_issue) later_calls in
     let current := Before (time_Add demo_now Minute) (sl_ExpiresAt record) in
     FindByRetrievalRunID memory_store (time_Add demo_now Minute) live "tenant" (rn_ID run_demo.demo_run) r2 = (if current then Ok first_plan else Err ErrPlanNotFound, r2) /\
     Issue memory_store demo_issuer (time_Add demo_now Minute) live run_demo.demo_run [replayed_document] r2 = (if current then Ok first_plan else Err ErrSelectionExpired, r2)).
Proof.
  exact (issued_plan_final demo_issuer (fun run => run = run_demo.demo_run) Hour no_selections (snd first_issue) [] later_calls demo_now (time_Add demo_now Minute)
    run_demo.demo_run [replayed_document] first_plan demo_identity eq_refl (Forall_nil_2 _) eq_refl first_issued).
Defined.

(** The same run with a document that requires a resource gets a partial plan,
    although the version was observed end to end and found by the exact channel. *)
Example requiring_version_partial :
  match fst (Issue memory_store demo_issuer demo_now live run_demo.demo_run [requiring_document] no_selections) with
  | Ok plan => pa_Complete plan = false /\ pa_NoveltyClass plan = NoveltyPartial /\ List.map oq_VersionID (pa_Gaps plan) = ["v1"%string]
  | Err _ => False
  end /\ certified_replay run_demo.demo_run requiring_document = true.
Proof. vm_compute. split_and!; reflexivity. Qed.
