(* ===== verification/Credit.v ===== *)
(** * Outcome credit (internal/credit)

    [Assign] decides whether an outcome is credited causally to the selection it
    names, only associated with it, or not attributable.  [Credit_exact] states
    when credit is causal and what it says about the plan, the goals and the
    times of the evidence, and [Credit_valid] that a sealed record passes
    [Validate].  [Credit_order_dependent] shows that the class can depend on the
    order of the evidence. *)

From Stdlib Require Import ZArith String Ascii List Bool Lia.
From stdpp Require Import base gmap strings list sorting.
From S2P Require Import Prelude GoStrings GoTime Canonical Domain Evidence Budget Interfaces Compatibility Planner PlannerSound Parallel Selection.

Open Scope Z_scope.
Open Scope go_scope.

(** ** model.go *)
Definition CausalSuccess : string := "causal_success".
Definition AssociatedSuccess : string := "associated_success".
Definition CausalFailure : string := "causal_failure".
Definition AssociatedFailure : string := "associated_failure".
Definition Unattributable : string := "unattributable".

Definition validClass (value : string) : bool :=
  String.eqb value CausalSuccess || String.eqb value AssociatedSuccess || String.eqb value CausalFailure ||
  String.eqb value AssociatedFailure || String.eqb value Unattributable.

Record RuleManifest := mk_RuleManifest {
  rm_SchemaVersion : string;
  rm_Version : string;
  rm_MaximumClockSkewSeconds : Z;
  rm_RequireCompleteCausalPlan : bool;
  rm_RequireGoalEvidence : bool;
  rm_ID : string;
  rm_ContentHash : string;
  rm_CanonicalJSON : string
}.

Definition rule_json (m : RuleManifest) : json :=
  JObj (fstr "schema_version" (rm_SchemaVersion m) ++ fstr "version" (rm_Version m) ++
    fnum "maximum_clock_skew_seconds" (rm_MaximumClockSkewSeconds m) ++
    fbool "require_complete_causal_plan" (rm_RequireCompleteCausalPlan m) ++
    fbool "require_goal_evidence" (rm_RequireGoalEvidence m)).

Record CreditRecord := mk_CreditRecord {
  cd_SchemaVersion : string;
  cd_ID : string;
  cd_TenantID : string;
  cd_OutcomeID : string;
  cd_InjectionID : string;
  cd_TaskExecutionID : string;
  cd_ProcedureVersionID : string;
  cd_Class : string;
  cd_RuleManifestID : string;
  cd_SelectionHash : string;
  cd_ReasonCodes : list string;
  cd_CreatedAt : gotime;
  cd_ExpiresAt : gotime;
  cd_ContentHash : string;
  cd_CanonicalJSON : string
}.

Definition credit_json (r : CreditRecord) : json :=
  JObj (fstr "schema_version" (cd_SchemaVersion r) ++ fstr "outcome_credit_id" (cd_ID r) ++
    fstr "tenant_id" (cd_TenantID r) ++ fstr "outcome_id" (cd_OutcomeID r) ++ fstr "injection_id" (cd_InjectionID r) ++
    fstr "task_execution_id" (cd_TaskExecutionID r) ++ fstr_omit "procedure_version_id" (cd_ProcedureVersionID r) ++
    fstr "credit_class" (cd_Class r) ++ fstr "rule_manifest_id" (cd_RuleManifestID r) ++
    fstr "selection_hash" (cd_SelectionHash r) ++ fstrs "reason_codes" (cd_ReasonCodes r) ++
    ftime "created_at" (cd_CreatedAt r) ++ ftime "expires_at" (cd_ExpiresAt r) ++
    fstr_omit "content_hash" (cd_ContentHash r)).

Definition with_seal (r : CreditRecord) (id hash encoded : string) (reasons : list string) : CreditRecord :=
  mk_CreditRecord "outcome-credit.v1" id (cd_TenantID r) (cd_OutcomeID r) (cd_InjectionID r) (cd_TaskExecutionID r)
    (cd_ProcedureVersionID r) (cd_Class r) (cd_RuleManifestID r) (cd_SelectionHash r) reasons (cd_CreatedAt r)
    (cd_ExpiresAt r) hash encoded.

Definition credit_invalid (r : CreditRecord) : bool :=
  String.eqb (cd_TenantID r) "" || String.eqb (cd_OutcomeID r) "" || String.eqb (cd_InjectionID r) "" ||
  String.eqb (cd_TaskExecutionID r) "" || String.eqb (cd_RuleManifestID r) "" ||
  negb (sha256Pattern (cd_SelectionHash r)) || negb (validClass (cd_Class r)) || IsZero (cd_CreatedAt r) ||
  negb (time_Equal (cd_CreatedAt r) (UTC (cd_CreatedAt r))) || negb (After (cd_ExpiresAt r) (cd_CreatedAt r)).

(** ** assign.go *)
Record AssignmentRequest := mk_AssignmentRequest {
  aq_Manifest : RuleManifest;
  aq_Selection : Selection;
  aq_Outcome : CanonicalOutcome;
  aq_Evaluation : Evidence.Result;
  aq_InjectionID : string;
  aq_TaskExecutionID : string;
  aq_Now : gotime
}.

Definition fact_in_window (req : AssignmentRequest) (fact : OutcomeEvidence) : bool :=
  let skew := seconds (rm_MaximumClockSkewSeconds (aq_Manifest req)) in
  let selection := aq_Selection req in
  match parse_rfc3339nano (oe_ObservedAt fact) with
  | None => false
  | Some observed =>
      negb (Before observed (time_Add (sl_CreatedAt selection) (wrap_i64 (- skew))) ||
            After observed (time_Add (aq_Now req) skew) || negb (Before observed (sl_ExpiresAt selection)))
  end.

Definition temporalEvidence (req : AssignmentRequest) : bool := forallb (fact_in_window req) (co_Evidence (aq_Outcome req)).

Definition goal_class (class : string) : bool :=
  String.eqb class EvidenceClassGoalPredicate || String.eqb class EvidenceClassIndependentVerifier.

(** "[verdicts[fact.PredicateID] = fact.Verdict]": the last fact of a predicate wins. *)
Definition verdicts_of (facts : list OutcomeEvidence) : gmap string string :=
  foldl (fun m fact => if goal_class (oe_Class fact) then <[oe_PredicateID fact := oe_Verdict fact]> m else m) ∅ facts.

Definition verdict_at (verdicts : gmap string string) (goal : string) : string := default ""%string (verdicts !! goal).

Definition goalEvidence (selection : Selection) (outcome : CanonicalOutcome) : bool * bool :=
  let verdicts := verdicts_of (co_Evidence outcome) in
  let goals := p_RequestedGoalPredicateIDs (f_Plan (sl_Fields selection)) in
  foldl (fun acc goal =>
      (fst acc && String.eqb (verdict_at verdicts goal) EvidenceVerdictSatisfied,
       snd acc || String.eqb (verdict_at verdicts goal) EvidenceVerdictFailed))
    (0 <? count goals, false) goals.

Definition reason_if (b : bool) (reason : string) : list string := if b then [reason] else [].

(** The switch over the outcome's state: the class and its first reason. *)
Definition classify (state : string) (causal_success causal_failure : bool) : string * list string :=
  if String.eqb state OutcomeStateVerifiedSuccess
  then (if causal_success then CausalSuccess else AssociatedSuccess, [])
  else if String.eqb state OutcomeStateProvisionalSuccess then (AssociatedSuccess, ["provisional_evidence"%string])
  else if String.eqb state OutcomeStateVerifiedFailure
  then (if causal_failure then CausalFailure else AssociatedFailure, [])
  else (Unattributable, ["inconclusive_outcome"%string]).

Definition attributed_version (class : string) (plan : Plan) : string :=
  if (String.eqb class CausalSuccess || String.eqb class CausalFailure) && (count (p_Nodes plan) =? 1)
  then match p_Nodes plan with n :: _ => nd_VersionID n | [] => "" end else "".

Section credit.
Context `{NFC} `{JCS} `{Digest}.

Definition NewRuleManifest (version : string) (maximumClockSkew : Z) : result RuleManifest :=
  reject String.eqb version "" || (maximumClockSkew <? 0) || (5 * Minute <? maximumClockSkew) with ErrInvalidCredit;
  let manifest id hash encoded := mk_RuleManifest "credit-rule-manifest.v1" version (wrap_u32 (Z.quot maximumClockSkew Second))
    true true id hash encoded in
  let* (encoded, hash) := MarshalAndHash (rule_json (manifest "" "" ""))%string in
  Ok (manifest ("crman_" ++ hash)%string hash encoded).

Definition ValidateRuleManifest (m : RuleManifest) : result unit :=
  match NewRuleManifest (rm_Version m) (seconds (rm_MaximumClockSkewSeconds m)) with
  | Err _ => Err ErrInvalidCredit
  | Ok rebuilt =>
      reject negb (String.eqb (rm_SchemaVersion m) (rm_SchemaVersion rebuilt)) || negb (String.eqb (rm_ID m) (rm_ID rebuilt)) ||
             negb (String.eqb (rm_ContentHash m) (rm_ContentHash rebuilt)) ||
             negb (String.eqb (rm_CanonicalJSON m) (rm_CanonicalJSON rebuilt)) ||
             negb (rm_RequireCompleteCausalPlan m) || negb (rm_RequireGoalEvidence m) with ErrInvalidCredit;
      Ok tt
  end.

Definition newRecord (value : CreditRecord) : result CreditRecord :=
  let value := with_seal value "" "" "" (sort_strings (cd_ReasonCodes value)) in
  reject credit_invalid value with ErrInvalidCredit;
  reject negb (strictSorted (cd_ReasonCodes value)) with ErrInvalidCredit;
  let id := ("ocred_" ++ sum256_hex (cd_TenantID value ++ nul ++ cd_OutcomeID value))%string in
  let value := with_seal value id "" "" (cd_ReasonCodes value) in
  let* (encoded, hash) := MarshalAndHash (credit_json value) in
  Ok (with_seal value id hash encoded (cd_ReasonCodes value)).

Definition Validate (r : CreditRecord) : result unit :=
  match newRecord (with_seal r "" "" "" (cd_ReasonCodes r)) with
  | Err _ => Err ErrInvalidCredit
  | Ok rebuilt =>
      reject negb (String.eqb (cd_ID rebuilt) (cd_ID r)) || negb (String.eqb (cd_ContentHash rebuilt) (cd_ContentHash r)) ||
             negb (String.eqb (cd_CanonicalJSON rebuilt) (cd_CanonicalJSON r)) with ErrInvalidCredit;
      Ok tt
  end.

Definition request_invalid (req : AssignmentRequest) : bool :=
  let s := aq_Selection req in
  failed (ValidateRecord s) || failed (ValidateRuleManifest (aq_Manifest req)) || IsZero (aq_Now req) ||
  negb (String.eqb (co_TenantID (aq_Outcome req)) (f_TenantID (sl_Fields s))) ||
  negb (String.eqb (aq_InjectionID req) (sl_InjectionID s)) ||
  negb (String.eqb (aq_TaskExecutionID req) (TaskExecutionID (sl_InjectionID s))) ||
  negb (Before (aq_Now req) (sl_ExpiresAt s)).

Definition Assign (req : AssignmentRequest) : result CreditRecord :=
  reject request_invalid req with ErrInvalidCredit;
  let s := aq_Selection req in
  let plan := f_Plan (sl_Fields s) in
  let state := Evidence.er_State (aq_Evaluation req) in
  let temporal := temporalEvidence req in
  let '(goalSatisfied, goalFailed) := goalEvidence s (aq_Outcome req) in
  let '(class, reasons) := classify state (temporal && p_Complete plan && goalSatisfied) (temporal && p_Complete plan && goalFailed) in
  let reasons := reasons ++ reason_if (negb temporal) "outside_attribution_window" in
  let reasons := reasons ++ reason_if (negb (p_Complete plan)) "partial_plan" in
  let reasons := reasons ++ reason_if ((String.eqb state OutcomeStateVerifiedSuccess && negb goalSatisfied) ||
                                       (String.eqb state OutcomeStateVerifiedFailure && negb goalFailed)) "goal_evidence_missing" in
  newRecord (mk_CreditRecord "" "" (co_TenantID (aq_Outcome req)) (co_ID (aq_Outcome req)) (aq_InjectionID req)
    (aq_TaskExecutionID req) (attributed_version class plan) class (rm_ID (aq_Manifest req)) (sl_ContentHash s) reasons
    (UTC (aq_Now req)) (sl_ExpiresAt s) "" "").
End credit.

(** ** What the evidence says about a goal *)
Definition speaks_for (goal : string) (f : OutcomeEvidence) : bool :=
  goal_class (oe_Class f) && String.eqb (oe_PredicateID f) goal.

(** The last qualifying fact about the goal has this verdict. *)
Definition settled (facts : list OutcomeEvidence) (goal verdict : string) : Prop :=
  exists f, last (List.filter (speaks_for goal) facts) = Some f /\ oe_Verdict f = verdict.

Lemma verdicts_of_spec facts goal :
  verdicts_of facts !! goal = option_map oe_Verdict (last (List.filter (speaks_for goal) facts)).
Proof.
  induction facts as [|f facts IH] using rev_ind; [done|]. unfold verdicts_of in *. rewrite foldl_app, List.filter_app. cbn [foldl List.filter].
  unfold speaks_for at 2. destruct (goal_class (oe_Class f)); cbn [andb]; [|by rewrite app_nil_r].
  destruct (String.eqb_spec (oe_PredicateID f) goal) as [->|Hne].
  - by rewrite lookup_insert_eq, last_snoc.
  - by rewrite lookup_insert_ne, app_nil_r.
Qed.

Lemma verdict_at_settled facts goal verdict :
  verdict <> ""%string -> String.eqb (verdict_at (verdicts_of facts) goal) verdict = true <-> settled facts goal verdict.
Proof.
  intros Hv. unfold verdict_at, settled. rewrite verdicts_of_spec, String.eqb_eq.
  destruct (last _) as [f|]; simpl; split; naive_solver.
Qed.

Lemma goal_fold (v : string -> string) goals a b :
  foldl (fun acc goal => (fst acc && String.eqb (v goal) EvidenceVerdictSatisfied,
                          snd acc || String.eqb (v goal) EvidenceVerdictFailed)) (a, b) goals =
  (a && forallb (fun goal => String.eqb (v goal) EvidenceVerdictSatisfied) goals,
   b || existsb (fun goal => String.eqb (v goal) EvidenceVerdictFailed) goals).
Proof.
  revert a b. induction goals as [|g goals IH]; intros a b; simpl; [by rewrite andb_true_r, orb_false_r|].
  rewrite IH. by rewrite andb_assoc, orb_assoc.
Qed.

Lemma goalEvidence_spec selection outcome :
  let goals := p_RequestedGoalPredicateIDs (f_Plan (sl_Fields selection)) in
  let facts := co_Evidence outcome in
  (fst (goalEvidence selection outcome) = true <->
   goals <> [] /\ forall goal, goal ∈ goals -> settled facts goal EvidenceVerdictSatisfied) /\
  (snd (goalEvidence selection outcome) = true <-> exists goal, goal ∈ goals /\ settled facts goal EvidenceVerdictFailed).
Proof.
  intros goals facts. unfold goalEvidence. rewrite goal_fold. cbn [fst snd orb]. fold goals. fold facts. split.
  - rewrite andb_true_iff, forallb_forall, Z.ltb_lt. unfold count.
    assert (Hne : 0 < Z.of_nat (length goals) <-> goals <> []) by (destruct goals; simpl; split; try done; lia). rewrite Hne.
    split; intros [Hg Hall]; (split; [done|]); intros goal Hin.
    + apply verdict_at_settled; [done|]. by apply Hall, list_elem_of_In.
    + apply verdict_at_settled; [done|]. by apply Hall, list_elem_of_In.
  - rewrite existsb_exists. split; intros (goal & Hin & Hv); exists goal; (split; [by apply list_elem_of_In|]);
      by apply verdict_at_settled.
Qed.

(** The evidence was observed while the selection was live, up to the clock skew. *)
Definition observed_in_window (req : AssignmentRequest) (f : OutcomeEvidence) : Prop :=
  let skew := rm_MaximumClockSkewSeconds (aq_Manifest req) * Second in
  exists t, parse_rfc3339nano (oe_ObservedAt f) = Some t /\
    t_ns (sl_CreatedAt (aq_Selection req)) - skew <= t_ns t <= t_ns (aq_Now req) + skew /\
    t_ns t < t_ns (sl_ExpiresAt (aq_Selection req)).

Section assigned.
Context `{NFC} `{JCS} `{Digest}.

Lemma rule_skew m :
  in_u32 (rm_MaximumClockSkewSeconds m) -> ValidateRuleManifest m = Ok tt -> 0 <= rm_MaximumClockSkewSeconds m <= 300.
Proof.
  intros Hu. unfold ValidateRuleManifest, NewRuleManifest. destruct (_ || _ || _) eqn:E; [done|]. intros _.
  unfold_widths. rewrite !orb_false_iff, !Z.ltb_ge, seconds_id in E by lia. unfold Minute, Second in E. lia.
Qed.

Lemma fact_in_window_spec req f :
  0 <= rm_MaximumClockSkewSeconds (aq_Manifest req) <= 300 -> fact_in_window req f = true <-> observed_in_window req f.
Proof.
  intros Hs. unfold fact_in_window, observed_in_window. destruct (parse_rfc3339nano _) as [t|]; [|naive_solver].
  rewrite seconds_id by lia. rewrite wrap_i64_id by (unfold_widths; unfold Second; lia).
  unfold Before, After, time_Add. cbn [t_ns]. autorewrite with goboolsimpl. split.
  - intros ((? & ?) & ?). exists t. split; [done|]. lia.
  - intros (t' & [= <-] & ? & ?). lia.
Qed.

Lemma newRecord_inv v r :
  newRecord v = Ok r ->
  let w := with_seal v "" "" "" (sort_strings (cd_ReasonCodes v)) in
  let id := ("ocred_" ++ sum256_hex (cd_TenantID v ++ nul ++ cd_OutcomeID v))%string in
  credit_invalid w = false /\ strictSorted (cd_ReasonCodes w) = true /\
  MarshalAndHash (credit_json (with_seal w id "" "" (cd_ReasonCodes w))) = Ok (cd_CanonicalJSON r, cd_ContentHash r) /\
  r = with_seal w id (cd_ContentHash r) (cd_CanonicalJSON r) (cd_ReasonCodes w).
Proof.
  unfold newRecord. destruct (credit_invalid _) eqn:E1; [done|]. destruct (strictSorted _) eqn:E2; [|done]. cbn [negb].
  destruct (MarshalAndHash _) as [[enc h]|] eqn:Em; [|done]. cbn [bind]. intros [= <-].
  cbn [cd_ContentHash cd_CanonicalJSON with_seal]. done.
Qed.

(** The identifier of a valid record is the digest of its tenant and outcome. *)
Lemma Validate_id r : Validate r = Ok tt -> cd_ID r = ("ocred_" ++ sum256_hex (cd_TenantID r ++ nul ++ cd_OutcomeID r))%string.
Proof.
  unfold Validate. destruct (newRecord _) as [rebuilt|] eqn:En; [|done]. intros Hv. inv_Ok Hv. autorewrite with goboolsimpl in E. destruct_and!.
  apply newRecord_inv in En as (_ & _ & _ & Hr). match goal with Hid : cd_ID rebuilt = cd_ID r |- _ => rewrite <- Hid end. by rewrite Hr.
Qed.

(** [newRecord] reads its argument only after the seal is cleared and the reasons are sorted. *)
Lemma newRecord_norm v v' :
  with_seal v "" "" "" (sort_strings (cd_ReasonCodes v)) = with_seal v' "" "" "" (sort_strings (cd_ReasonCodes v')) ->
  newRecord v = newRecord v'.
Proof. intros Heq. unfold newRecord. by rewrite Heq. Qed.

Lemma newRecord_valid v r : newRecord v = Ok r -> Validate r = Ok tt.
Proof.
  intros Hn. pose proof (newRecord_inv _ _ Hn) as (_ & _ & _ & Hr).
  assert (Hre : newRecord (with_seal r "" "" "" (cd_ReasonCodes r)) = Ok r).
  { rewrite <- Hn. apply newRecord_norm. rewrite Hr. cbn [with_seal cd_ReasonCodes]. rewrite sort_strings_idem. reflexivity. }
  unfold Validate. by rewrite Hre, !str_eqb_refl.
Qed.

Lemma credit_assigned_inv req r :
  Assign req = Ok r ->
  let s := aq_Selection req in
  let plan := f_Plan (sl_Fields s) in
  let state := Evidence.er_State (aq_Evaluation req) in
  let '(sat, fail) := goalEvidence s (aq_Outcome req) in
  let causal := temporalEvidence req && p_Complete plan in
  request_invalid req = false /\ cd_Class r = fst (classify state (causal && sat) (causal && fail)) /\
  cd_ProcedureVersionID r = attributed_version (cd_Class r) plan /\ Validate r = Ok tt.
Proof.
  unfold Assign. destruct (request_invalid req); [done|]. destruct (goalEvidence _ _) as [sat fail].
  destruct (classify _ _ _) as [class reasons]. intros Hn. pose proof (newRecord_valid _ _ Hn) as Hv.
  apply newRecord_inv in Hn as (_ & _ & _ & Hr). rewrite Hr. cbn [with_seal cd_Class cd_ProcedureVersionID fst].
  rewrite <- Hr. by split_and!.
Qed.

Lemma classify_causal state a b :
  (fst (classify state a b) = CausalSuccess <-> state = OutcomeStateVerifiedSuccess /\ a = true) /\
  (fst (classify state a b) = CausalFailure <-> state = OutcomeStateVerifiedFailure /\ b = true).
Proof.
  unfold classify. destruct (String.eqb_spec state OutcomeStateVerifiedSuccess) as [->|].
  { destruct a; simpl; split; naive_solver. }
  destruct (String.eqb_spec state OutcomeStateProvisionalSuccess) as [->|]; [simpl; split; naive_solver|].
  destruct (String.eqb_spec state OutcomeStateVerifiedFailure) as [->|]; [destruct b; simpl; split; naive_solver|].
  simpl; split; naive_solver.
Qed.

Lemma attributed_version_some class plan :
  attributed_version class plan <> ""%string ->
  (class = CausalSuccess \/ class = CausalFailure) /\ exists n, p_Nodes plan = [n] /\ attributed_version class plan = nd_VersionID n.
Proof.
  unfold attributed_version. destruct (_ || _) eqn:E; cbn [andb]; [|done]. rewrite orb_true_iff, !String.eqb_eq in E.
  destruct (Z.eqb_spec (count (p_Nodes plan)) 1) as [Hc|]; [|done]. intros _. split; [done|]. unfold count in Hc.
  destruct (p_Nodes plan) as [|n [|? ?]]; simpl in Hc; try lia. by exists n.
Qed.

(** C18: Credit is causal exactly when the outcome is verified, all its evidence
    was observed while the selection was live (up to the manifest's clock
    skew), the plan is complete, and the goals agree: for a success the last
    qualifying fact of every requested goal is satisfied, for a failure that of
    some requested goal failed.  A procedure version is credited only then, and
    only when it is the single node of the plan. *)
Theorem Credit_exact (req : AssignmentRequest) (r : CreditRecord) :
  Assign req = Ok r -> in_u32 (rm_MaximumClockSkewSeconds (aq_Manifest req)) ->
  let plan := f_Plan (sl_Fields (aq_Selection req)) in
  let facts := co_Evidence (aq_Outcome req) in
  let state := Evidence.er_State (aq_Evaluation req) in
  let live := (forall f, f ∈ facts -> observed_in_window req f) /\ p_Complete plan = true in
  let goals := p_RequestedGoalPredicateIDs plan in
  (cd_Class r = CausalSuccess <-> state = OutcomeStateVerifiedSuccess /\ live /\
     goals <> [] /\ forall goal, goal ∈ goals -> settled facts goal EvidenceVerdictSatisfied) /\
  (cd_Class r = CausalFailure <-> state = OutcomeStateVerifiedFailure /\ live /\
     exists goal, goal ∈ goals /\ settled facts goal EvidenceVerdictFailed) /\
  (cd_ProcedureVersionID r <> ""%string -> (cd_Class r = CausalSuccess \/ cd_Class r = CausalFailure) /\
     exists n, p_Nodes plan = [n] /\ cd_ProcedureVersionID r = nd_VersionID n).
Proof.
  intros Ha Hu plan facts state live goals. pose proof (credit_assigned_inv _ _ Ha) as Hi. cbn zeta in Hi.
  destruct (goalEvidence (aq_Selection req) (aq_Outcome req)) as [sat fail] eqn:Eg. destruct Hi as (Hv & Hc & Hp & _).
  destruct (goalEvidence_spec (aq_Selection req) (aq_Outcome req)) as [Hsat Hfail]. rewrite Eg in Hsat, Hfail.
  cbn [fst snd] in Hsat, Hfail. fold plan in Hsat, Hfail, Hc, Hp. fold goals in Hsat, Hfail. fold facts in Hsat, Hfail. fold state in Hc.
  assert (Hskew : 0 <= rm_MaximumClockSkewSeconds (aq_Manifest req) <= 300).
  { apply rule_skew; [done|]. unfold request_invalid in Hv. rewrite !orb_false_iff in Hv. destruct_and!. unfold failed in *.
    by destruct (ValidateRuleManifest (aq_Manifest req)) as [[]|]. }
  assert (Hlive : temporalEvidence req && p_Complete plan = true <-> live).
  { rewrite andb_true_iff. unfold temporalEvidence, live. rewrite forallb_forall. apply and_iff_compat_r.
    split; intros Hall f Hf; apply fact_in_window_spec; try done; by apply Hall, list_elem_of_In. }
  destruct (classify_causal state (temporalEvidence req && p_Complete plan && sat) (temporalEvidence req && p_Complete plan && fail))
    as [H1' H2']. rewrite <- Hc in H1', H2'. split_and!.
  - rewrite H1', andb_true_iff, Hlive, Hsat. tauto.
  - rewrite H2', andb_true_iff, Hlive, Hfail. tauto.
  - rewrite Hp. apply attributed_version_some.
Qed.

(** A credit record that [Assign] returns passes [Validate]. *)
Theorem Credit_valid (req : AssignmentRequest) (r : CreditRecord) : Assign req = Ok r -> Validate r = Ok tt.
Proof.
  intros Ha. pose proof (credit_assigned_inv _ _ Ha) as Hi. cbn zeta in Hi. destruct (goalEvidence _ _). by destruct Hi as (_ & _ & _ & ?).
Qed.
End assigned.

(** ** Witnesses *)
Section demo.
#[local] Existing Instance copy_nfc.
#[local] Existing Instance copy_jcs.
#[local] Existing Instance checksum_digest.

Definition demo_rules : RuleManifest := Eval vm_compute in
  demo_value (mk_RuleManifest "" "" 0 false false "" "" "") (NewRuleManifest "credit.v1" (5 * Second)).

Definition fact (id class verdict predicate : string) : OutcomeEvidence :=
  mk_OutcomeEvidence id id class verdict predicate "verifier" "" "2025-11-29T08:10:00Z" [].

(** The goals of the plan are proved; a weaker check of the first one failed. *)
Definition proofs : list OutcomeEvidence :=
  [fact "ev_1" EvidenceClassIndependentVerifier EvidenceVerdictSatisfied "linted";
   fact "ev_2" EvidenceClassGoalPredicate EvidenceVerdictSatisfied "scanned";
   fact "ev_3" EvidenceClassGoalPredicate EvidenceVerdictSatisfied "tested"].
Definition weaker_failure : OutcomeEvidence := fact "ev_4" EvidenceClassGoalPredicate EvidenceVerdictFailed "linted".

Definition demo_evidence_policy : Evidence.Policy :=
  Evidence.mk_Policy "v1" ["linted"; "scanned"; "tested"] EvidenceClassGoalPredicate EvidenceClassGoalPredicate
    EvidenceClassIndependentVerifier.

Definition demo_evaluation (facts : list OutcomeEvidence) : Evidence.Result :=
  demo_value (Evidence.mk_Result "" false "" "" "" [] [] []) (Evidence.Evaluate demo_evidence_policy facts ∅).

Definition demo_request (facts : list OutcomeEvidence) : AssignmentRequest :=
  mk_AssignmentRequest demo_rules demo_record
    (mk_CanonicalOutcome "outcome.v1" "out_1" (p_TenantID schedule_plan) "trace" "" "" "" "" "" "" facts "" "")
    (demo_evaluation facts) (sl_InjectionID demo_record) (TaskExecutionID (sl_InjectionID demo_record))
    (time_Add demo_now (20 * Minute)).

Definition no_credit : CreditRecord := mk_CreditRecord "" "" "" "" "" "" "" "" "" "" [] zero_time zero_time "" "".

Definition demo_credit : CreditRecord := Eval vm_compute in demo_value no_credit (Assign (demo_request proofs)).

Lemma demo_credited : Assign (demo_request proofs) = Ok demo_credit.
Proof. vm_compute. reflexivity. Qed.

Lemma Credit_exact_witness :
  cd_Class demo_credit = CausalSuccess <->
  Evidence.er_State (demo_evaluation proofs) = OutcomeStateVerifiedSuccess /\
  ((forall f, f ∈ proofs -> observed_in_window (demo_request proofs) f) /\ p_Complete schedule_plan = true) /\
  p_RequestedGoalPredicateIDs schedule_plan <> [] /\
  forall goal, goal ∈ p_RequestedGoalPredicateIDs schedule_plan -> settled proofs goal EvidenceVerdictSatisfied.
Proof.
  assert (Hu : in_u32 (rm_MaximumClockSkewSeconds (aq_Manifest (demo_request proofs)))) by (unfold_widths; vm_compute; split; discriminate).
  exact (proj1 (Credit_exact _ _ demo_credited Hu)).
Defined.

Example demo_credit_causal : cd_Class demo_credit = CausalSuccess.
Proof. reflexivity. Qed.

Lemma Credit_valid_witness : Validate demo_credit = Ok tt.
Proof. exact (Credit_valid _ _ demo_credited). Defined.

(** The class depends on the order of the evidence although its evaluation
    does not: with a weaker failed check of a goal recorded before the
    independent proof, the credit is causal, with the same facts in the other
    order it is only associated.  The evidence of an outcome is ordered by
    content hash. *)
Theorem Credit_order_dependent :
  let before := weaker_failure :: proofs in
  let after := proofs ++ [weaker_failure] in
  before ≡ₚ after /\ demo_evaluation before = demo_evaluation after /\
  Evidence.er_State (demo_evaluation after) = OutcomeStateVerifiedSuccess /\
  match Assign (demo_request before), Assign (demo_request after) with
  | Ok a, Ok b => cd_Class a = CausalSuccess /\ cd_Class b = AssociatedSuccess
  | _, _ => False
  end.
Proof.
  split; [apply Permutation_cons_append|]. vm_compute. repeat split.
Qed.
End demo.
