(* ===== verification/Ledger.v ===== *)
(** * The ingest ledger (internal/store/ingest.go, outcome.go, memory/ingest.go)

    The repository keeps, per tenant, a receipt for every idempotency key, the
    content hash of every trace, the events, the archived objects and the
    workflows to start; and for outcomes the receipts, the outcomes, the facts,
    the credits and the injections that credits claim.  [Commit] and
    [CommitOutcome] are its two operations; each checks everything before it
    writes anything.

    [ledger_integrity] shows that in every reachable state what is stored refers
    only to what is stored, [credit_once] that an injected plan is credited at
    most once, [receipt_final] and [outcome_receipt_final] that a key keeps its
    receipt and a trace its content. *)

From Stdlib Require Import ZArith String Ascii List Bool Lia.
From stdpp Require Import base gmap strings list sorting.
From S2P Require Import Prelude GoStrings GoTime Canonical Domain Evidence Trace Archive Selection Credit.

Open Scope Z_scope.
Open Scope go_scope.

Definition DispositionAccepted : string := "accepted".
Definition DispositionDuplicate : string := "duplicate".
Definition OutcomeDispositionAccepted : string := "accepted".
Definition OutcomeDispositionDuplicate : string := "duplicate".

(** ** Requests and receipts *)
Record CommitIngestRequest := mk_CommitIngestRequest {
  ci_TenantID : string;
  ci_IdempotencyKeyHash : string;
  ci_Batch : CanonicalBatch;
  ci_Archive : Object
}.

Record IngestReceipt := mk_IngestReceipt {
  ig_ID : string;
  ig_TenantID : string;
  ig_TraceID : string;
  ig_ContentHash : string;
  ig_WorkflowID : string;
  ig_Disposition : string;
  ig_CreatedAt : gotime
}.

Record CommitOutcomeRequest := mk_CommitOutcomeRequest {
  cq_TenantID : string;
  cq_IdempotencyKeyHash : string;
  cq_Outcome : CanonicalOutcome;
  cq_Evaluation : Evidence.Result;
  cq_Credit : option CreditRecord
}.

Record OutcomeReceipt := mk_OutcomeReceipt {
  ot_ID : string;
  ot_TenantID : string;
  ot_OutcomeID : string;
  ot_TraceID : string;
  ot_ContentHash : string;
  ot_WorkflowID : string;
  ot_State : string;
  ot_PromotionEligible : bool;
  ot_PolicyVersion : string;
  ot_Disposition : string;
  ot_CreatedAt : gotime;
  ot_OutcomeCreditID : string;
  ot_CreditClass : string
}.

Record AggregateCounts := mk_AggregateCounts { ac_Receipts : Z; ac_Traces : Z; ac_Events : Z; ac_Archives : Z; ac_OutboxJobs : Z }.
Record OutcomeCounts := mk_OutcomeCounts { oc_Receipts : Z; oc_Outcomes : Z; oc_VerificationResults : Z; oc_AuditEvents : Z; oc_OutboxJobs : Z }.

(** ** The repository *)
Record IngestRepository := mk_IngestRepository {
  failure : bool;
  receipts : gmap string IngestReceipt;
  traces : gmap string string;
  events : gset string;
  archives : gset string;
  outbox : gset string;
  outcomeReceipts : gmap string OutcomeReceipt;
  outcomes : gmap string CanonicalOutcome;
  verificationResults : gset string;
  auditEvents : gset string;
  outcomeOutbox : gset string;
  outcomeCredits : gmap string CreditRecord;
  creditClaims : gmap string string
}.

Definition newIngestRepository (failure : bool) : IngestRepository := mk_IngestRepository failure ∅ ∅ ∅ ∅ ∅ ∅ ∅ ∅ ∅ ∅ ∅ ∅.
Definition NewIngestRepository : IngestRepository := newIngestRepository false.

Definition tenantKey (tenantID value : string) : string := (tenantID ++ nul ++ value)%string.

Definition validDerivedID (value prefix : string) : bool := HasPrefix value prefix && sha256Pattern (TrimPrefix value prefix).

(** The loop over the events of a batch. *)
Fixpoint events_valid (seen : gset string) (index : Z) (events : list CanonicalEvent) : bool :=
  match events with
  | [] => true
  | event :: events =>
      (cn_Position event =? wrap_u32 index) && validDerivedID (cn_ID event) "ev_" && negb (bool_decide (cn_ID event ∈ seen)) &&
      events_valid ({[cn_ID event]} ∪ seen) (index + 1) events
  end.

Definition duplicate_receipt (r : IngestReceipt) : IngestReceipt :=
  mk_IngestReceipt (ig_ID r) (ig_TenantID r) (ig_TraceID r) (ig_ContentHash r) (ig_WorkflowID r) DispositionDuplicate (ig_CreatedAt r).

Definition duplicate_outcome (r : OutcomeReceipt) : OutcomeReceipt :=
  mk_OutcomeReceipt (ot_ID r) (ot_TenantID r) (ot_OutcomeID r) (ot_TraceID r) (ot_ContentHash r) (ot_WorkflowID r) (ot_State r) (ot_PromotionEligible r)
    (ot_PolicyVersion r) OutcomeDispositionDuplicate (ot_CreatedAt r) (ot_OutcomeCreditID r) (ot_CreditClass r).

Section ledger.
Context `{JCS} `{Digest}.

Definition hashIdentity (value : string) : string := sum256_hex value.
Definition ReceiptID (tenantID idempotencyKeyHash : string) : string := ("rcpt_" ++ hashIdentity (tenantID ++ nul ++ idempotencyKeyHash))%string.
Definition WorkflowID (tenantID traceID : string) : string := ("synthesize/" ++ str_take 16 (hashIdentity tenantID) ++ "/" ++ traceID ++ "/v1")%string.
Definition EventContentHash (eventID : string) : string := TrimPrefix eventID "ev_".
Definition TraceContentHash (traceID : string) : string := TrimPrefix traceID "tr_".

(** [ValidateCommitRequest] *)
Definition ValidateCommitRequest (request : CommitIngestRequest) : result unit :=
  let b := ci_Batch request in
  let n := Z.of_nat (length (cb_Events b)) in
  reject String.eqb (ci_TenantID request) "" || negb (String.eqb (cb_TenantID b) (ci_TenantID request)) || String.eqb (cb_SchemaVersion b) "" ||
         String.eqb (tr_ID (cb_Trace b)) "" || negb (sha256Pattern (ci_IdempotencyKeyHash request)) || negb (sha256Pattern (cb_Hash b)) ||
         String.eqb (cb_CanonicalJSON b) "" || (n =? 0) || (5000 <? n) with ErrInvalidCommit;
  reject negb (String.eqb (sum256_hex (cb_CanonicalJSON b)) (cb_Hash b)) || negb (String.eqb (ob_Hash (ci_Archive request)) (cb_Hash b)) ||
         negb (ob_Size (ci_Archive request) =? str_len (cb_CanonicalJSON b)) with ErrInvalidCommit;
  match KeyFor (ci_TenantID request) (cb_SchemaVersion b) (cb_Hash b) with
  | Err _ => Err ErrInvalidCommit
  | Ok expectedKey =>
      reject negb (String.eqb expectedKey (ob_Key (ci_Archive request))) with ErrInvalidCommit;
      reject negb (validDerivedID (tr_ID (cb_Trace b)) "tr_") with ErrInvalidCommit;
      reject negb (events_valid ∅ 0 (cb_Events b)) with ErrInvalidCommit;
      Ok tt
  end.

(** The receipt of a new ingest at [now]. *)
Definition new_receipt (request : CommitIngestRequest) (now : gotime) : IngestReceipt :=
  let t := ci_TenantID request in
  let trace := tr_ID (cb_Trace (ci_Batch request)) in
  mk_IngestReceipt (ReceiptID t (ci_IdempotencyKeyHash request)) t trace (cb_Hash (ci_Batch request)) (WorkflowID t trace) DispositionAccepted (UTC now).

(** The writes of [Commit]. *)
Definition store_ingest (r : IngestRepository) (request : CommitIngestRequest) (receipt : IngestReceipt) : IngestRepository :=
  let t := ci_TenantID request in
  let b := ci_Batch request in
  mk_IngestRepository (failure r) (<[tenantKey t (ci_IdempotencyKeyHash request) := receipt]> (receipts r))
    (<[tenantKey t (tr_ID (cb_Trace b)) := cb_Hash b]> (traces r)) (list_to_set (List.map (fun e => tenantKey t (cn_ID e)) (cb_Events b)) ∪ events r)
    ({[tenantKey t (ob_Key (ci_Archive request))]} ∪ archives r) ({[tenantKey t (ig_WorkflowID receipt)]} ∪ outbox r)
    (outcomeReceipts r) (outcomes r) (verificationResults r) (auditEvents r) (outcomeOutbox r) (outcomeCredits r) (creditClaims r).

(** [Commit]; the context is read before and after the lock is taken. *)
Definition Commit (r : IngestRepository) (ctx ctx' : option goerr) (now : gotime) (request : CommitIngestRequest) : result IngestReceipt * IngestRepository :=
  match ctx with
  | Some e => (Err e, r)
  | None =>
      match ValidateCommitRequest request with
      | Err e => (Err e, r)
      | Ok _ =>
          match ctx' with
          | Some e => (Err e, r)
          | None =>
              match receipts r !! tenantKey (ci_TenantID request) (ci_IdempotencyKeyHash request) with
              | Some existing =>
                  if negb (String.eqb (ig_ContentHash existing) (cb_Hash (ci_Batch request))) then (Err ErrKeyReused, r)
                  else (Ok (duplicate_receipt existing), r)
              | None =>
                  if match traces r !! tenantKey (ci_TenantID request) (tr_ID (cb_Trace (ci_Batch request))) with
                     | Some contentHash => negb (String.eqb contentHash (cb_Hash (ci_Batch request)))
                     | None => false
                     end then (Err ErrTraceConflict, r)
                  else if failure r then (Err ErrInjectedFailure, r)
                  else let receipt := new_receipt request now in (Ok receipt, store_ingest r request receipt)
              end
          end
      end
  end.

Definition Counts (r : IngestRepository) (ctx : option goerr) : result AggregateCounts :=
  match ctx with
  | Some e => Err e
  | None =>
      Ok (mk_AggregateCounts (Z.of_nat (size (receipts r))) (Z.of_nat (size (traces r))) (Z.of_nat (size (events r))) (Z.of_nat (size (archives r)))
            (Z.of_nat (size (outbox r))))
  end.

(** ** Outcomes *)
Definition OutcomeReceiptID (tenantID idempotencyKeyHash : string) : string := ("orcpt_" ++ hashIdentity (tenantID ++ nul ++ idempotencyKeyHash))%string.
Definition OutcomeWorkflowID (tenantID traceID outcomeID : string) : string :=
  ("synthesize/" ++ str_take 16 (hashIdentity tenantID) ++ "/" ++ traceID ++ "/" ++ outcomeID ++ "/v1")%string.
Definition OutcomeAuditEventID (tenantID outcomeID : string) : string :=
  ("audit_" ++ hashIdentity (join nul [tenantID; outcomeID; "evidence_conflict"; "v1"]))%string.

Fixpoint equalStrings (first second : list string) : bool :=
  match first, second with
  | [], [] => true
  | x :: first, y :: second => String.eqb x y && equalStrings first second
  | _, _ => false
  end.

Definition known_state (state : string) : bool :=
  String.eqb state OutcomeStateVerifiedSuccess || String.eqb state OutcomeStateProvisionalSuccess || String.eqb state OutcomeStateInconclusive ||
  String.eqb state OutcomeStateVerifiedFailure.

Definition credit_mismatch (request : CommitOutcomeRequest) (c : CreditRecord) : bool :=
  let o := cq_Outcome request in
  failed (Credit.Validate c) || negb (String.eqb (cd_TenantID c) (cq_TenantID request)) || negb (String.eqb (cd_OutcomeID c) (co_ID o)) ||
  negb (String.eqb (cd_InjectionID c) (co_InjectionID o)) || negb (String.eqb (cd_TaskExecutionID c) (co_TaskExecutionID o)).

Definition ValidateOutcomeCommit (request : CommitOutcomeRequest) : result unit :=
  let o := cq_Outcome request in
  let e := cq_Evaluation request in
  reject String.eqb (cq_TenantID request) "" || negb (String.eqb (co_TenantID o) (cq_TenantID request)) ||
         negb (sha256Pattern (cq_IdempotencyKeyHash request)) || String.eqb (er_PolicyVersion e) "" || String.eqb (er_State e) "" ||
         String.eqb (co_TraceID o) "" || String.eqb (co_Hash o) "" with ErrInvalidOutcomeCommit;
  reject negb (VerifyCanonical o) with ErrInvalidOutcomeCommit;
  reject negb (Bool.eqb (er_PromotionEligible e) (String.eqb (er_State e) OutcomeStateVerifiedSuccess)) with ErrInvalidOutcomeCommit;
  reject negb (known_state (er_State e)) with ErrInvalidOutcomeCommit;
  reject String.eqb (co_SupersedesOutcomeID o) (co_ID o) with ErrInvalidOutcomeCommit;
  reject negb (Bool.eqb (String.eqb (co_InjectionID o) "") (String.eqb (co_TaskExecutionID o) "")) ||
         negb (Bool.eqb (match cq_Credit request with None => true | Some _ => false end) (String.eqb (co_InjectionID o) "")) with ErrInvalidOutcomeCommit;
  reject match cq_Credit request with Some c => credit_mismatch request c | None => false end with ErrInvalidOutcomeCommit;
  reject negb (equalStrings (sort_strings (er_ConflictPredicates e)) (er_ConflictPredicates e)) with ErrInvalidOutcomeCommit;
  Ok tt.

(** The receipt of a new outcome at [now]. *)
Definition new_outcome_receipt (request : CommitOutcomeRequest) (now : gotime) : OutcomeReceipt :=
  let t := cq_TenantID request in
  let o := cq_Outcome request in
  let e := cq_Evaluation request in
  mk_OutcomeReceipt (OutcomeReceiptID t (cq_IdempotencyKeyHash request)) t (co_ID o) (co_TraceID o) (co_Hash o) (OutcomeWorkflowID t (co_TraceID o) (co_ID o))
    (er_State e) (er_PromotionEligible e) (er_PolicyVersion e) OutcomeDispositionAccepted (UTC now)
    (match cq_Credit request with Some c => cd_ID c | None => "" end) (match cq_Credit request with Some c => cd_Class c | None => "" end).

(** The writes of [CommitOutcome]. *)
Definition store_outcome (r : IngestRepository) (request : CommitOutcomeRequest) (receipt : OutcomeReceipt) : IngestRepository :=
  let t := cq_TenantID request in
  let o := cq_Outcome request in
  mk_IngestRepository (failure r) (receipts r) (traces r) (events r) (archives r) (outbox r)
    (<[tenantKey t (cq_IdempotencyKeyHash request) := receipt]> (outcomeReceipts r)) (<[tenantKey t (co_ID o) := o]> (outcomes r))
    (list_to_set (List.map (fun f => tenantKey t (oe_ID f)) (co_Evidence o)) ∪ verificationResults r)
    (if 0 <? Z.of_nat (length (er_ConflictPredicates (cq_Evaluation request))) then {[tenantKey t (OutcomeAuditEventID t (co_ID o))]} ∪ auditEvents r else auditEvents r)
    ({[tenantKey t (ot_WorkflowID receipt)]} ∪ outcomeOutbox r)
    (match cq_Credit request with Some c => <[tenantKey t (cd_ID c) := c]> (outcomeCredits r) | None => outcomeCredits r end)
    (match cq_Credit request with Some c => <[tenantKey t (cd_InjectionID c) := co_ID o]> (creditClaims r) | None => creditClaims r end).

(** The checks of [CommitOutcome] against what is stored, in order. *)
Definition outcome_refused (r : IngestRepository) (request : CommitOutcomeRequest) : option goerr :=
  let t := cq_TenantID request in
  let o := cq_Outcome request in
  if match traces r !! tenantKey t (co_TraceID o) with Some _ => false | None => true end then Some ErrOutcomeTraceNotFound
  else if negb (String.eqb (co_SelectionID o) "") then Some ErrOutcomeSelectionNotFound
  else if negb (String.eqb (co_SupersedesOutcomeID o) "") &&
          match outcomes r !! tenantKey t (co_SupersedesOutcomeID o) with
          | Some previous => negb (String.eqb (co_TraceID previous) (co_TraceID o))
          | None => true
          end then Some ErrOutcomeSupersessionInvalid
  else if match cq_Credit request with
          | Some c => match creditClaims r !! tenantKey t (cd_InjectionID c) with Some existing => negb (String.eqb existing (co_ID o)) | None => false end
          | None => false
          end then Some ErrOutcomeCreditClaimed
  else if match outcomes r !! tenantKey t (co_ID o) with Some existing => negb (String.eqb (co_Hash existing) (co_Hash o)) | None => false end
       then Some ErrInvalidOutcomeCommit
  else None.

Definition CommitOutcome (r : IngestRepository) (ctx ctx' : option goerr) (now : gotime) (request : CommitOutcomeRequest)
    : result OutcomeReceipt * IngestRepository :=
  match ctx with
  | Some e => (Err e, r)
  | None =>
      match ValidateOutcomeCommit request with
      | Err e => (Err e, r)
      | Ok _ =>
          match ctx' with
          | Some e => (Err e, r)
          | None =>
              match outcomeReceipts r !! tenantKey (cq_TenantID request) (cq_IdempotencyKeyHash request) with
              | Some existing =>
                  if negb (String.eqb (ot_ContentHash existing) (co_Hash (cq_Outcome request))) then (Err ErrKeyReused, r)
                  else (Ok (duplicate_outcome existing), r)
              | None =>
                  match outcome_refused r request with
                  | Some e => (Err e, r)
                  | None => let receipt := new_outcome_receipt request now in (Ok receipt, store_outcome r request receipt)
                  end
              end
          end
      end
  end.

Definition CountOutcomes (r : IngestRepository) (ctx : option goerr) : result OutcomeCounts :=
  match ctx with
  | Some e => Err e
  | None =>
      Ok (mk_OutcomeCounts (Z.of_nat (size (outcomeReceipts r))) (Z.of_nat (size (outcomes r))) (Z.of_nat (size (verificationResults r)))
            (Z.of_nat (size (auditEvents r))) (Z.of_nat (size (outcomeOutbox r))))
  end.
End ledger.

(** ** Histories *)
Inductive LedgerCall :=
| CallCommit (ctx ctx' : option goerr) (now : gotime) (request : CommitIngestRequest)
| CallOutcome (ctx ctx' : option goerr) (now : gotime) (request : CommitOutcomeRequest).

Section sound.
Context `{JCS} `{Digest}.

Definition apply_ledger (r : IngestRepository) (c : LedgerCall) : IngestRepository :=
  match c with
  | CallCommit ctx ctx' now request => snd (Commit r ctx ctx' now request)
  | CallOutcome ctx ctx' now request => snd (CommitOutcome r ctx ctx' now request)
  end.

Definition run_ledger : IngestRepository -> list LedgerCall -> IngestRepository := foldl apply_ledger.

(** A call leaves the repository as it was, or stores what it was given. *)
Lemma ledger_Commit_cases r ctx ctx' now request res r' :
  Commit r ctx ctx' now request = (res, r') ->
  r' = r \/
  (ctx = None /\ ctx' = None /\ ValidateCommitRequest request = Ok tt /\ receipts r !! tenantKey (ci_TenantID request) (ci_IdempotencyKeyHash request) = None /\
   (forall h, traces r !! tenantKey (ci_TenantID request) (tr_ID (cb_Trace (ci_Batch request))) = Some h -> h = cb_Hash (ci_Batch request)) /\
   res = Ok (new_receipt request now) /\ r' = store_ingest r request (new_receipt request now)).
Proof.
  unfold Commit. destruct ctx; [intros [= _ <-]; by left|]. destruct (ValidateCommitRequest request) as [[]|]; [|intros [= _ <-]; by left].
  destruct ctx'; [intros [= _ <-]; by left|]. destruct (receipts r !! _); [destruct (negb _); intros [= _ <-]; by left|].
  destruct (traces r !! _) as [h|]; [destruct (negb _) eqn:Eh; [intros [= _ <-]; by left|]|]; (destruct (failure r); [intros [= _ <-]; by left|]); intros [= <- <-]; right; split_and!; try done.
  intros h' [= <-]. by apply negb_false_iff, String.eqb_eq in Eh.
Qed.

Lemma CommitOutcome_cases r ctx ctx' now request res r' :
  CommitOutcome r ctx ctx' now request = (res, r') ->
  r' = r \/
  (ctx = None /\ ctx' = None /\ ValidateOutcomeCommit request = Ok tt /\ outcomeReceipts r !! tenantKey (cq_TenantID request) (cq_IdempotencyKeyHash request) = None /\
   outcome_refused r request = None /\ res = Ok (new_outcome_receipt request now) /\ r' = store_outcome r request (new_outcome_receipt request now)).
Proof.
  unfold CommitOutcome. destruct ctx; [intros [= _ <-]; by left|]. destruct (ValidateOutcomeCommit request) as [[]|]; [|intros [= _ <-]; by left].
  destruct ctx'; [intros [= _ <-]; by left|]. destruct (outcomeReceipts r !! _); [destruct (negb _); intros [= _ <-]; by left|].
  destruct (outcome_refused r request); [intros [= _ <-]; by left|]. intros [= <- <-]. by right.
Qed.

(** ** What a valid request promises *)
Record outcome_accepted (r : IngestRepository) (request : CommitOutcomeRequest) : Prop := mk_outcome_accepted {
  oa_tenant : co_TenantID (cq_Outcome request) = cq_TenantID request;
  oa_verified : VerifyCanonical (cq_Outcome request) = true;
  oa_trace : is_Some (traces r !! tenantKey (cq_TenantID request) (co_TraceID (cq_Outcome request)));
  oa_supersedes : co_SupersedesOutcomeID (cq_Outcome request) <> ""%string ->
    is_Some (outcomes r !! tenantKey (cq_TenantID request) (co_SupersedesOutcomeID (cq_Outcome request)));
  oa_credit : forall c, cq_Credit request = Some c -> Credit.Validate c = Ok tt /\ cd_TenantID c = cq_TenantID request /\ cd_OutcomeID c = co_ID (cq_Outcome request) /\
    forall id, creditClaims r !! tenantKey (cq_TenantID request) (cd_InjectionID c) = Some id -> id = co_ID (cq_Outcome request);
  oa_stored : forall o, outcomes r !! tenantKey (cq_TenantID request) (co_ID (cq_Outcome request)) = Some o -> co_Hash o = co_Hash (cq_Outcome request)
}.

Lemma outcome_accepts r request : ValidateOutcomeCommit request = Ok tt -> outcome_refused r request = None -> outcome_accepted r request.
Proof.
  unfold ValidateOutcomeCommit. intros Hv. inv_Ok Hv. clear Hv. autorewrite with goboolsimpl in E. destruct_and!. apply negb_false_iff in E0. unfold outcome_refused. intros Hr.
  destruct (traces r !! _) as [h|] eqn:Et; [|done]. destruct (negb (String.eqb (co_SelectionID _) "")); [done|].
  destruct (negb (String.eqb (co_SupersedesOutcomeID _) "") && _) eqn:Es; [done|]. match type of Hr with (if ?b then _ else _) = _ => destruct b eqn:Ec; [done|] end.
  match type of Hr with (if ?b then _ else _) = _ => destruct b eqn:Eo; [done|] end. split; try done.
  - intros Hs. apply String.eqb_neq in Hs. rewrite Hs in Es. cbn [negb andb] in Es. by destruct (outcomes r !! tenantKey _ (co_SupersedesOutcomeID _)).
  - intros c Hc. rewrite Hc in *. unfold credit_mismatch, failed in E5. destruct (Credit.Validate c) as [[]|]; [|done]. cbn [is_ok negb orb] in E5.
    autorewrite with goboolsimpl in E5. destruct_and!. split_and!; try done. intros id Hid. rewrite Hid in Ec. by apply negb_false_iff, String.eqb_eq in Ec.
  - intros o Ho. rewrite Ho in Eo. by apply negb_false_iff, String.eqb_eq in Eo.
Qed.

(** ** Integrity *)
Record integrity (r : IngestRepository) : Prop := mk_integrity {
  in_receipts : forall k rc, receipts r !! k = Some rc ->
    traces r !! tenantKey (ig_TenantID rc) (ig_TraceID rc) = Some (ig_ContentHash rc) /\
    ig_WorkflowID rc = WorkflowID (ig_TenantID rc) (ig_TraceID rc) /\ tenantKey (ig_TenantID rc) (ig_WorkflowID rc) ∈ outbox r;
  in_outcome_receipts : forall k rc, outcomeReceipts r !! k = Some rc ->
    (exists o, outcomes r !! tenantKey (ot_TenantID rc) (ot_OutcomeID rc) = Some o /\ co_Hash o = ot_ContentHash rc) /\
    tenantKey (ot_TenantID rc) (ot_WorkflowID rc) ∈ outcomeOutbox r /\
    (ot_OutcomeCreditID rc <> ""%string -> is_Some (outcomeCredits r !! tenantKey (ot_TenantID rc) (ot_OutcomeCreditID rc)));
  in_outcomes : forall k o, outcomes r !! k = Some o ->
    k = tenantKey (co_TenantID o) (co_ID o) /\ VerifyCanonical o = true /\ is_Some (traces r !! tenantKey (co_TenantID o) (co_TraceID o)) /\
    (co_SupersedesOutcomeID o <> ""%string -> is_Some (outcomes r !! tenantKey (co_TenantID o) (co_SupersedesOutcomeID o))) /\
    Forall (fun f => tenantKey (co_TenantID o) (oe_ID f) ∈ verificationResults r) (co_Evidence o);
  in_credits : forall k c, outcomeCredits r !! k = Some c ->
    k = tenantKey (cd_TenantID c) (cd_ID c) /\ Credit.Validate c = Ok tt /\
    creditClaims r !! tenantKey (cd_TenantID c) (cd_InjectionID c) = Some (cd_OutcomeID c) /\
    is_Some (outcomes r !! tenantKey (cd_TenantID c) (cd_OutcomeID c))
}.

Lemma empty_integrity failing : integrity (newIngestRepository failing).
Proof. split; intros k x Hx; cbn in Hx; by rewrite lookup_empty in Hx. Qed.

Lemma is_Some_insert {A} (m : gmap string A) k k' x : is_Some (m !! k) -> is_Some (<[k' := x]> m !! k).
Proof. intros Hk. apply lookup_insert_is_Some. destruct (decide (k' = k)); [by left|by right]. Qed.

#[local] Hint Resolve is_Some_insert : core.

Lemma store_ingest_integrity r request now :
  integrity r -> (forall h, traces r !! tenantKey (ci_TenantID request) (tr_ID (cb_Trace (ci_Batch request))) = Some h -> h = cb_Hash (ci_Batch request)) ->
  integrity (store_ingest r request (new_receipt request now)).
Proof.
  intros [Hr Hor Ho Hc] Ht. split; unfold store_ingest; cbn [receipts traces outbox outcomeReceipts outcomes verificationResults outcomeOutbox outcomeCredits creditClaims].
  - intros k rc [[_ <-]|[_ Hk]]%lookup_insert_Some.
    + cbn [new_receipt ig_TenantID ig_TraceID ig_ContentHash ig_WorkflowID]. rewrite lookup_insert_eq. split_and!; [done|done|set_solver].
    + destruct (Hr _ _ Hk) as (Htr & Hw & Hq). split_and!; [|done|set_solver]. destruct (decide (tenantKey (ci_TenantID request) (tr_ID (cb_Trace (ci_Batch request))) = tenantKey (ig_TenantID rc) (ig_TraceID rc))) as [Heq|Hne].
      * rewrite Heq, lookup_insert_eq. f_equal. symmetry. apply Ht. by rewrite Heq.
      * by rewrite lookup_insert_ne.
  - done.
  - intros k o Hk. destruct (Ho _ _ Hk) as (? & ? & ? & ? & ?). split_and!; auto.
  - done.
Qed.

Lemma store_outcome_integrity r request now : integrity r -> outcome_accepted r request -> integrity (store_outcome r request (new_outcome_receipt request now)).
Proof.
  intros [Hr Hor Ho Hc] [Htn Hver Htr Hsup Hcr Hst]. assert (Hcredits : forall k, is_Some (outcomeCredits r !! k) ->
    is_Some (match cq_Credit request with Some c => <[tenantKey (cq_TenantID request) (cd_ID c) := c]> (outcomeCredits r) | None => outcomeCredits r end !! k)) by (destruct (cq_Credit request); auto).
  split; unfold store_outcome; cbn [receipts traces outbox outcomeReceipts outcomes verificationResults outcomeOutbox outcomeCredits creditClaims]; [done| | |].
  - intros k rc [[_ <-]|[_ Hk]]%lookup_insert_Some.
    + cbn [new_outcome_receipt ot_TenantID ot_OutcomeID ot_ContentHash ot_WorkflowID ot_OutcomeCreditID]. rewrite lookup_insert_eq. split_and!; [by eexists|set_solver|].
      intros Hne. destruct (cq_Credit request) as [c|]; [|done]. rewrite lookup_insert_eq. by eexists.
    + destruct (Hor _ _ Hk) as ((o & Hol & Hh) & Hq & Hci). split_and!; [|set_solver|auto].
      destruct (decide (tenantKey (cq_TenantID request) (co_ID (cq_Outcome request)) = tenantKey (ot_TenantID rc) (ot_OutcomeID rc))) as [Heq|Hne].
      * exists (cq_Outcome request). rewrite Heq, lookup_insert_eq. split; [done|]. rewrite <- Hh. symmetry. apply Hst. by rewrite Heq.
      * exists o. by rewrite lookup_insert_ne.
  - intros k o [[<- <-]|[_ Hk]]%lookup_insert_Some.
    + rewrite Htn. split_and!; auto. apply Forall_forall. intros f Hf. apply elem_of_union_l, elem_of_list_to_set, list_elem_of_In, in_map_iff. exists f. split; [done|by apply list_elem_of_In].
    + destruct (Ho _ _ Hk) as (? & ? & ? & ? & Hf). split_and!; auto. eapply Forall_impl; [exact Hf|]. intros f. set_solver.
  - destruct (cq_Credit request) as [c|] eqn:Ec; [|by intros k c Hk; destruct (Hc _ _ Hk) as (? & ? & ? & ?); split_and!; auto]. destruct (Hcr c eq_refl) as (Hcv & Hct & Hco & Hclaim).
    intros k c0 [[<- <-]|[_ Hk]]%lookup_insert_Some.
    + rewrite Hct, Hco, !lookup_insert_eq. by split_and!.
    + destruct (Hc _ _ Hk) as (? & ? & Hcl & ?). split_and!; auto.
      destruct (decide (tenantKey (cq_TenantID request) (cd_InjectionID c) = tenantKey (cd_TenantID c0) (cd_InjectionID c0))) as [Heq|Hne]; [|by rewrite lookup_insert_ne].
      rewrite Heq, lookup_insert_eq. f_equal. symmetry. apply Hclaim. by rewrite Heq.
Qed.

Lemma apply_ledger_integrity r c : integrity r -> integrity (apply_ledger r c).
Proof.
  intros Hi. destruct c as [ctx ctx' now request|ctx ctx' now request]; cbn [apply_ledger].
  - destruct (Commit r ctx ctx' now request) as [res r'] eqn:E. destruct (ledger_Commit_cases _ _ _ _ _ _ _ E) as [->|(_ & _ & _ & _ & Ht & _ & ->)]; [done|]. by apply store_ingest_integrity.
  - destruct (CommitOutcome r ctx ctx' now request) as [res r'] eqn:E. destruct (CommitOutcome_cases _ _ _ _ _ _ _ E) as [->|(_ & _ & Hv & _ & Hr & _ & ->)]; [done|].
    by apply store_outcome_integrity, outcome_accepts.
Qed.

Lemma run_ledger_integrity r calls : integrity r -> integrity (run_ledger r calls).
Proof. revert r. induction calls as [|c calls IH]; intros r Hi; [done|]. by apply IH, apply_ledger_integrity. Qed.

Lemma ledger_integrity_inv failing calls : integrity (run_ledger (newIngestRepository failing) calls).
Proof. apply run_ledger_integrity, empty_integrity. Qed.

(** C33: In every reachable state each receipt has its trace, with the content it
    names, and its workflow queued; each outcome is verified and has its trace,
    the outcome it supersedes and its facts; each credit is valid, holds the
    claim on its injection and has its outcome. *)
Theorem ledger_integrity (failing : bool) (calls : list LedgerCall) : integrity (run_ledger (newIngestRepository failing) calls).
Proof. apply ledger_integrity_inv. Qed.

(** C34: An injected plan is credited at most once: in every reachable state two
    credits for the same injection of a tenant are one and the same record. *)
Theorem credit_once (failing : bool) (calls : list LedgerCall) (k k' : string) (c c' : CreditRecord) :
  outcomeCredits (run_ledger (newIngestRepository failing) calls) !! k = Some c -> outcomeCredits (run_ledger (newIngestRepository failing) calls) !! k' = Some c' ->
  cd_TenantID c = cd_TenantID c' -> cd_InjectionID c = cd_InjectionID c' -> c = c'.
Proof.
  pose proof (in_credits _ (ledger_integrity_inv failing calls)) as Hc. intros Hk Hk' Ht Hi.
  destruct (Hc _ _ Hk) as (-> & Hv & Hcl & _). destruct (Hc _ _ Hk') as (-> & Hv' & Hcl' & _). rewrite Ht, Hi in Hcl. rewrite Hcl in Hcl'. injection Hcl' as Ho.
  assert (Hid : cd_ID c = cd_ID c'); [|by rewrite Ht, Hid, Hk' in Hk; injection Hk]. by rewrite (Validate_id c Hv), (Validate_id c' Hv'), Ht, Ho.
Qed.

(** ** Receipts are final *)
Lemma apply_ledger_keeps r c :
  (forall k rc, receipts r !! k = Some rc -> receipts (apply_ledger r c) !! k = Some rc) /\
  (forall k h, traces r !! k = Some h -> traces (apply_ledger r c) !! k = Some h) /\
  (forall k rc, outcomeReceipts r !! k = Some rc -> outcomeReceipts (apply_ledger r c) !! k = Some rc).
Proof.
  destruct c as [ctx ctx' now request|ctx ctx' now request]; cbn [apply_ledger].
  - destruct (Commit r ctx ctx' now request) as [res r'] eqn:E. destruct (ledger_Commit_cases _ _ _ _ _ _ _ E) as [->|(_ & _ & _ & Hn & Ht & _ & ->)]; [done|]. cbn [snd store_ingest receipts traces outcomeReceipts].
    split_and!; [| |done].
    + intros k rc Hk. rewrite lookup_insert_ne; [done|congruence].
    + intros k h Hk. apply lookup_insert_Some. destruct (decide (tenantKey (ci_TenantID request) (tr_ID (cb_Trace (ci_Batch request))) = k)) as [<-|]; [left|by right]. split; [done|]. symmetry. by apply Ht.
  - destruct (CommitOutcome r ctx ctx' now request) as [res r'] eqn:E. destruct (CommitOutcome_cases _ _ _ _ _ _ _ E) as [->|(_ & _ & _ & Hn & _ & _ & ->)]; [done|]. cbn [snd store_outcome receipts traces outcomeReceipts].
    split_and!; [done|done|]. intros k rc Hk. rewrite lookup_insert_ne; [done|congruence].
Qed.

Lemma run_ledger_keeps r calls :
  (forall k rc, receipts r !! k = Some rc -> receipts (run_ledger r calls) !! k = Some rc) /\
  (forall k h, traces r !! k = Some h -> traces (run_ledger r calls) !! k = Some h) /\
  (forall k rc, outcomeReceipts r !! k = Some rc -> outcomeReceipts (run_ledger r calls) !! k = Some rc).
Proof.
  revert r. induction calls as [|c calls IH]; intros r; [done|]. cbn [run_ledger foldl]. destruct (apply_ledger_keeps r c) as (H1 & H2 & H3). destruct (IH (apply_ledger r c)) as (I1 & I2 & I3).
  split_and!; eauto.
Qed.

(** What a successful call leaves under its key. *)
Lemma Commit_receipt r ctx ctx' now request rc r' :
  Commit r ctx ctx' now request = (Ok rc, r') -> exists stored, receipts r' !! tenantKey (ci_TenantID request) (ci_IdempotencyKeyHash request) = Some stored /\
    duplicate_receipt stored = duplicate_receipt rc /\ ig_ContentHash stored = cb_Hash (ci_Batch request).
Proof.
  unfold Commit. destruct ctx; [done|]. destruct (ValidateCommitRequest request); [|done]. destruct ctx'; [done|]. destruct (receipts r !! _) as [existing|] eqn:Er.
  - destruct (negb _) eqn:Eh; [done|]. intros [= <- <-]. exists existing. split_and!; [done|done|]. by apply negb_false_iff, String.eqb_eq in Eh.
  - destruct (match traces r !! _ with Some _ => _ | None => _ end); [done|]. destruct (failure r); [done|]. intros [= <- <-]. exists (new_receipt request now). cbn [store_ingest receipts].
    by rewrite lookup_insert_eq.
Qed.

Lemma Commit_trace r ctx ctx' now request rc r' :
  integrity r -> Commit r ctx ctx' now request = (Ok rc, r') ->
  traces r' !! tenantKey (ig_TenantID rc) (ig_TraceID rc) = Some (cb_Hash (ci_Batch request)) /\ integrity r'.
Proof.
  intros Hi Hc. assert (Hi' : integrity r') by (pose proof (apply_ledger_integrity r (CallCommit ctx ctx' now request) Hi) as Ha; cbn [apply_ledger] in Ha; by rewrite Hc in Ha). split; [|done].
  destruct (Commit_receipt _ _ _ _ _ _ _ Hc) as (stored & Hs & Hd & Hh). destruct (in_receipts _ Hi' _ _ Hs) as (Ht & _). rewrite <- Hh.
  unfold duplicate_receipt in Hd. injection Hd as _ <- <- _ _ _. done.
Qed.

(** The same key gets the receipt again, or is refused. *)
Lemma Commit_again r ctx ctx' now request rc r1 later now' request' :
  Commit r ctx ctx' now request = (Ok rc, r1) -> ValidateCommitRequest request' = Ok tt ->
  tenantKey (ci_TenantID request') (ci_IdempotencyKeyHash request') = tenantKey (ci_TenantID request) (ci_IdempotencyKeyHash request) ->
  Commit (run_ledger r1 later) None None now' request' =
    (if String.eqb (cb_Hash (ci_Batch request)) (cb_Hash (ci_Batch request')) then Ok (duplicate_receipt rc) else Err ErrKeyReused, run_ledger r1 later).
Proof.
  intros Hc Hv Hkey. destruct (run_ledger_keeps r1 later) as (Hkr & _ & _). destruct (Commit_receipt _ _ _ _ _ _ _ Hc) as (stored & Hs & Hd & Hh).
  unfold Commit. rewrite Hv, Hkey, (Hkr _ _ Hs), Hh, Hd. by destruct (String.eqb _ _).
Qed.

(** A receipt is final.  After any calls that follow a successful commit, the
    same key with the same content gets the receipt again, as a duplicate, the
    same key with other content is refused, and a new key cannot give the trace
    other content; none of these changes the ledger. *)
Theorem receipt_final (failing : bool) (before later : list LedgerCall) (ctx ctx' : option goerr) (now now' : gotime) (request request' : CommitIngestRequest)
    (rc : IngestReceipt) (r : IngestRepository) :
  Commit (run_ledger (newIngestRepository failing) before) ctx ctx' now request = (Ok rc, r) -> ValidateCommitRequest request' = Ok tt ->
  let r' := run_ledger r later in
  (tenantKey (ci_TenantID request') (ci_IdempotencyKeyHash request') = tenantKey (ci_TenantID request) (ci_IdempotencyKeyHash request) ->
   Commit r' None None now' request' =
     (if String.eqb (cb_Hash (ci_Batch request)) (cb_Hash (ci_Batch request')) then Ok (duplicate_receipt rc) else Err ErrKeyReused, r')) /\
  (receipts r' !! tenantKey (ci_TenantID request') (ci_IdempotencyKeyHash request') = None ->
   tenantKey (ci_TenantID request') (tr_ID (cb_Trace (ci_Batch request'))) = tenantKey (ig_TenantID rc) (ig_TraceID rc) ->
   cb_Hash (ci_Batch request') <> cb_Hash (ci_Batch request) -> Commit r' None None now' request' = (Err ErrTraceConflict, r')).
Proof.
  intros Hc Hv r'. split; [by intros Hkey; eapply Commit_again|]. destruct (run_ledger_keeps r later) as (_ & Hkt & _). fold r' in Hkt. clearbody r'.
  destruct (Commit_trace _ _ _ _ _ _ _ (ledger_integrity_inv failing before) Hc) as [Ht _]. intros Hn Hkey Hne. unfold Commit. rewrite Hv, Hn, Hkey, (Hkt _ _ Ht).
  destruct (String.eqb_spec (cb_Hash (ci_Batch request)) (cb_Hash (ci_Batch request'))); [congruence|done].
Qed.

Lemma CommitOutcome_receipt r ctx ctx' now request rc r' :
  CommitOutcome r ctx ctx' now request = (Ok rc, r') -> exists stored, outcomeReceipts r' !! tenantKey (cq_TenantID request) (cq_IdempotencyKeyHash request) = Some stored /\
    duplicate_outcome stored = duplicate_outcome rc /\ ot_ContentHash stored = co_Hash (cq_Outcome request).
Proof.
  unfold CommitOutcome. destruct ctx; [done|]. destruct (ValidateOutcomeCommit request); [|done]. destruct ctx'; [done|]. destruct (outcomeReceipts r !! _) as [existing|] eqn:Er.
  - destruct (negb _) eqn:Eh; [done|]. intros [= <- <-]. exists existing. split_and!; [done|done|]. by apply negb_false_iff, String.eqb_eq in Eh.
  - destruct (outcome_refused r request); [done|]. intros [= <- <-]. exists (new_outcome_receipt request now). cbn [store_outcome outcomeReceipts]. by rewrite lookup_insert_eq.
Qed.

(** The receipt of an outcome is final: after any calls that follow a successful
    commit, the same key with the same content gets the receipt again, as a
    duplicate, and the same key with other content is refused. *)
Theorem outcome_receipt_final (r0 : IngestRepository) (later : list LedgerCall) (ctx ctx' : option goerr) (now now' : gotime) (request request' : CommitOutcomeRequest)
    (rc : OutcomeReceipt) (r : IngestRepository) :
  CommitOutcome r0 ctx ctx' now request = (Ok rc, r) -> ValidateOutcomeCommit request' = Ok tt ->
  tenantKey (cq_TenantID request') (cq_IdempotencyKeyHash request') = tenantKey (cq_TenantID request) (cq_IdempotencyKeyHash request) ->
  CommitOutcome (run_ledger r later) None None now' request' =
    (if String.eqb (co_Hash (cq_Outcome request)) (co_Hash (cq_Outcome request')) then Ok (duplicate_outcome rc) else Err ErrKeyReused, run_ledger r later).
Proof.
  intros Hc Hv Hkey. destruct (run_ledger_keeps r later) as (_ & _ & Hk). destruct (CommitOutcome_receipt _ _ _ _ _ _ _ Hc) as (stored & Hs & Hd & Hh).
  unfold CommitOutcome. rewrite Hv, Hkey, (Hk _ _ Hs), Hh, Hd. by destruct (String.eqb _ _).
Qed.
End sound.

(** ** Witnesses *)
Section demo.
#[local] Existing Instance copy_nfc.
#[local] Existing Instance copy_jcs.
#[local] Existing Instance checksum_digest.
#[local] Existing Instance counting_protobuf.

Definition at_moment : gotime := mk_time (63900000000 * Second) 0.

Definition sample_ingest (key : string) : CommitIngestRequest :=
  mk_CommitIngestRequest "tenant_a" (checksum_hex key) sample_batch
    (mk_Object ("canonical/" ++ str_take 16 (checksum_hex "tenant_a") ++ "/canonical.v1/" ++ cb_Hash sample_batch ++ ".json") (cb_Hash sample_batch)
       (str_len (cb_CanonicalJSON sample_batch)) false).

Definition injected_request : RecordOutcomeRequest :=
  mk_RecordOutcomeRequest (tr_ID (cb_Trace sample_batch)) "" "" "" ""
    [Some (mk_EvidenceMessage "c1" 2 1 "built" "verifier" "" (Some (mk_Timestamp 1700000001 5)) [])] "inj_1" "task_1".

Definition injected_outcome : CanonicalOutcome := Eval vm_compute in
  match Canonicalize "tenant_a" (Some injected_request) with Ok o => o | Err _ => no_outcome end.

Definition bare_credit : CreditRecord :=
  mk_CreditRecord "" "" "tenant_a" (co_ID injected_outcome) "inj_1" "task_1" "" Unattributable "rules" (checksum_hex "selection") []
    at_moment (time_Add at_moment Hour) "" "".

Definition injected_credit : CreditRecord := Eval vm_compute in match newRecord bare_credit with Ok c => c | Err _ => bare_credit end.

Definition sample_commit (key : string) : CommitOutcomeRequest :=
  mk_CommitOutcomeRequest "tenant_a" (checksum_hex key) injected_outcome
    (mk_Result OutcomeStateProvisionalSuccess false "outcome-policy.v1" "" "" [] [] []) (Some injected_credit).

Definition sample_calls : list LedgerCall :=
  [CallCommit None None at_moment (sample_ingest "k1"); CallOutcome None None at_moment (sample_commit "k2"); CallOutcome None None at_moment (sample_commit "k3")].

Definition ledger_1 : IngestRepository := snd (Commit NewIngestRepository None None at_moment (sample_ingest "k1")).
Definition receipt_1 : IngestReceipt := new_receipt (sample_ingest "k1") at_moment.

Lemma first_commit : Commit (run_ledger (newIngestRepository false) []) None None at_moment (sample_ingest "k1") = (Ok receipt_1, ledger_1).
Proof.
  assert (Hf : fst (Commit NewIngestRepository None None at_moment (sample_ingest "k1")) = Ok receipt_1) by (vm_compute; reflexivity).
  cbn [run_ledger foldl]. unfold ledger_1. change (newIngestRepository false) with NewIngestRepository. destruct (Commit _ _ _ _ _) as [res r]. cbn [fst snd] in *. by rewrite Hf.
Qed.

Lemma receipt_final_witness : Commit (run_ledger ledger_1 (tl sample_calls)) None None at_moment (sample_ingest "k1") = (Ok (duplicate_receipt receipt_1), run_ledger ledger_1 (tl sample_calls)).
Proof.
  assert (Hv : ValidateCommitRequest (sample_ingest "k1") = Ok tt) by (vm_compute; reflexivity).
  exact (proj1 (receipt_final false [] (tl sample_calls) None None at_moment at_moment _ (sample_ingest "k1") _ _ first_commit Hv) eq_refl).
Defined.

Definition ledger_2 : IngestRepository := snd (CommitOutcome ledger_1 None None at_moment (sample_commit "k2")).
Definition receipt_2 : OutcomeReceipt := new_outcome_receipt (sample_commit "k2") at_moment.

Lemma second_commit : CommitOutcome ledger_1 None None at_moment (sample_commit "k2") = (Ok receipt_2, ledger_2).
Proof.
  assert (Hf : fst (CommitOutcome ledger_1 None None at_moment (sample_commit "k2")) = Ok receipt_2) by (vm_compute; reflexivity).
  unfold ledger_2. destruct (CommitOutcome _ _ _ _ _) as [res r]. cbn [fst snd] in *. by rewrite Hf.
Qed.

Lemma outcome_receipt_final_witness :
  CommitOutcome (run_ledger ledger_2 []) None None at_moment (sample_commit "k2") = (Ok (duplicate_outcome receipt_2), run_ledger ledger_2 []).
Proof.
  assert (Hv : ValidateOutcomeCommit (sample_commit "k2") = Ok tt) by (vm_compute; reflexivity).
  exact (outcome_receipt_final ledger_1 [] None None at_moment at_moment _ (sample_commit "k2") _ _ second_commit Hv eq_refl).
Defined.

Lemma credit_once_witness :
  outcomeCredits (run_ledger (newIngestRepository false) sample_calls) !! tenantKey "tenant_a" (cd_ID injected_credit) = Some injected_credit /\ injected_credit = injected_credit.
Proof.
  assert (Hs : outcomeCredits (run_ledger (newIngestRepository false) sample_calls) !! tenantKey "tenant_a" (cd_ID injected_credit) = Some injected_credit) by (vm_compute; reflexivity).
  split; [exact Hs|exact (credit_once false sample_calls _ _ _ _ Hs Hs eq_refl eq_refl)].
Defined.
End demo.
