(* ===== verification/Intake.v ===== *)
(** * The ingest and outcome services (internal/ingest/service.go, internal/outcome/service.go)

    [Ingest] checks the principal, sanitizes and canonicalizes the trace, stores
    its bytes in the archive and then commits it to the ledger.  [RecordOutcome]
    canonicalizes an outcome, evaluates its evidence, attributes it to the
    injected plan it names and commits it.  Both are over the in-memory archive,
    ledger and selection repository; the context is polled in turn, so [ctx n] is
    the answer of the n-th poll.

    The detection of credentials in evidence is a parameter ([CredentialDetector]),
    as it is made of regular expressions of Go's [regexp].

    [traces_archived] shows that every trace of the ledger has its bytes in the
    archive, whatever calls failed in between; [Ingest_exactly_once] that a
    repeated call returns the first receipt and changes nothing; [Ingest_sound]
    what an accepted trace is; and [credit_authentic] that credit is
    only given to a selection the repository holds. *)

From Stdlib Require Import ZArith String Ascii List Bool Lia.
From stdpp Require Import base gmap strings list sorting.
From S2P Require Import Prelude GoStrings GoTime Canonical Domain Evidence Trace Sanitize.
From S2P Require Import Archive Compatibility Planner Selection Credit Ledger.

Open Scope Z_scope.
Open Scope go_scope.

(** ** Principals and consent (security/principal.go, policy/consent.go) *)
Definition Deny : string := "deny".
Definition RecallOnly : string := "recall_only".
Definition LearnAndRecall : string := "learn_and_recall".

Definition AuthorizeIngest (mode : string) : result unit := reject negb (String.eqb mode LearnAndRecall) with ErrConsentDenied; Ok tt.

Definition ScopeIngestWrite : string := "ingest:write".
Definition ScopeOutcomeWrite : string := "outcomes:write".

Record Principal := mk_Principal {
  pn_TenantID : string;
  pn_Region : string;
  pn_Scopes : gset string;
  pn_Consent : string;
  pn_AllowExternalInference : bool
}.

Definition HasScope (p : Principal) (scope : string) : bool := String.eqb scope "" || bool_decide (scope ∈ pn_Scopes p).

Record IngestCommand := mk_IngestCommand { ic_Principal : Principal; ic_IdempotencyKeyHash : string; ic_Request : option IngestTraceRequest }.
Record OutcomeCommand := mk_OutcomeCommand { ocm_Principal : Principal; ocm_IdempotencyKeyHash : string; ocm_Request : option RecordOutcomeRequest }.

Record IngestResult := mk_IngestResult {
  is_ReceiptID : string;
  is_TraceID : string;
  is_CanonicalHash : string;
  is_ArchiveKey : string;
  is_Disposition : string;
  is_AcceptedEvents : Z;
  is_Redactions : Z
}.

Record OutcomeResult := mk_OutcomeResult {
  os_ReceiptID : string;
  os_OutcomeID : string;
  os_TraceID : string;
  os_State : string;
  os_PromotionEligible : bool;
  os_PolicyVersion : string;
  os_Disposition : string;
  os_OutcomeCreditID : string;
  os_CreditClass : string
}.

(** The archive and the ledger that the service writes to. *)
Record World := mk_World { wd_archive : MemoryStore; wd_ledger : IngestRepository }.

(** [security.ContainsCredentialMaterial] *)
Class CredentialDetector := contains_credential : string -> bool.

Section services.
Context `{NFC} `{JCS} `{RawCanonical} `{Digest} `{Protobuf} `{Redactor} `{CredentialDetector}.

(** ** Ingest *)

(** Up to the canonical batch and the number of redactions. *)
Definition ingest_batch (ctx : nat -> option goerr) (policy : SanitizerPolicy) (command : IngestCommand) : result (CanonicalBatch * Z) :=
  match ctx 0%nat with
  | Some e => Err e
  | None =>
      let principal := ic_Principal command in
      reject String.eqb (pn_TenantID principal) "" || match ic_Request command with None => true | Some _ => false end ||
             negb (sha256Pattern (ic_IdempotencyKeyHash command)) with ErrInvalidCommand;
      reject negb (HasScope principal ScopeIngestWrite) with ErrPermissionDenied;
      let* _ := AuthorizeIngest (pn_Consent principal) in
      reject failed (ValidateIngest (ic_Request command)) with ErrInvalidTrace;
      let* (clean, report) := Sanitize (ic_Request command) policy in
      match ctx 1%nat with
      | Some e => Err e
      | None =>
          match Build (pn_TenantID principal) (Some clean) with
          | Err _ => Err ErrInvalidTrace
          | Ok batch => Ok (batch, sr_Redactions report)
          end
      end
  end.

Definition ingest_result (receipt : IngestReceipt) (object : Object) (batch : CanonicalBatch) (redactions : Z) : IngestResult :=
  mk_IngestResult (ig_ID receipt) (ig_TraceID receipt) (ig_ContentHash receipt) (ob_Key object) (ig_Disposition receipt)
    (Z.of_nat (length (cb_Events batch))) redactions.

Definition put_request (tenantID : string) (batch : CanonicalBatch) : PutRequest :=
  mk_PutRequest tenantID (cb_SchemaVersion batch) (cb_Hash batch) (cb_CanonicalJSON batch).

Definition Ingest (w : World) (ctx : nat -> option goerr) (now : gotime) (policy : SanitizerPolicy) (command : IngestCommand) : result IngestResult * World :=
  match ingest_batch ctx policy command with
  | Err e => (Err e, w)
  | Ok (batch, redactions) =>
      let tenantID := pn_TenantID (ic_Principal command) in
      match ctx 2%nat with
      | Some e => (Err e, w)
      | None =>
          match PutCanonical (wd_archive w) (ctx 3%nat) (put_request tenantID batch) with
          | (Err e, archive) => (Err e, mk_World archive (wd_ledger w))
          | (Ok object, archive) =>
              match ctx 4%nat with
              | Some e => (Err e, mk_World archive (wd_ledger w))
              | None =>
                  match Commit (wd_ledger w) (ctx 5%nat) (ctx 6%nat) now (mk_CommitIngestRequest tenantID (ic_IdempotencyKeyHash command) batch object) with
                  | (Err e, ledger) => (Err e, mk_World archive ledger)
                  | (Ok receipt, ledger) => (Ok (ingest_result receipt object batch redactions), mk_World archive ledger)
                  end
              end
          end
      end
  end.

(** ** Outcomes *)
Definition DefaultOutcomePolicy : Policy :=
  mk_Policy "outcome-policy.v1" [] EvidenceClassGoalPredicate EvidenceClassGoalPredicate EvidenceClassHarnessAssertion.

(** [inferredPredicates] *)
Definition inferredPredicates (facts : list OutcomeEvidence) : list string := sort_strings (remove_dups (List.map oe_PredicateID facts)).

(** The texts of a request that are searched for credentials. *)
Definition outcome_texts (request : RecordOutcomeRequest) : list string :=
  [or_TraceId request; or_ExecutionId request; or_SelectionId request; or_InjectionId request; or_TaskExecutionId request; or_SupersedesOutcomeId request;
   or_CorrectionReason request] ++
  flat_map (fun fact => let fact := default nil_evidence fact in
    [em_ClientEvidenceId fact; em_PredicateId fact; em_VerifierId fact; em_VerifierVersion fact] ++
    flat_map (fun field => match field with Some f => [fd_Name f; fd_StringValue f] | None => [""; ""]%string end) (em_Fields fact)) (or_Evidence request).

Definition containsSensitiveEvidence (request : RecordOutcomeRequest) : bool := existsb contains_credential (outcome_texts request).

Record OutcomeService := mk_OutcomeService { sv_policy : Policy; sv_attribution : option (SelectionRepository * RuleManifest) }.

Definition set_predicates (p : Policy) (predicates : list string) : Policy :=
  mk_Policy (pol_Version p) predicates (pol_SuccessClassCeiling p) (pol_FailureClassCeiling p) (pol_StrongConflictCeiling p).

(** [NewService] of the outcome service; [rules] and the selections are given or not. *)
Definition NewOutcomeService (policy : Policy) (attribution : option (SelectionRepository * RuleManifest)) : OutcomeService :=
  mk_OutcomeService policy (match attribution with Some (s, rules) => if negb (String.eqb (rm_ID rules) "") then Some (s, rules) else None | None => None end).

(** The canonical outcome and its evaluation. *)
Definition evaluate_outcome (s : OutcomeService) (ctx : nat -> option goerr) (command : OutcomeCommand) : result (CanonicalOutcome * Evidence.Result) :=
  match ctx 0%nat with
  | Some e => Err e
  | None =>
      let principal := ocm_Principal command in
      reject String.eqb (pol_Version (sv_policy s)) "" with ErrMisconfigured;
      match ocm_Request command with
      | None => Err ErrInvalidCommand
      | Some request =>
          reject String.eqb (pn_TenantID principal) "" || negb (sha256Pattern (ocm_IdempotencyKeyHash command)) with ErrInvalidCommand;
          reject negb (HasScope principal ScopeOutcomeWrite) with ErrPermissionDenied;
          let* _ := AuthorizeIngest (pn_Consent principal) in
          reject failed (ValidateOutcome (Some request)) with ErrInvalidCommand;
          reject containsSensitiveEvidence request with ErrSensitiveEvidence;
          match Canonicalize (pn_TenantID principal) (Some request) with
          | Err _ => Err ErrInvalidCommand
          | Ok outcome =>
              let policy := match pol_RequiredPredicates (sv_policy s) with
                            | [] => set_predicates (sv_policy s) (inferredPredicates (co_Evidence outcome))
                            | _ => sv_policy s
                            end in
              match Evidence.Evaluate policy (co_Evidence outcome) ∅ with
              | Err _ => Err ErrMisconfigured
              | Ok evaluation => Ok (outcome, evaluation)
              end
          end
      end
  end.

(** The credit of an outcome that names an injected plan; [now] is the service's clock. *)
Definition attribute (s : OutcomeService) (ctx : nat -> option goerr) (storeNow now : gotime) (tenantID : string) (outcome : CanonicalOutcome)
    (evaluation : Evidence.Result) : result (option CreditRecord) :=
  if String.eqb (co_InjectionID outcome) "" && String.eqb (co_TaskExecutionID outcome) "" then Ok None
  else
    reject String.eqb (co_InjectionID outcome) "" || String.eqb (co_TaskExecutionID outcome) "" with ErrInvalidCommand;
    match sv_attribution s with
    | None => Err ErrInvalidCommand
    | Some (selections, rules) =>
        let* selected := FindByInjectionID selections (ctx 1%nat) storeNow tenantID (co_InjectionID outcome) in
        match Credit.Assign (mk_AssignmentRequest rules selected outcome evaluation (co_InjectionID outcome) (co_TaskExecutionID outcome) (UTC now)) with
        | Err _ => Err ErrInvalidCommand
        | Ok assigned => Ok (Some assigned)
        end
    end.

Definition RecordOutcome (s : OutcomeService) (ledger : IngestRepository) (ctx : nat -> option goerr) (storeNow now commitNow : gotime) (command : OutcomeCommand)
    : result OutcomeResult * IngestRepository :=
  match evaluate_outcome s ctx command with
  | Err e => (Err e, ledger)
  | Ok (outcome, evaluation) =>
      let tenantID := pn_TenantID (ocm_Principal command) in
      match attribute s ctx storeNow now tenantID outcome evaluation with
      | Err e => (Err e, ledger)
      | Ok credit =>
          match CommitOutcome ledger (ctx 2%nat) (ctx 3%nat) commitNow (mk_CommitOutcomeRequest tenantID (ocm_IdempotencyKeyHash command) outcome evaluation credit) with
          | (Err e, ledger) => (Err e, ledger)
          | (Ok receipt, ledger) =>
              (Ok (mk_OutcomeResult (ot_ID receipt) (ot_OutcomeID receipt) (ot_TraceID receipt) (ot_State receipt) (ot_PromotionEligible receipt) (ot_PolicyVersion receipt)
                     (ot_Disposition receipt) (ot_OutcomeCreditID receipt) (ot_CreditClass receipt)), ledger)
          end
      end
  end.
End services.

(** ** Histories *)
Inductive WorldCall :=
| CallIngest (ctx : nat -> option goerr) (now : gotime) (policy : SanitizerPolicy) (command : IngestCommand)
| CallRecord (ctx : nat -> option goerr) (storeNow now commitNow : gotime) (command : OutcomeCommand).

Section sound.
Context `{NFC} `{JCS} `{RawCanonical} `{Digest} `{Protobuf} `{Redactor} `{CredentialDetector}.
Variable service : OutcomeService.

Definition apply_world (w : World) (c : WorldCall) : World :=
  match c with
  | CallIngest ctx now policy command => snd (Ingest w ctx now policy command)
  | CallRecord ctx storeNow now commitNow command => mk_World (wd_archive w) (snd (RecordOutcome service (wd_ledger w) ctx storeNow now commitNow command))
  end.

Definition run_world : World -> list WorldCall -> World := foldl apply_world.
Definition new_world (failing : bool) : World := mk_World NewMemoryStore (newIngestRepository failing).

(** The key under which the content of a trace is archived, with its bytes. *)
Definition archived (w : World) (k h : string) : Prop :=
  exists tenantID traceID schema key body, k = tenantKey tenantID traceID /\ KeyFor tenantID schema h = Ok key /\ objects (wd_archive w) !! key = Some body /\ sum256_hex body = h.

Record world_ok (w : World) : Prop := mk_world_ok {
  wo_addressed : addressed (wd_archive w);
  wo_integrity : integrity (wd_ledger w);
  wo_archived : forall k h, traces (wd_ledger w) !! k = Some h -> archived w k h
}.

(** What a call does to the archive and to the ledger. *)
Record evolves (w w' : World) : Prop := mk_evolves {
  ev_objects : forall k body, objects (wd_archive w) !! k = Some body -> objects (wd_archive w') !! k = Some body;
  ev_ledger : exists calls, wd_ledger w' = run_ledger (wd_ledger w) calls
}.

Lemma evolves_refl w : evolves w w.
Proof. split; [done|by exists []]. Qed.

Lemma evolves_trans w1 w2 w3 : evolves w1 w2 -> evolves w2 w3 -> evolves w1 w3.
Proof. intros [Ho [cs Hl]] [Ho' [cs' Hl']]. split; [auto|]. exists (cs ++ cs'). unfold run_ledger in *. by rewrite foldl_app, <- Hl. Qed.

Lemma PutCanonical_evolves w ctx req : evolves w (mk_World (snd (PutCanonical (wd_archive w) ctx req)) (wd_ledger w)).
Proof. split; [|by exists []]. intros k body. apply PutCanonical_keeps. Qed.

Lemma Ingest_evolves w ctx now policy command : evolves w (snd (Ingest w ctx now policy command)).
Proof.
  unfold Ingest. destruct (ingest_batch ctx policy command) as [[batch redactions]|]; [|apply evolves_refl]. destruct (ctx 2%nat); [apply evolves_refl|].
  pose proof (PutCanonical_evolves w (ctx 3%nat) (put_request (pn_TenantID (ic_Principal command)) batch)) as Hp. destruct (PutCanonical _ _ _) as [[object|e] archive]; [|done].
  destruct (ctx 4%nat); [done|]. set (request := mk_CommitIngestRequest _ _ _ _). eapply evolves_trans; [exact Hp|]. cbn [snd].
  assert (Hl : run_ledger (wd_ledger w) [CallCommit (ctx 5%nat) (ctx 6%nat) now request] = snd (Commit (wd_ledger w) (ctx 5%nat) (ctx 6%nat) now request)) by done.
  destruct (Commit _ _ _ _ _) as [[receipt|e] ledger]; (split; [done|]; eexists; symmetry; exact Hl).
Qed.

Lemma RecordOutcome_cases ledger ctx storeNow now commitNow command res ledger' :
  RecordOutcome service ledger ctx storeNow now commitNow command = (res, ledger') ->
  ledger' = ledger \/ exists outcome evaluation credit,
    evaluate_outcome service ctx command = Ok (outcome, evaluation) /\
    attribute service ctx storeNow now (pn_TenantID (ocm_Principal command)) outcome evaluation = Ok credit /\
    ledger' = apply_ledger ledger (CallOutcome (ctx 2%nat) (ctx 3%nat) commitNow
      (mk_CommitOutcomeRequest (pn_TenantID (ocm_Principal command)) (ocm_IdempotencyKeyHash command) outcome evaluation credit)).
Proof.
  unfold RecordOutcome. destruct (evaluate_outcome service ctx command) as [[outcome evaluation]|]; [|intros [= _ <-]; by left].
  destruct (attribute _ _ _ _ _ _ _) as [credit|] eqn:Ea; [|intros [= _ <-]; by left]. intros Hc. right. exists outcome, evaluation, credit. split_and!; [done|done|]. cbn [apply_ledger].
  destruct (CommitOutcome _ _ _ _ _) as [[receipt|e] l]; by injection Hc.
Qed.

Lemma apply_world_evolves w c : evolves w (apply_world w c).
Proof.
  destruct c as [ctx now policy command|ctx storeNow now commitNow command]; cbn [apply_world]; [apply Ingest_evolves|]. split; [done|]. cbn [wd_ledger].
  destruct (RecordOutcome _ _ _ _ _ _ _) as [res ledger'] eqn:E. destruct (RecordOutcome_cases _ _ _ _ _ _ _ _ E) as [->|(o & e & c & _ & _ & ->)]; [by exists []|]. cbn [snd]. eexists [_]. unfold run_ledger. cbn [foldl]. reflexivity.
Qed.

Lemma run_world_evolves w calls : evolves w (run_world w calls).
Proof. revert w. induction calls as [|c calls IH]; intros w; [apply evolves_refl|]. eapply evolves_trans; [apply apply_world_evolves|apply IH]. Qed.

(** A successful call, step by step. *)
Lemma Ingest_Ok w ctx now policy command res w' :
  Ingest w ctx now policy command = (Ok res, w') -> exists batch redactions object archive receipt ledger,
    ingest_batch ctx policy command = Ok (batch, redactions) /\
    PutCanonical (wd_archive w) None (put_request (pn_TenantID (ic_Principal command)) batch) = (Ok object, archive) /\
    Commit (wd_ledger w) None None now (mk_CommitIngestRequest (pn_TenantID (ic_Principal command)) (ic_IdempotencyKeyHash command) batch object) = (Ok receipt, ledger) /\
    res = ingest_result receipt object batch redactions /\ w' = mk_World archive ledger.
Proof.
  unfold Ingest. destruct (ingest_batch ctx policy command) as [[batch redactions]|]; [|done]. destruct (ctx 2%nat); [done|].
  destruct (ctx 3%nat) as [e|] eqn:E3; [by unfold PutCanonical|]. destruct (PutCanonical _ _ _) as [[object|e] archive] eqn:Ep; [|done]. destruct (ctx 4%nat); [done|].
  destruct (Commit _ _ _ _ _) as [[receipt|e] ledger] eqn:Ec; [|done]. intros [= <- <-]. exists batch, redactions, object, archive, receipt, ledger. split_and!; try done.
  destruct (ctx 5%nat); [done|]. by destruct (ctx 6%nat); [unfold Commit in Ec; destruct (ValidateCommitRequest _)|].
Qed.

Lemma ingest_batch_live ctx policy command x : ingest_batch ctx policy command = Ok x -> ingest_batch (fun _ => None) policy command = Ok x.
Proof.
  unfold ingest_batch. destruct (ctx 0%nat); [done|]. destruct (_ || _ || _); [done|]. destruct (negb _); [done|]. destruct (AuthorizeIngest _); [|done]. cbn [bind].
  destruct (failed _); [done|]. destruct (Sanitize _ _) as [[clean report]|]; [|done]. cbn [bind]. by destruct (ctx 1%nat).
Qed.

(** A valid commit names the archived object of its batch. *)
Lemma ValidateCommitRequest_inv request :
  ValidateCommitRequest request = Ok tt -> KeyFor (ci_TenantID request) (cb_SchemaVersion (ci_Batch request)) (cb_Hash (ci_Batch request)) = Ok (ob_Key (ci_Archive request)) /\
  ob_Hash (ci_Archive request) = cb_Hash (ci_Batch request) /\ ob_Size (ci_Archive request) = str_len (cb_CanonicalJSON (ci_Batch request)).
Proof.
  unfold ValidateCommitRequest. intros Hv. inv_Ok Hv. destruct (KeyFor _ _ _) as [key|]; [|done]. inv_Ok Hv. clear Hv. clear E. autorewrite with goboolsimpl in *. destruct_and!. subst. done.
Qed.

Lemma ValidateCommitRequest_object tenantID key batch object object' :
  ob_Key object = ob_Key object' -> ob_Hash object = ob_Hash object' -> ob_Size object = ob_Size object' ->
  ValidateCommitRequest (mk_CommitIngestRequest tenantID key batch object) = ValidateCommitRequest (mk_CommitIngestRequest tenantID key batch object').
Proof. intros Hk Hh Hs. unfold ValidateCommitRequest. cbn [ci_TenantID ci_IdempotencyKeyHash ci_Batch ci_Archive]. by rewrite Hk, Hh, Hs. Qed.

Lemma archived_evolves w w' k h : evolves w w' -> archived w k h -> archived w' k h.
Proof. intros [Ho _] (t & tr & s & key & body & ? & ? & Hb & ?). exists t, tr, s, key, body. auto. Qed.

Lemma Ingest_world_ok w ctx now policy command : world_ok w -> world_ok (snd (Ingest w ctx now policy command)).
Proof.
  intros [Ha Hi Har]. pose proof (Ingest_evolves w ctx now policy command) as Hev. unfold Ingest in *. destruct (ingest_batch ctx policy command) as [[batch redactions]|]; [|done]. destruct (ctx 2%nat); [done|].
  set (put := put_request _ _) in *. pose proof (PutCanonical_addressed (wd_archive w) (ctx 3%nat) put Ha) as Ha'. destruct (PutCanonical _ _ _) as [[object|e] archive] eqn:Ep; cbn [snd] in Ha';
    [|split; [done|done|intros k h Hk; eapply archived_evolves; [exact Hev|by apply Har]]].
  destruct (ctx 4%nat); [split; [done|done|intros k h Hk; eapply archived_evolves; [exact Hev|by apply Har]]|]. set (request := mk_CommitIngestRequest _ _ _ _) in *.
  pose proof (apply_ledger_integrity (wd_ledger w) (CallCommit (ctx 5%nat) (ctx 6%nat) now request) Hi) as Hi'. cbn [apply_ledger] in Hi'.
  destruct (Commit _ _ _ _ _) as [res ledger] eqn:Ec. assert (Hw : forall x : result IngestResult * World, x = (match res with Ok receipt => (Ok (ingest_result receipt object batch redactions), mk_World archive ledger)
    | Err e => (Err e, mk_World archive ledger) end) -> evolves w (snd x) -> world_ok (snd x)); [|by apply Hw]. intros x -> Hevx. assert (Hx : evolves w (mk_World archive ledger)) by (by destruct res). clear Hevx Hev.
  assert (Hok : world_ok (mk_World archive ledger)); [|by destruct res]. split; [done|done|]. cbn [wd_ledger]. intros k h Hk.
  destruct (ledger_Commit_cases _ _ _ _ _ _ _ Ec) as [->|(_ & _ & Hv & _ & _ & _ & ->)]; [eapply archived_evolves; [exact Hx|by apply Har]|].
  cbn [store_ingest traces] in Hk. apply lookup_insert_Some in Hk as [[<- <-]|[_ Hk]]; [|eapply archived_evolves; [exact Hx|by apply Har]].
  destruct (PutCanonical_stored _ _ _ _ _ Ha Ep) as (_ & _ & Hkey & body & Hb & Hd & _). destruct (ValidateCommitRequest_inv _ Hv) as (Hkf & _ & _).
  exists (ci_TenantID request), (tr_ID (cb_Trace (ci_Batch request))), (cb_SchemaVersion batch), (ob_Key object), body. done.
Qed.

Lemma apply_world_ok w c : world_ok w -> world_ok (apply_world w c).
Proof.
  intros Hw. pose proof (apply_world_evolves w c) as Hev. destruct c as [ctx now policy command|ctx storeNow now commitNow command]; cbn [apply_world] in *; [by apply Ingest_world_ok|].
  destruct Hw as [Ha Hi Har]. destruct (RecordOutcome _ _ _ _ _ _ _) as [res ledger'] eqn:E. cbn [snd] in *.
  destruct (RecordOutcome_cases _ _ _ _ _ _ _ _ E) as [->|(o & e & c & _ & _ & ->)]; [by split|]. split; [done|by apply apply_ledger_integrity|]. cbn [wd_ledger]. intros k h Hk.
  eapply archived_evolves; [exact Hev|]. apply Har. cbn [apply_ledger] in Hk. set (request := mk_CommitOutcomeRequest _ _ _ _ _) in *.
  destruct (CommitOutcome _ _ _ _ _) as [res' l'] eqn:Ec. cbn [snd] in Hk. by destruct (CommitOutcome_cases _ _ _ _ _ _ _ Ec) as [->|(_ & _ & _ & _ & _ & _ & ->)].
Qed.

Lemma run_world_ok failing calls : world_ok (run_world (new_world failing) calls).
Proof.
  assert (Hw0 : world_ok (new_world failing)) by (split; [by intros k b Hk|apply empty_integrity|by intros k h Hk]). revert Hw0. generalize (new_world failing).
  induction calls as [|c calls IH]; intros w Hw; [done|]. by apply IH, apply_world_ok.
Qed.

(** C30: No trace without its bytes: after any calls, whichever of them failed and
    wherever, the content of every trace of the ledger is in the archive, under
    the key of its tenant and digest. *)
Theorem traces_archived (failing : bool) (calls : list WorldCall) (k h : string) :
  traces (wd_ledger (run_world (new_world failing) calls)) !! k = Some h -> archived (run_world (new_world failing) calls) k h.
Proof. apply wo_archived, run_world_ok. Qed.

(** C31: A call may be repeated: after any calls that follow a successful one, the
    same command returns the same result, marked as a duplicate, and changes
    neither the archive nor the ledger. *)
Theorem Ingest_exactly_once (failing : bool) (before later : list WorldCall) (ctx : nat -> option goerr) (now now' : gotime) (policy : SanitizerPolicy) (command : IngestCommand)
    (res : IngestResult) (w : World) :
  Ingest (run_world (new_world failing) before) ctx now policy command = (Ok res, w) ->
  Ingest (run_world w later) (fun _ => None) now' policy command =
    (Ok (mk_IngestResult (is_ReceiptID res) (is_TraceID res) (is_CanonicalHash res) (is_ArchiveKey res) DispositionDuplicate (is_AcceptedEvents res) (is_Redactions res)),
     run_world w later).
Proof.
  intros (batch & redactions & object & archive & receipt & ledger & Hb & Hp & Hc & -> & ->)%Ingest_Ok. destruct (run_world_evolves (mk_World archive ledger) later) as [Hobj [calls Hl]].
  set (w' := run_world _ later) in *. clearbody w'. cbn [wd_archive wd_ledger] in *.
  destruct (PutCanonical_stored _ _ _ _ _ (wo_addressed _ (run_world_ok failing before)) Hp) as (_ & Hh & Hkey & body & Hbody & Hd & Hsize).
  assert (Hvp : validatePutRequest (put_request (pn_TenantID (ic_Principal command)) batch) = Ok (ob_Key object)).
  { unfold PutCanonical in Hp. destruct (validatePutRequest _) as [key|] eqn:Ev; [|done]. f_equal. unfold validatePutRequest in Ev. rewrite Hkey in Ev. cbn [bind] in Ev. inv_Ok Ev. by apply Ok_inj in Ev as <-. }
  set (object' := mk_Object (ob_Key object) (cb_Hash batch) (str_len body) true).
  assert (Hv : ValidateCommitRequest (mk_CommitIngestRequest (pn_TenantID (ic_Principal command)) (ic_IdempotencyKeyHash command) batch object') = Ok tt).
  { rewrite (ValidateCommitRequest_object _ _ _ object' object) by (done || by rewrite Hh || by rewrite Hsize). unfold Commit in Hc. by destruct (ValidateCommitRequest _) as [[]|]. }
  assert (Hput : PutCanonical (wd_archive w') None (put_request (pn_TenantID (ic_Principal command)) batch) = (Ok object', wd_archive w')).
  { unfold PutCanonical. by rewrite Hvp, (Hobj _ _ Hbody). }
  pose proof (Commit_again _ _ _ _ _ _ _ calls now' _ Hc Hv eq_refl) as Hagain. cbn [ci_Batch] in Hagain. rewrite str_eqb_refl, <- Hl in Hagain.
  unfold Ingest. rewrite (ingest_batch_live _ _ _ _ Hb), Hput, Hagain. by destruct w'.
Qed.

(** ** What reaches the archive and the ledger *)
Record authorized (policy : SanitizerPolicy) (command : IngestCommand) (request : IngestTraceRequest) : Prop := mk_authorized {
  au_request : ic_Request command = Some request;
  au_scope : ScopeIngestWrite ∈ pn_Scopes (ic_Principal command);
  au_consent : pn_Consent (ic_Principal command) = LearnAndRecall;
  au_fields : Forall (field_allowed policy) (ir_Environment request) /\ Forall (event_allowed policy) (ir_Events request);
  au_identities : Forall (fun value => cleaned value = value) (identities request)
}.

Lemma ingest_batch_inv ctx policy command batch redactions :
  ingest_batch ctx policy command = Ok (batch, redactions) ->
  exists request, authorized policy command request /\ Build (pn_TenantID (ic_Principal command)) (Some (clean_request request)) = Ok batch.
Proof.
  unfold ingest_batch. destruct (ctx 0%nat); [done|]. intros Hb. inv_Ok Hb. destruct (ctx 1%nat); [done|]. destruct (Build _ _) as [built|] eqn:Eb; [|done]. injection Hb as <- <-.
  destruct (ic_Request command) as [request|] eqn:Er; [|by rewrite orb_true_r in E]. exists request.
  match goal with Hs : Sanitize _ _ = Ok (?c, ?r) |- _ => destruct (proj1 (Sanitize_iff request policy c) (ex_intro _ r Hs)) as (-> & _ & _ & _ & _ & _ & Hf & He & Hi) end.
  split; [|done]. split; try done.
  - apply negb_false_iff in E0. unfold HasScope in E0. cbn [orb] in E0. by apply bool_decide_eq_true in E0.
  - match goal with Ha : AuthorizeIngest _ = Ok _ |- _ => unfold AuthorizeIngest in Ha; inv_Ok Ha end. by autorewrite with goboolsimpl in *.
Qed.

(** The ledger changes at most by one ingest. *)
Lemma Ingest_sound_ledger w ctx now policy command :
  wd_ledger (snd (Ingest w ctx now policy command)) = wd_ledger w \/ exists request receipt, wd_ledger (snd (Ingest w ctx now policy command)) = store_ingest (wd_ledger w) request receipt.
Proof.
  unfold Ingest. destruct (ingest_batch ctx policy command) as [[batch redactions]|]; [|by left]. destruct (ctx 2%nat); [by left|]. destruct (PutCanonical _ _ _) as [[object|] archive]; [|by left].
  destruct (ctx 4%nat); [by left|]. destruct (Commit _ _ _ _ _) as [res ledger] eqn:Ec.
  destruct (ledger_Commit_cases _ _ _ _ _ _ _ Ec) as [->|(_ & _ & _ & _ & _ & _ & ->)]; destruct res; eauto.
Qed.

(** Only an authorized trace is stored, and only as it was cleaned: a call that
    changes the archive or the ledger has the scope and the consent, names only
    allowed fields, and adds at most the canonical bytes of the cleaned request
    and the batch that they encode. *)
Theorem Ingest_sound (w : World) (ctx : nat -> option goerr) (now : gotime) (policy : SanitizerPolicy) (command : IngestCommand) :
  let w' := snd (Ingest w ctx now policy command) in
  w' = w \/ exists request batch, authorized policy command request /\ Build (pn_TenantID (ic_Principal command)) (Some (clean_request request)) = Ok batch /\
    (wd_archive w' = wd_archive w \/ exists key, KeyFor (pn_TenantID (ic_Principal command)) (cb_SchemaVersion batch) (cb_Hash batch) = Ok key /\
       objects (wd_archive w') = <[key := cb_CanonicalJSON batch]> (objects (wd_archive w))) /\
    (wd_ledger w' = wd_ledger w \/ exists object, wd_ledger w' =
       let request := mk_CommitIngestRequest (pn_TenantID (ic_Principal command)) (ic_IdempotencyKeyHash command) batch object in
       store_ingest (wd_ledger w) request (new_receipt request now)).
Proof.
  intros w'. unfold w', Ingest. clear w'. destruct (ingest_batch ctx policy command) as [[batch redactions]|] eqn:Eb; [|by left]. destruct (ctx 2%nat); [by left|]. right.
  destruct (ingest_batch_inv _ _ _ _ _ Eb) as (request & Ha & Hb). exists request, batch. split; [done|]. split; [done|].
  set (put := put_request _ _). destruct (PutCanonical (wd_archive w) (ctx 3%nat) put) as [pres archive] eqn:Ep.
  assert (Har : archive = wd_archive w \/ exists key, KeyFor (pn_TenantID (ic_Principal command)) (cb_SchemaVersion batch) (cb_Hash batch) = Ok key /\
    objects archive = <[key := cb_CanonicalJSON batch]> (objects (wd_archive w))).
  { destruct (PutCanonical_cases _ _ _ _ _ Ep) as [->|(key & Hv & _ & Ho & _)]; [by left|]. right. exists key. split; [|done]. unfold validatePutRequest in Hv. inv_Ok Hv. by apply Ok_inj in Hv as <-. }
  destruct pres as [object|]; [|by split; [|left]]. destruct (ctx 4%nat); [by split; [|left]|]. destruct (Commit _ _ _ _ _) as [res ledger] eqn:Ec.
  assert (Hl : ledger = wd_ledger w \/ exists object, ledger = let request := mk_CommitIngestRequest (pn_TenantID (ic_Principal command)) (ic_IdempotencyKeyHash command) batch object in
    store_ingest (wd_ledger w) request (new_receipt request now)).
  { destruct (ledger_Commit_cases _ _ _ _ _ _ _ Ec) as [->|(_ & _ & _ & _ & _ & _ & ->)]; [by left|right; by exists object]. }
  by destruct res.
Qed.

(** ** Credits *)

(** The credit was assigned to a selection of its injection that the repository holds. *)
Definition authentic (c : CreditRecord) : Prop :=
  exists selections rules selected outcome evaluation now, sv_attribution service = Some (selections, rules) /\
    byInjection selections !! (cd_TenantID c, cd_InjectionID c) = Some selected /\ VerifyCanonical outcome = true /\ co_ID outcome = cd_OutcomeID c /\
    Credit.Assign (mk_AssignmentRequest rules selected outcome evaluation (cd_InjectionID c) (cd_TaskExecutionID c) now) = Ok c.

Lemma attribute_authentic ctx storeNow now tenantID outcome evaluation c :
  attribute service ctx storeNow now tenantID outcome evaluation = Ok (Some c) -> VerifyCanonical outcome = true -> cd_TenantID c = tenantID -> cd_InjectionID c = co_InjectionID outcome ->
  cd_TaskExecutionID c = co_TaskExecutionID outcome -> cd_OutcomeID c = co_ID outcome -> authentic c.
Proof.
  unfold attribute. destruct (_ && _); [done|]. destruct (_ || _); [done|]. destruct (sv_attribution service) as [[selections rules]|] eqn:Es; [|done]. intros Ha Hv Ht Hi Hte Ho. inv_Ok Ha.
  match goal with Hf : FindByInjectionID _ _ _ _ _ = Ok ?s |- _ => rename Hf into Hfind, s into selected end. destruct (Credit.Assign _) as [assigned|] eqn:Ea; [|done]. injection Ha as ->.
  exists selections, rules, selected, outcome, evaluation, (UTC now). rewrite Ht, Hi, Hte, Ho. split_and!; try done.
  unfold FindByInjectionID, find_in in Hfind. destruct (ctx 1%nat); [done|]. destruct (_ || _) in Hfind; [done|]. destruct (byInjection selections !! _) as [x|]; [|done]. inv_Ok Hfind. by injection Hfind as ->.
Qed.

Lemma RecordOutcome_authentic ledger ctx storeNow now commitNow command :
  (forall k c, outcomeCredits ledger !! k = Some c -> authentic c) ->
  forall k c, outcomeCredits (snd (RecordOutcome service ledger ctx storeNow now commitNow command)) !! k = Some c -> authentic c.
Proof.
  intros Hall. destruct (RecordOutcome _ _ _ _ _ _ _) as [res ledger'] eqn:E. cbn [snd]. destruct (RecordOutcome_cases _ _ _ _ _ _ _ _ E) as [->|(o & e & credit & _ & Ha & ->)]; [done|].
  cbn [apply_ledger]. set (request := mk_CommitOutcomeRequest _ _ _ _ _). destruct (CommitOutcome _ _ _ _ _) as [res' l'] eqn:Ec. cbn [snd].
  destruct (CommitOutcome_cases _ _ _ _ _ _ _ Ec) as [->|(_ & _ & Hv & _ & Hr & _ & ->)]; [done|]. destruct (outcome_accepts _ _ Hv Hr) as [_ Hver _ _ Hcr _].
  intros k c. cbn [store_outcome outcomeCredits request cq_Credit cq_TenantID]. destruct credit as [c0|]; [|apply Hall]. intros [[_ <-]|[_ Hk]]%lookup_insert_Some; [|by eapply Hall].
  assert (Hm : credit_mismatch request c0 = false) by (unfold ValidateOutcomeCommit in Hv; inv_Ok Hv; done). unfold credit_mismatch in Hm. autorewrite with goboolsimpl in Hm. destruct_and!.
  by eapply attribute_authentic.
Qed.

(** C32: Credit is only given for what was injected: after any calls, every credit of
    the ledger was assigned by the rules of the service to the selection that the
    repository holds for its injection, from a canonical outcome. *)
Theorem credit_authentic (failing : bool) (calls : list WorldCall) (k : string) (c : CreditRecord) :
  outcomeCredits (wd_ledger (run_world (new_world failing) calls)) !! k = Some c -> authentic c.
Proof.
  revert k c. assert (Hw : forall w, (forall k c, outcomeCredits (wd_ledger w) !! k = Some c -> authentic c) -> forall k c, outcomeCredits (wd_ledger (run_world w calls)) !! k = Some c -> authentic c).
  { induction calls as [|call calls IH]; intros w Hall; [done|]. apply IH. clear IH. destruct call as [ctx now policy command|ctx storeNow now commitNow command]; cbn [apply_world].
    - intros k c Hk. apply (Hall k c). destruct (Ingest_sound_ledger w ctx now policy command) as [Hl|(request & receipt & Hl)]; by rewrite Hl in Hk.
    - by apply RecordOutcome_authentic. }
  apply Hw. by intros k c Hk.
Qed.
End sound.

(** ** Witnesses *)
Section demo.
#[local] Existing Instance copy_nfc.
#[local] Existing Instance copy_jcs.
#[local] Existing Instance copy_raw.
#[local] Existing Instance checksum_digest.
#[local] Existing Instance counting_protobuf.
#[local] Existing Instance prefix_redactor.
#[local] Instance no_detector : CredentialDetector := fun _ => false.

Definition demo_tenant : string := f_TenantID (sl_Fields demo_record).
Definition writer : Principal := mk_Principal demo_tenant "eu" {[ScopeIngestWrite; ScopeOutcomeWrite]} LearnAndRecall false.

Definition demo_ingest : IngestCommand := mk_IngestCommand writer (checksum_hex "k1") (Some (sample_request sample_environment)).

Definition demo_selections : SelectionRepository := mk_repo Hour ∅ {[(demo_tenant, sl_InjectionID demo_record) := demo_record]} ∅.
Definition demo_service : OutcomeService := NewOutcomeService DefaultOutcomePolicy (Some (demo_selections, demo_rules)).

Definition live : nat -> option goerr := fun _ => None.
(** The context ends after the trace was archived. *)
Definition interrupted : nat -> option goerr := fun n => if (n <? 4)%nat then None else Some CtxDeadlineExceeded.

Definition interrupted_calls : list WorldCall := [CallIngest interrupted demo_now DefaultPolicy demo_ingest].
Definition first_ingest : result IngestResult * World := Ingest (run_world demo_service (new_world false) interrupted_calls) live demo_now DefaultPolicy demo_ingest.

Definition no_result : IngestResult := mk_IngestResult "" "" "" "" "" 0 0.
Definition ingested : IngestResult := Eval vm_compute in demo_value no_result (fst first_ingest).

Definition ingested_world : World := snd first_ingest.

Lemma first_ingested : Ingest (run_world demo_service (new_world false) interrupted_calls) live demo_now DefaultPolicy demo_ingest = (Ok ingested, ingested_world).
Proof.
  assert (Hf : fst first_ingest = Ok ingested) by (vm_compute; reflexivity). unfold ingested_world, first_ingest in *. destruct (Ingest _ _ _ _ _) as [x w]. cbn [fst snd] in *. by rewrite Hf.
Qed.
#[local] Opaque first_ingest ingested_world interrupted_calls Ingest run_world ingested.

Lemma Ingest_exactly_once_witness :
  Ingest (run_world demo_service ingested_world []) (fun _ => None) demo_now DefaultPolicy demo_ingest =
    (Ok (mk_IngestResult (is_ReceiptID ingested) (is_TraceID ingested) (is_CanonicalHash ingested) (is_ArchiveKey ingested) DispositionDuplicate (is_AcceptedEvents ingested) (is_Redactions ingested)),
     run_world demo_service ingested_world []).
Proof. exact (Ingest_exactly_once demo_service false interrupted_calls [] live demo_now demo_now DefaultPolicy demo_ingest ingested ingested_world first_ingested). Defined.
#[local] Transparent Ingest run_world.

Definition demo_world_calls : list WorldCall :=
  [CallIngest interrupted demo_now DefaultPolicy demo_ingest; CallIngest live demo_now DefaultPolicy demo_ingest;
   CallRecord live demo_now (time_Add demo_now Minute) demo_now
     (mk_OutcomeCommand writer (checksum_hex "k2") (Some (mk_RecordOutcomeRequest (is_TraceID ingested) "" "" "" ""
        [Some (mk_EvidenceMessage "c1" 2 1 "tested" "verifier" "" (Some (mk_Timestamp 1764403210 0)) [])]
        (sl_InjectionID demo_record) (TaskExecutionID (sl_InjectionID demo_record)))))].

Lemma traces_archived_witness :
  archived (run_world demo_service (new_world false) demo_world_calls) (tenantKey demo_tenant (is_TraceID ingested)) (is_CanonicalHash ingested).
Proof. apply (traces_archived demo_service false demo_world_calls). vm_compute. reflexivity. Defined.

Definition given_credit : CreditRecord := Eval vm_compute in
  match map_to_list (outcomeCredits (wd_ledger (run_world demo_service (new_world false) demo_world_calls))) with [(_, c)] => c | _ => no_credit end.

Lemma credit_authentic_witness : authentic demo_service given_credit.
Proof. apply (credit_authentic demo_service false demo_world_calls (tenantKey demo_tenant (cd_ID given_credit))). vm_compute. reflexivity. Defined.
End demo.
