(* ===== verification/Pipeline.v ===== *)
(** * The synthesis pipeline (internal/workflow, internal/store/surreal/workflow.go)

    A workflow runs five stages: it loads the archived trace and its outcome,
    evaluates the evidence again, builds the causal graph, synthesizes a
    procedure and publishes its projection.  Every stage stores its result as an
    immutable artifact that names the artifact of the stage before by its hash,
    so that a stage that is run again finds its artifact and does no work.

    A stage is a program over the effects it has on what is shared ([effect],
    [prog]): reads and writes of the table of artifacts and publications.  Each
    effect is one atomic step, so that programs can be interleaved.  Everything
    else that a run of a stage depends on is in its [Env]: the answers of the
    context, of the source loader and of the clock, and the tool registry of the
    tenant.

    The database of the artifacts is a parameter ([ArtifactTable]) whose laws
    are in [PipelineSound]; a read or a write may fail, also after the row was
    written.  The JSON decoder of the payloads is a parameter ([PayloadDecoder]),
    and so is the compaction that [encoding/json] makes of a raw message
    ([RawMessage]).  Temporal runs an activity as its retry policy says; an
    attempt may be lost after it had its effects.  Metrics, heartbeats and
    timeouts are left out. *)

From Stdlib Require Import ZArith String Ascii List Bool Lia.
From stdpp Require Import base gmap strings list sorting.
From S2P Require Import Prelude GoStrings GoTime Canonical Domain Evidence ToolContract Synthesis.
From S2P Require Import RetrievalQuery RetrievalDocument Trace Projection PublicationStore Ledger Intake.

Open Scope Z_scope.
Open Scope go_scope.

(** ** Inputs and results (client.go, synthesis.go) *)
Definition OutboxJobSynthesizeTrace : string := "synthesize_trace".
Definition OutboxJobSynthesizeOutcome : string := "synthesize_outcome".

Record SynthesisInput := mk_SynthesisInput {
  sn_SchemaVersion : string;
  sn_TenantID : string;
  sn_TraceID : string;
  sn_OutcomeID : string;
  sn_JobType : string;
  sn_ContentHash : string
}.

Definition input_json (i : SynthesisInput) : json :=
  JObj (fstr "schema_version" (sn_SchemaVersion i) ++ fstr "tenant_id" (sn_TenantID i) ++ fstr "trace_id" (sn_TraceID i) ++
        fstr_omit "outcome_id" (sn_OutcomeID i) ++ fstr "job_type" (sn_JobType i) ++ fstr "content_hash" (sn_ContentHash i)).

Record StartRequest := mk_StartRequest { sa_WorkflowID : string; sa_Input : SynthesisInput }.

Definition StageLoad : string := "load".
Definition StageEvaluate : string := "evaluate".
Definition StageBuildGraph : string := "build_graph".
Definition StageSynthesize : string := "synthesize".
Definition StagePublish : string := "publish".

Definition StageStatusReady : string := "ready".
Definition StageStatusTerminal : string := "terminal".

Record StageRequest := mk_StageRequest { sg_SchemaVersion : string; sg_Input : SynthesisInput; sg_Stage : string; sg_PriorHash : string }.

Record StageResult := mk_StageResult {
  sl_SchemaVersion : string;
  sl_Stage : string;
  sl_ArtifactHash : string;
  sl_Status : string;
  sl_Code : string
}.

Record PipelineResult := mk_PipelineResult {
  pp_SchemaVersion : string;
  pp_WorkflowID : string;
  pp_FinalStage : string;
  pp_ArtifactHash : string;
  pp_Status : string;
  pp_Code : string
}.

(** ** Sources and artifacts (processor.go) *)
Record StoredOutcome := mk_StoredOutcome {
  so_ID : string;
  so_ContentHash : string;
  so_State : string;
  so_PromotionEligible : bool;
  so_PolicyVersion : string;
  so_Evidence : list OutcomeEvidence;
  so_CreatedAt : gotime
}.

Record LoadedSource := mk_LoadedSource {
  ls_SchemaVersion : string;
  ls_Batch : CanonicalBatch;
  ls_ArchiveHash : string;
  ls_Outcome : option StoredOutcome
}.

Definition storedOutcome_json (o : StoredOutcome) : json :=
  JObj (fstr "id" (so_ID o) ++ fstr "content_hash" (so_ContentHash o) ++ fstr "state" (so_State o) ++
        fbool "promotion_eligible" (so_PromotionEligible o) ++ fstr "policy_version" (so_PolicyVersion o) ++
        farr "evidence" (List.map evidence_json (so_Evidence o)) ++ ftime "created_at" (so_CreatedAt o)).

Definition source_json (s : LoadedSource) : json :=
  JObj (fstr "schema_version" (ls_SchemaVersion s) ++ fld "batch" (batch_json (ls_Batch s)) ++ fstr "archive_hash" (ls_ArchiveHash s) ++
        match ls_Outcome s with Some o => fld "outcome" (storedOutcome_json o) | None => [] end).

Record StageArtifact := mk_StageArtifact {
  af_TenantID : string;
  af_WorkflowID : string;
  af_Stage : string;
  af_InputHash : string;
  af_ContentHash : string;
  af_Payload : string;
  af_Status : string;
  af_Code : string;
  af_CreatedAt : gotime;
  af_ExpiresAt : gotime
}.

Record ProcessorConfig := mk_ProcessorConfig {
  pc_ArtifactRetention : Z;
  pc_Versions : Versions;
  pc_ResidencyRegion : string;
  pc_LearnedWithRecallConsent : bool
}.

(** [ea_Evidence] is [None] for a nil slice. *)
Record evaluationArtifact := mk_evaluationArtifact {
  ea_State : string;
  ea_PromotionEligible : bool;
  ea_PolicyVersion : string;
  ea_Evidence : option (list OutcomeEvidence)
}.

Record graphArtifact := mk_graphArtifact {
  ga_Graph : Graph;
  ga_GraphHash : string;
  ga_Goals : list GoalRequirement;
  ga_RequiredEffects : list string;
  ga_FailedBranches : list FailedBranch;
  ga_IntentHash : string;
  ga_EffectSignatureHash : string;
  ga_EnvironmentHash : string;
  ga_RegistryVersion : string
}.

Record synthesisArtifact := mk_synthesisArtifact { ya_Result : SynthesisResult; ya_ResultHash : string }.

Definition evaluation_json (e : evaluationArtifact) : json :=
  JObj (fstr "state" (ea_State e) ++ fbool "promotion_eligible" (ea_PromotionEligible e) ++ fstr "policy_version" (ea_PolicyVersion e) ++
        fld "evidence" match ea_Evidence e with Some facts => JArr (List.map evidence_json facts) | None => JNull end).

(** A goal without verifiers has a nil slice. *)
Definition goal_json (g : GoalRequirement) : json :=
  JObj (fstr "PredicateID" (gq_PredicateID g) ++ fld "VerifierNodes" match gq_VerifierNodes g with [] => JNull | nodes => jstrs nodes end).

Definition branch_json (b : FailedBranch) : json :=
  JObj (fstr "FailurePredicateID" (fb_FailurePredicateID b) ++ fstrs "EventIDs" (fb_EventIDs b) ++ fld "Scope" (scope_json (fb_Scope b))).

Definition graphArtifact_json (g : graphArtifact) : json :=
  JObj (fld "graph" (graph_json (ga_Graph g)) ++ fstr "graph_hash" (ga_GraphHash g) ++ farr "goals" (List.map goal_json (ga_Goals g)) ++
        fstrs "required_effects" (ga_RequiredEffects g) ++ farr_omit "failed_branches" (List.map branch_json (ga_FailedBranches g)) ++
        fstr "intent_hash" (ga_IntentHash g) ++ fstr "effect_signature_hash" (ga_EffectSignatureHash g) ++
        fstr "environment_hash" (ga_EnvironmentHash g) ++ fstr "registry_version" (ga_RegistryVersion g)).

Definition synthesisArtifact_json (s : synthesisArtifact) : json :=
  JObj (fld "result" (synthesis_json (ya_Result s)) ++ fstr "result_hash" (ya_ResultHash s)).

Definition disposition_string (d : Disposition) : string :=
  match d with DispositionPublished => "published" | PublicationStore.DispositionDuplicate => "duplicate" end.

Definition publication_json (manifestID versionID : string) (d : Disposition) : json :=
  JObj (fstr "manifest_id" manifestID ++ fstr_omit "procedure_version_id" versionID ++ fstr "disposition" (disposition_string d)).

(** [json.RawMessage]: the compacted text, or nothing when it is not JSON. *)
Class RawMessage := compact_raw : string -> option string.

(** [json.NewDecoder(...).Decode] with [DisallowUnknownFields], per target type. *)
Class PayloadDecoder := {
  decode_source : string -> option LoadedSource;
  decode_evaluation : string -> option evaluationArtifact;
  decode_graph : string -> option graphArtifact;
  decode_synthesis : string -> option synthesisArtifact
}.

(** ** Programs *)
Definition artifact_key : Type := string * string * string.
Definition key_of (a : StageArtifact) : artifact_key := (af_TenantID a, af_WorkflowID a, af_Stage a).

Inductive effect : Type -> Type :=
| Select (key : artifact_key) : effect (result (option StageArtifact))
| Create (artifact : StageArtifact) : effect (result unit)
| PublishProjection (ctx : option goerr) (value : Projection) : effect (result PublishReceipt).

Inductive prog (A : Type) := Ret (r : result A) | Vis {X : Type} (e : effect X) (k : X -> prog A).
Arguments Ret {A} r.
Arguments Vis {A X} e k.

Fixpoint after {A B} (m : prog A) (k : result A -> prog B) : prog B :=
  match m with
  | Ret r => k r
  | Vis e c => Vis e (fun x => after (c x) k)
  end.

(** Goes on when there is no error. *)
Definition and_then {A B} (m : prog A) (k : A -> prog B) : prog B :=
  after m (fun r => match r with Ok a => k a | Err e => Ret (Err e) end).

Definition perform {X} (e : effect (result X)) : prog X := Vis e Ret.

Notation "'let!' x := m 'in' k" := (and_then m (fun x => k)) (at level 10, x pattern, m at level 100, k at level 200) : go_scope.
Notation "'refuse' b 'with' e ; k" := (if b then Ret (Err e) else k) (at level 10, b at level 100, e at level 100, k at level 200) : go_scope.

(** What a run of a stage depends on besides the shared state. *)
Record Env := mk_Env {
  ev_ctx : nat -> option goerr;
  ev_loaded : result LoadedSource;
  ev_registry : Registry;
  ev_snapshot : option string;
  ev_published : gotime;
  ev_stored : gotime;
  ev_lost : bool
}.

(** [databaseFailure] lets the errors of the context and of a commit through and wraps any other. *)
Definition databaseFailure (e : goerr) : goerr :=
  match e with
  | CtxCanceled | CtxDeadlineExceeded | ErrKeyReused | ErrTraceConflict | ErrInvalidCommit => e
  | _ => ErrDatabase
  end.

(** The loops of [servingMetadata]. *)
Definition riskOrder (risk : string) : Z :=
  if String.eqb risk RiskLow then 1 else if String.eqb risk RiskMedium then 2 else if String.eqb risk RiskHigh then 3
  else if String.eqb risk RiskCritical then 4 else 0.

Definition evidence_weight (class : string) : Z :=
  if String.eqb class EvidenceClassIndependentVerifier then 5 else if String.eqb class EvidenceClassGoalPredicate then 4
  else if String.eqb class EvidenceClassHarnessAssertion then 3 else if String.eqb class EvidenceClassToolPostcondition then 2
  else if String.eqb class EvidenceClassExitStatusOrSelfReport then 1 else 0.

Definition verificationStrength (outcome : option StoredOutcome) : Z :=
  match outcome with
  | None => 0
  | Some o =>
      foldl (fun strength item =>
        if String.eqb (oe_Verdict item) EvidenceVerdictSatisfied && (strength <? evidence_weight (oe_Class item)) then evidence_weight (oe_Class item) else strength)
        0 (so_Evidence o)
  end.

Definition serving_resource (r : Synthesis.Resource) : string * ResourceRequirement :=
  ((rs_Type r ++ nul ++ rs_Namespace r ++ nul ++ rs_IdentityHash r)%string,
   mk_ResourceRequirement (rs_Type r) (rs_Namespace r) (rs_IdentityHash r) (rs_SchemaVersion r)).

Definition node_effects (n : Node) : list string :=
  match nd_Effects n with
  | [] => if String.eqb (nd_SideEffect n) SideEffectNone then [] else ["side_effect:" ++ nd_SideEffect n]%string
  | effects => effects
  end.

Definition selected_nodes (graph : Graph) (steps : list ProcedureStep) : list Node :=
  List.filter (fun n => bool_decide (nd_ID n ∈ List.map sp_EventID steps)) (gr_Nodes graph).

Definition serving_task (task : string) (r : SynthesisResult) : string :=
  if String.eqb (TrimSpace task) ""
  then ("tools " ++ join " then " (List.map sp_ToolName (sr_Steps r)) ++ " goals " ++ join " " (sr_GoalPredicates r))%string
  else task.

(** The resources and effects are collected in maps; [Projection.Build] sorts them. *)
Definition servingMetadata (source : LoadedSource) (graph : Graph) (r : SynthesisResult) (config : ProcessorConfig) : ServingMetadata :=
  let nodes := selected_nodes graph (sr_Steps r) in
  let resources : gmap string ResourceRequirement :=
    foldl (fun m kv => <[fst kv := snd kv]> m) ∅ (List.map serving_resource (List.concat (List.map (fun n => nd_Reads n ++ nd_Writes n) nodes))) in
  let effects : gset string := list_to_set (List.concat (List.map node_effects nodes)) in
  let risk := foldl (fun risk n => if riskOrder risk <? riskOrder (nd_Risk n) then nd_Risk n else risk) RiskLow nodes in
  let trace := cb_Trace (ls_Batch source) in
  mk_ServingMetadata (serving_task (tr_Task trace) r) (mk_Harness (tr_Harness trace) (tr_HarnessVersion trace))
    (List.map (fun f => mk_Fact (cf_Name f) (cf_Value f)) (tr_Environment trace)) (List.map snd (map_to_list resources)) (elements effects)
    risk (verificationStrength (ls_Outcome source)) (pc_LearnedWithRecallConsent config) (pc_ResidencyRegion config).

Definition predicates (facts : list OutcomeEvidence) : list string := sort_strings (elements (list_to_set (List.map oe_PredicateID facts) : gset string)).

Definition resultForArtifact (a : StageArtifact) : StageResult := mk_StageResult "stage-result.v1" (af_Stage a) (af_ContentHash a) (af_Status a) (af_Code a).

Definition validateStageResult (want : string) (r : StageResult) : bool :=
  String.eqb (sl_SchemaVersion r) "stage-result.v1" && String.eqb (sl_Stage r) want && sha256Pattern (sl_ArtifactHash r) &&
  (String.eqb (sl_Status r) StageStatusReady || String.eqb (sl_Status r) StageStatusTerminal) &&
  negb (String.eqb (sl_Status r) StageStatusTerminal && String.eqb (sl_Code r) "").

Definition pipelineResult (workflowID : string) (stage : StageResult) : PipelineResult :=
  mk_PipelineResult "pipeline-result.v1" workflowID (sl_Stage stage) (sl_ArtifactHash stage) (sl_Status stage) (sl_Code stage).

(** ** The processor *)
Section processor.
Context `{NFC} `{JCS} `{Digest} `{RawMessage} `{PayloadDecoder}.

Definition workflow_of (input : SynthesisInput) : string :=
  if String.eqb (sn_JobType input) OutboxJobSynthesizeOutcome then OutcomeWorkflowID (sn_TenantID input) (sn_TraceID input) (sn_OutcomeID input)
  else WorkflowID (sn_TenantID input) (sn_TraceID input).

Definition InputWorkflowID (request : StageRequest) : string := workflow_of (sg_Input request).

Definition request_key (request : StageRequest) (stage : string) : artifact_key := (sn_TenantID (sg_Input request), InputWorkflowID request, stage).

(** The value that [StageArtifactHash] marshals, with its payload compacted. *)
Definition artifactIdentity_json (a : StageArtifact) (payload : string) : json :=
  JObj (fstr "tenant_id" (af_TenantID a) ++ fstr "workflow_id" (af_WorkflowID a) ++ fstr "stage" (af_Stage a) ++ fstr "input_hash" (af_InputHash a) ++
        fld "payload" (JRaw payload) ++ fstr "status" (af_Status a) ++ fstr_omit "code" (af_Code a)).

Definition StageArtifactHash (a : StageArtifact) : result string :=
  match compact_raw (af_Payload a) with
  | None => Err ErrMarshal
  | Some payload => let* (_, hash) := MarshalAndHash (artifactIdentity_json a payload) in Ok hash
  end.

Definition artifact_invalid (a : StageArtifact) : bool :=
  String.eqb (af_TenantID a) "" || String.eqb (af_WorkflowID a) "" || String.eqb (af_Stage a) "" ||
  negb (sha256Pattern (af_InputHash a)) || negb (sha256Pattern (af_ContentHash a)) || String.eqb (af_Payload a) "" ||
  IsZero (af_CreatedAt a) || negb (After (af_ExpiresAt a) (af_CreatedAt a)) ||
  negb (String.eqb (af_Status a) StageStatusReady || String.eqb (af_Status a) StageStatusTerminal) ||
  (String.eqb (af_Status a) StageStatusTerminal && String.eqb (af_Code a) "").

Definition ValidateStageArtifact (a : StageArtifact) : result unit :=
  reject artifact_invalid a with ErrStageArtifactConflict;
  match StageArtifactHash a with
  | Err _ => Err ErrStageArtifactConflict
  | Ok hash => reject negb (String.eqb hash (af_ContentHash a)) with ErrStageArtifactConflict; Ok tt
  end.

(** *** The repository of artifacts (store/surreal/workflow.go) *)
Definition same_artifact (x y : StageArtifact) : bool := String.eqb (af_ContentHash x) (af_ContentHash y) && String.eqb (af_InputHash x) (af_InputHash y).

Definition GetStageArtifact (key : artifact_key) : prog StageArtifact :=
  Vis (Select key) (fun row =>
    match row with
    | Err e => Ret (Err (databaseFailure e))
    | Ok None => Ret (Err ErrStageArtifactNotFound)
    | Ok (Some artifact) => Ret (let* _ := ValidateStageArtifact artifact in Ok artifact)
    end).

Definition PutStageArtifact (ctx : option goerr) (artifact : StageArtifact) : prog unit :=
  match ctx with
  | Some e => Ret (Err e)
  | None =>
      refuse failed (ValidateStageArtifact artifact) with ErrStageArtifactConflict;
      let! existing := perform (Select (key_of artifact)) in
      match existing with
      | Some existing => Ret (if same_artifact existing artifact then Ok tt else Err ErrStageArtifactConflict)
      | None =>
          Vis (Create artifact) (fun written =>
            match written with
            | Ok _ => Ret (Ok tt)
            | Err e =>
                Vis (Select (key_of artifact)) (fun resolved =>
                  match resolved with
                  | Err e' => Ret (Err (databaseFailure e'))
                  | Ok resolved =>
                      Ret (if match resolved with Some a => same_artifact a artifact | None => false end then Ok tt else Err (databaseFailure e))
                  end)
            end)
      end
  end.

(** *** Running a stage *)
Definition stageInputHash (request : StageRequest) : string :=
  if negb (String.eqb (sg_PriorHash request) "") then sg_PriorHash request
  else match MarshalAndHash (input_json (sg_Input request)) with Ok (_, hash) => hash | Err _ => "" end.

Definition validatePrior (request : StageRequest) (prerequisites : list string) : prog unit :=
  match last prerequisites with
  | None => Ret (if negb (String.eqb (sg_PriorHash request) "") then Err (ErrStage "invalid_input" false) else Ok tt)
  | Some stage =>
      let! prior := GetStageArtifact (request_key request stage) in
      Ret (if negb (String.eqb (af_ContentHash prior) (sg_PriorHash request)) then Err (ErrStage "invalid_input" false) else Ok tt)
  end.

Definition readPayload {A} (decode : string -> option A) (request : StageRequest) (stage : string) : prog A :=
  let! artifact := GetStageArtifact (request_key request stage) in
  Ret (match decode (af_Payload artifact) with Some value => Ok value | None => Err (ErrStage "artifact_corrupt" false) end).

(** The artifact of a stage with the payload, status and code that its builder returned. *)
Definition new_artifact (config : ProcessorConfig) (now : gotime) (request : StageRequest) (encoded status code : string) : result StageArtifact :=
  let a hash created expires := mk_StageArtifact (sn_TenantID (sg_Input request)) (InputWorkflowID request) (sg_Stage request) (stageInputHash request)
    hash encoded status code created expires in
  let* hash := StageArtifactHash (a "" zero_time zero_time) in
  Ok (a hash (UTC now) (time_Add (UTC now) (pc_ArtifactRetention config))).

Definition runStage (config : ProcessorConfig) (env : Env) (request : StageRequest) (prerequisites : list string) (build : prog (json * string * string)) : prog StageResult :=
  after (GetStageArtifact (request_key request (sg_Stage request))) (fun found =>
    match found with
    | Ok existing =>
        Ret (if negb (String.eqb (af_InputHash existing) (stageInputHash request)) then Err ErrStageArtifactConflict else Ok (resultForArtifact existing))
    | Err e =>
        refuse negb (bool_decide (e = ErrStageArtifactNotFound)) with e;
        let! _ := validatePrior request prerequisites in
        let! (payload, status, code) := build in
        let! (encoded, _) := Ret (MarshalAndHash payload) in
        let! artifact := Ret (new_artifact config (ev_stored env) request encoded status code) in
        let! _ := PutStageArtifact (ev_ctx env 2%nat) artifact in
        Ret (Ok (resultForArtifact artifact))
    end).

(** *** The stages *)
Definition source_mismatch (input : SynthesisInput) (source : LoadedSource) : option string :=
  if negb (String.eqb (ls_SchemaVersion source) "loaded-source.v1") || negb (String.eqb (cb_TenantID (ls_Batch source)) (sn_TenantID input)) ||
     negb (String.eqb (tr_ID (cb_Trace (ls_Batch source))) (sn_TraceID input)) || negb (String.eqb (ls_ArchiveHash source) (cb_Hash (ls_Batch source)))
  then Some "tenant_mismatch"%string
  else if String.eqb (sn_JobType input) OutboxJobSynthesizeTrace &&
          (match ls_Outcome source with Some _ => true | None => false end || negb (String.eqb (sn_ContentHash input) (ls_ArchiveHash source)))
  then Some "invalid_input"%string
  else if String.eqb (sn_JobType input) OutboxJobSynthesizeOutcome &&
          match ls_Outcome source with
          | None => true
          | Some o => negb (String.eqb (so_ID o) (sn_OutcomeID input)) || negb (String.eqb (so_ContentHash o) (sn_ContentHash input))
          end
  then Some "invalid_input"%string
  else None.

Definition load_source (input : SynthesisInput) (loaded : result LoadedSource) : result LoadedSource :=
  let* source := loaded in
  match source_mismatch input source with
  | Some code => Err (ErrStage code false)
  | None => Ok source
  end.

Definition Load (config : ProcessorConfig) (env : Env) (request : StageRequest) : prog StageResult :=
  runStage config env request []
    (let! source := Ret (load_source (sg_Input request) (ev_loaded env)) in Ret (Ok (source_json source, StageStatusReady, ""))).

(** The builder of [Evaluate], given the source it read. *)
Definition evaluate_source (source : LoadedSource) : result (evaluationArtifact * string * string) :=
  match ls_Outcome source with
  | None => Ok (mk_evaluationArtifact "" false "" None, StageStatusTerminal, "awaiting_outcome"%string)
  | Some o =>
      match Evidence.Evaluate (set_predicates DefaultOutcomePolicy (predicates (so_Evidence o))) (so_Evidence o) ∅ with
      | Err _ => Err (ErrStage "invalid_evidence" false)
      | Ok r =>
          reject negb (String.eqb (er_State r) (so_State o)) || negb (Bool.eqb (er_PromotionEligible r) (so_PromotionEligible o)) ||
                 negb (String.eqb (er_PolicyVersion r) (so_PolicyVersion o)) with ErrStage "evidence_mismatch" false;
          Ok (mk_evaluationArtifact (er_State r) (er_PromotionEligible r) (er_PolicyVersion r) (Some (so_Evidence o)), StageStatusReady, ""%string)
      end
  end.

Definition Evaluate (config : ProcessorConfig) (env : Env) (request : StageRequest) : prog StageResult :=
  runStage config env request [StageLoad]
    (let! source := readPayload decode_source request StageLoad in
     let! (artifact, status, code) := Ret (evaluate_source source) in
     Ret (Ok (evaluation_json artifact, status, code))).

Definition intent_of (trace : CanonicalTrace) : json :=
  JObj (fstr "task" (tr_Task trace) ++ fstr "harness" (tr_Harness trace) ++ fstr_omit "harness_version" (tr_HarnessVersion trace)).

Definition effect_entry (n : Node) : json :=
  JObj (fstr "tool_contract_version_id" (nd_ToolContractVersionID n) ++
        fstrs_omit "resources" (sort_strings (List.map (fun r => (rs_Namespace r ++ nul ++ rs_Type r ++ nul ++ rs_Name r)%string) (nd_Writes n)))).

(** A decoded environment without entries is a nil slice. *)
Definition projectionIdentities (batch : CanonicalBatch) (graph : Graph) (required : list string) : result (string * string * string) :=
  let* (_, intentHash) := MarshalAndHash (intent_of (cb_Trace batch)) in
  let effects := List.map effect_entry (List.filter (fun n => bool_decide (nd_ID n ∈ required)) (gr_Nodes graph)) in
  let* (_, effectHash) := MarshalAndHash (JArr effects) in
  let* (_, environmentHash) := MarshalAndHash match tr_Environment (cb_Trace batch) with [] => JNull | fields => JArr (List.map field_json fields) end in
  Ok (intentHash, effectHash, environmentHash).

Definition registry_version (config : ProcessorConfig) (snapshot : option string) : string :=
  match snapshot with
  | Some version => if negb (String.eqb version "") then version else vs_Registry (pc_Versions config)
  | None => vs_Registry (pc_Versions config)
  end.

(** The builder of [BuildGraph], given what it read. *)
Definition build_graph (config : ProcessorConfig) (env : Env) (source : LoadedSource) (evaluated : evaluationArtifact) : result graphArtifact :=
  let batch := ls_Batch source in
  match @Synthesis.Build _ _ (ev_registry env) (ev_ctx env 1%nat) (Synthesis.mk_BuildRequest batch [] []) with
  | Err _ => Err (ErrStage "graph_build_failed" false)
  | Ok graph =>
      let required := requiredEffects graph in
      let* (intentHash, effectHash, environmentHash) := projectionIdentities batch graph required in
      let* failedBranches := inferFailedBranches graph batch environmentHash in
      Ok (mk_graphArtifact graph (gr_Hash graph) (inferGoals graph (default [] (ea_Evidence evaluated))) required failedBranches
            intentHash effectHash environmentHash (registry_version config (ev_snapshot env)))
  end.

Definition BuildGraph (config : ProcessorConfig) (env : Env) (request : StageRequest) : prog StageResult :=
  runStage config env request [StageEvaluate]
    (let! source := readPayload decode_source request StageLoad in
     let! evaluated := readPayload decode_evaluation request StageEvaluate in
     let! artifact := Ret (build_graph config env source evaluated) in
     Ret (Ok (graphArtifact_json artifact, StageStatusReady, ""))).

Definition graph_with_hash (g : Graph) (hash : string) : Graph :=
  mk_Graph (gr_SchemaVersion g) (gr_TraceID g) (gr_Nodes g) (gr_Edges g) (gr_AutoPromotable g) hash.

(** The builder of [Synthesize], given what it read. *)
Definition synthesize_graph (config : ProcessorConfig) (evaluated : evaluationArtifact) (graph : graphArtifact) : result synthesisArtifact :=
  let v := pc_Versions config in
  let versions := mk_Versions (vs_Sanitizer v) (ga_RegistryVersion graph) (ea_PolicyVersion evaluated) (vs_GraphBuilder v) (vs_Synthesizer v) in
  match Synthesis.Synthesize (mk_SynthesisRequest (graph_with_hash (ga_Graph graph) (ga_GraphHash graph)) (ea_State evaluated) (ga_Goals graph)
          (ga_RequiredEffects graph) [] (ga_FailedBranches graph) versions) with
  | Err _ => Err (ErrStage "synthesis_failed" false)
  | Ok r => Ok (mk_synthesisArtifact r (sr_Hash r))
  end.

Definition Synthesize (config : ProcessorConfig) (env : Env) (request : StageRequest) : prog StageResult :=
  runStage config env request [StageBuildGraph]
    (let! evaluated := readPayload decode_evaluation request StageEvaluate in
     let! graph := readPayload decode_graph request StageBuildGraph in
     let! artifact := Ret (synthesize_graph config evaluated graph) in
     Ret (Ok (synthesisArtifact_json artifact, StageStatusReady, ""))).

Definition synthesized_of (a : synthesisArtifact) : SynthesisResult :=
  let r := ya_Result a in
  mk_SynthesisResult (sr_SchemaVersion r) (sr_Status r) (sr_AbstentionCode r) (sr_TraceID r) (sr_CausalGraphHash r) (sr_Steps r) (sr_Edges r)
    (sr_NegativePaths r) (sr_GoalPredicates r) (sr_Versions r) (sr_ObservedEndToEnd r) (ya_ResultHash a).

(** The projection that [Publish] makes of what it read. *)
Definition build_projection (config : ProcessorConfig) (now : gotime) (input : SynthesisInput) (source : LoadedSource) (graph : graphArtifact) (synthesized : SynthesisResult)
    : result Projection :=
  match Projection.Build (Projection.mk_BuildRequest (sn_TenantID input) (sn_OutcomeID input) (ga_IntentHash graph) (ga_EffectSignatureHash graph) (ga_EnvironmentHash graph)
          (ls_ArchiveHash source) 0 (wrap_u32 (Z.of_nat (length (cb_Events (ls_Batch source))) - 1)) (UTC now) synthesized
          (servingMetadata source (ga_Graph graph) synthesized config)) with
  | Err _ => Err (ErrStage "projection_build_failed" false)
  | Ok value => Ok value
  end.

Definition publish_code (synthesized : SynthesisResult) : string :=
  if String.eqb (sr_Status synthesized) StatusAbstained then sr_AbstentionCode synthesized else ""%string.

Definition Publish (config : ProcessorConfig) (env : Env) (request : StageRequest) : prog StageResult :=
  runStage config env request [StageSynthesize]
    (let! source := readPayload decode_source request StageLoad in
     let! graph := readPayload decode_graph request StageBuildGraph in
     let! artifact := readPayload decode_synthesis request StageSynthesize in
     let synthesized := synthesized_of artifact in
     let! value := Ret (build_projection config (ev_published env) (sg_Input request) source graph synthesized) in
     let! receipt := perform (PublishProjection (ev_ctx env 1%nat) value) in
     Ret (Ok (publication_json (mn_ID (pj_Manifest value)) (vn_ID (pj_Version value)) (pr_Disposition receipt), StageStatusReady, publish_code synthesized))).

(** ** Activities (activities.go) and the workflow (synthesis.go) *)
Definition stage_processor (stage : string) : ProcessorConfig -> Env -> StageRequest -> prog StageResult :=
  if String.eqb stage StageLoad then Load else if String.eqb stage StageEvaluate then Evaluate
  else if String.eqb stage StageBuildGraph then BuildGraph else if String.eqb stage StageSynthesize then Synthesize else Publish.

(** [execute]; an error of Temporal is the [ErrStage] with its type, and its retryability. *)
Definition execute (config : ProcessorConfig) (env : Env) (stage : string) (request : StageRequest) : prog StageResult :=
  match ev_ctx env 0%nat with
  | Some e => Ret (Err e)
  | None =>
      refuse negb (String.eqb (sg_SchemaVersion request) "stage-request.v1") || negb (String.eqb (sg_Stage request) stage) ||
             String.eqb (sn_TenantID (sg_Input request)) "" || String.eqb (sn_TraceID (sg_Input request)) "" with ErrStage "invalid_input" false;
      let! r := stage_processor stage config env request in
      Ret (if negb (validateStageResult stage r) then Err (ErrStage "invalid_stage_result" false) else Ok r)
  end.

Definition nonRetryableErrorTypes : list string := ["archive_corrupt"; "invalid_input"; "tenant_mismatch"; "unsupported_schema"; "invalid_stage_result"]%string.

(** Whether the retry policy of the activities lets an attempt follow the error. *)
Definition retryable (e : goerr) : bool :=
  match e with
  | ErrStage code r => r && negb (bool_decide (code ∈ nonRetryableErrorTypes))
  | _ => true
  end.

(** An attempt that is lost had its effects, but its answer did not arrive. *)
Definition attempt (config : ProcessorConfig) (env : Env) (stage : string) (request : StageRequest) : prog StageResult :=
  after (execute config env stage request) (fun r => Ret (if ev_lost env then Err CtxDeadlineExceeded else r)).

Definition maximumAttempts : nat := 5.

(** [ExecuteActivity] with the attempts that Temporal makes, in order. *)
Fixpoint ExecuteActivity (config : ProcessorConfig) (attempts : list Env) (stage : string) (request : StageRequest) : prog StageResult :=
  match attempts with
  | [] => Ret (Err CtxDeadlineExceeded)
  | env :: rest =>
      after (attempt config env stage request) (fun r =>
        match r with
        | Ok r => Ret (Ok r)
        | Err e => if retryable e && match rest with [] => false | _ => true end then ExecuteActivity config rest stage request else Ret (Err e)
        end)
  end.

Definition ValidateStartRequest (request : StartRequest) : result unit :=
  let input := sa_Input request in
  reject String.eqb (sa_WorkflowID request) "" || negb (String.eqb (sn_SchemaVersion input) "synthesis-input.v1") || String.eqb (sn_TenantID input) "" ||
         String.eqb (sn_TraceID input) "" || negb (sha256Pattern (sn_ContentHash input)) with ErrInvalidStartRequest;
  let* expected := (
    if String.eqb (sn_JobType input) OutboxJobSynthesizeTrace then
      reject negb (String.eqb (sn_OutcomeID input) "") with ErrInvalidStartRequest; Ok (WorkflowID (sn_TenantID input) (sn_TraceID input))
    else if String.eqb (sn_JobType input) OutboxJobSynthesizeOutcome then
      reject String.eqb (sn_OutcomeID input) "" with ErrInvalidStartRequest; Ok (OutcomeWorkflowID (sn_TenantID input) (sn_TraceID input) (sn_OutcomeID input))
    else Err ErrInvalidStartRequest) in
  reject negb (String.eqb (sa_WorkflowID request) expected) with ErrInvalidStartRequest;
  Ok tt.

Definition stages : list string := [StageLoad; StageEvaluate; StageBuildGraph; StageSynthesize; StagePublish].

(** The loop over the stages that are left. *)
Fixpoint run_stages (config : ProcessorConfig) (attempts : string -> list Env) (workflowID : string) (input : SynthesisInput) (priorHash : string) (remaining : list string)
    : prog PipelineResult :=
  match remaining with
  | [] => Ret (Ok (mk_PipelineResult "pipeline-result.v1" workflowID StagePublish priorHash StageStatusReady ""))
  | stage :: remaining =>
      let! r := ExecuteActivity config (take maximumAttempts (attempts stage)) stage (mk_StageRequest "stage-request.v1" input stage priorHash) in
      refuse negb (validateStageResult stage r) with ErrStage "invalid_stage_result" false;
      if String.eqb (sl_Status r) StageStatusTerminal then Ret (Ok (pipelineResult workflowID r))
      else run_stages config attempts workflowID input (sl_ArtifactHash r) remaining
  end.

Definition SynthesisWorkflow (config : ProcessorConfig) (attempts : string -> list Env) (workflowID : string) (input : SynthesisInput) : prog PipelineResult :=
  refuse failed (ValidateStartRequest (mk_StartRequest workflowID input)) with ErrStage "invalid_input" false;
  run_stages config attempts workflowID input "" stages.
End processor.

(** ** Running programs *)

(** The table of the artifacts in the database.  [table_rows] is what it holds. *)
Class ArtifactTable (Db : Type) := {
  table_rows : Db -> gmap artifact_key StageArtifact;
  table_select : Db -> artifact_key -> result (option StageArtifact) * Db;
  table_create : Db -> StageArtifact -> result unit * Db
}.

Record Plant (Db : Type) := mk_Plant { pl_artifacts : Db; pl_projections : ProjectionRepository }.
Arguments mk_Plant {Db}.
Arguments pl_artifacts {Db}.
Arguments pl_projections {Db}.

Section running.
Context `{NFC} `{JCS} `{Digest} `{RawMessage} `{PayloadDecoder} {Db : Type} `{ArtifactTable Db}.

Definition handle {X} (e : effect X) (p : Plant Db) : X * Plant Db :=
  match e in effect X return X * Plant Db with
  | Select key => let (row, db) := table_select (pl_artifacts p) key in (row, mk_Plant db (pl_projections p))
  | Create artifact => let (written, db) := table_create (pl_artifacts p) artifact in (written, mk_Plant db (pl_projections p))
  | PublishProjection ctx value =>
      let (receipt, repository) := PublicationStore.Publish (pl_projections p) ctx value in (receipt, mk_Plant (pl_artifacts p) repository)
  end.

(** A program that runs alone. *)
Fixpoint run {A} (m : prog A) (p : Plant Db) : result A * Plant Db :=
  match m with
  | Ret r => (r, p)
  | Vis e k => let (x, p) := handle e p in run (k x) p
  end.

(** What runs at once: workflows, and activities, among them attempts that were
    given up but go on. *)
Inductive flight :=
| Workflow (workflowID : string) (input : SynthesisInput) (m : prog PipelineResult)
| Activity (m : prog StageResult).

Record Pool := mk_Pool { po_plant : Plant Db; po_flights : list flight }.

Inductive action :=
| StartWorkflow (attempts : string -> list Env) (workflowID : string) (input : SynthesisInput)
| StartActivity (env : Env) (stage : string) (request : StageRequest)
| Advance (flight : nat).

(** One effect of a flight. *)
Definition advance (f : flight) (p : Plant Db) : flight * Plant Db :=
  match f with
  | Workflow workflowID input (Vis e k) => let (x, p) := handle e p in (Workflow workflowID input (k x), p)
  | Activity (Vis e k) => let (x, p) := handle e p in (Activity (k x), p)
  | f => (f, p)
  end.

Definition act (config : ProcessorConfig) (pool : Pool) (a : action) : Pool :=
  match a with
  | StartWorkflow attempts workflowID input =>
      mk_Pool (po_plant pool) (po_flights pool ++ [Workflow workflowID input (SynthesisWorkflow config attempts workflowID input)])
  | StartActivity env stage request => mk_Pool (po_plant pool) (po_flights pool ++ [Activity (execute config env stage request)])
  | Advance i =>
      match po_flights pool !! i with
      | Some f => let (f, p) := advance f (po_plant pool) in mk_Pool p (<[i := f]> (po_flights pool))
      | None => pool
      end
  end.

Definition act_all (config : ProcessorConfig) : Pool -> list action -> Pool := foldl (act config).
End running.
