(* ===== verification/PipelineSound.v ===== *)
(** * Properties of the synthesis pipeline (internal/workflow)

    Workflows and activities run at once and share the table of artifacts and the
    projection repository.  Rows are never changed, so what a program has read
    stays true; [wp] is the weakest precondition of a program against every
    growth of the shared state between its effects.

    [artifacts_computed] shows that in every reachable state each artifact is
    what its stage computes from the artifacts before it, [workflow_resumes] that
    a workflow that is run again gives its first result and changes nothing,
    [published_verified] that a procedure is only published for an outcome whose
    evidence verifies success, and [blank_task_unpublishable] that a trace
    without a task never gets a procedure published. *)

From Stdlib Require Import ZArith String Ascii List Bool Lia.
From stdpp Require Import base gmap strings list sorting.
From S2P Require Import Prelude GoStrings GoTime Canonical Domain Evidence ToolContract Synthesis SynthesisSound.
From S2P Require Import RetrievalQuery RetrievalDocument Trace Projection PublicationStore PublicationSound Ledger Intake.
From S2P Require Import Pipeline.

Open Scope Z_scope.
Open Scope go_scope.

(** What the database promises: a read changes nothing and a row that it answers
    is the row; a write adds the row where there is none, and may do so although
    it reports an error. *)
Class ArtifactTableLaws (Db : Type) `{ArtifactTable Db} : Prop := {
  select_keeps : forall db k, table_rows (snd (table_select db k)) = table_rows db;
  select_answers : forall db k row, fst (table_select db k) = Ok row -> row = table_rows db !! k;
  create_keeps : forall db a, let db' := snd (table_create db a) in
    table_rows db' = table_rows db \/ table_rows db !! key_of a = None /\ table_rows db' = <[key_of a := a]> (table_rows db);
  create_answers : forall db a, fst (table_create db a) = Ok tt -> table_rows (snd (table_create db a)) !! key_of a = Some a
}.

(** What programs know of the shared state. *)
Record Facts := mk_Facts { ft_rows : gmap artifact_key StageArtifact; ft_manifests : gmap string Manifest }.

Definition extends (F F' : Facts) : Prop := ft_rows F ⊆ ft_rows F' /\ ft_manifests F ⊆ ft_manifests F'.

Lemma extends_refl F : extends F F.
Proof. by split. Qed.

Lemma extends_trans F1 F2 F3 : extends F1 F2 -> extends F2 F3 -> extends F1 F3.
Proof. intros [? ?] [? ?]. split; by etrans. Qed.

Section sound.
Context `{NFC} `{JCS} `{Digest} `{RawMessage} `{PayloadDecoder}.

(** ** Where an artifact comes from *)

(** The artifact of a stage in the workflow of [a]. *)
Definition stored (F : Facts) (a : StageArtifact) (stage : string) (b : StageArtifact) : Prop :=
  ft_rows F !! (af_TenantID a, af_WorkflowID a, stage) = Some b.

(** [a] is what its stage computes from the artifacts before it: its payload is
    the canonical encoding of the value that the stage builds from the decoded
    payloads, and it names the artifact of the stage before. *)
Inductive computed (config : ProcessorConfig) (F : Facts) (a : StageArtifact) : Prop :=
| computed_load input loaded source bytes hash :
    af_Stage a = StageLoad -> af_TenantID a = sn_TenantID input -> af_WorkflowID a = workflow_of input ->
    MarshalAndHash (input_json input) = Ok (bytes, af_InputHash a) ->
    load_source input loaded = Ok source -> MarshalAndHash (source_json source) = Ok (af_Payload a, hash) -> computed config F a
| computed_evaluate bl source x hash :
    af_Stage a = StageEvaluate -> stored F a StageLoad bl -> af_InputHash a = af_ContentHash bl ->
    decode_source (af_Payload bl) = Some source -> evaluate_source source = Ok (x, af_Status a, af_Code a) ->
    MarshalAndHash (evaluation_json x) = Ok (af_Payload a, hash) -> computed config F a
| computed_graph env bl be source evaluated x hash :
    af_Stage a = StageBuildGraph -> stored F a StageLoad bl -> stored F a StageEvaluate be -> af_InputHash a = af_ContentHash be ->
    decode_source (af_Payload bl) = Some source -> decode_evaluation (af_Payload be) = Some evaluated ->
    build_graph config env source evaluated = Ok x -> MarshalAndHash (graphArtifact_json x) = Ok (af_Payload a, hash) -> computed config F a
| computed_synthesis be bg evaluated graph x hash :
    af_Stage a = StageSynthesize -> stored F a StageEvaluate be -> stored F a StageBuildGraph bg -> af_InputHash a = af_ContentHash bg ->
    decode_evaluation (af_Payload be) = Some evaluated -> decode_graph (af_Payload bg) = Some graph ->
    synthesize_graph config evaluated graph = Ok x -> MarshalAndHash (synthesisArtifact_json x) = Ok (af_Payload a, hash) -> computed config F a
| computed_publication bl bg bs source graph x now input value m d hash :
    af_Stage a = StagePublish -> stored F a StageLoad bl -> stored F a StageBuildGraph bg -> stored F a StageSynthesize bs -> af_InputHash a = af_ContentHash bs ->
    decode_source (af_Payload bl) = Some source -> decode_graph (af_Payload bg) = Some graph -> decode_synthesis (af_Payload bs) = Some x ->
    af_TenantID a = sn_TenantID input -> af_WorkflowID a = workflow_of input ->
    build_projection config now input source graph (synthesized_of x) = Ok value ->
    ft_manifests F !! mn_ID (pj_Manifest value) = Some m -> mn_ContentHash m = mn_ContentHash (pj_Manifest value) ->
    af_Code a = publish_code (synthesized_of x) ->
    MarshalAndHash (publication_json (mn_ID (pj_Manifest value)) (vn_ID (pj_Version value)) d) = Ok (af_Payload a, hash) -> computed config F a.

Lemma stored_extends F F' a stage b : extends F F' -> stored F a stage b -> stored F' a stage b.
Proof. intros [Hr _] Hb. by eapply lookup_weaken. Qed.

Lemma computed_extends config F F' a : extends F F' -> computed config F a -> computed config F' a.
Proof.
  intros He Hc. pose proof (fun s b => stored_extends F F' a s b He) as Hs. pose proof (proj2 He) as Hm. destruct Hc;
    [eapply computed_load|eapply computed_evaluate|eapply computed_graph|eapply computed_synthesis|eapply computed_publication]; eauto. by eapply lookup_weaken.
Qed.

Record artifact_ok (config : ProcessorConfig) (F : Facts) (k : artifact_key) (a : StageArtifact) : Prop := mk_artifact_ok {
  ao_key : key_of a = k;
  ao_valid : ValidateStageArtifact a = Ok tt;
  ao_computed : computed config F a
}.

Definition all_computed (config : ProcessorConfig) (F : Facts) : Prop := forall k a, ft_rows F !! k = Some a -> artifact_ok config F k a.

(** ** Weakest preconditions *)
Section wp.
Variable config : ProcessorConfig.

Definition next (F F' : Facts) : Prop := extends F F' /\ all_computed config F'.

(** What a program must know to perform an effect, and what an answer tells it. *)
Definition permitted {X} (e : effect X) (F : Facts) : Prop :=
  match e with
  | Create a => ValidateStageArtifact a = Ok tt /\ computed config F a
  | _ => True
  end.

Definition informs {X} (e : effect X) : X -> Facts -> Prop :=
  match e in effect X return X -> Facts -> Prop with
  | Select k => fun x F => forall row, x = Ok row -> ft_rows F !! k = row
  | Create a => fun x F => x = Ok tt -> ft_rows F !! key_of a = Some a
  | PublishProjection _ value => fun x F => forall receipt, x = Ok receipt ->
      exists m, ft_manifests F !! mn_ID (pj_Manifest value) = Some m /\ mn_ContentHash m = mn_ContentHash (pj_Manifest value)
  end.

Fixpoint wp {A} (m : prog A) (F : Facts) (Q : Facts -> result A -> Prop) : Prop :=
  match m with
  | Ret r => forall F', next F F' -> Q F' r
  | Vis e k => (forall F', next F F' -> permitted e F') /\ (forall F' x, next F F' -> informs e x F' -> wp (k x) F' Q)
  end.

Lemma next_trans F1 F2 F3 : next F1 F2 -> next F2 F3 -> next F1 F3.
Proof. intros [? _] [? ?]. split; [by eapply extends_trans|done]. Qed.

Lemma wp_next {A} (m : prog A) F F' Q : next F F' -> wp m F Q -> wp m F' Q.
Proof. intros Hn. destruct m as [r|X e k]; cbn; [|intros [Hp Hk]; split]; eauto using next_trans. Qed.

Lemma wp_mono {A} (m : prog A) F (Q Q' : Facts -> result A -> Prop) : (forall F' r, next F F' -> Q F' r -> Q' F' r) -> wp m F Q -> wp m F Q'.
Proof.
  revert F. induction m as [r|X e k IH]; cbn; intros F HQ; [by intros Hw F' Hn; apply HQ, Hw|].
  intros [Hp Hk]. split; [done|]. intros F' x Hn Hx. eapply IH; [|by apply Hk]. intros F'' r Hn'. apply HQ. by eapply next_trans.
Qed.

Lemma wp_after {A B} (m : prog A) (k : result A -> prog B) F Q : wp m F (fun F r => wp (k r) F Q) -> all_computed config F -> wp (after m k) F Q.
Proof.
  revert F. induction m as [r|X e c IH]; cbn; intros F Hw Hi; [apply Hw; split; [apply extends_refl|done]|].
  destruct Hw as [Hp Hk]. split; [done|]. intros F' x Hn Hx. apply IH; [by apply Hk|apply Hn].
Qed.

(** An error of the first part is an error of the whole. *)
Lemma wp_and_then {A B} (m : prog A) (k : A -> prog B) F (Q : Facts -> result B -> Prop) :
  (forall F e, Q F (Err e)) -> all_computed config F -> wp m F (fun F r => forall a, r = Ok a -> wp (k a) F Q) -> wp (and_then m k) F Q.
Proof.
  intros He Hi Hw. apply wp_after; [|done]. eapply wp_mono; [|exact Hw]. intros F' r _ Hr. destruct r as [a|e]; [by apply Hr|]. intros F'' _. apply He.
Qed.

Lemma wp_Ret {A} (r : result A) F (Q : Facts -> result A -> Prop) : (forall F', next F F' -> Q F' r) -> wp (Ret r) F Q.
Proof. done. Qed.

(** ** The repository *)
Lemma wp_Get F k : wp (GetStageArtifact k) F (fun F r => forall a, r = Ok a -> ft_rows F !! k = Some a).
Proof.
  split; [done|]. intros F' row Hn Hrow. destruct row as [[a|]|e]; intros F'' Hn'' a' Ha'; try done. inv_Ok Ha'. apply Ok_inj in Ha' as <-.
  apply (lookup_weaken (ft_rows F')); [by apply Hrow|apply Hn''].
Qed.

Definition kept (a : StageArtifact) (F : Facts) : Prop := exists b, ft_rows F !! key_of a = Some b /\ same_artifact b a = true.

Lemma wp_Put F ctx a : (forall F', next F F' -> ValidateStageArtifact a = Ok tt -> computed config F' a) -> all_computed config F ->
  wp (PutStageArtifact ctx a) F (fun F r => r = Ok tt -> kept a F).
Proof.
  intros Hc Hi. unfold PutStageArtifact. destruct ctx; [by intros F' Hn|]. destruct (failed (ValidateStageArtifact a)) eqn:Ev; [by intros F' Hn|].
  assert (Hv : ValidateStageArtifact a = Ok tt) by (unfold failed, is_ok in Ev; by destruct (ValidateStageArtifact a) as [[]|]).
  apply wp_and_then; [done|done|]. split; [done|]. intros F1 row Hn1 Hrow F2 Hn2 existing ->. pose proof (Hrow existing eq_refl) as Hk.
  destruct existing as [b|].
  { intros F3 Hn3 Hsame. exists b. split; [|by destruct (same_artifact b a)]. eapply lookup_weaken; [exact Hk|]. by apply (next_trans F1 F2 F3). }
  assert (Hn : next F F2) by (by eapply next_trans). split. { intros F3 Hn3. split; [done|]. apply Hc; [by eapply next_trans|done]. }
  intros F3 written Hn3 Hw. destruct written as [[]|e].
  { intros F4 Hn4 _. exists a. split; [eapply lookup_weaken; [by apply Hw|apply Hn4]|]. unfold same_artifact. by rewrite !String.eqb_refl. }
  split; [done|]. intros F4 resolved Hn4 Hr. destruct resolved as [[b|]|e']; try (by intros F5 Hn5). intros F5 Hn5 Hsame. exists b.
  split; [eapply lookup_weaken; [by apply Hr|apply Hn5]|]. by destruct (same_artifact b a).
Qed.
(** ** Running a stage *)
Definition prior_ok (F : Facts) (request : StageRequest) (prerequisites : list string) : Prop :=
  match last prerequisites with
  | None => sg_PriorHash request = ""%string
  | Some stage => exists b, ft_rows F !! request_key request stage = Some b /\ af_ContentHash b = sg_PriorHash request
  end.

Lemma prior_ok_next F F' request prerequisites : next F F' -> prior_ok F request prerequisites -> prior_ok F' request prerequisites.
Proof. intros [[Hr _] _]. unfold prior_ok. destruct (last _); [|done]. intros (b & Hb & Hh). exists b. split; [by eapply lookup_weaken|done]. Qed.

Lemma wp_validatePrior F request prerequisites : all_computed config F ->
  wp (validatePrior request prerequisites) F (fun F r => r = Ok tt -> prior_ok F request prerequisites).
Proof.
  intros Hi. unfold validatePrior, prior_ok. destruct (last prerequisites) as [stage|].
  - apply wp_and_then; [done|done|]. eapply wp_mono; [|apply wp_Get]. intros F1 r _ Hr b -> F2 Hn2.
    destruct (String.eqb_spec (af_ContentHash b) (sg_PriorHash request)) as [He|]; [|done]. intros _. exists b. split; [|done]. eapply lookup_weaken; [by apply Hr|apply Hn2].
  - intros F1 Hn1. by destruct (String.eqb_spec (sg_PriorHash request) "") as [He|].
Qed.

Lemma wp_readPayload {A} (decode : string -> option A) F request stage : all_computed config F ->
  wp (readPayload decode request stage) F (fun F r => forall x, r = Ok x -> exists b, ft_rows F !! request_key request stage = Some b /\ decode (af_Payload b) = Some x).
Proof.
  intros Hi. apply wp_and_then; [done|done|]. eapply wp_mono; [|apply wp_Get]. intros F1 r _ Hr b -> F2 Hn2 x.
  destruct (decode (af_Payload b)) as [y|] eqn:Ed; [|done]. intros [= <-]. exists b. split; [|done]. eapply lookup_weaken; [by apply Hr|apply Hn2].
Qed.

Record made_for (request : StageRequest) (encoded status code : string) (a : StageArtifact) : Prop := mk_made_for {
  mf_tenant : af_TenantID a = sn_TenantID (sg_Input request);
  mf_workflow : af_WorkflowID a = InputWorkflowID request;
  mf_stage : af_Stage a = sg_Stage request;
  mf_input : af_InputHash a = stageInputHash request;
  mf_payload : af_Payload a = encoded;
  mf_status : af_Status a = status;
  mf_code : af_Code a = code
}.

Lemma new_artifact_made now request encoded status code a : new_artifact config now request encoded status code = Ok a -> made_for request encoded status code a.
Proof. unfold new_artifact. intros Ha. inv_Ok Ha. by apply Ok_inj in Ha as <-. Qed.

(** What a builder must return for its artifact to be right. *)
Definition builds (request : StageRequest) (prerequisites : list string) (F : Facts) (r : result (json * string * string)) : Prop :=
  forall payload status code encoded hash a, r = Ok (payload, status, code) -> MarshalAndHash payload = Ok (encoded, hash) ->
    made_for request encoded status code a -> ValidateStageArtifact a = Ok tt -> prior_ok F request prerequisites -> all_computed config F -> computed config F a.

(** Two artifacts with the same hash and different results. *)
Definition collision : Prop :=
  exists x y, ValidateStageArtifact x = Ok tt /\ ValidateStageArtifact y = Ok tt /\ af_ContentHash x = af_ContentHash y /\
    (af_Status x, af_Code x) <> (af_Status y, af_Code y).

Definition settled (request : StageRequest) (F : Facts) (r : result StageResult) : Prop :=
  forall res, r = Ok res -> exists b, ft_rows F !! request_key request (sg_Stage request) = Some b /\ af_InputHash b = stageInputHash request /\
    (res = resultForArtifact b \/ collision).

Lemma kept_settled request F a status code encoded : all_computed config F -> made_for request encoded status code a -> ValidateStageArtifact a = Ok tt -> kept a F ->
  settled request F (Ok (resultForArtifact a)).
Proof.
  intros Hi [Ht Hw Hs Hin _ _ _] Hv (b & Hb & Hsame) res [= <-]. exists b. unfold same_artifact in Hsame. apply andb_prop in Hsame as [Hh Hx].
  apply String.eqb_eq in Hh, Hx. assert (Hk : key_of a = request_key request (sg_Stage request)) by (unfold key_of, request_key; by rewrite Ht, Hw, Hs).
  split; [by rewrite <- Hk|]. split; [congruence|]. pose proof (Hi _ _ Hb) as [Hkb Hvb _]. unfold resultForArtifact, key_of in *.
  destruct (decide ((af_Status b, af_Code b) = (af_Status a, af_Code a))) as [Heq|Hne]; [left; simplify_eq; congruence|right; by exists b, a].
Qed.

Lemma wp_runStage F env request prerequisites build : all_computed config F ->
  (forall F', next F F' -> wp build F' (builds request prerequisites)) ->
  wp (runStage config env request prerequisites build) F (settled request).
Proof.
  intros Hi Hb. apply wp_after; [|done]. eapply wp_mono; [|apply wp_Get]. intros F1 r Hn1 Hr. destruct r as [existing|e].
  { intros F2 Hn2. destruct (String.eqb_spec (af_InputHash existing) (stageInputHash request)) as [He|]; [|by intros ?]. intros res [= <-]. exists existing.
    split; [eapply lookup_weaken; [by apply Hr|apply Hn2]|]. split; [done|by left]. }
  clear Hr. destruct (negb _); [by intros F2 Hn2 res|]. apply wp_and_then; [by intros ? ? ?|apply Hn1|].
  eapply wp_mono; [|apply wp_validatePrior, Hn1]. intros F2 r Hn2 Hp [] ->. specialize (Hp eq_refl). assert (Hn : next F F2) by (by eapply next_trans).
  apply wp_and_then; [by intros ? ? ?|apply Hn2|]. eapply wp_mono; [|by apply Hb]. intros F3 r3 Hn3 Hbuild [[payload status] code] ->.
  apply wp_and_then; [by intros ? ? ?|apply Hn3|]. intros F4 Hn4 [encoded hash] Hm. apply wp_and_then; [by intros ? ? ?|apply Hn4|].
  intros F5 Hn5 a Ha%new_artifact_made. apply wp_and_then; [by intros ? ? ?|apply Hn5|].
  assert (Hc : forall F', next F5 F' -> ValidateStageArtifact a = Ok tt -> computed config F' a).
  { intros F' Hn' Hv. eapply computed_extends; [|eapply Hbuild; try done]; [by apply (next_trans F3 F4 F'); [done|apply (next_trans F4 F5 F')]|by eapply prior_ok_next|apply Hn3]. }
  assert (Hput : wp (PutStageArtifact (ev_ctx env 2%nat) a) F5 (fun F r => r = Ok tt -> kept a F /\ ValidateStageArtifact a = Ok tt)).
  { destruct (ValidateStageArtifact a) as [[]|e5] eqn:Ev.
    - eapply wp_mono; [|apply wp_Put; [by intros F' Hn' _; apply Hc|apply Hn5]]. intros F6 r6 _ Hk Hok. split; [by apply Hk|done].
    - unfold PutStageArtifact. rewrite Ev. by destruct (ev_ctx env 2%nat); intros F6 Hn6. }
  eapply wp_mono; [|exact Hput]. intros F6 r6 Hn6 Hk [] Hok F7 Hn7. destruct (Hk Hok) as [(b & Hrow & Hsame) Hv].
  eapply kept_settled; [apply Hn7|done|done|]. exists b. split; [eapply lookup_weaken; [done|apply Hn7]|done].
Qed.
(** ** The stages *)
Lemma valid_hashes a : ValidateStageArtifact a = Ok tt -> sha256Pattern (af_InputHash a) = true /\ sha256Pattern (af_ContentHash a) = true.
Proof. unfold ValidateStageArtifact. intros Hv. inv_Ok Hv. unfold artifact_invalid in *. autorewrite with goboolsimpl in *. by destruct_and!. Qed.

Lemma prior_input F request stage : all_computed config F -> prior_ok F request [stage] ->
  exists b, ft_rows F !! request_key request stage = Some b /\ stageInputHash request = af_ContentHash b.
Proof.
  intros Hi (b & Hb & Hh). exists b. split; [done|]. pose proof (ao_valid _ _ _ _ (Hi _ _ Hb)) as [_ Hv]%valid_hashes.
  unfold stageInputHash. rewrite <- Hh. by destruct (String.eqb_spec (af_ContentHash b) "") as [He|]; [rewrite He in Hv|].
Qed.

Lemma made_stored request encoded status code a F stage b : made_for request encoded status code a -> ft_rows F !! request_key request stage = Some b -> stored F a stage b.
Proof. intros [Ht Hw _ _ _ _ _]. unfold stored. by rewrite Ht, Hw. Qed.

Lemma read_stored F F' request encoded status code a stage b : next F F' -> made_for request encoded status code a ->
  ft_rows F !! request_key request stage = Some b -> stored F' a stage b.
Proof. intros Hn Hm Hb. eapply made_stored; [done|]. eapply lookup_weaken; [done|apply Hn]. Qed.

(** Reads a payload in a builder. *)
Ltac read_payload := apply wp_and_then; [by intros ? ? ? ?|eassumption || (match goal with Hn : next _ ?F |- all_computed _ ?F => apply Hn end)|]; eapply wp_mono;
  [|apply wp_readPayload; eassumption || (match goal with Hn : next _ ?F |- all_computed _ ?F => apply Hn end)].

Lemma wp_Load F env request : all_computed config F -> sg_Stage request = StageLoad -> wp (Load config env request) F (settled request).
Proof.
  intros Hi Hs. apply wp_runStage; [done|]. intros F1 Hn1. apply wp_and_then; [by intros ? ? ? ?|apply Hn1|]. intros F2 Hn2 source Hl F3 Hn3 payload status code encoded hash a [= <- <- <-] Hm Hf Hv Hp _.
  pose proof (valid_hashes _ Hv) as [Hin _]. pose proof Hf as [Ht Hw Hst Hih Hpl _ _]. cbn in Hp. unfold stageInputHash in Hih. rewrite Hp in Hih. cbn in Hih.
  destruct (MarshalAndHash (input_json _)) as [[bytes h]|] eqn:Ei; [|by rewrite Hih in Hin].
  eapply computed_load; [by rewrite Hst|exact Ht|exact Hw|by rewrite Hih|exact Hl|by rewrite Hpl].
Qed.

Lemma wp_Evaluate F env request : all_computed config F -> sg_Stage request = StageEvaluate -> wp (Evaluate config env request) F (settled request).
Proof.
  intros Hi Hs. apply wp_runStage; [done|]. intros F1 Hn1. read_payload. intros F2 r Hn2 Hr source ->. destruct (Hr _ eq_refl) as (bl & Hbl & Hd).
  apply wp_and_then; [by intros ? ? ? ?|apply Hn2|]. intros F3 Hn3 [[x st] cd] Hx F4 Hn4 payload status code encoded hash a [= <- <- <-] Hm Hf Hv Hp Hi4.
  pose proof Hf as [_ _ Hst Hih Hpl Hsta Hco]. destruct (prior_input _ _ _ Hi4 Hp) as (b & Hb & Hh). assert (Hn : next F2 F4) by (by eapply next_trans).
  pose proof (read_stored _ _ _ _ _ _ _ _ _ Hn Hf Hbl) as Hsl. assert (b = bl) as -> by (pose proof (made_stored _ _ _ _ _ _ _ _ Hf Hb) as Hsb; unfold stored in *; congruence).
  eapply computed_evaluate; [by rewrite Hst|exact Hsl|by rewrite Hih|exact Hd|by rewrite Hsta, Hco|by rewrite Hpl].
Qed.

Lemma wp_BuildGraph F env request : all_computed config F -> sg_Stage request = StageBuildGraph -> wp (BuildGraph config env request) F (settled request).
Proof.
  intros Hi Hs. apply wp_runStage; [done|]. intros F1 Hn1. read_payload. intros F2 r Hn2 Hr source ->. destruct (Hr _ eq_refl) as (bl & Hbl & Hd).
  read_payload. intros F3 r3 Hn3 Hr3 evaluated ->. destruct (Hr3 _ eq_refl) as (be & Hbe & He).
  apply wp_and_then; [by intros ? ? ? ?|apply Hn3|]. intros F4 Hn4 x Hx F5 Hn5 payload status code encoded hash a [= <- <- <-] Hm Hf Hv Hp Hi5.
  pose proof Hf as [_ _ Hst Hih Hpl _ _]. destruct (prior_input _ _ _ Hi5 Hp) as (b & Hb & Hh). assert (Hn : next F3 F5) by (by eapply next_trans).
  pose proof (read_stored _ _ _ _ _ _ _ _ _ Hn Hf Hbe) as Hse. pose proof (read_stored _ _ _ _ _ _ _ _ _ (next_trans _ _ _ Hn3 Hn) Hf Hbl) as Hsl.
  assert (b = be) as -> by (pose proof (made_stored _ _ _ _ _ _ _ _ Hf Hb) as Hsb; unfold stored in *; congruence).
  eapply computed_graph; [by rewrite Hst|exact Hsl|exact Hse|by rewrite Hih|exact Hd|exact He|exact Hx|by rewrite Hpl].
Qed.

Lemma wp_Synthesize F env request : all_computed config F -> sg_Stage request = StageSynthesize -> wp (Synthesize config env request) F (settled request).
Proof.
  intros Hi Hs. apply wp_runStage; [done|]. intros F1 Hn1. read_payload. intros F2 r Hn2 Hr evaluated ->. destruct (Hr _ eq_refl) as (be & Hbe & He).
  read_payload. intros F3 r3 Hn3 Hr3 graph ->. destruct (Hr3 _ eq_refl) as (bg & Hbg & Hd).
  apply wp_and_then; [by intros ? ? ? ?|apply Hn3|]. intros F4 Hn4 x Hx F5 Hn5 payload status code encoded hash a [= <- <- <-] Hm Hf Hv Hp Hi5.
  pose proof Hf as [_ _ Hst Hih Hpl _ _]. destruct (prior_input _ _ _ Hi5 Hp) as (b & Hb & Hh). assert (Hn : next F3 F5) by (by eapply next_trans).
  pose proof (read_stored _ _ _ _ _ _ _ _ _ Hn Hf Hbg) as Hsg. pose proof (read_stored _ _ _ _ _ _ _ _ _ (next_trans _ _ _ Hn3 Hn) Hf Hbe) as Hse.
  assert (b = bg) as -> by (pose proof (made_stored _ _ _ _ _ _ _ _ Hf Hb) as Hsb; unfold stored in *; congruence).
  eapply computed_synthesis; [by rewrite Hst|exact Hse|exact Hsg|by rewrite Hih|exact He|exact Hd|exact Hx|by rewrite Hpl].
Qed.

Lemma wp_Publish F env request : all_computed config F -> sg_Stage request = StagePublish -> wp (Publish config env request) F (settled request).
Proof.
  intros Hi Hs. apply wp_runStage; [done|]. intros F1 Hn1. read_payload. intros F2 r Hn2 Hr source ->. destruct (Hr _ eq_refl) as (bl & Hbl & Hd).
  read_payload. intros F3 r3 Hn3 Hr3 graph ->. destruct (Hr3 _ eq_refl) as (bg & Hbg & Hg).
  read_payload. intros F4 r4 Hn4 Hr4 x ->. destruct (Hr4 _ eq_refl) as (bs & Hbs & Hx).
  apply wp_and_then; [by intros ? ? ? ?|apply Hn4|]. intros F5 Hn5 value Hval. apply wp_and_then; [by intros ? ? ? ?|apply Hn5|].
  split; [done|]. intros F6 receipt Hn6 Hrec F7 Hn7 receipt' ->. destruct (Hrec _ eq_refl) as (m & Hmf & Hmh).
  intros F8 Hn8 payload status code encoded hash a [= <- <- <-] Hm Hf Hv Hp Hi8.
  pose proof Hf as [Ht Hw Hst Hih Hpl _ Hco]. destruct (prior_input _ _ _ Hi8 Hp) as (b & Hb & Hh).
  assert (Hn68 : next F6 F8) by (by eapply next_trans). assert (Hn48 : next F4 F8) by (eapply next_trans; [exact Hn5|]; by eapply next_trans).
  pose proof (read_stored _ _ _ _ _ _ _ _ _ Hn48 Hf Hbs) as Hss. pose proof (read_stored _ _ _ _ _ _ _ _ _ (next_trans _ _ _ Hn4 Hn48) Hf Hbg) as Hsg.
  pose proof (read_stored _ _ _ _ _ _ _ _ _ (next_trans _ _ _ Hn3 (next_trans _ _ _ Hn4 Hn48)) Hf Hbl) as Hsl.
  assert (b = bs) as -> by (pose proof (made_stored _ _ _ _ _ _ _ _ Hf Hb) as Hsb; unfold stored in *; congruence).
  eapply computed_publication; [by rewrite Hst|exact Hsl|exact Hsg|exact Hss|by rewrite Hih|exact Hd|exact Hg|exact Hx|exact Ht|exact Hw|exact Hval| |exact Hmh|exact Hco|by rewrite Hpl].
  eapply lookup_weaken; [exact Hmf|apply Hn68].
Qed.
(** ** Activities and workflows *)
Lemma wp_stage F env stage request : all_computed config F -> stage ∈ stages -> sg_Stage request = stage ->
  wp (stage_processor stage config env request) F (settled request).
Proof.
  intros Hi Hin Hs. unfold stages in Hin. rewrite !elem_of_cons in Hin. destruct Hin as [->|[->|[->|[->|[->|Hin]]]]]; cbn;
    [by apply wp_Load|by apply wp_Evaluate|by apply wp_BuildGraph|by apply wp_Synthesize|by apply wp_Publish|by apply elem_of_nil in Hin].
Qed.

Lemma settled_next request F F' r : next F F' -> settled request F r -> settled request F' r.
Proof. intros Hn Hs res Hr. destruct (Hs res Hr) as (b & Hb & Hh). exists b. split; [eapply lookup_weaken; [done|apply Hn]|done]. Qed.

Lemma wp_execute F env stage request : all_computed config F -> stage ∈ stages -> wp (execute config env stage request) F (settled request).
Proof.
  intros Hi Hin. unfold execute. destruct (ev_ctx env 0%nat); [by intros F' Hn ?|]. destruct (_ || _) eqn:Eb; [by intros F' Hn ?|].
  autorewrite with goboolsimpl in Eb. destruct_and!. apply wp_and_then; [by intros ? ? ?|done|]. eapply wp_mono; [|by apply wp_stage].
  intros F1 r Hn1 Hs res -> F2 Hn2. destruct (negb _); [by intros ?|]. by eapply settled_next.
Qed.

Lemma wp_ExecuteActivity F attempts stage request : all_computed config F -> stage ∈ stages -> wp (ExecuteActivity config attempts stage request) F (settled request).
Proof.
  revert F. induction attempts as [|env rest IH]; intros F Hi Hin; [by intros F' Hn ?|]. cbn [ExecuteActivity]. apply wp_after; [|done]. unfold attempt. apply wp_after; [|done].
  eapply wp_mono; [|by apply wp_execute]. intros F1 r Hn1 Hs F2 Hn2. pose proof (settled_next _ _ _ _ Hn2 Hs) as Hs2.
  destruct (ev_lost env); [|destruct r as [res|e]]; cbn [retryable]; repeat (destruct (_ && _)); try (by intros F3 Hn3; intros ?); try (apply IH; [apply Hn2|done]).
  intros F3 Hn3. by eapply settled_next.
Qed.

(** The result of a workflow as the artifacts tell it. *)
Fixpoint read_off (rows : gmap artifact_key StageArtifact) (workflowID : string) (input : SynthesisInput) (priorHash : string) (remaining : list string) : option PipelineResult :=
  match remaining with
  | [] => Some (mk_PipelineResult "pipeline-result.v1" workflowID StagePublish priorHash StageStatusReady "")
  | stage :: remaining =>
      match rows !! (sn_TenantID input, workflowID, stage) with
      | None => None
      | Some a =>
          if negb (String.eqb (af_InputHash a) (stageInputHash (mk_StageRequest "stage-request.v1" input stage priorHash))) then None
          else if String.eqb (af_Status a) StageStatusTerminal then Some (pipelineResult workflowID (resultForArtifact a))
          else read_off rows workflowID input (af_ContentHash a) remaining
      end
  end.

Lemma read_off_extends rows rows' workflowID input priorHash remaining res : rows ⊆ rows' -> read_off rows workflowID input priorHash remaining = Some res ->
  read_off rows' workflowID input priorHash remaining = Some res.
Proof.
  intros Hr. revert priorHash. induction remaining as [|stage remaining IH]; intros priorHash; [done|]. cbn [read_off]. destruct (rows !! _) as [a|] eqn:Ea; [|done].
  rewrite (lookup_weaken _ _ _ _ Ea Hr). destruct (negb _); [done|]. destruct (String.eqb _ _); [done|]. apply IH.
Qed.

Definition recorded (workflowID : string) (input : SynthesisInput) (priorHash : string) (remaining : list string) (F : Facts) (r : result PipelineResult) : Prop :=
  forall res, r = Ok res -> read_off (ft_rows F) workflowID input priorHash remaining = Some res \/ collision.

Lemma wp_run_stages F attempts workflowID input priorHash remaining : all_computed config F -> remaining ⊆ stages -> workflow_of input = workflowID ->
  wp (run_stages config attempts workflowID input priorHash remaining) F (recorded workflowID input priorHash remaining).
Proof.
  intros Hi Hsub Hw. revert F priorHash Hi. induction remaining as [|stage remaining IH]; intros F priorHash Hi; [by intros F' Hn res [= <-]; left|].
  cbn [run_stages]. apply wp_and_then; [by intros ? ? ?|done|]. eapply wp_mono; [|apply wp_ExecuteActivity; [done|apply Hsub; left]].
  intros F1 r Hn1 Hs res ->. destruct (Hs _ eq_refl) as (b & Hb & Hin & Hres). unfold request_key, InputWorkflowID in Hb. cbn [sg_Input sg_Stage] in Hb. rewrite Hw in Hb.
  assert (Hrow : forall F2, next F1 F2 -> ft_rows F2 !! (sn_TenantID input, workflowID, stage) = Some b) by (intros F2 Hn2; eapply lookup_weaken; [exact Hb|apply Hn2]).
  destruct (negb _); [by intros F2 Hn2 ?|].
  assert (Hstep : forall F2 out, next F1 F2 -> (read_off (ft_rows F2) workflowID input (af_ContentHash b) remaining = Some out \/ collision) ->
    String.eqb (af_Status b) StageStatusTerminal = false -> read_off (ft_rows F2) workflowID input priorHash (stage :: remaining) = Some out \/ collision).
  { intros F2 out Hn2 [Ho|] Ht; [left|by right]. cbn [read_off]. rewrite (Hrow _ Hn2), Hin, String.eqb_refl. cbn [negb]. by rewrite Ht. }
  destruct (String.eqb (sl_Status res) StageStatusTerminal) eqn:Et.
  - intros F2 Hn2 out [= <-]. destruct Hres as [->|]; [left|by right]. cbn [read_off]. rewrite (Hrow _ Hn2), Hin, String.eqb_refl. cbn [negb resultForArtifact sl_Status] in *. by rewrite Et.
  - destruct Hres as [->|Hc]; [|eapply wp_mono; [|apply IH; [by set_solver|apply Hn1]]; intros F2 r2 Hn2 Hr2 out Hout; by right].
    eapply wp_mono; [|apply IH; [by set_solver|apply Hn1]]. intros F2 r2 Hn2 Hr2 out Hout. by apply Hstep; [|apply Hr2|].
Qed.
Lemma ValidateStartRequest_workflow workflowID input : ValidateStartRequest (mk_StartRequest workflowID input) = Ok tt -> workflow_of input = workflowID.
Proof.
  unfold ValidateStartRequest, workflow_of. cbn [sa_Input sa_WorkflowID]. intros Hv. inv_Ok Hv. autorewrite with goboolsimpl in *. destruct_and!. subst.
  destruct (String.eqb_spec (sn_JobType input) OutboxJobSynthesizeTrace) as [->|]; [|destruct (String.eqb _ OutboxJobSynthesizeOutcome); [|done]];
    match goal with He : (if _ then Err _ else Ok _) = Ok _ |- _ => inv_Ok He; by injection He end.
Qed.

Definition returned (workflowID : string) (input : SynthesisInput) (F : Facts) (r : result PipelineResult) : Prop :=
  forall res, r = Ok res -> ValidateStartRequest (mk_StartRequest workflowID input) = Ok tt /\ (read_off (ft_rows F) workflowID input "" stages = Some res \/ collision).

Lemma wp_SynthesisWorkflow F attempts workflowID input : all_computed config F ->
  wp (SynthesisWorkflow config attempts workflowID input) F (returned workflowID input).
Proof.
  intros Hi. unfold SynthesisWorkflow. destruct (ValidateStartRequest _) as [[]|] eqn:Ev; [|by intros F' Hn ?].
  eapply wp_mono; [|by apply (wp_run_stages F attempts workflowID input "" stages); [|done|apply ValidateStartRequest_workflow]].
  intros F' r _ Hr res Hres. split; [done|by apply Hr].
Qed.
End wp.

(** ** Reachable states *)
Section pool.
Context {Db : Type} `{ArtifactTableLaws Db}.
Variable config : ProcessorConfig.

Definition facts (p : Plant Db) : Facts := mk_Facts (table_rows (pl_artifacts p)) (manifests (catalog (pl_projections p))).

Lemma all_computed_insert F F' a : all_computed config F -> ft_rows F !! key_of a = None -> ValidateStageArtifact a = Ok tt -> computed config F a ->
  ft_rows F' = <[key_of a := a]> (ft_rows F) -> ft_manifests F' = ft_manifests F -> next config F F'.
Proof.
  intros Hi Hn Hv Hc Hr Hm. assert (He : extends F F') by (split; [rewrite Hr; by apply insert_subseteq|by rewrite Hm]). split; [done|].
  intros k b. rewrite Hr. intros [[<- <-]|[_ Hb]]%lookup_insert_Some; [by split; [|done|eapply computed_extends]|].
  destruct (Hi _ _ Hb) as [Hk Hvb Hcb]. by split; [|done|eapply computed_extends].
Qed.

Lemma handle_sound {X} (e : effect X) (p : Plant Db) : all_computed config (facts p) -> permitted config e (facts p) ->
  next config (facts p) (facts (snd (handle e p))) /\ informs e (fst (handle e p)) (facts (snd (handle e p))).
Proof.
  intros Hi Hp. assert (Hrefl : next config (facts p) (facts p)) by (split; [apply extends_refl|done]). destruct e as [k|a|ctx value]; cbn [handle].
  - pose proof (select_keeps (pl_artifacts p) k) as Hk. pose proof (select_answers (pl_artifacts p) k) as Ha. destruct (table_select _ _) as [row db]. cbn [fst snd] in *.
    assert (Hf : facts (mk_Plant db (pl_projections p)) = facts p) by (unfold facts; cbn; by rewrite Hk). rewrite Hf. split; [done|]. intros row' ->. by rewrite (Ha row' eq_refl).
  - pose proof (create_keeps (pl_artifacts p) a) as Hk. pose proof (create_answers (pl_artifacts p) a) as Ha. destruct (table_create _ _) as [written db]. cbn [fst snd] in *.
    split; [|done]. destruct Hp as [Hv Hc]. destruct Hk as [Hk|[Hn Hk]]; [|by eapply all_computed_insert].
    assert (Hf : facts (mk_Plant db (pl_projections p)) = facts p) by (unfold facts; cbn; by rewrite Hk). by rewrite Hf.
  - pose proof (Publish_manifests (pl_projections p) ctx value) as Hm. destruct (PublicationStore.Publish _ _ _) as [receipt repository]. cbn [fst snd] in *.
    assert (He : extends (facts p) (facts (mk_Plant (pl_artifacts p) repository))).
    { split; [done|]. cbn. destruct Hm as [[-> _]|[Hn ->]]; [done|by apply insert_subseteq]. }
    split; [split; [done|]; intros k a Ha; destruct (Hi _ _ Ha) as [Hk Hv Hc]; by split; [|done|eapply computed_extends]|].
    intros r ->. cbn. destruct Hm as [[-> Hok]|[_ ->]]; [by apply Hok|]. exists (pj_Manifest value). by rewrite lookup_insert_eq.
Qed.

Definition flight_ok (F : Facts) (f : flight) : Prop :=
  match f with
  | Workflow workflowID input m => wp config m F (returned workflowID input)
  | Activity m => wp config m F (fun _ _ => True)
  end.

Record pool_ok (pool : Pool) : Prop := mk_pool_ok {
  po_computed : all_computed config (facts (po_plant pool));
  po_safe : Forall (flight_ok (facts (po_plant pool))) (po_flights pool)
}.

Lemma advance_ok f (p : Plant Db) : all_computed config (facts p) -> flight_ok (facts p) f ->
  next config (facts p) (facts (snd (advance f p))) /\ flight_ok (facts (snd (advance f p))) (fst (advance f p)).
Proof.
  intros Hi Hf. assert (Hrefl : next config (facts p) (facts p)) by (split; [apply extends_refl|done]).
  destruct f as [workflowID input [r|X e k]|[r|X e k]]; cbn [advance]; try done; destruct Hf as [Hp Hk];
    destruct (handle_sound e p Hi (Hp _ Hrefl)) as [Hn Hx]; destruct (handle e p) as [x p']; cbn [fst snd] in *; (split; [done|by apply Hk]).
Qed.

(** The stages an activity is registered for. *)
Definition registered (a : action) : Prop := match a with StartActivity _ stage _ => stage ∈ stages | _ => True end.

Lemma act_ok pool a : registered a -> pool_ok pool -> pool_ok (act config pool a).
Proof.
  intros Hreg [Hi Hs]. destruct a as [attempts workflowID input|env stage request|i]; cbn [act].
  - split; [done|]. cbn. rewrite Forall_app, Forall_singleton. split; [done|]. by apply wp_SynthesisWorkflow.
  - split; [done|]. cbn. rewrite Forall_app, Forall_singleton. split; [done|]. eapply wp_mono; [|by apply wp_execute]. done.
  - destruct (po_flights pool !! i) as [f|] eqn:Ef; [|by split]. pose proof (Forall_lookup_1 _ _ _ _ Hs Ef) as Hf. destruct (advance_ok f _ Hi Hf) as [Hn Hf'].
    destruct (advance f (po_plant pool)) as [f' p'] eqn:Ea. cbn [fst snd] in *. split; cbn; [apply Hn|]. apply Forall_insert; [|done].
    eapply Forall_impl; [exact Hs|]. intros [] Hg; cbn in *; by eapply wp_next.
Qed.

Lemma act_all_ok pool actions : Forall registered actions -> pool_ok pool -> pool_ok (act_all config pool actions).
Proof. revert pool. induction actions as [|a actions IH]; intros pool Hr Hp; [done|]. inversion_clear Hr. by apply IH, act_ok. Qed.

Lemma act_grows pool a : pool_ok pool -> extends (facts (po_plant pool)) (facts (po_plant (act config pool a))).
Proof.
  intros [Hi Hs]. destruct a as [| |i]; cbn [act]; try apply extends_refl. destruct (po_flights pool !! i) as [f|] eqn:Ef; [|apply extends_refl].
  destruct (advance_ok f _ Hi (Forall_lookup_1 _ _ _ _ Hs Ef)) as [[Hn _] _]. by destruct (advance f (po_plant pool)).
Qed.

Lemma act_all_grows pool actions : Forall registered actions -> pool_ok pool -> extends (facts (po_plant pool)) (facts (po_plant (act_all config pool actions))).
Proof.
  revert pool. induction actions as [|a actions IH]; intros pool Hr Hp; [apply extends_refl|]. inversion_clear Hr.
  eapply extends_trans; [by apply act_grows|]. by apply IH, act_ok.
Qed.

(** The pool starts without flights, on a table without artifacts. *)
Definition fresh (p : Plant Db) : Pool := mk_Pool p [].

Lemma fresh_ok p : table_rows (pl_artifacts p) = ∅ -> pool_ok (fresh p).
Proof. intros He. split; [|constructor]. intros k a. cbn. by rewrite He. Qed.

(** C37: In every state that workflows and activities reach, however their effects
    interleave and whichever reads, writes and attempts fail, each artifact is
    valid, is stored under its own key and is what its stage computes from the
    artifacts before it; a publication artifact has its manifest in the
    repository. *)
Theorem artifacts_computed (p : Plant Db) (actions : list action) (k : artifact_key) (a : StageArtifact) :
  table_rows (pl_artifacts p) = ∅ -> Forall registered actions ->
  table_rows (pl_artifacts (po_plant (act_all config (fresh p) actions))) !! k = Some a ->
  artifact_ok config (facts (po_plant (act_all config (fresh p) actions))) k a.
Proof. intros He Hr. apply (po_computed _ (act_all_ok _ _ Hr (fresh_ok _ He))). Qed.
(** ** Running again *)
Lemma run_after {A B} (m : prog A) (k : result A -> prog B) (p : Plant Db) : run (after m k) p = let (r, p') := run m p in run (k r) p'.
Proof. revert p. induction m as [r|X e c IH]; intros p; cbn; [done|]. by destruct (handle e p) as [x p']. Qed.

Definition same_plant (p p' : Plant Db) : Prop := table_rows (pl_artifacts p') = table_rows (pl_artifacts p) /\ pl_projections p' = pl_projections p.

(** Reads are answered. *)
Definition answering : Prop := forall (db : Db) k, exists row, fst (table_select db k) = Ok row.

Hypothesis Hanswering : answering.

Lemma run_Get p k a : table_rows (pl_artifacts p) !! k = Some a -> ValidateStageArtifact a = Ok tt -> exists p', run (GetStageArtifact k) p = (Ok a, p') /\ same_plant p p'.
Proof.
  intros Ha Hv. unfold GetStageArtifact. cbn [run handle]. destruct (Hanswering (pl_artifacts p) k) as [row Hrow].
  pose proof (select_keeps (pl_artifacts p) k) as Hk. pose proof (select_answers (pl_artifacts p) k _ Hrow) as Hr. destruct (table_select _ _) as [row' db]. cbn [fst snd] in *.
  subst row'. rewrite Hr, Ha. cbn [run]. rewrite Hv. by exists (mk_Plant db (pl_projections p)).
Qed.

Lemma run_stage_again cfg env stage request p a : table_rows (pl_artifacts p) !! request_key request (sg_Stage request) = Some a -> ValidateStageArtifact a = Ok tt ->
  af_InputHash a = stageInputHash request -> exists p', run (stage_processor stage cfg env request) p = (Ok (resultForArtifact a), p') /\ same_plant p p'.
Proof.
  intros Ha Hv Hin. destruct (run_Get _ _ _ Ha Hv) as (p' & Hrun & Hsame). exists p'. split; [|done].
  assert (Hstage : forall prerequisites build, run (runStage cfg env request prerequisites build) p = (Ok (resultForArtifact a), p')).
  { intros prerequisites build. unfold runStage. rewrite run_after, Hrun. by rewrite Hin, String.eqb_refl. }
  unfold stage_processor. repeat (destruct (String.eqb _ _); [apply Hstage|]). apply Hstage.
Qed.

Lemma valid_result a : ValidateStageArtifact a = Ok tt -> validateStageResult (af_Stage a) (resultForArtifact a) = true.
Proof.
  intros Hv. pose proof (valid_hashes _ Hv) as [_ Hh]. unfold ValidateStageArtifact in Hv. inv_Ok Hv. unfold artifact_invalid in *. autorewrite with goboolsimpl in *. destruct_and!.
  unfold validateStageResult, resultForArtifact. cbn [sl_SchemaVersion sl_Stage sl_ArtifactHash sl_Status sl_Code]. rewrite Hh, !String.eqb_refl.
  autorewrite with goboolsimpl. by split_and!.
Qed.

Record live (env : Env) : Prop := mk_live { li_ctx : ev_ctx env 0%nat = None; li_kept : ev_lost env = false }.

Lemma run_activity_again cfg env rest stage input priorHash p a :
  let request := mk_StageRequest "stage-request.v1" input stage priorHash in
  live env -> sn_TenantID input <> ""%string -> sn_TraceID input <> ""%string ->
  table_rows (pl_artifacts p) !! request_key request stage = Some a -> af_Stage a = stage -> ValidateStageArtifact a = Ok tt -> af_InputHash a = stageInputHash request ->
  exists p', run (ExecuteActivity cfg (env :: rest) stage request) p = (Ok (resultForArtifact a), p') /\ same_plant p p'.
Proof.
  intros request [Hc Hl] Ht Htr Ha Hs Hv Hin. destruct (run_stage_again cfg env stage request p a Ha Hv Hin) as (p' & Hrun & Hsame). exists p'. split; [|done].
  cbn [ExecuteActivity]. unfold attempt. rewrite !run_after. unfold execute. rewrite Hc, Hl. cbn [request sg_SchemaVersion sg_Stage sg_Input]. rewrite !String.eqb_refl.
  destruct (String.eqb_spec (sn_TenantID input) ""); [done|]. destruct (String.eqb_spec (sn_TraceID input) ""); [done|]. cbn [negb orb].
  unfold and_then. rewrite run_after, Hrun. cbn [run]. by rewrite <- Hs, (valid_result _ Hv).
Qed.

Lemma run_stages_again cfg attempts workflowID input priorHash remaining p res :
  (forall stage, stage ∈ remaining -> exists env rest, attempts stage = env :: rest /\ live env) -> sn_TenantID input <> ""%string -> sn_TraceID input <> ""%string ->
  workflow_of input = workflowID -> all_computed config (facts p) -> read_off (table_rows (pl_artifacts p)) workflowID input priorHash remaining = Some res ->
  exists p', run (run_stages cfg attempts workflowID input priorHash remaining) p = (Ok res, p') /\ same_plant p p'.
Proof.
  intros Hat Ht Htr Hw. revert p priorHash. induction remaining as [|stage remaining IH]; intros p priorHash Hi Hr; [injection Hr as <-; by exists p|].
  cbn [read_off] in Hr. destruct (table_rows _ !! _) as [a|] eqn:Ea; [|done]. destruct (String.eqb_spec (af_InputHash a) (stageInputHash (mk_StageRequest "stage-request.v1" input stage priorHash))) as [Hin|]; [|done].
  destruct (Hi _ _ Ea) as [Hk Hv _]. unfold key_of in Hk. injection Hk as _ _ Hstage. destruct (Hat stage) as (env & rest & He & Hl); [left|].
  destruct (run_activity_again cfg env (take 4 rest) stage input priorHash p a Hl Ht Htr) as (p1 & Hrun & Hsame); try done.
  { unfold request_key, InputWorkflowID. cbn [sg_Input]. by rewrite Hw. }
  cbn [run_stages]. rewrite He. unfold maximumAttempts. cbn [take]. unfold and_then. rewrite run_after, Hrun, <- Hstage, (valid_result _ Hv). cbn [negb resultForArtifact sl_Status sl_ArtifactHash] in *.
  destruct (String.eqb (af_Status a) StageStatusTerminal); [injection Hr as <-; by exists p1|]. destruct Hsame as [Hrows Hproj].
  destruct (IH (fun s Hs => Hat s (list_elem_of_further _ _ _ Hs)) p1 (af_ContentHash a)) as (p2 & Hrun2 & Hrows2 & Hproj2).
  { by unfold facts in *; rewrite Hrows, Hproj. }
  { by rewrite Hrows. }
  exists p2. split; [done|]. split; congruence.
Qed.

End pool.
(** ** What is published *)

(** What the JSON decoder promises: an ASCII text is decoded as it was encoded. *)
Class PayloadLaws : Prop := {
  evaluation_decoded : forall x bytes hash e, MarshalAndHash (evaluation_json x) = Ok (bytes, hash) -> decode_evaluation bytes = Some e ->
    ascii_bytes (ea_State e) = true -> ea_State e = ea_State x;
  synthesis_decoded : forall x bytes hash y, MarshalAndHash (synthesisArtifact_json x) = Ok (bytes, hash) -> decode_synthesis bytes = Some y ->
    ascii_bytes (sr_Status (ya_Result y)) = true -> sr_Status (ya_Result y) = sr_Status (ya_Result x)
}.

(** The outcome of the source verifies success. *)
Definition verified_source (source : LoadedSource) : Prop :=
  exists o r, ls_Outcome source = Some o /\ Evidence.Evaluate (set_predicates DefaultOutcomePolicy (predicates (so_Evidence o))) (so_Evidence o) ∅ = Ok r /\
    er_State r = OutcomeStateVerifiedSuccess /\ so_State o = OutcomeStateVerifiedSuccess.

Lemma evaluate_source_verified source x status code : evaluate_source source = Ok (x, status, code) -> ea_State x = OutcomeStateVerifiedSuccess -> verified_source source.
Proof.
  unfold evaluate_source. destruct (ls_Outcome source) as [o|] eqn:Eo; [|by intros [= <- _ _]]. destruct (Evidence.Evaluate _ _ _) as [r|] eqn:Er; [|done].
  intros Hx. inv_Ok Hx. injection Hx as <- _ _. cbn [ea_State]. intros Hs. autorewrite with goboolsimpl in *. destruct_and!. exists o, r. split_and!; try done. congruence.
Qed.

Lemma synthesize_graph_verified config evaluated graph x : synthesize_graph config evaluated graph = Ok x -> sr_Status (ya_Result x) = StatusSynthesized ->
  ea_State evaluated = OutcomeStateVerifiedSuccess.
Proof.
  unfold synthesize_graph. destruct (Synthesis.Synthesize _) as [r|] eqn:Er; [|done]. intros [= <-] Hs. cbn [ya_Result] in Hs.
  destruct (Synthesize_inv _ _ Er Hs) as (nodes & R & I & F & Hsy). apply (sy_state _ _ _ _ _ _ Hsy).
Qed.

Lemma build_projection_status config now input source graph synthesized value : build_projection config now input source graph synthesized = Ok value ->
  mn_Status (pj_Manifest value) = sr_Status synthesized.
Proof.
  unfold build_projection. destruct (Projection.Build _) as [v|] eqn:Eb; [|done]. intros [= <-]. unfold Projection.Build in Eb. cbv zeta in Eb. cbn [pb_Synthesis] in Eb. inv_Ok Eb.
  assert (Hm : forall request version m, build_manifest request version = Ok m -> mn_Status m = sr_Status (pb_Synthesis request)).
  { intros request version m Hm. unfold build_manifest in Hm. inv_Ok Hm. by apply Ok_inj in Hm as <-. }
  destruct (String.eqb _ StatusSynthesized); inv_Ok Eb; apply Ok_inj in Eb as <-; cbn [pj_Manifest]; match goal with Hb : build_manifest _ _ = Ok _ |- _ => by rewrite (Hm _ _ _ Hb) end.
Qed.

Section published.
Context `{PayloadLaws}.

Lemma publication_verified config F a t w :
  all_computed config F -> ft_rows F !! (t, w, StagePublish) = Some a ->
  exists bl source now input graph x value m, ft_rows F !! (t, w, StageLoad) = Some bl /\ decode_source (af_Payload bl) = Some source /\
    build_projection config now input source graph x = Ok value /\ ft_manifests F !! mn_ID (pj_Manifest value) = Some m /\ mn_ContentHash m = mn_ContentHash (pj_Manifest value) /\
    (mn_Status (pj_Manifest value) = StatusSynthesized -> verified_source source).
Proof.
  intros Hi Ha. destruct (Hi _ _ Ha) as [Hk _ Hc]. injection Hk as Ht Hw Hs.
  destruct Hc as [? ? ? ? ? Hst|? ? ? ? Hst|? ? ? ? ? ? ? Hst|? ? ? ? ? ? Hst|bl bg bs source graph x now input value m d hash _ Hbl _ Hbs _ Hsource _ Hx _ _ Hval Hm Hmh _ _]; try (by rewrite Hs in Hst).
  unfold stored in *. rewrite Ht, Hw in *. exists bl, source, now, input, graph, (synthesized_of x), value, m. split_and!; try done. intros Hst.
  rewrite (build_projection_status _ _ _ _ _ _ _ Hval) in Hst. cbn [synthesized_of sr_Status] in Hst.
  destruct (Hi _ _ Hbs) as [Hks _ Hcs]. injection Hks as Hts Hws Hss.
  destruct Hcs as [? ? ? ? ? Hst'|? ? ? ? Hst'|? ? ? ? ? ? ? Hst'|be bg' evaluated graph' x' hash' _ Hbe _ _ Hev _ Hsyn Hmx|? ? ? ? ? ? ? ? ? ? ? ? Hst']; try (by rewrite Hss in Hst').
  unfold stored in *. rewrite Hts, Hws in *. rewrite (synthesis_decoded _ _ _ _ Hmx Hx) in Hst by (by rewrite Hst). pose proof (synthesize_graph_verified _ _ _ _ Hsyn Hst) as He.
  destruct (Hi _ _ Hbe) as [Hke _ Hce]. injection Hke as Hte Hwe Hse.
  destruct Hce as [? ? ? ? ? Hst'|bl' source' x'' hash'' _ Hbl' _ Hsource' Hevs Hmx'|? ? ? ? ? ? ? Hst'|? ? ? ? ? ? Hst'|? ? ? ? ? ? ? ? ? ? ? ? Hst']; try (by rewrite Hse in Hst').
  unfold stored in *. rewrite Hte, Hwe in *. rewrite (evaluation_decoded _ _ _ _ Hmx' Hev) in He by (by rewrite He). rewrite Hbl in Hbl'. injection Hbl' as <-.
  rewrite Hsource in Hsource'. injection Hsource' as <-. by eapply evaluate_source_verified.
Qed.
End published.

(** ** Traces without a task *)

(** C40: The graph stage takes the intent of a trace from its task, as it is, and the
    publication stage serves a task that is blank as the list of its tools.  The
    two are compared, so a procedure that was synthesized from a trace without a
    task is never published: the stage fails, and is not tried again, unless the
    digest of the two intents is the same. *)
Theorem blank_task_unpublishable (config : ProcessorConfig) (now : gotime) (input : SynthesisInput) (source : LoadedSource) (graph : graphArtifact) (synthesized : SynthesisResult) (bytes : string) :
  let trace := cb_Trace (ls_Batch source) in
  let stand_in := ("tools " ++ join " then " (List.map sp_ToolName (sr_Steps synthesized)) ++ " goals " ++ join " " (sr_GoalPredicates synthesized))%string in
  TrimSpace (tr_Task trace) = ""%string -> sr_Status synthesized = StatusSynthesized -> MarshalAndHash (intent_of trace) = Ok (bytes, ga_IntentHash graph) ->
  let e := ErrStage "projection_build_failed" false in
  build_projection config now input source graph synthesized = Err e /\ retryable e = false \/
  exists bytes', MarshalAndHash (intent_json stand_in (mk_Harness (tr_Harness trace) (tr_HarnessVersion trace))) = Ok (bytes', ga_IntentHash graph).
Proof.
  intros trace stand_in Hblank Hst Hin e. unfold build_projection. destruct (Projection.Build _) as [value|] eqn:Eb; [right|by left].
  unfold Projection.Build in Eb. cbv zeta in Eb. inv_Ok Eb. cbn [pb_Synthesis] in Eb. rewrite Hst in Eb. cbn [String.eqb] in Eb. rewrite String.eqb_refl in Eb. inv_Ok Eb.
  match goal with Hi : negb (intent_matches _) = false |- _ => rename Hi into Him end. apply negb_false_iff in Him. unfold intent_matches in Him. cbn [pb_Serving pb_IntentHash servingMetadata sm_TaskText sm_Harness] in Him.
  unfold serving_task in Him. fold trace in Him. rewrite Hblank in Him. cbn [String.eqb] in Him. fold stand_in in Him. unfold CanonicalIntentHash in Him.
  destruct (MarshalAndHash (intent_json stand_in _)) as [[bytes' hash]|] eqn:Em; [|done]. cbn [bind] in Him. apply String.eqb_eq in Him as <-. by exists bytes'.
Qed.
End sound.

(** ** A workflow that runs to its end *)
Section demo.
#[local] Existing Instance copy_nfc.
#[local] Existing Instance copy_jcs.
#[local] Existing Instance checksum_digest.

#[local] Instance copy_message : RawMessage := fun text => Some text.

(** A database that never fails. *)
#[local] Instance map_table : ArtifactTable (gmap artifact_key StageArtifact) := {|
  table_rows := fun db => db;
  table_select := fun db k => (Ok (db !! k), db);
  table_create := fun db a => match db !! key_of a with Some _ => (Err ErrDatabase, db) | None => (Ok tt, <[key_of a := a]> db) end
|}.

#[local] Instance map_table_laws : ArtifactTableLaws (gmap artifact_key StageArtifact).
Proof.
  split.
  - done.
  - intros db k row. cbn. by intros [= <-].
  - intros db a. cbn. destruct (db !! key_of a) eqn:E; [by left|by right].
  - intros db a. cbn. destruct (db !! key_of a); [done|]. intros _. cbn. by rewrite lookup_insert_eq.
Qed.

Definition ok_or {A} (d : A) (r : result A) : A := match r with Ok x => x | Err _ => d end.
Definition bytes_of (j : json) : string := fst (ok_or (""%string, ""%string) (MarshalAndHash j)).

Definition demo_config : ProcessorConfig := mk_ProcessorConfig Hour demo_versions "eu" true.
Definition demo_input : SynthesisInput :=
  mk_SynthesisInput "synthesis-input.v1" "tenant" "trace" "out_1" OutboxJobSynthesizeOutcome (checksum_hex "outcome").

Definition batch_with (task hash : string) : CanonicalBatch :=
  mk_CanonicalBatch (cb_SchemaVersion demo_batch) (cb_TenantID demo_batch) (mk_CanonicalTrace "trace" "" "harness" "" task []) (cb_Events demo_batch) hash "".

Definition demo_outcome : StoredOutcome :=
  mk_StoredOutcome "out_1" (checksum_hex "outcome") OutcomeStateVerifiedSuccess true "outcome-policy.v1" [demo_fact] (mk_time (63900000000 * Second) 0).

(** The source of a trace with the task, as it is loaded and as it is decoded. *)
Definition source_with (task hash : string) : LoadedSource :=
  mk_LoadedSource "loaded-source.v1" (batch_with task hash) (checksum_hex "archive") (Some demo_outcome).

Definition demo_env (task : string) : Env :=
  mk_Env (fun _ => None) (Ok (source_with task (checksum_hex "archive"))) demo_registry None (mk_time (63900000100 * Second) 0) (mk_time (63900000200 * Second) 0) false.

Definition no_evaluation : evaluationArtifact := mk_evaluationArtifact "" false "" None.
Definition no_graph : graphArtifact := mk_graphArtifact empty_graph "" [] [] [] "" "" "" "".
Definition no_synthesis : synthesisArtifact := mk_synthesisArtifact demo_result "".

(** What the stages build, one from the other. *)
Definition evaluated_with (task : string) : evaluationArtifact := fst (fst (ok_or (no_evaluation, "", "")%string (evaluate_source (source_with task "")))).
Definition graph_with (task : string) : graphArtifact := ok_or no_graph (build_graph demo_config (demo_env task) (source_with task "") (evaluated_with task)).
Definition wire_graph (g : graphArtifact) : graphArtifact :=
  mk_graphArtifact (graph_with_hash (ga_Graph g) "") (ga_GraphHash g) (ga_Goals g) (ga_RequiredEffects g) (ga_FailedBranches g) (ga_IntentHash g) (ga_EffectSignatureHash g)
    (ga_EnvironmentHash g) (ga_RegistryVersion g).
Definition synthesis_with (task : string) : synthesisArtifact := ok_or no_synthesis (synthesize_graph demo_config (evaluated_with task) (wire_graph (graph_with task))).

(** The payloads of the two traces of the demonstration, with and without a task. *)
Definition source_bytes : list string := Eval vm_compute in List.map (fun task => bytes_of (source_json (source_with task ""))) ["fix the test"; ""]%string.
Definition evaluation_bytes : string := Eval vm_compute in bytes_of (evaluation_json (evaluated_with "")).
Definition graph_bytes : list string := Eval vm_compute in List.map (fun task => bytes_of (graphArtifact_json (graph_with task))) ["fix the test"; ""]%string.
Definition synthesis_bytes : string := Eval vm_compute in bytes_of (synthesisArtifact_json (synthesis_with "")).
Definition demo_graphs : list graphArtifact := Eval vm_compute in List.map (fun task => wire_graph (graph_with task)) ["fix the test"; ""]%string.
Definition demo_evaluation : evaluationArtifact := Eval vm_compute in evaluated_with "".
Definition demo_synthesis : synthesisArtifact := Eval vm_compute in synthesis_with "".

(** Reads the payload whose bytes are listed. *)
Definition decode_listed {A} (known : list (string * A)) (bytes : string) : option A := snd <$> List.find (fun kv => String.eqb (fst kv) bytes) known.

#[local] Instance listed_decoder : PayloadDecoder := {|
  decode_source := decode_listed (zip source_bytes [source_with "fix the test" ""; source_with "" ""]);
  decode_evaluation := decode_listed [(evaluation_bytes, demo_evaluation)];
  decode_graph := decode_listed (zip graph_bytes demo_graphs);
  decode_synthesis := decode_listed [(synthesis_bytes, demo_synthesis)]
|}.

Definition demo_workflow : string := Eval vm_compute in workflow_of demo_input.
Definition demo_plant : Plant (gmap artifact_key StageArtifact) := mk_Plant ∅ NewProjectionRepository.
Definition demo_actions (task : string) : list action :=
  StartWorkflow (fun _ => [demo_env task]) demo_workflow demo_input :: replicate 50 (Advance 0).

Lemma str_app_cancel s t u : (s ++ t = s ++ u -> t = u)%string.
Proof. induction s as [|a s IH]; [done|]. intros He. injection He as He. by apply IH. Qed.

Lemma decode_listed_one {A} (k bytes : string) (v x : A) : decode_listed [(k, v)] bytes = Some x -> bytes = k /\ x = v.
Proof. unfold decode_listed. cbn [List.find fst]. destruct (String.eqb_spec k bytes) as [->|]; [|done]. by intros [= ->]. Qed.

Lemma marshalled j bytes hash : MarshalAndHash j = Ok (bytes, hash) -> marshal j = Some bytes.
Proof. unfold MarshalAndHash. destruct (marshal j) as [raw|]; [|done]. unfold jcs_transform, copy_jcs. intros Hm. injection Hm as ->. done. Qed.

#[local] Instance listed_laws : PayloadLaws.
Proof.
  split.
  - intros x bytes hash e Hm%marshalled [-> ->]%decode_listed_one _. apply marshal_first in Hm as (inner & rest & Hi & Hb). cbn in Hi. injection Hi as <-.
    assert (Hd : exists rest', evaluation_bytes = ("{" ++ quote "state" ++ ":" ++ quote OutcomeStateVerifiedSuccess ++ rest')%string) by (by eexists (str_drop 27 evaluation_bytes)).
    destruct Hd as [rest' Hd]. rewrite Hd in Hb. do 3 apply str_app_cancel in Hb. symmetry in Hb. by apply quote_plain in Hb as [-> _].
  - intros x bytes hash y Hm%marshalled [-> ->]%decode_listed_one _. apply marshal_first in Hm as (inner & rest & Hi & Hb). apply marshal_second in Hi as (rest1 & ->).
    assert (Hd : exists rest', synthesis_bytes = ("{" ++ quote "result" ++ ":" ++ ("{" ++ quote "schema_version" ++ ":" ++ quote "synthesis.v2" ++ "," ++ quote "status" ++ ":" ++ quote StatusSynthesized ++ rest'))%string)
      by (by eexists (str_drop 65 synthesis_bytes)).
    destruct Hd as [rest' Hd]. rewrite Hd in Hb. symmetry in Hb. rewrite <- !str_app_assoc in Hb. do 6 apply str_app_cancel in Hb. apply quote_plain in Hb as [_ Hb]; [|done].
    do 3 apply str_app_cancel in Hb. by apply quote_plain in Hb as [-> _].
Qed.

Definition published_key : artifact_key := ("tenant"%string, demo_workflow, StagePublish).
#[local] Notation demo_pool := (act_all demo_config (fresh demo_plant) (demo_actions "fix the test")).
Definition no_artifact : StageArtifact := mk_StageArtifact "" "" "" "" "" "" "" "" zero_time zero_time.
Definition published_artifact : StageArtifact := Eval vm_compute in default no_artifact (table_rows (pl_artifacts (po_plant demo_pool)) !! published_key).

Lemma demo_registered task : Forall registered (demo_actions task).
Proof. constructor; [done|]. by apply Forall_replicate. Qed.

Lemma artifacts_computed_witness : artifact_ok demo_config (facts (po_plant demo_pool)) published_key published_artifact.
Proof. apply (artifacts_computed demo_config demo_plant (demo_actions "fix the test") published_key published_artifact); [reflexivity|apply demo_registered|vm_compute; reflexivity]. Defined.


(** The projection of the demonstration is a procedure. *)
Example demo_procedure : List.map mn_Status (List.map snd (map_to_list (manifests (catalog (pl_projections (po_plant demo_pool)))))) = [StatusSynthesized].
Proof. vm_compute. reflexivity. Qed.

Definition no_pipeline : PipelineResult := mk_PipelineResult "" "" "" "" "" "".
Definition demo_returned : PipelineResult := Eval vm_compute in
  match po_flights demo_pool with [Workflow _ _ (Ret r)] => ok_or no_pipeline r | _ => no_pipeline end.

Lemma demo_finished : po_flights demo_pool !! 0%nat = Some (Workflow demo_workflow demo_input (Ret (Ok demo_returned))).
Proof. vm_compute. reflexivity. Qed.

(** An attempt of the first workflow that was given up goes on. *)
Definition straggler : list action :=
  [StartActivity (demo_env "fix the test") StageLoad (mk_StageRequest "stage-request.v1" demo_input StageLoad ""); Advance 1; Advance 1].


(** A trace without a task is ingested, evaluated and synthesized, and its
    publication fails for good. *)
Example blank_task_fails :
  po_flights (act_all demo_config (fresh demo_plant) (demo_actions "")) = [Workflow demo_workflow demo_input (Ret (Err (ErrStage "projection_build_failed" false)))].
Proof. vm_compute. reflexivity. Qed.

Lemma blank_task_unpublishable_witness :
  let synthesized := synthesized_of demo_synthesis in
  let e := ErrStage "projection_build_failed" false in
  build_projection demo_config zero_time demo_input (source_with "" "") (wire_graph (graph_with "")) synthesized = Err e /\ retryable e = false \/
  exists bytes', MarshalAndHash (intent_json ("tools " ++ join " then " (List.map sp_ToolName (sr_Steps synthesized)) ++ " goals " ++ join " " (sr_GoalPredicates synthesized))
    (mk_Harness "harness" "")) = Ok (bytes', ga_IntentHash (wire_graph (graph_with ""))).
Proof.
  apply (blank_task_unpublishable demo_config zero_time demo_input (source_with "" "") (wire_graph (graph_with "")) (synthesized_of demo_synthesis)
    (bytes_of (intent_of (cb_Trace (ls_Batch (source_with "" "")))))); [reflexivity|reflexivity|vm_compute; reflexivity].
Defined.
End demo.
