(* ===== verification/Outbox.v ===== *)
(** * The outbox and its relay (internal/store/outbox.go,
    internal/store/surreal/outbox.go, internal/workflow/relay.go, client.go,
    temporal.go)

    An accepted trace or outcome leaves a job in the table outbox_job.  A relay
    claims jobs with a lease, starts the workflow of each at the provider, and
    completes the job or releases it to a later attempt or to the dead letters.
    Many relays work on one table.

    A transaction on the table is one step: the statements are guarded updates of
    a row, and a transaction that does not commit changes nothing.  What the
    database answers to an attempt is an argument: a conflict, a failure, of which
    the commit may be applied all the same, or a transaction at a time of the
    database's clock.  The table has a unique index on the tenant and the
    workflow, which are its keys here.

    [outbox_fenced] is about every history of calls on the table; [relay_sound]
    about every interleaving of relays, including those that stop between two
    steps; [RunOnce_completes] about one pass of a relay.  [deadline_stops_relay]
    shows what a start that lasts as long as its lease leads to. *)

From Stdlib Require Import ZArith String Ascii List Bool Lia.
From stdpp Require Import base gmap strings list sorting.
From S2P Require Import Prelude GoStrings GoTime Canonical Ledger Pipeline.

Open Scope Z_scope.
Open Scope go_scope.

(** ** Requests (store/outbox.go) *)
Definition OutboxStatePending : string := "pending".
Definition OutboxStateLeased : string := "leased".
Definition OutboxStateCompleted : string := "completed".
Definition OutboxStateDeadLetter : string := "dead_letter".

Record ClaimOutboxRequest := mk_ClaimOutboxRequest { co_WorkerID : string; co_JobTypes : list string; co_Limit : Z; co_LeaseDuration : Z }.

Record OutboxLease := mk_OutboxLease {
  ol_TenantID : string;
  ol_WorkflowID : string;
  ol_TraceID : string;
  ol_OutcomeID : string;
  ol_JobType : string;
  ol_ContentHash : string;
  ol_AttemptCount : Z;
  ol_FencingToken : Z;
  ol_LeaseOwner : string;
  ol_LeaseExpiresAt : gotime
}.

Record ReleaseOutboxRequest := mk_ReleaseOutboxRequest {
  ro_TenantID : string;
  ro_WorkflowID : string;
  ro_WorkerID : string;
  ro_FencingToken : Z;
  ro_RetryDelay : Z;
  ro_ErrorCode : string;
  ro_DeadLetter : bool
}.

Record CompleteOutboxRequest := mk_CompleteOutboxRequest { cm_TenantID : string; cm_WorkflowID : string; cm_WorkerID : string; cm_FencingToken : Z }.

Definition known_job (jobType : string) : bool := String.eqb jobType OutboxJobSynthesizeTrace || String.eqb jobType OutboxJobSynthesizeOutcome.

Fixpoint job_types_ok (seen : gset string) (jobTypes : list string) : bool :=
  match jobTypes with
  | [] => true
  | jobType :: jobTypes => known_job jobType && negb (bool_decide (jobType ∈ seen)) && job_types_ok ({[ jobType ]} ∪ seen) jobTypes
  end.

Definition ValidateClaimOutbox (request : ClaimOutboxRequest) : result unit :=
  reject String.eqb (co_WorkerID request) "" || (co_Limit request <? 1) || (100 <? co_Limit request) || (co_LeaseDuration request <? Second) ||
         (15 * Minute <? co_LeaseDuration request) || (count (co_JobTypes request) =? 0) with ErrInvalidLeaseRequest;
  reject negb (job_types_ok ∅ (co_JobTypes request)) with ErrInvalidLeaseRequest;
  Ok tt.

Definition ValidateReleaseOutbox (request : ReleaseOutboxRequest) : result unit :=
  reject String.eqb (ro_TenantID request) "" || String.eqb (ro_WorkflowID request) "" || String.eqb (ro_WorkerID request) "" ||
         (ro_FencingToken request =? 0) || String.eqb (ro_ErrorCode request) "" || (ro_RetryDelay request <? 0) ||
         (24 * Hour <? ro_RetryDelay request) || (ro_DeadLetter request && negb (ro_RetryDelay request =? 0)) with ErrInvalidLeaseRequest;
  Ok tt.

Definition ValidateCompleteOutbox (request : CompleteOutboxRequest) : result unit :=
  reject String.eqb (cm_TenantID request) "" || String.eqb (cm_WorkflowID request) "" || String.eqb (cm_WorkerID request) "" ||
         (cm_FencingToken request =? 0) with ErrInvalidLeaseRequest;
  Ok tt.

(** ** The table (store/surreal/outbox.go) *)
Record outboxRow := mk_outboxRow {
  or_TenantID : string;
  or_WorkflowID : string;
  or_TraceID : string;
  or_OutcomeID : option string;
  or_JobType : string;
  or_State : string;
  or_ContentHash : string;
  or_AttemptCount : Z;
  or_LeaseOwner : option string;
  or_LeaseGeneration : Z;
  or_LeaseExpiresAt : option gotime;
  or_LastErrorCode : option string;
  or_AvailableAt : gotime;
  or_CreatedAt : gotime;
  or_CompletedAt : option gotime
}.

Notation Table := (gmap (string * string) outboxRow).

Definition row_key (row : outboxRow) : string * string := (or_TenantID row, or_WorkflowID row).

(** "[(state = pending AND available_at <= $now) OR (state = leased AND lease_expires_at != NONE AND lease_expires_at <= $now)]" *)
Definition claimable (now : gotime) (row : outboxRow) : bool :=
  (String.eqb (or_State row) OutboxStatePending && negb (After (or_AvailableAt row) now)) ||
  (String.eqb (or_State row) OutboxStateLeased && match or_LeaseExpiresAt row with Some expires => negb (After expires now) | None => false end).

(** "[ORDER BY available_at ASC, created_at ASC, workflow_id ASC]" *)
Definition row_cmp : outboxRow -> outboxRow -> comparison :=
  cmp_lex (cmp_on (fun row => t_ns (or_AvailableAt row)) Z.compare)
    (cmp_lex (cmp_on (fun row => t_ns (or_CreatedAt row)) Z.compare) (cmp_on or_WorkflowID String.compare)).

Definition claim_candidates (t : Table) (now : gotime) (request : ClaimOutboxRequest) : list outboxRow :=
  firstn (Z.to_nat (co_Limit request))
    (sort_slice (cmp_ltb row_cmp)
       (List.filter (fun row => existsb (String.eqb (or_JobType row)) (co_JobTypes request) && claimable now row) (List.map snd (map_to_list t)))).

(** "[UPDATE $id SET state = leased, ...]" *)
Definition leased_row (worker : string) (expires : gotime) (row : outboxRow) : outboxRow :=
  mk_outboxRow (or_TenantID row) (or_WorkflowID row) (or_TraceID row) (or_OutcomeID row) (or_JobType row) OutboxStateLeased (or_ContentHash row)
    (or_AttemptCount row + 1) (Some worker) (or_LeaseGeneration row + 1) (Some expires) (or_LastErrorCode row) (or_AvailableAt row) (or_CreatedAt row)
    (or_CompletedAt row).

Definition leaseFromRow (row : outboxRow) : OutboxLease :=
  mk_OutboxLease (or_TenantID row) (or_WorkflowID row) (or_TraceID row) (default "" (or_OutcomeID row)) (or_JobType row) (or_ContentHash row)
    (or_AttemptCount row) (wrap_u64 (or_LeaseGeneration row)) (default "" (or_LeaseOwner row)) (default zero_time (UTC <$> or_LeaseExpiresAt row)).

(** The loop over the candidates: each is updated if it is still claimable. *)
Fixpoint claim_rows (now : gotime) (worker : string) (expires : gotime) (t : Table) (candidates : list outboxRow) : list OutboxLease * Table :=
  match candidates with
  | [] => ([], t)
  | candidate :: candidates =>
      match t !! row_key candidate with
      | Some row =>
          if claimable now row then
            let updated := leased_row worker expires row in
            let '(leases, t) := claim_rows now worker expires (<[row_key candidate := updated]> t) candidates in (leaseFromRow updated :: leases, t)
          else claim_rows now worker expires t candidates
      | None => claim_rows now worker expires t candidates
      end
  end.

Definition claimOnce (now : gotime) (request : ClaimOutboxRequest) (t : Table) : list OutboxLease * Table :=
  claim_rows now (co_WorkerID request) (time_Add now (co_LeaseDuration request)) t (claim_candidates t now request).

(** What the database answers to an attempt: a conflict, with what the wait for
    the next attempt says; a failure, with the time of the transaction if its
    commit was applied before the connection failed; or a transaction. *)
Inductive attempt :=
| Conflict (wait : option goerr)
| Failure (err : goerr) (applied : option gotime)
| Transaction (now : gotime).

(** The retry loop of [ClaimOutbox] and of [transition]: [attempts n] is the answer to attempt [n]. *)
Fixpoint retrying {A} (remaining n : nat) (attempts : nat -> attempt) (once : gotime -> Table -> result A * Table) (t : Table) : result A * Table :=
  match remaining with
  | O => (Err ErrDatabase, t)
  | S remaining =>
      match attempts n with
      | Conflict (Some err) => (Err err, t)
      | Conflict None => retrying remaining (S n) attempts once t
      | Failure err None => (Err err, t)
      | Failure err (Some now) => (Err err, snd (once now t))
      | Transaction now => once now t
      end
  end.

Definition ClaimOutbox (ctx : option goerr) (attempts : nat -> attempt) (request : ClaimOutboxRequest) (t : Table) : result (list OutboxLease) * Table :=
  match ctx with
  | Some e => (Err e, t)
  | None =>
      match ValidateClaimOutbox request with
      | Err e => (Err e, t)
      | Ok _ => retrying 8 0 attempts (fun now t => let '(leases, t) := claimOnce now request t in (Ok leases, t)) t
      end
  end.

(** [transitionOnce]; [apply] gives the row to write, if it writes. *)
Definition transitionOnce (tenantID workflowID workerID : string) (fencingToken : Z) (apply : outboxRow -> gotime -> result (option outboxRow))
    (now : gotime) (t : Table) : result unit * Table :=
  match t !! (tenantID, workflowID) with
  | None => (Err ErrOutboxJobNotFound, t)
  | Some row =>
      if negb (or_LeaseGeneration row =? wrap_i64 fencingToken) || match or_LeaseOwner row with Some owner => negb (String.eqb owner workerID) | None => true end ||
         negb (existsb (String.eqb (or_State row)) [OutboxStateLeased; OutboxStateCompleted; OutboxStatePending; OutboxStateDeadLetter])
      then (Err ErrStaleLease, t)
      else if String.eqb (or_State row) OutboxStateLeased && match or_LeaseExpiresAt row with Some expires => negb (After expires now) | None => true end
      then (Err ErrStaleLease, t)
      else
        match apply row now with
        | Err e => (Err e, t)
        | Ok None => (Ok tt, t)
        | Ok (Some row) => (Ok tt, <[(tenantID, workflowID) := row]> t)
        end
  end.

Definition transition (ctx : option goerr) (attempts : nat -> attempt) (tenantID workflowID workerID : string) (fencingToken : Z)
    (apply : outboxRow -> gotime -> result (option outboxRow)) (t : Table) : result unit * Table :=
  match ctx with
  | Some e => (Err e, t)
  | None => retrying 8 0 attempts (transitionOnce tenantID workflowID workerID fencingToken apply) t
  end.

(** The rows that the guarded updates write. *)
Definition completed_row (now : gotime) (row : outboxRow) : outboxRow :=
  mk_outboxRow (or_TenantID row) (or_WorkflowID row) (or_TraceID row) (or_OutcomeID row) (or_JobType row) OutboxStateCompleted (or_ContentHash row)
    (or_AttemptCount row) (or_LeaseOwner row) (or_LeaseGeneration row) None (or_LastErrorCode row) (or_AvailableAt row) (or_CreatedAt row) (Some now).

Definition released_row (state : string) (available : gotime) (code : string) (row : outboxRow) : outboxRow :=
  mk_outboxRow (or_TenantID row) (or_WorkflowID row) (or_TraceID row) (or_OutcomeID row) (or_JobType row) state (or_ContentHash row)
    (or_AttemptCount row) (or_LeaseOwner row) (or_LeaseGeneration row) None (Some code) available (or_CreatedAt row) (or_CompletedAt row).

(** "[WHERE state = leased AND lease_owner = $worker_id AND lease_generation = $generation]" *)
Definition holds_lease (workerID : string) (fencingToken : Z) (row : outboxRow) : bool :=
  String.eqb (or_State row) OutboxStateLeased && match or_LeaseOwner row with Some owner => String.eqb owner workerID | None => false end &&
  (or_LeaseGeneration row =? wrap_i64 fencingToken).

Definition CompleteOutbox (ctx : option goerr) (attempts : nat -> attempt) (request : CompleteOutboxRequest) (t : Table) : result unit * Table :=
  match ValidateCompleteOutbox request with
  | Err e => (Err e, t)
  | Ok _ =>
      transition ctx attempts (cm_TenantID request) (cm_WorkflowID request) (cm_WorkerID request) (cm_FencingToken request)
        (fun row now =>
           if String.eqb (or_State row) OutboxStateCompleted then Ok None
           else if negb (String.eqb (or_State row) OutboxStateLeased) then Err ErrStaleLease
           else if holds_lease (cm_WorkerID request) (cm_FencingToken request) row then Ok (Some (completed_row now row)) else Err ErrStaleLease) t
  end.

Definition ReleaseOutbox (ctx : option goerr) (attempts : nat -> attempt) (request : ReleaseOutboxRequest) (t : Table) : result unit * Table :=
  match ValidateReleaseOutbox request with
  | Err e => (Err e, t)
  | Ok _ =>
      transition ctx attempts (ro_TenantID request) (ro_WorkflowID request) (ro_WorkerID request) (ro_FencingToken request)
        (fun row now =>
           let target := if ro_DeadLetter request then OutboxStateDeadLetter else OutboxStatePending in
           if String.eqb (or_State row) target then Ok None
           else if negb (String.eqb (or_State row) OutboxStateLeased) then Err ErrStaleLease
           else if holds_lease (ro_WorkerID request) (ro_FencingToken request) row
           then Ok (Some (released_row target (time_Add now (ro_RetryDelay request)) (ro_ErrorCode request) row)) else Err ErrStaleLease) t
  end.

(** The row that [createOutbox] of the ingest and outcome stores writes, in
    their transaction; the unique index refuses a second one. *)
Definition new_job (tenantID workflowID traceID : string) (outcomeID : option string) (jobType contentHash : string) (createdAt : gotime) : outboxRow :=
  mk_outboxRow tenantID workflowID traceID outcomeID jobType OutboxStatePending contentHash 0 None 0 None None createdAt createdAt None.

Definition createOutbox (row : outboxRow) (t : Table) : result unit * Table :=
  match t !! row_key row with Some _ => (Err ErrDatabase, t) | None => (Ok tt, <[row_key row := row]> t) end.

(** ** The provider (temporal.go, client.go) *)
Definition RequestFromLease `{Digest} (lease : OutboxLease) : result StartRequest :=
  let request := mk_StartRequest (ol_WorkflowID lease)
    (mk_SynthesisInput "synthesis-input.v1" (ol_TenantID lease) (ol_TraceID lease) (ol_OutcomeID lease) (ol_JobType lease) (ol_ContentHash lease)) in
  let* _ := ValidateStartRequest request in
  Ok request.

(** The answer of [ExecuteWorkflow]; a failure is classified by [errors.Is] or by its status code. *)
Inductive provider_answer :=
| PvStarted
| PvAlreadyStarted
| PvDeadline
| PvCanceled
| PvStatus (code : string).

(** What the relay asks of an error of [Start]. *)
Inductive start_error :=
| ProviderError (code : string) (retryable : bool)
| StartDeadlineExceeded
| StartCanceled
| StartRejected.

Definition retryable_code (code : string) : bool :=
  existsb (String.eqb code) ["Unavailable"; "ResourceExhausted"; "DeadlineExceeded"; "Aborted"; "Internal"].

Definition classifyProviderError (answer : provider_answer) : option start_error :=
  match answer with
  | PvStarted | PvAlreadyStarted => None
  | PvDeadline => Some (ProviderError "DeadlineExceeded" true)
  | PvCanceled => Some (ProviderError "Canceled" false)
  | PvStatus code => Some (ProviderError code (retryable_code code))
  end.

(** What [errors.Is] finds in an error of the context. *)
Definition context_error (err : goerr) : start_error :=
  match err with CtxDeadlineExceeded => StartDeadlineExceeded | CtxCanceled => StartCanceled | _ => StartRejected end.

(** [TemporalStarter.Start]; [ctx] is [ctx.Err()]. *)
Definition Start `{Digest} (ctx : option goerr) (request : StartRequest) (answer : provider_answer) : option start_error :=
  match ctx with
  | Some err => Some (context_error err)
  | None => if failed (ValidateStartRequest request) then Some StartRejected else classifyProviderError answer
  end.

(** ** The relay (relay.go) *)
Record RelayConfig := mk_RelayConfig {
  rl_WorkerID : string;
  rl_BatchSize : Z;
  rl_LeaseDuration : Z;
  rl_PollInterval : Z;
  rl_MaximumAttempts : Z;
  rl_MaximumBackoff : Z
}.

Definition NewRelay (config : RelayConfig) : result RelayConfig :=
  reject String.eqb (rl_WorkerID config) "" || (rl_BatchSize config <? 1) || (100 <? rl_BatchSize config) || (rl_LeaseDuration config <? Second) ||
         (rl_PollInterval config <=? 0) || (rl_MaximumAttempts config <? 1) || (rl_MaximumBackoff config <? Second) with ErrInvalidStartRequest;
  Ok config.

Definition claim_request (config : RelayConfig) : ClaimOutboxRequest :=
  mk_ClaimOutboxRequest (rl_WorkerID config) [OutboxJobSynthesizeTrace; OutboxJobSynthesizeOutcome] (rl_BatchSize config) (rl_LeaseDuration config).

Definition dispatchError (err : start_error) : bool * string :=
  match err with
  | ProviderError code retryable => (retryable, ("temporal_" ++ code)%string)
  | StartDeadlineExceeded => (true, "dispatch_deadline")
  | StartCanceled => (true, "dispatch_canceled")
  | StartRejected => (false, "invalid_dispatch")
  end.

(** The first half of [dispatch]: [None] is a start, or a workflow that exists. *)
Definition start_lease `{Digest} (lease : OutboxLease) (ctx : option goerr) (answer : provider_answer) : option start_error :=
  match RequestFromLease lease with Err _ => Some StartRejected | Ok request => Start ctx request answer end.

(** "[min(time.Second<<min(lease.AttemptCount-1, 20), r.config.MaximumBackoff)]"; a lease counts its own attempt. *)
Definition retry_delay (config : RelayConfig) (attemptCount : Z) : Z := Z.min (Z.shiftl Second (Z.min (attemptCount - 1) 20)) (rl_MaximumBackoff config).

Definition complete_of (lease : OutboxLease) : CompleteOutboxRequest :=
  mk_CompleteOutboxRequest (ol_TenantID lease) (ol_WorkflowID lease) (ol_LeaseOwner lease) (ol_FencingToken lease).

Definition release_of (config : RelayConfig) (lease : OutboxLease) (err : start_error) : ReleaseOutboxRequest :=
  let '(retryable, code) := dispatchError err in
  let deadLetter := negb retryable || (rl_MaximumAttempts config <=? ol_AttemptCount lease) in
  mk_ReleaseOutboxRequest (ol_TenantID lease) (ol_WorkflowID lease) (ol_LeaseOwner lease) (ol_FencingToken lease)
    (if deadLetter then 0 else retry_delay config (ol_AttemptCount lease)) code deadLetter.

(** The second half of [dispatch]. *)
Definition finish_lease (config : RelayConfig) (lease : OutboxLease) (outcome : option start_error) (ctx : option goerr) (attempts : nat -> attempt) (t : Table)
    : result unit * Table :=
  match outcome with
  | None => CompleteOutbox ctx attempts (complete_of lease) t
  | Some err => ReleaseOutbox ctx attempts (release_of config lease err) t
  end.

(** What one goroutine of [RunOnce] meets. *)
Record dispatch_events := mk_dispatch_events {
  de_start : option goerr;
  de_answer : provider_answer;
  de_finish : option goerr;
  de_attempts : nat -> attempt
}.

Definition dispatch `{Digest} (config : RelayConfig) (lease : OutboxLease) (events : dispatch_events) (t : Table) : result unit * Table :=
  finish_lease config lease (start_lease lease (de_start events) (de_answer events)) (de_finish events) (de_attempts events) t.

(** The goroutines of a pass, in the order in which their transactions run: the
    number of leases that were handled, the failures, and the table. *)
Fixpoint dispatch_all `{Digest} (config : RelayConfig) (t : Table) (batch : list (OutboxLease * dispatch_events)) : Z * list goerr * Table :=
  match batch with
  | [] => (0, [], t)
  | (lease, events) :: batch =>
      let '(handled, t) := dispatch config lease events t in
      let '(processed, failures, t) := dispatch_all config t batch in
      match handled with Ok _ => (processed + 1, failures, t) | Err e => (processed, e :: failures, t) end
  end.

(** [schedule] pairs every lease with what its goroutine meets, in some order. *)
Definition RunOnce `{Digest} (config : RelayConfig) (ctx : option goerr) (attempts : nat -> attempt) (schedule : list OutboxLease -> list (OutboxLease * dispatch_events))
    (t : Table) : result (Z * list goerr) * Table :=
  match ClaimOutbox ctx attempts (claim_request config) t with
  | (Err e, t) => (Err e, t)
  | (Ok leases, t) => let '(processed, failures, t) := dispatch_all config t (schedule leases) in (Ok (processed, failures), t)
  end.

Definition is_canceled (e : goerr) : bool := match e with CtxCanceled => true | _ => false end.

(** [Run] returns after a pass whose error is not a cancellation; [errors.Is] on joined errors asks each. *)
Definition run_returns (pass : result (Z * list goerr)) : bool :=
  match pass with
  | Err e => negb (is_canceled e)
  | Ok (_, failures) => negb (count failures =? 0) && negb (existsb is_canceled failures)
  end.

(** ** How rows move *)
Definition keyed (t : Table) : Prop := map_Forall (fun k row => row_key row = k) t.

(** A row after a statement: unchanged, leased, or finished by the holder of its lease. *)
Inductive moved (row : outboxRow) : outboxRow -> Prop :=
| moved_same : moved row row
| moved_leased worker expires :
    (exists now, claimable now row = true) -> moved row (leased_row worker expires row)
| moved_completed now worker token :
    holds_lease worker token row = true -> moved row (completed_row now row)
| moved_released (dead : bool) available code worker token :
    holds_lease worker token row = true -> moved row (released_row (if dead then OutboxStateDeadLetter else OutboxStatePending) available code row).

Lemma moved_key row row' : moved row row' -> row_key row' = row_key row.
Proof. by intros []. Qed.

(** What a call may do to a table: rows move, and none appears or vanishes. *)
Definition rows_move (t t' : Table) : Prop := forall k, option_relation moved (fun _ => False) (fun _ => False) (t !! k) (t' !! k).

Lemma rows_move_refl t : rows_move t t.
Proof. intros k. destruct (t !! k); simpl; [constructor|done]. Qed.

Lemma rows_move_insert t k row row' : t !! k = Some row -> moved row row' -> rows_move t (<[k := row']> t).
Proof.
  intros Hk Hm k'. destruct (decide (k' = k)) as [->|Hne]; [by rewrite Hk, lookup_insert_eq|]. rewrite lookup_insert_ne by done. apply rows_move_refl.
Qed.

Lemma rows_move_keyed t t' : rows_move t t' -> keyed t -> keyed t'.
Proof.
  intros Hm Hk k row' Hr. specialize (Hm k). rewrite Hr in Hm. destruct (t !! k) as [row|] eqn:Et; [|done]. rewrite (moved_key _ _ Hm). by apply Hk.
Qed.

(** ** Claims *)
Lemma claim_rows_spec now worker expires t candidates :
  NoDup (List.map row_key candidates) ->
  let '(leases, t') := claim_rows now worker expires t candidates in
  (forall k, t' !! k = (fun row => if bool_decide (k ∈ List.map row_key candidates) && claimable now row then leased_row worker expires row else row) <$> t !! k) /\
  leases = omap (fun c => row ← t !! row_key c; if claimable now row then Some (leaseFromRow (leased_row worker expires row)) else None) candidates.
Proof.
  revert t. induction candidates as [|c candidates IH]; intros t Hn; [split; [|done]; intros k; by destruct (t !! k)|]. cbn [List.map] in Hn.
  apply NoDup_cons in Hn as [Hc Hn]. cbn [claim_rows omap list_omap].
  assert (Hother : forall k (row : outboxRow), k <> row_key c ->
    bool_decide (k ∈ List.map row_key (c :: candidates)) && claimable now row = bool_decide (k ∈ List.map row_key candidates) && claimable now row).
  { intros k row Hne. f_equal. apply bool_decide_ext. cbn [List.map]. rewrite elem_of_cons. tauto. }
  destruct (t !! row_key c) as [row|] eqn:Er; [destruct (claimable now row) eqn:Ec|]; cbn [mbind option_bind].
  - specialize (IH (<[row_key c := leased_row worker expires row]> t) Hn). destruct (claim_rows _ _ _ _ _) as [leases t']. destruct IH as [Ht ->]. rewrite Ec. split.
    + intros k. rewrite Ht. destruct (decide (k = row_key c)) as [->|Hne].
      * rewrite lookup_insert_eq, Er. cbn [fmap option_fmap option_map List.map]. rewrite (bool_decide_eq_false_2 _ Hc), Ec, bool_decide_eq_true_2 by left. done.
      * rewrite lookup_insert_ne by done. destruct (t !! k) as [row'|]; [|done]. cbn [fmap option_fmap option_map]. by rewrite Hother.
    + f_equal. apply omap_ext_on. intros c' Hc'. rewrite lookup_insert_ne; [done|]. intros He. apply Hc. rewrite He. by apply list_elem_of_In, in_map, list_elem_of_In.
  - specialize (IH t Hn). destruct (claim_rows _ _ _ _ _) as [leases t']. destruct IH as [Ht ->]. rewrite Ec. split; [|done].
    intros k. rewrite Ht. destruct (decide (k = row_key c)) as [->|Hne].
    + rewrite Er. cbn [fmap option_fmap option_map]. by rewrite Ec, !andb_false_r.
    + destruct (t !! k) as [row'|]; [|done]. cbn [fmap option_fmap option_map]. by rewrite Hother.
  - specialize (IH t Hn). destruct (claim_rows _ _ _ _ _) as [leases t']. destruct IH as [Ht ->]. split; [|done].
    intros k. rewrite Ht. destruct (decide (k = row_key c)) as [->|Hne]; [by rewrite Er|]. destruct (t !! k) as [row'|]; [|done].
    cbn [fmap option_fmap option_map]. by rewrite Hother.
Qed.

Lemma candidates_spec t now request :
  keyed t -> NoDup (List.map row_key (claim_candidates t now request)) /\
  forall c, c ∈ claim_candidates t now request -> t !! row_key c = Some c /\ claimable now c = true.
Proof.
  intros Hk. assert (Hkeys : List.map row_key (List.map snd (map_to_list t)) = List.map fst (map_to_list t)).
  { rewrite map_map. apply map_ext_in. intros [k row] Hin. apply (Hk k row). by apply elem_of_map_to_list, list_elem_of_In. }
  unfold claim_candidates. set (rows := List.map snd (map_to_list t)) in *. split.
  - rewrite <- firstn_map. eapply sublist_NoDup; [|apply sublist_take]. rewrite (Permutation_map row_key (sort_slice_perm _ _)).
    apply NoDup_map_filter. rewrite Hkeys. apply NoDup_fst_map_to_list.
  - intros c Hc. apply elem_of_take in Hc as (i & Hc & _). apply list_elem_of_lookup_2, sort_slice_elem, elem_of_List_filter in Hc as [Hp Hc].
    autorewrite with goboolsimpl in Hp. split; [|tauto]. apply list_elem_of_In, in_map_iff in Hc as ([k row] & <- & Hin). cbn [snd].
    apply list_elem_of_In, elem_of_map_to_list in Hin. by rewrite (Hk k row Hin).
Qed.

(** A claim leases its candidates, one lease for each, and nothing else. *)
Lemma claimOnce_spec t now request :
  keyed t ->
  let expires := time_Add now (co_LeaseDuration request) in
  let '(leases, t') := claimOnce now request t in
  leases = List.map (fun c => leaseFromRow (leased_row (co_WorkerID request) expires c)) (claim_candidates t now request) /\
  forall k, t' !! k = (fun row => if bool_decide (k ∈ List.map row_key (claim_candidates t now request)) then leased_row (co_WorkerID request) expires row else row) <$> t !! k.
Proof.
  intros Hk expires. destruct (candidates_spec t now request Hk) as [Hn Hc]. unfold claimOnce.
  pose proof (claim_rows_spec now (co_WorkerID request) expires t _ Hn) as Hs. fold expires. destruct (claim_rows _ _ _ _ _) as [leases t']. destruct Hs as [Ht ->]. split.
  - clear Hn Ht. induction (claim_candidates t now request) as [|c cs IH]; [done|]. cbn [omap list_omap List.map]. destruct (Hc c) as [-> Hcl]; [left|].
    cbn [mbind option_bind]. rewrite Hcl. f_equal. apply IH. intros c' Hc'. apply Hc. by right.
  - intros k. rewrite Ht. destruct (t !! k) as [row|] eqn:Er; [|done]. cbn [fmap option_fmap option_map]. f_equal.
    destruct (bool_decide (k ∈ _)) eqn:Eb; [|done]. apply bool_decide_eq_true, list_elem_of_In, in_map_iff in Eb as (c & <- & Hin).
    apply list_elem_of_In, Hc in Hin as [Hin Hcl]. rewrite Hin in Er. injection Er as ->. by rewrite Hcl.
Qed.

(** ** Calls *)

(** A loop of attempts answers with an error and the table, or as one transaction does. *)
Lemma retrying_spec {A} (once : gotime -> Table -> result A * Table) remaining n attempts t :
  let '(r, t') := retrying remaining n attempts once t in
  (is_ok r = false /\ t' = t) \/ exists now, t' = snd (once now t) /\ (r = fst (once now t) \/ is_ok r = false).
Proof.
  revert n. induction remaining as [|remaining IH]; intros n; cbn [retrying]; [by left|].
  destruct (attempts n) as [[e|]|e [now|]|now]; [by left|apply IH|right; exists now; by auto|by left|].
  destruct (once now t) as [r t'] eqn:E. right. exists now. rewrite E. auto.
Qed.

Lemma transitionOnce_spec tenantID workflowID workerID token apply now t :
  let '(r, t') := transitionOnce tenantID workflowID workerID token apply now t in
  t' = t \/ exists row row', r = Ok tt /\ t !! (tenantID, workflowID) = Some row /\ apply row now = Ok (Some row') /\ t' = <[(tenantID, workflowID) := row']> t.
Proof.
  unfold transitionOnce. destruct (t !! _) as [row|] eqn:Er; [|by left]. destruct (_ || _); [by left|]. destruct (_ && _); [by left|].
  destruct (apply row now) as [[row'|]|] eqn:Ea; [right|by left..]. by exists row, row'.
Qed.

Lemma CompleteOutbox_spec ctx attempts request t :
  let '(r, t') := CompleteOutbox ctx attempts request t in
  t' = t \/ exists row now, t !! (cm_TenantID request, cm_WorkflowID request) = Some row /\ holds_lease (cm_WorkerID request) (cm_FencingToken request) row = true /\
    t' = <[(cm_TenantID request, cm_WorkflowID request) := completed_row now row]> t.
Proof.
  unfold CompleteOutbox. destruct (ValidateCompleteOutbox request); [|by left]. unfold transition. destruct ctx; [by left|].
  pose proof (retrying_spec (transitionOnce (cm_TenantID request) (cm_WorkflowID request) (cm_WorkerID request) (cm_FencingToken request)
    (fun row now => if String.eqb (or_State row) OutboxStateCompleted then Ok None else if negb (String.eqb (or_State row) OutboxStateLeased) then Err ErrStaleLease
       else if holds_lease (cm_WorkerID request) (cm_FencingToken request) row then Ok (Some (completed_row now row)) else Err ErrStaleLease)) 8 0 attempts t) as Hr.
  destruct (retrying _ _ _ _ _) as [r t']. destruct Hr as [[_ ->]|(now & -> & _)]; [by left|].
  match goal with |- context [transitionOnce ?a ?b ?c ?d ?f now t] => pose proof (transitionOnce_spec a b c d f now t) as Hs; destruct (transitionOnce a b c d f now t) as [r' t'] end.
  destruct Hs as [->|(row & row' & _ & Hrow & Ha & ->)]; [by left|right]. exists row, now. split; [done|]. destruct (String.eqb _ OutboxStateCompleted); [done|].
  destruct (negb _); [done|]. destruct (holds_lease _ _ row); [|done]. by injection Ha as <-.
Qed.

Lemma ReleaseOutbox_spec ctx attempts request t :
  let '(r, t') := ReleaseOutbox ctx attempts request t in
  let target := if ro_DeadLetter request then OutboxStateDeadLetter else OutboxStatePending in
  t' = t \/ exists row now, t !! (ro_TenantID request, ro_WorkflowID request) = Some row /\ holds_lease (ro_WorkerID request) (ro_FencingToken request) row = true /\
    t' = <[(ro_TenantID request, ro_WorkflowID request) := released_row target (time_Add now (ro_RetryDelay request)) (ro_ErrorCode request) row]> t.
Proof.
  unfold ReleaseOutbox. destruct (ValidateReleaseOutbox request); [|by left]. unfold transition. destruct ctx; [by left|].
  match goal with |- context [retrying 8 0 attempts ?f t] => pose proof (retrying_spec f 8 0 attempts t) as Hr; destruct (retrying 8 0 attempts f t) as [r t'] end.
  destruct Hr as [[_ ->]|(now & -> & _)]; [by left|].
  match goal with |- context [transitionOnce ?a ?b ?c ?d ?f now t] => pose proof (transitionOnce_spec a b c d f now t) as Hs; destruct (transitionOnce a b c d f now t) as [r' t'] end.
  destruct Hs as [->|(row & row' & _ & Hrow & Ha & ->)]; [by left|right]. exists row, now. split; [done|].
  destruct (String.eqb (or_State row) _); [done|]. destruct (negb _); [done|]. destruct (holds_lease _ _ row); [|done]. by injection Ha as <-.
Qed.

Lemma ClaimOutbox_spec ctx attempts request t :
  let '(r, t') := ClaimOutbox ctx attempts request t in
  (is_ok r = false /\ t' = t) \/ exists now, t' = snd (claimOnce now request t) /\ forall leases, r = Ok leases -> leases = fst (claimOnce now request t).
Proof.
  unfold ClaimOutbox. destruct ctx; [by left|]. destruct (ValidateClaimOutbox request); [|by left].
  match goal with |- context [retrying 8 0 attempts ?f t] => pose proof (retrying_spec f 8 0 attempts t) as Hr; destruct (retrying 8 0 attempts f t) as [r t'] end.
  destruct Hr as [Hr|(now & -> & Hr)]; [by left|right]. exists now. destruct (claimOnce now request t) as [leases0 t0]. cbn [fst snd] in *. split; [done|].
  intros leases ->. destruct Hr as [[= ->]|]; done.
Qed.

(** Tables as they grow: rows move, and new jobs appear. *)
Inductive Op :=
| OpCreate (tenantID workflowID traceID : string) (outcomeID : option string) (jobType contentHash : string) (createdAt : gotime)
| OpClaim (ctx : option goerr) (attempts : nat -> attempt) (request : ClaimOutboxRequest)
| OpComplete (ctx : option goerr) (attempts : nat -> attempt) (request : CompleteOutboxRequest)
| OpRelease (ctx : option goerr) (attempts : nat -> attempt) (request : ReleaseOutboxRequest).

Definition apply_op (t : Table) (op : Op) : Table :=
  match op with
  | OpCreate tenantID workflowID traceID outcomeID jobType contentHash createdAt =>
      snd (createOutbox (new_job tenantID workflowID traceID outcomeID jobType contentHash createdAt) t)
  | OpClaim ctx attempts request => snd (ClaimOutbox ctx attempts request t)
  | OpComplete ctx attempts request => snd (CompleteOutbox ctx attempts request t)
  | OpRelease ctx attempts request => snd (ReleaseOutbox ctx attempts request t)
  end.

Definition run (t : Table) (ops : list Op) : Table := foldl apply_op t ops.

(** The leases a call hands out. *)
Definition op_leases (t : Table) (op : Op) : list OutboxLease :=
  match op with OpClaim ctx attempts request => match fst (ClaimOutbox ctx attempts request t) with Ok leases => leases | Err _ => [] end | _ => [] end.


Lemma claim_moves ctx attempts request t : keyed t -> rows_move t (snd (ClaimOutbox ctx attempts request t)).
Proof.
  intros Hk. pose proof (ClaimOutbox_spec ctx attempts request t) as Hs. destruct (ClaimOutbox _ _ _ _) as [r t']. cbn [snd].
  destruct Hs as [[_ ->]|(now & -> & _)]; [apply rows_move_refl|]. pose proof (claimOnce_spec t now request Hk) as Hc. cbv zeta in Hc.
  destruct (candidates_spec t now request Hk) as [_ Hcand]. destruct (claimOnce now request t) as [leases t']. destruct Hc as [_ Ht]. intros k. cbn [snd]. rewrite Ht.
  destruct (t !! k) as [row|] eqn:Er; [|done]. cbn [fmap option_fmap option_map option_relation]. destruct (bool_decide _) eqn:Eb; [|constructor].
  apply bool_decide_eq_true, list_elem_of_In, in_map_iff in Eb as (c & <- & Hin). apply list_elem_of_In, Hcand in Hin as [Hin Hcl]. rewrite Hin in Er.
  injection Er as ->. constructor. by exists now.
Qed.

Lemma complete_moves ctx attempts request t : rows_move t (snd (CompleteOutbox ctx attempts request t)).
Proof.
  pose proof (CompleteOutbox_spec ctx attempts request t) as Hs. destruct (CompleteOutbox _ _ _ _) as [r t']. cbn [snd].
  destruct Hs as [->|(row & now & Hrow & Hh & ->)]; [apply rows_move_refl|]. eapply rows_move_insert; [done|by econstructor].
Qed.

Lemma release_moves ctx attempts request t : rows_move t (snd (ReleaseOutbox ctx attempts request t)).
Proof.
  pose proof (ReleaseOutbox_spec ctx attempts request t) as Hs. destruct (ReleaseOutbox _ _ _ _) as [r t']. cbn [snd].
  destruct Hs as [->|(row & now & Hrow & Hh & ->)]; [apply rows_move_refl|]. eapply rows_move_insert; [done|by econstructor].
Qed.

(** A call keeps the rows of a table but for their moves. *)
Lemma apply_op_moves t op k row : keyed t -> t !! k = Some row -> exists row', apply_op t op !! k = Some row' /\ moved row row'.
Proof.
  intros Hk Hr. assert (Hgo : forall t', rows_move t t' -> exists row', t' !! k = Some row' /\ moved row row').
  { intros t' Hm. specialize (Hm k). rewrite Hr in Hm. destruct (t' !! k) as [row'|]; [by exists row'|done]. }
  destruct op as [tenantID workflowID traceID outcomeID jobType contentHash createdAt|ctx attempts request|ctx attempts request|ctx attempts request]; cbn [apply_op].
  - unfold createOutbox. destruct (t !! row_key _) eqn:Ec; cbn [snd]; [apply Hgo, rows_move_refl|]. exists row. split; [|constructor].
    rewrite lookup_insert_ne; [done|]. intros He. rewrite He in Ec. congruence.
  - by apply Hgo, claim_moves.
  - apply Hgo, complete_moves.
  - apply Hgo, release_moves.
Qed.

(** ** Invariants *)
Definition finished (row : outboxRow) : bool := String.eqb (or_State row) OutboxStateCompleted || String.eqb (or_State row) OutboxStateDeadLetter.

(** An open job can be claimed from some time on: it waits, or its lease ends. *)
Definition open_row (row : outboxRow) : Prop :=
  or_State row = OutboxStatePending \/ (or_State row = OutboxStateLeased /\ is_Some (or_LeaseExpiresAt row)).

(** After at most [n] calls: a job counts its leases, and it is open or finished. *)
Record row_ok (n : Z) (row : outboxRow) : Prop := mk_row_ok {
  ok_generation : 0 <= or_LeaseGeneration row <= n;
  ok_attempts : or_AttemptCount row = or_LeaseGeneration row;
  ok_state : open_row row \/ finished row = true
}.

Definition table_ok (n : Z) (t : Table) : Prop := keyed t /\ map_Forall (fun _ => row_ok n) t.

Lemma holds_leased worker token row : holds_lease worker token row = true -> or_State row = OutboxStateLeased /\ or_LeaseGeneration row = wrap_i64 token.
Proof. unfold holds_lease. autorewrite with goboolsimpl. tauto. Qed.

Lemma claimable_open now row : claimable now row = true -> open_row row.
Proof.
  unfold claimable, open_row. rewrite orb_true_iff, !andb_true_iff, !String.eqb_eq. intros [[? _]|[? He]]; [by left|right].
  by destruct (or_LeaseExpiresAt row).
Qed.

Lemma open_claimable row : open_row row -> exists from, forall now, from <= t_ns now -> claimable now row = true.
Proof.
  unfold claimable, After. intros [Hs|[Hs [expires He]]].
  - exists (t_ns (or_AvailableAt row)). intros now Hle. rewrite Hs, (proj2 (Z.ltb_ge _ _)) by done. done.
  - exists (t_ns expires). intros now Hle. rewrite Hs, He, (proj2 (Z.ltb_ge (t_ns now) (t_ns expires))) by done. done.
Qed.

Lemma open_unfinished row : open_row row -> finished row = false.
Proof. by intros [Hs|[Hs _]]; unfold finished; rewrite Hs. Qed.

Lemma moved_finished row row' : moved row row' -> finished row = true -> row' = row.
Proof.
  intros [|worker expires [now Hc]|now worker token Hh|dead available code worker token Hh] Hf; [done|exfalso..].
  - apply claimable_open, open_unfinished in Hc. congruence.
  - apply holds_leased in Hh as [Hs _]. unfold finished in Hf. by rewrite Hs in Hf.
  - apply holds_leased in Hh as [Hs _]. unfold finished in Hf. by rewrite Hs in Hf.
Qed.

Lemma moved_generation row row' : moved row row' -> or_LeaseGeneration row <= or_LeaseGeneration row' <= or_LeaseGeneration row + 1.
Proof. intros []; cbn; lia. Qed.

Lemma moved_ok n row row' : row_ok n row -> moved row row' -> row_ok (n + 1) row'.
Proof.
  intros [Hg Ha Hs] Hm. pose proof (moved_generation _ _ Hm). split; [lia| |].
  - destruct Hm; cbn; lia.
  - destruct Hm as [|worker expires Hc|now worker token Hh|[] available code worker token Hh]; [done|left; right; split; [done|by eexists]|by right|by right|left; by left].
Qed.

Lemma apply_op_table_ok n t op : 0 <= n -> table_ok n t -> table_ok (n + 1) (apply_op t op).
Proof.
  intros Hn [Hk Hr].
  assert (Hold : forall k row', is_Some (t !! k) -> apply_op t op !! k = Some row' -> row_key row' = k /\ row_ok (n + 1) row').
  { intros k row' [row Hrow] Hrow'. destruct (apply_op_moves t op k row Hk Hrow) as (row'' & Ha & Hm). rewrite Ha in Hrow'. injection Hrow' as ->.
    split; [rewrite (moved_key _ _ Hm); by apply Hk|]. eapply moved_ok; [|done]. by apply (Hr k row). }
  assert (Hnew : forall k row', t !! k = None -> apply_op t op !! k = Some row' -> row_key row' = k /\ row_ok (n + 1) row').
  { intros k row' Hnone. destruct op as [tenantID workflowID traceID outcomeID jobType contentHash createdAt|ctx attempts request|ctx attempts request|ctx attempts request];
      cbn [apply_op].
    - unfold createOutbox. destruct (t !! row_key _) eqn:Ec; cbn [snd]; [congruence|]. rewrite lookup_insert_Some.
      intros [[<- <-]|[_ ?]]; [|congruence]. split; [done|]. split; [cbn; lia|done|left; by left].
    - pose proof (claim_moves ctx attempts request t Hk k) as Hm. rewrite Hnone in Hm. intros Hx. by rewrite Hx in Hm.
    - pose proof (complete_moves ctx attempts request t k) as Hm. rewrite Hnone in Hm. intros Hx. by rewrite Hx in Hm.
    - pose proof (release_moves ctx attempts request t k) as Hm. rewrite Hnone in Hm. intros Hx. by rewrite Hx in Hm. }
  assert (Hall : forall k row', apply_op t op !! k = Some row' -> row_key row' = k /\ row_ok (n + 1) row').
  { intros k row' Hx. destruct (t !! k) as [row|] eqn:Er; [eapply Hold; [by eexists|done]|by eapply Hnew]. }
  split; intros k row' Hx; by apply (Hall k row').
Qed.

Lemma run_table_ok n t ops : 0 <= n -> table_ok n t -> table_ok (n + count ops) (run t ops).
Proof.
  unfold count. revert n t. induction ops as [|op ops IH]; intros n t Hn Ht; [by rewrite Z.add_0_r|]. cbn [run foldl length].
  replace (n + Z.of_nat (S (length ops))) with (n + 1 + Z.of_nat (length ops)) by lia. apply IH; [lia|]. by apply apply_op_table_ok.
Qed.

Lemma empty_table_ok : table_ok 0 ∅.
Proof. split; intros k row Hx; done. Qed.

Lemma reached_table_ok ops : table_ok (count ops) (run ∅ ops).
Proof. apply (run_table_ok 0 ∅ ops); [lia|apply empty_table_ok]. Qed.

Lemma run_later_ops t ops later : run t (ops ++ later) = run (run t ops) later.
Proof. apply foldl_app. Qed.

(** Along a history the rows of a table only move. *)
Lemma run_row n t ops k row :
  0 <= n -> table_ok n t -> t !! k = Some row ->
  exists row', run t ops !! k = Some row' /\ or_LeaseGeneration row <= or_LeaseGeneration row' /\ (finished row = true -> row' = row).
Proof.
  intros Hn. revert n t row Hn. induction ops as [|op ops IH]; intros n t row Hn Ht Hr; [by exists row|]. cbn [run foldl].
  destruct (apply_op_moves t op k row (proj1 Ht) Hr) as (row1 & H1 & Hm). destruct (IH (n + 1) _ row1 ltac:(lia) (apply_op_table_ok n t op Hn Ht) H1) as (row2 & H2 & Hg & Hf).
  exists row2. split; [done|]. pose proof (moved_generation _ _ Hm). split; [lia|]. intros Hfin. rewrite (moved_finished _ _ Hm Hfin) in Hf. by apply Hf.
Qed.

(** ** Leases *)
Lemma op_lease t op lease :
  keyed t -> lease ∈ op_leases t op ->
  exists row worker expires, t !! (ol_TenantID lease, ol_WorkflowID lease) = Some row /\ lease = leaseFromRow (leased_row worker expires row) /\
    apply_op t op !! (ol_TenantID lease, ol_WorkflowID lease) = Some (leased_row worker expires row).
Proof.
  intros Hk. destruct op as [?|ctx attempts request|?|?]; cbn [op_leases apply_op]; try (intros Hx; by inversion Hx).
  pose proof (ClaimOutbox_spec ctx attempts request t) as Hs. destruct (ClaimOutbox ctx attempts request t) as [[leases|e] t']; cbn [fst snd]; [|intros Hx; by inversion Hx].
  intros Hin. destruct Hs as [[? _]|(now & -> & Hl)]; [done|]. rewrite (Hl leases eq_refl) in Hin. pose proof (claimOnce_spec t now request Hk) as Hc. cbv zeta in Hc.
  destruct (candidates_spec t now request Hk) as [_ Hcand]. destruct (claimOnce now request t) as [leases' t']. cbn [fst snd] in *. destruct Hc as [-> Ht].
  apply list_elem_of_In, in_map_iff in Hin as (c & <- & Hin). exists c, (co_WorkerID request), (time_Add now (co_LeaseDuration request)).
  apply list_elem_of_In in Hin as Hin'. destruct (Hcand c Hin') as [Hrow _]. cbn [leaseFromRow leased_row ol_TenantID ol_WorkflowID or_TenantID or_WorkflowID].
  change (or_TenantID c, or_WorkflowID c) with (row_key c). split; [done|]. split; [done|]. rewrite Ht, Hrow. cbn [fmap option_fmap option_map].
  rewrite bool_decide_eq_true_2; [done|]. by apply list_elem_of_In, in_map.
Qed.

(** A request whose token is not the row's is refused. *)
Lemma transition_stale tenantID workflowID workerID token apply row now t :
  t !! (tenantID, workflowID) = Some row -> or_LeaseGeneration row <> wrap_i64 token ->
  transitionOnce tenantID workflowID workerID token apply now t = (Err ErrStaleLease, t).
Proof. intros Hr Hg. unfold transitionOnce. by rewrite Hr, (proj2 (Z.eqb_neq _ _) Hg). Qed.

Lemma transition_refused ctx attempts tenantID workflowID workerID token apply row t :
  t !! (tenantID, workflowID) = Some row -> or_LeaseGeneration row <> wrap_i64 token ->
  let '(r, t') := transition ctx attempts tenantID workflowID workerID token apply t in is_ok r = false /\ t' = t.
Proof.
  intros Hr Hg. unfold transition. destruct ctx; [done|]. pose proof (retrying_spec (transitionOnce tenantID workflowID workerID token apply) 8 0 attempts t) as Hs.
  destruct (retrying _ _ _ _ _) as [r t']. destruct Hs as [?|(now & -> & Hs)]; [done|]. rewrite (transition_stale _ _ _ _ _ row) in * by done. cbn [fst snd] in *.
  split; [|done]. by destruct Hs as [->|].
Qed.

(** The generations of two leases of a job, and of its row ever after. *)
Lemma leased_again ops between later op op' lease lease' :
  lease ∈ op_leases (run ∅ ops) op -> lease' ∈ op_leases (run ∅ (ops ++ [op] ++ between)) op' ->
  ol_TenantID lease' = ol_TenantID lease -> ol_WorkflowID lease' = ol_WorkflowID lease ->
  exists g g' row, ol_FencingToken lease = wrap_u64 g /\ ol_FencingToken lease' = wrap_u64 g' /\ 0 <= g < g' /\
    run ∅ (ops ++ [op] ++ between ++ [op'] ++ later) !! (ol_TenantID lease, ol_WorkflowID lease) = Some row /\ g' <= or_LeaseGeneration row /\
    or_LeaseGeneration row <= count (ops ++ [op] ++ between ++ [op'] ++ later).
Proof.
  intros Hl Hl' Ht Hw. set (all := ops ++ [op] ++ between ++ [op'] ++ later).
  destruct (op_lease _ _ _ (proj1 (reached_table_ok ops)) Hl) as (row & w & e & Hrow & Hlease & Hafter).
  destruct (op_lease _ _ _ (proj1 (reached_table_ok (ops ++ [op] ++ between))) Hl') as (row' & w' & e' & Hrow' & Hlease' & Hafter').
  rewrite Ht, Hw in Hrow', Hafter'. set (k := (ol_TenantID lease, ol_WorkflowID lease)) in *.
  assert (Ha : run ∅ (ops ++ [op]) !! k = Some (leased_row w e row)) by (by rewrite run_later_ops).
  destruct (run_row (count (ops ++ [op])) _ between k _ ltac:(unfold count; lia) (reached_table_ok (ops ++ [op])) Ha) as (r1 & H1 & Hg1 & _).
  rewrite <- run_later_ops, <- app_assoc, Hrow' in H1. injection H1 as <-. cbn [leased_row or_LeaseGeneration] in Hg1.
  assert (Hb : run ∅ (ops ++ [op] ++ between ++ [op']) !! k = Some (leased_row w' e' row')) by (rewrite !app_assoc, run_later_ops, <- !app_assoc; exact Hafter').
  destruct (run_row (count (ops ++ [op] ++ between ++ [op'])) _ later k _ ltac:(unfold count; lia) (reached_table_ok (ops ++ [op] ++ between ++ [op'])) Hb) as (r2 & H2 & Hg2 & _).
  rewrite <- run_later_ops, <- !app_assoc in H2. fold all in H2. cbn [leased_row or_LeaseGeneration] in Hg2.
  destruct (reached_table_ok all) as [_ Hall]. pose proof (ok_generation _ _ (Hall k r2 H2)) as Hr2.
  destruct (reached_table_ok ops) as [_ Hops]. pose proof (ok_generation _ _ (Hops k row Hrow)) as Hr0.
  exists (or_LeaseGeneration row + 1), (or_LeaseGeneration row' + 1), r2. rewrite Hlease at 1. rewrite Hlease' at 1. split_and!; [done|done|lia|lia|done|lia|lia].
Qed.

(** C41: Fencing: whatever calls run on the table, once a job was leased again the
    tokens have grown, and a request with the token of the earlier lease, by
    whichever worker, is refused and changes nothing. *)
Theorem outbox_fenced (ops between later : list Op) (op op' : Op) (lease lease' : OutboxLease) :
  count (ops ++ [op] ++ between ++ [op'] ++ later) <= MaxInt64 ->
  lease ∈ op_leases (run ∅ ops) op -> lease' ∈ op_leases (run ∅ (ops ++ [op] ++ between)) op' ->
  ol_TenantID lease' = ol_TenantID lease -> ol_WorkflowID lease' = ol_WorkflowID lease ->
  let t := run ∅ (ops ++ [op] ++ between ++ [op'] ++ later) in
  ol_FencingToken lease < ol_FencingToken lease' /\
  (forall ctx attempts request, cm_TenantID request = ol_TenantID lease -> cm_WorkflowID request = ol_WorkflowID lease ->
     cm_FencingToken request = ol_FencingToken lease ->
     is_ok (fst (CompleteOutbox ctx attempts request t)) = false /\ snd (CompleteOutbox ctx attempts request t) = t) /\
  (forall ctx attempts request, ro_TenantID request = ol_TenantID lease -> ro_WorkflowID request = ol_WorkflowID lease ->
     ro_FencingToken request = ol_FencingToken lease ->
     is_ok (fst (ReleaseOutbox ctx attempts request t)) = false /\ snd (ReleaseOutbox ctx attempts request t) = t).
Proof.
  intros Hlen Hl Hl' Ht Hw t. destruct (leased_again ops between later op op' lease lease' Hl Hl' Ht Hw) as (g & g' & row & Hg & Hg' & Hlt & Hrow & Hle & Hn). fold t in Hrow.
  assert (Hid : forall x, 0 <= x <= MaxInt64 -> wrap_u64 x = x /\ wrap_i64 x = x) by (intros x Hx; split; [apply wrap_u64_id|apply wrap_i64_id]; unfold_widths; lia).
  assert (Hstale : or_LeaseGeneration row <> wrap_i64 (ol_FencingToken lease)).
  { rewrite Hg, (proj1 (Hid g ltac:(lia))), (proj2 (Hid g ltac:(lia))). lia. }
  split; [rewrite Hg, Hg', (proj1 (Hid g ltac:(lia))), (proj1 (Hid g' ltac:(lia))); lia|]. split.
  - intros ctx attempts request He1 He2 He3. unfold CompleteOutbox. destruct (ValidateCompleteOutbox request); [|done]. rewrite He1, He2, He3.
    match goal with |- context [transition ctx attempts ?a ?b ?c ?d ?f t] => pose proof (transition_refused ctx attempts a b c d f row t Hrow Hstale) as Hs;
      destruct (transition ctx attempts a b c d f t) as [r t'] end. done.
  - intros ctx attempts request He1 He2 He3. unfold ReleaseOutbox. destruct (ValidateReleaseOutbox request); [|done]. rewrite He1, He2, He3.
    match goal with |- context [transition ctx attempts ?a ?b ?c ?d ?f t] => pose proof (transition_refused ctx attempts a b c d f row t Hrow Hstale) as Hs;
      destruct (transition ctx attempts a b c d f t) as [r t'] end. done.
Qed.

(** A finished job is never touched again. *)
Theorem finished_row_final (ops later : list Op) (k : string * string) (row : outboxRow) :
  run ∅ ops !! k = Some row -> finished row = true -> run ∅ (ops ++ later) !! k = Some row.
Proof.
  intros Hr Hf. destruct (run_row (count ops) _ later k row ltac:(unfold count; lia) (reached_table_ok ops) Hr) as (row' & Hr' & _ & He).
  rewrite run_later_ops, Hr'. f_equal. by apply He.
Qed.

(** ** Relays at work *)
Inductive flight :=
| Claimed (lease : OutboxLease)
| Started (lease : OutboxLease) (outcome : option start_error).

Definition flight_lease (f : flight) : OutboxLease := match f with Claimed lease => lease | Started lease _ => lease end.

(** The table, the workflows that the provider has accepted, and the goroutines of the relays. *)
Record World := mk_World { wd_table : Table; wd_started : gset string; wd_flights : list flight }.

Definition new_world : World := mk_World ∅ ∅ [].

(** What an answer says of the workflow [w]: a failure leaves open whether the
    provider has accepted it. *)
Inductive provides (w : string) : provider_answer -> gset string -> gset string -> Prop :=
| provides_started s : provides w PvStarted s ({[ w ]} ∪ s)
| provides_existing s : w ∈ s -> provides w PvAlreadyStarted s s
| provides_failure answer s s' :
    is_Some (classifyProviderError answer) -> s' = s \/ s' = {[ w ]} ∪ s -> provides w answer s s'.

Definition with_worker (config : RelayConfig) (worker : string) : RelayConfig :=
  mk_RelayConfig worker (rl_BatchSize config) (rl_LeaseDuration config) (rl_PollInterval config) (rl_MaximumAttempts config) (rl_MaximumBackoff config).

Section relays.
Context `{Digest} (config : RelayConfig).

(** The request is sent: it is valid, and the context is not done. *)
Definition reaches_provider (lease : OutboxLease) (ctx : option goerr) : bool := is_ok (RequestFromLease lease) && match ctx with Some _ => false | None => true end.

(** A step of the ingest services, of a relay, or of its end. *)
Inductive step (w : World) : World -> Prop :=
| step_create tenantID workflowID traceID outcomeID jobType contentHash createdAt :
    step w (mk_World (apply_op (wd_table w) (OpCreate tenantID workflowID traceID outcomeID jobType contentHash createdAt)) (wd_started w) (wd_flights w))
| step_claim worker ctx attempts :
    let op := OpClaim ctx attempts (claim_request (with_worker config worker)) in
    step w (mk_World (apply_op (wd_table w) op) (wd_started w) (wd_flights w ++ List.map Claimed (op_leases (wd_table w) op)))
| step_start i lease ctx answer started :
    wd_flights w !! i = Some (Claimed lease) ->
    (if reaches_provider lease ctx then provides (ol_WorkflowID lease) answer (wd_started w) started else started = wd_started w) ->
    step w (mk_World (wd_table w) started (<[i := Started lease (start_lease lease ctx answer)]> (wd_flights w)))
| step_finish i lease outcome ctx attempts :
    wd_flights w !! i = Some (Started lease outcome) ->
    step w (mk_World (snd (finish_lease config lease outcome ctx attempts (wd_table w))) (wd_started w) (delete i (wd_flights w)))
| step_crash i : step w (mk_World (wd_table w) (wd_started w) (delete i (wd_flights w))).

(** A code under which another attempt is of no use. *)
Definition permanent (code : string) : Prop :=
  code = "invalid_dispatch" \/ exists status, code = ("temporal_" ++ status)%string /\ retryable_code status = false.

Record row_sound (started : gset string) (row : outboxRow) : Prop := mk_row_sound {
  sound_completed : or_State row = OutboxStateCompleted -> or_WorkflowID row ∈ started;
  sound_dead : or_State row = OutboxStateDeadLetter ->
    exists code, or_LastErrorCode row = Some code /\ (permanent code \/ rl_MaximumAttempts config <= or_AttemptCount row)
}.

(** A lease counts the generation of which it is. *)
Definition lease_ok (n : Z) (lease : OutboxLease) : Prop := 0 <= ol_AttemptCount lease <= n /\ ol_FencingToken lease = wrap_u64 (ol_AttemptCount lease).

Definition flight_ok (n : Z) (started : gset string) (f : flight) : Prop :=
  lease_ok n (flight_lease f) /\
  match f with
  | Started lease None => ol_WorkflowID lease ∈ started
  | Started _ (Some (ProviderError code retryable)) => retryable = retryable_code code
  | _ => True
  end.

Record world_ok (n : Z) (w : World) : Prop := mk_world_ok {
  wo_table : table_ok n (wd_table w);
  wo_rows : map_Forall (fun _ => row_sound (wd_started w)) (wd_table w);
  wo_flights : forall f, f ∈ wd_flights w -> flight_ok n (wd_started w) f
}.

Lemma row_sound_grows s s' row : s ⊆ s' -> row_sound s row -> row_sound s' row.
Proof. intros Hs [Hc Hd]. split; [set_solver|done]. Qed.

Lemma flight_ok_grows n n' s s' f : n <= n' -> s ⊆ s' -> flight_ok n s f -> flight_ok n' s' f.
Proof.
  intros Hn Hs [[Hl Ht] Hf]. split; [split; [lia|done]|]. destruct f as [lease|lease [err|]]; [done|done|set_solver].
Qed.

Lemma start_lease_spec lease ctx answer :
  if reaches_provider lease ctx then start_lease lease ctx answer = classifyProviderError answer
  else exists err, start_lease lease ctx answer = Some err /\ forall code retryable, err <> ProviderError code retryable.
Proof.
  unfold reaches_provider, start_lease, RequestFromLease. set (request := mk_StartRequest _ _). destruct (ValidateStartRequest request) as [[]|] eqn:Ev; cbn [bind is_ok andb];
    [|by eexists]. unfold Start. rewrite Ev. destruct ctx as [e|]; cbn [andb]; [|done]. eexists. split; [done|]. by destruct e.
Qed.

(** A start that succeeded left its workflow with the provider, and a failure of the provider has its code's class. *)
Lemma started_flight n s s' lease ctx answer :
  lease_ok n lease -> (if reaches_provider lease ctx then provides (ol_WorkflowID lease) answer s s' else s' = s) ->
  s ⊆ s' /\ flight_ok n s' (Started lease (start_lease lease ctx answer)).
Proof.
  intros Hl Hp. pose proof (start_lease_spec lease ctx answer) as Hs. unfold flight_ok. destruct (reaches_provider lease ctx).
  - rewrite Hs. destruct Hp as [s|s Hin|answer s s' Hf Heq]; [split; [set_solver|split; [done|set_solver]]|done|].
    split; [destruct Heq; set_solver|]. split; [done|]. destruct answer as [| | | |code]; cbn in Hf |- *; try done; by destruct Hf.
  - subst s'. destruct Hs as (err & -> & Hne). split; [done|]. split; [done|]. destruct err as [code retryable| | |]; [by destruct (Hne code retryable)|done..].
Qed.

Lemma claim_flights n t worker ctx attempts lease :
  let op := OpClaim ctx attempts (claim_request (with_worker config worker)) in
  table_ok n t -> lease ∈ op_leases t op -> lease_ok (n + 1) lease.
Proof.
  intros op [Hk Hr] Hl. destruct (op_lease t op lease Hk Hl) as (row & w & e & Hrow & -> & _). cbn [leaseFromRow leased_row ol_TenantID ol_WorkflowID] in Hrow.
  destruct (Hr _ _ Hrow) as [Hg Ha _]. split; cbn [leaseFromRow leased_row ol_AttemptCount or_AttemptCount ol_FencingToken or_LeaseGeneration]; [lia|]. by rewrite Ha.
Qed.

Lemma claimed_rows t s op :
  (forall k row row', t !! k = Some row -> apply_op t op !! k = Some row' -> row' = row \/ or_State row' = OutboxStateLeased) ->
  (forall k row', t !! k = None -> apply_op t op !! k = Some row' -> or_State row' = OutboxStatePending) ->
  map_Forall (fun _ => row_sound s) t -> map_Forall (fun _ => row_sound s) (apply_op t op).
Proof.
  intros Hold Hnew Hs k row' Hr'. destruct (t !! k) as [row|] eqn:Er.
  - destruct (Hold k row row' Er Hr') as [->|Hst]; [by apply (Hs k row)|]. by split; rewrite Hst.
  - pose proof (Hnew k row' Er Hr') as Hst. by split; rewrite Hst.
Qed.

Lemma rows_move_ok n t t' : table_ok n t -> rows_move t t' -> table_ok (n + 1) t'.
Proof.
  intros [Hk Hr] Hm. split; [by eapply rows_move_keyed|]. intros k row' Hrow'. specialize (Hm k). rewrite Hrow' in Hm. destruct (t !! k) as [row|] eqn:Er; [|done].
  eapply moved_ok; [by apply (Hr k row)|done].
Qed.

Lemma sound_insert (s : gset string) (t : Table) (k : string * string) (row : outboxRow) : map_Forall (fun _ => row_sound s) t -> row_sound s row -> map_Forall (fun _ => row_sound s) (<[k := row]> t).
Proof. intros Ht Hr. by apply map_Forall_insert_2. Qed.

Lemma release_sound n s t lease err ctx attempts :
  n <= MaxInt64 -> table_ok n t -> map_Forall (fun _ => row_sound s) t -> flight_ok n s (Started lease (Some err)) ->
  map_Forall (fun _ => row_sound s) (snd (ReleaseOutbox ctx attempts (release_of config lease err) t)).
Proof.
  intros Hn [Hk Hrows] Hs [[Hl Htok] Hcode]. cbn [flight_lease] in Hl, Htok. pose proof (ReleaseOutbox_spec ctx attempts (release_of config lease err) t) as Hspec.
  destruct (ReleaseOutbox _ _ _ _) as [r t']. cbn [snd]. destruct Hspec as [->|(row & now & Hrow & Hh & ->)]; [done|]. apply sound_insert; [done|].
  destruct (Hrows _ _ Hrow) as [Hg Ha _]. apply holds_leased in Hh as [_ Hgen].
  assert (Htk : ro_FencingToken (release_of config lease err) = ol_FencingToken lease) by (unfold release_of; by destruct (dispatchError err)).
  rewrite Htk, Htok, wrap_u64_id, wrap_i64_id in Hgen by (unfold_widths; lia).
  unfold release_of. destruct (dispatchError err) as [retryable code] eqn:Ed. cbn [ro_DeadLetter ro_ErrorCode].
  destruct (negb retryable || (rl_MaximumAttempts config <=? ol_AttemptCount lease)) eqn:Edead; [|by split].
  split; [done|]. intros _. exists code. split; [done|]. cbn [released_row or_AttemptCount]. rewrite Ha, Hgen. apply orb_true_iff in Edead as [Hr|Hm]; [left|right; lia].
  destruct err as [status r'| | |]; cbn [dispatchError] in Ed; injection Ed as <- <-; [|done..|by left]. right. exists status. split; [done|]. rewrite <- Hcode. by apply negb_true_iff.
Qed.

Lemma complete_sound n s t lease ctx attempts :
  table_ok n t -> map_Forall (fun _ => row_sound s) t -> ol_WorkflowID lease ∈ s ->
  map_Forall (fun _ => row_sound s) (snd (CompleteOutbox ctx attempts (complete_of lease) t)).
Proof.
  intros [Hk _] Hs Hin. pose proof (CompleteOutbox_spec ctx attempts (complete_of lease) t) as Hspec. destruct (CompleteOutbox _ _ _ _) as [r t']. cbn [snd].
  destruct Hspec as [->|(row & now & Hrow & _ & ->)]; [done|]. apply sound_insert; [done|]. split; [|done]. intros _. cbn [completed_row or_WorkflowID].
  pose proof (Hk _ _ Hrow) as Hkey. injection Hkey as _ Hw. by rewrite Hw.
Qed.

Lemma claim_leases t worker ctx attempts k row row' :
  let op := OpClaim ctx attempts (claim_request (with_worker config worker)) in
  keyed t -> t !! k = Some row -> apply_op t op !! k = Some row' -> row' = row \/ or_State row' = OutboxStateLeased.
Proof.
  intros op Hk Hrow. cbn [apply_op op]. set (request := claim_request _). pose proof (ClaimOutbox_spec ctx attempts request t) as Hs.
  destruct (ClaimOutbox ctx attempts request t) as [r t']. cbn [snd]. destruct Hs as [[_ ->]|(now & -> & _)]; [rewrite Hrow; intros [= <-]; by left|].
  pose proof (claimOnce_spec t now request Hk) as Hc. cbv zeta in Hc. destruct (claimOnce now request t) as [leases t']. destruct Hc as [_ Ht]. cbn [snd].
  rewrite Ht, Hrow. cbn [fmap option_fmap option_map]. intros [= <-]. destruct (bool_decide _); [by right|by left].
Qed.

Lemma insert_elem {A} (l : list A) i (x y : A) : x ∈ <[i := y]> l -> x = y \/ x ∈ l.
Proof.
  intros [j Hj]%list_elem_of_lookup. apply list_lookup_insert_Some in Hj as [(_ & <- & _)|[_ Hj]]; [by left|right]. by eapply list_elem_of_lookup_2.
Qed.

Lemma step_ok n w w' : 0 <= n -> n <= MaxInt64 -> world_ok n w -> step w w' -> world_ok (n + 1) w'.
Proof.
  intros H0 Hn [Ht Hs Hf] Hstep.
  assert (Hgrow : forall f, flight_ok n (wd_started w) f -> flight_ok (n + 1) (wd_started w) f) by (intros f; apply flight_ok_grows; [lia|done]).
  destruct Hstep as [tenantID workflowID traceID outcomeID jobType contentHash createdAt|worker ctx attempts op|i lease ctx answer started Hi Hp|i lease outcome ctx attempts Hi|i];
    split; cbn [wd_table wd_started wd_flights].
  - by apply apply_op_table_ok.
  - apply claimed_rows; [| |done]; intros k row.
    + intros row' Hrow Hrow'. left. destruct (apply_op_moves _ (OpCreate tenantID workflowID traceID outcomeID jobType contentHash createdAt) k row (proj1 Ht) Hrow) as (r & Hr & _).
      revert Hrow'. cbn [apply_op]. unfold createOutbox. destruct (wd_table w !! row_key _) eqn:Ec; cbn [snd]; [congruence|].
      rewrite lookup_insert_ne by congruence. congruence.
    + intros Hnone. cbn [apply_op]. unfold createOutbox. destruct (wd_table w !! row_key _) eqn:Ec; cbn [snd]; [congruence|]. rewrite lookup_insert_Some.
      intros [[_ <-]|[_ ?]]; [done|congruence].
  - intros f Hin. apply Hgrow. by apply Hf.
  - by apply apply_op_table_ok.
  - apply claimed_rows; [| |done]; intros k row.
    + intros row' Hrow. by apply (claim_leases (wd_table w) worker ctx attempts k row row' (proj1 Ht)).
    + intros Hnone Hx. pose proof (claim_moves ctx attempts (claim_request (with_worker config worker)) (wd_table w) (proj1 Ht) k) as Hm. cbn [apply_op op] in Hx.
      by rewrite Hnone, Hx in Hm.
  - intros f [Hin|Hin]%elem_of_app; [apply Hgrow; by apply Hf|]. apply list_elem_of_In, in_map_iff in Hin as (lease & <- & Hin).
    split; [|done]. eapply claim_flights; [done|by apply list_elem_of_In].
  - eapply rows_move_ok; [exact Ht|apply rows_move_refl].
  - destruct (started_flight n (wd_started w) started lease ctx answer) as [Hsub _]; [by apply (Hf (Claimed lease)); eapply list_elem_of_lookup_2|done|].
    intros k row Hrow. eapply row_sound_grows; [done|]. by apply (Hs k row).
  - destruct (started_flight n (wd_started w) started lease ctx answer) as [Hsub Hfl]; [by apply (Hf (Claimed lease)); eapply list_elem_of_lookup_2|done|].
    intros f [->|Hin]%insert_elem; [apply (flight_ok_grows n (n + 1) started started); [lia|done|exact Hfl]|apply (flight_ok_grows n (n + 1) (wd_started w) started); [lia|exact Hsub|by apply Hf]].
  - eapply rows_move_ok; [exact Ht|]. unfold finish_lease. destruct outcome; [apply release_moves|apply complete_moves].
  - destruct (Hf _ (list_elem_of_lookup_2 _ _ _ Hi)) as [Hl Hcase]. unfold finish_lease. destruct outcome as [err|].
    + eapply release_sound; [done|done|done|by split].
    + by eapply complete_sound.
  - intros f Hin. apply Hgrow, Hf. by eapply list_elem_of_delete_inv.
  - eapply rows_move_ok; [exact Ht|apply rows_move_refl].
  - done.
  - intros f Hin. apply Hgrow, Hf. by eapply list_elem_of_delete_inv.
Qed.

Lemma steps_ok n w : Z.of_nat n <= MaxInt64 -> nsteps step n new_world w -> world_ok (Z.of_nat n) w.
Proof.
  revert w. induction n as [|n IH]; intros w Hn Hsteps.
  - inversion Hsteps; subst. split; [apply empty_table_ok|by intros k row Hx|intros f Hf; inversion Hf].
  - apply nsteps_inv_r in Hsteps as (w1 & H1 & Hstep). rewrite Nat2Z.inj_succ. apply (step_ok (Z.of_nat n) w1); [lia|lia|apply IH; [lia|done]|done].
Qed.

(** C42: No job is lost.  Whatever relays do, claim, start, fail, answer late or end at any
    point, and whatever the database and the provider answer: a completed job
    had its workflow accepted by the provider; a dead letter failed for good or
    as often as the configuration allows; and every other job can be
    claimed again from some time on. *)
Theorem relay_sound (n : nat) (w : World) (k : string * string) (row : outboxRow) :
  Z.of_nat n <= MaxInt64 -> nsteps step n new_world w -> wd_table w !! k = Some row ->
  (or_State row = OutboxStateCompleted /\ or_WorkflowID row ∈ wd_started w) \/
  (or_State row = OutboxStateDeadLetter /\
     exists code, or_LastErrorCode row = Some code /\ (permanent code \/ rl_MaximumAttempts config <= or_AttemptCount row)) \/
  (exists from, forall now, from <= t_ns now -> claimable now row = true).
Proof.
  intros Hn Hsteps Hrow. destruct (steps_ok n w Hn Hsteps) as [[_ Ht] Hs _]. destruct (Ht _ _ Hrow) as [_ _ [Hopen|Hf]].
  - right. right. apply open_claimable in Hopen. done.
  - destruct (Hs _ _ Hrow) as [Hc Hd]. unfold finished in Hf. rewrite orb_true_iff, !String.eqb_eq in Hf. destruct Hf as [Hf|Hf]; [left; auto|right; left; auto].
Qed.
End relays.

(** ** A lease that runs out *)

(** Once its lease has run out, a lease cannot be finished, whatever the provider
    answered.  The start runs under a deadline that is the end of the lease, so
    a start that meets it is always released too late: [dispatch] fails with an
    error that is not a cancellation, and [Run] returns. *)
Theorem deadline_stops_relay `{Digest} (config : RelayConfig) (row : outboxRow) (expires now : gotime) (events : dispatch_events) (t : Table) :
  t !! row_key row = Some row -> or_State row = OutboxStateLeased -> or_LeaseExpiresAt row = Some expires -> t_ns expires <= t_ns now ->
  de_finish events = None -> de_attempts events 0%nat = Transaction now ->
  exists e, dispatch config (leaseFromRow row) events t = (Err e, t) /\ is_canceled e = false.
Proof.
  intros Hrow Hs He Hle Hctx Hnow.
  assert (Hstale : forall worker token apply, transitionOnce (or_TenantID row) (or_WorkflowID row) worker token apply now t = (Err ErrStaleLease, t)).
  { intros worker token apply. unfold transitionOnce. change (or_TenantID row, or_WorkflowID row) with (row_key row). rewrite Hrow, Hs, He.
    unfold After. rewrite (proj2 (Z.ltb_ge _ _)) by done. by destruct (_ || _). }
  assert (Htr : forall worker token apply, transition None (de_attempts events) (or_TenantID row) (or_WorkflowID row) worker token apply t = (Err ErrStaleLease, t)).
  { intros worker token apply. unfold transition. cbn [retrying]. by rewrite Hnow, Hstale. }
  unfold dispatch, finish_lease. rewrite Hctx. destruct (start_lease _ _ _) as [err|].
  - unfold ReleaseOutbox. destruct (ValidateReleaseOutbox _) as [[]|e] eqn:Ev.
    + unfold release_of. destruct (dispatchError err) as [retryable code]. cbn [ro_TenantID ro_WorkflowID leaseFromRow ol_TenantID ol_WorkflowID]. rewrite Htr. by eexists.
    + exists e. split; [done|]. unfold ValidateReleaseOutbox in Ev. destruct (_ || _); [by injection Ev as <-|done].
  - unfold CompleteOutbox. destruct (ValidateCompleteOutbox _) as [[]|e] eqn:Ev.
    + cbn [complete_of cm_TenantID cm_WorkflowID leaseFromRow ol_TenantID ol_WorkflowID]. rewrite Htr. by eexists.
    + exists e. split; [done|]. unfold ValidateCompleteOutbox in Ev. destruct (_ || _); [by injection Ev as <-|done].
Qed.

(** ** A job and two relays *)
#[local] Existing Instance checksum_digest.

Definition at_second (s : Z) : gotime := mk_time (s * Second) 0.
Definition in_transaction (s : Z) (n : nat) : attempt := Transaction (at_second s).

Definition demo_config : RelayConfig := mk_RelayConfig "relay-a" 10 (30 * Second) Second 5 Minute.
Definition demo_workflow : string := Eval vm_compute in WorkflowID "tenant" "trace".
Definition demo_content : string := Eval vm_compute in digits 64 7.

Definition demo_create : Op := OpCreate "tenant" demo_workflow "trace" None OutboxJobSynthesizeTrace demo_content (at_second 0).
Definition demo_claim (worker : string) (s : Z) : Op := OpClaim None (in_transaction s) (claim_request (with_worker demo_config worker)).

Definition claimed_by (worker : string) (s generation : Z) : outboxRow :=
  mk_outboxRow "tenant" demo_workflow "trace" None OutboxJobSynthesizeTrace OutboxStateLeased demo_content generation (Some worker) generation
    (Some (at_second (s + 30))) None (at_second 0) (at_second 0) None.

Definition lease_a : OutboxLease := leaseFromRow (claimed_by "relay-a" 1 1).
Definition lease_b : OutboxLease := leaseFromRow (claimed_by "relay-b" 40 2).

Lemma outbox_fenced_witness :
  let t := run ∅ [demo_create; demo_claim "relay-a" 1; demo_claim "relay-b" 40] in
  ol_FencingToken lease_a < ol_FencingToken lease_b /\
  is_ok (fst (CompleteOutbox None (in_transaction 41) (complete_of lease_a) t)) = false /\ snd (CompleteOutbox None (in_transaction 41) (complete_of lease_a) t) = t.
Proof.
  destruct (outbox_fenced [demo_create] [] [] (demo_claim "relay-a" 1) (demo_claim "relay-b" 40) lease_a lease_b) as (Hlt & Hc & _).
  - vm_compute. discriminate.
  - apply list_elem_of_In. vm_compute. left. reflexivity.
  - apply list_elem_of_In. vm_compute. left. reflexivity.
  - reflexivity.
  - reflexivity.
  - split; [exact Hlt|]. apply (Hc None (in_transaction 41) (complete_of lease_a)); reflexivity.
Defined.

(** The job is claimed, its workflow started, and the job completed. *)
Definition demo_events (answer : provider_answer) (ctx : option goerr) (s : Z) (lease : OutboxLease) : OutboxLease * dispatch_events :=
  (lease, mk_dispatch_events ctx answer None (in_transaction s)).

Definition with_job : Table := run ∅ [demo_create].

Example pass_completes :
  let pass := RunOnce demo_config None (in_transaction 1) (List.map (demo_events PvStarted None 2)) with_job in
  fst pass = Ok (1, []) /\ or_State <$> (snd pass !! ("tenant", demo_workflow)) = Some OutboxStateCompleted /\ run_returns (fst pass) = false.
Proof. vm_compute. repeat split. Qed.

(** The start lasts until the lease ends: the relay gives up, and the job stays leased. *)
Example slow_start_stops_relay :
  let pass := RunOnce demo_config None (in_transaction 1) (List.map (demo_events PvDeadline None 31)) with_job in
  fst pass = Ok (0, [ErrStaleLease]) /\ or_State <$> (snd pass !! ("tenant", demo_workflow)) = Some OutboxStateLeased /\ run_returns (fst pass) = true.
Proof. vm_compute. repeat split. Qed.

(** A relay is built with a lease or a backoff that the repository refuses on use. *)
Example unusable_configuration :
  let long_lease := mk_RelayConfig "relay-a" 10 (20 * Minute) Second 100 Minute in
  let long_backoff := mk_RelayConfig "relay-a" 10 Minute Second 100 (48 * Hour) in
  is_ok (NewRelay long_lease) = true /\
  (forall attempts schedule t, RunOnce long_lease None attempts schedule t = (Err ErrInvalidLeaseRequest, t)) /\
  is_ok (NewRelay long_backoff) = true /\
  ValidateReleaseOutbox (release_of long_backoff (leaseFromRow (claimed_by "relay-a" 1 18)) (ProviderError "Unavailable" true)) = Err ErrInvalidLeaseRequest.
Proof. repeat split. Qed.

Definition demo_world : World :=
  let claimed := apply_op with_job (demo_claim "relay-a" 1) in
  mk_World (snd (finish_lease demo_config lease_a None None (in_transaction 2) claimed)) {[ demo_workflow ]} [].

Definition completed_demo : outboxRow := completed_row (at_second 2) (claimed_by "relay-a" 1 1).

Lemma demo_world_reached : nsteps (step demo_config) 4 new_world demo_world.
Proof.
  eapply nsteps_l; [apply (step_create demo_config new_world "tenant" demo_workflow "trace" None OutboxJobSynthesizeTrace demo_content (at_second 0))|].
  eapply nsteps_l; [apply (step_claim demo_config _ "relay-a" None (in_transaction 1))|].
  eapply nsteps_l; [eapply (step_start demo_config _ 0 lease_a None PvStarted); [vm_compute; reflexivity|apply provides_started]|].
  eapply nsteps_l; [eapply (step_finish demo_config _ 0 lease_a None None (in_transaction 2)); vm_compute; reflexivity|].
  match goal with |- nsteps _ _ ?w _ => assert (Hw : w = demo_world) by (vm_compute; reflexivity) end. rewrite Hw. constructor.
Qed.

Lemma relay_sound_witness :
  or_State completed_demo = OutboxStateCompleted /\ or_WorkflowID completed_demo ∈ wd_started demo_world.
Proof.
  destruct (relay_sound demo_config 4 demo_world ("tenant", demo_workflow) completed_demo) as [Hc|[[Hd _]|[from Hopen]]].
  - vm_compute. discriminate.
  - apply demo_world_reached.
  - vm_compute. reflexivity.
  - exact Hc.
  - discriminate Hd.
  - specialize (Hopen (mk_time from 0) ltac:(reflexivity)). discriminate Hopen.
Defined.

Lemma deadline_stops_relay_witness :
  exists e, dispatch demo_config lease_a (snd (demo_events PvStarted None 31 lease_a)) (apply_op with_job (demo_claim "relay-a" 1)) =
    (Err e, apply_op with_job (demo_claim "relay-a" 1)) /\ is_canceled e = false.
Proof.
  apply (deadline_stops_relay demo_config (claimed_by "relay-a" 1 1) (at_second 31) (at_second 31) (snd (demo_events PvStarted None 31 lease_a)));
    [vm_compute; reflexivity|reflexivity|reflexivity|reflexivity|reflexivity|reflexivity].
Defined.
