(* ===== verification/Jev.v ===== *)
(** * Semantic judgments: quantization, admission and features (internal/jev)

    [quantize.go]: decimal probabilities to fixed-point micros with exact
    integer arithmetic.  [admission.go]: which candidates are close enough to be
    judged.  [model.go]: judgment keys and the features of a judgment.
    [rubric.go]: rubric manifests.

    [decimalMicros_exact] shows that the quantization is the nearest micro of
    the rational the text denotes; [Admit_exact] gives the admitted candidates
    as a set by score; [Features_bounded] the ranges of the features. *)

From Stdlib Require Import ZArith String Ascii List Bool Lia.
From stdpp Require Import base gmap strings list sorting.
From S2P Require Import Prelude GoStrings GoTime Canonical.

Open Scope Z_scope.
Open Scope go_scope.

(** ** quantize.go *)
Definition ProbabilityScale : Z := 1000000.

Record decimal := mk_decimal { dec_int : list Z; dec_frac : list Z; dec_exp : option Z }.

Definition number (ds : list Z) : Z := foldl (fun acc d => acc * 10 + d) 0 ds.

(** "[(0|[1-9][0-9]*)]": a digit sequence with no leading zero. *)
Definition int_part_ok (ds : list Z) : bool :=
  match ds with
  | [] => false
  | [_] => true
  | d :: _ => negb (d =? 0)
  end.

(** "[[+-]?[0-9]+]" up to the end of the text *)
Definition parse_exponent (l : list ascii) : option Z :=
  let '(sign, l) := match l with
    | a :: rest => if byte_of a =? 43 then (1, rest) else if byte_of a =? 45 then (-1, rest) else (1, l)
    | [] => (1, l)
    end in
  match span_digits l with
  | ((_ :: _) as ds, []) => Some (sign * number ds)
  | _ => None
  end.

(** The optional exponent, which ends the text. *)
Definition parse_tail (l : list ascii) : option (option Z) :=
  match l with
  | [] => Some None
  | a :: rest =>
      if (byte_of a =? 101) || (byte_of a =? 69)
      then match parse_exponent rest with Some e => Some (Some e) | None => None end
      else None
  end.

(** [decimalPattern] *)
Definition parse_decimal (raw : string) : option decimal :=
  let '(ds, l) := span_digits (list_ascii_of_string raw) in
  if negb (int_part_ok ds) then None
  else
    let frac := match l with
      | a :: rest =>
          if byte_of a =? 46
          then match span_digits rest with ([], _) => None | (fs, l) => Some (fs, l) end
          else Some ([], l)
      | [] => Some ([], l)
      end in
    match frac with
    | None => None
    | Some (fs, l) =>
        match parse_tail l with
        | Some e => Some (mk_decimal ds fs e)
        | None => None
        end
    end.

Definition exponent_of (d : decimal) : option Z :=
  match dec_exp d with
  | None => Some 0
  | Some e => if (e <? -1000) || (1000 <? e) then None else Some e
  end.

(** The numerator and the denominator of the text's value. *)
Definition fraction_of (d : decimal) (exponent : Z) : Z * Z :=
  let numerator := number (dec_int d ++ dec_frac d) in
  let scale := Z.of_nat (length (dec_frac d)) - exponent in
  if 0 <? scale then (numerator, 10 ^ scale)
  else if scale <? 0 then (numerator * 10 ^ (- scale), 1)
  else (numerator, 1).

Definition decimalMicros (raw : string) (maximumUnits : Z) : result Z :=
  reject String.eqb raw "" || negb (String.eqb raw (TrimSpace raw)) || (128 <? str_len raw) with ErrInvalidProbability;
  match parse_decimal raw with
  | None => Err ErrInvalidProbability
  | Some d =>
      match exponent_of d with
      | None => Err ErrInvalidProbability
      | Some exponent =>
          let '(numerator, denominator) := fraction_of d exponent in
          reject denominator * maximumUnits <? numerator with ErrInvalidProbability;
          let scaled := numerator * ProbabilityScale in
          let quotient := Z.quot scaled denominator in
          let remainder := Z.rem scaled denominator in
          let quotient := if denominator <=? Z.shiftl remainder 1 then quotient + 1 else quotient in
          reject negb ((MinInt64 <=? quotient) && (quotient <=? MaxInt64)) || (quotient <? 0) ||
                 (maximumUnits * ProbabilityScale <? quotient) with ErrInvalidProbability;
          Ok (wrap_i32 quotient)
      end
  end.

Definition ProbabilityMicros (raw : string) : result Z :=
  match decimalMicros raw 1 with Ok v => Ok v | Err _ => Err ErrInvalidProbability end.

(** ** admission.go *)
Record AdmissionPolicy := mk_AdmissionPolicy { ap_MaximumCandidates : Z; ap_AmbiguityScoreDistance : Z }.

Record RankedCandidate := mk_RankedCandidate { rk_VersionID : string; rk_Rank : Z; rk_FinalScore : Z }.

Definition scoreDistance (higher lower : Z) : Z := wrap_u64 (wrap_u64 higher - wrap_u64 lower).

(** The loop that checks the sorted candidates. *)
Fixpoint ranks_ok (index : nat) (prev : option RankedCandidate) (l : list RankedCandidate) : bool :=
  match l with
  | [] => true
  | c :: l =>
      negb (String.eqb (TrimSpace (rk_VersionID c)) "" || negb (rk_Rank c =? wrap_u32 (Z.of_nat index + 1)) ||
            match prev with Some p => rk_FinalScore p <? rk_FinalScore c | None => false end) &&
      ranks_ok (S index) (Some c) l
  end.

(** The loop over the bounded prefix, up to the first candidate outside the band. *)
Fixpoint admit_prefix (best distance : Z) (l : list RankedCandidate) : list string :=
  match l with
  | [] => []
  | c :: l =>
      if distance <? scoreDistance best (rk_FinalScore c) then []
      else rk_VersionID c :: admit_prefix best distance l
  end.

Definition by_rank : list RankedCandidate -> list RankedCandidate := sort_slice (cmp_ltb (cmp_on rk_Rank Z.compare)).

Definition AdmitAmbiguousCandidates (policy : AdmissionPolicy) (source : list RankedCandidate) : result (list string) :=
  reject (ap_MaximumCandidates policy <? 2) || (32 <? ap_MaximumCandidates policy) ||
         (ap_AmbiguityScoreDistance policy <? 0) || (10000 <? Z.of_nat (length source)) with ErrInvalidAdmission;
  let candidates := by_rank source in
  reject negb (ranks_ok 0 None candidates) with ErrInvalidAdmission;
  let distance := wrap_u64 (ap_AmbiguityScoreDistance policy) in
  match candidates with
  | first :: second :: _ =>
      if distance <? scoreDistance (rk_FinalScore first) (rk_FinalScore second) then Ok []
      else Ok (admit_prefix (rk_FinalScore first) distance
                 (firstn (Z.to_nat (Z.min (Z.of_nat (length candidates)) (ap_MaximumCandidates policy))) candidates))
  | _ => Ok []
  end.

(** ** model.go *)
Definition FeatureIntentFit : string := "jev_intent_fit_micros".
Definition FeatureNonContradiction : string := "jev_non_contradiction_micros".
Definition FeaturePartialPlan : string := "jev_partial_plan_micros".
Definition FeaturePreconditions : string := "jev_preconditions_micros".
Definition FeatureTaskCoverage : string := "jev_task_coverage_micros".

Definition ProviderTypeSafe : string := "typesafe".

(** [^jev-[0-9]+\.[0-9]+\.[0-9]+$] *)
Definition digits_then (sep : Z) (l : list ascii) : option (list ascii) :=
  match span_digits l with
  | (_ :: _, a :: rest) => if byte_of a =? sep then Some rest else None
  | _ => None
  end.

Definition pinnedModel (model : string) : bool :=
  String.eqb (str_take 4 model) "jev-" &&
  match digits_then 46 (list_ascii_of_string (str_drop 4 model)) with
  | Some l =>
      match digits_then 46 l with
      | Some l => match span_digits l with (_ :: _, []) => true | _ => false end
      | None => false
      end
  | None => false
  end.

Record JudgmentKeyInput := mk_JudgmentKeyInput {
  jk_TenantID : string;
  jk_QueryHash : string;
  jk_ProcedureVersionID : string;
  jk_DocumentHash : string;
  jk_EnvironmentHash : string;
  jk_PolicyManifestID : string;
  jk_RubricManifestID : string;
  jk_Provider : string;
  jk_Model : string;
  jk_PredecessorHash : string
}.

Definition key_json (k : JudgmentKeyInput) : json :=
  JObj (fstr "tenant_id" (jk_TenantID k) ++ fstr "query_hash" (jk_QueryHash k) ++
    fstr "procedure_version_id" (jk_ProcedureVersionID k) ++ fstr "document_hash" (jk_DocumentHash k) ++
    fstr "environment_hash" (jk_EnvironmentHash k) ++ fstr "policy_manifest_id" (jk_PolicyManifestID k) ++
    fstr "rubric_manifest_id" (jk_RubricManifestID k) ++ fstr "provider" (jk_Provider k) ++ fstr "model" (jk_Model k) ++
    fstr_omit "predecessor_hash" (jk_PredecessorHash k)).

Definition trim_key (k : JudgmentKeyInput) : JudgmentKeyInput :=
  mk_JudgmentKeyInput (jk_TenantID k) (jk_QueryHash k) (TrimSpace (jk_ProcedureVersionID k)) (jk_DocumentHash k)
    (jk_EnvironmentHash k) (TrimSpace (jk_PolicyManifestID k)) (TrimSpace (jk_RubricManifestID k))
    (TrimSpace (jk_Provider k)) (TrimSpace (jk_Model k)) (jk_PredecessorHash k).

Definition key_invalid (k : JudgmentKeyInput) : bool :=
  String.eqb (jk_TenantID k) "" || negb (sha256Pattern (jk_QueryHash k)) || String.eqb (jk_ProcedureVersionID k) "" ||
  negb (sha256Pattern (jk_DocumentHash k)) || negb (sha256Pattern (jk_EnvironmentHash k)) ||
  String.eqb (jk_PolicyManifestID k) "" || String.eqb (jk_RubricManifestID k) "" ||
  negb (String.eqb (jk_Provider k) ProviderTypeSafe) || negb (pinnedModel (jk_Model k)) ||
  (negb (String.eqb (jk_PredecessorHash k) "") && negb (sha256Pattern (jk_PredecessorHash k))).

Record ScoreAnswer := mk_ScoreAnswer { sa_ScoreMicros : Z; sa_ConfidenceMicros : Z; sa_ProbabilitiesMicros : list Z }.
Record NoulAnswer := mk_NoulAnswer { na_NoulMicros : Z }.

Record Judgment := mk_Judgment {
  jd_IntentFit : ScoreAnswer;
  jd_PreconditionsLikelySatisfied : NoulAnswer;
  jd_TaskCoverage : ScoreAnswer;
  jd_ContradictsRequest : NoulAnswer;
  jd_UsefulAsPartialPlan : NoulAnswer
}.

Record Feature := mk_Feature { ft_Name : string; ft_Value : Z }.

(** The total is a sum of at most ten values below 2^31 in 64 bits. *)
Definition validScore (answer : ScoreAnswer) (levels : Z) : bool :=
  negb ((sa_ScoreMicros answer <? 0) || (wrap_i32 (wrap_i32 (levels - 1) * ProbabilityScale) <? sa_ScoreMicros answer) ||
        (sa_ConfidenceMicros answer <? 0) || (ProbabilityScale <? sa_ConfidenceMicros answer) ||
        negb (Z.of_nat (length (sa_ProbabilitiesMicros answer)) =? levels)) &&
  forallb (fun p => negb ((p <? 0) || (ProbabilityScale <? p))) (sa_ProbabilitiesMicros answer) &&
  (let total := foldl (fun acc p => wrap_i64 (acc + p)) 0 (sa_ProbabilitiesMicros answer) in
   (ProbabilityScale - 1 <=? total) && (total <=? ProbabilityScale + 1)).

Definition validNoul (answer : NoulAnswer) : bool := (0 <=? na_NoulMicros answer) && (na_NoulMicros answer <=? ProbabilityScale).

Definition Features (j : Judgment) : result (list Feature) :=
  reject negb (validScore (jd_IntentFit j) 5) || negb (validScore (jd_TaskCoverage j) 5) ||
         negb (validNoul (jd_PreconditionsLikelySatisfied j)) || negb (validNoul (jd_ContradictsRequest j)) ||
         negb (validNoul (jd_UsefulAsPartialPlan j)) with ErrInvalidJudgment;
  Ok (sort_slice (cmp_ltb (cmp_on ft_Name String.compare))
    [mk_Feature FeatureIntentFit (Z.quot (sa_ScoreMicros (jd_IntentFit j)) 4);
     mk_Feature FeaturePreconditions (na_NoulMicros (jd_PreconditionsLikelySatisfied j));
     mk_Feature FeatureTaskCoverage (Z.quot (sa_ScoreMicros (jd_TaskCoverage j)) 4);
     mk_Feature FeatureNonContradiction (wrap_i32 (ProbabilityScale - na_NoulMicros (jd_ContradictsRequest j)));
     mk_Feature FeaturePartialPlan (na_NoulMicros (jd_UsefulAsPartialPlan j))]).

(** ** rubric.go *)
Definition rubricSchemaV1 : string := "jev-rubric.v1".
Definition QuestionScore : string := "score".
Definition QuestionNoul : string := "noul".

Record Question := mk_Question { qu_ID : string; qu_Type : string; qu_Instructions : string; qu_Criteria : list string }.

Record RubricManifestSpec := mk_RubricManifestSpec {
  rb_Version : string;
  rb_Provider : string;
  rb_Model : string;
  rb_AdmissionVersion : string;
  rb_QuantizationScale : Z;
  rb_Questions : list Question
}.

Record RubricManifest := mk_RubricManifest {
  rub_SchemaVersion : string;
  rub_Spec : RubricManifestSpec;
  rub_ID : string;
  rub_ContentHash : string;
  rub_CanonicalJSON : string
}.

Definition question_json (q : Question) : json :=
  JObj (fstr "id" (qu_ID q) ++ fstr "type" (qu_Type q) ++ fstr "instructions" (qu_Instructions q) ++
    fstrs "criteria" (qu_Criteria q)).

Definition rubric_json (schema : string) (s : RubricManifestSpec) : json :=
  JObj (fstr "schema_version" schema ++ fstr "version" (rb_Version s) ++ fstr "provider" (rb_Provider s) ++
    fstr "model" (rb_Model s) ++ fstr "admission_version" (rb_AdmissionVersion s) ++
    fnum "quantization_scale" (rb_QuantizationScale s) ++ farr "questions" (List.map question_json (rb_Questions s))).

Definition trim_question (q : Question) : Question :=
  mk_Question (TrimSpace (qu_ID q)) (qu_Type q) (TrimSpace (qu_Instructions q)) (List.map TrimSpace (qu_Criteria q)).

Definition question_ok (q : Question) : bool :=
  let n := Z.of_nat (length (qu_Criteria q)) in
  negb (String.eqb (qu_ID q) "" || String.eqb (qu_Instructions q) "" || (2048 <? str_len (qu_Instructions q)) ||
        (negb (String.eqb (qu_Type q) QuestionScore) && negb (String.eqb (qu_Type q) QuestionNoul)) ||
        (String.eqb (qu_Type q) QuestionScore && ((n <? 2) || (10 <? n))) ||
        (String.eqb (qu_Type q) QuestionNoul && negb (n =? 2))) &&
  forallb (fun c => negb (String.eqb c "" || (1024 <? str_len c))) (qu_Criteria q).

Definition sort_questions : list Question -> list Question := sort_slice (cmp_ltb (cmp_on qu_ID String.compare)).

(** The trimmed fields, the trimmed questions in the order given. *)
Definition trim_rubric (s : RubricManifestSpec) : RubricManifestSpec :=
  mk_RubricManifestSpec (TrimSpace (rb_Version s)) (TrimSpace (rb_Provider s)) (TrimSpace (rb_Model s))
    (TrimSpace (rb_AdmissionVersion s)) (rb_QuantizationScale s) (List.map trim_question (rb_Questions s)).

Definition set_questions (s : RubricManifestSpec) (qs : list Question) : RubricManifestSpec :=
  mk_RubricManifestSpec (rb_Version s) (rb_Provider s) (rb_Model s) (rb_AdmissionVersion s) (rb_QuantizationScale s) qs.

Definition rubric_invalid (s : RubricManifestSpec) : bool :=
  let n := Z.of_nat (length (rb_Questions s)) in
  String.eqb (rb_Version s) "" || negb (String.eqb (rb_Provider s) ProviderTypeSafe) || negb (pinnedModel (rb_Model s)) ||
  String.eqb (rb_AdmissionVersion s) "" || negb (rb_QuantizationScale s =? ProbabilityScale) || (n =? 0) || (32 <? n).

Section judgments.
Context `{JCS} `{Digest}.

Definition NewJudgmentKey (source : JudgmentKeyInput) : result string :=
  let input := trim_key source in
  reject key_invalid input with ErrInvalidJudgment;
  let* (_, hash) := MarshalAndHash (key_json input) in
  Ok ("jevj_" ++ hash)%string.

Definition NewRubricManifest (source : RubricManifestSpec) : result RubricManifest :=
  let spec := trim_rubric source in
  reject rubric_invalid spec with ErrInvalidRubric;
  reject negb (forallb question_ok (rb_Questions spec)) with ErrInvalidRubric;
  let questions := sort_questions (rb_Questions spec) in
  reject adjacent_dup String.eqb (List.map qu_ID questions) with ErrInvalidRubric;
  let spec := set_questions spec questions in
  let* (encoded, hash) := MarshalAndHash (rubric_json rubricSchemaV1 spec) in
  Ok (mk_RubricManifest rubricSchemaV1 spec ("jevr_" ++ hash)%string hash encoded).

Definition ValidateRubricManifest (m : RubricManifest) : result unit :=
  match NewRubricManifest (rub_Spec m) with
  | Err _ => Err ErrInvalidRubric
  | Ok rebuilt =>
      reject negb (String.eqb (rub_SchemaVersion m) rubricSchemaV1) || negb (String.eqb (rub_ID m) (rub_ID rebuilt)) ||
             negb (String.eqb (rub_ContentHash m) (rub_ContentHash rebuilt)) ||
             negb (String.eqb (rub_CanonicalJSON m) (rub_CanonicalJSON rebuilt)) with ErrInvalidRubric;
      Ok tt
  end.

Definition DefaultRubricV1 (model : string) : result RubricManifest :=
  NewRubricManifest (mk_RubricManifestSpec "jev.semantic-fit.v1" ProviderTypeSafe (TrimSpace model) "jev.ambiguity-band.v1"
    ProbabilityScale
    [mk_Question "intent_fit" QuestionScore "How closely does the procedure's intended outcome match the requested task?"
       ["Unrelated"; "Weakly related"; "Partially aligned"; "Strongly aligned"; "Exact intent match"];
     mk_Question "preconditions_likely_satisfied" QuestionNoul
       "Given only the supplied facts, are the procedure's semantic preconditions likely satisfied?" ["No"; "Yes"];
     mk_Question "task_coverage" QuestionScore "How much of the requested task would this procedure complete?"
       ["None"; "Small fragment"; "Material portion"; "Most"; "All"];
     mk_Question "contradicts_request" QuestionNoul
       "Would executing this procedure contradict the request or a stated constraint?" ["No"; "Yes"];
     mk_Question "useful_as_partial_plan" QuestionNoul
       "Would this procedure be useful as a safe partial plan when it does not complete the whole task?" ["No"; "Yes"]]).
End judgments.

Example quantize_cases :
  List.map ProbabilityMicros ["0"; "1"; "0.1234564"; "0.1234565"; "1e-6"; "5e-7"; "4.9e-7"; ""; "-0.1"; "1.000001"; "NaN"; "1/2"; "01"]%string =
  [Ok 0; Ok 1000000; Ok 123456; Ok 123457; Ok 1; Ok 1; Ok 0; Err ErrInvalidProbability; Err ErrInvalidProbability;
   Err ErrInvalidProbability; Err ErrInvalidProbability; Err ErrInvalidProbability; Err ErrInvalidProbability].
Proof. vm_compute. reflexivity. Qed.

(** ** The quantization is the nearest micro *)
Definition digit_list (ds : list Z) : Prop := forall d, d ∈ ds -> 0 <= d <= 9.

Lemma digit_value_range a x : digit_value a = Some x -> 0 <= x <= 9.
Proof.
  unfold digit_value. destruct (_ && _) eqn:E; [|done]. rewrite andb_true_iff, !Z.leb_le in E. intros [= <-]. lia.
Qed.

Lemma span_digits_range l ds rest : span_digits l = (ds, rest) -> digit_list ds.
Proof.
  revert ds rest. induction l as [|a l IH]; intros ds rest; simpl; [intros [= <- _]; intros d Hd; by apply not_elem_of_nil in Hd|].
  destruct (digit_value a) as [x|] eqn:Ex; [|intros [= <- _]; intros d Hd; by apply not_elem_of_nil in Hd].
  destruct (span_digits l) as [ds' rest'] eqn:Es. intros [= <- _] d [->|Hd]%elem_of_cons; [by eapply digit_value_range|].
  by eapply IH.
Qed.

Lemma number_nonneg ds : digit_list ds -> 0 <= number ds.
Proof.
  unfold number. intros Hd. assert (Hg : forall acc, 0 <= acc -> 0 <= foldl (fun acc d => acc * 10 + d) acc ds); [|by apply Hg].
  induction ds as [|d ds IH]; intros acc Ha; simpl; [done|]. apply IH; [intros x Hx; apply Hd; by right|].
  pose proof (Hd d ltac:(by left)). lia.
Qed.

Lemma parse_decimal_digits raw d : parse_decimal raw = Some d -> digit_list (dec_int d ++ dec_frac d).
Proof.
  unfold parse_decimal. destruct (span_digits (list_ascii_of_string raw)) as [ds l] eqn:Es.
  destruct (int_part_ok ds); [|done]. cbn [negb].
  assert (Hf : forall fs (l' : list ascii), digit_list fs -> forall x, match parse_tail l' with Some e => Some (mk_decimal ds fs e) | None => None end = Some x ->
    digit_list (dec_int x ++ dec_frac x)).
  { intros fs l' Hfs x. destruct (parse_tail l'); [|done]. intros [= <-]. cbn. intros y [Hy|Hy]%elem_of_app; [|by apply Hfs].
    by eapply span_digits_range. }
  assert (Hnil : digit_list []) by (intros y Hy; by apply not_elem_of_nil in Hy).
  destruct l as [|a rest]; [by apply Hf|]. destruct (byte_of a =? 46); [|by apply Hf].
  destruct (span_digits rest) as [[|f fs] l'] eqn:Ef; [done|]. apply Hf. by eapply span_digits_range.
Qed.

(** [m] is [n / d] to the nearest integer, halves up. *)
Definition nearest (n d m : Z) : Prop := 2 * d * m <= 2 * n + d < 2 * d * (m + 1).

Lemma nearest_unique n d m m' : 0 < d -> nearest n d m -> nearest n d m' -> m = m'.
Proof. unfold nearest. intros Hd H1 H2. nia. Qed.

Lemma rounded_nearest n d :
  0 <= n -> 0 < d ->
  nearest n d (if d <=? Z.shiftl (Z.rem n d) 1 then Z.quot n d + 1 else Z.quot n d).
Proof.
  intros Hn Hd. rewrite Z.shiftl_mul_pow2, Z.quot_div_nonneg, Z.rem_mod_nonneg by lia. unfold nearest.
  pose proof (Z.div_mod n d ltac:(lia)) as Hdm. pose proof (Z.mod_pos_bound n d Hd) as Hr.
  set (q := n / d) in *. set (r := n mod d) in *. clearbody q r. destruct (Z.leb_spec d (r * 2 ^ 1)); nia.
Qed.

(** The value of a decimal text as a fraction: [number digits * 10^(exponent - places)]. *)
Definition decimal_fraction (raw : string) (n d : Z) : Prop :=
  exists x e, parse_decimal raw = Some x /\ exponent_of x = Some e /\
    let k := e - Z.of_nat (length (dec_frac x)) in
    n = number (dec_int x ++ dec_frac x) * 10 ^ Z.max 0 k /\ d = 10 ^ Z.max 0 (- k).

Lemma fraction_of_spec x e :
  fraction_of x e = (number (dec_int x ++ dec_frac x) * 10 ^ Z.max 0 (e - Z.of_nat (length (dec_frac x))),
                     10 ^ Z.max 0 (- (e - Z.of_nat (length (dec_frac x))))).
Proof.
  unfold fraction_of. set (f := Z.of_nat (length (dec_frac x))). set (n := number _). clearbody f n.
  destruct (Z.ltb_spec 0 (f - e)).
  { rewrite (Z.max_l 0 (e - f)), (Z.max_r 0 (- (e - f))) by lia. rewrite Z.pow_0_r, Z.mul_1_r. do 2 f_equal. lia. }
  destruct (Z.ltb_spec (f - e) 0).
  { rewrite (Z.max_r 0 (e - f)), (Z.max_l 0 (- (e - f))) by lia. rewrite Z.pow_0_r. do 3 f_equal. lia. }
  rewrite (Z.max_l 0 (e - f)), (Z.max_l 0 (- (e - f))) by lia. by rewrite Z.pow_0_r, Z.mul_1_r.
Qed.

Lemma nearest_bound n d m k : 0 < d -> 0 <= n -> n <= d * k -> nearest n d m -> 0 <= m <= k.
Proof. unfold nearest. intros Hd Hn Hk H1. nia. Qed.

Definition text_ok (raw : string) : Prop := raw <> ""%string /\ raw = TrimSpace raw /\ str_len raw <= 128.

(** [decimalMicros] accepts exactly the decimal texts, of at most 128
    bytes and an exponent within [-1000, 1000], whose value lies between 0 and
    the maximum, and returns the value in micros rounded to the nearest
    integer, halves up, with no intermediate rounding or overflow. *)
Theorem decimalMicros_exact (raw : string) (maximumUnits m : Z) :
  0 <= maximumUnits <= 2147 ->
  decimalMicros raw maximumUnits = Ok m <->
  text_ok raw /\ exists n d, decimal_fraction raw n d /\ n <= d * maximumUnits /\ nearest (n * ProbabilityScale) d m.
Proof.
  intros Hmax. unfold decimalMicros, text_ok, decimal_fraction.
  assert (Hok : String.eqb raw "" || negb (String.eqb raw (TrimSpace raw)) || (128 <? str_len raw) = false <->
    raw <> ""%string /\ raw = TrimSpace raw /\ str_len raw <= 128) by (autorewrite with goboolsimpl; tauto).
  destruct (_ || _ || (128 <? str_len raw)).
  { split; [done|]. intros [Ht _]. by apply Hok in Ht. }
  destruct (parse_decimal raw) as [x|] eqn:Ep; [|split; [done|naive_solver]].
  destruct (exponent_of x) as [e|] eqn:Ee; [|split; [done|naive_solver]]. rewrite fraction_of_spec.
  set (n := number _ * _). set (d := 10 ^ Z.max 0 (- (e - _))).
  assert (Hd : 0 < d) by (apply Z.pow_pos_nonneg; lia).
  assert (Hn : 0 <= n) by (apply Z.mul_nonneg_nonneg; [by apply number_nonneg, (parse_decimal_digits raw)|apply Z.pow_nonneg; lia]).
  pose proof (rounded_nearest (n * ProbabilityScale) d ltac:(unfold ProbabilityScale; lia) Hd) as Hr.
  set (q := if d <=? _ then _ else _) in *.
  assert (Hiff : (exists n0 d0, (exists x0 e0, Some x = Some x0 /\ exponent_of x0 = Some e0 /\
      n0 = number (dec_int x0 ++ dec_frac x0) * 10 ^ Z.max 0 (e0 - Z.of_nat (length (dec_frac x0))) /\
      d0 = 10 ^ Z.max 0 (- (e0 - Z.of_nat (length (dec_frac x0))))) /\ n0 <= d0 * maximumUnits /\
      nearest (n0 * ProbabilityScale) d0 m) <-> n <= d * maximumUnits /\ nearest (n * ProbabilityScale) d m).
  { split; [|intros ?; exists n, d; split; [by exists x, e|done]].
    intros (n0 & d0 & (x0 & e0 & [= <-] & He0 & -> & ->) & Hle & Hnear). rewrite Ee in He0. by injection He0 as <-. }
  rewrite Hiff. clear Hiff. destruct (Z.ltb_spec (d * maximumUnits) n) as [Hgt|Hle]; [split; [done|lia]|].
  assert (Hq : 0 <= q <= maximumUnits * ProbabilityScale).
  { eapply (nearest_bound (n * ProbabilityScale) d); [done|unfold ProbabilityScale; lia|unfold ProbabilityScale; nia|exact Hr]. }
  assert (Hrange : negb ((MinInt64 <=? q) && (q <=? MaxInt64)) || (q <? 0) || (maximumUnits * ProbabilityScale <? q) = false).
  { autorewrite with goboolsimpl. unfold_widths. unfold ProbabilityScale in *. lia. }
  rewrite Hrange, wrap_i32_id by (unfold_widths; unfold ProbabilityScale in *; lia). split.
  - intros [= <-]. split; [by apply Hok|done].
  - intros (_ & _ & Hm). f_equal. by apply (nearest_unique (n * ProbabilityScale) d).
Qed.

(** ** Admission *)
Lemma scoreDistance_exact h l : in_i64 h -> in_i64 l -> l <= h -> scoreDistance h l = h - l.
Proof.
  unfold_widths. intros Hh Hl Hle. unfold scoreDistance, wrap_u64. rewrite <- Zminus_mod, Z.mod_small; lia.
Qed.

Definition not_above (a b : RankedCandidate) : Prop := rk_FinalScore b <= rk_FinalScore a.

Lemma ranks_ok_scores index prev l :
  ranks_ok index prev l = true ->
  StronglySorted not_above l /\ (forall p, prev = Some p -> forall c, c ∈ l -> not_above p c).
Proof.
  revert index prev. induction l as [|c l IH]; intros index prev Hr.
  { split; [constructor|]. intros p _ d Hd. by apply not_elem_of_nil in Hd. }
  cbn [ranks_ok] in Hr. apply andb_true_iff in Hr as [Hc Hr]. destruct (IH _ _ Hr) as [Hs Hp]. specialize (Hp c eq_refl).
  split; [constructor; [done|]; by apply Forall_forall|].
  intros p -> d Hd. autorewrite with goboolsimpl in Hc. destruct Hc as [_ Hpc]. unfold not_above in *.
  apply elem_of_cons in Hd as [->|Hd]; [done|]. specialize (Hp d Hd). lia.
Qed.

Lemma ranks_ok_ranks index prev l :
  ranks_ok index prev l = true -> Z.of_nat index + Z.of_nat (length l) <= 10000 ->
  List.map rk_Rank l = List.map (fun i => Z.of_nat i + 1) (seq index (length l)).
Proof.
  revert index prev. induction l as [|c l IH]; intros index prev Hr Hlen; [done|].
  cbn [ranks_ok length] in *. apply andb_true_iff in Hr as [Hc Hr]. simpl. rewrite (IH _ _ Hr) by lia. f_equal.
  autorewrite with goboolsimpl in Hc. destruct Hc as [[_ Hc] _]. rewrite Hc. apply wrap_u32_id. unfold_widths. lia.
Qed.

Definition within (best distance : Z) (c : RankedCandidate) : bool := best - rk_FinalScore c <=? distance.

Definition scores_typed (l : list RankedCandidate) : Prop := forall c, c ∈ l -> in_i64 (rk_FinalScore c).

Lemma admit_prefix_filter best distance l :
  in_i64 best -> scores_typed l -> (forall c, c ∈ l -> rk_FinalScore c <= best) -> StronglySorted not_above l ->
  admit_prefix best distance l = List.map rk_VersionID (List.filter (within best distance) l).
Proof.
  intros Hb Ht Hle Hs. induction Hs as [|c l Hs IH Hc]; [done|]. simpl.
  assert (Hcl : rk_FinalScore c <= best) by (apply Hle; by left). assert (Hct : in_i64 (rk_FinalScore c)) by (apply Ht; by left).
  rewrite scoreDistance_exact by done. unfold within at 1. rewrite Forall_forall in Hc.
  destruct (Z.ltb_spec distance (best - rk_FinalScore c)) as [Hout|Hin].
  - rewrite (proj2 (Z.leb_gt _ _) Hout). assert (Hnone : List.filter (within best distance) l = []); [|by rewrite Hnone].
    assert (Hall : forall d, d ∈ l -> within best distance d = false).
    { intros d Hd. specialize (Hc d Hd). unfold not_above, within in *. apply Z.leb_gt. lia. }
    clear -Hall. induction l as [|d l IH]; [done|]. simpl. rewrite (Hall d) by (by left). apply IH. intros x Hx. apply Hall. by right.
  - rewrite (proj2 (Z.leb_le _ _) Hin). simpl. f_equal. apply IH.
    + intros d Hd. apply Ht. by right.
    + intros d Hd. apply Hle. by right.
Qed.

Lemma firstn_elem {A} n (l : list A) x : x ∈ firstn n l -> x ∈ l.
Proof. intros (i & Hi & _)%elem_of_take. by eapply list_elem_of_lookup_2. Qed.

Lemma StronglySorted_firstn {A} (R : A -> A -> Prop) n l : StronglySorted R l -> StronglySorted R (firstn n l).
Proof.
  intros Hs. revert n. induction Hs as [|x l Hs IH Hx]; intros [|n]; simpl; try constructor; [apply IH|].
  rewrite Forall_forall in *. intros y Hy. apply Hx. by apply (firstn_elem n).
Qed.

Lemma Admit_sorted policy source l :
  AdmitAmbiguousCandidates policy source = Ok l ->
  let s := by_rank source in
  s ≡ₚ source /\ List.map rk_Rank s = List.map (fun i => Z.of_nat i + 1) (seq 0 (length source)) /\
  StronglySorted not_above s /\ 2 <= ap_MaximumCandidates policy <= 32 /\ 0 <= ap_AmbiguityScoreDistance policy /\
  l = match s with
      | first :: second :: _ =>
          if wrap_u64 (ap_AmbiguityScoreDistance policy) <? scoreDistance (rk_FinalScore first) (rk_FinalScore second) then []
          else admit_prefix (rk_FinalScore first) (wrap_u64 (ap_AmbiguityScoreDistance policy))
                 (firstn (Z.to_nat (Z.min (Z.of_nat (length s)) (ap_MaximumCandidates policy))) s)
      | _ => []
      end.
Proof.
  unfold AdmitAmbiguousCandidates. destruct (_ || _) eqn:E; [done|]. autorewrite with goboolsimpl in E.
  destruct E as [[[E1 E2] E3] E4]. destruct (ranks_ok 0 None (by_rank source)) eqn:Er; [|done]. cbn [negb]. intros Hl. set (s := by_rank source) in *.
  assert (Hp : s ≡ₚ source) by apply sort_slice_perm. destruct (ranks_ok_scores _ _ _ Er) as [Hs _].
  split_and!; try done; try lia.
  - rewrite (ranks_ok_ranks _ _ _ Er); [|rewrite (Permutation_length Hp); lia].
    by rewrite (Permutation_length Hp).
  - clearbody s. destruct s as [|a [|b s]]; [congruence..|]. destruct (_ <? _); congruence.
Qed.

(** The candidates are ranked 1 to n with falling scores.  None is admitted
    when there is no second one or it is further from the first than the
    ambiguity distance; otherwise exactly those of the first
    [MaximumCandidates] whose score is within the distance of the best, in rank
    order.  Distances are exact, also between scores of opposite sign. *)
Theorem Admit_exact (policy : AdmissionPolicy) (source : list RankedCandidate) (l : list string) :
  AdmitAmbiguousCandidates policy source = Ok l -> scores_typed source -> in_i64 (ap_AmbiguityScoreDistance policy) ->
  let s := by_rank source in
  s ≡ₚ source /\ List.map rk_Rank s = List.map (fun i => Z.of_nat i + 1) (seq 0 (length source)) /\
  StronglySorted not_above s /\
  l = match s with
      | first :: second :: _ =>
          if within (rk_FinalScore first) (ap_AmbiguityScoreDistance policy) second
          then List.map rk_VersionID (List.filter (within (rk_FinalScore first) (ap_AmbiguityScoreDistance policy))
                 (firstn (Z.to_nat (ap_MaximumCandidates policy)) s))
          else []
      | _ => []
      end.
Proof.
  intros Ha Ht Hd s. destruct (Admit_sorted _ _ _ Ha) as (Hp & Hr & Hs & Hm & H0 & Hl). fold s in Hp, Hr, Hs, Hl.
  split_and!; try done. rewrite Hl. clear Hl. unfold_widths. rewrite wrap_u64_id by (unfold_widths; lia).
  assert (Hts : scores_typed s) by (intros c Hc; rewrite Hp in Hc; by apply Ht). clearbody s.
  destruct s as [|a [|b s]]; [done..|]. assert (Hba : rk_FinalScore b <= rk_FinalScore a).
  { inversion Hs as [|? ? _ Hf]; subst. by inversion Hf. }
  assert (Hta : in_i64 (rk_FinalScore a)) by (apply Hts; by left).
  assert (Htb : in_i64 (rk_FinalScore b)) by (apply Hts; right; by left).
  rewrite scoreDistance_exact by done. unfold within at 1.
  destruct (Z.ltb_spec (ap_AmbiguityScoreDistance policy) (rk_FinalScore a - rk_FinalScore b));
    destruct (Z.leb_spec (rk_FinalScore a - rk_FinalScore b) (ap_AmbiguityScoreDistance policy)); try lia; [done|].
  replace (firstn (Z.to_nat (Z.min _ _)) (a :: b :: s)) with (firstn (Z.to_nat (ap_MaximumCandidates policy)) (a :: b :: s)).
  2: { destruct (Z.le_gt_cases (ap_MaximumCandidates policy) (Z.of_nat (length (a :: b :: s)))); [by rewrite Z.min_r|].
       rewrite Z.min_l, Nat2Z.id, firstn_all, firstn_all2 by lia. done. }
  apply admit_prefix_filter; [done| | |by apply StronglySorted_firstn].
  - intros c Hc%firstn_elem. by apply Hts.
  - intros c Hc%firstn_elem. apply elem_of_cons in Hc as [->|Hc]; [lia|]. inversion Hs as [|? ? _ Hf]; subst.
    rewrite Forall_forall in Hf. by apply Hf.
Qed.

(** ** Features *)
Lemma validScore_range answer : validScore answer 5 = true -> 0 <= sa_ScoreMicros answer <= 4 * ProbabilityScale.
Proof.
  unfold validScore. rewrite !andb_true_iff. intros [[Hs _] _]. autorewrite with goboolsimpl in Hs.
  destruct Hs as ((((H1 & H2) & _) & _) & _). change (wrap_i32 (wrap_i32 (5 - 1) * ProbabilityScale)) with 4000000 in H2.
  unfold ProbabilityScale. lia.
Qed.

(** A judgment with valid answers gives its five features, by name, each within [0, 1000000] micros. *)
Lemma Features_bounded j fs :
  Features j = Ok fs ->
  List.map ft_Name fs = [FeatureIntentFit; FeatureNonContradiction; FeaturePartialPlan; FeaturePreconditions; FeatureTaskCoverage] /\
  forall f, f ∈ fs -> 0 <= ft_Value f <= ProbabilityScale.
Proof.
  unfold Features. destruct (_ || _) eqn:E; [done|]. rewrite !orb_false_iff, !negb_false_iff in E.
  destruct E as ((((H1 & H2) & H3) & H4) & H5). intros [= <-]. split; [reflexivity|]. intros f Hf.
  apply validScore_range in H1, H2. unfold validNoul in *. rewrite andb_true_iff, !Z.leb_le in H3, H4, H5.
  unfold ProbabilityScale in *. rewrite !elem_of_cons in Hf.
  destruct Hf as [->|[->|[->|[->|[->|Hf%not_elem_of_nil]]]]]; [..|done]; cbn [ft_Value]; try lia.
  - split; [apply Z.quot_pos; lia|]. apply Z.quot_le_upper_bound; lia.
  - rewrite wrap_i32_id by (unfold_widths; lia). lia.
  - split; [apply Z.quot_pos; lia|]. apply Z.quot_le_upper_bound; lia.
Qed.

(** ** The tolerance of the probability total

    Each of five probabilities is rounded on its own, so the total of a
    distribution that sums to exactly one can be two micros off, while
    [validScore] allows one. *)
Definition uneven : list string := ["0.2000005"; "0.2000005"; "0.2000005"; "0.2000005"; "0.1999980"].

Lemma exact_distribution_rejected :
  (exists ns, Forall2 (fun raw n => decimal_fraction raw n 10000000) uneven ns /\ zsum id ns = 10000000) /\
  exists ps, Forall2 (fun raw p => ProbabilityMicros raw = Ok p) uneven ps /\
    forall score confidence, validScore (mk_ScoreAnswer score confidence ps) 5 = false.
Proof.
  split.
  - exists [2000005; 2000005; 2000005; 2000005; 1999980]. split; [|reflexivity].
    repeat constructor; (eexists _, 0; split; [vm_compute; reflexivity|split; [reflexivity|split; reflexivity]]).
  - exists [200001; 200001; 200001; 200001; 199998]. split; [repeat constructor|].
    intros score confidence. unfold validScore. cbn [sa_ProbabilitiesMicros]. rewrite andb_false_iff. right. reflexivity.
Qed.

(** ** Rubrics *)
Section rubrics.
Context `{JCS} `{Digest}.

Lemma trim_question_idem q : trim_question (trim_question q) = trim_question q.
Proof.
  unfold trim_question. cbn [qu_ID qu_Type qu_Instructions qu_Criteria]. rewrite !TrimSpace_idem, List.map_map. f_equal. apply List.map_ext. intros c. apply TrimSpace_idem.
Qed.

Lemma sort_questions_idem l : sort_questions (sort_questions l) = sort_questions l.
Proof. apply (sort_slice_id (cmp_on qu_ID String.compare)), sort_slice_sorted. typeclasses eauto. Qed.

Lemma sort_questions_trimmed l : List.map trim_question (sort_questions (List.map trim_question l)) = sort_questions (List.map trim_question l).
Proof.
  rewrite <- (List.map_id (sort_questions _)) at 2. apply List.map_ext_in. intros q Hq%list_elem_of_In.
  unfold sort_questions in Hq. rewrite sort_slice_elem in Hq. apply list_elem_of_In, in_map_iff in Hq as (q' & <- & _).
  apply trim_question_idem.
Qed.

(** The specification that [NewRubricManifest] seals is a fixed point of its normalization. *)
Lemma NewRubric_sealed spec m :
  NewRubricManifest spec = Ok m ->
  let s := rub_Spec m in
  trim_rubric s = s /\ rubric_invalid s = false /\ forallb question_ok (rb_Questions s) = true /\
  sort_questions (rb_Questions s) = rb_Questions s /\ adjacent_dup String.eqb (List.map qu_ID (rb_Questions s)) = false /\
  exists enc h, MarshalAndHash (rubric_json rubricSchemaV1 s) = Ok (enc, h) /\
    m = mk_RubricManifest rubricSchemaV1 s ("jevr_" ++ h)%string h enc.
Proof.
  unfold NewRubricManifest. destruct (rubric_invalid _) eqn:E1; [done|]. destruct (forallb _ _) eqn:E2; [|done].
  destruct (adjacent_dup _ _) eqn:E3; [done|]. cbn [negb].
  set (s := set_questions (trim_rubric spec) (sort_questions (rb_Questions (trim_rubric spec)))).
  assert (Hs : trim_rubric s = s /\ rubric_invalid s = false /\ forallb question_ok (rb_Questions s) = true /\
    sort_questions (rb_Questions s) = rb_Questions s /\ adjacent_dup String.eqb (List.map qu_ID (rb_Questions s)) = false).
  { split_and!.
    - unfold s, trim_rubric, set_questions. cbn [rb_Version rb_Provider rb_Model rb_AdmissionVersion rb_QuantizationScale rb_Questions trim_rubric set_questions]. by rewrite !TrimSpace_idem, sort_questions_trimmed.
    - revert E1. unfold s, rubric_invalid, sort_questions. cbn [rb_Version rb_Provider rb_Model rb_AdmissionVersion rb_QuantizationScale rb_Questions trim_rubric set_questions]. by rewrite sort_slice_length.
    - rewrite <- E2. apply forallb_perm, sort_slice_perm.
    - apply sort_questions_idem.
    - exact E3. }
  clearbody s. destruct (MarshalAndHash _) as [[enc h]|] eqn:Em; [|done]. intros [= <-]. cbn [rub_Spec].
  destruct Hs as (? & ? & ? & ? & ?). split_and!; try done. by exists enc, h.
Qed.

(** A rubric built by [NewRubricManifest] passes [ValidateRubricManifest]. *)
Lemma NewRubric_validates spec m : NewRubricManifest spec = Ok m -> ValidateRubricManifest m = Ok tt.
Proof.
  intros (Ht & Hi & Hq & Hs & Hd & enc & h & Hm & Heq)%NewRubric_sealed.
  assert (Hre : NewRubricManifest (rub_Spec m) = Ok m).
  { unfold NewRubricManifest. rewrite Ht, Hi, Hq, Hs, Hd. cbn [negb].
    assert (Hset : set_questions (rub_Spec m) (rb_Questions (rub_Spec m)) = rub_Spec m) by (by destruct (rub_Spec m)).
    rewrite Hset, Hm. cbn [bind]. by rewrite <- Heq. }
  unfold ValidateRubricManifest. rewrite Hre, !str_eqb_refl. by rewrite Heq.
Qed.
End rubrics.

(** ** Witnesses *)
Lemma decimalMicros_exact_witness :
  decimalMicros "1.23456749e-1" 4 = Ok 123457 <->
  text_ok "1.23456749e-1" /\
  exists n d, decimal_fraction "1.23456749e-1" n d /\ n <= d * 4 /\ nearest (n * ProbabilityScale) d 123457.
Proof. apply (decimalMicros_exact "1.23456749e-1" 4 123457). lia. Defined.

Definition close_candidates : list RankedCandidate :=
  [mk_RankedCandidate "c" 3 850; mk_RankedCandidate "a" 1 1000; mk_RankedCandidate "b" 2 950; mk_RankedCandidate "d" 4 840].

Lemma Admit_exact_witness :
  AdmitAmbiguousCandidates (mk_AdmissionPolicy 3 100) close_candidates = Ok ["a"; "b"]%string /\
  List.map rk_Rank (by_rank close_candidates) = [1; 2; 3; 4].
Proof.
  assert (Ha : AdmitAmbiguousCandidates (mk_AdmissionPolicy 3 100) close_candidates = Ok ["a"; "b"]%string) by reflexivity.
  split; [exact Ha|]. destruct (Admit_exact _ _ _ Ha) as (_ & Hr & _); [|unfold_widths; cbn; lia|exact Hr].
  intros c Hc. unfold close_candidates in Hc. rewrite !elem_of_cons in Hc.
  destruct Hc as [->|[->|[->|[->|Hc%not_elem_of_nil]]]]; [..|done]; unfold_widths; cbn; lia.
Defined.

Example quantized_half_up : decimalMicros "1.23456749e-1" 4 = Ok 123457 /\ decimalMicros "4.0000001" 4 = Err ErrInvalidProbability.
Proof. split; vm_compute; reflexivity. Qed.
