(* ===== verification/JevLedger.v ===== *)
(** * The ledger of judgments and the circuit breaker (internal/jev)

    [repository.go]: sealed judgment records and the in-memory ledger, whose
    [Commit] is a compare-and-swap on the head of a chain of records.
    [service.go]: the circuit breaker that guards calls to the provider.

    [Commit_linked] and [Commit_single_winner] give the ledger's contract,
    [NewJudgmentRecord_validates] the round trip of the seal.
    [breaker_never_stuck] shows on every interleaving of calls that the breaker
    cannot stay closed to probes, [breaker_trips] that an open breaker lets no
    call through; [two_probes_in_flight] is an interleaving with two probes. *)

From Stdlib Require Import ZArith String Ascii List Bool Lia.
From stdpp Require Import base gmap strings list sorting.
From S2P Require Import Prelude GoStrings GoTime Canonical Jev.

Open Scope Z_scope.
Open Scope go_scope.

(** ** Records *)
Record Usage := mk_Usage { us_InputTokens : Z; us_OutputTokens : Z }.

Record JudgmentRecordInput := mk_JudgmentRecordInput {
  ji_KeyInput : JudgmentKeyInput;
  ji_Judgment : Judgment;
  ji_Usage : Usage;
  ji_CreatedAt : gotime;
  ji_ReusableUntil : gotime
}.

Record JudgmentRecord := mk_JudgmentRecord {
  jr_SchemaVersion : string;
  jr_Key : string;
  jr_BaseKey : string;
  jr_Input : JudgmentKeyInput;
  jr_Judgment : Judgment;
  jr_Features : list Feature;
  jr_Usage : Usage;
  jr_CreatedAt : gotime;
  jr_ReusableUntil : gotime;
  jr_ContentHash : string;
  jr_CanonicalJSON : string
}.

(** The ten identity fields of a record are kept as its key input. *)
Definition jr_TenantID (r : JudgmentRecord) : string := jk_TenantID (jr_Input r).
Definition jr_PredecessorHash (r : JudgmentRecord) : string := jk_PredecessorHash (jr_Input r).

Definition judgmentSchemaV1 : string := "jev-judgment.v1".
Definition judgmentSchemaV2 : string := "jev-judgment.v2".

Definition score_json (a : ScoreAnswer) : json :=
  JObj (fnum "score_micros" (sa_ScoreMicros a) ++ fnum "confidence_micros" (sa_ConfidenceMicros a) ++
    farr "probabilities_micros" (List.map JNum (sa_ProbabilitiesMicros a))).
Definition noul_json (a : NoulAnswer) : json := JObj (fnum "noul_micros" (na_NoulMicros a)).
Definition judgment_json (j : Judgment) : json :=
  JObj (fld "intent_fit" (score_json (jd_IntentFit j)) ++
    fld "preconditions_likely_satisfied" (noul_json (jd_PreconditionsLikelySatisfied j)) ++
    fld "task_coverage" (score_json (jd_TaskCoverage j)) ++
    fld "contradicts_request" (noul_json (jd_ContradictsRequest j)) ++
    fld "useful_as_partial_plan" (noul_json (jd_UsefulAsPartialPlan j))).
Definition jev_feature_json (f : Feature) : json := JObj (fstr "name" (ft_Name f) ++ fnum "value" (ft_Value f)).
Definition usage_json (u : Usage) : json :=
  JObj (fnum "input_tokens" (us_InputTokens u) ++ fnum "output_tokens" (us_OutputTokens u)).

Definition judgment_record_json (r : JudgmentRecord) : json :=
  let k := jr_Input r in
  JObj (fstr "schema_version" (jr_SchemaVersion r) ++ fstr "key" (jr_Key r) ++ fstr_omit "base_key" (jr_BaseKey r) ++
    fstr_omit "predecessor_hash" (jk_PredecessorHash k) ++ fstr "tenant_id" (jk_TenantID k) ++
    fstr "query_hash" (jk_QueryHash k) ++ fstr "procedure_version_id" (jk_ProcedureVersionID k) ++
    fstr "document_hash" (jk_DocumentHash k) ++ fstr "environment_hash" (jk_EnvironmentHash k) ++
    fstr "policy_manifest_id" (jk_PolicyManifestID k) ++ fstr "rubric_manifest_id" (jk_RubricManifestID k) ++
    fstr "provider" (jk_Provider k) ++ fstr "model" (jk_Model k) ++ fld "judgment" (judgment_json (jr_Judgment r)) ++
    farr "features" (List.map jev_feature_json (jr_Features r)) ++ fld "usage" (usage_json (jr_Usage r)) ++
    ftime "created_at" (jr_CreatedAt r) ++ ftime "reusable_until" (jr_ReusableUntil r)).

Definition set_predecessor (k : JudgmentKeyInput) (h : string) : JudgmentKeyInput :=
  mk_JudgmentKeyInput (jk_TenantID k) (jk_QueryHash k) (jk_ProcedureVersionID k) (jk_DocumentHash k) (jk_EnvironmentHash k)
    (jk_PolicyManifestID k) (jk_RubricManifestID k) (jk_Provider k) (jk_Model k) h.

Definition usage_invalid (u : Usage) : bool :=
  (us_InputTokens u <? 0) || (us_OutputTokens u <? 0) || (100000000 <? us_InputTokens u) || (100000000 <? us_OutputTokens u).

Record MemoryRepository := mk_ledger { records : gmap string JudgmentRecord; heads : gmap string string }.

Definition NewMemoryRepository : MemoryRepository := mk_ledger ∅ ∅.

Definition judgmentRepositoryKey (tenantID key : string) : string := (tenantID ++ nul ++ key)%string.

(** The record at the head of a base key: the head's key, or the base key itself when there is none. *)
Definition head_key (r : MemoryRepository) (tenantID baseKey : string) : string :=
  match heads r !! judgmentRepositoryKey tenantID baseKey with
  | Some k => if String.eqb k "" then baseKey else k
  | None => baseKey
  end.

Definition head_record (r : MemoryRepository) (tenantID baseKey : string) : option JudgmentRecord :=
  records r !! judgmentRepositoryKey tenantID (head_key r tenantID baseKey).

Section ledger.
Context `{JCS} `{Digest}.

Definition record_times_invalid (createdAt reusableUntil : gotime) : bool :=
  IsZero createdAt || negb (After reusableUntil createdAt) || After reusableUntil (time_Add createdAt (365 * 24 * Hour)).

Definition NewJudgmentRecord (input : JudgmentRecordInput) : result JudgmentRecord :=
  match NewJudgmentKey (ji_KeyInput input), NewJudgmentKey (set_predecessor (ji_KeyInput input) "") with
  | Ok key, Ok baseKey =>
      reject record_times_invalid (ji_CreatedAt input) (ji_ReusableUntil input) || usage_invalid (ji_Usage input)
        with ErrInvalidJudgment;
      let* features := Features (ji_Judgment input) in
      let record hash encoded := mk_JudgmentRecord judgmentSchemaV2 key baseKey (trim_key (ji_KeyInput input)) (ji_Judgment input)
        features (ji_Usage input) (UTC (ji_CreatedAt input)) (UTC (ji_ReusableUntil input)) hash encoded in
      let* (encoded, hash) := MarshalAndHash (judgment_record_json (record "" "")%string) in
      Ok (record hash encoded)
  | _, _ => Err ErrInvalidJudgment
  end.

Definition unsealed_record (r : JudgmentRecord) : JudgmentRecord :=
  mk_JudgmentRecord (jr_SchemaVersion r) (jr_Key r) (jr_BaseKey r) (jr_Input r) (jr_Judgment r) (jr_Features r) (jr_Usage r)
    (jr_CreatedAt r) (jr_ReusableUntil r) "" "".

Definition validateLegacyJudgmentRecord (r : JudgmentRecord) : result unit :=
  reject negb (String.eqb (jr_BaseKey r) "") || negb (String.eqb (jr_PredecessorHash r) "") with ErrInvalidJudgment;
  match NewJudgmentKey (set_predecessor (jr_Input r) "") with
  | Err _ => Err ErrInvalidJudgment
  | Ok key =>
      reject negb (String.eqb key (jr_Key r)) || IsZero (jr_CreatedAt r) || negb (After (jr_ReusableUntil r) (jr_CreatedAt r)) ||
             (us_InputTokens (jr_Usage r) <? 0) || (us_OutputTokens (jr_Usage r) <? 0) with ErrInvalidJudgment;
      reject failed (Features (jr_Judgment r)) with ErrInvalidJudgment;
      match MarshalAndHash (judgment_record_json (unsealed_record r)) with
      | Err _ => Err ErrInvalidJudgment
      | Ok (encoded, hash) =>
          reject negb (String.eqb hash (jr_ContentHash r)) || negb (String.eqb encoded (jr_CanonicalJSON r)) with ErrInvalidJudgment;
          Ok tt
      end
  end.

Definition ValidateJudgmentRecord (r : JudgmentRecord) : result unit :=
  reject (negb (String.eqb (jr_SchemaVersion r) judgmentSchemaV1) && negb (String.eqb (jr_SchemaVersion r) judgmentSchemaV2)) ||
         negb (HasPrefix (jr_Key r) "jevj_") || negb (sha256Pattern (jr_ContentHash r)) || (str_len (jr_CanonicalJSON r) =? 0)
    with ErrInvalidJudgment;
  if String.eqb (jr_SchemaVersion r) judgmentSchemaV1 then validateLegacyJudgmentRecord r
  else
    match NewJudgmentRecord (mk_JudgmentRecordInput (jr_Input r) (jr_Judgment r) (jr_Usage r) (jr_CreatedAt r) (jr_ReusableUntil r)) with
    | Err _ => Err ErrInvalidJudgment
    | Ok rebuilt =>
        reject negb (String.eqb (jr_Key rebuilt) (jr_Key r)) || negb (String.eqb (jr_ContentHash rebuilt) (jr_ContentHash r)) ||
               negb (String.eqb (jr_CanonicalJSON rebuilt) (jr_CanonicalJSON r)) with ErrInvalidJudgment;
        Ok tt
    end.

(** The operations on a repository that is not nil. *)
Definition Current (r : MemoryRepository) (ctx : option goerr) (tenantID baseKey : string) : result JudgmentRecord :=
  match ctx with
  | Some e => Err e
  | None =>
      reject String.eqb tenantID "" || negb (HasPrefix baseKey "jevj_") with ErrJudgmentNotFound;
      match head_record r tenantID baseKey with
      | None => Err ErrJudgmentNotFound
      | Some record => reject failed (ValidateJudgmentRecord record) with ErrJudgmentNotFound; Ok record
      end
  end.

(** [ctx] is read on entry and again by [Current]. *)
Definition LookupReusable (r : MemoryRepository) (ctx ctx' : option goerr) (tenantID key : string) (now : gotime) : result JudgmentRecord :=
  match ctx with
  | Some e => Err e
  | None =>
      reject String.eqb tenantID "" || negb (HasPrefix key "jevj_") || IsZero now with ErrJudgmentNotFound;
      let* record := Current r ctx' tenantID key in
      reject negb (Before (UTC now) (jr_ReusableUntil record)) with ErrJudgmentNotFound;
      Ok record
  end.

(** The last part of [Commit]: the record under its key, and the head. *)
Definition store_record (r : MemoryRepository) (baseKey : string) (record : JudgmentRecord)
    : result (JudgmentRecord * bool) * MemoryRepository :=
  let headKey := judgmentRepositoryKey (jr_TenantID record) baseKey in
  let key := judgmentRepositoryKey (jr_TenantID record) (jr_Key record) in
  if match records r !! key with
     | Some existing => negb (String.eqb (jr_ContentHash existing) (jr_ContentHash record))
     | None => false
     end
  then (Err ErrInvalidJudgment, r)
  else (Ok (record, true), mk_ledger (<[key := record]> (records r)) (<[headKey := jr_Key record]> (heads r))).

(** The winner, and whether the given record was stored. *)
Definition Commit (r : MemoryRepository) (ctx : option goerr) (baseKey expectedPredecessorHash : string) (record : JudgmentRecord)
    : result (JudgmentRecord * bool) * MemoryRepository :=
  match ctx with
  | Some e => (Err e, r)
  | None =>
      if failed (ValidateJudgmentRecord record) || negb (String.eqb (jr_BaseKey record) baseKey) ||
         negb (String.eqb (jr_PredecessorHash record) expectedPredecessorHash)
      then (Err ErrInvalidJudgment, r)
      else
        match head_record r (jr_TenantID record) baseKey with
        | Some current =>
            if negb (String.eqb (jr_ContentHash current) expectedPredecessorHash) then (Ok (current, false), r)
            else if Before (jr_CreatedAt record) (jr_ReusableUntil current) then (Ok (current, false), r)
            else store_record r baseKey record
        | None => if negb (String.eqb expectedPredecessorHash "") then (Err ErrInvalidJudgment, r) else store_record r baseKey record
        end
  end.
End ledger.

(** ** The circuit breaker *)
Record circuitBreaker := mk_breaker {
  cb_threshold : Z;
  cb_openDuration : Z;
  cb_failures : Z;
  cb_openUntil : gotime;
  cb_probe : bool
}.

Definition Allow (b : circuitBreaker) (now : gotime) : bool * circuitBreaker :=
  if IsZero (cb_openUntil b) then (true, b)
  else if Before now (cb_openUntil b) || cb_probe b then (false, b)
  else (true, mk_breaker (cb_threshold b) (cb_openDuration b) (cb_failures b) (cb_openUntil b) true).

Definition Success (b : circuitBreaker) : circuitBreaker :=
  mk_breaker (cb_threshold b) (cb_openDuration b) 0 zero_time false.

Definition Failure (b : circuitBreaker) (now : gotime) (immediate : bool) : circuitBreaker :=
  let failures := wrap_u32 (cb_failures b + 1) in
  mk_breaker (cb_threshold b) (cb_openDuration b) failures
    (if immediate || (cb_threshold b <=? failures) then time_Add now (cb_openDuration b) else cb_openUntil b) false.

Definition AbandonProbe (b : circuitBreaker) : circuitBreaker :=
  mk_breaker (cb_threshold b) (cb_openDuration b) (cb_failures b) (cb_openUntil b) false.

(** ** Sealed records pass their validator *)
Section sealed.
Context `{JCS} `{Digest}.

Lemma trim_key_idem k : trim_key (trim_key k) = trim_key k.
Proof.
  unfold trim_key. cbn [jk_TenantID jk_QueryHash jk_ProcedureVersionID jk_DocumentHash jk_EnvironmentHash jk_PolicyManifestID
    jk_RubricManifestID jk_Provider jk_Model jk_PredecessorHash]. by rewrite !TrimSpace_idem.
Qed.

Lemma NewJudgmentKey_trim k : NewJudgmentKey (trim_key k) = NewJudgmentKey k.
Proof. unfold NewJudgmentKey. by rewrite trim_key_idem. Qed.

Lemma NewJudgmentKey_base_trim k h : NewJudgmentKey (set_predecessor (trim_key k) h) = NewJudgmentKey (set_predecessor k h).
Proof. rewrite <- (NewJudgmentKey_trim (set_predecessor k h)). reflexivity. Qed.

Lemma NewJudgmentKey_prefix k key : NewJudgmentKey k = Ok key -> HasPrefix key "jevj_" = true /\ key <> ""%string.
Proof.
  unfold NewJudgmentKey. destruct (key_invalid _); [done|]. destruct (MarshalAndHash _) as [[? h]|]; [|done].
  cbn [bind]. intros [= <-]. split; [reflexivity|discriminate].
Qed.

Lemma NewJudgmentRecord_inv input r :
  NewJudgmentRecord input = Ok r ->
  NewJudgmentKey (ji_KeyInput input) = Ok (jr_Key r) /\
  NewJudgmentKey (set_predecessor (ji_KeyInput input) "") = Ok (jr_BaseKey r) /\
  record_times_invalid (ji_CreatedAt input) (ji_ReusableUntil input) || usage_invalid (ji_Usage input) = false /\
  Features (ji_Judgment input) = Ok (jr_Features r) /\
  MarshalAndHash (judgment_record_json (unsealed_record r)) = Ok (jr_CanonicalJSON r, jr_ContentHash r) /\
  r = mk_JudgmentRecord judgmentSchemaV2 (jr_Key r) (jr_BaseKey r) (trim_key (ji_KeyInput input)) (ji_Judgment input)
        (jr_Features r) (ji_Usage input) (UTC (ji_CreatedAt input)) (UTC (ji_ReusableUntil input)) (jr_ContentHash r) (jr_CanonicalJSON r).
Proof.
  unfold NewJudgmentRecord. destruct (NewJudgmentKey (ji_KeyInput input)) as [key|]; [|done].
  destruct (NewJudgmentKey (set_predecessor _ _)) as [base|]; [|done]. destruct (_ || usage_invalid _) eqn:E; [done|].
  destruct (Features _) as [fs|]; [|done]. cbn [bind]. destruct (MarshalAndHash _) as [[enc h]|] eqn:Em; [|done].
  cbn [bind]. intros [= <-]. by split_and!.
Qed.

Lemma NewJudgmentRecord_again input r :
  NewJudgmentRecord input = Ok r ->
  NewJudgmentRecord (mk_JudgmentRecordInput (jr_Input r) (jr_Judgment r) (jr_Usage r) (jr_CreatedAt r) (jr_ReusableUntil r)) = Ok r.
Proof.
  intros (Hk & Hb & Hg & Hf & Hm & Hr)%NewJudgmentRecord_inv. revert Hk Hb Hf Hm Hr.
  generalize (jr_Key r) (jr_BaseKey r) (jr_Features r) (jr_ContentHash r) (jr_CanonicalJSON r). intros key base fs hash enc Hk Hb Hf Hm ->.
  cbn [jr_Input jr_Judgment jr_Usage jr_CreatedAt jr_ReusableUntil]. unfold NewJudgmentRecord.
  cbn [ji_KeyInput ji_Judgment ji_Usage ji_CreatedAt ji_ReusableUntil]. rewrite NewJudgmentKey_trim, NewJudgmentKey_base_trim, Hk, Hb.
  change (record_times_invalid (UTC (ji_CreatedAt input)) (UTC (ji_ReusableUntil input)))
    with (record_times_invalid (ji_CreatedAt input) (ji_ReusableUntil input)).
  rewrite Hg, Hf. cbn [bind]. rewrite trim_key_idem.
  change (UTC (UTC (ji_CreatedAt input))) with (UTC (ji_CreatedAt input)).
  change (UTC (UTC (ji_ReusableUntil input))) with (UTC (ji_ReusableUntil input)).
  unfold unsealed_record in Hm. cbn [jr_SchemaVersion jr_Key jr_BaseKey jr_Input jr_Judgment jr_Features jr_Usage jr_CreatedAt
    jr_ReusableUntil] in Hm. by rewrite Hm.
Qed.

(** A judgment record that [NewJudgmentRecord] seals with non-empty
    canonical bytes passes [ValidateJudgmentRecord], and rebuilding it from its
    own fields gives the same record. *)
Theorem NewJudgmentRecord_validates (input : JudgmentRecordInput) (r : JudgmentRecord) :
  NewJudgmentRecord input = Ok r -> str_len (jr_CanonicalJSON r) <> 0 ->
  ValidateJudgmentRecord r = Ok tt /\
  NewJudgmentRecord (mk_JudgmentRecordInput (jr_Input r) (jr_Judgment r) (jr_Usage r) (jr_CreatedAt r) (jr_ReusableUntil r)) = Ok r.
Proof.
  intros Hn Hlen. pose proof (NewJudgmentRecord_again _ _ Hn) as Hre. split; [|done].
  destruct (NewJudgmentRecord_inv _ _ Hn) as (Hk & _ & _ & _ & Hm & Hr). destruct (NewJudgmentKey_prefix _ _ Hk) as [Hp _].
  unfold ValidateJudgmentRecord. rewrite Hre, Hp, (MarshalAndHash_pattern _ _ _ Hm), !str_eqb_refl.
  assert (Hs : jr_SchemaVersion r = judgmentSchemaV2) by (by rewrite Hr). rewrite Hs.
  rewrite (proj2 (Z.eqb_neq _ _) Hlen). reflexivity.
Qed.

(** ** The ledger is a chain *)
Lemma head_record_new r t base key rec :
  key <> ""%string ->
  head_record (mk_ledger (<[judgmentRepositoryKey t key := rec]> (records r)) (<[judgmentRepositoryKey t base := key]> (heads r))) t base =
  Some rec.
Proof.
  intros Hk. unfold head_record, head_key. cbn [heads records]. rewrite lookup_insert_eq.
  apply String.eqb_neq in Hk. rewrite Hk. apply lookup_insert_eq.
Qed.

Lemma valid_record_key rec : ValidateJudgmentRecord rec = Ok tt -> jr_Key rec <> ""%string.
Proof.
  unfold ValidateJudgmentRecord. destruct (_ || _) eqn:E; [done|]. autorewrite with goboolsimpl in E.
  destruct E as (((_ & Hp) & _) & _). intros _ Heq. rewrite Heq in Hp. done.
Qed.

(** What [Commit] answers, by the head of the chain. *)
Lemma Commit_ledger_cases r ctx base exp rec w created r' :
  Commit r ctx base exp rec = (Ok (w, created), r') ->
  ValidateJudgmentRecord rec = Ok tt /\ jr_BaseKey rec = base /\ jr_PredecessorHash rec = exp /\
  (created = false /\ r' = r /\ head_record r (jr_TenantID rec) base = Some w /\
     (jr_ContentHash w <> exp \/ Before (jr_CreatedAt rec) (jr_ReusableUntil w) = true) \/
   created = true /\ w = rec /\
     r' = mk_ledger (<[judgmentRepositoryKey (jr_TenantID rec) (jr_Key rec) := rec]> (records r))
                    (<[judgmentRepositoryKey (jr_TenantID rec) base := jr_Key rec]> (heads r)) /\
     match head_record r (jr_TenantID rec) base with
     | Some c => jr_ContentHash c = exp /\ Before (jr_CreatedAt rec) (jr_ReusableUntil c) = false
     | None => exp = ""%string
     end /\
     (forall old, records r !! judgmentRepositoryKey (jr_TenantID rec) (jr_Key rec) = Some old -> jr_ContentHash old = jr_ContentHash rec)).
Proof.
  unfold Commit. destruct ctx; [done|]. destruct (ValidateJudgmentRecord rec) as [[]|]; [|done]. cbn [failed is_ok negb orb].
  destruct (String.eqb_spec (jr_BaseKey rec) base) as [Hb|]; [|done].
  destruct (String.eqb_spec (jr_PredecessorHash rec) exp) as [Hp|]; [|done]. cbn [negb orb].
  assert (Hstore : store_record r base rec = (Ok (w, created), r') -> created = true /\ w = rec /\
     r' = mk_ledger (<[judgmentRepositoryKey (jr_TenantID rec) (jr_Key rec) := rec]> (records r))
                    (<[judgmentRepositoryKey (jr_TenantID rec) base := jr_Key rec]> (heads r)) /\
     (forall old, records r !! judgmentRepositoryKey (jr_TenantID rec) (jr_Key rec) = Some old -> jr_ContentHash old = jr_ContentHash rec)).
  { unfold store_record. destruct (records r !! _) as [old|]; [|intros [= <- <- <-]; by split_and!].
    destruct (String.eqb_spec (jr_ContentHash old) (jr_ContentHash rec)) as [Heq|]; [|done]. cbn [negb]. intros [= <- <- <-].
    split_and!; try done. intros ? [= <-]. done. }
  intros Hc. split_and!; try done. destruct (head_record r (jr_TenantID rec) base) as [c|].
  - destruct (String.eqb_spec (jr_ContentHash c) exp) as [Heq|Hne]; cbn [negb] in Hc.
    + destruct (Before _ _) eqn:Eb; [injection Hc as <- <- <-; left; split_and!; try done; by right|].
      right. destruct (Hstore Hc) as (-> & -> & -> & Hold). by split_and!.
    + injection Hc as <- <- <-. left. split_and!; try done. by left.
  - destruct (String.eqb_spec exp "") as [->|]; cbn [negb] in Hc; [|done].
    right. destruct (Hstore Hc) as (-> & -> & -> & Hold). by split_and!.
Qed.

(** The judgments of a base key form a chain: a commit that stores a
    record makes it the head, linked to the previous head by its content hash
    (or to nothing when there was none), and only once the previous head is no
    longer reusable, so reuse windows do not overlap; every other commit
    returns the current head and leaves the ledger as it was.  The content
    under a stored key never changes. *)
Theorem Commit_linked (r r' : MemoryRepository) (ctx : option goerr) (base exp : string) (rec w : JudgmentRecord) (created : bool) :
  Commit r ctx base exp rec = (Ok (w, created), r') ->
  head_record r' (jr_TenantID rec) base = Some w /\
  (created = false -> r' = r) /\
  (created = true -> w = rec /\
     match head_record r (jr_TenantID rec) base with
     | Some c => jr_PredecessorHash rec = jr_ContentHash c /\ t_ns (jr_ReusableUntil c) <= t_ns (jr_CreatedAt rec)
     | None => jr_PredecessorHash rec = ""%string
     end) /\
  (forall k old, records r !! k = Some old -> exists new, records r' !! k = Some new /\ jr_ContentHash new = jr_ContentHash old).
Proof.
  intros Hc. destruct (Commit_ledger_cases _ _ _ _ _ _ _ _ Hc) as (Hv & Hb & Hp & [(-> & -> & Hh & _)|(-> & -> & -> & Hh & Hold)]).
  { split_and!; try done. intros k old Hk. by exists old. }
  split_and!; try done.
  - by apply head_record_new, valid_record_key.
  - intros _. split; [done|]. destruct (head_record r _ _) as [c|]; [|by rewrite Hp]. destruct Hh as [Hh Hbf].
    rewrite Hp. split; [done|]. unfold Before in Hbf. apply Z.ltb_ge in Hbf. done.
  - intros k old Hk. cbn [records]. destruct (decide (judgmentRepositoryKey (jr_TenantID rec) (jr_Key rec) = k)) as [<-|Hne].
    + exists rec. rewrite lookup_insert_eq. split; [done|]. symmetry. by apply Hold.
    + exists old. by rewrite lookup_insert_ne.
Qed.

(** Of two commits of one tenant that extend the same head only the first
    stores its record; the second is answered with the first one's record and
    changes nothing. *)
Theorem Commit_single_winner (r r1 : MemoryRepository) (ctx : option goerr) (base exp : string) (rec1 rec2 : JudgmentRecord) :
  Commit r ctx base exp rec1 = (Ok (rec1, true), r1) ->
  ValidateJudgmentRecord rec2 = Ok tt -> jr_BaseKey rec2 = base -> jr_PredecessorHash rec2 = exp ->
  jr_TenantID rec2 = jr_TenantID rec1 -> jr_ContentHash rec1 <> exp ->
  Commit r1 None base exp rec2 = (Ok (rec1, false), r1).
Proof.
  intros Hc Hv Hb Hp Ht Hne. destruct (Commit_ledger_cases _ _ _ _ _ _ _ _ Hc) as (Hv1 & _ & _ & [(? & _)|(_ & _ & Hr1 & _)]); [done|].
  unfold Commit. rewrite Hv, Hb, Hp, Ht, !str_eqb_refl. cbn [failed is_ok negb orb].
  rewrite Hr1, head_record_new by (by apply valid_record_key). apply String.eqb_neq in Hne. by rewrite Hne.
Qed.
End sealed.

(** ** The breaker under concurrent calls

    A call of [judgeMiss] that [Allow] lets through ends with exactly one of
    [Success], [Failure] and [AbandonProbe].  The state is the breaker and the
    calls in flight, each marked when it was let through as a probe, that is
    while the circuit was open. *)
Inductive finishes (b : circuitBreaker) : circuitBreaker -> Prop :=
| finish_success : finishes b (Success b)
| finish_failure now immediate : finishes b (Failure b now immediate)
| finish_abandon : finishes b (AbandonProbe b).

Inductive breaker_step : circuitBreaker * list bool -> circuitBreaker * list bool -> Prop :=
| step_call b calls now b' :
    Allow b now = (true, b') -> breaker_step (b, calls) (b', negb (IsZero (cb_openUntil b)) :: calls)
| step_refused b calls now b' : Allow b now = (false, b') -> breaker_step (b, calls) (b', calls)
| step_return b b' before probe after :
    finishes b b' -> breaker_step (b, before ++ probe :: after) (b', before ++ after).

Definition new_breaker (threshold openDuration : Z) : circuitBreaker := mk_breaker threshold openDuration 0 zero_time false.

Definition breaker_reachable (threshold openDuration : Z) (s : circuitBreaker * list bool) : Prop :=
  rtc breaker_step (new_breaker threshold openDuration, []) s.

Definition probe_accounted (s : circuitBreaker * list bool) : Prop := cb_probe (fst s) = true -> true ∈ snd s.

Lemma Allow_probe b now b' :
  Allow b now = (true, b') -> cb_probe b' = true -> cb_probe b = true \/ IsZero (cb_openUntil b) = false.
Proof.
  unfold Allow. destruct (IsZero (cb_openUntil b)) eqn:E; [intros [= <-]; by left|]. intros _ _. by right.
Qed.

Lemma Allow_refused b now b' : Allow b now = (false, b') -> b' = b.
Proof. unfold Allow. destruct (IsZero _); [done|]. destruct (_ || _); [congruence|done]. Qed.

Lemma breaker_step_accounted s s' : breaker_step s s' -> probe_accounted s -> probe_accounted s'.
Proof.
  unfold probe_accounted. destruct 1 as [b calls now b' Ha|b calls now b' Ha|b b' before probe after Hf]; cbn [fst snd]; intros Hs Hp.
  - destruct (Allow_probe _ _ _ Ha Hp) as [Hb|Hz]; [right; by apply Hs|]. rewrite Hz. by left.
  - rewrite (Allow_refused _ _ _ Ha) in Hp. by apply Hs.
  - by destruct Hf.
Qed.

Lemma breaker_reachable_accounted threshold openDuration s : breaker_reachable threshold openDuration s -> probe_accounted s.
Proof.
  intros Hr. assert (Hg : forall a, rtc breaker_step a s -> probe_accounted a -> probe_accounted s).
  { intros a Ha. induction Ha as [|x y z Hstep _ IH]; [done|]. intros Hx. by apply IH, (breaker_step_accounted x). }
  by apply (Hg _ Hr).
Qed.

(** The breaker never gets stuck: in every state reachable by any
    interleaving of calls, once the open period is over and no probe is in
    flight, the next call is let through. *)
Theorem breaker_never_stuck (threshold openDuration : Z) (b : circuitBreaker) (calls : list bool) (now : gotime) :
  breaker_reachable threshold openDuration (b, calls) -> true ∉ calls -> t_ns (cb_openUntil b) <= t_ns now ->
  fst (Allow b now) = true.
Proof.
  intros Hr Hc Hn. pose proof (breaker_reachable_accounted _ _ _ Hr) as Ha. unfold probe_accounted in Ha. cbn [fst snd] in Ha.
  unfold Allow. destruct (IsZero _); [done|]. unfold Before. rewrite (proj2 (Z.ltb_ge _ _)) by done. cbn [orb].
  destruct (cb_probe b); [by exfalso; apply Hc, Ha|done].
Qed.

(** ** Tripping *)
Definition fail_all (b : circuitBreaker) (nows : list gotime) : circuitBreaker := foldl (fun b now => Failure b now false) b nows.

Lemma fail_all_snoc b nows now : fail_all b (nows ++ [now]) = Failure (fail_all b nows) now false.
Proof. unfold fail_all. by rewrite foldl_app. Qed.

Lemma fail_all_failures threshold openDuration nows :
  in_u32 (Z.of_nat (length nows)) ->
  let b := fail_all (new_breaker threshold openDuration) nows in
  cb_failures b = Z.of_nat (length nows) /\ cb_threshold b = threshold /\ cb_openDuration b = openDuration /\ cb_probe b = false /\
  (Z.of_nat (length nows) < threshold -> cb_openUntil b = zero_time).
Proof.
  induction nows as [|now nows IH] using rev_ind; intros Hlen; [done|]. rewrite length_app in *. cbn [length] in *.
  destruct IH as (Hf & Ht & Hd & _ & Ho); [unfold_widths; lia|]. rewrite fail_all_snoc. unfold Failure.
  cbn [cb_failures cb_threshold cb_openDuration cb_probe cb_openUntil orb]. rewrite Hf, Ht, Hd.
  rewrite wrap_u32_id by (unfold_widths; lia). split_and!; try done; [lia|]. intros Hlt.
  rewrite (proj2 (Z.leb_gt _ _)) by lia. apply Ho. lia.
Qed.

(** A fresh breaker lets calls through while fewer than [threshold] of
    them have failed in a row, and from the [threshold]-th failure on refuses
    every call during [openDuration] after the last failure. *)
Theorem breaker_trips (threshold openDuration : Z) (nows : list gotime) (last now : gotime) :
  in_u32 (Z.of_nat (length nows) + 1) -> 0 < t_ns last + openDuration ->
  let b := fail_all (new_breaker threshold openDuration) (nows ++ [last]) in
  let failures := Z.of_nat (length nows) + 1 in
  (failures < threshold -> fst (Allow b now) = true) /\
  (threshold <= failures -> fst (Allow b now) = negb (Before now (time_Add last openDuration))).
Proof.
  intros Hlen Hpos b failures. assert (Hl : Z.of_nat (length (nows ++ [last])) = failures) by (rewrite length_app; unfold failures; simpl; lia).
  destruct (fail_all_failures threshold openDuration (nows ++ [last])) as (_ & _ & _ & Hp & Ho); [by rewrite Hl|].
  rewrite Hl in Ho. fold b in Hp, Ho. split.
  - intros Hlt. unfold Allow. by rewrite (Ho Hlt).
  - intros Hge. assert (Hu : cb_openUntil b = time_Add last openDuration).
    { unfold b. rewrite fail_all_snoc. destruct (fail_all_failures threshold openDuration nows) as (Hf & Ht & Hd & _); [unfold_widths; lia|].
      unfold Failure. cbn [cb_openUntil orb]. rewrite Hf, Ht, Hd, wrap_u32_id by done. by rewrite (proj2 (Z.leb_le _ _)). }
    unfold Allow. rewrite Hu, Hp, orb_false_r. unfold IsZero at 1. cbn [time_Add t_ns]. rewrite (proj2 (Z.eqb_neq _ _)) by lia.
    by destruct (Before _ _).
Qed.

(** ** Two probes at once

    Every return clears the probe mark, also that of a call which was let
    through before the circuit opened.  With a threshold of 3, one call fails
    with an authentication error and opens the circuit, a probe starts after
    the open period, an older call fails, and a second probe is let through. *)
Definition at_second (n : Z) : gotime := mk_time (n * Second) 0.

Lemma two_probes_in_flight : exists b, breaker_reachable 3 (10 * Second) (b, [true; true]) /\ cb_openUntil b <> zero_time.
Proof.
  set (b0 := new_breaker 3 (10 * Second)). set (b1 := Failure b0 (at_second 100) true).
  set (b2 := snd (Allow b1 (at_second 110))). set (b3 := Failure b2 (at_second 111) false).
  set (b4 := snd (Allow b3 (at_second 112))). exists b4. split; [|by vm_compute].
  apply (rtc_l _ _ (b0, [false])); [by apply (step_call b0 [] (at_second 98))|].
  apply (rtc_l _ _ (b0, [false; false])); [by apply (step_call b0 [false] (at_second 99))|].
  apply (rtc_l _ _ (b1, [false])); [apply (step_return b0 b1 [] false [false]), finish_failure|].
  apply (rtc_l _ _ (b2, [true; false])); [by apply (step_call b1 [false] (at_second 110))|].
  apply (rtc_l _ _ (b3, [true])); [apply (step_return b2 b3 [true] false []), finish_failure|].
  apply rtc_once. by apply (step_call b3 [true] (at_second 112)).
Qed.

(** ** Witnesses *)
Lemma breaker_never_stuck_witness :
  fst (Allow (snd (Allow (Failure (new_breaker 1 Second) (at_second 5) false) (at_second 5))) (at_second 6)) = true.
Proof.
  set (b0 := new_breaker 1 Second). set (b1 := Failure b0 (at_second 5) false).
  apply (breaker_never_stuck 1 Second _ []).
  - apply (rtc_l _ _ (b0, [false])); [by apply (step_call b0 [] (at_second 4))|].
    apply (rtc_l _ _ (b1, [])); [apply (step_return b0 b1 [] false []), finish_failure|].
    apply rtc_once. by apply (step_refused b1 [] (at_second 5)).
  - apply not_elem_of_nil.
  - vm_compute. discriminate.
Defined.

Lemma breaker_trips_witness :
  let b := fail_all (new_breaker 2 (10 * Second)) [at_second 3; at_second 4] in
  fst (Allow b (at_second 13)) = false /\ fst (Allow b (at_second 14)) = true.
Proof.
  assert (Hlen : in_u32 (Z.of_nat (length [at_second 3]) + 1)) by (unfold_widths; simpl; lia).
  assert (Hpos : 0 < t_ns (at_second 4) + 10 * Second) by reflexivity.
  split.
  - exact (proj2 (breaker_trips 2 (10 * Second) [at_second 3] (at_second 4) (at_second 13) Hlen Hpos) ltac:(simpl; lia)).
  - exact (proj2 (breaker_trips 2 (10 * Second) [at_second 3] (at_second 4) (at_second 14) Hlen Hpos) ltac:(simpl; lia)).
Defined.

Section demo.
#[local] Existing Instance copy_jcs.
#[local] Existing Instance checksum_digest.

Definition sample_key (pred : string) : JudgmentKeyInput :=
  mk_JudgmentKeyInput "tenant_a" (checksum_hex "query") " pver_1 " (checksum_hex "document") (checksum_hex "environment")
    "epol_1" "jevr_1" ProviderTypeSafe "jev-1.13.0" pred.

Definition sample_judgment : Judgment :=
  mk_Judgment (mk_ScoreAnswer 3500000 800000 [0; 50000; 100000; 250000; 600000]) (mk_NoulAnswer 900000)
    (mk_ScoreAnswer 2000000 700000 [50000; 100000; 550000; 250000; 50000]) (mk_NoulAnswer 125000) (mk_NoulAnswer 600000).

Definition sample_input (pred : string) (second tokens : Z) : JudgmentRecordInput :=
  mk_JudgmentRecordInput (sample_key pred) sample_judgment (mk_Usage tokens 10) (at_second second) (at_second (second + 60)).

Definition no_record : JudgmentRecord :=
  mk_JudgmentRecord "" "" "" (sample_key "") sample_judgment [] (mk_Usage 0 0) zero_time zero_time "" "".

Definition record_of (input : JudgmentRecordInput) : JudgmentRecord :=
  match NewJudgmentRecord input with Ok r => r | Err _ => no_record end.

Definition record_a : JudgmentRecord := Eval vm_compute in record_of (sample_input "" 1000 5).
Definition record_b : JudgmentRecord := Eval vm_compute in record_of (sample_input "" 1001 6).

Lemma NewJudgmentRecord_validates_witness : ValidateJudgmentRecord record_a = Ok tt.
Proof.
  assert (Hn : NewJudgmentRecord (sample_input "" 1000 5) = Ok record_a) by (vm_compute; reflexivity).
  exact (proj1 (NewJudgmentRecord_validates _ _ Hn ltac:(vm_compute; discriminate))).
Defined.

Definition ledger_a : MemoryRepository := snd (Commit NewMemoryRepository None (jr_BaseKey record_a) "" record_a).

Lemma ledger_a_committed : Commit NewMemoryRepository None (jr_BaseKey record_a) "" record_a = (Ok (record_a, true), ledger_a).
Proof.
  assert (Hf : fst (Commit NewMemoryRepository None (jr_BaseKey record_a) "" record_a) = Ok (record_a, true)) by (vm_compute; reflexivity).
  unfold ledger_a. destruct (Commit _ _ _ _ _) as [x r]. cbn [fst snd] in *. by rewrite Hf.
Qed.

Lemma Commit_linked_witness : head_record ledger_a "tenant_a" (jr_BaseKey record_a) = Some record_a.
Proof. exact (proj1 (Commit_linked _ _ _ _ _ _ _ _ ledger_a_committed)). Defined.

Lemma Commit_single_winner_witness : Commit ledger_a None (jr_BaseKey record_a) "" record_b = (Ok (record_a, false), ledger_a).
Proof.
  apply (Commit_single_winner NewMemoryRepository ledger_a None (jr_BaseKey record_a) "" record_a record_b ledger_a_committed).
  - vm_compute. reflexivity.
  - reflexivity.
  - reflexivity.
  - reflexivity.
  - discriminate.
Defined.

(** [ValidateJudgmentRecord] rebuilds the features and compares seals only: a
    record whose stored features were replaced still passes. *)
Definition altered_record : JudgmentRecord :=
  mk_JudgmentRecord (jr_SchemaVersion record_a) (jr_Key record_a) (jr_BaseKey record_a) (jr_Input record_a) (jr_Judgment record_a)
    [mk_Feature FeatureIntentFit 1000000] (jr_Usage record_a) (jr_CreatedAt record_a) (jr_ReusableUntil record_a)
    (jr_ContentHash record_a) (jr_CanonicalJSON record_a).

Lemma features_not_validated :
  ValidateJudgmentRecord altered_record = Ok tt /\ Features (jr_Judgment altered_record) <> Ok (jr_Features altered_record).
Proof. split; [vm_compute; reflexivity|]. vm_compute. discriminate. Qed.
End demo.
