(* ===== verification/JevService.v ===== *)
(** * The judgment service (internal/jev/service.go)

    [Judge] answers from the ledger or joins the one flight of its key, which
    runs [judgeMiss]: it asks the rate limiters, takes a slot of the capacity,
    passes the circuit breaker, calls the provider and commits the judgment.

    [judgeMiss] is a program over the effects it has on the shared state of the
    service and on the outside ([prog], [effect]).  [pool_step] interleaves the
    flights of all keys with the calls that start and leave: every effect is one
    atomic step, as every piece of shared state has its own lock.  Clock readings,
    context errors and the provider's answers are arbitrary at every step.

    golang.org/x/sync/singleflight is modelled by its documented behaviour, one
    flight per key whose result all callers of the key share; the limiters of
    golang.org/x/time/rate are a parameter ([RateLimiter]).

    [capacity_bounded] bounds slots, provider calls and limiters in every
    reachable state, [service_breaker_live] shows that the breaker is never
    stuck, and [answers_from_ledger] that every judgment that is answered is in
    the ledger.  [judgeMiss_finishes] bounds the steps of a flight. *)

From Stdlib Require Import ZArith String Ascii List Bool Lia.
From stdpp Require Import base gmap strings list sorting fin_maps.
From S2P Require Import Prelude GoStrings GoTime Canonical Jev JevLedger.

Open Scope Z_scope.
Open Scope go_scope.

(** ** Types *)
Definition DispositionCacheHit : string := "cache_hit".
Definition DispositionCommitted : string := "committed".
Definition DispositionDeadline : string := "deadline_budget".
Definition DispositionTenantRate : string := "tenant_token_budget_exhausted".
Definition DispositionGlobalRate : string := "global_token_budget_exhausted".
Definition DispositionCapacity : string := "capacity_exhausted".
Definition DispositionCircuitOpen : string := "circuit_open".
Definition DispositionLedgerUnavailable : string := "ledger_unavailable".

Definition FailureAuthentication : string := "authentication".
Definition FailureInvalidResponse : string := "invalid_response".
Definition FailureTimeout : string := "timeout".
Definition FailureCancelled : string := "cancelled".
Definition FailureTransport : string := "transport".

(** golang.org/x/time/rate *)
Class RateLimiter := {
  Limit : Type;
  limit_positive : Limit -> bool;
  limiter : Type;
  NewLimiter : Limit -> Z -> limiter;
  AllowN : limiter -> gotime -> Z -> bool * limiter
}.

Record Evaluation := mk_Evaluation { ev_Model : string; ev_Judgment : Judgment; ev_Usage : Usage }.

(** An error of the evaluator, as [errors.Is] and [errors.As] see it. *)
Inductive eval_error := EvalDeadline | EvalCanceled | EvalProvider (code : string) | EvalOther.

(** The error of the context when the evaluator returned. *)
Inductive ctx_error := CtxLive | CtxDeadline | CtxCancelled.

Record ServiceResult := mk_ServiceResult {
  rs_Disposition : string;
  rs_Record : option JudgmentRecord;
  rs_Features : list Feature;
  rs_ProviderCalled : bool
}.

Section types.
Context `{RateLimiter}.

Record ServiceLimits := mk_ServiceLimits {
  lt_ReuseDuration : Z;
  lt_MinimumRemaining : Z;
  lt_MaximumConcurrent : Z;
  lt_GlobalTokenRate : Limit;
  lt_GlobalTokenBurst : Z;
  lt_TenantTokenRate : Limit;
  lt_TenantTokenBurst : Z;
  lt_MaximumTenantLimiters : Z;
  lt_CircuitFailureThreshold : Z;
  lt_CircuitOpenDuration : Z
}.

Record tenantLimiter := mk_tenantLimiter { tl_limiter : limiter; tl_lastSeen : gotime }.

(** The state that the calls of a service share. *)
Record Shared := mk_Shared {
  sh_ledger : MemoryRepository;
  sh_breaker : circuitBreaker;
  sh_slots : Z;
  sh_tenants : gmap string tenantLimiter;
  sh_global : limiter
}.

Record Service := mk_Service { sv_rubric : RubricManifest; sv_limits : ServiceLimits }.
End types.

(** [State] is what the evaluator is given to judge. *)
Record ServiceRequest (State : Type) := mk_ServiceRequest { rq_KeyInput : JudgmentKeyInput; rq_State : State; rq_EstimatedTokens : Z }.
Arguments mk_ServiceRequest {State}.
Arguments rq_KeyInput {State}.
Arguments rq_State {State}.
Arguments rq_EstimatedTokens {State}.

(** ** Programs over the shared state *)
Section programs.
Context {State : Type}.

Inductive effect : Type -> Type :=
| Clock : effect gotime
| Lookup (tenantID key : string) (now : gotime) : effect (result JudgmentRecord)
| Head (tenantID key : string) : effect (result JudgmentRecord)
| Deadline : effect (option gotime)
| TenantRate (tenantID : string) (now : gotime) (tokens : Z) : effect bool
| GlobalRate (now : gotime) (tokens : Z) : effect bool
| TakeSlot : effect bool
| ReturnSlot : effect unit
| BreakerAllow (now : gotime) : effect bool
| BreakerFailure (now : gotime) (immediate : bool) : effect unit
| BreakerSuccess : effect unit
| BreakerAbandon : effect unit
| Evaluate (state : State) : effect (Evaluation + eval_error * ctx_error)
| Store (key expectedPredecessorHash : string) (record : JudgmentRecord) : effect (result (JudgmentRecord * bool)).

Inductive prog := Ret (r : ServiceResult) | Vis {X : Type} (e : effect X) (k : X -> prog).
End programs.
Arguments prog State : clear implicits.
Arguments effect State : clear implicits.

Declare Scope prog_scope.
Delimit Scope prog_scope with prog.
Notation "'perform' x := e 'in' k" := (Vis e (fun x => k)) (at level 10, x pattern, e at level 100, k at level 200) : prog_scope.
Open Scope prog_scope.

(** ** The service *)
Section service.
Context `{JCS} `{Digest} `{RateLimiter} {State : Type}.

Definition limits_invalid (l : ServiceLimits) : bool :=
  (lt_ReuseDuration l <=? 0) || (365 * 24 * Hour <? lt_ReuseDuration l) || (lt_MinimumRemaining l <=? 0) || (lt_MaximumConcurrent l <=? 0) ||
  (10000 <? lt_MaximumConcurrent l) || negb (limit_positive (lt_GlobalTokenRate l)) || (lt_GlobalTokenBurst l <=? 0) ||
  negb (limit_positive (lt_TenantTokenRate l)) || (lt_TenantTokenBurst l <=? 0) || (lt_MaximumTenantLimiters l <=? 0) ||
  (lt_CircuitFailureThreshold l =? 0) || (lt_CircuitOpenDuration l <=? 0).

(** [NewService] with an evaluator and a repository: the service and its state. *)
Definition NewService (rubric : RubricManifest) (limits : ServiceLimits) (ledger : MemoryRepository) : result (Service * Shared) :=
  reject failed (ValidateRubricManifest rubric) || limits_invalid limits with ErrInvalidJudgment;
  Ok (mk_Service rubric limits,
      mk_Shared ledger (new_breaker (lt_CircuitFailureThreshold limits) (lt_CircuitOpenDuration limits)) 0 ∅
        (NewLimiter (lt_GlobalTokenRate limits) (lt_GlobalTokenBurst limits))).

Definition resultFromRecord (disposition : string) (record : JudgmentRecord) (providerCalled : bool) : ServiceResult :=
  mk_ServiceResult disposition (Some record) (jr_Features record) providerCalled.

Definition unanswered (disposition : string) (providerCalled : bool) : ServiceResult := mk_ServiceResult disposition None [] providerCalled.

Definition classifyEvaluationError (ctx : ctx_error) (err : eval_error) : string * bool :=
  match ctx, err with
  | CtxDeadline, _ | _, EvalDeadline => (FailureTimeout, false)
  | CtxCancelled, _ | _, EvalCanceled => (FailureCancelled, false)
  | _, EvalProvider code => (code, String.eqb code FailureAuthentication)
  | _, EvalOther => (FailureTransport, false)
  end.

(** The deferred return of the slot. *)
Definition returning (r : ServiceResult) : prog State := perform _ := ReturnSlot in Ret r.

(** The part of [judgeMiss] after the provider was called. *)
Definition judge_evaluation (service : Service) (key : string) (keyInput : JudgmentKeyInput) (expected : string) (now : gotime)
    (evaluation : Evaluation + eval_error * ctx_error) : prog State :=
  match evaluation with
  | inr (err, ctx) =>
      let '(code, immediate) := classifyEvaluationError ctx err in
      perform at_failure := Clock in
      perform _ := BreakerFailure (UTC at_failure) immediate in
      returning (unanswered code true)
  | inl evaluation =>
      if negb (String.eqb (ev_Model evaluation) (rb_Model (rub_Spec (sv_rubric service)))) then
        perform at_failure := Clock in
        perform _ := BreakerFailure (UTC at_failure) false in
        returning (unanswered FailureInvalidResponse true)
      else
        match NewJudgmentRecord (mk_JudgmentRecordInput keyInput (ev_Judgment evaluation) (ev_Usage evaluation) now
                                   (time_Add now (lt_ReuseDuration (sv_limits service)))) with
        | Err _ =>
            perform at_failure := Clock in
            perform _ := BreakerFailure (UTC at_failure) false in
            returning (unanswered FailureInvalidResponse true)
        | Ok record =>
            perform stored := Store key expected record in
            match stored with
            | Err _ => perform _ := BreakerAbandon in returning (unanswered DispositionLedgerUnavailable true)
            | Ok (winner, _) => perform _ := BreakerSuccess in returning (resultFromRecord DispositionCommitted winner true)
            end
        end
  end.

(** The part of [judgeMiss] after the ledger had nothing to reuse. *)
Definition judge_attempt (service : Service) (key : string) (request : ServiceRequest State) (keyInput : JudgmentKeyInput) (expected : string)
    (now : gotime) : prog State :=
  let limits := sv_limits service in
  let tenantID := jk_TenantID (rq_KeyInput request) in
  perform deadline := Deadline in
  if match deadline with None => true | Some d => time_Sub d now <? lt_MinimumRemaining limits end then Ret (unanswered DispositionDeadline false)
  else
    perform tenant := TenantRate tenantID now (rq_EstimatedTokens request) in
    if negb tenant then Ret (unanswered DispositionTenantRate false)
    else
      perform global := GlobalRate now (rq_EstimatedTokens request) in
      if negb global then Ret (unanswered DispositionGlobalRate false)
      else
        perform slot := TakeSlot in
        if negb slot then Ret (unanswered DispositionCapacity false)
        else
          perform allowed := BreakerAllow now in
          if negb allowed then returning (unanswered DispositionCircuitOpen false)
          else
            perform evaluation := Evaluate (rq_State request) in
            judge_evaluation service key keyInput expected now evaluation.

Definition judgeMiss (service : Service) (key : string) (request : ServiceRequest State) : prog State :=
  let tenantID := jk_TenantID (rq_KeyInput request) in
  perform reading := Clock in
  let now := UTC reading in
  perform reusable := Lookup tenantID key now in
  match reusable with
  | Ok record => Ret (resultFromRecord DispositionCacheHit record false)
  | Err e =>
      if negb (bool_decide (e = ErrJudgmentNotFound)) then Ret (unanswered DispositionLedgerUnavailable false)
      else
        perform head := Head tenantID key in
        match head with
        | Ok current =>
            if Before now (jr_ReusableUntil current) then Ret (resultFromRecord DispositionCacheHit current false)
            else judge_attempt service key request (set_predecessor (rq_KeyInput request) (jr_ContentHash current)) (jr_ContentHash current) now
        | Err e =>
            if negb (bool_decide (e = ErrJudgmentNotFound)) then Ret (unanswered DispositionLedgerUnavailable false)
            else judge_attempt service key request (rq_KeyInput request) "" now
        end
  end.

(** The loop over the limiters that finds the one not seen for longest. *)
Definition older (acc : string * gotime) (entry : string * tenantLimiter) : string * gotime :=
  let '(oldestKey, oldest) := acc in
  let '(key, candidate) := entry in
  if String.eqb oldestKey "" || Before (tl_lastSeen candidate) oldest || (time_Equal (tl_lastSeen candidate) oldest && str_ltb key oldestKey)
  then (key, tl_lastSeen candidate) else acc.

(** [tenantRateAllows]; [entries] is the order in which the map is ranged over. *)
Definition tenantRateAllows (limits : ServiceLimits) (entries : list (string * tenantLimiter)) (tenants : gmap string tenantLimiter)
    (tenant : string) (now : gotime) (tokens : Z) : bool * gmap string tenantLimiter :=
  let '(entry, kept) :=
    match tenants !! tenant with
    | Some entry => (tl_limiter entry, tenants)
    | None =>
        (NewLimiter (lt_TenantTokenRate limits) (lt_TenantTokenBurst limits),
         if lt_MaximumTenantLimiters limits <=? Z.of_nat (size tenants) then delete (fst (foldl older (""%string, zero_time) entries)) tenants else tenants)
    end in
  let '(allowed, entry) := AllowN entry now tokens in
  (allowed, <[tenant := mk_tenantLimiter entry now]> kept).

Definition request_invalid (service : Service) (request : ServiceRequest State) : bool :=
  let k := rq_KeyInput request in
  negb (String.eqb (jk_PredecessorHash k) "") || negb (String.eqb (jk_RubricManifestID k) (rub_ID (sv_rubric service))) ||
  negb (String.eqb (jk_Model k) (rb_Model (rub_Spec (sv_rubric service)))) || negb (String.eqb (jk_Provider k) ProviderTypeSafe) ||
  (rq_EstimatedTokens request <=? 0) || (lt_GlobalTokenBurst (sv_limits service) <? rq_EstimatedTokens request) ||
  (lt_TenantTokenBurst (sv_limits service) <? rq_EstimatedTokens request).

(** [Judge] until it joins the flight of its key: an error, an answer, or the
    key to join.  [ctx] is the error of the caller's context and [found] the
    answer of the ledger. *)
Definition enter (service : Service) (request : ServiceRequest State) (ctx : ctx_error) (found : result JudgmentRecord)
    : result (ServiceResult + string) :=
  reject request_invalid service request with ErrInvalidJudgment;
  let* key := NewJudgmentKey (rq_KeyInput request) in
  match ctx with
  | CtxDeadline => Ok (inl (unanswered FailureTimeout false))
  | CtxCancelled => Ok (inl (unanswered FailureCancelled false))
  | CtxLive =>
      match found with
      | Ok record => Ok (inl (resultFromRecord DispositionCacheHit record false))
      | Err e => if bool_decide (e = ErrJudgmentNotFound) then Ok (inr key) else Ok (inl (unanswered DispositionLedgerUnavailable false))
      end
  end.

(** ** Interleavings *)

(** What an effect may answer, and the state it leaves. *)
Definition handle (service : Service) {X} (e : effect State X) (s : Shared) : X -> Shared -> Prop :=
  match e in effect _ X return X -> Shared -> Prop with
  | Clock => fun _ s' => s' = s
  | Lookup t k now => fun r s' => s' = s /\ exists c c', r = LookupReusable (sh_ledger s) c c' t k now
  | Head t k => fun r s' => s' = s /\ exists c, r = Current (sh_ledger s) c t k
  | Deadline => fun _ s' => s' = s
  | TenantRate t now tokens => fun b s' => exists entries tenants, entries ≡ₚ map_to_list (sh_tenants s) /\
      (b, tenants) = tenantRateAllows (sv_limits service) entries (sh_tenants s) t now tokens /\
      s' = mk_Shared (sh_ledger s) (sh_breaker s) (sh_slots s) tenants (sh_global s)
  | GlobalRate now tokens => fun b s' => exists g, (b, g) = AllowN (sh_global s) now tokens /\
      s' = mk_Shared (sh_ledger s) (sh_breaker s) (sh_slots s) (sh_tenants s) g
  | TakeSlot => fun b s' =>
      if sh_slots s <? lt_MaximumConcurrent (sv_limits service)
      then b = true /\ s' = mk_Shared (sh_ledger s) (sh_breaker s) (sh_slots s + 1) (sh_tenants s) (sh_global s)
      else b = false /\ s' = s
  | ReturnSlot => fun _ s' => s' = mk_Shared (sh_ledger s) (sh_breaker s) (sh_slots s - 1) (sh_tenants s) (sh_global s)
  | BreakerAllow now => fun b s' => exists breaker, (b, breaker) = Allow (sh_breaker s) now /\
      s' = mk_Shared (sh_ledger s) breaker (sh_slots s) (sh_tenants s) (sh_global s)
  | BreakerFailure now immediate => fun _ s' => s' = mk_Shared (sh_ledger s) (Failure (sh_breaker s) now immediate) (sh_slots s) (sh_tenants s) (sh_global s)
  | BreakerSuccess => fun _ s' => s' = mk_Shared (sh_ledger s) (Success (sh_breaker s)) (sh_slots s) (sh_tenants s) (sh_global s)
  | BreakerAbandon => fun _ s' => s' = mk_Shared (sh_ledger s) (AbandonProbe (sh_breaker s)) (sh_slots s) (sh_tenants s) (sh_global s)
  | Evaluate _ => fun _ s' => s' = s
  | Store key expected record => fun r s' => exists c ledger, (r, ledger) = Commit (sh_ledger s) c key expected record /\
      s' = mk_Shared ledger (sh_breaker s) (sh_slots s) (sh_tenants s) (sh_global s)
  end.

(** What a flight holds: a slot, a passage of the breaker that it has yet to
    report on, and the records that the ledger has given it. *)
Record Held := mk_Held { hd_slot : bool; hd_call : bool; hd_seen : list JudgmentRecord }.

Definition advance {X} (e : effect State X) (h : Held) : X -> Held :=
  match e in effect _ X return X -> Held with
  | TakeSlot => fun b => mk_Held b (hd_call h) (hd_seen h)
  | ReturnSlot => fun _ => mk_Held false (hd_call h) (hd_seen h)
  | BreakerAllow _ => fun b => mk_Held (hd_slot h) b (hd_seen h)
  | BreakerFailure _ _ | BreakerSuccess | BreakerAbandon => fun _ => mk_Held (hd_slot h) false (hd_seen h)
  | Lookup _ _ _ => fun r => match r with Ok x => mk_Held (hd_slot h) (hd_call h) (x :: hd_seen h) | Err _ => h end
  | Head _ _ => fun r => match r with Ok x => mk_Held (hd_slot h) (hd_call h) (x :: hd_seen h) | Err _ => h end
  | Store _ _ _ => fun r => match r with Ok (x, _) => mk_Held (hd_slot h) (hd_call h) (x :: hd_seen h) | Err _ => h end
  | _ => fun _ => h
  end.

Record Flight := mk_Flight { fl_prog : prog State; fl_held : Held }.

Record Pool := mk_Pool {
  po_shared : Shared;
  po_flights : gmap string Flight;
  po_waiting : gmap nat string;
  po_answers : list (nat * ServiceResult)
}.

(** The callers that wait for a key. *)
Definition waiters (key : string) (waiting : gmap nat string) : list nat :=
  omap (fun w => if String.eqb (snd w) key then Some (fst w) else None) (map_to_list waiting).

Inductive pool_step (service : Service) : Pool -> Pool -> Prop :=
| step_answer p id request ctx c c' now key r :
    NewJudgmentKey (rq_KeyInput request) = Ok key ->
    enter service request ctx (LookupReusable (sh_ledger (po_shared p)) c c' (jk_TenantID (rq_KeyInput request)) key (UTC now)) = Ok (inl r) ->
    pool_step service p (mk_Pool (po_shared p) (po_flights p) (po_waiting p) ((id, r) :: po_answers p))
| step_join p id request ctx c c' now key :
    NewJudgmentKey (rq_KeyInput request) = Ok key ->
    enter service request ctx (LookupReusable (sh_ledger (po_shared p)) c c' (jk_TenantID (rq_KeyInput request)) key (UTC now)) = Ok (inr key) ->
    po_waiting p !! id = None ->
    pool_step service p
      (mk_Pool (po_shared p)
         (match po_flights p !! key with
          | Some _ => po_flights p
          | None => <[key := mk_Flight (judgeMiss service key request) (mk_Held false false [])]> (po_flights p)
          end) (<[id := key]> (po_waiting p)) (po_answers p))
| step_flight p key X (e : effect State X) (k : X -> prog State) held x s' :
    po_flights p !! key = Some (mk_Flight (Vis e k) held) -> handle service e (po_shared p) x s' ->
    pool_step service p (mk_Pool s' (<[key := mk_Flight (k x) (advance e held x)]> (po_flights p)) (po_waiting p) (po_answers p))
| step_done p key r held :
    po_flights p !! key = Some (mk_Flight (Ret r) held) ->
    pool_step service p
      (mk_Pool (po_shared p) (delete key (po_flights p)) (filter (fun w => w.2 <> key) (po_waiting p))
         (List.map (fun id => (id, r)) (waiters key (po_waiting p)) ++ po_answers p))
| step_leave p id key disposition :
    po_waiting p !! id = Some key -> disposition = FailureTimeout \/ disposition = FailureCancelled ->
    pool_step service p (mk_Pool (po_shared p) (po_flights p) (delete id (po_waiting p)) ((id, unanswered disposition false) :: po_answers p)).
End service.

(** ** Counting flights *)
Definition tally {A} (f : A -> bool) (m : gmap string A) : Z := map_fold (fun _ x n => (if f x then 1 else 0) + n) 0 m.

Lemma tally_empty {A} (f : A -> bool) : tally f ∅ = 0.
Proof. apply map_fold_empty. Qed.

Lemma tally_insert_new {A} (f : A -> bool) m k x : m !! k = None -> tally f (<[k := x]> m) = (if f x then 1 else 0) + tally f m.
Proof. intros Hk. unfold tally. rewrite (map_fold_insert_L (fun _ x n => (if f x then 1 else 0) + n) 0 k x m); [done| |done]. intros. lia. Qed.

Lemma tally_delete {A} (f : A -> bool) m k x : m !! k = Some x -> tally f m = (if f x then 1 else 0) + tally f (delete k m).
Proof. intros Hk. rewrite <- (tally_insert_new f (delete k m) k x) by apply lookup_delete_eq. by rewrite insert_delete_id. Qed.

Lemma tally_replace {A} (f : A -> bool) m k x y : m !! k = Some x -> tally f (<[k := y]> m) = tally f m - (if f x then 1 else 0) + (if f y then 1 else 0).
Proof.
  intros Hk. rewrite (tally_delete f m k x Hk), <- insert_delete_eq, tally_insert_new by apply lookup_delete_eq. lia.
Qed.

Lemma tally_le {A} (f g : A -> bool) m : map_Forall (fun _ x => f x = true -> g x = true) m -> 0 <= tally f m <= tally g m.
Proof.
  induction m as [|k x m Hk IH] using map_ind; [by rewrite !tally_empty|]. intros [Hx Hm]%map_Forall_insert; [|done]. rewrite !tally_insert_new by done.
  specialize (IH Hm). destruct (f x); [rewrite (Hx eq_refl)|destruct (g x)]; lia.
Qed.

Lemma tally_pos {A} (f : A -> bool) m k x : m !! k = Some x -> f x = true -> 0 < tally f m.
Proof.
  intros Hk Hx. rewrite (tally_delete f m k x Hk), Hx. assert (Hm : 0 <= tally f (delete k m) <= tally f (delete k m)) by (apply tally_le; by intros ? ? _). lia.
Qed.

(** ** What a flight may do *)
Section sound.
Context `{JCS} `{Digest} `{RateLimiter} {State : Type}.

(** A flight takes a slot once, passes the breaker and calls the provider only
    with a slot, reports to the breaker once per passage, and gives the slot back
    after the report. *)
Definition permitted {X} (e : effect State X) (h : Held) : Prop :=
  match e with
  | TakeSlot => hd_slot h = false
  | ReturnSlot => hd_slot h = true /\ hd_call h = false
  | BreakerAllow _ => hd_slot h = true /\ hd_call h = false
  | BreakerFailure _ _ | BreakerSuccess | BreakerAbandon | Store _ _ _ => hd_call h = true
  | Evaluate _ => hd_slot h = true /\ hd_call h = true
  | _ => True
  end.

(** The judgment of a result is one that the ledger gave. *)
Definition justified (seen : list JudgmentRecord) (r : ServiceResult) : Prop :=
  match rs_Record r with
  | Some record => record ∈ seen /\ rs_Features r = jr_Features record
  | None => rs_Features r = []
  end.

Fixpoint safe (p : prog State) (h : Held) : Prop :=
  match p with
  | Ret r => hd_slot h = false /\ hd_call h = false /\ justified (hd_seen h) r
  | Vis e k => permitted e h /\ forall x, safe (k x) (advance e h x)
  end.

(** The longest run of a program has at most [n] effects. *)
Fixpoint finishes_within (n : nat) (p : prog State) {struct p} : Prop :=
  match p with
  | Ret _ => True
  | Vis e k => match n with O => False | S n => forall x, finishes_within n (k x) end
  end.

Ltac flight :=
  repeat match goal with
    | x : bool, Hx : negb ?x = _ |- _ => destruct x; try discriminate Hx; clear Hx
    | |- _ /\ _ => split
    | |- forall _, _ => intro
    | |- context [match ?x with _ => _ end] => destruct x eqn:?
    | |- safe (if ?b then _ else _) _ => destruct b eqn:?
    | |- safe (Vis _ _) _ => cbn [safe permitted advance hd_slot hd_call hd_seen]
    | |- safe (Ret _) _ => cbn [safe permitted advance hd_slot hd_call hd_seen]
    | |- safe (returning _) _ => unfold returning
    end; try done.

Lemma justified_record seen disposition record called : record ∈ seen -> justified seen (resultFromRecord disposition record called).
Proof. done. Qed.

#[local] Hint Resolve justified_record : core.

Lemma judge_evaluation_safe service key keyInput expected now evaluation seen :
  safe (judge_evaluation service key keyInput expected now evaluation) (mk_Held true true seen).
Proof. unfold judge_evaluation. flight. apply justified_record. set_solver. Qed.

Lemma judge_attempt_safe service key request keyInput expected now seen :
  safe (judge_attempt service key request keyInput expected now) (mk_Held false false seen).
Proof. unfold judge_attempt. flight; apply judge_evaluation_safe. Qed.

Lemma judgeMiss_safe service key request : safe (judgeMiss service key request) (mk_Held false false []).
Proof. unfold judgeMiss. flight; try apply judge_attempt_safe; apply justified_record; set_solver. Qed.

Lemma finishes_vis n X (e : effect State X) k : (forall x, finishes_within n (k x)) -> finishes_within (S n) (Vis e k).
Proof. done. Qed.

Ltac finish :=
  repeat match goal with
    | |- finishes_within _ (Ret _) => exact I
    | |- finishes_within _ (Vis _ _) => apply finishes_vis; intro
    | |- finishes_within _ (returning _) => unfold returning
    | |- finishes_within _ (match ?x with _ => _ end) => destruct x
    | |- finishes_within _ (let (_, _) := ?x in _) => destruct x
    end.

(** A flight takes at most twelve steps. *)
Lemma judgeMiss_finishes service key request : finishes_within 12 (judgeMiss service key request).
Proof. unfold judgeMiss, judge_attempt, judge_evaluation. cbv zeta. finish. Qed.

(** ** The shared state under one effect *)
Definition ledger_valid (l : MemoryRepository) : Prop := forall k x, records l !! k = Some x -> ValidateJudgmentRecord x = Ok tt.

(** The record is valid and its content is in the ledger. *)
Definition held_record (l : MemoryRepository) (record : JudgmentRecord) : Prop :=
  ValidateJudgmentRecord record = Ok tt /\ exists k x, records l !! k = Some x /\ jr_ContentHash x = jr_ContentHash record.

Lemma Commit_outcome l c key expected record res l' :
  Commit l c key expected record = (res, l') ->
  (l' = l \/ ValidateJudgmentRecord record = Ok tt /\
     records l' = <[judgmentRepositoryKey (jr_TenantID record) (jr_Key record) := record]> (records l) /\
     forall old, records l !! judgmentRepositoryKey (jr_TenantID record) (jr_Key record) = Some old -> jr_ContentHash old = jr_ContentHash record) /\
  (forall w created, res = Ok (w, created) -> exists k, records l' !! k = Some w).
Proof.
  destruct res as [[w created]|e]; intros Hc.
  - destruct (Commit_ledger_cases _ _ _ _ _ _ _ _ Hc) as (Hv & _ & _ & [(-> & -> & Hh & _)|(-> & -> & -> & _ & Hold)]).
    + split; [by left|]. intros ? ? [= <- <-]. by eexists.
    + split; [by right|]. intros ? ? [= <- <-]. eexists. apply lookup_insert_eq.
  - split; [|done]. left. unfold Commit in Hc. destruct c; [by injection Hc|]. destruct (_ || _); [by injection Hc|].
    assert (Hs : store_record l key record = (Err e, l') -> l' = l) by (unfold store_record; repeat case_match; congruence).
    destruct (head_record _ _ _); [destruct (negb _); [done|]; destruct (Before _ _); [done|by apply Hs]|]. destruct (negb _); [by injection Hc|by apply Hs].
Qed.

Lemma Commit_keeps l c key expected record res l' y :
  Commit l c key expected record = (res, l') -> ledger_valid l -> held_record l y -> held_record l' y.
Proof.
  intros Hc Hl (Hv & k & x & Hx & Hh). split; [done|]. destruct (Commit_outcome _ _ _ _ _ _ _ Hc) as [[->|(_ & -> & Hold)] _]; [by exists k, x|].
  destruct (decide (judgmentRepositoryKey (jr_TenantID record) (jr_Key record) = k)) as [<-|Hne].
  - exists (judgmentRepositoryKey (jr_TenantID record) (jr_Key record)), record. rewrite lookup_insert_eq. split; [done|]. by rewrite <- (Hold _ Hx).
  - exists k, x. by rewrite lookup_insert_ne.
Qed.

Lemma Commit_valid l c key expected record res l' : Commit l c key expected record = (res, l') -> ledger_valid l -> ledger_valid l'.
Proof.
  intros Hc Hl. destruct (Commit_outcome _ _ _ _ _ _ _ Hc) as [[->|(Hv & Hr & _)] _]; [done|]. intros k x. rewrite Hr.
  intros [[_ <-]|[_ Hx]]%lookup_insert_Some; [done|by eapply Hl].
Qed.

Lemma Current_held l c t k x : ledger_valid l -> Current l c t k = Ok x -> held_record l x.
Proof.
  intros Hl. unfold Current. destruct c; [done|]. destruct (_ || _); [done|]. destruct (head_record l t k) as [y|] eqn:Eh; [|done].
  destruct (failed _); [done|]. intros [= ->]. unfold head_record in Eh. split; [by eapply Hl|]. by eexists _, _.
Qed.

Lemma LookupReusable_held l c c' t k now x : ledger_valid l -> LookupReusable l c c' t k now = Ok x -> held_record l x.
Proof.
  intros Hl. unfold LookupReusable. destruct c; [done|]. destruct (_ || _); [done|]. intros (y & Hy & Hx)%bind_Ok. destruct (negb _); [done|].
  injection Hx as ->. by eapply Current_held.
Qed.

Lemma handle_ledger service {X} (e : effect State X) s x s' h :
  handle service e s x s' -> ledger_valid (sh_ledger s) ->
  ledger_valid (sh_ledger s') /\ (forall y, held_record (sh_ledger s) y -> held_record (sh_ledger s') y) /\
  (Forall (held_record (sh_ledger s)) (hd_seen h) -> Forall (held_record (sh_ledger s')) (hd_seen (advance e h x))).
Proof.
  intros He Hl. assert (Hsame : sh_ledger s' = sh_ledger s -> hd_seen (advance e h x) = hd_seen h ->
    ledger_valid (sh_ledger s') /\ (forall y, held_record (sh_ledger s) y -> held_record (sh_ledger s') y) /\
    (Forall (held_record (sh_ledger s)) (hd_seen h) -> Forall (held_record (sh_ledger s')) (hd_seen (advance e h x)))) by (intros -> ->; by split_and!).
  destruct e; cbn [handle] in He; try (apply Hsame; [|done]; first [by subst|by destruct He as (? & ? & ->)|by destruct He as (? & ? & _ & _ & ->)]).
  - destruct He as [-> (c & c' & ->)]. split_and!; [done|done|]. intros Hs. cbn [advance]. destruct (LookupReusable _ _ _ _ _ _) as [y|] eqn:El; [|done].
    constructor; [by eapply LookupReusable_held|done].
  - destruct He as [-> (c & ->)]. split_and!; [done|done|]. intros Hs. cbn [advance]. destruct (Current _ _ _ _) as [y|] eqn:El; [|done].
    constructor; [by eapply Current_held|done].
  - apply Hsame; [|done]. destruct (_ <? _); by destruct He as [_ ->].
  - destruct He as (c & ledger & Hc & ->). symmetry in Hc. pose proof (Commit_valid _ _ _ _ _ _ _ Hc Hl) as Hv. cbn [sh_ledger]. split_and!; [done|intros y; by eapply Commit_keeps|].
    intros Hs. assert (Hs' : Forall (held_record ledger) (hd_seen h)) by (eapply Forall_impl; [exact Hs|]; intros y; by eapply Commit_keeps).
    cbn [advance]. destruct x as [[w created]|]; [|done]. constructor; [|done]. destruct (proj2 (Commit_outcome _ _ _ _ _ _ _ Hc) _ _ eq_refl) as [k Hk]. split; [by eapply Hv|by exists k, w].
Qed.

Definition slot_of (f : Flight (State:=State)) : bool := hd_slot (fl_held f).

Lemma handle_slots service {X} (e : effect State X) s x s' h :
  handle service e s x s' -> permitted e h -> sh_slots s <= lt_MaximumConcurrent (sv_limits service) ->
  sh_slots s' = sh_slots s - (if hd_slot h then 1 else 0) + (if hd_slot (advance e h x) then 1 else 0) /\ sh_slots s' <= lt_MaximumConcurrent (sv_limits service).
Proof.
  intros He Hp Hc. assert (Hsame : sh_slots s' = sh_slots s -> hd_slot (advance e h x) = hd_slot h ->
    sh_slots s' = sh_slots s - (if hd_slot h then 1 else 0) + (if hd_slot (advance e h x) then 1 else 0) /\ sh_slots s' <= lt_MaximumConcurrent (sv_limits service))
    by (intros -> ->; split; [lia|done]).
  destruct e; cbn [handle permitted] in He, Hp; try (apply Hsame; [|done]; first [by subst|by destruct He as (? & ? & ->)|by destruct He as (? & ? & _ & _ & ->)]).
  - destruct He as [-> _]. apply Hsame; [done|]. cbn [advance]. by destruct x.
  - destruct He as [-> _]. apply Hsame; [done|]. cbn [advance]. by destruct x.
  - destruct (Z.ltb_spec (sh_slots s) (lt_MaximumConcurrent (sv_limits service))); destruct He as [-> ->]; cbn [advance hd_slot sh_slots]; rewrite Hp; lia.
  - subst s'. cbn [advance hd_slot sh_slots]. destruct Hp as [-> _]. lia.
  - destruct He as (c & l & _ & ->). apply Hsame; [done|]. cbn [advance]. by destruct x as [[]|].
Qed.

Lemma handle_probe service {X} (e : effect State X) s x s' h :
  handle service e s x s' -> permitted e h -> cb_probe (sh_breaker s') = true ->
  hd_call (advance e h x) = true \/ cb_probe (sh_breaker s) = true /\ hd_call (advance e h x) = hd_call h.
Proof.
  intros He Hp Hb. assert (Hsame : sh_breaker s' = sh_breaker s -> hd_call (advance e h x) = hd_call h ->
    hd_call (advance e h x) = true \/ cb_probe (sh_breaker s) = true /\ hd_call (advance e h x) = hd_call h) by (intros Heq ->; right; by rewrite <- Heq).
  destruct e; cbn [handle permitted] in He, Hp; try (apply Hsame; [|done]; first [by subst|by destruct He as (? & ? & ->)|by destruct He as (? & ? & _ & _ & ->)]); try by subst s'.
  - destruct He as [-> _]. apply Hsame; [done|]. cbn [advance]. by destruct x.
  - destruct He as [-> _]. apply Hsame; [done|]. cbn [advance]. by destruct x.
  - apply Hsame; [|done]. destruct (_ <? _); by destruct He as [_ ->].
  - destruct He as (breaker & Ha & ->). symmetry in Ha. cbn [advance hd_call]. destruct x; [by left|]. right. rewrite (Allow_refused _ _ _ Ha) in Hb. by destruct Hp.
  - destruct He as (c & l & _ & ->). apply Hsame; [done|]. cbn [advance]. by destruct x as [[]|].
Qed.

Lemma older_found acc entries : fst (foldl older acc entries) = fst acc \/ fst (foldl older acc entries) ∈ List.map fst entries.
Proof.
  revert acc. induction entries as [|[k c] entries IH]; intros acc; [by left|]. cbn [foldl List.map fst]. destruct (IH (older acc (k, c))) as [->|Hin]; [|right; set_solver].
  destruct acc as [oldestKey oldest]. unfold older. destruct (_ || _); cbn [fst]; [right; set_solver|by left].
Qed.

Lemma oldest_in entries : entries <> [] -> fst (foldl older (""%string, zero_time) entries) ∈ List.map fst entries.
Proof.
  destruct entries as [|[k c] entries]; [done|]. intros _. cbn [foldl]. destruct (older_found (older (""%string, zero_time) (k, c)) entries) as [->|Hin]; cbn; set_solver.
Qed.

Lemma handle_tenants service {X} (e : effect State X) s x s' :
  handle service e s x s' -> 0 < lt_MaximumTenantLimiters (sv_limits service) -> Z.of_nat (size (sh_tenants s)) <= lt_MaximumTenantLimiters (sv_limits service) ->
  Z.of_nat (size (sh_tenants s')) <= lt_MaximumTenantLimiters (sv_limits service).
Proof.
  intros He Hpos Hs. assert (Hsame : sh_tenants s' = sh_tenants s -> Z.of_nat (size (sh_tenants s')) <= lt_MaximumTenantLimiters (sv_limits service)) by (by intros ->).
  destruct e; cbn [handle] in He; try (apply Hsame; first [by subst|by destruct He as [-> _]|by destruct He as (? & ? & ->)|by destruct He as (? & ? & _ & ->)]).
  - destruct He as (entries & tenants & Hp & Hr & ->). cbn [sh_tenants]. clear Hsame. unfold tenantRateAllows in Hr. destruct (sh_tenants s !! tenantID) as [entry|] eqn:Et.
    + destruct (AllowN _ _ _) as [b l]. injection Hr as _ ->. rewrite map_size_insert_Some by (by eexists). done.
    + destruct (AllowN _ _ _) as [b l]. injection Hr as _ ->. destruct (Z.leb_spec (lt_MaximumTenantLimiters (sv_limits service)) (Z.of_nat (size (sh_tenants s)))).
      * assert (Hne : entries <> []). { intros ->. apply Permutation_nil_l in Hp. apply (f_equal length) in Hp. rewrite length_map_to_list in Hp. cbn in Hp. lia. }
        apply oldest_in, list_elem_of_In, in_map_iff in Hne as ([k c] & Hk & Hin%list_elem_of_In). cbn [fst] in Hk. rewrite Hp in Hin. apply elem_of_map_to_list in Hin. rewrite <- Hk.
        rewrite map_size_insert_None, map_size_delete_Some by (done || by rewrite lookup_delete_ne; [|congruence] || by eexists). lia.
      * rewrite map_size_insert_None by done. lia.
  - apply Hsame. destruct (_ <? _); by destruct He as [_ ->].
Qed.

(** ** Every interleaving *)
Definition answered (l : MemoryRepository) (r : ServiceResult) : Prop :=
  match rs_Record r with Some record => held_record l record /\ rs_Features r = jr_Features record | None => rs_Features r = [] end.

(** The provider is about to be called. *)
Definition calling (f : Flight (State:=State)) : bool :=
  match fl_prog f with Vis e _ => match e with Evaluate _ => true | _ => false end | Ret _ => false end.

Record pool_ok (service : Service) (p : Pool (State:=State)) : Prop := mk_pool_ok {
  pk_flights : map_Forall (fun _ f => safe (fl_prog f) (fl_held f) /\ Forall (held_record (sh_ledger (po_shared p))) (hd_seen (fl_held f))) (po_flights p);
  pk_slots : sh_slots (po_shared p) = tally slot_of (po_flights p) /\ sh_slots (po_shared p) <= lt_MaximumConcurrent (sv_limits service);
  pk_tenants : Z.of_nat (size (sh_tenants (po_shared p))) <= lt_MaximumTenantLimiters (sv_limits service);
  pk_probe : cb_probe (sh_breaker (po_shared p)) = true -> exists key f, po_flights p !! key = Some f /\ hd_call (fl_held f) = true;
  pk_ledger : ledger_valid (sh_ledger (po_shared p));
  pk_answers : Forall (fun a => answered (sh_ledger (po_shared p)) a.2) (po_answers p)
}.

Lemma justified_answered l seen r : Forall (held_record l) seen -> justified seen r -> answered l r.
Proof. unfold justified, answered. rewrite Forall_forall. destruct (rs_Record r); [|done]. intros Hs [Hin Hf]. split; [by apply Hs|done]. Qed.

Lemma answered_keeps l l' r : (forall y, held_record l y -> held_record l' y) -> answered l r -> answered l' r.
Proof. unfold answered. destruct (rs_Record r); [|done]. intros Hk [Hh Hf]. split; [by apply Hk|done]. Qed.

Lemma enter_answered service request ctx l c c' key now r :
  ledger_valid l -> enter service request ctx (LookupReusable l c c' (jk_TenantID (rq_KeyInput (State:=State) request)) key now) = Ok (inl r) -> answered l r.
Proof.
  intros Hl. unfold enter. destruct (request_invalid _ _); [done|]. intros (k & _ & He)%bind_Ok. destruct ctx; try by injection He as <-.
  destruct (LookupReusable _ _ _ _ _ _) as [x|e] eqn:El.
  - injection He as <-. split; [by eapply LookupReusable_held|done].
  - destruct (bool_decide _); [done|]. by injection He as <-.
Qed.

Lemma join_ok service p key id request :
  pool_ok service p ->
  pool_ok service (mk_Pool (po_shared p)
    (match po_flights p !! key with Some _ => po_flights p | None => <[key := mk_Flight (judgeMiss service key request) (mk_Held false false [])]> (po_flights p) end)
    (<[id := key]> (po_waiting p)) (po_answers p)).
Proof.
  intros [Hf [Hs Hc] Ht Hp Hl Ha]. destruct (po_flights p !! key) as [f|] eqn:Ek; [by constructor|]. constructor; cbn [po_shared po_flights po_answers]; try done.
  - apply map_Forall_insert_2; [|done]. split; [apply judgeMiss_safe|constructor].
  - rewrite tally_insert_new by done. cbn. by rewrite Z.add_0_l.
  - intros (k & f & Hk & Hcall)%Hp. exists k, f. split; [|done]. rewrite lookup_insert_ne; [done|congruence].
Qed.

Lemma flight_ok service p key X (e : effect State X) k held x s' :
  0 < lt_MaximumTenantLimiters (sv_limits service) -> pool_ok service p -> po_flights p !! key = Some (mk_Flight (Vis e k) held) -> handle service e (po_shared p) x s' ->
  pool_ok service (mk_Pool s' (<[key := mk_Flight (k x) (advance e held x)]> (po_flights p)) (po_waiting p) (po_answers p)).
Proof.
  intros Hpos [Hf [Hs Hc] Ht Hp Hl Ha] Hk He. pose proof (Hf _ _ Hk) as [[Hperm Hsafe] Hseen]. cbn [fl_prog fl_held] in *.
  destruct (handle_ledger _ _ _ _ _ held He Hl) as (Hl' & Hkeep & Hseen'). destruct (handle_slots _ _ _ _ _ held He Hperm Hc) as [Hs' Hc'].
  constructor; cbn [po_shared po_flights po_answers].
  - apply map_Forall_insert_2; [split; [apply Hsafe|by apply Hseen']|]. intros k' f' Hk'. destruct (Hf _ _ Hk') as [Hsf Hsn]. split; [done|].
    eapply Forall_impl; [exact Hsn|]. done.
  - split; [|done]. rewrite (tally_replace _ _ _ _ _ Hk), Hs', Hs. done.
  - by eapply handle_tenants.
  - intros Hb. destruct (handle_probe _ _ _ _ _ held He Hperm Hb) as [Hcall|[Hb' Hcall]].
    + exists key, (mk_Flight (k x) (advance e held x)). by rewrite lookup_insert_eq.
    + destruct (Hp Hb') as (k' & f' & Hk' & Hc2). destruct (decide (key = k')) as [<-|Hne].
      * exists key, (mk_Flight (k x) (advance e held x)). rewrite lookup_insert_eq. split; [done|]. cbn [fl_held]. rewrite Hk in Hk'. injection Hk' as <-. by rewrite Hcall.
      * exists k', f'. by rewrite lookup_insert_ne.
  - done.
  - eapply Forall_impl; [exact Ha|]. intros a. by apply answered_keeps.
Qed.

Lemma done_ok service p key r held waiting ids :
  pool_ok service p -> po_flights p !! key = Some (mk_Flight (Ret r) held) ->
  pool_ok service (mk_Pool (po_shared p) (delete key (po_flights p)) waiting (List.map (fun id => (id, r)) ids ++ po_answers p)).
Proof.
  intros [Hf [Hs Hc] Ht Hp Hl Ha] Hk. pose proof (Hf _ _ Hk) as [(Hslot & Hcall & Hj) Hseen]. cbn [fl_prog fl_held] in *.
  constructor; cbn [po_shared po_flights po_answers]; try done.
  - by apply map_Forall_delete.
  - split; [|done]. rewrite Hs, (tally_delete _ _ _ _ Hk). unfold slot_of at 1. cbn [fl_held]. by rewrite Hslot, Z.add_0_l.
  - intros (k & f & Hkf & Hc2)%Hp. exists k, f. split; [|done]. rewrite lookup_delete_ne; [done|]. intros <-. rewrite Hk in Hkf. injection Hkf as <-. cbn in Hc2. congruence.
  - apply Forall_app. split; [|done]. apply Forall_forall. intros a (id & <- & _)%list_elem_of_In%in_map_iff. by eapply justified_answered.
Qed.

Lemma pool_step_ok service p p' : 0 < lt_MaximumTenantLimiters (sv_limits service) -> pool_step service p p' -> pool_ok service p -> pool_ok service p'.
Proof.
  intros Hpos Hstep Hok. destruct Hstep as [p id request ctx c c' now key r _ He|p id request ctx c c' now key _ _ _|p key X e k held x s' Hk He|p key r held Hk|p id key d _ _].
  - destruct Hok. constructor; try done. cbn. constructor; [by eapply enter_answered|done].
  - by apply join_ok.
  - by eapply flight_ok.
  - by eapply done_ok.
  - destruct Hok. constructor; try done. cbn. by constructor.
Qed.

Definition start (shared : Shared) : Pool (State:=State) := mk_Pool shared ∅ ∅ [].

Lemma NewService_limits rubric limits ledger service shared :
  NewService rubric limits ledger = Ok (service, shared) -> sv_limits service = limits /\ limits_invalid limits = false /\
  shared = mk_Shared ledger (new_breaker (lt_CircuitFailureThreshold limits) (lt_CircuitOpenDuration limits)) 0 ∅
        (NewLimiter (lt_GlobalTokenRate limits) (lt_GlobalTokenBurst limits)).
Proof. unfold NewService. destruct (failed _ || _) eqn:E; [done|]. intros [= <- <-]. apply orb_false_iff in E as [_ E]. done. Qed.

Lemma reachable_ok rubric limits ledger service shared p :
  NewService rubric limits ledger = Ok (service, shared) -> ledger_valid ledger -> rtc (pool_step service) (start shared) p -> pool_ok service p.
Proof.
  intros (Hlim & Hinv & ->)%NewService_limits Hl Hr. unfold limits_invalid in Hinv. autorewrite with goboolsimpl in Hinv. destruct_and!.
  assert (Hpos : 0 < lt_MaximumTenantLimiters (sv_limits service)) by (rewrite Hlim; lia).
  assert (Hstart : pool_ok service (start (mk_Shared ledger (new_breaker (lt_CircuitFailureThreshold limits) (lt_CircuitOpenDuration limits)) 0 ∅
    (NewLimiter (lt_GlobalTokenRate limits) (lt_GlobalTokenBurst limits))))).
  { constructor; cbn [start po_flights po_shared po_answers sh_slots sh_tenants sh_breaker sh_ledger]; try done.
    - rewrite Hlim, tally_empty. lia.
    - rewrite map_size_empty, Hlim. lia. }
  induction Hr as [|a b c Hstep _ IH]; [done|]. apply IH. by eapply pool_step_ok.
Qed.

(** C27: In every reachable state the slots taken are those that flights hold, and
    there are at most as many as the configured concurrency; the flights that
    call the provider hold a slot each, and at most the configured number of
    tenants has a limiter. *)
Theorem capacity_bounded (rubric : RubricManifest) (limits : ServiceLimits) (ledger : MemoryRepository) (service : Service) (shared : Shared) (p : Pool) :
  NewService rubric limits ledger = Ok (service, shared) -> ledger_valid ledger -> rtc (pool_step service) (start shared) p ->
  sh_slots (po_shared p) = tally slot_of (po_flights p) /\
  tally calling (po_flights p) <= sh_slots (po_shared p) <= lt_MaximumConcurrent limits /\
  Z.of_nat (size (sh_tenants (po_shared p))) <= lt_MaximumTenantLimiters limits.
Proof.
  intros Hn Hl Hr. destruct (reachable_ok _ _ _ _ _ _ Hn Hl Hr) as [Hf [Hs Hc] Ht _ _ _]. apply NewService_limits in Hn as (<- & _ & _). split_and!; try done.
  rewrite Hs. apply tally_le. intros k f Hk. destruct (Hf k f Hk) as [Hsafe _]. unfold calling, slot_of. destruct f as [[r|X e c] h]; [done|]. cbn [fl_prog fl_held] in *.
  destruct e; try done. by destruct Hsafe as [[-> _] _].
Qed.

(** C28: The breaker is never stuck: in every reachable state in which no flight is
    between its passage of the breaker and its report, the next call is let
    through once the open period is over. *)
Theorem service_breaker_live (rubric : RubricManifest) (limits : ServiceLimits) (ledger : MemoryRepository) (service : Service) (shared : Shared) (p : Pool)
    (now : gotime) :
  NewService rubric limits ledger = Ok (service, shared) -> ledger_valid ledger -> rtc (pool_step service) (start shared) p ->
  (forall key f, po_flights p !! key = Some f -> hd_call (fl_held f) = false) -> t_ns (cb_openUntil (sh_breaker (po_shared p))) <= t_ns now ->
  fst (Allow (sh_breaker (po_shared p)) now) = true.
Proof.
  intros Hn Hl Hr Hcalls Hnow. pose proof (pk_probe _ _ (reachable_ok _ _ _ _ _ _ Hn Hl Hr)) as Hp. unfold Allow. destruct (IsZero _); [done|].
  unfold Before. rewrite (proj2 (Z.ltb_ge _ _)) by done. cbn [orb]. destruct (cb_probe _); [|done]. destruct (Hp eq_refl) as (key & f & Hk & Hc). by rewrite (Hcalls _ _ Hk) in Hc.
Qed.

(** C29: Every judgment that was answered is a valid record whose content is in the
    ledger, with the features of the record; an answer without a judgment has no
    features. *)
Theorem answers_from_ledger (rubric : RubricManifest) (limits : ServiceLimits) (ledger : MemoryRepository) (service : Service) (shared : Shared) (p : Pool)
    (id : nat) (r : ServiceResult) :
  NewService rubric limits ledger = Ok (service, shared) -> ledger_valid ledger -> rtc (pool_step service) (start shared) p ->
  (id, r) ∈ po_answers p -> answered (sh_ledger (po_shared p)) r.
Proof. intros Hn Hl Hr Hin. pose proof (pk_answers _ _ (reachable_ok _ _ _ _ _ _ Hn Hl Hr)) as Ha. rewrite Forall_forall in Ha. exact (Ha _ Hin). Qed.

(** ** Flights complete *)
Lemma handle_total service {X} (e : effect State X) s : exists x s', handle service e s x s'.
Proof.
  destruct e; cbn [handle]; try (by eexists zero_time, _); try (by eexists tt, _).
  - eexists _, s. split; [done|]. by exists None, None.
  - eexists _, s. split; [done|]. by exists None.
  - by exists None, s.
  - destruct (tenantRateAllows (sv_limits service) (map_to_list (sh_tenants s)) (sh_tenants s) tenantID now tokens) as [b t] eqn:E. by eexists b, _, _, t.
  - destruct (AllowN (sh_global s) now tokens) as [b g]. by eexists b, _, g.
  - destruct (_ <? _); by eexists _, _.
  - destruct (Allow (sh_breaker s) now) as [b g]. by eexists b, _, g.
  - by exists (inr (EvalOther, CtxLive)), s.
  - destruct (Commit (sh_ledger s) None key expectedPredecessorHash record) as [r l] eqn:E. by eexists r, _, None, l.
Qed.

Lemma flights_finite service shared p : rtc (pool_step service) (start shared) p -> map_Forall (fun _ f => finishes_within 12 (fl_prog f)) (po_flights p).
Proof.
  intros Hr. assert (Hg : forall a b, rtc (pool_step service) a b -> map_Forall (fun _ f => exists n, (n <= 12)%nat /\ finishes_within n (fl_prog f)) (po_flights a) ->
    map_Forall (fun _ f => exists n, (n <= 12)%nat /\ finishes_within n (fl_prog f)) (po_flights b)).
  { clear. intros a b Hr. induction Hr as [|a b c Hstep _ IH]; [done|]. intros Ha. apply IH. clear IH.
    destruct Hstep as [p id request ctx c1 c2 now key r _ He|p id request ctx c1 c2 now key _ _ _|p key X e k held x s' Hk He|p key r held Hk|p id key d _ _]; cbn [po_flights]; try done.
    - destruct (po_flights p !! key); [done|]. apply map_Forall_insert_2; [|done]. exists 12%nat. split; [lia|apply judgeMiss_finishes].
    - apply map_Forall_insert_2; [|done]. destruct (Ha _ _ Hk) as ([|n] & Hn & Hfin); [done|]. exists n. split; [lia|apply Hfin].
    - by apply map_Forall_delete. }
  intros k f Hk. destruct (Hg _ _ Hr) with k f as (n & Hn & Hfin); [done|done|]. revert n Hn Hfin. generalize 12%nat. induction (fl_prog f) as [r|X e c IH]; [done|].
  intros m [|n] Hn Hfin; [done|]. destruct m as [|m]; [lia|]. intros x. eapply IH; [|apply Hfin]. lia.
Qed.

(** A flight never waits for another: from every reachable state its own steps,
    at most thirteen, end it and answer every caller that waits for its key. *)
Theorem flight_completes (service : Service) (shared : Shared) (p : Pool) (key : string) (f : Flight) :
  rtc (pool_step service) (start shared) p -> po_flights p !! key = Some f ->
  exists p', bsteps (pool_step service) 13 p p' /\ po_flights p' !! key = None /\ forall id, po_waiting p' !! id <> Some key.
Proof.
  intros Hr Hk. assert (Hfin := flights_finite _ _ _ Hr _ _ Hk). clear Hr. revert p f Hk Hfin. change 13%nat with (12 + 1)%nat. generalize 12%nat.
  intros n. induction n as [|n IH]; intros p [[r|X e k] held] Hk Hfin; cbn [fl_prog] in Hfin; try done.
  1,2: eexists; split; [eapply bsteps_l; [by eapply step_done|apply bsteps_refl]|]; cbn [po_flights po_waiting]; split; [apply lookup_delete_eq|];
    intros id [_ Hne]%map_lookup_filter_Some; done.
  destruct (handle_total service e (po_shared p)) as (x & s' & He). pose proof (step_flight service p key X e k held x s' Hk He) as Hstep.
  destruct (IH (mk_Pool s' (<[key := mk_Flight (k x) (advance e held x)]> (po_flights p)) (po_waiting p) (po_answers p)) (mk_Flight (k x) (advance e held x)) (lookup_insert_eq (po_flights p) key _) (Hfin x)) as (p' & Hp' & Hd). exists p'. split; [|done]. by eapply bsteps_l.
Qed.
End sound.

(** ** Witnesses

    One call finds an empty ledger, joins a new flight, which reaches the
    provider and commits its judgment. *)
Section demo.
#[local] Existing Instance copy_jcs.
#[local] Existing Instance checksum_digest.

(** A limiter that counts down its burst. *)
#[local] Instance counting : RateLimiter := {
  Limit := Z; limit_positive := Z.ltb 0; limiter := Z; NewLimiter := fun _ burst => burst;
  AllowN := fun l _ n => if n <=? l then (true, l - n) else (false, l)
}.

Definition sample_limits : ServiceLimits := mk_ServiceLimits (60 * Second) Second 1 100 1000 10 500 2 3 (10 * Second).

Definition no_rubric : RubricManifest := mk_RubricManifest "" (mk_RubricManifestSpec "" "" "" "" 0 []) "" "" "".
Definition sample_rubric : RubricManifest := Eval vm_compute in match DefaultRubricV1 "jev-1.13.0" with Ok r => r | Err _ => no_rubric end.

Definition sample_service : Service := mk_Service sample_rubric sample_limits.

Definition fresh (slots : Z) (ledger : MemoryRepository) (tenants : gmap string tenantLimiter) (global : Z) : Shared :=
  mk_Shared ledger (new_breaker 3 (10 * Second)) slots tenants global.

Lemma sample_service_new : NewService sample_rubric sample_limits NewMemoryRepository = Ok (sample_service, fresh 0 NewMemoryRepository ∅ 1000).
Proof. vm_compute. reflexivity. Qed.

Definition sample_request : ServiceRequest string :=
  mk_ServiceRequest (mk_JudgmentKeyInput "tenant_a" (checksum_hex "query") "pver_1" (checksum_hex "document") (checksum_hex "environment")
    "epol_1" (rub_ID sample_rubric) ProviderTypeSafe "jev-1.13.0" "") "state" 400.

Definition the_key : string := Eval vm_compute in match NewJudgmentKey (rq_KeyInput sample_request) with Ok k => k | Err _ => "" end.

Definition the_record : JudgmentRecord := Eval vm_compute in
  record_of (mk_JudgmentRecordInput (rq_KeyInput sample_request) sample_judgment (mk_Usage 300 10) (at_second 1000) (at_second 1060)).

Definition the_evaluation : Evaluation := mk_Evaluation "jev-1.13.0" sample_judgment (mk_Usage 300 10).

Definition joined (n : Z) (ledger : MemoryRepository) (tenants : gmap string tenantLimiter) (global : Z) (p : prog string) (h : Held) : Pool :=
  mk_Pool (fresh n ledger tenants global) (<[the_key := mk_Flight p h]> ∅) (<[7%nat := the_key]> ∅) [].

Lemma joined_step n ledger tenants global X (e : effect string X) k h x n' ledger' tenants' global' :
  handle sample_service e (fresh n ledger tenants global) x (fresh n' ledger' tenants' global') ->
  pool_step sample_service (joined n ledger tenants global (Vis e k) h) (joined n' ledger' tenants' global' (k x) (advance e h x)).
Proof.
  intros He. unfold joined. pose proof (step_flight sample_service (joined n ledger tenants global (Vis e k) h) the_key X e k h x _ (lookup_insert_eq _ _ _) He) as Hs.
  unfold joined in Hs. cbn [po_flights po_waiting po_answers] in Hs. by rewrite insert_insert_eq in Hs.
Qed.

Definition tenants_after : gmap string tenantLimiter := <["tenant_a" := mk_tenantLimiter 100 (at_second 1000)]> ∅.

Lemma sample_join : pool_step sample_service (start (fresh 0 NewMemoryRepository ∅ 1000))
  (joined 0 NewMemoryRepository ∅ 1000 (judgeMiss sample_service the_key sample_request) (mk_Held false false [])).
Proof.
  assert (Hk : NewJudgmentKey (rq_KeyInput sample_request) = Ok the_key) by (vm_compute; reflexivity).
  assert (He : enter sample_service sample_request CtxLive (LookupReusable NewMemoryRepository None None "tenant_a" the_key (UTC (at_second 999))) = Ok (inr the_key))
    by (vm_compute; reflexivity).
  pose proof (step_join sample_service (start (fresh 0 NewMemoryRepository ∅ 1000)) 7 sample_request CtxLive None None (at_second 999) the_key Hk He (lookup_empty _)) as Hs.
  cbn [start po_flights po_shared po_waiting po_answers] in Hs. by rewrite lookup_empty in Hs.
Qed.

(** The state in which the provider is called. *)
Definition calling_pool : Pool :=
  joined 1 NewMemoryRepository tenants_after 600
    (Vis (Evaluate "state"%string) (judge_evaluation sample_service the_key (rq_KeyInput sample_request) "" (at_second 1000))) (mk_Held true true []).

Lemma sample_calling : rtc (pool_step sample_service) (start (fresh 0 NewMemoryRepository ∅ 1000)) calling_pool.
Proof.
  eapply rtc_l; [apply sample_join|].
  eapply rtc_l; [by apply (joined_step 0 NewMemoryRepository ∅ 1000 _ Clock _ _ (at_second 1000))|].
  eapply rtc_l.
  { apply (joined_step 0 NewMemoryRepository ∅ 1000 _ (Lookup _ _ _) _ _ (Err ErrJudgmentNotFound)). split; [done|]. exists None, None. vm_compute. reflexivity. }
  eapply rtc_l.
  { apply (joined_step 0 NewMemoryRepository ∅ 1000 _ (Head _ _) _ _ (Err ErrJudgmentNotFound)). split; [done|]. exists None. vm_compute. reflexivity. }
  eapply rtc_l; [by apply (joined_step 0 NewMemoryRepository ∅ 1000 _ Deadline _ _ (Some (at_second 1030)))|].
  eapply rtc_l.
  { apply (joined_step 0 NewMemoryRepository ∅ 1000 _ (TenantRate _ _ _) _ _ true 0 NewMemoryRepository tenants_after 1000).
    exists [], tenants_after. split_and!; [done|vm_compute; reflexivity|done]. }
  eapply rtc_l.
  { apply (joined_step 0 NewMemoryRepository tenants_after 1000 _ (GlobalRate _ _) _ _ true 0 NewMemoryRepository tenants_after 600). by exists 600. }
  eapply rtc_l; [by apply (joined_step 0 NewMemoryRepository tenants_after 600 _ TakeSlot _ _ true 1 NewMemoryRepository tenants_after 600)|].
  assert (Ha : handle sample_service (BreakerAllow (State:=string) (at_second 1000)) (fresh 1 NewMemoryRepository tenants_after 600) true
    (fresh 1 NewMemoryRepository tenants_after 600)) by (eexists; by split).
  apply rtc_once. exact (joined_step _ _ _ _ _ _ _ (mk_Held true false []) true _ _ _ _ Ha).
Qed.

(** The provider answers, and the judgment is committed. *)
Definition the_ledger : MemoryRepository := snd (Commit NewMemoryRepository None the_key "" the_record).

Lemma the_ledger_committed : (Ok (the_record, true), the_ledger) = Commit NewMemoryRepository None the_key "" the_record.
Proof.
  assert (Hf : fst (Commit NewMemoryRepository None the_key "" the_record) = Ok (the_record, true)) by (vm_compute; reflexivity).
  unfold the_ledger. destruct (Commit _ _ _ _ _) as [x r]. cbn [fst snd] in *. by rewrite Hf.
Qed.

#[local] Opaque the_ledger.

Lemma sample_evaluated : judge_evaluation (State:=string) sample_service the_key (rq_KeyInput sample_request) "" (at_second 1000) (inl the_evaluation) =
  Vis (Store the_key "" the_record) (fun stored =>
    match stored with
    | Err _ => Vis BreakerAbandon (fun _ => returning (unanswered DispositionLedgerUnavailable true))
    | Ok (winner, _) => Vis BreakerSuccess (fun _ => returning (resultFromRecord DispositionCommitted winner true))
    end).
Proof.
  assert (Hr : NewJudgmentRecord (mk_JudgmentRecordInput (rq_KeyInput sample_request) sample_judgment (mk_Usage 300 10) (at_second 1000)
    (time_Add (at_second 1000) (60 * Second))) = Ok the_record) by (vm_compute; reflexivity).
  unfold judge_evaluation. cbn [ev_Judgment ev_Usage the_evaluation sv_limits sample_service lt_ReuseDuration sample_limits]. by rewrite Hr.
Qed.

Definition committed : ServiceResult := resultFromRecord DispositionCommitted the_record true.

Definition answered_pool : Pool (State:=string) :=
  mk_Pool (fresh 0 the_ledger tenants_after 600) (delete the_key (<[the_key := mk_Flight (Ret committed) (mk_Held false false [the_record])]> ∅))
    (filter (fun w => w.2 <> the_key) (<[7%nat := the_key]> ∅)) [(7%nat, committed)].

Lemma sample_answered : rtc (pool_step sample_service) (start (State:=string) (fresh 0 NewMemoryRepository ∅ 1000)) answered_pool.
Proof.
  etransitivity; [apply sample_calling|].
  eapply rtc_l; [by apply (joined_step 1 NewMemoryRepository tenants_after 600 _ (Evaluate _) _ _ (inl the_evaluation) 1 NewMemoryRepository tenants_after 600)|].
  rewrite sample_evaluated. eapply rtc_l.
  { apply (joined_step 1 NewMemoryRepository tenants_after 600 _ (Store _ _ _) _ _ (Ok (the_record, true)) 1 the_ledger tenants_after 600).
    exists None, the_ledger. split; [apply the_ledger_committed|done]. }
  eapply rtc_l; [by apply (joined_step 1 the_ledger tenants_after 600 _ BreakerSuccess _ _ tt 1 the_ledger tenants_after 600)|].
  eapply rtc_l; [by apply (joined_step 1 the_ledger tenants_after 600 _ ReturnSlot _ _ tt 0 the_ledger tenants_after 600)|].
  apply rtc_once.
  exact (step_done sample_service (joined 0 the_ledger tenants_after 600 (Ret committed) (mk_Held false false [the_record])) the_key committed _ (lookup_insert_eq _ _ _)).
Qed.

Lemma empty_ledger_valid : ledger_valid NewMemoryRepository.
Proof. intros k x Hx. done. Qed.

Lemma capacity_bounded_witness : sh_slots (po_shared calling_pool) = 1 /\ tally calling (po_flights calling_pool) <= 1.
Proof.
  destruct (capacity_bounded _ _ _ _ _ _ sample_service_new empty_ledger_valid sample_calling) as (_ & [Hc Hm] & _). split; [done|].
  exact (Z.le_trans _ _ _ Hc Hm).
Defined.

Lemma service_breaker_live_witness : fst (Allow (sh_breaker (po_shared answered_pool)) (at_second 2000)) = true.
Proof.
  apply (service_breaker_live _ _ _ _ _ _ (at_second 2000) sample_service_new empty_ledger_valid sample_answered).
  - intros key f Hk. unfold answered_pool in Hk. cbn [po_flights] in Hk. rewrite delete_insert_eq, delete_empty in Hk. done.
  - vm_compute. discriminate.
Defined.

Lemma answers_from_ledger_witness : held_record the_ledger the_record.
Proof.
  exact (proj1 (answers_from_ledger _ _ _ _ _ _ 7 committed sample_service_new empty_ledger_valid sample_answered (list_elem_of_here _ _))).
Defined.

Lemma flight_completes_witness :
  exists p', bsteps (pool_step sample_service) 13 calling_pool p' /\ po_flights p' !! the_key = None /\ forall id, po_waiting p' !! id <> Some the_key.
Proof. exact (flight_completes _ _ _ the_key _ sample_calling (lookup_insert_eq _ _ _)). Defined.
End demo.
